(* ===== verification/_CoqProject ===== *)
-Q . S2P
Prelude.v
GoStrings.v
Base64.v
RingBuffer.v
SessionState.v
SessionStore.v
Channels.v
Streams.v
Notifications.v
BatchWriter.v
Users.v
Auth.v
UserApi.v
Dms.v
Resize.v
Protocol.v
Satellites.v
AgentRuns.v
RunStream.v
Json.v
AuditLog.v
Secrets.v
DeviceCode.v
Recording.v
RecordingApi.v
License.v
Dispatch.v
Discovery.v
Router.v
Panels.v
Routes.v
SessionApi.v
Agents.v
AgentExport.v
AgentRequests.v
Enroll.v
Schedules.v
Pipelines.v
PiBridge.v
Update.v
Provision.v
Ipc.v
Terminal.v
Gateway.v
ContextFiles.v
ContextSync.v
PiStart.v
Daemon.v
Attach.v
Run.v
Shutdown.v
Telemetry.v
SatelliteApi.v
Mux.v
Metrics.v
Startup.v
Server.v
