(* ===== verification/Prelude.v ===== *)
(** * DAAO: a verification library for the Nexus control plane and the satellite daemon

    DAAO runs AI agents in terminal sessions on satellites (src/cmd/daao) and
    lets users watch and steer them through a server, Nexus (src/cmd/nexus and
    src/internal). A satellite keeps one bidirectional stream to the gateway of
    the server (src/internal/grpc/gateway.go). The gateway persists what comes
    in, keeps the scrollback of every session in memory, publishes agent events
    to browsers, and routes commands back. This library models the Go code of
    both programs, component by component, and proves what each promises. Where
    the code does not do what it means to, a theorem states what it does.

    ** The files

    Shared:
    - [Prelude]: Go panics ([go]), errors ([result]), slices, and the lemmas,
      hints and tactics that the components share.
    - [GoStrings], [Base64], [Json], [Channels]: what the code uses of strings,
      strconv and encoding/base64, the typed half of json.Unmarshal, and buffered
      channels as references into a heap (sending on or closing a closed one
      panics).
    Sessions:
    - [RingBuffer]: src/pkg/buffer/ring.go, the scrollback of a session, byte by
      byte. [ring_wf] is the invariant, [contents] what is kept.
    - [SessionState], [SessionStore]: src/internal/session/store.go, the machine
      in memory ([may] is the state diagram as a relation), and the statements
      on the tables. A statement may fail, lose its acknowledgement, or lose its
      connection while rows are read.
    - [Resize], [Dms]: src/internal/session/resize.go and
      src/pkg/lifecycle/dms.go, the dead man switch with its goroutines.
    - [Streams]: src/internal/stream/registry.go (Registry),
      src/internal/agentstream/hub.go (Hub), the hub of
      src/internal/notification/sse.go (SSE) and
      src/internal/session/buffer_pool.go (Pool).
    - [Terminal]: src/internal/transport/websocket.go and the pushed session
      list; [Router]: src/internal/router/router.go and
      src/internal/transport/webtransport.go.
    - [Recording], [RecordingApi]: src/internal/recording and its handlers.
    Users and access:
    - [Users], [Auth], [UserApi], [DeviceCode]: src/internal/auth and the
      handlers and middleware of src/internal/api for accounts and sign-in.
    - [License]: src/internal/license. [Secrets]: src/internal/secrets and its
      two pages. [AuditLog]: src/internal/audit with its table and handlers.
    - [Notifications]: src/internal/notification with its table and handlers.
    Agents:
    - [AgentRuns], [BatchWriter], [RunStream]: the runs of agents, the batched
      writer of their events (slices share their backing array), the handlers
      and the live stream of a run.
    - [Agents], [AgentExport], [AgentRequests]: the definitions, their snapshots,
      deployments, YAML export and import, and requests to any of these. [Dispatch]: src/internal/dispatch.
    - [Schedules], [Pipelines]: schedules, triggers and pipelines with the
      scheduler and executor of the public edition, which refuse.
    The server:
    - [Protocol], [Satellites], [Gateway]: src/proto/satellite.proto, the
      satellites table, and the gateway. [Nexus] is the shared state, made of
      the states of the components; [Conn] is what one call of Connect keeps;
      [handle] is the receive loop, one definition per kind of message;
      [disconnect] the deferred clean-up; [step] a transition of the server with
      all its streams and goroutines.
    - [Routes], [SessionApi], [SatelliteApi], [Panels], [ContextFiles],
      [Discovery]: which handler serves a request, and the handlers.
    - [Mux], [Metrics]: the patterns of the server with net/http's ServeMux, and
      the names under which requests are counted.
    - [Startup]: src/cmd/nexus/main.go, from the environment to the running
      server (secrets, licence, first owner, database, handlers) and its shutdown.
    - [Server]: the composition of gateway, routing, handlers and liveness.
    The satellite (src/cmd/daao, src/internal/satellite, src/pkg/ipc):
    - [Daemon]: the sessions, commands, queues, reconnects and the switch of
      each session. [PiBridge], [PiStart]: the process of an agent, its command
      and its environment. [Shutdown]: how the goroutines of the daemon end.
      [Attach], [Run]: local terminals, and daao sessions and run. [Update]: the
      replacement of the binary. [Telemetry]: what is read from /proc.
      [ContextSync]: the watcher of context files. [Discovery]: front matter, drift, monitor
      scripts. [Enroll]: keys, registration and the pinned certificate.
      [Provision]: how Node.js and the Pi command line get onto the machine.
      [Ipc]: the JSON-RPC server of the control socket.

    ** How it corresponds to the code

    A method that holds its mutex from entry to return is one step. Where the
    code releases a lock or the database in between and this matters, the method
    is split: [Broadcast_start]/[Broadcast_send] (sse.go), [start_call]/
    [finish_call] (batch_writer.go), the program points [pc] of dms.go,
    [plan_state_update]/[write_state_update] (gateway.go), [announce] (resize.go),
    the statements of context.go, the labels of [RunStream], [Router] and
    [PiBridge]. Pointers that are shared are references into a store. time.Now()
    and generated uuids are arguments. A SQL statement is the function it denotes
    on the tables of src/db/migrations with their constraints; what it meets is
    an argument ([fault], [tx_fault], [query_fault]), in [Pipelines] by the number
    of the statement. Go's map order and PostgreSQL's row order are parameters
    that may be any permutation; its collation is a parameter too. Bytes are
    integers 0..255, a uuid is an [N], int and time are [Z] unless the code can
    overflow, float64 is Stdlib's [SpecFloat] where the code computes with it.

    Code that is not in the repository is a parameter, with the few laws that
    are used as named hypotheses: bcrypt, SHA-256, AES-GCM, Ed25519, X.509 and
    PEM, the parser and the signer of json web tokens, uuid, the printing and
    parsing of JSON and YAML, PostgreSQL's jsonb, the cron library, the driver of
    the database. The network, QUIC, processes and pipes are sources of steps.
    [SessionStoreInterface] with its laws is the interface between the gateway
    and the session store: the lemmas on state reports are proved from the laws,
    and [DB_laws] discharges them. [HitlManager] is the interface of the
    proposals, with the stub of the public edition as its instance.

    ** What is proved

    - Data: the ring buffer below capacity is a byte log across wrap-around and
      never panics; its image round-trips; full, it freezes. The batch writer
      doubles nothing unless a flush is interrupted, and loses the batches whose
      insert fails. Recordings (of UTF-8), secrets, agents with guardrails, front
      matter and registrations come back as they were.
    - The session machine: transitions follow the diagram; the transactional
      store refines it under any interleaving and failure, except where the
      statements that do not check the state write the row; listings and keyset
      pagination are exact, and truncated when a connection is lost.
    - Routing: sends reach the last registered channel; the run hub never panics
      and gives each subscriber exactly the log of its run; a client of a run
      gets every event of it once, unless it comes in the window where the event
      is published and not stored; a broadcast to tabs may panic where one of
      them leaves, which [Emit] recovers from, and may then miss another. No browser stream ever reaches a
      session through the router as it is wired.
    - Access: the rate limit, role checks, what passes the middleware with and
      without OIDC, the password round trip, device codes, licences signed with
      the one key, scopes of secrets, the audit log, the single certificate that
      a satellite trusts once it has pinned one.
    - The dead man switch: the flag is truthful, suspension needs a full TTL of
      idleness, and the races and the dead restart that remain.
    - Agents: the table keeps its invariant, the pipelines theirs where requests
      are served one at a time; what is deployed is what the process gets; the
      bridge to a process panics only where its reader begins too late, and ends
      unless a write to a process that does not read hangs; runs that were
      created by a pipeline stay pending.
    - The gateway with the handlers of sessions and satellites: no panic and every
      component's invariant from any start, for any number of satellites and
      requests (other handlers do panic, as [Agents] shows for a deployment); how a
      registration finds its row; what state reports, output, events do; the way
      of a command from the request to the process and back; and the hazards: a
      stale report that resurrects a session, a late disconnect that cuts off
      its successor, events that stick to a finished run.
    - The daemon: no panic, sessions capped, queues bounded, reconciliation, and
      the switch that never suspends a session; what an attached terminal shows,
      and what a process of an agent finds in its environment; when Stop returns.
      Panels, discovery, provisioning: what each shows or installs.
    - Start-up: the first owner, the secret that signs tokens, what the licence
      unlocks, and that a start never fails once the database answers.

    Recursions are structural, or on the length of what is read (the text that
    [Panels] cleans, the segments of a path); the other bounds are those of the
    code (the capacity of a buffer or channel, a page size, a retry count).

    ** What is not modelled

    Pure input and output: the calls of pseudo terminals, processes and signals
    (src/pkg/pty, proc), the load of the machine and of a process on Windows and
    macOS, sockets and the TLS dials of enrolment, the installation of Windows
    services, log lines (src/internal/logging), raw mode and colours of the
    terminal, flags of the command lines, and src/cmd/daao-mock. The markdown of a
    discovery report, the timing of a playback, the constant security headers,
    connection pools and migrations. Generated protobuf code, the stubs of the
    closed edition that no modelled code calls, and the browser client
    (src/cockpit). *)
From stdpp Require Export base gmap strings sorting relations numbers option.
From stdpp Require Export list.

(** ** Go computations that may panic *)

Inductive go (A : Type) : Type :=
  | Ret (a : A)
  | Panic.
Arguments Ret {A} a.
Arguments Panic {A}.

#[export] Instance go_ret : MRet go := λ A a, Ret a.
#[export] Instance go_bind : MBind go := λ A B f m,
  match m with Ret a => f a | Panic => Panic end.
#[export] Instance go_fmap : FMap go := λ A B f m,
  match m with Ret a => Ret (f a) | Panic => Panic end.

(** The second result of a Go function: a value or an error. *)
Inductive result (E A : Type) : Type :=
  | Ok (a : A)
  | Err (e : E).
Arguments Ok {E A} a.
Arguments Err {E A} e.

Definition is_ok {E A} (r : result E A) : bool :=
  match r with Ok _ => true | Err _ => false end.

(** ** Integers *)

(** Go's [%] truncates towards zero and panics on a zero divisor. *)
Definition go_rem (a b : Z) : go Z :=
  if (b =? 0)%Z then Panic else Ret (Z.rem a b).

(** ** Slices, indexed by Go's [int] *)

Section Slices.
Context {A : Type}.
Implicit Types (l dst src : list A) (i lo hi off : Z).

Definition zlookup l i : option A :=
  if (0 <=? i)%Z then l !! Z.to_nat i else None.

(** [l[i]]: panics out of range. *)
Definition index l i : go A :=
  match zlookup l i with Some a => Ret a | None => Panic end.

(** [l[i] = a]: panics out of range. *)
Definition set_index l i (a : A) : go (list A) :=
  if (0 <=? i)%Z && (i <? Z.of_nat (length l))%Z
  then Ret (<[Z.to_nat i := a]> l) else Panic.

(** [l[lo:hi]] of a slice whose capacity is its length. *)
Definition slice l lo hi : go (list A) :=
  if (0 <=? lo)%Z && (lo <=? hi)%Z && (hi <=? Z.of_nat (length l))%Z
  then Ret (take (Z.to_nat (hi - lo)) (drop (Z.to_nat lo) l)) else Panic.

(** What [copy(dst, src)] leaves in [dst]. *)
Definition go_copy dst src : list A :=
  take (length dst) src ++ drop (length src) dst.

(** What [copy(dst[off:], src)] leaves in [dst]. *)
Definition copy_at dst off src : go (list A) :=
  if (0 <=? off)%Z && (off <=? Z.of_nat (length dst))%Z
  then Ret (take (Z.to_nat off) dst ++ go_copy (drop (Z.to_nat off) dst) src)
  else Panic.
End Slices.

(** ** Lemmas on slices and integers *)

Create HintDb daao.
Create Rewrite HintDb daao_len.

Lemma go_rem_mod (a b : Z) : (0 ≤ a)%Z → (0 < b)%Z → go_rem a b = Ret (a `mod` b)%Z.
Proof.
  intros Ha Hb. unfold go_rem. destruct (Z.eqb_spec b 0); [lia|].
  by rewrite Z.rem_mod_nonneg by lia.
Qed.

Lemma mod_plus_self (a c : Z) : (c ≠ 0 → (a + c) `mod` c = a `mod` c)%Z.
Proof. intros. rewrite <-(Z.mod_add a 1) by lia. f_equal. lia. Qed.

Lemma Ret_inj {A} (a b : A) : Ret a = Ret b → a = b.
Proof. congruence. Qed.

Lemma Ok_inj {E A} (a b : A) : Ok (E := E) a = Ok b → a = b.
Proof. congruence. Qed.

Lemma go_bind_Ret {A B} (m : go A) (f : A → go B) (b : B) :
  (m ≫= f) = Ret b ↔ ∃ a, m = Ret a ∧ f a = Ret b.
Proof.
  destruct m as [a|]; simpl; split.
  - eauto.
  - by intros (a' & [= ->] & ?).
  - done.
  - by intros (? & ? & _).
Qed.

Section SliceLemmas.
Context {A : Type}.
Implicit Types (l dst src : list A) (i lo hi off : Z).

Lemma index_in `{!Inhabited A} l i :
  (0 ≤ i < Z.of_nat (length l))%Z → index l i = Ret (l !!! Z.to_nat i).
Proof.
  intros Hi. unfold index, zlookup. destruct (Z.leb_spec 0 i); [|lia].
  destruct (lookup_lt_is_Some_2 l (Z.to_nat i)) as [x Hx]; [lia|].
  by rewrite Hx, (list_lookup_total_correct _ _ _ Hx).
Qed.

Lemma set_index_in l i a :
  (0 ≤ i < Z.of_nat (length l))%Z → set_index l i a = Ret (<[Z.to_nat i := a]> l).
Proof.
  intros Hi. unfold set_index.
  destruct (Z.leb_spec 0 i), (Z.ltb_spec i (Z.of_nat (length l))); simpl; done || lia.
Qed.

Lemma slice_in l lo hi :
  (0 ≤ lo)%Z → (lo ≤ hi)%Z → (hi ≤ Z.of_nat (length l))%Z →
  slice l lo hi = Ret (take (Z.to_nat (hi - lo)) (drop (Z.to_nat lo) l)).
Proof.
  intros. unfold slice.
  destruct (Z.leb_spec 0 lo), (Z.leb_spec lo hi),
    (Z.leb_spec hi (Z.of_nat (length l))); simpl; done || lia.
Qed.

Lemma slice_tail l lo :
  (0 ≤ lo)%Z → (lo ≤ Z.of_nat (length l))%Z →
  slice l lo (Z.of_nat (length l)) = Ret (drop (Z.to_nat lo) l).
Proof.
  intros. rewrite slice_in by lia. f_equal. apply take_ge.
  rewrite length_drop. lia.
Qed.

Lemma length_go_copy dst src : length (go_copy dst src) = length dst.
Proof. unfold go_copy. rewrite length_app, length_take, length_drop. lia. Qed.

Lemma go_copy_full dst src : length src = length dst → go_copy dst src = src.
Proof.
  intros H. unfold go_copy. rewrite take_ge by lia. rewrite drop_ge by lia.
  apply app_nil_r.
Qed.

Lemma take_go_copy n dst src :
  n ≤ length dst → n ≤ length src → take n (go_copy dst src) = take n src.
Proof.
  intros. unfold go_copy. rewrite take_app_le by (rewrite length_take; lia).
  rewrite take_take. f_equal. lia.
Qed.

Lemma copy_at_in dst off src :
  (0 ≤ off ≤ Z.of_nat (length dst))%Z →
  copy_at dst off src =
    Ret (take (Z.to_nat off) dst ++ go_copy (drop (Z.to_nat off) dst) src).
Proof.
  intros. unfold copy_at.
  destruct (Z.leb_spec 0 off), (Z.leb_spec off (Z.of_nat (length dst))); simpl; done || lia.
Qed.

(** Filling the tail of [dst] from [off] with exactly as many elements. *)
Lemma copy_at_tail dst off src :
  (0 ≤ off)%Z → (off + Z.of_nat (length src) = Z.of_nat (length dst))%Z →
  copy_at dst off src = Ret (take (Z.to_nat off) dst ++ src).
Proof.
  intros. rewrite copy_at_in by lia. do 2 f_equal.
  apply go_copy_full. rewrite length_drop. lia.
Qed.
End SliceLemmas.

(** Reading through a list comprehension over [seqZ]. *)
Lemma lookup_fmap_seqZ {A} (f : Z → A) (n : Z) (i : nat) :
  (Z.of_nat i < n)%Z → (f <$> seqZ 0 n) !! i = Some (f (Z.of_nat i)).
Proof.
  intros. rewrite list_lookup_fmap, lookup_seqZ_lt by lia. simpl. by rewrite Z.add_0_l.
Qed.

Lemma lookup_fmap_seqZ_ge {A} (f : Z → A) (n : Z) (i : nat) :
  (n ≤ Z.of_nat i)%Z → (f <$> seqZ 0 n) !! i = None.
Proof. intros. by rewrite list_lookup_fmap, lookup_seqZ_ge by lia. Qed.

(** Filters that keep everything, or nothing. *)
Lemma list_filter_all {A} (P : A → Prop) `{∀ x, Decision (P x)} (l : list A) :
  Forall P l → filter P l = l.
Proof. induction 1; [done|]. rewrite filter_cons_True by done. by f_equal. Qed.

Lemma list_filter_nil {A} (P : A → Prop) `{∀ x, Decision (P x)} (l : list A) :
  Forall (λ x, ¬ P x) l → filter P l = [].
Proof. induction 1; [done|]. by rewrite filter_cons_False. Qed.

#[export] Hint Rewrite @length_go_copy @length_take @length_drop @length_app
  @length_insert @length_replicate @length_fmap length_seqZ : daao_len.

(** Case analysis on the boolean comparisons of the code. *)
Ltac bool_cases :=
  repeat match goal with
  | |- context [Z.eqb ?a ?b] => destruct (Z.eqb_spec a b); try lia
  | |- context [Z.ltb ?a ?b] => destruct (Z.ltb_spec a b); try lia
  | |- context [Z.leb ?a ?b] => destruct (Z.leb_spec a b); try lia
  end; simpl.

(** Lengths first, then linear arithmetic. *)
Ltac len_lia := autorewrite with daao_len in *; lia.
