(* ===== verification/GoStrings.v ===== *)
(** * The functions of Go's strings and strconv packages that the components use

    Strings are sequences of bytes, in Go as in Rocq, so these are definitions
    on [string]; lengths count bytes. [TrimSpace] and [ToUpper] are given for
    ASCII; the lemmas relate prefixes, suffixes and the functions that strip
    them. *)
From Stdlib Require Import Ascii.
From S2P Require Import Prelude.
From stdpp Require Import pretty.
#[local] Open Scope Z_scope.

Module Str.

(** ** Prefixes and suffixes *)

Fixpoint strip_prefix (s p : string) {struct p} : option string :=
  match p, s with
  | EmptyString, _ => Some s
  | String a p', String b s' => if Ascii.eqb a b then strip_prefix s' p' else None
  | String _ _, EmptyString => None
  end.
Definition HasPrefix (s p : string) : bool := bool_decide (is_Some (strip_prefix s p)).
Definition TrimPrefix (s p : string) : string := default s (strip_prefix s p).

Fixpoint strip_suffix (s x : string) : option string :=
  if String.eqb s x then Some EmptyString else
  match s with
  | EmptyString => None
  | String c s' => String c <$> strip_suffix s' x
  end.
Definition HasSuffix (s x : string) : bool := bool_decide (is_Some (strip_suffix s x)).
Definition TrimSuffix (s x : string) : string := default s (strip_suffix s x).

Fixpoint Contains (s sub : string) : bool :=
  HasPrefix s sub || match s with EmptyString => false | String _ s' => Contains s' sub end.

(** ContainsRune of an ASCII character. *)
Fixpoint ContainsByte (s : string) (c : Ascii.ascii) : bool :=
  match s with EmptyString => false | String a s' => Ascii.eqb a c || ContainsByte s' c end.

(** TrimRight(s, cutset) for a cutset of one ASCII character. *)
Fixpoint TrimRight (s : string) (c : Ascii.ascii) : string :=
  match s with
  | EmptyString => EmptyString
  | String a s' =>
      match TrimRight s' c with
      | EmptyString => if Ascii.eqb a c then EmptyString else String a EmptyString
      | t => String a t
      end
  end.

Definition is_space (c : Ascii.ascii) : bool :=
  let n := Ascii.nat_of_ascii c in
  (n =? 32)%nat || ((9 <=? n)%nat && (n <=? 13)%nat).

Fixpoint TrimLeftSpace (s : string) : string :=
  match s with
  | String c s' => if is_space c then TrimLeftSpace s' else s
  | EmptyString => s
  end.
Fixpoint TrimRightSpace (s : string) : string :=
  match s with
  | EmptyString => EmptyString
  | String a s' =>
      match TrimRightSpace s' with
      | EmptyString => if is_space a then EmptyString else String a EmptyString
      | t => String a t
      end
  end.
Definition TrimSpace (s : string) : string := TrimRightSpace (TrimLeftSpace s).

(** Split(s, sep) for a separator of one character. *)
Fixpoint Split (s : string) (sep : Ascii.ascii) : list string :=
  match s with
  | EmptyString => [EmptyString]
  | String c s' =>
      if Ascii.eqb c sep then EmptyString :: Split s' sep
      else match Split s' sep with
           | [] => [String c EmptyString]
           | x :: xs => String c x :: xs
           end
  end.

(** SplitN(s, sep, 2), if it gives two parts. *)
Fixpoint Cut (s sep : string) : option (string * string) :=
  match strip_prefix s sep with
  | Some t => Some (EmptyString, t)
  | None => match s with
            | EmptyString => None
            | String c s' => match Cut s' sep with
                             | Some (a, b) => Some (String c a, b)
                             | None => None
                             end
            end
  end.

Definition upper (c : Ascii.ascii) : Ascii.ascii :=
  let n := Ascii.nat_of_ascii c in
  if (97 <=? n)%nat && (n <=? 122)%nat then Ascii.ascii_of_nat (n - 32) else c.
Fixpoint ToUpper (s : string) : string :=
  match s with EmptyString => EmptyString | String c s' => String (upper c) (ToUpper s') end.

(** ReplaceAll(s, c, by) for a pattern of one character. *)
Fixpoint ReplaceAll (s : string) (c : Ascii.ascii) (by_ : string) : string :=
  match s with
  | EmptyString => EmptyString
  | String a s' => (if Ascii.eqb a c then by_ else String a EmptyString) +:+ ReplaceAll s' c by_
  end.

(** ** Numbers *)

Definition is_digit (c : Ascii.ascii) : bool :=
  let n := Ascii.nat_of_ascii c in (48 <=? n)%nat && (n <=? 57)%nat.
Definition digit (c : Ascii.ascii) : Z := Z.of_nat (Ascii.nat_of_ascii c) - 48.

Definition max_int : Z := 9223372036854775807.
Definition min_int : Z := -9223372036854775808.

(** A nonempty string of digits, nothing else. *)
Fixpoint all_digits (s : string) (acc : Z) : option Z :=
  match s with
  | EmptyString => Some acc
  | String c s' => if is_digit c then all_digits s' (10 * acc + digit c) else None
  end.
Definition digits (s : string) : option Z :=
  match s with EmptyString => None | _ => all_digits s 0 end.

(** strconv.Atoi: a sign and digits, within an int of 64 bits. *)
Definition Atoi (s : string) : option Z :=
  let fits z := if (min_int <=? z) && (z <=? max_int) then Some z else None in
  match s with
  | String "-"%char s' => digits s' ≫= λ z, fits (- z)
  | String "+"%char s' => digits s' ≫= fits
  | _ => digits s ≫= fits
  end.

(** strconv.Itoa *)
Definition Itoa (z : Z) : string := pretty z.

(** ** Sscanf *)

(** The blanks that the verb %d skips: not the newline. *)
Definition is_blank (c : Ascii.ascii) : bool :=
  let n := Ascii.nat_of_ascii c in
  (n =? 32)%nat || (n =? 9)%nat || (n =? 11)%nat || (n =? 12)%nat || (n =? 13)%nat.

Fixpoint skip_spaces (s : string) : string :=
  match s with
  | String c s' => if is_blank c then skip_spaces s' else s
  | EmptyString => s
  end.

(** The longest prefix of digits, read in base ten. *)
Fixpoint scan_digits (s : string) (acc : option Z) : option Z :=
  match s with
  | String c s' =>
      if is_digit c
      then scan_digits s' (Some (10 * default 0 acc + Z.of_nat (Ascii.nat_of_ascii c - 48)))
      else acc
  | EmptyString => acc
  end.

(** fmt.Sscanf(s, %d, &n) into an int of 64 bits: blanks, a sign, digits; what
    follows is ignored; an overflow is an error. *)
Definition Sscanf_d (s : string) : option Z :=
  let fits z := if (-9223372036854775808 <=? z) && (z <=? 9223372036854775807) then Some z else None in
  match skip_spaces s with
  | EmptyString => None
  | String c s' =>
      if (Ascii.nat_of_ascii c =? 45)%nat then scan_digits s' None ≫= λ z, fits (- z)
      else if (Ascii.nat_of_ascii c =? 43)%nat then scan_digits s' None ≫= fits
      else scan_digits (String c s') None ≫= fits
  end.

(** ** Lemmas *)

Lemma strip_prefix_app p s : strip_prefix (p +:+ s) p = Some s.
Proof. induction p as [|a p IH]; simpl; [done|]. by rewrite Ascii.eqb_refl. Qed.

Lemma strip_prefix_Some s p t : strip_prefix s p = Some t ↔ s = p +:+ t.
Proof.
  split; [|intros ->; apply strip_prefix_app].
  revert s. induction p as [|a p IH]; intros s; simpl; [by intros [= ->]|].
  destruct s as [|b s]; [done|]. destruct (Ascii.eqb_spec a b) as [->|]; [|done].
  by intros ->%IH.
Qed.

Lemma HasPrefix_true s p : HasPrefix s p = true ↔ ∃ t, s = p +:+ t.
Proof.
  unfold HasPrefix. rewrite bool_decide_eq_true. unfold is_Some. by setoid_rewrite strip_prefix_Some.
Qed.
Lemma HasPrefix_app p s : HasPrefix (p +:+ s) p = true.
Proof. apply HasPrefix_true. eauto. Qed.
Lemma TrimPrefix_app p s : TrimPrefix (p +:+ s) p = s.
Proof. unfold TrimPrefix. by rewrite strip_prefix_app. Qed.

Lemma length_app s t : String.length (s +:+ t) = (String.length s + String.length t)%nat.
Proof. induction s as [|c s IH]; simpl; [done|]. by rewrite IH. Qed.

Lemma strip_suffix_Some s x t : strip_suffix s x = Some t ↔ s = t +:+ x.
Proof.
  revert t. induction s as [|c s IH]; intros t; cbn [strip_suffix].
  - destruct (String.eqb_spec EmptyString x) as [<-|Hx]; split.
    + by intros [= <-].
    + by destruct t.
    + done.
    + destruct t; [|done]. intros H. by destruct Hx.
  - destruct (String.eqb_spec (String c s) x) as [<-|Hx]; split.
    + by intros [= <-].
    + intros H. apply (f_equal String.length) in H as Hl. rewrite length_app in Hl. simpl in Hl.
      destruct t; [done|simpl in Hl; lia].
    + intros (t' & Ht & ->)%fmap_Some. apply IH in Ht as ->. done.
    + intros H. destruct t as [|a t]; cbn in H; [by destruct Hx|]. injection H as -> H. apply IH in H. by rewrite H.
Qed.

Lemma HasSuffix_true s x : HasSuffix s x = true ↔ ∃ t, s = t +:+ x.
Proof.
  unfold HasSuffix. rewrite bool_decide_eq_true. unfold is_Some. by setoid_rewrite strip_suffix_Some.
Qed.
Lemma HasSuffix_app t x : HasSuffix (t +:+ x) x = true.
Proof. apply HasSuffix_true. eauto. Qed.
Lemma TrimSuffix_app t x : TrimSuffix (t +:+ x) x = t.
Proof. unfold TrimSuffix. by rewrite (proj2 (strip_suffix_Some _ _ t) eq_refl). Qed.

Lemma app_inj_l p s t : p +:+ s = p +:+ t → s = t.
Proof. induction p as [|c p IH]; [done|]. intros H. cbn in H. injection H as H. auto. Qed.

Lemma app_nil_str s : s +:+ "" = s.
Proof. induction s as [|c s IH]; [done|]. change (String c s +:+ "") with (String c (s +:+ "")). by rewrite IH. Qed.
Lemma app_assoc_str a b c : (a +:+ b) +:+ c = a +:+ (b +:+ c).
Proof. induction a as [|x a IH]; [done|]. change (String x ((a +:+ b) +:+ c) = String x (a +:+ (b +:+ c))). by rewrite IH. Qed.

Lemma ContainsByte_app s t c : ContainsByte (s +:+ t) c = ContainsByte s c || ContainsByte t c.
Proof. induction s as [|a s IH]; cbn; [done|]. by rewrite <- orb_assoc, <- IH. Qed.

(** A string that ends in another character than [c] is not trimmed. *)
Lemma TrimRight_app s x c :
  x ≠ EmptyString → TrimRight x c = x → TrimRight (s +:+ x) c = s +:+ x.
Proof.
  intros Hx Ht. induction s as [|a s IH]; [done|]. change (TrimRight (String a (s +:+ x)) c = String a (s +:+ x)).
  cbn [TrimRight]. rewrite IH. destruct (s +:+ x) eqn:E; [|done].
  destruct s; cbn in E; [by destruct Hx|done].
Qed.

Lemma TrimRight_free s c : ContainsByte s c = false → TrimRight s c = s.
Proof.
  induction s as [|a s IH]; simpl; [done|]. intros [Ha Hs]%orb_false_iff. rewrite IH by done.
  rewrite Ha. by destruct s.
Qed.

(** Two suffixes of one string: the shorter is a suffix of the longer. *)
Lemma suffixes_nest t x u y : t +:+ x = u +:+ y → HasSuffix x y = true ∨ HasSuffix y x = true.
Proof.
  revert u. induction t as [|c t IH]; intros u H.
  - left. change (x = u +:+ y) in H. rewrite H. apply HasSuffix_app.
  - destruct u as [|d u].
    + right. change (String c t +:+ x = y) in H. rewrite <- H. apply HasSuffix_app.
    + injection H as -> H. by apply (IH u).
Qed.

Lemma HasSuffix_app_false t x y :
  HasSuffix x y = false → HasSuffix y x = false → HasSuffix (t +:+ x) y = false.
Proof.
  intros H1 H2. apply not_true_is_false. intros (u & H)%HasSuffix_true.
  destruct (suffixes_nest t x u y H); congruence.
Qed.

(** The text after the last separator. *)
Lemma last_segment c a x b y :
  ContainsByte x c = false → ContainsByte y c = false →
  a +:+ String c x = b +:+ String c y → x = y.
Proof.
  assert (∀ s t, ContainsByte (s +:+ String c t) c = true) as Hc.
  { intros s t. rewrite ContainsByte_app. cbn [ContainsByte]. by rewrite Ascii.eqb_refl, orb_true_r. }
  intros Hx Hy. revert b. induction a as [|d a IH]; intros [|e b] H.
  - by injection H.
  - change (String c x = String e (b +:+ String c y)) in H. injection H as _ H.
    by rewrite H, Hc in Hx.
  - change (String d (a +:+ String c x) = String c y) in H. injection H as _ H.
    by rewrite <- H, Hc in Hy.
  - injection H as _ H. by apply (IH b).
Qed.

Lemma HasPrefix_one s c t : HasPrefix (String c s) (String c t) = HasPrefix s t.
Proof. unfold HasPrefix. cbn [strip_prefix]. by rewrite Ascii.eqb_refl. Qed.

Lemma Contains_one s c : Contains s (String c EmptyString) = ContainsByte s c.
Proof.
  induction s as [|a s IH]; [done|]. cbn [Contains ContainsByte]. rewrite IH. f_equal.
  unfold HasPrefix. cbn [strip_prefix]. rewrite Ascii.eqb_sym. by destruct (Ascii.eqb a c).
Qed.

Example Split_1 : Split "a,b,,c" "," = ["a"; "b"; ""; "c"]. Proof. reflexivity. Qed.
Example Atoi_1 : map Atoi ["12"; "-7"; "+3"; ""; "1x"; "9223372036854775808"; "-"] =
  [Some 12; Some (-7); Some 3; None; None; None; None].
Proof. reflexivity. Qed.
Example TrimSpace_1 : TrimSpace "  a b " = "a b". Proof. reflexivity. Qed.
Example TrimRight_1 : TrimRight "/api/v1//" "/" = "/api/v1". Proof. reflexivity. Qed.
Example TrimSuffix_1 : (TrimSuffix "x/attach" "/attach", TrimSuffix "x" "/attach") = ("x", "x").
Proof. reflexivity. Qed.
Example Contains_1 : (Contains "a/../b" "..", Contains "a.b" "..") = (true, false).
Proof. reflexivity. Qed.

Example Sscanf_d_1 : Sscanf_d "  -12ab" = Some (-12). Proof. reflexivity. Qed.


(** ** Split *)

Lemma Split_free s c : Forall (λ x, ContainsByte x c = false) (Split s c).
Proof.
  induction s as [|a s IH]; cbn [Split]; [by constructor|]. destruct (Ascii.eqb a c) eqn:E; [by constructor|].
  destruct (Split s c) as [|x xs]; [by repeat constructor; cbn; rewrite E|].
  inversion IH as [|? ? Hx Hxs]; subst. constructor; [|done]. cbn [ContainsByte]. by rewrite E, Hx.
Qed.

Lemma Split_sep x c s : ContainsByte x c = false → Split (x +:+ String c s) c = x :: Split s c.
Proof.
  induction x as [|a x IH]; intros Hx.
  - change (Split (String c s) c = ""%string :: Split s c). cbn [Split]. by rewrite Ascii.eqb_refl.
  - cbn [ContainsByte] in Hx. apply orb_false_iff in Hx as [Ha Hx].
    change (Split (String a (x +:+ String c s)) c = String a x :: Split s c).
    cbn [Split]. rewrite Ha, IH by done. done.
Qed.

Lemma Split_none x c : ContainsByte x c = false → Split x c = [x].
Proof.
  induction x as [|a x IH]; intros Hx; [done|]. cbn [ContainsByte] in Hx. apply orb_false_iff in Hx as [Ha Hx].
  cbn [Split]. rewrite Ha, IH by done. done.
Qed.

(** What was split joins again. *)
Lemma Split_first s c x xs : Split s c = x :: xs →
  (xs = [] ∧ s = x) ∨ (∃ t, s = x +:+ String c t ∧ Split t c = xs).
Proof.
  revert x xs. induction s as [|a s IH]; intros x xs; cbn [Split].
  - intros [= <- <-]. by left.
  - destruct (Ascii.eqb_spec a c) as [->|Hac].
    + intros [= <- <-]. right. by exists s.
    + destruct (Split s c) as [|y ys] eqn:E.
      * intros [= <- <-]. exfalso. destruct s as [|b s']; [done|]. cbn [Split] in E.
        destruct (Ascii.eqb b c); [done|]. by destruct (Split s' c).
      * intros [= <- <-]. destruct (IH y ys eq_refl) as [[-> ->]|(t & -> & Ht)]; [by left|].
        right. exists t. split; [|done]. done.
Qed.

Lemma Split_join3 s c x y z : Split s c = [x; y; z] →
  s = x +:+ String c EmptyString +:+ y +:+ String c EmptyString +:+ z.
Proof.
  intros [[? _]|(t & -> & Ht)]%Split_first; [done|]. apply Split_first in Ht as [[? _]|(u & -> & Hu)]; [done|].
  by apply Split_first in Hu as [[_ ->]|(v & -> & Hv)]; [|destruct v; cbn in Hv; repeat case_match; done].
Qed.

(** ** Itoa and Atoi *)

Lemma all_digits_pretty_N x s : all_digits (pretty_N_go x s) 0 = all_digits s (Z.of_N x).
Proof.
  revert s. induction (N.lt_wf_0 x) as [x _ IH]; intros s.
  destruct (decide (x = 0%N)) as [->|Hx]; [done|]. assert (0 < x)%N by lia.
  rewrite pretty_N_go_step by done. rewrite IH by (apply N.div_lt; lia). cbn [all_digits].
  pose proof (N.mod_lt x 10 ltac:(done)) as Hm. pose proof (N.div_mod x 10 ltac:(done)) as Hdm.
  assert (∀ n, (n < 10)%N → is_digit (pretty_N_char n) = true ∧ digit (pretty_N_char n) = Z.of_N n) as Hc.
  { intros n Hn. assert (n = 0 ∨ n = 1 ∨ n = 2 ∨ n = 3 ∨ n = 4 ∨ n = 5 ∨ n = 6 ∨ n = 7 ∨ n = 8 ∨ n = 9)%N
      as Hcases by lia. by repeat destruct Hcases as [->|Hcases]; subst. }
  destruct (Hc _ Hm) as [-> ->]. f_equal. lia.
Qed.

Lemma digits_pretty_N x : digits (pretty x) = Some (Z.of_N x).
Proof.
  unfold pretty, pretty_N. case_decide as Hx; [by subst|].
  pose proof (all_digits_pretty_N x "") as H. cbn [all_digits] in H. unfold digits.
  destruct (pretty_N_go x "") eqn:E; [|done]. cbn [all_digits] in H. exfalso. assert (0 = Z.of_N x) by congruence. lia.
Qed.

Lemma Atoi_Itoa z : 0 <= z <= max_int → Atoi (Itoa z) = Some z.
Proof.
  intros Hz. unfold Itoa. assert (pretty z = pretty (Z.to_N z)) as ->.
  { destruct z as [|p|p]; [done|done|lia]. }
  pose proof (digits_pretty_N (Z.to_N z)) as H. rewrite Z2N.id in H by lia. unfold Atoi.
  assert ((min_int <=? z) && (z <=? max_int) = true) as Hfits by (unfold min_int; lia).
  set (s := pretty (Z.to_N z)) in *. clearbody s. destruct s as [|[[] [] [] [] [] [] [] []] s]; try done;
    cbn [mbind option_bind]; rewrite ?H; cbn [mbind option_bind]; rewrite ?Hfits; done.
Qed.
(** ** UTF-8, as encoding/json writes a string *)

Definition in_range (lo hi : nat) (c : ascii) : bool := (lo <=? nat_of_ascii c)%nat && (nat_of_ascii c <=? hi)%nat.
Definition continuation (c : ascii) : bool := in_range 128 191 c.

(** The number of bytes that follow the first one in the rune a text begins with. *)
Definition rune_rest (s : string) : option nat :=
  match s with
  | EmptyString => None
  | String b0 r =>
      if in_range 0 127 b0 then Some 0%nat else
      match r with
      | EmptyString => None
      | String b1 r =>
          if in_range 194 223 b0 then (if continuation b1 then Some 1%nat else None) else
          match r with
          | EmptyString => None
          | String b2 r =>
              if in_range 224 239 b0 then
                if in_range (if in_range 224 224 b0 then 160 else 128) (if in_range 237 237 b0 then 159 else 191) b1
                   && continuation b2 then Some 2%nat else None
              else match r with
                   | EmptyString => None
                   | String b3 _ =>
                       if in_range 240 244 b0
                          && in_range (if in_range 240 240 b0 then 144 else 128) (if in_range 244 244 b0 then 143 else 191) b1
                          && continuation b2 && continuation b3 then Some 3%nat else None
                   end
          end
      end
  end.

(** U+FFFD *)
Definition replacement : string :=
  String (ascii_of_nat 239) (String (ascii_of_nat 191) (String (ascii_of_nat 189) EmptyString)).

(** [keep]: the bytes of the current rune that are left. *)
Fixpoint to_valid (keep : nat) (s : string) : string :=
  match s, keep with
  | EmptyString, _ => EmptyString
  | String c r, S k => String c (to_valid k r)
  | String c r, O =>
      match rune_rest s with
      | Some k => String c (to_valid k r)
      | None => replacement +:+ to_valid 0 r
      end
  end.
(** Each byte that belongs to no rune becomes U+FFFD. *)
Definition ToValidUTF8 (s : string) : string := to_valid 0 s.

Fixpoint valid_from (keep : nat) (s : string) : bool :=
  match s, keep with
  | EmptyString, _ => true
  | String c r, S k => valid_from k r
  | String c r, O => match rune_rest s with Some k => valid_from k r | None => false end
  end.
Definition ValidString (s : string) : bool := valid_from 0 s.

Lemma to_valid_valid s : ∀ keep, valid_from keep s = true → to_valid keep s = s.
Proof.
  induction s as [|c s IH]; intros [|k] H; [done..| |]; cbn [to_valid valid_from] in *.
  - destruct (rune_rest _); [|done]. by rewrite IH.
  - by rewrite IH.
Qed.
Lemma ToValidUTF8_valid s : ValidString s = true → ToValidUTF8 s = s.
Proof. apply to_valid_valid. Qed.

End Str.
