(* ===== verification/Base64.v ===== *)
(** * encoding/base64: the two alphabets with padding

    EncodeToString and DecodeString of base64.StdEncoding and
    base64.URLEncoding: characters \r and \n are skipped, the padding must be
    there, bits that are left over are not looked at. A byte string is a
    [string]. *)
From Stdlib Require Import Ascii.
From S2P Require Import Prelude GoStrings.
#[local] Open Scope Z_scope.

Module Base64.

Inductive Encoding := StdEncoding | URLEncoding.

Definition byte (c : ascii) : Z := Z.of_N (N_of_ascii c).
Definition to_byte (z : Z) : ascii := ascii_of_N (Z.to_N z).

Definition last_chars (e : Encoding) : ascii * ascii :=
  match e with StdEncoding => ("+", "/")%char | URLEncoding => ("-", "_")%char end.
Definition encode_char (e : Encoding) (d : Z) : ascii :=
  if d <? 26 then to_byte (65 + d) else if d <? 52 then to_byte (97 + (d - 26))
  else if d <? 62 then to_byte (48 + (d - 52))
  else if d =? 62 then (last_chars e).1 else (last_chars e).2.

Definition decode_char (e : Encoding) (c : ascii) : option Z :=
  let n := byte c in
  if (65 <=? n) && (n <=? 90) then Some (n - 65)
  else if (97 <=? n) && (n <=? 122) then Some (n - 97 + 26)
  else if (48 <=? n) && (n <=? 57) then Some (n - 48 + 52)
  else if Ascii.eqb c (last_chars e).1 then Some 62
  else if Ascii.eqb c (last_chars e).2 then Some 63 else None.

Definition pad : ascii := "=".

(** The four digits of 24 bits, and the three bytes. *)
Definition digit (e : Encoding) (v k : Z) : ascii := encode_char e (Z.land (Z.shiftr v (6 * k)) 63).
Definition val_byte (v k : Z) : ascii := to_byte (Z.land (Z.shiftr v (8 * k)) 255).
Definition bytes3 (a b c : Z) : Z := Z.lor (Z.lor (Z.shiftl a 16) (Z.shiftl b 8)) c.
Definition digits4 (a b c d : Z) : Z :=
  Z.lor (Z.lor (Z.lor (Z.shiftl a 18) (Z.shiftl b 12)) (Z.shiftl c 6)) d.

Fixpoint EncodeToString (e : Encoding) (s : string) : string :=
  match s with
  | EmptyString => EmptyString
  | String a EmptyString =>
      let v := bytes3 (byte a) 0 0 in
      String (digit e v 3) (String (digit e v 2) (String pad (String pad EmptyString)))
  | String a (String b EmptyString) =>
      let v := bytes3 (byte a) (byte b) 0 in
      String (digit e v 3) (String (digit e v 2) (String (digit e v 1) (String pad EmptyString)))
  | String a (String b (String c s')) =>
      let v := bytes3 (byte a) (byte b) (byte c) in
      String (digit e v 3) (String (digit e v 2) (String (digit e v 1) (String (digit e v 0)
        (EncodeToString e s'))))
  end.

Definition is_newline (c : ascii) : bool := (byte c =? 10) || (byte c =? 13).
Fixpoint skip_newlines (s : string) : string :=
  match s with
  | EmptyString => EmptyString
  | String c s' => if is_newline c then skip_newlines s' else String c (skip_newlines s')
  end.

Fixpoint decode_quanta (e : Encoding) (s : string) : option string :=
  match s with
  | EmptyString => Some EmptyString
  | String a (String b (String c (String d s'))) =>
      x ← decode_char e a; y ← decode_char e b;
      match decode_char e c, decode_char e d with
      | Some z, Some t =>
          let v := digits4 x y z t in
          rest ← decode_quanta e s';
          Some (String (val_byte v 2) (String (val_byte v 1) (String (val_byte v 0) rest)))
      | Some z, None =>
          let v := digits4 x y z 0 in
          if Ascii.eqb d pad && String.eqb s' EmptyString
          then Some (String (val_byte v 2) (String (val_byte v 1) EmptyString)) else None
      | None, _ =>
          let v := digits4 x y 0 0 in
          if Ascii.eqb c pad && Ascii.eqb d pad && String.eqb s' EmptyString
          then Some (String (val_byte v 2) EmptyString) else None
      end
  | _ => None
  end.

Definition DecodeString (e : Encoding) (s : string) : option string := decode_quanta e (skip_newlines s).

(** ** Decoding what was encoded *)

Lemma to_byte_byte c : to_byte (byte c) = c.
Proof. unfold to_byte, byte. rewrite N2Z.id. apply ascii_N_embedding. Qed.

Lemma byte_range c : 0 <= byte c < 256.
Proof. unfold byte. pose proof (N_ascii_bounded c). lia. Qed.

(** What each of the 64 digits satisfies, by evaluation. *)
Definition digit_ok (e : Encoding) (d : Z) : bool :=
  bool_decide (decode_char e (encode_char e d) = Some d) &&
  negb (is_newline (encode_char e d)) && negb (Ascii.eqb (encode_char e d) pad) &&
  negb (Ascii.eqb (encode_char e d) ".").

Lemma digits_ok e d : 0 <= d < 64 → digit_ok e d = true.
Proof.
  intros Hd. assert (∀ n : nat, (n < 64)%nat → digit_ok e (Z.of_nat n) = true) as H.
  { intros n Hn. assert (forallb (λ n, digit_ok e (Z.of_nat n)) (seq 0 64) = true) as Hall by (destruct e; vm_compute; done).
    rewrite forallb_forall in Hall. apply Hall, in_seq. lia. }
  specialize (H (Z.to_nat d) ltac:(lia)). by rewrite Z2Nat.id in H by lia.
Qed.

Lemma digit_range v k : 0 <= Z.land (Z.shiftr v (6 * k)) 63 < 64.
Proof.
  change 63 with (Z.ones 6). rewrite Z.land_ones by lia. by apply Z.mod_pos_bound.
Qed.

Lemma digit_facts e v k :
  decode_char e (digit e v k) = Some (Z.land (Z.shiftr v (6 * k)) 63) ∧
  is_newline (digit e v k) = false ∧ Ascii.eqb (digit e v k) pad = false ∧
  Ascii.eqb (digit e v k) "." = false.
Proof.
  pose proof (digits_ok e _ (digit_range v k)) as H. unfold digit_ok in H.
  rewrite !andb_true_iff, !negb_true_iff, bool_decide_eq_true in H. unfold digit. tauto.
Qed.

Lemma lor_add m b k : 0 <= k → 0 <= b < 2 ^ k → Z.lor (m * 2 ^ k) b = m * 2 ^ k + b.
Proof.
  intros Hk Hb. rewrite <- Z.shiftl_mul_pow2 by done.
  assert (Z.land (Z.shiftl m k) b = 0) as H0.
  { apply Z.bits_inj'. intros i Hi. rewrite Z.land_spec, Z.bits_0, Z.shiftl_spec by done.
    destruct (Z.ltb_spec i k); [by rewrite Z.testbit_neg_r by lia|].
    rewrite <- (Z.mod_small b (2 ^ k)), Z.mod_pow2_bits_high, andb_false_r by lia. done. }
  by rewrite Z.add_nocarry_lxor, Z.lxor_lor.
Qed.

Lemma bytes3_eq a b c : 0 <= b < 256 → 0 <= c < 256 → bytes3 a b c = a * 65536 + b * 256 + c.
Proof.
  intros Hb Hc. unfold bytes3. rewrite !Z.shiftl_mul_pow2 by done.
  rewrite (lor_add a (b * 2 ^ 8) 16) by lia.
  replace (a * 2 ^ 16 + b * 2 ^ 8) with ((a * 256 + b) * 2 ^ 8) by lia. rewrite lor_add by lia. lia.
Qed.

Lemma digits4_eq a b c d : 0 <= b < 64 → 0 <= c < 64 → 0 <= d < 64 →
  digits4 a b c d = a * 262144 + b * 4096 + c * 64 + d.
Proof.
  intros Hb Hc Hd. unfold digits4. rewrite !Z.shiftl_mul_pow2 by done.
  rewrite (lor_add a (b * 2 ^ 12) 18) by lia.
  replace (a * 2 ^ 18 + b * 2 ^ 12) with ((a * 64 + b) * 2 ^ 12) by lia. rewrite lor_add by lia.
  replace ((a * 64 + b) * 2 ^ 12 + c * 2 ^ 6) with ((a * 4096 + b * 64 + c) * 2 ^ 6) by lia.
  rewrite lor_add by lia. lia.
Qed.

Lemma sextet v k : 0 <= k → Z.land (Z.shiftr v (6 * k)) 63 = v / 2 ^ (6 * k) mod 64.
Proof. intros Hk. change 63 with (Z.ones 6). by rewrite Z.land_ones, Z.shiftr_div_pow2 by lia. Qed.
Lemma octet v k : 0 <= k → Z.land (Z.shiftr v (8 * k)) 255 = v / 2 ^ (8 * k) mod 256.
Proof. intros Hk. change 255 with (Z.ones 8). by rewrite Z.land_ones, Z.shiftr_div_pow2 by lia. Qed.

Notation sextet_of v k := (Z.land (Z.shiftr v (6 * k)) 63).

(** The digits of a group give the group back; digits that were dropped were 0. *)
Lemma join_digits v : 0 <= v < 16777216 →
  digits4 (sextet_of v 3) (sextet_of v 2) (sextet_of v 1) (sextet_of v 0) = v.
Proof.
  intros Hv. rewrite digits4_eq by (change 63 with (Z.ones 6); rewrite Z.land_ones by lia; by apply Z.mod_pos_bound).
  rewrite !sextet by done. change (2 ^ (6 * 3)) with 262144. change (2 ^ (6 * 2)) with 4096.
  change (2 ^ (6 * 1)) with 64. change (2 ^ (6 * 0)) with 1. Z.div_mod_to_equations. lia.
Qed.

Lemma split_bytes a b c :
  val_byte (bytes3 (byte a) (byte b) (byte c)) 2 = a ∧
  val_byte (bytes3 (byte a) (byte b) (byte c)) 1 = b ∧
  val_byte (bytes3 (byte a) (byte b) (byte c)) 0 = c.
Proof.
  unfold val_byte. pose proof (byte_range a). pose proof (byte_range b). pose proof (byte_range c).
  rewrite bytes3_eq, !octet by lia. change (2 ^ (8 * 2)) with 65536. change (2 ^ (8 * 1)) with 256.
  change (2 ^ (8 * 0)) with 1. set (x := byte a) in *. set (y := byte b) in *. set (z := byte c) in *.
  replace ((x * 65536 + y * 256 + z) / 65536 mod 256) with x by (Z.div_mod_to_equations; lia).
  replace ((x * 65536 + y * 256 + z) / 256 mod 256) with y by (Z.div_mod_to_equations; lia).
  replace ((x * 65536 + y * 256 + z) / 1 mod 256) with z by (Z.div_mod_to_equations; lia).
  unfold x, y, z. by rewrite !to_byte_byte.
Qed.

Lemma group_range a b c : 0 <= bytes3 (byte a) (byte b) (byte c) < 16777216.
Proof.
  pose proof (byte_range a). pose proof (byte_range b). pose proof (byte_range c).
  rewrite bytes3_eq by lia. lia.
Qed.

(** The characters 0 stand for the bytes that are missing. *)
Lemma zero_digit a b :
  sextet_of (bytes3 (byte a) (byte b) 0) 0 = 0 ∧
  sextet_of (bytes3 (byte a) 0 0) 0 = 0 ∧ sextet_of (bytes3 (byte a) 0 0) 1 = 0.
Proof.
  pose proof (byte_range a). pose proof (byte_range b). rewrite !bytes3_eq, !sextet by lia.
  change (2 ^ (6 * 1)) with 64. change (2 ^ (6 * 0)) with 1. Z.div_mod_to_equations. lia.
Qed.

(** Strings by threes. *)
Lemma string_ind3 (P : string → Prop) :
  P "" → (∀ a, P (String a "")) → (∀ a b, P (String a (String b ""))) →
  (∀ a b c s, P s → P (String a (String b (String c s)))) → ∀ s, P s.
Proof.
  intros H0 H1 H2 H3. fix IH 1. intros [|a [|b [|c s]]]; [done|apply H1|apply H2|apply H3, IH].
Qed.

Lemma skip_encoded e s : skip_newlines (EncodeToString e s) = EncodeToString e s.
Proof.
  induction s as [|a|a b|a b c s IH] using string_ind3; [done|..]; cbn [EncodeToString skip_newlines];
    repeat match goal with |- context [digit e ?v ?k] =>
      rewrite (proj1 (proj2 (digit_facts e v k))) end; [done..|]. by rewrite IH.
Qed.

Lemma decode_encoded e s : DecodeString e (EncodeToString e s) = Some s.
Proof.
  unfold DecodeString. rewrite skip_encoded.
  induction s as [|a|a b|a b c s IH] using string_ind3; [done|..]; cbn [EncodeToString decode_quanta].
  - rewrite !(proj1 (digit_facts _ _ _)). cbn [mbind option_bind].
    assert (decode_char e pad = None) as -> by by destruct e. cbn.
    destruct (zero_digit a "000"%char) as (_ & H0 & H1).
    pose proof (join_digits (bytes3 (byte a) 0 0) (group_range a "000" "000")) as Hj. rewrite H0, H1 in Hj.
    rewrite Hj. pose proof (proj1 (split_bytes a "000" "000")) as E. change (byte "000") with 0 in E. by rewrite E.
  - rewrite !(proj1 (digit_facts _ _ _)). cbn [mbind option_bind].
    assert (decode_char e pad = None) as -> by by destruct e. cbn.
    destruct (zero_digit a b) as (H0 & _).
    pose proof (join_digits (bytes3 (byte a) (byte b) 0) (group_range a b "000")) as Hj. rewrite H0 in Hj.
    rewrite Hj. destruct (split_bytes a b "000") as (E1 & E2 & _). change (byte "000") with 0 in E1, E2.
    by rewrite E1, E2.
  - rewrite !(proj1 (digit_facts _ _ _)). cbn [mbind option_bind]. rewrite IH. cbn [mbind option_bind].
    rewrite join_digits by apply group_range. destruct (split_bytes a b c) as (-> & -> & ->). done.
Qed.

(** Without the padding: what a JSON web token uses. *)
Definition RawURL (s : string) : string := Str.TrimRight (EncodeToString URLEncoding s) pad.

Lemma RawURL_no_dot s : Str.ContainsByte (RawURL s) "." = false.
Proof.
  unfold RawURL. assert (∀ s c x, Str.ContainsByte s x = false → Str.ContainsByte (Str.TrimRight s c) x = false) as Htrim.
  { clear. induction s as [|a s IH]; intros c x; [done|]. cbn [Str.ContainsByte Str.TrimRight].
    intros [Ha Hs]%orb_false_iff. specialize (IH c x Hs). destruct (Str.TrimRight s c) as [|d r].
    - destruct (Ascii.eqb a c); [done|]. cbn [Str.ContainsByte]. by rewrite Ha.
    - cbn [Str.ContainsByte] in *. by rewrite Ha. }
  apply Htrim. induction s as [|a|a b|a b c s IH] using string_ind3; [done|..];
    cbn [EncodeToString Str.ContainsByte];
    repeat match goal with |- context [Ascii.eqb (digit URLEncoding ?v ?k) "."] =>
      rewrite (proj2 (proj2 (proj2 (digit_facts URLEncoding v k)))) end; [done..|]. by rewrite IH.
Qed.

Example EncodeToString_1 : EncodeToString StdEncoding "light work" = "bGlnaHQgd29yaw==". Proof. reflexivity. Qed.
Example DecodeString_1 : map (DecodeString URLEncoding) ["bGln"; "bGk="; "bA=="; "bA="; "b"; "bB=="; "b+=="] =
  [Some "lig"; Some "li"; Some "l"; None; None; Some "l"; None].
Proof. reflexivity. Qed.
End Base64.
