(* ===== verification/RingBuffer.v ===== *)
(** * pkg/buffer/ring.go: the ANSI-aware scrollback ring buffer

    A [RingBuffer] is the struct of the source; a byte is a [Z] in [0,256).
    Slicing and indexing outside a slice, and a zero divisor, are [Panic].
    The mutex is not modelled: every method holds it from entry to return, so
    a method is one atomic step on the buffer. *)
From S2P Require Import Prelude.
#[local] Open Scope Z_scope.

Module Ring.

(** ** State *)

Record RingBuffer := mkRingBuffer {
  data : list Z;      (* []byte *)
  head : Z;           (* next write position *)
  len : Z;            (* current data length (field [length]) *)
  cap : Z;            (* field [capacity] *)
}.

Definition DefaultCapacity : Z := 5 * 1024 * 1024.

Definition NewRingBuffer (capacity : Z) : RingBuffer :=
  let capacity := if capacity <=? 0 then DefaultCapacity else capacity in
  mkRingBuffer (replicate (Z.to_nat capacity) 0) 0 0 capacity.

(** ** Eviction *)

Definition isANSIBoundary (d : list Z) (pos capacity length : Z) : go bool :=
  if length =? 0 then Ret true else
  b ← index d pos;
  if b <? 0x20 then Ret true
  else if (b =? 0x1B) || (b =? 0x9B) then Ret true
  else if (0x80 <=? b) && (b <=? 0xBF) then Ret false
  else if 0xC0 <=? b then Ret true
  else Ret true.

(** The loop [for i := 0; i < searchLimit; i++] of [findEvictPosition], with
    [n] iterations left; [None] when it falls through. *)
Fixpoint evict_search (rb : RingBuffer) (searchStart i : Z) (n : nat) : go (option Z) :=
  match n with
  | O => Ret None
  | S n' =>
      pos ← go_rem (searchStart - i + cap rb) (cap rb);
      prevPos ← go_rem (pos - 1 + cap rb) (cap rb);
      ok ← isANSIBoundary (data rb) prevPos (cap rb) (len rb);
      if (ok : bool) then Ret (Some pos)
      else evict_search rb searchStart (i + 1) n'
  end.

Definition findEvictPosition (rb : RingBuffer) : go Z :=
  let headPos := head rb in
  let searchLimit := if len rb <? 32 then len rb else 32 in
  searchStart ← go_rem (headPos - 1 + cap rb) (cap rb);
  found ← evict_search rb searchStart 0 (Z.to_nat searchLimit);
  match found with
  | Some pos => Ret pos
  | None => go_rem (headPos - searchLimit + cap rb) (cap rb)
  end.

(** ** Write *)

(** One iteration of the loop of [Write]. *)
Definition write_byte (rb : RingBuffer) (b : Z) : go RingBuffer :=
  d ← set_index (data rb) (head rb) b;
  h ← go_rem (head rb + 1) (cap rb);
  if len rb <? cap rb then Ret (mkRingBuffer d h (len rb + 1) (cap rb))
  else
    evictPos ← findEvictPosition (mkRingBuffer d h (len rb) (cap rb));
    Ret (mkRingBuffer d evictPos (len rb) (cap rb)).

Fixpoint write_bytes (rb : RingBuffer) (p : list Z) : go RingBuffer :=
  match p with
  | [] => Ret rb
  | b :: p' => rb' ← write_byte rb b; write_bytes rb' p'
  end.

(** The error result of [Write] is always nil; the count is [len(p)]. *)
Definition Write (rb : RingBuffer) (p : list Z) : go (RingBuffer * Z) :=
  if Z.of_nat (length p) =? 0 then Ret (rb, 0) else
  rb' ← write_bytes rb p;
  Ret (rb', Z.of_nat (length p)).

(** ** Snapshots *)

(** The body [Snapshot] and [SnapshotWithLen] share. *)
Definition Snapshot (rb : RingBuffer) : go (list Z) :=
  if len rb =? 0 then Ret [] else
  start ← go_rem (head rb - len rb + cap rb) (cap rb);
  let res := replicate (Z.to_nat (len rb)) 0 in
  if start + len rb <=? cap rb then
    src ← slice (data rb) start (start + len rb);
    Ret (go_copy res src)
  else
    let firstPart := cap rb - start in
    s1 ← slice (data rb) start (Z.of_nat (length (data rb)));
    s2 ← slice (data rb) 0 (head rb);
    copy_at (go_copy res s1) firstPart s2.

Definition SnapshotWithLen (rb : RingBuffer) : go (list Z * Z) :=
  if len rb =? 0 then Ret ([], 0) else
  s ← Snapshot rb; Ret (s, len rb).

Definition Len (rb : RingBuffer) : Z := len rb.
Definition Capacity (rb : RingBuffer) : Z := cap rb.
Definition Reset (rb : RingBuffer) : RingBuffer :=
  mkRingBuffer (data rb) 0 0 (cap rb).

(** ** Binary snapshots *)

(** [binary.LittleEndian.PutUint32] of [uint32(v)]. *)
Definition le32 (v : Z) : list Z :=
  let u := v mod 2 ^ 32 in
  [u mod 256; (u / 2 ^ 8) mod 256; (u / 2 ^ 16) mod 256; (u / 2 ^ 24) mod 256].

(** [binary.LittleEndian.Uint32] of the first four bytes. *)
Definition le32_decode (d : list Z) : Z :=
  match d with
  | a :: b :: c :: e :: _ => a + b * 2 ^ 8 + c * 2 ^ 16 + e * 2 ^ 24
  | _ => 0
  end.

Definition BinarySnapshot (rb : RingBuffer) : go (list Z) :=
  let header := le32 (len rb) ++ le32 (cap rb) in
  let snapshot := header ++ replicate (Z.to_nat (len rb)) 0 in
  if 0 <? len rb then
    start ← go_rem (head rb - len rb + cap rb) (cap rb);
    if start + len rb <=? cap rb then
      src ← slice (data rb) start (start + len rb);
      copy_at snapshot 8 src
    else
      let firstPart := cap rb - start in
      s1 ← slice (data rb) start (Z.of_nat (length (data rb)));
      s2 ← slice (data rb) 0 (head rb);
      snapshot' ← copy_at snapshot 8 s1;
      copy_at snapshot' (8 + firstPart) s2
  else Ret snapshot.

Inductive ring_error := ErrInvalidSnapshot.

(** A panic leaves [capacity] and [length] already overwritten: the state is
    returned beside the outcome. *)
Definition ReadFromBinary (rb : RingBuffer) (d : list Z)
    : RingBuffer * go (option ring_error) :=
  if Z.of_nat (length d) <? 8 then (rb, Ret (Some ErrInvalidSnapshot)) else
  let length_ := le32_decode (take 4 d) in
  let capacity := le32_decode (take 4 (drop 4 d)) in
  if Z.of_nat (length d) <? 8 + length_ then (rb, Ret (Some ErrInvalidSnapshot)) else
  let rb1 := mkRingBuffer (data rb) (head rb) length_ capacity in
  match go_rem length_ capacity with
  | Panic => (rb1, Panic)
  | Ret h =>
      let buf := if Z.of_nat (length (data rb)) <? capacity
                 then replicate (Z.to_nat capacity) 0 else data rb in
      if 0 <? length_ then
        (* [data[8:8+length]]: the bound is a [uint32] sum *)
        match slice d 8 ((8 + length_) mod 2 ^ 32) with
        | Panic => (mkRingBuffer buf h length_ capacity, Panic)
        | Ret src => (mkRingBuffer (go_copy buf src) h length_ capacity, Ret None)
        end
      else (mkRingBuffer buf h length_ capacity, Ret None)
  end.

(** ** Sequence detection *)

Definition isSafeEvictionPoint (d : list Z) (pos capacity dataLen : Z) : go bool :=
  if dataLen =? 0 then Ret true else
  b ← index d pos;
  if pos =? 0 then Ret true else
  prevPos ← go_rem (pos - 1 + capacity) capacity;
  prevB ← index d prevPos;
  if (prevB =? 0x1B) && (b =? 0x5B) then Ret true
  else if (prevB =? 0x1B) && (b =? 0x5D) then Ret true
  else if (prevB =? 0x1B) && (b =? 0x50) then Ret true
  else if (prevB =? 0x1B) && (b =? 0x4E) then Ret true
  else if (prevB =? 0x1B) && (b =? 0x4F) then Ret true
  else if prevB =? 0x1B then Ret false
  else if (0x80 <=? b) && (b <=? 0xBF) then Ret false
  else Ret true.

(** The loop of [trimToANSIBoundary], with [n] iterations left. *)
Fixpoint trim_search (d : list Z) (headPos dataLen capacity i : Z) (n : nat)
    : go (option Z) :=
  match n with
  | O => Ret None
  | S n' =>
      pos ← go_rem (headPos - i - 1 + capacity) capacity;
      ok ← isSafeEvictionPoint d pos capacity dataLen;
      if (ok : bool) then r ← go_rem (pos + 1) capacity; Ret (Some r)
      else trim_search d headPos dataLen capacity (i + 1) n'
  end.

Definition trimToANSIBoundary (d : list Z) (dataLen capacity : Z) : go Z :=
  if dataLen =? 0 then Ret 0 else
  headPos ← go_rem dataLen capacity;
  let searchLimit := if dataLen <? 64 then dataLen else 64 in
  found ← trim_search d headPos dataLen capacity 0 (Z.to_nat searchLimit);
  match found with
  | Some r => Ret r
  | None => go_rem (headPos - dataLen + capacity) capacity
  end.

(** The common body of [IsCSI], [IsOSC], [IsDCS], [IsSS2] and [IsSS3]. *)
Definition isEscPair (second : Z) (d : list Z) (pos : Z) : go bool :=
  if Z.of_nat (length d) - 1 <=? pos then Ret false else
  b ← index d pos;
  if negb (b =? 0x1B) then Ret false else
  c ← index d (pos + 1); Ret (c =? second).

Definition IsCSI := isEscPair 0x5B.
Definition IsOSC := isEscPair 0x5D.
Definition IsDCS := isEscPair 0x50.
Definition IsSS2 := isEscPair 0x4E.
Definition IsSS3 := isEscPair 0x4F.
Definition IsUTF8MultibyteStart (b : Z) : bool := 0xC0 <=? b.
Definition IsUTF8Continuation (b : Z) : bool := (0x80 <=? b) && (b <=? 0xBF).

(** ** The invariant and the abstract contents *)

Record ring_wf (rb : RingBuffer) : Prop := mk_ring_wf {
  wf_cap : 0 < cap rb <= Z.of_nat (length (data rb));
  wf_head : 0 <= head rb < cap rb;
  wf_len : 0 <= len rb <= cap rb;
}.

(** The byte at logical position [i] of the contents, oldest first. *)
Definition ring_at (rb : RingBuffer) (i : Z) : Z :=
  data rb !!! Z.to_nat ((head rb - len rb + i) mod cap rb).

(** What a ring buffer of this state is meant to hold. *)
Definition contents (rb : RingBuffer) : list Z :=
  ring_at rb <$> seqZ 0 (len rb).

(** ** Reading through the wrap-around *)

(** The [n] bytes from logical offset [start] on, around the end of the array. *)
Definition wrap_read (d : list Z) (start n c : Z) : list Z :=
  (λ i, d !!! Z.to_nat ((start + i) mod c)) <$> seqZ 0 n.

Lemma contents_wrap rb :
  contents rb = wrap_read (data rb) (head rb - len rb) (len rb) (cap rb).
Proof. reflexivity. Qed.

Lemma wrap_read_mod d s s' n c :
  0 < c → s mod c = s' mod c → wrap_read d s n c = wrap_read d s' n c.
Proof.
  intros Hc Hs. unfold wrap_read. apply list_fmap_ext. intros i x _.
  do 2 f_equal. by rewrite <-(Zplus_mod_idemp_l s), <-(Zplus_mod_idemp_l s'), Hs.
Qed.

Lemma length_wrap_read d s n c : 0 <= n → Z.of_nat (length (wrap_read d s n c)) = n.
Proof. intros. unfold wrap_read. len_lia. Qed.

Lemma wrap_read_contiguous d s n c :
  0 <= s → 0 <= n → s + n <= c → c <= Z.of_nat (length d) →
  take (Z.to_nat n) (drop (Z.to_nat s) d) = wrap_read d s n c.
Proof.
  intros. apply list_eq. intros i. unfold wrap_read.
  destruct (decide (Z.of_nat i < n)).
  - rewrite lookup_fmap_seqZ by lia. rewrite lookup_take_lt, lookup_drop by lia.
    rewrite Z.mod_small by lia. rewrite <-list_lookup_lookup_total_lt by lia.
    f_equal. lia.
  - rewrite lookup_fmap_seqZ_ge by lia. by rewrite lookup_take_ge by lia.
Qed.

Lemma wrap_read_wrapped d s n c :
  0 <= s < c → n <= c → c < s + n → c <= Z.of_nat (length d) →
  take (Z.to_nat (c - s)) (drop (Z.to_nat s) d) ++ take (Z.to_nat (s + n - c)) d
  = wrap_read d s n c.
Proof.
  intros. apply list_eq. intros i. unfold wrap_read.
  destruct (decide (Z.of_nat i < n)).
  2:{ rewrite lookup_fmap_seqZ_ge by lia. rewrite lookup_ge_None. len_lia. }
  rewrite lookup_fmap_seqZ by lia.
  destruct (decide (Z.of_nat i < c - s)).
  - rewrite lookup_app_l by len_lia. rewrite lookup_take_lt, lookup_drop by lia.
    rewrite Z.mod_small by lia. rewrite <-list_lookup_lookup_total_lt by lia.
    f_equal. lia.
  - rewrite lookup_app_r by len_lia. rewrite lookup_take_lt by len_lia.
    replace ((s + Z.of_nat i) mod c) with (s + Z.of_nat i - c)
      by (apply Zmod_unique with 1; lia).
    rewrite <-list_lookup_lookup_total_lt by lia. f_equal. len_lia.
Qed.

Lemma ring_start rb (Hwf : ring_wf rb) :
  go_rem (head rb - len rb + cap rb) (cap rb)
  = Ret ((head rb - len rb) mod cap rb).
Proof.
  destruct Hwf as [Hc Hh Hl]. rewrite go_rem_mod by lia.
  by rewrite mod_plus_self by lia.
Qed.

(** The wrapped branch of the snapshot code: two copies into one buffer. *)
Lemma two_copies res d s n c :
  0 <= s < c → n <= c → c < s + n → c <= Z.of_nat (length d) →
  Z.of_nat (length res) = n →
  copy_at (go_copy res (drop (Z.to_nat s) d)) (c - s) (take (Z.to_nat (s + n - c)) d)
  = Ret (wrap_read d s n c).
Proof.
  intros. rewrite copy_at_tail by len_lia.
  rewrite take_go_copy by len_lia. by rewrite wrap_read_wrapped.
Qed.

Lemma ring_wrap_head rb (Hwf : ring_wf rb) :
  let s := (head rb - len rb) mod cap rb in
  cap rb < s + len rb → s + len rb - cap rb = head rb.
Proof.
  destruct Hwf as [Hc Hh Hl]. intros s Hs. unfold s in *.
  destruct (Z.le_gt_cases (len rb) (head rb)).
  - rewrite Z.mod_small in * by lia. lia.
  - assert ((head rb - len rb) mod cap rb = head rb - len rb + cap rb)
      by (symmetry; apply Zmod_unique with (-1); lia). lia.
Qed.

Lemma Snapshot_contents rb (Hwf : ring_wf rb) : Snapshot rb = Ret (contents rb).
Proof.
  pose proof Hwf as [Hc Hh Hl]. unfold Snapshot. rewrite contents_wrap.
  destruct (Z.eqb_spec (len rb) 0) as [->|]; [done|].
  rewrite ring_start by done. cbn [mbind go_bind].
  set (s := (head rb - len rb) mod cap rb).
  assert (0 <= s < cap rb) by (apply Z.mod_pos_bound; lia).
  rewrite (wrap_read_mod _ _ s) by (unfold s; rewrite ?Z.mod_mod; lia).
  destruct (Z.leb_spec (s + len rb) (cap rb)).
  - rewrite slice_in by lia. cbn [mbind go_bind].
    replace (s + len rb - s) with (len rb) by lia.
    rewrite (wrap_read_contiguous _ _ _ (cap rb)) by lia.
    rewrite go_copy_full; [done|]. unfold wrap_read. len_lia.
  - rewrite slice_tail by lia. cbn [mbind go_bind].
    rewrite slice_in by lia. cbn [mbind go_bind].
    rewrite <-(ring_wrap_head rb) at 1 by done. rewrite drop_0, Z.sub_0_r.
    fold s. apply two_copies; len_lia.
Qed.

(** ** One byte written *)

Lemma write_byte_room rb b (Hwf : ring_wf rb) (Hroom : len rb < cap rb) :
  write_byte rb b =
    Ret (mkRingBuffer (<[Z.to_nat (head rb) := b]> (data rb))
           ((head rb + 1) mod cap rb) (len rb + 1) (cap rb)).
Proof.
  destruct Hwf as [Hc Hh Hl]. unfold write_byte.
  rewrite set_index_in by lia. cbn [mbind go_bind].
  rewrite go_rem_mod by lia. cbn [mbind go_bind].
  by destruct (Z.ltb_spec (len rb) (cap rb)); [|lia].
Qed.

(** Overwriting the slot after the last one of a window leaves the window. *)
Lemma wrap_read_insert d s n c b :
  0 < c <= Z.of_nat (length d) → 0 <= n < c →
  wrap_read (<[Z.to_nat ((s + n) mod c) := b]> d) s (n + 1) c = wrap_read d s n c ++ [b].
Proof.
  intros Hc Hn. unfold wrap_read. rewrite seqZ_app, fmap_app by lia. f_equal.
  - apply list_fmap_ext. intros i x Hx. apply lookup_seqZ in Hx as [-> Hx].
    rewrite list_lookup_total_insert_ne; [done|].
    intros Heq. apply Z2Nat.inj in Heq; [|apply Z.mod_pos_bound; lia..].
    assert (((s + n) - (s + (0 + Z.of_nat i))) mod c = 0) as Hz.
    { rewrite Zminus_mod, Heq, Z.sub_diag. apply Zmod_0_l. }
    rewrite Z.mod_small in Hz by lia. lia.
  - change (seqZ (0 + n) 1) with [0 + n]. simpl. f_equal.
    apply list_lookup_total_insert_eq.
    pose proof (Z.mod_pos_bound (s + n) c). lia.
Qed.

Lemma write_byte_room_spec rb b (Hwf : ring_wf rb) (Hroom : len rb < cap rb) :
  ∃ rb', write_byte rb b = Ret rb' ∧ ring_wf rb' ∧ cap rb' = cap rb ∧
         len rb' = len rb + 1 ∧ contents rb' = contents rb ++ [b].
Proof.
  eexists. split; [by apply write_byte_room|].
  pose proof Hwf as [Hc Hh Hl]. simpl. split_and!; try done.
  - split; simpl; [len_lia| |lia]. apply Z.mod_pos_bound. lia.
  - rewrite !contents_wrap. simpl.
    rewrite (wrap_read_mod _ _ (head rb - len rb)).
    2:{ lia. }
    2:{ rewrite Zminus_mod_idemp_l. f_equal. lia. }
    rewrite <-wrap_read_insert by lia. do 3 f_equal.
    rewrite <-(Z.mod_small (head rb) (cap rb)) at 1 by lia. f_equal. lia.
Qed.

(** ** Eviction: where the next byte goes once the buffer is full *)

(** A byte on which [isANSIBoundary] answers false: a UTF-8 continuation byte
    other than the C1 control 0x9B. *)
Definition continuation (b : Z) : bool :=
  (0x80 <=? b) && (b <=? 0xBF) && negb (b =? 0x9B).

Lemma isANSIBoundary_spec d pos c n :
  n ≠ 0 → 0 <= pos < Z.of_nat (length d) →
  isANSIBoundary d pos c n = Ret (negb (continuation (d !!! Z.to_nat pos))).
Proof.
  intros Hn Hpos. unfold isANSIBoundary. destruct (Z.eqb_spec n 0); [done|].
  rewrite index_in by lia. cbn [mbind go_bind]. unfold continuation. bool_cases; done.
Qed.

Lemma evict_search_spec rb ss i n :
  0 < cap rb <= Z.of_nat (length (data rb)) → len rb ≠ 0 → 0 <= ss < cap rb →
  0 <= i → i + Z.of_nat n <= cap rb →
  ∃ r, evict_search rb ss i n = Ret r ∧
    match r with
    | Some pos => ∃ k, i <= k < i + Z.of_nat n ∧ pos = (ss - k) mod cap rb
    | None => True
    end.
Proof.
  intros Hc Hl Hss. revert i. induction n as [|n IH]; intros i Hi Hn; simpl.
  { by exists None. }
  rewrite go_rem_mod by lia. cbn [mbind go_bind].
  rewrite mod_plus_self by lia.
  pose proof (Z.mod_pos_bound (ss - i) (cap rb)) as Hp.
  rewrite go_rem_mod by lia. cbn [mbind go_bind].
  pose proof (Z.mod_pos_bound ((ss - i) mod cap rb - 1 + cap rb) (cap rb)) as Hq.
  rewrite isANSIBoundary_spec by lia. cbn [mbind go_bind].
  destruct (negb _).
  - eexists; split; [done|]. simpl. exists i. split; [lia|done].
  - destruct (IH (i + 1)) as (r & -> & Hr); [lia..|]. exists r. split; [done|].
    destruct r as [pos|]; [|done]. destruct Hr as (k & ? & ?). exists k. split; [lia|done].
Qed.

(** On a full buffer of any contents the write position does not move forward:
    it goes back by [k] positions, [k] at most 31. *)
Lemma write_byte_full rb b (Hwf : ring_wf rb) (Hfull : len rb = cap rb) :
  ∃ k, 0 <= k < Z.min 32 (cap rb) ∧
    write_byte rb b =
      Ret (mkRingBuffer (<[Z.to_nat (head rb) := b]> (data rb))
             ((head rb - k) mod cap rb) (len rb) (cap rb)).
Proof.
  destruct Hwf as [Hc Hh Hl]. unfold write_byte.
  rewrite set_index_in by lia. cbn [mbind go_bind].
  rewrite go_rem_mod by lia. cbn [mbind go_bind].
  destruct (Z.ltb_spec (len rb) (cap rb)); [lia|].
  set (rb1 := mkRingBuffer _ ((head rb + 1) mod cap rb) _ _).
  unfold findEvictPosition. set (lim := if len rb1 <? 32 then len rb1 else 32).
  assert (0 < lim <= Z.min 32 (cap rb)) as Hlim.
  { unfold lim. simpl. destruct (Z.ltb_spec (len rb) 32); lia. }
  pose proof (Z.mod_pos_bound (head rb + 1) (cap rb)) as Hm.
  rewrite (go_rem_mod (head rb1 - 1 + cap rb1)) by (simpl; lia). cbn [mbind go_bind].
  assert ((head rb1 - 1 + cap rb1) mod cap rb1 = head rb) as ->.
  { simpl. rewrite mod_plus_self, Zminus_mod_idemp_l, Z.mod_small; lia. }
  destruct (evict_search_spec rb1 (head rb) 0 (Z.to_nat lim)) as (r & -> & Hr);
    [simpl; len_lia|simpl; lia..|]. cbn [mbind go_bind].
  destruct r as [pos|].
  - destruct Hr as (k & Hk & ->). exists k. split; [lia|done].
  - exists (lim - 1). split; [lia|]. rewrite go_rem_mod by (simpl; lia). simpl. do 2 f_equal.
    rewrite mod_plus_self, Zminus_mod_idemp_l by lia. f_equal. lia.
Qed.

(** The position right before the write position, on a full buffer, decides
    whether the write position moves at all. *)
Lemma write_byte_frozen rb b (Hwf : ring_wf rb) :
  len rb = cap rb → 1 < cap rb →
  continuation (data rb !!! Z.to_nat ((head rb - 1) mod cap rb)) = false →
  write_byte rb b =
    Ret (mkRingBuffer (<[Z.to_nat (head rb) := b]> (data rb)) (head rb) (len rb) (cap rb)).
Proof.
  intros Hfull H1 Hprev. destruct Hwf as [Hc Hh Hl]. unfold write_byte.
  rewrite set_index_in by lia. cbn [mbind go_bind].
  rewrite go_rem_mod by lia. cbn [mbind go_bind].
  destruct (Z.ltb_spec (len rb) (cap rb)); [lia|].
  unfold findEvictPosition. cbn [head cap len data].
  pose proof (Z.mod_pos_bound (head rb + 1) (cap rb)) as Hm.
  rewrite (go_rem_mod (_ - 1 + _)) by lia. cbn [mbind go_bind].
  rewrite mod_plus_self, Zminus_mod_idemp_l by lia.
  replace ((head rb + 1 - 1) mod cap rb) with (head rb) by (rewrite Z.mod_small; lia).
  destruct (Z.to_nat (if len rb <? 32 then len rb else 32)) as [|n] eqn:Hn.
  { destruct (Z.ltb_spec (len rb) 32); lia. }
  cbn [evict_search]. cbn [head cap len data].
  rewrite (go_rem_mod (head rb - 0 + cap rb)) by lia. cbn [mbind go_bind].
  rewrite Z.sub_0_r, mod_plus_self, (Z.mod_small (head rb)) by lia.
  rewrite (go_rem_mod (head rb - 1 + cap rb)) by lia. cbn [mbind go_bind].
  rewrite mod_plus_self by lia.
  pose proof (Z.mod_pos_bound (head rb - 1) (cap rb)) as Hp.
  rewrite isANSIBoundary_spec by len_lia. cbn [mbind go_bind].
  rewrite list_lookup_total_insert_ne, Hprev; [done|].
  intros Heq. apply Z2Nat.inj in Heq; [|lia..].
  destruct (decide (head rb = 0)) as [H0|].
  - rewrite H0 in Heq. rewrite <-(Z.mod_add (0 - 1) 1), Z.mod_small in Heq; lia.
  - rewrite Z.mod_small in Heq; lia.
Qed.

Lemma write_bytes_frozen rb p b (Hwf : ring_wf rb) :
  len rb = cap rb → 1 < cap rb →
  continuation (data rb !!! Z.to_nat ((head rb - 1) mod cap rb)) = false →
  write_bytes rb (p ++ [b]) =
    Ret (mkRingBuffer (<[Z.to_nat (head rb) := b]> (data rb)) (head rb) (len rb) (cap rb)).
Proof.
  revert rb Hwf. induction p as [|b0 p IH]; intros rb Hwf Hfull H1 Hprev; simpl;
    rewrite write_byte_frozen by done; [done|]. cbn [mbind go_bind].
  pose proof Hwf as [Hc Hh Hl].
  pose proof (Z.mod_pos_bound (head rb - 1) (cap rb)) as Hp.
  assert ((head rb - 1) mod cap rb ≠ head rb).
  { destruct (decide (head rb = 0)) as [->|].
    - rewrite <-(Z.mod_add (0 - 1) 1), Z.mod_small; lia.
    - rewrite Z.mod_small; lia. }
  rewrite IH; cbn [head cap len data]; try done.
  - by rewrite list_insert_insert_eq.
  - split; cbn [head cap len data]; len_lia.
  - rewrite list_lookup_total_insert_ne; [done|]. lia.
Qed.

(** On a full buffer the write position is where the oldest byte is. *)
Lemma contents_full_insert rb b k (Hwf : ring_wf rb) :
  len rb = cap rb → 0 <= k < cap rb →
  contents (mkRingBuffer (<[Z.to_nat (head rb) := b]> (data rb))
              ((head rb - k) mod cap rb) (len rb) (cap rb)) !! Z.to_nat k = Some b.
Proof.
  intros Hfull Hk. destruct Hwf as [Hc Hh Hl].
  unfold contents. cbn [len]. rewrite lookup_fmap_seqZ by lia.
  unfold ring_at. cbn [head cap len data]. f_equal. rewrite Z2Nat.id by lia.
  replace (((head rb - k) mod cap rb - len rb + k) mod cap rb) with (head rb).
  { rewrite list_lookup_total_insert_eq; [done|lia]. }
  rewrite Hfull.
  replace ((head rb - k) mod cap rb - cap rb + k)
    with ((head rb - k) mod cap rb + (k - 1 * cap rb)) by lia.
  rewrite Zplus_mod_idemp_l.
  replace (head rb - k + (k - 1 * cap rb)) with (head rb + (-1) * cap rb) by lia.
  rewrite Z.mod_add, Z.mod_small; lia.
Qed.

Lemma contents_frozen rb b (Hwf : ring_wf rb) :
  len rb = cap rb →
  contents (mkRingBuffer (<[Z.to_nat (head rb) := b]> (data rb)) (head rb) (len rb) (cap rb))
  = b :: tail (contents rb).
Proof.
  intros Hfull. pose proof Hwf as [Hc Hh Hl].
  assert (∀ i, 0 <= i < cap rb → (head rb - len rb + i) mod cap rb = head rb → i = 0) as Hinj.
  { intros i Hi Heq. rewrite Hfull in Heq.
    replace (head rb - cap rb + i) with (head rb + i - 1 * cap rb) in Heq by lia.
    assert ((head rb + i) mod cap rb = head rb) as Heq'
      by (rewrite <-Heq at 2; rewrite <-(mod_plus_self (_ - _)) by lia; f_equal; lia).
    assert ((head rb + i - head rb) mod cap rb = 0) as Hz
      by (rewrite Zminus_mod, Heq', (Z.mod_small (head rb)), Z.sub_diag, Zmod_0_l; lia).
    rewrite Z.mod_small in Hz; lia. }
  apply list_eq. intros [|i].
  - pose proof (contents_full_insert rb b 0 Hwf Hfull ltac:(lia)) as H.
    rewrite Z.sub_0_r, Z.mod_small in H by lia. exact H.
  - change ((b :: tail (contents rb)) !! S i) with (tail (contents rb) !! i).
    rewrite lookup_tail. unfold contents. cbn [len].
    destruct (decide (Z.of_nat (S i) < len rb)).
    2:{ by rewrite !lookup_fmap_seqZ_ge by lia. }
    rewrite !lookup_fmap_seqZ by lia. f_equal. unfold ring_at. cbn [head cap len data].
    pose proof (Z.mod_pos_bound (head rb - len rb + Z.of_nat (S i)) (cap rb)).
    rewrite list_lookup_total_insert_ne; [done|].
    intros Heq. apply Z2Nat.inj in Heq; [|lia..].
    symmetry in Heq. apply Hinj in Heq; lia.
Qed.

(** ** The binary format *)

Lemma le32_decode_le32 v rest :
  0 <= v < 2 ^ 32 → le32_decode (le32 v ++ rest) = v.
Proof.
  intros Hv. unfold le32. rewrite (Z.mod_small v) by lia. simpl.
  change (2 ^ 32) with 4294967296 in Hv.
  change (Z.pow_pos 2 8) with 256. change (Z.pow_pos 2 16) with 65536.
  change (Z.pow_pos 2 24) with 16777216.
  Z.to_euclidean_division_equations. lia.
Qed.

Lemma BinarySnapshot_contents rb (Hwf : ring_wf rb) :
  BinarySnapshot rb = Ret (le32 (len rb) ++ le32 (cap rb) ++ contents rb).
Proof.
  pose proof Hwf as [Hc Hh Hl]. unfold BinarySnapshot. rewrite contents_wrap.
  destruct (Z.ltb_spec 0 (len rb)).
  2:{ replace (len rb) with 0 by lia. done. }
  rewrite ring_start by done. cbn [mbind go_bind].
  set (s := (head rb - len rb) mod cap rb).
  assert (0 <= s < cap rb) by (apply Z.mod_pos_bound; lia).
  rewrite (wrap_read_mod _ _ s) by (unfold s; rewrite ?Z.mod_mod; lia).
  assert (length (le32 (len rb) ++ le32 (cap rb)) = 8%nat) as H8 by done.
  set (hdr := le32 (len rb) ++ le32 (cap rb)) in *.
  rewrite (assoc_L (++)). fold hdr.
  destruct (Z.leb_spec (s + len rb) (cap rb)).
  - rewrite slice_in by lia. cbn [mbind go_bind].
    replace (s + len rb - s) with (len rb) by lia.
    rewrite (wrap_read_contiguous _ _ _ (cap rb)) by lia.
    rewrite copy_at_tail; [|lia|].
    + by rewrite take_app_length'.
    + rewrite length_wrap_read; len_lia.
  - rewrite slice_tail by lia. cbn [mbind go_bind].
    rewrite slice_in by lia. cbn [mbind go_bind].
    pose proof (ring_wrap_head rb Hwf) as Hhd. cbv zeta in Hhd. fold s in Hhd.
    rewrite <-Hhd, drop_0, Z.sub_0_r by lia. rewrite copy_at_in by len_lia. cbn [mbind go_bind].
    rewrite take_app_length' by done. rewrite drop_app_length' by done.
    rewrite copy_at_tail by len_lia.
    f_equal. rewrite Z2Nat.inj_add by lia. change (Z.to_nat 8) with 8%nat.
    change 8%nat with (length hdr). rewrite take_app_add, <-(assoc_L (++)). f_equal.
    rewrite take_go_copy by len_lia. by rewrite wrap_read_wrapped by lia.
Qed.

(** ** What a whole [Write] does *)

Lemma write_byte_total rb b (Hwf : ring_wf rb) :
  ∃ rb', write_byte rb b = Ret rb' ∧ ring_wf rb' ∧ cap rb' = cap rb ∧
         len rb' = Z.min (cap rb) (len rb + 1).
Proof.
  pose proof Hwf as [Hc Hh Hl]. destruct (decide (len rb < cap rb)).
  - destruct (write_byte_room_spec rb b) as (rb' & -> & ? & ? & Hlen & _); [done..|].
    exists rb'. split_and!; try done. lia.
  - destruct (write_byte_full rb b) as (k & Hk & ->); [done|lia|].
    pose proof (Z.mod_pos_bound (head rb - k) (cap rb)).
    eexists. split_and!; [done|split; simpl; len_lia|done|simpl; lia].
Qed.

Lemma write_bytes_total p : ∀ rb, ring_wf rb →
  ∃ rb', write_bytes rb p = Ret rb' ∧ ring_wf rb' ∧ cap rb' = cap rb ∧
         len rb' = Z.min (cap rb) (len rb + Z.of_nat (length p)).
Proof.
  induction p as [|b p IH]; intros rb Hwf; simpl.
  { exists rb. pose proof Hwf as [_ _ ?]. split_and!; try done. lia. }
  destruct (write_byte_total rb b Hwf) as (rb1 & -> & Hwf1 & Hc1 & Hl1).
  cbn [mbind go_bind].
  destruct (IH rb1 Hwf1) as (rb2 & -> & ? & ? & ?). exists rb2. split_and!; try done; lia.
Qed.

Lemma write_bytes_room p : ∀ rb, ring_wf rb → len rb + Z.of_nat (length p) <= cap rb →
  ∃ rb', write_bytes rb p = Ret rb' ∧ ring_wf rb' ∧ contents rb' = contents rb ++ p.
Proof.
  induction p as [|b p IH]; intros rb Hwf Hroom; cbn [length] in Hroom; simpl.
  { exists rb. by rewrite app_nil_r. }
  destruct (write_byte_room_spec rb b) as (rb1 & -> & Hwf1 & Hc1 & Hl1 & Hs1); [done|lia|].
  cbn [mbind go_bind].
  destruct (IH rb1 Hwf1) as (rb2 & -> & ? & Hs2); [lia|]. exists rb2. split_and!; try done.
  by rewrite Hs2, Hs1, <-(assoc_L (++)).
Qed.

Lemma Write_bytes rb p rb' :
  write_bytes rb p = Ret rb' → Write rb p = Ret (rb', Z.of_nat (length p)).
Proof.
  intros H. unfold Write. destruct (Z.eqb_spec (Z.of_nat (length p)) 0) as [Hp|].
  - destruct p; [|simpl in Hp; lia]. simpl in H. congruence.
  - by rewrite H.
Qed.

Lemma NewRingBuffer_wf c : ring_wf (NewRingBuffer c).
Proof.
  unfold NewRingBuffer, DefaultCapacity. destruct (Z.leb_spec c 0); split; cbn [data head len cap].
  all: len_lia.
Qed.

Lemma Reset_wf rb (Hwf : ring_wf rb) : ring_wf (Reset rb).
Proof. destruct Hwf. split; simpl; lia. Qed.

(** A buffer state any sequence of [Write]s and [Reset]s can reach. *)
Inductive ring_reachable : RingBuffer → Prop :=
  | reach_new c : ring_reachable (NewRingBuffer c)
  | reach_write rb p rb' n :
      ring_reachable rb → Write rb p = Ret (rb', n) → ring_reachable rb'
  | reach_reset rb : ring_reachable rb → ring_reachable (Reset rb).

Lemma reachable_wf rb : ring_reachable rb → ring_wf rb.
Proof.
  induction 1 as [c|rb p rb' n _ IH Hw|rb _ IH].
  - apply NewRingBuffer_wf.
  - destruct (write_bytes_total p rb IH) as (rb1 & H1 & ? & _).
    rewrite (Write_bytes _ _ _ H1) in Hw. congruence.
  - by apply Reset_wf.
Qed.
#[export] Hint Resolve NewRingBuffer_wf Reset_wf reachable_wf : daao.

(** ** Properties *)

(** C4: the scrollback buffer below its capacity is a byte log: a [Write] that
    fits succeeds, reports all bytes written, keeps the invariant and appends
    exactly the bytes written to the snapshot (no matter where in the array the
    contents start, so across every wrap-around). *)
Theorem Write_appends rb p s :
  ring_wf rb → Snapshot rb = Ret s → Z.of_nat (length s) + Z.of_nat (length p) <= Capacity rb →
  ∃ rb', Write rb p = Ret (rb', Z.of_nat (length p)) ∧ ring_wf rb' ∧
         Capacity rb' = Capacity rb ∧ Snapshot rb' = Ret (s ++ p).
Proof.
  intros Hwf Hs Hfit. rewrite Snapshot_contents in Hs by done.
  apply Ret_inj in Hs as <-. unfold Capacity in *.
  pose proof Hwf as [_ _ Hl].
  assert (Z.of_nat (length (contents rb)) = len rb) as Hlen by (unfold contents; len_lia).
  destruct (write_bytes_room p rb) as (rb' & Hw & Hwf' & Hc); [done|lia|].
  destruct (write_bytes_total p rb Hwf) as (rb2 & Hw2 & _ & Hc2 & _).
  exists rb'. rewrite (Write_bytes _ _ _ Hw), Snapshot_contents, Hc by done.
  split_and!; try done. congruence.
Qed.

Example Write_appends_witness :
  ∃ rb', Write (mkRingBuffer [4;5;0;3] 2 3 4) [6] = Ret (rb', 1) ∧ ring_wf rb' ∧
         Capacity rb' = 4 ∧ Snapshot rb' = Ret ([3;4;5] ++ [6]).
Proof.
  apply (Write_appends (mkRingBuffer [4;5;0;3] 2 3 4) [6] [3;4;5]).
  - split; simpl; lia.
  - vm_compute. reflexivity.
  - vm_compute. discriminate.
Defined.

(** memory safety and bounds of the buffer: from a new buffer, after any
    sequence of writes and resets, a further [Write] of any bytes never indexes
    out of the array and never divides by zero, returns the full count, leaves
    the capacity alone, and the length is the number of bytes written so far cut
    off at the capacity; [Snapshot] then has exactly that length. *)
Theorem Write_safe rb p :
  ring_reachable rb →
  ∃ rb' s, Write rb p = Ret (rb', Z.of_nat (length p)) ∧
    Capacity rb' = Capacity rb ∧
    Len rb' = Z.min (Capacity rb) (Len rb + Z.of_nat (length p)) ∧
    Snapshot rb' = Ret s ∧ SnapshotWithLen rb' = Ret (s, Len rb') ∧
    Z.of_nat (length s) = Len rb'.
Proof.
  intros Hr%reachable_wf. unfold Len, Capacity.
  destruct (write_bytes_total p rb Hr) as (rb' & Hw & Hwf & Hc & Hl).
  exists rb', (contents rb'). rewrite (Write_bytes _ _ _ Hw).
  unfold SnapshotWithLen. rewrite Snapshot_contents by done.
  pose proof Hwf as [_ _ ?]. split_and!; try done.
  - destruct (Z.eqb_spec (len rb') 0) as [H0|]; [|done]. unfold contents. by rewrite H0.
  - unfold contents. len_lia.
Qed.

Example Write_safe_witness :
  ∃ rb' s, Write (NewRingBuffer 3) [1;2;3;4;5] = Ret (rb', 5) ∧ Capacity rb' = 3 ∧
    Len rb' = Z.min 3 (0 + 5) ∧ Snapshot rb' = Ret s ∧
    SnapshotWithLen rb' = Ret (s, Len rb') ∧ Z.of_nat (length s) = Len rb'.
Proof. apply (Write_safe (NewRingBuffer 3) [1;2;3;4;5]). constructor. Defined.

(** a full buffer stops advancing. When the byte before the write position
    is not a UTF-8 continuation byte, any non-empty [Write], however long, ends
    with the same write position and length, and the snapshot it leaves is the
    old one with its FIRST byte replaced by the last byte written: every other
    new byte is lost, and no old byte but one is evicted. *)
Theorem Write_full_frozen rb p b s :
  ring_wf rb → Len rb = Capacity rb → 1 < Capacity rb → Snapshot rb = Ret s →
  continuation (data rb !!! Z.to_nat ((head rb - 1) mod cap rb)) = false →
  ∃ rb', Write rb (p ++ [b]) = Ret (rb', Z.of_nat (length (p ++ [b]))) ∧
         head rb' = head rb ∧ Len rb' = Len rb ∧ Snapshot rb' = Ret (b :: tail s).
Proof.
  unfold Len, Capacity. intros Hwf Hfull H1 Hs Hprev.
  rewrite Snapshot_contents in Hs by done. apply Ret_inj in Hs as <-.
  eexists. split; [by apply Write_bytes, write_bytes_frozen|]. simpl.
  split_and!; [done..|]. rewrite Snapshot_contents.
  - by rewrite contents_frozen.
  - pose proof Hwf as [Hc Hh Hl]. split; cbn [data head len cap]; len_lia.
Qed.

Example Write_full_frozen_witness :
  ∃ rb', Write (mkRingBuffer [97;98;99;100] 0 4 4) ([49;50;51;52;53] ++ [54])
           = Ret (rb', 6) ∧
         head rb' = 0 ∧ Len rb' = 4 ∧ Snapshot rb' = Ret [54;98;99;100].
Proof.
  apply (Write_full_frozen (mkRingBuffer [97;98;99;100] 0 4 4) [49;50;51;52;53] 54 [97;98;99;100]).
  - split; simpl; lia.
  - reflexivity.
  - reflexivity.
  - reflexivity.
  - reflexivity.
Defined.

(** ** Persistence *)

Lemma le32_range v : length (le32 v) = 4%nat.
Proof. done. Qed.

Lemma ReadFromBinary_image rb n c rest :
  0 <= n < 2 ^ 32 - 8 → 0 <= c < 2 ^ 32 → Z.of_nat (length rest) = n → c ≠ 0 →
  ReadFromBinary rb (le32 n ++ le32 c ++ rest) =
    let buf := if Z.of_nat (length (data rb)) <? c
               then replicate (Z.to_nat c) 0 else data rb in
    (mkRingBuffer (go_copy buf rest) (n mod c) n c, Ret None).
Proof.
  intros Hn Hc Hrest Hc0. unfold ReadFromBinary.
  change (take 4 (le32 n ++ le32 c ++ rest)) with (le32 n ++ []).
  change (take 4 (drop 4 (le32 n ++ le32 c ++ rest))) with (le32 c ++ []).
  rewrite !le32_decode_le32 by lia.
  assert (Z.of_nat (length (le32 n ++ le32 c ++ rest)) = 8 + n) as Hlen
    by (rewrite !length_app, !le32_range; lia).
  assert (slice (le32 n ++ le32 c ++ rest) 8 ((8 + n) mod 2 ^ 32) = Ret rest) as Hsl
    by (rewrite Z.mod_small, <-Hlen, slice_tail by lia; done).
  rewrite Hlen, Hsl, (go_rem_mod n) by lia.
  destruct (Z.ltb_spec (8 + n) 8), (Z.ltb_spec (8 + n) (8 + n)); [lia..|].
  destruct (Z.ltb_spec 0 n); [done|]. destruct rest; [|simpl in Hrest; lia]. unfold go_copy. by rewrite take_nil.
Qed.

(** a binary snapshot can be restored: for a buffer of a capacity that the
    32-bit header can carry, reading its [BinarySnapshot] into ANY ring buffer
    (another capacity, other contents) succeeds, re-establishes the invariant
    and gives a buffer of the same capacity, length and snapshot. *)
Theorem BinarySnapshot_roundtrip rb target :
  ring_wf rb → Capacity rb < 2 ^ 32 - 8 →
  ∃ img rb', BinarySnapshot rb = Ret img ∧ ReadFromBinary target img = (rb', Ret None) ∧
    ring_wf rb' ∧ Capacity rb' = Capacity rb ∧ Len rb' = Len rb ∧
    Snapshot rb' = Snapshot rb.
Proof.
  unfold Capacity, Len. intros Hwf Hcap. pose proof Hwf as [Hc Hh Hl].
  assert (Z.of_nat (length (contents rb)) = len rb) as Hlen by (unfold contents; len_lia).
  eexists _, _. split; [by apply BinarySnapshot_contents|].
  split; [apply ReadFromBinary_image; lia|]. cbv zeta.
  set (buf := if _ <? _ then _ else _).
  assert (cap rb <= Z.of_nat (length buf)).
  { unfold buf. destruct (Z.ltb_spec (Z.of_nat (length (data target))) (cap rb)); len_lia. }
  pose proof (Z.mod_pos_bound (len rb) (cap rb)).
  assert (ring_wf (mkRingBuffer (go_copy buf (contents rb)) (len rb mod cap rb) (len rb) (cap rb)))
    as Hwf' by (split; cbn [data head len cap]; len_lia).
  split_and!; try done. rewrite !Snapshot_contents by done. f_equal.
  rewrite contents_wrap. cbn [data head len cap].
  rewrite (wrap_read_mod _ _ 0) by
    (rewrite ?Zminus_mod_idemp_l, ?Z.sub_diag; lia).
  rewrite <-wrap_read_contiguous by len_lia. change (Z.to_nat 0) with 0%nat. rewrite drop_0, take_go_copy by lia.
  apply take_ge. lia.
Qed.

Example BinarySnapshot_roundtrip_witness :
  ∃ img rb', BinarySnapshot (mkRingBuffer [4;5;0;3] 2 3 4) = Ret img ∧
    ReadFromBinary (NewRingBuffer 2) img = (rb', Ret None) ∧
    ring_wf rb' ∧ Capacity rb' = 4 ∧ Len rb' = 3 ∧
    Snapshot rb' = Snapshot (mkRingBuffer [4;5;0;3] 2 3 4).
Proof.
  apply (BinarySnapshot_roundtrip (mkRingBuffer [4;5;0;3] 2 3 4) (NewRingBuffer 2)).
  - split; simpl; lia.
  - reflexivity.
Defined.

(** what [ReadFromBinary] does with a bad image. A truncated one is refused
    and changes nothing; a header of capacity zero panics; but a header whose
    length exceeds its capacity is accepted, and leaves a buffer whose [Len]
    exceeds its [Capacity], outside the invariant. *)
Theorem ReadFromBinary_bad rb n c rest :
  0 <= n < 2 ^ 32 - 8 → 0 <= c < 2 ^ 32 →
  let d := le32 n ++ le32 c ++ rest in
  (∀ d', Z.of_nat (length d') < 8 → ReadFromBinary rb d' = (rb, Ret (Some ErrInvalidSnapshot))) ∧
  (Z.of_nat (length rest) < n → ReadFromBinary rb d = (rb, Ret (Some ErrInvalidSnapshot))) ∧
  (n <= Z.of_nat (length rest) → c = 0 → (ReadFromBinary rb d).2 = Panic) ∧
  (Z.of_nat (length rest) = n → 0 < c < n →
     ∃ rb', ReadFromBinary rb d = (rb', Ret None) ∧ Capacity rb' < Len rb').
Proof.
  intros Hn Hc d. unfold d. split_and!.
  - intros d' Hd. unfold ReadFromBinary. by bool_cases.
  - intros Hlt. unfold ReadFromBinary.
    change (take 4 (le32 n ++ le32 c ++ rest)) with (le32 n ++ []).
    rewrite le32_decode_le32 by lia. rewrite !length_app, !le32_range.
    by bool_cases.
  - intros Hge ->. unfold ReadFromBinary.
    change (take 4 (le32 n ++ le32 0 ++ rest)) with (le32 n ++ []).
    change (le32_decode (take 4 (drop 4 (le32 n ++ le32 0 ++ rest)))) with 0.
    rewrite le32_decode_le32 by lia. rewrite !length_app, !le32_range.
    by bool_cases.
  - intros Hlen Hlt. eexists. split; [apply ReadFromBinary_image; lia|].
    unfold Capacity, Len. simpl. lia.
Qed.

Example ReadFromBinary_bad_witness :
  ∃ rb', ReadFromBinary (NewRingBuffer 4) (le32 3 ++ le32 2 ++ [7;8;9]) = (rb', Ret None) ∧
         Capacity rb' < Len rb'.
Proof. apply (ReadFromBinary_bad (NewRingBuffer 4) 3 2 [7;8;9]); simpl; lia. Defined.

End Ring.
