(* ===== verification/SessionState.v ===== *)
(** * internal/session/store.go: the session state machine, in memory

    [SessionState] is a string type in the source, so any string may reach the
    functions. Times are [Z] microseconds since the epoch (the resolution of
    the database columns); the [time.Now()] a function reads is an argument.
    A UUID is an [N] (its sixteen bytes read big-endian, the order Postgres and
    [bytes.Compare] use). *)
From S2P Require Import Prelude.
#[local] Open Scope Z_scope.

Module Session.

(** ** States *)

Definition SessionState := string.

Definition StateProvisioning : SessionState := "PROVISIONING".
Definition StateRunning : SessionState := "RUNNING".
Definition StateDetached : SessionState := "DETACHED".
Definition StateReAttaching : SessionState := "RE_ATTACHING".
Definition StateSuspended : SessionState := "SUSPENDED".
Definition StateTerminated : SessionState := "TERMINATED".

Definition AllSessionStates : list SessionState :=
  [StateProvisioning; StateRunning; StateDetached; StateReAttaching;
   StateSuspended; StateTerminated].

(** The search loops of the source, [for _, x := range l { if x == s ... }]. *)
Fixpoint range_has (l : list string) (s : string) : bool :=
  match l with
  | [] => false
  | x :: l' => if String.eqb s x then true else range_has l' s
  end.

Definition IsValid (s : SessionState) : bool := range_has AllSessionStates s.

Definition ValidTransitions : gmap SessionState (list SessionState) :=
  list_to_map
    [(StateProvisioning, [StateRunning; StateTerminated]);
     (StateRunning, [StateDetached; StateSuspended; StateTerminated]);
     (StateDetached, [StateRunning; StateReAttaching; StateTerminated]);
     (StateReAttaching, [StateRunning; StateDetached; StateTerminated]);
     (StateSuspended, [StateRunning; StateTerminated]);
     (StateTerminated, [])].

Definition IsTransitionValid (from to : SessionState) : bool :=
  match ValidTransitions !! from with
  | None => false
  | Some validTargets => range_has validTargets to
  end.

(** A missing key of a Go map reads as the nil slice. *)
Definition GetValidTransitions (state : SessionState) : list SessionState :=
  default [] (ValidTransitions !! state).

(** ** Sessions *)

Record Session := mkSession {
  ID : N;
  SatelliteID : N;
  UserID : N;
  Name : string;
  AgentBinary : string;
  AgentArgs : list string;
  State : SessionState;
  OSPID : option Z;
  PTSName : option string;
  Cols : Z;
  Rows : Z;
  RecordingEnabled : bool;
  LastActivityAt : Z;
  StartedAt : option Z;
  DetachedAt : option Z;
  SuspendedAt : option Z;
  TerminatedAt : option Z;
  CreatedAt : Z;
}.

#[export] Instance Session_eq_dec : EqDecision Session.
Proof. solve_decision. Defined.

(** The columns a transition writes: the state and its timestamps. *)
Definition set_lifecycle (s : Session) (st : SessionState) (last : Z)
    (started detached suspended terminated : option Z) : Session :=
  mkSession (ID s) (SatelliteID s) (UserID s) (Name s) (AgentBinary s) (AgentArgs s)
    st (OSPID s) (PTSName s) (Cols s) (Rows s) (RecordingEnabled s)
    last started detached suspended terminated (CreatedAt s).

Inductive transition_error :=
  | InvalidState (s : SessionState)               (* fmt.Errorf("invalid session state: ...") *)
  | TransitionError (from to : SessionState).

Definition InvalidTransitionError (from to : SessionState) : transition_error :=
  TransitionError from to.

(** The timestamps of the [switch newState]. *)
Definition TransitionSession (session : Session) (newState : SessionState) (now : Z)
    : result transition_error Session :=
  if negb (IsValid newState) then Err (InvalidState newState)
  else if negb (IsTransitionValid (State session) newState)
  then Err (InvalidTransitionError (State session) newState)
  else
    let upd := set_lifecycle session newState now in
    Ok (if String.eqb newState StateRunning then
          upd (match StartedAt session with None => Some now | t => t end)
              None None (TerminatedAt session)
        else if String.eqb newState StateDetached then
          upd (StartedAt session) (Some now) (SuspendedAt session) (TerminatedAt session)
        else if String.eqb newState StateSuspended then
          upd (StartedAt session) (DetachedAt session) (Some now) (TerminatedAt session)
        else if String.eqb newState StateTerminated then
          upd (StartedAt session) (DetachedAt session) (SuspendedAt session) (Some now)
        else upd (StartedAt session) (DetachedAt session) (SuspendedAt session)
                 (TerminatedAt session)).

Inductive name_error := NameEmpty | NameTooLong.

(** [len(name)] counts bytes; a Coq string is a list of bytes too. *)
Definition ValidateSessionName (name : string) : option name_error :=
  if String.eqb name "" then Some NameEmpty
  else if 255 <? Z.of_nat (String.length name) then Some NameTooLong
  else None.

Definition ValidateTransition (from to : SessionState) : option transition_error :=
  if negb (IsValid to) then Some (InvalidState to)
  else if negb (IsTransitionValid from to) then Some (InvalidTransitionError from to)
  else None.

(** ** The transition relation *)

(** The state diagram as a relation on states: the abstract machine. *)
Inductive may : SessionState → SessionState → Prop :=
  | may_start : may StateProvisioning StateRunning
  | may_detach : may StateRunning StateDetached
  | may_suspend : may StateRunning StateSuspended
  | may_attach : may StateDetached StateRunning
  | may_reattach : may StateDetached StateReAttaching
  | may_hydrated : may StateReAttaching StateRunning
  | may_fallback : may StateReAttaching StateDetached
  | may_resume : may StateSuspended StateRunning
  | may_terminate s : IsValid s = true → s ≠ StateTerminated → may s StateTerminated.

Lemma range_has_elem l s : range_has l s = true ↔ s ∈ l.
Proof.
  induction l as [|x l IH]; simpl.
  { split; [done|]. by intros ?%elem_of_nil. }
  rewrite elem_of_cons. destruct (String.eqb_spec s x); naive_solver.
Qed.

(** Every key of the table with its targets, computed. *)
Lemma ValidTransitions_cases from targets :
  ValidTransitions !! from = Some targets →
  (from, targets) ∈
    [(StateProvisioning, [StateRunning; StateTerminated]);
     (StateRunning, [StateDetached; StateSuspended; StateTerminated]);
     (StateDetached, [StateRunning; StateReAttaching; StateTerminated]);
     (StateReAttaching, [StateRunning; StateDetached; StateTerminated]);
     (StateSuspended, [StateRunning; StateTerminated]);
     (StateTerminated, [])].
Proof. apply elem_of_list_to_map_2. Qed.

(** Case analysis on membership in a concrete list. *)
Ltac elem_cases H :=
  repeat (apply elem_of_cons in H as [H|H]); [..|by apply elem_of_nil in H].

Lemma IsValid_cases s :
  IsValid s = true ↔
  s = StateProvisioning ∨ s = StateRunning ∨ s = StateDetached ∨
  s = StateReAttaching ∨ s = StateSuspended ∨ s = StateTerminated.
Proof.
  unfold IsValid. rewrite range_has_elem. unfold AllSessionStates.
  rewrite !elem_of_cons, elem_of_nil. tauto.
Qed.

Lemma IsTransitionValid_may from to : IsTransitionValid from to = true ↔ may from to.
Proof.
  split.
  - unfold IsTransitionValid. destruct (ValidTransitions !! from) as [ts|] eqn:Hts; [|done].
    apply ValidTransitions_cases in Hts. rewrite range_has_elem.
    elem_cases Hts; injection Hts as -> ->; intros Hto; elem_cases Hto; subst to;
      by constructor.
  - destruct 1 as [| | | | | | | |s Hs Hne]; try reflexivity.
    apply IsValid_cases in Hs. destruct_or! Hs; subst s; done.
Qed.

Lemma may_valid from to : may from to → IsValid from = true ∧ IsValid to = true.
Proof. destruct 1; by split. Qed.

Lemma may_not_terminated from to : may from to → from ≠ StateTerminated.
Proof. by destruct 1. Qed.

Lemma TransitionSession_Ok s st now s' :
  TransitionSession s st now = Ok s' →
  may (State s) st ∧ State s' = st ∧ LastActivityAt s' = now ∧ ID s' = ID s ∧
  CreatedAt s' = CreatedAt s.
Proof.
  unfold TransitionSession. destruct (IsValid st); [|done].
  destruct (IsTransitionValid (State s) st) eqn:Hv; simpl; [|done].
  intros [= <-]. split; [by apply IsTransitionValid_may|]. by repeat case_match.
Qed.

Lemma TransitionSession_may s st now :
  may (State s) st → ∃ s', TransitionSession s st now = Ok s'.
Proof.
  intros Hm. pose proof (may_valid _ _ Hm) as [_ Hv]. apply IsTransitionValid_may in Hm.
  unfold TransitionSession. rewrite Hv, Hm. eauto.
Qed.

(** ** The lifecycle timestamps *)

(** What the timestamps of a session in a given state promise. *)
Definition lifecycle_ok (s : Session) : Prop :=
  IsValid (State s) = true ∧
  (is_Some (TerminatedAt s) ↔ State s = StateTerminated) ∧
  (State s = StateRunning → is_Some (StartedAt s) ∧ DetachedAt s = None ∧ SuspendedAt s = None) ∧
  (State s = StateDetached → is_Some (DetachedAt s)) ∧
  (State s = StateSuspended → is_Some (SuspendedAt s)) ∧
  (State s = StateProvisioning → StartedAt s = None).

Lemma TransitionSession_lifecycle s st now s' :
  lifecycle_ok s → TransitionSession s st now = Ok s' → lifecycle_ok s'.
Proof.
  intros (Hv & Ht & _) H. pose proof (TransitionSession_Ok _ _ _ _ H) as (Hm & _).
  pose proof (may_not_terminated _ _ Hm) as Hnt.
  assert (TerminatedAt s = None) as Hnone by (apply eq_None_not_Some; tauto).
  revert H. unfold TransitionSession. rewrite (proj2 (may_valid _ _ Hm)).
  rewrite (proj2 (IsTransitionValid_may _ _) Hm). simpl. intros [= <-].
  unfold lifecycle_ok. clear Hnt Ht Hv.
  destruct Hm; vm_compute [String.eqb]; simpl; rewrite ?Hnone;
    (split; [reflexivity|]); split_and!; try done;
    try (split; [by intros [??]|done]); try by destruct (StartedAt s); eauto.
Qed.

#[export] Hint Resolve TransitionSession_lifecycle : daao.

(** ** Properties *)

(** What a transition may not touch: everything but the state and its
    timestamps. *)
Definition identity_of (s : Session) : Session := set_lifecycle s "" 0 None None None None.

(** a transition of a session whose timestamps fit its state, to any target
    string: it succeeds exactly when the state diagram has the edge; then the
    state is the target, the timestamps fit it again, the first start time is
    kept for ever and nothing else changes. Otherwise the error says whether
    the target is no state at all or only not reachable from here. *)
Theorem TransitionSession_correct s st now :
  lifecycle_ok s →
  match TransitionSession s st now with
  | Ok s' =>
      may (State s) st ∧ State s' = st ∧ lifecycle_ok s' ∧ LastActivityAt s' = now ∧
      identity_of s' = identity_of s ∧
      (is_Some (StartedAt s) → StartedAt s' = StartedAt s) ∧
      (st = StateRunning → is_Some (StartedAt s'))
  | Err (InvalidState x) => x = st ∧ st ∉ AllSessionStates
  | Err (TransitionError from to) =>
      from = State s ∧ to = st ∧ st ∈ AllSessionStates ∧ ¬ may (State s) st
  end.
Proof.
  intros Hok. destruct (TransitionSession s st now) as [s'|e] eqn:H.
  - pose proof (TransitionSession_Ok _ _ _ _ H) as (Hm & Hst & Hl & _).
    pose proof (TransitionSession_lifecycle _ _ _ _ Hok H) as Hok'.
    split_and!; try done; try (intros ->; by apply Hok').
    all: revert H; unfold TransitionSession;
      destruct (IsValid st), (IsTransitionValid (State s) st); try done; intros [= <-].
    + by repeat case_match.
    + intros [t Ht]. rewrite Ht. by repeat case_match.
  - revert H. unfold TransitionSession. destruct (IsValid st) eqn:Hv; simpl.
    + pose proof (IsTransitionValid_may (State s) st) as Hmay. revert Hmay. unfold IsValid in Hv. apply range_has_elem in Hv.
      destruct (IsTransitionValid (State s) st); simpl; [done|]. intros Hmay [= <-]. split_and!; try done. by intros ?%Hmay.
    + intros [= <-]. split; [done|]. rewrite <-range_has_elem. unfold IsValid in Hv. by rewrite Hv.
Qed.

Definition sample_session : Session :=
  mkSession 7 1 2 "s" "claude" [] StateDetached None None 80 24 true 5 (Some 3) (Some 5) None None 1.

Lemma sample_session_ok : lifecycle_ok sample_session.
Proof.
  unfold lifecycle_ok. split_and!; try done; simpl; try (by intros _; eexists).
  split; [by intros [??]|done].
Defined.

Example TransitionSession_correct_witness :
  match TransitionSession sample_session StateRunning 9 with
  | Ok s' =>
      may StateDetached StateRunning ∧ State s' = StateRunning ∧ lifecycle_ok s' ∧
      LastActivityAt s' = 9 ∧ identity_of s' = identity_of sample_session ∧
      (is_Some (Some 3) → StartedAt s' = Some 3) ∧
      (StateRunning = StateRunning → is_Some (StartedAt s'))
  | Err (InvalidState x) => x = StateRunning ∧ StateRunning ∉ AllSessionStates
  | Err (TransitionError from to) =>
      from = StateDetached ∧ to = StateRunning ∧ StateRunning ∈ AllSessionStates ∧
      ¬ may StateDetached StateRunning
  end.
Proof. apply (TransitionSession_correct sample_session StateRunning 9 sample_session_ok). Defined.

(** the state diagram the code implements. Every listed state is reachable
    from PROVISIONING and none other is; TERMINATED can be entered from each
    other state in one step and never left; no state steps to itself; and the
    three ways the code asks about an edge ([ValidateTransition],
    [IsTransitionValid], [GetValidTransitions]) agree on every pair of strings. *)
Theorem state_diagram :
  (∀ s, rtc may StateProvisioning s ↔ s ∈ AllSessionStates) ∧
  (∀ s, s ∈ AllSessionStates → s ≠ StateTerminated → IsTransitionValid s StateTerminated = true) ∧
  (∀ s, rtc may StateTerminated s → s = StateTerminated) ∧
  (∀ s, IsTransitionValid s s = false) ∧
  (∀ from to, IsTransitionValid from to = true ↔ ValidateTransition from to = None) ∧
  (∀ from to, IsTransitionValid from to = true ↔ to ∈ GetValidTransitions from).
Proof.
  split_and!.
  - intros s. split.
    + intros H. apply range_has_elem. change (IsValid s = true).
      apply rtc_inv_r in H as [<-|(s' & _ & ?%may_valid)]; [done|naive_solver].
    + intros Hs%range_has_elem. revert Hs. intros [->|[->|[->|[->|[->| ->]]]]]%IsValid_cases.
      * apply rtc_refl.
      * apply rtc_once. constructor.
      * eapply rtc_l, rtc_once; constructor.
      * eapply rtc_l, rtc_l, rtc_once; constructor.
      * eapply rtc_l, rtc_once; constructor.
      * apply rtc_once. by constructor.
  - intros s Hs Hne. apply IsTransitionValid_may. constructor; [|done].
    by apply range_has_elem.
  - intros s H. apply rtc_inv in H as [?|(s' & Hm & _)]; [done|].
    by apply may_not_terminated in Hm.
  - intros s. apply not_true_iff_false. rewrite IsTransitionValid_may. inversion 1; congruence.
  - intros from to. unfold ValidateTransition. rewrite IsTransitionValid_may.
    destruct (IsValid to) eqn:Hv; simpl.
    + rewrite <-IsTransitionValid_may. by destruct (IsTransitionValid from to).
    + split; [|done]. intros [_ H]%may_valid. congruence.
  - intros from to. unfold IsTransitionValid, GetValidTransitions.
    destruct (ValidTransitions !! from); simpl; [apply range_has_elem|].
    by rewrite elem_of_nil.
Qed.

End Session.
