(* ===== verification/SessionStore.v ===== *)
(** * internal/session/store.go: sessions in the database

    The table [sessions] is a map from primary keys to rows, with the primary
    key, foreign key and CHECK constraints of db/migrations 001-003. Each SQL
    statement of the source is the function it denotes on the tables; what can
    go wrong outside the program (a statement that fails, an acknowledgement or
    a connection that is lost) is an argument of the operation. A transaction
    that holds [FOR UPDATE] on the row it rewrites is one atomic step. *)
From S2P Require Import Prelude SessionState.
Import Session.
#[local] Open Scope Z_scope.

Module Store.

(** ** The database *)

(** Rows of [event_logs]; [event_data] is the stored JSON text. *)
Record EventRow := mkEventRow {
  er_id : Z; er_session : N; er_satellite : N; er_type : string;
  er_data : option string; er_created : Z;
}.

Record DB := mkDB {
  sessions : gmap N Session;
  satellites : gset N;             (* the keys sessions.satellite_id refers to *)
  event_logs : list EventRow;
  event_seq : Z;                   (* the BIGSERIAL of event_logs *)
}.

Definition set_sessions (db : DB) (m : gmap N Session) : DB :=
  mkDB m (satellites db) (event_logs db) (event_seq db).

Inductive store_error :=
  | ErrSessionNotFound
  | ErrTransition (e : transition_error)
  | ErrParse                                 (* uuid.Parse *)
  | ErrMarshal                               (* json.Marshal *)
  | ErrDB.                                   (* any error of the driver *)

(** What a single statement meets: success, a failure without effect, or an
    effect whose acknowledgement is lost. *)
Inductive fault := NoFault | StmtFails | AckLost.

(** [pool.Exec] of a statement that would turn [db] into [db']. *)
Definition exec (db db' : DB) (f : fault) : DB * option store_error :=
  match f with
  | NoFault => (db', None)
  | StmtFails => (db, Some ErrDB)
  | AckLost => (db', Some ErrDB)
  end.

(** [pool.Exec] of an UPDATE or DELETE by primary key, and the
    [RowsAffected() == 0] check that follows it. *)
Definition exec_row (db : DB) (id : N) (upd : Session → option Session) (f : fault)
    : DB * option store_error :=
  match sessions db !! id with
  | None => match f with NoFault => (db, Some ErrSessionNotFound) | _ => (db, Some ErrDB) end
  | Some s =>
      exec db (set_sessions db (match upd s with
                                | Some s' => <[id := s']> (sessions db)
                                | None => delete id (sessions db)
                                end)) f
  end.

(** ** Single-row operations *)

(** INSERT of twelve columns: the others are NULL. *)
Definition inserted_row (s : Session) : Session :=
  mkSession (ID s) (SatelliteID s) (UserID s) (Name s) (AgentBinary s) (AgentArgs s)
    (State s) None None (Cols s) (Rows s) (RecordingEnabled s)
    (LastActivityAt s) None None None None (CreatedAt s).

(** PRIMARY KEY, REFERENCES satellites(id), CHECK (state IN ...). *)
Definition insertable (db : DB) (s : Session) : bool :=
  bool_decide (sessions db !! ID s = None) && bool_decide (SatelliteID s ∈ satellites db)
  && IsValid (State s).

Definition CreateSession (db : DB) (s : Session) (f : fault) : DB * option store_error :=
  if insertable db s then exec db (set_sessions db (<[ID s := inserted_row s]> (sessions db))) f
  else (db, Some ErrDB).

Definition GetSession (db : DB) (id : N) (f : bool) : result store_error Session :=
  if f then Err ErrDB else
  match sessions db !! id with
  | None => Err ErrSessionNotFound
  | Some s => Ok s
  end.

(** The CHECK constraint applies to the new state. *)
Definition UpdateState (db : DB) (id : N) (state : SessionState) (now : Z) (f : fault)
    : DB * option store_error :=
  if bool_decide (is_Some (sessions db !! id)) && negb (IsValid state) then (db, Some ErrDB) else
  exec_row db id (λ s, Some (set_lifecycle s state now (StartedAt s) (DetachedAt s)
                               (SuspendedAt s) (TerminatedAt s))) f.

Definition UpdateSession (db : DB) (sess : Session) (f : fault) : DB * option store_error :=
  if bool_decide (is_Some (sessions db !! ID sess)) && negb (IsValid (State sess))
  then (db, Some ErrDB) else
  exec_row db (ID sess) (λ s, Some (mkSession (ID s) (SatelliteID s) (UserID s)
    (Name sess) (AgentBinary s) (AgentArgs s) (State sess) (OSPID sess) (PTSName sess)
    (Cols sess) (Rows sess) (RecordingEnabled s) (LastActivityAt sess) (StartedAt sess)
    (DetachedAt sess) (SuspendedAt sess) (TerminatedAt sess) (CreatedAt s))) f.

Definition DeleteSession (db : DB) (id : N) (f : fault) : DB * option store_error :=
  exec_row db id (λ _, None) f.

(** ** The transactional transition *)

Inductive tx_fault := TxOk | BeginFails | SelectFails | ExecFails | CommitFails | CommitAckLost.

(** Any error of the locked SELECT is reported as [ErrSessionNotFound]; every
    early return runs the deferred [Rollback]. *)
Definition TransitionSession (db : DB) (id : N) (newState : SessionState) (now : Z) (f : tx_fault)
    : DB * result store_error Session :=
  match f with
  | BeginFails => (db, Err ErrDB)
  | SelectFails => (db, Err ErrSessionNotFound)
  | _ =>
      match sessions db !! id with
      | None => (db, Err ErrSessionNotFound)
      | Some session =>
          match Session.TransitionSession session newState now with
          | Err e => (db, Err (ErrTransition e))
          | Ok u =>
              let row := set_lifecycle session (State u) (LastActivityAt u) (StartedAt u)
                           (DetachedAt u) (SuspendedAt u) (TerminatedAt u) in
              let db' := set_sessions db (<[id := row]> (sessions db)) in
              match f with
              | ExecFails | CommitFails => (db, Err ErrDB)
              | CommitAckLost => (db', Err ErrDB)
              | _ => (db', Ok u)
              end
          end
      end
  end.

(** ** Listings *)

(** What a query meets: no failure, a failure of [Query], a connection lost
    after [n] rows ([rows.Next] answers false), a row that does not scan. *)
Inductive query_fault := QueryOk | QueryFails | CutAfter (n : nat) | ScanFails (n : nat).

(** The loop [for rows.Next()]: [rows.Err()] is never consulted. *)
Fixpoint scan_rows (rows acc : list Session) (f : query_fault) : result store_error (list Session) :=
  match rows with
  | [] => Ok acc
  | r :: rows' =>
      match f with
      | CutAfter O => Ok acc
      | ScanFails O => Err ErrDB
      | CutAfter (S n) => scan_rows rows' (acc ++ [r]) (CutAfter n)
      | ScanFails (S n) => scan_rows rows' (acc ++ [r]) (ScanFails n)
      | f => scan_rows rows' (acc ++ [r]) f
      end
  end.

Definition run_query (rows : list Session) (f : query_fault) : result store_error (list Session) :=
  match f with QueryFails => Err ErrDB | _ => scan_rows rows [] f end.

(** ORDER BY created_at DESC *)
Definition newer_eq (a b : Session) : Prop := CreatedAt b <= CreatedAt a.
(** ORDER BY created_at DESC, id DESC *)
Definition after_eq (a b : Session) : Prop :=
  CreatedAt b < CreatedAt a ∨ (CreatedAt b = CreatedAt a ∧ (ID b <= ID a)%N).
(** (created_at, id) < (t, i) *)
Definition before_key (t : Z) (i : N) (s : Session) : Prop :=
  CreatedAt s < t ∨ (CreatedAt s = t ∧ (ID s < i)%N).

#[export] Instance newer_eq_dec : RelDecision newer_eq.
Proof. intros a b. unfold newer_eq. apply _. Defined.
#[export] Instance after_eq_dec : RelDecision after_eq.
Proof. intros a b. unfold after_eq. apply _. Defined.
#[export] Instance before_key_dec t i s : Decision (before_key t i s).
Proof. unfold before_key. apply _. Defined.

(** LIMIT refuses a negative number. *)
Definition sql_limit (n : Z) (rows : list Session) : option (list Session) :=
  if n <? 0 then None else Some (take (Z.to_nat n) rows).

Definition run_limited (rows : option (list Session)) (f : query_fault)
    : result store_error (list Session) :=
  match rows with None => Err ErrDB | Some r => run_query r f end.

Section Listings.
(** The order the server scans the rows in, which also fixes the order of
    rows that tie on [created_at]. *)
Variable arrange : list Session → list Session.
(** [uuid.Parse] of the cursor. *)
Variable uuid_Parse : string → option N.

Definition rows_of (db : DB) : list Session := arrange (map_to_list (sessions db)).*2.

Definition by_created (db : DB) (P : Session → Prop) `{∀ s, Decision (P s)} : list Session :=
  merge_sort newer_eq (filter P (rows_of db)).

Definition ListSessions (db : DB) (f : query_fault) :=
  run_query (by_created db (λ _, True)) f.
Definition ListSessionsByUser (db : DB) (userID : N) (f : query_fault) :=
  run_query (by_created db (λ s, UserID s = userID)) f.
Definition ListSessionsBySatellite (db : DB) (satelliteID : N) (f : query_fault) :=
  run_query (by_created db (λ s, SatelliteID s = satelliteID)) f.
Definition ListActiveSessions (db : DB) (f : query_fault) :=
  run_query (by_created db (λ s, TerminatedAt s = None)) f.

Definition by_key (db : DB) : list Session := merge_sort after_eq (rows_of db).

Definition ListActiveSessionsWithLimit (db : DB) (limit : Z) (f : query_fault) :=
  run_limited (sql_limit limit (by_key db)) f.

(** A cursor that names no row compares with NULL, which selects nothing. *)
Definition ListActiveSessionsAfter (db : DB) (cursor : string) (limit : Z) (f : query_fault) :=
  match uuid_Parse cursor with
  | None => Err ErrParse
  | Some c =>
      run_limited (sql_limit limit
        (match sessions db !! c with
         | None => []
         | Some p => merge_sort after_eq
                       (filter (before_key (CreatedAt p) (ID p)) (rows_of db))
         end)) f
  end.

Definition CountActiveSessions (db : DB) (f : bool) : result store_error Z :=
  if f then Err ErrDB else Ok (Z.of_nat (length (rows_of db))).
End Listings.

(** ** Event logs *)

Section EventLogs.
(** [map[string]interface{}] values and encoding/json on them. *)
Context {Payload : Type}.
Variable marshal : Payload → option string.
Variable unmarshal : string → option Payload.
Variable arrange_logs : list EventRow → list EventRow.

Record EventLog := mkEventLog {
  ev_ID : Z; ev_SessionID : N; ev_SatelliteID : option N; ev_UserID : option N;
  ev_Type : string; ev_Payload : option Payload; ev_CreatedAt : Z;
}.

(** event_logs.satellite_id is NOT NULL; the id column is drawn from a
    sequence, and the user is not written. *)
Definition WriteEventLog (db : DB) (event : EventLog) (now : Z) (f : fault)
    : DB * option store_error :=
  let insert (data : option string) :=
    match ev_SatelliteID event with
    | None => (db, Some ErrDB)
    | Some sat =>
        exec db (mkDB (sessions db) (satellites db)
                   (event_logs db ++
                     [mkEventRow (event_seq db) (ev_SessionID event) sat (ev_Type event) data now])
                   (event_seq db + 1)) f
    end in
  match ev_Payload event with
  | None => insert None
  | Some p =>
      match marshal p with
      | None => (db, Some ErrMarshal)
      | Some txt => insert (Some txt)
      end
  end.

Definition log_newer_eq (a b : EventRow) : Prop := er_created b <= er_created a.
#[export] Instance log_newer_eq_dec : RelDecision log_newer_eq.
Proof. intros a b. unfold log_newer_eq. apply _. Defined.

(** A payload that does not parse is logged and left nil. *)
Definition event_of_row (r : EventRow) : EventLog :=
  mkEventLog (er_id r) (er_session r) (Some (er_satellite r)) None (er_type r)
    (match er_data r with None => None | Some txt => unmarshal txt end) (er_created r).

Definition GetEventLogs (db : DB) (sessionID : N) (limit : Z) (f : bool)
    : result store_error (list EventLog) :=
  if f || (limit <? 0) then Err ErrDB else
  Ok (event_of_row <$> take (Z.to_nat limit)
        (merge_sort log_newer_eq
           (filter (λ r, er_session r = sessionID) (arrange_logs (event_logs db))))).
End EventLogs.
Arguments EventLog : clear implicits.
Arguments mkEventLog {Payload}.

(** ** Tables whose keys are the row ids *)

Definition db_wf (db : DB) : Prop := ∀ id s, sessions db !! id = Some s → ID s = id.

Lemma db_wf_insert db id s :
  db_wf db → ID s = id → db_wf (set_sessions db (<[id := s]> (sessions db))).
Proof.
  intros Hwf Hs id' s'. simpl. rewrite lookup_insert_Some. intros [[<- <-]|[_ ?]]; eauto.
Qed.

Section ListingFacts.
Variable arrange : list Session → list Session.
Hypothesis arrange_perm : ∀ l, arrange l ≡ₚ l.
Context (db : DB) (Hwf : db_wf db).

Lemma elem_of_rows s : s ∈ rows_of arrange db ↔ sessions db !! ID s = Some s.
Proof.
  unfold rows_of. rewrite arrange_perm, list_elem_of_fmap. split.
  - intros ([id s'] & -> & H%elem_of_map_to_list). simpl. by rewrite (Hwf _ _ H).
  - intros H. exists (ID s, s). split; [done|]. by apply elem_of_map_to_list.
Qed.

Lemma rows_of_IDs : ID <$> rows_of arrange db ≡ₚ (map_to_list (sessions db)).*1.
Proof.
  unfold rows_of. rewrite arrange_perm, <-list_fmap_compose.
  erewrite list_fmap_ext; [done|]. intros i [id s] H. simpl.
  apply Hwf, elem_of_map_to_list. by apply list_elem_of_lookup_2 in H.
Qed.

Lemma rows_of_NoDup : NoDup (ID <$> rows_of arrange db).
Proof. rewrite rows_of_IDs. apply NoDup_fst_map_to_list. Qed.

#[export] Instance after_eq_total : Total after_eq.
Proof. intros a b. unfold after_eq. lia. Qed.
#[export] Instance after_eq_trans : Transitive after_eq.
Proof. intros a b c. unfold after_eq. lia. Qed.
#[local] Instance newer_eq_total : Total newer_eq.
Proof. intros a b. unfold newer_eq. lia. Qed.
#[local] Instance newer_eq_trans : Transitive newer_eq.
Proof. intros a b c. unfold newer_eq. lia. Qed.

(** Rows are determined by their id, so two sorted listings of the same rows
    are the same list. *)
Lemma after_sorted_unique l1 l2 :
  l1 ≡ₚ l2 → (∀ s, s ∈ l1 → sessions db !! ID s = Some s) →
  StronglySorted after_eq l1 → StronglySorted after_eq l2 → l1 = l2.
Proof.
  intros Hp Hin H1 H2. eapply StronglySorted_unique_strong; [|done..].
  intros a b Ha Hb Hab Hba. assert (ID a = ID b) as Hid by (unfold after_eq in *; lia).
  rewrite <-Hp in Hb. apply Hin in Ha. apply Hin in Hb. congruence.
Qed.

Lemma by_key_perm : by_key arrange db ≡ₚ rows_of arrange db.
Proof. apply merge_sort_Permutation. Qed.

Lemma by_key_sorted : StronglySorted after_eq (by_key arrange db).
Proof. apply (StronglySorted_merge_sort _). Qed.

Lemma by_key_NoDup : NoDup (ID <$> by_key arrange db).
Proof. rewrite by_key_perm. apply rows_of_NoDup. Qed.

Lemma filter_before_all p l :
  ID p ∉ ID <$> l → Forall (after_eq p) l → filter (before_key (CreatedAt p) (ID p)) l = l.
Proof.
  intros Hni Hall. induction Hall as [|a l Ha _ IH]; [done|].
  rewrite fmap_cons, not_elem_of_cons in Hni. destruct Hni as [Hne Hni].
  rewrite filter_cons_True; [by rewrite IH|]. unfold after_eq, before_key in *. lia.
Qed.

Lemma filter_before_drop l k p :
  StronglySorted after_eq l → NoDup (ID <$> l) → l !! k = Some p →
  filter (before_key (CreatedAt p) (ID p)) l = drop (S k) l.
Proof.
  intros Hs. revert k. induction Hs as [|a l Hs IH Ha]; intros k Hnd Hk; [done|].
  rewrite fmap_cons in Hnd. apply NoDup_cons in Hnd as [Hni Hnd].
  destruct k as [|k]; simpl in Hk.
  - injection Hk as ->. rewrite filter_cons_False by (unfold before_key; lia).
    by rewrite filter_before_all.
  - rewrite filter_cons_False.
    + by rewrite (IH k).
    + rewrite Forall_forall in Ha. specialize (Ha p (list_elem_of_lookup_2 _ _ _ Hk)).
      unfold after_eq, before_key in *. lia.
Qed.

(** The rows after the [k]-th of the full listing are what its cursor gives. *)
Lemma after_cursor_rows k p :
  by_key arrange db !! k = Some p →
  merge_sort after_eq (filter (before_key (CreatedAt p) (ID p)) (rows_of arrange db))
  = drop (S k) (by_key arrange db).
Proof.
  intros Hk.
  rewrite <-(filter_before_drop _ _ _ by_key_sorted by_key_NoDup Hk).
  apply after_sorted_unique.
  - rewrite merge_sort_Permutation. by rewrite by_key_perm.
  - intros s. rewrite merge_sort_Permutation, list_elem_of_filter. intros [_ H].
    by apply elem_of_rows.
  - apply (StronglySorted_merge_sort _).
  - rewrite (filter_before_drop _ _ _ by_key_sorted by_key_NoDup Hk).
    pose proof by_key_sorted as Hs. rewrite <-(take_drop (S k) (by_key _ _)) in Hs.
    by apply StronglySorted_app_1_r in Hs.
Qed.

Lemma by_created_perm P `{∀ s, Decision (P s)} s :
  s ∈ by_created arrange db P ↔ sessions db !! ID s = Some s ∧ P s.
Proof.
  unfold by_created. rewrite merge_sort_Permutation, list_elem_of_filter, elem_of_rows. tauto.
Qed.

Lemma by_created_sorted P `{∀ s, Decision (P s)} :
  StronglySorted newer_eq (by_created arrange db P).
Proof. apply (StronglySorted_merge_sort _). Qed.

Lemma by_created_NoDup P `{∀ s, Decision (P s)} : NoDup (by_created arrange db P).
Proof.
  unfold by_created. rewrite merge_sort_Permutation. apply NoDup_filter.
  eapply NoDup_fmap_1, rows_of_NoDup.
Qed.
End ListingFacts.

(** A query without failure gives all the rows; a lost connection a prefix of
    them, as if it were all. *)
Lemma scan_rows_ok rows acc : scan_rows rows acc QueryOk = Ok (acc ++ rows).
Proof.
  revert acc. induction rows as [|r rows IH]; intros acc; simpl; [by rewrite app_nil_r|].
  by rewrite IH, <-(assoc_L (++)).
Qed.

Lemma scan_rows_cut rows acc n : scan_rows rows acc (CutAfter n) = Ok (acc ++ take n rows).
Proof.
  revert acc n. induction rows as [|r rows IH]; intros acc [|n]; simpl; rewrite ?app_nil_r; try done.
  by rewrite IH, <-(assoc_L (++)).
Qed.

Lemma run_query_ok rows : run_query rows QueryOk = Ok rows.
Proof. apply scan_rows_ok. Qed.

(** ** Every writer of one row *)

Lemma exec_row_cases db id upd f db' e :
  exec_row db id upd f = (db', e) →
  db' = db ∨ ∃ s, sessions db !! id = Some s ∧
    db' = set_sessions db (match upd s with
                           | Some s' => <[id := s']> (sessions db)
                           | None => delete id (sessions db) end).
Proof.
  unfold exec_row, exec. destruct (sessions db !! id) as [s|]; destruct f; naive_solver.
Qed.

Lemma exec_row_hit db id upd s :
  sessions db !! id = Some s →
  exec_row db id upd NoFault =
    (set_sessions db (match upd s with
                      | Some s' => <[id := s']> (sessions db)
                      | None => delete id (sessions db) end), None).
Proof. intros H. unfold exec_row. by rewrite H. Qed.

(** The UPDATE writes every column an in-memory transition changes. *)
Lemma transition_row s st now u :
  Session.TransitionSession s st now = Ok u →
  set_lifecycle s (State u) (LastActivityAt u) (StartedAt u) (DetachedAt u) (SuspendedAt u)
    (TerminatedAt u) = u.
Proof.
  unfold Session.TransitionSession.
  destruct (IsValid st), (IsTransitionValid (State s) st); try done.
  intros [= <-]; by repeat case_match.
Qed.

(** The store's transition on a row is the in-memory one, or nothing. *)
Lemma TransitionSession_cases db id st now f :
  (TransitionSession db id st now f).1 = db ∨
  ∃ s s', sessions db !! id = Some s ∧ Session.TransitionSession s st now = Ok s' ∧
    (TransitionSession db id st now f).1 = set_sessions db (<[id := s']> (sessions db)).
Proof.
  unfold TransitionSession. destruct f; try by left.
  all: destruct (sessions db !! id) as [s|] eqn:Hs; [|by left].
  all: destruct (Session.TransitionSession s st now) as [u|e] eqn:Hu; [|by left].
  all: try by left.
  all: right; exists s, u; by rewrite (transition_row _ _ _ _ Hu).
Qed.

(** ** The abstract table: one state per session *)

Definition states (db : DB) : gmap N SessionState := State <$> sessions db.

(** The calls that write the table, with the faults they meet. *)
Inductive store_op :=
  | OpCreate (s : Session) (f : fault)
  | OpUpdateState (id : N) (st : SessionState) (now : Z) (f : fault)
  | OpUpdate (s : Session) (f : fault)
  | OpDelete (id : N) (f : fault)
  | OpTransition (id : N) (st : SessionState) (now : Z) (f : tx_fault).

Definition run_op (db : DB) (o : store_op) : DB :=
  match o with
  | OpCreate s f => (CreateSession db s f).1
  | OpUpdateState id st now f => (UpdateState db id st now f).1
  | OpUpdate s f => (UpdateSession db s f).1
  | OpDelete id f => (DeleteSession db id f).1
  | OpTransition id st now f => (TransitionSession db id st now f).1
  end.

(** Any interleaving of the calls of any number of clients. *)
Definition run_ops (db : DB) (ops : list store_op) : DB := foldl run_op db ops.

(** *** The specification: what a call does to the states, if it lands *)

Definition lands (f : fault) : bool := match f with StmtFails => false | _ => true end.
Definition commits (f : tx_fault) : bool :=
  match f with TxOk | CommitAckLost => true | _ => false end.

#[export] Instance may_dec a b : Decision (may a b).
Proof.
  destruct (IsTransitionValid a b) eqn:H; [left; by apply IsTransitionValid_may|right].
  by rewrite <-IsTransitionValid_may, H.
Defined.

(** Setting a state without looking at the old one. *)
Definition force (m : gmap N SessionState) (id : N) (st : SessionState) : gmap N SessionState :=
  if bool_decide (is_Some (m !! id)) && IsValid st then <[id := st]> m else m.

Definition spec_op (sats : gset N) (m : gmap N SessionState) (o : store_op) : gmap N SessionState :=
  match o with
  | OpCreate s f =>
      if bool_decide (m !! ID s = None) && bool_decide (SatelliteID s ∈ sats) && IsValid (State s) && lands f
      then <[ID s := State s]> m else m
  | OpUpdateState id st _ f => if lands f then force m id st else m
  | OpUpdate s f => if lands f then force m (ID s) (State s) else m
  | OpDelete id f => if lands f then delete id m else m
  | OpTransition id st _ f =>
      match m !! id with
      | Some old => if bool_decide (may old st) && commits f then <[id := st]> m else m
      | None => m
      end
  end.

(** Rows are well keyed and their timestamps fit their state. *)
Definition store_ok (db : DB) : Prop :=
  db_wf db ∧ ∀ id s, sessions db !! id = Some s → lifecycle_ok s.

(** A call that leaves session [id] to the state machine: a session starts PROVISIONING,
    and no other call than a transition writes the row. *)
Definition orderly (id : N) (o : store_op) : Prop :=
  match o with
  | OpCreate s _ => ID s = id → State s = StateProvisioning
  | OpUpdateState id' _ _ _ | OpDelete id' _ => id' ≠ id
  | OpUpdate s _ => ID s ≠ id
  | OpTransition _ _ _ _ => True
  end.

Lemma CreateSession_cases db s f :
  (CreateSession db s f).1 = db ∨
  insertable db s = true ∧
  (CreateSession db s f).1 = set_sessions db (<[ID s := inserted_row s]> (sessions db)).
Proof. unfold CreateSession, exec. destruct (insertable db s), f; auto. Qed.

Lemma insertable_fresh db s : insertable db s = true → sessions db !! ID s = None.
Proof.
  unfold insertable. intros [[H _]%andb_true_iff _]%andb_true_iff. by apply bool_decide_eq_true in H.
Qed.

Lemma store_ok_insert db id s :
  store_ok db → ID s = id → lifecycle_ok s →
  store_ok (set_sessions db (<[id := s]> (sessions db))).
Proof.
  intros [Hwf Hl] Hid Hs. split; [by apply db_wf_insert|].
  intros id' s'. simpl. rewrite lookup_insert_Some. intros [[<- <-]|[_ ?]]; eauto.
Qed.

(** An UPDATE or DELETE by key, whatever it meets. *)
Lemma exec_row_fst db id upd f :
  (exec_row db id upd f).1 =
    match sessions db !! id with
    | Some s => if lands f then set_sessions db (match upd s with
                                                 | Some s' => <[id := s']> (sessions db)
                                                 | None => delete id (sessions db) end) else db
    | None => db
    end.
Proof. unfold exec_row, exec. by destruct (sessions db !! id), f. Qed.

Lemma CreateSession_fst db s f :
  (CreateSession db s f).1 =
    if insertable db s && lands f then set_sessions db (<[ID s := inserted_row s]> (sessions db)) else db.
Proof. unfold CreateSession, exec. by destruct (insertable db s), f. Qed.

(** What [UpdateState] and [UpdateSession] share: the CHECK, then the UPDATE. *)
Lemma checked_update_fst db id st upd f :
  (if bool_decide (is_Some (sessions db !! id)) && negb (IsValid st) then (db, Some ErrDB)
   else exec_row db id (λ s, Some (upd s)) f).1 =
    match sessions db !! id with
    | Some s => if IsValid st && lands f then set_sessions db (<[id := upd s]> (sessions db)) else db
    | None => db
    end.
Proof.
  case_bool_decide as Hs; destruct (IsValid st) eqn:Hv; simpl; rewrite ?exec_row_fst;
    destruct (sessions db !! id); try done; by destruct Hs.
Qed.

Lemma TransitionSession_fst db id st now f :
  (TransitionSession db id st now f).1 =
    match sessions db !! id with
    | Some s => match Session.TransitionSession s st now with
                | Ok u => if commits f then set_sessions db (<[id := u]> (sessions db)) else db
                | Err _ => db
                end
    | None => db
    end.
Proof.
  unfold TransitionSession. destruct (sessions db !! id) as [s|]; [|by destruct f].
  destruct (Session.TransitionSession s st now) as [u|e] eqn:Hu; [|by destruct f].
  rewrite (transition_row _ _ _ _ Hu). by destruct f.
Qed.

(** *** The refinement *)

Lemma run_op_satellites db o : satellites (run_op db o) = satellites db.
Proof.
  destruct o as [s f|id st now f|s f|id f|id st now f]; cbn [run_op].
  - rewrite CreateSession_fst. by case_match.
  - unfold UpdateState. rewrite checked_update_fst. by repeat case_match.
  - unfold UpdateSession. rewrite checked_update_fst. by repeat case_match.
  - unfold DeleteSession. rewrite exec_row_fst. by repeat case_match.
  - rewrite TransitionSession_fst. by repeat case_match.
Qed.

Lemma states_insert db id s :
  states (set_sessions db (<[id := s]> (sessions db))) = <[id := State s]> (states db).
Proof. apply fmap_insert. Qed.

Lemma states_lookup db id : states db !! id = State <$> sessions db !! id.
Proof. apply lookup_fmap. Qed.

Lemma states_force db id st (upd : Session → Session) f :
  (∀ s, State (upd s) = st) →
  states (match sessions db !! id with
          | Some s => if IsValid st && lands f then set_sessions db (<[id := upd s]> (sessions db)) else db
          | None => db
          end) = if lands f then force (states db) id st else states db.
Proof.
  intros Hu. unfold force. rewrite states_lookup. destruct (sessions db !! id) as [s|]; simpl.
  - destruct (IsValid st), (lands f); try done. simpl. by rewrite states_insert, Hu.
  - by destruct (lands f).
Qed.

Lemma run_op_spec db o : states (run_op db o) = spec_op (satellites db) (states db) o.
Proof.
  destruct o as [s f|id st now f|s f|id f|id st now f]; cbn [run_op spec_op].
  - rewrite CreateSession_fst. unfold insertable. rewrite states_lookup.
    destruct (sessions db !! ID s); simpl; [done|]. case_match; [by rewrite states_insert|done].
  - unfold UpdateState. rewrite checked_update_fst. by apply states_force.
  - unfold UpdateSession. rewrite checked_update_fst. by apply states_force.
  - unfold DeleteSession. rewrite exec_row_fst. destruct (sessions db !! id) as [s|] eqn:Hs; destruct (lands f); try done.
    + unfold states. simpl. by rewrite fmap_delete.
    + rewrite delete_id; [done|]. by rewrite states_lookup, Hs.
  - rewrite TransitionSession_fst, states_lookup. destruct (sessions db !! id) as [s|]; [|done]. simpl.
    destruct (Session.TransitionSession s st now) as [u|e] eqn:Hu.
    + apply TransitionSession_Ok in Hu as (Hm & Hst & _). rewrite bool_decide_true by done.
      destruct (commits f); [|done]. simpl. by rewrite states_insert, Hst.
    + rewrite bool_decide_false; [done|]. intros (? & ?)%(TransitionSession_may _ _ now). congruence.
Qed.

(** *** The rows of one session *)

Lemma run_op_wf db o : db_wf db → db_wf (run_op db o).
Proof.
  intros Hwf. destruct o as [s f|id st now f|s f|id f|id st now f]; cbn [run_op].
  - rewrite CreateSession_fst. case_match; [by apply db_wf_insert|done].
  - unfold UpdateState. rewrite checked_update_fst. repeat case_match; try done.
    apply db_wf_insert; [done|]. simpl. eauto.
  - unfold UpdateSession. rewrite checked_update_fst. repeat case_match; try done.
    apply db_wf_insert; [done|]. simpl. eauto.
  - unfold DeleteSession. rewrite exec_row_fst. repeat case_match; try done.
    intros id' s'. simpl. rewrite lookup_delete_Some. intros [_ ?]. eauto.
  - rewrite TransitionSession_fst. repeat case_match; try done.
    apply db_wf_insert; [done|]. etrans; [|by apply Hwf]. by eapply TransitionSession_Ok.
Qed.

(** What an orderly call does to the row: nothing, a first row, or a transition of it. *)
Lemma orderly_cases db id o :
  db_wf db → orderly id o →
  sessions (run_op db o) !! id = sessions db !! id ∨
  (∃ s, sessions db !! id = None ∧ sessions (run_op db o) !! id = Some (inserted_row s) ∧ State s = StateProvisioning) ∨
  (∃ s st now u, sessions db !! id = Some s ∧ Session.TransitionSession s st now = Ok u ∧
     sessions (run_op db o) !! id = Some u).
Proof.
  intros Hwf Ho. destruct o as [s f|id' st now f|s f|id' f|id' st now f]; cbn [run_op orderly] in *.
  - rewrite CreateSession_fst. destruct (insertable db s) eqn:Hi, (lands f); try by left.
    apply insertable_fresh in Hi. simpl. destruct (decide (ID s = id)) as [<-|Hne].
    + right; left. exists s. rewrite lookup_insert_eq. auto.
    + left. by rewrite lookup_insert_ne.
  - left. unfold UpdateState. rewrite checked_update_fst. repeat case_match; try done. by apply lookup_insert_ne.
  - left. unfold UpdateSession. rewrite checked_update_fst. repeat case_match; try done. by apply lookup_insert_ne.
  - left. unfold DeleteSession. rewrite exec_row_fst. repeat case_match; try done. by apply lookup_delete_ne.
  - rewrite TransitionSession_fst. destruct (sessions db !! id') as [s|] eqn:Hs; [|by left].
    destruct (Session.TransitionSession s st now) as [u|e] eqn:Hu; [|by left].
    destruct (commits f); [|by left]. simpl. destruct (decide (id' = id)) as [->|Hne].
    + right; right. exists s, st, now, u. by rewrite lookup_insert_eq.
    + left. by rewrite lookup_insert_ne.
Qed.

Lemma inserted_lifecycle s : State s = StateProvisioning → lifecycle_ok (inserted_row s).
Proof. intros Hs. unfold lifecycle_ok. simpl. rewrite Hs. split_and!; try done; by split; [intros [??]|]. Qed.

Lemma orderly_lifecycle db id o :
  db_wf db → orderly id o → (∀ s, sessions db !! id = Some s → lifecycle_ok s) →
  ∀ s, sessions (run_op db o) !! id = Some s → lifecycle_ok s.
Proof.
  intros Hwf Ho Hl. destruct (orderly_cases db id o Hwf Ho) as [-> |[(s & _ & -> & Hs)|(s & st & now & u & Hs & Ht & ->)]].
  - done.
  - intros ? [= <-]. by apply inserted_lifecycle.
  - intros ? [= <-]. eapply TransitionSession_lifecycle; eauto.
Qed.

Lemma orderly_terminated db id o s :
  db_wf db → orderly id o → sessions db !! id = Some s → State s = StateTerminated →
  sessions (run_op db o) !! id = Some s.
Proof.
  intros Hwf Ho Hs Ht. destruct (orderly_cases db id o Hwf Ho) as [-> |[(? & H & _)|(s' & st & now & u & Hs' & Htr & _)]]; [done|congruence|].
  apply TransitionSession_Ok in Htr as (Hm & _). apply may_not_terminated in Hm. congruence.
Qed.

Lemma run_ops_orderly id ops : ∀ db,
  db_wf db → Forall (orderly id) ops → (∀ s, sessions db !! id = Some s → lifecycle_ok s) →
  (∀ s, sessions (run_ops db ops) !! id = Some s → lifecycle_ok s) ∧
  (∀ s, sessions db !! id = Some s → State s = StateTerminated → sessions (run_ops db ops) !! id = Some s).
Proof.
  induction ops as [|o ops IH]; intros db Hwf Ho Hl; [done|]. apply Forall_cons in Ho as [Ho Hops].
  destruct (IH (run_op db o)) as [H1 H2]; [by apply run_op_wf|done|by apply orderly_lifecycle|].
  split; [done|]. intros s Hs Ht. apply H2; [by apply orderly_terminated|done].
Qed.

Lemma run_ops_wf ops : ∀ db, db_wf db → db_wf (run_ops db ops).
Proof. induction ops as [|o ops IH]; intros db Hwf; [done|]. by apply IH, run_op_wf. Qed.

Lemma run_ops_spec ops : ∀ db,
  states (run_ops db ops) = foldl (spec_op (satellites db)) (states db) ops.
Proof.
  induction ops as [|o ops IH]; intros db; [done|]. simpl.
  by rewrite <-run_op_spec, <-(run_op_satellites db o), <-IH.
Qed.

Lemma run_ops_ok ops db : (∀ id, Forall (orderly id) ops) → store_ok db → store_ok (run_ops db ops).
Proof.
  intros Ho [Hwf Hl]. split; [by apply run_ops_wf|]. intros id s.
  apply (run_ops_orderly id ops db Hwf (Ho id)). eauto.
Qed.

(** ** Properties *)

(** C2: the table of the sessions refines a map from ids to states. For any sequence of
    the five calls that write it, whatever statements fail on the way (also when a commit
    happened but its acknowledgement was lost), the states are those that [spec_op] gives:
    a transition moves along an edge of the diagram or not at all; UpdateState and
    UpdateSession set any valid state. A session that only creation and transitions
    write keeps timestamps that fit its state, and once it is TERMINATED its row is never
    written again. *)
Theorem store_refines_diagram db ops :
  db_wf db →
  states (run_ops db ops) = foldl (spec_op (satellites db)) (states db) ops ∧
  db_wf (run_ops db ops) ∧
  ∀ id, Forall (orderly id) ops → (∀ s, sessions db !! id = Some s → lifecycle_ok s) →
    (∀ s, sessions (run_ops db ops) !! id = Some s → lifecycle_ok s) ∧
    (∀ s, sessions db !! id = Some s → State s = StateTerminated →
       sessions (run_ops db ops) !! id = Some s).
Proof.
  intros Hwf. split_and!; [apply run_ops_spec|by apply run_ops_wf|]. intros id Ho Hl.
  by apply run_ops_orderly.
Qed.

Definition db0 : DB := mkDB ∅ {[1%N]} [] 1.

Lemma db0_ok : store_ok db0.
Proof. split; intros id s H; simpl in H; by apply lookup_empty_Some in H. Defined.

(** A session as the API creates it. *)
Definition fresh_session : Session :=
  set_lifecycle sample_session StateProvisioning 5 None None None None.

Example store_refines_diagram_witness :
  let ops := [OpCreate fresh_session NoFault; OpTransition 7 StateTerminated 9 CommitAckLost;
              OpTransition 7 StateRunning 10 TxOk; OpUpdateState 8 StateRunning 11 NoFault] in
  (State <$> sessions (run_ops db0 ops) !! 7%N) = Some StateTerminated ∧
  states (run_ops db0 (ops ++ [OpUpdateState 7 StateRunning 12 AckLost])) = {[7%N := StateRunning]} ∧
  (states (run_ops db0 ops) = foldl (spec_op (satellites db0)) (states db0) ops ∧
   db_wf (run_ops db0 ops) ∧
   (∀ s, sessions (run_ops db0 ops) !! 7%N = Some s → lifecycle_ok s)).
Proof.
  intros ops. split; [vm_compute; reflexivity|]. split; [vm_compute; reflexivity|].
  destruct (store_refines_diagram db0 ops (proj1 db0_ok)) as (H1 & H2 & H3).
  split; [exact H1|]. split; [exact H2|]. apply (H3 7%N).
  - unfold ops. repeat (apply Forall_cons; split; [first [done|simpl; lia]|]). apply Forall_nil_2.
  - intros s H. simpl in H. by apply lookup_empty_Some in H.
Defined.

(** what a caller of the transactional [TransitionSession] learns from its
    result. [Ok u]: the row now is [u], in the asked state, reached along an
    edge. A transition error: the edge is not in the diagram (or the target no
    state) and the table is as before. Any error without a lost acknowledgement
    leaves the table as before; and without a fault the error is
    [ErrSessionNotFound] exactly for a missing row. *)
Theorem TransitionSession_result db id st now f :
  let '(db', r) := TransitionSession db id st now f in
  match r with
  | Ok u => f = TxOk ∧ sessions db' = <[id := u]> (sessions db) ∧ State u = st ∧
            ∃ s, sessions db !! id = Some s ∧ may (State s) st
  | Err (ErrTransition e) =>
      db' = db ∧ ∃ s, sessions db !! id = Some s ∧ ¬ may (State s) st ∧
                      (e = InvalidState st ∨ e = TransitionError (State s) st)
  | Err e =>
      (f ≠ CommitAckLost → db' = db) ∧ (f = TxOk → e = ErrSessionNotFound ∧ sessions db !! id = None)
  end.
Proof.
  destruct (TransitionSession db id st now f) as [db' r] eqn:H.
  revert H. unfold TransitionSession.
  destruct (sessions db !! id) as [s|] eqn:Hs; [|destruct f; naive_solver].
  destruct (Session.TransitionSession s st now) as [u|e] eqn:Hu.
  - pose proof (TransitionSession_Ok _ _ _ _ Hu) as (Hm & Hst & _).
    rewrite (transition_row _ _ _ _ Hu).
    destruct f; intros [= <- <-]; try (split; [done|by intros]). simpl.
    split_and!; try done. by exists s.
  - assert (e = InvalidState st ∨ e = TransitionError (State s) st) as He.
    { revert Hu. unfold Session.TransitionSession, InvalidTransitionError.
      destruct (IsValid st), (IsTransitionValid (State s) st); simpl; naive_solver. }
    assert (¬ may (State s) st) as Hm.
    { intros (? & ?)%(TransitionSession_may _ _ now). congruence. }
    destruct f; intros [= <- <-]; try (split; [done|by intros]); (split; [done|]); by exists s.
Qed.

(** [ListActiveSessions] on a store driven by the transactional calls
    lists exactly the sessions that are not TERMINATED, each once, newest
    first, whatever order the server scans the table in. *)
Theorem ListActiveSessions_exact arrange db ops :
  (∀ l, arrange l ≡ₚ l) → (∀ id, Forall (orderly id) ops) → store_ok db →
  ∃ l, ListActiveSessions arrange (run_ops db ops) QueryOk = Ok l ∧
    NoDup l ∧ StronglySorted (λ a b, CreatedAt b <= CreatedAt a) l ∧
    ∀ s, s ∈ l ↔ sessions (run_ops db ops) !! ID s = Some s ∧ State s ≠ StateTerminated.
Proof.
  intros Harr Ho Hok. eexists. split; [apply run_query_ok|].
  pose proof (run_ops_ok ops db Ho Hok) as [Hwf Hl]. split_and!.
  - by apply by_created_NoDup.
  - apply by_created_sorted.
  - intros s. rewrite by_created_perm by done. split; intros [Hs Ht]; (split; [done|]).
    + rewrite <-(proj1 (proj2 (Hl _ _ Hs))). rewrite Ht. by intros [??].
    + apply eq_None_not_Some. by rewrite (proj1 (proj2 (Hl _ _ Hs))).
Qed.

Example ListActiveSessions_exact_witness :
  ∃ l, ListActiveSessions reverse (run_ops db0 [OpCreate fresh_session NoFault]) QueryOk = Ok l ∧
    NoDup l ∧ StronglySorted (λ a b, CreatedAt b <= CreatedAt a) l ∧
    ∀ s, s ∈ l ↔ sessions (run_ops db0 [OpCreate fresh_session NoFault]) !! ID s = Some s ∧
                 State s ≠ StateTerminated.
Proof.
  apply (ListActiveSessions_exact reverse db0 [OpCreate fresh_session NoFault]).
  - apply reverse_Permutation.
  - intros id. repeat constructor.
  - apply db0_ok.
Defined.

(** A client that pages through the sessions, [limit] at a time, following the
    id of the last row of each page, at most [n] times. *)
Fixpoint walk (arrange : list Session → list Session) (parse : string → option N)
    (show : N → string) (db : DB) (limit : Z) (page : list Session) (n : nat)
    : result store_error (list Session) :=
  match n, last page with
  | S n', Some p =>
      match ListActiveSessionsAfter arrange parse db (show (ID p)) limit QueryOk with
      | Err e => Err e
      | Ok page' =>
          match walk arrange parse show db limit page' n' with
          | Err e => Err e
          | Ok rest => Ok (page ++ rest)
          end
      end
  | _, _ => Ok page
  end.

Definition walk_all arrange parse show db limit : result store_error (list Session) :=
  match ListActiveSessionsWithLimit arrange db limit QueryOk with
  | Err e => Err e
  | Ok page => walk arrange parse show db limit page (S (size (sessions db)))
  end.

Lemma walk_rows arrange parse show db limit :
  (∀ l, arrange l ≡ₚ l) → (∀ id, parse (show id) = Some id) → db_wf db → 0 < limit →
  ∀ n k, (length (by_key arrange db) < k + n)%nat →
  walk arrange parse show db limit
    (take (Z.to_nat limit) (drop k (by_key arrange db))) n = Ok (drop k (by_key arrange db)).
Proof.
  intros Harr Hparse Hwf Hlim. set (L := by_key arrange db).
  induction n as [|n IH]; intros k Hk; simpl.
  { rewrite drop_ge by lia. by rewrite take_nil. }
  destruct (last _) as [p|] eqn:Hp.
  2:{ apply last_None in Hp. destruct (decide (k < length L)%nat) as [Hkl|].
      - apply (f_equal length) in Hp. rewrite length_take, length_drop in Hp. simpl in Hp. lia.
      - rewrite drop_ge by lia. by rewrite take_nil. }
  rewrite last_lookup in Hp. rewrite length_take, length_drop in Hp.
  set (j := Nat.pred (Z.to_nat limit `min` (length L - k))) in Hp.
  assert (k < length L)%nat as Hkl.
  { apply lookup_lt_Some in Hp. rewrite length_take, length_drop in Hp. lia. }
  rewrite lookup_take_lt, lookup_drop in Hp by lia.
  assert (sessions db !! ID p = Some p) as Hrow.
  { apply (elem_of_rows arrange Harr db Hwf). rewrite <-(by_key_perm arrange).
    by apply list_elem_of_lookup_2 in Hp. }
  unfold ListActiveSessionsAfter, run_limited, sql_limit.
  rewrite Hparse, Hrow. destruct (Z.ltb_spec limit 0); [lia|].
  rewrite (after_cursor_rows arrange Harr db Hwf (k + j) p Hp). fold L.
  rewrite run_query_ok. rewrite IH by lia. f_equal.
  destruct (decide (Z.to_nat limit <= length L - k)%nat).
  - replace (S (k + j)) with (k + Z.to_nat limit)%nat by lia.
    by rewrite <-drop_drop, take_drop.
  - rewrite (drop_ge _ (S (k + j))) by lia. rewrite app_nil_r.
    by rewrite take_ge by (rewrite length_drop; lia).
Qed.

(** keyset pagination is complete and duplicate-free: on a table that does
    not change meanwhile, following the cursors with any positive page size
    ends after at most one request more than there are sessions and gives
    every session exactly once, newest first with ties broken by id, even when
    many sessions share a creation time. *)
Theorem pagination_complete arrange parse show db limit :
  (∀ l, arrange l ≡ₚ l) → (∀ id, parse (show id) = Some id) → db_wf db → 0 < limit →
  ∃ l, walk_all arrange parse show db limit = Ok l ∧ NoDup (ID <$> l) ∧
    StronglySorted after_eq l ∧ ∀ s, s ∈ l ↔ sessions db !! ID s = Some s.
Proof.
  intros Harr Hparse Hwf Hlim. exists (by_key arrange db).
  split_and!; [|by apply by_key_NoDup|apply by_key_sorted|].
  - unfold walk_all, ListActiveSessionsWithLimit, run_limited, sql_limit.
    destruct (Z.ltb_spec limit 0); [lia|]. rewrite run_query_ok.
    apply (walk_rows arrange parse show db limit Harr Hparse Hwf Hlim (S (size (sessions db))) 0).
    rewrite <-(length_fmap ID), by_key_perm, (rows_of_IDs arrange Harr db Hwf), length_fmap.
    rewrite length_map_to_list. lia.
  - intros s. rewrite (by_key_perm arrange db). by apply elem_of_rows.
Qed.

Definition row_at (id : N) (t : Z) : Session :=
  mkSession id 1 2 "s" "claude" [] StateRunning None None 80 24 true t (Some t) None None None t.

Definition db3 : DB :=
  set_sessions db0 {[1%N := row_at 1 5; 2%N := row_at 2 5; 3%N := row_at 3 4]}.

Example pagination_complete_witness :
  walk_all reverse (λ s, Some (N.of_nat (String.length s)))
    (λ id, String.concat "" (replicate (N.to_nat id) "x")) db3 1
    = Ok [row_at 2 5; row_at 1 5; row_at 3 4] ∧
  ∃ l, walk_all reverse (λ s, Some (N.of_nat (String.length s)))
         (λ id, String.concat "" (replicate (N.to_nat id) "x")) db3 1 = Ok l ∧
    NoDup (ID <$> l) ∧ StronglySorted after_eq l ∧ ∀ s, s ∈ l ↔ sessions db3 !! ID s = Some s.
Proof.
  split; [vm_compute; reflexivity|]. apply pagination_complete.
  - apply reverse_Permutation.
  - intros id. rewrite <-(N2Nat.id id) at 2. do 2 f_equal.
    induction (N.to_nat id) as [|[|n] IH]; [done..|]. exact (f_equal S IH).
  - intros id s. unfold db3. simpl. rewrite !lookup_insert_Some, lookup_singleton_Some. naive_solver.
  - lia.
Defined.

(** a listing does not notice that its connection is lost: the scan loop
    ends when [rows.Next] answers false and [rows.Err] is not consulted, so any
    prefix of the answer can be returned as the whole answer, without error. *)
Theorem listing_truncated arrange db n limit parse cursor c p :
  parse cursor = Some c → sessions db !! c = Some p → 0 <= limit →
  ListSessions arrange db (CutAfter n) = Ok (take n (by_created arrange db (λ _, True))) ∧
  ListActiveSessions arrange db (CutAfter n)
    = Ok (take n (by_created arrange db (λ s, TerminatedAt s = None))) ∧
  ∃ l, ListActiveSessionsAfter arrange parse db cursor limit QueryOk = Ok l ∧
       ListActiveSessionsAfter arrange parse db cursor limit (CutAfter n) = Ok (take n l).
Proof.
  intros Hc Hp Hlim. unfold ListSessions, ListActiveSessions, ListActiveSessionsAfter.
  unfold run_limited, run_query, sql_limit. rewrite Hc, Hp.
  destruct (Z.ltb_spec limit 0); [lia|].
  rewrite !scan_rows_cut. split_and!; [done..|]. eexists. split; [apply scan_rows_ok|].
  by rewrite !app_nil_l.
Qed.

Example listing_truncated_witness :
  ListSessions id db3 (CutAfter 1) = Ok (take 1 (by_created id db3 (λ _, True))) ∧
  ListActiveSessions id db3 (CutAfter 1)
    = Ok (take 1 (by_created id db3 (λ s, TerminatedAt s = None))) ∧
  ∃ l, ListActiveSessionsAfter id (λ _, Some 2%N) db3 "2" 9 QueryOk = Ok l ∧
       ListActiveSessionsAfter id (λ _, Some 2%N) db3 "2" 9 (CutAfter 1) = Ok (take 1 l).
Proof.
  apply (listing_truncated id db3 1 9 (λ _, Some 2%N) "2" 2 (row_at 2 5)); [done..|lia].
Defined.

(** The row operations against each other. A created session reads back
    with its twelve inserted columns (PID, PTS name and lifecycle timestamps of
    the argument are dropped); an update reads back as written, with identity
    columns, recording flag and creation time kept; a deleted session is not
    found, by [GetSession] and by a second delete; other rows never change. *)
Theorem row_roundtrips db s u :
  insertable db s = true → ID u = ID s → IsValid (State u) = true →
  let db1 := (CreateSession db s NoFault).1 in
  let db2 := (UpdateSession db1 u NoFault).1 in
  let db3 := (DeleteSession db2 (ID s) NoFault).1 in
  GetSession db1 (ID s) false = Ok (inserted_row s) ∧
  (∃ v, GetSession db2 (ID s) false = Ok v ∧
     Name v = Name u ∧ State v = State u ∧ OSPID v = OSPID u ∧ PTSName v = PTSName u ∧
     Cols v = Cols u ∧ Rows v = Rows u ∧ LastActivityAt v = LastActivityAt u ∧
     StartedAt v = StartedAt u ∧ DetachedAt v = DetachedAt u ∧ SuspendedAt v = SuspendedAt u ∧
     TerminatedAt v = TerminatedAt u ∧ SatelliteID v = SatelliteID s ∧ UserID v = UserID s ∧
     AgentArgs v = AgentArgs s ∧ RecordingEnabled v = RecordingEnabled s ∧
     CreatedAt v = CreatedAt s) ∧
  GetSession db3 (ID s) false = Err ErrSessionNotFound ∧
  (DeleteSession db3 (ID s) NoFault).2 = Some ErrSessionNotFound ∧
  (∀ id, id ≠ ID s → sessions db1 !! id = sessions db !! id ∧
     sessions db2 !! id = sessions db !! id ∧ sessions db3 !! id = sessions db !! id).
Proof.
  intros Hi Hid Hv db1.
  assert (db1 = set_sessions db (<[ID s := inserted_row s]> (sessions db))) as E1
    by (unfold db1, CreateSession; by rewrite Hi).
  assert (sessions db1 !! ID s = Some (inserted_row s)) as L1
    by (rewrite E1; apply lookup_insert_eq).
  unfold UpdateSession. rewrite Hid, Hv, andb_false_r, (exec_row_hit _ _ _ _ L1). cbn [fst].
  set (v := mkSession _ _ _ _ _ _ _ _ _ _ _ _ _ _ _ _ _ _).
  set (db2 := set_sessions db1 _).
  assert (sessions db2 !! ID s = Some v) as L2 by apply lookup_insert_eq.
  unfold DeleteSession. rewrite (exec_row_hit _ _ _ _ L2). cbn [fst].
  set (db3 := set_sessions db2 _).
  assert (sessions db3 !! ID s = None) as L3 by apply lookup_delete_eq.
  unfold GetSession, exec_row. rewrite L1, L2, L3. split_and!; try done.
  - exists v. by split_and!.
  - intros id Hne. unfold db3, db2. rewrite E1. cbn [sessions set_sessions].
    by rewrite lookup_delete_ne, !lookup_insert_ne.
Qed.

Example row_roundtrips_witness :
  let db1 := (CreateSession db0 sample_session NoFault).1 in
  GetSession db1 7 false = Ok (inserted_row sample_session).
Proof. apply (row_roundtrips db0 sample_session sample_session); reflexivity. Defined.

End Store.
