(* ===== verification/Channels.v ===== *)
(** * Buffered Go channels and maps iterated in an unspecified order

    A channel value is a reference ([N]) into a heap of channels; [None] is the
    nil channel. A [select] with a send case and a default is [try_send]: it
    panics on a closed channel, takes the default on a nil or full one. An
    unbuffered channel has capacity 0 and is never ready here: a receiver that
    happens to wait only turns a drop into a delivery. *)
From S2P Require Import Prelude.

Module Chan.

Section Heap.
Context {A : Type}.

Record chan := mkChan { ch_cap : nat; ch_buf : list A; ch_closed : bool }.

#[local] Notation heap := (gmap N chan).

(** [make(chan A, c)] *)
Definition make_chan (h : heap) (c : nat) : heap * N :=
  let ref := fresh (dom h) in (<[ref := mkChan c [] false]> h, ref).

(** [select { case ch <- a: true; default: false }] *)
Definition try_send (h : heap) (ch : option N) (a : A) : go (heap * bool) :=
  match ch ≫= λ ref, (pair ref) <$> h !! ref with
  | None => Ret (h, false)
  | Some (ref, c) =>
      if ch_closed c then Panic
      else if decide (length (ch_buf c) < ch_cap c)
      then Ret (<[ref := mkChan (ch_cap c) (ch_buf c ++ [a]) false]> h, true)
      else Ret (h, false)
  end.

(** [close(ch)]: panics on a nil or closed channel. *)
Definition close_chan (h : heap) (ch : option N) : go heap :=
  match ch ≫= λ ref, (pair ref) <$> h !! ref with
  | None => Panic
  | Some (ref, c) =>
      if ch_closed c then Panic
      else Ret (<[ref := mkChan (ch_cap c) (ch_buf c) true]> h)
  end.

(** A receive that does not block: the head of the buffer. *)
Definition recv (h : heap) (ref : N) : heap * option A :=
  match h !! ref with
  | Some (mkChan c (a :: buf) cl) => (<[ref := mkChan c buf cl]> h, Some a)
  | _ => (h, None)
  end.

(** What has been put into a channel and not yet taken out. *)
Definition pending (h : heap) (ref : N) : list A := from_option ch_buf [] (h !! ref).

Definition capacity (h : heap) (ref : N) : nat := from_option ch_cap 0 (h !! ref).

Definition open (h : heap) (ref : N) : Prop :=
  ∃ c, h !! ref = Some c ∧ ch_closed c = false.

Definition has_room (h : heap) (ref : N) : bool :=
  match h !! ref with
  | Some c => bool_decide (length (ch_buf c) < ch_cap c)
  | None => false
  end.

Lemma has_room_pending h ref :
  has_room h ref = bool_decide (length (pending h ref) < capacity h ref).
Proof. unfold has_room, pending, capacity. by destruct (h !! ref). Qed.

Lemma make_chan_spec h c :
  let '(h', ref) := make_chan h c in
  h !! ref = None ∧ h' = <[ref := mkChan c [] false]> h.
Proof.
  unfold make_chan. split; [|done]. apply not_elem_of_dom, is_fresh.
Qed.

(** Sending on an open channel never panics and touches no other channel. *)
Lemma try_send_open h ref a :
  open h ref →
  ∃ h' ok, try_send h (Some ref) a = Ret (h', ok) ∧
    ok = has_room h ref ∧
    pending h' ref = pending h ref ++ (if has_room h ref then [a] else []) ∧
    (∀ ref', ref' ≠ ref → h' !! ref' = h !! ref') ∧
    (∀ ref', open h ref' ↔ open h' ref') ∧ dom h' = dom h ∧
    (∀ ref', capacity h' ref' = capacity h ref').
Proof.
  intros (c & Hc & Hop). unfold try_send, has_room, pending. simpl. rewrite Hc. simpl.
  rewrite Hop. case_decide as Hroom.
  - rewrite bool_decide_true by done. eexists _, _. split; [done|]. split_and!; try done.
    + by rewrite lookup_insert_eq.
    + intros. by rewrite lookup_insert_ne.
    + intros ref'. unfold open. destruct (decide (ref' = ref)) as [->|].
      * rewrite lookup_insert_eq, Hc. naive_solver.
      * by rewrite lookup_insert_ne.
    + rewrite dom_insert_lookup_L; eauto.
    + intros ref'. unfold capacity. destruct (decide (ref' = ref)) as [->|].
      * by rewrite lookup_insert_eq, Hc.
      * by rewrite lookup_insert_ne.
  - rewrite bool_decide_false by done. eexists _, _. split; [done|]. rewrite app_nil_r, Hc. done.
Qed.

Lemma close_chan_open h ref :
  open h ref →
  ∃ h', close_chan h (Some ref) = Ret h' ∧ ¬ open h' ref ∧ pending h' ref = pending h ref ∧
    (∀ ref', ref' ≠ ref → h' !! ref' = h !! ref') ∧ dom h' = dom h.
Proof.
  intros (c & Hc & Hop). unfold close_chan, pending. simpl. rewrite Hc. simpl. rewrite Hop.
  eexists. split; [done|]. split_and!.
  - intros (c' & Hc' & ?). rewrite lookup_insert_eq in Hc'. by injection Hc' as <-.
  - by rewrite lookup_insert_eq.
  - intros. by rewrite lookup_insert_ne.
  - rewrite dom_insert_lookup_L; eauto.
Qed.

Lemma close_chan_closed h ref :
  ¬ open h ref → close_chan h (Some ref) = Panic.
Proof.
  intros Hno. unfold close_chan. simpl. destruct (h !! ref) as [c|] eqn:Hc; [|done]. simpl.
  destruct (ch_closed c) eqn:Hcl; [done|]. destruct Hno. by exists c.
Qed.

Lemma try_send_closed h ref a c :
  h !! ref = Some c → ch_closed c = true → try_send h (Some ref) a = Panic.
Proof. intros Hc Hcl. unfold try_send. simpl. rewrite Hc. simpl. by rewrite Hcl. Qed.

Lemma open_frame h h' ref : h' !! ref = h !! ref → open h ref → open h' ref.
Proof. unfold open. by intros ->. Qed.

(** Sending one message to each of several channels in turn, as the
    broadcasting loops of the source do. *)
Fixpoint send_each (h : heap) (refs : list N) (a : A) : go heap :=
  match refs with
  | [] => Ret h
  | ref :: refs' =>
      match try_send h (Some ref) a with
      | Panic => Panic
      | Ret (h', _) => send_each h' refs' a
      end
  end.

(** Every channel of the list gets the message if it has room, whatever the
    order of the list, and no other channel changes. *)
Lemma send_each_spec refs a : ∀ h,
  NoDup refs → (∀ ref, ref ∈ refs → open h ref) →
  ∃ h', send_each h refs a = Ret h' ∧
    (∀ ref, ref ∈ refs → open h' ref ∧
       pending h' ref = pending h ref ++ (if has_room h ref then [a] else [])) ∧
    (∀ ref, ref ∉ refs → h' !! ref = h !! ref) ∧ dom h' = dom h ∧
    (∀ ref, capacity h' ref = capacity h ref).
Proof.
  induction refs as [|r refs IH]; intros h Hnd Hop; simpl.
  { exists h. split_and!; try done. by intros ? ?%elem_of_nil. }
  apply NoDup_cons in Hnd as [Hr Hnd].
  destruct (try_send_open h r a) as (h1 & ok & -> & _ & Hp & Hne & Hiff & Hd & Hcap);
    [by apply Hop, list_elem_of_here|].
  destruct (IH h1 Hnd) as (h2 & -> & Hin & Hout & Hd2 & Hcap2).
  { intros ref Hin. by apply Hiff, Hop, list_elem_of_further. }
  exists h2. split; [done|]. split_and!; [| |congruence|intros; by rewrite Hcap2, Hcap].
  - intros ref [->|Hin']%elem_of_cons.
    + pose proof (Hout _ Hr) as Heq. split.
      * eapply open_frame; [exact Heq|]. by apply Hiff, Hop, list_elem_of_here.
      * unfold pending in *. by rewrite Heq.
    + destruct (Hin _ Hin') as [? Hpend]. split; [done|]. rewrite Hpend.
      assert (ref ≠ r) as Hneq by congruence.
      unfold pending, has_room. by rewrite !(Hne _ Hneq).
  - intros ref [Hne1 Hni]%not_elem_of_cons. rewrite (Hout _ Hni). by apply Hne.
Qed.

End Heap.
Arguments chan : clear implicits.
Notation heap A := (gmap N (chan A)).

End Chan.
