(* ===== verification/Streams.v ===== *)
(** * Routing messages and events to channels

    - internal/stream/registry.go: [Registry], one send channel per session and
      per satellite;
    - internal/agentstream/hub.go: [Hub], the subscribers of an agent run;
    - internal/notification/sse.go: [SSE], the browser tabs of a user;
    - internal/session/buffer_pool.go: [Pool], one ring buffer per session.

    Every method of the source that holds its mutex from entry to return is one
    atomic step. [range_set] is the order in which Go walks a map, which may be
    any order. *)
From S2P Require Import Prelude RingBuffer Channels.
Import Chan.

(** ** internal/stream/registry.go *)

Module Registry.

(** Values are channels, possibly nil. *)
Record StreamRegistry := mkStreamRegistry {
  sessionStreams : gmap string (option N);
  satelliteStreams : gmap string (option N);
}.

Definition NewStreamRegistry : StreamRegistry := mkStreamRegistry ∅ ∅.

Definition RegisterStream (r : StreamRegistry) (sessionID : string) (ch : option N) :=
  mkStreamRegistry (<[sessionID := ch]> (sessionStreams r)) (satelliteStreams r).
Definition UnregisterStream (r : StreamRegistry) (sessionID : string) :=
  mkStreamRegistry (delete sessionID (sessionStreams r)) (satelliteStreams r).
Definition RegisterSatelliteStream (r : StreamRegistry) (satelliteID : string) (ch : option N) :=
  mkStreamRegistry (sessionStreams r) (<[satelliteID := ch]> (satelliteStreams r)).
Definition UnregisterSatelliteStream (r : StreamRegistry) (satelliteID : string) :=
  mkStreamRegistry (sessionStreams r) (delete satelliteID (satelliteStreams r)).

(** A missing key reads as the nil channel with [ok = false]. *)
Definition GetStream (r : StreamRegistry) (sessionID : string) : option N * bool :=
  match sessionStreams r !! sessionID with Some ch => (ch, true) | None => (None, false) end.
Definition GetSatelliteStream (r : StreamRegistry) (satelliteID : string) : option N * bool :=
  match satelliteStreams r !! satelliteID with Some ch => (ch, true) | None => (None, false) end.

Section Send.
Context {Msg : Type}.

(** The tail both sends share: [if ok && ch != nil { select ... }]. The channel
    is read under the lock and used after it is released. *)
Definition send_found (h : heap Msg) (found : option N * bool) (msg : Msg) : go (heap Msg * bool) :=
  match found with
  | (Some ch, true) => try_send h (Some ch) msg
  | _ => Ret (h, false)
  end.

Definition SendToSession (r : StreamRegistry) (h : heap Msg) (sessionID : string) (msg : Msg) :=
  send_found h (GetStream r sessionID) msg.
Definition SendToSatellite (r : StreamRegistry) (h : heap Msg) (satelliteID : string) (msg : Msg) :=
  send_found h (GetSatelliteStream r satelliteID) msg.
End Send.

(** [uuid.UUID.String] is [show]. *)
Definition HasStream (show : N → string) (r : StreamRegistry) (satelliteID : N) : bool :=
  bool_decide (is_Some (satelliteStreams r !! show satelliteID)).
Definition ConnectedCount (r : StreamRegistry) : nat := size (satelliteStreams r).

(** A call that changes the registry. *)
Inductive reg_op :=
  | RegSession (id : string) (ch : option N)
  | UnregSession (id : string)
  | RegSatellite (id : string) (ch : option N)
  | UnregSatellite (id : string).

Definition reg_run (r : StreamRegistry) (ops : list reg_op) : StreamRegistry :=
  foldl (λ r o, match o with
                | RegSession id ch => RegisterStream r id ch
                | UnregSession id => UnregisterStream r id
                | RegSatellite id ch => RegisterSatelliteStream r id ch
                | UnregSatellite id => UnregisterSatelliteStream r id
                end) r ops.

(** The specification: the channel a satellite's traffic goes to is decided by
    the last call that names the satellite. *)
Fixpoint satellite_route (ops : list reg_op) (id : string) (cur : option N) : option N :=
  match ops with
  | [] => cur
  | RegSatellite id' ch :: ops' => satellite_route ops' id (if decide (id = id') then ch else cur)
  | UnregSatellite id' :: ops' => satellite_route ops' id (if decide (id = id') then None else cur)
  | _ :: ops' => satellite_route ops' id cur
  end.

Lemma reg_run_route ops id : ∀ r,
  (reg_run r ops).(satelliteStreams) !! id ≫= (λ ch, ch) =
  satellite_route ops id (r.(satelliteStreams) !! id ≫= (λ ch, ch)).
Proof.
  induction ops as [|o ops IH]; intros r; [done|]. simpl. rewrite IH.
  destruct o as [id' ch|id'|id' ch|id']; simpl; try done; case_decide; subst;
    by rewrite ?lookup_insert_eq, ?lookup_insert_ne, ?lookup_delete_eq, ?lookup_delete_ne by done.
Qed.

Lemma send_found_None {Msg} (h : heap Msg) ok msg : send_found h (None, ok) msg = Ret (h, false).
Proof. by destruct ok. Qed.

(** delivery through the registry. After any sequence of registrations and
    removals, a message for a satellite goes to the channel of the last call
    that names it (none after a removal): with an open channel the send never
    panics, reports exactly whether there was room, appends the message there
    if so, and leaves every other channel as it was. *)
Theorem SendToSatellite_routes {Msg} ops id (h : heap Msg) msg ch :
  satellite_route ops id None = Some ch → open h ch →
  ∃ h', SendToSatellite (reg_run NewStreamRegistry ops) h id msg = Ret (h', has_room h ch) ∧
    pending h' ch = pending h ch ++ (if has_room h ch then [msg] else []) ∧
    ∀ ch', ch' ≠ ch → h' !! ch' = h !! ch'.
Proof.
  intros Hr Hop. pose proof (reg_run_route ops id NewStreamRegistry) as Hrun.
  simpl in Hrun. rewrite lookup_empty in Hrun. simpl in Hrun. rewrite Hr in Hrun.
  unfold SendToSatellite, GetSatelliteStream.
  destruct (satelliteStreams _ !! id) as [c|]; simpl in Hrun; [|done]. subst c.
  destruct (try_send_open h ch msg Hop) as (h' & ok & Hs & -> & Hp & Hne & _).
  exists h'. by split_and!.
Qed.

Definition two_chans : heap nat := {[1%N := mkChan 1 [] false; 2%N := mkChan 1 [] false]}.
Definition sample_ops : list reg_op :=
  [RegSatellite "a" (Some 1%N); UnregSatellite "a"; RegSession "a" (Some 1%N);
   RegSatellite "a" (Some 2%N)].

Example SendToSatellite_routes_witness :
  has_room two_chans 2 = true ∧
  ∃ h', SendToSatellite (reg_run NewStreamRegistry sample_ops) two_chans "a" 5
          = Ret (h', has_room two_chans 2) ∧
    pending h' 2%N = pending two_chans 2 ++ (if has_room two_chans 2 then [5] else []) ∧
    ∀ ch', ch' ≠ 2%N → h' !! ch' = two_chans !! ch'.
Proof.
  split; [vm_compute; reflexivity|].
  apply (SendToSatellite_routes sample_ops "a" two_chans 5 2%N).
  - vm_compute. reflexivity.
  - exists (mkChan 1 [] false). split; vm_compute; reflexivity.
Defined.

End Registry.

(** ** internal/agentstream/hub.go *)

Module Hub.
Section Hub.
Context {Event : Type}.
(** The order in which Go walks a map. *)
Variable range_set : gset N → list N.
Hypothesis range_perm : ∀ X, range_set X ≡ₚ elements X.

Record subscriber := mkSubscriber { sub_ch : N; closed : bool }.

(** [clients] maps a run to the set of its subscriber pointers; [subs] is the
    store of the subscriber structs and [chans] that of the channels. *)
Record RunEventHub := mkHub {
  clients : gmap N (gset N);
  subs : gmap N subscriber;
  chans : heap Event;
}.

Definition NewRunEventHub (h : heap Event) : RunEventHub := mkHub ∅ ∅ h.

(** The struct of a subscriber and the channel made for it are allocated
    together and share a number. *)
Definition Subscribe (hub : RunEventHub) (runID : N) : RunEventHub * N :=
  let '(h, ch) := make_chan (chans hub) 128 in
  let cur := default ∅ (clients hub !! runID) in
  (mkHub (<[runID := {[ch]} ∪ cur]> (clients hub))
         (<[ch := mkSubscriber ch false]> (subs hub)) h, ch).

(** The loop of [Unsubscribe], ending at the subscriber found. *)
Fixpoint unsub_loop (hub : RunEventHub) (runID : N) (order : list N) (cs : gset N) (ch : N)
    : go (RunEventHub * gset N) :=
  match order with
  | [] => Ret (hub, cs)
  | p :: order' =>
      match subs hub !! p with
      | None => unsub_loop hub runID order' cs ch
      | Some sub =>
          if decide (sub_ch sub = ch) then
            match close_chan (chans hub) (Some (sub_ch sub)) with
            | Panic => Panic
            | Ret h => Ret (mkHub (clients hub) (<[p := mkSubscriber (sub_ch sub) true]> (subs hub)) h,
                            cs ∖ {[p]})
            end
          else unsub_loop hub runID order' cs ch
      end
  end.

Definition Unsubscribe (hub : RunEventHub) (runID : N) (ch : N) : go RunEventHub :=
  match clients hub !! runID with
  | None => Ret hub
  | Some cs =>
      '(hub', cs') ← unsub_loop hub runID (range_set cs) cs ch;
      Ret (mkHub (if decide (cs' = ∅) then delete runID (clients hub')
                  else <[runID := cs']> (clients hub')) (subs hub') (chans hub'))
  end.

Fixpoint publish_loop (hub : RunEventHub) (order : list N) (event : Event) : go RunEventHub :=
  match order with
  | [] => Ret hub
  | p :: order' =>
      match subs hub !! p with
      | None => publish_loop hub order' event
      | Some sub =>
          if closed sub then publish_loop hub order' event else
          match try_send (chans hub) (Some (sub_ch sub)) event with
          | Panic => Panic
          | Ret (h, _) => publish_loop (mkHub (clients hub) (subs hub) h) order' event
          end
      end
  end.

Definition Publish (hub : RunEventHub) (runID : N) (event : Event) : go RunEventHub :=
  publish_loop hub (range_set (default ∅ (clients hub !! runID))) event.

Fixpoint close_loop (hub : RunEventHub) (order : list N) : go RunEventHub :=
  match order with
  | [] => Ret hub
  | p :: order' =>
      match subs hub !! p with
      | None => close_loop hub order'
      | Some sub =>
          match close_chan (chans hub) (Some (sub_ch sub)) with
          | Panic => Panic
          | Ret h => close_loop (mkHub (clients hub)
                       (<[p := mkSubscriber (sub_ch sub) true]> (subs hub)) h) order'
          end
      end
  end.

Definition Close (hub : RunEventHub) (runID : N) : go RunEventHub :=
  hub' ← close_loop hub (range_set (default ∅ (clients hub !! runID)));
  Ret (mkHub (delete runID (clients hub')) (subs hub') (chans hub')).

(** *** Invariant *)

(** Is [ch] the channel of a subscriber of the run? *)
Definition subscribed (hub : RunEventHub) (runID ch : N) : Prop :=
  ch ∈ default ∅ (clients hub !! runID).

Record hub_ok (hub : RunEventHub) : Prop := mk_hub_ok {
  ok_live : ∀ runID p, subscribed hub runID p →
    subs hub !! p = Some (mkSubscriber p false) ∧ open (chans hub) p;
  ok_one : ∀ r1 r2 p, subscribed hub r1 p → subscribed hub r2 p → r1 = r2;
  ok_self : ∀ p s, subs hub !! p = Some s → sub_ch s = p ∧ is_Some (chans hub !! p);
}.

Lemma NewRunEventHub_ok h : hub_ok (NewRunEventHub h).
Proof.
  split; unfold subscribed; simpl.
  - intros r p. rewrite lookup_empty. set_solver.
  - intros r1 r2 p. rewrite lookup_empty. set_solver.
  - intros p s. by rewrite lookup_empty.
Qed.

Lemma Subscribe_ok hub runID :
  hub_ok hub →
  let '(hub', ch) := Subscribe hub runID in
  hub_ok hub' ∧ subscribed hub' runID ch ∧ pending (chans hub') ch = [] ∧
  capacity (chans hub') ch = 128 ∧
  (∀ r c, subscribed hub r c → subscribed hub' r c ∧ chans hub' !! c = chans hub !! c).
Proof.
  intros [Hlive Hone Hself]. unfold Subscribe.
  pose proof (make_chan_spec (chans hub) 128) as Hmk.
  destruct (make_chan (chans hub) 128) as [h ch]. destruct Hmk as [Hfresh ->].
  set (hub' := mkHub _ _ _).
  assert (∀ r c, subscribed hub r c → c ≠ ch) as Hnew.
  { intros r c Hs ->. destruct (Hlive _ _ Hs) as [_ (c & Hc & _)]. congruence. }
  assert (∀ r c, subscribed hub' r c ↔ subscribed hub r c ∨ (r = runID ∧ c = ch)) as Hsub.
  { intros r c. unfold subscribed, hub'. simpl. destruct (decide (r = runID)) as [->|].
    - rewrite lookup_insert_eq. simpl. set_solver.
    - rewrite lookup_insert_ne by done. naive_solver. }
  split_and!.
  - split.
    + intros r p [Hs|[-> ->]]%Hsub; simpl.
      * pose proof (Hnew _ _ Hs). destruct (Hlive _ _ Hs) as [? Hop].
        rewrite lookup_insert_ne by done. split; [done|].
        eapply open_frame; [|done]. by rewrite lookup_insert_ne.
      * rewrite lookup_insert_eq. split; [done|]. eexists. by rewrite lookup_insert_eq.
    + intros r1 r2 p [H1|[-> ->]]%Hsub [H2|[-> ?]]%Hsub; subst; try done; try eauto.
      * by destruct (Hnew _ _ H1).
      * by destruct (Hnew _ _ H2).
    + intros p s. simpl. rewrite !lookup_insert_Some. intros [[<- <-]|[Hne Hs]]; simpl.
      * split; [done|]. rewrite lookup_insert_eq. eauto.
      * rewrite lookup_insert_ne by done. by apply Hself.
  - apply Hsub. by right.
  - unfold pending. simpl. by rewrite lookup_insert_eq.
  - unfold capacity. simpl. by rewrite lookup_insert_eq.
  - intros r c Hs. split; [by apply Hsub; left|]. simpl.
    rewrite lookup_insert_ne; [done|]. symmetry. by eapply Hnew.
Qed.

Lemma unsub_loop_spec hub runID cs ch order :
  hub_ok hub → (∀ p, p ∈ order → subscribed hub runID p) →
  unsub_loop hub runID order cs ch =
    (if decide (ch ∈ order) then
       h ← close_chan (chans hub) (Some ch);
       Ret (mkHub (clients hub) (<[ch := mkSubscriber ch true]> (subs hub)) h, cs ∖ {[ch]})
     else Ret (hub, cs)).
Proof.
  intros Hok. induction order as [|p order IH]; intros Hin; simpl.
  { done. }
  destruct (ok_live _ Hok _ _ (Hin p (list_elem_of_here _ _))) as [Hp _]. rewrite Hp. simpl.
  destruct (decide (p = ch)) as [->|Hne].
  - rewrite decide_True by apply list_elem_of_here. by destruct (close_chan _ _).
  - rewrite IH by (intros; by apply Hin, list_elem_of_further).
    destruct (decide (ch ∈ order)), (decide (ch ∈ p :: order)); set_solver.
Qed.

(** The subscribers of a run, in the order they are walked. *)
Lemma elem_of_range hub runID p :
  p ∈ range_set (default ∅ (clients hub !! runID)) ↔ subscribed hub runID p.
Proof. by rewrite range_perm, elem_of_elements. Qed.

Lemma range_NoDup X : NoDup (range_set X).
Proof. rewrite range_perm. apply NoDup_elements. Qed.

Lemma Unsubscribe_ok hub runID ch :
  hub_ok hub →
  ∃ hub', Unsubscribe hub runID ch = Ret hub' ∧ hub_ok hub' ∧
    (∀ r c, subscribed hub' r c ↔ subscribed hub r c ∧ ¬ (r = runID ∧ c = ch)) ∧
    (∀ c, c ≠ ch ∨ ¬ subscribed hub runID c → chans hub' !! c = chans hub !! c) ∧
    (subscribed hub runID ch → ¬ open (chans hub') ch ∧
       pending (chans hub') ch = pending (chans hub) ch).
Proof.
  intros Hok. pose proof Hok as [Hlive Hone Hself]. unfold Unsubscribe.
  destruct (clients hub !! runID) as [cs|] eqn:Hcs.
  2:{ exists hub. assert (∀ c, ¬ subscribed hub runID c) as Hno.
      { intros c. unfold subscribed. rewrite Hcs. set_solver. }
      split_and!; try done; try naive_solver. }
  assert (∀ c, subscribed hub runID c ↔ c ∈ cs) as Hin by (intros; unfold subscribed; by rewrite Hcs).
  rewrite unsub_loop_spec; [|done|].
  2:{ intros p. rewrite range_perm, elem_of_elements. by rewrite Hin. }
  assert (ch ∈ range_set cs ↔ subscribed hub runID ch) as Hr
    by (rewrite range_perm, elem_of_elements; by rewrite Hin).
  assert (∀ (hb : RunEventHub) (cs' : gset N) r c, clients hb = clients hub →
    c ∈ default ∅ ((if decide (cs' = ∅) then delete runID (clients hb)
                    else <[runID := cs']> (clients hb)) !! r) ↔
    (if decide (r = runID) then c ∈ cs' else subscribed hub r c)) as Hcl.
  { intros hb cs' r c Hhb. rewrite Hhb. unfold subscribed.
    destruct (decide (r = runID)) as [->|]; destruct (decide (cs' = ∅)) as [->|].
    - by rewrite lookup_delete_eq.
    - by rewrite lookup_insert_eq.
    - by rewrite lookup_delete_ne.
    - by rewrite lookup_insert_ne. }
  case_decide as Hch.
  - apply Hr in Hch. destruct (Hlive _ _ Hch) as [_ Hop].
    destruct (close_chan_open _ _ Hop) as (h & -> & Hnop & Hpend & Hne & Hdom).
    cbn [mbind go_bind]. eexists. split; [done|].
    assert (∀ r c, c ∈ default ∅ ((if decide (cs ∖ {[ch]} = ∅) then delete runID (clients hub)
       else <[runID := cs ∖ {[ch]}]> (clients hub)) !! r) ↔
       subscribed hub r c ∧ ¬ (r = runID ∧ c = ch)) as Hsub.
    { intros r c. rewrite (Hcl hub) by done. case_decide; subst; [rewrite Hin|]; set_solver. }
    split_and!; simpl; try done.
    + split; unfold subscribed; simpl.
      * intros r p [Hs Hn]%Hsub.
        assert (p ≠ ch) by (intros ->; apply Hn; split; [by eapply Hone|done]).
        destruct (Hlive _ _ Hs). rewrite lookup_insert_ne by done. split; [done|].
        eapply open_frame; [|done]. by apply Hne.
      * intros r1 r2 p [? _]%Hsub [? _]%Hsub. by eapply Hone.
      * intros p s. rewrite lookup_insert_Some. intros [[<- <-]|[? Hs]]; simpl.
        -- split; [done|]. apply elem_of_dom. rewrite Hdom. apply elem_of_dom.
           destruct Hop as (c & -> & _). eauto.
        -- rewrite Hne by done. by apply Hself.
    + intros c [Hc|Hc]; apply Hne; [done|]. by intros ->.
  - cbn [mbind go_bind]. eexists. split; [done|].
    assert (∀ r c, c ∈ default ∅ ((if decide (cs = ∅) then delete runID (clients hub)
       else <[runID := cs]> (clients hub)) !! r) ↔ subscribed hub r c) as Hsub.
    { intros r c. rewrite (Hcl hub) by done. case_decide; subst; [by rewrite Hin|done]. }
    rewrite Hr in Hch. split_and!; simpl; try done.
    + split; unfold subscribed; simpl.
      * intros r p Hs%Hsub. by apply Hlive in Hs.
      * intros r1 r2 p H1%Hsub H2%Hsub. by eapply Hone.
      * apply Hself.
    + intros r c. etrans; [apply Hsub|]. naive_solver.
Qed.

Lemma publish_loop_spec event order : ∀ hub,
  (∀ p, p ∈ order → subs hub !! p = Some (mkSubscriber p false)) →
  publish_loop hub order event =
    (h ← send_each (chans hub) order event; Ret (mkHub (clients hub) (subs hub) h)).
Proof.
  induction order as [|p order IH]; intros hub Hin; simpl; [by destruct hub|].
  rewrite (Hin p) by apply list_elem_of_here. simpl.
  destruct (try_send (chans hub) (Some p) event) as [[h ok]|]; [|done].
  rewrite IH; [done|]. intros; by apply Hin, list_elem_of_further.
Qed.

Lemma Publish_ok hub runID event :
  hub_ok hub →
  ∃ h', Publish hub runID event = Ret (mkHub (clients hub) (subs hub) h') ∧
    hub_ok (mkHub (clients hub) (subs hub) h') ∧
    (∀ ch, subscribed hub runID ch →
       pending h' ch = pending (chans hub) ch ++ (if has_room (chans hub) ch then [event] else [])) ∧
    (∀ ch, ¬ subscribed hub runID ch → h' !! ch = chans hub !! ch) ∧
    (∀ ch, capacity h' ch = capacity (chans hub) ch).
Proof.
  intros Hok. pose proof Hok as [Hlive Hone Hself]. unfold Publish.
  rewrite publish_loop_spec by (intros p Hp%elem_of_range; by apply (Hlive _ _ Hp)).
  destruct (send_each_spec (range_set (default ∅ (clients hub !! runID))) event (chans hub))
    as (h & -> & Hin & Hout & Hdom & Hcap); [apply range_NoDup|intros p Hp%elem_of_range; by apply (Hlive _ _ Hp)|].
  exists h. split; [done|]. split_and!.
  - split; [|done|].
    + intros r p Hs. simpl. split; [by apply (Hlive _ _ Hs)|].
      destruct (decide (p ∈ range_set (default ∅ (clients hub !! runID)))) as [Hp|Hp].
      * by apply Hin.
      * eapply open_frame; [by apply Hout|]. by apply (Hlive _ _ Hs).
    + intros p s Hs. simpl. destruct (Hself _ _ Hs) as [? Hd]. split; [done|].
      apply elem_of_dom. rewrite Hdom. by apply elem_of_dom.
  - intros ch Hs%elem_of_range. by apply Hin.
  - intros ch Hs. apply Hout. by rewrite elem_of_range.
  - done.
Qed.

Lemma close_loop_spec order : ∀ hub,
  NoDup order → (∀ p s, subs hub !! p = Some s → sub_ch s = p ∧ is_Some (chans hub !! p)) →
  (∀ p, p ∈ order → subs hub !! p = Some (mkSubscriber p false) ∧ open (chans hub) p) →
  ∃ hub', close_loop hub order = Ret hub' ∧ clients hub' = clients hub ∧
    (∀ p, p ∈ order → ¬ open (chans hub') p ∧ pending (chans hub') p = pending (chans hub) p) ∧
    (∀ p, p ∉ order → subs hub' !! p = subs hub !! p ∧ chans hub' !! p = chans hub !! p) ∧
    (∀ p s, subs hub' !! p = Some s → sub_ch s = p ∧ is_Some (chans hub' !! p)).
Proof.
  induction order as [|p order IH]; intros hub Hnd Hself Hlive; simpl.
  { exists hub. split_and!; try done. by intros ? ?%elem_of_nil. }
  apply NoDup_cons in Hnd as [Hp Hnd].
  destruct (Hlive p (list_elem_of_here _ _)) as [Hs Hop]. rewrite Hs. cbn [sub_ch].
  destruct (close_chan_open _ _ Hop) as (h & -> & Hnop & Hpend & Hne & Hdom).
  edestruct (IH (mkHub (clients hub) (<[p := mkSubscriber p true]> (subs hub)) h))
    as (hub' & -> & Hc & Hin & Hout & Hself'); simpl in *.
  - done.
  - intros q s. rewrite lookup_insert_Some. intros [[<- <-]|[Hq Hqs]]; simpl.
    + split; [done|]. apply elem_of_dom. rewrite Hdom. apply elem_of_dom.
      destruct Hop as (c & -> & _). eauto.
    + rewrite Hne by done. by apply Hself.
  - intros q Hq. assert (q ≠ p) by congruence. rewrite lookup_insert_ne by done.
    destruct (Hlive q (list_elem_of_further _ _ _ Hq)). split; [done|].
    eapply open_frame; [|done]. by apply Hne.
  - exists hub'. split_and!; try done.
    + intros q [->|Hq]%elem_of_cons.
      * destruct (Hout p Hp) as [_ Heq]. unfold open, pending in *. by rewrite Heq.
      * destruct (Hin q Hq) as [? Hqp]. split; [done|]. rewrite Hqp.
        unfold pending. rewrite Hne; [done|]. congruence.
    + intros q [Hqp Hq]%not_elem_of_cons. destruct (Hout q Hq) as [-> ->].
      by rewrite lookup_insert_ne, Hne.
Qed.

Lemma close_loop_dom order : ∀ hub hub', close_loop hub order = Ret hub' → dom (chans hub') = dom (chans hub).
Proof.
  induction order as [|p order IH]; intros hub hub'; simpl; [by intros [= <-]|].
  destruct (subs hub !! p) as [s|]; [|apply IH]. unfold close_chan. simpl.
  destruct (chans hub !! sub_ch s) as [c|] eqn:Hc; [|done]. simpl. destruct (ch_closed c); [done|].
  intros ->%IH. simpl. apply dom_insert_lookup_L. by eexists.
Qed.

Lemma Close_dom hub runID hub' : Close hub runID = Ret hub' → dom (chans hub') = dom (chans hub).
Proof.
  unfold Close. destruct (close_loop _ _) as [h|] eqn:E; [|done]. intros [= <-]. by apply close_loop_dom in E.
Qed.

Lemma Close_ok hub runID :
  hub_ok hub →
  ∃ hub', Close hub runID = Ret hub' ∧ hub_ok hub' ∧
    (∀ r c, subscribed hub' r c ↔ subscribed hub r c ∧ r ≠ runID) ∧
    (∀ c, ¬ subscribed hub runID c → chans hub' !! c = chans hub !! c) ∧
    (∀ c, subscribed hub runID c → ¬ open (chans hub') c ∧
       pending (chans hub') c = pending (chans hub) c).
Proof.
  intros Hok. pose proof Hok as [Hlive Hone Hself]. unfold Close.
  destruct (close_loop_spec (range_set (default ∅ (clients hub !! runID))) hub)
    as (hub' & -> & Hc & Hin & Hout & Hself'); [apply range_NoDup|done| |].
  { intros p Hp%elem_of_range. by apply Hlive in Hp. }
  cbn [mbind go_bind]. eexists. split; [done|].
  assert (∀ r c, subscribed (mkHub (delete runID (clients hub')) (subs hub') (chans hub')) r c ↔
    subscribed hub r c ∧ r ≠ runID) as Hsub.
  { intros r c. unfold subscribed. simpl. rewrite Hc. destruct (decide (r = runID)) as [->|].
    - rewrite lookup_delete_eq. simpl. set_solver.
    - rewrite lookup_delete_ne by done. naive_solver. }
  split_and!; try done; simpl.
  - split.
    + intros r p [Hs Hr]%Hsub. simpl.
      destruct (Hout p) as [-> Heq]; [intros Hp%elem_of_range; by destruct Hr; eapply Hone|].
      destruct (Hlive _ _ Hs). split; [done|]. by eapply open_frame.
    + intros r1 r2 p [? _]%Hsub [? _]%Hsub. by eapply Hone.
    + apply Hself'.
  - intros c Hn. apply Hout. by rewrite elem_of_range.
  - intros c Hs. apply Hin. by apply elem_of_range.
Qed.

(** *** Any sequence of calls *)

Inductive hub_op :=
  | HSubscribe (runID : N)
  | HUnsubscribe (runID ch : N)
  | HPublish (runID : N) (event : Event)
  | HClose (runID : N).

Definition hub_step (hub : RunEventHub) (o : hub_op) : go RunEventHub :=
  match o with
  | HSubscribe r => Ret (Subscribe hub r).1
  | HUnsubscribe r ch => Unsubscribe hub r ch
  | HPublish r e => Publish hub r e
  | HClose r => Close hub r
  end.

Fixpoint hub_run (hub : RunEventHub) (ops : list hub_op) : go RunEventHub :=
  match ops with
  | [] => Ret hub
  | o :: ops' => hub' ← hub_step hub o; hub_run hub' ops'
  end.

(** The events published to a run, in order. *)
Fixpoint events_of (runID : N) (ops : list hub_op) : list Event :=
  match ops with
  | [] => []
  | HPublish r e :: ops' => (if decide (r = runID) then [e] else []) ++ events_of runID ops'
  | _ :: ops' => events_of runID ops'
  end.

(** No call that ends the subscription [ch] of the run. *)
Definition keeps (runID ch : N) (o : hub_op) : Prop :=
  match o with
  | HUnsubscribe r c => ¬ (r = runID ∧ c = ch)
  | HClose r => r ≠ runID
  | _ => True
  end.

Lemma hub_step_ok hub o : hub_ok hub → ∃ hub', hub_step hub o = Ret hub' ∧ hub_ok hub'.
Proof.
  intros Hok. destruct o as [r|r c|r e|r]; cbn [hub_step].
  - eexists. split; [done|]. pose proof (Subscribe_ok hub r Hok) as H.
    destruct (Subscribe hub r). by destruct H.
  - destruct (Unsubscribe_ok hub r c Hok) as (hub' & ? & ? & _). eauto.
  - destruct (Publish_ok hub r e Hok) as (h & ? & ? & _). eauto.
  - destruct (Close_ok hub r Hok) as (hub' & ? & ? & _). eauto.
Qed.

Lemma hub_run_ok ops : ∀ hub, hub_ok hub → ∃ hub', hub_run hub ops = Ret hub' ∧ hub_ok hub'.
Proof.
  induction ops as [|o ops IH]; intros hub Hok; simpl; [by exists hub|].
  destruct (hub_step_ok hub o Hok) as (hub1 & -> & Hok1). by apply IH.
Qed.

(** A call that keeps a subscription only appends its run's event to it. *)
Lemma hub_step_keeps hub hub' o runID ch :
  hub_ok hub → subscribed hub runID ch → keeps runID ch o → hub_step hub o = Ret hub' →
  subscribed hub' runID ch ∧ capacity (chans hub') ch = capacity (chans hub) ch ∧
  (length (pending (chans hub) ch ++ events_of runID [o]) ≤ capacity (chans hub) ch →
   pending (chans hub') ch = pending (chans hub) ch ++ events_of runID [o]).
Proof.
  intros Hok Hsub Hk Hstep.
  assert (∀ hub2, chans hub2 !! ch = chans hub !! ch →
    capacity (chans hub2) ch = capacity (chans hub) ch ∧
    (length (pending (chans hub) ch ++ []) ≤ capacity (chans hub) ch →
     pending (chans hub2) ch = pending (chans hub) ch ++ [])) as Hsame.
  { unfold capacity, pending. intros hub2 ->. by rewrite app_nil_r. }
  destruct o as [r|r c0|r e|r]; cbn [hub_step keeps events_of] in *.
  - apply Ret_inj in Hstep as <-. pose proof (Subscribe_ok hub r Hok) as H.
    destruct (Subscribe hub r) as [hub1 c1]. destruct H as (_ & _ & _ & _ & H).
    destruct (H _ _ Hsub). cbn [fst]. split; [done|]. by apply Hsame.
  - destruct (Unsubscribe_ok hub r c0 Hok) as (hub1 & Hr & _ & Hs & Hf & _).
    rewrite Hr in Hstep. injection Hstep as <-. split; [apply Hs; naive_solver|].
    apply Hsame, Hf. destruct (decide (ch = c0)) as [->|]; [right|by left].
    intros H. apply Hk. split; [by eapply ok_one|done].
  - destruct (Publish_ok hub r e Hok) as (h & Hr & _ & Hin & Hout & Hcap).
    rewrite Hr in Hstep. injection Hstep as <-. split; [done|]. simpl.
    case_decide as Hrr; simpl; [subst r|].
    + split; [apply Hcap|]. specialize (Hin _ Hsub). rewrite has_room_pending in Hin.
      intros Hlen. rewrite length_app in Hlen. simpl in Hlen.
      rewrite bool_decide_true in Hin by lia. done.
    + apply (Hsame (mkHub (clients hub) (subs hub) h)). simpl. apply Hout.
      intros H. by apply Hrr; eapply ok_one.
  - destruct (Close_ok hub r Hok) as (hub1 & Hr & _ & Hs & Hf & _).
    rewrite Hr in Hstep. injection Hstep as <-. split; [by apply Hs|].
    apply Hsame, Hf. intros H. apply Hk. by eapply ok_one.
Qed.

Lemma events_of_cons runID o ops : events_of runID (o :: ops) = events_of runID [o] ++ events_of runID ops.
Proof. destruct o; simpl; rewrite ?app_nil_r; done. Qed.

Lemma hub_run_keeps runID ch ops : ∀ hub,
  hub_ok hub → subscribed hub runID ch → Forall (keeps runID ch) ops →
  length (pending (chans hub) ch ++ events_of runID ops) ≤ capacity (chans hub) ch →
  ∃ hub', hub_run hub ops = Ret hub' ∧ subscribed hub' runID ch ∧
    pending (chans hub') ch = pending (chans hub) ch ++ events_of runID ops.
Proof.
  induction ops as [|o ops IH]; intros hub Hok Hsub Hk Hlen.
  { exists hub. simpl. by rewrite app_nil_r. }
  apply Forall_cons in Hk as [Hk Hks].
  destruct (hub_step_ok hub o Hok) as (hub1 & Hs & Hok1).
  destruct (hub_step_keeps _ _ _ _ _ Hok Hsub Hk Hs) as (Hsub1 & Hcap & Hp).
  rewrite (events_of_cons runID o ops), (assoc_L (++)) in *. rewrite length_app in Hlen.
  rewrite <-Hp by lia. cbn [hub_run]. rewrite Hs. cbn [mbind go_bind].
  apply IH; [done..|]. rewrite length_app, Hp, Hcap by lia. lia.
Qed.

(** C10: the run event hub never panics. Whatever sequence of Subscribe,
    Unsubscribe (of any channel, repeated, for the wrong run), Publish and Close
    calls any goroutines make, and in whatever order Go walks the subscriber
    maps, no send meets a closed channel and no channel is closed twice; every
    current subscriber's channel is open, and belongs to one run only. *)
Theorem hub_never_panics h ops :
  ∃ hub, hub_run (NewRunEventHub h) ops = Ret hub ∧
    (∀ runID ch, subscribed hub runID ch → open (chans hub) ch) ∧
    (∀ r1 r2 ch, subscribed hub r1 ch → subscribed hub r2 ch → r1 = r2).
Proof.
  destruct (hub_run_ok ops _ (NewRunEventHub_ok h)) as (hub & Hr & Hok).
  exists hub. split; [done|]. split.
  - intros r ch Hs. by apply (ok_live _ Hok) in Hs as [_ ?].
  - intros r1 r2 ch. apply (ok_one _ Hok).
Qed.

(** what a subscriber reads. From the moment of Subscribe, for as long as
    nobody unsubscribes it or closes its run, and until 128 events wait in its
    channel, the channel holds exactly the events published to its run since,
    each once and in order, whatever happens to other runs and subscribers
    meanwhile; and once its run is closed, the channel is closed with those
    events still readable. *)
Theorem subscriber_reads_log h ops runID ops' hub1 ch :
  (∃ hub, hub_run (NewRunEventHub h) ops = Ret hub ∧ Subscribe hub runID = (hub1, ch)) →
  Forall (keeps runID ch) ops' → length (events_of runID ops') ≤ 128 →
  ∃ hub2 hub3, hub_run hub1 ops' = Ret hub2 ∧ Close hub2 runID = Ret hub3 ∧
    open (chans hub2) ch ∧ pending (chans hub2) ch = events_of runID ops' ∧
    ¬ open (chans hub3) ch ∧ pending (chans hub3) ch = events_of runID ops'.
Proof.
  intros (hub & Hr & Hsubs) Hk Hlen.
  destruct (hub_run_ok ops _ (NewRunEventHub_ok h)) as (hub' & Hr' & Hok).
  rewrite Hr in Hr'. apply Ret_inj in Hr' as <-.
  pose proof (Subscribe_ok hub runID Hok) as H. rewrite Hsubs in H.
  destruct H as (Hok1 & Hsub & Hp & Hcap & _).
  destruct (hub_run_keeps runID ch ops' hub1) as (hub2 & Hr2 & Hsub2 & Hp2);
    [done..|by rewrite Hp, Hcap|].
  destruct (hub_run_ok ops' _ Hok1) as (hub2' & Hr2' & Hok2).
  rewrite Hr2 in Hr2'. apply Ret_inj in Hr2' as <-.
  destruct (Close_ok hub2 runID Hok2) as (hub3 & Hr3 & _ & _ & _ & Hcl).
  destruct (Hcl _ Hsub2) as [Hno Hp3]. rewrite Hp in Hp2.
  exists hub2, hub3. split_and!; try done; [|by rewrite Hp3].
  by apply (ok_live _ Hok2) in Hsub2 as [_ ?].
Qed.

End Hub.

(** A run with a subscriber of another run about. *)
Example hub_never_panics_witness :
  ∃ hub, hub_run (Event := nat) elements (NewRunEventHub ∅)
           [HSubscribe 1; HSubscribe 2; HUnsubscribe 1 7; HPublish 1 5; HClose 1; HClose 1] = Ret hub ∧
    (∀ runID ch, subscribed hub runID ch → open (chans hub) ch) ∧
    (∀ r1 r2 ch, subscribed hub r1 ch → subscribed hub r2 ch → r1 = r2).
Proof. apply (hub_never_panics elements (λ X, reflexivity _)). Defined.

Example subscriber_reads_log_witness :
  let hub1 := (Subscribe (NewRunEventHub (Event := nat) ∅) 1).1 in
  let ch := (Subscribe (NewRunEventHub (Event := nat) ∅) 1).2 in
  ∃ hub2 hub3,
    hub_run elements hub1 [HSubscribe 1; HPublish 1 5; HPublish 2 6; HPublish 1 7; HClose 2] = Ret hub2 ∧
    Close elements hub2 1 = Ret hub3 ∧
    open (chans hub2) ch ∧ pending (chans hub2) ch = [5; 7] ∧
    ¬ open (chans hub3) ch ∧ pending (chans hub3) ch = [5; 7].
Proof.
  intros hub1 ch.
  apply (subscriber_reads_log elements (λ X, reflexivity _) ∅ [] 1
           [HSubscribe 1; HPublish 1 5; HPublish 2 6; HPublish 1 7; HClose 2]).
  - eexists. split; [reflexivity|]. apply surjective_pairing.
  - repeat constructor; done.
  - simpl. lia.
Defined.

End Hub.

(** ** internal/notification/sse.go: the hub of browser tabs *)

Module SSE.
Section SSE.
Context {Notification : Type}.
Variable range_set : gset N → list N.
Hypothesis range_perm : ∀ X, range_set X ≡ₚ elements X.

(** [clients] holds references to map objects: a [Broadcast] keeps walking the
    object it has read while other calls change it. *)
Record SSEHub := mkSSEHub {
  clients : gmap N N;
  maps : gmap N (gset N);
  chans : heap Notification;
}.

Definition NewSSEHub (h : heap Notification) : SSEHub := mkSSEHub ∅ ∅ h.

Definition Subscribe (hub : SSEHub) (userID : N) : SSEHub * N :=
  let '(h, ch) := make_chan (chans hub) 64 in
  match clients hub !! userID with
  | Some m => (mkSSEHub (clients hub) (<[m := {[ch]} ∪ default ∅ (maps hub !! m)]> (maps hub)) h, ch)
  | None =>
      let m := fresh (dom (maps hub)) in
      (mkSSEHub (<[userID := m]> (clients hub)) (<[m := {[ch]}]> (maps hub)) h, ch)
  end.

(** The channel is closed whether or not it was in the map. *)
Definition Unsubscribe (hub : SSEHub) (userID ch : N) : go SSEHub :=
  match clients hub !! userID with
  | None => Ret hub
  | Some m =>
      let cs := default ∅ (maps hub !! m) ∖ {[ch]} in
      h ← close_chan (chans hub) (Some ch);
      Ret (mkSSEHub (if decide (cs = ∅) then delete userID (clients hub) else clients hub)
                    (<[m := cs]> (maps hub)) h)
  end.

(** A [Broadcast] under way: the map object it walks, the entries it has not
    reached, the channel it is about to send to. The lock is released before
    the walk begins, so every step may interleave with other calls. *)
Record broadcast := mkBroadcast {
  b_map : N; b_todo : list N; b_picked : option N; b_msg : Notification;
}.

Definition Broadcast_start (hub : SSEHub) (userID : N) (n : Notification) : option broadcast :=
  (λ m, mkBroadcast m (range_set (default ∅ (maps hub !! m))) None n) <$> clients hub !! userID.

(** The next iteration: an entry deleted before it is reached is not produced. *)
Definition Broadcast_next (hub : SSEHub) (b : broadcast) : broadcast :=
  match b_picked b, b_todo b with
  | None, ch :: rest =>
      mkBroadcast (b_map b) rest
        (if decide (ch ∈ default ∅ (maps hub !! b_map b)) then Some ch else None) (b_msg b)
  | _, _ => b
  end.

Definition Broadcast_send (hub : SSEHub) (b : broadcast) : go (SSEHub * broadcast) :=
  match b_picked b with
  | None => Ret (hub, b)
  | Some ch =>
      '(h, _) ← try_send (chans hub) (Some ch) (b_msg b);
      Ret (mkSSEHub (clients hub) (maps hub) h, mkBroadcast (b_map b) (b_todo b) None (b_msg b))
  end.

(** The loop run without interruption. *)
Fixpoint Broadcast_loop (hub : SSEHub) (b : broadcast) (n : nat) : go (SSEHub * broadcast) :=
  match n with
  | O => Ret (hub, b)
  | S n' => '(hub', b') ← Broadcast_send hub (Broadcast_next hub b); Broadcast_loop hub' b' n'
  end.

Definition Broadcast (hub : SSEHub) (userID : N) (n : Notification) : go SSEHub :=
  match Broadcast_start hub userID n with
  | None => Ret hub
  | Some b => '(hub', _) ← Broadcast_loop hub b (length (b_todo b)); Ret hub'
  end.

Definition tabs (hub : SSEHub) (userID : N) : gset N :=
  default ∅ (clients hub !! userID ≫= λ m, maps hub !! m).

Lemma Broadcast_loop_send_each hub b :
  b_picked b = None → (∀ ch, ch ∈ b_todo b → ch ∈ default ∅ (maps hub !! b_map b)) →
  Broadcast_loop hub b (length (b_todo b)) =
    (h ← send_each (chans hub) (b_todo b) (b_msg b);
     Ret (mkSSEHub (clients hub) (maps hub) h, mkBroadcast (b_map b) [] None (b_msg b))).
Proof.
  destruct b as [m todo pk n]. simpl. intros -> Hin. revert hub Hin.
  induction todo as [|ch todo IH]; intros hub Hin; [by destruct hub|].
  cbn [length Broadcast_loop send_each Broadcast_next b_picked b_todo b_map b_msg].
  rewrite decide_True by apply Hin, list_elem_of_here.
  unfold Broadcast_send. cbn [b_picked b_msg].
  destruct (try_send (chans hub) (Some ch) n) as [[h ok]|]; [|done]. cbn [mbind go_bind].
  rewrite IH; [done|]. intros c Hc. by apply Hin, list_elem_of_further.
Qed.

Lemma Broadcast_open hub userID n :
  (∀ c, c ∈ tabs hub userID → open (chans hub) c) →
  ∃ h, Broadcast hub userID n = Ret (mkSSEHub (clients hub) (maps hub) h) ∧
     (∀ c, c ∈ tabs hub userID →
        pending h c = pending (chans hub) c ++ (if has_room (chans hub) c then [n] else [])) ∧
     (∀ c, c ∉ tabs hub userID → h !! c = chans hub !! c) ∧
     (∀ c, open (chans hub) c ↔ open h c) ∧ (∀ c, capacity h c = capacity (chans hub) c).
Proof.
  intros Hop. unfold Broadcast, Broadcast_start, tabs in *.
  destruct (clients hub !! userID) as [m|] eqn:Hm; simpl in *.
  2:{ exists (chans hub). destruct hub. split; [done|]. split; [|done]. intros c Hc. by apply not_elem_of_empty in Hc. }
  set (cs := default ∅ (maps hub !! m)) in *.
  rewrite Broadcast_loop_send_each; [|done|].
  2:{ simpl. intros c. rewrite range_perm, elem_of_elements. done. }
  simpl. destruct (send_each_spec (range_set cs) n (chans hub)) as (h & Hs & Hin & Hout & Hrest).
  { rewrite range_perm. apply NoDup_elements. }
  { intros c. rewrite range_perm, elem_of_elements. apply Hop. }
  assert (∀ c, c ∈ cs → c ∈ range_set cs) as Hcs by (intros c; by rewrite range_perm, elem_of_elements).
  assert (∀ c, c ∉ cs → h !! c = chans hub !! c) as Hno.
  { intros c Hc. apply Hout. by rewrite range_perm, elem_of_elements. }
  rewrite Hs. exists h. split; [done|]. split; [|split; [done|split; [|apply Hrest]]].
  + intros c Hc. by apply Hin, Hcs.
  + intros c. destruct (decide (c ∈ cs)) as [Hc|Hc].
    * split; intros _; [by apply Hin, Hcs|by apply Hop].
    * unfold open. by rewrite Hno.
Qed.

(** a broadcast that nothing interrupts puts the notification into every
    open tab of the user that has room, exactly once, and touches nothing else.
    But the walk runs without the lock: when a tab goes away after the loop has
    picked its channel, the send panics; and unsubscribing a channel that is
    already gone, while the user has another tab, panics on the second close. *)
Theorem Broadcast_delivers_or_panics hub userID n ch :
  (∀ c, c ∈ tabs hub userID → open (chans hub) c) → ch ∈ tabs hub userID →
  (∃ h, Broadcast hub userID n = Ret (mkSSEHub (clients hub) (maps hub) h) ∧
     (∀ c, c ∈ tabs hub userID →
        pending h c = pending (chans hub) c ++ (if has_room (chans hub) c then [n] else [])) ∧
     (∀ c, c ∉ tabs hub userID → h !! c = chans hub !! c)) ∧
  (∀ b, b_picked b = Some ch →
     ∃ hub', Unsubscribe hub userID ch = Ret hub' ∧ Broadcast_send hub' b = Panic ∧
       (tabs hub userID ≠ {[ch]} → Unsubscribe hub' userID ch = Panic)).
Proof.
  intros Hop Hch. split.
  { destruct (Broadcast_open hub userID n Hop) as (h & Hb & Hin & Hout & _). by exists h. }
  unfold tabs in *. destruct (clients hub !! userID) as [m|] eqn:Hm; simpl in *; [|set_solver].
  set (cs := default ∅ (maps hub !! m)) in *.
  intros b Hb. destruct (close_chan_open _ _ (Hop _ Hch)) as (h & Hc & Hno & _ & _ & Hd).
    unfold Unsubscribe. rewrite Hm, Hc. cbn [mbind go_bind]. fold cs.
    eexists. split; [done|]. split.
    + unfold Broadcast_send. rewrite Hb. cbn [chans].
      destruct (h !! ch) as [c|] eqn:Hhc.
      * rewrite (try_send_closed _ _ _ c); [done|done|].
        destruct (ch_closed c) eqn:Hcl; [done|]. destruct Hno. by exists c.
      * destruct (Hop _ Hch) as (c & Hcc & _). apply not_elem_of_dom in Hhc.
        rewrite Hd in Hhc. by apply not_elem_of_dom in Hhc; congruence.
    + intros Hne. cbn [clients maps chans]. rewrite decide_False.
      * rewrite Hm. by rewrite close_chan_closed.
      * intros He. apply Hne. clearbody cs. clear -He Hch. apply set_eq. intros c.
        assert (c ∉ cs ∖ {[ch]}) as Hc by (rewrite He; apply not_elem_of_empty).
        rewrite elem_of_difference, elem_of_singleton in Hc. rewrite elem_of_singleton.
        destruct (decide (c = ch)) as [->|]; tauto.
Qed.
End SSE.

Definition one_tab : SSEHub (Notification := nat) :=
  mkSSEHub {[1%N := 1%N]} {[1%N := {[2%N]}]} {[2%N := mkChan 64 [] false]}.

Example Broadcast_delivers_or_panics_witness :
  (∃ h, Broadcast elements one_tab 1 5 = Ret (mkSSEHub (clients one_tab) (maps one_tab) h) ∧
     (∀ c, c ∈ tabs one_tab 1 →
        pending h c = pending (chans one_tab) c ++ (if has_room (chans one_tab) c then [5] else [])) ∧
     (∀ c, c ∉ tabs one_tab 1 → h !! c = chans one_tab !! c)) ∧
  (∀ b, b_picked b = Some 2%N →
     ∃ hub', Unsubscribe one_tab 1 2 = Ret hub' ∧ Broadcast_send hub' b = Panic ∧
       (tabs one_tab 1 ≠ {[2%N]} → Unsubscribe hub' 1 2 = Panic)).
Proof.
  apply (Broadcast_delivers_or_panics elements (λ X, reflexivity _) one_tab 1 5 2).
  - intros c Hc. replace (tabs one_tab 1) with ({[2%N]} : gset N) in Hc by reflexivity.
    apply elem_of_singleton in Hc as ->. exists (mkChan 64 [] false). split; vm_compute; reflexivity.
  - replace (tabs one_tab 1) with ({[2%N]} : gset N) by reflexivity. by apply elem_of_singleton.
Defined.

End SSE.

(** ** internal/session/buffer_pool.go *)

Module Pool.

(** The buffers are heap objects shared by pointer: the map holds references. *)
Record RingBufferPool := mkPool {
  buffers : gmap string N;
  store : gmap N Ring.RingBuffer;
}.

Definition NewRingBufferPool (st : gmap N Ring.RingBuffer) : RingBufferPool := mkPool ∅ st.

Definition GetOrCreateBuffer (p : RingBufferPool) (sessionID : string) : RingBufferPool * N :=
  match buffers p !! sessionID with
  | Some rb => (p, rb)
  | None =>
      let rb := fresh (dom (store p)) in
      (mkPool (<[sessionID := rb]> (buffers p)) (<[rb := Ring.NewRingBuffer 0]> (store p)), rb)
  end.

Definition GetBuffer (p : RingBufferPool) (sessionID : string) : option N := buffers p !! sessionID.
Definition RemoveBuffer (p : RingBufferPool) (sessionID : string) : RingBufferPool :=
  mkPool (delete sessionID (buffers p)) (store p).
Definition HasBuffer (p : RingBufferPool) (sessionID : string) : bool :=
  bool_decide (is_Some (buffers p !! sessionID)).
Definition Len (p : RingBufferPool) : nat := size (buffers p).
Definition Clear (p : RingBufferPool) : RingBufferPool := mkPool ∅ (store p).

#[local] Opaque Ring.NewRingBuffer.

(** Bytes that arrive for a session go to the buffer the pool gives. *)
Definition buffer_write (p : RingBufferPool) (rb : N) (bytes : list Z) : go RingBufferPool :=
  match store p !! rb with
  | None => Panic
  | Some b =>
      match Ring.Write b bytes with
      | Ret (b', _) => Ret (mkPool (buffers p) (<[rb := b']> (store p)))
      | Panic => Panic
      end
  end.

(** Buffers are allocated, keep the ring invariant and are not shared. *)
Record pool_ok (p : RingBufferPool) : Prop := mk_pool_ok {
  pool_alloc : ∀ s rb, buffers p !! s = Some rb → is_Some (store p !! rb);
  pool_wf : ∀ rb b, store p !! rb = Some b → Ring.ring_wf b;
  pool_inj : ∀ s1 s2 rb, buffers p !! s1 = Some rb → buffers p !! s2 = Some rb → s1 = s2;
}.

Lemma GetOrCreateBuffer_ok p sid :
  pool_ok p →
  let '(p1, rb) := GetOrCreateBuffer p sid in
  pool_ok p1 ∧ buffers p1 !! sid = Some rb ∧
  (∀ sid' rb', buffers p !! sid' = Some rb' →
     buffers p1 !! sid' = Some rb' ∧ store p1 !! rb' = store p !! rb') ∧
  (∀ sid', sid' ≠ sid → buffers p1 !! sid' = buffers p !! sid').
Proof.
  intros [Ha Hw Hi]. unfold GetOrCreateBuffer.
  destruct (buffers p !! sid) as [rb|] eqn:Hrb; [by split_and!|].
  assert (store p !! fresh (dom (store p)) = None) as Hf by apply not_elem_of_dom, is_fresh.
  split; [split; simpl|split; [simpl|split; simpl]].
  - intros s rb. rewrite lookup_insert_Some. intros [[<- <-]|[_ H]].
    + rewrite lookup_insert_eq. eauto.
    + apply Ha in H as [b Hb]. rewrite lookup_insert_ne by congruence. eauto.
  - intros rb b. rewrite lookup_insert_Some. intros [[<- <-]|[_ ?]]; [|by eapply Hw].
    apply Ring.NewRingBuffer_wf.
  - intros s1 s2 rb. rewrite !lookup_insert_Some.
    intros [[<- <-]|[? H1]] [[<- ?]|[? H2]]; try done; try by eapply Hi.
    + apply Ha in H2 as [??]. congruence.
    + subst. apply Ha in H1 as [??]. congruence.
  - by rewrite lookup_insert_eq.
  - intros sid' rb' H. pose proof (Ha _ _ H) as [b Hb].
    rewrite !lookup_insert_ne; [done|congruence|congruence].
  - intros sid' Hne. by rewrite lookup_insert_ne.
Qed.

Lemma buffer_write_ok p rb bytes b :
  pool_ok p → store p !! rb = Some b →
  ∃ b', Ring.write_bytes b bytes = Ret b' ∧
    buffer_write p rb bytes = Ret (mkPool (buffers p) (<[rb := b']> (store p))) ∧
    pool_ok (mkPool (buffers p) (<[rb := b']> (store p))).
Proof.
  intros [Ha Hw Hi] Hb.
  destruct (Ring.write_bytes_total bytes b (Hw _ _ Hb)) as (b' & Hwr & Hwf' & _).
  exists b'. split; [done|]. unfold buffer_write. rewrite Hb, (Ring.Write_bytes _ _ _ Hwr).
  split; [done|]. split; simpl; [|intros rb0 b0; rewrite lookup_insert_Some; naive_solver|done].
  intros s rb0 H. rewrite lookup_insert_is_Some. destruct (decide (rb = rb0)); eauto.
Qed.

Lemma RemoveBuffer_ok p sid : pool_ok p → pool_ok (RemoveBuffer p sid).
Proof.
  intros [Ha Hw Hi]. split; simpl; [|done|].
  - intros s rb [_ H]%lookup_delete_Some. eauto.
  - intros s1 s2 rb [_ H1]%lookup_delete_Some [_ H2]%lookup_delete_Some. eauto.
Qed.

(** the pool keeps one private buffer per session: asking again gives the
    same buffer, bytes written for one session never appear in another one's
    snapshot, and after a removal the next request starts from an empty buffer
    while whoever still holds the old one keeps writing to that. *)
Theorem pool_isolated p sid bytes :
  pool_ok p →
  let '(p1, rb) := GetOrCreateBuffer p sid in
  pool_ok p1 ∧ GetOrCreateBuffer p1 sid = (p1, rb) ∧ GetBuffer p1 sid = Some rb ∧
  (∃ p2, buffer_write p1 rb bytes = Ret p2 ∧ pool_ok p2 ∧
     ∀ sid' rb', sid' ≠ sid → GetBuffer p1 sid' = Some rb' →
       GetBuffer p2 sid' = Some rb' ∧ store p2 !! rb' = store p1 !! rb') ∧
  (let '(p3, rb3) := GetOrCreateBuffer (RemoveBuffer p1 sid) sid in
   rb3 ≠ rb ∧ store p3 !! rb3 = Some (Ring.NewRingBuffer 0) ∧ store p3 !! rb = store p1 !! rb).
Proof.
  intros Hok. pose proof (GetOrCreateBuffer_ok p sid Hok) as H.
  destruct (GetOrCreateBuffer p sid) as [p1 rb]. destruct H as (Hok1 & Hrb & _).
  pose proof Hok1 as [Ha1 Hw1 Hi1]. destruct (Ha1 _ _ Hrb) as [b Hb].
  split; [done|]. split; [unfold GetOrCreateBuffer; by rewrite Hrb|]. split; [done|]. split.
  - destruct (buffer_write_ok p1 rb bytes b Hok1 Hb) as (b' & _ & Hp2 & Hok2).
    eexists. split; [exact Hp2|]. split; [done|]. intros sid' rb' Hne H. split; [done|].
    simpl. rewrite lookup_insert_ne; [done|]. intros ->. by apply Hne, (Hi1 _ _ rb').
  - unfold GetOrCreateBuffer, RemoveBuffer. simpl. rewrite lookup_delete_eq.
    assert (fresh (dom (store p1)) ≠ rb) as Hne.
    { intros Hf. pose proof (is_fresh (dom (store p1))) as Hnot. rewrite Hf in Hnot.
      apply Hnot. apply elem_of_dom. eauto. }
    split; [done|]. simpl. by rewrite lookup_insert_eq, lookup_insert_ne.
Qed.

Example pool_isolated_witness :
  let '(p1, rb) := GetOrCreateBuffer (NewRingBufferPool ∅) "s" in
  pool_ok p1 ∧ GetOrCreateBuffer p1 "s" = (p1, rb) ∧ GetBuffer p1 "s" = Some rb ∧
  (∃ p2, buffer_write p1 rb [65%Z] = Ret p2 ∧ pool_ok p2 ∧
     ∀ sid' rb', sid' ≠ "s" → GetBuffer p1 sid' = Some rb' →
       GetBuffer p2 sid' = Some rb' ∧ store p2 !! rb' = store p1 !! rb') ∧
  (let '(p3, rb3) := GetOrCreateBuffer (RemoveBuffer p1 "s") "s" in
   rb3 ≠ rb ∧ store p3 !! rb3 = Some (Ring.NewRingBuffer 0) ∧ store p3 !! rb = store p1 !! rb).
Proof.
  apply (pool_isolated (NewRingBufferPool ∅) "s" [65%Z]).
  split; intros *; simpl; rewrite lookup_empty; done.
Defined.


End Pool.
