(* ===== verification/Notifications.v ===== *)
(** * internal/notification, internal/api/notification_handlers.go

    Events, the bus, the service that stores a notification and hands it to the
    dispatchers, its table and preferences, and the handlers of the bell menu.
    The hub of browser tabs is [Streams.SSE]; its broadcasts may be interrupted
    by tabs that come and go. The payload of an event, the text a VARCHAR takes
    and the printed form of a time are parameters. *)
From Stdlib Require Import Ascii.
From stdpp Require Import pretty.
From S2P Require Import Prelude GoStrings SessionStore Channels Streams.
Import Chan Store.
#[local] Open Scope Z_scope.
#[local] Set Default Proof Using "Type".

Module Notifications.

(** ** notification.go: the data *)

Definition EventSessionTerminated : string := "SESSION_TERMINATED".
Definition EventSessionSuspended : string := "SESSION_SUSPENDED".
Definition EventSessionError : string := "SESSION_ERROR".
Definition EventSatelliteOffline : string := "SATELLITE_OFFLINE".
Definition EventAgentTriggerFired : string := "AGENT_TRIGGER_FIRED".
Definition PriorityInfo : string := "INFO".
Definition PriorityWarning : string := "WARNING".
Definition PriorityCritical : string := "CRITICAL".

Section Data.
Context {Payload : Type}.

(** [ev_CreatedAt]: [None] is the zero time; [ev_UserID]: [None] is everyone. *)
Record Event := mkEvent {
  ev_Type : string; ev_Priority : string; ev_SessionID : option N; ev_SatelliteID : option N;
  ev_UserID : option N; ev_Title : string; ev_Body : string; ev_Payload : Payload; ev_CreatedAt : option Z;
}.
Record Notification := mkNotification {
  ID : N; UserID : N; Type_ : string; Priority : string; Title : string; Body : string;
  SessionID : option N; SatelliteID : option N; Payload_ : Payload; Read : bool; CreatedAt : Z;
}.
Record UserPreferences := mkPreferences {
  p_UserID : N; MinPriority : string; BrowserEnabled : bool; SessionTerminated : bool; SessionError : bool;
  SatelliteOffline : bool; SessionSuspended : bool;
}.
Definition DefaultPreferences (userID : N) : UserPreferences :=
  mkPreferences userID PriorityInfo true true true true true.

(** ** store.go: the rows

    A row of the table has the payload as text; [created_at] has microseconds. *)
Record Row := mkRow {
  r_id : N; r_user_id : N; r_type : string; r_priority : string; r_title : string; r_body : string;
  r_session_id : option N; r_satellite_id : option N; r_payload : string; r_read : bool; r_created_at : Z;
}.
#[export] Instance Row_eq_dec : EqDecision Row.
Proof. solve_decision. Defined.
Record Tables := mkTables {
  sess : gset N; sats : gset N;                 (* the keys the rows refer to *)
  notifications : gmap N Row;
  preferences : gmap N UserPreferences;
}.
Definition set_rows (t : Tables) (m : gmap N Row) : Tables := mkTables (sess t) (sats t) m (preferences t).

(** A statement and its failures. *)
Definition exec (t t' : Tables) (f : fault) : Tables * bool :=
  match f with NoFault => (t', false) | StmtFails => (t, true) | AckLost => (t', true) end.

Section Rows.
Variable marshal : Payload → option string.
Variable unmarshal : string → Payload.
(** The server's form of a JSON text, if it is one it takes. *)
Variable jsonb : string → option string.
(** VARCHAR(n), or TEXT, takes the text. *)
Variable fits : option nat → string → bool.
(** The order in which the server finds rows. *)
Variable arrange : list Row → list Row.

Definition micro (t : Z) : Z := t / 1000 * 1000.

(** [true] is an error. *)
Definition Create (t : Tables) (n : Notification) (f : fault) : Tables * bool :=
  match jsonb (default "{}"%string (marshal (Payload_ n))) with
  | None => (t, true)
  | Some payload =>
      if bool_decide (notifications t !! ID n = None)
         && fits (Some 50%nat) (Type_ n) && fits (Some 20%nat) (Priority n)
         && fits (Some 255%nat) (Title n) && fits None (Body n)
         && from_option (λ s, bool_decide (s ∈ sess t)) true (SessionID n)
         && from_option (λ s, bool_decide (s ∈ sats t)) true (SatelliteID n)
      then exec t (set_rows t (<[ID n := mkRow (ID n) (UserID n) (Type_ n) (Priority n) (Title n) (Body n)
             (SessionID n) (SatelliteID n) payload (Read n) (micro (CreatedAt n))]> (notifications t))) f
      else (t, true)
  end.

Definition scan (r : Row) : Notification :=
  mkNotification (r_id r) (r_user_id r) (r_type r) (r_priority r) (r_title r) (r_body r)
    (r_session_id r) (r_satellite_id r) (unmarshal (r_payload r)) (r_read r) (r_created_at r).

(** ORDER BY created_at DESC *)
Definition newer (a b : Row) : Prop := r_created_at b <= r_created_at a.
#[export] Instance newer_dec : RelDecision newer.
Proof. intros a b. unfold newer. apply _. Defined.

Definition inbox (t : Tables) (userID : N) : list Row :=
  merge_sort newer (filter (λ r, r_user_id r = userID) (arrange (map_to_list (notifications t)).*2)).
Definition before (cursor : option Z) (r : Row) : Prop :=
  match cursor with None => True | Some c => r_created_at r < c end.
#[export] Instance before_dec cursor r : Decision (before cursor r).
Proof. destruct cursor; simpl; apply _. Defined.

(** Whether the loop ended because the rows did is not asked. *)
Definition ListByUser (t : Tables) (userID : N) (limit : Z) (cursor : option Z) (f : query_fault)
    : result unit (list Notification) :=
  let limit := if (limit <=? 0) || (100 <? limit) then 50 else limit in
  let rows := take (Z.to_nat limit) (filter (before cursor) (inbox t userID)) in
  match f with
  | QueryOk => Ok (scan <$> rows)
  | QueryFails => Err tt
  | CutAfter n => Ok (scan <$> take n rows)
  | ScanFails n => Ok (scan <$> (take n rows ++ drop (S n) rows))
  end.

Definition unread (userID : N) (r : Row) : Prop := r_user_id r = userID ∧ r_read r = false.
#[export] Instance unread_dec userID r : Decision (unread userID r).
Proof. unfold unread. apply _. Defined.
Definition unread_rows (t : Tables) (userID : N) : gmap N Row := filter (λ kr, unread userID kr.2) (notifications t).
Definition CountUnread (t : Tables) (userID : N) (f : bool) : result unit Z :=
  if f then Err tt else Ok (Z.of_nat (size (unread_rows t userID))).

Definition mark (r : Row) : Row :=
  mkRow (r_id r) (r_user_id r) (r_type r) (r_priority r) (r_title r) (r_body r)
    (r_session_id r) (r_satellite_id r) (r_payload r) true (r_created_at r).
Definition MarkRead (t : Tables) (id : N) (f : fault) : Tables * bool :=
  exec t (set_rows t (alter mark id (notifications t))) f.
Definition MarkAllRead (t : Tables) (userID : N) (f : fault) : Tables * bool :=
  exec t (set_rows t ((λ r, if decide (unread userID r) then mark r else r) <$> notifications t)) f.

(** No row is no error. *)
Definition GetPreferences (t : Tables) (userID : N) (f : bool) : result unit (option UserPreferences) :=
  if f then Err tt else Ok (preferences t !! userID).
Definition UpdatePreferences (t : Tables) (p : UserPreferences) (f : fault) : Tables * bool :=
  if fits (Some 20%nat) (MinPriority p) then
    exec t (mkTables (sess t) (sats t) (notifications t) (<[p_UserID p := p]> (preferences t))) f
  else (t, true).

(** ** The service: notification.go, and the dispatcher of sse.go *)

Record World := mkWorld { tables : Tables; hub : SSE.SSEHub (Notification := Notification) }.
Definition set_tables (w : World) (t : Tables) : World := mkWorld t (hub w).
Definition set_hub (w : World) (h : SSE.SSEHub) : World := mkWorld (tables w) h.

(** How a call ends: a panic leaves what was done before it. *)
Inductive call := Returned | Failed | Panicked.

Record Dispatcher := mkDispatcher {
  Name : string;
  ShouldDispatch : Notification → UserPreferences → bool;
  Dispatch : World → Notification → World * call;
}.

Definition priorityLevel (p : string) : Z :=
  if String.eqb p PriorityCritical then 3 else if String.eqb p PriorityWarning then 2
  else if String.eqb p PriorityInfo then 1 else 0.

Definition sse_ShouldDispatch (n : Notification) (prefs : UserPreferences) : bool :=
  if negb (BrowserEnabled prefs) then false else
  if String.eqb (Type_ n) EventSessionTerminated && negb (SessionTerminated prefs) then false else
  if String.eqb (Type_ n) EventSessionError && negb (SessionError prefs) then false else
  if String.eqb (Type_ n) EventSatelliteOffline && negb (SatelliteOffline prefs) then false else
  if String.eqb (Type_ n) EventSessionSuspended && negb (SessionSuspended prefs) then false else
  priorityLevel (MinPriority prefs) <=? priorityLevel (Priority n).

(** What other goroutines do to the hub while a broadcast walks it. *)
Inductive hub_op := TabOpens (userID : N) | TabCloses (userID ch : N).
Definition hub_step (h : SSE.SSEHub (Notification := Notification)) (o : hub_op) : SSE.SSEHub :=
  match o with
  | TabOpens u => (SSE.Subscribe h u).1
  | TabCloses u ch => match SSE.Unsubscribe h u ch with Ret h' => h' | Panic => h end
  end.

Variable range_set : gset N → list N.

(** Broadcast, with [others i] between the choice of the i-th entry and the send. *)
Fixpoint broadcast_loop (h : SSE.SSEHub) (b : SSE.broadcast) (others : nat → list hub_op) (i n : nat)
    : SSE.SSEHub * call :=
  match n with
  | O => (h, Returned)
  | S n' =>
      let b1 := SSE.Broadcast_next h b in
      let h1 := foldl hub_step h (others i) in
      match SSE.Broadcast_send h1 b1 with
      | Panic => (h1, Panicked)
      | Ret (h2, b2) => broadcast_loop h2 b2 others (S i) n'
      end
  end.
Definition sse_Dispatch (others : nat → list hub_op) (w : World) (n : Notification) : World * call :=
  match SSE.Broadcast_start range_set (hub w) (UserID n) n with
  | None => (w, Returned)
  | Some b =>
      let '(h, c) := broadcast_loop (hub w) b others 0 (length (SSE.b_todo b)) in (set_hub w h, c)
  end.
Definition SSEDispatcher (others : nat → list hub_op) : Dispatcher :=
  mkDispatcher "browser" sse_ShouldDispatch (sse_Dispatch others).

Record NotificationService := mkService { store : bool; dispatchers : list Dispatcher }.
Definition RegisterDispatcher (ns : NotificationService) (d : Dispatcher) : NotificationService :=
  mkService (store ns) (dispatchers ns ++ [d]).

(** What one call of handleEvent meets. *)
Record event_env := mkEventEnv { new_id : N; f_create : fault; f_prefs : bool }.

Fixpoint dispatch_all (ds : list Dispatcher) (w : World) (n : Notification) (prefs : UserPreferences)
    : World * call :=
  match ds with
  | [] => (w, Returned)
  | d :: ds' =>
      if ShouldDispatch d n prefs then
        match Dispatch d w n with
        | (w', Panicked) => (w', Panicked)
        | (w', _) => dispatch_all ds' w' n prefs
        end
      else dispatch_all ds' w n prefs
  end.

Definition zero_time : Z := -62135596800000000000.
Definition to_notification (id : N) (ev : Event) : Notification :=
  mkNotification id (default 0%N (ev_UserID ev)) (ev_Type ev) (ev_Priority ev) (ev_Title ev) (ev_Body ev)
    (ev_SessionID ev) (ev_SatelliteID ev) (ev_Payload ev) false (default zero_time (ev_CreatedAt ev)).
Definition preferences_of (ns : NotificationService) (t : Tables) (userID : N) (f : bool) : UserPreferences :=
  if store ns then
    match GetPreferences t userID f with Ok (Some p) => p | _ => DefaultPreferences userID end
  else DefaultPreferences userID.

(** A nil user is everyone, which is the one default user. *)
Definition handleEvent (ns : NotificationService) (e : event_env) (w : World) (ev : Event) : World * call :=
  let n := to_notification (new_id e) ev in
  let w1 := if store ns then set_tables w (Create (tables w) n (f_create e)).1 else w in
  dispatch_all (dispatchers ns) w1 n (preferences_of ns (tables w1) (UserID n) (f_prefs e)).

Definition EventHandler : Type := World → Event → World * call.
Definition EventBus : Type := list EventHandler.
Definition NewEventBus : EventBus := [].
Definition Subscribe (b : EventBus) (h : EventHandler) : EventBus := b ++ [h].

(** The event gets its time; a handler that panics is recovered from. *)
Definition stamp (ev : Event) (now : Z) : Event :=
  mkEvent (ev_Type ev) (ev_Priority ev) (ev_SessionID ev) (ev_SatelliteID ev) (ev_UserID ev) (ev_Title ev)
    (ev_Body ev) (ev_Payload ev) (Some (default now (ev_CreatedAt ev))).
Definition Emit (b : EventBus) (w : World) (ev : Event) (now : Z) : World :=
  foldl (λ w h, (h w (stamp ev now)).1) w b.

(** As cmd/nexus/main.go wires it. *)
Definition NewNotificationService (others : nat → list hub_op) : NotificationService :=
  RegisterDispatcher (mkService true []) (SSEDispatcher others).
Definition notify (others : nat → list hub_op) (e : event_env) (w : World) (ev : Event) (now : Z) : World :=
  Emit (Subscribe NewEventBus (handleEvent (NewNotificationService others) e)) w ev now.

(** ** HandleSSEStream of sse.go: one connection of a browser tab *)

Inductive frame := FConnected | FNotification (data : string) | FHeartbeat.
Record stream := mkStream { s_ch : N; s_out : list frame; s_over : bool }.
Inductive wake := CtxDone | Received | Tick.
Variable marshal_notification : Notification → option string.

Definition getCurrentUserID : N := 0.

Definition stream_open (h : SSE.SSEHub (Notification := Notification)) : SSE.SSEHub * stream :=
  let '(h', ch) := SSE.Subscribe h getCurrentUserID in (h', mkStream ch [FConnected] false).
Definition write (s : stream) (f : frame) : stream := mkStream (s_ch s) (s_out s ++ [f]) (s_over s).
Definition finish (h : SSE.SSEHub (Notification := Notification)) (s : stream) : go (SSE.SSEHub * stream) :=
  h' ← SSE.Unsubscribe h getCurrentUserID (s_ch s);
  Ret (h', mkStream (s_ch s) (s_out s) true).
(** A case of the select that is not ready does nothing. *)
Definition stream_step (h : SSE.SSEHub (Notification := Notification)) (s : stream) (k : wake)
    : go (SSE.SSEHub * stream) :=
  if s_over s then Ret (h, s) else
  match k with
  | CtxDone => finish h s
  | Tick => Ret (h, write s FHeartbeat)
  | Received =>
      match recv (SSE.chans h) (s_ch s) with
      | (c, Some n) =>
          Ret (SSE.mkSSEHub (SSE.clients h) (SSE.maps h) c,
               match marshal_notification n with Some data => write s (FNotification data) | None => s end)
      | (_, None) =>
          match SSE.chans h !! s_ch s with
          | Some ch => if ch_closed ch then finish h s else Ret (h, s)
          | None => Ret (h, s)
          end
      end
  end.

(** ** internal/api/notification_handlers.go *)

Inductive RespBody :=
  | BError (msg : string)
  | BList (l : list Notification) (count : Z) (next_cursor : string)
  | BCount (n : Z)
  | BOk
  | BPreferences (p : UserPreferences).
Record Response := mkResponse { status : Z; body : RespBody }.

(** time.Parse and Format with time.RFC3339Nano, and uuid.Parse. *)
Variable ParseNano : string → option Z.
Variable FormatNano : Z → string.
Variable uuid_Parse : string → option N.

Notation answer := (Tables * Response)%type.
Definition refuse (t : Tables) (st : Z) (msg : string) : answer := (t, mkResponse st (BError msg)).
Definition with_store (configured : bool) (t : Tables) (k : answer) : answer :=
  if negb configured then refuse t 503 "notifications not configured" else k.

Definition page_limit (limitStr : string) : Z :=
  if String.eqb limitStr "" then 50 else
  match Str.Atoi limitStr with
  | Some parsed => if (0 <? parsed) && (parsed <=? 100) then parsed else 50
  | None => 50
  end.
Definition page_cursor (cursorStr : string) : option Z :=
  if String.eqb cursorStr "" then None else ParseNano cursorStr.

Definition HandleListNotifications (configured : bool) (t : Tables) (limitStr cursorStr : string) (f : query_fault)
    : answer :=
  with_store configured t (
    let limit := page_limit limitStr in
    match ListByUser t getCurrentUserID limit (page_cursor cursorStr) f with
    | Err _ => refuse t 500 "failed to list notifications"
    | Ok l =>
        let nextCursor :=
          if Z.of_nat (length l) =? limit then from_option (λ n, FormatNano (CreatedAt n)) ""%string (last l)
          else ""%string in
        (t, mkResponse 200 (BList l (Z.of_nat (length l)) nextCursor))
    end).

Definition HandleUnreadCount (configured : bool) (t : Tables) (f : bool) : answer :=
  with_store configured t (
    match CountUnread t getCurrentUserID f with
    | Err _ => refuse t 500 "failed to count unread"
    | Ok n => (t, mkResponse 200 (BCount n))
    end).

Definition HandleMarkRead (configured : bool) (t : Tables) (notifID : string) (f : fault) : answer :=
  with_store configured t (
    match uuid_Parse notifID with
    | None => refuse t 400 "invalid notification ID"
    | Some id =>
        match MarkRead t id f with
        | (t', true) => refuse t' 500 "failed to mark read"
        | (t', false) => (t', mkResponse 200 BOk)
        end
    end).

Definition HandleMarkAllRead (configured : bool) (t : Tables) (f : fault) : answer :=
  with_store configured t (
    match MarkAllRead t getCurrentUserID f with
    | (t', true) => refuse t' 500 "failed to mark all read"
    | (t', false) => (t', mkResponse 200 BOk)
    end).

Definition HandleGetPreferences (configured : bool) (t : Tables) (f : bool) : answer :=
  with_store configured t (
    match GetPreferences t getCurrentUserID f with
    | Err _ => refuse t 500 "failed to get preferences"
    | Ok p => (t, mkResponse 200 (BPreferences (default (DefaultPreferences getCurrentUserID) p)))
    end).

Definition valid_priority (p : string) : bool :=
  String.eqb p PriorityInfo || String.eqb p PriorityWarning || String.eqb p PriorityCritical.
Definition normalise (p : UserPreferences) : UserPreferences :=
  mkPreferences getCurrentUserID (if valid_priority (MinPriority p) then MinPriority p else PriorityInfo)
    (BrowserEnabled p) (SessionTerminated p) (SessionError p) (SatelliteOffline p) (SessionSuspended p).

(** A body that does not decode is [None]; a field it omits is false or empty. *)
Definition HandleUpdatePreferences (configured : bool) (t : Tables) (req : option UserPreferences) (f : fault) : answer :=
  with_store configured t (
    match req with
    | None => refuse t 400 "invalid request body"
    | Some rq =>
        let rq := normalise rq in
        match UpdatePreferences t rq f with
        | (t', true) => refuse t' 500 "failed to update preferences"
        | (t', false) => (t', mkResponse 200 (BPreferences rq))
        end
    end).

(** ** Requests and events, as operations on the tables *)

Record body_env := mkBodyEnv { e_query : query_fault; e_read : bool; e_exec : fault }.
Inductive request :=
  | ListNotifications (limit cursor : string)
  | UnreadCount
  | PatchRead (id : string)
  | PostReadAll
  | ReadPreferences
  | PutPreferences (req : option UserPreferences).
Definition serve (configured : bool) (t : Tables) (r : request) (e : body_env) : answer :=
  match r with
  | ListNotifications limit cursor => HandleListNotifications configured t limit cursor (e_query e)
  | UnreadCount => HandleUnreadCount configured t (e_read e)
  | PatchRead id => HandleMarkRead configured t id (e_exec e)
  | PostReadAll => HandleMarkAllRead configured t (e_exec e)
  | ReadPreferences => HandleGetPreferences configured t (e_read e)
  | PutPreferences req => HandleUpdatePreferences configured t req (e_exec e)
  end.

(** ** Facts about the service *)

Hypothesis range_perm : ∀ X, range_set X ≡ₚ elements X.

Definition quiet (i : nat) : list hub_op := [].

Lemma broadcast_loop_quiet h b i n h' b' :
  SSE.Broadcast_loop h b n = Ret (h', b') → broadcast_loop h b quiet i n = (h', Returned).
Proof.
  revert h b i. induction n as [|n IH]; intros h b i; simpl; [by intros [= -> ->]|].
  destruct (SSE.Broadcast_send _ _) as [[h1 b1]|]; [|done]. cbn. apply IH.
Qed.

Lemma sse_Dispatch_quiet w n :
  (∀ c, c ∈ SSE.tabs (hub w) (UserID n) → open (SSE.chans (hub w)) c) →
  ∃ h, sse_Dispatch quiet w n = (set_hub w (SSE.mkSSEHub (SSE.clients (hub w)) (SSE.maps (hub w)) h), Returned) ∧
     (∀ c, c ∈ SSE.tabs (hub w) (UserID n) →
        pending h c = pending (SSE.chans (hub w)) c ++ (if has_room (SSE.chans (hub w)) c then [n] else [])) ∧
     (∀ c, c ∉ SSE.tabs (hub w) (UserID n) → h !! c = SSE.chans (hub w) !! c) ∧
     (∀ c, open (SSE.chans (hub w)) c ↔ open h c) ∧ (∀ c, capacity h c = capacity (SSE.chans (hub w)) c).
Proof using Type range_perm.
  intros Hop. destruct (SSE.Broadcast_open range_set range_perm (hub w) (UserID n) n Hop) as (h & Hb & Hrest).
  exists h. split; [|exact Hrest]. unfold sse_Dispatch. unfold SSE.Broadcast in Hb.
  destruct (SSE.Broadcast_start _ _ _ _) as [b|].
  - apply go_bind_Ret in Hb as ([h' b'] & Hb & [= ->]). by erewrite broadcast_loop_quiet.
  - injection Hb as Hb. destruct w as [t hb]. cbn in *. unfold set_hub. cbn. by rewrite <-Hb.
Qed.

Lemma Create_preferences t n f : preferences (Create t n f).1 = preferences t.
Proof. unfold Create. destruct (jsonb _); [|done]. destruct (_ && _); [|done]. by destruct f. Qed.

Definition seen_by (n : Notification) (t : Tables) (unreadable : bool) : bool :=
  sse_ShouldDispatch n
    (if unreadable then DefaultPreferences (UserID n) else default (DefaultPreferences (UserID n)) (preferences t !! UserID n)).

Lemma notify_unfold e w ev now :
  let n := to_notification (new_id e) (stamp ev now) in
  let w1 := set_tables w (Create (tables w) n (f_create e)).1 in
  notify quiet e w ev now =
    if seen_by n (tables w) (f_prefs e) then (sse_Dispatch quiet w1 n).1 else w1.
Proof.
  cbn zeta. unfold notify, NewNotificationService, RegisterDispatcher, Emit, Subscribe, NewEventBus.
  cbn [foldl app dispatchers store]. unfold handleEvent. cbn [dispatchers store dispatch_all SSEDispatcher ShouldDispatch Dispatch].
  set (n := to_notification _ _). cbn [tables set_tables].
  assert (preferences_of (mkService true [SSEDispatcher quiet]) (Create (tables w) n (f_create e)).1 (UserID n) (f_prefs e)
    = if f_prefs e then DefaultPreferences (UserID n)
      else default (DefaultPreferences (UserID n)) (preferences (tables w) !! UserID n)) as ->.
  { unfold preferences_of, GetPreferences. rewrite Create_preferences. cbn [store].
    destruct (f_prefs e); [done|]. by destruct (preferences _ !! _). }
  fold (seen_by n (tables w) (f_prefs e)). destruct (seen_by _ _ _); [|done].
  by destruct (sse_Dispatch quiet _ n) as [w' [| |]].
Qed.

Definition tabs_open (h : SSE.SSEHub (Notification := Notification)) (u : N) : Prop :=
  ∀ c, c ∈ SSE.tabs h u → open (SSE.chans h) c.

Lemma notify_spec e w ev now :
  let n := to_notification (new_id e) (stamp ev now) in
  let w' := notify quiet e w ev now in
  tabs_open (hub w) (UserID n) →
  tables w' = (Create (tables w) n (f_create e)).1 ∧
  SSE.clients (hub w') = SSE.clients (hub w) ∧ SSE.maps (hub w') = SSE.maps (hub w) ∧
  (∀ c, c ∈ SSE.tabs (hub w) (UserID n) →
     pending (SSE.chans (hub w')) c = pending (SSE.chans (hub w)) c ++
       (if seen_by n (tables w) (f_prefs e) && has_room (SSE.chans (hub w)) c then [n] else [])) ∧
  (∀ c, c ∉ SSE.tabs (hub w) (UserID n) → SSE.chans (hub w') !! c = SSE.chans (hub w) !! c) ∧
  tabs_open (hub w') (UserID n) ∧ (∀ c, capacity (SSE.chans (hub w')) c = capacity (SSE.chans (hub w)) c).
Proof using Type range_perm.
  cbn zeta. intros Hop. rewrite notify_unfold. set (n := to_notification _ _) in *.
  set (w1 := set_tables w _). destruct (seen_by _ _ _); cbn [andb].
  - destruct (sse_Dispatch_quiet w1 n Hop) as (h & -> & Hin & Hout & Hopen & Hcap).
    split_and!; try done. intros c Hc. apply Hopen, Hop, Hc.
  - split_and!; try done. intros c Hc. by rewrite app_nil_r.
Qed.

(** an event that nothing interrupts is stored as an unread row when the
    database takes it, and whether or not it does, every open tab of its user
    with room gets the notification exactly once if the preferences allow it;
    they are the defaults when they cannot be read. Nothing else changes. *)
Theorem emit_delivers e w ev now :
  let n := to_notification (new_id e) (stamp ev now) in
  let w' := notify quiet e w ev now in
  tabs_open (hub w) (UserID n) →
  tables w' = (Create (tables w) n (f_create e)).1 ∧
  SSE.clients (hub w') = SSE.clients (hub w) ∧ SSE.maps (hub w') = SSE.maps (hub w) ∧
  (∀ c, c ∈ SSE.tabs (hub w) (UserID n) →
     pending (SSE.chans (hub w')) c = pending (SSE.chans (hub w)) c ++
       (if seen_by n (tables w) (f_prefs e) && has_room (SSE.chans (hub w)) c then [n] else [])) ∧
  (∀ c, c ∉ SSE.tabs (hub w) (UserID n) → SSE.chans (hub w') !! c = SSE.chans (hub w) !! c).
Proof using Type range_perm.
  cbn zeta. intros Hop. destruct (notify_spec e w ev now Hop) as (? & ? & ? & ? & ? & _). done.
Qed.

(** *** One tab among the others

    The world with one stream: an event goes through a broadcast that no other tab
    interrupts; in between, the tab reads or writes its heartbeat, other tabs come and
    go, and requests change the tables. Every tab belongs to [getCurrentUserID]. *)
Inductive tab_label :=
  | LNotify (e : event_env) (ev : Event) (now : Z)
  | LRead
  | LTick
  | LOpen
  | LClose (c : N)
  | LRequest (r : request) (e : body_env).

Definition notice (e : event_env) (ev : Event) (now : Z) : Notification :=
  to_notification (new_id e) (stamp ev now).

Definition tab_step (w : World) (s : stream) (l : tab_label) : go (World * stream) :=
  match l with
  | LNotify e ev now => Ret (notify quiet e w ev now, s)
  | LRead => '(h, s') ← stream_step (hub w) s Received; Ret (set_hub w h, s')
  | LTick => '(h, s') ← stream_step (hub w) s Tick; Ret (set_hub w h, s')
  | LOpen => Ret (set_hub w (SSE.Subscribe (hub w) getCurrentUserID).1, s)
  | LClose c =>
      if decide (c ∈ SSE.tabs (hub w) getCurrentUserID ∧ c ≠ s_ch s)
      then h ← SSE.Unsubscribe (hub w) getCurrentUserID c; Ret (set_hub w h, s)
      else Ret (w, s)
  | LRequest r e => Ret (set_tables w (serve true (tables w) r e).1, s)
  end.

(** What a step adds to what the tab is to show: the event, if it is the tab's user's,
    the preferences of that moment allow it, and the tab has room for it. *)
Definition granted (w : World) (s : stream) (l : tab_label) : list Notification :=
  match l with
  | LNotify e ev now =>
      let n := notice e ev now in
      if bool_decide (UserID n = getCurrentUserID) && seen_by n (tables w) (f_prefs e)
         && has_room (SSE.chans (hub w)) (s_ch s)
      then [n] else []
  | _ => []
  end.

Fixpoint tab_run (w : World) (s : stream) (ls : list tab_label) : go (World * stream * list Notification) :=
  match ls with
  | [] => Ret (w, s, [])
  | l :: ls' =>
      '(w1, s1) ← tab_step w s l;
      '(w2, s2, ns) ← tab_run w1 s1 ls';
      Ret (w2, s2, granted w s l ++ ns)
  end.

Definition frames (ns : list Notification) : list frame := FNotification <$> omap marshal_notification ns.
#[export] Instance frame_eq_dec : EqDecision frame.
Proof. solve_decision. Defined.
(** The frames without the heartbeats. *)
Definition shown (out : list frame) : list frame := filter (λ f, f ≠ FHeartbeat) out.

(** The hub, as far as this user's tabs go: they are open, and nobody else has any. *)
Record hub_ok (h : SSE.SSEHub (Notification := Notification)) : Prop := mkHubOk {
  h_open : tabs_open h getCurrentUserID;
  h_user : ∀ u m, SSE.clients h !! u = Some m → u = getCurrentUserID;
}.

Record tab_ok (w : World) (s : stream) (buf : list Notification) : Prop := mkTabOk {
  t_hub : hub_ok (hub w);
  t_live : s_over s = false;
  t_in : s_ch s ∈ SSE.tabs (hub w) getCurrentUserID;
  t_chan : SSE.chans (hub w) !! s_ch s = Some (mkChan 64 buf false);
}.

Lemma hub_ok_tabs_open h u : hub_ok h → tabs_open h u.
Proof.
  intros [Ho Hu] c Hc. unfold SSE.tabs in *. destruct (SSE.clients h !! u) as [m|] eqn:E.
  - rewrite (Hu _ _ E) in E. apply Ho. unfold SSE.tabs. by rewrite E.
  - by apply not_elem_of_empty in Hc.
Qed.

Lemma Subscribe_spec h :
  hub_ok h → let '(h', ch) := SSE.Subscribe h getCurrentUserID in
  hub_ok h' ∧ SSE.chans h !! ch = None ∧ SSE.chans h' = <[ch := mkChan 64 [] false]> (SSE.chans h) ∧
  SSE.tabs h' getCurrentUserID = {[ch]} ∪ SSE.tabs h getCurrentUserID.
Proof.
  intros [Ho Hu]. unfold SSE.Subscribe. destruct (make_chan (SSE.chans h) 64) as [hc c] eqn:Em.
  pose proof (make_chan_spec (SSE.chans h) 64) as Hspec. rewrite Em in Hspec. destruct Hspec as [Hnone ->].
  assert (∀ h', SSE.chans h' = <[c := mkChan 64 [] false]> (SSE.chans h) →
    SSE.tabs h' getCurrentUserID = {[c]} ∪ SSE.tabs h getCurrentUserID → tabs_open h' getCurrentUserID) as Hopen.
  { intros h' Hc Ht x Hx. rewrite Ht in Hx. rewrite Hc. destruct (decide (x = c)) as [->|Hne].
    - exists (mkChan 64 [] false). by rewrite lookup_insert_eq.
    - apply elem_of_union in Hx as [Hx%elem_of_singleton|Hx]; [done|].
      destruct (Ho _ Hx) as (y & ? & ?). exists y. by rewrite lookup_insert_ne. }
  destruct (SSE.clients h !! getCurrentUserID) as [m|] eqn:Em0.
  - assert (SSE.tabs (SSE.mkSSEHub (SSE.clients h) (<[m:={[c]} ∪ default ∅ (SSE.maps h !! m)]> (SSE.maps h))
      (<[c:=mkChan 64 [] false]> (SSE.chans h))) getCurrentUserID = {[c]} ∪ SSE.tabs h getCurrentUserID) as Ht.
    { unfold SSE.tabs. cbn [SSE.clients SSE.maps]. rewrite Em0. simpl. by rewrite lookup_insert_eq. }
    split_and!; [split; [by apply Hopen|done]|done..].
  - assert (SSE.tabs (SSE.mkSSEHub (<[getCurrentUserID:=fresh (dom (SSE.maps h))]> (SSE.clients h))
      (<[fresh (dom (SSE.maps h)):={[c]}]> (SSE.maps h)) (<[c:=mkChan 64 [] false]> (SSE.chans h))) getCurrentUserID =
      {[c]} ∪ SSE.tabs h getCurrentUserID) as Ht.
    { unfold SSE.tabs. cbn [SSE.clients SSE.maps]. rewrite Em0, lookup_insert_eq. simpl.
      rewrite lookup_insert_eq. simpl. by rewrite union_empty_r_L. }
    split_and!; [split; [by apply Hopen|]|done..].
    intros u m. cbn [SSE.clients]. rewrite lookup_insert_Some. intros [[<- _]|[_ ?]]; eauto.
Qed.

Lemma Unsubscribe_spec h c :
  hub_ok h → c ∈ SSE.tabs h getCurrentUserID →
  ∃ h', SSE.Unsubscribe h getCurrentUserID c = Ret h' ∧ hub_ok h' ∧
    (∀ x, x ≠ c → SSE.chans h' !! x = SSE.chans h !! x) ∧
    SSE.tabs h' getCurrentUserID = SSE.tabs h getCurrentUserID ∖ {[c]}.
Proof.
  intros [Ho Hu] Hc. destruct (close_chan_open _ _ (Ho c Hc)) as (hc & Hcl & _ & _ & Hother & _).
  unfold SSE.Unsubscribe. unfold tabs_open in Ho. unfold SSE.tabs in Ho, Hc |- * at 2.
  destruct (SSE.clients h !! getCurrentUserID) as [m|] eqn:Em; simpl in *; [|by apply not_elem_of_empty in Hc].
  set (cs := default ∅ (SSE.maps h !! m)) in *. rewrite Hcl. cbn [mbind go_bind].
  set (h' := SSE.mkSSEHub _ _ _).
  assert (SSE.tabs h' getCurrentUserID = cs ∖ {[c]}) as Ht.
  { unfold h', SSE.tabs. cbn [SSE.clients SSE.maps]. case_decide as He.
    - rewrite lookup_delete_eq. simpl. by rewrite He.
    - rewrite Em. simpl. by rewrite lookup_insert_eq. }
  assert (∀ x, x ≠ c → SSE.chans h' !! x = SSE.chans h !! x) as Hch by (intros x Hx; by apply Hother).
  exists h'. split_and!; [done| |done|done]. split.
  - intros x Hx. rewrite Ht in Hx. apply elem_of_difference in Hx as [Hx Hne]. rewrite elem_of_singleton in Hne.
    unfold open. rewrite Hch by done. by apply Ho.
  - intros u m'. unfold h'. cbn [SSE.clients]. case_decide; [|eauto]. rewrite lookup_delete_Some. intros [_ ?]. eauto.
Qed.

Lemma shown_write s f : shown (s_out (write s f)) = shown (s_out s) ++ (if decide (f = FHeartbeat) then [] else [f]).
Proof.
  unfold shown, write. cbn [s_out]. rewrite filter_app. f_equal. destruct (decide (f = FHeartbeat)) as [->|Hf].
  - by rewrite filter_cons_False by (intros H; by apply H).
  - by rewrite filter_cons_True.
Qed.

Lemma pending_hub (h : SSE.SSEHub (Notification := Notification)) c buf : SSE.chans h !! c = Some (mkChan 64 buf false) → pending (SSE.chans h) c = buf.
Proof. intros H. unfold pending. by rewrite H. Qed.

(** A step keeps the tab as it is and moves events from the others to the buffer to the screen. *)
Lemma tab_step_ok w s l buf :
  tab_ok w s buf →
  ∃ w' s' buf', tab_step w s l = Ret (w', s') ∧ tab_ok w' s' buf' ∧ s_ch s' = s_ch s ∧
    shown (s_out s') ++ frames buf' = shown (s_out s) ++ frames (buf ++ granted w s l).
Proof using Type range_perm.
  intros [Hh Hl Hin Hc]. destruct l as [e ev now| | | |c|r e]; cbn [tab_step granted]; rewrite ?app_nil_r.
  - destruct (notify_spec e w ev now) as (_ & Hcl & Hm & Hput & Hkeep & Hop & Hcap); [by apply hub_ok_tabs_open|].
    fold (notice e ev now) in *. set (w' := notify quiet e w ev now) in *. set (n := notice e ev now) in *.
    assert (∀ u, SSE.tabs (hub w') u = SSE.tabs (hub w) u) as Htabs by (intros u; unfold SSE.tabs; by rewrite Hcl, Hm).
    assert (tabs_open (hub w') getCurrentUserID) as Hopen.
    { destruct (decide (UserID n = getCurrentUserID)) as [<-|Hne]; [done|]. intros x Hx. rewrite Htabs in Hx.
      unfold open. rewrite Hkeep; [by apply (h_open _ Hh)|]. unfold SSE.tabs.
      destruct (SSE.clients (hub w) !! UserID n) as [m|] eqn:E; [|apply not_elem_of_empty].
      by apply (h_user _ Hh) in E. }
    set (g := if _ : bool then _ else _). exists w', s, (buf ++ g). split_and!; try done. split; [split; [done|]|done|by rewrite Htabs|].
    { intros u m. rewrite Hcl. apply (h_user _ Hh). }
    subst g. destruct (decide (UserID n = getCurrentUserID)) as [Hu|Hne].
    + rewrite Hu in Hput. rewrite bool_decide_true by done. cbn [andb].
      destruct (Hopen _ (eq_ind_r (λ t, s_ch s ∈ t) Hin (Htabs _))) as ([cap b cl] & Hcw & Hcl'). cbn in Hcl'. subst cl.
      pose proof (Hput _ Hin) as Hp. rewrite (pending_hub _ _ _ Hc) in Hp. unfold pending in Hp. rewrite Hcw in Hp.
      pose proof (Hcap (s_ch s)) as Hcp. unfold capacity in Hcp. rewrite Hcw, Hc in Hcp. cbn in Hp, Hcp.
      rewrite Hcw. by rewrite Hp, Hcp.
    + rewrite bool_decide_false by done. cbn [andb]. rewrite app_nil_r, <-Hc. apply Hkeep. unfold SSE.tabs.
      destruct (SSE.clients (hub w) !! UserID n) as [m|] eqn:E; [|apply not_elem_of_empty].
      by apply (h_user _ Hh) in E.
  - unfold stream_step. rewrite Hl. unfold recv. rewrite Hc. destruct buf as [|n buf]; cbn [mbind go_bind].
    + cbn [ch_closed mbind go_bind]. exists (set_hub w (hub w)), s, []. by destruct w.
    + set (s' := match marshal_notification n with Some _ => _ | None => _ end). set (h' := SSE.mkSSEHub _ _ _).
      assert (s_ch s' = s_ch s ∧ s_over s' = false ∧ shown (s_out s') = shown (s_out s) ++ frames [n]) as (Hch & Ho' & Hs).
      { unfold s', frames. cbn [omap list_omap]. destruct (marshal_notification n); cbn [fmap list_fmap];
          rewrite ?app_nil_r; [|done]. by rewrite shown_write. }
      exists (set_hub w h'), s', buf. split_and!; [done| |done|].
      2:{ rewrite Hs, <-app_assoc. unfold frames. by rewrite <-fmap_app, <-omap_app. }
      split; rewrite ?Hch; [split|done|exact Hin|by apply lookup_insert_eq].
      * intros x Hx. destruct (decide (x = s_ch s)) as [->|Hne].
        -- exists (mkChan 64 buf false). by split; [apply lookup_insert_eq|].
        -- destruct (h_open _ Hh x Hx) as (y & Hy & ?). exists y. split; [|done].
           cbn [hub set_hub h' SSE.chans]. by rewrite lookup_insert_ne.
      * apply (h_user _ Hh).
  - unfold stream_step. rewrite Hl. cbn [mbind go_bind]. exists (set_hub w (hub w)), (write s FHeartbeat), buf.
    split_and!; [done|by destruct w|done|]. by rewrite shown_write, app_nil_r.
  - pose proof (Subscribe_spec (hub w) Hh) as Hsub. destruct (SSE.Subscribe (hub w) getCurrentUserID) as [h' ch].
    destruct Hsub as (Hok & Hnone & Hchans & Htabs). exists (set_hub w h'), s, buf. split_and!; try done.
    split; cbn [hub set_hub]; [done|done| |].
    + rewrite Htabs. by apply elem_of_union_r.
    + rewrite Hchans, lookup_insert_ne; [done|]. intros ->. congruence.
  - case_decide as Hcl; [|by exists w, s, buf]. destruct Hcl as [Hcin Hne].
    destruct (Unsubscribe_spec (hub w) c Hh Hcin) as (h' & -> & Hok & Hkeep & Htabs). cbn [mbind go_bind].
    exists (set_hub w h'), s, buf. split_and!; try done. split; cbn [hub set_hub]; [done|done| |].
    + rewrite Htabs. apply elem_of_difference. split; [done|]. by rewrite elem_of_singleton.
    + by rewrite Hkeep.
  - by exists (set_tables w (serve true (tables w) r e).1), s, buf.
Qed.

Lemma tab_run_ok ls : ∀ w s buf,
  tab_ok w s buf →
  ∃ w' s' buf' ns, tab_run w s ls = Ret (w', s', ns) ∧ tab_ok w' s' buf' ∧ s_ch s' = s_ch s ∧
    shown (s_out s') ++ frames buf' = shown (s_out s) ++ frames (buf ++ ns).
Proof using Type range_perm.
  induction ls as [|l ls IH]; intros w s buf Hok; cbn [tab_run].
  { exists w, s, buf, []. by rewrite app_nil_r. }
  destruct (tab_step_ok w s l buf Hok) as (w1 & s1 & buf1 & -> & Hok1 & Hch1 & Hs1). cbn [mbind go_bind].
  destruct (IH w1 s1 buf1 Hok1) as (w2 & s2 & buf2 & ns & -> & Hok2 & Hch2 & Hs2). cbn [mbind go_bind].
  exists w2, s2, buf2, (granted w s l ++ ns). split_and!; [done|done|congruence|].
  assert (∀ a b, frames (a ++ b) = frames a ++ frames b) as Hf
    by (intros a b; unfold frames; by rewrite omap_app, fmap_app).
  rewrite Hs2, app_assoc, !(Hf _ ns), !(assoc_L (++)), Hs1. by rewrite (Hf buf).
Qed.

(** C11: what a tab shows, heartbeats aside, followed by what waits for it, is that it is
    connected and then, in order and once each, exactly the events of its user that the
    preferences of their moment allowed and that found fewer than 64 waiting. This is for
    any sequence of events, reads, heartbeats, requests, and other tabs that come and go
    between the broadcasts; and no step panics. *)
Theorem tab_shows_events h0 t ls :
  hub_ok h0 →
  let '(h1, s) := stream_open h0 in
  ∃ w' s' ns, tab_run (mkWorld t h1) s ls = Ret (w', s', ns) ∧ s_over s' = false ∧
    shown (s_out s') ++ frames (pending (SSE.chans (hub w')) (s_ch s)) = FConnected :: frames ns.
Proof using Type range_perm.
  intros Hok. unfold stream_open. pose proof (Subscribe_spec h0 Hok) as Hsub.
  destruct (SSE.Subscribe h0 getCurrentUserID) as [h1 ch]. destruct Hsub as (Hok1 & _ & Hchans & Htabs).
  destruct (tab_run_ok ls (mkWorld t h1) (mkStream ch [FConnected] false) []) as (w' & s' & buf & ns & Hr & Hok' & Hch & Hs).
  - split; cbn [hub s_ch]; [done|done| |].
    + rewrite Htabs. by apply elem_of_union_l, elem_of_singleton.
    + rewrite Hchans. apply lookup_insert_eq.
  - exists w', s', ns. split_and!; [done|by apply Hok'|]. cbn [s_ch] in *.
    rewrite <-Hch, (pending_hub _ _ _ (t_chan _ _ _ Hok')), Hs. done.
Qed.

(** ** Paging through the inbox *)

Hypothesis arrange_perm : ∀ l, arrange l ≡ₚ l.
Hypothesis parse_format : ∀ t, ParseNano (FormatNano t) = Some t ∧ FormatNano t ≠ ""%string.

Definition keyed (t : Tables) : Prop := ∀ id r, notifications t !! id = Some r → r_id r = id.

Lemma keyed_ids t : keyed t → NoDup (r_id <$> (map_to_list (notifications t)).*2).
Proof.
  intros Hk. rewrite <-list_fmap_compose.
  replace ((r_id ∘ snd) <$> map_to_list (notifications t)) with (map_to_list (notifications t)).*1.
  { apply NoDup_fst_map_to_list. }
  apply list_fmap_ext. intros i [id r] Hi. symmetry. apply Hk. apply elem_of_map_to_list.
  by apply list_elem_of_lookup_2 in Hi.
Qed.

Lemma inbox_elem t u r : keyed t → r ∈ inbox t u ↔ notifications t !! r_id r = Some r ∧ r_user_id r = u.
Proof using Type arrange_perm.
  intros Hk. unfold inbox. rewrite merge_sort_Permutation, list_elem_of_filter, arrange_perm, list_elem_of_fmap.
  split.
  - intros [Hu ([id a] & -> & Hin%elem_of_map_to_list)]. simpl in *. by rewrite (Hk _ _ Hin).
  - intros [Hin Hu]. split; [done|]. exists (r_id r, r). by rewrite elem_of_map_to_list.
Qed.

Lemma inbox_ids t u : keyed t → NoDup (r_id <$> inbox t u).
Proof using Type arrange_perm.
  intros Hk. unfold inbox. rewrite merge_sort_Permutation.
  apply (NoDup_fmap_2_strong r_id); [|apply NoDup_filter; rewrite arrange_perm; eapply NoDup_fmap_1, keyed_ids, Hk].
  intros a b Ha Hb He. apply list_elem_of_filter in Ha as [_ Ha], Hb as [_ Hb].
  rewrite arrange_perm, list_elem_of_fmap in Ha, Hb.
  destruct Ha as ([i a'] & -> & Ha%elem_of_map_to_list), Hb as ([j b'] & -> & Hb%elem_of_map_to_list). simpl in *.
  rewrite (Hk _ _ Ha), (Hk _ _ Hb) in He. subst j. congruence.
Qed.

#[export] Instance newer_trans : Transitive newer.
Proof. intros a b c. unfold newer. lia. Qed.
#[export] Instance newer_total : Total newer.
Proof. intros a b. unfold newer. lia. Qed.

Lemma inbox_sorted t u : StronglySorted newer (inbox t u).
Proof. apply (StronglySorted_merge_sort _). Qed.

Definition strictly_newer (a b : Row) : Prop := r_created_at b < r_created_at a.
Definition distinct_times (t : Tables) (u : N) : Prop :=
  ∀ a b, r_user_id a = u → r_user_id b = u → notifications t !! r_id a = Some a → notifications t !! r_id b = Some b →
    r_created_at a = r_created_at b → r_id a = r_id b.

Lemma inbox_strict t u : keyed t → distinct_times t u → StronglySorted strictly_newer (inbox t u).
Proof using Type arrange_perm.
  intros Hk Hd. pose proof (inbox_sorted t u) as Hs. pose proof (inbox_ids t u Hk) as Hn.
  assert (∀ r, r ∈ inbox t u → notifications t !! r_id r = Some r ∧ r_user_id r = u) as Hin
    by (intros r; by apply inbox_elem).
  induction Hs as [|a l Hs IH Ha]; [constructor|]. rewrite fmap_cons in Hn. apply NoDup_cons in Hn as [Hni Hn].
  constructor; [apply IH; [done|]; intros r Hr; by apply Hin, list_elem_of_further|].
  apply Forall_forall. intros b Hb. rewrite Forall_forall in Ha. pose proof (Ha b Hb) as Hab. unfold newer, strictly_newer in *.
  destruct (decide (r_created_at a = r_created_at b)) as [E|]; [|lia]. exfalso. apply Hni.
  apply list_elem_of_fmap. exists b. split; [|done].
  destruct (Hin a) as [? ?]; [apply list_elem_of_here|]. destruct (Hin b) as [? ?]; [by apply list_elem_of_further|].
  by apply Hd.
Qed.

Lemma filter_cursor_drop l k p :
  StronglySorted strictly_newer l → l !! k = Some p → filter (before (Some (r_created_at p))) l = drop (S k) l.
Proof.
  intros Hs. revert k. induction Hs as [|a l Hs IH Ha]; intros k Hk; [done|]. rewrite Forall_forall in Ha.
  destruct k as [|k]; simpl in Hk.
  - injection Hk as ->. rewrite filter_cons_False by (simpl; lia). apply list_filter_all.
    apply Forall_forall. exact Ha.
  - rewrite filter_cons_False; [by rewrite (IH k)|].
    specialize (Ha p (list_elem_of_lookup_2 _ _ _ Hk)). unfold strictly_newer in Ha. simpl. lia.
Qed.

(** A client that follows the cursors, for at most [n] requests. *)
Fixpoint fetch (t : Tables) (limitStr : string) (n : nat) (cursor : string) : list Notification :=
  match n with
  | O => []
  | S n' =>
      match body (HandleListNotifications true t limitStr cursor QueryOk).2 with
      | BList l _ next => if String.eqb next "" then l else l ++ fetch t limitStr n' next
      | _ => []
      end
  end.

Lemma page_limit_range limitStr : 1 <= page_limit limitStr <= 100.
Proof.
  unfold page_limit. destruct (String.eqb _ _); [lia|]. destruct (Str.Atoi _) as [z|]; [|lia]. bool_cases; lia.
Qed.

Definition page (t : Tables) (limitStr cursor : string) : list Row :=
  take (Z.to_nat (page_limit limitStr)) (filter (before (page_cursor cursor)) (inbox t getCurrentUserID)).

Lemma fetch_next t limitStr n cursor :
  fetch t limitStr (S n) cursor =
    (scan <$> page t limitStr cursor) ++
      (if Z.of_nat (length (page t limitStr cursor)) =? page_limit limitStr then
         match last (page t limitStr cursor) with
         | Some r => fetch t limitStr n (FormatNano (r_created_at r))
         | None => []
         end
       else []).
Proof using Type parse_format.
  cbn [fetch]. unfold HandleListNotifications, with_store, ListByUser. cbn [negb].
  pose proof (page_limit_range limitStr) as Hl.
  replace ((page_limit limitStr <=? 0) || (100 <? page_limit limitStr)) with false by (bool_cases; lia).
  fold (page t limitStr cursor). set (l := page t limitStr cursor). cbn [body snd].
  rewrite length_fmap. destruct (Z.eqb_spec (Z.of_nat (length l)) (page_limit limitStr)) as [E|E].
  - rewrite fmap_last. destruct (last l) as [r|] eqn:Hr; simpl.
    + destruct (String.eqb_spec (FormatNano (r_created_at r)) "") as [E1|]; [|done]. by destruct (parse_format (r_created_at r)).
    + apply last_None in Hr. rewrite Hr in E. simpl in E. lia.
  - by rewrite app_nil_r.
Qed.

Lemma fetch_drop t limitStr :
  let L := inbox t getCurrentUserID in
  StronglySorted strictly_newer L →
  ∀ n k cursor, (length L < k + n)%nat →
  (k = O ∧ cursor = ""%string ∨ ∃ p, k = S (pred k) ∧ L !! pred k = Some p ∧ cursor = FormatNano (r_created_at p)) →
  fetch t limitStr n cursor = scan <$> drop k L.
Proof using Type parse_format.
  cbn zeta. intros Hs. set (L := inbox t getCurrentUserID) in *.
  pose proof (page_limit_range limitStr) as Hlim.
  induction n as [|n IH]; intros k cursor Hn Hk.
  { rewrite drop_ge by lia. done. }
  assert (page t limitStr cursor = take (Z.to_nat (page_limit limitStr)) (drop k L)) as Hp.
  { unfold page. f_equal. fold L. unfold page_cursor. destruct Hk as [[-> ->]|(p & Hk & Hp & ->)].
    - by apply list_filter_all, Forall_forall.
    - destruct (parse_format (r_created_at p)) as [Hparse Hne].
      destruct (String.eqb_spec (FormatNano (r_created_at p)) ""); [done|].
      rewrite Hparse, Hk. by apply filter_cursor_drop. }
  rewrite fetch_next, Hp. set (lim := Z.to_nat (page_limit limitStr)).
  rewrite <-(take_drop lim (drop k L)) at 4. rewrite fmap_app. f_equal.
  destruct (Z.eqb_spec (Z.of_nat (length (take lim (drop k L)))) (page_limit limitStr)) as [E|E].
  - assert (length (take lim (drop k L)) = lim) as E' by lia. rewrite last_lookup, E'.
    rewrite length_take, length_drop in E'.
    rewrite lookup_take_lt, lookup_drop by lia.
    destruct (lookup_lt_is_Some_2 L (k + pred lim)) as [r Hr]; [lia|]. rewrite Hr, drop_drop.
    apply IH; [lia|]. right. exists r. replace (pred (k + lim)) with (k + pred lim)%nat by lia.
    split_and!; [lia|done|done].
  - rewrite drop_ge; [done|]. rewrite length_take in E. rewrite length_drop in *. lia.
Qed.

Lemma fetch_older t limitStr c : ∀ n x, x ∈ fetch t limitStr n (FormatNano c) → CreatedAt x < c.
Proof using Type parse_format.
  intros n. revert c. induction n as [|n IH]; intros c x Hx; [by apply elem_of_nil in Hx|].
  destruct (parse_format c) as [Hparse Hne].
  assert (∀ r, r ∈ page t limitStr (FormatNano c) → r_created_at r < c) as Hpage.
  { intros r Hr. apply elem_of_take in Hr as (i & Hr & _). apply list_elem_of_lookup_2 in Hr.
    apply list_elem_of_filter in Hr as [Hb _]. unfold page_cursor in Hb.
    destruct (String.eqb_spec (FormatNano c) ""); [done|]. by rewrite Hparse in Hb. }
  rewrite fetch_next in Hx. apply elem_of_app in Hx as [Hx|Hx].
  - apply list_elem_of_fmap in Hx as (r & -> & Hr). by apply Hpage.
  - destruct (_ =? _); [|by apply elem_of_nil in Hx]. destruct (last _) as [r|] eqn:Hr; [|by apply elem_of_nil in Hx].
    apply IH in Hx. apply last_Some_elem_of in Hr. specialize (Hpage _ Hr). lia.
Qed.

(** while nothing changes, a client that follows the cursors of the bell
    menu gets every notification of the inbox, newest first, after at most one
    request more than it holds, if no two of them have the same creation time;
    but one that shares its time with the last of the first page, and comes
    after it, is on no page. *)
Theorem pages_complete t limitStr n :
  keyed t →
  let L := inbox t getCurrentUserID in
  (∀ r, r ∈ L ↔ notifications t !! r_id r = Some r ∧ r_user_id r = getCurrentUserID) ∧
  (distinct_times t getCurrentUserID → (length L < n)%nat → fetch t limitStr n "" = scan <$> L) ∧
  (∀ p q, L !! pred (Z.to_nat (page_limit limitStr)) = Some p → L !! Z.to_nat (page_limit limitStr) = Some q →
     r_created_at p = r_created_at q → scan q ∉ fetch t limitStr n "").
Proof using Type arrange_perm parse_format.
  intros Hk L. split_and!.
  - intros r. by apply inbox_elem.
  - intros Hd Hn. apply (fetch_drop t limitStr (inbox_strict _ _ Hk Hd) n 0); [fold L; lia|by left].
  - intros p q Hp Hq Ht Hin. destruct n as [|n]; [by apply elem_of_nil in Hin|].
    pose proof (page_limit_range limitStr) as Hlim.
    rewrite fetch_next in Hin. unfold page, page_cursor in Hin. cbn [String.eqb] in Hin. fold L in Hin.
    rewrite (list_filter_all (before None)) in Hin by (by apply Forall_forall).
    apply elem_of_app in Hin as [Hin|Hin].
    + apply list_elem_of_fmap in Hin as (r & He & Hr). apply elem_of_take in Hr as (i & Hr & Hi).
      assert (r_id q = r_id r) as Hid by (by apply (f_equal ID) in He).
      pose proof (inbox_ids t getCurrentUserID Hk) as Hnd.
      enough (i = Z.to_nat (page_limit limitStr)) by lia.
      eapply (NoDup_lookup _ _ _ (r_id q) Hnd); rewrite list_lookup_fmap; fold L; [rewrite Hr|rewrite Hq]; cbn; by rewrite ?Hid.
    + destruct (_ =? _); [|by apply elem_of_nil in Hin].
      apply lookup_lt_Some in Hq as Hlen.
      rewrite last_lookup, length_take, Nat.min_l, lookup_take_lt in Hin by lia.
      rewrite Hp in Hin. apply fetch_older in Hin. cbn in Hin. lia.
Qed.

(** ** Counting the unread, and opting out *)

(** The ids behind the badge of the bell. *)
Definition badge (t : Tables) : gset N := dom (unread_rows t getCurrentUserID).

Definition applied (f : fault) : bool := match f with StmtFails => false | _ => true end.
Definition badge_request (r : request) (e : body_env) (b : gset N) : gset N :=
  match r with
  | PatchRead id =>
      match uuid_Parse id with Some i => if applied (e_exec e) then b ∖ {[i]} else b | None => b end
  | PostReadAll => if applied (e_exec e) then ∅ else b
  | _ => b
  end.

Lemma badge_elem t id :
  id ∈ badge t ↔ ∃ r, notifications t !! id = Some r ∧ unread getCurrentUserID r.
Proof.
  unfold badge, unread_rows. rewrite elem_of_dom. unfold is_Some. setoid_rewrite map_lookup_filter_Some. done.
Qed.

Lemma exec_fst t t' f : (exec t t' f).1 = if applied f then t' else t.
Proof. by destruct f. Qed.

Lemma badge_MarkRead t i f :
  badge (MarkRead t i f).1 = if applied f then badge t ∖ {[i]} else badge t.
Proof.
  unfold MarkRead. rewrite exec_fst. destruct (applied f); [|done]. apply set_eq. intros id.
  rewrite elem_of_difference, elem_of_singleton, !badge_elem. unfold set_rows. cbn [notifications]. split.
  - intros (r & Hr & [Hu Hf]). apply lookup_alter_Some in Hr as [(<- & x & Hx & ->)|[Hne Hr]]; [done|].
    split; [by exists r|congruence].
  - intros [(r & Hr & Hf) Hne]. exists r. by rewrite lookup_alter_ne by congruence.
Qed.

Lemma badge_MarkAllRead t f : badge (MarkAllRead t getCurrentUserID f).1 = if applied f then ∅ else badge t.
Proof.
  unfold MarkAllRead. rewrite exec_fst. destruct (applied f); [|done]. apply set_eq. intros id.
  rewrite badge_elem. unfold set_rows. cbn [notifications]. split; [|intros H; by apply not_elem_of_empty in H].
  intros (r & Hr & Hf). rewrite lookup_fmap_Some in Hr. destruct Hr as (x & <- & Hx).
  destruct (decide (unread getCurrentUserID x)); [by destruct Hf|done].
Qed.

(** the badge shows exactly the unread notifications of the inbox: a
    request changes the set as its kind says, a stored event adds its own id,
    and the count answered is the size of the set. *)
Theorem badge_tracks t r e n f :
  UserID n = getCurrentUserID → Read n = false →
  badge (serve true t r e).1 = badge_request r e (badge t) ∧
  badge (Create t n f).1 =
    (if decide (notifications (Create t n f).1 = notifications t) then badge t else badge t ∪ {[ID n]}) ∧
  HandleUnreadCount true t false = (t, mkResponse 200 (BCount (Z.of_nat (size (badge t))))).
Proof.
  intros Hu Hr. split_and!.
  - destruct r as [l c| |id| | |req]; cbn [serve badge_request]; unfold with_store; cbn [negb].
    + unfold HandleListNotifications, with_store. cbn [negb]. by destruct (ListByUser _ _ _ _ _).
    + unfold HandleUnreadCount, with_store. cbn [negb]. by destruct (CountUnread _ _ _).
    + unfold HandleMarkRead, with_store. cbn [negb]. destruct (uuid_Parse id) as [i|]; [|done].
      rewrite <-badge_MarkRead. by destruct (MarkRead t i (e_exec e)) as [t' []].
    + unfold HandleMarkAllRead, with_store. cbn [negb]. rewrite <-badge_MarkAllRead.
      by destruct (MarkAllRead t getCurrentUserID (e_exec e)) as [t' []].
    + unfold HandleGetPreferences, with_store. cbn [negb]. by destruct (GetPreferences _ _ _).
    + unfold HandleUpdatePreferences, with_store. cbn [negb]. destruct req as [rq|]; [|done].
      unfold UpdatePreferences. destruct (fits _ _); [|done]. by destruct (e_exec e).
  - unfold Create. destruct (jsonb _) as [payload|]; [|by rewrite decide_True].
    destruct (_ && _) eqn:E; [|by rewrite decide_True]. repeat apply andb_prop in E as [E _].
    apply bool_decide_eq_true in E. rewrite exec_fst. destruct (applied f); [|by rewrite decide_True].
    unfold badge, unread_rows, set_rows. cbn [notifications].
    rewrite decide_False by (intros H; apply (f_equal (lookup (ID n))) in H; rewrite lookup_insert_eq in H; congruence).
    rewrite map_filter_insert_True by (split; done).
    by rewrite dom_insert_L, union_comm_L.
  - unfold HandleUnreadCount, with_store, CountUnread, badge. cbn [negb]. by rewrite size_dom.
Qed.

(** ** Opting out *)

Inductive op := OReq (r : request) (e : body_env) | OEvent (e : event_env) (ev : Event) (now : Z).
Definition step (t : Tables) (o : op) : Tables :=
  match o with
  | OReq r e => (serve true t r e).1
  | OEvent e ev now => (Create t (to_notification (new_id e) (stamp ev now)) (f_create e)).1
  end.
Definition no_put (o : op) : Prop := match o with OReq (PutPreferences (Some _)) _ => False | _ => True end.

Lemma step_preferences t o : no_put o → preferences (step t o) = preferences t.
Proof.
  destruct o as [r e|e ev now]; [|intros _; apply Create_preferences]. cbn [step].
  destruct r as [l c| |id| | |req]; cbn [serve no_put]; intros Ho.
  - unfold HandleListNotifications, with_store. cbn [negb]. by destruct (ListByUser _ _ _ _ _).
  - unfold HandleUnreadCount, with_store. cbn [negb]. by destruct (CountUnread _ _ _).
  - unfold HandleMarkRead, with_store, MarkRead. cbn [negb]. destruct (uuid_Parse id); [|done]. by destruct (e_exec e).
  - unfold HandleMarkAllRead, with_store, MarkAllRead. cbn [negb]. by destruct (e_exec e).
  - unfold HandleGetPreferences, with_store. cbn [negb]. by destruct (GetPreferences _ _ _).
  - by destruct req.
Qed.

Lemma steps_preferences ops : ∀ t, Forall no_put ops → preferences (foldl step t ops) = preferences t.
Proof.
  induction ops as [|o ops IH]; intros t Ho; [done|]. apply Forall_cons in Ho as [Ho Hops].
  cbn [foldl]. rewrite IH by done. by apply step_preferences.
Qed.

Definition opted_out (p : UserPreferences) (type : string) : bool :=
  negb (BrowserEnabled p) ||
  (String.eqb type EventSessionTerminated && negb (SessionTerminated p)) ||
  (String.eqb type EventSessionError && negb (SessionError p)) ||
  (String.eqb type EventSatelliteOffline && negb (SatelliteOffline p)) ||
  (String.eqb type EventSessionSuspended && negb (SessionSuspended p)).

Lemma opted_out_ShouldDispatch n p : opted_out p (Type_ n) = true → sse_ShouldDispatch n p = false.
Proof.
  unfold opted_out, sse_ShouldDispatch. destruct (BrowserEnabled p); [|done]. cbn [negb orb].
  destruct (_ && _); [done|]. destruct (_ && _); [done|]. destruct (_ && _); [done|]. by destruct (_ && _).
Qed.

(** a PUT of preferences that answers 200 is respected until the next: no
    event of a type it switches off reaches the hub, whatever else goes on,
    unless the preferences cannot be read; then every tab with room gets it. *)
Theorem opt_out_respected t rq ops e ev now h others :
  let r := HandleUpdatePreferences true t (Some rq) NoFault in
  let w := mkWorld (foldl step r.1 ops) h in
  let n := to_notification (new_id e) (stamp ev now) in
  status r.2 = 200 → Forall no_put ops → ev_UserID ev = None → opted_out rq (ev_Type ev) = true →
  (f_prefs e = false → hub (notify others e w ev now) = h) ∧
  (f_prefs e = true → valid_priority (ev_Priority ev) = true → tabs_open h getCurrentUserID →
     ∀ c, c ∈ SSE.tabs h getCurrentUserID → has_room (SSE.chans h) c = true →
       pending (SSE.chans (hub (notify quiet e w ev now))) c = pending (SSE.chans h) c ++ [n]).
Proof using Type range_perm.
  cbn zeta. intros Hst Hops Hu Ho.
  assert (preferences (foldl step (HandleUpdatePreferences true t (Some rq) NoFault).1 ops) !! getCurrentUserID
    = Some (normalise rq)) as Hp.
  { rewrite steps_preferences by done. revert Hst. unfold HandleUpdatePreferences, with_store, UpdatePreferences.
    cbn [negb]. destruct (fits _ _); [|done]. cbn. intros _. by rewrite lookup_insert_eq. }
  set (t' := foldl step _ ops) in *. set (n := to_notification _ _).
  assert (UserID n = getCurrentUserID) as Hun by (unfold n; cbn; by rewrite Hu).
  split.
  - intros Hf. unfold notify, Emit, Subscribe, NewEventBus. cbn [foldl app]. unfold handleEvent. fold n.
    cbn [NewNotificationService RegisterDispatcher store dispatchers app dispatch_all SSEDispatcher ShouldDispatch].
    unfold preferences_of. cbn [store]. unfold GetPreferences. rewrite Hf. cbn [set_tables tables].
    rewrite Create_preferences, Hun, Hp. rewrite opted_out_ShouldDispatch; [done|]. exact Ho.
  - intros Hf Hv Hop c Hc Hroom.
    destruct (notify_spec e (mkWorld t' h) ev now) as (_ & _ & _ & Hin & _); [fold n; by rewrite Hun|].
    fold n in Hin. rewrite Hun in Hin.
    rewrite (Hin c Hc). cbn [hub tables]. f_equal. rewrite Hroom, andb_true_r.
    replace (seen_by n t' (f_prefs e)) with true; [done|]. unfold seen_by. rewrite Hf.
    unfold sse_ShouldDispatch. cbn [DefaultPreferences BrowserEnabled SessionTerminated SessionError SatelliteOffline
      SessionSuspended MinPriority negb]. rewrite !andb_false_r. cbn. symmetry.
    unfold valid_priority in Hv. unfold priorityLevel. cbn. apply orb_prop in Hv as [[Hv|Hv]%orb_prop|Hv];
      apply String.eqb_eq in Hv; rewrite Hv; reflexivity.
Qed.
End Rows.
End Data.

(** ** Concrete inputs *)

Definition demo_format (t : Z) : string :=
  if t <? 0 then String "-"%char (pretty (Z.to_N (- t))) else String "+"%char (pretty (Z.to_N t)).
Definition demo_parse (s : string) : option Z :=
  match s with
  | String c r => if Ascii.eqb c "-"%char then Z.opp <$> Str.digits r else Str.digits r
  | EmptyString => None
  end.
Lemma demo_parse_format t : demo_parse (demo_format t) = Some t ∧ demo_format t ≠ ""%string.
Proof.
  unfold demo_format. destruct (Z.ltb_spec t 0); (split; [|done]); cbn [demo_parse Ascii.eqb Bool.eqb];
    rewrite Str.digits_pretty_N; cbn [fmap option_fmap option_map]; f_equal; lia.
Qed.

Definition demo_marshal (p : unit) : option string := Some "null"%string.
Definition demo_unmarshal (s : string) : unit := tt.
Definition demo_fits (n : option nat) (s : string) : bool := true.
Definition demo_data (n : Notification (Payload := unit)) : option string := Some (Title n).

Definition event_of (type : string) : Event (Payload := unit) :=
  mkEvent type PriorityInfo (Some 7%N) None None "Session Suspended" "Session s has been suspended" tt None.
Definition demo_env (id : N) : event_env := mkEventEnv id NoFault false.
Definition demo_tables : Tables := mkTables {[7%N]} ∅ ∅ ∅.
Definition demo_hub : SSE.SSEHub (Notification := Notification (Payload := unit)) :=
  SSE.mkSSEHub {[0%N := 1%N]} {[1%N := {[2%N]}]} {[2%N := mkChan 64 [] false]}.

Lemma bell_open : tabs_open demo_hub getCurrentUserID.
Proof.
  intros c Hc. replace (SSE.tabs demo_hub getCurrentUserID) with ({[2%N]} : gset N) in Hc by reflexivity.
  apply elem_of_singleton in Hc as ->. exists (mkChan 64 [] false). split; vm_compute; reflexivity.
Qed.

(** The row cannot be written: its session is gone. The tab is told. *)
Example emit_delivers_witness :
  pending (SSE.chans (hub (notify demo_marshal Some demo_fits elements quiet (demo_env 5)
    (mkWorld (mkTables ∅ ∅ ∅ ∅) demo_hub) (event_of EventSessionSuspended) 9000))) 2 =
    [to_notification 5 (stamp (event_of EventSessionSuspended) 9000)].
Proof.
  destruct (emit_delivers demo_marshal Some demo_fits elements (λ X, reflexivity _) (demo_env 5)
    (mkWorld (mkTables ∅ ∅ ∅ ∅) demo_hub) (event_of EventSessionSuspended) 9000) as (_ & _ & _ & Hin & _).
  - exact bell_open.
  - rewrite (Hin 2%N); [vm_compute; reflexivity|].
    replace (SSE.tabs _ _) with ({[2%N]} : gset N) by reflexivity. by apply elem_of_singleton.
Defined.

Lemma bell_ok : hub_ok demo_hub.
Proof. split; [exact bell_open|]. intros u m. cbn. rewrite lookup_singleton_Some. by intros [<- _]. Qed.

(** Another tab leaves, two events of which the first is read at once, and a heartbeat. *)
Definition demo_run : list (tab_label (Payload := unit)) :=
  [LClose 2; LNotify (demo_env 5) (event_of EventSessionSuspended) 9000; LRead; LTick;
   LNotify (demo_env 6) (event_of EventSessionTerminated) 9500].

Example tab_shows_events_witness :
  ∃ w' s' ns, tab_run demo_marshal demo_unmarshal Some demo_fits reverse elements demo_data demo_parse demo_format
      (λ s, None) (mkWorld demo_tables (stream_open demo_hub).1) (stream_open demo_hub).2 demo_run = Ret (w', s', ns) ∧
    length ns = 2%nat ∧ s_out s' = [FConnected; FNotification "Session Suspended"; FHeartbeat] ∧
    shown (s_out s') ++ frames demo_data (pending (SSE.chans (hub w')) (s_ch s')) = FConnected :: frames demo_data ns.
Proof.
  destruct (tab_shows_events demo_marshal demo_unmarshal Some demo_fits reverse elements demo_data demo_parse demo_format
    (λ s, None) (λ X, reflexivity _) demo_hub demo_tables demo_run bell_ok) as (w' & s' & ns & Hr & _ & Hs).
  exists w', s', ns. split; [exact Hr|]. revert Hr Hs. vm_compute. intros [= <- <- <-] Hs. split; [reflexivity|].
  split; [reflexivity|]. exact Hs.
Defined.

Definition demo_row (id : N) (time : Z) : Row :=
  mkRow id 0 EventSatelliteOffline PriorityCritical "Satellite Offline" "1 satellite(s) went offline" None None
    "null" false time.
Definition bell (times : list (N * Z)) : Tables :=
  mkTables ∅ ∅ (list_to_map ((λ p, (p.1, demo_row p.1 p.2)) <$> times)) ∅.

(** One per page: three notifications, and one that is never shown. *)
Example pages_complete_witness :
  fetch demo_unmarshal reverse demo_parse demo_format (bell [(1%N, 5000); (2%N, 7000); (3%N, 6000)]) "1" 4 "" =
    scan demo_unmarshal <$> [demo_row 2 7000; demo_row 3 6000; demo_row 1 5000] ∧
  scan demo_unmarshal (demo_row 1 5000) ∉
    fetch demo_unmarshal (λ l, l) demo_parse demo_format (bell [(1%N, 5000); (2%N, 5000)]) "1" 4 "".
Proof.
  split.
  - destruct (pages_complete demo_unmarshal reverse demo_parse demo_format reverse_Permutation demo_parse_format
      (bell [(1%N, 5000); (2%N, 7000); (3%N, 6000)]) "1" 4) as (_ & Hall & _).
    + intros id r. unfold bell. simpl. rewrite !lookup_insert_Some, lookup_empty. naive_solver.
    + rewrite Hall; [vm_compute; reflexivity| |vm_compute; lia].
      intros a b _ _ Ha Hb. apply (elem_of_map_to_list (M := gmap N)), (list_elem_of_fmap_2 snd) in Ha, Hb.
      replace (snd <$> map_to_list _) with [demo_row 2 7000; demo_row 3 6000; demo_row 1 5000] in Ha, Hb
        by (vm_compute; reflexivity).
      cbn [snd] in Ha, Hb.
      apply list_elem_of_In in Ha, Hb.
      destruct Ha as [<-|[<-|[<-|[]]]], Hb as [<-|[<-|[<-|[]]]]; intros He; first [reflexivity|discriminate He].
  - assert (keyed (bell [(1%N, 5000); (2%N, 5000)])) as Hk.
    { intros id r. unfold bell. simpl. rewrite !lookup_insert_Some, lookup_empty. naive_solver. }
    destruct (pages_complete demo_unmarshal (λ l, l) demo_parse demo_format (λ l, reflexivity l) demo_parse_format
      (bell [(1%N, 5000); (2%N, 5000)]) "1" 4 Hk) as (_ & _ & Htie).
    apply (Htie (demo_row 2 5000) (demo_row 1 5000)); vm_compute; reflexivity.
Defined.

Example badge_tracks_witness :
  badge (serve demo_unmarshal demo_fits (λ l, l) demo_parse demo_format (λ s, Some 2%N) true
    (bell [(1%N, 5000); (2%N, 7000)]) (PatchRead "2") (mkBodyEnv QueryOk false NoFault)).1 = {[1%N]}.
Proof.
  destruct (badge_tracks demo_marshal demo_unmarshal Some demo_fits (λ l, l) demo_parse demo_format (λ s, Some 2%N)
    (bell [(1%N, 5000); (2%N, 7000)]) (PatchRead "2") (mkBodyEnv QueryOk false NoFault)
    (to_notification 5 (event_of EventSessionSuspended)) NoFault eq_refl eq_refl) as (Hb & _).
  rewrite Hb. vm_compute. reflexivity.
Defined.

Definition silent : UserPreferences := mkPreferences 9 "LOUD" true true true true false.

Example opt_out_respected_witness :
  let t := (HandleUpdatePreferences (Payload := unit) demo_fits true demo_tables (Some silent) NoFault).1 in
  hub (notify demo_marshal Some demo_fits elements quiet (demo_env 5) (mkWorld t demo_hub)
    (event_of EventSessionSuspended) 9000) = demo_hub.
Proof.
  destruct (opt_out_respected demo_marshal demo_unmarshal Some demo_fits (λ l, l) elements demo_parse demo_format
    (λ s, None) (λ X, reflexivity _) demo_tables silent [] (demo_env 5) (event_of EventSessionSuspended) 9000
    demo_hub quiet eq_refl (Forall_nil_2 _) eq_refl eq_refl) as [Hq _].
  exact (Hq eq_refl).
Defined.

(** A tab that closes while a broadcast is about to send to it: the panic is
    recovered in Emit, after the row was written. *)
Example closing_tab_panics :
  let others (i : nat) := [TabCloses 0 2] in
  (handleEvent demo_marshal Some demo_fits (NewNotificationService elements others) (demo_env 5)
    (mkWorld demo_tables demo_hub) (event_of EventSessionSuspended)).2 = Panicked ∧
  dom (notifications (tables (notify demo_marshal Some demo_fits elements others (demo_env 5)
    (mkWorld demo_tables demo_hub) (event_of EventSessionSuspended) 9000))) = {[5%N]}.
Proof. split; vm_compute; reflexivity. Qed.

End Notifications.
