(* ===== verification/BatchWriter.v ===== *)
(** * internal/database/batch_writer.go: batching agent run events

    Go slices are modelled with their backing arrays, because [flushInternal]
    hands out a slice of the array that the next [Append] writes into. A flush
    is two steps, taking the events under the lock and inserting them without
    it, and other calls may come in between. The timers are not state: they
    only decide when a flush happens, and a flush may happen at any time. *)
From S2P Require Import Prelude.

Module Batch.
Section Batch.

Context {Payload : Type}.
(** The capacity [append] allocates when a slice of this capacity is full. *)
Variable grow : nat → nat.
Hypothesis grow_more : ∀ c, c < grow c.

Record pendingEvent := mkEvent {
  RunID : N; EventType : string; Payload_ : Payload; Sequence : Z;
}.

Record slice := mkSlice { arr : N; slen : nat; scap : nat }.
Definition nil_slice : slice := mkSlice 0 0 0.

(** [inflight]: the slices of calls that are between taking the events and
    [executeBatch]; [table]: the rows of agent_run_events, oldest first. *)
Record BatchEventWriter := mkWriter {
  buffers : gmap N slice;                  (* runBuffer.events by run *)
  arrays : gmap N (list pendingEvent);     (* backing arrays *)
  inflight : list slice;
  table : list pendingEvent;
}.

Definition NewBatchEventWriter : BatchEventWriter := mkWriter ∅ ∅ [] [].

(** What a slice reads at this moment. *)
Definition read_slice (arrays : gmap N (list pendingEvent)) (s : slice) : list pendingEvent :=
  take (slen s) (default [] (arrays !! arr s)).

(** [append(s, e)]: in place while the capacity lasts. *)
Definition append_slice (arrays : gmap N (list pendingEvent)) (s : slice) (e : pendingEvent)
    : gmap N (list pendingEvent) * slice :=
  let old := default [] (arrays !! arr s) in
  if decide (slen s < scap s) then
    (<[arr s := take (slen s) old ++ e :: drop (S (slen s)) old]> arrays,
     mkSlice (arr s) (S (slen s)) (scap s))
  else
    let a := fresh (dom arrays) in
    (<[a := take (slen s) old ++ [e]]> arrays, mkSlice a (S (slen s)) (grow (scap s))).

Definition Append (w : BatchEventWriter) (e : pendingEvent) : BatchEventWriter :=
  let buf := default nil_slice (buffers w !! RunID e) in
  let '(arrays', s) := append_slice (arrays w) buf e in
  mkWriter (<[RunID e := s]> (buffers w)) arrays' (inflight w) (table w).

(** [flushInternal]: the buffer keeps its array, with length 0. *)
Definition flushInternal (w : BatchEventWriter) (runID : N) : BatchEventWriter * slice :=
  match buffers w !! runID with
  | None => (w, nil_slice)
  | Some s =>
      if decide (slen s = 0) then (w, nil_slice) else
      (mkWriter (<[runID := mkSlice (arr s) 0 (scap s)]> (buffers w)) (arrays w)
         (inflight w) (table w), s)
  end.

(** [takeEvents]: the buffer is forgotten. *)
Definition takeEvents (w : BatchEventWriter) (runID : N) : BatchEventWriter * slice :=
  match buffers w !! runID with
  | None => (w, nil_slice)
  | Some s => (mkWriter (delete runID (buffers w)) (arrays w) (inflight w) (table w), s)
  end.

(** The batch reads the slice when it is executed. Its statements are one implicit
    transaction: it lands whole, or an INSERT fails, which is logged, and none of them
    does; without a pool nothing lands either. *)
Definition executeBatch (w : BatchEventWriter) (s : slice) (lands : bool) : BatchEventWriter :=
  mkWriter (buffers w) (arrays w) (inflight w)
    (if lands then table w ++ read_slice (arrays w) s else table w).

(** The two halves of [flush] and of [Close], as separate steps. *)
Definition start_call (take : BatchEventWriter → N → BatchEventWriter * slice)
    (w : BatchEventWriter) (runID : N) : BatchEventWriter :=
  let '(w', s) := take w runID in
  if decide (slen s = 0) then w'
  else mkWriter (buffers w') (arrays w') (inflight w' ++ [s]) (table w').

Definition finish_call (w : BatchEventWriter) (i : nat) (lands : bool) : BatchEventWriter :=
  match inflight w !! i with
  | None => w
  | Some s => executeBatch (mkWriter (buffers w) (arrays w) (delete i (inflight w)) (table w)) s lands
  end.

(** [Flush] and [Close] run without interruption. *)
Definition Flush (w : BatchEventWriter) (runID : N) (lands : bool) : BatchEventWriter :=
  let '(w', s) := flushInternal w runID in
  if decide (slen s = 0) then w' else executeBatch w' s lands.
Definition Close (w : BatchEventWriter) (runID : N) (lands : bool) : BatchEventWriter :=
  let '(w', s) := takeEvents w runID in
  if decide (slen s = 0) then w' else executeBatch w' s lands.

Definition BufferLen (w : BatchEventWriter) (runID : N) : nat :=
  from_option slen 0 (buffers w !! runID).

(** ** Invariant *)

Definition slice_ok (arrays : gmap N (list pendingEvent)) (s : slice) : Prop :=
  slen s ≤ scap s ∧ (scap s ≠ 0 → is_Some (arrays !! arr s)) ∧
  slen s ≤ length (default [] (arrays !! arr s)).

(** Every slice is in range, a buffer holds events of its run only, and no two
    live slices that can still be written or read share an array. *)
Record writer_ok (w : BatchEventWriter) : Prop := mk_writer_ok {
  ok_slices : ∀ r s, buffers w !! r = Some s → slice_ok (arrays w) s;
  ok_flight : ∀ s, s ∈ inflight w → slice_ok (arrays w) s ∧ scap s ≠ 0;
  ok_runs : ∀ r s e, buffers w !! r = Some s → e ∈ read_slice (arrays w) s → RunID e = r;
  ok_apart : ∀ r1 r2 s1 s2, buffers w !! r1 = Some s1 → buffers w !! r2 = Some s2 →
    r1 ≠ r2 → scap s1 ≠ 0 → scap s2 ≠ 0 → arr s1 ≠ arr s2;
  ok_flight_apart : ∀ r s1 s2, buffers w !! r = Some s1 → s2 ∈ inflight w →
    scap s1 ≠ 0 → arr s1 ≠ arr s2;
}.

(** The events of a run that are stored or still to be stored, in order. *)
Definition of_run (r : N) (l : list pendingEvent) : list pendingEvent := filter (λ e, RunID e = r) l.

Definition buffered (w : BatchEventWriter) (r : N) : list pendingEvent :=
  read_slice (arrays w) (default nil_slice (buffers w !! r)).

Lemma read_nil a : read_slice a nil_slice = [].
Proof. done. Qed.

Lemma read_slice_frame a1 a2 s :
  (slen s ≠ 0 → a1 !! arr s = a2 !! arr s) → read_slice a1 s = read_slice a2 s.
Proof. unfold read_slice. intros H. destruct (slen s) eqn:?; [done|]. by rewrite H. Qed.

Lemma slice_ok_frame a1 a2 s :
  (scap s ≠ 0 → a1 !! arr s = a2 !! arr s) → slice_ok a1 s → slice_ok a2 s.
Proof.
  unfold slice_ok. intros H (H1 & H2 & H3). destruct (decide (scap s = 0)) as [H0|].
  - split_and!; [done|by intros|lia].
  - rewrite <-H by done. auto.
Qed.

Lemma append_slice_spec a s e :
  slice_ok a s →
  let '(a', s') := append_slice a s e in
  slice_ok a' s' ∧ scap s' ≠ 0 ∧ read_slice a' s' = read_slice a s ++ [e] ∧
  (arr s' = arr s ∧ scap s ≠ 0 ∨ a !! arr s' = None) ∧
  (∀ k, k ≠ arr s' → a' !! k = a !! k).
Proof.
  intros (Hc & Hin & Hl). unfold append_slice. case_decide as Hroom.
  - destruct (Hin ltac:(lia)) as [old Hold]. rewrite Hold in *. simpl in *.
    unfold slice_ok, read_slice. simpl. rewrite lookup_insert_eq, Hold. simpl.
    split_and!; try done; try lia.
    + rewrite length_app, length_take. simpl. lia.
    + replace (S (slen s)) with (length (take (slen s) old) + 1) by (rewrite length_take; lia).
      by rewrite take_app_add.
    + intros k Hk. by rewrite lookup_insert_ne.
  - set (b := fresh (dom a)).
    assert (a !! b = None) as Hb by apply not_elem_of_dom, is_fresh.
    unfold slice_ok, read_slice. simpl. rewrite lookup_insert_eq. simpl.
    pose proof (grow_more (scap s)). rewrite length_app, length_take. simpl.
    split_and!; try done; try lia.
    + apply take_ge. rewrite length_app, length_take. simpl. lia.
    + by right.
    + intros k Hk. by rewrite lookup_insert_ne.
Qed.

Lemma NewBatchEventWriter_ok : writer_ok NewBatchEventWriter.
Proof. split; simpl; intros *; rewrite ?lookup_empty; try done; by intros ?%elem_of_nil. Qed.

Lemma nil_slice_ok a : slice_ok a nil_slice.
Proof. unfold slice_ok. simpl. split_and!; [lia|done|lia]. Qed.

Lemma buffer_ok w r : writer_ok w → slice_ok (arrays w) (default nil_slice (buffers w !! r)).
Proof.
  intros Hok. destruct (buffers w !! r) as [s|] eqn:Hs; simpl; [by eapply ok_slices|].
  apply nil_slice_ok.
Qed.

Lemma of_run_self r l : (∀ e, e ∈ l → RunID e = r) → of_run r l = l.
Proof. intros H. apply list_filter_all. by apply Forall_forall. Qed.

Lemma of_run_other r r' l : (∀ e, e ∈ l → RunID e = r) → r ≠ r' → of_run r' l = [].
Proof.
  intros H Hne. apply list_filter_nil. apply Forall_forall. intros e He. by rewrite (H e He).
Qed.

Lemma Append_ok w e :
  writer_ok w →
  writer_ok (Append w e) ∧
  (∀ r, buffered (Append w e) r = buffered w r ++ of_run r [e]) ∧
  (read_slice (arrays (Append w e)) <$> inflight w) = (read_slice (arrays w) <$> inflight w).
Proof.
  intros Hok. pose proof (buffer_ok w (RunID e) Hok) as Hb.
  pose proof (append_slice_spec (arrays w) (default nil_slice (buffers w !! RunID e)) e Hb) as H.
  unfold Append. destruct (append_slice _ _ _) as [a' s'].
  destruct H as (Hs' & Hc' & Hrd & Harr & Hfr).
  assert (∀ r s, r ≠ RunID e → buffers w !! r = Some s → scap s ≠ 0 → arr s ≠ arr s') as Hapart.
  { intros r s Hne Hs Hc Heq. destruct Harr as [[Ha Hc0]|Hnew].
    - destruct (buffers w !! RunID e) as [s0|] eqn:Hs0; simpl in *; [|done].
      apply (ok_apart _ Hok r (RunID e) s s0); congruence.
    - destruct (ok_slices _ Hok _ _ Hs) as (_ & Hin & _). destruct (Hin Hc). congruence. }
  assert (∀ s, s ∈ inflight w → arr s ≠ arr s') as Hfl.
  { intros s Hs Heq. destruct Harr as [[Ha Hc0]|Hnew].
    - destruct (buffers w !! RunID e) as [s0|] eqn:Hs0; simpl in *; [|done].
      apply (ok_flight_apart _ Hok (RunID e) s0 s); congruence.
    - destruct (ok_flight _ Hok _ Hs) as ((_ & Hin & _) & Hc). destruct (Hin Hc). congruence. }
  assert (∀ r s, r ≠ RunID e → buffers w !! r = Some s →
    slice_ok a' s ∧ read_slice a' s = read_slice (arrays w) s) as Hoth.
  { intros r s Hne Hs. pose proof (ok_slices _ Hok _ _ Hs) as Hsl.
    assert (scap s ≠ 0 → arrays w !! arr s = a' !! arr s) as Hf
      by (intros; symmetry; apply Hfr; eauto).
    split; [by eapply slice_ok_frame|]. symmetry. apply read_slice_frame.
    intros. apply Hf. destruct Hsl. lia. }
  split; [|split].
  - split; simpl.
    + intros r s. rewrite lookup_insert_Some. intros [[<- <-]|[Hne Hs]]; [done|].
      by apply (Hoth r s).
    + intros s Hs. destruct (ok_flight _ Hok _ Hs) as [? Hc]. split; [|done].
      eapply slice_ok_frame; [|done]. intros _. symmetry. apply Hfr. by apply Hfl.
    + intros r s e'. rewrite lookup_insert_Some. intros [[<- <-]|[Hne Hs]].
      * rewrite Hrd, elem_of_app, list_elem_of_singleton. intros [He'| ->]; [|done].
        destruct (buffers w !! RunID e) as [s0|] eqn:Hs0; simpl in He'; [by eapply ok_runs|].
        by apply elem_of_nil in He'.
      * destruct (Hoth r s) as [_ ->]; [done..|]. by eapply ok_runs.
    + intros r1 r2 s1 s2. rewrite !lookup_insert_Some.
      intros [[<- <-]|[G1 Hs1]] [[<- <-]|[H2 Hs2]] Hne Hc1 Hc2; [done| | |by eapply ok_apart].
      * intros Heq. by apply (Hapart r2 s2).
      * by apply (Hapart r1 s1).
    + intros r s1 s2. rewrite lookup_insert_Some. intros [[<- <-]|[Hne Hs]] Hs2 Hc.
      * intros Heq. by apply (Hfl s2).
      * by eapply ok_flight_apart.
  - intros r. unfold buffered, of_run. simpl. destruct (decide (RunID e = r)) as [<-|Hne].
    + rewrite lookup_insert_eq, filter_cons_True by done. simpl. by rewrite Hrd.
    + rewrite lookup_insert_ne, filter_cons_False by done. rewrite app_nil_r.
      destruct (buffers w !! r) as [s|] eqn:Hs; [|done]. simpl. by apply (Hoth r s).
  - apply list_fmap_ext. intros i s Hs. simpl. apply read_slice_frame. intros _.
    apply Hfr, Hfl. by apply list_elem_of_lookup_2 in Hs.
Qed.

(** Emptying a buffer of its events, keeping or forgetting its array. *)
Lemma flush_take w r s :
  buffers w !! r = Some s → writer_ok w →
  writer_ok (mkWriter (<[r := mkSlice (arr s) 0 (scap s)]> (buffers w)) (arrays w) (inflight w) (table w)).
Proof.
  intros Hs Hok. pose proof (ok_slices _ Hok _ _ Hs) as (? & ? & ?).
  split; simpl.
  - intros r' s'. rewrite lookup_insert_Some. intros [[<- <-]|[? ?]]; [|by eapply ok_slices].
    unfold slice_ok. simpl. split_and!; [lia|done|lia].
  - apply (ok_flight _ Hok).
  - intros r' s' e. rewrite lookup_insert_Some. intros [[<- <-]|[? ?]]; [|by eapply ok_runs].
    unfold read_slice. simpl. by intros ?%elem_of_nil.
  - intros r1 r2 s1 s2. rewrite !lookup_insert_Some.
    intros [[<- <-]|[G1 Hs1]] [[<- <-]|[H2 Hs2]]; simpl; try done; by eapply ok_apart.
  - intros r' s1 s2. rewrite lookup_insert_Some. intros [[<- <-]|[? ?]]; simpl;
      by eapply ok_flight_apart.
Qed.

Lemma close_take w r s :
  buffers w !! r = Some s → writer_ok w →
  writer_ok (mkWriter (delete r (buffers w)) (arrays w) (inflight w) (table w)) ∧
  (scap s ≠ 0 →
   writer_ok (mkWriter (delete r (buffers w)) (arrays w) (inflight w ++ [s]) (table w))).
Proof.
  intros Hs Hok.
  assert (writer_ok (mkWriter (delete r (buffers w)) (arrays w) (inflight w) (table w))) as H.
  { split; simpl.
    - intros r' s' [_ ?]%lookup_delete_Some. by eapply ok_slices.
    - apply (ok_flight _ Hok).
    - intros r' s' e [_ ?]%lookup_delete_Some. by eapply ok_runs.
    - intros r1 r2 s1 s2 [_ ?]%lookup_delete_Some [_ ?]%lookup_delete_Some. by eapply ok_apart.
    - intros r' s1 s2 [_ ?]%lookup_delete_Some. by eapply ok_flight_apart. }
  split; [done|]. intros Hc. destruct H as [H1 H2 H3 H4 H5]. simpl in *.
  split; simpl; try done.
  - intros s' [?|Hs'%list_elem_of_singleton]%elem_of_app; [eauto|]. subst.
    split; [by eapply ok_slices|done].
  - intros r' s1 s2 Hs1 [?|Hs'%list_elem_of_singleton]%elem_of_app Hc1; [by eapply H5|]. subst.
    apply lookup_delete_Some in Hs1 as [Hne Hs1]. by eapply (ok_apart _ Hok r' r).
Qed.

Lemma writer_ok_flight_sub w fl t :
  writer_ok w → (∀ s, s ∈ fl → s ∈ inflight w) → writer_ok (mkWriter (buffers w) (arrays w) fl t).
Proof. intros [H1 H2 H3 H4 H5] Hsub. split; simpl; eauto. Qed.

(** ** Sequences of calls *)

(** [Flush] and [Close] uninterrupted, or [Close] in two steps. *)
Inductive batch_op :=
  | BAppend (e : pendingEvent)
  | BFlush (r : N) (lands : bool)
  | BClose (r : N) (lands : bool)
  | BStartClose (r : N)
  | BFinish (i : nat) (lands : bool).

Definition batch_step (w : BatchEventWriter) (o : batch_op) : BatchEventWriter :=
  match o with
  | BAppend e => Append w e
  | BFlush r lands => Flush w r lands
  | BClose r lands => Close w r lands
  | BStartClose r => start_call takeEvents w r
  | BFinish i lands => finish_call w i lands
  end.

Definition batch_run (w : BatchEventWriter) (ops : list batch_op) := foldl batch_step w ops.

Definition appended (o : batch_op) : list pendingEvent :=
  match o with BAppend e => [e] | _ => [] end.

(** What a call throws away: the batch that does not land. *)
Definition thrown_away (w : BatchEventWriter) (o : batch_op) : list pendingEvent :=
  match o with
  | BFlush r false | BClose r false => read_slice (arrays w) (default nil_slice (buffers w !! r))
  | BFinish i false => read_slice (arrays w) (default nil_slice (inflight w !! i))
  | _ => []
  end.
Fixpoint all_thrown_away (w : BatchEventWriter) (ops : list batch_op) : list pendingEvent :=
  match ops with
  | [] => []
  | o :: ops' => thrown_away w o ++ all_thrown_away (batch_step w o) ops'
  end.

Definition atomic (o : batch_op) : Prop := match o with BStartClose _ => False | _ => True end.

(** Everything of a run that has not been lost. *)
Definition kept (w : BatchEventWriter) (r : N) : list pendingEvent :=
  of_run r (table w) ++ of_run r (concat (read_slice (arrays w) <$> inflight w)) ++ buffered w r.

Lemma buffered_of_run w r : writer_ok w → of_run r (buffered w r) = buffered w r.
Proof.
  intros Hok. apply of_run_self. unfold buffered. intros e.
  destruct (buffers w !! r) as [s|] eqn:Hs; simpl; [by eapply ok_runs|by intros ?%elem_of_nil].
Qed.

Lemma buffered_other w r r' : writer_ok w → r ≠ r' → of_run r' (buffered w r) = [].
Proof.
  intros Hok Hne. apply (of_run_other r); [|done]. unfold buffered. intros e.
  destruct (buffers w !! r) as [s|] eqn:Hs; simpl; [by eapply ok_runs|by intros ?%elem_of_nil].
Qed.

(** What each step promises: nothing of a run is lost or doubled but what is thrown away,
    and if nothing is under way the order stays. *)
Definition step_promise (w w' : BatchEventWriter) (new lost : list pendingEvent) (atom : Prop) : Prop :=
  writer_ok w' ∧ ∀ r, kept w' r ++ of_run r lost ≡ₚ kept w r ++ of_run r new ∧
    (inflight w = [] → atom → inflight w' = [] ∧ kept w' r `sublist_of` kept w r ++ of_run r new ∧
       (lost = [] → kept w' r = kept w r ++ of_run r new)).

Lemma of_run_nil r : of_run r [] = [].
Proof. done. Qed.
Lemma of_run_app r l1 l2 : of_run r (l1 ++ l2) = of_run r l1 ++ of_run r l2.
Proof. apply filter_app. Qed.

Lemma promise_same w w' lost atom :
  writer_ok w' → inflight w' = inflight w → lost = [] → (∀ r, kept w' r = kept w r) → step_promise w w' [] lost atom.
Proof.
  intros Hok Hi -> Hk. split; [done|]. intros r. rewrite of_run_nil, !app_nil_r, Hk. split; [done|].
  intros Hi0 _. by rewrite Hi.
Qed.

Lemma Append_promise w e : writer_ok w → step_promise w (Append w e) [e] [] True.
Proof.
  intros Hok. destruct (Append_ok w e Hok) as (Hok' & Hb & Hf).
  assert (inflight (Append w e) = inflight w ∧ table (Append w e) = table w) as [Hi Ht]
    by (unfold Append; by destruct (append_slice _ _ _)).
  split; [done|]. intros r. rewrite of_run_nil, app_nil_r. unfold kept. rewrite Hi, Ht, Hf, Hb, !(assoc_L (++)). done.
Qed.

(** A writer whose buffer of [r] was emptied into the table, or thrown away. *)
Lemma execute_promise w r s bufs lands :
  writer_ok w → buffers w !! r = Some s →
  writer_ok (mkWriter bufs (arrays w) (inflight w) (table w)) →
  bufs !! r = Some (mkSlice (arr s) 0 (scap s)) ∨ bufs !! r = None →
  (∀ k, k ≠ r → bufs !! k = buffers w !! k) →
  step_promise w (executeBatch (mkWriter bufs (arrays w) (inflight w) (table w)) s lands) []
    (if lands then [] else read_slice (arrays w) s) True.
Proof.
  intros Hok Hs Hok' Hr Ho. split; [destruct Hok' as [? ? ? ? ?]; by split|].
  intros r'. rewrite of_run_nil, app_nil_r.
  assert (read_slice (arrays w) s = buffered w r) as Hb by (unfold buffered; by rewrite Hs).
  unfold kept. cbn [executeBatch buffers arrays inflight table]. rewrite Hb.
  set (fl := of_run r' (concat _)).
  assert (buffered (executeBatch (mkWriter bufs (arrays w) (inflight w) (table w)) s lands) r' =
    if decide (r' = r) then [] else buffered w r') as ->.
  { unfold buffered. cbn [executeBatch buffers arrays]. case_decide as Hd; [|by rewrite Ho].
    subst r'. by destruct Hr as [-> | ->]. }
  destruct (decide (r' = r)) as [->|Hne].
  - assert (of_run r (buffered w r) = buffered w r) as Hself by by apply buffered_of_run.
    destruct lands; rewrite ?of_run_app, Hself, app_nil_r, ?of_run_nil, ?app_nil_r.
    + split; [rewrite <-!(assoc_L (++)); f_equiv; apply Permutation_app_comm|].
      intros Hi _. unfold fl. rewrite Hi. cbn. by rewrite app_nil_r.
    + split; [by rewrite (assoc_L (++))|]. intros Hi _. split_and!; [done| |].
      * apply sublist_app; [done|]. by apply sublist_inserts_r.
      * intros Hn. by rewrite Hn, app_nil_r.
  - assert (of_run r' (buffered w r) = []) as Hother by by apply buffered_other.
    destruct lands; rewrite ?of_run_app, Hother, !app_nil_r; done.
Qed.

(** What [Flush] and [Close] read is the buffer of the run. *)
Lemma Flush_promise w r lands :
  writer_ok w → step_promise w (Flush w r lands) [] (thrown_away w (BFlush r lands)) True.
Proof.
  intros Hok. unfold Flush, flushInternal. cbn [thrown_away]. destruct (buffers w !! r) as [s|] eqn:Hs; cbn [default].
  2:{ apply promise_same; [done..|by destruct lands|done]. }
  destruct (decide (slen s = 0)) as [H0|H0].
  { apply promise_same; [done..| |done]. unfold read_slice. simpl. rewrite H0. by destruct lands. }
  rewrite decide_False by done.
  destruct (execute_promise w r s (<[r := mkSlice (arr s) 0 (scap s)]> (buffers w)) lands) as [H1 H2];
    [done|done|by apply flush_take|left; apply lookup_insert_eq|intros; by apply lookup_insert_ne|].
  split; [done|]. intros r'. specialize (H2 r'). by destruct lands.
Qed.

(** A buffer that holds nothing can be forgotten. *)
Lemma drop_empty w r s r' :
  buffers w !! r = Some s → slen s = 0 →
  kept (mkWriter (delete r (buffers w)) (arrays w) (inflight w) (table w)) r' = kept w r'.
Proof.
  intros Hs H0. unfold kept, buffered. simpl. do 2 f_equal. destruct (decide (r' = r)) as [->|].
  - rewrite lookup_delete_eq, Hs. unfold read_slice. simpl. by rewrite H0.
  - by rewrite lookup_delete_ne.
Qed.

Lemma Close_promise w r lands :
  writer_ok w → step_promise w (Close w r lands) [] (thrown_away w (BClose r lands)) True.
Proof.
  intros Hok. unfold Close, takeEvents. cbn [thrown_away]. destruct (buffers w !! r) as [s|] eqn:Hs; cbn [default].
  2:{ apply promise_same; [done..|by destruct lands|done]. }
  destruct (decide (slen s = 0)) as [H0|H0].
  { apply promise_same; [by eapply close_take|done| |intros r'; by apply (drop_empty w r s)].
    unfold read_slice. simpl. rewrite H0. by destruct lands. }
  destruct (execute_promise w r s (delete r (buffers w)) lands) as [H1 H2];
    [done|done|by eapply close_take|right; apply lookup_delete_eq|intros; by apply lookup_delete_ne|].
  split; [done|]. intros r'. specialize (H2 r'). by destruct lands.
Qed.

Lemma StartClose_promise w r : writer_ok w → step_promise w (start_call takeEvents w r) [] [] False.
Proof.
  intros Hok. unfold start_call, takeEvents. destruct (buffers w !! r) as [s|] eqn:Hs.
  2:{ by apply promise_same. }
  destruct (decide (slen s = 0)).
  { apply promise_same; [by eapply close_take|done|done|intros r'; by apply (drop_empty w r s)]. }
  pose proof (ok_slices _ Hok _ _ Hs) as (? & _ & _).
  split; [apply (proj2 (close_take w r s Hs Hok)); lia|]. intros r'. split; [|done].
  rewrite !of_run_nil, !app_nil_r.
  unfold kept, buffered. simpl. rewrite fmap_app, concat_app. simpl. rewrite app_nil_r.
  unfold of_run. rewrite filter_app. f_equiv. rewrite <-(assoc_L (++)). f_equiv.
  pose proof (buffered_of_run w r Hok) as Hb. pose proof (buffered_other w r r' Hok) as Hb'.
  unfold buffered in Hb, Hb'. rewrite Hs in Hb, Hb'. simpl in Hb, Hb'. unfold of_run in Hb, Hb'.
  destruct (decide (r = r')) as [<-|Hne].
  - rewrite lookup_delete_eq, Hs, Hb. simpl. by rewrite app_nil_r.
  - rewrite lookup_delete_ne, Hb' by done. done.
Qed.

Lemma Finish_promise w i lands :
  writer_ok w → step_promise w (finish_call w i lands) [] (thrown_away w (BFinish i lands)) True.
Proof.
  intros Hok. unfold finish_call. cbn [thrown_away]. destruct (inflight w !! i) as [s|] eqn:Hs; cbn [default].
  2:{ apply promise_same; [done..|by destruct lands|done]. }
  split.
  - apply (writer_ok_flight_sub w); [done|]. intros s' Hs'.
    rewrite (delete_Permutation _ _ _ Hs). by apply list_elem_of_further.
  - intros r. rewrite of_run_nil, app_nil_r. split; [|intros Hi; by rewrite Hi in Hs].
    unfold kept. cbn [executeBatch buffers arrays inflight table].
    assert (of_run r (concat (read_slice (arrays w) <$> inflight w)) ≡ₚ
      of_run r (read_slice (arrays w) s) ++ of_run r (concat (read_slice (arrays w) <$> delete i (inflight w)))) as ->.
    { rewrite <-of_run_app. unfold of_run. f_equiv. by rewrite (delete_Permutation _ _ _ Hs) at 1. }
    change (buffered (executeBatch _ s lands) r) with (buffered w r).
    destruct lands; rewrite ?of_run_app, ?of_run_nil; solve_Permutation.
Qed.

Lemma batch_step_promise w o :
  writer_ok w → step_promise w (batch_step w o) (appended o) (thrown_away w o) (atomic o).
Proof.
  intros Hok. destruct o; simpl.
  - by apply Append_promise.
  - by apply Flush_promise.
  - by apply Close_promise.
  - by apply StartClose_promise.
  - by apply Finish_promise.
Qed.

Lemma batch_run_promise ops : ∀ w,
  writer_ok w →
  step_promise w (batch_run w ops) (concat (appended <$> ops)) (all_thrown_away w ops) (Forall atomic ops).
Proof.
  induction ops as [|o ops IH]; intros w Hok; [by apply promise_same|].
  destruct (batch_step_promise w o Hok) as [Hok1 H1]. destruct (IH _ Hok1) as [Hok2 H2].
  split; [done|]. intros r. destruct (H1 r) as [Hp1 He1]. destruct (H2 r) as [Hp2 He2].
  cbn [fmap list_fmap concat all_thrown_away]. rewrite !of_run_app, (assoc_L (++) (kept w r)). split.
  - rewrite <-Hp1. change (batch_run w (o :: ops)) with (batch_run (batch_step w o) ops).
    rewrite (Permutation_app_comm (of_run r (thrown_away w o))), (assoc_L (++)), Hp2, <-!(assoc_L (++)).
    f_equiv. apply Permutation_app_comm.
  - intros Hi [Ho Hos]%Forall_cons. destruct (He1 Hi Ho) as (Hi1 & S1 & E1).
    destruct (He2 Hi1 Hos) as (Hi2 & S2 & E2). split_and!; [done| |].
    + etrans; [exact S2|]. by apply sublist_app.
    + intros [Hl1 Hl2]%app_nil. etrans; [by apply E2|]. by rewrite E1.
Qed.

(** C20: the writer loses and doubles nothing but the batches that do not land, as long as
    a timer flush is not interrupted between taking the events and inserting them. For
    any calls of any runs (a [Close] may be interrupted anywhere), the events of a run
    that are stored, in the hands of a [Close], still buffered, or in a batch whose INSERT
    failed are exactly the events appended for it. When no [Close] was interrupted
    either, the stored ones followed by the buffered ones are in the order of the
    appends; they are all of them when every batch landed. *)
Theorem batch_keeps_events ops r :
  let w := batch_run NewBatchEventWriter ops in
  let lost := all_thrown_away NewBatchEventWriter ops in
  kept w r ++ of_run r lost ≡ₚ of_run r (concat (appended <$> ops)) ∧
  (Forall atomic ops →
   of_run r (table w) ++ buffered w r `sublist_of` of_run r (concat (appended <$> ops)) ∧
   (lost = [] → of_run r (table w) ++ buffered w r = of_run r (concat (appended <$> ops)))).
Proof.
  intros w lost. destruct (batch_run_promise ops _ NewBatchEventWriter_ok) as [_ H].
  destruct (H r) as [Hp He]. split; [done|]. intros Ha. destruct (He eq_refl Ha) as (Hi & Hs & Hk).
  fold w in Hi, Hs, Hk. unfold kept in Hs, Hk. rewrite Hi in Hs, Hk. done.
Qed.

(** a flush that is interrupted loses events. [flushInternal] keeps the
    backing array, so an [Append] between a flush taking the events of a run
    and inserting them overwrites the first of them: of two appended events the
    first is never stored, and the second is stored twice, whatever the growth
    strategy of slices. *)
Theorem interrupted_flush_loses e1 e2 :
  RunID e1 = RunID e2 →
  let r := RunID e1 in
  let w := batch_run NewBatchEventWriter [BAppend e1] in
  let w1 := start_call flushInternal w r in
  let w2 := Flush (finish_call (Append w1 e2) 0 true) r true in
  table w2 = [e2; e2] ∧ buffered w2 r = [] ∧ inflight w2 = [].
Proof.
  intros Hr r w w1 w2. pose proof (grow_more 0) as Hg.
  set (a := fresh (dom (∅ : gmap N (list pendingEvent)))).
  assert (w = mkWriter (<[r := mkSlice a 1 (grow 0)]> ∅) (<[a := [e1]]> ∅) [] []) as Ew by done.
  clearbody a w. subst w.
  assert (w1 = mkWriter (<[r := mkSlice a 0 (grow 0)]> ∅) (<[a := [e1]]> ∅)
    [mkSlice a 1 (grow 0)] []) as Ew1.
  { unfold w1, start_call, flushInternal. cbn [buffers]. rewrite lookup_insert_eq.
    cbn -[insert empty]. by rewrite insert_insert_eq. }
  assert (Append w1 e2 = mkWriter (<[r := mkSlice a 1 (grow 0)]> ∅) (<[a := [e2]]> ∅)
    [mkSlice a 1 (grow 0)] []) as Ea.
  { rewrite Ew1. unfold Append, append_slice. rewrite <-Hr. fold r. cbn [buffers arrays inflight table].
    rewrite lookup_insert_eq. cbn [default from_option arr slen scap id].
    rewrite decide_True by done. by rewrite lookup_insert_eq, !insert_insert_eq. }
  unfold w2. rewrite Ea. unfold finish_call, executeBatch, read_slice.
  cbn [buffers arrays inflight table lookup list_lookup delete list_delete app arr slen].
  rewrite lookup_insert_eq. unfold Flush, flushInternal.
  cbn [buffers arrays inflight table]. rewrite lookup_insert_eq.
  cbn [slen arr scap]. rewrite decide_False by done. unfold executeBatch, read_slice, buffered.
  cbn [slen arr scap buffers arrays inflight table]. rewrite decide_False by done.
  cbn [slen arr scap buffers arrays inflight table]. by rewrite !lookup_insert_eq.
Qed.

End Batch.

Definition ev (n : Z) : pendingEvent (Payload := nat) := mkEvent 1 "text" 0 n.

Example batch_keeps_events_witness :
  let ops := [BAppend (ev 1); BStartClose 1; BAppend (ev 2); BFlush 1 true; BAppend (ev 3); BFinish 0 true;
              BFlush 1 false] in
  let w := batch_run S NewBatchEventWriter ops in
  table w = [ev 2; ev 1] ∧ all_thrown_away S NewBatchEventWriter ops = [ev 3] ∧
  kept w 1 ++ of_run 1 [ev 3] ≡ₚ of_run 1 (concat (appended <$> ops)).
Proof.
  intros ops w. split; [vm_compute; reflexivity|]. split; [vm_compute; reflexivity|].
  apply (batch_keeps_events S (λ c, Nat.lt_succ_diag_r c) ops 1).
Defined.

Example interrupted_flush_loses_witness :
  let w := batch_run S NewBatchEventWriter [BAppend (ev 1)] in
  let w1 := start_call flushInternal w 1 in
  let w2 := Flush (finish_call (Append S w1 (ev 2)) 0 true) 1 true in
  table w2 = [ev 2; ev 2] ∧ buffered w2 1 = [] ∧ inflight w2 = [].
Proof. apply (interrupted_flush_loses S (λ c, Nat.lt_succ_diag_r c) (ev 1) (ev 2)). reflexivity. Defined.

End Batch.
