(* ===== verification/Users.v ===== *)
(** * internal/auth/user_store.go: user accounts and local passwords

    The [users] table has the columns and constraints of db/migrations 005, 022
    and 035. A result row is the list of its cells, because what the driver does
    with it depends on their number and on NULLs: [scanUser] has eleven
    destinations, most of which cannot take a NULL. A statement with RETURNING
    has taken effect by the time its row is scanned. *)
From S2P Require Import Prelude.
#[local] Open Scope Z_scope.

Module Users.

Record UserRow := mkUserRow {
  r_id : N; r_email : string; r_name : option string; r_role : string;
  r_provider : option string; r_provider_id : option string; r_avatar_url : option string;
  r_password_hash : option string; r_last_login_at : option Z;
  r_created_at : Z; r_updated_at : Z;
}.

Notation table := (gmap N UserRow).

Record User := mkUser {
  ID : N; Email : string; Name : string; Role : string; Provider : string;
  ProviderID : string; AvatarURL : string; PasswordHash : option string;
  LastLoginAt : option Z; CreatedAt : Z; UpdatedAt : Z;
}.

Definition ValidRoles : list string := ["owner"; "admin"; "viewer"].

Fixpoint role_in (l : list string) (role : string) : bool :=
  match l with
  | [] => false
  | r :: l' => if String.eqb role r then true else role_in l' role
  end.

Definition isValidRole (role : string) : bool := role_in ValidRoles role.

Inductive user_error :=
  | ErrUserNotFound
  | ErrDuplicateEmail
  | InvalidRole
  | PasswordTooShort
  | HashFailed
  | PasswordNotSet
  | InvalidPassword
  | ErrScan                     (* rows.Scan *)
  | ErrUnique                   (* another error that says "duplicate key" *)
  | ErrDB.                      (* any other error of the driver *)

(** ** Rows and scanning *)

Inductive cell :=
  | CId (id : N)
  | CText (t : option string)
  | CTime (t : option Z).

(** userColumns *)
Definition userColumns (r : UserRow) : list cell :=
  [CId (r_id r); CText (Some (r_email r)); CText (r_name r); CText (Some (r_role r));
   CText (r_provider r); CText (r_provider_id r); CText (r_avatar_url r);
   CText (r_password_hash r); CTime (r_last_login_at r);
   CTime (Some (r_created_at r)); CTime (Some (r_updated_at r))].

(** The column list the RETURNING clauses of [UpsertFromOIDC] spell out. *)
Definition oidc_columns (r : UserRow) : list cell :=
  [CId (r_id r); CText (Some (r_email r)); CText (r_name r); CText (Some (r_role r));
   CText (r_provider r); CText (r_provider_id r); CText (r_avatar_url r);
   CTime (r_last_login_at r); CTime (Some (r_created_at r)); CTime (Some (r_updated_at r))].

(** Eleven destinations: the seven of type string or time refuse a NULL. *)
Definition scanUser (row : list cell) : result user_error User :=
  match row with
  | [CId id; CText (Some email); CText (Some name); CText (Some role); CText (Some provider);
     CText (Some provider_id); CText (Some avatar); CText hash; CTime login;
     CTime (Some created); CTime (Some updated)] =>
      Ok (mkUser id email name role provider provider_id avatar hash login created updated)
  | _ => Err ErrScan
  end.

(** ** Queries *)

(** A statement that fails for a reason outside the program. *)
Definition query_one (t : table) (P : UserRow → Prop) `{∀ r, Decision (P r)} (f : bool)
    : result user_error User :=
  if f then Err ErrDB else
  match filter P (map_to_list t).*2 with
  | [] => Err ErrUserNotFound
  | r :: _ => scanUser (userColumns r)
  end.

Definition GetByID (t : table) (id : N) := query_one t (λ r, r_id r = id).
Definition GetByEmail (t : table) (email : string) := query_one t (λ r, r_email r = email).
(** A NULL column equals nothing. *)
Definition GetByProviderID (t : table) (provider providerID : string) :=
  query_one t (λ r, r_provider r = Some provider ∧ r_provider_id r = Some providerID).

Definition newer_eq (a b : UserRow) : Prop := r_created_at b <= r_created_at a.
#[export] Instance newer_eq_dec : RelDecision newer_eq.
Proof. intros a b. unfold newer_eq. apply _. Defined.

Fixpoint scan_users (rows : list UserRow) : result user_error (list User) :=
  match rows with
  | [] => Ok []
  | r :: rows' =>
      match scanUser (userColumns r) with
      | Err e => Err e
      | Ok u => match scan_users rows' with Err e => Err e | Ok us => Ok (u :: us) end
      end
  end.

(** [rows.Err()] is returned here, so a lost connection is an error. *)
Definition List_ (t : table) (f : bool) : result user_error (list User) :=
  if f then Err ErrDB else scan_users (merge_sort newer_eq (map_to_list t).*2).

(** ** Statements *)

(** The constraints: unique email, unique (provider, provider_id) where both
    are not NULL, and the CHECK on the role. *)
Definition clash (k r : UserRow) : Prop :=
  r_id k ≠ r_id r ∧
  (r_email k = r_email r ∨
   (is_Some (r_provider k) ∧ is_Some (r_provider_id k) ∧
    r_provider k = r_provider r ∧ r_provider_id k = r_provider_id r)).

Definition conflicts (t : table) (r : UserRow) : bool :=
  existsb (λ k, bool_decide (clash k r)) (map_to_list t).*2.

Inductive stmt_result := SOk (t : table) | SUnique | SFails.

Definition put_row (t : table) (r : UserRow) : stmt_result :=
  if negb (isValidRole (r_role r)) then SFails
  else if conflicts t r then SUnique else SOk (<[r_id r := r]> t).

(** [id] is what gen_random_uuid() gives: a fresh key. *)
Definition Create (t : table) (email name role : string) (id : N) (now : Z) (f : bool)
    : table * option user_error :=
  if f then (t, Some ErrDB) else
  match put_row t (mkUserRow id email (Some name) role None None None None None now now) with
  | SOk t' => (t', None)
  | SUnique => (t, Some ErrDuplicateEmail)
  | SFails => (t, Some ErrDB)
  end.

Definition update_by_id (t : table) (id : N) (upd : UserRow → UserRow) (f : bool)
    : table * option user_error :=
  if f then (t, Some ErrDB) else
  match t !! id with
  | None => (t, Some ErrUserNotFound)
  | Some r => (<[id := upd r]> t, None)
  end.

Definition set_role (role : string) (now : Z) (r : UserRow) : UserRow :=
  mkUserRow (r_id r) (r_email r) (r_name r) role (r_provider r) (r_provider_id r) (r_avatar_url r)
    (r_password_hash r) (r_last_login_at r) (r_created_at r) now.
Definition set_login (now : Z) (r : UserRow) : UserRow :=
  mkUserRow (r_id r) (r_email r) (r_name r) (r_role r) (r_provider r) (r_provider_id r)
    (r_avatar_url r) (r_password_hash r) (Some now) (r_created_at r) now.
Definition set_hash (h : string) (now : Z) (r : UserRow) : UserRow :=
  mkUserRow (r_id r) (r_email r) (r_name r) (r_role r) (r_provider r) (r_provider_id r)
    (r_avatar_url r) (Some h) (r_last_login_at r) (r_created_at r) now.

Definition UpdateRole (t : table) (id : N) (role : string) (now : Z) (f : bool)
    : table * option user_error :=
  if negb (isValidRole role) then (t, Some InvalidRole)
  else update_by_id t id (set_role role now) f.

Definition UpdateLastLogin (t : table) (id : N) (now : Z) (f : bool) :=
  update_by_id t id (set_login now) f.

Definition Delete (t : table) (id : N) (f : bool) : table * option user_error :=
  if f then (t, Some ErrDB) else
  match t !! id with None => (t, Some ErrUserNotFound) | Some _ => (delete id t, None) end.

(** The two statements, by (provider, provider_id). [f1] and [f2] are failures
    of the first query and of the second statement. *)
Definition UpsertFromOIDC (t : table) (provider providerID email name avatarURL : string)
    (id : N) (now : Z) (f1 f2 : bool) : table * result user_error User :=
  match GetByProviderID t provider providerID f1 with
  | Err e =>
      match e with
      | ErrUserNotFound =>
          if f2 then (t, Err ErrDB) else
          let r := mkUserRow id email (Some name) "viewer" (Some provider) (Some providerID)
                     (Some avatarURL) None (Some now) now now in
          match put_row t r with
          | SOk t' => (t', scanUser (oidc_columns r))
          | SUnique => (t, Err ErrDuplicateEmail)
          | SFails => (t, Err ErrDB)
          end
      | _ => (t, Err e)
      end
  | Ok existing =>
      if f2 then (t, Err ErrDB) else
      match t !! ID existing with
      | None => (t, Err ErrDB)
      | Some r0 =>
          let r := mkUserRow (r_id r0) email (Some name) (r_role r0) (r_provider r0)
                     (r_provider_id r0) (Some avatarURL) (r_password_hash r0) (Some now)
                     (r_created_at r0) now in
          match put_row t r with
          | SOk t' => (t', scanUser (oidc_columns r))
          | SUnique | SFails => (t, Err ErrDB)
          end
      end
  end.

Section Passwords.
(** golang.org/x/crypto/bcrypt; [salt] is the randomness of a hash. *)
Variable bcrypt_Generate : string → string → option string.
Variable bcrypt_Compare : string → string → bool.

Definition HashPassword (password salt : string) : result user_error string :=
  if Z.of_nat (String.length password) <? 8 then Err PasswordTooShort
  else match bcrypt_Generate salt password with None => Err HashFailed | Some h => Ok h end.

Definition SetPassword (t : table) (userID : N) (password salt : string) (now : Z) (f : bool)
    : table * option user_error :=
  match HashPassword password salt with
  | Err e => (t, Some e)
  | Ok h => update_by_id t userID (set_hash h now) f
  end.

(** Any failure of the lookup is reported as a missing user; the result of
    [UpdateLastLogin] is ignored. *)
Definition VerifyPassword (t : table) (email password : string) (now : Z) (f1 f2 : bool)
    : table * result user_error User :=
  match GetByEmail t email f1 with
  | Err _ => (t, Err ErrUserNotFound)
  | Ok user =>
      match PasswordHash user with
      | None => (t, Err PasswordNotSet)
      | Some h =>
          if String.eqb h "" then (t, Err PasswordNotSet)
          else if negb (bcrypt_Compare h password) then (t, Err InvalidPassword)
          else ((UpdateLastLogin t (ID user) now f2).1, Ok user)
      end
  end.
End Passwords.

(** INSERT ... ON CONFLICT (email) DO UPDATE. *)
Definition CreateWithPassword (t : table) (email name role passwordHash : string)
    (id : N) (now : Z) (f : bool) : table * result user_error User :=
  if f || negb (isValidRole role) then (t, Err ErrDB) else
  let r := match filter (λ r, r_email r = email) (map_to_list t).*2 with
           | [] => mkUserRow id email (Some name) role (Some "local") (Some email) (Some "")
                     (Some passwordHash) None now now
           | k :: _ => mkUserRow (r_id k) (r_email k) (r_name k) (r_role k) (Some "local")
                         (Some email) (r_avatar_url k) (Some passwordHash) (r_last_login_at k)
                         (r_created_at k) now
           end in
  match put_row t r with
  | SOk t' => (t', scanUser (userColumns r))
  | SUnique => (t, Err ErrUnique)
  | SFails => (t, Err ErrDB)
  end.

(** ** Lemmas *)

(** Rows carry their key, and emails are unique. *)
Definition users_wf (t : table) : Prop :=
  (∀ id r, t !! id = Some r → r_id r = id ∧ isValidRole (r_role r) = true) ∧
  (∀ i j a b, t !! i = Some a → t !! j = Some b → r_email a = r_email b → i = j).

Lemma elem_of_users t r : users_wf t → r ∈ (map_to_list t).*2 ↔ t !! r_id r = Some r.
Proof.
  intros [Hk _]. rewrite list_elem_of_fmap. split.
  - intros ([id r'] & -> & H%elem_of_map_to_list). simpl. by destruct (Hk _ _ H) as [-> _].
  - intros H. exists (r_id r, r). split; [done|]. by apply elem_of_map_to_list.
Qed.

Lemma conflicts_false t r :
  conflicts t r = false ↔ ∀ k, k ∈ (map_to_list t).*2 → ¬ clash k r.
Proof.
  unfold conflicts. rewrite <-not_true_iff_false, existsb_exists. split.
  - intros H k Hk Hc. apply H. exists k. split; [by apply list_elem_of_In|by apply bool_decide_eq_true].
  - intros H (k & Hk%list_elem_of_In & Hc%bool_decide_eq_true). by apply (H k).
Qed.

Lemma put_row_SOk t r t' :
  put_row t r = SOk t' → t' = <[r_id r := r]> t ∧ isValidRole (r_role r) = true ∧
    ∀ k, k ∈ (map_to_list t).*2 → ¬ clash k r.
Proof.
  unfold put_row. destruct (isValidRole (r_role r)); [|done]. simpl.
  destruct (conflicts t r) eqn:Hc; [done|]. intros [= <-]. by rewrite conflicts_false in Hc.
Qed.

Lemma put_row_wf t r t' : users_wf t → put_row t r = SOk t' → users_wf t'.
Proof.
  intros Hwf (-> & Hrole & Hno)%put_row_SOk. destruct Hwf as [Hk Hu]. pose proof (conj Hk Hu) as Hwf.
  assert (∀ j b, j ≠ r_id r → t !! j = Some b → r_email b ≠ r_email r) as Hd.
  { intros j b Hj Hb He. destruct (Hk _ _ Hb) as [Hid _]. apply (Hno b).
    - apply elem_of_users; [done|]. by rewrite Hid.
    - split; [congruence|by left]. }
  split.
  - intros id r'. rewrite lookup_insert_Some. intros [[<- <-]|[_ ?]]; eauto.
  - intros i j a b. rewrite !lookup_insert_Some.
    intros [[<- <-]|[Hi Ha]] [[<- <-]|[Hj Hb]] He; try done; try by eapply Hu.
    + by destruct (Hd j b).
    + by destruct (Hd i a).
Qed.

Lemma filter_email_unique t email r :
  users_wf t → t !! r_id r = Some r → r_email r = email →
  filter (λ r, r_email r = email) (map_to_list t).*2 = [r].
Proof.
  intros Hwf Hr He. pose proof Hwf as [Hk Hu].
  set (l := filter _ _). assert (∀ x, x ∈ l ↔ x = r) as Hl.
  { intros x. unfold l. rewrite list_elem_of_filter, (elem_of_users t x Hwf). split.
    - intros [Hx Ht]. pose proof (Hu _ _ _ _ Ht Hr ltac:(congruence)) as Hid. congruence.
    - by intros ->. }
  assert (NoDup l) as Hnd.
  { apply NoDup_filter. apply NoDup_fmap_1 with (f := r_id).
    rewrite <-list_fmap_compose. erewrite list_fmap_ext; [apply NoDup_fst_map_to_list|].
    intros i [id x] Hx%list_elem_of_lookup_2%elem_of_map_to_list. simpl. by apply Hk in Hx as [-> _]. }
  apply Permutation_singleton_r. apply NoDup_Permutation; [done|apply NoDup_singleton|].
  intros x. by rewrite Hl, list_elem_of_singleton.
Qed.

Lemma scanUser_error r e : scanUser (userColumns r) = Err e → e = ErrScan.
Proof. destruct r as [? ? [] ? [] [] [] ? ? ? ?]; simpl; congruence. Qed.

(** One row that does not scan spoils a listing. *)
Lemma scan_users_stuck r l :
  scanUser (userColumns r) = Err ErrScan → r ∈ l → scan_users l = Err ErrScan.
Proof.
  intros Hr. induction l as [|a l IH]; [by intros ?%elem_of_nil|].
  intros Hin. cbn [scan_users]. destruct (scanUser (userColumns a)) as [u|e] eqn:Ha.
  - apply elem_of_cons in Hin as [<-|Hin]; [congruence|]. by rewrite (IH Hin).
  - by apply scanUser_error in Ha as ->.
Qed.

Lemma oidc_row_unscannable r : scanUser (oidc_columns r) = Err ErrScan.
Proof. by destruct r as [? ? [] ? [] [] [] ? ? ? ?]. Qed.

(** ** Properties *)

(** What a failure-free session of writes may do. *)
Inductive user_op :=
  | UCreate (email name role : string) (id : N) (now : Z) (f : bool)
  | UCreateWithPassword (email name role hash : string) (id : N) (now : Z) (f : bool)
  | UUpsert (provider pid email name avatar : string) (id : N) (now : Z) (f1 f2 : bool)
  | UUpdateRole (id : N) (role : string) (now : Z) (f : bool)
  | UUpdateLastLogin (id : N) (now : Z) (f : bool)
  | USetHash (id : N) (h : string) (now : Z) (f : bool)
  | UDelete (id : N) (f : bool).

(** gen_random_uuid() does not collide with a key of the table. *)
Definition fresh_id (t : table) (o : user_op) : Prop :=
  match o with
  | UCreate _ _ _ id _ _ | UCreateWithPassword _ _ _ _ id _ _ | UUpsert _ _ _ _ _ id _ _ _ => t !! id = None
  | _ => True
  end.

Definition user_step (t : table) (o : user_op) : table :=
  match o with
  | UCreate email name role id now f => (Create t email name role id now f).1
  | UCreateWithPassword email name role h id now f =>
      (CreateWithPassword t email name role h id now f).1
  | UUpsert p pid email name avatar id now f1 f2 =>
      (UpsertFromOIDC t p pid email name avatar id now f1 f2).1
  | UUpdateRole id role now f => (UpdateRole t id role now f).1
  | UUpdateLastLogin id now f => (UpdateLastLogin t id now f).1
  | USetHash id h now f => (update_by_id t id (set_hash h now) f).1
  | UDelete id f => (Delete t id f).1
  end.

Lemma update_by_id_wf t id upd f :
  users_wf t →
  (∀ r, r_id (upd r) = r_id r ∧ r_email (upd r) = r_email r ∧
        (isValidRole (r_role r) = true → isValidRole (r_role (upd r)) = true)) →
  users_wf (update_by_id t id upd f).1.
Proof.
  intros [Hk Hu] Hupd. unfold update_by_id. destruct f; [done|].
  destruct (t !! id) as [r|] eqn:Hr; [|done]. simpl.
  destruct (Hk _ _ Hr) as [Hid Hrole]. destruct (Hupd r) as (Hi & He & Hro). split.
  - intros j b. rewrite lookup_insert_Some. intros [[<- <-]|[_ ?]]; [|by eauto].
    rewrite Hi. eauto.
  - intros i j a b. rewrite !lookup_insert_Some.
    intros [[<- <-]|[Hni Ha]] [[<- <-]|[Hnj Hb]] Heq; try done; try by eapply Hu.
    + rewrite He in Heq. by destruct Hnj; eapply Hu.
    + rewrite He in Heq. destruct Hni. symmetry. by eapply Hu.
Qed.

Lemma put_row_step t r : users_wf t →
  users_wf (match put_row t r with SOk t' => t' | _ => t end).
Proof. intros Hwf. destruct (put_row t r) eqn:Hp; [by eapply put_row_wf|done..]. Qed.

Lemma user_step_wf t o : users_wf t → users_wf (user_step t o).
Proof.
  intros Hwf. destruct o; simpl.
  - unfold Create. destruct f; [done|].
    match goal with |- context [put_row t ?r] => pose proof (put_row_step t r Hwf) end.
    by destruct (put_row _ _).
  - unfold CreateWithPassword. destruct (f || _); [done|].
    match goal with |- context [put_row t ?r] => pose proof (put_row_step t r Hwf) end.
    by destruct (put_row _ _).
  - unfold UpsertFromOIDC. destruct (GetByProviderID _ _ _ _) as [u|[]]; try done.
    + destruct f2; [done|]. destruct (t !! ID u) as [r0|]; [|done].
      match goal with |- context [put_row t ?r] => pose proof (put_row_step t r Hwf) end.
      by destruct (put_row _ _).
    + destruct f2; [done|].
      match goal with |- context [put_row t ?r] => pose proof (put_row_step t r Hwf) end.
      by destruct (put_row _ _).
  - unfold UpdateRole. destruct (isValidRole role) eqn:Hr; simpl; [|done].
    apply update_by_id_wf; [done|]. intros r. by split_and!.
  - apply update_by_id_wf; [done|]. intros r. by split_and!.
  - apply update_by_id_wf; [done|]. intros r. by split_and!.
  - unfold Delete. destruct f; [done|]. destruct (t !! id) as [r0|]; [|done]. simpl.
    destruct Hwf as [Hk Hu]. split.
    + intros id' r [_ ?]%lookup_delete_Some. eauto.
    + intros i j a b [_ ?]%lookup_delete_Some [_ ?]%lookup_delete_Some. eauto.
Qed.

(** The row a statement returns has ten cells, whatever it did. *)
Lemma UpsertFromOIDC_not_Ok t provider pid email name avatar id now f1 f2 u :
  (UpsertFromOIDC t provider pid email name avatar id now f1 f2).2 ≠ Ok u.
Proof.
  unfold UpsertFromOIDC. destruct (GetByProviderID _ _ _ _) as [x|[]]; try done.
  - destruct f2; [done|]. destruct (t !! ID x); [|done].
    destruct (put_row _ _); try done. by rewrite oidc_row_unscannable.
  - destruct f2; [done|]. by destruct (put_row _ _).
Qed.

(** signing in through OIDC never yields a user. Whatever the table, the
    claims and the failures, [UpsertFromOIDC] does not return a user: its
    RETURNING lists ten columns and the row is scanned into eleven variables.
    The write has happened all the same: a new subject gets a viewer account,
    and a known one has its email, name and avatar overwritten, with empty
    strings when the middleware calls it. *)
Theorem UpsertFromOIDC_never_Ok t provider pid email name avatar id now :
  (∀ f1 f2 u, (UpsertFromOIDC t provider pid email name avatar id now f1 f2).2 ≠ Ok u) ∧
  (GetByProviderID t provider pid false = Err ErrUserNotFound →
   ∀ t', put_row t (mkUserRow id email (Some name) "viewer" (Some provider) (Some pid)
                  (Some avatar) None (Some now) now now) = SOk t' →
   UpsertFromOIDC t provider pid email name avatar id now false false = (t', Err ErrScan)) ∧
  (∀ u r0 t', GetByProviderID t provider pid false = Ok u → t !! ID u = Some r0 →
   put_row t (mkUserRow (r_id r0) email (Some name) (r_role r0) (r_provider r0) (r_provider_id r0)
      (Some avatar) (r_password_hash r0) (Some now) (r_created_at r0) now) = SOk t' →
   UpsertFromOIDC t provider pid email name avatar id now false false = (t', Err ErrScan) ∧
   (r_email <$> t' !! r_id r0) = Some email).
Proof.
  split_and!.
  - intros f1 f2 u. apply UpsertFromOIDC_not_Ok.
  - intros Hg t' Hp. unfold UpsertFromOIDC. by rewrite Hg, Hp.
  - intros u r0 t' Hg Hr Hp. unfold UpsertFromOIDC. rewrite Hg, Hr, Hp.
    rewrite oidc_row_unscannable. split; [done|].
    apply put_row_SOk in Hp as (-> & _). simpl. by rewrite lookup_insert_eq.
Qed.

Definition alice : UserRow :=
  mkUserRow 1 "a@x" (Some "Alice") "owner" (Some "oidc") (Some "sub1") (Some "") None None 5 5.

Example UpsertFromOIDC_never_Ok_witness :
  UpsertFromOIDC {[1%N := alice]} "oidc" "sub1" "" "" "" 2 9 false false
    = (<[1%N := mkUserRow 1 "" (Some "") "owner" (Some "oidc") (Some "sub1") (Some "") None
                  (Some 9) 5 9]> {[1%N := alice]}, Err ErrScan) ∧
  (r_email <$> (<[1%N := mkUserRow 1 "" (Some "") "owner" (Some "oidc") (Some "sub1") (Some "") None
                  (Some 9) 5 9]> {[1%N := alice]} : table) !! 1%N) = Some "".
Proof.
  apply (UpsertFromOIDC_never_Ok {[1%N := alice]} "oidc" "sub1" "" "" "" 2 9)
    with (u := mkUser 1 "a@x" "Alice" "owner" "oidc" "sub1" "" None None 5 5) (r0 := alice);
    vm_compute; reflexivity.
Defined.

(** an account made with [Create] hides the whole user list. [Create]
    leaves the provider columns NULL, which [scanUser] cannot read: after it
    succeeds, [List] fails whatever other users exist, and so does every lookup
    of the new account, until the row is gone. *)
Theorem Create_breaks_List t email name role id now t' :
  users_wf t → t !! id = None → Create t email name role id now false = (t', None) →
  List_ t' false = Err ErrScan ∧ GetByEmail t' email false = Err ErrScan.
Proof.
  intros Hwf Hid H. unfold Create in H.
  set (r := mkUserRow id email (Some name) role None None None None None now now) in *.
  destruct (put_row t r) as [t''| |] eqn:Hp; try done. injection H as <-.
  pose proof (put_row_wf _ _ _ Hwf Hp) as Hwf'. pose proof (put_row_SOk _ _ _ Hp) as (-> & _).
  assert (<[r_id r := r]> t !! r_id r = Some r) as Hr by apply lookup_insert_eq. split.
  - unfold List_. apply (scan_users_stuck r); [done|].
    rewrite merge_sort_Permutation. by apply elem_of_users.
  - unfold GetByEmail, query_one. by rewrite (filter_email_unique _ email r).
Qed.

Lemma empty_users_wf : users_wf ∅.
Proof. split; intros *; by rewrite lookup_empty. Qed.

Example Create_breaks_List_witness :
  List_ (Create ∅ "b@x" "Bob" "admin" 7 3 false).1 false = Err ErrScan ∧
  GetByEmail (Create ∅ "b@x" "Bob" "admin" 7 3 false).1 "b@x" false = Err ErrScan.
Proof.
  apply (Create_breaks_List ∅ "b@x" "Bob" "admin" 7 3); [exact empty_users_wf|reflexivity..].
Defined.

(** local accounts. A password of at least eight bytes that is hashed and
    stored by [CreateWithPassword] under a new email lets exactly that account
    sign in with it: [VerifyPassword] returns the created user and stamps its
    last login; and the table keeps unique emails and valid roles whatever
    calls are made. Passwords shorter than eight bytes are refused. *)
Theorem password_roundtrip gen cmp t email name role pw salt h id now now2 t1 u :
  (∀ s p x, gen s p = Some x → cmp x p = true ∧ x ≠ "") →
  users_wf t → t !! id = None →
  HashPassword gen pw salt = Ok h →
  filter (λ r, r_email r = email) (map_to_list t).*2 = [] →
  CreateWithPassword t email name role h id now false = (t1, Ok u) →
  8 <= Z.of_nat (String.length pw) ∧ users_wf t1 ∧ Email u = email ∧ Role u = role ∧
  ∃ t2, VerifyPassword cmp t1 email pw now2 false false = (t2, Ok u) ∧ users_wf t2 ∧
    (r_last_login_at <$> t2 !! id) = Some (Some now2).
Proof.
  intros Hb Hwf Hid Hh Hnew Hc.
  assert (8 <= Z.of_nat (String.length pw) ∧ ∃ s, gen s pw = Some h) as (Hlen & s & Hg).
  { unfold HashPassword in Hh. destruct (Z.ltb_spec (Z.of_nat (String.length pw)) 8); [done|].
    split; [done|]. destruct (gen salt pw) eqn:?; [|done]. injection Hh as <-. eauto. }
  destruct (Hb _ _ _ Hg) as [Hcmp Hne].
  unfold CreateWithPassword in Hc. rewrite Hnew in Hc.
  destruct (isValidRole role) eqn:Hrole; [|done]. cbn [orb negb] in Hc.
  set (r := mkUserRow id email (Some name) role (Some "local") (Some email) (Some "") (Some h)
              None now now) in *.
  destruct (put_row t r) as [t'| |] eqn:Hp; try done.
  assert (t' = t1) as ->.
  { destruct (scanUser (userColumns r)); by injection Hc. }
  apply (f_equal snd) in Hc. cbn [snd] in Hc. rewrite <-(Ok_inj _ _ Hc).
  pose proof (put_row_wf _ _ _ Hwf Hp) as Hwf'. pose proof (put_row_SOk _ _ _ Hp) as (Ht1 & _).
  assert (t1 !! id = Some r) as Hr by (rewrite Ht1; apply lookup_insert_eq).
  split_and!; try done. exists (UpdateLastLogin t1 id now2 false).1. split; [|split].
  - unfold VerifyPassword, GetByEmail, query_one. rewrite (filter_email_unique _ email r) by done.
    cbn [scanUser userColumns]. simpl. destruct (String.eqb_spec h ""); [done|].
    rewrite Hcmp. reflexivity.
  - apply update_by_id_wf; [done|]. intros x. by split_and!.
  - unfold UpdateLastLogin, update_by_id. simpl. rewrite Hr. simpl. by rewrite lookup_insert_eq.
Qed.

Example password_roundtrip_witness :
  let gen := λ _ p : string, Some ("h" ++ p)%string in
  let cmp := λ x p : string, String.eqb x ("h" ++ p)%string in
  ∃ t2, VerifyPassword cmp
    (CreateWithPassword ∅ "c@x" "Cy" "viewer" "hpassword" 3 5 false).1 "c@x" "password" 8 false false
    = (t2, Ok (mkUser 3 "c@x" "Cy" "viewer" "local" "c@x" "" (Some "hpassword") None 5 5)) ∧
    users_wf t2 ∧ (r_last_login_at <$> t2 !! 3%N) = Some (Some 8).
Proof.
  intros gen cmp.
  apply (password_roundtrip gen cmp ∅ "c@x" "Cy" "viewer" "password" "" "hpassword" 3 5 8).
  - intros s p x [= <-]. split; [apply String.eqb_refl|done].
  - exact empty_users_wf.
  - reflexivity.
  - reflexivity.
  - reflexivity.
  - reflexivity.
Defined.

End Users.
