(* ===== verification/Auth.v ===== *)
(** * internal/auth and internal/api/middleware.go: who may call what

    - internal/auth/ratelimit.go: [Limiter];
    - internal/auth/rbac.go and context.go: [RBAC];
    - internal/auth/jwt.go: [JWT];
    - internal/api/middleware.go: [Middleware], up to the call of the next
      handler.

    Times are nanoseconds; the [time.Now()] a function reads are arguments. *)
From Stdlib Require Import Ascii.
From S2P Require Import Prelude Users.
#[local] Open Scope Z_scope.

(** ** internal/auth/ratelimit.go *)

Module Limiter.

Record tokenBucket := mkBucket {
  tokens : Z; maxTokens : Z; refillRate : Z; lastRefill : Z;
}.

Record RateLimiter := mkLimiter {
  satelliteLimits : gmap string tokenBucket;
  userLimits : gmap string tokenBucket;
}.

Definition NewRateLimiter : RateLimiter := mkLimiter ∅ ∅.
Definition Second : Z := 1000000000.

(** The part after the lookup, which both methods spell out. *)
Definition take_token (b : tokenBucket) (now : Z) : tokenBucket * bool :=
  let b := if refillRate b <=? now - lastRefill b
           then mkBucket (maxTokens b) (maxTokens b) (refillRate b) now else b in
  if 0 <? tokens b
  then (mkBucket (tokens b - 1) (maxTokens b) (refillRate b) (lastRefill b), true)
  else (b, false).

(** [created] is the clock reading when the bucket is made, [now] the one after. *)
Definition AllowSatellite (r : RateLimiter) (satelliteID : string) (created now : Z)
    : RateLimiter * bool :=
  let bucket := default (mkBucket 100 100 Second created) (satelliteLimits r !! satelliteID) in
  let '(b, ok) := take_token bucket now in
  (mkLimiter (<[satelliteID := b]> (satelliteLimits r)) (userLimits r), ok).

Definition AllowUser (r : RateLimiter) (userID : string) (created now : Z) : RateLimiter * bool :=
  let bucket := default (mkBucket 50 50 Second created) (userLimits r !! userID) in
  let '(b, ok) := take_token bucket now in
  (mkLimiter (satelliteLimits r) (<[userID := b]> (userLimits r)), ok).

(** *** A sequence of calls *)

Inductive call :=
  | CallSatellite (id : string) (created now : Z)
  | CallUser (id : string) (created now : Z).

Definition do_call (r : RateLimiter) (c : call) : RateLimiter * bool :=
  match c with
  | CallSatellite id t0 t => AllowSatellite r id t0 t
  | CallUser id t0 t => AllowUser r id t0 t
  end.

Definition do_calls (r : RateLimiter) (cs : list call) : RateLimiter :=
  foldl (λ r c, (do_call r c).1) r cs.

(** How many of the calls of one satellite are let through. *)
Fixpoint passed (r : RateLimiter) (id : string) (cs : list call) : Z :=
  match cs with
  | [] => 0
  | c :: cs' =>
      let '(r', ok) := do_call r c in
      (match c with
       | CallSatellite id' _ _ => if decide (id' = id) then if (ok : bool) then 1 else 0 else 0
       | CallUser _ _ _ => 0
       end) + passed r' id cs'
  end.

(** The clock readings of a call lie in a window. *)
Definition call_within (a b : Z) (c : call) : Prop :=
  match c with CallSatellite _ t0 t | CallUser _ t0 t => a <= t0 ∧ t0 <= t ∧ t < b end.

Definition bucket_ok (m : Z) (b : tokenBucket) : Prop :=
  0 <= tokens b <= m ∧ maxTokens b = m ∧ refillRate b = Second.

Definition limiter_ok (r : RateLimiter) : Prop :=
  (∀ id b, satelliteLimits r !! id = Some b → bucket_ok 100 b) ∧
  (∀ id b, userLimits r !! id = Some b → bucket_ok 50 b).

Lemma take_token_ok m b now :
  0 <= m → bucket_ok m b → bucket_ok m (take_token b now).1.
Proof.
  unfold take_token, bucket_ok. intros Hm (Ht & Hmx & Hr).
  destruct (refillRate b <=? now - lastRefill b); simpl; bool_cases; lia.
Qed.

Lemma default_bucket_ok m o t : 0 <= m → (∀ b, o = Some b → bucket_ok m b) →
  bucket_ok m (default (mkBucket m m Second t) o).
Proof. intros Hm H. destruct o as [b|]; simpl; [by apply H|]. unfold bucket_ok. simpl. lia. Qed.

Lemma do_call_ok r c : limiter_ok r → limiter_ok (do_call r c).1.
Proof.
  intros [Hs Hu]. destruct c as [id t0 t|id t0 t]; simpl; unfold AllowSatellite, AllowUser.
  - pose proof (take_token_ok 100 (default (mkBucket 100 100 Second t0) (satelliteLimits r !! id)) t
      ltac:(lia) (default_bucket_ok 100 _ t0 ltac:(lia) (Hs id))) as H.
    destruct (take_token _ _) as [b ok]. split; simpl; [|done].
    intros id' b'. rewrite lookup_insert_Some. naive_solver.
  - pose proof (take_token_ok 50 (default (mkBucket 50 50 Second t0) (userLimits r !! id)) t
      ltac:(lia) (default_bucket_ok 50 _ t0 ltac:(lia) (Hu id))) as H.
    destruct (take_token _ _) as [b ok]. split; simpl; [done|].
    intros id' b'. rewrite lookup_insert_Some. naive_solver.
Qed.

Lemma do_calls_ok cs : ∀ r, limiter_ok r → limiter_ok (do_calls r cs).
Proof.
  induction cs as [|c cs IH]; intros r Hr; [done|]. simpl. by apply IH, do_call_ok.
Qed.

Lemma NewRateLimiter_ok : limiter_ok NewRateLimiter.
Proof. split; intros id b; simpl; by rewrite lookup_empty. Qed.

(** What a bucket can still pay out before [a + Second]. *)
Definition budget (a : Z) (o : option tokenBucket) : Z :=
  match o with
  | None => 100
  | Some b => if a <=? lastRefill b then tokens b else tokens b + 100
  end.

Lemma take_token_budget a b now :
  bucket_ok 100 b → a <= now < a + Second →
  let '(b', ok) := take_token b now in
  (if (ok : bool) then 1 else 0) + budget a (Some b') <= budget a (Some b).
Proof.
  unfold take_token, bucket_ok, budget. intros (Ht & Hm & Hr) Hn. rewrite Hr.
  destruct (Z.leb_spec Second (now - lastRefill b)) as [Hre|Hre]; simpl; rewrite ?Hm.
  - change (0 <? 100) with true. simpl.
    destruct (Z.leb_spec a (lastRefill b)); [lia|]. destruct (Z.leb_spec a now); lia.
  - destruct (Z.ltb_spec 0 (tokens b)); simpl; destruct (Z.leb_spec a (lastRefill b)); lia.
Qed.

Lemma passed_budget a id cs : ∀ r,
  limiter_ok r → Forall (call_within a (a + Second)) cs →
  0 <= passed r id cs <= budget a (satelliteLimits r !! id).
Proof.
  induction cs as [|c cs IH]; intros r Hr Hcs; simpl.
  { destruct Hr as [Hs _]. unfold budget. destruct (satelliteLimits r !! id) as [b|] eqn:Hb; [|lia].
    pose proof (Hs _ _ Hb) as (Ht & _). destruct (a <=? lastRefill b); lia. }
  apply Forall_cons in Hcs as [Hc Hcs]. pose proof (do_call_ok r c Hr) as Hr'.
  pose proof (IH (do_call r c).1 Hr' Hcs) as IH'.
  destruct c as [id' t0 t|id' t0 t]; simpl in *.
  2:{ unfold AllowUser in *. destruct (take_token _ _). simpl in *. lia. }
  unfold AllowSatellite in *. destruct Hr as [Hs _]. unfold budget in *.
  pose proof (take_token_budget a (default (mkBucket 100 100 Second t0) (satelliteLimits r !! id')) t
    (default_bucket_ok 100 _ t0 ltac:(lia) (Hs id'))) as Hb.
  destruct Hc as (Hc1 & Hc2 & Hc3). specialize (Hb (conj (Z.le_trans _ _ _ Hc1 Hc2) Hc3)).
  destruct (take_token _ _) as [b ok]. simpl in *. case_decide as Hid; [subst id'|].
  - rewrite lookup_insert_eq in IH'. destruct (satelliteLimits r !! id) as [b0|] eqn:Hb0; simpl in Hb.
    + destruct ok; lia.
    + destruct (Z.leb_spec a t0); [|lia]. destruct ok; lia.
  - rewrite lookup_insert_ne in IH' by done. lia.
Qed.

(** Calls of a satellite that has been quiet for a second. *)
Fixpoint burst (r : RateLimiter) (id : string) (ts : list Z) : list bool :=
  match ts with
  | [] => []
  | t :: ts' => let '(r', ok) := AllowSatellite r id t t in ok :: burst r' id ts'
  end.

Lemma burst_tokens id ts : ∀ r b,
  satelliteLimits r !! id = Some b → bucket_ok 100 b → Z.of_nat (length ts) <= tokens b →
  burst r id ts = replicate (length ts) true.
Proof.
  induction ts as [|t ts IH]; intros r b Hb Hok Hlen; [done|].
  cbn [length] in Hlen. cbn [burst length replicate]. unfold AllowSatellite. rewrite Hb. simpl.
  destruct Hok as (Ht & Hm & Hr). unfold take_token. rewrite Hr.
  destruct (Z.leb_spec Second (t - lastRefill b)); simpl.
  - rewrite Hm. destruct (Z.ltb_spec 0 100); [|lia]. f_equal.
    eapply IH; [apply lookup_insert_eq|by unfold bucket_ok; simpl; lia|simpl; lia].
  - destruct (Z.ltb_spec 0 (tokens b)); [|lia]. f_equal.
    eapply IH; [apply lookup_insert_eq|by unfold bucket_ok; simpl; lia|simpl; lia].
Qed.

(** the rate limit of a satellite. Whatever calls of satellites and users
    came before, in any window of one second at most 200 requests of a
    satellite are let through (100 saved up and one refill), and requests of
    others do not count against it; and a satellite whose last refill is at
    least a second old, or that is new, gets its next 100 requests through,
    at whatever times they come. *)
Theorem satellite_rate pre a id win :
  Forall (call_within a (a + Second)) win →
  let r := do_calls NewRateLimiter pre in
  0 <= passed r id win <= 200 ∧
  ∀ t ts, (∀ b, satelliteLimits r !! id = Some b → Second <= t - lastRefill b) →
    Z.of_nat (length ts) <= 99 → burst r id (t :: ts) = replicate (S (length ts)) true.
Proof.
  intros Hwin r. pose proof (do_calls_ok pre _ NewRateLimiter_ok) as Hr. fold r in Hr. split.
  - pose proof (passed_budget a id win r Hr Hwin) as H. destruct Hr as [Hs _].
    unfold budget in H. destruct (satelliteLimits r !! id) as [b|] eqn:Hb; [|lia].
    pose proof (Hs _ _ Hb) as (Ht & _). destruct (a <=? lastRefill b); lia.
  - intros t ts Hold Hlen. cbn [burst]. unfold AllowSatellite.
    assert ((take_token (default (mkBucket 100 100 Second t) (satelliteLimits r !! id)) t) =
      (mkBucket 99 100 Second t, true)) as ->.
    { unfold take_token. destruct Hr as [Hs _].
      destruct (satelliteLimits r !! id) as [b|] eqn:Hb; simpl.
      - pose proof (Hs _ _ Hb) as (_ & Hm & Hrr). specialize (Hold _ eq_refl).
        rewrite Hrr, Hm. destruct (Z.leb_spec Second (t - lastRefill b)); [done|lia].
      - rewrite Z.sub_diag. done. }
    cbn [replicate]. f_equal. eapply burst_tokens; [apply lookup_insert_eq| |done].
    unfold bucket_ok. simpl. lia.
Qed.

Example satellite_rate_witness :
  let r := do_calls NewRateLimiter [CallSatellite "s" 0 5; CallUser "s" 6 6] in
  0 <= passed r "s" [CallSatellite "s" 10 10; CallSatellite "t" 11 12; CallSatellite "s" 20 21] <= 200 ∧
  ∀ t ts, (∀ b, satelliteLimits r !! "s" = Some b → Second <= t - lastRefill b) →
    Z.of_nat (length ts) <= 99 → burst r "s" (t :: ts) = replicate (S (length ts)) true.
Proof.
  apply (satellite_rate [CallSatellite "s" 0 5; CallUser "s" 6 6] 10 "s").
  repeat constructor; vm_compute; discriminate || reflexivity.
Defined.

End Limiter.

(** ** internal/auth/rbac.go, context.go *)

Module RBAC.

Definition RoleLevel (role : string) : Z :=
  if String.eqb role "viewer" then 0
  else if String.eqb role "admin" then 1
  else if String.eqb role "owner" then 2
  else -1.

Definition HasPermission (userRole requiredRole : string) : bool :=
  RoleLevel requiredRole <=? RoleLevel userRole.

Record AuthUser := mkAuthUser {
  ID : string; Email : string; Name : string; Role : string; AvatarURL : string;
}.

(** What a handler chain does with a request: a status with the JSON object
    whose [error] field is the text, or the next handler with the user of the
    request context. *)
Inductive outcome :=
  | Respond (status : Z) (body : string)
  | Next (user : option AuthUser).

Definition RequireRole (minRole : string) (user : option AuthUser) : outcome :=
  match user with
  | None => Respond 401 "unauthorized"
  | Some u => if negb (HasPermission (Role u) minRole) then Respond 403 "forbidden"
              else Next (Some u)
  end.

(** role checks. For a known required role, exactly the users at or above it
    in viewer < admin < owner pass and an unknown user role never does; without
    a user the answer is 401. The check fails open for a required role it does
    not know: then every user passes, whatever their role. *)
Theorem RequireRole_spec minRole user :
  (minRole ∈ Users.ValidRoles →
   RequireRole minRole user =
     match user with
     | None => Respond 401 "unauthorized"
     | Some u =>
         if decide (minRole = "viewer" ∧ Role u ∈ ["viewer"; "admin"; "owner"] ∨
                    minRole = "admin" ∧ Role u ∈ ["admin"; "owner"] ∨
                    minRole = "owner" ∧ Role u = "owner")
         then Next user else Respond 403 "forbidden"
     end) ∧
  (minRole ∉ Users.ValidRoles → ∀ u, RequireRole minRole (Some u) = Next (Some u)).
Proof.
  assert (∀ s, s ∈ Users.ValidRoles ↔ 0 <= RoleLevel s) as Hv.
  { intros s. unfold RoleLevel, Users.ValidRoles. rewrite !elem_of_cons, elem_of_nil.
    destruct (String.eqb_spec s "viewer"), (String.eqb_spec s "admin"), (String.eqb_spec s "owner");
      subst; simpl; split; intros; try tauto; try lia; naive_solver. }
  split.
  - intros Hm. destruct user as [u|]; [|done]. unfold RequireRole, HasPermission.
    unfold Users.ValidRoles in Hm. rewrite !elem_of_cons, elem_of_nil in Hm.
    unfold RoleLevel at 2.
    destruct (String.eqb_spec (Role u) "viewer"), (String.eqb_spec (Role u) "admin"),
      (String.eqb_spec (Role u) "owner"); destruct_or! Hm; subst minRole; try congruence;
      simpl; case_decide as Hd; rewrite ?elem_of_cons, ?elem_of_nil in Hd; try done; naive_solver.
  - intros Hm u. rewrite Hv in Hm. unfold RequireRole, HasPermission.
    destruct (Z.leb_spec (RoleLevel minRole) (RoleLevel (Role u))) as [|Hlt]; [done|].
    assert (-1 <= RoleLevel (Role u) ∧ -1 <= RoleLevel minRole)
      by (unfold RoleLevel; repeat case_match; lia). lia.
Qed.

Example RequireRole_spec_witness :
  RequireRole "adminn" (Some (mkAuthUser "1" "" "" "nobody" "")) = Next (Some (mkAuthUser "1" "" "" "nobody" "")).
Proof.
  assert (bool_decide ("adminn" ∈ Users.ValidRoles) = false) as Hn by reflexivity.
  apply bool_decide_eq_false in Hn. exact (proj2 (RequireRole_spec "adminn" None) Hn _).
Defined.

End RBAC.

(** ** internal/auth/jwt.go *)

Module JWT.

(** The signing method of a token, as far as the code distinguishes it. *)
Inductive SigningMethod := HS256 | RS256 | OtherMethod.

Record UserClaims := mkClaims {
  UserID : string; ClaimRole : string; SatelliteID : string;
  Issuer : string; Subject : string; ExpiresAt : option Z;
}.

Inductive auth_error := ErrTokenExpired | ErrTokenInvalid.

(** What github.com/golang-jwt/jwt reports when it refuses a token. *)
Inductive lib_error := LibExpired | LibOther.

Section JWT.
(** [jwt.ParseWithClaims] with the two options the code passes: the key
    function decides the key from the method; the library checks signature,
    issuer and a mandatory expiry at the time [now]. *)
Variable ParseWithClaims :
  ∀ (tokenString : string) (keyfunc : SigningMethod → option string) (issuer : string) (now : Z),
    result lib_error UserClaims.

Record JWTTokenValidator := mkValidator { jwtSecret : string; issuer : string }.

Definition keyfunc (v : JWTTokenValidator) (m : SigningMethod) : option string :=
  match m with
  | HS256 => Some (jwtSecret v)
  | RS256 => None
  | OtherMethod => None
  end.

Definition Validate (v : JWTTokenValidator) (tokenString : string) (now : Z)
    : result auth_error UserClaims :=
  if String.eqb tokenString "" then Err ErrTokenInvalid else
  match ParseWithClaims tokenString (keyfunc v) (issuer v) now with
  | Err LibExpired => Err ErrTokenExpired
  | Err LibOther => Err ErrTokenInvalid
  | Ok claims =>
      if String.eqb (Subject claims) "" then Err ErrTokenInvalid
      else Ok (mkClaims (Subject claims) (ClaimRole claims) (SatelliteID claims) (Issuer claims)
                 (Subject claims) (ExpiresAt claims))
  end.
End JWT.

End JWT.

(** ** internal/api/middleware.go *)

Module Middleware.
Import RBAC JWT.

(** [strings.EqualFold] against an ASCII word: besides the ASCII letters, only
    U+017F folds to s and U+212A to k. *)
Definition lower_ascii (c : ascii) : ascii :=
  let n := nat_of_ascii c in
  if (65 <=? n)%nat && (n <=? 90)%nat then ascii_of_nat (n + 32) else c.

Fixpoint fold_ascii (s : string) : string :=
  match s with
  | String "197" (String "191" s') => String "s" (fold_ascii s')
  | String "226" (String "132" (String "170" s')) => String "k" (fold_ascii s')
  | String c s' => String (lower_ascii c) (fold_ascii s')
  | EmptyString => EmptyString
  end.

Definition EqualFold_websocket (s : string) : bool := String.eqb (fold_ascii s) "websocket".

(** The parts of a request the middleware reads. [peer] is the first peer
    certificate of a TLS connection, with its common name. *)
Record request (Cert : Type) := mkRequest {
  path : string; upgrade : string; peer : option (Cert * string);
  authorization : string; cookie : option string;
}.
Arguments mkRequest {Cert}.
Arguments path {Cert}. Arguments upgrade {Cert}. Arguments peer {Cert}.
Arguments authorization {Cert}. Arguments cookie {Cert}.

Section Middleware.
Context {Cert : Type}.
Variable ParseWithClaims :
  ∀ (tokenString : string) (keyfunc : SigningMethod → option string) (issuer : string) (now : Z),
    result lib_error UserClaims.
(** [CertValidator.Validate], [uuid.Parse] and [uuid.UUID.String]. *)
Variable cert_ok : Cert → bool.
Variable uuid_Parse : string → option N.
Variable uuid_String : N → string.

(** [oidc] is whether OIDC_ISSUER_URL is set; [hasDB] whether dbPool is not
    nil, and [users] its table of users. *)
Record config := mkConfig {
  validator : JWTTokenValidator; oidc : bool; hasLimiter : bool; hasDB : bool;
}.

Record world := mkWorld { limiter : Limiter.RateLimiter; users : gmap N Users.UserRow }.

(** Clock readings, the key a new row would get and the failures of the two
    database calls. *)
Record env := mkEnv { now : Z; new_id : N; f1 : bool; f2 : bool }.

Definition to_auth_user (u : Users.User) : AuthUser :=
  mkAuthUser (uuid_String (Users.ID u)) (Users.Email u) (Users.Name u) (Users.Role u)
    (Users.AvatarURL u).

(** The first owner in the order of [List]. *)
Definition first_owner (us : list Users.User) : option AuthUser :=
  to_auth_user <$> head (filter (λ u, Users.Role u = "owner") us).

(** [authHeader] after the cookie fallback and the normalisation. *)
Definition auth_header (r : request Cert) : string :=
  let h := if String.eqb (authorization r) ""
           then match cookie r with Some v => ("Bearer " ++ v)%string | None => "" end
           else authorization r in
  if String.eqb h "Bearer null" || String.eqb h "Bearer undefined" then "" else h.

Definition exempt (r : request Cert) : bool :=
  String.eqb (path r) "/health" || String.eqb (path r) "/metrics"
  || String.eqb (path r) "/api/v1/auth/login".

Definition AuthMiddleware (c : config) (w : world) (r : request Cert) (e : env) : world * outcome :=
  if exempt r then (w, Next None)
  else if EqualFold_websocket (upgrade r) then (w, Next None)
  else match peer r with
  | Some (cert, satelliteID) =>
      if negb (cert_ok cert) then (w, Respond 401 "invalid satellite certificate") else
      if hasLimiter c then
        let '(l, ok) := Limiter.AllowSatellite (limiter w) satelliteID (now e) (now e) in
        (mkWorld l (users w), if (ok : bool) then Next None else Respond 429 "rate limit exceeded")
      else (w, Next None)
  | None =>
      let authHeader := auth_header r in
      if String.eqb authHeader "" || (Z.of_nat (String.length authHeader) <? 8) then
        if oidc c then (w, Respond 401 "authentication required") else
        if hasDB c then
          match Users.List_ (users w) (f1 e) with
          | Ok us => (w, Next (first_owner us))
          | Err _ => (w, Next None)
          end
        else (w, Next None)
      else
        let token := String.substring 7 (String.length authHeader - 7) authHeader in
        match Validate ParseWithClaims (validator c) token (now e) with
        | Err _ => (w, Respond 401 "invalid token")
        | Ok claims =>
            let '(l, ok) := if hasLimiter c
                            then Limiter.AllowUser (limiter w) (UserID claims) (now e) (now e)
                            else (limiter w, true) in
            if negb ok then (mkWorld l (users w), Respond 429 "rate limit exceeded") else
            if hasDB c then
              if oidc c then
                let '(us, u) := Users.UpsertFromOIDC (users w) "oidc" (Subject claims) "" "" ""
                                  (new_id e) (now e) (f1 e) (f2 e) in
                (mkWorld l us, Next (match u with Ok u => Some (to_auth_user u) | Err _ => None end))
              else
                (mkWorld l (users w),
                 Next (match uuid_Parse (Subject claims) with
                       | None => None
                       | Some id => match Users.GetByID (users w) id (f1 e) with
                                    | Ok u => Some (to_auth_user u)
                                    | Err _ => None
                                    end
                       end))
            else (mkWorld l (users w), Next None)
        end
  end.

(** What the library documents of an accepted token. *)
Definition parse_sound : Prop := ∀ tok kf iss t claims,
  ParseWithClaims tok kf iss t = Ok claims →
  (∃ m key, kf m = Some key) ∧ Issuer claims = iss ∧
  ∃ x, ExpiresAt claims = Some x ∧ t < x.

Lemma exempt_paths r : exempt r = true → path r ∈ ["/health"; "/metrics"; "/api/v1/auth/login"].
Proof.
  unfold exempt. rewrite !orb_true_iff, !String.eqb_eq, !elem_of_cons. tauto.
Qed.

(** C24: what it takes to get past the middleware when OIDC is configured. The
    next handler runs only for the three exempt paths, for a request that says
    [Upgrade: websocket] (on ANY path, without a token), for a connection with
    a valid client certificate, or with a bearer token (from the header or the
    cookie) that the library accepts for our issuer, not expired and with a
    subject. And in no OIDC request does the handler learn who the user is. *)
Theorem oidc_gate c w r e :
  parse_sound → oidc c = true →
  ∀ w' u, AuthMiddleware c w r e = (w', Next u) →
  u = None ∧
  (path r ∈ ["/health"; "/metrics"; "/api/v1/auth/login"] ∨
   EqualFold_websocket (upgrade r) = true ∨
   (∃ cert name, peer r = Some (cert, name) ∧ cert_ok cert = true) ∨
   (peer r = None ∧ ∃ claims x, ParseWithClaims
      (String.substring 7 (String.length (auth_header r) - 7) (auth_header r))
      (keyfunc (validator c)) (issuer (validator c)) (now e) = Ok claims ∧
      Issuer claims = issuer (validator c) ∧ Subject claims ≠ "" ∧
      ExpiresAt claims = Some x ∧ now e < x)).
Proof.
  intros Hlib Hoidc w' u. unfold AuthMiddleware.
  destruct (exempt r) eqn:Hex; [intros [= _ <-]; split; [done|by left; apply exempt_paths]|].
  destruct (EqualFold_websocket (upgrade r)) eqn:Hup; [intros [= _ <-]; by auto|].
  destruct (peer r) as [[cert name]|] eqn:Hp.
  - destruct (cert_ok cert) eqn:Hcert; [|done]. cbn [negb]. intros H. split.
    + destruct (hasLimiter c); [|by injection H]. destruct (Limiter.AllowSatellite _ _ _ _) as [l []];
        by injection H.
    + right; right; left; eauto.
  - rewrite Hoidc. destruct (_ || _); [done|].
    unfold Validate. set (tok := String.substring _ _ _). destruct (String.eqb tok ""); [done|].
    destruct (ParseWithClaims tok _ _ _) as [claims|[]] eqn:Hparse; try done.
    destruct (String.eqb_spec (Subject claims) ""); [done|]. cbn [UserID Subject].
    destruct (if hasLimiter c then _ else _) as [l ok].
    destruct ok; cbn [negb]; [|done]. destruct (Hlib _ _ _ _ _ Hparse) as (_ & Hiss & x & Hx & Hlt).
    intros H. split.
    + destruct (hasDB c); [|by injection H].
      destruct (Users.UpsertFromOIDC _ _ _ _ _ _ _ _ _ _) as [us [v|err]] eqn:Hu.
      * destruct (Users.UpsertFromOIDC_not_Ok (users w) "oidc" (Subject claims) "" "" "" (new_id e)
          (now e) (f1 e) (f2 e) v). by rewrite Hu.
      * by injection H.
    + right; right; right. split; [done|]. exists claims, x. by split_and!.
Qed.

(** without OIDC and without a bearer token the middleware lets everyone
    in as the owner: the handler runs with the first owner of the user list,
    or without a user when there is none or the list cannot be read. A bearer
    token that does not validate is refused also then. *)
Theorem local_gate c w r e :
  oidc c = false → exempt r = false → EqualFold_websocket (upgrade r) = false → peer r = None →
  (auth_header r = "" → AuthMiddleware c w r e =
     (w, Next (if hasDB c then match Users.List_ (users w) (f1 e) with
                               | Ok us => first_owner us | Err _ => None end else None))) ∧
  (∀ u, hasDB c = true → auth_header r = "" → (AuthMiddleware c w r e).2 = Next (Some u) →
     Role u = "owner") ∧
  (8 <= Z.of_nat (String.length (auth_header r)) →
     ParseWithClaims (String.substring 7 (String.length (auth_header r) - 7) (auth_header r))
       (keyfunc (validator c)) (issuer (validator c)) (now e) = Err LibExpired →
     AuthMiddleware c w r e = (w, Respond 401 "invalid token")).
Proof.
  intros Hoidc Hex Hup Hp.
  assert (auth_header r = "" → AuthMiddleware c w r e =
     (w, Next (if hasDB c then match Users.List_ (users w) (f1 e) with
                               | Ok us => first_owner us | Err _ => None end else None))) as Hno.
  { intros Hh. unfold AuthMiddleware. rewrite Hex, Hup, Hp, Hh, Hoidc. simpl.
    destruct (hasDB c); [|done]. by destruct (Users.List_ _ _). }
  split_and!; [done| |].
  - intros u Hdb Hh. rewrite Hno by done. rewrite Hdb. simpl. intros [= H].
    destruct (Users.List_ _ _) as [us|]; [|done]. unfold first_owner in H.
    apply fmap_Some in H as (x & Hx & ->). simpl. apply head_Some_elem_of in Hx.
    by apply list_elem_of_filter in Hx as [? _].
  - intros Hlen Hparse. unfold AuthMiddleware. rewrite Hex, Hup, Hp. unfold Validate. rewrite Hparse.
    destruct (String.eqb_spec (auth_header r) "") as [H0|]; [rewrite H0 in Hlen; simpl in Hlen; lia|].
    destruct (Z.ltb_spec (Z.of_nat (String.length (auth_header r))) 8); [lia|]. simpl.
    by destruct (String.eqb _ "").
Qed.

End Middleware.

Definition demo_parse (tok : string) (kf : SigningMethod → option string) (iss : string) (t : Z)
    : result lib_error UserClaims :=
  match kf HS256 with
  | Some _ => if String.eqb tok "good" then Ok (mkClaims "" "viewer" "" iss "sub" (Some (t + 1)))
              else Err LibExpired
  | None => Err LibOther
  end.

Definition demo_config (o : bool) : config := mkConfig (mkValidator "k" "iss") o true true.
Definition demo_world : world := mkWorld Limiter.NewRateLimiter ∅.

Example oidc_gate_witness :
  let r := mkRequest (Cert := nat) "/api/v1/sessions" "WebSocket" None "" None in
  (None : option AuthUser) = None ∧
  (path r ∈ ["/health"; "/metrics"; "/api/v1/auth/login"] ∨
   EqualFold_websocket (upgrade r) = true ∨
   (∃ cert name, peer r = Some (cert, name) ∧ true = true) ∨
   (peer r = None ∧ ∃ claims x, demo_parse
      (String.substring 7 (String.length (auth_header r) - 7) (auth_header r))
      (keyfunc (validator (demo_config true))) (issuer (validator (demo_config true)))
      (now (mkEnv 5 1 false false)) = Ok claims ∧
      Issuer claims = issuer (validator (demo_config true)) ∧ Subject claims ≠ "" ∧
      ExpiresAt claims = Some x ∧ now (mkEnv 5 1 false false) < x)).
Proof.
  intros r.
  apply (oidc_gate demo_parse (λ _, true) (λ _, None) (λ _, "u") (demo_config true) demo_world r
           (mkEnv 5 1 false false)) with (w' := demo_world).
  - intros tok kf iss t claims. unfold demo_parse. destruct (kf HS256) as [k|] eqn:Hk; [|discriminate].
    destruct (String.eqb tok "good"); [|discriminate]. intros [= <-]. simpl.
    split; [eauto|split; [reflexivity|exists (t + 1); split; [reflexivity|lia]]].
  - reflexivity.
  - reflexivity.
Defined.

Example local_gate_witness : Role (mkAuthUser "u" "a@x" "Alice" "owner" "") = "owner".
Proof.
  apply (local_gate demo_parse (λ _, true) (λ _, None) (λ _, "u") (demo_config false)
    (mkWorld Limiter.NewRateLimiter {[1%N := Users.alice]})
    (mkRequest (Cert := nat) "/api/v1/sessions" "" None "" None) (mkEnv 5 2 false false));
    vm_compute; reflexivity.
Defined.

End Middleware.
