(* ===== verification/UserApi.v ===== *)
(** * internal/api/user_handlers.go, auth_handlers.go, auth_cookie.go: accounts

    The handlers that manage users and sign them in, on the table of [Users].
    [user] is the user of the request's context, which the middleware of [Auth]
    puts there. A request body is [None] when it does not decode. Time.Format,
    the signing of tokens and the random source are parameters. *)
From Stdlib Require Import Ascii.
From stdpp Require Import pretty.
From S2P Require Import Prelude GoStrings Users Auth.
Import Users.
#[local] Open Scope Z_scope.
#[local] Set Default Proof Using "Type".

Module UserApi.

Record World := mkWorld { users : table; audited : list (string * string) }.
Definition set_users (w : World) (t : table) : World := mkWorld t (audited w).

(** [draws i]: the i-th random index, if the source does not fail. *)
Record env := mkEnv { now : Z; new_id : N; f1 : bool; f2 : bool; f3 : bool; salt : string; draws : nat → option Z }.

Record UserHandler := mkHandler { db : bool; auditLogger : bool }.
Record AuthHandler := mkAuthHandler { a_auditLogger : bool; jwtSecret : string; jwtIssuer : string }.

Record UserResponse := mkUserResponse {
  ur_ID : string; ur_Email : string; ur_Name : string; ur_Role : string; ur_AvatarURL : string;
  ur_LastLoginAt : option string; ur_CreatedAt : string;
}.
Inductive Body :=
  | BError (msg : string)
  | BUsers (l : list UserResponse)
  | BUser (u : UserResponse)
  | BInvited (u : UserResponse) (password : string)
  | BLogin (token : string) (u : UserResponse)
  | BOk
  | BEmpty
  | BNotFound.                                 (* http.NotFound *)
Record Response := mkResponse { status : Z; body : Body }.

Record InviteUserRequest := mkInvite { iv_Email : string; iv_Role : string }.
Record loginRequest := mkLogin { lg_Email : string; lg_Password : string }.
Record changePasswordRequest := mkChange { ch_Current : string; ch_New : string }.

Section Handlers.
Variable uuid_Parse : string → option N.
Variable uuid_String : N → string.
Variable time_text : Z → string.
Variable bcrypt_Generate : string → string → option string.
Variable bcrypt_Compare : string → string → bool.
(** SignedString of a token with these claims, with HS256. *)
Variable Sign : JWT.UserClaims → string → option string.

Notation answer := (World * go Response)%type.
Definition refuse (w : World) (st : Z) (msg : string) : answer := (w, Ret (mkResponse st (BError msg))).
Definition reply (w : World) (st : Z) (b : Body) : answer := (w, Ret (mkResponse st b)).
Definition audit (on : bool) (w : World) (action id : string) : World :=
  if on then mkWorld (users w) (audited w ++ [(action, id)]) else w.

Definition userToResponse (u : User) : UserResponse :=
  mkUserResponse (uuid_String (ID u)) (Email u) (Name u) (Role u) (AvatarURL u)
    (time_text <$> LastLoginAt u) (time_text (CreatedAt u)).

(** The user of the context, with at least this role. *)
Definition with_user (w : World) (user : option RBAC.AuthUser) (k : RBAC.AuthUser → answer) : answer :=
  match user with None => refuse w 401 "authentication required" | Some u => k u end.
Definition with_role (w : World) (user : option RBAC.AuthUser) (role : string) (k : RBAC.AuthUser → answer) : answer :=
  with_user w user (λ u,
    if negb (RBAC.HasPermission (RBAC.Role u) role) then refuse w 403 "insufficient permissions" else k u).

(** ** user_handlers.go *)

Definition handleListUsers (w : World) (user : option RBAC.AuthUser) (e : env) : answer :=
  with_role w user "admin" (λ _,
    match List_ (users w) (f1 e) with
    | Err _ => refuse w 500 "failed to list users"
    | Ok us => reply w 200 (BUsers (userToResponse <$> us))
    end).

(** uuid.MustParse; every error is reported as 404. *)
Definition handleGetCurrentUser (w : World) (user : option RBAC.AuthUser) (e : env) : answer :=
  with_user w user (λ u,
    match uuid_Parse (RBAC.ID u) with
    | None => (w, Panic)
    | Some id =>
        match GetByID (users w) id (f1 e) with
        | Err _ => refuse w 404 "user not found"
        | Ok x => reply w 200 (BUser (userToResponse x))
        end
    end).

Definition chars : string := "abcdefghijkmnpqrstuvwxyzABCDEFGHJKLMNPQRSTUVWXYZ23456789".
Fixpoint nth_char (s : string) (n : nat) : ascii :=
  match s, n with
  | EmptyString, _ => zero
  | String c _, O => c
  | String _ s', S n' => nth_char s' n'
  end.
(** The indices [i], [i + 1], …, drawn by rand.Int below len(chars). *)
Fixpoint generateTempPassword (length : nat) (draws : nat → option Z) (i : nat) : option string :=
  match length with
  | O => Some EmptyString
  | S n =>
      d ← draws i;
      rest ← generateTempPassword n draws (S i);
      Some (String (nth_char chars (Z.to_nat d)) rest)
  end.

Definition handleInviteUser (h : UserHandler) (w : World) (user : option RBAC.AuthUser)
    (req : option InviteUserRequest) (e : env) : answer :=
  with_role w user "owner" (λ _,
    match req with
    | None => refuse w 400 "invalid request body"
    | Some rq =>
        if String.eqb (iv_Email rq) "" || String.eqb (iv_Role rq) "" then refuse w 400 "email and role are required" else
        if negb (isValidRole (iv_Role rq)) then refuse w 400 "invalid role" else
        match generateTempPassword 16 (draws e) 0 with
        | None => refuse w 500 "failed to generate password"
        | Some tempPassword =>
            match HashPassword bcrypt_Generate tempPassword (salt e) with
            | Err _ => refuse w 500 "failed to hash password"
            | Ok hashedPassword =>
                let name := default ""%string (head (Str.Split (iv_Email rq) "@")) in
                match CreateWithPassword (users w) (iv_Email rq) name (iv_Role rq) hashedPassword (new_id e) (now e) (f1 e) with
                | (t, Err ErrUnique) => refuse (set_users w t) 409 "email already exists"
                | (t, Err _) => refuse (set_users w t) 500 "failed to create user"
                | (t, Ok created) =>
                    reply (audit (auditLogger h) (set_users w t) "user.create" (uuid_String (ID created)))
                      201 (BInvited (userToResponse created) tempPassword)
                end
            end
        end
    end).

Definition handleDeleteUser (h : UserHandler) (w : World) (user : option RBAC.AuthUser) (userID : N) (e : env) : answer :=
  with_role w user "owner" (λ u,
    if bool_decide (uuid_Parse (RBAC.ID u) = Some userID) then refuse w 400 "cannot delete self" else
    match Users.Delete (users w) userID (f1 e) with
    | (t, Some ErrUserNotFound) => refuse (set_users w t) 404 "user not found"
    | (t, Some _) => refuse (set_users w t) 500 "failed to delete user"
    | (t, None) => reply (audit (auditLogger h) (set_users w t) "user.delete" (uuid_String userID)) 204 BEmpty
    end).

Definition handleGetUser (h : UserHandler) (w : World) (user : option RBAC.AuthUser) (method path : string) (e : env) : answer :=
  match uuid_Parse (Str.TrimPrefix path "/api/v1/users/") with
  | None => refuse w 400 "invalid user ID"
  | Some userID =>
      if String.eqb method "DELETE" then handleDeleteUser h w user userID e else
      with_role w user "admin" (λ _,
        match GetByID (users w) userID (f1 e) with
        | Err ErrUserNotFound => refuse w 404 "user not found"
        | Err _ => refuse w 500 "failed to get user"
        | Ok x => reply w 200 (BUser (userToResponse x))
        end)
  end.

Definition handleChangeRole (h : UserHandler) (w : World) (user : option RBAC.AuthUser) (path : string)
    (req : option string) (e : env) : answer :=
  with_role w user "owner" (λ _,
    match Str.Split (Str.TrimPrefix path "/api/v1/users/") "/" with
    | idStr :: _ :: _ =>
        match uuid_Parse idStr with
        | None => refuse w 400 "invalid user ID"
        | Some userID =>
            match req with
            | None => refuse w 400 "invalid request body"
            | Some role =>
                if negb (isValidRole role) then refuse w 400 "invalid role" else
                match UpdateRole (users w) userID role (now e) (f1 e) with
                | (t, Some ErrUserNotFound) => refuse (set_users w t) 404 "user not found"
                | (t, Some _) => refuse (set_users w t) 500 "failed to update role"
                | (t, None) =>
                    reply (audit (auditLogger h) (set_users w t) "user.role_change" (uuid_String userID)) 200 BOk
                end
            end
        end
    | _ => refuse w 400 "invalid path"
    end).

(** The body of a request, as the handler that reads it decodes it. *)
Record Bodies := mkBodies {
  b_invite : option InviteUserRequest; b_role : option string;
  b_login : option loginRequest; b_change : option changePasswordRequest;
}.

Definition handleUsersSubpath (h : UserHandler) (w : World) (user : option RBAC.AuthUser) (method p : string)
    (b : Bodies) (e : env) : answer :=
  if negb (db h) then refuse w 503 "database not configured" else
  if String.eqb method "POST" && String.eqb p "/api/v1/users/invite" then handleInviteUser h w user (b_invite b) e else
  if String.eqb method "GET" && String.eqb p "/api/v1/users/me" then handleGetCurrentUser w user e else
  if Str.HasSuffix p "/role" && (String.eqb method "PATCH" || String.eqb method "POST")
  then handleChangeRole h w user p (b_role b) e else
  if (String.eqb method "GET" || String.eqb method "DELETE") && Str.HasPrefix p "/api/v1/users/"
  then handleGetUser h w user method p e else
  reply w 404 BNotFound.

Definition handleUsers (h : UserHandler) (w : World) (user : option RBAC.AuthUser) (method p : string)
    (b : Bodies) (e : env) : answer :=
  if negb (db h) then refuse w 503 "database not configured" else
  if String.eqb method "GET" && String.eqb p "/api/v1/users" then handleListUsers w user e else
  if String.eqb method "POST" && String.eqb p "/api/v1/users/invite" then handleInviteUser h w user (b_invite b) e else
  reply w 404 BNotFound.

(** ** auth_handlers.go *)

Definition Day : Z := 86400000000000.

(** The claims of a token: the time is that of the request. *)
(** jwt.NewNumericDate keeps whole seconds. *)
Definition Second : Z := 1000000000.
Definition NewNumericDate (t : Z) : Z := t / Second * Second.
Definition login_claims (h : AuthHandler) (u : User) (now : Z) : JWT.UserClaims :=
  JWT.mkClaims "" (Role u) "" (jwtIssuer h) (uuid_String (ID u)) (Some (NewNumericDate (now + Day))).

(** [now e] is read after the password was verified. *)
Definition handleLogin (h : AuthHandler) (w : World) (method : string) (req : option loginRequest) (e : env) : answer :=
  if negb (String.eqb method "POST") then refuse w 405 "method not allowed" else
  match req with
  | None => refuse w 400 "invalid request body"
  | Some rq =>
      if String.eqb (lg_Email rq) "" || String.eqb (lg_Password rq) ""
      then refuse w 400 "email and password are required" else
      match VerifyPassword bcrypt_Compare (users w) (lg_Email rq) (lg_Password rq) (now e) (f1 e) (f2 e) with
      | (t, Err _) => refuse (set_users w t) 401 "invalid email or password"
      | (t, Ok user) =>
          match Sign (login_claims h user (now e)) (jwtSecret h) with
          | None => refuse (set_users w t) 500 "failed to generate token"
          | Some token =>
              reply (audit (a_auditLogger h) (set_users w t) "user.login" (uuid_String (ID user)))
                200 (BLogin token (userToResponse user))
          end
      end
  end.

Definition handleChangePassword (h : AuthHandler) (w : World) (user : option RBAC.AuthUser) (method : string)
    (req : option changePasswordRequest) (e : env) : answer :=
  if negb (String.eqb method "POST") then refuse w 405 "method not allowed" else
  with_user w user (λ u,
    match req with
    | None => refuse w 400 "invalid request body"
    | Some rq =>
        if String.eqb (ch_Current rq) "" || String.eqb (ch_New rq) ""
        then refuse w 400 "current_password and new_password are required" else
        match VerifyPassword bcrypt_Compare (users w) (RBAC.Email u) (ch_Current rq) (now e) (f1 e) (f2 e) with
        | (t, Err _) => refuse (set_users w t) 401 "current password is incorrect"
        | (t, Ok _) =>
            match uuid_Parse (RBAC.ID u) with
            | None => refuse (set_users w t) 500 "invalid user ID"
            | Some userID =>
                match SetPassword bcrypt_Generate t userID (ch_New rq) (salt e) (now e) (f3 e) with
                | (t', Some _) => refuse (set_users w t') 400 "the error of SetPassword"
                | (t', None) =>
                    reply (audit (a_auditLogger h) (set_users w t') "user.password_change" (RBAC.ID u)) 200 BOk
                end
            end
        end
    end).

(** ** auth_cookie.go: the status, and the cookie with its Max-Age *)

Variable ParseWithClaims :
  ∀ (tokenString : string) (keyfunc : JWT.SigningMethod → option string) (issuer : string) (now : Z),
    result JWT.lib_error JWT.UserClaims.
Definition HandleSetAuthCookie (v : JWT.JWTTokenValidator) (method authHeader : string) (now : Z)
    : Z * option (string * Z) :=
  if String.eqb method "POST" then
    if (String.length authHeader <? 8)%nat || negb (Str.HasPrefix authHeader "Bearer ") then (401, None) else
    let token := Str.TrimPrefix authHeader "Bearer " in
    match JWT.Validate ParseWithClaims v token now with
    | Err _ => (401, None)
    | Ok _ => (204, Some (token, 3600))
    end
  else if String.eqb method "DELETE" then (204, Some (""%string, -1))
  else (405, None).

(** ** The routes of both files: exact patterns first *)

Inductive route := RUsers | RInvite | RSubpath | RLogin | RChangePassword | RNone.
Definition mux (p : string) : route :=
  if String.eqb p "/api/v1/users" then RUsers
  else if String.eqb p "/api/v1/users/invite" then RInvite
  else if String.eqb p "/api/v1/auth/login" then RLogin
  else if String.eqb p "/api/v1/auth/change-password" then RChangePassword
  else if Str.HasPrefix p "/api/v1/users/" then RSubpath else RNone.

Record op := mkOp { o_user : option RBAC.AuthUser; o_method : string; o_path : string; o_bodies : Bodies; o_env : env }.
Definition serve (h : UserHandler) (ah : AuthHandler) (w : World) (o : op) : answer :=
  let '(mkOp user method p b e) := o in
  match mux p with
  | RUsers => handleUsers h w user method p b e
  | RInvite => handleInviteUser h w user (b_invite b) e
  | RSubpath => handleUsersSubpath h w user method p b e
  | RLogin => handleLogin ah w method (b_login b) e
  | RChangePassword => handleChangePassword ah w user method (b_change b) e
  | RNone => reply w 404 BNotFound
  end.
Definition serve_all (h : UserHandler) (ah : AuthHandler) (w : World) (ops : list op) : World :=
  foldl (λ w o, (serve h ah w o).1) w ops.

(** A request as the server takes it: the middleware first, on the same table, then the
    handler with the user that it found. *)
Section Request.
Context {Cert : Type}.
Variable cert_ok : Cert → bool.
Notation gate c l w q me :=
  (Middleware.AuthMiddleware ParseWithClaims cert_ok uuid_Parse uuid_String c (Middleware.mkWorld l (users w)) q me).
Definition http (c : Middleware.config) (h : UserHandler) (ah : AuthHandler) (l : Limiter.RateLimiter) (w : World)
    (q : Middleware.request Cert) (me : Middleware.env) (method : string) (b : Bodies) (e : env)
    : Limiter.RateLimiter * answer :=
  let '(m, out) := gate c l w q me in
  let w1 := set_users w (Middleware.users m) in
  (Middleware.limiter m,
   match out with
   | RBAC.Respond st msg => refuse w1 st msg
   | RBAC.Next user => serve h ah w1 (mkOp user method (Middleware.path q) b e)
   end).
End Request.

(** ** What a user who is no owner can do *)

Definition is_owner (user : option RBAC.AuthUser) : Prop :=
  ∃ u, user = Some u ∧ RBAC.Role u = "owner"%string.
#[export] Instance is_owner_dec user : Decision (is_owner user).
Proof.
  destruct user as [u|]; [|right; by intros (? & ? & _)].
  destruct (decide (RBAC.Role u = "owner"%string)) as [H|H]; [left; by exists u|right; by intros (? & [= <-] & ?)].
Defined.

Lemma owner_permission role : RBAC.HasPermission role "owner" = true → role = "owner"%string.
Proof.
  unfold RBAC.HasPermission, RBAC.RoleLevel. cbn.
  destruct (String.eqb role "viewer"); [done|]. destruct (String.eqb role "admin"); [done|].
  by destruct (String.eqb_spec role "owner").
Qed.

Lemma with_owner w user k : ¬ is_owner user → (with_role w user "owner" k).1 = w.
Proof.
  intros Hn. unfold with_role, with_user. destruct user as [u|]; [|done].
  destruct (RBAC.HasPermission _ _) eqn:E; [|done]. exfalso. apply Hn. exists u. split; [done|]. by apply owner_permission.
Qed.

Lemma with_role_same w user role k : (∀ u, (k u).1 = w) → (with_role w user role k).1 = w.
Proof. intros Hk. unfold with_role, with_user. destruct user; [|done]. by destruct (negb _). Qed.

(** The password that [user] has shown to know. *)
Definition knows (t : table) (user : option RBAC.AuthUser) (id : N) (password : string) : Prop :=
  ∃ u x hash, user = Some u ∧ uuid_Parse (RBAC.ID u) = Some id ∧ GetByEmail t (RBAC.Email u) false = Ok x ∧
    PasswordHash x = Some hash ∧ bcrypt_Compare hash password = true.

(** The tables differ in the times of a row and, where [changed], in its hash. *)
Definition touched (t t' : table) (changed : N → Prop) : Prop :=
  dom t' = dom t ∧ ∀ id r r', t !! id = Some r → t' !! id = Some r' →
    r_id r' = r_id r ∧ r_email r' = r_email r ∧ r_name r' = r_name r ∧ r_role r' = r_role r ∧
    r_provider r' = r_provider r ∧ r_provider_id r' = r_provider_id r ∧
    (r_password_hash r' = r_password_hash r ∨ changed id).

Lemma touched_refl t c : touched t t c.
Proof. split; [done|]. intros id r r' Hr Hr'. assert (r' = r) as -> by congruence. by split_and!; auto. Qed.

Lemma touched_update t id upd f (c : N → Prop) :
  (∀ r, r_id (upd r) = r_id r ∧ r_email (upd r) = r_email r ∧ r_name (upd r) = r_name r ∧ r_role (upd r) = r_role r ∧
     r_provider (upd r) = r_provider r ∧ r_provider_id (upd r) = r_provider_id r ∧
     (r_password_hash (upd r) = r_password_hash r ∨ c id)) →
  touched t (update_by_id t id upd f).1 c.
Proof.
  intros Hupd. unfold update_by_id. destruct f; [apply touched_refl|].
  destruct (t !! id) as [r0|] eqn:E; [|apply touched_refl]. cbn [fst]. split.
  - by apply dom_insert_lookup_L.
  - intros i r r' Hr. rewrite lookup_insert_Some. intros [[<- <-]|[_ Hr']].
    + assert (r0 = r) as -> by congruence. apply Hupd.
    + assert (r' = r) as -> by congruence. by split_and!; auto.
Qed.

Lemma touched_trans t t1 t2 c c' : touched t t1 c → touched t1 t2 c' → (∀ id, c id → c' id) → touched t t2 c'.
Proof.
  intros [Hd1 H1] [Hd2 H2] Hc. split; [congruence|]. intros id r r2 Hr Hr2.
  assert (is_Some (t1 !! id)) as [r1 Hr1] by (apply elem_of_dom; rewrite <- Hd2; apply elem_of_dom; eauto).
  destruct (H1 id r r1 Hr Hr1) as (A1 & A2 & A3 & A4 & A5 & A6 & A7).
  destruct (H2 id r1 r2 Hr1 Hr2) as (B1 & B2 & B3 & B4 & B5 & B6 & B7).
  split; [congruence|]. split; [congruence|]. split; [congruence|]. split; [congruence|]. split; [congruence|].
  split; [congruence|]. destruct B7 as [B7|B7]; [|by right]. destruct A7 as [A7|A7]; [left; congruence|right; auto].
Qed.

Lemma VerifyPassword_touched t email pw now f1 f2 c : touched t (VerifyPassword bcrypt_Compare t email pw now f1 f2).1 c.
Proof.
  unfold VerifyPassword. destruct (GetByEmail _ _ _) as [u|]; [|apply touched_refl].
  destruct (PasswordHash u) as [h|]; [|apply touched_refl]. destruct (String.eqb h ""); [apply touched_refl|].
  destruct (negb _); [apply touched_refl|]. apply touched_update. intros r. by split_and!; auto.
Qed.

Lemma VerifyPassword_Ok t email pw now f1 f2 t' x : VerifyPassword bcrypt_Compare t email pw now f1 f2 = (t', Ok x) →
  GetByEmail t email false = Ok x ∧ t' = (UpdateLastLogin t (ID x) now f2).1 ∧
  ∃ hash, PasswordHash x = Some hash ∧ bcrypt_Compare hash pw = true.
Proof.
  unfold VerifyPassword. destruct (GetByEmail t email f1) as [u|] eqn:E; [|done].
  destruct (PasswordHash u) as [h|] eqn:Eh; [|done]. destruct (String.eqb h ""); [done|].
  destruct (bcrypt_Compare h pw) eqn:Ec; [|done]. intros [= <- <-]. split; [|by eauto].
  unfold GetByEmail, query_one in *. by destruct f1.
Qed.

Lemma audit_users on w a s : users (audit on w a s) = users w.
Proof. by destruct on. Qed.

Lemma handleChangePassword_touched h w user method req e :
  touched (users w) (users (handleChangePassword h w user method req e).1)
    (λ id, ∃ rq, req = Some rq ∧ knows (users w) user id (ch_Current rq)).
Proof.
  unfold handleChangePassword. destruct (negb _); [apply touched_refl|]. unfold with_user.
  destruct user as [u|]; [|apply touched_refl]. destruct req as [rq|]; [|apply touched_refl].
  destruct (_ || _); [apply touched_refl|].
  pose proof (VerifyPassword_touched (users w) (RBAC.Email u) (ch_Current rq) (now e) (f1 e) (f2 e) (λ _, False)) as Hv.
  destruct (VerifyPassword _ _ _ _ _ _ _) as [t [x|]] eqn:Ev; cbn [fst] in Hv;
    [|eapply touched_trans; [exact Hv|apply touched_refl|done]].
  apply VerifyPassword_Ok in Ev as (Hx & _ & hash & Hh & Hc).
  destruct (uuid_Parse (RBAC.ID u)) as [userID|] eqn:Ep; [|eapply touched_trans; [exact Hv|apply touched_refl|done]].
  unfold SetPassword. destruct (HashPassword _ _ _) as [hp|]; [|eapply touched_trans; [exact Hv|apply touched_refl|done]].
  assert (touched t (update_by_id t userID (set_hash hp (now e)) (f3 e)).1
    (λ id, ∃ rq0, Some rq = Some rq0 ∧ knows (users w) (Some u) id (ch_Current rq0))) as Hu.
  { apply touched_update. intros r. split_and!; try done. right. exists rq. split; [done|].
    exists u, x, hash. by split_and!. }
  destruct (update_by_id _ _ _ _) as [t' []]; cbn [fst refuse reply] in *; rewrite ?audit_users;
    cbn [set_users users]; (eapply touched_trans; [exact Hv|exact Hu|done]).
Qed.

Lemma handleLogin_touched h w method req e : touched (users w) (users (handleLogin h w method req e).1) (λ _, False).
Proof.
  unfold handleLogin. destruct (negb _); [apply touched_refl|]. destruct req as [rq|]; [|apply touched_refl].
  destruct (_ || _); [apply touched_refl|].
  pose proof (VerifyPassword_touched (users w) (lg_Email rq) (lg_Password rq) (now e) (f1 e) (f2 e) (λ _, False)) as Hv.
  destruct (VerifyPassword _ _ _ _ _ _ _) as [t [x|]]; [|exact Hv].
  destruct (Sign _ _); cbn [refuse reply fst]; rewrite ?audit_users; exact Hv.
Qed.

Lemma get_user_same h w user method p e : ¬ is_owner user → (handleGetUser h w user method p e).1 = w.
Proof.
  intros Hn. unfold handleGetUser. destruct (uuid_Parse _) as [id|]; [|done].
  destruct (String.eqb method "DELETE"); [by apply with_owner|]. apply with_role_same. intros u.
  by destruct (GetByID _ _ _) as [|[]].
Qed.

Lemma serve_touched h ah w o : ¬ is_owner (o_user o) →
  touched (users w) (users (serve h ah w o).1)
    (λ id, ∃ rq, b_change (o_bodies o) = Some rq ∧ knows (users w) (o_user o) id (ch_Current rq)).
Proof.
  destruct o as [user method p b e]. cbn [o_user o_bodies]. intros Hn. cbn [serve].
  assert (∀ w', w' = w → touched (users w) (users w')
    (λ id, ∃ rq, b_change b = Some rq ∧ knows (users w) user id (ch_Current rq))) as Hsame
    by (intros w' ->; apply touched_refl).
  destruct (mux p).
  - apply Hsame. unfold handleUsers. destruct (negb _); [done|]. destruct (_ && _).
    { apply with_role_same. intros u. by destruct (List_ _ _). }
    destruct (_ && _); [by apply with_owner|done].
  - apply Hsame. by apply with_owner.
  - apply Hsame. unfold handleUsersSubpath. destruct (negb _); [done|]. destruct (_ && _); [by apply with_owner|].
    destruct (_ && _).
    { unfold handleGetCurrentUser, with_user. destruct user as [u|]; [|done]. destruct (uuid_Parse _); [|done].
      by destruct (GetByID _ _ _). }
    destruct (_ && _); [by apply with_owner|]. destruct (_ && _); [by apply get_user_same|done].
  - eapply touched_trans; [apply handleLogin_touched|apply touched_refl|done].
  - apply handleChangePassword_touched.
  - by apply Hsame.
Qed.

(** What the middleware of a server with OIDC does to the table: nothing, or one row: a
    viewer for a subject it does not know, or a known row with other texts. *)
Definition signed_in_by_token (t t1 : table) : Prop :=
  t1 = t ∨
  (∃ id r, t !! id = None ∧ t1 = <[id := r]> t ∧ r_role r = "viewer"%string ∧ r_provider r = Some "oidc"%string ∧
     r_password_hash r = None) ∨
  (∃ id r r', t !! id = Some r ∧ t1 = <[id := r']> t ∧ r_role r' = r_role r ∧ r_provider r' = r_provider r ∧
     r_provider_id r' = r_provider_id r ∧ r_password_hash r' = r_password_hash r).

Lemma Upsert_effect t sub id now f1 f2 : users_wf t → t !! id = None →
  signed_in_by_token t (UpsertFromOIDC t "oidc" sub "" "" "" id now f1 f2).1.
Proof.
  intros Hwf Hid. unfold UpsertFromOIDC. destruct (GetByProviderID _ _ _ _) as [x|[]]; try (by left).
  - destruct f2; [by left|]. destruct (t !! ID x) as [r0|] eqn:E; [|by left].
    destruct (put_row _ _) as [t'| |] eqn:Hp; [|by left..]. apply put_row_SOk in Hp as (-> & _).
    right; right. cbn [fst r_id]. rewrite (proj1 (proj1 Hwf _ _ E)). by do 3 eexists.
  - destruct f2; [by left|]. destruct (put_row _ _) as [t'| |] eqn:Hp; [|by left..].
    apply put_row_SOk in Hp as (-> & _). right; left. cbn [fst r_id]. by do 2 eexists.
Qed.

Section NoOwner.
Context {Cert : Type}.
Variable cert_ok : Cert → bool.
Notation gate c l w q me :=
  (Middleware.AuthMiddleware ParseWithClaims cert_ok uuid_Parse uuid_String c (Middleware.mkWorld l (users w)) q me).

Lemma gate_users c l w (q : Middleware.request Cert) me :
  users_wf (users w) → users w !! Middleware.new_id me = None →
  let t1 := Middleware.users (gate c l w q me).1 in
  if Middleware.oidc c then signed_in_by_token (users w) t1 else t1 = users w.
Proof.
  intros Hwf Hid. cbv zeta. assert (∀ t1, t1 = users w →
    if Middleware.oidc c then signed_in_by_token (users w) t1 else t1 = users w) as Hsame
    by (intros t1 ->; destruct (Middleware.oidc c); [by left|done]).
  unfold Middleware.AuthMiddleware. destruct (Middleware.exempt q); [by apply Hsame|].
  destruct (Middleware.EqualFold_websocket _); [by apply Hsame|].
  destruct (Middleware.peer q) as [[cert sat]|].
  { destruct (negb _); [by apply Hsame|]. destruct (Middleware.hasLimiter c); [|by apply Hsame].
    destruct (Limiter.AllowSatellite _ _ _ _) as [l1 []]; by apply Hsame. }
  destruct (_ || _).
  { destruct (Middleware.oidc c) eqn:Eo; [by left|]. destruct (Middleware.hasDB c); [|done]. by destruct (List_ _ _). }
  destruct (JWT.Validate _ _ _ _) as [claims|]; [|by apply Hsame].
  destruct (if Middleware.hasLimiter c then _ else _) as [l1 ok]. destruct ok; cbn [negb]; [|by apply Hsame].
  destruct (Middleware.hasDB c); [|by apply Hsame]. destruct (Middleware.oidc c); [|done].
  pose proof (Upsert_effect (users w) (JWT.Subject claims) (Middleware.new_id me) (Middleware.now me)
    (Middleware.f1 me) (Middleware.f2 me) Hwf Hid) as Hu.
  cbn [Middleware.users]. by destruct (UpsertFromOIDC _ _ _ _ _ _ _ _ _ _) as [us u].
Qed.

(** C25: A request that the middleware does not recognise as an owner's deletes no account
    and changes no role, provider or, but for the account of the request by who knows
    the old one, password. Without OIDC it also makes no account and changes no email or name.
    With OIDC the middleware by itself may make one viewer account, for a subject that has
    none, or overwrite the texts of one account; the handler does nothing of the kind. *)
Theorem only_owners_manage c h ah l w (q : Middleware.request Cert) me method b e :
  users_wf (users w) → users w !! Middleware.new_id me = None →
  (∀ user, (gate c l w q me).2 = RBAC.Next user → ¬ is_owner user) →
  let t1 := Middleware.users (gate c l w q me).1 in
  let t2 := users (http cert_ok c h ah l w q me method b e).2.1 in
  (if Middleware.oidc c then signed_in_by_token (users w) t1 else t1 = users w) ∧
  dom t2 = dom t1 ∧
  ∀ id r r', t1 !! id = Some r → t2 !! id = Some r' →
    r_email r' = r_email r ∧ r_name r' = r_name r ∧ r_role r' = r_role r ∧
    r_provider r' = r_provider r ∧ r_provider_id r' = r_provider_id r ∧
    (r_password_hash r' ≠ r_password_hash r →
     ∃ user rq, (gate c l w q me).2 = RBAC.Next user ∧ b_change b = Some rq ∧ knows t1 user id (ch_Current rq)).
Proof.
  intros Hwf Hid Hn. split; [by apply gate_users|]. unfold http.
  destruct (gate c l w q me) as [m out]. cbn [fst snd] in *. destruct out as [st msg|user]; cbn [snd fst].
  - split; [done|]. intros id r r' Hr Hr'. cbn in Hr'. assert (r' = r) as -> by congruence. by split_and!.
  - destruct (serve_touched h ah (set_users w (Middleware.users m)) (mkOp user method (Middleware.path q) b e)) as [Hd Ht];
      [by apply Hn|]. cbn [set_users users o_user o_bodies] in *. split; [done|]. intros id r r' Hr Hr'.
    destruct (Ht id r r' Hr Hr') as (_ & H1 & H2 & H3 & H4 & H5 & [H6|(rq & H6 & H7)]); split_and!; try done.
    intros _. by exists user, rq.
Qed.
End NoOwner.

(** ** Owners *)

Definition no_owner (t : table) : Prop := ∀ id r, t !! id = Some r → r_role r ≠ "owner"%string.

(** The user of the context is an account of the table, with its role. *)
Definition honest (t : table) (user : option RBAC.AuthUser) : Prop :=
  ∀ u, user = Some u → ∃ id r, t !! id = Some r ∧ RBAC.Role u = r_role r.
Fixpoint all_honest (h : UserHandler) (ah : AuthHandler) (w : World) (ops : list op) : Prop :=
  match ops with
  | [] => True
  | o :: ops' => honest (users w) (o_user o) ∧ all_honest h ah (serve h ah w o).1 ops'
  end.

Lemma no_owner_stays h ah ops : ∀ w, no_owner (users w) → all_honest h ah w ops →
  no_owner (users (serve_all h ah w ops)).
Proof.
  induction ops as [|o ops IH]; intros w Hw Ha; [done|]. destruct Ha as [Ho Ha]. cbn. apply IH; [|done].
  assert (¬ is_owner (o_user o)) as Hn.
  { intros (u & Hu & Hr). destruct (Ho u Hu) as (id & r & Hl & E). apply (Hw id r Hl). congruence. }
  destruct (serve_touched h ah w o Hn) as [Hd Ht]. intros id r' Hr'.
  assert (is_Some (users w !! id)) as [r Hr] by (apply elem_of_dom; rewrite <- Hd; apply elem_of_dom; eauto).
  destruct (Ht id r r' Hr Hr') as (_ & _ & _ & -> & _). by apply (Hw id r).
Qed.

(** Nothing keeps the last owner: the only owner can take the role from
    themself, and from then on, whatever users of the table request, nobody
    is an owner again. (Deleting oneself, on the other hand, is refused.) *)
Theorem last_owner_can_leave h ah w u id r path role e ops w1 rsp :
  users w !! id = Some r → (∀ id' r', users w !! id' = Some r' → id' ≠ id → r_role r' ≠ "owner"%string) →
  RBAC.Role u = "owner"%string → uuid_Parse (RBAC.ID u) = Some id →
  Str.Split (Str.TrimPrefix path "/api/v1/users/") "/" = [RBAC.ID u; "role"%string] →
  role ≠ "owner"%string → isValidRole role = true → f1 e = false →
  handleChangeRole h w (Some u) path (Some role) e = (w1, rsp) → all_honest h ah w1 ops →
  rsp = Ret (mkResponse 200 BOk) ∧ no_owner (users (serve_all h ah w1 ops)).
Proof.
  intros Hr Hothers Hrole Hid Hsplit Hne Hv Hf E Hops. unfold handleChangeRole, with_role, with_user in E.
  rewrite Hrole, Hsplit, Hid, Hv in E. cbn [negb] in E. change (RBAC.HasPermission "owner" "owner") with true in E.
  cbn [negb] in E. unfold UpdateRole, update_by_id in E. rewrite Hv, Hf, Hr in E. cbn [negb] in E.
  injection E as <- <-. split; [done|]. apply no_owner_stays; [|done].
  rewrite audit_users. intros i x. cbn. rewrite lookup_insert_Some. intros [[<- <-]|[Hi Hx]]; [done|].
  by apply (Hothers i x Hx).
Qed.

(** An invitation for an email that has an account answers 201 and replaces the
    password of that account with the one it shows; the account keeps its role,
    whatever role was asked for. *)
Theorem invitation_takes_over h w u id r rq e pw hash : users_wf (users w) → users w !! id = Some r →
  r_email r = iv_Email rq → iv_Email rq ≠ ""%string → is_Some (r_name r) → is_Some (r_avatar_url r) →
  RBAC.Role u = "owner"%string → isValidRole (iv_Role rq) = true → f1 e = false →
  (∀ id' k, users w !! id' = Some k → id' ≠ id → r_provider_id k = Some (iv_Email rq) → r_provider k ≠ Some "local"%string) →
  generateTempPassword 16 (draws e) 0 = Some pw → HashPassword bcrypt_Generate pw (salt e) = Ok hash →
  ∃ w' resp r', handleInviteUser h w (Some u) (Some rq) e = (w', Ret (mkResponse 201 (BInvited resp pw))) ∧
    users w' !! id = Some r' ∧ r_password_hash r' = Some hash ∧ r_role r' = r_role r ∧
    ur_Role resp = r_role r ∧ dom (users w') = dom (users w).
Proof.
  intros Hwf Hr He Hne [nm Hnm] [av Hav] Hrole Hv Hf Hlocal Hpw Hhash. pose proof (proj1 Hwf _ _ Hr) as [HID Hrv].
  unfold handleInviteUser, with_role, with_user. rewrite Hrole. change (RBAC.HasPermission "owner" "owner") with true.
  cbn [negb]. destruct (String.eqb_spec (iv_Email rq) ""); [done|].
  destruct (String.eqb_spec (iv_Role rq) "") as [E|]; [by rewrite E in Hv|]. cbn [orb]. rewrite Hv, Hpw, Hhash. cbn [negb].
  unfold CreateWithPassword. rewrite Hf, Hv. cbn [orb negb].
  rewrite (filter_email_unique (users w) (iv_Email rq) r Hwf) by (by rewrite ?HID). cbv zeta.
  set (r' := mkUserRow (r_id r) _ _ _ _ _ _ _ _ _ _).
  assert (put_row (users w) r' = SOk (<[r_id r' := r']> (users w))) as ->.
  { unfold put_row. cbn [r' r_role]. rewrite Hrv. cbn [negb].
    assert (conflicts (users w) r' = false) as ->; [|done]. unfold conflicts. apply not_true_is_false.
    intros (k & Hin & Hc)%existsb_exists. apply bool_decide_eq_true in Hc. apply list_elem_of_In in Hin.
    apply list_elem_of_fmap in Hin as ([i k'] & -> & Hk). apply elem_of_map_to_list in Hk. cbn in Hc.
    destruct Hc as [Hne' [Hem|(_ & _ & Hp & Hpi)]]; cbn in *.
    - assert (i = id) as ->; [|by rewrite Hk in Hr; injection Hr as ->].
      apply (proj2 Hwf i id k' r Hk Hr). congruence.
    - destruct (decide (i = id)) as [->|Hi]; [by rewrite Hk in Hr; injection Hr as ->|].
      by destruct (Hlocal i k' Hk Hi ltac:(congruence)). }
  assert (∃ x, scanUser (userColumns r') = Ok x ∧ Role x = r_role r) as (x & -> & Hx).
  { unfold r', userColumns. cbn. rewrite Hnm, Hav. by eexists. }
  do 2 eexists. exists r'. split; [done|]. rewrite audit_users. cbn [set_users users]. split; [|split; [|split; [|split]]].
  - rewrite <- HID. apply lookup_insert_eq.
  - done.
  - done.
  - done.
  - apply dom_insert_lookup_L. cbn. rewrite HID. eauto.
Qed.

(** ** Signing in *)

(** What the library documents: a token that was signed with a key is accepted
    with that key, by its issuer, until it expires; it consists of three parts
    that dots separate. The claims come back if they are what JSON can carry: UTF-8
    texts, and an expiry in whole seconds. *)
Definition json_claims (c : JWT.UserClaims) : Prop :=
  Forall (λ s, Str.ValidString s = true)
    [JWT.UserID c; JWT.ClaimRole c; JWT.SatelliteID c; JWT.Issuer c; JWT.Subject c] ∧
  ∀ x, JWT.ExpiresAt c = Some x → x mod Second = 0.
Definition sign_law : Prop := ∀ claims key tok, Sign claims key = Some tok →
  Str.ContainsByte tok "." = true ∧
  ∀ kf t x, json_claims claims → kf JWT.HS256 = Some key → JWT.ExpiresAt claims = Some x → t < x →
    ParseWithClaims tok kf (JWT.Issuer claims) t = Ok claims.

(** The roles are words. *)
Lemma role_text role : isValidRole role = true → Str.ValidString role = true.
Proof.
  unfold isValidRole, ValidRoles. cbn.
  destruct (String.eqb_spec role "owner") as [->|_]; [done|].
  destruct (String.eqb_spec role "admin") as [->|_]; [done|].
  by destruct (String.eqb_spec role "viewer") as [->|_].
Qed.

Lemma GetByEmail_role t email x : users_wf t → GetByEmail t email false = Ok x → isValidRole (Role x) = true.
Proof.
  intros Hwf. unfold GetByEmail, query_one. destruct (filter _ _) as [|r l] eqn:E; [done|].
  assert (r ∈ filter (λ r, r_email r = email) (map_to_list t).*2) as Hr by (rewrite E; apply list_elem_of_here).
  apply list_elem_of_filter in Hr as [_ Hr]. apply list_elem_of_fmap in Hr as ([id r'] & -> & Hr%elem_of_map_to_list).
  apply (proj1 Hwf) in Hr as [_ Hr]. cbn [snd] in *. unfold scanUser, userColumns.
  destruct (r_name r'), (r_provider r'), (r_provider_id r'), (r_avatar_url r'); try done. by intros [= <-].
Qed.

Lemma handleLogin_token h w rq e w1 token ur :
  handleLogin h w "POST" (Some rq) e = (w1, Ret (mkResponse 200 (BLogin token ur))) →
  ∃ x, GetByEmail (users w) (lg_Email rq) false = Ok x ∧ Sign (login_claims h x (now e)) (jwtSecret h) = Some token ∧
    ur = userToResponse x.
Proof.
  unfold handleLogin. cbn [String.eqb negb]. destruct (_ || _); [done|].
  destruct (VerifyPassword _ _ _ _ _ _ _) as [t [x|]] eqn:Ev; [|done].
  apply VerifyPassword_Ok in Ev as (Hx & _). destruct (Sign _ _) as [tok|] eqn:Es; [|done].
  intros [= _ <- <-]. by exists x.
Qed.

Lemma dotted tok s : Str.ContainsByte tok "." = true → Str.ContainsByte s "." = false → tok ≠ s.
Proof. congruence. Qed.

Lemma bearer_token tok : Str.ContainsByte tok "." = true →
  let hd := ("Bearer " ++ tok)%string in
  String.eqb hd "" = false ∧ String.eqb hd "Bearer null" = false ∧ String.eqb hd "Bearer undefined" = false ∧
  Z.of_nat (String.length hd) <? 8 = false ∧ String.substring 7 (String.length hd - 7) hd = tok.
Proof.
  intros Hd. cbv zeta. split; [done|].
  assert (tok ≠ "null"%string) by (by apply (dotted _ "null"%string)).
  assert (tok ≠ "undefined"%string) by (by apply (dotted _ "undefined"%string)).
  split; [by apply String.eqb_neq; intros [=]|]. split; [by apply String.eqb_neq; intros [=]|]. split.
  - destruct tok as [|c s]; [done|]. apply Z.ltb_ge. rewrite (Str.length_app "Bearer " (String c s)).
    cbn [String.length]. lia.
  - change (String.substring 0 (String.length tok - 0) tok = tok). rewrite Nat.sub_0_r. clear. induction tok as [|c s IH]; [done|].
    cbn [String.length String.substring]. by rewrite IH.
Qed.

(** C26: On a server without OIDC, whoever signs in with a password gets a token with
    which the middleware recognises the account that was signed in to, until the end of
    the second before a day has passed, with the role that the account has when the
    request arrives, not the one it had when the token was made; unless the rate limit
    is exceeded. *)
Theorem login_roundtrip {Cert} (cert_ok : Cert → bool) c l h w rq e w1 token ur (q : Middleware.request Cert) t' e2 :
  sign_law → users_wf (users w) → Str.ValidString (jwtIssuer h) = true →
  (∀ id, uuid_Parse (uuid_String id) = Some id ∧ uuid_String id ≠ ""%string ∧ Str.ValidString (uuid_String id) = true) →
  JWT.jwtSecret (Middleware.validator c) = jwtSecret h → JWT.issuer (Middleware.validator c) = jwtIssuer h →
  Middleware.oidc c = false → Middleware.hasDB c = true →
  handleLogin h w "POST" (Some rq) e = (w1, Ret (mkResponse 200 (BLogin token ur))) →
  Middleware.authorization q = ("Bearer " ++ token)%string → Middleware.peer q = None →
  Middleware.exempt q = false → Middleware.EqualFold_websocket (Middleware.upgrade q) = false →
  Middleware.now e2 < NewNumericDate (now e + Day) → Middleware.f1 e2 = false →
  ∃ x, GetByEmail (users w) (lg_Email rq) false = Ok x ∧ ur = userToResponse x ∧
    let answer := (Middleware.AuthMiddleware ParseWithClaims cert_ok uuid_Parse uuid_String c
                     (Middleware.mkWorld l t') q e2).2 in
    answer = RBAC.Respond 429 "rate limit exceeded" ∨
    answer = RBAC.Next (match GetByID t' (ID x) false with
                        | Ok u => Some (Middleware.to_auth_user uuid_String u)
                        | Err _ => None
                        end).
Proof.
  intros Hlaw Hwf Hissuer Huuid Hsec Hiss Hoidc Hdb Hlog Hauth Hpeer Hex Hws Ht Hf.
  destruct (handleLogin_token _ _ _ _ _ _ _ Hlog) as (x & Hx & Hsign & ->).
  exists x. split; [done|]. split; [done|]. cbv zeta.
  destruct (Hlaw _ _ _ Hsign) as [Hdot Hparse].
  destruct (bearer_token token Hdot) as (E1 & E2 & E3 & E4 & E5).
  unfold Middleware.AuthMiddleware. rewrite Hex, Hws, Hpeer. unfold Middleware.auth_header. rewrite Hauth.
  rewrite !E1, E2, E3. cbn [orb]. rewrite E1, E4. cbn [orb]. rewrite E5. unfold JWT.Validate.
  assert (String.eqb token "" = false) as ->.
  { apply String.eqb_neq. intros ->. done. }
  rewrite Hiss.
  change (jwtIssuer h) with (JWT.Issuer (login_claims h x (now e))).
  destruct (Huuid (ID x)) as (Hp & Hne & Huv).
  rewrite (Hparse _ _ (NewNumericDate (now e + Day))); [|..]; [|
    split; [repeat constructor; cbn; try done; by eapply role_text, GetByEmail_role|
      cbn; intros y [= <-]; by apply Z.mod_mul]|by cbn; rewrite Hsec|done..].
  cbn [login_claims JWT.Subject JWT.ClaimRole JWT.SatelliteID JWT.Issuer JWT.ExpiresAt JWT.UserID].
  apply String.eqb_neq in Hne as ->.
  destruct (if Middleware.hasLimiter c then _ else _) as [l' ok]. destruct ok; cbn [negb]; [|by left].
  right. rewrite Hdb, Hoidc. cbn [JWT.Subject]. rewrite Hp. cbn [snd Middleware.users]. by rewrite Hf.
Qed.
End Handlers.

(** ** Examples *)

Definition row (id : N) (email role hash : string) : UserRow :=
  mkUserRow id email (Some email) role (Some "local") (Some email) (Some "") (Some hash) None 1 1.
Definition demo_world : World := mkWorld {[1%N := row 1 "o@x" "owner" "hsecret12"; 2%N := row 2 "v@x" "viewer" "hviewer12"]} [].
Definition demo_Parse (s : string) : option N := t ← Str.strip_prefix s "u"; z ← Str.digits t; Some (Z.to_N z).
Definition demo_String (n : N) : string := "u" +:+ pretty n.
Definition demo_gen (s p : string) : option string := Some ("h" ++ p)%string.
Definition demo_cmp (h p : string) : bool := String.eqb h ("h" ++ p)%string.
Definition owner : RBAC.AuthUser := RBAC.mkAuthUser "u1" "o@x" "o@x" "owner" "".
Definition viewer : RBAC.AuthUser := RBAC.mkAuthUser "u2" "v@x" "v@x" "viewer" "".
Definition demo_env : env := mkEnv 10 9 false false false "" (λ _, Some 0).
Definition no_bodies : Bodies := mkBodies None None None None.
Definition demo_handler : UserHandler := mkHandler true true.
Definition demo_auth : AuthHandler := mkAuthHandler true "k" "iss".
#[export] Instance UserClaims_eq_dec : EqDecision JWT.UserClaims.
Proof. solve_decision. Defined.
Definition demo_claims : JWT.UserClaims := JWT.mkClaims "" "viewer" "" "iss" "u2" (Some Day).
Definition demo_Sign (c : JWT.UserClaims) (key : string) : option string :=
  if bool_decide (c = demo_claims) && String.eqb key "k" then Some "a.b.c"%string else None.
Definition demo_ParseWithClaims (tok : string) (kf : JWT.SigningMethod → option string) (iss : string) (t : Z)
    : result JWT.lib_error JWT.UserClaims :=
  if String.eqb tok "a.b.c" && bool_decide (kf JWT.HS256 = Some "k"%string) && String.eqb iss "iss" && (t <? Day)
  then Ok demo_claims else Err JWT.LibOther.
Definition demo_serve := serve demo_Parse demo_String (λ _, ""%string) demo_gen demo_cmp demo_Sign demo_handler demo_auth.
Definition promote_me : op :=
  mkOp (Some viewer) "PATCH" "/api/v1/users/u2/role" (mkBodies None (Some "owner"%string) None None) demo_env.
Definition stepped_down : World * go Response :=
  handleChangeRole demo_Parse demo_String demo_handler demo_world (Some owner) "/api/v1/users/u1/role" (Some "viewer"%string) demo_env.

Example last_owner_can_leave_witness : no_owner (users (demo_serve stepped_down.1 promote_me).1).
Proof.
  refine (proj2 (last_owner_can_leave demo_Parse demo_String (λ _, ""%string) demo_gen demo_cmp demo_Sign demo_handler demo_auth
    demo_world owner 1 (row 1 "o@x" "owner" "hsecret12") "/api/v1/users/u1/role" "viewer" demo_env [promote_me]
    stepped_down.1 stepped_down.2 eq_refl _ eq_refl eq_refl eq_refl _ eq_refl eq_refl (surjective_pairing _) _)).
  - intros id' r'. unfold demo_world. cbn. intros [[<- <-]|[_ Hr]]%lookup_insert_Some; [done|].
    intros _. apply lookup_singleton_Some in Hr as [<- <-]. discriminate.
  - discriminate.
  - split; [|exact I]. intros u [= <-]. exists 2%N, (row 2 "v@x" "viewer" "hviewer12"). split; vm_compute; reflexivity.
Defined.

Lemma demo_world_wf : users_wf (users demo_world).
Proof.
  split.
  - intros id r. unfold demo_world. cbn. intros [[<- <-]|[_ Hr]]%lookup_insert_Some; [done|].
    by apply lookup_singleton_Some in Hr as [<- <-].
  - intros i j x y. unfold demo_world. cbn. rewrite !lookup_insert_Some, !lookup_singleton_Some. naive_solver.
Qed.

(** The viewer, with a token, asks for the role of an owner. *)
Definition demo_gate : Middleware.config := Middleware.mkConfig (JWT.mkValidator "k" "iss") false false true.
Definition promote_request : Middleware.request unit :=
  Middleware.mkRequest "/api/v1/users/u2/role" "" None "Bearer a.b.c" None.

Example only_owners_manage_witness :
  let r := http demo_Parse demo_String (λ _, ""%string) demo_gen demo_cmp demo_Sign demo_ParseWithClaims (λ _, false) demo_gate
    demo_handler demo_auth Limiter.NewRateLimiter demo_world promote_request (Middleware.mkEnv 50 7 false false) "PATCH"
    (mkBodies None (Some "owner"%string) None None) demo_env in
  r.2.2 = Ret (mkResponse 403 (BError "insufficient permissions")) ∧ dom (users r.2.1) = dom (users demo_world).
Proof.
  intros r. split; [vm_compute; reflexivity|].
  destruct (only_owners_manage demo_Parse demo_String (λ _, ""%string) demo_gen demo_cmp demo_Sign demo_ParseWithClaims (λ _, false)
    demo_gate demo_handler demo_auth Limiter.NewRateLimiter demo_world promote_request (Middleware.mkEnv 50 7 false false) "PATCH"
    (mkBodies None (Some "owner"%string) None None) demo_env demo_world_wf eq_refl) as (H1 & H2 & _).
  - intros user Hu (u & -> & Ho). vm_compute in Hu. injection Hu as <-. discriminate Ho.
  - unfold r. rewrite H2. by f_equal.
Defined.

(** The viewer becomes an owner's guest: the password is new, the role is not. *)
Example invitation_takes_over_witness : ∃ w' resp r',
  handleInviteUser demo_String (λ _, ""%string) demo_gen demo_handler demo_world (Some owner)
    (Some (mkInvite "v@x" "admin")) demo_env =
    (w', Ret (mkResponse 201 (BInvited resp "aaaaaaaaaaaaaaaa"%string))) ∧
  users w' !! 2%N = Some r' ∧ r_password_hash r' = Some "haaaaaaaaaaaaaaaa"%string ∧ r_role r' = "viewer"%string.
Proof.
  destruct (invitation_takes_over demo_String (λ _, ""%string) demo_gen demo_handler demo_world owner 2
    (row 2 "v@x" "viewer" "hviewer12") (mkInvite "v@x" "admin") demo_env "aaaaaaaaaaaaaaaa" "haaaaaaaaaaaaaaaa" demo_world_wf)
    as (w' & resp & r' & E & H1 & H2 & H3 & _); try reflexivity; try done.
  - intros id' k. unfold demo_world. cbn. rewrite lookup_insert_Some, lookup_singleton_Some. naive_solver.
  - exists w', resp, r'. split_and!; done.
Defined.

Definition signed_in : World * go Response :=
  handleLogin demo_String (λ _, ""%string) demo_cmp demo_Sign demo_auth demo_world "POST" (Some (mkLogin "v@x" "viewer12")) demo_env.
(** Meanwhile the viewer was made an admin. *)
Definition later : table := <[2%N := row 2 "v@x" "admin" "h"]> (users signed_in.1).

Lemma digits_valid s acc z : Str.all_digits s acc = Some z → Str.ValidString s = true.
Proof.
  revert acc. induction s as [|c s IH]; intros acc; [done|]. cbn [Str.all_digits].
  destruct (Str.is_digit c) eqn:Hc; [|done]. intros H. apply IH in H.
  assert (Str.rune_rest (String c s) = Some 0%nat) as E.
  { cbn [Str.rune_rest]. unfold Str.is_digit in Hc. apply andb_prop in Hc as [_ Hc].
    assert (Str.in_range 0 127 c = true) as ->; [|done]. unfold Str.in_range. apply andb_true_intro. split; [done|].
    apply Nat.leb_le in Hc. apply Nat.leb_le. lia. }
  unfold Str.ValidString in *. cbn [Str.valid_from]. by rewrite E.
Qed.

Lemma login_demo_uuid id :
  demo_Parse (demo_String id) = Some id ∧ demo_String id ≠ ""%string ∧ Str.ValidString (demo_String id) = true.
Proof.
  split_and!; [|done|].
  2:{ unfold demo_String. pose proof (Str.digits_pretty_N id) as H. unfold Str.digits in H.
      destruct (pretty id) eqn:E; [done|]. apply digits_valid in H. exact H. } unfold demo_Parse, demo_String. rewrite Str.strip_prefix_app. cbn [mbind option_bind].
  rewrite Str.digits_pretty_N. cbn [mbind option_bind]. by rewrite N2Z.id.
Qed.

Lemma demo_sign_law : sign_law demo_Sign demo_ParseWithClaims.
Proof.
  intros claims key tok. unfold demo_Sign. case_bool_decide as Hc; [|done]. subst claims.
  destruct (String.eqb_spec key "k") as [->|]; [|done]. intros [= <-]. split; [reflexivity|].
  intros kf t x _ Hk [= <-] Ht. unfold demo_ParseWithClaims. cbn [andb String.eqb].
  rewrite bool_decide_eq_true_2 by done. apply Z.ltb_lt in Ht as ->. reflexivity.
Qed.

Example login_roundtrip_witness :
  (Middleware.AuthMiddleware demo_ParseWithClaims (λ _ : unit, false) demo_Parse demo_String
    (Middleware.mkConfig (JWT.mkValidator "k" "iss") false false true)
    (Middleware.mkWorld Limiter.NewRateLimiter later)
    (Middleware.mkRequest "/api/v1/sessions" "" None "Bearer a.b.c" None) (Middleware.mkEnv 50 0 false false)).2 =
  RBAC.Next (Some (RBAC.mkAuthUser "u2" "v@x" "v@x" "admin" "")).
Proof.
  assert (∃ ur, signed_in.2 = Ret (mkResponse 200 (BLogin "a.b.c" ur))) as [ur Hur] by (eexists; vm_compute; reflexivity).
  assert (signed_in = (signed_in.1, Ret (mkResponse 200 (BLogin "a.b.c" ur)))) as E
    by (rewrite <- Hur; apply surjective_pairing).
  destruct (login_roundtrip demo_Parse demo_String (λ _, ""%string) demo_cmp demo_Sign demo_ParseWithClaims (λ _ : unit, false)
    (Middleware.mkConfig (JWT.mkValidator "k" "iss") false false true) Limiter.NewRateLimiter demo_auth demo_world
    (mkLogin "v@x" "viewer12") demo_env signed_in.1 "a.b.c" ur
    (Middleware.mkRequest "/api/v1/sessions" "" None "Bearer a.b.c" None) later (Middleware.mkEnv 50 0 false false)
    demo_sign_law demo_world_wf eq_refl login_demo_uuid eq_refl eq_refl eq_refl eq_refl E eq_refl eq_refl eq_refl eq_refl eq_refl eq_refl)
    as (x & Hx & _ & [H|H]).
  - exfalso. vm_compute in H. discriminate H.
  - rewrite H. vm_compute in Hx. injection Hx as <-. vm_compute. reflexivity.
Defined.
End UserApi.
