(* ===== verification/Dms.v ===== *)
(** * pkg/lifecycle/dms.go: the Dead Man's Switch

    Each [Start] spawns a goroutine that runs [monitorLoop]. The model is a step
    function on the shared state and the list of goroutines: one label is one
    atomic piece of code (a critical section, a channel operation, a call of
    the process) of one goroutine, so that any interleaving of the monitors
    with [RecordActivity], [Start], [Stop] and the clock is a list of labels.
    Durations are nanoseconds. *)
From S2P Require Import Prelude SessionState.
#[local] Open Scope Z_scope.

Module DMS.

Definition DefaultTTL : Z := 60.
Definition Minute : Z := 60 * 1000000000.
Definition DefaultCheckInterval : Z := 10 * 1000000000.

(** The fields of [DMSConfig] that are data; [hasState] and [hasLogger] are
    whether GetSessionStateFunc and EventLogger are set, [idParses] whether
    [uuid.Parse] accepts the session id. *)
Record DMSConfig := mkConfig {
  TTL : Z; CheckInterval : Z; hasState : bool; hasLogger : bool; idParses : bool;
}.

Definition with_defaults (c : DMSConfig) : DMSConfig :=
  mkConfig (if TTL c <=? 0 then DefaultTTL else TTL c)
    (if CheckInterval c <=? 0 then DefaultCheckInterval else CheckInterval c)
    (hasState c) (hasLogger c) (idParses c).

(** An int64: a TTL of more than 153722867 minutes wraps around, and may come out
    negative, so that the session is suspended at the next tick. *)
Definition int64 (x : Z) : Z := (x + 2 ^ 63) mod 2 ^ 64 - 2 ^ 63.
Definition ttlDuration (c : DMSConfig) : Z := int64 (TTL c * Minute).

(** Where a monitor goroutine is. [AtSelect tick]: blocked in the select, its
    ticker having fired or not; [Checking]: after the read section of
    [checkAndSuspend]; [Suspending], [Resuming]: the flag is set, the process
    not yet signalled; [Suspended_], [Resumed_]: the process is signalled, the
    event and the callback are still to come. *)
Inductive pc :=
  | AtSelect (tick : bool)
  | Checking (idleTime : Z)
  | DoSuspend
  | Suspending
  | Suspended_
  | DoResume
  | Resuming
  | Resumed_
  | Done.

(** What the switch tells the outside. *)
Inductive notice :=
  | LogTriggered | CallOnSuspend
  | LogResumed | CallOnResume.

Record dms := mkDms {
  config : DMSConfig;
  lastActivity : Z;
  suspended : bool;
  suspendCh : bool;             (* a token waits in the channel of capacity 1 *)
  resumeCh : bool;
  cancelled : bool;             (* the context *)
  monitors : list pc;
  stopped : bool;               (* is the process stopped? *)
  session : result unit Session.SessionState;  (* what GetSessionStateFunc would answer *)
  notices : list notice;
  now : Z;
}.

Definition NewDeadManSwitch (c : DMSConfig) (st : result unit Session.SessionState) (t : Z) : dms :=
  mkDms (with_defaults c) t false false false false [] false st [] t.

Definition set_monitors (d : dms) (ms : list pc) : dms :=
  mkDms (config d) (lastActivity d) (suspended d) (suspendCh d) (resumeCh d) (cancelled d)
    ms (stopped d) (session d) (notices d) (now d).
Definition set_pc (d : dms) (i : nat) (p : pc) : dms := set_monitors d (<[i := p]> (monitors d)).
Definition set_suspended (d : dms) (b : bool) : dms :=
  mkDms (config d) (lastActivity d) b (suspendCh d) (resumeCh d) (cancelled d)
    (monitors d) (stopped d) (session d) (notices d) (now d).
Definition set_tokens (d : dms) (s r : bool) : dms :=
  mkDms (config d) (lastActivity d) (suspended d) s r (cancelled d)
    (monitors d) (stopped d) (session d) (notices d) (now d).
Definition set_stopped (d : dms) (b : bool) : dms :=
  mkDms (config d) (lastActivity d) (suspended d) (suspendCh d) (resumeCh d) (cancelled d)
    (monitors d) b (session d) (notices d) (now d).
Definition set_activity (d : dms) (t : Z) : dms :=
  mkDms (config d) t (suspended d) (suspendCh d) (resumeCh d) (cancelled d)
    (monitors d) (stopped d) (session d) (notices d) (now d).
Definition tell (d : dms) (ns : list notice) : dms :=
  mkDms (config d) (lastActivity d) (suspended d) (suspendCh d) (resumeCh d) (cancelled d)
    (monitors d) (stopped d) (session d) (notices d ++ ns) (now d).

(** ** Operations *)

Definition Start (d : dms) : dms := set_monitors d (monitors d ++ [AtSelect false]).

(** [d.cancel()]; [Stop] then waits until every monitor is [Done]. *)
Definition Stop_cancel (d : dms) : dms :=
  mkDms (config d) (lastActivity d) (suspended d) (suspendCh d) (resumeCh d) true
    (monitors d) (stopped d) (session d) (notices d) (now d).
Definition Stop_returns (d : dms) : bool :=
  forallb (λ p, match p with Done => true | _ => false end) (monitors d).

Definition RecordActivity (d : dms) : dms :=
  let d := set_activity d (now d) in
  if suspended d then set_tokens d (suspendCh d) true else d.

Definition GetLastActivity (d : dms) : Z := lastActivity d.
Definition IsSuspended (d : dms) : bool := suspended d.

Definition TimeUntilSuspend (d : dms) : Z :=
  if suspended d then 0 else
  let idleTime := now d - lastActivity d in
  if ttlDuration (config d) <=? idleTime then 0 else ttlDuration (config d) - idleTime.

(** [err == nil && state == session.StateRunning] *)
Definition session_running (d : dms) : bool :=
  hasState (config d) &&
  match session d with Ok s => String.eqb s Session.StateRunning | Err _ => false end.

(** The second half of [checkAndSuspend]. *)
Definition check_rest (d : dms) (idleTime : Z) : dms :=
  if session_running d then d
  else if ttlDuration (config d) <=? idleTime then set_tokens d true (resumeCh d) else d.

(** The events and the callback after the process was signalled. *)
Definition suspend_notices (c : DMSConfig) : list notice :=
  (if hasLogger c && idParses c then [LogTriggered] else []) ++ [CallOnSuspend].
Definition resume_notices (c : DMSConfig) : list notice :=
  (if hasLogger c && idParses c then [LogResumed] else []) ++ [CallOnResume].

(** What the select of a monitor takes, and the outcome of a process call. *)
Inductive choice := TakeDone | TakeSuspend | TakeResume | TakeTick | Go (ok : bool).

(** One atomic step of monitor [i]; [None] when the choice is not ready. *)
Definition monitor_step (d : dms) (i : nat) (p : pc) (c : choice) : option dms :=
  match p, c with
  | AtSelect _, TakeDone => if cancelled d then Some (set_pc d i Done) else None
  | AtSelect t, TakeSuspend =>
      if suspendCh d then Some (set_pc (set_tokens d false (resumeCh d)) i DoSuspend) else None
  | AtSelect t, TakeResume =>
      if resumeCh d then Some (set_pc (set_tokens d (suspendCh d) false) i DoResume) else None
  | AtSelect true, TakeTick =>
      (* the read section of checkAndSuspend *)
      if suspended d then Some (set_pc d i (AtSelect false))
      else Some (set_pc d i (Checking (now d - lastActivity d)))
  | Checking idle, Go _ => Some (set_pc (check_rest d idle) i (AtSelect false))
  | DoSuspend, Go _ =>
      if suspended d || session_running d then Some (set_pc d i (AtSelect false))
      else Some (set_pc (set_suspended d true) i Suspending)
  | Suspending, Go ok =>
      if (ok : bool) then Some (set_pc (set_stopped d true) i Suspended_)
      else Some (set_pc (set_suspended d false) i (AtSelect false))
  | Suspended_, Go _ => Some (set_pc (tell d (suspend_notices (config d))) i (AtSelect false))
  | DoResume, Go _ =>
      if suspended d
      then Some (set_pc (set_activity (set_suspended d false) (now d)) i Resuming)
      else Some (set_pc d i (AtSelect false))
  | Resuming, Go ok =>
      if (ok : bool) then Some (set_pc (set_stopped d false) i Resumed_)
      else Some (set_pc d i (AtSelect false))
  | Resumed_, Go _ => Some (set_pc (tell d (resume_notices (config d))) i (AtSelect false))
  | _, _ => None
  end.

Inductive label :=
  | LTime (delta : Z)
  | LSession (st : result unit Session.SessionState)
  | LActivity
  | LStart
  | LCancel
  | LTick (i : nat)
  | LMonitor (i : nat) (c : choice).

Definition step (d : dms) (l : label) : option dms :=
  match l with
  | LTime delta =>
      if delta <? 0 then None else
      Some (mkDms (config d) (lastActivity d) (suspended d) (suspendCh d) (resumeCh d)
        (cancelled d) (monitors d) (stopped d) (session d) (notices d) (now d + delta))
  | LSession st =>
      Some (mkDms (config d) (lastActivity d) (suspended d) (suspendCh d) (resumeCh d)
        (cancelled d) (monitors d) (stopped d) st (notices d) (now d))
  | LActivity => Some (RecordActivity d)
  | LStart => Some (Start d)
  | LCancel => Some (Stop_cancel d)
  | LTick i =>
      match monitors d !! i with
      | Some (AtSelect _) => Some (set_pc d i (AtSelect true))
      | _ => None
      end
  | LMonitor i c => match monitors d !! i with Some p => monitor_step d i p c | None => None end
  end.

Fixpoint run (d : dms) (ls : list label) : option dms :=
  match ls with
  | [] => Some d
  | l :: ls' => match step d l with Some d' => run d' ls' | None => None end
  end.

(** ** Invariants *)

Lemma run_app d ls1 ls2 :
  run d (ls1 ++ ls2) = match run d ls1 with Some d' => run d' ls2 | None => None end.
Proof. revert d. induction ls1 as [|l ls1 IH]; intros d; [done|]. simpl. by destruct (step d l). Qed.

(** Where the flag and the process stand for one monitor at [p]. *)
Definition agree (p : pc) (susp stop : bool) : Prop :=
  match p with
  | AtSelect _ | Checking _ | DoSuspend | DoResume | Done => stop = susp
  | Suspending => susp = true ∧ stop = false
  | Suspended_ => susp = true ∧ stop = true
  | Resuming => susp = false ∧ stop = true
  | Resumed_ => susp = false ∧ stop = false
  end.

Definition single (d : dms) : Prop :=
  match monitors d with
  | [] => suspended d = false ∧ stopped d = false
  | [p] => agree p (suspended d) (stopped d)
  | _ => False
  end.

(** No second [Start], and no resume of the process that fails. *)
Definition tame (d : dms) (l : label) : Prop :=
  match l with
  | LStart => monitors d = []
  | LMonitor i (Go ok) => monitors d !! i = Some Resuming → ok = true
  | _ => True
  end.

Fixpoint tame_run (d : dms) (ls : list label) : Prop :=
  match ls with
  | [] => True
  | l :: ls' => tame d l ∧ match step d l with Some d' => tame_run d' ls' | None => True end
  end.

Lemma RecordActivity_fields d :
  monitors (RecordActivity d) = monitors d ∧ suspended (RecordActivity d) = suspended d ∧
  stopped (RecordActivity d) = stopped d ∧ suspendCh (RecordActivity d) = suspendCh d ∧
  cancelled (RecordActivity d) = cancelled d ∧ config (RecordActivity d) = config d ∧
  now (RecordActivity d) = now d ∧
  resumeCh (RecordActivity d) = (resumeCh d || suspended d).
Proof.
  unfold RecordActivity. simpl. destruct (suspended d) eqn:Hs; simpl;
    rewrite ?orb_false_r, ?orb_true_r; by split_and!.
Qed.

Lemma check_rest_fields d idle :
  monitors (check_rest d idle) = monitors d ∧ suspended (check_rest d idle) = suspended d ∧
  stopped (check_rest d idle) = stopped d ∧ resumeCh (check_rest d idle) = resumeCh d ∧
  cancelled (check_rest d idle) = cancelled d ∧ config (check_rest d idle) = config d.
Proof. unfold check_rest. repeat case_match; by split_and!. Qed.

(** The states one monitor step can lead to. *)
Lemma monitor_step_single d p c d' :
  monitors d = [p] → agree p (suspended d) (stopped d) → monitor_step d 0 p c = Some d' →
  (∀ ok, c = Go ok → p = Resuming → ok = true) →
  ∃ p', monitors d' = [p'] ∧ agree p' (suspended d') (stopped d').
Proof.
  intros Hm Ha Hs Htame.
  destruct (check_rest_fields d 0) as (Hc1 & Hc2 & Hc3 & _).
  destruct p as [[]|idle| | | | | | |], c as [| | | |ok]; simpl in Hs, Ha; try done;
    repeat case_match; simplify_eq; simpl; rewrite ?Hm; simpl;
    try (eexists; split; [done|]; simpl; naive_solver).
  - destruct (check_rest_fields d idle) as (E1 & E2 & E3 & _).
    eexists. rewrite E1, Hm. split; [done|]. simpl. by rewrite E2, E3.
  - apply orb_false_iff in H as [Hf _]. eexists. split; [done|]. simpl. by rewrite Ha.
Qed.

Lemma step_single d l d' : single d → tame d l → step d l = Some d' → single d'.
Proof.
  unfold single. intros Hs Ht Hst. destruct l as [delta|st| | | |i|i c]; simpl in Hst.
  - destruct (delta <? 0); [done|]. by simplify_eq.
  - by simplify_eq.
  - simplify_eq. destruct (RecordActivity_fields d) as (-> & -> & -> & _). done.
  - simplify_eq. simpl in *. rewrite Ht in *. simpl. destruct Hs. congruence.
  - by simplify_eq.
  - destruct (monitors d !! i) as [[]|] eqn:Hi; simplify_eq. simpl.
    destruct (monitors d) as [|p [|]]; try done. destruct i as [|[]]; simpl in *; try done.
    injection Hi as ->. exact Hs.
  - destruct (monitors d !! i) as [p|] eqn:Hi; [|done].
    destruct (monitors d) as [|p0 [|]] eqn:Hm; try done. destruct i as [|[]]; simpl in Hi; try done.
    injection Hi as ->.
    destruct (monitor_step_single d p c d' Hm Hs Hst) as (p' & -> & ?); [|done].
    intros ok -> ->. apply Ht. simpl. by rewrite Hm.
Qed.

Lemma run_single ls : ∀ d d', single d → tame_run d ls → run d ls = Some d' → single d'.
Proof.
  induction ls as [|l ls IH]; intros d d' Hs Ht Hr; simpl in *; [by simplify_eq|].
  destruct Ht as [Ht1 Ht2]. destruct (step d l) as [d1|] eqn:Hd; [|done].
  eapply IH; [|done|done]. by eapply step_single.
Qed.

Lemma cancelled_mono d l d' : step d l = Some d' → cancelled d = true → cancelled d' = true.
Proof.
  destruct l as [delta|st| | | |i|i c]; simpl; intros Hs Hc.
  - destruct (delta <? 0); [done|]. by simplify_eq.
  - by simplify_eq.
  - simplify_eq. by destruct (RecordActivity_fields d) as (_ & _ & _ & _ & -> & _).
  - by simplify_eq.
  - by simplify_eq.
  - repeat case_match; by simplify_eq.
  - destruct (monitors d !! i) as [p|]; [|done].
    destruct p as [[]|idle| | | | | | |], c as [| | | |ok]; simpl in Hs; try done;
      repeat case_match; simplify_eq; simpl; try done.
    by destruct (check_rest_fields d idle) as (_ & _ & _ & _ & -> & _).
Qed.

Lemma config_same d l d' : step d l = Some d' → config d' = config d.
Proof.
  destruct l as [delta|st| | | |i|i c]; simpl; intros Hs.
  - destruct (delta <? 0); [done|]. by simplify_eq.
  - by simplify_eq.
  - simplify_eq. by destruct (RecordActivity_fields d) as (_ & _ & _ & _ & _ & -> & _).
  - by simplify_eq.
  - by simplify_eq.
  - repeat case_match; by simplify_eq.
  - destruct (monitors d !! i) as [p|]; [|done].
    destruct p as [[]|idle| | | | | | |], c as [| | | |ok]; simpl in Hs; try done;
      repeat case_match; simplify_eq; simpl; try done.
    by destruct (check_rest_fields d idle) as (_ & _ & _ & _ & _ & ->).
Qed.

(** A wake-up token stays until a monitor takes it. *)
Lemma resume_token_stays d l d' :
  step d l = Some d' → resumeCh d = true → (∀ i, l ≠ LMonitor i TakeResume) → resumeCh d' = true.
Proof.
  destruct l as [delta|st| | | |i|i c]; simpl; intros Hs Hc Hl.
  - destruct (delta <? 0); [done|]. by simplify_eq.
  - by simplify_eq.
  - simplify_eq. destruct (RecordActivity_fields d) as (_ & _ & _ & _ & _ & _ & _ & ->). by rewrite Hc.
  - by simplify_eq.
  - by simplify_eq.
  - repeat case_match; by simplify_eq.
  - destruct (monitors d !! i) as [p|]; [|done].
    destruct p as [[]|idle| | | | | | |], c as [| | | |ok]; simpl in Hs; try done;
      repeat case_match; simplify_eq; simpl; try done; try by destruct (Hl i).
    by destruct (check_rest_fields d idle) as (_ & _ & _ & -> & _).
Qed.

(** *** Why a suspension happens *)

(** Some point of the run at which the session had been idle for its TTL. *)
Definition idle_seen (d0 : dms) (ls : list label) : Prop :=
  ∃ pre d1, pre `prefix_of` ls ∧ run d0 pre = Some d1 ∧
    ttlDuration (config d1) <= now d1 - lastActivity d1.

Lemma idle_seen_more d0 ls l : idle_seen d0 ls → idle_seen d0 (ls ++ [l]).
Proof.
  intros (pre & d1 & Hp & H). exists pre, d1. split; [|done]. by apply prefix_app_r.
Qed.

(** Every token and every pending suspension goes back to such a point. *)
Definition traced (d0 : dms) (ls : list label) (d : dms) : Prop :=
  (suspendCh d = true → idle_seen d0 ls) ∧
  (∀ i, monitors d !! i = Some DoSuspend → idle_seen d0 ls) ∧
  (∀ i idle, monitors d !! i = Some (Checking idle) → ttlDuration (config d) <= idle →
     idle_seen d0 ls).

(** A step whose new tokens and positions are explained keeps the trace. *)
Lemma traced_set d0 ls d d' i p :
  traced d0 ls d → config d' = config d →
  (suspendCh d' = true → idle_seen d0 ls) →
  monitors d' = <[i := p]> (monitors d) →
  (p = DoSuspend → idle_seen d0 ls) →
  (∀ idle, p = Checking idle → ttlDuration (config d) <= idle → idle_seen d0 ls) →
  traced d0 ls d'.
Proof.
  intros (H1 & H2 & H3) Hc Ht Hm Hp1 Hp2. unfold traced. rewrite Hc, Hm. split_and!; [done| |].
  - intros j Hj. apply list_lookup_insert_Some in Hj as [(_ & -> & _)|[_ Hj]]; eauto.
  - intros j idle Hj. apply list_lookup_insert_Some in Hj as [(_ & Heq & _)|[_ Hj]]; eauto.
Qed.

Lemma traced_monitor d0 ls d i p c d' :
  traced d0 ls d → run d0 ls = Some d → monitors d !! i = Some p →
  monitor_step d i p c = Some d' → traced d0 ls d'.
Proof.
  intros Htr Hrun Hi Hs. pose proof Htr as (H1 & H2 & H3).
  destruct p as [[]|idle| | | | | | |], c as [| | | |ok]; simpl in Hs; try done;
    repeat case_match; simplify_eq; (eapply traced_set; [exact Htr|..]); simpl; try done; eauto;
    try (by apply check_rest_fields).
  - intros idle [= <-] Hidle. exists ls, d. by split_and!.
  - unfold check_rest. destruct (session_running d); [done|].
    destruct (Z.leb_spec (ttlDuration (config d)) idle); simpl; eauto.
  - by destruct (check_rest_fields d idle) as (-> & _).
  - done.
  - done.
Qed.

Lemma traced_mono d0 ls l d : traced d0 ls d → traced d0 (ls ++ [l]) d.
Proof.
  intros (H1 & H2 & H3). split_and!.
  - intros H. by apply idle_seen_more, H1.
  - intros i H. by eapply idle_seen_more, H2.
  - intros i idle H Hle. by eapply idle_seen_more, H3.
Qed.

(** A step that leaves tokens and positions alone. *)
Lemma traced_same d0 ls d d' :
  traced d0 ls d → config d' = config d → suspendCh d' = suspendCh d →
  monitors d' = monitors d → traced d0 ls d'.
Proof. intros (H1 & H2 & H3) Hc Ht Hm. unfold traced. by rewrite Hc, Ht, Hm. Qed.

Lemma traced_step d0 ls d l d' :
  traced d0 ls d → run d0 ls = Some d → step d l = Some d' → traced d0 (ls ++ [l]) d'.
Proof.
  intros Htr Hrun Hs. apply traced_mono. destruct l as [delta|st| | | |i|i c]; simpl in Hs.
  - destruct (delta <? 0); [done|]. simplify_eq. by eapply traced_same.
  - simplify_eq. by eapply traced_same.
  - simplify_eq. destruct (RecordActivity_fields d) as (? & ? & ? & ? & ? & ? & _).
    by eapply traced_same.
  - simplify_eq. destruct Htr as (H1 & H2 & H3). split_and!; simpl; [done| |].
    + intros i [Hi|[_ Hi]]%lookup_app_Some; [by eapply H2|].
      by apply list_lookup_singleton_Some in Hi as [_ [=]].
    + intros i idle [Hi|[_ Hi]]%lookup_app_Some; [by eapply H3|].
      by apply list_lookup_singleton_Some in Hi as [_ [=]].
  - simplify_eq. by eapply traced_same.
  - destruct (monitors d !! i) as [[]|] eqn:Hi; simplify_eq.
    eapply traced_set; [exact Htr|..]; simpl; try done. apply Htr.
  - destruct (monitors d !! i) as [p|] eqn:Hi; [|done]. by eapply traced_monitor.
Qed.

Lemma run_traced d0 ls : ∀ d, traced d0 [] d0 → run d0 ls = Some d → traced d0 ls d.
Proof.
  induction ls as [|l ls IH] using rev_ind; intros d H0 Hr.
  - simpl in Hr. by simplify_eq.
  - rewrite run_app in Hr. destruct (run d0 ls) as [d1|] eqn:H1; [|done]. simpl in Hr.
    destruct (step d1 l) as [d2|] eqn:H2; [|done]. simplify_eq.
    eapply traced_step; [by apply IH|done|done].
Qed.

(** ** Properties *)

Lemma New_single c st t : single (NewDeadManSwitch c st t).
Proof. by split. Qed.

(** One wake-up, from the token to the callback. *)
Lemma resume_cycle cf la sc cn b sp se ns nw :
  run (mkDms cf la true sc true cn [AtSelect b] sp se ns nw)
    [LMonitor 0 TakeResume; LMonitor 0 (Go true); LMonitor 0 (Go true); LMonitor 0 (Go true)]
  = Some (mkDms cf nw false sc false cn [AtSelect false] false se (ns ++ resume_notices cf) nw).
Proof. by destruct b. Qed.

Lemma New_traced c st t : traced (NewDeadManSwitch c st t) [] (NewDeadManSwitch c st t).
Proof. split_and!; try done; intros i; simpl; by rewrite lookup_nil. Qed.

(** C7: the flag tells the truth, and activity wakes the process up. Started
    once, and as long as resuming the process does not fail, the switch has the
    process stopped exactly when its flag says suspended, whenever its monitor
    is in the select or has ended, however calls, clock and monitor interleave
    and also when suspending fails. And if activity is recorded while the flag
    is set and the monitor waits, a resume token waits until the monitor takes
    it, and taking it makes the process run, with the flag cleared and both
    the event and the callback delivered. *)
Theorem suspended_flag_truthful c st t ls d :
  run (NewDeadManSwitch c st t) ls = Some d → tame_run (NewDeadManSwitch c st t) ls →
  (∀ p, p ∈ monitors d → (∃ b, p = AtSelect b) ∨ p = Done → stopped d = suspended d) ∧
  (∀ b, monitors d = [AtSelect b] → suspended d = true →
     ∃ d1, step d LActivity = Some d1 ∧ resumeCh d1 = true ∧
       (∀ l d2, step d1 l = Some d2 → (∀ i, l ≠ LMonitor i TakeResume) → resumeCh d2 = true) ∧
       ∃ d3, run d1 [LMonitor 0 TakeResume; LMonitor 0 (Go true); LMonitor 0 (Go true);
                     LMonitor 0 (Go true)] = Some d3 ∧
         stopped d3 = false ∧ suspended d3 = false ∧ lastActivity d3 = now d ∧
         notices d3 = notices d ++ resume_notices (config d)).
Proof.
  intros Hr Ht. pose proof (run_single _ _ _ (New_single c st t) Ht Hr) as Hs.
  unfold single in Hs. split.
  - intros p Hp Hat. destruct (monitors d) as [|q [|]]; [by apply elem_of_nil in Hp| |done].
    apply list_elem_of_singleton in Hp as ->. by destruct Hat as [[b ->]| ->].
  - intros b Hm Hsus. rewrite Hm in Hs. simpl in Hs.
    exists (RecordActivity d). destruct (RecordActivity_fields d) as (E1 & E2 & E3 & E4 & E5 & E6 & E7 & E8).
    rewrite Hsus, orb_true_r in E8. split_and!; [done|done| |].
    + intros l d2 Hst Hl. by eapply resume_token_stays.
    + destruct d as [cf la su sc rc cn ms sp se ns nw]. simpl in *. subst.
      eexists. split; [apply resume_cycle|]. by split_and!.
Qed.

Definition demo_config : DMSConfig := mkConfig 1 0 true true true.
Definition demo_labels : list label :=
  [LStart; LTime Minute; LTick 0; LMonitor 0 TakeTick; LMonitor 0 (Go true);
   LMonitor 0 TakeSuspend; LMonitor 0 (Go true); LMonitor 0 (Go true); LMonitor 0 (Go true)].
Definition demo_end : dms :=
  default (NewDeadManSwitch demo_config (Ok Session.StateDetached) 0)
    (run (NewDeadManSwitch demo_config (Ok Session.StateDetached) 0) demo_labels).

Example suspended_flag_truthful_witness :
  (stopped demo_end, notices demo_end) = (true, [LogTriggered; CallOnSuspend]) ∧
  ∃ d1, step demo_end LActivity = Some d1 ∧ resumeCh d1 = true ∧
    (∀ l d2, step d1 l = Some d2 → (∀ i, l ≠ LMonitor i TakeResume) → resumeCh d2 = true) ∧
    ∃ d3, run d1 [LMonitor 0 TakeResume; LMonitor 0 (Go true); LMonitor 0 (Go true);
                  LMonitor 0 (Go true)] = Some d3 ∧
      stopped d3 = false ∧ suspended d3 = false ∧ lastActivity d3 = now demo_end ∧
      notices d3 = notices demo_end ++ resume_notices (config demo_end).
Proof.
  split; [vm_compute; reflexivity|].
  apply (suspended_flag_truthful demo_config (Ok Session.StateDetached) 0 demo_labels demo_end)
    with (b := false); [vm_compute; reflexivity| |vm_compute; reflexivity..].
  vm_compute. repeat split; intros; congruence.
Defined.

(** why the switch suspends. With any number of monitors and any
    interleaving, a monitor sets the suspended flag only at a moment when the
    session is not RUNNING (as far as its state can be asked), and only if at
    some earlier point of the run the session had been idle for the whole TTL. *)
Theorem suspends_only_after_ttl c st t ls d i ch d' :
  run (NewDeadManSwitch c st t) ls = Some d → step d (LMonitor i ch) = Some d' →
  suspended d = false → suspended d' = true →
  session_running d = false ∧
  ∃ pre d1, pre `prefix_of` ls ∧ run (NewDeadManSwitch c st t) pre = Some d1 ∧
    ttlDuration (with_defaults c) <= now d1 - lastActivity d1.
Proof.
  intros Hr Hst Hs Hs'. pose proof (run_traced _ _ _ (New_traced c st t) Hr) as (_ & Htr & _).
  assert (∀ l d1, run (NewDeadManSwitch c st t) l = Some d1 → config d1 = with_defaults c) as Hcfg.
  { intros l. induction l as [|x l IH] using rev_ind; intros d1 H1; [by simpl in H1; simplify_eq|].
    rewrite run_app in H1. destruct (run _ l) as [d0|] eqn:H0; [|done]. simpl in H1.
    destruct (step d0 x) as [d2|] eqn:H2; [|done]. simplify_eq.
    rewrite (config_same _ _ _ H2). by apply IH. }
  simpl in Hst. destruct (monitors d !! i) as [p|] eqn:Hi; [|done].
  assert (p = DoSuspend ∧ session_running d = false) as [-> Hrun].
  { destruct p as [[]|idle| | | | | | |], ch as [| | | |ok]; simpl in Hst; try done;
      repeat case_match; simplify_eq; simpl in *; try congruence.
    - destruct (check_rest_fields d idle) as (_ & E & _). congruence.
    - by apply orb_false_iff in H as [_ ?]. }
  split; [done|]. destruct (Htr i Hi) as (pre & d1 & Hp & H1 & Hle). exists pre, d1.
  rewrite <-(Hcfg _ _ H1). done.
Qed.

Example suspends_only_after_ttl_witness :
  let d := default (NewDeadManSwitch demo_config (Ok Session.StateDetached) 0)
    (run (NewDeadManSwitch demo_config (Ok Session.StateDetached) 0) (take 6 demo_labels)) in
  session_running d = false ∧
  ∃ pre d1, pre `prefix_of` take 6 demo_labels ∧
    run (NewDeadManSwitch demo_config (Ok Session.StateDetached) 0) pre = Some d1 ∧
    ttlDuration (with_defaults demo_config) <= now d1 - lastActivity d1.
Proof.
  intros d.
  apply (suspends_only_after_ttl demo_config (Ok Session.StateDetached) 0 (take 6 demo_labels) d 0
    (Go true) (default d (step d (LMonitor 0 (Go true))))); vm_compute; reflexivity.
Defined.

Lemma run_cons d l ls d' : step d l = Some d' → run d (l :: ls) = run d' ls.
Proof. intros H. simpl. by rewrite H. Qed.

(** Executes the first label of a run on an explicit state. *)
Ltac exec_step Hneg Hrun Hdue :=
  erewrite run_cons;
  [|cbv -[Z.add Z.sub Z.ltb Z.leb session_running ttlDuration Session.StateRunning];
    rewrite ?Hneg, ?Hrun, ?Hdue; reflexivity].

(** two ways to be left stopped. (1) Activity between the check and the
    suspension does not count: the process is stopped although the session was
    used at that very moment, and no wake-up is pending. (2) A second [Start]
    runs a second monitor (the daemon calls [Start] on every detach), and then
    one monitor can resume while the other is about to suspend: the process
    ends up stopped with the flag cleared, nothing pending, and later activity
    leaves it stopped. Both for every configuration and start time, and any
    session state other than RUNNING. *)
Theorem suspension_races c s t :
  s ≠ Session.StateRunning →
  let d0 := NewDeadManSwitch c (Ok s) t in
  let due := LTime (ttlDuration (with_defaults c)) in
  (0 <= ttlDuration (with_defaults c) →
   ∃ d, run d0 [LStart; due; LTick 0; LMonitor 0 TakeTick; LMonitor 0 (Go true); LActivity;
                LMonitor 0 TakeSuspend; LMonitor 0 (Go true); LMonitor 0 (Go true);
                LMonitor 0 (Go true)] = Some d ∧
     stopped d = true ∧ lastActivity d = now d ∧ resumeCh d = false) ∧
  (0 <= ttlDuration (with_defaults c) →
   ∃ d d', run d0 [LStart; LStart; due; LTick 0; LMonitor 0 TakeTick; LMonitor 0 (Go true);
                LMonitor 0 TakeSuspend; LMonitor 0 (Go true); LActivity;
                LMonitor 1 TakeResume; LMonitor 1 (Go true); LMonitor 1 (Go true);
                LMonitor 1 (Go true); LMonitor 0 (Go true); LMonitor 0 (Go true)] = Some d ∧
     stopped d = true ∧ suspended d = false ∧ suspendCh d = false ∧ resumeCh d = false ∧
     monitors d = [AtSelect false; AtSelect false] ∧
     step d LActivity = Some d' ∧ stopped d' = true ∧ suspended d' = false ∧
     suspendCh d' = false ∧ resumeCh d' = false).
Proof.
  intros Hs d0 due. unfold due, d0, NewDeadManSwitch.
  generalize (with_defaults c). intros cfg. clear c d0 due.
  assert (∀ la su sc rc cn ms sp ns nw,
    session_running (mkDms cfg la su sc rc cn ms sp (Ok s) ns nw) = false) as Hrun.
  { intros. unfold session_running. cbn [config session].
    destruct (String.eqb_spec s Session.StateRunning); [done|apply andb_false_r]. }
  split; intros HT;
    (assert ((ttlDuration cfg <? 0) = false) as Hneg by (apply Z.ltb_ge; lia));
    (assert ((ttlDuration cfg <=? t + ttlDuration cfg - t) = true) as Hdue by (apply Z.leb_le; lia)).
  - eexists. split; [do 10 exec_step Hneg Hrun Hdue; reflexivity|]. by split_and!.
  - eexists _, _. split; [do 15 exec_step Hneg Hrun Hdue; reflexivity|]. by split_and!.
Qed.

Example ttlDuration_wraps : ttlDuration (mkConfig 153722867 0 true true true) = 9223372020000000000 ∧
  ttlDuration (mkConfig 153722868 0 true true true) = - 9223371993709551616.
Proof. by vm_compute. Qed.

Example suspension_races_witness :
  ∃ d, run (NewDeadManSwitch demo_config (Ok Session.StateDetached) 0)
         [LStart; LTime (ttlDuration (with_defaults demo_config)); LTick 0; LMonitor 0 TakeTick;
          LMonitor 0 (Go true); LActivity; LMonitor 0 TakeSuspend; LMonitor 0 (Go true);
          LMonitor 0 (Go true); LMonitor 0 (Go true)] = Some d ∧
     stopped d = true ∧ lastActivity d = now d ∧ resumeCh d = false.
Proof. apply (suspension_races demo_config Session.StateDetached 0); vm_compute; discriminate. Defined.

(** [Stop] is for ever. Once the context is cancelled it stays so, whatever
    happens later, and a monitor that a later [Start] spawns can only end, as
    long as nothing else is pending: the switch never checks idle time again.
    (The daemon stops the switch on re-attach and starts it again on detach.) *)
Theorem Stop_is_final d ls d' :
  run (Stop_cancel d) ls = Some d' →
  cancelled d' = true ∧
  let d1 := Start d' in
  let i := length (monitors d') in
  monitors d1 !! i = Some (AtSelect false) ∧
  (suspendCh d' = false → resumeCh d' = false →
   (∀ c d2, step d1 (LMonitor i c) = Some d2 → c = TakeDone) ∧
   ∃ d2, step d1 (LMonitor i TakeDone) = Some d2 ∧ monitors d2 !! i = Some Done).
Proof.
  intros Hr.
  assert (cancelled d' = true) as Hc.
  { revert Hr. generalize (Stop_cancel d) (eq_refl : cancelled (Stop_cancel d) = true).
    induction ls as [|l ls IH]; intros d0 H0 Hr; simpl in Hr; [by simplify_eq|].
    destruct (step d0 l) as [d1|] eqn:H1; [|done]. eapply IH; [|done]. by eapply cancelled_mono. }
  split; [done|]. cbv zeta.
  assert (monitors (Start d') !! length (monitors d') = Some (AtSelect false)) as Hi
    by (simpl; by rewrite lookup_app_r, Nat.sub_diag).
  split; [done|]. intros Hs Hres. split.
  - intros c d2. cbn [step]. rewrite Hi. destruct c; simpl; rewrite ?Hs, ?Hres; done.
  - cbn [step]. rewrite Hi. simpl. rewrite Hc. eexists. split; [done|]. simpl.
    apply list_lookup_insert_eq. rewrite length_app. simpl. lia.
Qed.

Example Stop_is_final_witness :
  let d := NewDeadManSwitch demo_config (Ok Session.StateDetached) 0 in
  cancelled (Stop_cancel d) = true ∧
  let d1 := Start (Stop_cancel d) in
  let i := length (monitors (Stop_cancel d)) in
  monitors d1 !! i = Some (AtSelect false) ∧
  (suspendCh (Stop_cancel d) = false → resumeCh (Stop_cancel d) = false →
   (∀ c d2, step d1 (LMonitor i c) = Some d2 → c = TakeDone) ∧
   ∃ d2, step d1 (LMonitor i TakeDone) = Some d2 ∧ monitors d2 !! i = Some Done).
Proof. intros d. apply (Stop_is_final d [] (Stop_cancel d)). reflexivity. Defined.

End DMS.
