(* ===== verification/Resize.v ===== *)
(** * internal/session/resize.go: one terminal size for all attached clients

    Clients are structs held by pointer: [clients] maps ids to references into
    [store]. Each method is a sequence of critical sections; the sections are
    the definitions, so that two calls can be interleaved. [range_keys] is the
    order in which Go walks the map of clients. *)
From S2P Require Import Prelude Channels.
Import Chan.
#[local] Open Scope Z_scope.

Module Resize.

Record BoundingBox := mkBox { bCols : Z; bRows : Z }.

(** [Cols] and [Rows] are int16. *)
Record Client := mkClient { ID : N; Cols : Z; Rows : Z; SendChan : option N }.

Record ResizeAck := mkAck { a_SessionID : N; a_Cols : Z; a_Rows : Z }.
Record ResizeCommand := mkCommand {
  c_SessionID : N; c_Cols : Z; c_Rows : Z; PixelWidth : Z; PixelHeight : Z;
}.

(** [pusher] is whether a satellite pusher is set; [pushed] are the commands
    given to it, oldest first. *)
Record ResizeManager := mkManager {
  clients : gmap N N;
  store : gmap N Client;
  sessionID : N;
  pusher : bool;
  pushed : list ResizeCommand;
  chans : heap ResizeAck;
}.

Definition NewResizeManager (sid : N) (st : gmap N Client) (h : heap ResizeAck) : ResizeManager :=
  mkManager ∅ st sid false [] h.

Definition set_clients (rm : ResizeManager) (m : gmap N N) : ResizeManager :=
  mkManager m (store rm) (sessionID rm) (pusher rm) (pushed rm) (chans rm).

Definition SetSatellitePusher (rm : ResizeManager) (set : bool) : ResizeManager :=
  mkManager (clients rm) (store rm) (sessionID rm) set (pushed rm) (chans rm).

(** The argument is a pointer to a client of the store. *)
Definition AddClient (rm : ResizeManager) (ptr : N) : go ResizeManager :=
  match store rm !! ptr with
  | None => Panic
  | Some c => Ret (set_clients rm (<[ID c := ptr]> (clients rm)))
  end.

Definition RemoveClient (rm : ResizeManager) (clientID : N) : ResizeManager :=
  set_clients rm (delete clientID (clients rm)).

Definition UpdateClientDimensions (rm : ResizeManager) (clientID : N) (cols rows : Z) : ResizeManager :=
  match clients rm !! clientID with
  | None => rm
  | Some ptr =>
      match store rm !! ptr with
      | None => rm
      | Some c => mkManager (clients rm)
                    (<[ptr := mkClient (ID c) cols rows (SendChan c)]> (store rm))
                    (sessionID rm) (pusher rm) (pushed rm) (chans rm)
      end
  end.

Definition CreateResizeCommand (sid : N) (b : BoundingBox) : ResizeCommand :=
  mkCommand sid (bCols b) (bRows b) 0 0.

Definition ClientCount (rm : ResizeManager) : nat := size (clients rm).

Section Walk.
Variable range_keys : gset N → list N.
Hypothesis range_perm : ∀ X, range_keys X ≡ₚ elements X.

(** The clients in the order of the walk. *)
Definition walk (rm : ResizeManager) : list Client :=
  omap (λ id, clients rm !! id ≫= λ ptr, store rm !! ptr) (range_keys (dom (clients rm))).

(** The body of the loop of [CalculateBoundingBox]. *)
Definition box_step (b : BoundingBox) (c : Client) : BoundingBox :=
  mkBox (if (bCols b =? 0) || (Cols c <? bCols b) then Cols c else bCols b)
        (if (bRows b =? 0) || (Rows c <? bRows b) then Rows c else bRows b).

Definition CalculateBoundingBox (rm : ResizeManager) : BoundingBox :=
  if (Z.of_nat (size (clients rm)) =? 0) then mkBox 80 24
  else foldl box_step (mkBox 0 0) (walk rm).

Definition GetEffectiveDimensions := CalculateBoundingBox.

(** The error of PushResize is dropped. *)
Definition pushResizeToSatellite (rm : ResizeManager) (b : BoundingBox) : ResizeManager :=
  if pusher rm
  then mkManager (clients rm) (store rm) (sessionID rm) (pusher rm)
         (pushed rm ++ [CreateResizeCommand (sessionID rm) b]) (chans rm)
  else rm.

Fixpoint ack_each (h : heap ResizeAck) (cs : list Client) (a : ResizeAck) : go (heap ResizeAck) :=
  match cs with
  | [] => Ret h
  | c :: cs' => '(h', _) ← try_send h (SendChan c) a; ack_each h' cs' a
  end.

Definition broadcastResizeAck (rm : ResizeManager) (b : BoundingBox) : go ResizeManager :=
  h ← ack_each (chans rm) (walk rm) (mkAck (sessionID rm) (bCols b) (bRows b));
  Ret (mkManager (clients rm) (store rm) (sessionID rm) (pusher rm) (pushed rm) h).

(** What every handler does after it changed the clients. *)
Definition announce (rm : ResizeManager) : go (ResizeManager * BoundingBox) :=
  let b := CalculateBoundingBox rm in
  rm' ← broadcastResizeAck (pushResizeToSatellite rm b) b;
  Ret (rm', b).

Definition HandleResize (rm : ResizeManager) (clientID : N) (cols rows : Z)
    : go (ResizeManager * BoundingBox) :=
  announce (UpdateClientDimensions rm clientID cols rows).

Definition HandleClientAttach (rm : ResizeManager) (ptr : N) : go (ResizeManager * BoundingBox) :=
  rm' ← AddClient rm ptr; announce rm'.

Definition HandleClientDetach (rm : ResizeManager) (clientID : N) : go (ResizeManager * BoundingBox) :=
  announce (RemoveClient rm clientID).

(** ** The minimum *)

(** Ids name existing clients, with positive sizes. *)
Definition manager_ok (rm : ResizeManager) : Prop :=
  ∀ id ptr, clients rm !! id = Some ptr →
    ∃ c, store rm !! ptr = Some c ∧ ID c = id ∧ 0 < Cols c ∧ 0 < Rows c.

Definition attached (rm : ResizeManager) (c : Client) : Prop :=
  ∃ ptr, clients rm !! ID c = Some ptr ∧ store rm !! ptr = Some c.

Lemma elem_of_walk rm c : manager_ok rm → c ∈ walk rm ↔ attached rm c.
Proof.
  intros Hok. unfold walk. rewrite list_elem_of_omap. split.
  - intros (id & Hid & Hc). apply bind_Some in Hc as (ptr & Hptr & Hc).
    destruct (Hok _ _ Hptr) as (c' & Hc' & Hi & _). exists ptr. rewrite Hc in Hc'.
    injection Hc' as <-. by rewrite Hi.
  - intros (ptr & Hptr & Hc). exists (ID c). split; [|by rewrite Hptr].
    rewrite range_perm, elem_of_elements. by apply elem_of_dom.
Qed.

(** The loop computes the minimum of each dimension once it has seen a client. *)
Lemma box_fold cs : ∀ b,
  0 < bCols b → 0 < bRows b → (∀ c, c ∈ cs → 0 < Cols c ∧ 0 < Rows c) →
  let r := foldl box_step b cs in
  (0 < bCols r ∧ 0 < bRows r) ∧
  (bCols r <= bCols b ∧ bRows r <= bRows b) ∧
  (∀ c, c ∈ cs → bCols r <= Cols c ∧ bRows r <= Rows c) ∧
  (bCols r = bCols b ∨ ∃ c, c ∈ cs ∧ bCols r = Cols c) ∧
  (bRows r = bRows b ∨ ∃ c, c ∈ cs ∧ bRows r = Rows c).
Proof.
  induction cs as [|c cs IH]; intros b Hc Hr Hpos; cbn [foldl].
  { split_and!; try lia; auto. by intros ? ?%elem_of_nil. }
  destruct (Hpos c (list_elem_of_here _ _)) as [Hc1 Hc2].
  assert (bCols (box_step b c) = Z.min (Cols c) (bCols b) ∧
          bRows (box_step b c) = Z.min (Rows c) (bRows b)) as [E1 E2].
  { unfold box_step. simpl. bool_cases; lia. }
  destruct (IH (box_step b c)) as ((?&?) & (?&?) & Hle & Hcol & Hrow); [lia|lia| |].
  { intros c' Hc'. by apply Hpos, list_elem_of_further. }
  split_and!; try lia.
  - intros c' [->|Hc']%elem_of_cons; [lia|by apply Hle].
  - destruct Hcol as [Hcol|(c' & ? & ?)]; [|right; exists c'; split; [by apply list_elem_of_further|done]].
    destruct (Z.min_spec (Cols c) (bCols b)) as [[_ Hm]|[_ Hm]]; [right; exists c|left; lia].
    split; [apply list_elem_of_here|lia].
  - destruct Hrow as [Hrow|(c' & ? & ?)]; [|right; exists c'; split; [by apply list_elem_of_further|done]].
    destruct (Z.min_spec (Rows c) (bRows b)) as [[_ Hm]|[_ Hm]]; [right; exists c|left; lia].
    split; [apply list_elem_of_here|lia].
Qed.

Lemma box_first c : 0 < Cols c → 0 < Rows c → box_step (mkBox 0 0) c = mkBox (Cols c) (Rows c).
Proof. done. Qed.

(** *** The acks *)

Lemma ack_each_spec cs a : ∀ h,
  (∀ c, c ∈ cs → ∃ ref, SendChan c = Some ref ∧ open h ref) → NoDup (SendChan <$> cs) →
  ∃ h', ack_each h cs a = Ret h' ∧
    (∀ c ref, c ∈ cs → SendChan c = Some ref →
       pending h' ref = pending h ref ++ (if has_room h ref then [a] else [])) ∧
    (∀ ref, Some ref ∉ SendChan <$> cs → h' !! ref = h !! ref).
Proof.
  induction cs as [|c cs IH]; intros h Hop Hnd; cbn [ack_each].
  { exists h. split_and!; try done. by intros ? ? ?%elem_of_nil. }
  destruct (Hop c (list_elem_of_here _ _)) as (r & Hr & Hopr). rewrite fmap_cons in Hnd.
  apply NoDup_cons in Hnd as [Hni Hnd]. rewrite Hr in Hni |- *.
  destruct (try_send_open h r a Hopr) as (h1 & ok & -> & _ & Hp & Hne & Hiff & _).
  cbn [mbind go_bind].
  destruct (IH h1) as (h2 & -> & Hin & Hout); [|done|].
  { intros c' Hc'. destruct (Hop c' (list_elem_of_further _ _ _ Hc')) as (r' & ? & ?).
    exists r'. split; [done|]. by apply Hiff. }
  exists h2. split; [done|]. split.
  - intros c' r' [->|Hc']%elem_of_cons Hr'.
    + rewrite Hr in Hr'. injection Hr' as <-. rewrite <-Hp. unfold pending. by rewrite Hout.
    + rewrite (Hin c' r') by done. assert (r' ≠ r) as Hneq.
      { intros ->. apply Hni. rewrite <-Hr'. by apply list_elem_of_fmap_2. }
      unfold pending, has_room. by rewrite (Hne r' Hneq).
  - intros r' Hr'. rewrite fmap_cons, not_elem_of_cons, Hr in Hr'. destruct Hr' as [Hr1 Hr2].
    rewrite Hout by done. apply Hne. congruence.
Qed.

(** The bounding box. With no client it is 80x24. With clients of positive
    sizes it is, in each dimension, the smallest size of an attached client,
    whatever order Go walks the clients in; so it fits every client. *)
Theorem CalculateBoundingBox_min rm :
  manager_ok rm →
  let b := CalculateBoundingBox rm in
  (clients rm = ∅ → b = mkBox 80 24) ∧
  (clients rm ≠ ∅ →
    (∀ c, attached rm c → bCols b <= Cols c ∧ bRows b <= Rows c) ∧
    (∃ c, attached rm c ∧ bCols b = Cols c) ∧ (∃ c, attached rm c ∧ bRows b = Rows c)).
Proof.
  intros Hok b. unfold b, CalculateBoundingBox. split.
  - intros ->. by rewrite map_size_empty.
  - intros Hne. rewrite map_size_ne_0_lookup in Hne || idtac.
    assert (size (clients rm) ≠ 0%nat) as Hsz by (by rewrite map_size_empty_iff).
    destruct (Z.eqb_spec (Z.of_nat (size (clients rm))) 0); [lia|].
    assert (∀ c, c ∈ walk rm → 0 < Cols c ∧ 0 < Rows c) as Hpos.
    { intros c (ptr & Hptr & Hc)%(elem_of_walk _ _ Hok). destruct (Hok _ _ Hptr) as (c' & Hc' & _ & ?).
      rewrite Hc in Hc'. by injection Hc' as <-. }
    assert (∃ c, c ∈ walk rm) as [c0 Hc0].
    { apply map_choose in Hne as (id & ptr & Hp). destruct (Hok _ _ Hp) as (c & Hc & Hi & _).
      exists c. apply elem_of_walk; [done|]. exists ptr. by rewrite Hi. }
    setoid_rewrite <-(elem_of_walk rm _ Hok).
    destruct (walk rm) as [|c cs]; [by apply elem_of_nil in Hc0|]. cbn [foldl].
    destruct (Hpos c (list_elem_of_here _ _)). rewrite box_first by done.
    destruct (box_fold cs (mkBox (Cols c) (Rows c))) as (_ & (Hle1 & Hle2) & Hle & Hcol & Hrow);
      [done|done|intros; by apply Hpos, list_elem_of_further|]. simpl in *. split_and!.
    + intros c' [->|Hc']%elem_of_cons; [done|by apply Hle].
    + destruct Hcol as [->|(c' & ? & ->)]; [exists c|exists c'];
        (split; [|done]); [apply list_elem_of_here|by apply list_elem_of_further].
    + destruct Hrow as [->|(c' & ? & ->)]; [exists c|exists c'];
        (split; [|done]); [apply list_elem_of_here|by apply list_elem_of_further].
Qed.

(** a resize reaches everybody. [HandleResize] of an attached client with
    positive sizes gives the box of the updated clients, sends the satellite
    exactly one command with it, and puts one acknowledgement with the same
    size into the channel of every client that has room. *)
Theorem HandleResize_announces rm id ptr c cols rows :
  manager_ok rm → clients rm !! id = Some ptr → store rm !! ptr = Some c →
  0 < cols → 0 < rows → pusher rm = true →
  let rm1 := UpdateClientDimensions rm id cols rows in
  (∀ c', attached rm1 c' → ∃ ref, SendChan c' = Some ref ∧ open (chans rm) ref) →
  NoDup (SendChan <$> walk rm1) →
  manager_ok rm1 ∧ attached rm1 (mkClient id cols rows (SendChan c)) ∧
  ∃ rm', HandleResize rm id cols rows = Ret (rm', CalculateBoundingBox rm1) ∧
    let b := CalculateBoundingBox rm1 in
    pushed rm' = pushed rm ++ [mkCommand (sessionID rm) (bCols b) (bRows b) 0 0] ∧
    ∀ c' ref, attached rm1 c' → SendChan c' = Some ref →
      pending (chans rm') ref = pending (chans rm) ref ++
        (if has_room (chans rm) ref then [mkAck (sessionID rm) (bCols b) (bRows b)] else []).
Proof.
  intros Hok Hid Hc Hcols Hrows Hpush rm1 Hchans Hnd.
  destruct (Hok _ _ Hid) as (c0 & Hc0 & Hi & _). rewrite Hc in Hc0. injection Hc0 as <-.
  assert (rm1 = mkManager (clients rm) (<[ptr := mkClient (ID c) cols rows (SendChan c)]> (store rm))
    (sessionID rm) (pusher rm) (pushed rm) (chans rm)) as E
    by (unfold rm1, UpdateClientDimensions; by rewrite Hid, Hc).
  assert (manager_ok rm1) as Hok1.
  { rewrite E. intros id' ptr' Hp. simpl in *. destruct (Hok _ _ Hp) as (c' & Hc' & Hi' & ?).
    destruct (decide (ptr' = ptr)) as [->|].
    - rewrite lookup_insert_eq. eexists. split; [done|]. simpl. split_and!; congruence || done.
    - rewrite lookup_insert_ne by done. eauto. }
  split; [done|]. split.
  { exists ptr. rewrite E. simpl. by rewrite lookup_insert_eq, Hi. }
  unfold HandleResize, announce. fold rm1. set (b := CalculateBoundingBox rm1).
  assert (pushResizeToSatellite rm1 b = mkManager (clients rm1) (store rm1) (sessionID rm1) true
    (pushed rm1 ++ [CreateResizeCommand (sessionID rm1) b]) (chans rm1)) as Ep
    by (unfold pushResizeToSatellite; rewrite E; simpl; by rewrite Hpush).
  rewrite Ep. unfold broadcastResizeAck. cbn [chans sessionID].
  change (walk (mkManager _ _ _ _ _ _)) with (walk rm1).
  assert (chans rm1 = chans rm ∧ sessionID rm1 = sessionID rm ∧ pushed rm1 = pushed rm)
    as (Ec & Es & Epu) by (by rewrite E).
  destruct (ack_each_spec (walk rm1) (mkAck (sessionID rm1) (bCols b) (bRows b)) (chans rm1))
    as (h' & -> & Hin & _); [|done|].
  { intros c' Hc'%(elem_of_walk _ _ Hok1). rewrite Ec. by apply Hchans. }
  cbn [mbind go_bind]. eexists. split; [done|]. cbn [pushed chans].
  rewrite Epu, Es. split; [done|]. intros c' ref Ha Hr.
  rewrite <-Ec, <-Es. apply (Hin c'); [by apply elem_of_walk|done].
Qed.

(** A manager with two clients, walked in either order. *)
Lemma two_clients_walk rm id1 id2 p1 p2 a b :
  id1 ≠ id2 → clients rm = {[id1 := p1; id2 := p2]} →
  store rm !! p1 = Some a → store rm !! p2 = Some b → walk rm ≡ₚ [a; b].
Proof.
  intros Hid Hcl Ha Hb. unfold walk. rewrite Hcl.
  rewrite (omap_Permutation _ _ _ (range_perm _)).
  rewrite (omap_Permutation _ _ [id1; id2]).
  - simpl. rewrite lookup_insert_eq, lookup_insert_ne, lookup_singleton_eq by done. simpl.
    by rewrite Ha, Hb.
  - apply NoDup_Permutation; [apply NoDup_elements| |].
    + apply NoDup_cons. rewrite list_elem_of_singleton. split; [done|apply NoDup_singleton].
    + intros x. rewrite elem_of_elements, elem_of_dom, !elem_of_cons, elem_of_nil.
      rewrite lookup_insert_is_Some, lookup_singleton_is_Some. naive_solver.
Qed.

Lemma two_clients_box rm id1 id2 p1 p2 a b v :
  id1 ≠ id2 → clients rm = {[id1 := p1; id2 := p2]} →
  store rm !! p1 = Some a → store rm !! p2 = Some b →
  Cols a = Rows a → Cols b = Rows b → 0 < Cols a → 0 < Cols b → v = Z.min (Cols a) (Cols b) →
  CalculateBoundingBox rm = mkBox v v.
Proof.
  intros Hid Hcl Ha Hb Ea Eb Pa Pb ->. unfold CalculateBoundingBox.
  pose proof (two_clients_walk rm id1 id2 p1 p2 a b Hid Hcl Ha Hb) as Hw.
  rewrite Hcl, map_size_insert_None, map_size_singleton by (by rewrite lookup_singleton_ne). simpl.
  apply Permutation_sym, Permutation_length_2_inv in Hw as [-> | ->]; simpl; unfold box_step; simpl;
    rewrite <-Ea, <-Eb; f_equal; bool_cases; lia.
Qed.

(** what the box is not. (1) A client that reports a zero dimension makes
    the box depend on the order in which Go walks the map: after it the loop
    takes the next client's size as if it were the first. (2) The handlers
    compute the box and push it in separate critical sections, so two
    concurrent resizes can push in the wrong order: the satellite is left with
    a size that is not the current box. *)
Theorem resize_hazards rm id1 id2 p1 p2 c1 c2 :
  pusher rm = true → id1 ≠ id2 → p1 ≠ p2 → clients rm = {[id1 := p1; id2 := p2]} →
  store rm !! p1 = Some c1 → store rm !! p2 = Some c2 →
  Cols c1 = 100 → Rows c1 = 100 → Cols c2 = 100 → Rows c2 = 100 →
  (let z := mkClient id2 0 0 None in
   bCols (foldl box_step (mkBox 0 0) [c1; z]) = 0 ∧
   bCols (foldl box_step (mkBox 0 0) [z; c1]) = 100) ∧
  (let rmA := UpdateClientDimensions rm id1 50 50 in
   let boxA := CalculateBoundingBox rmA in
   let rmB := UpdateClientDimensions rmA id2 20 20 in
   let boxB := CalculateBoundingBox rmB in
   let rm' := pushResizeToSatellite (pushResizeToSatellite rmB boxB) boxA in
   boxA = mkBox 50 50 ∧ boxB = mkBox 20 20 ∧ CalculateBoundingBox rm' = mkBox 20 20 ∧
   last (pushed rm') = Some (mkCommand (sessionID rm) 50 50 0 0)).
Proof.
  intros Hpush Hid Hp Hcl H1 H2 HC1 HR1 HC2 HR2. split.
  { simpl. unfold box_step. simpl. by rewrite HC1. }
  pose proof (λ rm0 a b v (Hc : clients rm0 = clients rm),
    two_clients_box rm0 id1 id2 p1 p2 a b v Hid (eq_trans Hc Hcl)) as Hbox.
  assert (UpdateClientDimensions rm id1 50 50 = mkManager (clients rm)
    (<[p1 := mkClient (ID c1) 50 50 (SendChan c1)]> (store rm)) (sessionID rm) (pusher rm)
    (pushed rm) (chans rm)) as EA.
  { unfold UpdateClientDimensions. by rewrite Hcl, lookup_insert_eq, H1. }
  cbv zeta. rewrite EA.
  assert (UpdateClientDimensions (mkManager (clients rm)
    (<[p1 := mkClient (ID c1) 50 50 (SendChan c1)]> (store rm)) (sessionID rm) (pusher rm)
    (pushed rm) (chans rm)) id2 20 20 = mkManager (clients rm)
    (<[p2 := mkClient (ID c2) 20 20 (SendChan c2)]>
       (<[p1 := mkClient (ID c1) 50 50 (SendChan c1)]> (store rm))) (sessionID rm) (pusher rm)
    (pushed rm) (chans rm)) as EB.
  { unfold UpdateClientDimensions. cbn [clients store]. rewrite Hcl.
    rewrite lookup_insert_ne, lookup_singleton_eq by done. by rewrite lookup_insert_ne, H2. }
  rewrite EB. set (boxA := CalculateBoundingBox _). set (boxB := CalculateBoundingBox _).
  assert (boxA = mkBox 50 50) as ->.
  { eapply Hbox; [done|simpl; apply lookup_insert_eq| |..]; simpl; try done.
    - by rewrite lookup_insert_ne.
    - congruence.
    - lia.
    - by rewrite HC2. }
  assert (boxB = mkBox 20 20) as ->.
  { eapply Hbox; [done| |simpl; apply lookup_insert_eq|..]; simpl; try done.
    - rewrite lookup_insert_ne by done. apply lookup_insert_eq.
    - done.
    - done.
    - done. }
  unfold pushResizeToSatellite. cbn [pusher]. rewrite Hpush. cbn [pushed chans clients store sessionID].
  split_and!; try done.
  - eapply Hbox; [done| |simpl; apply lookup_insert_eq|..]; simpl; try done.
    + rewrite lookup_insert_ne by done. apply lookup_insert_eq.
    + done.
    + done.
    + done.
  - simpl. rewrite ?last_snoc. done.
Qed.

End Walk.

Definition two_clients : ResizeManager :=
  mkManager {[1%N := 11%N; 2%N := 12%N]}
    {[11%N := mkClient 1 100 100 (Some 21%N); 12%N := mkClient 2 100 100 (Some 22%N)]} 9 true []
    {[21%N := mkChan 1 [] false; 22%N := mkChan 1 [] false]}.

Lemma two_clients_ok : manager_ok two_clients.
Proof.
  intros id ptr. unfold two_clients. cbn [clients store].
  rewrite lookup_insert_Some, lookup_singleton_Some. intros [[<- <-]|[_ [<- <-]]].
  - eexists. split; [reflexivity|]. simpl. lia.
  - eexists. split; [reflexivity|]. simpl. lia.
Defined.

Example CalculateBoundingBox_min_witness :
  let b := CalculateBoundingBox elements two_clients in
  (clients two_clients = ∅ → b = mkBox 80 24) ∧
  (clients two_clients ≠ ∅ →
    (∀ c, attached two_clients c → bCols b <= Cols c ∧ bRows b <= Rows c) ∧
    (∃ c, attached two_clients c ∧ bCols b = Cols c) ∧
    (∃ c, attached two_clients c ∧ bRows b = Rows c)).
Proof. apply (CalculateBoundingBox_min elements (λ X, reflexivity _) two_clients two_clients_ok). Defined.

Example HandleResize_announces_witness :
  let rm1 := UpdateClientDimensions two_clients 1 50 40 in
  manager_ok rm1 ∧ attached rm1 (mkClient 1 50 40 (Some 21%N)) ∧
  ∃ rm', HandleResize elements two_clients 1 50 40 = Ret (rm', CalculateBoundingBox elements rm1) ∧
    let b := CalculateBoundingBox elements rm1 in
    pushed rm' = pushed two_clients ++ [mkCommand (sessionID two_clients) (bCols b) (bRows b) 0 0] ∧
    ∀ c' ref, attached rm1 c' → SendChan c' = Some ref →
      pending (chans rm') ref = pending (chans two_clients) ref ++
        (if has_room (chans two_clients) ref
         then [mkAck (sessionID two_clients) (bCols b) (bRows b)] else []).
Proof.
  apply (HandleResize_announces elements (λ X, reflexivity _) two_clients 1 11
           (mkClient 1 100 100 (Some 21%N)) 50 40); [exact two_clients_ok|reflexivity..|lia|lia|reflexivity| |].
  - intros c' (ptr & Hp & Hc).
    replace (UpdateClientDimensions two_clients 1 50 40)
      with (mkManager (clients two_clients) (<[11%N := mkClient 1 50 40 (Some 21%N)]> (store two_clients))
              9 true [] (chans two_clients)) in Hp, Hc by reflexivity.
    cbn [clients store two_clients] in Hp, Hc.
    apply lookup_insert_Some in Hp as [[_ <-]|[_ [_ <-]%lookup_singleton_Some]];
      injection Hc as <-; simpl.
    + exists 21%N. split; [reflexivity|]. eexists. split; reflexivity.
    + exists 22%N. split; [reflexivity|]. eexists. split; reflexivity.
  - vm_compute. repeat constructor; rewrite ?elem_of_cons, ?elem_of_nil; naive_solver.
Defined.

Example resize_hazards_witness :
  let rmA := UpdateClientDimensions two_clients 1 50 50 in
  let boxA := CalculateBoundingBox elements rmA in
  let rmB := UpdateClientDimensions rmA 2 20 20 in
  let boxB := CalculateBoundingBox elements rmB in
  let rm' := pushResizeToSatellite (pushResizeToSatellite rmB boxB) boxA in
  boxA = mkBox 50 50 ∧ boxB = mkBox 20 20 ∧ CalculateBoundingBox elements rm' = mkBox 20 20 ∧
  last (pushed rm') = Some (mkCommand (sessionID two_clients) 50 50 0 0).
Proof.
  apply (resize_hazards elements (λ X, reflexivity _) two_clients 1 2 11 12
    (mkClient 1 100 100 (Some 21%N)) (mkClient 2 100 100 (Some 22%N))); reflexivity || discriminate.
Defined.

End Resize.
