(* ===== verification/Protocol.v ===== *)
(** * proto/satellite.proto: what Nexus and a satellite say to each other

    The messages of the bidirectional stream [Connect], as the two [oneof]
    payloads of the protocol, and the translation between the session states of
    the protocol and those of the program: [convertProtoToSessionState] in
    internal/grpc/gateway.go and [sessionStateToProto] in cmd/daao/daemon.go.
    Bytes are integers 0..255; a [double] is kept as its 64 bits, since the
    program only copies it. *)
From S2P Require Import Prelude SessionState.
Import Session.
#[local] Open Scope Z_scope.

Module Proto.

Notation bytes := (list Z).
Notation float64 := Z.

(** ** Session states *)

Inductive ProtoState :=
  | SESSION_STATE_UNSPECIFIED
  | SESSION_STATE_STARTING
  | SESSION_STATE_RUNNING
  | SESSION_STATE_SUSPENDED
  | SESSION_STATE_TERMINATED
  | SESSION_STATE_ERROR
  | SESSION_STATE_DETACHED
  | SESSION_STATE_RE_ATTACHING
  | SESSION_STATE_OTHER (n : Z).      (* proto3 enums are open *)

#[export] Instance ProtoState_eq_dec : EqDecision ProtoState.
Proof. solve_decision. Defined.

Section States.
(** [strconv.Itoa], for the name of an unknown enum number. *)
Variable Itoa : Z → string.

(** [proto.SessionState.String] *)
Definition ProtoState_String (p : ProtoState) : string :=
  match p with
  | SESSION_STATE_UNSPECIFIED => "SESSION_STATE_UNSPECIFIED"
  | SESSION_STATE_STARTING => "SESSION_STATE_STARTING"
  | SESSION_STATE_RUNNING => "SESSION_STATE_RUNNING"
  | SESSION_STATE_SUSPENDED => "SESSION_STATE_SUSPENDED"
  | SESSION_STATE_TERMINATED => "SESSION_STATE_TERMINATED"
  | SESSION_STATE_ERROR => "SESSION_STATE_ERROR"
  | SESSION_STATE_DETACHED => "SESSION_STATE_DETACHED"
  | SESSION_STATE_RE_ATTACHING => "SESSION_STATE_RE_ATTACHING"
  | SESSION_STATE_OTHER n => Itoa n
  end.

Definition convertProtoToSessionState (protoState : ProtoState) : SessionState :=
  match protoState with
  | SESSION_STATE_STARTING => StateProvisioning
  | SESSION_STATE_RUNNING => StateRunning
  | SESSION_STATE_SUSPENDED => StateSuspended
  | SESSION_STATE_TERMINATED => StateTerminated
  | SESSION_STATE_DETACHED => StateDetached
  | SESSION_STATE_RE_ATTACHING => StateReAttaching
  | p => ProtoState_String p
  end.

Definition sessionStateToProto (state : SessionState) : ProtoState :=
  if String.eqb state StateRunning then SESSION_STATE_RUNNING
  else if String.eqb state StateSuspended then SESSION_STATE_SUSPENDED
  else if String.eqb state StateDetached then SESSION_STATE_DETACHED
  else if String.eqb state StateReAttaching then SESSION_STATE_RE_ATTACHING
  else if String.eqb state StateTerminated then SESSION_STATE_TERMINATED
  else if String.eqb state StateProvisioning then SESSION_STATE_STARTING
  else SESSION_STATE_RUNNING.

(** The daemon's encoding is undone by the gateway's decoding exactly on the
    six states of the program. *)
Lemma state_roundtrip s :
  IsValid s = true ↔ convertProtoToSessionState (sessionStateToProto s) = s.
Proof.
  split.
  - rewrite IsValid_cases. by intros [->|[->|[->|[->|[->| ->]]]]].
  - intros H. rewrite <-H. unfold sessionStateToProto. by repeat case_match.
Qed.

(** What the gateway makes of a state it has no name for is never a valid
    session state, unless the number prints as one. *)
Lemma convert_invalid p :
  (∀ n, IsValid (Itoa n) = false) →
  IsValid (convertProtoToSessionState p) =
    negb (bool_decide (p = SESSION_STATE_UNSPECIFIED ∨ p = SESSION_STATE_ERROR)) &&
    match p with SESSION_STATE_OTHER _ => false | _ => true end.
Proof.
  intros Hn. destruct p; try reflexivity.
  cbn [convertProtoToSessionState ProtoState_String]. rewrite Hn. by rewrite andb_false_r.
Qed.
End States.

(** ** Nexus to satellite *)

Record AgentDefinitionProto := mkAgentDef {
  ad_name : string; ad_version : string; ad_image : string;
  ad_config : gmap string string; ad_capabilities : list string; ad_entrypoint : string;
}.

Record ContextFileSync := mkCtxSync {
  cf_satellite_id : string; cf_file_path : string; cf_content : bytes;
  cf_version : Z; cf_modified_by : string;
}.

Inductive NexusMessage :=
  | TerminalInput (session_id : string) (data : bytes) (sequence_number : Z)
  | ResizeCommand (session_id : string) (width height pixel_width pixel_height : Z)
  | SuspendCommand (session_id : string)
  | ResumeCommand (session_id : string)
  | KillCommand (session_id : string) (exit_code : Z)
  | StartSessionCommand (session_id agent_binary : string) (agent_args : list string)
      (cols rows : Z) (working_dir : string)
  | UpdateAvailable (latest_version download_url : string) (force : bool)
  | ProposalDecision (session_id proposal_id : string) (approved : bool)
      (reason approver_id : string) (timestamp : Z)
  | DeployAgentCommand (session_id : string) (def : AgentDefinitionProto)
      (secrets : gmap string string)
  | ContextFilePush (file : ContextFileSync)
  | SessionReconciliation (active_session_ids : list string)
  | ProvisionRuntimeCommand (force : bool).

(** ** Satellite to Nexus *)

Record Registration := mkRegistration {
  rq_satellite_id : string; rq_fingerprint : string; rq_public_key : string;
  rq_timestamp : Z; rq_version : string; rq_os : string; rq_arch : string;
  rq_available_agents : list string;
}.

Record GpuMetrics := mkGpu {
  g_index : Z; g_name : string; g_utilization : float64;
  g_used : Z; g_total : Z; g_temperature : float64;
}.

Record Telemetry := mkTelemetry {
  tm_cpu_percent : float64; tm_memory_percent : float64;
  tm_memory_used : Z; tm_memory_total : Z;
  tm_disk_percent : float64; tm_disk_used : Z; tm_disk_total : Z;
  tm_gpus : list GpuMetrics; tm_active_sessions : Z; tm_available_agents : list string;
}.

Inductive SatelliteMessage :=
  | RegisterRequest (r : Registration)
  | TerminalData (session_id : string) (data : bytes)
  | SessionStateUpdate (session_id : string) (state : ProtoState) (timestamp : Z)
      (error_message : string)
  | IpcEvent (session_id event_type : string) (payload : bytes)
  | HeartbeatPing
  | TelemetryReport (r : Telemetry)
  | BufferReplay (session_id : string) (data : bytes)
  | ProposalRequest
  | AgentEvent (session_id event_type : string) (payload : bytes)
  | ContextFileUpdate (file : option ContextFileSync)
  | ProvisionProgress
  | NoPayload.

(** ** Message builders of the gateway *)

Definition SendTerminalInput (sessionID : string) (data : bytes) (seqNum : Z) : NexusMessage :=
  TerminalInput sessionID data seqNum.
Definition SendResizeCommand (sessionID : string) (width height pixelWidth pixelHeight : Z) :=
  ResizeCommand sessionID width height pixelWidth pixelHeight.
Definition SendSuspendCommand (sessionID : string) : NexusMessage := SuspendCommand sessionID.
Definition SendResumeCommand (sessionID : string) : NexusMessage := ResumeCommand sessionID.
Definition SendKillCommand (sessionID : string) (exitCode : Z) : NexusMessage :=
  KillCommand sessionID exitCode.

End Proto.
