(* ===== verification/Satellites.v ===== *)
(** * The satellites table and the registration of a satellite

    The SQL statements that internal/grpc/gateway.go runs on [satellites], each
    as the function it denotes on the table: the three ways a RegisterRequest
    finds or makes a row, the automatic tags, the heartbeat and the disconnect.
    The table is a map from primary keys to rows, with the unique indexes on the
    name and on the fingerprint (db/migrations 001, 004, 006, 009, 010, 015,
    030). A statement that the database refuses for another reason (a value too
    long for its column, a lost connection) is an argument, as in
    [SessionStore]. *)
From stdpp Require Import pretty.
From S2P Require Import Prelude SessionStore Protocol.
Import Store Proto.
#[local] Open Scope Z_scope.

Module Sats.

Record Sat := mkSat {
  s_name : string; s_owner : N; s_fingerprint : option string; s_status : string;
  s_version : string; s_os : string; s_arch : string;
  s_agents : list string; s_tags : gset string;
  s_created : Z; s_updated : Z;
}.
Notation table := (gmap N Sat).

(** What a statement with [RETURNING id] gives to [Scan]. *)
Definition returning (t t' : table) (id : N) (f : fault) : table * option N :=
  match f with
  | NoFault => (t', Some id)
  | StmtFails => (t, None)
  | AckLost => (t', None)
  end.

(** SET status = 'active', fingerprint, version, os, arch, available_agents *)
Definition activate (r : Registration) (now : Z) (s : Sat) : Sat :=
  mkSat (s_name s) (s_owner s) (Some (rq_fingerprint r)) "active" (rq_version r) (rq_os r) (rq_arch r)
    (rq_available_agents r) (s_tags s) (s_created s) now.

(** The same without the fingerprint: the arm DO UPDATE of the INSERT. *)
Definition refresh (r : Registration) (now : Z) (s : Sat) : Sat :=
  mkSat (s_name s) (s_owner s) (s_fingerprint s) "active" (rq_version r) (rq_os r) (rq_arch r)
    (rq_available_agents r) (s_tags s) (s_created s) now.

Definition set_status (st : string) (now : Z) (s : Sat) : Sat :=
  mkSat (s_name s) (s_owner s) (s_fingerprint s) st (s_version s) (s_os s) (s_arch s)
    (s_agents s) (s_tags s) (s_created s) now.

Definition set_agents (agents : list string) (s : Sat) : Sat :=
  mkSat (s_name s) (s_owner s) (s_fingerprint s) (s_status s) (s_version s) (s_os s) (s_arch s)
    agents (s_tags s) (s_created s) (s_updated s).

Definition add_tags (tags : gset string) (s : Sat) : Sat :=
  mkSat (s_name s) (s_owner s) (s_fingerprint s) (s_status s) (s_version s) (s_os s) (s_arch s)
    (s_agents s) (s_tags s ∪ tags) (s_created s) (s_updated s).

Section Statements.
(** [id::text] *)
Variable uuid_String : N → string.
(** The order in which the server scans the rows. *)
Variable arrange : list (N * Sat) → list (N * Sat).

(** WHERE id::text = $1 OR name = $1 OR fingerprint = $2 *)
Definition matches (raw fp : string) (p : N * Sat) : Prop :=
  uuid_String p.1 = raw ∨ s_name p.2 = raw ∨ s_fingerprint p.2 = Some fp.
#[export] Instance matches_dec raw fp p : Decision (matches raw fp p).
Proof. unfold matches. apply _. Defined.

Definition has_fingerprint (fp : string) (p : N * Sat) : Prop := s_fingerprint p.2 = Some fp.
#[export] Instance has_fingerprint_dec fp p : Decision (has_fingerprint fp p).
Proof. unfold has_fingerprint. apply _. Defined.

Definition rows (t : table) : list (N * Sat) := arrange (map_to_list t).

(** Two rows that match would both get the fingerprint: the unique index
    refuses the statement. *)
Definition update_matching (t : table) (r : Registration) (now : Z) (f : fault)
    : table * option N :=
  match filter (matches (rq_satellite_id r) (rq_fingerprint r)) (rows t) with
  | [(id, s)] => returning t (<[id := activate r now s]> t) id f
  | _ => (t, None)
  end.

(** ORDER BY created_at DESC *)
Definition newer_first (p q : N * Sat) : Prop := s_created q.2 <= s_created p.2.
#[export] Instance newer_first_dec : RelDecision newer_first.
Proof. intros p q. unfold newer_first. apply _. Defined.

Definition is_pending (p : N * Sat) : Prop := s_status p.2 = "pending".
#[export] Instance is_pending_dec p : Decision (is_pending p).
Proof. unfold is_pending. apply _. Defined.

Definition newest_pending (t : table) : option (N * Sat) :=
  head (merge_sort newer_first (filter is_pending (rows t))).

Definition update_pending (t : table) (r : Registration) (now : Z) (f : fault)
    : table * option N :=
  match newest_pending t with
  | None => (t, None)
  | Some (id, s) =>
      match filter (has_fingerprint (rq_fingerprint r)) (map_to_list (delete id t)) with
      | [] => returning t (<[id := activate r now s]> t) id f
      | _ => (t, None)
      end
  end.

(** [len(satName) == 36 && satName[8] == '-'] *)
Definition auto_name (r : Registration) : string :=
  if (String.length (rq_satellite_id r) =? 36)%nat &&
     String.eqb (String.substring 8 1 (rq_satellite_id r)) "-"
  then "satellite-" +:+ rq_os r else rq_satellite_id r.

Definition named (name : string) (p : N * Sat) : Prop := s_name p.2 = name.
#[export] Instance named_dec name p : Decision (named name p).
Proof. unfold named. apply _. Defined.

(** INSERT ... ON CONFLICT (fingerprint) ... DO UPDATE; a name that is taken is
    an error. [new_id] is what gen_random_uuid() gives. *)
Definition insert_satellite (t : table) (r : Registration) (new_id : N) (now : Z) (f : fault)
    : table * option N :=
  match filter (has_fingerprint (rq_fingerprint r)) (map_to_list t) with
  | (id, s) :: _ => returning t (<[id := refresh r now s]> t) id f
  | [] =>
      match filter (named (auto_name r)) (map_to_list t), t !! new_id with
      | [], None =>
          returning t (<[new_id := mkSat (auto_name r) 0 (Some (rq_fingerprint r)) "active"
            (rq_version r) (rq_os r) (rq_arch r) (rq_available_agents r) ∅ now now]> t) new_id f
      | _, _ => (t, None)
      end
  end.

(** The three attempts of a RegisterRequest, each only if the one before gave
    an error. *)
Definition resolve (t : table) (r : Registration) (new_id : N) (now : Z) (f1 f2 f3 : fault)
    : table * option N :=
  match update_matching t r now f1 with
  | (t1, Some id) => (t1, Some id)
  | (t1, None) =>
      match update_pending t1 r now f2 with
      | (t2, Some id) => (t2, Some id)
      | (t2, None) => insert_satellite t2 r new_id now f3
      end
  end.

(** The tags os:... and arch:... of the row. *)
Definition auto_tags (r : Registration) : gset string :=
  (if String.eqb (rq_os r) "" then ∅ else {["os:" +:+ rq_os r]}) ∪
  (if String.eqb (rq_arch r) "" then ∅ else {["arch:" +:+ rq_arch r]}).

(** An UPDATE that reports nothing back to the code. *)
Definition update_where (t : table) (P : N → Sat → bool) (g : Sat → Sat) (f : fault) : table :=
  match f with
  | StmtFails => t
  | _ => map_imap (λ id s, Some (if P id s then g s else s)) t
  end.

Definition tag_satellite (t : table) (id : N) (tags : gset string) (f : fault) : table :=
  update_where t (λ i _, bool_decide (i = id)) (add_tags tags) f.

Definition heartbeat (t : table) (satelliteID : string) (now : Z) (f : fault) : table :=
  update_where t (λ i _, bool_decide (uuid_String i = satelliteID)) (set_status "active" now) f.

Definition report_agents (t : table) (satelliteID : string) (agents : list string) (f : fault)
    : table :=
  update_where t (λ i _, bool_decide (uuid_String i = satelliteID)) (set_agents agents) f.

Definition set_offline (t : table) (satelliteID : string) (now : Z) (f : fault) : table :=
  update_where t (λ i s, bool_decide (matches satelliteID satelliteID (i, s)))
    (set_status "offline" now) f.

(** ** The unique indexes

    And nobody owns a satellite: both statements that insert one, here and in
    internal/api/handlers.go, write the nil uuid. *)

Record table_ok (t : table) : Prop := mk_table_ok {
  one_name : ∀ i j a b, t !! i = Some a → t !! j = Some b → s_name a = s_name b → i = j;
  one_fingerprint : ∀ i j a b x, t !! i = Some a → t !! j = Some b →
    s_fingerprint a = Some x → s_fingerprint b = Some x → i = j;
  no_owner : ∀ i a, t !! i = Some a → s_owner a = 0%N;
}.

Context (arrange_perm : ∀ l, arrange l ≡ₚ l).

Lemma table_ok_insert t id s' :
  table_ok t → s_owner s' = 0%N →
  (∀ j b, j ≠ id → t !! j = Some b → s_name b ≠ s_name s') →
  (∀ j b x, j ≠ id → t !! j = Some b → s_fingerprint s' = Some x → s_fingerprint b ≠ Some x) →
  table_ok (<[id := s']> t).
Proof.
  intros [Hn Hf Ho] Hs' Hname Hfp. split.
  - intros i j a b [[<- <-]|[Hi Ha]]%lookup_insert_Some [[<- <-]|[Hj Hb]]%lookup_insert_Some He;
      try done; [by destruct (Hname j b)|by destruct (Hname i a)|eauto].
  - intros i j a b x [[<- <-]|[Hi Ha]]%lookup_insert_Some [[<- <-]|[Hj Hb]]%lookup_insert_Some Ea Eb;
      try done; [by destruct (Hfp j b x)|by destruct (Hfp i a x)|eauto].
  - intros i a [[<- <-]|[_ Ha]]%lookup_insert_Some; eauto.
Qed.

(** An update that keeps the name and the fingerprint. *)
Lemma table_ok_keep t id s s' :
  table_ok t → t !! id = Some s → s_name s' = s_name s → s_fingerprint s' = s_fingerprint s →
  s_owner s' = s_owner s → table_ok (<[id := s']> t).
Proof.
  intros Hok Hs Hn Hf Ho. apply table_ok_insert; [done|rewrite Ho; exact (no_owner t Hok id s Hs)|..].
  - intros j b Hj Hb Heq. rewrite Hn in Heq. by apply Hj, (one_name t Hok j id b s).
  - intros j b x Hj Hb Hx Hbx. rewrite Hf in Hx. by apply Hj, (one_fingerprint t Hok j id b s x).
Qed.

Lemma table_ok_activate t id s r now :
  table_ok t → t !! id = Some s →
  (∀ j b, j ≠ id → t !! j = Some b → s_fingerprint b ≠ Some (rq_fingerprint r)) →
  table_ok (<[id := activate r now s]> t).
Proof.
  intros Hok Hs Hfp. apply table_ok_insert; [done|exact (no_owner t Hok id s Hs)|..].
  - intros j b Hj Hb Heq. by apply Hj, (one_name t Hok j id b s).
  - intros j b x Hj Hb [= <-]. eauto.
Qed.

Lemma elem_of_rows_sat t id s : (id, s) ∈ rows t ↔ t !! id = Some s.
Proof. unfold rows. by rewrite arrange_perm, elem_of_map_to_list. Qed.

Lemma update_where_ok t P g f :
  table_ok t → (∀ s, s_name (g s) = s_name s ∧ s_fingerprint (g s) = s_fingerprint s ∧ s_owner (g s) = s_owner s) →
  table_ok (update_where t P g f).
Proof.
  intros [Hn Hf Ho] Hg.
  assert (∀ i a, map_imap (λ id s, Some (if P id s then g s else s)) t !! i = Some a →
    ∃ b, t !! i = Some b ∧ s_name a = s_name b ∧ s_fingerprint a = s_fingerprint b ∧ s_owner a = s_owner b)
    as Hback.
  { intros i a. rewrite map_lookup_imap. destruct (t !! i) as [b|]; simpl; [|done].
    intros [= <-]. exists b. destruct (P i b); [|done]. by destruct (Hg b) as (? & ? & ?). }
  assert (table_ok (map_imap (λ id s, Some (if P id s then g s else s)) t)).
  { split.
    - intros i j a b (a' & Ha & Ena & _)%Hback (b' & Hb & Enb & _)%Hback Heq.
      apply (Hn i j a' b'); [done..|congruence].
    - intros i j a b x (a' & Ha & _ & Efa & _)%Hback (b' & Hb & _ & Efb & _)%Hback Ex Ey.
      apply (Hf i j a' b' x); [done..|congruence|congruence].
    - intros i a (b & Hb & _ & _ & ->)%Hback. eauto. }
  by destruct f.
Qed.

Lemma update_where_dom t P g f : dom (update_where t P g f) = dom t.
Proof.
  destruct f; try done; apply dom_imap_L; intros i; rewrite elem_of_dom; split;
    [intros [s Hs]; eauto|intros (s & Hs & _); eauto|intros [s Hs]; eauto|intros (s & Hs & _); eauto].
Qed.

(** *** The three attempts *)

(** What each attempt keeps, and what it promises when it gives an id. *)
Definition attempt_ok (r : Registration) (t t' : table) (o : option N) : Prop :=
  table_ok t' ∧ dom t ⊆ dom t' ∧
  (∀ id, o = Some id → ∃ s, t' !! id = Some s ∧ s_status s = "active" ∧
     s_fingerprint s = Some (rq_fingerprint r)).

Lemma returning_ok r t t' id s f :
  table_ok t → table_ok t' → dom t ⊆ dom t' →
  t' !! id = Some s → s_status s = "active" → s_fingerprint s = Some (rq_fingerprint r) →
  let '(u, o) := returning t t' id f in attempt_ok r t u o.
Proof. intros. destruct f; simpl; split_and!; try done; intros ? [= <-]; eauto. Qed.

Lemma attempt_refl r t : table_ok t → attempt_ok r t t None.
Proof. intros Hok. split; [done|]. by split. Qed.

Lemma update_matching_ok t r now f :
  table_ok t → let '(t', o) := update_matching t r now f in attempt_ok r t t' o.
Proof.
  intros Hok. unfold update_matching.
  destruct (filter _ _) as [|[id s] [|]] eqn:Hm; try by apply attempt_refl.
  assert (∀ j b, matches (rq_satellite_id r) (rq_fingerprint r) (j, b) → t !! j = Some b →
    (j, b) = (id, s)) as Hone.
  { intros j b Hj Hb. apply list_elem_of_singleton. rewrite <-Hm.
    apply list_elem_of_filter. by rewrite elem_of_rows_sat. }
  assert ((id, s) ∈ filter (matches (rq_satellite_id r) (rq_fingerprint r)) (rows t)) as Hin
    by (rewrite Hm; by apply list_elem_of_singleton).
  apply list_elem_of_filter in Hin as [_ Hin]. apply elem_of_rows_sat in Hin.
  eapply returning_ok; [done| |set_solver|by rewrite lookup_insert_eq|done|done].
  apply table_ok_activate; [done..|]. intros j b Hj Hb Hfp.
  apply Hj. assert ((j, b) = (id, s)) as [= -> _]; [|done].
  apply Hone; [|done]. by right; right.
Qed.

Lemma newest_pending_lookup t id s :
  newest_pending t = Some (id, s) → t !! id = Some s ∧ s_status s = "pending".
Proof.
  unfold newest_pending. intros H%head_Some_elem_of.
  rewrite merge_sort_Permutation in H. apply list_elem_of_filter in H as [Hp H].
  split; [by apply elem_of_rows_sat|done].
Qed.

Lemma fingerprint_nowhere t fp :
  filter (has_fingerprint fp) (map_to_list t) = [] →
  ∀ j b, t !! j = Some b → s_fingerprint b ≠ Some fp.
Proof.
  intros Hf j b Hb Hfp. apply elem_of_nil with (x := (j, b)). rewrite <-Hf.
  apply list_elem_of_filter. by rewrite elem_of_map_to_list.
Qed.

Lemma update_pending_ok t r now f :
  table_ok t → let '(t', o) := update_pending t r now f in attempt_ok r t t' o.
Proof.
  intros Hok. unfold update_pending.
  destruct (newest_pending t) as [[id s]|] eqn:Hp; [|by apply attempt_refl].
  destruct (filter _ _) eqn:Hf; [|by apply attempt_refl].
  apply newest_pending_lookup in Hp as [Hs _].
  eapply returning_ok; [done| |set_solver|by rewrite lookup_insert_eq|done|done].
  apply table_ok_activate; [done..|]. intros j b Hj Hb.
  apply (fingerprint_nowhere _ _ Hf j b). by rewrite lookup_delete_ne.
Qed.

Lemma insert_satellite_ok t r new_id now f :
  table_ok t → let '(t', o) := insert_satellite t r new_id now f in attempt_ok r t t' o.
Proof.
  intros Hok. unfold insert_satellite. destruct (filter _ _) as [|[id s] l] eqn:Hf.
  - destruct (filter (named _) _) eqn:Hn; [|by apply attempt_refl].
    destruct (t !! new_id) eqn:Hnew; [by apply attempt_refl|].
    eapply returning_ok; [done| |set_solver|by rewrite lookup_insert_eq|done|done].
    apply table_ok_insert; [done|done|..].
    + intros j b _ Hb Heq. apply elem_of_nil with (x := (j, b)). rewrite <-Hn.
      apply list_elem_of_filter. by rewrite elem_of_map_to_list.
    + intros j b x _ Hb [= <-]. by apply (fingerprint_nowhere _ _ Hf j b).
  - assert ((id, s) ∈ filter (has_fingerprint (rq_fingerprint r)) (map_to_list t)) as Hin
      by (rewrite Hf; by apply list_elem_of_here).
    apply list_elem_of_filter in Hin as [Hfp Hin]. apply elem_of_map_to_list in Hin.
    eapply returning_ok; [done| |set_solver|by rewrite lookup_insert_eq|done|done].
    by eapply table_ok_keep.
Qed.

Lemma resolve_ok t r new_id now f1 f2 f3 :
  table_ok t → let '(t', o) := resolve t r new_id now f1 f2 f3 in attempt_ok r t t' o.
Proof.
  intros Hok. unfold resolve. pose proof (update_matching_ok t r now f1 Hok) as H1.
  destruct (update_matching _ _ _ _) as [t1 [id|]]; [done|]. destruct H1 as (Hok1 & Hd1 & _).
  pose proof (update_pending_ok t1 r now f2 Hok1) as H2.
  destruct (update_pending _ _ _ _) as [t2 [id|]].
  { destruct H2 as (? & ? & ?). split_and!; [done|set_solver|done]. }
  destruct H2 as (Hok2 & Hd2 & _). pose proof (insert_satellite_ok t2 r new_id now f3 Hok2) as H3.
  destruct (insert_satellite _ _ _ _ _) as [t3 o]. destruct H3 as (? & ? & ?).
  split_and!; [done|set_solver|done].
Qed.

(** ** Properties *)

Definition fresh_sat (r : Registration) (now : Z) : Sat :=
  mkSat (auto_name r) 0 (Some (rq_fingerprint r)) "active" (rq_version r) (rq_os r) (rq_arch r)
    (rq_available_agents r) ∅ now now.

Definition name_taken (t : table) (name : string) : Prop :=
  filter (named name) (map_to_list t) ≠ [].
#[export] Instance name_taken_dec t name : Decision (name_taken t name).
Proof. unfold name_taken. apply _. Defined.

Lemma activate_refresh r now s :
  s_fingerprint s = Some (rq_fingerprint r) → refresh r now s = activate r now s.
Proof. unfold refresh, activate. by intros ->. Qed.

(** A known fingerprint decides, whatever the satellite calls itself. *)
Lemma resolve_known t r new_id now id s :
  table_ok t → t !! id = Some s → s_fingerprint s = Some (rq_fingerprint r) →
  resolve t r new_id now NoFault NoFault NoFault = (<[id := activate r now s]> t, Some id).
Proof.
  intros Hok Hs Hfp. unfold resolve, update_matching.
  assert ((id, s) ∈ filter (matches (rq_satellite_id r) (rq_fingerprint r)) (rows t)) as Hin.
  { apply list_elem_of_filter. rewrite elem_of_rows_sat. split; [by right; right|done]. }
  assert (insert_satellite t r new_id now NoFault = (<[id := activate r now s]> t, Some id)) as Hins.
  { unfold insert_satellite. destruct (filter (has_fingerprint _) _) as [|[j b] l] eqn:Hf.
    - by destruct (fingerprint_nowhere _ _ Hf id s).
    - assert ((j, b) ∈ filter (has_fingerprint (rq_fingerprint r)) (map_to_list t)) as Hj
        by (rewrite Hf; apply list_elem_of_here).
      apply list_elem_of_filter in Hj as [Hb Hj]. apply elem_of_map_to_list in Hj.
      assert (j = id) as -> by (eapply (one_fingerprint t Hok j id b s); eauto).
      assert (b = s) as -> by congruence. simpl. by rewrite activate_refresh. }
  assert (update_pending t r now NoFault = (t, None) ∨
          update_pending t r now NoFault = (<[id := activate r now s]> t, Some id)) as Hpend.
  { unfold update_pending. destruct (newest_pending t) as [[j b]|] eqn:Hp; [|by left].
    apply newest_pending_lookup in Hp as [Hj _]. destruct (filter (has_fingerprint _) _) eqn:Hf; [|by left]. right.
    destruct (decide (j = id)) as [->|Hne]; [by replace b with s by congruence|].
    by destruct (fingerprint_nowhere _ _ Hf id s); [rewrite lookup_delete_ne|]. }
  destruct (filter _ _) as [|[j b] [|]] eqn:Hm.
  - by apply elem_of_nil in Hin.
  - apply list_elem_of_singleton in Hin as [= -> ->]. done.
  - by destruct Hpend as [-> | ->].
Qed.

Lemma fingerprint_nowhere_filter t fp :
  (∀ j b, t !! j = Some b → s_fingerprint b ≠ Some fp) →
  filter (has_fingerprint fp) (map_to_list t) = [].
Proof.
  intros H. apply list_filter_nil, Forall_forall. intros [j b] Hin%elem_of_map_to_list. by eapply H.
Qed.

#[local] Instance newer_first_total : Total newer_first.
Proof. intros p q. unfold newer_first. lia. Qed.
#[local] Instance newer_first_trans : Transitive newer_first.
Proof. intros p q u. unfold newer_first. lia. Qed.

(** The newest pending row has the greatest creation time. *)
Lemma newest_pending_newest t id s j b :
  newest_pending t = Some (id, s) → t !! j = Some b → s_status b = "pending" →
  s_created b <= s_created s.
Proof.
  unfold newest_pending. intros Hh Hb Hp.
  assert (Hin : (j, b) ∈ merge_sort newer_first (filter is_pending (rows t))).
  { rewrite merge_sort_Permutation. apply list_elem_of_filter. by rewrite elem_of_rows_sat. }
  assert (Hs : StronglySorted newer_first (merge_sort newer_first (filter is_pending (rows t)))).
  { apply (StronglySorted_merge_sort newer_first). }
  destruct (merge_sort _ _) as [|[id' s'] l]; [done|]. injection Hh as -> ->.
  apply elem_of_cons in Hin as [[= -> ->]|Hin]; [lia|].
  apply StronglySorted_inv in Hs as [_ Hs]. by apply (proj1 (Forall_forall _ _) Hs _ Hin).
Qed.

Section Unknown.
Context (t : table) (r : Registration) (now : Z).
Hypothesis Hno : ∀ j b, t !! j = Some b → s_fingerprint b ≠ Some (rq_fingerprint r).

Lemma update_matching_unknown :
  update_matching t r now NoFault =
  match filter (matches (rq_satellite_id r) (rq_fingerprint r)) (rows t) with
  | [(id, s)] => (<[id := activate r now s]> t, Some id)
  | _ => (t, None)
  end.
Proof. unfold update_matching. by destruct (filter _ _) as [|[??] [|]]. Qed.

Lemma update_pending_unknown :
  update_pending t r now NoFault =
  match newest_pending t with
  | Some (id, s) => (<[id := activate r now s]> t, Some id)
  | None => (t, None)
  end.
Proof.
  unfold update_pending. destruct (newest_pending t) as [[id s]|]; [|done].
  rewrite fingerprint_nowhere_filter; [done|]. intros j b [_ Hb]%lookup_delete_Some. eauto.
Qed.

Lemma insert_satellite_unknown new_id :
  t !! new_id = None →
  insert_satellite t r new_id now NoFault =
  if decide (name_taken t (auto_name r))
  then (t, None) else (<[new_id := fresh_sat r now]> t, Some new_id).
Proof.
  intros Hnew. unfold insert_satellite. rewrite fingerprint_nowhere_filter by done.
  rewrite Hnew. case_decide as Hd; unfold name_taken in Hd.
  - by destruct (filter (named _) _).
  - by destruct (filter (named _) _) as [|? ?]; [|destruct Hd].
Qed.
End Unknown.

(** how a registering satellite gets its row, when the database works. A
    known fingerprint always resolves to its own row, whatever id the satellite
    claims and so again on every reconnect. An unknown fingerprint takes over
    the row the claimed id or name singles out, without any proof of identity;
    else the newest pending row; else a new row is made under the claimed name
    (or [satellite-<os>] for a claimed UUID), unless that name is taken: then
    nothing changes and there is no row. Names and fingerprints stay unique. *)
Theorem resolve_registers t r new_id now :
  table_ok t → t !! new_id = None →
  let '(t', o) := resolve t r new_id now NoFault NoFault NoFault in
  table_ok t' ∧
  (∀ id s, t !! id = Some s → s_fingerprint s = Some (rq_fingerprint r) →
     o = Some id ∧ t' = <[id := activate r now s]> t) ∧
  ((∀ j b, t !! j = Some b → s_fingerprint b ≠ Some (rq_fingerprint r)) →
   match filter (matches (rq_satellite_id r) (rq_fingerprint r)) (rows t), newest_pending t with
   | [(id, s)], _ => o = Some id ∧ t' = <[id := activate r now s]> t
   | _, Some (id, s) => o = Some id ∧ t' = <[id := activate r now s]> t ∧ s_status s = "pending" ∧
       (∀ j b, t !! j = Some b → s_status b = "pending" → s_created b <= s_created s)
   | _, None =>
       if decide (name_taken t (auto_name r))
       then o = None ∧ t' = t else o = Some new_id ∧ t' = <[new_id := fresh_sat r now]> t
   end).
Proof.
  intros Hok Hnew. pose proof (resolve_ok t r new_id now NoFault NoFault NoFault Hok) as Hr.
  destruct (resolve _ _ _ _ _ _ _) as [t' o] eqn:E. destruct Hr as (Hok' & _ & _).
  split; [done|]. split.
  { intros id s Hs Hfp. rewrite (resolve_known t r new_id now id s) in E by done.
    by injection E as <- <-. }
  intros Hno. revert E. unfold resolve.
  rewrite (update_matching_unknown t r now).
  pose proof (newest_pending_lookup t) as Hl. pose proof (newest_pending_newest t) as Hn.
  destruct (filter (matches _ _) _) as [|[i a] [|]]; [|by intros [= <- <-]|];
    rewrite (update_pending_unknown t r now Hno);
    (destruct (newest_pending t) as [[id s]|];
     [destruct (Hl id s eq_refl) as [_ Hps]; intros [= <- <-]; split_and!; by eauto
     |rewrite (insert_satellite_unknown t r now Hno new_id Hnew);
      case_decide; by intros [= <- <-]]).
Qed.

End Statements.

(** A pending row and an active one. *)
Definition demo_sat : Sat :=
  mkSat "edge" 0 (Some "fp1") "offline" "v1" "linux" "amd64" [] ∅ 3 3.
Definition demo_pending : Sat := mkSat "new box" 0 None "pending" "" "" "" [] ∅ 5 5.
Definition demo_table : table := {[1%N := demo_sat; 2%N := demo_pending]}.
Definition demo_registration (raw fp : string) : Registration :=
  mkRegistration raw fp "" 0 "v2" "linux" "arm64" ["pi"].

Lemma demo_table_ok : table_ok demo_table.
Proof.
  assert (∀ i a, demo_table !! i = Some a → (i, a) ∈ [(1%N, demo_sat); (2%N, demo_pending)]) as H.
  { unfold demo_table. intros i a [[<- <-]|[_ [<- <-]%lookup_singleton_Some]]%lookup_insert_Some; set_solver. }
  split.
  - by intros i j a b [[= -> ->]|[[= -> ->]|[]%elem_of_nil]%elem_of_cons]%H%elem_of_cons
      [[= -> ->]|[[= -> ->]|[]%elem_of_nil]%elem_of_cons]%H%elem_of_cons.
  - by intros i j a b x [[= -> ->]|[[= -> ->]|[]%elem_of_nil]%elem_of_cons]%H%elem_of_cons
      [[= -> ->]|[[= -> ->]|[]%elem_of_nil]%elem_of_cons]%H%elem_of_cons.
  - by intros i a [[= -> ->]|[[= -> ->]|[]%elem_of_nil]%elem_of_cons]%H%elem_of_cons.
Qed.

(** The known fingerprint wins over the claimed name; an unknown one gets the
    pending row. *)
Example resolve_registers_witness :
  (resolve pretty (λ l, l) demo_table (demo_registration "new box" "fp1") 9 50
     NoFault NoFault NoFault).2 = Some 1%N ∧
  (resolve pretty (λ l, l) demo_table (demo_registration "who" "fp9") 9 50
     NoFault NoFault NoFault).2 = Some 2%N.
Proof.
  pose proof (resolve_registers pretty (λ l, l) (λ l, reflexivity _) demo_table
    (demo_registration "new box" "fp1") 9 50 demo_table_ok eq_refl) as (_ & H1 & _).
  pose proof (resolve_registers pretty (λ l, l) (λ l, reflexivity _) demo_table
    (demo_registration "who" "fp9") 9 50 demo_table_ok eq_refl) as (_ & _ & H2).
  split.
  - by apply (H1 1%N demo_sat).
  - apply H2. unfold demo_table. by intros j b [[<- <-]|[_ [<- <-]%lookup_singleton_Some]]%lookup_insert_Some.
Defined.

End Sats.
