(* ===== verification/AgentRuns.v ===== *)
(** * internal/database/agent_runs.go, agent_run_events.go: runs of an agent

    The table [agent_runs] (db/migrations 017, 026, 032) with its foreign keys
    and its CHECK on the status, and the statements of the two files and of the
    gateway on it. [UpdateAgentRun] builds its SET list from the fields that
    are given; a field that is not given keeps its value. Rows of
    [agent_run_events] are those of [BatchWriter], as both files insert there. *)
From S2P Require Import Prelude SessionStore BatchWriter.
Import Store.
#[local] Open Scope Z_scope.

Module Runs.

Record AgentRun := mkRun {
  ID : N; AgentID : N; SatelliteID : N; SessionID : option N;
  Status : string; TriggerSource : string; StartedAt : Z; EndedAt : option Z;
  TotalTokens : Z; EstimatedCost : Z; ToolCallCount : Z;
  Result : option string; Error : option string; Metadata : string;
}.
Notation table := (gmap N AgentRun).

Record AgentRunUpdates := mkUpdates {
  u_Status : option string; u_EndedAt : option Z; u_TotalTokens : option Z;
  u_EstimatedCost : option Z; u_ToolCallCount : option Z;
  u_Result : option string; u_Error : option string; u_Metadata : option string;
}.
Definition no_updates : AgentRunUpdates := mkUpdates None None None None None None None None.

(** CHECK (status IN ...) *)
Definition run_statuses : list string := ["running"; "completed"; "failed"; "timeout"; "killed"].

(** The keys the foreign keys refer to. *)
Record refs := mkRefs { agents : gset N; sats : gset N; sess : gset N }.

(** The id is what gen_random_uuid() gives. *)
Definition CreateAgentRun (t : table) (k : refs) (agentID satelliteID : N) (sessionID : option N)
    (triggerSource : string) (new_id : N) (now : Z) (f : fault) : table * option AgentRun :=
  let row := mkRun new_id agentID satelliteID sessionID "running" triggerSource now None
               0 0 0 None None "{}" in
  if bool_decide (t !! new_id = None) && bool_decide (agentID ∈ agents k)
     && bool_decide (satelliteID ∈ sats k)
     && match sessionID with None => true | Some s => bool_decide (s ∈ sess k) end
  then match f with
       | NoFault => (<[new_id := row]> t, Some row)
       | StmtFails => (t, None)
       | AckLost => (<[new_id := row]> t, None)
       end
  else (t, None).

(** A missing row is [nil, nil]. *)
Definition GetAgentRun (t : table) (id : N) (f : bool) : result unit (option AgentRun) :=
  if f then Err () else Ok (t !! id).

Record AgentRunFilters := mkFilters {
  f_AgentID : option N; f_SatelliteID : option N; f_Status : option string;
}.

(** WHERE 1=1 AND ...: a filter that is nil adds no clause. *)
Definition passes (fl : AgentRunFilters) (r : AgentRun) : bool :=
  from_option (λ a, bool_decide (AgentID r = a)) true (f_AgentID fl) &&
  from_option (λ s, bool_decide (SatelliteID r = s)) true (f_SatelliteID fl) &&
  from_option (λ st, bool_decide (Status r = st)) true (f_Status fl).

(** ORDER BY started_at DESC *)
Definition started_later (a b : AgentRun) : Prop := StartedAt b <= StartedAt a.
#[export] Instance started_later_dec : RelDecision started_later.
Proof. intros a b. unfold started_later. apply _. Defined.

Section Queries.
(** The order the server scans the rows in. *)
Variable arrange : list AgentRun → list AgentRun.

Definition newest_first (t : table) (P : AgentRun → bool) : list AgentRun :=
  merge_sort started_later (filter P (arrange (map_to_list t).*2)).

Definition ListAgentRuns (t : table) (fl : AgentRunFilters) (f : bool)
    : result unit (list AgentRun) :=
  if f then Err () else Ok (newest_first t (passes fl)).

(** WHERE session_id = $1 ORDER BY started_at DESC LIMIT 1 *)
Definition GetAgentRunIDBySessionID (t : table) (sessionID : N) (f : bool)
    : result unit (option N) :=
  if f then Err ()
  else Ok (ID <$> head (newest_first t (λ r, bool_decide (SessionID r = Some sessionID)))).

(** The gateway's lookup: session_id::text = $1 AND status = 'running', newest
    first. *)
Definition running_run (uuid_String : N → string) (t : table) (sid : string) (f : bool)
    : option N :=
  if f then None else
  ID <$> head (newest_first t (λ r,
    bool_decide (uuid_String <$> SessionID r = Some sid) && String.eqb (Status r) "running")).

Context (arrange_perm : ∀ l, arrange l ≡ₚ l).

Lemma newest_first_elem t P r :
  (∀ id a, t !! id = Some a → ID a = id) →
  r ∈ newest_first t P ↔ t !! ID r = Some r ∧ P r = true.
Proof.
  intros Hwf. unfold newest_first.
  rewrite merge_sort_Permutation, list_elem_of_filter, arrange_perm, list_elem_of_fmap, Is_true_true.
  split.
  - intros [Hp ([id a] & -> & Hin%elem_of_map_to_list)]. simpl. by rewrite (Hwf _ _ Hin).
  - intros [Hin Hp]. split; [done|]. exists (ID r, r). by rewrite elem_of_map_to_list.
Qed.

(** The lookup finds a running run of the session if there is one. *)
Lemma running_run_Some uuid_String t sid id :
  (∀ id a, t !! id = Some a → ID a = id) →
  running_run uuid_String t sid false = Some id →
  ∃ r, t !! id = Some r ∧ uuid_String <$> SessionID r = Some sid ∧ Status r = "running".
Proof.
  intros Hwf. unfold running_run. destruct (head _) as [r|] eqn:Hh; [|done].
  intros [= <-]. apply head_Some_elem_of in Hh. apply newest_first_elem in Hh as [Hr Hp]; [|done].
  apply andb_true_iff in Hp as [Hs%bool_decide_eq_true Hst%String.eqb_eq]. eauto.
Qed.

Lemma running_run_None uuid_String t sid :
  (∀ id a, t !! id = Some a → ID a = id) →
  running_run uuid_String t sid false = None →
  ∀ id r, t !! id = Some r → uuid_String <$> SessionID r = Some sid → Status r ≠ "running".
Proof.
  intros Hwf. unfold running_run. destruct (newest_first _ _) as [|r0 l] eqn:Hn; [|done].
  intros _ id r Hr Hs Hst. apply (not_elem_of_nil r). rewrite <-Hn.
  apply newest_first_elem; [done|]. rewrite (Hwf _ _ Hr). split; [done|].
  by rewrite bool_decide_true, Hst.
Qed.
End Queries.

(** The SET list. *)
Definition apply_updates (u : AgentRunUpdates) (r : AgentRun) : AgentRun :=
  mkRun (ID r) (AgentID r) (SatelliteID r) (SessionID r)
    (default (Status r) (u_Status u)) (TriggerSource r) (StartedAt r)
    (match u_EndedAt u with Some t => Some t | None => EndedAt r end)
    (default (TotalTokens r) (u_TotalTokens u))
    (default (EstimatedCost r) (u_EstimatedCost u))
    (default (ToolCallCount r) (u_ToolCallCount u))
    (match u_Result u with Some x => Some x | None => Result r end)
    (match u_Error u with Some x => Some x | None => Error r end)
    (default (Metadata r) (u_Metadata u)).

(** [hasUpdates] *)
Definition hasUpdates (u : AgentRunUpdates) : bool :=
  bool_decide (is_Some (u_Status u)) || bool_decide (is_Some (u_EndedAt u))
  || bool_decide (is_Some (u_TotalTokens u)) || bool_decide (is_Some (u_EstimatedCost u))
  || bool_decide (is_Some (u_ToolCallCount u)) || bool_decide (is_Some (u_Result u))
  || bool_decide (is_Some (u_Error u)) || bool_decide (is_Some (u_Metadata u)).

(** A missing row is [nil, nil]; INTEGER columns refuse what they cannot hold. *)
Definition int4 (z : Z) : bool := (-2147483648 <=? z) && (z <=? 2147483647).
Definition row_allowed (r : AgentRun) : bool :=
  bool_decide (Status r ∈ run_statuses) && int4 (TotalTokens r) && int4 (ToolCallCount r).

Definition UpdateAgentRun (t : table) (id : N) (u : AgentRunUpdates) (f : fault)
    : table * result unit (option AgentRun) :=
  if negb (hasUpdates u) then (t, GetAgentRun t id (match f with NoFault => false | _ => true end))
  else match t !! id with
  | None => (t, match f with NoFault => Ok None | _ => Err () end)
  | Some r =>
      let r' := apply_updates u r in
      if row_allowed r' then
        match f with
        | NoFault => (<[id := r']> t, Ok (Some r'))
        | StmtFails => (t, Err ())
        | AckLost => (<[id := r']> t, Err ())
        end
      else (t, Err ())
  end.

(** INSERT INTO agent_run_events: a row of an existing run. *)
Definition InsertAgentRunEvent (t : table) (events : list (Batch.pendingEvent (Payload := list Z)))
    (runID : N) (eventType : string) (payload : list Z) (sequence : Z) (f : fault)
    : list Batch.pendingEvent :=
  match t !! runID, f with
  | None, _ | _, StmtFails => events
  | Some _, _ => events ++ [Batch.mkEvent runID eventType payload sequence]
  end.

Lemma UpdateAgentRun_keys t id u f :
  (∀ i r, t !! i = Some r → ID r = i) →
  let t' := (UpdateAgentRun t id u f).1 in
  (∀ i r, t' !! i = Some r → ID r = i) ∧ dom t' = dom t ∧
  (∀ i, i ≠ id → t' !! i = t !! i).
Proof.
  intros Hwf. unfold UpdateAgentRun. destruct (negb _); [by split_and!|].
  destruct (t !! id) as [r|] eqn:Hr; [|by split_and!]. destruct (row_allowed _); [|by split_and!].
  assert (∀ i r', <[id := apply_updates u r]> t !! i = Some r' → ID r' = i) as Hins.
  { intros i r' [[<- <-]|[_ ?]]%lookup_insert_Some; [|by eauto]. simpl. eauto. }
  destruct f; simpl; split_and!; try done;
    try (by rewrite dom_insert_lookup_L; eauto); intros; by rewrite lookup_insert_ne.
Qed.

End Runs.
