(* ===== verification/RunStream.v ===== *)
(** * src/internal/api/agent_run_stream.go: the runs of an agent, and their stream

    The handlers under /api/v1/runs: the listing with its joins
    (internal/database/agent_runs.go), one run, and the stream of a run, which
    replays the stored events and then sends what the hub of [Streams] gives it.
    The gateway publishes an event first and stores it later. *)
From Stdlib Require Import Ascii String.
From S2P Require Import Prelude GoStrings SessionStore BatchWriter AgentRuns.
From S2P Require Import Channels.
From S2P Require Import Streams.
Import Chan Hub.
Import Store.
#[local] Open Scope Z_scope.
#[local] Set Default Proof Using "Type".

Module RunStream.

(** ** The listing and the runs *)

Section Api.
Variable uuid_Parse : string → option N.
Variable arrange : list Runs.AgentRun → list Runs.AgentRun.
(** The joined columns: names ([""] where there is none) and the rows of
    pipeline_step_runs of a run with their pipeline's. *)
Variable agent_name satellite_name : N → string.
Variable step_rows : N → list (N * option string * Z).

Record AgentRunWithContext := mkRow { x_run : Runs.AgentRun; x_AgentName : string; x_SatelliteName : string; x_step : option (N * option string * Z) }.
(** The LEFT JOINs: one row for each step, or one. *)
Definition joined (r : Runs.AgentRun) : list AgentRunWithContext :=
  mkRow r (agent_name (Runs.AgentID r)) (satellite_name (Runs.SatelliteID r)) <$>
    (match step_rows (Runs.ID r) with [] => [None] | l => Some <$> l end).
Definition clamp_limit (limit : Z) : Z := if limit <=? 0 then 50 else if 200 <? limit then 200 else limit.
(** A negative offset is an error of the server. *)
Definition ListAgentRunsWithContext (t : gmap N Runs.AgentRun) (fl : Runs.AgentRunFilters) (limit offset : Z) (f1 f2 : bool)
    : result unit (list AgentRunWithContext * Z) :=
  let runs := Runs.newest_first arrange t (Runs.passes fl) in
  if f1 || f2 || (offset <? 0) then Err () else
  Ok (take (Z.to_nat (clamp_limit limit)) (drop (Z.to_nat offset) (runs ≫= joined)), Z.of_nat (length runs)).

Inductive reply :=
  | RError (status : Z) (msg : string) | RList (runs : list AgentRunWithContext) (total : Z) | RDetail (run : Runs.AgentRun) | RStream.
Definition scan_or (dflt : Z) (s : string) : Z := if String.eqb s "" then dflt else default dflt (Str.Sscanf_d s).
Record query := mkQuery { q_agent_id : string; q_status : string; q_limit : string; q_offset : string }.
Definition handleListAllRuns (t : gmap N Runs.AgentRun) (method : string) (q : query) (f1 f2 : bool) : reply :=
  if negb (String.eqb method "GET") then RError 405 "method not allowed" else
  let agent := if String.eqb (q_agent_id q) "" then Some None else Some <$> uuid_Parse (q_agent_id q) in
  match agent with
  | None => RError 400 "invalid agent_id"
  | Some a =>
      let fl := Runs.mkFilters a None (if String.eqb (q_status q) "" then None else Some (q_status q)) in
      match ListAgentRunsWithContext t fl (scan_or 50 (q_limit q)) (scan_or 0 (q_offset q)) f1 f2 with
      | Err _ => RError 500 "failed to list runs"
      | Ok (runs, total) => RList runs total
      end
  end.
Definition HandleAgentRunRoutes (t : gmap N Runs.AgentRun) (method path : string) (q : query) (f1 f2 : bool) : reply :=
  if String.eqb (Str.TrimRight (Str.TrimPrefix path "/api/v1/runs") "/") "" then handleListAllRuns t method q f1 f2 else
  if Str.HasSuffix path "/stream" then RStream else
  match uuid_Parse (Str.TrimRight (Str.TrimPrefix path "/api/v1/runs/") "/") with
  | None => RError 400 "invalid run_id"
  | Some id =>
      match Runs.GetAgentRun t id f1 with
      | Err _ => RError 500 "failed to get run"
      | Ok None => RError 404 "run not found"
      | Ok (Some run) => RDetail run
      end
  end.

Lemma length_joined l : (∀ id, (length (step_rows id) <= 1)%nat) → length (l ≫= joined) = length l.
Proof.
  intros H. induction l as [|r l IH]; [done|]. cbn. rewrite length_app, IH. unfold joined. rewrite length_fmap.
  pose proof (H (Runs.ID r)). destruct (step_rows (Runs.ID r)) as [|x [|y l']]; cbn in *; lia.
Qed.
Lemma lookup_drop_elem {A} (l : list A) n i x : drop n l !! i = Some x → x ∈ l.
Proof. rewrite lookup_drop. apply list_elem_of_lookup_2. Qed.

(** a page of the runs: never more than 200 rows, whatever the client asks for;
    the rows are runs of the table that pass the filters; and where no run belongs
    to two pipeline steps, a page is as long as the limit and the total allow. *)
Theorem runs_page t fl limit offset rows total : (∀ l, Permutation (arrange l) l) →
  (∀ id a, t !! id = Some a → Runs.ID a = id) →
  ListAgentRunsWithContext t fl limit offset false false = Ok (rows, total) →
  Z.of_nat (length rows) <= Z.min 200 (clamp_limit limit) ∧
  (∀ x, x ∈ rows → t !! Runs.ID (x_run x) = Some (x_run x) ∧ Runs.passes fl (x_run x) = true) ∧
  ((∀ id, (length (step_rows id) <= 1)%nat) → 0 <= total - offset →
   Z.of_nat (length rows) = Z.min (clamp_limit limit) (total - offset)).
Proof.
  intros Hperm Hwf. unfold ListAgentRunsWithContext. cbn [orb]. destruct (Z.ltb_spec offset 0); [done|]. set (runs := Runs.newest_first _ _ _).
  intros [= <- <-]. assert (1 <= clamp_limit limit <= 200) as Hc.
  { unfold clamp_limit. destruct (Z.leb_spec limit 0); [lia|]. destruct (Z.ltb_spec 200 limit); lia. }
  split; [rewrite length_take; lia|]. split.
  - intros x (i & Hx%lookup_drop_elem & _)%elem_of_take. apply list_elem_of_bind in Hx as (r & Hj & Hr).
    apply list_elem_of_fmap in Hj as (o & -> & _). by apply (Runs.newest_first_elem arrange Hperm) in Hr.
  - intros Hone Ho. rewrite length_take, length_drop, length_joined by done. lia.
Qed.
End Api.

(** ** The stream of a run *)

Section Stream.
Context {Event : Type}.
(** The number of an event, by which the history is ordered. *)
Variable Sequence : Event → Z.
(** Whether json.Marshal of the event works: it fails where the payload, raw bytes
    of the satellite, is not JSON. *)
Variable marshals : Event → bool.
Variable range_set : gset N → list N.
Hypothesis range_perm : ∀ X, Permutation (range_set X) (elements X).
Variable runID : N.

Inductive frame := Connected | History (e : Event) | Blank | LiveStart | AgentEvent (e : Event) | Heartbeat.
(** A replayed event that does not marshal is sent with empty data, a live one is
    skipped. *)
Definition past (e : Event) : frame := if marshals e then History e else Blank.
Definition live (l : list Event) : list frame := AgentEvent <$> filter (λ e, marshals e = true) l.
#[local] Arguments live : simpl never.
(** The program points of handleAgentRunStream. *)
Inductive pc_t := PStart | PLoaded (status : string) | PSubscribed (status : string) (ch : N) | PLive (ch : N) | PDone | PRefused (status : Z).

(** The world around one client: the hub, the row of the run, and its events:
    [log] all that were published, [waiting] those that a batch or a goroutine
    holds, [stored] the rows. [from], [hist] and [got] note what the log was at the
    subscription, what was replayed, and how many live events were received; [lost]
    that the channel was full once. *)
Record World := mkWorld {
  hub : RunEventHub (Event := Event); runs : gmap N Runs.AgentRun;
  log : list Event; waiting : list Event; stored : list Event;
  pc : pc_t; frames : list frame; from : nat; hist : option (list Event); got : nat; lost : bool;
}.
Definition set_pc (w : World) (p : pc_t) (out : list frame) : World :=
  mkWorld (hub w) (runs w) (log w) (waiting w) (stored w) p (frames w ++ out) (from w) (hist w) (got w) (lost w).
Definition set_hub (w : World) h : World :=
  mkWorld h (runs w) (log w) (waiting w) (stored w) (pc w) (frames w) (from w) (hist w) (got w) (lost w).

(** ORDER BY sequence ASC *)
Definition earlier (a b : Event) : Prop := Sequence a <= Sequence b.
#[local] Instance earlier_dec : RelDecision earlier.
Proof. intros a b. unfold earlier. apply _. Defined.
Definition ListAgentRunEvents (rows : list Event) (f : bool) : result unit (list Event) :=
  if f then Err () else Ok (merge_sort earlier rows).
Definition ListAgentRunEventsAfter (rows : list Event) (afterSequence : Z) (f : bool) : result unit (list Event) :=
  if f then Err () else Ok (merge_sort earlier (filter (λ e, afterSequence < Sequence e) rows)).

Definition final (status : string) : bool := bool_decide (status ∈ ["completed"; "failed"; "timeout"; "killed"]%string).
Definition my_channel (p : pc_t) : option N := match p with PSubscribed _ ch | PLive ch => Some ch | _ => None end.

(** Load: the run is looked up. *)
Definition load (w : World) (f : bool) : World :=
  match Runs.GetAgentRun (runs w) runID f with
  | Err _ => set_pc w (PRefused 500) []
  | Ok None => set_pc w (PRefused 404) []
  | Ok (Some r) => set_pc w (PLoaded (Runs.Status r)) []
  end.
Definition subscribe (w : World) (status : string) : World :=
  let '(h, ch) := Subscribe (hub w) runID in
  mkWorld h (runs w) (log w) (waiting w) (stored w) (PSubscribed status ch) (frames w ++ [Connected]) (length (log w)) (hist w) (got w) (lost w).
(** The end of the handler: the deferred Unsubscribe. *)
Definition finish (w : World) (ch : N) : go World := h ← Unsubscribe range_set (hub w) runID ch; Ret (set_pc (set_hub w h) PDone []).
(** The history, if the query works, and the end of a run that was over. *)
Definition replay (w : World) (status : string) (ch : N) (f : bool) : go World :=
  let events := match ListAgentRunEvents (stored w) f with Ok l => l | Err _ => [] end in
  let w1 := mkWorld (hub w) (runs w) (log w) (waiting w) (stored w) (PLive ch) (frames w ++ (past <$> events) ++ [LiveStart])
    (from w) (Some events) (got w) (lost w) in
  if final status then finish w1 ch else Ret w1.
(** case evt, ok := <-ch *)
Definition receive (w : World) (ch : N) : go World :=
  match recv (chans (hub w)) ch with
  | (h, Some e) =>
      Ret (mkWorld (mkHub (clients (hub w)) (subs (hub w)) h) (runs w) (log w) (waiting w) (stored w) (pc w) (frames w ++ live [e])
        (from w) (hist w) (S (got w)) (lost w))
  | (_, None) => if decide (from_option ch_closed false (chans (hub w) !! ch) = true) then finish w ch else Ret w
  end.

Inductive action :=
  | Publish_ (e : Event)                            (* the gateway; the event is stored later *)
  | Store (i : nat) (ok : bool)                     (* a waiting event is written, or its insertion fails *)
  | Update (u : Runs.AgentRunUpdates) (f : fault)   (* the summary of the run *)
  | Close_                                          (* the hub closes the run *)
  | Other (o : hub_op (Event := Event))             (* other clients, other runs *)
  | Load (f : bool) | Subscribe_ | Replay (f : bool) | Receive | Beat | Gone.
Definition is_other (w : World) (o : hub_op (Event := Event)) : bool :=
  match o with
  | HSubscribe _ => true
  | HUnsubscribe r c => bool_decide (r ≠ runID ∨ Some c ≠ my_channel (pc w))
  | HPublish r _ | HClose r => bool_decide (r ≠ runID)
  end.
Definition full (w : World) : bool :=
  match my_channel (pc w) with Some ch => negb (has_room (chans (hub w)) ch) | None => false end.
(** A step that cannot be taken here changes nothing. *)
Definition step (w : World) (a : action) : go World :=
  match a, pc w with
  | Publish_ e, _ =>
      h ← Publish range_set (hub w) runID e;
      Ret (mkWorld h (runs w) (log w ++ [e]) (waiting w ++ [e]) (stored w) (pc w) (frames w) (from w) (hist w) (got w) (lost w || full w))
  | Store i ok, _ =>
      Ret (match waiting w !! i with
           | Some e => mkWorld (hub w) (runs w) (log w) (delete i (waiting w)) (stored w ++ if ok then [e] else []) (pc w) (frames w)
                         (from w) (hist w) (got w) (lost w)
           | None => w
           end)
  | Update u f, _ =>
      Ret (mkWorld (hub w) (Runs.UpdateAgentRun (runs w) runID u f).1 (log w) (waiting w) (stored w) (pc w) (frames w) (from w) (hist w) (got w) (lost w))
  | Close_, _ => h ← Close range_set (hub w) runID; Ret (set_hub w h)
  | Other o, _ => if is_other w o then h ← hub_step range_set (hub w) o; Ret (set_hub w h) else Ret w
  | Load f, PStart => Ret (load w f)
  | Subscribe_, PLoaded st => Ret (subscribe w st)
  | Replay f, PSubscribed st ch => replay w st ch f
  | Receive, PLive ch => receive w ch
  | Beat, PLive _ => Ret (set_pc w (pc w) [Heartbeat])
  | Gone, PLive ch => finish w ch
  | _, _ => Ret w
  end.
Fixpoint run (w : World) (acts : list action) : go World :=
  match acts with [] => Ret w | a :: acts' => w' ← step w a; run w' acts' end.
Definition start (h : heap Event) (t : gmap N Runs.AgentRun) : World :=
  mkWorld (NewRunEventHub h) t [] [] [] PStart [] 0 None 0 false.

(** *** The channel of the client *)

Definition alive (h : RunEventHub (Event := Event)) (ch : N) : Prop :=
  subscribed h runID ch ∧ (length (pending (chans h) ch) <= capacity (chans h) ch)%nat.
Definition dead (h : RunEventHub (Event := Event)) (ch : N) : Prop :=
  (∃ c, chans h !! ch = Some c ∧ ch_closed c = true) ∧ ∀ r, ¬ subscribed h r ch.

Lemma dead_step h h' o ch : hub_ok h → dead h ch → hub_step range_set h o = Ret h' → dead h' ch ∧ chans h' !! ch = chans h !! ch.
Proof using range_perm.
  intros Hok [(c & Hc & Hcl) Hns] Hstep.
  assert (chans h' !! ch = chans h !! ch ∧ ∀ r, ¬ subscribed h' r ch) as [E Hns']; [|split; [split; [by exists c; rewrite E|done]|done]].
  destruct o as [r|r c0|r e|r]; cbn [hub_step] in Hstep.
  - apply Ret_inj in Hstep as <-. unfold Subscribe. pose proof (make_chan_spec (chans h) 128) as Hmk.
    destruct (make_chan (chans h) 128) as [hp c1]. destruct Hmk as [Hnew ->]. assert (c1 ≠ ch) as Hne by congruence. cbn. split.
    + by rewrite lookup_insert_ne.
    + intros r0. unfold subscribed. cbn. destruct (decide (r = r0)) as [<-|].
      * rewrite lookup_insert_eq. cbn. intros [?%elem_of_singleton|H]%elem_of_union; [done|by apply (Hns r)].
      * rewrite lookup_insert_ne by done. apply Hns.
  - destruct (Unsubscribe_ok range_set range_perm h r c0 Hok) as (h1 & E & _ & Hs & Hf & _). rewrite Hstep in E. injection E as <-.
    split; [apply Hf; right; apply Hns|]. intros r0 [H _]%Hs. by apply (Hns r0).
  - destruct (Publish_ok range_set range_perm h r e Hok) as (h1 & E & _ & _ & Hout & _). rewrite Hstep in E. injection E as ->.
    split; [by apply Hout|done].
  - destruct (Close_ok range_set range_perm h r Hok) as (h1 & E & _ & Hs & Hf & _). rewrite Hstep in E. injection E as <-.
    split; [by apply Hf|]. intros r0 [H _]%Hs. by apply (Hns r0).
Qed.

(** Calls that keep the subscription. *)
Lemma alive_step h h' o ch : hub_ok h → alive h ch → keeps runID ch o → hub_step range_set h o = Ret h' →
  (length (pending (chans h) ch ++ events_of runID [o]) <= capacity (chans h) ch)%nat →
  alive h' ch ∧ pending (chans h') ch = pending (chans h) ch ++ events_of runID [o].
Proof using range_perm.
  intros Hok [Hs Hl] Hk Hstep Hfit. destruct (hub_step_keeps range_set range_perm h h' o runID ch Hok Hs Hk Hstep) as (H1 & H2 & H3).
  rewrite (H3 Hfit). split; [split; [done|]|done]. by rewrite H2, (H3 Hfit).
Qed.

Lemma recv_hub h ch hp x : hub_ok h → recv (chans h) ch = (hp, x) →
  let h' := mkHub (clients h) (subs h) hp in
  hub_ok h' ∧ pending (chans h) ch = (match x with Some e => [e] | None => [] end) ++ pending hp ch ∧
  (alive h ch → alive h' ch) ∧ (dead h ch → dead h' ch).
Proof.
  intros [Hlive Hone Hself] Hr. unfold recv in Hr.
  destruct (chans h !! ch) as [[cap [|a buf] cl]|] eqn:E;
    [injection Hr as <- <-; unfold pending; rewrite E; by destruct h|
    |injection Hr as <- <-; unfold pending; rewrite E; by destruct h].
  injection Hr as <- <-.
  assert (∀ c, open (chans h) c ↔ open (<[ch := mkChan cap buf cl]> (chans h)) c) as Hop.
  { intros c. unfold open. destruct (decide (ch = c)) as [<-|].
    - rewrite lookup_insert_eq, E. split; intros (? & [= <-] & Hc); by eexists.
    - by rewrite lookup_insert_ne. }
  split_and!.
  - split; cbn; [|done|].
    + intros r p Hs. destruct (Hlive r p Hs) as [H1 H2]. split; [done|by apply Hop].
    + intros p s Hp. destruct (Hself p s Hp) as [H1 H2]. split; [done|]. rewrite lookup_insert_is_Some'. by right.
  - unfold pending. by rewrite E, lookup_insert_eq.
  - unfold alive, pending, capacity. cbn. rewrite E, lookup_insert_eq. cbn. intros [? ?]. split; [done|lia].
  - intros [(c & Hc & Hcl) Hns]. split; [|done]. rewrite E in Hc. injection Hc as <-. cbn. by eexists; rewrite lookup_insert_eq.
Qed.

(** *** The invariant *)

Definition is_beat (f : frame) : bool := match f with Heartbeat => true | _ => false end.
Definition body (w : World) : list frame := List.filter (λ f, negb (is_beat f)) (frames w).
Definition sent (w : World) : list Event := take (got w) (drop (from w) (log w)).
Definition expected (w : World) : list frame :=
  match pc w with
  | PStart | PLoaded _ | PRefused _ => []
  | PSubscribed _ _ => [Connected]
  | PLive _ | PDone => Connected :: (past <$> default [] (hist w)) ++ LiveStart :: live (sent w)
  end.
Record inv (w : World) : Prop := {
  i_hub : hub_ok (hub w);
  i_from : (from w <= length (log w))%nat;
  i_chan : ∀ ch, my_channel (pc w) = Some ch → alive (hub w) ch ∨ dead (hub w) ch;
  i_early : (∀ ch, pc w ≠ PLive ch) → pc w ≠ PDone → got w = 0%nat ∧ hist w = None;
  i_got : lost w = false → (got w <= length (drop (from w) (log w)))%nat;
  i_flow : ∀ ch, my_channel (pc w) = Some ch → lost w = false →
    ∃ rest, drop (from w) (log w) = sent w ++ pending (chans (hub w)) ch ++ rest ∧ (alive (hub w) ch → rest = []);
  i_frames : lost w = false → body w = expected w;
  i_hist : ∀ e, e ∈ default [] (hist w) ++ stored w ++ waiting w → e ∈ log w;
  i_sorted : StronglySorted earlier (default [] (hist w));
}.

Lemma inv_start h t : inv (start h t).
Proof.
  split; cbn; try done. constructor.
Qed.

(** Another hub in which the client's channel holds the same. *)
Lemma inv_set_hub w h' : inv w → hub_ok h' →
  (∀ ch, my_channel (pc w) = Some ch → (alive h' ch ∨ dead h' ch) ∧ pending (chans h') ch = pending (chans (hub w)) ch ∧
    (alive h' ch → alive (hub w) ch)) → inv (set_hub w h').
Proof.
  intros [] Hok H. split; try done; cbn.
  - intros ch Hch. by apply H.
  - intros ch Hch Hl. destruct (H ch Hch) as (_ & -> & Ha). destruct (i_flow0 ch Hch Hl) as (rest & Hr & Hz).
    exists rest. split; [done|]. intros ?. by apply Hz, Ha.
Qed.

Lemma alive_not_dead h ch : hub_ok h → alive h ch → ¬ dead h ch.
Proof. intros _ [H _] [_ Hd]. by apply (Hd runID). Qed.

Lemma inv_other w o : inv w → is_other w o = true → ∃ w', (h ← hub_step range_set (hub w) o; Ret (set_hub w h)) = Ret w' ∧ inv w'.
Proof using range_perm.
  intros Hw Ho. destruct (hub_step_ok range_set range_perm (hub w) o (i_hub w Hw)) as (h' & E & Hok). rewrite E. eexists. split; [done|].
  apply inv_set_hub; [done|done|]. intros ch Hch. assert (keeps runID ch o ∧ events_of runID [o] = []) as [Hk He].
  { destruct o as [r|r c|r e|r]; cbn in *; try done.
    - split; [|done]. apply bool_decide_eq_true in Ho. intros [-> ->]. destruct Ho as [|Ho]; [done|]. congruence.
    - apply bool_decide_eq_true in Ho. by rewrite decide_False.
    - by apply bool_decide_eq_true in Ho. }
  destruct (i_chan w Hw ch Hch) as [Ha|Hd].
  - destruct (alive_step (hub w) h' o ch (i_hub w Hw) Ha Hk E) as [H1 H2]; [rewrite He, app_nil_r; apply Ha|].
    rewrite He, app_nil_r in H2. by split_and!; [left|..].
  - destruct (dead_step _ _ _ _ (i_hub w Hw) Hd E) as [H1 H2]. split_and!; [by right|unfold pending; by rewrite H2|].
    intros H. by destruct (alive_not_dead h' ch Hok H).
Qed.

Lemma close_kills h ch : hub_ok h → alive h ch → ∃ h', Close range_set h runID = Ret h' ∧ hub_ok h' ∧ dead h' ch ∧
  pending (chans h') ch = pending (chans h) ch.
Proof using range_perm.
  intros Hok [Hs Hl]. destruct (Close_ok range_set range_perm h runID Hok) as (h' & E & Hok' & Hsub & _ & Hc).
  exists h'. split; [done|]. split; [done|]. destruct (Hc ch Hs) as [Hno Hp]. split; [|done]. split.
  - assert (is_Some (chans h' !! ch)) as [c Hcc].
    { apply elem_of_dom. rewrite (Close_dom _ _ _ _ E). apply elem_of_dom. destruct (ok_live _ Hok _ _ Hs) as [_ (c & Hc0 & _)]. by eexists. }
    exists c. split; [done|]. destruct (ch_closed c) eqn:Ec; [done|]. destruct Hno. by exists c.
  - intros r [H Hr]%Hsub. by apply Hr, (ok_one _ Hok r runID ch).
Qed.

Lemma expected_log w l : (from w <= length (log w))%nat → (lost w = false → (got w <= length (drop (from w) (log w)))%nat) → lost w = false →
  take (got w) (drop (from w) (log w ++ l)) = take (got w) (drop (from w) (log w)).
Proof. intros H1 H2 H3. rewrite drop_app_le by done. by rewrite take_app_le by auto. Qed.

Lemma inv_publish w e : inv w → ∃ w', step w (Publish_ e) = Ret w' ∧ inv w'.
Proof using range_perm.
  intros Hw. pose proof Hw as [Hok Hfrom Hchan Hearly Hgot Hflow Hfr Hhist Hsort].
  destruct (hub_step_ok range_set range_perm (hub w) (HPublish runID e) Hok) as (h' & E & Hok'). cbn [step hub_step] in *. rewrite E.
  eexists. split; [done|].
  assert (∀ ch, my_channel (pc w) = Some ch → (alive (hub w) ch → alive h' ch ∧ (full w = false → pending (chans h') ch = pending (chans (hub w)) ch ++ [e])) ∧
    (dead (hub w) ch → dead h' ch ∧ chans h' !! ch = chans (hub w) !! ch)) as Hch.
  { intros ch Hc. split.
    - intros Ha. destruct (hub_step_keeps range_set range_perm (hub w) h' (HPublish runID e) runID ch Hok (proj1 Ha) I E) as (H1 & H2 & H3).
      cbn [events_of] in H3. rewrite decide_True in H3 by done. cbn in H3. rewrite length_app in H3. cbn in H3. split.
      + split; [done|]. rewrite H2. destruct (Publish_ok range_set range_perm (hub w) runID e Hok) as (h1 & E1 & _ & Hin & _ & _).
        rewrite E in E1. injection E1 as ->. cbn. rewrite (Hin ch (proj1 Ha)), has_room_pending. destruct Ha as [_ Ha].
        case_bool_decide; rewrite length_app; cbn; lia.
      + intros Hf. apply H3. unfold full in Hf. rewrite Hc, has_room_pending in Hf. apply negb_false_iff, bool_decide_eq_true in Hf. lia.
    - intros Hd. by apply (dead_step _ h' (HPublish runID e)). }
  split; cbn; try done.
  - rewrite length_app. lia.
  - intros ch Hc. destruct (Hch ch Hc) as [Ha Hd]. destruct (Hchan ch Hc) as [H|H]; [left; by apply Ha|right; by apply Hd].
  - intros [Hl _]%orb_false_iff. rewrite drop_app_le by done. rewrite length_app. specialize (Hgot Hl). lia.
  - intros ch Hc [Hl Hf]%orb_false_iff. destruct (Hflow ch Hc Hl) as (rest & Hr & Hz). destruct (Hch ch Hc) as [Ha Hd].
    unfold sent in *. cbn. rewrite expected_log by done. rewrite drop_app_le by done.
    pose proof (f_equal (λ l, l ++ [e]) Hr) as Hr'. cbn in Hr'. destruct (Hchan ch Hc) as [H|H].
    + exists []. destruct (Ha H) as [_ ->]; [|done]. rewrite (Hz H), app_nil_r in Hr'. rewrite app_nil_r. split; [|done].
      etransitivity; [exact Hr'|]. by rewrite <-app_assoc.
    + exists (rest ++ [e]). destruct (Hd H) as [Hd' Hsame]. unfold pending. rewrite Hsame.
      split; [etransitivity; [exact Hr'|]; by rewrite <-!app_assoc|].
      intros H'. by destruct (alive_not_dead h' ch Hok' H').
  - intros [Hl _]%orb_false_iff. unfold body, expected, sent in *. cbn. rewrite expected_log by done. by apply Hfr.
  - intros x. rewrite !(assoc_L (++)), !elem_of_app, list_elem_of_singleton. intros [H| ->]; [left|by right].
    apply Hhist. by rewrite !(assoc_L (++)), !elem_of_app.
Qed.

Lemma finish_inv w ch : inv w → pc w = PLive ch → ∃ w', finish w ch = Ret w' ∧ inv w' ∧ pc w' = PDone ∧ frames w' = frames w ∧ log w' = log w
  ∧ from w' = from w ∧ got w' = got w ∧ hist w' = hist w ∧ lost w' = lost w.
Proof using range_perm.
  intros [Hok Hfrom Hchan Hearly Hgot Hflow Hfr Hhist Hsort] Hpc. unfold finish.
  destruct (Unsubscribe_ok range_set range_perm (hub w) runID ch Hok) as (h' & E & Hok' & _). rewrite E. eexists. split; [done|]. cbn.
  rewrite app_nil_r. split_and!; try done. split; try done. cbn. intros Hl. specialize (Hfr Hl). unfold body, expected, sent in *. cbn.
  rewrite Hpc in Hfr. by rewrite app_nil_r.
Qed.

Lemma inv_pc_early w p : inv w → (∃ x, pc w = PLoaded x) ∨ pc w = PStart → (p = PRefused 500 ∨ p = PRefused 404 ∨ ∃ x, p = PLoaded x) → inv (set_pc w p []).
Proof.
  intros [Hok Hfrom Hchan Hearly Hgot Hflow Hfr Hhist Hsort] Hpc Hp. split; try done; cbn.
  - intros ch. by destruct Hp as [->|[->|[x ->]]].
  - intros _ _. apply Hearly; destruct Hpc as [[x ->]| ->]; done.
  - intros ch. by destruct Hp as [->|[->|[x ->]]].
  - intros Hl. specialize (Hfr Hl). unfold body, expected in *. cbn. rewrite app_nil_r, Hfr.
    by destruct Hpc as [[x ->]| ->], Hp as [->|[->|[y ->]]].
Qed.

Lemma inv_subscribe w st : inv w → pc w = PLoaded st → inv (subscribe w st).
Proof using range_perm.
  intros [Hok Hfrom Hchan Hearly Hgot Hflow Hfr Hhist Hsort] Hpc. unfold subscribe.
  pose proof (Subscribe_ok range_set range_perm (hub w) runID Hok) as H. destruct (Subscribe (hub w) runID) as [h ch]. destruct H as (H1 & H2 & H3 & H4 & _).
  assert (got w = 0%nat ∧ hist w = None) as [Hg Hh] by (apply Hearly; by rewrite Hpc).
  split; try done; cbn.
  - intros c [= <-]. left. split; [done|]. rewrite H3, H4. cbn. lia.
  - intros _. rewrite Hg. lia.
  - intros c [= <-] _. exists []. unfold sent. cbn. by rewrite drop_all, take_nil, H3.
  - intros Hl. specialize (Hfr Hl). unfold body, expected in *. cbn. rewrite List.filter_app, Hfr, Hpc. done.
Qed.

Lemma elem_of_sorted l e : e ∈ merge_sort earlier l ↔ e ∈ l.
Proof. by rewrite merge_sort_Permutation. Qed.
#[local] Instance earlier_total : Total earlier.
Proof. intros a b. unfold earlier. lia. Qed.
#[local] Instance earlier_trans : Transitive earlier.
Proof. intros a b c. unfold earlier. lia. Qed.

Lemma body_app l : List.filter (λ f, negb (is_beat f)) ((past <$> l) ++ [LiveStart]) = (past <$> l) ++ [LiveStart].
Proof. rewrite List.filter_app. f_equal. induction l as [|x l IH]; [done|]. cbn. unfold past at 1 3. destruct (marshals x); cbn; by f_equal. Qed.
Lemma live_app l k : live (l ++ k) = live l ++ live k.
Proof. unfold live. by rewrite filter_app, fmap_app. Qed.
Lemma body_live l : List.filter (λ f, negb (is_beat f)) (live l) = live l.
Proof. unfold live. induction (filter _ l) as [|x k IH]; [done|]. cbn. by f_equal. Qed.

Lemma inv_replay w st ch f : inv w → pc w = PSubscribed st ch → ∃ w', replay w st ch f = Ret w' ∧ inv w'.
Proof using range_perm.
  intros [Hok Hfrom Hchan Hearly Hgot Hflow Hfr Hhist Hsort] Hpc. unfold replay.
  set (events := match ListAgentRunEvents (stored w) f with Ok l => l | Err _ => [] end). set (w1 := mkWorld _ _ _ _ _ _ _ _ _ _ _).
  assert (got w = 0%nat) as Hg by (apply Hearly; by rewrite Hpc).
  assert (∀ e, e ∈ events → e ∈ stored w) as Hev.
  { intros e. subst events. unfold ListAgentRunEvents. destruct f; [by intros ?%elem_of_nil|]. by rewrite elem_of_sorted. }
  assert (inv w1) as Hw1.
  { split; try done; cbn.
    - intros c Hc. apply Hchan. by rewrite Hpc.
    - intros H. by destruct (H ch).
    - intros c Hc Hl. apply Hflow; [by rewrite Hpc|done].
    - intros Hl. specialize (Hfr Hl). unfold body, expected, sent in *. cbn. rewrite Hpc in Hfr. rewrite List.filter_app, Hfr, body_app, Hg. reflexivity.
    - intros e. rewrite !elem_of_app. intros [He|[He|He]]; apply Hhist; rewrite !elem_of_app; [right; left; by apply Hev|tauto|tauto].
    - subst events. unfold ListAgentRunEvents. destruct f; [constructor|]. apply (StronglySorted_merge_sort earlier). }
  destruct (final st); [|by exists w1]. destruct (finish_inv w1 ch Hw1 eq_refl) as (w' & -> & H & _). by exists w'.
Qed.

Lemma inv_receive w ch : inv w → pc w = PLive ch → ∃ w', receive w ch = Ret w' ∧ inv w'.
Proof using range_perm.
  intros Hw Hpc. unfold receive. destruct (recv (chans (hub w)) ch) as [h [e|]] eqn:Hr.
  2:{ case_decide; [|by exists w]. destruct (finish_inv w ch Hw Hpc) as (w' & -> & H1 & _). by exists w'. }
  eexists. split; [done|]. destruct Hw as [Hok Hfrom Hchan Hearly Hgot Hflow Hfr Hhist Hsort].
  destruct (recv_hub _ _ _ _ Hok Hr) as (H1 & H2 & H3 & H4). rewrite Hpc in *. cbn [my_channel] in *.
  assert (lost w = false → take (S (got w)) (drop (from w) (log w)) = sent w ++ [e] ∧ (S (got w) <= length (drop (from w) (log w)))%nat) as Hs.
  { intros Hl. destruct (Hflow ch eq_refl Hl) as (rest & Hd & _). rewrite H2 in Hd. specialize (Hgot Hl).
    assert (length (sent w) = got w) as Hlen by (unfold sent; rewrite length_take; lia).
    rewrite Hd. split.
    - rewrite take_app_ge by lia. rewrite Hlen. by replace (S (got w) - got w)%nat with 1%nat by lia.
    - rewrite !length_app. cbn. lia. }
  split; try done; cbn.
  - intros c [= <-]. destruct (Hchan ch eq_refl); [left; by apply H3|right; by apply H4].
  - intros H. by destruct (H ch).
  - intros Hl. by apply Hs.
  - intros c [= <-] Hl. destruct (Hflow ch eq_refl Hl) as (rest & Hd & Hz). exists rest. 
    destruct (Hs Hl) as [-> _]. rewrite H2 in Hd. split; [etransitivity; [exact Hd|]; by rewrite <-!app_assoc|].
    intros Ha. apply Hz. destruct (Hchan ch eq_refl) as [|Hdead]; [done|]. by destruct (alive_not_dead _ ch H1 Ha (H4 Hdead)).
  - intros Hl. specialize (Hfr Hl). unfold body, expected in *. cbn. destruct (Hs Hl) as [-> _]. rewrite Hpc in Hfr.
    rewrite List.filter_app, Hfr, body_live, live_app. cbn. by rewrite <-app_assoc.
Qed.

Lemma inv_store w i ok : inv w → ∃ w', step w (Store i ok) = Ret w' ∧ inv w'.
Proof.
  intros Hw. eexists. split; [reflexivity|]. destruct (waiting w !! i) as [e|] eqn:He; [|done].
  destruct Hw as [Hok Hfrom Hchan Hearly Hgot Hflow Hfr Hhist Hsort]. split; try done. cbn. intros x. rewrite !elem_of_app. intros Hx.
  apply Hhist. rewrite !elem_of_app. destruct Hx as [Hx|[[Hx|Hx]|Hx]]; [by left|by right; left| |].
  - right; right. destruct ok; [|by apply elem_of_nil in Hx]. apply list_elem_of_singleton in Hx as ->. by eapply list_elem_of_lookup_2.
  - right; right. apply list_elem_of_lookup in Hx as [j Hj]. destruct (decide (j < i)%nat).
    + rewrite list_lookup_delete_lt in Hj by done. by eapply list_elem_of_lookup_2.
    + rewrite list_lookup_delete_ge in Hj by lia. by eapply list_elem_of_lookup_2.
Qed.

Lemma inv_close w : inv w → ∃ w', step w Close_ = Ret w' ∧ inv w' ∧ pc w' = pc w ∧
  ∀ ch, my_channel (pc w) = Some ch → dead (hub w') ch ∧ pending (chans (hub w')) ch = pending (chans (hub w)) ch.
Proof using range_perm.
  intros Hw. destruct (hub_step_ok range_set range_perm (hub w) (HClose runID) (i_hub w Hw)) as (h' & E & Hok). cbn [step hub_step] in *. rewrite E.
  eexists. split; [done|].
  assert (∀ ch, my_channel (pc w) = Some ch → dead h' ch ∧ pending (chans h') ch = pending (chans (hub w)) ch) as H.
  { intros ch Hch. destruct (i_chan w Hw ch Hch) as [Ha|Hd].
    - destruct (close_kills (hub w) ch (i_hub w Hw) Ha) as (h1 & E1 & _ & H1 & H2). rewrite E in E1. by injection E1 as <-.
    - destruct (dead_step _ h' (HClose runID) _ (i_hub w Hw) Hd E) as [H1 H2]. split; [done|]. unfold pending. by rewrite H2. }
  split_and!; [|done|done]. apply inv_set_hub; [done|done|]. intros ch Hch. destruct (H ch Hch) as [H1 H2].
  split_and!; [by right|done|]. intros Ha. by destruct (alive_not_dead h' ch Hok Ha).
Qed.

Lemma stream_step_inv w a : inv w → ∃ w', step w a = Ret w' ∧ inv w'.
Proof using range_perm.
  intros Hw. destruct a as [e|i ok|u f| |o|f| |f| | |].
  - by apply inv_publish.
  - by apply inv_store.
  - eexists. split; [reflexivity|]. destruct Hw. by split.
  - destruct (inv_close w Hw) as (w' & ? & ? & _). eauto.
  - cbn [step]. destruct (is_other w o) eqn:E; [by apply inv_other|eauto].
  - cbn [step]. destruct (pc w) eqn:E; eauto. eexists. split; [reflexivity|]. unfold load.
    destruct (Runs.GetAgentRun (runs w) runID f) as [[r|]|]; apply inv_pc_early; eauto.
  - cbn [step]. destruct (pc w) eqn:E; eauto. eexists. split; [reflexivity|]. by apply inv_subscribe.
  - cbn [step]. destruct (pc w) eqn:E; eauto. by apply inv_replay.
  - cbn [step]. destruct (pc w) eqn:E; eauto. by apply inv_receive.
  - cbn [step]. destruct (pc w) eqn:E; eauto. eexists. split; [reflexivity|].
    destruct Hw as [Hok Hfrom Hchan Hearly Hgot Hflow Hfr Hhist Hsort]. rewrite E in *. split; try done; cbn.
    intros Hl. specialize (Hfr Hl). unfold body, expected in *. cbn. rewrite E in Hfr. by rewrite List.filter_app, Hfr, app_nil_r.
  - cbn [step]. destruct (pc w) eqn:E; eauto. destruct (finish_inv w ch Hw E) as (w' & -> & ? & _). eauto.
Qed.

Lemma run_inv acts : ∀ w, inv w → ∃ w', run w acts = Ret w' ∧ inv w'.
Proof using range_perm.
  induction acts as [|a acts IH]; intros w Hw; [by exists w|]. cbn [run]. destruct (stream_step_inv w a Hw) as (w1 & -> & H1). by apply IH.
Qed.

(** *** What the client sees *)

(** Once the history is out, it and the beginning of the live part stay. *)
Lemma step_replayed w a w' l : inv w → hist w = Some l → step w a = Ret w' → hist w' = Some l ∧ from w' = from w.
Proof using range_perm.
  intros Hw Hl. assert ((∃ ch, pc w = PLive ch) ∨ pc w = PDone) as Hpc.
  { destruct (pc w) eqn:E; eauto; destruct (i_early w Hw) as [_ H]; congruence. }
  destruct a as [e|i ok|u f| |o|f| |f| | |]; cbn [step].
  - destruct (Publish _ _ _ _); [|done]. by intros [= <-].
  - intros [= <-]. by destruct (waiting w !! i).
  - by intros [= <-].
  - destruct (Close _ _ _); [|done]. by intros [= <-].
  - destruct (is_other w o); [|by intros [= <-]]. destruct (hub_step _ _ _); [|done]. by intros [= <-].
  - destruct Hpc as [[ch ->]| ->]; by intros [= <-].
  - destruct Hpc as [[ch ->]| ->]; by intros [= <-].
  - destruct Hpc as [[ch ->]| ->]; by intros [= <-].
  - destruct Hpc as [[ch E]|E]; rewrite E; [|by intros [= <-]]. unfold receive. destruct (recv _ _) as [h [e|]]; [by intros [= <-]|].
    case_decide; [|by intros [= <-]]. destruct (finish_inv w ch Hw E) as (w2 & -> & _ & _ & _ & _ & Hf & _ & Hh & _). intros [= <-].
    by rewrite Hh.
  - destruct Hpc as [[ch ->]| ->]; by intros [= <-].
  - destruct Hpc as [[ch E]|E]; rewrite E; [|by intros [= <-]].
    destruct (finish_inv w ch Hw E) as (w2 & -> & _ & _ & _ & _ & Hf & _ & Hh & _). intros [= <-]. by rewrite Hh.
Qed.

Lemma run_replayed acts : ∀ w w' l, inv w → hist w = Some l → run w acts = Ret w' → hist w' = Some l ∧ from w' = from w.
Proof using range_perm.
  induction acts as [|a acts IH]; intros w w' l Hw Hl; cbn [run]; [by intros [= <-]|].
  destruct (stream_step_inv w a Hw) as (w1 & E & H1). rewrite E. cbn [mbind go_bind]. destruct (step_replayed w a w1 l Hw Hl E) as [H2 H3].
  rewrite <-H3. by apply IH.
Qed.

(** C28: what a client of a run sees: whatever the gateway, the writer of the rows
    and the other clients do, in any order, the handler never panics, and as long
    as its channel was never full, what it has sent is the rows that are stored
    when it replays them, in the order of their numbers, and then the events
    published since it subscribed, in their order, as far as it has come; an event
    that is not JSON has empty data in the replay and is left out of the rest. So an
    event that was published before the subscription and is stored after the
    replay is never sent, and one that was published after the subscription and
    stored before the replay is sent twice. *)
Theorem stream_exact h t acts f acts' : ∃ w w', run (start h t) acts = Ret w ∧ run w (Replay f :: acts') = Ret w' ∧
  ∀ st ch, pc w = PSubscribed st ch → lost w' = false →
    ∃ k, body w' = Connected :: (past <$> if f then [] else merge_sort earlier (stored w))
                     ++ LiveStart :: live (take k (drop (from w) (log w'))).
Proof using range_perm.
  destruct (run_inv acts _ (inv_start h t)) as (w & Hw & Hinv). destruct (stream_step_inv w (Replay f) Hinv) as (w1 & E1 & Hinv1).
  destruct (run_inv acts' _ Hinv1) as (w' & Hw' & Hinv'). exists w, w'. split; [done|]. cbn [run]. rewrite E1. split; [done|].
  intros st ch Hpc Hlost. cbn [step] in E1. rewrite Hpc in E1. unfold replay in E1.
  set (events := match ListAgentRunEvents (stored w) f with Ok l => l | Err _ => [] end) in *.
  assert (hist w1 = Some events ∧ from w1 = from w) as [Hh Hf].
  { destruct (final st); [|by injection E1 as <-]. unfold finish in E1. cbn in E1. destruct (Unsubscribe _ _ _ _); [|done]. by injection E1 as <-. }
  destruct (run_replayed acts' w1 w' events Hinv1 Hh Hw') as [Hh' Hf'].
  exists (got w'). rewrite (i_frames w' Hinv' Hlost). unfold expected, sent. rewrite <-Hf, <-Hf', Hh'. cbn [default from_option].
  replace (if f then [] else merge_sort earlier (stored w)) with events by (subst events; by destruct f).
  destruct (pc w') eqn:E; try done; destruct (i_early w' Hinv') as [_ H]; congruence.
Qed.

(** *** When the handler ends *)

Lemma receive_all n : ∀ w ch, inv w → pc w = PLive ch → dead (hub w) ch → length (pending (chans (hub w)) ch) = n →
  ∃ w', run w (replicate (S n) Receive) = Ret w' ∧ pc w' = PDone ∧ frames w' = frames w ++ live (pending (chans (hub w)) ch).
Proof using range_perm.
  induction n as [|n IH]; intros w ch Hw Hpc Hd Hn.
  - cbn [replicate run step]. rewrite Hpc. unfold receive. destruct (recv (chans (hub w)) ch) as [h [e|]] eqn:Er.
    { destruct (recv_hub _ _ _ _ (i_hub w Hw) Er) as (_ & Hp & _). by rewrite Hp in Hn. }
    destruct Hd as [(c & Hc & Hcl) _]. rewrite Hc. cbn. rewrite Hcl. cbn.
    destruct (finish_inv w ch Hw Hpc) as (w' & -> & _ & H1 & H2 & _). exists w'. split; [done|]. split; [done|].
    destruct (pending (chans (hub w)) ch); [|done]. by rewrite H2, app_nil_r.
  - change (replicate (S (S n)) Receive) with (Receive :: replicate (S n) Receive). cbn [run]. destruct (stream_step_inv w Receive Hw) as (w1 & E & H1).
    rewrite E. cbn [mbind go_bind]. cbn [step] in E. rewrite Hpc in E. unfold receive in E. destruct (recv (chans (hub w)) ch) as [h [e|]] eqn:Er.
    2:{ destruct (recv_hub _ _ _ _ (i_hub w Hw) Er) as (_ & Hp & _). unfold recv in Er. unfold pending in Hn, Hp.
        destruct (chans (hub w) !! ch) as [[? [|? ?] ?]|]; cbn in *; done. }
    injection E as <-. destruct (recv_hub _ _ _ _ (i_hub w Hw) Er) as (_ & Hp & _ & H4).
    destruct (IH _ ch H1) as (w' & Hr & Hpc' & Hf); [by cbn|by apply H4|cbn; rewrite Hp in Hn; by injection Hn|].
    exists w'. split; [done|]. split; [done|]. rewrite Hf, Hp, (live_app [e]). cbn. by rewrite <-app_assoc.
Qed.

(** a client that was there is released: when the run is closed while a client
    is in its loop, it gets every event that waits in its channel, and then its
    handler ends. *)
Theorem stream_released h t acts : ∃ w, run (start h t) acts = Ret w ∧ ∀ ch, pc w = PLive ch →
  ∃ w', run w (Close_ :: replicate (S (length (pending (chans (hub w)) ch))) Receive) = Ret w' ∧ pc w' = PDone ∧
    frames w' = frames w ++ live (pending (chans (hub w)) ch).
Proof using range_perm.
  destruct (run_inv acts _ (inv_start h t)) as (w & Hw & Hinv). exists w. split; [done|]. intros ch Hpc.
  destruct (inv_close w Hinv) as (w1 & E & H1 & Hpc1 & Hd). destruct (Hd ch) as [Hd1 Hp]; [by rewrite Hpc|].
  destruct (receive_all (length (pending (chans (hub w)) ch)) w1 ch H1) as (w' & Hr & Hp' & Hf); [congruence|done|by rewrite Hp|].
  exists w'. split; [cbn [run]; rewrite E; exact Hr|]. split; [done|]. rewrite Hf, Hp. f_equal. cbn [step] in E.
  destruct (Close _ _ _); [|done]. by injection E as <-.
Qed.

Definition quiet (a : action) : Prop := match a with Close_ | Gone => False | _ => True end.
Definition on_its_way (w : World) : Prop :=
  (∃ st, pc w = PLoaded st ∧ final st = false) ∨ (∃ st ch, pc w = PSubscribed st ch ∧ final st = false ∧ alive (hub w) ch) ∨
  (∃ ch, pc w = PLive ch ∧ alive (hub w) ch).

Lemma keeps_alive w o h' ch : inv w → my_channel (pc w) = Some ch → alive (hub w) ch → keeps runID ch o → hub_step range_set (hub w) o = Ret h' →
  hub_ok h' → alive h' ch ∨ dead h' ch → alive h' ch.
Proof using range_perm.
  intros Hw Hch Ha Hk E Hok [|Hd]; [done|]. destruct (hub_step_keeps range_set range_perm (hub w) h' o runID ch (i_hub w Hw) (proj1 Ha) Hk E) as [H _].
  by destruct (proj2 Hd runID).
Qed.

Lemma other_keeps w o ch : my_channel (pc w) = Some ch → is_other w o = true → keeps runID ch o.
Proof.
  intros Hch. destruct o as [r|r c|r e|r]; cbn; try done; rewrite bool_decide_eq_true; [|done].
  intros Ho [-> ->]. destruct Ho as [|Ho]; [done|]. congruence.
Qed.

Lemma way_hub w o w' : inv w → inv w' → on_its_way w → pc w' = pc w → hub_step range_set (hub w) o = Ret (hub w') →
  (∀ ch, my_channel (pc w) = Some ch → keeps runID ch o) → on_its_way w'.
Proof using range_perm.
  intros Hw Hw' Hway Hpc E Hk. destruct Hway as [(st & H1 & H2)|[(st & ch & H1 & H2 & H3)|(ch & H1 & H3)]].
  - left. exists st. by rewrite Hpc.
  - right; left. exists st, ch. rewrite Hpc. split_and!; [done|done|].
    apply (keeps_alive w o); [done|by rewrite H1|done|apply Hk; by rewrite H1|done|apply Hw'|apply Hw'; by rewrite Hpc, H1].
  - right; right. exists ch. rewrite Hpc. split; [done|].
    apply (keeps_alive w o); [done|by rewrite H1|done|apply Hk; by rewrite H1|done|apply Hw'|apply Hw'; by rewrite Hpc, H1].
Qed.

Lemma way_same w w' : on_its_way w → pc w' = pc w → hub w' = hub w → on_its_way w'.
Proof. unfold on_its_way. by intros H -> ->. Qed.

Lemma way_receive w ch w' : inv w → pc w = PLive ch → alive (hub w) ch → receive w ch = Ret w' → on_its_way w'.
Proof.
  intros Hw Hpc Ha. unfold receive. destruct (recv (chans (hub w)) ch) as [h [e|]] eqn:Er.
  - destruct (recv_hub _ _ _ _ (i_hub w Hw) Er) as (_ & _ & H & _). intros [= <-]. right; right. exists ch. split; [done|by apply H].
  - destruct (ok_live _ (i_hub w Hw) _ _ (proj1 Ha)) as [_ (c & Hc & Hop)]. rewrite Hc. cbn. rewrite Hop. cbn. intros [= <-].
    right; right. by exists ch.
Qed.

Lemma way_step w a w' : inv w → inv w' → on_its_way w → quiet a → step w a = Ret w' → on_its_way w'.
Proof using range_perm.
  intros Hw Hw' Hway Hq. destruct a as [e|i ok|u f| |o|f| |f| | |]; cbn [step]; try done.
  - destruct (Publish _ _ _ _) as [h|] eqn:E; [|done]. intros [= <-]. by apply (way_hub w (HPublish runID e)).
  - intros [= <-]. destruct (waiting w !! i); [by apply (way_same w)|done].
  - intros [= <-]. by apply (way_same w).
  - destruct (is_other w o) eqn:Eo; [|by intros [= <-]]. destruct (hub_step _ _ _) as [h|] eqn:E; [|done]. intros [= <-].
    apply (way_hub w o); [done..|]. intros ch Hch. by apply (other_keeps w).
  - destruct Hway as [(st & Hpc & H)|[(st & ch & Hpc & H)|(ch & Hpc & H)]]; rewrite Hpc; intros [= <-];
      [left; by exists st|right; left; by exists st, ch|right; right; by exists ch].
  - destruct Hway as [(st & Hpc & H)|[(st & ch & Hpc & H)|(ch & Hpc & H)]]; rewrite Hpc; intros [= <-];
      [|right; left; by exists st, ch|right; right; by exists ch].
    unfold subscribe. pose proof (Subscribe_ok range_set range_perm (hub w) runID (i_hub w Hw)) as Hs.
    destruct (Subscribe (hub w) runID) as [h ch]. destruct Hs as (_ & H2 & H3 & H4 & _). right; left. exists st, ch. split_and!; [done|done|].
    split; [done|]. cbn. rewrite H3, H4. cbn. lia.
  - destruct Hway as [(st & Hpc & H)|[(st & ch & Hpc & Hfin & H)|(ch & Hpc & H)]]; rewrite Hpc;
      [intros [= <-]; left; by exists st| |intros [= <-]; right; right; by exists ch].
    unfold replay. rewrite Hfin. intros [= <-]. right; right. by exists ch.
  - destruct Hway as [(st & Hpc & H)|[(st & ch & Hpc & H)|(ch & Hpc & H)]]; rewrite Hpc;
      [intros [= <-]; left; by exists st|intros [= <-]; right; left; by exists st, ch|]. by apply way_receive.
  - destruct Hway as [(st & Hpc & H)|[(st & ch & Hpc & H)|(ch & Hpc & H)]]; rewrite Hpc; intros [= <-];
      [left; by exists st|right; left; by exists st, ch|right; right; exists ch; by cbn].
Qed.

Lemma way_run acts : ∀ w w', inv w → on_its_way w → Forall quiet acts → run w acts = Ret w' → on_its_way w'.
Proof using range_perm.
  induction acts as [|a acts IH]; intros w w' Hw Hway Hq; cbn [run]; [by intros [= <-]|].
  apply Forall_cons in Hq as [Hq Hqs]. destruct (stream_step_inv w a Hw) as (w1 & E & H1). rewrite E. cbn [mbind go_bind].
  apply IH; [done| |done]. by apply (way_step w a).
Qed.

(** a late client is never released: the status is read before the client
    subscribes, and the hub closes a run once; if the run ends in between, the
    handler goes on, with heartbeats only, until the client hangs up, although the
    row says that the run is over. *)
Theorem late_client_hangs h t acts acts' : Forall quiet acts' →
  ∃ w w', run (start h t) acts = Ret w ∧ run w acts' = Ret w' ∧
  ∀ st, pc w = PLoaded st → final st = false → pc w' ≠ PDone.
Proof using range_perm.
  intros Hq. destruct (run_inv acts _ (inv_start h t)) as (w & Hw & Hinv). destruct (run_inv acts' _ Hinv) as (w' & Hw' & _).
  exists w, w'. split; [done|]. split; [done|]. intros st Hpc Hfin.
  assert (on_its_way w') as Hway by (apply (way_run acts' w); [done|left; by exists st|done|done]).
  destruct Hway as [(? & -> & _)|[(? & ? & -> & _)|(? & -> & _)]]; done.
Qed.
End Stream.

(** ** Concrete inputs *)

Definition elements_order (X : gset N) : list N := elements X.
Definition demo_run : Runs.AgentRun := Runs.mkRun 5 1 2 None "running" "manual" 0 None 0 0 0 None None "{}".
Definition demo_table : gmap N Runs.AgentRun := {[5%N := demo_run]}.
Definition demo_start : World (Event := Z) := start ∅ demo_table.
(** The events that are not negative are JSON. *)
Notation demo_json := (λ e : Z, 0 <=? e).
Notation demo_go := (run (λ e : Z, e) demo_json elements_order 5%N).
Definition demo_end : Runs.AgentRunUpdates := Runs.mkUpdates (Some "completed"%string) None None None None None None None.

(** Event 1 is published before the subscription and stored after the replay:
    the client never sees it; event 2 comes both ways. *)
Definition demo_gap : list (action (Event := Z)) :=
  [Load false; Publish_ 1; Subscribe_; Publish_ 2; Store 1 true].
Lemma stream_exact_witness : ∃ w w', demo_go demo_start demo_gap = Ret w ∧ demo_go w (Replay false :: [Store 0 true; Publish_ 3; Receive; Receive]) = Ret w' ∧
  ((∀ st ch, pc w = PSubscribed st ch → lost w' = false →
    ∃ k, body w' = Connected :: (past demo_json <$> if false then [] else merge_sort (earlier (λ e : Z, e)) (stored w))
                     ++ LiveStart :: live demo_json (take k (drop (from w) (log w'))))) .
Proof. apply (stream_exact (λ e : Z, e) demo_json elements_order (λ X, reflexivity _)). Defined.
Example gap_and_double :
  match demo_go demo_start (demo_gap ++ [Replay false; Store 0 true; Publish_ 3; Receive; Receive]) with
  | Ret w => frames w = [Connected; History 2; LiveStart; AgentEvent 2; AgentEvent 3] ∧ stored w = [2; 1]
  | Panic => False
  end.
Proof. vm_compute. by split. Qed.

(** An event whose payload is not JSON is skipped. *)
Example not_json_skipped :
  match demo_go demo_start [Load false; Subscribe_; Replay false; Publish_ (-1); Publish_ 2; Receive; Receive] with
  | Ret w => frames w = [Connected; LiveStart; AgentEvent 2]
  | Panic => False
  end.
Proof. reflexivity. Qed.

Lemma stream_released_witness : ∃ w, demo_go demo_start (demo_gap ++ [Replay false]) = Ret w ∧ ∀ ch, pc w = PLive ch →
  ∃ w', demo_go w (Close_ :: replicate (S (length (pending (chans (hub w)) ch))) Receive) = Ret w' ∧ pc w' = PDone ∧
    frames w' = frames w ++ live demo_json (pending (chans (hub w)) ch).
Proof. apply (stream_released (λ e : Z, e) demo_json elements_order (λ X, reflexivity _)). Defined.

(** The run ends between the lookup and the subscription. *)
Lemma late_client_hangs_witness : ∃ w w',
  demo_go demo_start [Load false] = Ret w ∧
  demo_go w [Update demo_end NoFault; Subscribe_; Replay false; Receive; Beat; Receive] = Ret w' ∧
  ∀ st, pc w = PLoaded st → final st = false → pc w' ≠ PDone.
Proof.
  apply (late_client_hangs (λ e : Z, e) demo_json elements_order (λ X, reflexivity _) 5 ∅ demo_table). by repeat constructor.
Defined.
Example closed_before_subscription :
  match demo_go demo_start [Load false; Update demo_end NoFault; Close_; Subscribe_; Replay false; Receive; Beat] with
  | Ret w => pc w = PLive 0 ∧ frames w = [Connected; LiveStart; Heartbeat] ∧ Runs.Status <$> runs w !! 5%N = Some "completed"%string
  | Panic => False
  end.
Proof. vm_compute. by split_and!. Qed.

Lemma runs_page_witness :
  Z.of_nat 1 <= Z.min 200 (clamp_limit 1) ∧
  (∀ x, x ∈ [mkRow demo_run "a" "s" None] → demo_table !! Runs.ID (x_run x) = Some (x_run x) ∧ Runs.passes (Runs.mkFilters None None None) (x_run x) = true) ∧
  ((∀ id : N, (length (A := N * option string * Z) [] <= 1)%nat) → 0 <= 1 - 0 → Z.of_nat 1 = Z.min (clamp_limit 1) (1 - 0)).
Proof.
  apply (runs_page id (λ _, "a"%string) (λ _, "s"%string) (λ _, []) demo_table (Runs.mkFilters None None None) 1 0 [mkRow demo_run "a" "s" None] 1);
    [done| |vm_compute; reflexivity].
  unfold demo_table. intros id a [<- <-]%lookup_singleton_Some. done.
Defined.
Example negative_offset_fails :
  HandleAgentRunRoutes (λ _, None) id (λ _, ""%string) (λ _, ""%string) (λ _, []) ∅ "GET" "/api/v1/runs/" (mkQuery "" "" "" "-1") false false
  = RError 500 "failed to list runs".
Proof. reflexivity. Qed.
End RunStream.
