(* ===== verification/Json.v ===== *)
(** * encoding/json: how a value is decoded

    The typed half of json.Unmarshal, on values that have been parsed: a value
    is stored into what is there; a value of another type is skipped, and the
    error is reported at the end; the field of a struct is found regardless of
    case. The parser itself is a parameter where it is used. Case is folded for
    ASCII. A number is an integer, or any other literal. *)
From S2P Require Import Prelude GoStrings.
#[local] Open Scope Z_scope.

Module Json.

Inductive json :=
  | JNull
  | JBool (b : bool)
  | JInt (z : Z)
  | JNumber (literal : string)
  | JString (s : string)
  | JArray (l : list json)
  | JObject (o : list (string * json)).

(** What decoding leaves, and whether a type did not fit. *)
Notation decoded A := (A * bool)%type.

Definition decode_string (old : string) (v : json) : decoded string :=
  match v with JString s => (s, false) | JNull => (old, false) | _ => (old, true) end.
Definition decode_bool (old : bool) (v : json) : decoded bool :=
  match v with JBool b => (b, false) | JNull => (old, false) | _ => (old, true) end.
Definition decode_int (old : Z) (v : json) : decoded Z :=
  match v with
  | JInt z => if (Str.min_int <=? z) && (z <=? Str.max_int) then (z, false) else (old, true)
  | JNull => (old, false)
  | _ => (old, true)
  end.
(** A pointer is allocated before the type is looked at. *)
Definition decode_string_ptr (old : option string) (v : json) : decoded (option string) :=
  match v with
  | JNull => (None, false)
  | _ => let '(s, bad) := decode_string (default "" old) v in (Some s, bad)
  end.

(** The elements of the old slice are decoded into. *)
Fixpoint decode_elements (old : list string) (l : list json) : decoded (list string) :=
  match l with
  | [] => ([], false)
  | v :: l' =>
      let '(s, bad) := decode_string (default "" (head old)) v in
      let '(ss, bad') := decode_elements (tail old) l' in
      (s :: ss, bad || bad')
  end.
Definition decode_strings (old : list string) (v : json) : decoded (list string) :=
  match v with JArray l => decode_elements old l | JNull => ([], false) | _ => (old, true) end.

(** map[string]string: a value that does not fit is stored as the empty string;
    null makes the map nil. *)
Fixpoint decode_entries (m : gmap string string) (o : list (string * json))
    : decoded (gmap string string) :=
  match o with
  | [] => (m, false)
  | (k, v) :: o' =>
      let '(s, bad) := decode_string "" v in
      let '(m', bad') := decode_entries (<[k := s]> m) o' in
      (m', bad || bad')
  end.
Definition decode_map (old : option (gmap string string)) (v : json)
    : decoded (option (gmap string string)) :=
  match v with
  | JObject o => let '(m, bad) := decode_entries (default ∅ old) o in (Some m, bad)
  | JNull => (None, false)
  | _ => (old, true)
  end.

(** ** Structs *)

Definition same_fold (a b : string) : bool := String.eqb (Str.ToUpper a) (Str.ToUpper b).

Notation object := (list (string * json)).

(** The members of an object that go to one field, one after the other. *)
Fixpoint decode_field {A} (name : string) (dec : A → json → decoded A) (a : A) (o : object) : decoded A :=
  match o with
  | [] => (a, false)
  | (k, v) :: o' =>
      if same_fold k name then
        let '(a1, bad) := dec a v in
        let '(a2, bad') := decode_field name dec a1 o' in
        (a2, bad || bad')
      else decode_field name dec a o'
  end.

(** A struct, field by field: the names of its fields differ by more than case. *)
Definition struct {S} (s : S) (o : object) : decoded S := (s, false).
Definition field {A S} (name : string) (dec : A → json → decoded A) (zero : A)
    (rest : object → decoded (A → S)) (o : object) : decoded S :=
  let '(f, bad) := rest o in
  let '(a, bad') := decode_field name dec zero o in
  (f a, bad || bad').

(** Unmarshal into a zero struct; [None]: an error. *)
Definition unmarshal {S} (dec : object → decoded S) (v : option json) : option S :=
  match v with
  | Some (JObject o) => let '(s, bad) := dec o in if bad then None else Some s
  | Some JNull => Some (dec []).1
  | _ => None
  end.

Lemma decode_field_absent {A} name (dec : A → json → decoded A) a o :
  Forall (λ kv, same_fold kv.1 name = false) o → decode_field name dec a o = (a, false).
Proof. induction 1 as [|[k v] o Hk Ho IH]; [done|]. cbn [decode_field]. simpl in Hk. by rewrite Hk. Qed.
End Json.
