(* ===== verification/AuditLog.v ===== *)
(** * internal/audit/logger.go, internal/database/audit_log.go and
    internal/api/audit_handlers.go: the audit log

    An action is logged by a goroutine that inserts one row of admin_audit_log.
    uuid and time parsing, the printed details and what the server takes as text
    are parameters; the CSV of the export is written out as encoding/csv does. *)
From Stdlib Require Import Ascii String.
From S2P Require Import Prelude GoStrings Json.
From S2P Require Import SessionStore.
From S2P Require Import Auth.
Import Json Store.
#[local] Open Scope Z_scope.
#[local] Set Default Proof Using "Type".

Module Audit.

(** ** The client's address *)

Definition header := string → string.                 (* r.Header.Get: empty where it is absent *)
Fixpoint before_last (s : string) (c : ascii) : option string :=
  match s with
  | EmptyString => None
  | String a s' =>
      match before_last s' c with
      | Some t => Some (String a t)
      | None => if Ascii.eqb a c then Some EmptyString else None
      end
  end.
Definition ClientIPFromRequest (h : header) (RemoteAddr : string) : string :=
  let xff := h "X-Forwarded-For" in
  if negb (String.eqb xff "") then
    match Str.Split xff "," with ip :: _ => Str.TrimSpace ip | [] => Str.TrimSpace (h "X-Real-IP") end
  else
  let real := h "X-Real-IP" in
  if negb (String.eqb real "") then Str.TrimSpace real else
  default RemoteAddr (before_last RemoteAddr ":").

(** ** The table *)

(** A value of type interface{}: nil, or a map that may be nil itself. *)
Inductive details := NilDetails | MapDetails (m : option (list (string * json))).

Record AuditLogEntry := mkEntry {
  ActorID : option N; ActorEmail : string; Action : string; ResourceType : string; ResourceID : option string;
  Details : details; IPAddress : option string;
}.
Record Row := mkRow {
  r_ID : N; r_ActorID : option N; r_ActorEmail : string; r_Action : string; r_ResourceType : string;
  r_ResourceID : option string; r_Details : json; r_IPAddress : option string; r_CreatedAt : Z;
}.
Record Tables := mkTables { users : gset N; log : gmap N Row }.

Definition stored (d : details) : json :=
  match d with NilDetails => JObject [] | MapDetails None => JNull | MapDetails (Some o) => JObject o end.
Definition row_of (e : AuditLogEntry) (id : N) (now : Z) : Row :=
  mkRow id (ActorID e) (ActorEmail e) (Action e) (ResourceType e) (ResourceID e) (stored (Details e)) (IPAddress e) now.

Record AuditLogFilters := mkFilters {
  f_ActorID : option N; f_Action : option string; f_ResourceType : option string; f_Since : option Z; f_Until : option Z;
}.

Section Log.
Variable uuid_Parse : string → option N.
(** The server takes the text: it is valid in the encoding of the database. *)
Variable pg_text : string → bool.
Variable pg_jsonb : json → bool.

Definition texts (e : AuditLogEntry) : list string :=
  [ActorEmail e; Action e; ResourceType e] ++ option_list (ResourceID e) ++ option_list (IPAddress e).
(** What the insert meets: the new id, the time of the statement, a fault. *)
Record write_env := mkWriteEnv { w_id : N; w_now : Z; w_fault : fault }.
Definition accepts (t : Tables) (e : AuditLogEntry) (id : N) : bool :=
  forallb pg_text (texts e) && pg_jsonb (stored (Details e)) && (match ActorID e with Some a => bool_decide (a ∈ users t) | None => true end) &&
  bool_decide (log t !! id = None).
(** [true]: an error. *)
Definition WriteAuditLog (t : Tables) (e : AuditLogEntry) (w : write_env) : Tables * bool :=
  if negb (accepts t e (w_id w)) then (t, true) else
  let t' := mkTables (users t) (<[w_id w := row_of e (w_id w) (w_now w)]> (log t)) in
  match w_fault w with NoFault => (t', false) | StmtFails => (t, true) | AckLost => (t', true) end.

(** ** logger.go: the entry that the goroutine of Log will write *)

Definition Log (pool : bool) (user : option RBAC.AuthUser) (client_ip : option string)
    (action resourceType resourceID : string) (d : option (list (string * json))) : option AuditLogEntry :=
  if negb pool then None else
  let ip := default "" client_ip in
  Some (mkEntry (match user with Some u => uuid_Parse (RBAC.ID u) | None => None end)
          (match user with Some u => RBAC.Email u | None => "system" end) action resourceType (Some resourceID)
          (MapDetails d) (if String.eqb ip "" then None else Some ip)).

(** The server with the goroutines that have not written yet; a call of Log
    returns at once, the goroutines finish in any order. *)
Record Server := mkServer { tables : Tables; pending : list AuditLogEntry }.
Inductive event := ELogged (e : AuditLogEntry) | EWrites (i : nat) (w : write_env).
Definition step (s : Server) (ev : event) : Server :=
  match ev with
  | ELogged e => mkServer (tables s) (pending s ++ [e])
  | EWrites i w =>
      match pending s !! i with
      | None => s
      | Some e => mkServer (WriteAuditLog (tables s) e w).1 (delete i (pending s))
      end
  end.
End Log.

(** ** The listings *)

Section Listing.
Variable uuid_Parse : string → option N.
Variable parse_time : string → option Z.
Variable arrange : list Row → list Row.

Definition opt_match {A} `{EqDecision A} (f v : option A) : bool :=
  match f with None => true | Some x => bool_decide (v = Some x) end.
Definition matches (fl : AuditLogFilters) (r : Row) : bool :=
  opt_match (f_ActorID fl) (r_ActorID r) && opt_match (f_Action fl) (Some (r_Action r)) &&
  opt_match (f_ResourceType fl) (Some (r_ResourceType r)) &&
  (match f_Since fl with Some t => t <=? r_CreatedAt r | None => true end) &&
  (match f_Until fl with Some t => r_CreatedAt r <=? t | None => true end).

Definition newer (a b : Row) : Prop := r_CreatedAt b <= r_CreatedAt a.
#[export] Instance newer_dec : RelDecision newer.
Proof. intros a b. unfold newer. apply _. Defined.
#[export] Instance newer_trans : Transitive newer.
Proof. intros a b c. unfold newer. lia. Qed.
#[export] Instance newer_total : Total newer.
Proof. intros a b. unfold newer. lia. Qed.

Definition clamp (limit : Z) : Z :=
  let limit := if limit <=? 0 then 50 else limit in if 500 <? limit then 500 else limit.
Definition selected (t : gmap N Row) (fl : AuditLogFilters) : list Row :=
  merge_sort newer (filter (λ r, matches fl r = true) (arrange (map_to_list t).*2)).

(** The count and the page are two statements: [t0] and [t] are the table at
    each; [count_ok], [rows]: their outcomes. *)
Definition ListAuditLogs (t0 t : gmap N Row) (fl : AuditLogFilters) (limit offset : Z) (count_ok : bool)
    (rows : query_fault) : result unit (list Row * Z) :=
  if negb count_ok then Err tt else
  match rows with
  | QueryOk => Ok (take (Z.to_nat (clamp limit)) (drop (Z.to_nat offset) (selected t fl)),
                   Z.of_nat (length (filter (λ r, matches fl r = true) (map_to_list t0).*2)))
  | _ => Err tt
  end.
Definition GetAuditLog (t : gmap N Row) (id : N) (fails : bool) : result unit (option Row) :=
  if fails then Err tt else Ok (t !! id).

(** ** audit_handlers.go *)

Inductive Body :=
  | BError (msg : string) | BNotFound
  | BEntries (entries : list Row) (total limit offset : Z)
  | BCsv (text : string).
Record Response := mkResponse { status : Z; body : Body }.
Definition refuse (st : Z) (msg : string) : Response := mkResponse st (BError msg).

(** The parameters of the URL; empty where one is absent. *)
Definition parse_filters (q : string → string) : result string AuditLogFilters :=
  let opt (f : string → option Z) (name msg : string) : result string (option Z) :=
    if String.eqb (q name) "" then Ok None else match f (q name) with None => Err msg | Some t => Ok (Some t) end in
  match (if String.eqb (q "actor_id"%string) "" then Ok None
         else match uuid_Parse (q "actor_id"%string) with None => Err "invalid actor_id"%string | Some a => Ok (Some a) end) with
  | Err m => Err m
  | Ok actor =>
      let text name := if String.eqb (q name) "" then None else Some (q name) in
      match opt parse_time "since" "invalid since parameter (use RFC3339 format)" with
      | Err m => Err m
      | Ok since =>
          match opt parse_time "until" "invalid until parameter (use RFC3339 format)" with
          | Err m => Err m
          | Ok until => Ok (mkFilters actor (text "action"%string) (text "resource_type"%string) since until)
          end
      end
  end%string.

Definition page_limit (s : string) : option Z :=
  if String.eqb s "" then Some 50 else
  match Str.Atoi s with Some l => if l <? 0 then None else Some (if 500 <? l then 500 else l) | None => None end.
Definition page_offset (s : string) : option Z :=
  if String.eqb s "" then Some 0 else
  match Str.Atoi s with Some o => if o <? 0 then None else Some o | None => None end.

Record query_env := mkQuery { at_count : gmap N Row; at_page : gmap N Row; count_ok : bool; rows_of : query_fault }.

Definition HandleListAuditLog (pool : bool) (q : string → string) (e : query_env) : Response :=
  if negb pool then refuse 503 "database not configured" else
  match parse_filters q with
  | Err msg => refuse 400 msg
  | Ok fl =>
      match page_limit (q "limit"%string) with
      | None => refuse 400 "invalid limit parameter"
      | Some limit =>
          match page_offset (q "offset"%string) with
          | None => refuse 400 "invalid offset parameter"
          | Some offset =>
              match ListAuditLogs (at_count e) (at_page e) fl limit offset (count_ok e) (rows_of e) with
              | Err _ => refuse 500 "failed to list audit logs"
              | Ok (entries, total) => mkResponse 200 (BEntries entries total limit offset)
              end
          end
      end
  end.

(** *** encoding/csv *)

Variable uuid_String : N → string.
Variable print_time : Z → string.                     (* time.RFC3339 *)
Variable marshal : json → string.

Definition dq : ascii := ascii_of_nat 34.
Definition cr : ascii := ascii_of_nat 13.
Definition lf : ascii := ascii_of_nat 10.
Definition byte_text (l : list nat) : string := string_of_list_ascii (ascii_of_nat <$> l).
(** unicode.IsSpace of the first rune. *)
Definition space_runes : list string :=
  byte_text <$> ([[9]; [10]; [11]; [12]; [13]; [32]; [194; 133]; [194; 160]; [225; 154; 128]] ++
    ((λ n, [226; 128; n]) <$> seq 128 11) ++ [[226; 128; 168]; [226; 128; 169]; [226; 128; 175]; [226; 129; 159]; [227; 128; 128]])%nat.
Definition fieldNeedsQuotes (s : string) : bool :=
  if String.eqb s "" then false else
  if String.eqb s "\." then true else
  Str.ContainsByte s "," || Str.ContainsByte s dq || Str.ContainsByte s cr || Str.ContainsByte s lf ||
  existsb (Str.HasPrefix s) space_runes.
Definition csv_field (s : string) : string :=
  if fieldNeedsQuotes s
  then String dq (Str.ReplaceAll s dq (String dq (String dq EmptyString)) +:+ String dq EmptyString) else s.
Fixpoint csv_fields (l : list string) : string :=
  match l with
  | [] => EmptyString
  | [f] => csv_field f
  | f :: l' => csv_field f +:+ String "," (csv_fields l')
  end.
Definition csv_line (l : list string) : string := csv_fields l +:+ String lf EmptyString.
Fixpoint csv_text (rows : list (list string)) : string :=
  match rows with [] => EmptyString | r :: rest => csv_line r +:+ csv_text rest end.

Definition export_header : list string :=
  ["id"; "actor_id"; "actor_email"; "action"; "resource_type"; "resource_id"; "ip_address"; "created_at"; "details"]%string.
(** A details column that holds the JSON null scans to nil. *)
Definition export_row (r : Row) : list string :=
  [uuid_String (r_ID r); from_option uuid_String "" (r_ActorID r); r_ActorEmail r; r_Action r; r_ResourceType r;
   default "" (r_ResourceID r); default "" (r_IPAddress r); print_time (r_CreatedAt r);
   match r_Details r with JNull => "" | d => marshal d end]%string.
Definition HandleExportAuditLog (pool : bool) (q : string → string) (e : query_env) : Response :=
  if negb pool then refuse 503 "database not configured" else
  match parse_filters q with
  | Err msg => refuse 400 msg
  | Ok fl =>
      match ListAuditLogs (at_count e) (at_page e) fl 10000 0 (count_ok e) (rows_of e) with
      | Err _ => refuse 500 "failed to export audit logs"
      | Ok (entries, _) => mkResponse 200 (BCsv (csv_text (export_header :: (export_row <$> entries))))
      end
  end.

Definition handleAuditAPI (pool : bool) (path method : string) (q : string → string) (e : query_env) : Response :=
  if negb pool then refuse 503 "database not configured" else
  if String.eqb path "/api/v1/audit-log" && String.eqb method "GET" then HandleListAuditLog pool q e else
  if String.eqb path "/api/v1/audit-log/export" && String.eqb method "GET" then HandleExportAuditLog pool q e else
  mkResponse 404 BNotFound.
End Listing.

(** ** What is exported can be read *)

(** A reader of RFC 4180: [None] where the text is no CSV. The list is what the
    rest of the line and the lines after it hold. *)
Inductive mode := AtLine | AtField | Plain | Quoted | QuoteSeen.
Definition on_field (f : string → string) (rows : list (list string)) : option (list (list string)) :=
  match rows with (g :: gs) :: rs => Some ((f g :: gs) :: rs) | _ => None end.
Definition next_field (rows : list (list string)) : option (list (list string)) :=
  match rows with gs :: rs => Some ((""%string :: gs) :: rs) | _ => None end.
Fixpoint csv_read (m : mode) (s : string) : option (list (list string)) :=
  match s with
  | EmptyString => match m with AtLine => Some [] | _ => None end
  | String c s' =>
      match m with
      | Quoted => if Ascii.eqb c dq then csv_read QuoteSeen s' else csv_read Quoted s' ≫= on_field (String c)
      | _ =>
          if Ascii.eqb c dq then
            match m with
            | AtLine | AtField => csv_read Quoted s'
            | QuoteSeen => csv_read Quoted s' ≫= on_field (String c)
            | _ => None
            end
          else if Ascii.eqb c "," then csv_read AtField s' ≫= next_field
          else if Ascii.eqb c lf then (λ rows, [""%string] :: rows) <$> csv_read AtLine s'
          else match m with QuoteSeen => None | _ => csv_read Plain s' ≫= on_field (String c) end
      end
  end.

Definition ends_field (c : ascii) : Prop := c = ","%char ∨ c = lf.
Lemma on_field_on_field f g rows : (on_field f rows ≫= on_field g) = on_field (λ x, g (f x)) rows.
Proof. by destruct rows as [|[|? ?] ?]. Qed.
Lemma read_end m c t : ends_field c → m ≠ Quoted → csv_read m (String c t) = csv_read Plain (String c t).
Proof. intros [->| ->] Hm; by destruct m. Qed.

Lemma read_char m a s : m ≠ Quoted → m ≠ QuoteSeen → Ascii.eqb a dq = false → Ascii.eqb a "," = false → Ascii.eqb a lf = false →
  csv_read m (String a s) = csv_read Plain s ≫= on_field (String a).
Proof. intros ? ? H1 H2 H3. cbn [csv_read]. rewrite H1, H2, H3. by destruct m. Qed.
Lemma read_lf s : csv_read Plain (String lf s) = (λ rows, [""%string] :: rows) <$> csv_read AtLine s.
Proof. reflexivity. Qed.
Lemma read_comma s : csv_read Plain (String "," s) = csv_read AtField s ≫= next_field.
Proof. reflexivity. Qed.
Lemma read_quote s : csv_read Quoted (String dq s) = csv_read QuoteSeen s.
Proof. cbn [csv_read]. by rewrite Ascii.eqb_refl. Qed.
Lemma read_quote_quote s : csv_read QuoteSeen (String dq s) = csv_read Quoted s ≫= on_field (String dq).
Proof. cbn [csv_read]. by rewrite Ascii.eqb_refl. Qed.
Lemma read_quoted_char a s : a ≠ dq → csv_read Quoted (String a s) = csv_read Quoted s ≫= on_field (String a).
Proof. intros H. cbn [csv_read]. by rewrite (proj2 (Ascii.eqb_neq a dq)). Qed.
Lemma on_field_cons a s (o : option (list (list string))) :
  (o ≫= on_field (String.append s)) ≫= on_field (String a) = o ≫= on_field (String.append (String a s)).
Proof. destruct o as [rows|]; [|done]. cbn. by rewrite on_field_on_field. Qed.
Lemma read_end_nil c t : ends_field c → csv_read Plain (String c t) ≫= on_field (String.append "") = csv_read Plain (String c t).
Proof.
  intros [->| ->]; cbn.
  - destruct (csv_read AtField t) as [rows|]; [|done]. cbn. by destruct rows as [|gs rs].
  - by destruct (csv_read AtLine t) as [rows|].
Qed.

Lemma read_plain_rest m s c t : ends_field c → m ≠ Quoted → m ≠ QuoteSeen →
  Str.ContainsByte s "," = false → Str.ContainsByte s dq = false → Str.ContainsByte s lf = false →
  csv_read m (s +:+ String c t) = csv_read Plain (String c t) ≫= on_field (String.append s).
Proof.
  intros Hc. revert m. induction s as [|a s IH]; intros m Hm Hm' H1 H2 H3.
  - change ("" +:+ String c t) with (String c t). by rewrite read_end, read_end_nil.
  - cbn [Str.ContainsByte] in *. apply orb_false_iff in H1 as [H1 H1'], H2 as [H2 H2'], H3 as [H3 H3'].
    change (String a s +:+ String c t) with (String a (s +:+ String c t)). rewrite read_char by done.
    rewrite IH by done. apply on_field_cons.
Qed.

Lemma read_quoted_rest s c t : ends_field c →
  csv_read Quoted (Str.ReplaceAll s dq (String dq (String dq EmptyString)) +:+ String dq (String c t)) =
  csv_read Plain (String c t) ≫= on_field (String.append s).
Proof.
  intros Hc. induction s as [|a s IH].
  - change (Str.ReplaceAll "" dq (String dq (String dq "")) +:+ String dq (String c t)) with (String dq (String c t)).
    by rewrite read_quote, read_end, read_end_nil.
  - cbn [Str.ReplaceAll]. set (r := Str.ReplaceAll s dq _) in *. rewrite <- on_field_cons, <- IH.
    destruct (Ascii.eqb_spec a dq) as [->|Hne].
    + change ((String dq (String dq "") +:+ r) +:+ String dq (String c t)) with (String dq (String dq (r +:+ String dq (String c t)))).
      by rewrite read_quote, read_quote_quote.
    + change ((String a "" +:+ r) +:+ String dq (String c t)) with (String a (r +:+ String dq (String c t))).
      by rewrite read_quoted_char.
Qed.

Lemma read_field m f c t : m = AtLine ∨ m = AtField → ends_field c →
  csv_read m (csv_field f +:+ String c t) = csv_read Plain (String c t) ≫= on_field (String.append f).
Proof.
  intros Hm Hc. unfold csv_field. destruct (fieldNeedsQuotes f) eqn:E.
  - change (String dq (Str.ReplaceAll f dq (String dq (String dq "")) +:+ String dq "") +:+ String c t)
      with (String dq ((Str.ReplaceAll f dq (String dq (String dq "")) +:+ String dq "") +:+ String c t)).
    rewrite Str.app_assoc_str. change (String dq "" +:+ String c t) with (String dq (String c t)).
    rewrite <- (read_quoted_rest f c t Hc). by destruct Hm as [->| ->].
  - unfold fieldNeedsQuotes in E. destruct (String.eqb_spec f "") as [->|_].
    + apply read_plain_rest; try done; by destruct Hm as [->| ->].
    + destruct (String.eqb f "\."); [done|]. repeat (apply orb_false_iff in E as [E ?]).
      apply read_plain_rest; try done; by destruct Hm as [->| ->].
Qed.

Lemma read_line l t : l ≠ [] → csv_read AtLine (csv_line l +:+ t) = (λ rows, l :: rows) <$> csv_read AtLine t.
Proof.
  intros Hne. unfold csv_line. rewrite Str.app_assoc_str. change (String lf "" +:+ t) with (String lf t).
  assert (∀ m, m = AtLine ∨ m = AtField → csv_read m (csv_fields l +:+ String lf t) = (λ rows, l :: rows) <$> csv_read AtLine t) as H;
    [|apply H; by left].
  induction l as [|f l IH]; [done|]. intros m Hm. destruct l as [|g l].
  - cbn [csv_fields]. rewrite read_field by (done || by right). rewrite read_lf.
    destruct (csv_read AtLine t) as [rows|]; [|done]. cbn. by rewrite Str.app_nil_str.
  - change (csv_fields (f :: g :: l)) with (csv_field f +:+ String "," (csv_fields (g :: l))).
    rewrite Str.app_assoc_str.
    change (String "," (csv_fields (g :: l)) +:+ String lf t) with (String "," (csv_fields (g :: l) +:+ String lf t)).
    rewrite read_field by (done || by left).
    rewrite read_comma, IH by (done || by right). destruct (csv_read AtLine t) as [rows|]; [|done]. cbn. by rewrite Str.app_nil_str.
Qed.

Lemma read_text rows : Forall (λ l, l ≠ []) rows → csv_read AtLine (csv_text rows) = Some rows.
Proof.
  induction 1 as [|l rows Hl _ IH]; [done|]. cbn [csv_text]. by rewrite read_line, IH.
Qed.

(** ** Nothing is lost, nothing is doubled *)

Section LogProofs.
Variable pg_text : string → bool.
Variable pg_jsonb : json → bool.

(** What the server holds of the log, written or not. *)
Definition erase (r : Row) : Row :=
  mkRow 0 (r_ActorID r) (r_ActorEmail r) (r_Action r) (r_ResourceType r) (r_ResourceID r) (r_Details r) (r_IPAddress r) 0.
(** The columns of an action, whatever its id and its time. *)
Definition record_of (e : AuditLogEntry) : Row :=
  mkRow 0 (ActorID e) (ActorEmail e) (Action e) (ResourceType e) (ResourceID e)
    (match Details e with NilDetails => JObject [] | MapDetails (Some o) => JObject o | MapDetails None => JNull end) (IPAddress e) 0.
Definition contents (s : Server) : list Row :=
  (erase <$> (map_to_list (log (tables s))).*2) ++ (record_of <$> pending s).

Definition acceptable (t : Tables) (e : AuditLogEntry) : Prop :=
  Forall (λ x, pg_text x = true) (texts e) ∧ pg_jsonb (stored (Details e)) = true ∧
  match ActorID e with Some a => a ∈ users t | None => True end.
Definition logged_of (ev : event) : list AuditLogEntry := match ev with ELogged e => [e] | EWrites _ _ => [] end.
Definition id_of (ev : event) : list N := match ev with EWrites _ w => [w_id w] | ELogged _ => [] end.
Definition lands (ev : event) : Prop := match ev with EWrites _ w => w_fault w ≠ StmtFails | ELogged _ => True end.

Lemma accepts_true t e id : acceptable t e → log t !! id = None → accepts pg_text pg_jsonb t e id = true.
Proof.
  intros (Ht & Hj & Ha) Hid. unfold accepts. rewrite Hj, Hid.
  assert (forallb pg_text (texts e) = true) as ->.
  { apply forallb_forall. intros x Hx%list_elem_of_In. by eapply Forall_forall in Ht. }
  destruct (ActorID e); [by rewrite bool_decide_eq_true_2|done].
Qed.

Lemma write_lands t e w : acceptable t e → log t !! w_id w = None → w_fault w ≠ StmtFails →
  (WriteAuditLog pg_text pg_jsonb t e w).1 = mkTables (users t) (<[w_id w := row_of e (w_id w) (w_now w)]> (log t)).
Proof. intros Ha Hid Hf. unfold WriteAuditLog. rewrite accepts_true by done. by destruct (w_fault w). Qed.

Lemma step_contents s ev :
  Forall (acceptable (tables s)) (pending s) → lands ev → Forall (λ i, log (tables s) !! i = None) (id_of ev) →
  let s' := step pg_text pg_jsonb s ev in
  contents s' ≡ₚ contents s ++ (record_of <$> logged_of ev) ∧ users (tables s') = users (tables s) ∧
  (∀ i, log (tables s) !! i = None → i ∉ id_of ev → log (tables s') !! i = None) ∧
  (∀ e, e ∈ pending s' → e ∈ pending s ∨ e ∈ logged_of ev).
Proof.
  intros Hp Hf Hid. destruct ev as [e|i w]; cbn [step logged_of id_of lands] in *.
  - split_and!; [|done|done|intros e' He'; by apply elem_of_app in He'].
    unfold contents. cbn. rewrite fmap_app. by rewrite app_assoc.
  - rewrite Forall_singleton in Hid. destruct (pending s !! i) as [e|] eqn:Hi; cbn zeta.
    + pose proof (Forall_lookup_1 _ _ _ _ Hp Hi) as He. rewrite write_lands by done.
      split_and!; [|done| |intros e' He'; left; by eapply elem_of_submseteq, submseteq_delete].
      * unfold contents. cbn [tables log pending users fmap list_fmap]. rewrite map_to_list_insert by done. cbn.
        rewrite app_nil_r. pose proof (delete_Permutation _ _ _ Hi) as Hperm. rewrite Hperm at 2. cbn.
        by rewrite Permutation_middle.
      * intros j Hj Hne. cbn. rewrite lookup_insert_ne; [done|]. intros <-. apply Hne, list_elem_of_here.
    + rewrite app_nil_r. split_and!; try done. by left.
Qed.

(** the log keeps what is logged: however calls and goroutines interleave, as
    long as the server takes every entry and every statement lands (its answer may
    be lost), what is written together with what is still to be written is what was
    there and every logged action once; when nothing is pending it is all in
    the table. *)
Theorem audit_keeps_all evs : ∀ s,
  Forall (acceptable (tables s)) (pending s ++ (evs ≫= logged_of)) → Forall lands evs →
  NoDup (evs ≫= id_of) → Forall (λ i, log (tables s) !! i = None) (evs ≫= id_of) →
  let s' := foldl (step pg_text pg_jsonb) s evs in
  contents s' ≡ₚ contents s ++ (record_of <$> (evs ≫= logged_of)) ∧
  (pending s' = [] → erase <$> (map_to_list (log (tables s'))).*2 ≡ₚ contents s ++ (record_of <$> (evs ≫= logged_of))).
Proof.
  intros s Hacc Hl Hnd Hid s'.
  enough (contents s' ≡ₚ contents s ++ (record_of <$> (evs ≫= logged_of))) as H.
  { split; [done|]. intros Hnil. rewrite <- H. unfold contents. by rewrite Hnil, app_nil_r. }
  unfold s'. clear s'. revert s Hacc Hid. induction evs as [|ev evs IH]; intros s Hacc Hid; [by rewrite app_nil_r|].
  cbn [foldl]. change ((ev :: evs) ≫= logged_of) with (logged_of ev ++ (evs ≫= logged_of)) in *.
  change ((ev :: evs) ≫= id_of) with (id_of ev ++ (evs ≫= id_of)) in *.
  apply Forall_cons in Hl as [Hl1 Hl]. apply NoDup_app in Hnd as (_ & Hdis & Hnd). apply Forall_app in Hid as [Hid1 Hid].
  apply Forall_app in Hacc as [Hp Hacc]. apply Forall_app in Hacc as [He Hacc].
  destruct (step_contents s ev Hp Hl1 Hid1) as (Hc & Hu & Hlog & Hpend).
  assert (∀ e, acceptable (tables s) e → acceptable (tables (step pg_text pg_jsonb s ev)) e) as Hmono.
  { intros e (? & ? & ?). split_and!; [done|done|]. by rewrite Hu. }
  rewrite IH; [|done|done| |].
  - by rewrite Hc, fmap_app, app_assoc.
  - apply Forall_app. split; [|by eapply Forall_impl].
    apply Forall_forall. intros e [Hin|Hin]%Hpend; apply Hmono; [by eapply Forall_forall in Hp|by eapply Forall_forall in He].
  - apply Forall_forall. intros i Hi. apply Hlog; [by eapply Forall_forall in Hid|]. intros Hn. by apply (Hdis i).
Qed.

(** a client can act without a trace: the first address of X-Forwarded-For
    is what the client sent; if the server does not take it as text (a byte that is
    no UTF-8 suffices) the row is never written, whatever the action was and
    however the statement goes. *)
Theorem forged_address_unlogged uuid_Parse h remote user action ty id d t w ip ips e :
  h "X-Forwarded-For"%string ≠ ""%string → Str.Split (h "X-Forwarded-For"%string) "," = ip :: ips →
  Str.TrimSpace ip ≠ ""%string → pg_text (Str.TrimSpace ip) = false →
  Log uuid_Parse true user (Some (ClientIPFromRequest h remote)) action ty id d = Some e →
  (WriteAuditLog pg_text pg_jsonb t e w).1 = t.
Proof.
  intros Hh Hs Hne Hbad Hlog. unfold ClientIPFromRequest in Hlog. apply String.eqb_neq in Hh.
  rewrite Hh, Hs in Hlog. cbn [negb] in Hlog. revert Hne Hbad Hlog. generalize (Str.TrimSpace ip). intros a Hne Hbad. unfold Log. cbn.
  destruct (String.eqb_spec a "") as [|_]; [done|].
  intros [= <-]. unfold WriteAuditLog, accepts, texts. cbn. rewrite Hbad, !andb_false_r. done.
Qed.
End LogProofs.

Section ListingProofs.
Variable uuid_Parse : string → option N.
Variable parse_time : string → option Z.
Variable uuid_String : N → string.
Variable print_time : Z → string.
Variable marshal : json → string.

Lemma selected_any (arrange arrange' : list Row → list Row) t fl :
  (∀ l, arrange l ≡ₚ l) → (∀ l, arrange' l ≡ₚ l) →
  (∀ i j x y, t !! i = Some x → t !! j = Some y → matches fl x = true → matches fl y = true →
     r_CreatedAt x = r_CreatedAt y → x = y) →
  selected arrange t fl = selected arrange' t fl.
Proof.
  intros Ha Ha' Hinj. unfold selected. apply (StronglySorted_unique_strong newer).
  - intros x y. rewrite !merge_sort_Permutation, !list_elem_of_filter, Ha, Ha', !list_elem_of_fmap.
    intros (Hx & [i x'] & -> & Hi%elem_of_map_to_list) (Hy & [j y'] & -> & Hj%elem_of_map_to_list). unfold newer.
    intros ? ?. apply (Hinj i j); [done..|]. cbn in *. lia.
  - apply (StronglySorted_merge_sort _).
  - apply (StronglySorted_merge_sort _).
  - by rewrite !merge_sort_Permutation, Ha, Ha'.
Qed.

(** The pages of [limit] entries from [offset] on, as long as they have entries. *)
Fixpoint follow_pages (arrange : nat → list Row → list Row) (t : gmap N Row) (fl : AuditLogFilters) (limit : Z) (n : nat) (offset : Z)
    : list Row :=
  match n with
  | O => []
  | S n' =>
      match ListAuditLogs (arrange n) t t fl limit offset true QueryOk with
      | Ok (entries, _) => entries ++ follow_pages arrange t fl limit n' (offset + limit)
      | Err _ => []
      end
  end.

Lemma pages_drop (arrange : nat → list Row → list Row) t fl limit l n : ∀ offset,
  0 < limit <= 500 → 0 <= offset → (∀ k, selected (arrange k) t fl = l) →
  Z.of_nat (length l) <= offset + Z.of_nat n * limit →
  follow_pages arrange t fl limit n offset = drop (Z.to_nat offset) l.
Proof.
  induction n as [|n IH]; intros offset Hlim Hoff Hsel Hn.
  - cbn. rewrite drop_ge; [done|lia].
  - cbn [follow_pages ListAuditLogs negb]. rewrite Hsel.
    assert (clamp limit = limit) as ->
      by (unfold clamp; destruct (Z.leb_spec limit 0); [lia|]; destruct (Z.ltb_spec 500 limit); lia).
    rewrite IH by (done || lia).
    replace (Z.to_nat (offset + limit)) with (Z.to_nat offset + Z.to_nat limit)%nat by lia.
    rewrite <- drop_drop. apply take_drop.
Qed.

(** turning the pages shows every entry that matches once, newest first, for
    any page size the handler keeps and whatever order the server gives to its
    rows on each page, if the matching entries have different times. *)
Theorem audit_pages_complete arrange t fl limit n :
  (∀ k l, arrange k l ≡ₚ l) →
  (∀ i j x y, t !! i = Some x → t !! j = Some y → matches fl x = true → matches fl y = true →
     r_CreatedAt x = r_CreatedAt y → x = y) →
  0 < limit <= 500 → Z.of_nat (size t) <= Z.of_nat n * limit →
  let pages := follow_pages arrange t fl limit n 0 in
  pages ≡ₚ filter (λ r, matches fl r = true) (map_to_list t).*2 ∧ StronglySorted newer pages.
Proof.
  intros Ha Hinj Hlim Hn pages.
  assert (length (selected (arrange O) t fl) <= size t)%nat as Hlen.
  { unfold selected. rewrite merge_sort_Permutation. etrans; [apply length_filter|].
    by rewrite Ha, length_fmap, length_map_to_list. }
  unfold pages. rewrite (pages_drop arrange t fl limit (selected (arrange O) t fl)) by
    (lia || intros k; by apply selected_any).
  change (drop (Z.to_nat 0) ?l) with l. split.
  - unfold selected. by rewrite merge_sort_Permutation, Ha.
  - apply (StronglySorted_merge_sort _).
Qed.

(** C9: the export can be read back as the rows of the log it stands for, whatever
    commas, quotes and line ends the texts have: a header, and then exactly the
    five hundred newest entries that match, although the handler asks for ten
    thousand; older ones are left out without a sign. *)
Theorem export_newest_500 arrange q e fl :
  parse_filters uuid_Parse parse_time q = Ok fl → count_ok e = true → rows_of e = QueryOk →
  ∃ text, HandleExportAuditLog uuid_Parse parse_time arrange uuid_String print_time marshal true q e = mkResponse 200 (BCsv text) ∧
  csv_read AtLine text = Some (export_header :: (export_row uuid_String print_time marshal <$> take 500 (selected arrange (at_page e) fl))).
Proof.
  intros Hq Hc Hr. unfold HandleExportAuditLog, ListAuditLogs. rewrite Hq, Hc, Hr. cbn [negb].
  eexists. split; [reflexivity|]. change (clamp 10000) with 500. change (drop (Z.to_nat 0) ?l) with l.
  change (Z.to_nat 500) with 500%nat. apply read_text. constructor; [done|].
  apply Forall_fmap, Forall_true. intros r. done.
Qed.
End ListingProofs.

(** ** Concrete inputs *)

Definition demo_text (s : string) : bool := negb (Str.ContainsByte s (ascii_of_nat 255)).
Definition demo_tables : Tables := mkTables {[7%N]} ∅.
Definition demo_uuid (s : string) : option N := if String.eqb s "u7" then Some 7%N else None.
Definition demo_user (id : string) : option RBAC.AuthUser := Some (RBAC.mkAuthUser id "a@b" "A" "admin" "").
Definition demo_entry (act : string) : AuditLogEntry :=
  mkEntry (Some 7%N) "a@b" act "session" (Some "s1"%string) (MapDetails None) None.
Definition demo_events : list event :=
  [ELogged (demo_entry "session.create"); ELogged (demo_entry "session.kill"); EWrites 1 (mkWriteEnv 2 10 AckLost);
   EWrites 0 (mkWriteEnv 3 11 NoFault)].

Lemma audit_keeps_all_witness :
  let s' := foldl (step demo_text (λ _, true)) (mkServer demo_tables []) demo_events in
  erase <$> (map_to_list (log (tables s'))).*2 ≡ₚ [record_of (demo_entry "session.create"); record_of (demo_entry "session.kill")].
Proof.
  intros s'. destruct (audit_keeps_all demo_text (λ _, true) demo_events (mkServer demo_tables [])) as [_ H].
  - repeat constructor; cbn; by apply elem_of_singleton.
  - repeat constructor; discriminate.
  - apply (bool_decide_unpack _). vm_compute. exact I.
  - repeat constructor.
  - apply H. vm_compute. reflexivity.
Defined.

(** The row of a deleted user's request is lost: its actor is no user any more. *)
Example deleted_actor_unlogged :
  Log demo_uuid true (demo_user "u8") None "agent.delete" "agent" "a1" None = Some (mkEntry None "a@b" "agent.delete" "agent" (Some "a1"%string) (MapDetails None) None) ∧
  match Log demo_uuid true (demo_user "u7") None "agent.delete" "agent" "a1" None with
  | Some e => (WriteAuditLog demo_text (λ _, true) (mkTables ∅ ∅) e (mkWriteEnv 2 10 NoFault)).2 = true
  | None => False
  end.
Proof. split; vm_compute; reflexivity. Qed.

Definition demo_bad_byte : string := String (ascii_of_nat 255) EmptyString.
Lemma forged_address_unlogged_witness :
  let h name := if String.eqb name "X-Forwarded-For" then demo_bad_byte else ""%string in
  match Log demo_uuid true (demo_user "u7") (Some (ClientIPFromRequest h "1.2.3.4:5")) "user.delete" "user" "u9" None with
  | Some e => (WriteAuditLog demo_text (λ _, true) demo_tables e (mkWriteEnv 2 10 NoFault)).1 = demo_tables
  | None => False
  end.
Proof.
  intros h. destruct (Log _ _ _ _ _ _ _ _) as [e|] eqn:E; [|discriminate E].
  apply (forged_address_unlogged demo_text (λ _, true) demo_uuid h "1.2.3.4:5" (demo_user "u7") "user.delete" "user" "u9" None
    demo_tables (mkWriteEnv 2 10 NoFault) demo_bad_byte [] e); try exact E; vm_compute; congruence.
Defined.

Definition demo_row (id : N) (act : string) (t : Z) : Row :=
  mkRow id (Some 7%N) "a@b" act "session" None JNull None t.
Definition demo_log : gmap N Row :=
  list_to_map [(1%N, demo_row 1 "x" 5); (2%N, demo_row 2 "y,z" 9); (3%N, demo_row 3 "x" 7)].
Definition no_filters : AuditLogFilters := mkFilters None None None None None.

Lemma audit_pages_complete_witness :
  StronglySorted newer (follow_pages (λ k l, if Nat.even k then l else reverse l) demo_log no_filters 2 2 0).
Proof.
  apply (audit_pages_complete (λ k l, if Nat.even k then l else reverse l) demo_log no_filters 2 2).
  - intros k l. destruct (Nat.even k); [done|apply reverse_Permutation].
  - intros i j x y Hi Hj _ _. unfold demo_log in *. apply elem_of_list_to_map_2 in Hi, Hj.
    repeat (apply elem_of_cons in Hi as [[= -> ->]|Hi]); [..|by apply not_elem_of_nil in Hi];
      repeat (apply elem_of_cons in Hj as [[= -> ->]|Hj]); try (by apply not_elem_of_nil in Hj); cbn; done.
  - lia.
  - vm_compute. discriminate.
Defined.

Lemma export_newest_500_witness :
  ∃ text, HandleExportAuditLog demo_uuid (λ _, None) id (λ _, "i"%string) (λ _, "t"%string) (λ _, "{}"%string) true (λ _, ""%string)
    (mkQuery demo_log demo_log true QueryOk) = mkResponse 200 (BCsv text) ∧
  csv_read AtLine text = Some (export_header ::
    [["i"; "i"; "a@b"; "y,z"; "session"; ""; ""; "t"; ""]; ["i"; "i"; "a@b"; "x"; "session"; ""; ""; "t"; ""];
     ["i"; "i"; "a@b"; "x"; "session"; ""; ""; "t"; ""]]%string).
Proof.
  apply (export_newest_500 demo_uuid (λ _, None) (λ _, "i"%string) (λ _, "t"%string) (λ _, "{}"%string) id (λ _, ""%string)
    (mkQuery demo_log demo_log true QueryOk) no_filters); reflexivity.
Defined.
End Audit.
