(* ===== verification/Secrets.v ===== *)
(** * internal/secrets, internal/api/secrets.go and provider_config.go

    The encrypted store of the local backend, the broker with its scopes, and
    the two pages that use them. SHA-256 and AES-GCM are parameters, and so are
    uuid parsing and what the pgx driver scans. Tables are maps; a nonce
    that cannot be made is [None]. *)
From Stdlib Require Import Ascii String.
From S2P Require Import Prelude GoStrings Base64.
From S2P Require Import SessionStore.
From S2P Require Import AuditLog.
From S2P Require Import Auth.
From S2P Require Import Json.
Import Json Store.
#[local] Open Scope Z_scope.
#[local] Set Default Proof Using "Type".

Module Secrets.

(** A row of encrypted_secrets, under its key_hash. *)
Record EncryptedSecret := mkSecret { CipherText : string; Nonce : string }.
Notation table := (gmap string EncryptedSecret).

Record LocalBackend := mkBackend { masterKey : string }.
Inductive secret_error := EmptyRef | EmptyValue | NotFound | CryptoFails | StoreFails.

Section Local.
Variable Sum256 : string → string.
Variable Seal : string → string → string → string.                  (* key, nonce, plain text *)
Variable Open : string → string → string → option string.           (* key, nonce, cipher text *)

Definition deriveMasterKey (input : string) : string := Sum256 input.
(** [env]: DAAO_SECRET_KEY; [random]: what rand.Read gives. [None]: the process exits. *)
Definition NewLocalBackend (env : string) (random : option string) : option LocalBackend :=
  if negb (String.eqb env "") then Some (mkBackend (deriveMasterKey env)) else mkBackend <$> random.
Definition NewLocalBackendWithKey (key : string) : LocalBackend :=
  mkBackend (if (String.length key =? 32)%nat then key else Sum256 key).

Definition hashKey (key : string) : string := Base64.EncodeToString Base64.StdEncoding (Sum256 key).

(** aes.NewCipher *)
Definition cipher_ok (lb : LocalBackend) : bool :=
  let n := String.length (masterKey lb) in (n =? 16)%nat || (n =? 24)%nat || (n =? 32)%nat.
Definition encrypt (lb : LocalBackend) (plaintext : string) (nonce : option string) : option EncryptedSecret :=
  if negb (cipher_ok lb) then None else
  match nonce with None => None | Some n => Some (mkSecret (Seal (masterKey lb) n plaintext) n) end.
Definition decrypt (lb : LocalBackend) (s : EncryptedSecret) : option string :=
  if negb (cipher_ok lb) then None else Open (masterKey lb) (Nonce s) (CipherText s).

Definition FetchSecret (lb : LocalBackend) (t : table) (ref : string) (fails : bool) : result secret_error string :=
  if String.eqb ref "" then Err EmptyRef else
  if fails then Err NotFound else
  match t !! hashKey ref with
  | None => Err NotFound
  | Some s => match decrypt lb s with None => Err CryptoFails | Some v => Ok v end
  end.
Definition StoreSecret (lb : LocalBackend) (t : table) (ref value : string) (nonce : option string) (f : fault)
    : table * option secret_error :=
  if String.eqb ref "" then (t, Some EmptyRef) else
  if String.eqb value "" then (t, Some EmptyValue) else
  match encrypt lb value nonce with
  | None => (t, Some CryptoFails)
  | Some s =>
      let t' := <[hashKey ref := s]> t in
      match f with NoFault => (t', None) | StmtFails => (t, Some StoreFails) | AckLost => (t', Some StoreFails) end
  end.
Definition DeleteSecret (t : table) (ref : string) (f : fault) : table * option secret_error :=
  if String.eqb ref "" then (t, Some EmptyRef) else
  let t' := delete (hashKey ref) t in
  match f with
  | NoFault => (t', if bool_decide (is_Some (t !! hashKey ref)) then None else Some NotFound)
  | StmtFails => (t, Some StoreFails)
  | AckLost => (t', Some StoreFails)
  end.

(** ** broker.go *)

Record SecretScope := mkScope {
  ID : N; SatelliteID : option N; Provider : string; SecretRef : string; Backend : string; LeaseTTLMin : option Z;
}.
Record Broker := mkBroker { localBackend : LocalBackend }.
Definition NewBroker (env : string) (random : option string) : option Broker := mkBroker <$> NewLocalBackend env random.

(** What the lookup of a scope meets: the context may be over, anything else
    that fails is "no scope". *)
Inductive lookup_fault := LookupOk | LookupCancelled | LookupFails.
Variable arrange : list SecretScope → list SecretScope.

(** A NULL lease does not scan into an int. *)
Definition findScope (scopes : gmap N SecretScope) (provider : string) (satelliteID : option N) (f : lookup_fault)
    : result unit (option SecretScope) :=
  match f with
  | LookupCancelled => Err tt
  | LookupFails => Ok None
  | LookupOk =>
      match filter (λ s, Provider s = provider ∧ SatelliteID s = satelliteID) (arrange (map_to_list scopes).*2) with
      | [] => Ok None
      | s :: _ => Ok (match LeaseTTLMin s with None => None | Some _ => Some s end)
      end
  end.

Inductive broker_error := LookupError | ErrSecretNotFound | BackendError (e : secret_error).
Definition broker_FetchSecret (b : Broker) (scopes : gmap N SecretScope) (t : table) (provider : string) (sat : N)
    (f1 f2 : lookup_fault) (f3 : bool) : result broker_error string :=
  match findScope scopes provider (Some sat) f1 with
  | Err _ => Err LookupError
  | Ok own =>
      match (match own with Some s => Ok (Some s) | None => findScope scopes provider None f2 end) with
      | Err _ => Err LookupError
      | Ok None => Err ErrSecretNotFound
      | Ok (Some s) => match FetchSecret (localBackend b) t (SecretRef s) f3 with Ok v => Ok v | Err e => Err (BackendError e) end
      end
  end.

(** ** api/secrets.go *)

Record Response (B : Type) := mkResponse { status : Z; body : B }.
#[global] Arguments mkResponse {B} _ _.
#[global] Arguments status {B} _.
#[global] Arguments body {B} _.
Inductive ScopeBody :=
  | SError (msg : string)
  | SScopes (l : option (list SecretScope))       (* null where nothing was scanned *)
  | SCreated (id : N) (provider backend : string)
  | SService.
Variable pg_uuid : string → option N.
(** Whether pgx scans a row into the strings of the response. *)
Variable scans : SecretScope → bool.
Variable later_scopes : list SecretScope → list SecretScope.     (* ORDER BY created_at DESC *)

(** INSERT INTO secret_scopes; a column that is not named gets its default, and
    secret_ref has none. *)
Definition insert_scope (satellites : gset N) (scopes : gmap N SecretScope) (id : N) (satellite_id : option string)
    (provider : string) (secret_ref : option string) (backend : string) (fails : bool) : gmap N SecretScope * option N :=
  match secret_ref with
  | None => (scopes, None)
  | Some ref =>
      if fails || negb (bool_decide (scopes !! id = None)) then (scopes, None) else
      match satellite_id with
      | None => (<[id := mkScope id None provider ref backend (Some 0)]> scopes, Some id)
      | Some s =>
          match pg_uuid s with
          | Some sat => if bool_decide (sat ∈ satellites)
                        then (<[id := mkScope id (Some sat) provider ref backend (Some 0)]> scopes, Some id) else (scopes, None)
          | None => (scopes, None)
          end
      end
  end.

Definition HandleListSecretScopes (db : bool) (scopes : gmap N SecretScope) (f : query_fault) : Response ScopeBody :=
  if negb db then mkResponse 503 (SError "database not configured") else
  let rows := later_scopes (map_to_list scopes).*2 in
  match f with
  | QueryFails => mkResponse 500 (SError "failed to list secret scopes")
  | _ =>
      let seen := match f with CutAfter n => take n rows | ScanFails n => take n rows ++ drop (S n) rows | _ => rows end in
      mkResponse 200 (SScopes (match filter (λ s, scans s = true) seen with [] => None | l => Some l end))
  end.
(** The request is what the body decodes to. *)
Record CreateScope := mkCreateScope { cs_SatelliteID : option string; cs_Provider : string; cs_Backend : string }.
Definition HandleCreateSecretScope (db : bool) (satellites : gset N) (scopes : gmap N SecretScope) (req : option CreateScope)
    (id : N) (fails : bool) : gmap N SecretScope * Response ScopeBody :=
  if negb db then (scopes, mkResponse 503 (SError "database not configured")) else
  match req with
  | None => (scopes, mkResponse 400 (SError "invalid request body"))
  | Some rq =>
      if String.eqb (cs_Provider rq) "" then (scopes, mkResponse 400 (SError "provider is required")) else
      let backend := if String.eqb (cs_Backend rq) "" then "local"%string else cs_Backend rq in
      match insert_scope satellites scopes id (cs_SatelliteID rq) (cs_Provider rq) None backend fails with
      | (scopes', None) => (scopes', mkResponse 500 (SError "failed to create secret scope"))
      | (scopes', Some id) => (scopes', mkResponse 201 (SCreated id (cs_Provider rq) backend))
      end
  end.
Definition handleSecretsAPI (broker db : bool) (satellites : gset N) (scopes : gmap N SecretScope) (path method : string)
    (req : option CreateScope) (id : N) (fails : bool) (f : query_fault) : gmap N SecretScope * Response ScopeBody :=
  if negb broker then (scopes, mkResponse 503 (SError "secrets not configured")) else
  if String.eqb path "/api/v1/secrets" && String.eqb method "GET" then (scopes, HandleListSecretScopes db scopes f) else
  if String.eqb path "/api/v1/secrets" && String.eqb method "POST"
  then HandleCreateSecretScope db satellites scopes req id fails else
  (scopes, mkResponse 200 SService).

(** ** api/provider_config.go *)

Record ProviderConfigRequest := mkProviderRequest { rq_ID : string; APIKey : string }.
Record ProviderConfigResponse := mkProviderResponse { rs_ID : string; MaskedKey : string; HasKey : bool }.
Inductive ProviderBody := PError (msg : string) | PProviders (l : list ProviderConfigResponse).

Definition providerSecretRef (providerID : string) : string := "provider_api_key:" +:+ providerID.
Fixpoint Repeat (s : string) (n : nat) : string := match n with O => EmptyString | S n' => s +:+ Repeat s n' end.
Definition maskAPIKey (key : string) : string :=
  let n := String.length key in
  if (n <=? 8)%nat then Repeat "•" n else substring 0 3 key +:+ "..." +:+ substring (n - 4) 4 key.

(** What is shown of a provider: a key that cannot be read, or is empty, is none. *)
Definition shown (pid : string) (r : result secret_error string) : ProviderConfigResponse :=
  match r with
  | Ok v => if String.eqb v "" then mkProviderResponse pid "" false else mkProviderResponse pid (maskAPIKey v) true
  | Err _ => mkProviderResponse pid "" false
  end.
Definition knownProviders : list string := ["anthropic"; "google"; "openai"; "ollama"]%string.

(** [fails]: which of the reads fail. *)
Definition handleGetProviders (lb : LocalBackend) (t : table) (fails : string → bool) : Response ProviderBody :=
  mkResponse 200 (PProviders ((λ pid, shown pid (FetchSecret lb t (providerSecretRef pid) (fails pid))) <$> knownProviders)).

(** What the statement of one provider meets. *)
Record save_env := mkSaveEnv { s_nonce : option string; s_fault : fault; s_read_fails : bool }.
Fixpoint save_loop (lb : LocalBackend) (t : table) (ps : list (ProviderConfigRequest * save_env))
    (saved : list ProviderConfigResponse) : table * result string (list ProviderConfigResponse) :=
  match ps with
  | [] => (t, Ok saved)
  | (p, e) :: ps' =>
      let ref := providerSecretRef (rq_ID p) in
      if negb (String.eqb (APIKey p) "") then
        match StoreSecret lb t ref (APIKey p) (s_nonce e) (s_fault e) with
        | (t', Some _) => (t', Err (rq_ID p))
        | (t', None) => save_loop lb t' ps' (saved ++ [mkProviderResponse (rq_ID p) (maskAPIKey (APIKey p)) true])
        end
      else save_loop lb t ps' (saved ++ [shown (rq_ID p) (FetchSecret lb t ref (s_read_fails e))])
  end.

Variable uuid_Parse : string → option N.
Fixpoint join (sep : string) (l : list string) : string :=
  match l with [] => EmptyString | [x] => x | x :: l' => x +:+ sep +:+ join sep l' end.
(** The response, and the entry for the audit log. *)
Definition handleSaveProviders (lb : LocalBackend) (t : table) (req : option (list (ProviderConfigRequest * save_env)))
    (audit : bool) (user : option RBAC.AuthUser) (h : Audit.header) (remote : string)
    : table * Response ProviderBody * option Audit.AuditLogEntry :=
  match req with
  | None => (t, mkResponse 400 (PError "invalid request body"), None)
  | Some ps =>
      match save_loop lb t ps [] with
      | (t', Err pid) => (t', mkResponse 500 (PError ("failed to save provider key: " +:+ pid)), None)
      | (t', Ok saved) =>
          (t', mkResponse 200 (PProviders saved),
           Audit.Log uuid_Parse audit user (Some (Audit.ClientIPFromRequest h remote)) "provider.update" "provider_config" "providers"
             (Some [("provider"%string, JString (join "," (rq_ID <$> ps.*1)))]))
      end
  end.

Definition handleProviderConfig (lb : option LocalBackend) (t : table) (method : string) (fails : string → bool)
    (req : option (list (ProviderConfigRequest * save_env))) (audit : bool) (user : option RBAC.AuthUser) (h : Audit.header)
    (remote : string) : table * Response ProviderBody * option Audit.AuditLogEntry :=
  match lb with
  | None => (t, mkResponse 503 (PError "secrets backend not configured"), None)
  | Some lb =>
      if String.eqb method "GET" then (t, handleGetProviders lb t fails, None) else
      if String.eqb method "PUT" then handleSaveProviders lb t req audit user h remote else
      (t, mkResponse 405 (PError "method not allowed"), None)
  end.

(** ** The encrypted store is a map *)

(** What the store promises: a map from references to values. *)
Inductive call :=
  | CFetch (ref : string) (fails : bool) | CStore (ref value : string) (nonce : option string) (f : fault) | CDelete (ref : string) (f : fault).
Definition outcome := result secret_error string.
Definition done (e : option secret_error) : outcome := match e with None => Ok ""%string | Some e => Err e end.
Definition ref_of (c : call) : string := match c with CFetch r _ | CStore r _ _ _ | CDelete r _ => r end.

Definition perform (lb : LocalBackend) (t : table) (c : call) : table * outcome :=
  match c with
  | CFetch ref fails => (t, FetchSecret lb t ref fails)
  | CStore ref v n f => let '(t', e) := StoreSecret lb t ref v n f in (t', done e)
  | CDelete ref f => let '(t', e) := DeleteSecret t ref f in (t', done e)
  end.
Definition spec (m : gmap string string) (c : call) : gmap string string * outcome :=
  match c with
  | CFetch ref fails =>                      (* a SELECT that fails answers as a key that is not there *)
      (m, if fails then Err NotFound else match m !! ref with Some v => Ok v | None => Err NotFound end)
  | CStore ref v n f =>
      if String.eqb v "" then (m, Err EmptyValue) else
      match n, f with
      | None, _ => (m, Err CryptoFails)
      | Some _, NoFault => (<[ref := v]> m, Ok ""%string)
      | Some _, StmtFails => (m, Err StoreFails)
      | Some _, AckLost => (<[ref := v]> m, Err StoreFails)
      end
  | CDelete ref f =>
      match f with
      | NoFault => (delete ref m, if bool_decide (is_Some (m !! ref)) then Ok ""%string else Err NotFound)
      | StmtFails => (m, Err StoreFails)
      | AckLost => (delete ref m, Err StoreFails)
      end
  end.
Fixpoint performs (lb : LocalBackend) (t : table) (cs : list call) : list outcome :=
  match cs with [] => [] | c :: cs' => let '(t', o) := perform lb t c in o :: performs lb t' cs' end.
Fixpoint specs (m : gmap string string) (cs : list call) : list outcome :=
  match cs with [] => [] | c :: cs' => let '(m', o) := spec m c in o :: specs m' cs' end.

Hypothesis Open_Seal : ∀ k n p, Open k n (Seal k n p) = Some p.

(** The rows under the references of [D] are the encrypted values of [m]. *)
Definition represents (D : string → Prop) (lb : LocalBackend) (t : table) (m : gmap string string) : Prop :=
  ∀ ref, D ref → match m !! ref, t !! hashKey ref with
                 | Some v, Some s => decrypt lb s = Some v | None, None => True | _, _ => False end.

Lemma decrypt_sealed lb n v : cipher_ok lb = true → decrypt lb (mkSecret (Seal (masterKey lb) n v) n) = Some v.
Proof using Type Open_Seal. intros Hc. unfold decrypt. rewrite Hc. apply Open_Seal. Qed.

Section Represents.
Variable D : string → Prop.
Hypothesis D_ref : ∀ r, D r → r ≠ ""%string.
Hypothesis D_inj : ∀ r r', D r → D r' → hashKey r = hashKey r' → r = r'.

Lemma represents_insert lb t m ref v s : D ref → represents D lb t m → decrypt lb s = Some v →
  represents D lb (<[hashKey ref := s]> t) (<[ref := v]> m).
Proof using Type D_inj.
  intros Hr Ht Hs r Dr. destruct (decide (r = ref)) as [->|Hne]; [by rewrite !lookup_insert_eq|].
  rewrite !lookup_insert_ne; [by apply Ht| |done]. intros H. by apply Hne, D_inj.
Qed.
Lemma represents_delete lb t m ref : D ref → represents D lb t m →
  represents D lb (delete (hashKey ref) t) (delete ref m).
Proof using Type D_inj.
  intros Hr Ht r Dr. destruct (decide (r = ref)) as [->|Hne]; [by rewrite !lookup_delete_eq|].
  rewrite !lookup_delete_ne; [by apply Ht| |done]. intros H. by apply Hne, D_inj.
Qed.

Lemma perform_spec lb t m c : cipher_ok lb = true → D (ref_of c) → represents D lb t m →
  (perform lb t c).2 = (spec m c).2 ∧ represents D lb (perform lb t c).1 (spec m c).1.
Proof using Type D_ref D_inj Open_Seal.
  intros Hc Hr Ht. pose proof (Ht _ Hr) as Hrow. pose proof (D_ref _ Hr) as Hne. apply String.eqb_neq in Hne.
  destruct c as [ref b|ref v n f|ref f]; cbn [ref_of perform spec] in *.
  - unfold FetchSecret. rewrite Hne. split; [|done]. destruct b; [done|].
    destruct (m !! ref), (t !! hashKey ref); try done. cbn. by rewrite Hrow.
  - unfold StoreSecret, encrypt. rewrite Hne, Hc. cbn [negb]. destruct (String.eqb v ""); [done|].
    destruct n as [n|]; [|done]. destruct f; split; try done; apply represents_insert; try done; by apply decrypt_sealed.
  - unfold DeleteSecret. rewrite Hne. destruct f; split; try done; try by apply represents_delete. cbn.
    destruct (m !! ref), (t !! hashKey ref); done.
Qed.
End Represents.

(** C13: the encrypted store refines a map: for references whose hashes differ, any
    sequence of fetches, stores and deletes answers as a map from references to
    values does, whatever the nonces and the failing statements are; a fetch whose SELECT
    fails answers "not found", also for a key that is stored. *)
Theorem store_refines_map D lb t m cs :
  (∀ r, D r → r ≠ ""%string) → (∀ r r', D r → D r' → hashKey r = hashKey r' → r = r') →
  cipher_ok lb = true → represents D lb t m → Forall (λ c, D (ref_of c)) cs →
  performs lb t cs = specs m cs.
Proof using Type Open_Seal.
  intros Href Hinj Hc Ht Hcs. revert t m Ht. induction Hcs as [|c cs Hr Hcs IH]; intros t m Ht; [reflexivity|].
  destruct (perform_spec D Href Hinj lb t m c Hc Hr Ht) as [Ho Ht']. cbn [performs specs].
  destruct (perform lb t c) as [t' o], (spec m c) as [m' o']. cbn in Ho, Ht'. rewrite Ho. f_equal. by apply IH.
Qed.

(** a key in the environment, or none: what one process stores, another one, or
    the other backend of the same process, reads if DAAO_SECRET_KEY is set, and
    cannot decrypt if it is not, since each backend makes its own key. *)
Theorem backends_agree env r1 r2 lb1 lb2 t ref v n :
  (∀ x, String.length (Sum256 x) = 32%nat) → (∀ k k' n' p, String.length k = String.length k' → k ≠ k' → Open k' n' (Seal k n' p) = None) →
  NewLocalBackend env (Some r1) = Some lb1 → NewLocalBackend env (Some r2) = Some lb2 →
  String.length r1 = 32%nat → String.length r2 = 32%nat → r1 ≠ r2 → ref ≠ ""%string → v ≠ ""%string →
  FetchSecret lb2 (StoreSecret lb1 t ref v (Some n) NoFault).1 ref false =
    if String.eqb env "" then Err CryptoFails else Ok v.
Proof using Type Open_Seal.
  intros Hlen Hauth H1 H2 Hr1 Hr2 Hne Href Hv. unfold NewLocalBackend in *.
  apply String.eqb_neq in Href, Hv. unfold FetchSecret, StoreSecret, encrypt, decrypt. rewrite Href, Hv.
  assert (cipher_ok lb1 = true ∧ cipher_ok lb2 = true) as [-> ->].
  { unfold cipher_ok. destruct (String.eqb env ""); injection H1 as <-; injection H2 as <-; cbn [masterKey].
    - by rewrite Hr1, Hr2.
    - unfold deriveMasterKey. by rewrite Hlen. }
  cbn [negb fst]. rewrite lookup_insert_eq. cbn [Nonce CipherText]. destruct (String.eqb env "") eqn:Ee.
  - injection H1 as <-. injection H2 as <-. cbn [masterKey]. rewrite Hauth; [done|by rewrite Hr1, Hr2|done].
  - injection H1 as <-. injection H2 as <-. cbn [masterKey]. by rewrite Open_Seal.
Qed.

(** ** No key leaves the server *)

(** A request to the provider page. *)
Inductive page := PGet (fails : string → bool) | PPut (ps : list (ProviderConfigRequest * save_env)).
Definition visit (lb : LocalBackend) (audit : bool) (user : option RBAC.AuthUser) (h : Audit.header) (remote : string)
    (t : table) (p : page) : table * Response ProviderBody * option Audit.AuditLogEntry :=
  match p with
  | PGet fails => handleProviderConfig (Some lb) t "GET" fails None audit user h remote
  | PPut ps => handleProviderConfig (Some lb) t "PUT" (λ _, false) (Some ps) audit user h remote
  end.
Fixpoint visits (lb : LocalBackend) (audit : bool) (user : option RBAC.AuthUser) (h : Audit.header) (remote : string)
    (t : table) (ps : list page) : list (Response ProviderBody * option Audit.AuditLogEntry) :=
  match ps with
  | [] => []
  | p :: ps' => let '(t', r, a) := visit lb audit user h remote t p in (r, a) :: visits lb audit user h remote t' ps'
  end.

(** Two keys that look alike, and two requests that differ in such keys. *)
Definition alike (k1 k2 : string) : Prop := (k1 = ""%string ↔ k2 = ""%string) ∧ maskAPIKey k1 = maskAPIKey k2.
Definition alike_rq (x y : ProviderConfigRequest * save_env) : Prop :=
  rq_ID x.1 = rq_ID y.1 ∧ alike (APIKey x.1) (APIKey y.1) ∧ (is_Some (s_nonce x.2) ↔ is_Some (s_nonce y.2)) ∧
  s_fault x.2 = s_fault y.2 ∧ s_read_fails x.2 = s_read_fails y.2.
Definition alike_page (p q : page) : Prop :=
  match p, q with PGet f, PGet g => f = g | PPut ps, PPut qs => Forall2 alike_rq ps qs | _, _ => False end.

Definition shows (lb : LocalBackend) (t1 t2 : table) : Prop :=
  ∀ ref b pid, shown pid (FetchSecret lb t1 ref b) = shown pid (FetchSecret lb t2 ref b).

Lemma eqb_empty_iff (a b : string) : (a = ""%string ↔ b = ""%string) → String.eqb a "" = String.eqb b "".
Proof. intros H. destruct (String.eqb_spec a ""), (String.eqb_spec b ""); try done; destruct H as [H1 H2]; exfalso; auto. Qed.

Lemma store_shows lb t1 t2 ref k1 k2 n1 n2 f : cipher_ok lb = true → shows lb t1 t2 → alike k1 k2 →
  (is_Some n1 ↔ is_Some n2) →
  (StoreSecret lb t1 ref k1 n1 f).2 = (StoreSecret lb t2 ref k2 n2 f).2 ∧
  shows lb (StoreSecret lb t1 ref k1 n1 f).1 (StoreSecret lb t2 ref k2 n2 f).1.
Proof using Type Open_Seal.
  intros Hc Ht [He Hm] Hn. unfold StoreSecret, encrypt. rewrite Hc, (eqb_empty_iff _ _ He). cbn [negb].
  destruct (String.eqb ref ""); [done|]. destruct (String.eqb_spec k2 "") as [|Hk2]; [done|].
  assert (k1 ≠ ""%string) as Hk1 by (by rewrite He).
  destruct n1 as [n1|], n2 as [n2|]; [|exfalso; destruct (proj1 Hn); done|exfalso; destruct (proj2 Hn); done|done].
  assert (shows lb (<[hashKey ref := mkSecret (Seal (masterKey lb) n1 k1) n1]> t1)
                   (<[hashKey ref := mkSecret (Seal (masterKey lb) n2 k2) n2]> t2)) as H.
  { intros r b pid. unfold FetchSecret. destruct (String.eqb r "") eqn:Er; [done|]. destruct b; [done|].
    destruct (decide (hashKey r = hashKey ref)) as [->|Hne].
    - rewrite !lookup_insert_eq, !decrypt_sealed by done. cbn. apply String.eqb_neq in Hk1, Hk2. by rewrite Hk1, Hk2, Hm.
    - rewrite !lookup_insert_ne by done. specialize (Ht r false pid). unfold FetchSecret in Ht. by rewrite Er in Ht. }
  by destruct f.
Qed.

Lemma save_shows lb ps qs : Forall2 alike_rq ps qs → ∀ t1 t2 saved, cipher_ok lb = true → shows lb t1 t2 →
  (save_loop lb t1 ps saved).2 = (save_loop lb t2 qs saved).2 ∧
  shows lb (save_loop lb t1 ps saved).1 (save_loop lb t2 qs saved).1.
Proof using Type Open_Seal.
  induction 1 as [|[p e] [q e'] ps qs (Hid & Hk & Hn & Hf & Hr) _ IH]; intros t1 t2 saved Hc Ht; [done|].
  cbn [fst snd] in *. cbn [save_loop]. rewrite <- Hid, <- Hf, <- Hr, (eqb_empty_iff _ _ (proj1 Hk)).
  destruct (String.eqb (APIKey q) ""); cbn [negb].
  - rewrite (Ht (providerSecretRef (rq_ID p)) (s_read_fails e) (rq_ID p)). by apply IH.
  - destruct (store_shows lb t1 t2 (providerSecretRef (rq_ID p)) _ _ _ _ (s_fault e) Hc Ht Hk Hn) as [He Ht'].
    destruct (StoreSecret lb t1 _ _ _ _) as [u1 [x|]], (StoreSecret lb t2 _ _ _ _) as [u2 [y|]]; cbn in He, Ht'; try done.
    rewrite (proj2 Hk). by apply IH.
Qed.

Lemma alike_ids ps qs : Forall2 alike_rq ps qs → rq_ID <$> ps.*1 = rq_ID <$> qs.*1.
Proof. induction 1 as [|? ? ? ? (H & _) _ IH]; [done|]. cbn. by rewrite H, IH. Qed.

(** C12: no key leaves the server: what the provider page answers, to whatever
    sequence of requests, and what goes to the audit log depend on the keys only
    through their masks; two servers whose users typed different keys with the same
    masks cannot be told apart. *)
Theorem providers_leak_nothing lb audit user h remote ps qs : ∀ t1 t2,
  cipher_ok lb = true → shows lb t1 t2 → Forall2 alike_page ps qs →
  visits lb audit user h remote t1 ps = visits lb audit user h remote t2 qs.
Proof using Type Open_Seal.
  intros t1 t2 Hc Ht Hps. revert t1 t2 Ht. induction Hps as [|p q ps qs Hp _ IH]; intros t1 t2 Ht; [done|].
  destruct p as [f|xs], q as [g|ys]; try done; cbn [alike_page] in Hp.
  - subst g. cbn. rewrite (IH t1 t2) by done. do 2 f_equal. unfold handleGetProviders. do 2 f_equal.
    cbn [knownProviders fmap list_fmap]. by rewrite !(Ht _ _ _).
  - destruct (save_shows lb xs ys Hp t1 t2 [] Hc Ht) as [Hr Ht']. apply alike_ids in Hp.
    cbn [visits visit]. unfold handleProviderConfig. cbn -[save_loop]. unfold handleSaveProviders. rewrite <- Hp.
    destruct (save_loop lb t1 xs []) as [u1 r1], (save_loop lb t2 ys []) as [u2 r2]. cbn in Hr, Ht'. rewrite Hr.
    destruct r2; by rewrite (IH u1 u2).
Qed.

Lemma substring_app_l a b : substring 0 (String.length a) (a +:+ b) = a.
Proof. induction a as [|c a IH]; [by destruct b|].
  change (String c a +:+ b) with (String c (a +:+ b)). cbn [substring String.length]. by rewrite IH.
Qed.
Lemma substring_app_r a b n : substring (String.length a) n (a +:+ b) = substring 0 n b.
Proof. induction a as [|c a IH]; [done|]. exact IH. Qed.

Lemma substring_all a : substring 0 (String.length a) a = a.
Proof. rewrite <- (Str.app_nil_str a) at 2. apply substring_app_l. Qed.

Lemma mask_parts pre mid suf : String.length pre = 3%nat → String.length suf = 4%nat → (1 < String.length mid)%nat →
  maskAPIKey (pre +:+ mid +:+ suf) = pre +:+ "..." +:+ suf.
Proof.
  intros Hp Hs Hm. unfold maskAPIKey. rewrite !Str.length_app, Hp, Hs.
  destruct (Nat.leb_spec (3 + (String.length mid + 4)) 8); [lia|].
  assert (substring 0 3 (pre +:+ mid +:+ suf) = pre) as -> by (rewrite <- Hp; apply substring_app_l).
  replace (3 + (String.length mid + 4) - 4)%nat with (String.length (pre +:+ mid)) by (rewrite Str.length_app; lia).
  rewrite <- (Str.app_assoc_str pre mid suf), substring_app_r, <- Hs. by rewrite substring_all.
Qed.
(** Keys of more than eight bytes with the same three first and four last ones look alike. *)
Lemma alike_middle pre mid mid' suf : String.length pre = 3%nat → String.length suf = 4%nat →
  (1 < String.length mid)%nat → (1 < String.length mid')%nat →
  alike (pre +:+ mid +:+ suf) (pre +:+ mid' +:+ suf).
Proof. intros Hp Hs Hm Hm'. split; [by destruct pre|]. by rewrite !mask_parts. Qed.

(** no secret can be brokered: whatever is asked of the page of scopes, no scope
    is ever created (secret_ref has no value and no default), so that on a new
    database every lookup that comes to an end finds no secret. *)
Theorem scopes_cannot_be_created satellites reqs b t provider sat f1 f2 f3 :
  (∀ l, arrange l ≡ₚ l) → f1 ≠ LookupCancelled → f2 ≠ LookupCancelled →
  let request (s : gmap N SecretScope) '(method, req, id, fails) :=
    (handleSecretsAPI true true satellites s "/api/v1/secrets" method req id fails QueryOk).1 in
  foldl request ∅ reqs = ∅ ∧ broker_FetchSecret b (foldl request ∅ reqs) t provider sat f1 f2 f3 = Err ErrSecretNotFound.
Proof.
  intros Ha H1 H2 request.
  assert (∀ s r, request s r = s) as Hr.
  { intros s [[[method req] id] fails]. unfold request, handleSecretsAPI. cbn [negb].
    destruct (_ && _); [done|]. destruct (_ && _); [|done]. unfold HandleCreateSecretScope. cbn [negb].
    destruct req as [rq|]; [|done]. by destruct (String.eqb (cs_Provider rq) ""). }
  assert (foldl request ∅ reqs = ∅) as -> by (induction reqs as [|r reqs IH]; [done|]; cbn [foldl]; by rewrite Hr).
  split; [done|]. unfold broker_FetchSecret.
  assert (∀ s f, f ≠ LookupCancelled → findScope ∅ provider s f = Ok None) as Hf.
  { intros s f Hf. unfold findScope. rewrite map_to_list_empty. cbn.
    assert (arrange [] = []) as -> by (apply Permutation_nil_r; by rewrite Ha). by destruct f. }
  by rewrite !Hf.
Qed.
End Local.

(** ** Concrete inputs *)

(** A digest of 32 bytes, and a cipher that prefixes the key and the nonce. *)
Definition demo_sum (x : string) : string := substring 0 32 (x +:+ Repeat "." 32).
Definition demo_seal (k n p : string) : string := k +:+ n +:+ p.
Definition demo_open (k n c : string) : option string := Str.strip_prefix c k ≫= λ c', Str.strip_prefix c' n.
Lemma demo_open_seal k n p : demo_open k n (demo_seal k n p) = Some p.
Proof. unfold demo_open, demo_seal. rewrite Str.strip_prefix_app. cbn. apply Str.strip_prefix_app. Qed.

Lemma substring_length n : ∀ s, (n <= String.length s)%nat → String.length (substring 0 n s) = n.
Proof.
  induction n as [|n IH]; intros s Hs; [by destruct s|]. destruct s as [|c s]; cbn in Hs |- *; [lia|]. rewrite IH; lia.
Qed.
Lemma demo_sum_length x : String.length (demo_sum x) = 32%nat.
Proof.
  unfold demo_sum. apply substring_length. rewrite Str.length_app. change (String.length (Repeat "." 32)) with 32%nat. lia.
Qed.
Lemma strip_prefix_other k k' x : String.length k = String.length k' → k ≠ k' → Str.strip_prefix (k +:+ x) k' = None.
Proof.
  revert k'. induction k as [|c k IH]; intros [|c' k'] Hl Hne; try done. cbn in Hl.
  change (String c k +:+ x) with (String c (k +:+ x)). cbn [Str.strip_prefix].
  destruct (Ascii.eqb_spec c' c) as [->|]; [|done]. apply IH; [lia|congruence].
Qed.
Lemma demo_auth k k' n p : String.length k = String.length k' → k ≠ k' → demo_open k' n (demo_seal k n p) = None.
Proof. intros. unfold demo_open, demo_seal. by rewrite strip_prefix_other. Qed.

Definition demo_key (c : string) : string := Repeat c 32.
Definition demo_calls : list call :=
  [CFetch "a" false; CStore "a" "v1" (Some "n1"%string) NoFault; CStore "b" "w" None NoFault; CStore "a" "v2" (Some "n2"%string) AckLost;
   CFetch "a" false; CFetch "a" true; CDelete "b" NoFault; CDelete "a" NoFault; CFetch "a" false].

Lemma store_refines_map_witness :
  performs demo_sum demo_seal demo_open (mkBackend (demo_key "k")) ∅ demo_calls =
    [Err NotFound; Ok ""; Err CryptoFails; Err StoreFails; Ok "v2"; Err NotFound; Err NotFound; Ok ""; Err NotFound]%string.
Proof.
  rewrite (store_refines_map demo_sum demo_seal demo_open demo_open_seal (λ r, r = "a" ∨ r = "b")%string
    (mkBackend (demo_key "k")) ∅ ∅ demo_calls).
  - reflexivity.
  - intros r [->| ->]; done.
  - intros r r' [->| ->] [->| ->] H; try done; vm_compute in H; discriminate.
  - reflexivity.
  - intros r _. by rewrite !lookup_empty.
  - unfold demo_calls. repeat (apply Forall_cons_2; [cbn; auto|]). apply Forall_nil_2.
Defined.

(** Without DAAO_SECRET_KEY the broker cannot read what the provider page stored. *)
Lemma backends_agree_witness :
  FetchSecret demo_sum demo_open (mkBackend (demo_key "x"))
    (StoreSecret demo_sum demo_seal (mkBackend (demo_key "y")) ∅ "provider_api_key:openai" "sk-1" (Some "n"%string) NoFault).1
    "provider_api_key:openai" false = Err CryptoFails.
Proof.
  apply (backends_agree demo_sum demo_seal demo_open demo_open_seal "" (demo_key "y") (demo_key "x") (mkBackend (demo_key "y"))
    (mkBackend (demo_key "x")) ∅ "provider_api_key:openai" "sk-1" "n" demo_sum_length demo_auth); try done; vm_compute; congruence.
Defined.

Definition demo_save (key nonce : string) : page :=
  PPut [(mkProviderRequest "openai" key, mkSaveEnv (Some nonce) NoFault false); (mkProviderRequest "google" "", mkSaveEnv None NoFault false)].
Lemma providers_leak_nothing_witness :
  let visits := visits demo_sum demo_seal demo_open (λ _, None) (mkBackend (demo_key "k")) true None (λ _, ""%string) "1.2.3.4:5" ∅ in
  visits [demo_save "sk-secret-abcd" "n1"; PGet (λ _, false)] = visits [demo_save "sk-another-1-abcd" "n2"; PGet (λ _, false)] ∧
  match visits [demo_save "sk-secret-abcd" "n1"; PGet (λ _, false)] with
  | [(r, Some a); _] => r = mkResponse 200 (PProviders [mkProviderResponse "openai" "sk-...abcd" true; mkProviderResponse "google" "" false])
  | _ => False
  end.
Proof.
  intros v. split; [|vm_compute; reflexivity].
  apply (providers_leak_nothing demo_sum demo_seal demo_open (λ _, None) demo_open_seal); [reflexivity|done|].
  repeat constructor; cbn; try done; try (intros; by eexists).
Defined.

Lemma scopes_cannot_be_created_witness :
  broker_FetchSecret demo_sum demo_open id (mkBroker (mkBackend (demo_key "k")))
    (foldl (λ s '(method, req, id_, fails), (handleSecretsAPI (λ _, None) (λ _, true) id true true {[1%N]} s "/api/v1/secrets" method req
      id_ fails QueryOk).1) ∅ [("POST", Some (mkCreateScope None "openai" ""), 5%N, false)]%string)
    ∅ "openai" 1 LookupOk LookupOk false = Err ErrSecretNotFound.
Proof.
  apply (scopes_cannot_be_created demo_sum demo_open id (λ _, None) (λ _, true) id {[1%N]}
    [("POST", Some (mkCreateScope None "openai" ""), 5%N, false)]%string); done.
Defined.
End Secrets.
