(* ===== verification/DeviceCode.v ===== *)
(** * internal/auth/devicecode.go: the device code flow

    The store with its two indexes of shared entries, the codes and how they are
    drawn, the flow with the provider, and the tokens. Random bytes, the clock and
    what the provider answers are arguments; signing and parsing a token are
    parameters. Case is folded for ASCII, of which the codes consist. *)
From Stdlib Require Import Ascii String.
From S2P Require Import Prelude GoStrings Base64.
From S2P Require Import Json.
Import Json.
#[local] Open Scope Z_scope.
#[local] Set Default Proof Using "Type".

Module DeviceCodes.

Definition UserCodeLength : nat := 8.
Definition Second : Z := 1000000000.
Definition DeviceCodeExpiry : Z := 5 * 60 * Second.
Definition PollingInterval : Z := 5 * Second.

Record OAuthProvider := mkProvider { is_google : bool; ClientID : string; ClientSecret : string; Scopes : option (list string) }.
Definition GetDeviceAuthorizationEndpoint (p : OAuthProvider) : string :=
  if is_google p then "https://oauth2.googleapis.com/device/code" else "https://github.com/login/device/code".
Definition GetTokenEndpoint (p : OAuthProvider) : string :=
  if is_google p then "https://oauth2.googleapis.com/token" else "https://github.com/login/oauth/access_token".
Definition GetScopes (p : OAuthProvider) : list string :=
  match Scopes p with
  | Some s => s
  | None => if is_google p
            then ["https://www.googleapis.com/auth/userinfo.email"; "https://www.googleapis.com/auth/userinfo.profile"]%string
            else ["read:user"; "user:email"]%string
  end.
Definition GetUserCodeChars (p : OAuthProvider) : string :=
  if is_google p then "BCDFGHJKLMNPQRSTVWXZ23456789" else "BCDFGHJKLMNPQRSTVWXZ".

Record DeviceCode := mkCode {
  code : string; UserCode : string; VerificationURI : string; VerificationURIComplete : string; ExpiresIn : Z; Interval : Z;
  Provider : OAuthProvider; Status : string; CreatedAt : Z;
}.
(** The entries are shared by the two indexes and by the callers. *)
Record DeviceCodeStore := mkStore { codes : gmap string N; userCodes : gmap string N; heap : gmap N DeviceCode }.
Definition NewDeviceCodeStore : DeviceCodeStore := mkStore ∅ ∅ ∅.

(** ** Drawing the codes; [None]: rand.Read fails *)

Definition generateRandomInt (max : Z) (byte : option Z) : option (go Z) := (λ b, go_rem b max) <$> byte.
Definition generateRandomString (length : nat) (bytes : option string) : option string :=
  (λ b, substring 0 length (Base64.EncodeToString Base64.URLEncoding b)) <$> bytes.
(** [n] characters; [rnd i]: the byte of read [i]. *)
Fixpoint draw (chars : string) (rnd : nat → option Z) (i n : nat) : option string :=
  match n with
  | O => Some EmptyString
  | S n' =>
      match generateRandomInt (Z.of_nat (String.length chars)) (rnd i) with
      | Some (Ret idx) =>
          match String.get (Z.to_nat idx) chars, draw chars rnd (S i) n' with
          | Some c, Some s => Some (String c s) | _, _ => None end
      | _ => None
      end
  end.
Definition default_chars : string := "BCDFGHJKLMNPQRSTVWXZ23456789".
Definition generateUserCode (chars : string) (rnd : nat → option Z) : option string :=
  let chars := if (String.length chars =? 0)%nat then default_chars else chars in
  (λ r, substring 0 4 r +:+ "-" +:+ substring 4 (UserCodeLength - 4) r) <$> draw chars rnd 0 UserCodeLength.

(** ** The store *)

Inductive store_error := NotFound | Expired.

Definition GenerateDeviceCode (s : DeviceCodeStore) (p : OAuthProvider) (base : string) (bytes : option string)
    (rnd : nat → option Z) (now : Z) : DeviceCodeStore * option N :=
  match generateRandomString 32 bytes, generateUserCode (GetUserCodeChars p) rnd with
  | Some deviceCode, Some userCode =>
      let dc := mkCode deviceCode userCode base (base +:+ "?user_code=" +:+ userCode) (DeviceCodeExpiry / Second)
                  (PollingInterval / Second) p "pending" now in
      let ref := fresh (dom (heap s)) in
      (mkStore (<[deviceCode := ref]> (codes s)) (<[userCode := ref]> (userCodes s)) (<[ref := dc]> (heap s)), Some ref)
  | _, _ => (s, None)
  end.

Definition set_status (dc : DeviceCode) (st : string) : DeviceCode :=
  mkCode (code dc) (UserCode dc) (VerificationURI dc) (VerificationURIComplete dc) (ExpiresIn dc) (Interval dc) (Provider dc) st (CreatedAt dc).
Definition alter_code (s : DeviceCodeStore) (ref : N) (f : DeviceCode → DeviceCode) : DeviceCodeStore :=
  mkStore (codes s) (userCodes s) (alter f ref (heap s)).

(** The entry behind [ref], marked if it is too old. *)
Definition get (s : DeviceCodeStore) (ref : option N) (now : Z) : DeviceCodeStore * result store_error N :=
  match ref with
  | None => (s, Err NotFound)
  | Some ref =>
      match heap s !! ref with
      | None => (s, Err NotFound)
      | Some dc => if DeviceCodeExpiry <? now - CreatedAt dc then (alter_code s ref (λ d, set_status d "expired"), Err Expired)
                   else (s, Ok ref)
      end
  end.
Definition GetByDeviceCode (s : DeviceCodeStore) (deviceCode : string) (now : Z) := get s (codes s !! deviceCode) now.
Definition GetByUserCode (s : DeviceCodeStore) (userCode : string) (now : Z) := get s (userCodes s !! Str.ToUpper userCode) now.
Definition UpdateStatus (s : DeviceCodeStore) (deviceCode status : string) : DeviceCodeStore * option store_error :=
  match codes s !! deviceCode with
  | None => (s, Some NotFound)
  | Some ref => (alter_code s ref (λ d, set_status d status), None)
  end.

(** ** The flow *)

Definition urlEncode (s : string) : string := Str.ReplaceAll (Str.ReplaceAll s "+" "%2B") " " "%20".
Fixpoint Join (sep : string) (l : list string) : string :=
  match l with [] => EmptyString | [x] => x | x :: l' => x +:+ sep +:+ Join sep l' end.

(** A body of the form a=1&b=2; a pair with another "=" is skipped. *)
Definition form_pair (m : gmap string string) (v : string) : gmap string string :=
  match Str.Split v "=" with [k; x] => <[k := x]> m | _ => m end.
Definition parse_form (body : string) : gmap string string := foldl form_pair ∅ (Str.Split body "&").
Definition scan_into (old : Z) (v : option string) : Z := match v with Some x => default old (Str.Sscanf_d x) | None => old end.
Definition update_code (dc : DeviceCode) (m : gmap string string) : DeviceCode :=
  mkCode (default (code dc) (m !! "device_code"%string)) (UserCode dc) (default (VerificationURI dc) (m !! "verification_uri"%string))
    (default (VerificationURIComplete dc) (m !! "verification_uri_complete"%string))
    (scan_into (ExpiresIn dc) (m !! "expires_in"%string)) (scan_into (Interval dc) (m !! "interval"%string))
    (Provider dc) (Status dc) (CreatedAt dc).

(** An answer of the provider: [None] where the request fails, [form] where the
    body cannot be read. *)
Record AuthReply := mkAuthReply { a_status : Z; form : option string }.
Definition base_url (p : OAuthProvider) (base : string) : string :=
  if String.eqb base "" then
    if is_google p then "https://accounts.google.com/o/oauth2/device/code" else "https://github.com/login/device"
  else base.
Definition authorization_body (p : OAuthProvider) : string :=
  "client_id=" +:+ urlEncode (ClientID p) +:+ "&scope=" +:+ urlEncode (Join " " (GetScopes p)).
Definition Initiate (s : DeviceCodeStore) (p : OAuthProvider) (base : string) (bytes : option string) (rnd : nat → option Z) (now : Z)
    (reply : string → string → option AuthReply) : DeviceCodeStore * option N :=
  match GenerateDeviceCode s p (base_url p base) bytes rnd now with
  | (s', None) => (s', None)
  | (s', Some ref) =>
      match reply (GetDeviceAuthorizationEndpoint p) (authorization_body p) with
      | None => (s', Some ref)
      | Some r =>
          if a_status r =? 200 then
            match form r with
            | Some body => (alter_code s' ref (λ dc, update_code dc (parse_form body)), Some ref)
            | None => (s', Some ref)
            end
          else (s', Some ref)
      end
  end.

Record TokenResponse := mkToken {
  AccessToken : string; TokenType : string; t_ExpiresIn : Z; RefreshToken : string; Scope : string; IDToken : string;
}.
Definition decode_token : list (string * json) → TokenResponse * bool :=
  field "access_token" decode_string ""%string (field "token_type" decode_string ""%string (field "expires_in" decode_int 0
    (field "refresh_token" decode_string ""%string (field "scope" decode_string ""%string (field "id_token" decode_string ""%string
      (struct (λ i s r e t a, mkToken a t e r s i))))))).
(** The answer of the token endpoint: the first JSON value of the body, and what
    a second decoder finds in what the first one has not read; [None]: none. *)
Record TokenReply := mkTokenReply { t_status : Z; first_value : option json; second_value : option json }.
Inductive poll_error := StoreError (e : store_error) | CodeExpired | RequestFails | DecodeFails | authorization_pending.

Definition token_body (p : OAuthProvider) (deviceCode : string) : string :=
  "client_id=" +:+ urlEncode (ClientID p) +:+ "&client_secret=" +:+ urlEncode (ClientSecret p) +:+ "&device_code=" +:+
  urlEncode deviceCode +:+ "&grant_type=urn:ietf:params:oauth:grant-type:device_code".
Definition exchangeToken (dc : DeviceCode) (reply : string → string → option TokenReply) : result poll_error TokenResponse :=
  match reply (GetTokenEndpoint (Provider dc)) (token_body (Provider dc) (code dc)) with
  | None => Err RequestFails
  | Some r => match unmarshal decode_token (first_value r) with None => Err DecodeFails | Some t => Ok t end
  end.
Definition decode_error : list (string * json) → string * bool := field "error" decode_string ""%string (struct (λ e, e)).
Definition PollToken (s : DeviceCodeStore) (deviceCode : string) (now : Z) (reply : string → string → option TokenReply)
    : DeviceCodeStore * result poll_error TokenResponse :=
  match GetByDeviceCode s deviceCode now with
  | (s', Err e) => (s', Err (StoreError e))
  | (s', Ok ref) =>
      match heap s' !! ref with
      | None => (s', Err (StoreError NotFound))
      | Some dc =>
          if String.eqb (Status dc) "expired" then (s', Err CodeExpired) else
          if String.eqb (Status dc) "authorized" then (s', exchangeToken dc reply) else
          (s', match reply (GetTokenEndpoint (Provider dc)) (token_body (Provider dc) deviceCode) with
               | None => Err RequestFails
               | Some r =>
                   match unmarshal decode_token (first_value r) with
                   | None => Err DecodeFails
                   | Some t =>
                       if (t_status r =? 400) &&
                          bool_decide (unmarshal decode_error (second_value r) = Some "authorization_pending"%string)
                       then Err authorization_pending else Ok t
                   end
               end)
      end
  end.

(** ** Tokens *)

Record JWTClaims := mkClaims { Issuer : string; IssuedAt : option Z; ExpiresAt : option Z; Subject : string; c_Scopes : string; c_Provider : string }.
Record TokenIssuer := mkIssuer { signingKey : string; issuer : string; defaultTTL : Z }.
Definition NewTokenIssuer (key iss : string) : TokenIssuer := mkIssuer key iss (24 * 3600).
Section Tokens.
Variable SignedString : JWTClaims → string → option string.
(** ParseWithClaims with the key, at a time: the claims of a valid token. *)
Variable ParseWithClaims : string → string → Z → option JWTClaims.
(** The claims are the caller's: they are filled in. *)
Definition fill (ti : TokenIssuer) (c : JWTClaims) (now : Z) : JWTClaims :=
  mkClaims (if String.eqb (Issuer c) "" then issuer ti else Issuer c)
    (Some (default now (IssuedAt c))) (Some (default (now + defaultTTL ti) (ExpiresAt c))) (Subject c) (c_Scopes c) (c_Provider c).
Definition IssueToken (ti : TokenIssuer) (c : JWTClaims) (now : Z) : JWTClaims * option string :=
  let c' := fill ti c now in (c', SignedString c' (signingKey ti)).
Definition ValidateToken (ti : TokenIssuer) (token : string) (now : Z) : option JWTClaims := ParseWithClaims token (signingKey ti) now.
End Tokens.

(** ** What the codes look like *)

Lemma get_contains c s i : String.get i s = Some c → Str.ContainsByte s c = true.
Proof.
  revert i. induction s as [|a s IH]; intros i; [done|]. destruct i as [|i]; cbn.
  - intros [= ->]. by rewrite Ascii.eqb_refl.
  - intros H. by rewrite (IH _ H), orb_true_r.
Qed.

Fixpoint all_in (chars s : string) : bool :=
  match s with EmptyString => true | String c s' => Str.ContainsByte chars c && all_in chars s' end.
Lemma all_in_upper chars s : all_in chars s = true → Str.ToUpper chars = chars → Str.ToUpper s = s.
Proof.
  intros H Hc. induction s as [|c s IH]; [done|]. cbn [all_in] in H. apply andb_prop in H as [H1 H2].
  cbn [Str.ToUpper]. rewrite (IH H2). f_equal. clear -H1 Hc. induction chars as [|a chars IH]; [done|].
  cbn [Str.ContainsByte] in H1. cbn [Str.ToUpper] in Hc. injection Hc as Ha Hc.
  destruct (Ascii.eqb_spec a c) as [->|]; [done|]. by apply IH.
Qed.

Lemma ToUpper_app s t : Str.ToUpper (s +:+ t) = Str.ToUpper s +:+ Str.ToUpper t.
Proof.
  induction s as [|c s IH]; [done|]. change (String c s +:+ t) with (String c (s +:+ t)). cbn [Str.ToUpper]. by rewrite IH.
Qed.

Lemma draw_ok chars rnd n : ∀ i s, draw chars rnd i n = Some s → String.length s = n ∧ all_in chars s = true.
Proof.
  induction n as [|n IH]; intros i s; cbn [draw]; [by intros [= <-]|].
  destruct (generateRandomInt _ _) as [[idx|]|]; try done. destruct (String.get (Z.to_nat idx) chars) as [c|] eqn:Hc; [|done].
  destruct (draw chars rnd (S i) n) as [r|] eqn:Hr; [|done]. intros [= <-]. apply IH in Hr as [H1 H2].
  cbn. by rewrite H1, H2, (get_contains _ _ _ Hc).
Qed.

(** Reading random bytes, the draw panics in no case: every index is in range. *)
Lemma draw_total chars rnd n : chars ≠ ""%string → (∀ i, ∃ b, rnd i = Some b ∧ 0 <= b < 256) → ∀ i, is_Some (draw chars rnd i n).
Proof.
  intros Hc Hr. induction n as [|n IH]; intros i; [by eexists|]. cbn [draw]. destruct (Hr i) as (b & -> & Hb).
  assert (0 < Z.of_nat (String.length chars)) as Hpos by (destruct chars; cbn; [done|lia]).
  cbn [generateRandomInt fmap option_fmap option_map]. rewrite go_rem_mod by lia.
  pose proof (Z.mod_pos_bound b (Z.of_nat (String.length chars)) Hpos) as Hi.
  destruct (String.get _ chars) as [c|] eqn:Hg.
  - destruct (IH (S i)) as [s ->]. by eexists.
  - exfalso. clear -Hi Hg. set (j := Z.to_nat _) in Hg. assert (j < String.length chars)%nat as Hj by lia. clearbody j. clear Hi.
    revert j Hg Hj. induction chars as [|a chars IH]; intros [|j] Hg Hj; cbn in *; try lia; try done. apply (IH j); [done|lia].
Qed.

(** a user code is four characters of the provider's alphabet, a dash, and
    four more; it is there whenever the random bytes are, and what the user types
    in lower case is found. *)
Theorem user_code_format p rnd :
  (∀ i, ∃ b, rnd i = Some b ∧ 0 <= b < 256) →
  ∃ a b, generateUserCode (GetUserCodeChars p) rnd = Some (a +:+ "-" +:+ b) ∧
    String.length a = 4%nat ∧ String.length b = 4%nat ∧
    all_in (GetUserCodeChars p) a = true ∧ all_in (GetUserCodeChars p) b = true ∧
    Str.ToUpper (a +:+ "-" +:+ b) = a +:+ "-" +:+ b.
Proof.
  intros Hr. unfold generateUserCode. assert (GetUserCodeChars p ≠ ""%string ∧ Str.ToUpper (GetUserCodeChars p) = GetUserCodeChars p ∧
    (String.length (GetUserCodeChars p) =? 0)%nat = false) as (Hne & Hup & ->) by (unfold GetUserCodeChars; by destruct (is_google p)).
  destruct (draw_total _ rnd UserCodeLength Hne Hr 0%nat) as [s Hs]. rewrite Hs. cbn [fmap option_fmap option_map].
  apply draw_ok in Hs as [Hl Ha]. generalize dependent (GetUserCodeChars p). intros chars _ Hup Ha.
  destruct s as [|c1 [|c2 [|c3 [|c4 [|c5 [|c6 [|c7 [|c8 [|]]]]]]]]]; try discriminate Hl. cbn [all_in] in Ha.
  repeat (apply andb_prop in Ha as [? Ha]).
  set (u := String c1 (String c2 (String c3 (String c4 "")))). set (v := String c5 (String c6 (String c7 (String c8 "")))).
  exists u, v.
  assert (all_in chars u = true ∧ all_in chars v = true) as [Hu Hv]
    by (unfold u, v; cbn [all_in]; rewrite !andb_true_iff; split_and!; done).
  split; [reflexivity|]. split_and!; try done. rewrite !ToUpper_app. by rewrite (all_in_upper chars u), (all_in_upper chars v).
Qed.

(** How often each character comes: a byte modulo the alphabet favours the first
    ones, thirteen to twelve for GitHub and ten to nine for Google. *)
Definition drawn_as (n : Z) (i : Z) (b : Z) : bool :=
  match generateRandomInt n (Some b) with Some (Ret j) => j =? i | _ => false end.
Example draw_bias :
  let count n i := length (List.filter (drawn_as n i) (seqZ 0 256)) in
  count 20 0 = 13%nat ∧ count 20 15 = 13%nat ∧ count 20 16 = 12%nat ∧
  count 28 0 = 10%nat ∧ count 28 3 = 10%nat ∧ count 28 4 = 9%nat.
Proof. split_and!; vm_compute; reflexivity. Qed.

(** ** The life of a code *)

Inductive call :=
  | CGenerate (p : OAuthProvider) (base : string) (bytes : option string) (rnd : nat → option Z) (now : Z)
  | CInitiate (p : OAuthProvider) (base : string) (bytes : option string) (rnd : nat → option Z) (now : Z)
      (reply : string → string → option AuthReply)
  | CDevice (c : string) (now : Z)
  | CUser (c : string) (now : Z)
  | CStatus (c status : string)
  | CPoll (c : string) (now : Z) (reply : string → string → option TokenReply).
Definition perform (s : DeviceCodeStore) (c : call) : DeviceCodeStore :=
  match c with
  | CGenerate p base bytes rnd now => (GenerateDeviceCode s p base bytes rnd now).1
  | CInitiate p base bytes rnd now reply => (Initiate s p base bytes rnd now reply).1
  | CDevice c now => (GetByDeviceCode s c now).1
  | CUser c now => (GetByUserCode s c now).1
  | CStatus c st => (UpdateStatus s c st).1
  | CPoll c now reply => (PollToken s c now reply).1
  end.
(** The call draws neither of the two codes. *)
Definition draws_other (d u : string) (c : call) : Prop :=
  match c with
  | CGenerate p _ bytes rnd _ | CInitiate p _ bytes rnd _ _ =>
      generateRandomString 32 bytes ≠ Some d ∧ generateUserCode (GetUserCodeChars p) rnd ≠ Some u
  | _ => True
  end.

Record holds (s : DeviceCodeStore) (d u : string) (ref : N) (born : Z) : Prop := {
  h_code : codes s !! d = Some ref;
  h_user : userCodes s !! u = Some ref;
  h_entry : CreatedAt <$> heap s !! ref = Some born;
}.

Lemma alter_holds s d u ref born r f : (∀ x, CreatedAt (f x) = CreatedAt x) →
  holds s d u ref born → holds (alter_code s r f) d u ref born.
Proof.
  intros Hf [H1 H2 H3]. split; [done|done|]. cbn. destruct (decide (r = ref)) as [->|Hne].
  - rewrite lookup_alter_eq. destruct (heap s !! ref) as [x|]; [|done]. cbn in *. by rewrite Hf.
  - by rewrite lookup_alter_ne.
Qed.

Lemma get_holds s d u ref born o now : holds s d u ref born → holds (get s o now).1 d u ref born.
Proof.
  intros H. unfold get. destruct o as [r|]; [|done]. destruct (heap s !! r); [|done].
  destruct (_ <? _); [|done]. by apply alter_holds.
Qed.

Lemma generate_holds s d u ref born p base bytes rnd now :
  generateRandomString 32 bytes ≠ Some d → generateUserCode (GetUserCodeChars p) rnd ≠ Some u →
  holds s d u ref born → holds (GenerateDeviceCode s p base bytes rnd now).1 d u ref born.
Proof.
  intros Hd Hu [H1 H2 H3]. unfold GenerateDeviceCode. destruct (generateRandomString 32 bytes) as [d'|]; [|done].
  destruct (generateUserCode _ rnd) as [u'|]; [|done]. cbn [fst]. split; cbn [codes userCodes heap].
  - rewrite lookup_insert_ne; congruence.
  - rewrite lookup_insert_ne; congruence.
  - rewrite lookup_insert_ne; [done|]. intros Hr. assert (fresh (dom (heap s)) ∉ dom (heap s)) as Hf by apply is_fresh.
    apply Hf. rewrite Hr. apply elem_of_dom. destruct (heap s !! ref); [by eexists|done].
Qed.

Lemma perform_holds s d u ref born c : draws_other d u c → holds s d u ref born → holds (perform s c) d u ref born.
Proof.
  destruct c as [p base bytes rnd now|p base bytes rnd now reply|c now|c now|c st|c now reply]; cbn [draws_other perform]; intros Hd H.
  - destruct Hd as [Hd Hu]. by apply generate_holds.
  - destruct Hd. unfold Initiate. pose proof (generate_holds s d u ref born p (base_url p base) bytes rnd now) as Hg.
    destruct (GenerateDeviceCode s p (base_url p base) bytes rnd now) as [s' [r|]]; [|by apply Hg].
    destruct (reply _ _) as [[st [body|]]|]; cbn [a_status form]; try destruct (st =? 200); try by apply Hg.
    apply alter_holds; [done|by apply Hg].
  - by apply get_holds.
  - by apply get_holds.
  - unfold UpdateStatus. destruct (codes s !! c); [|done]. by apply alter_holds.
  - unfold PollToken, GetByDeviceCode. pose proof (get_holds s d u ref born (codes s !! c) now H) as Hg.
    destruct (get s (codes s !! c) now) as [s' [r|e]]; [|done]. destruct (heap s' !! r) as [dc|]; [|done].
    by destruct (String.eqb (Status dc) "expired"), (String.eqb (Status dc) "authorized").
Qed.

Lemma performs_hold d u ref born cs : ∀ s, Forall (draws_other d u) cs → holds s d u ref born →
  holds (foldl perform s cs) d u ref born.
Proof. induction cs as [|c cs IH]; intros s Hcs H; [done|]. apply Forall_cons in Hcs as [? ?]. apply IH; [done|by apply perform_holds]. Qed.

Lemma get_held s ref born o now : o = Some ref → CreatedAt <$> heap s !! ref = Some born →
  (get s o now).2 = if DeviceCodeExpiry <? now - born then Err Expired else Ok ref.
Proof.
  intros -> H. unfold get. destruct (heap s !! ref) as [dc|]; [|done]. cbn in H. injection H as ->. by destruct (_ <? _).
Qed.

(** a code lives for five minutes: whatever is generated, looked up, polled or
    updated meanwhile, as long as nobody draws the same code again, both codes lead
    to the one entry, the user's in any case of letters; after five minutes both
    are expired, for good. *)
Theorem codes_live_five_minutes s p base bytes rnd born s1 ref d u cs now typed :
  GenerateDeviceCode s p base bytes rnd born = (s1, Some ref) →
  generateRandomString 32 bytes = Some d → generateUserCode (GetUserCodeChars p) rnd = Some u →
  Forall (draws_other d u) cs → Str.ToUpper typed = u →
  let answer := if DeviceCodeExpiry <? now - born then Err Expired else Ok ref in
  (GetByDeviceCode (foldl perform s1 cs) d now).2 = answer ∧ (GetByUserCode (foldl perform s1 cs) typed now).2 = answer.
Proof.
  intros Hg Hd Hu Hcs Ht. assert (holds s1 d u ref born) as H.
  { revert Hg. unfold GenerateDeviceCode. rewrite Hd, Hu. intros [= <- <-]. by split; cbn; rewrite ?lookup_insert_eq. }
  apply (performs_hold _ _ _ _ cs) in H as [H1 H2 H3]; [|done]. unfold GetByDeviceCode, GetByUserCode. rewrite Ht.
  split; by apply get_held.
Qed.

(** ** The flow cannot be completed *)

(** the provider's code is never found: once the provider has answered with its
    own device code, that is the code the caller gets, but the store knows the
    entry under the one it drew itself, and polling with the code of the answer
    fails, at any time and whatever the provider says. *)
Theorem provider_code_unknown s p base bytes rnd now reply body d s' ref t reply' :
  reply (GetDeviceAuthorizationEndpoint p) (authorization_body p) = Some (mkAuthReply 200 (Some body)) →
  parse_form body !! "device_code"%string = Some d →
  Initiate s p base bytes rnd now reply = (s', Some ref) →
  codes s !! d = None → generateRandomString 32 bytes ≠ Some d →
  code <$> heap s' !! ref = Some d ∧ PollToken s' d t reply' = (s', Err (StoreError NotFound)).
Proof.
  intros Hr Hf Hi Hd Hb. revert Hi. unfold Initiate. rewrite Hr. unfold GenerateDeviceCode.
  destruct (generateRandomString 32 bytes) as [d'|]; [|done]. destruct (generateUserCode _ rnd) as [u'|]; [|done].
  intros [= <- <-]. split.
  - cbn. rewrite lookup_alter_eq, lookup_insert_eq. cbn. by rewrite Hf.
  - unfold PollToken, GetByDeviceCode. cbn [codes alter_code]. rewrite lookup_insert_ne by congruence. by rewrite Hd.
Qed.

(** "authorization_pending" is taken for a token: while the user has not agreed
    the token endpoint answers 400 with an error object; the first decoder has
    consumed it, the second finds nothing, and the caller gets a token response
    with no token in it and no error. *)
Theorem pending_is_a_token s d now reply ref dc o st :
  GetByDeviceCode s d now = (s, Ok ref) → heap s !! ref = Some dc → Status dc = "pending"%string →
  reply (GetTokenEndpoint (Provider dc)) (token_body (Provider dc) d) = Some (mkTokenReply st (Some (JObject o)) None) →
  Forall (λ kv, Forall (λ n, same_fold kv.1 n = false)
    ["access_token"; "token_type"; "expires_in"; "refresh_token"; "scope"; "id_token"]%string) o →
  PollToken s d now reply = (s, Ok (mkToken "" "" 0 "" "" "")).
Proof.
  intros Hg Hdc Hst Hr Ho. unfold PollToken. rewrite Hg, Hdc, Hst. cbn [String.eqb Ascii.eqb Bool.eqb]. rewrite Hr. cbn [first_value].
  assert (∀ n, n ∈ ["access_token"; "token_type"; "expires_in"; "refresh_token"; "scope"; "id_token"]%string →
    Forall (λ kv, same_fold kv.1 n = false) o) as Hn.
  { intros n Hn. eapply Forall_impl; [exact Ho|]. intros kv Hkv. by eapply Forall_forall in Hkv. }
  assert (unmarshal decode_token (Some (JObject o)) = Some (mkToken "" "" 0 "" "" "")) as ->.
  { unfold unmarshal, decode_token, field, struct. rewrite !decode_field_absent by (apply Hn; by repeat constructor). done. }
  cbn [second_value]. rewrite bool_decide_eq_false_2 by done. by rewrite andb_false_r.
Qed.

(** ** Concrete inputs *)

Definition demo_provider : OAuthProvider := mkProvider false "id" "secret" None.
Definition demo_bytes (c : string) : option string := Some (c +:+ "0123456789012345678901234567890").
Definition demo_rnd (k : Z) (i : nat) : option Z := Some ((k + 3 * Z.of_nat i) mod 256).
Definition demo_code (c : string) : string := default "" (generateRandomString 32 (demo_bytes c)).
Definition demo_user (k : Z) : string := default "" (generateUserCode (GetUserCodeChars demo_provider) (demo_rnd k)).
Definition demo_store : DeviceCodeStore := (GenerateDeviceCode NewDeviceCodeStore demo_provider "u" (demo_bytes "a") (demo_rnd 0) 7).1.

Lemma user_code_format_witness :
  ∃ a b, generateUserCode "BCDFGHJKLMNPQRSTVWXZ" (demo_rnd 0) = Some (a +:+ "-" +:+ b) ∧ String.length a = 4%nat.
Proof.
  destruct (user_code_format demo_provider (demo_rnd 0)) as (a & b & H & Ha & _).
  - intros i. eexists. split; [reflexivity|]. apply Z.mod_pos_bound. lia.
  - by exists a, b.
Defined.

Lemma codes_live_five_minutes_witness :
  let s := foldl perform demo_store [CGenerate demo_provider "u" (demo_bytes "b") (demo_rnd 1) 9; CStatus (demo_code "a") "authorized";
    CUser (demo_user 1) 400000000000] in
  (GetByUserCode s (demo_user 0) 300000000007).2 = Ok 0%N ∧ (GetByDeviceCode s (demo_code "a") 300000000008).2 = Err Expired.
Proof.
  split.
  - apply (codes_live_five_minutes NewDeviceCodeStore demo_provider "u" (demo_bytes "a") (demo_rnd 0) 7 demo_store 0 (demo_code "a")
      (demo_user 0)); try reflexivity. repeat constructor; vm_compute; discriminate.
  - apply (codes_live_five_minutes NewDeviceCodeStore demo_provider "u" (demo_bytes "a") (demo_rnd 0) 7 demo_store 0 (demo_code "a")
      (demo_user 0) _ 300000000008 (demo_user 0)); try reflexivity. repeat constructor; vm_compute; discriminate.
Defined.

Lemma provider_code_unknown_witness :
  let '(s', r) := Initiate NewDeviceCodeStore demo_provider "" (demo_bytes "a") (demo_rnd 0) 7
    (λ _ _, Some (mkAuthReply 200 (Some "device_code=gh&interval=9"%string))) in
  r = Some 0%N ∧ (code <$> heap s' !! 0%N) = Some "gh"%string ∧ (PollToken s' "gh" 8 (λ _ _, None)).2 = Err (StoreError NotFound).
Proof.
  destruct (Initiate _ _ _ _ _ _ _) as [s' r] eqn:E. assert (r = Some 0%N) as -> by (change r with (s', r).2; by rewrite <- E).
  destruct (provider_code_unknown NewDeviceCodeStore demo_provider "" (demo_bytes "a") (demo_rnd 0) 7
    (λ _ _, Some (mkAuthReply 200 (Some "device_code=gh&interval=9"%string))) "device_code=gh&interval=9" "gh" s' 0 8 (λ _ _, None))
    as [H1 H2]; try reflexivity; [exact E|vm_compute; discriminate|]. split_and!; [done|done|by rewrite H2].
Defined.

Lemma pending_is_a_token_witness :
  PollToken demo_store (demo_code "a") 8
    (λ _ _, Some (mkTokenReply 400 (Some (JObject [("error", JString "authorization_pending")]%string)) None)) =
  (demo_store, Ok (mkToken "" "" 0 "" "" "")).
Proof.
  eapply (pending_is_a_token demo_store (demo_code "a") 8 _ 0 _ [("error", JString "authorization_pending")]%string 400);
    try (vm_compute; reflexivity). repeat constructor.
Defined.

End DeviceCodes.
