(* ===== verification/Recording.v ===== *)
(** * internal/recording: recorder.go and player.go

    A recording is a file of lines: a header, then one event per piece of
    output. The recorder appends to it, the player parses it again. Files are
    the text behind a name; a write may be cut short. The printed form of a
    header, of a JSON string and of a time, and the JSON parser are parameters.
    The timing of a playback is left out: it is float arithmetic on the offsets. *)
From Stdlib Require Import Ascii String.
From stdpp Require Import pretty countable.
From S2P Require Import Prelude GoStrings Json.
Import Json.
#[local] Open Scope Z_scope.
#[local] Set Default Proof Using "Type".

Module Recording.

Record asciicastHeader := mkHeader { Version_ : Z; Width : Z; Height : Z; Timestamp : Z; Title : string }.
Record RecordingWriter := mkWriter {
  file : string; recordingID : string; sessionID : string; startTime : Z; totalBytes : Z; closed : bool;
}.
Record RecordingPool := mkPool { writers : gmap string N }.
(** The pool, the writers its entries point to, and the data directory. *)
Record State := mkState { pool : RecordingPool; heap : gmap N RecordingWriter; disk : gmap string string }.
Definition NewRecordingPool (d : gmap string string) : State := mkState (mkPool ∅) ∅ d.

Definition newline : ascii := ascii_of_nat 10.
Definition quote : string := String (ascii_of_nat 34) EmptyString.

(** What a write to the file meets: it may fail after some bytes. *)
Inductive wres := WroteAll | WrotePart (n : nat).
Definition written (text : string) (r : wres) : string :=
  match r with WroteAll => text | WrotePart n => substring 0 n text end.

Section Recorder.
Variable print_header : asciicastHeader → string.
Variable marshal_string : string → string.
(** "%.6f" of the seconds of a duration. *)
Variable seconds : Z → string.

Definition Nanosecond : Z := 1000000000.

Record create_env := mkCreate { c_now : Z; c_mkdir : bool; c_create : bool; c_header : wres }.

(** A header that cannot be written removes the file. *)
Definition NewRecordingWriter (d : gmap string string) (recordingID sessionID : string) (cols rows : Z) (title : string)
    (e : create_env) : gmap string string * option RecordingWriter :=
  if negb (c_mkdir e) then (d, None) else
  let filename := recordingID +:+ ".cast" in
  if negb (c_create e) then (d, None) else
  let header := mkHeader 2 cols rows (c_now e / Nanosecond) title in
  match c_header e with
  | WroteAll =>
      (<[filename := print_header header +:+ String newline EmptyString]> d,
       Some (mkWriter filename recordingID sessionID (c_now e) 0 false))
  | WrotePart _ => (delete filename d, None)
  end.

Definition event_line (elapsed : Z) (data : string) : string :=
  "[" +:+ seconds elapsed +:+ ", " +:+ quote +:+ "o" +:+ quote +:+ ", " +:+ marshal_string data +:+ "]".

Definition Write (d : gmap string string) (w : RecordingWriter) (data : string) (now : Z) (r : wres)
    : gmap string string * RecordingWriter :=
  if String.eqb data "" || closed w then (d, w) else
  let line := event_line (now - startTime w) data +:+ String newline EmptyString in
  (alter (λ content, content +:+ written line r) (file w) d,
   match r with
   | WroteAll => mkWriter (file w) (recordingID w) (sessionID w) (startTime w)
                   (totalBytes w + Z.of_nat (String.length data)) false
   | WrotePart _ => w
   end).

(** The duration in milliseconds and the bytes; the errors are logged. *)
Definition Close (w : RecordingWriter) (now : Z) : RecordingWriter * (Z * Z) :=
  if closed w then (w, (0, 0)) else
  (mkWriter (file w) (recordingID w) (sessionID w) (startTime w) (totalBytes w) true,
   ((now - startTime w) ÷ 1000000, totalBytes w)).

Definition Filename (w : RecordingWriter) : string := recordingID w +:+ ".cast".
Definition RecordingID (w : RecordingWriter) : string := recordingID w.

(** ** The pool *)

Inductive start_error := AlreadyActive | CreateFails.
Definition StartRecording (s : State) (sid rid : string) (cols rows : Z) (title : string) (e : create_env)
    : State * option start_error :=
  match writers (pool s) !! sid with
  | Some _ => (s, Some AlreadyActive)
  | None =>
      match NewRecordingWriter (disk s) rid sid cols rows title e with
      | (d, None) => (mkState (pool s) (heap s) d, Some CreateFails)
      | (d, Some w) =>
          let ref := fresh (dom (heap s)) in
          (mkState (mkPool (<[sid := ref]> (writers (pool s)))) (<[ref := w]> (heap s)) d, None)
      end
  end.

(** [None]: no active recording. *)
Definition StopRecording (s : State) (sid : string) (now : Z) : State * option (Z * Z) :=
  match writers (pool s) !! sid with
  | None => (s, None)
  | Some ref =>
      let p := mkPool (delete sid (writers (pool s))) in
      match heap s !! ref with
      | None => (mkState p (heap s) (disk s), None)
      | Some w => let '(w', res) := Close w now in (mkState p (<[ref := w']> (heap s)) (disk s), Some res)
      end
  end.

(** The second half, after the lock was released: the writer may be closed by now. *)
Definition write_ref (s : State) (ref : N) (data : string) (now : Z) (r : wres) : State :=
  match heap s !! ref with
  | None => s
  | Some w => let '(d, w') := Write (disk s) w data now r in mkState (pool s) (<[ref := w']> (heap s)) d
  end.
Definition WriteIfRecording (s : State) (sid data : string) (now : Z) (r : wres) : State :=
  match writers (pool s) !! sid with None => s | Some ref => write_ref s ref data now r end.

Definition IsRecording (s : State) (sid : string) : bool := bool_decide (is_Some (writers (pool s) !! sid)).

Definition StopAll (s : State) (now : Z) : State :=
  mkState (mkPool ∅)
    (map_imap (λ ref w, Some (if decide (ref ∈ (map_to_list (writers (pool s))).*2) then (Close w now).1 else w)) (heap s))
    (disk s).

(** ** player.go *)

Record RecordingEvent := mkRecEvent { Offset : string; Type_ : string; Data : string }.
Record RecordingPlayer := mkPlayer { header : option asciicastHeader; events : list RecordingEvent }.

Variable parse_json : string → option json.
(** The number is in the range of a float64. *)
Variable float_ok : string → bool.

Definition max_line : Z := 10 * 1024 * 1024.

(** bufio.ScanLines: the last line may lack its end; a carriage return before
    the end of a line is dropped. *)
Definition drop_cr (line : string) : string := Str.TrimSuffix line (String (ascii_of_nat 13) EmptyString).
Definition file_lines (content : string) : list string :=
  let l := Str.Split content newline in
  drop_cr <$> (match last l with Some EmptyString => removelast l | _ => l end).

Definition decode_header : list (string * json) → asciicastHeader * bool :=
  field "version" decode_int 0 (field "width" decode_int 0 (field "height" decode_int 0
    (field "timestamp" decode_int 0 (field "title" decode_string ""%string (struct (λ t ts h w v, mkHeader v w h ts t)))))).
Definition decode_offset (v : json) : option string :=
  match v with
  | JNumber l => if float_ok l then Some l else None
  | JInt z => Some (Str.Itoa z)
  | JNull => Some "0"%string
  | _ => None
  end.
Definition decode_event (line : string) : option RecordingEvent :=
  match parse_json line with
  | Some (JArray (o :: t :: d :: _)) =>
      offset ← decode_offset o;
      match decode_string "" t, decode_string "" d with
      | (ty, false), (data, false) => Some (mkRecEvent offset ty data)
      | _, _ => None
      end
  | _ => None
  end.

(** [Err tt]: an error. The line that is too long ends the scan. *)
Fixpoint parse_events (lines : list string) : result unit (list RecordingEvent) :=
  match lines with
  | [] => Ok []
  | line :: rest =>
      if max_line <=? Z.of_nat (String.length line) then Err tt else
      match parse_events rest with
      | Err e => Err e
      | Ok evs => Ok (match decode_event line with Some ev => ev :: evs | None => evs end)
      end
  end.
Definition parse (content : string) : result unit RecordingPlayer :=
  match file_lines content with
  | [] => Ok (mkPlayer None [])
  | line :: rest =>
      if max_line <=? Z.of_nat (String.length line) then Err tt else
      match unmarshal decode_header (parse_json line) with
      | None => Err tt
      | Some h => match parse_events rest with Err e => Err e | Ok evs => Ok (mkPlayer (Some h) evs) end
      end
  end.
Definition NewRecordingPlayer (d : gmap string string) (path : string) : result unit RecordingPlayer :=
  match d !! path with None => Err tt | Some content => parse content end.

(** ** What was recorded is what is played *)

Definition header_json (h : asciicastHeader) : json :=
  JObject ([("version", JInt (Version_ h)); ("width", JInt (Width h)); ("height", JInt (Height h));
            ("timestamp", JInt (Timestamp h))]%string ++
           (if String.eqb (Title h) "" then [] else [("title", JString (Str.ToValidUTF8 (Title h)))]%string)).
(** The header that is read back. *)
Definition read_header (h : asciicastHeader) : asciicastHeader :=
  mkHeader (Version_ h) (Width h) (Height h) (Timestamp h) (Str.ToValidUTF8 (Title h)).
Definition carriage : string := String (ascii_of_nat 13) EmptyString.

Hypothesis parse_header : ∀ h, parse_json (print_header h) = Some (header_json h).
Hypothesis header_line : ∀ h, Str.ContainsByte (print_header h) newline = false ∧ Str.HasSuffix (print_header h) carriage = false.
Hypothesis parse_event : ∀ t d,
  parse_json (event_line t d) = Some (JArray [JNumber (seconds t); JString "o"; JString (Str.ToValidUTF8 d)]).
Hypothesis event_line_one : ∀ t d, Str.ContainsByte (event_line t d) newline = false.
Hypothesis seconds_float : ∀ t, float_ok (seconds t) = true.

Definition int64 (z : Z) : Prop := Str.min_int <= z <= Str.max_int.

Lemma decode_header_json h :
  int64 (Version_ h) → int64 (Width h) → int64 (Height h) → int64 (Timestamp h) →
  unmarshal decode_header (Some (header_json h)) = Some (read_header h).
Proof.
  intros Hv Hw Hh Ht. destruct h as [v w h t title]. cbn in *.
  assert (∀ z, int64 z → (Str.min_int <=? z) && (z <=? Str.max_int) = true) as Hz.
  { intros z [? ?]. apply andb_true_intro. split; by apply Z.leb_le. }
  unfold unmarshal, header_json. cbn [Version_ Width Height Timestamp Title].
  destruct (String.eqb_spec title "") as [->|_];
    lazy -[decode_int Str.min_int Str.max_int]; unfold decode_int; rewrite !Hz by done; reflexivity.
Qed.

(** The text of complete lines. *)
Fixpoint text_of (lines : list string) : string :=
  match lines with [] => EmptyString | l :: rest => l +:+ String newline (text_of rest) end.

Lemma text_of_app a b : text_of (a ++ b) = text_of a +:+ text_of b.
Proof.
  induction a as [|x a IH]; [done|]. cbn [app text_of]. rewrite IH, Str.app_assoc_str. done.
Qed.

Lemma Split_text_of lines :
  Forall (λ l, Str.ContainsByte l newline = false) lines → Str.Split (text_of lines) newline = lines ++ [""%string].
Proof.
  induction 1 as [|l rest Hl Hrest IH]; [done|]. cbn [text_of]. rewrite Str.Split_sep by done. by rewrite IH.
Qed.

Lemma file_lines_text_of lines :
  Forall (λ l, Str.ContainsByte l newline = false ∧ Str.HasSuffix l carriage = false) lines →
  file_lines (text_of lines) = lines.
Proof.
  intros Hl. unfold file_lines. rewrite Split_text_of by (eapply Forall_impl; [exact Hl|by intros l []]).
  rewrite last_snoc, removelast_last. induction Hl as [|l rest [_ Hcr] Hrest IH]; [done|].
  rewrite fmap_cons, IH. f_equal. unfold drop_cr. unfold Str.TrimSuffix, Str.HasSuffix, carriage in *.
  apply bool_decide_eq_false in Hcr. destruct (Str.strip_suffix l _) as [y|]; [|done]. by destruct Hcr.
Qed.

Lemma event_line_end t d : Str.HasSuffix (event_line t d) carriage = false.
Proof.
  unfold event_line. set (x := marshal_string d).
  assert ("[" +:+ seconds t +:+ ", " +:+ quote +:+ "o" +:+ quote +:+ ", " +:+ x +:+ "]" =
    ("[" +:+ seconds t +:+ ", " +:+ quote +:+ "o" +:+ quote +:+ ", " +:+ x) +:+ "]") as ->.
  { rewrite !Str.app_assoc_str. done. }
  apply Str.HasSuffix_app_false; reflexivity.
Qed.

Lemma decode_event_line t d : decode_event (event_line t d) = Some (mkRecEvent (seconds t) "o" (Str.ToValidUTF8 d)).
Proof using Type parse_event seconds_float.
  unfold decode_event. rewrite parse_event. unfold decode_offset. by rewrite seconds_float.
Qed.

(** Calls on the pool; [OLate] is the second half of a write whose first half
    found the writer before. *)
Inductive op :=
  | OWrite (sid data : string) (now : Z) (r : wres)
  | OLate (ref : N) (data : string) (now : Z) (r : wres)
  | OStart (sid rid : string) (cols rows : Z) (title : string) (e : create_env)
  | OStop (sid : string) (now : Z).
Definition step (s : State) (o : op) : State :=
  match o with
  | OWrite sid data now r => WriteIfRecording s sid data now r
  | OLate ref data now r => write_ref s ref data now r
  | OStart sid rid cols rows title e => (StartRecording s sid rid cols rows title e).1
  | OStop sid now => (StopRecording s sid now).1
  end.

(** What may happen while [sid] records into [fn] through [ref]: its own writes
    succeed, the others do what they like with other files. *)
Definition meanwhile (sid fn : string) (ref : N) (o : op) : Prop :=
  match o with
  | OWrite sid' _ _ r => sid' = sid → r = WroteAll
  | OLate ref' _ _ _ => ref' ≠ ref
  | OStart _ rid _ _ _ _ => rid +:+ ".cast" ≠ fn
  | OStop sid' _ => sid' ≠ sid
  end.
Definition output_of (sid : string) (o : op) : option (string * Z) :=
  match o with
  | OWrite sid' d now _ => if String.eqb sid' sid && negb (String.eqb d "") then Some (d, now) else None
  | _ => None
  end.

Record recording (s : State) (sid fn : string) (ref : N) (start : Z) (lines : list string) (total : Z) : Prop := {
  r_writer : writers (pool s) !! sid = Some ref;
  r_state : ∃ w, heap s !! ref = Some w ∧ file w = fn ∧ startTime w = start ∧ closed w = false ∧ totalBytes w = total;
  r_disk : disk s !! fn = Some (text_of lines);
  r_others : ∀ r w, heap s !! r = Some w → r ≠ ref → file w ≠ fn;
  r_refs : ∀ sid' r, writers (pool s) !! sid' = Some r → r ∈ dom (heap s);
  r_own : ∀ sid', writers (pool s) !! sid' = Some ref → sid' = sid;
}.

Lemma write_other s sid fn ref start lines total r data now res :
  recording s sid fn ref start lines total → r ≠ ref → recording (write_ref s r data now res) sid fn ref start lines total.
Proof.
  intros [Hw [w (Hw0 & Hwf & Hws)] Hd Ho Hr Hown] Hne. unfold write_ref.
  destruct (heap s !! r) as [x|] eqn:Hx; [|split; try done; by exists w].
  unfold Write. destruct (_ || _).
  - rewrite insert_id by done. split; try done. by exists w.
  - split; cbn [pool heap disk]; try done.
    + exists w. by rewrite lookup_insert_ne.
    + rewrite lookup_alter_ne; [done|]. by apply (Ho r x).
    + intros r' w' [[<- <-]|[? Hw']]%lookup_insert_Some Hne'; [|by apply (Ho r' w')].
      destruct res; apply (Ho r x Hx Hne).
    + intros sid' r' Hs. apply Hr in Hs. rewrite dom_insert_L. by apply elem_of_union_r.
Qed.

Lemma write_own s sid fn ref start lines total data now :
  recording s sid fn ref start lines total →
  recording (write_ref s ref data now WroteAll) sid fn ref start
    (if String.eqb data "" then lines else lines ++ [event_line (now - start) data])
    (total + Z.of_nat (String.length data)).
Proof.
  intros [Hw [w (Hw0 & Hwf & Hws & Hcl & Htot)] Hd Ho Hr Hown]. unfold write_ref. rewrite Hw0. unfold Write. rewrite Hcl.
  destruct (String.eqb_spec data "") as [->|Hne]; cbn [orb].
  - rewrite insert_id by done. split; try done. exists w. split_and!; try done. cbn. lia.
  - split; cbn [pool heap disk]; try done.
    + eexists. rewrite lookup_insert_eq. split; [done|]. cbn. by rewrite Hwf, Hws, Htot.
    + rewrite Hwf, Hws. rewrite lookup_alter_eq, Hd. cbn. by rewrite text_of_app.
    + intros r' w' [[<- <-]|[? Hw']]%lookup_insert_Some Hne'; [done|by apply (Ho r' w')].
    + intros sid' r' Hs. apply Hr in Hs. rewrite dom_insert_L. by apply elem_of_union_r.
Qed.

Definition line_of (sid : string) (start : Z) (o : op) : list string :=
  match output_of sid o with Some (d, now) => [event_line (now - start) d] | None => [] end.
Definition bytes_of_op (sid : string) (o : op) : Z :=
  match output_of sid o with Some (d, _) => Z.of_nat (String.length d) | None => 0 end.

Lemma recording_step s sid fn ref start lines total o :
  recording s sid fn ref start lines total → meanwhile sid fn ref o →
  recording (step s o) sid fn ref start (lines ++ line_of sid start o) (total + bytes_of_op sid o).
Proof.
  intros Hrec Hm. unfold line_of, bytes_of_op.
  destruct o as [sid' d now r|r d now res|sid' rid cols rows title e|sid' now]; cbn [step output_of meanwhile] in *.
  - unfold WriteIfRecording. destruct (String.eqb_spec sid' sid) as [->|Hne]; cbn [andb].
    + rewrite Hm, (r_writer _ _ _ _ _ _ _ Hrec) by done. apply (write_own _ _ _ _ _ _ _ d now) in Hrec.
      destruct (String.eqb_spec d "") as [->|]; [|done]. cbn [negb]. rewrite app_nil_r. exact Hrec.
    + rewrite app_nil_r, Z.add_0_r. destruct (writers (pool s) !! sid') as [r'|] eqn:E; [|done].
      apply write_other; [done|]. intros ->. by apply (r_own _ _ _ _ _ _ _ Hrec) in E.
  - rewrite app_nil_r, Z.add_0_r. by apply write_other.
  - rewrite app_nil_r, Z.add_0_r. unfold StartRecording.
    destruct (writers (pool s) !! sid') eqn:E; [done|].
    destruct Hrec as [Hw [w (Hw0 & Hwf)] Hd Ho Hr Hown]. unfold NewRecordingWriter.
    assert (∀ x, (<[rid +:+ ".cast" := x]> (disk s)) !! fn = disk s !! fn) as Hins by (intros; by rewrite lookup_insert_ne).
    destruct (negb (c_mkdir e)); [split; try done; by exists w|].
    destruct (negb (c_create e)); [split; try done; by exists w|].
    destruct (c_header e); [|split; cbn [fst pool heap disk]; try done; [by exists w|by rewrite lookup_delete_ne]].
    assert (fresh (dom (heap s)) ∉ dom (heap s)) as Hf by apply is_fresh.
    assert (fresh (dom (heap s)) ≠ ref) as Hfr.
    { intros E'. apply Hf. rewrite E'. apply elem_of_dom. by eexists. }
    split; cbn [fst pool heap disk writers].
    + rewrite lookup_insert_ne; [done|]. intros ->. congruence.
    + exists w. by rewrite lookup_insert_ne.
    + by rewrite Hins.
    + intros r' w' [[<- <-]|[? Hw']]%lookup_insert_Some Hne'; [done|by apply (Ho r' w')].
    + intros s' r' [[<- <-]|[? Hs]]%lookup_insert_Some; rewrite dom_insert_L; [by apply elem_of_union_l, elem_of_singleton|].
      apply elem_of_union_r. by apply (Hr s').
    + intros s' [[<- ?]|[? Hs]]%lookup_insert_Some; [done|by apply Hown].
  - rewrite app_nil_r, Z.add_0_r. unfold StopRecording. destruct (writers (pool s) !! sid') as [r'|] eqn:E; [|done].
    destruct Hrec as [Hw [w (Hw0 & Hwf)] Hd Ho Hr Hown].
    destruct (heap s !! r') as [x|] eqn:Hx.
    + unfold Close. assert (r' ≠ ref) as Hne by (intros ->; by apply Hm, Hown).
      assert (∀ y, file y = file x → recording (mkState (mkPool (delete sid' (writers (pool s)))) (<[r' := y]> (heap s)) (disk s))
        sid fn ref start lines total) as H.
      { intros y Hy. split; cbn [pool heap disk writers]; try done.
        - by rewrite lookup_delete_ne.
        - exists w. by rewrite lookup_insert_ne.
        - intros r2 w2 [[<- <-]|[? Hw2]]%lookup_insert_Some Hne2; [rewrite Hy; by apply (Ho r' x)|by apply (Ho r2 w2)].
        - intros s' r2 [_ Hs]%lookup_delete_Some. rewrite dom_insert_L. apply elem_of_union_r. by apply (Hr s').
        - intros s' [_ Hs]%lookup_delete_Some. by apply Hown. }
      destruct (closed x); cbn [fst]; by apply H.
    + split; cbn [fst pool heap disk writers]; try done.
      * by rewrite lookup_delete_ne.
      * by exists w.
      * intros s' r2 [_ Hs]%lookup_delete_Some. by apply (Hr s').
      * intros s' [_ Hs]%lookup_delete_Some. by apply Hown.
Qed.

Lemma recording_steps sid fn ref start ops : ∀ s lines total,
  recording s sid fn ref start lines total → Forall (meanwhile sid fn ref) ops →
  recording (foldl step s ops) sid fn ref start (lines ++ concat (line_of sid start <$> ops))
    (total + foldr Z.add 0 (bytes_of_op sid <$> ops)).
Proof.
  induction ops as [|o ops IH]; intros s lines total Hrec Hm; cbn [foldl fmap list_fmap concat foldr].
  - by rewrite app_nil_r, Z.add_0_r.
  - apply Forall_cons in Hm as [Ho Hm]. rewrite app_assoc, Z.add_assoc. apply IH; [|done].
    by apply recording_step.
Qed.

Lemma StartRecording_recording s sid rid cols rows title e s1 :
  (∀ r w, heap s !! r = Some w → file w ≠ rid +:+ ".cast") → (∀ sid' r, writers (pool s) !! sid' = Some r → r ∈ dom (heap s)) →
  StartRecording s sid rid cols rows title e = (s1, None) →
  ∃ ref, recording s1 sid (rid +:+ ".cast") ref (c_now e)
    [print_header (mkHeader 2 cols rows (c_now e / Nanosecond) title)] 0.
Proof.
  intros Hfile Hr. unfold StartRecording. destruct (writers (pool s) !! sid) eqn:E; [done|]. unfold NewRecordingWriter.
  destruct (negb (c_mkdir e)); [done|]. destruct (negb (c_create e)); [done|]. destruct (c_header e); [|done].
  intros [= <-]. exists (fresh (dom (heap s))).
  assert (fresh (dom (heap s)) ∉ dom (heap s)) as Hf by apply is_fresh.
  split; cbn [pool heap disk writers].
  - by rewrite lookup_insert_eq.
  - eexists. by rewrite lookup_insert_eq.
  - by rewrite lookup_insert_eq.
  - intros r w [[<- <-]|[? Hw]]%lookup_insert_Some Hne; [done|by apply (Hfile r)].
  - intros s' r' [[<- <-]|[? Hs]]%lookup_insert_Some; rewrite dom_insert_L; [by apply elem_of_union_l, elem_of_singleton|].
    apply elem_of_union_r. by apply (Hr s').
  - intros s' [[<- ?]|[? Hs]]%lookup_insert_Some; [done|]. exfalso. apply Hf. by apply (Hr s').
Qed.

(** What is read back of an event that has the text [f d] for the output [d]. *)
Definition event_as (f : string → string) (sid : string) (start : Z) (o : op) : list RecordingEvent :=
  match output_of sid o with Some (d, now) => [mkRecEvent (seconds (now - start)) "o" (f d)] | None => [] end.
Notation event_of := (event_as Str.ToValidUTF8).
Definition output_valid (sid : string) (o : op) : Prop :=
  match output_of sid o with Some (d, _) => Str.ValidString d = true | None => True end.

Lemma events_valid sid start ops :
  Forall (output_valid sid) ops → event_of sid start <$> ops = event_as id sid start <$> ops.
Proof.
  intros H. apply list_fmap_ext. intros i o Ho. rewrite Forall_lookup in H. specialize (H i o Ho).
  unfold output_valid, event_as in *. destruct (output_of sid o) as [[d now]|]; [|done]. by rewrite Str.ToValidUTF8_valid.
Qed.

Lemma parse_events_lines sid start ops :
  Forall (λ o, Forall (λ l, Z.of_nat (String.length l) < max_line) (line_of sid start o)) ops →
  parse_events (concat (line_of sid start <$> ops)) = Ok (concat (event_of sid start <$> ops)).
Proof using Type parse_event seconds_float.
  induction 1 as [|o ops Ho Hops IH]; [done|]. rewrite !fmap_cons. cbn [concat].
  unfold line_of at 1, event_as at 1. unfold line_of in Ho. destruct (output_of sid o) as [[d now]|]; [|exact IH].
  cbn [app parse_events]. rewrite Forall_singleton in Ho. rewrite (proj2 (Z.leb_gt _ _) Ho), IH.
  by rewrite decode_event_line.
Qed.

Lemma lines_ok sid start ops :
  Forall (λ l, Str.ContainsByte l newline = false ∧ Str.HasSuffix l carriage = false) (concat (line_of sid start <$> ops)).
Proof using Type event_line_one.
  induction ops as [|o ops IH]; [done|]. rewrite fmap_cons. cbn [concat]. apply Forall_app. split; [|exact IH].
  unfold line_of. destruct (output_of sid o) as [[d now]|]; [|done]. apply Forall_singleton.
  split; [apply event_line_one|apply event_line_end].
Qed.

(** C14: a recording plays back as what was recorded, if the writes of its output reach the
    file and no line reaches ten megabytes: whatever else records, starts, stops or comes
    late meanwhile, the player finds the header and, in order, every piece of output of
    the session with its offset. What a title or a piece has that is no UTF-8, such as a
    part of a character that was cut between two reads, comes back as U+FFFD, byte by
    byte; the rest is exact. Stopping reports the number of bytes recorded. *)
Theorem recording_roundtrip s sid rid cols rows title e s1 ops now :
  (∀ r w, heap s !! r = Some w → file w ≠ rid +:+ ".cast") →
  (∀ sid' r, writers (pool s) !! sid' = Some r → r ∈ dom (heap s)) →
  StartRecording s sid rid cols rows title e = (s1, None) →
  (∀ ref, writers (pool s1) !! sid = Some ref → Forall (meanwhile sid (rid +:+ ".cast") ref) ops) →
  int64 cols → int64 rows → int64 (c_now e / Nanosecond) →
  let h := mkHeader 2 cols rows (c_now e / Nanosecond) title in
  Z.of_nat (String.length (print_header h)) < max_line →
  Forall (λ o, Forall (λ l, Z.of_nat (String.length l) < max_line) (line_of sid (c_now e) o)) ops →
  let s2 := foldl step s1 ops in
  NewRecordingPlayer (disk s2) (rid +:+ ".cast") = 
    Ok (mkPlayer (Some (read_header h)) (concat (event_of sid (c_now e) <$> ops))) ∧
  (Str.ValidString title = true → Forall (output_valid sid) ops →
   NewRecordingPlayer (disk s2) (rid +:+ ".cast") = Ok (mkPlayer (Some h) (concat (event_as id sid (c_now e) <$> ops)))) ∧
  (StopRecording s2 sid now).2 =
    Some ((now - c_now e) ÷ 1000000, foldr Z.add 0 (bytes_of_op sid <$> ops)) ∧
  disk (StopRecording s2 sid now).1 = disk s2.
Proof using Type parse_header header_line parse_event event_line_one seconds_float.
  intros Hfile Hrefs Hstart Hm Hcols Hrows Hnow h Hh Hl s2.
  destruct (StartRecording_recording s sid rid cols rows title e s1 Hfile Hrefs Hstart) as [ref Hrec].
  specialize (Hm ref (r_writer _ _ _ _ _ _ _ Hrec)). apply (recording_steps sid _ ref _ ops) in Hrec; [|done].
  fold s2 h in Hrec. cbn [app] in Hrec. rewrite Z.add_0_l in Hrec.
  assert (NewRecordingPlayer (disk s2) (rid +:+ ".cast") =
    Ok (mkPlayer (Some (read_header h)) (concat (event_of sid (c_now e) <$> ops)))) as Hplay.
  { unfold NewRecordingPlayer. rewrite (r_disk _ _ _ _ _ _ _ Hrec). unfold parse.
    rewrite file_lines_text_of by (constructor; [apply header_line|apply lines_ok]).
    rewrite (proj2 (Z.leb_gt _ _) Hh), parse_header, decode_header_json by (cbn; done || (unfold int64, Str.min_int, Str.max_int; lia)).
    by rewrite parse_events_lines. }
  split_and!; [done| |..].
  - intros Ht Ho. rewrite Hplay, events_valid by done. unfold read_header, h. cbn. by rewrite Str.ToValidUTF8_valid.
  - destruct (r_state _ _ _ _ _ _ _ Hrec) as (w & Hw & _ & Hst & Hcl & Htot).
    unfold StopRecording. rewrite (r_writer _ _ _ _ _ _ _ Hrec), Hw. unfold Close. rewrite Hcl. cbn.
    by rewrite Hst, Htot.
  - destruct (r_state _ _ _ _ _ _ _ Hrec) as (w & Hw & _ & _ & Hcl & _).
    unfold StopRecording. by rewrite (r_writer _ _ _ _ _ _ _ Hrec), Hw; unfold Close; rewrite Hcl.
Qed.
End Recorder.

(** ** Concrete inputs *)

#[export] Instance asciicastHeader_eq_dec : EqDecision asciicastHeader.
Proof. solve_decision. Defined.
#[export] Instance asciicastHeader_countable : Countable asciicastHeader.
Proof.
  apply (inj_countable' (λ h, (Version_ h, Width h, Height h, Timestamp h, Title h))
    (λ x, let '(v, w, h, t, title) := x in mkHeader v w h t title)). by intros [].
Defined.

(** A value printed as a number, and read again. *)
Definition demo_print {A} `{Countable A} (a : A) : string := pretty (Npos (encode a)).
Definition demo_read {A} `{Countable A} (s : string) : option A :=
  z ← Str.digits s; match Z.to_N z with Npos p => decode p | N0 => None end.
Lemma demo_read_print {A} `{Countable A} (a : A) : demo_read (demo_print a) = Some a.
Proof.
  unfold demo_read, demo_print. rewrite Str.digits_pretty_N. cbn [mbind option_bind]. rewrite N2Z.id. apply decode_encode.
Qed.

Lemma digits_free s c acc z : Str.all_digits s acc = Some z → Str.is_digit c = false → Str.ContainsByte s c = false.
Proof.
  intros H Hc. revert acc H. induction s as [|a s IH]; intros acc; [done|]. cbn [Str.all_digits Str.ContainsByte].
  destruct (Str.is_digit a) eqn:Ha; [|done]. intros H. apply IH in H. rewrite H, orb_false_r.
  destruct (Ascii.eqb_spec a c) as [->|]; [congruence|done].
Qed.
Lemma demo_print_free {A} `{Countable A} (a : A) c : Str.is_digit c = false → Str.ContainsByte (demo_print a) c = false.
Proof.
  intros Hc. pose proof (Str.digits_pretty_N (Npos (encode a))) as H1. unfold Str.digits in H1.
  destruct (pretty (Npos (encode a))) as [|x y] eqn:E; [done|]. unfold demo_print. rewrite E.
  by apply (digits_free _ _ 0 _ H1).
Qed.

Definition demo_header (h : asciicastHeader) : string := "H" +:+ demo_print h.
Definition demo_string (d : string) : string := demo_print d.
Definition demo_seconds (t : Z) : string := "0.5".
Definition demo_prefix : string := "[" +:+ demo_seconds 0 +:+ ", " +:+ quote +:+ "o" +:+ quote +:+ ", ".
Definition demo_parse (line : string) : option json :=
  match Str.strip_prefix line "H" with
  | Some x => header_json <$> demo_read x
  | None =>
      x ← Str.strip_prefix line demo_prefix;
      d ← demo_read (Str.TrimSuffix x "]");
      Some (JArray [JNumber (demo_seconds 0); JString "o"; JString (Str.ToValidUTF8 d)])
  end.

Lemma demo_parse_header h : demo_parse (demo_header h) = Some (header_json h).
Proof. unfold demo_parse, demo_header. rewrite Str.strip_prefix_app, demo_read_print. done. Qed.

Lemma demo_event_line t d : event_line demo_string demo_seconds t d = demo_prefix +:+ demo_print d +:+ "]".
Proof. unfold event_line, demo_prefix. by rewrite !Str.app_assoc_str. Qed.

Lemma demo_parse_event t d :
  demo_parse (event_line demo_string demo_seconds t d) =
    Some (JArray [JNumber (demo_seconds t); JString "o"; JString (Str.ToValidUTF8 d)]).
Proof.
  rewrite demo_event_line. unfold demo_parse. cbn [Str.strip_prefix]. change (Str.strip_prefix (demo_prefix +:+ demo_print d +:+ "]") "H")
    with (@None string). rewrite Str.strip_prefix_app. cbn [mbind option_bind]. rewrite Str.TrimSuffix_app, demo_read_print. done.
Qed.

Lemma free_suffix s c : Str.ContainsByte s c = false → Str.HasSuffix s (String c EmptyString) = false.
Proof.
  intros Hs. apply not_true_is_false. intros (t & ->)%Str.HasSuffix_true. rewrite Str.ContainsByte_app in Hs.
  cbn [Str.ContainsByte] in Hs. by rewrite Ascii.eqb_refl, orb_true_r in Hs.
Qed.

Lemma demo_header_line h :
  Str.ContainsByte (demo_header h) newline = false ∧ Str.HasSuffix (demo_header h) carriage = false.
Proof.
  assert (∀ c, Str.is_digit c = false → Ascii.eqb "H" c = false → Str.ContainsByte (demo_header h) c = false) as H.
  { intros c Hc Hh. unfold demo_header. rewrite Str.ContainsByte_app, demo_print_free by done. cbn [Str.ContainsByte]. by rewrite Hh. }
  split; [by apply H|]. apply free_suffix. by apply H.
Qed.

Lemma demo_event_one t d : Str.ContainsByte (event_line demo_string demo_seconds t d) newline = false.
Proof. rewrite demo_event_line, !Str.ContainsByte_app, demo_print_free by done. reflexivity. Qed.

Definition demo_env : create_env := mkCreate 5 true true WroteAll.
(** The first byte of a character of two bytes comes alone. *)
Definition half : string := String (ascii_of_nat 195) EmptyString.
Definition demo_ops : list op :=
  [OWrite "s" "ls" 9 WroteAll; OStart "t" "other" 80 24 "" demo_env; OWrite "t" "x" 10 (WrotePart 3);
   OWrite "s" "" 11 WroteAll; OWrite "s" half 12 WroteAll; OStop "t" 13].

Example recording_roundtrip_witness :
  let s1 := (StartRecording demo_header (NewRecordingPool ∅) "s" "r" 80 24 "t" demo_env).1 in
  let s2 := foldl (step demo_header demo_string demo_seconds) s1 demo_ops in
  NewRecordingPlayer demo_parse (λ _, true) (disk s2) "r.cast" =
    Ok (mkPlayer (Some (mkHeader 2 80 24 0 "t")) [mkRecEvent "0.5" "o" "ls"; mkRecEvent "0.5" "o" Str.replacement]) ∧
  (StopRecording s2 "s" 2000005).2 = Some (2, 3).
Proof.
  destruct (recording_roundtrip demo_header demo_string demo_seconds demo_parse (λ _, true) demo_parse_header
    demo_header_line demo_parse_event demo_event_one (λ _, eq_refl) (NewRecordingPool ∅) "s" "r" 80 24 "t" demo_env
    (StartRecording demo_header (NewRecordingPool ∅) "s" "r" 80 24 "t" demo_env).1 demo_ops 2000005) as (H1 & _ & H2 & _).
  - intros r w Hr. cbn [heap NewRecordingPool] in Hr. by apply lookup_empty_Some in Hr.
  - intros sid r Hr. cbn [pool writers NewRecordingPool] in Hr. by apply lookup_empty_Some in Hr.
  - vm_compute. reflexivity.
  - intros ref _. unfold demo_ops. repeat constructor; cbn [meanwhile]; intros; done.
  - unfold int64. vm_compute. split; discriminate.
  - unfold int64. vm_compute. split; discriminate.
  - unfold int64. vm_compute. split; discriminate.
  - vm_compute. reflexivity.
  - unfold demo_ops. repeat constructor; vm_compute; reflexivity.
  - split; [exact H1|exact H2].
Defined.

(** A stop during the shutdown forgets the recordings: their rows never end. *)
Example StopAll_forgets :
  let s1 := (StartRecording demo_header (NewRecordingPool ∅) "s" "r" 80 24 "t" demo_env).1 in
  IsRecording s1 "s" = true ∧ IsRecording (StopAll s1 9) "s" = false ∧ (StopRecording (StopAll s1 9) "s" 10).2 = None.
Proof. split_and!; vm_compute; reflexivity. Qed.

End Recording.
