(* ===== verification/RecordingApi.v ===== *)
(** * internal/api/recording_handlers.go: starting, stopping and listing recordings

    The global switch is a row of app_settings, the switch of a session a column
    of its row; the recordings are rows of session_recordings beside the files
    of [Recording]. uuid parsing and the row order are parameters; a body is what
    its handler decodes. *)
From Stdlib Require Import Ascii String.
From S2P Require Import Prelude GoStrings SessionState SessionStore Json Recording.
Import Session Store.
#[local] Open Scope Z_scope.
#[local] Set Default Proof Using "Type".

Module RecordingApi.

(** A row of session_recordings. *)
Record Rec := mkRec {
  ID : N; SessionID : option N; Filename : string; SizeBytes : Z; DurationMs : Z; StartedAt : Z;
  StoppedAt : option Z; CreatedAt : Z;
}.
Record World := mkWorld {
  db : DB; setting : option string; recordings : gmap N Rec; state : Recording.State;
}.
Definition set_db (w : World) (d : DB) : World := mkWorld d (setting w) (recordings w) (state w).
Definition set_setting (w : World) (v : option string) : World := mkWorld (db w) v (recordings w) (state w).
Definition set_recordings (w : World) (m : gmap N Rec) : World := mkWorld (db w) (setting w) m (state w).
Definition set_state (w : World) (s : Recording.State) : World := mkWorld (db w) (setting w) (recordings w) s.

Record Handlers := mkHandlers { dbPool : bool; recordingPool : bool }.
(** The clock, the new id, and the outcome of the statements of a request. *)
Record env := mkEnv {
  now : Z; new_id : N; f_session : bool; f_setting : bool; f_exec : fault; f_query : query_fault;
  e_create : Recording.create_env;
}.

Inductive Body :=
  | BError (msg : string)
  | BEnabled (id : option N) (enabled : bool)
  | BStarted (recording_id : N) (session_id filename : string)
  | BStopped (session_id : string) (duration size : Z)
  | BRecordings (l : list (Rec * string))                 (* with the name of the session *)
  | BRecording (r : Rec)
  | BServe (filename : string).                            (* http.ServeFile *)
Record Response := mkResponse { status : Z; body : Body }.

Section Handlers.
Variable uuid_Parse : string → option N.
Variable uuid_String : N → string.
(** The uuid the server makes of a text. *)
Variable pg_uuid : string → option N.
Variable arrange : list Rec → list Rec.
Variable print_header : Recording.asciicastHeader → string.

Notation answer := (World * Response)%type.
Definition refuse (w : World) (st : Z) (msg : string) : answer := (w, mkResponse st (BError msg)).

(** *** The switches *)

Definition read_setting (w : World) (failed : bool) : option string := if failed then None else setting w.
(** A value that cannot be read is "true". *)
Definition HandleGetRecordingConfig (h : Handlers) (w : World) (e : env) : answer :=
  if negb (dbPool h) then refuse w 503 "database not configured" else
  (w, mkResponse 200 (BEnabled None (String.eqb (default "true"%string (read_setting w (f_setting e))) "true"))).

Definition HandleSetRecordingConfig (h : Handlers) (w : World) (req : option bool) (e : env) : answer :=
  if negb (dbPool h) then refuse w 503 "database not configured" else
  match req with
  | None => refuse w 400 "invalid JSON request body"
  | Some enabled =>
      let w' := set_setting w (Some (if enabled : bool then "true" else "false")%string) in
      match f_exec e with
      | NoFault => (w', mkResponse 200 (BEnabled None enabled))
      | StmtFails => refuse w 500 "failed to update recording config"
      | AckLost => refuse w' 500 "failed to update recording config"
      end
  end.

(** UPDATE sessions SET recording_enabled, for a session that is not terminated. *)
Definition set_recording_enabled (s : Session) (enabled : bool) : Session :=
  mkSession (Session.ID s) (SatelliteID s) (UserID s) (Name s) (AgentBinary s) (AgentArgs s) (State s) (OSPID s) (PTSName s)
    (Cols s) (Rows s) enabled (LastActivityAt s) (Session.StartedAt s) (DetachedAt s) (SuspendedAt s) (TerminatedAt s)
    (Session.CreatedAt s).
Definition HandleToggleSessionRecording (h : Handlers) (w : World) (sessionID : string) (req : option bool) (e : env)
    : answer :=
  if negb (dbPool h) then refuse w 503 "database not configured" else
  match uuid_Parse sessionID with
  | None => refuse w 400 "invalid session_id"
  | Some id =>
      match req with
      | None => refuse w 400 "invalid JSON request body"
      | Some enabled =>
          match sessions (db w) !! id with
          | Some s =>
              if decide (TerminatedAt s = None) then
                let w' := set_db w (set_sessions (db w) (<[id := set_recording_enabled s enabled]> (sessions (db w)))) in
                match f_exec e with
                | NoFault => (w', mkResponse 200 (BEnabled (Some id) enabled))
                | StmtFails => refuse w 500 "failed to update recording setting"
                | AckLost => refuse w' 500 "failed to update recording setting"
                end
              else match f_exec e with
                   | NoFault => refuse w 404 "session not found or already terminated"
                   | _ => refuse w 500 "failed to update recording setting"
                   end
          | None => match f_exec e with
                    | NoFault => refuse w 404 "session not found or already terminated"
                    | _ => refuse w 500 "failed to update recording setting"
                    end
          end
      end
  end.

(** *** Starting and stopping *)

Definition insert_recording (w : World) (r : Rec) (f : fault) : World :=
  match f with
  | StmtFails => w
  | _ => if bool_decide (recordings w !! ID r = None) then set_recordings w (<[ID r := r]> (recordings w)) else w
  end.

(** [req]: the size in the body, zero where it has none. The pool knows a session
    by the text of the path. *)
Definition HandleStartRecording (h : Handlers) (w : World) (sessionID : string) (req : Z * Z) (e : env) : answer :=
  if negb (recordingPool h) then refuse w 503 "recording not configured" else
  match uuid_Parse sessionID with
  | None => refuse w 400 "invalid session_id"
  | Some id =>
      match GetSession (db w) id (f_session e) with
      | Err _ => refuse w 404 "session not found"
      | Ok sess =>
          if dbPool h && bool_decide (read_setting w (f_setting e) = Some "false"%string)
          then refuse w 403 "recording is globally disabled" else
          if negb (RecordingEnabled sess) then refuse w 403 "recording is disabled for this session" else
          if Recording.IsRecording (state w) sessionID then refuse w 409 "session already has an active recording" else
          let cols := if 0 <? req.1 then req.1 else Cols sess in
          let rows := if 0 <? req.2 then req.2 else Rows sess in
          let recordingID := uuid_String (new_id e) in
          match Recording.StartRecording print_header (state w) sessionID recordingID cols rows (Name sess) (e_create e) with
          | (s, Some _) => refuse (set_state w s) 500 "failed to start recording"
          | (s, None) =>
              let filename := recordingID +:+ ".cast" in
              let w1 := set_state w s in
              let w2 := if dbPool h
                        then insert_recording w1 (mkRec (new_id e) (Some id) filename 0 0 (now e) None (now e)) (f_exec e)
                        else w1 in
              (w2, mkResponse 200 (BStarted (new_id e) sessionID filename))
          end
      end
  end.

(** UPDATE ... WHERE session_id = $3 AND stopped_at IS NULL *)
Definition finish_rows (m : gmap N Rec) (id : N) (now duration size : Z) : gmap N Rec :=
  (λ r, if decide (SessionID r = Some id ∧ StoppedAt r = None)
        then mkRec (ID r) (SessionID r) (Filename r) size duration (StartedAt r) (Some now) (CreatedAt r) else r) <$> m.
Definition HandleStopRecording (h : Handlers) (w : World) (sessionID : string) (e : env) : answer :=
  if negb (recordingPool h) then refuse w 503 "recording not configured" else
  match uuid_Parse sessionID with
  | None => refuse w 400 "invalid session_id"
  | Some _ =>
      match Recording.StopRecording (state w) sessionID (now e) with
      | (s, None) => refuse (set_state w s) 404 "no active recording for session"
      | (s, Some (duration, size)) =>
          let w1 := set_state w s in
          let w2 := if dbPool h then
                      match pg_uuid sessionID, f_exec e with
                      | None, _ | _, StmtFails => w1
                      | Some id, _ => set_recordings w1 (finish_rows (recordings w1) id (now e) duration size)
                      end
                    else w1 in
          (w2, mkResponse 200 (BStopped sessionID duration size))
      end
  end.

(** *** Listing; [replica] holds the rows the read pool sees *)

Definition newer (a b : Rec) : Prop := CreatedAt b <= CreatedAt a.
#[export] Instance newer_dec : RelDecision newer.
Proof. intros a b. unfold newer. apply _. Defined.
Definition cut {A} (l : list A) (f : query_fault) : list A :=
  match f with QueryOk => l | QueryFails => [] | CutAfter n => take n l | ScanFails n => take n l ++ drop (S n) l end.
(** A query that fails is an empty listing. *)
Definition listed (replica : gmap N Rec) (P : Rec → bool) (f : query_fault) : list Rec :=
  cut (merge_sort newer (filter P (arrange (map_to_list replica).*2))) f.

Definition HandleListRecordings (h : Handlers) (w : World) (replica : gmap N Rec) (sessionID : string) (e : env) : answer :=
  if negb (dbPool h) then (w, mkResponse 200 (BRecordings [])) else
  match uuid_Parse sessionID with
  | None => refuse w 400 "invalid session_id"
  | Some _ =>
      (w, mkResponse 200 (BRecordings (match pg_uuid sessionID with
         | None => []
         | Some id => (λ r, (r, ""%string)) <$> listed replica (λ r, bool_decide (SessionID r = Some id)) (f_query e)
         end)))
  end.

Definition session_name (d : DB) (r : Rec) : string :=
  from_option Name ""%string (SessionID r ≫= λ id, sessions d !! id).
Definition HandleListAllRecordings (h : Handlers) (w : World) (replica : gmap N Rec) (e : env) : answer :=
  if negb (dbPool h) then (w, mkResponse 200 (BRecordings [])) else
  (w, mkResponse 200 (BRecordings ((λ r, (r, session_name (db w) r)) <$>
     cut (take 100 (merge_sort newer (arrange (map_to_list replica).*2))) (f_query e)))).

Definition find_recording (replica : gmap N Rec) (recordingID : string) (f : query_fault) : option Rec :=
  match f with QueryOk => pg_uuid recordingID ≫= λ id, replica !! id | _ => None end.
Definition HandleGetRecording (h : Handlers) (w : World) (replica : gmap N Rec) (recordingID : string) (e : env) : answer :=
  if negb (dbPool h) then refuse w 503 "database not configured" else
  match find_recording replica recordingID (f_query e) with
  | None => refuse w 404 "recording not found"
  | Some r => (w, mkResponse 200 (BRecording r))
  end.
(** GetPlaybackURL of the local pool is empty: the file is served from the disk. *)
Definition HandleStreamRecording (h : Handlers) (w : World) (replica : gmap N Rec) (recordingID : string) (e : env) : answer :=
  if negb (dbPool h && recordingPool h) then refuse w 503 "recording not configured" else
  match find_recording replica recordingID (f_query e) with
  | None => refuse w 404 "recording not found"
  | Some r => (w, mkResponse 200 (BServe (Filename r)))
  end.

(** ** recorder.go: ReconcileRecordings, at the start of the server *)

(** The first JSON value of a file; what does not decode is skipped. *)
Variable first_value : string → option Json.json.
Definition is_cast (name : string) : bool := Str.HasSuffix name ".cast".
Definition reconcile_file (m : gmap N Rec) (p : string * string) (ok : bool) : gmap N Rec :=
  let '(name, content) := p in
  if negb (is_cast name) then m else
  match Json.unmarshal Recording.decode_header (first_value content), pg_uuid (Str.TrimSuffix name ".cast") with
  | Some hd, Some id =>
      if ok && bool_decide (m !! id = None) then
        let t := Recording.Timestamp hd * Recording.Nanosecond in
        <[id := mkRec id None name (Z.of_nat (String.length content)) 0 t None t]> m
      else m
  | _, _ => m
  end.
Definition ReconcileRecordings (w : World) (ok : string → bool) : World :=
  set_recordings w (foldl (λ m p, reconcile_file m p (ok p.1)) (recordings w) (map_to_list (Recording.disk (state w)))).

(** ** When a recording starts, and what a stop leaves behind *)

(** What it takes to record the session [sess] under the text [sid]. *)
Record may_start (h : Handlers) (w : World) (sid : string) (e : env) (id : N) (sess : Session) : Prop := {
  m_pool : recordingPool h = true;
  m_id : uuid_Parse sid = Some id;
  m_session : f_session e = false ∧ sessions (db w) !! id = Some sess;
  m_setting : dbPool h = true → f_setting e = false → setting w ≠ Some "false"%string;
  m_enabled : RecordingEnabled sess = true;
  m_free : Recording.IsRecording (state w) sid = false;
  m_file : Recording.c_mkdir (e_create e) = true ∧ Recording.c_create (e_create e) = true ∧
           Recording.c_header (e_create e) = Recording.WroteAll;
}.
Definition start_header (sess : Session) (req : Z * Z) (e : env) : Recording.asciicastHeader :=
  Recording.mkHeader 2 (if 0 <? req.1 then req.1 else Cols sess) (if 0 <? req.2 then req.2 else Rows sess)
    (Recording.c_now (e_create e) / Recording.Nanosecond) (Name sess).

Lemma insert_recording_keeps w r f :
  db (insert_recording w r f) = db w ∧ setting (insert_recording w r f) = setting w ∧ state (insert_recording w r f) = state w.
Proof. unfold insert_recording. destruct f; try done; by case_bool_decide. Qed.
Lemma insert_recording_row w r f : f ≠ StmtFails → is_Some (recordings (insert_recording w r f) !! ID r).
Proof.
  unfold insert_recording. intros Hf. assert (∀ A (x y : A), match f with StmtFails => x | _ => y end = y) as -> by (by destruct f).
  case_bool_decide as H; [cbn; rewrite lookup_insert_eq; by eexists|].
  destruct (recordings w !! ID r); [by eexists|done].
Qed.

Lemma start_started h w sid req e id sess : may_start h w sid e id sess →
  let '(w', r) := HandleStartRecording h w sid req e in
  let rid := uuid_String (new_id e) in
  status r = 200 ∧ (Recording.StartRecording print_header (state w) sid rid (Recording.Width (start_header sess req e))
      (Recording.Height (start_header sess req e)) (Name sess) (e_create e)) = (state w', None) ∧
  w' = (if dbPool h then insert_recording (set_state w (state w'))
          (mkRec (new_id e) (Some id) (rid +:+ ".cast") 0 0 (now e) None (now e)) (f_exec e) else set_state w (state w')).
Proof.
  intros [Hp Hid [Hf Hs] Hset Hen Hfree (H1 & H2 & H3)].
  unfold HandleStartRecording. rewrite Hp, Hid. cbn [negb]. unfold GetSession. rewrite Hf, Hs.
  assert (dbPool h && bool_decide (read_setting w (f_setting e) = Some "false"%string) = false) as ->.
  { destruct (dbPool h); [|done]. cbn [andb]. apply bool_decide_eq_false. unfold read_setting.
    destruct (f_setting e); [done|]. by apply Hset. }
  rewrite Hen, Hfree. cbn [negb]. unfold Recording.IsRecording in Hfree. apply bool_decide_eq_false, eq_None_not_Some in Hfree.
  unfold Recording.StartRecording, Recording.NewRecordingWriter. rewrite Hfree, H1, H2, H3. cbn.
  destruct (dbPool h); [|done]. rewrite (proj2 (proj2 (insert_recording_keeps _ _ _))). done.
Qed.

Lemma start_refused h w sid req e :
  let '(w', r) := HandleStartRecording h w sid req e in
  (∃ id sess, may_start h w sid e id sess) ∨
  status r ≠ 200 ∧ Recording.pool (state w') = Recording.pool (state w) ∧ recordings w' = recordings w ∧
  db w' = db w ∧ setting w' = setting w.
Proof.
  unfold HandleStartRecording, refuse. destruct (recordingPool h) eqn:Hp; cbn [negb]; [|by right].
  destruct (uuid_Parse sid) as [id|] eqn:Hid; [|by right]. unfold GetSession.
  destruct (f_session e) eqn:Hf; [by right|]. destruct (sessions (db w) !! id) as [sess|] eqn:Hs; [|by right].
  destruct (dbPool h && _) eqn:Hset; [by right|].
  destruct (RecordingEnabled sess) eqn:Hen; cbn [negb]; [|by right].
  destruct (Recording.IsRecording (state w) sid) eqn:Hrec; [by right|].
  pose proof Hrec as Hnone. unfold Recording.IsRecording in Hnone. apply bool_decide_eq_false, eq_None_not_Some in Hnone.
  unfold Recording.StartRecording, Recording.NewRecordingWriter. rewrite Hnone.
  destruct (Recording.c_mkdir (e_create e)) eqn:H1; cbn [negb]; [|by right].
  destruct (Recording.c_create (e_create e)) eqn:H2; cbn [negb]; [|by right].
  destruct (Recording.c_header (e_create e)) as [|n] eqn:H3; [|by right].
  left. exists id, sess. split; try done. intros Hdb Hfs Hv. rewrite Hdb in Hset. cbn in Hset.
  apply bool_decide_eq_false in Hset. apply Hset. unfold read_setting. by rewrite Hfs.
Qed.

(** nothing but [may_start] keeps a recording from starting: the answer is 200
    exactly when the session is there and allows it, the global switch is not
    readable as "false", nothing records under this text, and the file can be
    made. Then the file holds the header of the session, the pool has the session
    and the row is written if the database takes it; otherwise the pool and the
    rows are as before. Sessions and settings never change. *)
Theorem recording_gate h w sid req e :
  let '(w', r) := HandleStartRecording h w sid req e in
  let file := uuid_String (new_id e) +:+ ".cast" in
  (status r = 200 ↔ ∃ id sess, may_start h w sid e id sess) ∧
  (∀ id sess, may_start h w sid e id sess →
     Recording.IsRecording (state w') sid = true ∧
     Recording.disk (state w') !! file =
       Some (print_header (start_header sess req e) +:+ String Recording.newline EmptyString) ∧
     (dbPool h = true → f_exec e ≠ StmtFails → is_Some (recordings w' !! new_id e))) ∧
  (status r ≠ 200 → Recording.pool (state w') = Recording.pool (state w) ∧ recordings w' = recordings w) ∧
  db w' = db w ∧ setting w' = setting w.
Proof.
  pose proof (start_refused h w sid req e) as Hno. pose proof (start_started h w sid req e) as Hyes.
  destruct (HandleStartRecording h w sid req e) as [w' r] eqn:E.
  destruct Hno as [(id & sess & Hm)|(Hst & Hpool & Hrows & Hdb & Hse)].
  - destruct (Hyes _ _ Hm) as (Hst & Hs & Hw'). split_and!.
    + split; [by eauto|done].
    + intros id' sess' Hm'. destruct (Hyes _ _ Hm') as (_ & Hs' & Hw2).
      pose proof (m_file _ _ _ _ _ _ Hm') as (H1 & H2 & H3). pose proof (m_free _ _ _ _ _ _ Hm') as Hfree.
      unfold Recording.IsRecording in Hfree. apply bool_decide_eq_false, eq_None_not_Some in Hfree.
      unfold Recording.StartRecording, Recording.NewRecordingWriter in Hs'. rewrite Hfree, H1, H2, H3 in Hs'. cbn in Hs'.
      injection Hs' as Hs'. split_and!.
      * unfold Recording.IsRecording. rewrite <- Hs'. cbn. rewrite lookup_insert_eq. by apply bool_decide_eq_true.
      * rewrite <- Hs'. cbn. by rewrite lookup_insert_eq.
      * intros Hdb Hf. rewrite Hdb in Hw2. rewrite Hw2. by apply (insert_recording_row _ (mkRec _ _ _ _ _ _ _ _)).
    + done.
    + rewrite Hw'. destruct (dbPool h); [|done]. by rewrite (proj1 (insert_recording_keeps _ _ _)).
    + rewrite Hw'. destruct (dbPool h); [|done]. by rewrite (proj1 (proj2 (insert_recording_keeps _ _ _))).
  - split_and!; try done. split; [done|]. intros (id & sess & Hm). by destruct (Hyes _ _ Hm).
    intros id sess Hm. by destruct (Hyes _ _ Hm).
Qed.

(** a stop ends every row of the session that has no end: the answer carries
    the duration and the bytes of the active recording, every unfinished row of the
    session gets them, also the row of a recording that a crash cut off, finished
    rows and other sessions keep theirs, and nothing records the session any more.
    The file is not touched. *)
Theorem stop_finishes_rows h w sid e id w' r :
  dbPool h = true → pg_uuid sid = Some id → f_exec e ≠ StmtFails →
  HandleStopRecording h w sid e = (w', r) → status r = 200 →
  ∃ duration size, body r = BStopped sid duration size ∧
  Recording.IsRecording (state w') sid = false ∧ Recording.disk (state w') = Recording.disk (state w) ∧
  ∀ i row, recordings w !! i = Some row → ∃ row', recordings w' !! i = Some row' ∧
    (SessionID row = Some id → StoppedAt row = None →
       StoppedAt row' = Some (now e) ∧ DurationMs row' = duration ∧ SizeBytes row' = size) ∧
    (SessionID row ≠ Some id ∨ StoppedAt row ≠ None → row' = row).
Proof.
  intros Hdb Hpg Hf. unfold HandleStopRecording, refuse. destruct (recordingPool h); cbn [negb]; [|by intros [= <- <-]].
  destruct (uuid_Parse sid); [|by intros [= <- <-]]. unfold Recording.StopRecording.
  destruct (Recording.writers _ !! sid) as [ref|]; [|by intros [= <- <-]].
  destruct (Recording.heap (state w) !! ref) as [wr|]; [|by intros [= <- <-]].
  destruct (Recording.Close wr (now e)) as [wr' [d s]]. rewrite Hdb, Hpg.
  assert (∀ A (x y : A), match f_exec e with StmtFails => x | _ => y end = y) as -> by (by destruct (f_exec e)).
  intros [= <- <-] _. exists d, s. split_and!; [done| |done|].
  - unfold Recording.IsRecording. cbn. rewrite lookup_delete_eq. by apply bool_decide_eq_false, is_Some_None.
  - intros i row Hi. cbn. unfold finish_rows. rewrite lookup_fmap, Hi. cbn. eexists. split; [done|].
    destruct (decide _) as [[H1 H2]|Hn]; split; try done.
    + by intros [?|?].
    + intros H1 H2. by destruct Hn.
Qed.
End Handlers.

(** ** Concrete inputs *)

Definition demo_session : Session :=
  mkSession 7 1 2 "s" "claude" [] StateRunning None None 80 24 true 5 (Some 3) None None None 1.
(** Two spellings of one uuid; the second is the canonical one. *)
Definition demo_uuid (t : string) : option N :=
  if bool_decide (t = "AB7" ∨ t = "ab7")%string then Some 7%N else None.
Definition demo_uuid_String (n : N) : string := if bool_decide (n = 7%N) then "ab7" else if bool_decide (n = 8%N) then "r1" else "r2".
Definition demo_start_env (id : N) (t : Z) : env :=
  mkEnv t id false false NoFault QueryOk (Recording.mkCreate t true true Recording.WroteAll).
(** The row of a recording that a crash cut off. *)
Definition demo_crashed : Rec := mkRec 3 (Some 7%N) "r0.cast" 0 0 1 None 1.
Definition demo_world : World :=
  mkWorld (mkDB {[7%N := demo_session]} {[1%N]} [] 0) None {[3%N := demo_crashed]} (Recording.NewRecordingPool ∅).
Definition demo_handlers : Handlers := mkHandlers true true.
Definition demo_start (w : World) (sid : string) (id : N) (t : Z) : World * Response :=
  HandleStartRecording demo_uuid demo_uuid_String Recording.demo_header demo_handlers w sid (0, 0) (demo_start_env id t).

Lemma stop_finishes_rows_witness :
  let w1 := (demo_start demo_world "ab7" 8 5).1 in
  let '(w2, r) := HandleStopRecording demo_uuid demo_uuid demo_handlers w1 "ab7" (demo_start_env 9 4000005) in
  status r = 200 ∧ ∃ duration size, body r = BStopped "ab7" duration size ∧
  ∃ row, recordings w2 !! 3%N = Some row ∧ DurationMs row = duration.
Proof.
  intros w1. destruct (HandleStopRecording demo_uuid demo_uuid demo_handlers w1 "ab7" (demo_start_env 9 4000005)) as [w2 r] eqn:E.
  assert (status r = 200) as Hst by (change r with (w2, r).2; rewrite <- E; vm_compute; reflexivity).
  split; [done|].
  destruct (stop_finishes_rows demo_uuid demo_uuid demo_handlers w1 "ab7" (demo_start_env 9 4000005) 7 w2 r eq_refl eq_refl
    ltac:(done) E Hst) as (d & z & Hb & _ & _ & Hrows).
  destruct (Hrows 3%N demo_crashed) as (row & Hrow & Hend & _); [vm_compute; reflexivity|].
  exists d, z. split; [done|]. exists row. split; [done|]. by apply Hend.
Defined.

(** one session, two recordings: the pool knows a session by the text of the
    path, so the other spelling of its uuid starts a second recording of the same
    session, and the output, which comes under the canonical text, is only in one. *)
Lemma spellings_record_twice :
  let '(w1, r1) := demo_start demo_world "AB7" 8 5 in
  let '(w2, r2) := demo_start w1 "ab7" 9 6 in
  let s3 := Recording.WriteIfRecording Recording.demo_string Recording.demo_seconds (state w2) (demo_uuid_String 7) "ls" 7
              Recording.WroteAll in
  status r1 = 200 ∧ status r2 = 200 ∧
  Recording.IsRecording s3 "AB7" = true ∧ Recording.IsRecording s3 "ab7" = true ∧
  (SessionID <$> recordings w2 !! 8%N) = Some (Some 7%N) ∧ (SessionID <$> recordings w2 !! 9%N) = Some (Some 7%N) ∧
  Recording.disk s3 !! "r1.cast"%string = Recording.disk (state w2) !! "r1.cast"%string ∧
  Recording.disk s3 !! "r2.cast"%string ≠ Recording.disk (state w2) !! "r2.cast"%string.
Proof. vm_compute. split_and!; try reflexivity. discriminate. Qed.
End RecordingApi.
