(* ===== verification/License.v ===== *)
(** * internal/license: licence keys

    A key is a JSON web token signed with Ed25519; the manager holds the claims
    of the last key that was accepted. Signature checking (crypto/ed25519) and
    the syntactic half of json.Unmarshal are parameters; base64 is [Base64].
    A byte string is a [string], nil byte slices are [None], time.Now() is an
    argument for every time that it is read. *)
From Stdlib Require Import Ascii.
From S2P Require Import Prelude GoStrings Base64 Json.
Import Json.
#[local] Open Scope Z_scope.

Module License.

Definition TierCommunity : string := "community".
Definition TierTeam : string := "team".
Definition TierEnterprise : string := "enterprise".

Record Claims := mkClaims {
  Subject : string; Customer : string; Tier_ : string; MaxUsers_ : Z; MaxSatellites_ : Z;
  Features : list string; IssuedAt : Z; ExpiresAt : Z;
}.

Inductive license_error :=
  | MissingSubject | MissingTier | Expired | IssuedInFuture
  | InvalidTokenFormat | NoPublicKey | InvalidSignatureEncoding | InvalidSignature
  | InvalidHeader | UnsupportedAlgorithm | InvalidPayload
  | InvalidKeyEncoding | InvalidKeySize.

(** [now1] and [now2] in seconds: the clock is read twice. *)
Definition Validate (c : Claims) (now1 now2 : Z) : option license_error :=
  if String.eqb (Subject c) "" then Some MissingSubject
  else if String.eqb (Tier_ c) "" then Some MissingTier
  else if (0 <? ExpiresAt c) && (ExpiresAt c <? now1) then Some Expired
  else if (0 <? IssuedAt c) && (now2 + 300 <? IssuedAt c) then Some IssuedInFuture
  else None.

Fixpoint has_feature (l : list string) (feature : string) : bool :=
  match l with [] => false | f :: l' => String.eqb f feature || has_feature l' feature end.
Definition claims_HasFeature (c : Claims) (feature : string) : bool := has_feature (Features c) feature.

Record Manager := mkManager { claims : option Claims; publicKey : option string; loaded : bool }.

Definition PublicKeySize : nat := 32.
Definition NewManager (publicKeyBase64 : string) : result license_error Manager :=
  if String.eqb publicKeyBase64 "" then Ok (mkManager None None false) else
  match Base64.DecodeString Base64.StdEncoding publicKeyBase64 with
  | None => Err InvalidKeyEncoding
  | Some keyBytes =>
      if negb (Nat.eqb (String.length keyBytes) PublicKeySize) then Err InvalidKeySize
      else Ok (mkManager None (Some keyBytes) false)
  end.

(** The features and limits of features.go. *)
Definition FeatureAdvancedTelemetry : string := "advanced_telemetry".
Definition FeatureAdvancedRecordings : string := "advanced_recordings".
Definition FeatureSessionChaining : string := "session_chaining".
Definition FeatureScheduledSessions : string := "scheduled_sessions".
Definition CommunityMaxUsers : Z := 3.
Definition CommunityMaxSatellites : Z := 5.
Definition CommunityMaxRecordings : Z := 50.
Definition CommunityTelemetryRetention : Z := 1.

Definition Tier (m : Manager) : string := from_option Tier_ TierCommunity (claims m).
Definition IsEnterprise (m : Manager) : bool := String.eqb (Tier m) TierEnterprise.
Definition MaxUsers (m : Manager) : Z :=
  match claims m with
  | Some c => if MaxUsers_ c =? 0 then CommunityMaxUsers else MaxUsers_ c
  | None => CommunityMaxUsers
  end.
Definition MaxSatellites (m : Manager) : Z :=
  match claims m with
  | Some c => if MaxSatellites_ c =? 0 then CommunityMaxSatellites else MaxSatellites_ c
  | None => CommunityMaxSatellites
  end.
Definition HasFeature (m : Manager) (feature : string) : bool :=
  from_option (λ c, claims_HasFeature c feature) false (claims m).
Definition MaxRecordings (m : Manager) : Z :=
  match claims m with
  | Some c => if claims_HasFeature c FeatureAdvancedRecordings then 0 else CommunityMaxRecordings
  | None => CommunityMaxRecordings
  end.
Definition TelemetryRetentionHours (m : Manager) : Z :=
  match claims m with
  | Some c => if claims_HasFeature c FeatureAdvancedTelemetry then 720 else CommunityTelemetryRetention
  | None => CommunityTelemetryRetention
  end.

Definition base64URLDecode (s : string) : option string :=
  let s := match Nat.modulo (String.length s) 4 with
           | 2%nat => s +:+ "==" | 3%nat => s +:+ "=" | _ => s end in
  Base64.DecodeString Base64.URLEncoding s.

Definition decode_header : object → decoded string :=
  field "typ" decode_string "" $ field "alg" decode_string "" $ struct (λ alg (typ : string), alg).
Definition decode_claims : object → decoded Claims :=
  field "exp" decode_int 0 $ field "iat" decode_int 0 $ field "features" decode_strings [] $
  field "max_satellites" decode_int 0 $ field "max_users" decode_int 0 $
  field "tier" decode_string "" $ field "customer" decode_string "" $ field "sub" decode_string "" $
  struct mkClaims.

Section Keys.
Variable ed25519_Verify : string → string → string → bool.   (* key, message, signature *)
Variable parse : string → option json.

Definition parseAndVerify (m : Manager) (token : string) : result license_error Claims :=
  match Str.Split token "." with
  | [p0; p1; p2] =>
      match publicKey m with
      | None => Err NoPublicKey
      | Some key =>
          match base64URLDecode p2 with
          | None => Err InvalidSignatureEncoding
          | Some signature =>
              if negb (ed25519_Verify key (p0 +:+ "." +:+ p1) signature) then Err InvalidSignature else
              match base64URLDecode p0 ≫= λ b, unmarshal decode_header (parse b) with
              | None => Err InvalidHeader
              | Some alg =>
                  if negb (String.eqb alg "EdDSA") then Err UnsupportedAlgorithm else
                  match base64URLDecode p1 ≫= λ b, unmarshal decode_claims (parse b) with
                  | None => Err InvalidPayload
                  | Some c => Ok c
                  end
              end
          end
      end
  | _ => Err InvalidTokenFormat
  end.

Definition LoadKey (m : Manager) (licenseKey : string) (now1 now2 : Z) : Manager * option license_error :=
  if String.eqb licenseKey "" then (mkManager None (publicKey m) false, None) else
  match parseAndVerify m licenseKey with
  | Err e => (m, Some e)
  | Ok c =>
      match Validate c now1 now2 with
      | Some e => (m, Some e)
      | None => (mkManager (Some c) (publicKey m) true, None)
      end
  end.

(** *** What a manager has loaded *)

Definition load_keys (m : Manager) (keys : list (string * Z * Z)) : Manager :=
  foldl (λ m k, (LoadKey m k.1.1 k.1.2 k.2).1) m keys.

(** A key whose signature is right, whose header names EdDSA, with the claims [c] in
    its payload. *)
Definition signed (key token : string) (c : Claims) : Prop := ∃ p0 p1 p2 signature,
  token = p0 +:+ "." +:+ p1 +:+ "." +:+ p2 ∧ base64URLDecode p2 = Some signature ∧
  ed25519_Verify key (p0 +:+ "." +:+ p1) signature = true ∧
  base64URLDecode p0 ≫= (λ b, unmarshal decode_header (parse b)) = Some "EdDSA"%string ∧
  base64URLDecode p1 ≫= (λ b, unmarshal decode_claims (parse b)) = Some c.

Lemma parseAndVerify_signed m token c : parseAndVerify m token = Ok c →
  ∃ key, publicKey m = Some key ∧ signed key token c.
Proof.
  unfold parseAndVerify. destruct (Str.Split token ".") as [|p0 [|p1 [|p2 [|]]]] eqn:E; try done.
  destruct (publicKey m) as [key|]; [|done]. destruct (base64URLDecode p2) as [sg|] eqn:Es; [|done].
  destruct (ed25519_Verify _ _ _) eqn:Ev; [|done]. cbn [negb].
  destruct (base64URLDecode p0 ≫= _) as [alg|] eqn:Ea; [|done]. destruct (String.eqb_spec alg "EdDSA") as [->|]; [|done]. cbn [negb].
  destruct (base64URLDecode p1 ≫= _) as [c'|] eqn:Ec; [|done]. intros [= ->].
  exists key. split; [done|]. exists p0, p1, p2, sg. split; [by apply Str.Split_join3|]. by split_and!.
Qed.

Lemma LoadKey_key m k n1 n2 : publicKey (LoadKey m k n1 n2).1 = publicKey m.
Proof. unfold LoadKey. by repeat case_match. Qed.

Lemma load_keys_key m keys : publicKey (load_keys m keys) = publicKey m.
Proof.
  unfold load_keys. revert m. induction keys as [|k keys IH]; intros m; [done|]. cbn [foldl].
  by rewrite IH, LoadKey_key.
Qed.

(** Keys that change nothing: they are refused. *)
Definition refused (m : Manager) (k : string * Z * Z) : Prop :=
  is_Some (LoadKey m k.1.1 k.1.2 k.2).2.

Lemma LoadKey_refused m k : refused m k → (LoadKey m k.1.1 k.1.2 k.2).1 = m.
Proof. unfold refused, LoadKey. intros [e He]. repeat case_match; simplify_eq/=; done. Qed.

Lemma LoadKey_claims m tok n1 n2 c : claims (LoadKey m tok n1 n2).1 = Some c →
  (is_Some (LoadKey m tok n1 n2).2 ∧ claims m = Some c) ∨
  (parseAndVerify m tok = Ok c ∧ Validate c n1 n2 = None).
Proof.
  unfold LoadKey. destruct (String.eqb tok ""); [done|].
  destruct (parseAndVerify m tok) as [c'|e]; [|by left; eauto].
  destruct (Validate c' n1 n2) as [e|] eqn:Ev; [by left; eauto|]. intros [= ->]. by right.
Qed.

Lemma has_feature_elem l f : has_feature l f = true ↔ f ∈ l.
Proof.
  induction l as [|x l IH]; cbn [has_feature]; [set_solver|].
  rewrite orb_true_iff, IH, String.eqb_eq, elem_of_cons. by split; intros [?|?]; auto.
Qed.

Lemma Validate_None c n1 n2 : Validate c n1 n2 = None →
  Subject c ≠ ""%string ∧ Tier_ c ≠ ""%string ∧ (0 < ExpiresAt c → n1 <= ExpiresAt c) ∧
  (0 < IssuedAt c → IssuedAt c <= n2 + 300).
Proof.
  unfold Validate. destruct (String.eqb_spec (Subject c) ""); [done|].
  destruct (String.eqb_spec (Tier_ c) ""); [done|].
  destruct (Z.ltb_spec 0 (ExpiresAt c)), (Z.ltb_spec (ExpiresAt c) n1); try done; cbn [andb];
    destruct (Z.ltb_spec 0 (IssuedAt c)), (Z.ltb_spec (n2 + 300) (IssuedAt c)); try done;
    intros _; (split; [done|]); (split; [done|]); lia.
Qed.

(** Claims that are loaded come from the last key that was accepted. *)
Lemma load_keys_claims m keys c : claims m = None → claims (load_keys m keys) = Some c →
  ∃ before tok n1 n2 after, keys = before ++ (tok, n1, n2) :: after ∧
    parseAndVerify (load_keys m before) tok = Ok c ∧ Validate c n1 n2 = None ∧
    Forall (refused (load_keys m keys)) after.
Proof.
  intros Hm. induction keys as [|[[tok n1] n2] keys IH] using rev_ind; [cbn; congruence|].
  unfold load_keys at 1. rewrite foldl_app. cbn [foldl fst snd]. fold (load_keys m keys). intros Hc.
  assert (load_keys m (keys ++ [(tok, n1, n2)]) = (LoadKey (load_keys m keys) tok n1 n2).1) as E.
  { unfold load_keys. by rewrite foldl_app. }
  destruct (LoadKey_claims _ _ _ _ _ Hc) as [[Hr Hold]|[Hp Hv]].
  - destruct (IH Hold) as (before & tok' & n1' & n2' & after & -> & Hp & Hv & Ha).
    exists before, tok', n1', n2', (after ++ [(tok, n1, n2)]). split; [by rewrite <- app_assoc|].
    split; [done|]. split; [done|]. rewrite E.
    pose proof (LoadKey_refused (load_keys m (before ++ (tok', n1', n2') :: after)) (tok, n1, n2) Hr) as E2.
    cbn [fst snd] in E2. rewrite E2.
    apply Forall_app. split; [done|]. by constructor.
  - exists keys, tok, n1, n2, []. by split_and!.
Qed.

Lemma NewManager_Ok s m : NewManager s = Ok m → claims m = None.
Proof. unfold NewManager. repeat case_match; by intros [= <-]. Qed.

(** C34: Whatever keys are loaded, a feature that is enabled was granted by a key
    whose signature the public key of the manager verifies, whose header names EdDSA,
    and which was valid when it was loaded: it has a subject and a tier, was not
    expired, and was not issued more than five minutes in the future; every key
    that was loaded after it was refused. Without a public key no feature is ever enabled. *)
Theorem features_are_signed pub m0 keys f :
  NewManager pub = Ok m0 → HasFeature (load_keys m0 keys) f = true →
  ∃ key c before tok n1 n2 after, publicKey m0 = Some key ∧ String.length key = 32%nat ∧
    keys = before ++ (tok, n1, n2) :: after ∧ signed key tok c ∧ f ∈ Features c ∧
    Subject c ≠ ""%string ∧ Tier_ c ≠ ""%string ∧ (0 < ExpiresAt c → n1 <= ExpiresAt c) ∧
    (0 < IssuedAt c → IssuedAt c <= n2 + 300) ∧
    Forall (refused (load_keys m0 keys)) after.
Proof.
  intros Hnew. unfold HasFeature. destruct (claims (load_keys m0 keys)) as [c|] eqn:Hc; [|done].
  intros Hf. cbn in Hf. apply has_feature_elem in Hf.
  destruct (load_keys_claims m0 keys c (NewManager_Ok _ _ Hnew) Hc)
    as (before & tok & n1 & n2 & after & -> & Hp & Hv & Ha).
  destruct (parseAndVerify_signed _ _ _ Hp) as (key & Hk & Hs). rewrite load_keys_key in Hk.
  apply Validate_None in Hv as (Hsub & Htier & Hexp & Hiat).
  exists key, c, before, tok, n1, n2, after. split; [done|]. split; [|by split_and!].
  revert Hnew Hk. unfold NewManager. destruct (String.eqb pub ""); [by intros [= <-]|].
  destruct (Base64.DecodeString _ _) as [kb|]; [|done].
  destruct (Nat.eqb_spec (String.length kb) PublicKeySize) as [Hl|]; [|done].
  by intros [= <-] [= <-].
Qed.

(** *** Signing *)

(** What a generator of keys does; [sign] is its signature of a message. *)
Definition sign_token (sign : string → string) (header payload : string) : string :=
  let input := Base64.RawURL header +:+ "." +:+ Base64.RawURL payload in
  input +:+ "." +:+ Base64.RawURL (sign input).

Definition claims_json (c : Claims) : json :=
  JObject [("sub", JString (Subject c)); ("customer", JString (Customer c)); ("tier", JString (Tier_ c));
    ("max_users", JInt (MaxUsers_ c)); ("max_satellites", JInt (MaxSatellites_ c));
    ("features", JArray (JString <$> Features c)); ("iat", JInt (IssuedAt c)); ("exp", JInt (ExpiresAt c))]%string.

Definition int64 (z : Z) : Prop := Str.min_int <= z <= Str.max_int.

Lemma base64URLDecode_RawURL s : base64URLDecode (Base64.RawURL s) = Some s.
Proof.
  unfold base64URLDecode. enough ((match Nat.modulo (String.length (Base64.RawURL s)) 4 with
    | 2%nat => Base64.RawURL s +:+ "==" | 3%nat => Base64.RawURL s +:+ "=" | _ => Base64.RawURL s end)
    = Base64.EncodeToString Base64.URLEncoding s) as -> by apply Base64.decode_encoded.
  unfold Base64.RawURL.
  induction s as [|a|a b|a b c s IH] using Base64.string_ind3; [done|..]; cbn [Base64.EncodeToString].
  - cbn [Str.TrimRight]. rewrite !(proj1 (proj2 (proj2 (Base64.digit_facts _ _ _)))). done.
  - cbn [Str.TrimRight]. rewrite !(proj1 (proj2 (proj2 (Base64.digit_facts _ _ _)))). done.
  - assert (∀ d x, Ascii.eqb d Base64.pad = false →
      Str.TrimRight (String d x) Base64.pad = String d (Str.TrimRight x Base64.pad)) as Hs.
    { intros d x Hd. cbn [Str.TrimRight]. destruct (Str.TrimRight x Base64.pad); by rewrite ?Hd. }
    rewrite !Hs by apply Base64.digit_facts.
    set (r := Str.TrimRight (Base64.EncodeToString Base64.URLEncoding s) Base64.pad) in *.
    cbn [String.length]. replace (S (S (S (S (String.length r))))) with (String.length r + 1 * 4)%nat by lia.
    rewrite Nat.Div0.mod_add, <- IH. by repeat case_match.
Qed.

Lemma decode_elements_strings l : ∀ old, decode_elements old (JString <$> l) = (l, false).
Proof. induction l as [|s l IH]; intros old; [done|]. cbn [fmap list_fmap decode_elements decode_string]. by rewrite IH. Qed.

Lemma decode_claims_json c : int64 (MaxUsers_ c) → int64 (MaxSatellites_ c) → int64 (IssuedAt c) →
  int64 (ExpiresAt c) → unmarshal decode_claims (Some (claims_json c)) = Some c.
Proof.
  destruct c as [sub cust tier mu ms fs iat exp]. unfold int64. cbn [MaxUsers_ MaxSatellites_ IssuedAt ExpiresAt].
  intros H1 H2 H3 H4.
  assert (∀ z, Str.min_int <= z <= Str.max_int → ∀ old, decode_int old (JInt z) = (z, false)) as Hint.
  { intros z Hz old. cbn [decode_int]. by rewrite (proj2 (Z.leb_le _ _)), (proj2 (Z.leb_le _ _)) by lia. }
  lazy -[decode_int decode_strings list_fmap]. rewrite !Hint by done.
  unfold decode_strings. by rewrite decode_elements_strings.
Qed.

(** A key that was signed for the manager's public key, with claims that are
    valid when it is loaded, is accepted, and its claims come back as they were
    signed. *)
Theorem license_roundtrip m key sign header payload alg_json c n1 n2 :
  publicKey m = Some key →
  (∀ msg, ed25519_Verify key msg (sign msg) = true) →
  parse header = Some alg_json → unmarshal decode_header (Some alg_json) = Some "EdDSA"%string →
  parse payload = Some (claims_json c) →
  int64 (MaxUsers_ c) → int64 (MaxSatellites_ c) → int64 (IssuedAt c) → int64 (ExpiresAt c) →
  Validate c n1 n2 = None →
  LoadKey m (sign_token sign header payload) n1 n2 = (mkManager (Some c) (Some key) true, None).
Proof.
  intros Hk Hs Hh Ha Hp H1 H2 H3 H4 Hv. unfold LoadKey.
  set (tok := sign_token sign header payload).
  assert (Str.Split tok "." = [Base64.RawURL header; Base64.RawURL payload;
    Base64.RawURL (sign (Base64.RawURL header +:+ "." +:+ Base64.RawURL payload))]) as Esp.
  { unfold tok, sign_token. rewrite !Str.app_assoc_str.
    assert (∀ x y, Str.Split (Base64.RawURL x +:+ ("." +:+ y)) "." = Base64.RawURL x :: Str.Split y ".") as Hsep
      by (intros x y; apply Str.Split_sep, Base64.RawURL_no_dot).
    by rewrite !Hsep, Str.Split_none by apply Base64.RawURL_no_dot. }
  assert (String.eqb tok "" = false) as ->.
  { apply String.eqb_neq. intros E. rewrite E in Esp. done. }
  unfold parseAndVerify. rewrite Esp, Hk, base64URLDecode_RawURL, Hs. cbn [negb].
  rewrite !base64URLDecode_RawURL. cbn [mbind option_bind]. rewrite Hh, Ha, Hp, decode_claims_json by done.
  change (String.eqb "EdDSA" "EdDSA") with true. cbn [negb]. by rewrite Hv.
Qed.
End Keys.

(** ** Examples *)

Definition demo_claims : Claims :=
  mkClaims "c-1" "Acme" "enterprise" 0 25 [FeatureSessionChaining] 1000 5000.
Definition demo_verify (key msg sg : string) : bool := String.eqb sg (key +:+ msg).
Definition demo_key : string := "0123456789abcdef0123456789abcdef".
Definition demo_parse (s : string) : option json :=
  if String.eqb s "H" then Some (JObject [("alg", JString "EdDSA"); ("typ", JString "JWT")])%string
  else if String.eqb s "P" then Some (claims_json demo_claims) else None.
Definition demo_token : string := sign_token (λ msg, demo_key +:+ msg) "H" "P".
Definition demo_manager : Manager := mkManager None (Some demo_key) false.

Example license_roundtrip_witness :
  LoadKey demo_verify demo_parse demo_manager demo_token 2000 2000 =
  (mkManager (Some demo_claims) (Some demo_key) true, None).
Proof.
  apply (license_roundtrip demo_verify demo_parse demo_manager demo_key (λ msg, demo_key +:+ msg) "H" "P"
           (JObject [("alg", JString "EdDSA"); ("typ", JString "JWT")])%string demo_claims 2000 2000);
    try (vm_compute; reflexivity); try (vm_compute; split; discriminate).
  intros msg. apply String.eqb_refl.
Defined.

Example features_are_signed_witness : ∃ c, signed demo_verify demo_parse demo_key demo_token c.
Proof.
  destruct (features_are_signed demo_verify demo_parse (Base64.EncodeToString Base64.StdEncoding demo_key) demo_manager
    [(demo_token, 2000, 2000); (demo_token, 6000, 6000)] FeatureSessionChaining)
    as (key & c & before & tok & n1 & n2 & after & Hk & _ & Hkeys & Hs & _).
  - vm_compute. reflexivity.
  - vm_compute. reflexivity.
  - exists c. injection Hk as <-. destruct before as [|x [|y before]].
    + injection Hkeys as <- _ _ _. exact Hs.
    + injection Hkeys as _ <- _ _ _. exact Hs.
    + injection Hkeys as _ _ E. by destruct before.
Defined.

(** A licence that expires while it is loaded stays: only LoadKey looks at the
    clock, and a key that is refused leaves the old claims. *)
Example expired_license_stays :
  let m := load_keys demo_verify demo_parse demo_manager [(demo_token, 2000, 2000); (demo_token, 6000, 6000)] in
  (LoadKey demo_verify demo_parse m demo_token 6000 6000).2 = Some Expired ∧ IsEnterprise m = true.
Proof. vm_compute. done. Qed.
End License.
