(* ===== verification/Dispatch.v ===== *)
(** * internal/dispatch/dispatcher.go: choosing a satellite

    The dispatcher lists the active satellites with their latest telemetry,
    keeps those with a stream, fresh telemetry and the required tags, scores
    them and takes the best. Scores are binary64 numbers (Stdlib's [SpecFloat],
    rounded after every operation, as the compiler does on amd64; it may fuse a
    product and a sum on arm64). Times are in nanoseconds. sort.Slice is not
    stable: the order of its input is a parameter; its result is only
    determined when no score is NaN. *)
From Stdlib Require Import SpecFloat.
From stdpp Require Import sorting.
From S2P Require Import Prelude SessionStore Channels Streams Satellites.
Import Store.
#[local] Open Scope Z_scope.

Module Dispatch.

(** ** float64 *)

Notation float64 := spec_float.
Definition prec : Z := 53.
Definition emax : Z := 1024.
Definition fadd : float64 → float64 → float64 := SFadd prec emax.
Definition fsub : float64 → float64 → float64 := SFsub prec emax.
Definition fmul : float64 → float64 → float64 := SFmul prec emax.
Definition fdiv : float64 → float64 → float64 := SFdiv prec emax.
Definition of_Z (z : Z) : float64 := binary_normalize prec emax z 0 false.
(** The constant p/q, correctly rounded. *)
Definition quot (p q : Z) : float64 := fdiv (of_Z p) (of_Z q).
Definition is_nan (x : float64) : bool := match x with S754_nan => true | _ => false end.

(** ** Data *)

Record DispatchOptions := mkOptions {
  Mode : string; RequireTags : list string; PreferTags : list string; RequireGPU : bool;
}.
Record DispatchResult := mkResult {
  r_SatelliteID : N; r_Score : float64; r_MatchedTags : list string; Dispatched : bool;
}.
Record SatelliteCandidate := mkCandidate {
  SatelliteID : N; Name : string; Status : string; Tags : list string;
  CPUPercent : float64; MemPercent : float64; DiskPercent : float64; GPUData : option string;
  TelemetryAt : Z; HasStream : bool; Score : float64; MatchedTags : list string;
}.

(** A row of satellite_telemetry; a column that is NULL is [None]. *)
Record TelemetryRow := mkTelemetryRow {
  t_satellite : N; t_cpu : option float64; t_memory : option float64; t_disk : option float64;
  t_gpu : option string; t_created : Z;
}.

Inductive dispatch_error := ErrNoSatelliteAvailable | ErrQuery.

(** ** Tags and scores *)

Definition tagSet (tags : list string) : gset string := list_to_set tags.

Definition hasAllRequiredTags (candidateTags requiredTags : list string) : bool :=
  forallb (λ t, bool_decide (t ∈ tagSet candidateTags)) requiredTags.

Definition computeMatchedTags (candidateTags preferTags : list string) : list string :=
  filter (λ t, t ∈ tagSet candidateTags) preferTags.

Fixpoint countMatchedTags (candidateTags preferTags : list string) : Z :=
  match preferTags with
  | [] => 0
  | t :: ts => (if bool_decide (t ∈ tagSet candidateTags) then 1 else 0) + countMatchedTags candidateTags ts
  end.

Definition one : float64 := of_Z 1.
Definition scoreSatellite (candidate : SatelliteCandidate) (preferTags : list string) : float64 :=
  let cpuScore := fsub one (fdiv (CPUPercent candidate) (of_Z 100)) in
  let memScore := fsub one (fdiv (MemPercent candidate) (of_Z 100)) in
  let diskScore := fsub one (fdiv (DiskPercent candidate) (of_Z 100)) in
  let baseScore := fadd (fadd (fmul (quot 1 2) cpuScore) (fmul (quot 3 10) memScore))
                     (fmul (quot 1 5) diskScore) in
  let matchedCount := countMatchedTags (Tags candidate) preferTags in
  let tagBonus := fmul (of_Z matchedCount) (quot 1 20) in
  fadd baseScore tagBonus.

Definition max_age : Z := 60 * 1000000000.
Definition filterCandidate (c : SatelliteCandidate) (opts : DispatchOptions) (now : Z) : bool :=
  if negb (HasStream c) then false
  else if max_age <? now - TelemetryAt c then false
  else hasAllRequiredTags (Tags c) (RequireTags opts).

(** ** The query *)

(** time.Time{}: the first of January of the year 1. *)
Definition zero_time : Z := -62135596800 * 1000000000.

(** ORDER BY created_at DESC *)
Definition later (a b : TelemetryRow) : Prop := t_created b <= t_created a.
#[export] Instance later_dec : RelDecision later.
Proof. intros a b. unfold later. apply _. Defined.

Section Dispatcher.
Variable uuid_String : N → string.
Variable arrange : list (N * Sats.Sat) → list (N * Sats.Sat).
Variable arrange_telemetry : list TelemetryRow → list TelemetryRow.
(** What sort.Slice makes of its input before it compares. *)
Variable shuffle : list SatelliteCandidate → list SatelliteCandidate.

Record db := mkDb { satellites : gmap N Sats.Sat; satellite_telemetry : list TelemetryRow }.

Definition latest (d : db) (id : N) : option TelemetryRow :=
  head (merge_sort later (filter (λ t, t_satellite t = id) (arrange_telemetry (satellite_telemetry d)))).

Definition active_rows (d : db) : list (N * Sats.Sat) :=
  filter (λ p, Sats.s_status p.2 = "active") (arrange (map_to_list (satellites d))).

(** One row of the result: the fields that are NULL stay zero. [streams] is nil
    or the registry. *)
Definition candidate (streams : option Registry.StreamRegistry) (d : db) (p : N * Sats.Sat)
    : SatelliteCandidate :=
  let t := latest d p.1 in
  let zero := S754_zero false in
  mkCandidate p.1 (Sats.s_name p.2) (Sats.s_status p.2) (elements (Sats.s_tags p.2))
    (default zero (t ≫= t_cpu)) (default zero (t ≫= t_memory)) (default zero (t ≫= t_disk))
    (t ≫= t_gpu) (from_option t_created zero_time t)
    (from_option (λ r, Registry.HasStream uuid_String r p.1) false streams) zero [].

Definition scored (opts : DispatchOptions) (c : SatelliteCandidate) : SatelliteCandidate :=
  mkCandidate (SatelliteID c) (Name c) (Status c) (Tags c) (CPUPercent c) (MemPercent c)
    (DiskPercent c) (GPUData c) (TelemetryAt c) (HasStream c)
    (scoreSatellite c (PreferTags opts)) (computeMatchedTags (Tags c) (PreferTags opts)).

(** A query that fails, or a row that does not scan, gives an error. *)
Definition candidates (streams : option Registry.StreamRegistry) (d : db) (opts : DispatchOptions)
    (now : Z) (f : query_fault) : result dispatch_error (list SatelliteCandidate) :=
  match f with
  | QueryOk =>
      Ok (scored opts <$> filter (λ c, filterCandidate c opts now = true)
                            (candidate streams d <$> active_rows d))
  | _ => Err ErrQuery
  end.

(** ** Dispatch and Preview *)

(** [a] may stay before [b]: not candidates[j].Score > candidates[i].Score. *)
Definition not_below (a b : SatelliteCandidate) : Prop := SFltb (Score a) (Score b) = false.
#[export] Instance not_below_dec : RelDecision not_below.
Proof. intros a b. unfold not_below. apply _. Defined.

Definition sort_by_score (l : list SatelliteCandidate) : list SatelliteCandidate :=
  merge_sort not_below (shuffle l).

Definition to_result (dispatched : bool) (c : SatelliteCandidate) : DispatchResult :=
  mkResult (SatelliteID c) (Score c) (MatchedTags c) dispatched.

Definition Dispatch (streams : option Registry.StreamRegistry) (d : db) (opts : DispatchOptions)
    (now : Z) (f : query_fault) : result dispatch_error DispatchResult :=
  match candidates streams d opts now f with
  | Err e => Err e
  | Ok [] => Err ErrNoSatelliteAvailable
  | Ok (c :: cs) => Ok (to_result true (hd c (sort_by_score (c :: cs))))
  end.

Definition Preview (streams : option Registry.StreamRegistry) (d : db) (opts : DispatchOptions)
    (now : Z) (f : query_fault) : result dispatch_error (list DispatchResult) :=
  match candidates streams d opts now f with
  | Err e => Err e
  | Ok cs => Ok (to_result false <$> sort_by_score cs)
  end.

(** ** Lemmas *)

(** Numbers compare like these triples. *)
Definition key (x : float64) : Z * Z * Z :=
  match x with
  | S754_nan | S754_zero _ => (0, 0, 0)
  | S754_infinity s => (if s then -2 else 2, 0, 0)
  | S754_finite s m e => if s then (-1, - e, - Z.pos m) else (1, e, Z.pos m)
  end.
Definition key_ltb (a b : Z * Z * Z) : bool :=
  let '(a1, a2, a3) := a in let '(b1, b2, b3) := b in
  (a1 <? b1) || ((a1 =? b1) && ((a2 <? b2) || ((a2 =? b2) && (a3 <? b3)))).

Lemma SFltb_key a b : is_nan a = false → is_nan b = false → SFltb a b = key_ltb (key a) (key b).
Proof.
  unfold SFltb. intros Ha Hb.
  destruct a as [sa|sa| |sa ma ea], b as [sb|sb| |sb mb eb]; try done; try by destruct sa.
  all: try by destruct sb. all: try by (destruct sa, sb).
  cbn [SFcompare key]. change (Pos.compare_cont Eq ma mb) with (Pos.compare ma mb).
  destruct sa, sb; try done; unfold key_ltb; cbn -[Z.ltb Z.eqb Z.opp];
    destruct (Z.compare_spec ea eb) as [->|?|?]; try lia;
    destruct (Pos.compare_spec ma mb) as [->|?|?]; cbn -[Z.ltb Z.eqb Z.opp]; lia.
Qed.

Lemma not_below_trans a b c :
  is_nan (Score a) = false → is_nan (Score b) = false → is_nan (Score c) = false →
  not_below a b → not_below b c → not_below a c.
Proof.
  unfold not_below. intros Ha Hb Hc. rewrite !SFltb_key by done.
  destruct (key (Score a)) as [[]], (key (Score b)) as [[]], (key (Score c)) as [[]]. simpl. lia.
Qed.

#[local] Instance not_below_total : Total not_below.
Proof.
  intros a b. unfold not_below.
  destruct (is_nan (Score a)) eqn:Ha, (is_nan (Score b)) eqn:Hb;
    try (destruct (Score a), (Score b); done || by left).
  rewrite !SFltb_key by done. destruct (key (Score a)) as [[]], (key (Score b)) as [[]]. simpl. lia.
Qed.

Lemma head_dominates c l : Forall (λ c, is_nan (Score c) = false) (c :: l) →
  Sorted not_below (c :: l) → Forall (not_below c) l.
Proof.
  revert c. induction l as [|c' l IH]; intros c Hn Hs; [done|].
  apply Sorted_inv in Hs as [Hs Hh]. inversion Hh; subst.
  inversion Hn as [|? ? Hc Hn']; subst. constructor; [done|].
  pose proof (IH c' Hn' Hs) as Hd. inversion Hn' as [|? ? Hc' Hl]; subst.
  rewrite !Forall_forall in *. intros x Hx. apply not_below_trans with c'; auto.
Qed.

Lemma hasAllRequiredTags_spec tags req :
  hasAllRequiredTags tags req = true ↔ ∀ t, t ∈ req → t ∈ tags.
Proof.
  unfold hasAllRequiredTags, tagSet. rewrite forallb_forall. setoid_rewrite <- list_elem_of_In.
  setoid_rewrite bool_decide_eq_true. set_solver.
Qed.

Lemma countMatchedTags_spec tags prefer :
  countMatchedTags tags prefer = Z.of_nat (length (computeMatchedTags tags prefer)).
Proof.
  induction prefer as [|t ts IH]; [done|]. cbn [countMatchedTags]. rewrite IH.
  unfold computeMatchedTags. rewrite filter_cons. case_bool_decide; case_decide; simpl; tauto || lia.
Qed.

Context (arrange_perm : ∀ l, arrange l ≡ₚ l).
Context (arrange_telemetry_perm : ∀ l, arrange_telemetry l ≡ₚ l).
Context (shuffle_perm : ∀ l, shuffle l ≡ₚ l).

#[local] Instance later_total : Total later.
Proof. intros a b. unfold later. lia. Qed.
#[local] Instance later_trans : Transitive later.
Proof. intros a b c. unfold later. lia. Qed.

Lemma latest_Some d id t : latest d id = Some t →
  t ∈ satellite_telemetry d ∧ t_satellite t = id ∧
  ∀ t', t' ∈ satellite_telemetry d → t_satellite t' = id → t_created t' <= t_created t.
Proof.
  unfold latest. set (l := filter _ _). intros Hh.
  assert (∀ x, x ∈ merge_sort later l ↔ x ∈ satellite_telemetry d ∧ t_satellite x = id) as Hin.
  { intros x. rewrite merge_sort_Permutation. unfold l. rewrite list_elem_of_filter, arrange_telemetry_perm. tauto. }
  pose proof (StronglySorted_merge_sort later l) as Hs.
  destruct (merge_sort later l) as [|t0 l'] eqn:El; [done|]. injection Hh as ->.
  apply StronglySorted_inv in Hs as [_ Hs]. rewrite Forall_forall in Hs.
  split_and!; try by apply Hin, list_elem_of_here.
  intros t' Ht' Hid. assert (t' ∈ t :: l') as [->|Hl]%elem_of_cons by by apply Hin.
  - lia.
  - by apply Hs in Hl.
Qed.

Lemma elem_of_candidates streams d opts now cs c :
  candidates streams d opts now QueryOk = Ok cs →
  c ∈ cs ↔ ∃ id s, satellites d !! id = Some s ∧ Sats.s_status s = "active" ∧
    filterCandidate (candidate streams d (id, s)) opts now = true ∧
    c = scored opts (candidate streams d (id, s)).
Proof.
  intros [= <-]. rewrite list_elem_of_fmap. setoid_rewrite list_elem_of_filter.
  setoid_rewrite list_elem_of_fmap. unfold active_rows. setoid_rewrite list_elem_of_filter.
  setoid_rewrite arrange_perm. split.
  - intros (c0 & -> & Hf & [id s] & -> & Hs & Hin%elem_of_map_to_list). eauto 10.
  - intros (id & s & Hin%elem_of_map_to_list & Hs & Hf & ->). eauto 10.
Qed.

Lemma sort_by_score_best c cs :
  Forall (λ c, is_nan (Score c) = false) (c :: cs) →
  let best := hd c (sort_by_score (c :: cs)) in
  best ∈ c :: cs ∧ ∀ c', c' ∈ c :: cs → not_below best c'.
Proof.
  intros Hn best. unfold sort_by_score in best.
  assert (∀ x, x ∈ merge_sort not_below (shuffle (c :: cs)) ↔ x ∈ c :: cs) as Hin
    by (intros x; by rewrite merge_sort_Permutation, shuffle_perm).
  pose proof (Sorted_merge_sort not_below (shuffle (c :: cs))) as Hs.
  destruct (merge_sort not_below (shuffle (c :: cs))) as [|b l] eqn:El.
  { exfalso. apply (elem_of_nil c), Hin, list_elem_of_here. }
  subst best. cbn [hd]. split; [apply Hin, list_elem_of_here|].
  assert (Forall (λ c, is_nan (Score c) = false) (b :: l)) as Hn'.
  { rewrite Forall_forall in Hn |- *. intros x Hx. by apply Hn, Hin. }
  pose proof (head_dominates _ _ Hn' Hs) as Hd. rewrite Forall_forall in Hd.
  intros c' [->|Hc']%Hin%elem_of_cons; [|by apply Hd].
  by destruct (not_below_total b b).
Qed.

(** ** Properties *)

(** The satellites that may be chosen. *)
Definition eligible (streams : option Registry.StreamRegistry) (d : db) (opts : DispatchOptions)
    (now : Z) (id : N) : Prop :=
  ∃ s t, satellites d !! id = Some s ∧ Sats.s_status s = "active" ∧
    (∃ r, streams = Some r ∧ Registry.HasStream uuid_String r id = true) ∧
    latest d id = Some t ∧ now - t_created t <= max_age ∧
    (∀ tag, tag ∈ RequireTags opts → tag ∈ Sats.s_tags s).

Definition score_of (streams : option Registry.StreamRegistry) (d : db) (opts : DispatchOptions)
    (id : N) : float64 :=
  from_option (λ s, scoreSatellite (candidate streams d (id, s)) (PreferTags opts)) S754_nan
    (satellites d !! id).

Lemma filterCandidate_eligible streams d opts now id s :
  zero_time + max_age < now → satellites d !! id = Some s → Sats.s_status s = "active" →
  filterCandidate (candidate streams d (id, s)) opts now = true ↔ eligible streams d opts now id.
Proof.
  intros Hnow Hs Ha. unfold filterCandidate, eligible. cbn [candidate HasStream TelemetryAt Tags fst snd].
  split.
  - destruct streams as [r|]; [|done]. cbn [from_option]. destruct (Registry.HasStream _ r id) eqn:Hr; [|done].
    cbn [negb]. destruct (Z.ltb_spec max_age (now - from_option t_created zero_time (latest d id))); [done|].
    rewrite hasAllRequiredTags_spec. intros Ht. destruct (latest d id) as [t|] eqn:El; cbn [from_option] in *; [|lia].
    exists s, t. split_and!; eauto. intros tag Htag. apply elem_of_elements. by apply Ht.
  - intros (s' & t & Hs' & _ & (r & -> & Hr) & El & Hage & Htags). simplify_eq. rewrite El.
    cbn [from_option]. rewrite Hr. cbn [negb]. destruct (Z.ltb_spec max_age (now - t_created t)); [lia|].
    apply hasAllRequiredTags_spec. intros tag Htag. by apply elem_of_elements, Htags.
Qed.

End Dispatcher.

(** ** Examples *)

(** Two idle satellites and a busy one; the preferred tag decides. *)
Definition demo_sat (name : string) (tags : gset string) : Sats.Sat :=
  Sats.mkSat name 0 None "active" "" "" "" [] tags 0 0.
Definition demo_row (id : N) (cpu : Z) : TelemetryRow :=
  mkTelemetryRow id (Some (of_Z cpu)) (Some (of_Z 50)) (Some (of_Z 50)) None 1000000000.
Definition demo : db :=
  mkDb (list_to_map [(1%N, demo_sat "a" ∅); (2%N, demo_sat "b" {["gpu"%string]}); (3%N, demo_sat "c" ∅)])
    [demo_row 1 10; demo_row 2 10; demo_row 3 90].
Definition demo_streams : Registry.StreamRegistry :=
  foldr (λ k r, Registry.RegisterSatelliteStream r k (Some 0%N)) Registry.NewStreamRegistry ["1"; "2"; "3"]%string.

Definition demo_name (id : N) : string := match id with 1 => "1" | 2 => "2" | _ => "3" end%N%string.
Definition demo_opts : DispatchOptions := mkOptions "auto-dispatch" [] ["gpu"%string] false.

End Dispatch.
