(* ===== verification/Discovery.v ===== *)
(** * internal/satellite/context_parser.go, monitors/runner.go, internal/api/baselines.go: discovery

    What a satellite finds out about its machine: the front matter of its context
    files, the drift between two discoveries, the runner of the monitor scripts,
    and the handlers of the server for baselines and profiles. YAML, JSON and the
    processes are parameters; percentages are binary64 as in [Dispatch]. *)
From Stdlib Require Import Ascii String.
From Stdlib Require Import SpecFloat.
From S2P Require Import Prelude GoStrings.
From S2P Require Import Recording.
From S2P Require Import Dispatch.
Import Dispatch(fsub, of_Z).
Import Recording(newline, carriage, drop_cr, text_of, Split_text_of).
#[local] Open Scope Z_scope.
#[local] Set Default Proof Using "Type".

(** ** Context files *)

Module Context.

Record HardwareInfo := mkHardware {
  CPU : string; Cores : Z; RAMGB : spec_float; RAMSpeedMHz : Z; RAMType : string; GPU : list string; Storage : list string;
  HighestDiskUtilizationPct : spec_float;
}.
Record ServicesInfo := mkServices { ListeningPorts : list Z; ContainersRunning : Z }.
Record ContextFrontmatter := mkFront {
  DAAOSchema : string; LastDiscovered : string; OSFamily : string; MachineClasses : list string; RecommendedAgents : list string;
  Hardware : HardwareInfo; Services : ServicesInfo;
}.
Definition zero : spec_float := S754_zero false.
Definition empty_front : ContextFrontmatter :=
  mkFront "" "" "" [] [] (mkHardware "" 0 zero 0 "" [] [] zero) (mkServices [] 0).
Record AgentRecommendation := mkRec { AgentSlug : string; Reason : string; r_MachineClasses : list string }.
Record DriftReport := mkDrift { NewPorts : list Z; RemovedPorts : list Z; NewClasses : list string; DiskDelta : spec_float; HasDrift : bool }.

(** bufio.Scanner gives up at a line of this length. *)
Definition MaxScanTokenSize : Z := 65536.
Definition scanner_lines (content : string) : list string :=
  let l := Str.Split content newline in match last l with Some EmptyString => removelast l | _ => l end.
Definition join_lines (ls : list string) : string := String.concat (String newline EmptyString) ls.
(** The loop of extractFrontmatter; [inFront] holds the lines once it is inside. *)
Fixpoint extract (inFront : option (list string)) (raw : list string) : option string :=
  match raw with
  | [] => None
  | x :: rest =>
      if MaxScanTokenSize <=? Z.of_nat (String.length x) then None else
      let line := drop_cr x in
      if String.eqb (Str.TrimSpace line) "---" then
        match inFront with None => extract (Some []) rest | Some lines => Some (join_lines lines) end
      else extract (match inFront with Some lines => Some (lines ++ [line]) | None => None end) rest
  end.
Definition extractFrontmatter (content : string) : option string := extract None (scanner_lines content).

Section Context.
Variable yaml : string → option ContextFrontmatter.
(** The front matter of a file, which may be unreadable. *)
Definition ParseContextFrontmatter (data : option string) : option ContextFrontmatter :=
  match data with
  | None => None
  | Some d => match extractFrontmatter d with None => Some empty_front | Some y => yaml y end
  end.

Variable print_pct : spec_float → string.               (* %.1f *)
Definition reason_for (agent : string) : string :=
  if String.eqb agent "security-scanner" then "Detected exposed services — security scan recommended" else
  if String.eqb agent "log-analyzer" then "Running services detected — log analysis recommended" else
  if String.eqb agent "system-monitor" then "Infrastructure detected — continuous monitoring recommended" else
  if String.eqb agent "deployment-assistant" then "CI/CD environment detected — deployment assistance recommended" else
  "Discovery agent recommended " +:+ agent.
Definition GetAgentRecommendations (fm : ContextFrontmatter) : list AgentRecommendation :=
  ((λ a, mkRec a (reason_for a) (MachineClasses fm)) <$> RecommendedAgents fm) ++
  (let pct := HighestDiskUtilizationPct (Hardware fm) in
   if SFleb (of_Z 90) pct
   then [mkRec "system-monitor" ("CRITICAL: Disk utilization at " +:+ print_pct pct +:+ "% — monitoring urgently needed") (MachineClasses fm)]
   else []).
End Context.

(** *** Drift *)

Section Drift.
(** The order in which Go walks a map. *)
Variable range : gset Z → list Z.
Definition toIntSet (l : list Z) : gset Z := list_to_set l.
Definition toStringSet (l : list string) : gset string := list_to_set l.
Definition DetectDrift (previous current : ContextFrontmatter) : DriftReport :=
  let prev := toIntSet (ListeningPorts (Services previous)) in
  let curr := toIntSet (ListeningPorts (Services current)) in
  let new := filter (.∉ prev) (range curr) in
  let removed := filter (.∉ curr) (range prev) in
  let classes := filter (.∉ toStringSet (MachineClasses previous)) (MachineClasses current) in
  let p := HighestDiskUtilizationPct (Hardware previous) in
  let c := HighestDiskUtilizationPct (Hardware current) in
  let both := SFltb zero p && SFltb zero c in
  let delta := if both then fsub c p else zero in
  mkDrift new removed classes delta
    (negb (bool_decide (new = [])) || negb (bool_decide (removed = [])) || negb (bool_decide (classes = [])) ||
     both && (SFltb (of_Z 5) delta || SFltb delta (of_Z (-5)))).

Context (range_perm : ∀ X, Permutation (range X) (elements X)).
Lemma elem_range X x : x ∈ range X ↔ x ∈ X.
Proof using range_perm. by rewrite range_perm, elem_of_elements. Qed.
Lemma filter_empty {A} (P : A → Prop) `{∀ x, Decision (P x)} l : filter P l = [] ↔ ∀ x, x ∈ l → ¬ P x.
Proof.
  split.
  - intros E x Hx HP. assert (x ∈ filter P l) as Hf by (by apply list_elem_of_filter). rewrite E in Hf. by apply elem_of_nil in Hf.
  - intros H'. apply list_filter_nil. apply Forall_forall. exact H'.
Qed.

(** The disk moved: both percentages are known, that is positive, and differ by more
    than five points in float64 arithmetic. *)
Definition disk_moved (p c : spec_float) : bool :=
  SFltb zero p && SFltb zero c && (SFltb (of_Z 5) (fsub c p) || SFltb (fsub c p) (of_Z (-5))).

Definition whole_points : bool :=
  forallb (λ a, forallb (λ b,
    Bool.eqb (disk_moved (of_Z (Z.of_nat a)) (of_Z (Z.of_nat b)))
             (negb (a =? 0)%nat && negb (b =? 0)%nat && (5 <? Z.abs (Z.of_nat b - Z.of_nat a)))) (seq 0 101)) (seq 0 101).
Lemma whole_points_ok : whole_points = true.
Proof. vm_compute. reflexivity. Qed.

(** On whole percentages, the difference is the one of integers. *)
Lemma disk_moved_whole a b : 0 <= a <= 100 → 0 <= b <= 100 →
  disk_moved (of_Z a) (of_Z b) = true ↔ a ≠ 0 ∧ b ≠ 0 ∧ 5 < Z.abs (b - a).
Proof.
  intros Ha Hb. pose proof whole_points_ok as H. unfold whole_points in H. rewrite forallb_forall in H.
  assert (∀ z, 0 <= z <= 100 → In (Z.to_nat z) (seq 0 101)) as Hin by (intros z Hz; apply in_seq; lia).
  specialize (H _ (Hin a Ha)). rewrite forallb_forall in H. specialize (H _ (Hin b Hb)). rewrite !Z2Nat.id in H by lia.
  apply Bool.eqb_prop in H. rewrite H, !andb_true_iff, !negb_true_iff, !Nat.eqb_neq, Z.ltb_lt. lia.
Qed.

(** C15: a drift report is exact: the ports it names are, each once, those that are
    in one of the two discoveries only, so that the old ports without the removed
    ones and with the new ones are the current ports; the classes are those that are
    new, in their order; and no drift is reported exactly where the ports are the same,
    no class is new, and the disk did not move: a percentage that is 0 counts as unknown,
    and of two whole percentages neither is 0 and they differ by more than five. A
    class that is gone is no drift. *)
Theorem drift_exact previous current :
  let r := DetectDrift previous current in
  let prev := toIntSet (ListeningPorts (Services previous)) in
  let curr := toIntSet (ListeningPorts (Services current)) in
  let p := HighestDiskUtilizationPct (Hardware previous) in
  let c := HighestDiskUtilizationPct (Hardware current) in
  (list_to_set (NewPorts r) : gset Z) = curr ∖ prev ∧ (list_to_set (RemovedPorts r) : gset Z) = prev ∖ curr ∧
  NoDup (NewPorts r) ∧ NoDup (RemovedPorts r) ∧
  (prev ∖ list_to_set (RemovedPorts r)) ∪ list_to_set (NewPorts r) = curr ∧
  NewClasses r = filter (λ x, x ∉ MachineClasses previous) (MachineClasses current) ∧
  DiskDelta r = (if SFltb zero p && SFltb zero c then fsub c p else zero) ∧
  (HasDrift r = false ↔
     prev = curr ∧ (∀ x, x ∈ MachineClasses current → x ∈ MachineClasses previous) ∧ disk_moved p c = false) ∧
  (∀ a b, p = of_Z a → c = of_Z b → 0 <= a <= 100 → 0 <= b <= 100 →
     disk_moved p c = true ↔ a ≠ 0 ∧ b ≠ 0 ∧ 5 < Z.abs (b - a)).
Proof using range_perm.
  intros r prev curr p c. cbn [r DetectDrift NewPorts RemovedPorts HasDrift DiskDelta NewClasses]. fold prev curr p c.
  assert (∀ X Y : gset Z, (list_to_set (filter (.∉ Y) (range X)) : gset Z) = X ∖ Y) as Hset.
  { intros X Y. apply leibniz_equiv. intros x. rewrite elem_of_list_to_set, list_elem_of_filter, elem_range, elem_of_difference. tauto. }
  assert (∀ X Y : gset Z, NoDup (filter (.∉ Y) (range X))) as Hnd.
  { intros X Y. apply NoDup_filter. rewrite range_perm. apply NoDup_elements. }
  assert (∀ X Y : gset Z, filter (.∉ Y) (range X) = [] ↔ X ⊆ Y) as Hemp.
  { intros X Y. rewrite filter_empty. split; intros H x Hx; [|by intros Hn; apply Hn, H, elem_range].
    destruct (decide (x ∈ Y)); [done|]. by destruct (H x); [apply elem_range|]. }
  rewrite !Hset. split_and!; try done.
  - apply leibniz_equiv. intros x. rewrite elem_of_union, !elem_of_difference. destruct (decide (x ∈ curr)), (decide (x ∈ prev)); tauto.
  - apply list_filter_iff. intros x. unfold toStringSet. by rewrite elem_of_list_to_set.
  - rewrite !orb_false_iff, !negb_false_iff, !bool_decide_eq_true, !Hemp, filter_empty. unfold disk_moved.
    assert (SFltb zero p && SFltb zero c && (SFltb (of_Z 5) (if SFltb zero p && SFltb zero c then fsub c p else zero) ||
       SFltb (if SFltb zero p && SFltb zero c then fsub c p else zero) (of_Z (-5))) =
       SFltb zero p && SFltb zero c && (SFltb (of_Z 5) (fsub c p) || SFltb (fsub c p) (of_Z (-5)))) as ->
      by (by destruct (SFltb zero p && SFltb zero c)).
    unfold toStringSet. split.
    + intros [[[H1 H2] H3] H4]. split_and!; [set_solver| |done]. intros x Hx. destruct (decide (x ∈ MachineClasses previous)); [done|].
      destruct (H3 x Hx). by rewrite elem_of_list_to_set.
    + intros (E & H3 & H4). rewrite E. split_and!; try done. intros x Hx Hn. apply Hn. rewrite elem_of_list_to_set. by apply H3.
  - intros a b -> ->. apply disk_moved_whole.
Qed.
End Drift.

(** *** The front matter of a file *)

Definition plain (l : string) : Prop :=
  Str.ContainsByte l newline = false ∧ Str.HasSuffix l carriage = false ∧ String.eqb (Str.TrimSpace l) "---" = false ∧
  (Z.of_nat (String.length l) < MaxScanTokenSize).

Lemma drop_cr_id l : Str.HasSuffix l carriage = false → drop_cr l = l.
Proof.
  unfold drop_cr, Str.TrimSuffix, Str.HasSuffix, carriage. intros H%bool_decide_eq_false. destruct (Str.strip_suffix l _) as [y|]; [|done].
  by destruct H.
Qed.
Lemma extract_plain ls rest acc : Forall plain ls →
  extract (Some acc) (ls ++ "---"%string :: rest) = Some (join_lines (acc ++ ls)).
Proof.
  intros H. revert acc. induction H as [|l ls (Hn & Hc & Ht & Hl) Hls IH]; intros acc; [by rewrite app_nil_r|].
  cbn [app extract]. destruct (Z.leb_spec MaxScanTokenSize (Z.of_nat (String.length l))); [lia|]. rewrite (drop_cr_id l Hc), Ht, IH.
  by rewrite <-app_assoc.
Qed.
Lemma extract_skip ls raw : Forall plain ls → extract None (ls ++ raw) = extract None raw.
Proof.
  induction 1 as [|l ls (Hn & Hc & Ht & Hl) Hls IH]; [done|]. cbn [app extract].
  destruct (Z.leb_spec MaxScanTokenSize (Z.of_nat (String.length l))); [lia|]. by rewrite (drop_cr_id l Hc), Ht.
Qed.
Lemma scanner_text lines : Forall (λ l, Str.ContainsByte l newline = false) lines → scanner_lines (text_of lines) = lines.
Proof. intros H. unfold scanner_lines. rewrite Split_text_of by done. by rewrite last_snoc, removelast_last. Qed.

(** the front matter comes back: what stands between the first two lines of
    three dashes is what is read, line by line, whatever comes before and after;
    so a rule in the text of a file without front matter begins one. *)
Theorem frontmatter_roundtrip before ls after : Forall plain before → Forall plain ls →
  Forall (λ l, Str.ContainsByte l newline = false) after →
  extractFrontmatter (text_of (before ++ "---"%string :: ls ++ "---"%string :: after)) = Some (join_lines ls).
Proof.
  intros Hb Hl Ha. assert (∀ l, Forall plain l → Forall (λ x, Str.ContainsByte x newline = false) l) as Hfree.
  { intros l H. eapply Forall_impl; [exact H|]. by intros x (? & _). }
  unfold extractFrontmatter. rewrite scanner_text.
  - rewrite extract_skip by done. change (extract None ("---"%string :: ls ++ "---"%string :: after)) with
      (extract (Some []) (ls ++ "---"%string :: after)). by rewrite extract_plain.
  - apply Forall_app. split; [by apply Hfree|]. constructor; [done|]. apply Forall_app. split; [by apply Hfree|]. by constructor.
Qed.

Lemma drift_exact_witness :
  let p := mkFront "" "" "linux" ["web"]%string [] (mkHardware "" 4 zero 0 "" [] [] (of_Z 50)) (mkServices [22; 80] 0) in
  let c := mkFront "" "" "linux" [] [] (mkHardware "" 4 zero 0 "" [] [] (of_Z 53)) (mkServices [443; 22; 443] 0) in
  let r := DetectDrift elements p c in
  NewPorts r = [443] ∧ RemovedPorts r = [80] ∧ HasDrift r = true ∧ disk_moved (of_Z 50) (of_Z 53) = false ∧
  (toIntSet [22; 80] ∖ list_to_set (RemovedPorts r)) ∪ list_to_set (NewPorts r) = toIntSet [443; 22; 443].
Proof.
  intros p c r. do 4 (split; [vm_compute; reflexivity|]). apply (drift_exact elements (λ X, reflexivity _) p c).
Defined.
Lemma frontmatter_roundtrip_witness :
  extractFrontmatter (text_of (["# Host"] ++ "---" :: ["os_family: linux"; ""] ++ "---" :: ["text"]))%string =
    Some (join_lines ["os_family: linux"; ""]%string).
Proof. apply frontmatter_roundtrip; repeat constructor. Defined.
End Context.

(** ** The runner of the monitor scripts *)

Module Monitors.

Definition AllSnapshotTypes : list string := ["os_profile"; "service_catalog"; "network_topology"; "hardware_inventory"]%string.
Definition scriptMapping (t : string) : option string :=
  if String.eqb t "os_profile" then Some "os-profile"%string else
  if String.eqb t "service_catalog" then Some "service-catalog"%string else
  if String.eqb t "network_topology" then Some "network-topology"%string else
  if String.eqb t "hardware_inventory" then Some "hardware-inventory"%string else None.
Record ScriptResult := mkResult {
  SchemaVersion : string; SnapshotType : string; OS : string; CollectedAt : string; Status : string; Data : string;
  Warnings : list string; Duration : Z; Error : string;
}.
Definition failed (t os msg : string) : ScriptResult := mkResult "" t os "" "error" "" [] 0 msg.

(** The machine: GOOS and whether /boot/config/plugins is there. *)
Definition DetectOS (goos : string) (unraid : bool) : string :=
  if String.eqb goos "linux" then (if unraid then "unraid" else "linux") else goos.
Definition truncate (s : string) (maxLen : nat) : string :=
  if (String.length s <=? maxLen)%nat then s else substring 0 (maxLen - 3) s +:+ "...".

Section Runner.
(** What a script on disk does: it cannot be set up, it ends with a code and its
    stderr, it cannot be run, or it prints something; [parse]: JSON. *)
Inductive outcome := NoSetup (msg : string) | Exited (code : Z) (stderr : string) | NotRun (msg : string) | Printed (output : string).
Variable exec : string → outcome.
Variable embedded : string → bool.
Variable parse : string → result string ScriptResult.
Definition run_file (path : string) : result string ScriptResult :=
  if negb (embedded path) then Err ("script not found: " +:+ path) else
  match exec path with
  | NoSetup msg => Err msg
  | Exited code stderr => Err ("script failed (exit " +:+ Str.Itoa code +:+ "): " +:+ Str.TrimSpace stderr)
  | NotRun msg => Err ("execute script: " +:+ msg)
  | Printed out =>
      match parse out with Ok r => Ok r | Err e => Err ("parse script output: " +:+ e +:+ " (raw: " +:+ truncate out 200 +:+ ")") end
  end.
Definition executeScript (osFamily scriptName : string) : result string ScriptResult :=
  if String.eqb osFamily "linux" || String.eqb osFamily "darwin" || String.eqb osFamily "unraid"
  then run_file ("scripts/linux/" +:+ scriptName +:+ ".sh")
  else if String.eqb osFamily "windows" then run_file ("scripts/windows/" +:+ scriptName +:+ ".ps1")
  else Err ("unsupported OS: " +:+ osFamily).
Definition set_duration (r : ScriptResult) (d : Z) : ScriptResult :=
  mkResult (SchemaVersion r) (SnapshotType r) (OS r) (CollectedAt r) (Status r) (Data r) (Warnings r) d (Error r).
(** [duration]: what the clock says. *)
Definition Run (os : string) (snapshotType : string) (duration : Z) : ScriptResult :=
  match scriptMapping snapshotType with
  | None => set_duration (failed snapshotType "" ("unknown snapshot type: " +:+ snapshotType)) duration
  | Some name =>
      match executeScript os name with
      | Err e => set_duration (failed snapshotType os e) duration
      | Ok r => set_duration r duration
      end
  end.
Definition RunAll (os : string) (durations : string → Z) : list ScriptResult := (λ t, Run os t (durations t)) <$> AllSnapshotTypes.

Lemma length_substring s n : (n <= String.length s)%nat → String.length (substring 0 n s) = n.
Proof. revert n. induction s as [|c s IH]; intros [|n] H; cbn in *; try lia. rewrite IH by lia. done. Qed.
Lemma length_truncate s n : (3 <= n)%nat → (String.length (truncate s n) <= n)%nat.
Proof.
  intros H. unfold truncate. destruct (Nat.leb_spec (String.length s) n); [done|]. rewrite Str.length_app. cbn.
  rewrite length_substring by lia. lia.
Qed.

(** every snapshot is answered: there are four results, in the order of the
    types, whatever the scripts do; one whose script did not run to its end, or
    printed no result, has the status error, the reason and the type that was asked
    for; any other is what the script printed, whose type nobody checks. *)
Theorem every_snapshot_answered os durations :
  Forall2 (λ t r, ∃ name, scriptMapping t = Some name ∧
    match executeScript os name with
    | Err e => Status r = "error"%string ∧ SnapshotType r = t ∧ OS r = os ∧ Error r = e
    | Ok r' => r = set_duration r' (durations t)
    end) AllSnapshotTypes (RunAll os durations).
Proof.
  unfold RunAll, AllSnapshotTypes. cbn [fmap list_fmap].
  repeat (constructor; [eexists; split; [reflexivity|]; unfold Run; cbn [scriptMapping String.eqb Ascii.eqb Bool.eqb]|]); [..|constructor];
    destruct (executeScript os _); done.
Qed.
End Runner.
End Monitors.

(** ** The handlers for baselines and profiles *)

Module Baselines.

(** A row of satellite_baselines: tier is a smallint, is_baseline may be NULL. *)
Record Row := mkRow {
  id : N; satellite_id : N; tier : Z; snapshot_type : string; snapshot_data : string; agent_run_id : option N;
  is_baseline : option bool; drift_score : option spec_float; drift_summary : option string; collected_at : Z; created_at : Z;
}.
Record Baseline := mkBaseline {
  b_ID : N; b_SatelliteID : N; b_Tier : Z; b_SnapshotType : string; b_SnapshotData : string; b_AgentRunID : option N;
  b_IsBaseline : bool; b_DriftScore : option spec_float; b_DriftSummary : option string; b_CollectedAt : Z; b_CreatedAt : Z;
}.
(** A row of satellite_profiles; the arrays may be NULL, which scans as no slice. *)
Record SatelliteProfile := mkProfile {
  p_SatelliteID : N; p_OSFamily : string; p_OSDistro : option string; p_OSVersion : option string; p_Arch : option string;
  p_MachineRoles : option (list string); p_DetectedServices : option (list string); p_DetectedContainers : option (list string);
  p_ListeningPorts : option (list Z); p_RiskLevel : string; p_RecommendedAgents : option (list string);
  p_LastDiscovery : option Z; p_LastPulse : option Z; p_UpdatedAt : Z;
}.
Record DB := mkDB { baselines : list Row; profiles : list SatelliteProfile }.
Inductive reply := RError (status : Z) (msg : string) | RNotFound | RBaselines (l : list Baseline) (count : Z) | RProfile (p : option SatelliteProfile).

(** What a query meets: it fails, or the connection is lost after so many rows. *)
Inductive fault := QueryFails | LostAfter (n : nat) | NoFault.
Definition got {A} (f : fault) (l : list A) : list A := match f with LostAfter n => take n l | _ => l end.

Definition scan (r : Row) : option Baseline :=
  b ← is_baseline r;
  Some (mkBaseline (id r) (satellite_id r) (tier r) (snapshot_type r) (snapshot_data r) (agent_run_id r) b (drift_score r)
    (drift_summary r) (collected_at r) (created_at r)).
(** The loop over the rows; rows.Err is not asked. *)
Definition scan_rows (msg : string) (f : fault) (rows : list Row) : reply :=
  match f with
  | QueryFails => RError 500 msg
  | _ => match mapM scan (got f rows) with
         | Some bs => RBaselines bs (Z.of_nat (length bs))
         | None => RError 500 "failed to scan baseline"
         end
  end.
Definition smallint (z : Z) : bool := (-32768 <=? z) && (z <=? 32767).
Definition limit_of (limitStr : string) : Z :=
  if String.eqb limitStr "" then 50 else
  match Str.Atoi limitStr with Some l => if (0 <? l) && (l <=? 500) then l else 50 | None => 50 end.
Definition tier_of (tierStr : string) : option Z := if String.eqb tierStr "" then None else Str.Atoi tierStr.

Section Handlers.
(** The order the server scans the rows in, and the order of its collation. *)
Variable arrange : list Row → list Row.
Variable text_le : string → string → bool.
Variable uuid_Parse : string → option N.

Definition newer (a b : Row) : Prop := collected_at b <= collected_at a.
#[local] Instance newer_dec : RelDecision newer.
Proof. intros a b. unfold newer. apply _. Defined.
(** ORDER BY snapshot_type, collected_at DESC *)
Definition by_type (a b : Row) : Prop :=
  if String.eqb (snapshot_type a) (snapshot_type b) then newer a b else text_le (snapshot_type a) (snapshot_type b) = true.
#[local] Instance by_type_dec : RelDecision by_type.
Proof. intros a b. unfold by_type. destruct (String.eqb _ _); apply _. Defined.

Definition handleListBaselines (db : DB) (f : fault) (query : string → string) (satelliteID : N) : reply :=
  let snapshotType := query "type"%string in
  let t := tier_of (query "tier"%string) in
  let rows := filter (λ r, satellite_id r = satelliteID ∧ (snapshotType = ""%string ∨ snapshot_type r = snapshotType) ∧
                (t = None ∨ t = Some (tier r))) (arrange (baselines db)) in
  scan_rows "failed to list baselines"
    (match t with Some z => if smallint z then f else QueryFails | None => f end)
    (take (Z.to_nat (limit_of (query "limit"%string))) (merge_sort newer rows)).

(** DISTINCT ON: the first row of every run of equal types. *)
Fixpoint distinct_on (l : list Row) : list Row :=
  match l with
  | a :: l' =>
      a :: match distinct_on l' with
           | b :: rest => if String.eqb (snapshot_type a) (snapshot_type b) then rest else b :: rest
           | [] => []
           end
  | [] => []
  end.
Definition handleGetLatestBaselines (db : DB) (f : fault) (satelliteID : N) : reply :=
  scan_rows "failed to query latest baselines" f
    (distinct_on (merge_sort by_type (filter (λ r, satellite_id r = satelliteID) (arrange (baselines db))))).
Definition handleGetGoldenBaselines (db : DB) (f : fault) (satelliteID : N) : reply :=
  scan_rows "failed to query golden baselines" f
    (merge_sort by_type (filter (λ r, satellite_id r = satelliteID ∧ is_baseline r = Some true) (arrange (baselines db)))).
Definition handleGetSatelliteProfile (db : DB) (f : fault) (satelliteID : N) : reply :=
  match f with
  | NoFault => RProfile (list_find (λ p, p_SatelliteID p = satelliteID) (profiles db) ≫= λ x, Some x.2)
  | _ => RError 500 "failed to get satellite profile"
  end.

Definition slash : Ascii.ascii := "/"%char.
(** SplitN(remainder, "/", 3): the id, and what stands after the second slash. *)
Definition parts (remainder : string) : option (string * string) :=
  match Str.Cut remainder "/" with
  | None => None
  | Some (a, rest) => Some (a, match Str.Cut rest "/" with Some (_, sub) => sub | None => ""%string end)
  end.
Definition HandleBaselinesAPI (db : option DB) (f : fault) (method path : string) (query : string → string) : reply :=
  match db with
  | None => RError 503 "database not configured"
  | Some d =>
      let p := Str.TrimRight path slash in
      if negb (Str.HasPrefix p "/api/v1/satellites/") then RNotFound else
      match parts (Str.TrimPrefix p "/api/v1/satellites/") with
      | None => RNotFound
      | Some (sid, subPath) =>
          if String.eqb sid "" then RNotFound else
          match uuid_Parse sid with
          | None => RError 400 "invalid satellite ID"
          | Some satelliteID =>
              if negb (String.eqb method "GET") then RError 405 "method not allowed" else
              if String.eqb subPath "latest" then handleGetLatestBaselines d f satelliteID else
              if String.eqb subPath "golden" then handleGetGoldenBaselines d f satelliteID else
              handleListBaselines d f query satelliteID
          end
      end
  end.
Definition HandleProfileAPI (db : option DB) (f : fault) (method path : string) : reply :=
  match db with
  | None => RError 503 "database not configured"
  | Some d =>
      let remainder := Str.TrimPrefix (Str.TrimRight path slash) "/api/v1/satellites/" in
      let sid := match Str.Cut remainder "/" with Some (a, _) => a | None => remainder end in
      if String.eqb sid "" then RNotFound else
      match uuid_Parse sid with
      | None => RError 400 "invalid satellite ID"
      | Some satelliteID =>
          if negb (String.eqb method "GET") then RError 405 "method not allowed" else handleGetSatelliteProfile d f satelliteID
      end
  end.

(** *** Latest per type *)

Context (arrange_perm : ∀ l, Permutation (arrange l) l).
Context (text_refl : ∀ x, text_le x x = true)
  (text_trans : ∀ x y z, text_le x y = true → text_le y z = true → text_le x z = true)
  (text_anti : ∀ x y, text_le x y = true → text_le y x = true → x = y)
  (text_total : ∀ x y, text_le x y = true ∨ text_le y x = true).

#[local] Instance by_type_total : Total by_type.
Proof using text_total.
  intros a b. unfold by_type, newer. rewrite (String.eqb_sym (snapshot_type b)). destruct (String.eqb_spec (snapshot_type a) (snapshot_type b)); [lia|].
  by destruct (text_total (snapshot_type a) (snapshot_type b)); [left|right].
Qed.
#[local] Instance by_type_trans : Transitive by_type.
Proof using text_trans text_anti.
  intros a b c. unfold by_type, newer.
  destruct (String.eqb_spec (snapshot_type a) (snapshot_type b)) as [E1|N1], (String.eqb_spec (snapshot_type b) (snapshot_type c)) as [E2|N2],
    (String.eqb_spec (snapshot_type a) (snapshot_type c)) as [E3|N3]; try congruence; try lia; intros H1 H2.
  - exfalso. apply N1, text_anti; congruence.
  - by eapply text_trans.
Qed.

Lemma distinct_step a l : distinct_on (a :: l) =
  a :: match distinct_on l with
       | b :: rest => if String.eqb (snapshot_type a) (snapshot_type b) then rest else b :: rest
       | [] => []
       end.
Proof. done. Qed.
Lemma distinct_head a l : ∃ rest, distinct_on (a :: l) = a :: rest.
Proof. cbn. by eexists. Qed.
Lemma elem_distinct l r : r ∈ distinct_on l → r ∈ l.
Proof.
  induction l as [|a l IH]; [done|]. cbn [distinct_on]. rewrite !elem_of_cons. intros [->|H]; [by left|right]. apply IH.
  destruct (distinct_on l) as [|b rest]; [done|]. destruct (String.eqb _ _); [by right|done].
Qed.
Lemma by_type_le a b : by_type a b → text_le (snapshot_type a) (snapshot_type b) = true.
Proof using text_refl. unfold by_type. destruct (String.eqb_spec (snapshot_type a) (snapshot_type b)) as [->|]; [by rewrite text_refl|done]. Qed.

(** A sorted list: what DISTINCT ON keeps of a type is no older than any row of it,
    and every type that occurs is kept, once. *)
Lemma distinct_spec l : StronglySorted by_type l →
  (∀ r, r ∈ l → ∃ b, b ∈ distinct_on l ∧ snapshot_type b = snapshot_type r ∧ collected_at r <= collected_at b) ∧
  NoDup (snapshot_type <$> distinct_on l).
Proof using text_refl text_trans text_anti text_total.
  induction 1 as [|a l Hs [IH1 IH2] Hf]; [split; [by intros r ?%elem_of_nil|constructor]|].
  destruct l as [|c l'].
  { split; [|repeat constructor; by intros ?%elem_of_nil]. intros r Hr. apply list_elem_of_singleton in Hr as ->. exists a. cbn. split; [by left|]. split; [done|lia]. }
  destruct (distinct_head c l') as [rest E]. rewrite (distinct_step a (c :: l')). rewrite E in *. rewrite Forall_forall in Hf.
  assert (∀ r, r ∈ c :: l' → snapshot_type r = snapshot_type a → snapshot_type c = snapshot_type a) as Hrun.
  { intros r Hr Er. apply text_anti; [|by apply by_type_le, Hf; left].
    rewrite <-Er. apply elem_of_cons in Hr as [->|Hr]; [apply text_refl|]. apply by_type_le. inversion Hs as [|? ? _ Hf']; subst.
    by eapply Forall_forall in Hf'. }
  assert (∀ r, r ∈ c :: l' → snapshot_type r = snapshot_type a → collected_at r <= collected_at a) as Hage.
  { intros r Hr Er. specialize (Hf r Hr). unfold by_type in Hf. by rewrite Er, String.eqb_refl in Hf. }
  assert (∀ b, b ∈ c :: rest → b ∈ c :: l') as Hsub.
  { intros b Hb. rewrite <-E in Hb. by apply (elem_distinct (c :: l')). }
  rewrite fmap_cons in IH2. apply NoDup_cons in IH2 as [Hc Hnd]. cbv beta iota.
  destruct (String.eqb_spec (snapshot_type a) (snapshot_type c)) as [Eac|Nac].
  - split.
    + intros r [->|Hr]%elem_of_cons; [exists a; split; [by left|]; split; [done|lia]|].
      destruct (decide (snapshot_type r = snapshot_type a)) as [Er|Nr]; [exists a; split; [by left|]; split; [done|by apply Hage]|].
      destruct (IH1 r Hr) as (b & [->|Hb]%elem_of_cons & Eb & Hle); [congruence|]. exists b. split; [by right|done].
    + rewrite fmap_cons. apply NoDup_cons. by rewrite Eac.
  - split.
    + intros r [->|Hr]%elem_of_cons; [exists a; split; [by left|]; split; [done|lia]|].
      destruct (IH1 r Hr) as (b & Hb & ?). exists b. split; [by right|done].
    + rewrite !fmap_cons. apply NoDup_cons. split; [|by apply NoDup_cons].
      rewrite <-fmap_cons. intros (b & Eb & Hb)%list_elem_of_fmap. apply Nac. symmetry. by eapply Hrun; [apply Hsub|].
Qed.

Lemma mapM_scan l bs : mapM scan l = Some bs → Forall2 (λ r b, scan r = Some b) l bs.
Proof. apply mapM_Some_1. Qed.

(** the latest baselines are the latest: an answer without a lost connection has one
    entry per type that the satellite has a snapshot of, each from a row of the
    satellite that no row of its type is newer than. *)
Theorem latest_per_type db satelliteID bs n :
  handleGetLatestBaselines db NoFault satelliteID = RBaselines bs n →
  n = Z.of_nat (length bs) ∧ NoDup (b_SnapshotType <$> bs) ∧
  (∀ b, b ∈ bs → ∃ r, r ∈ baselines db ∧ satellite_id r = satelliteID ∧ scan r = Some b) ∧
  (∀ r, r ∈ baselines db → satellite_id r = satelliteID →
     ∃ b, b ∈ bs ∧ b_SnapshotType b = snapshot_type r ∧ collected_at r <= b_CollectedAt b).
Proof using arrange_perm text_refl text_trans text_anti text_total.
  unfold handleGetLatestBaselines, scan_rows. set (l := merge_sort _ _). cbn [got].
  destruct (mapM scan (distinct_on l)) as [bs'|] eqn:E; [|done]. intros [= -> <-].
  assert (∀ r, r ∈ l ↔ r ∈ baselines db ∧ satellite_id r = satelliteID) as Hl.
  { intros r. subst l. rewrite merge_sort_Permutation, list_elem_of_filter, arrange_perm. tauto. }
  destruct (distinct_spec l (StronglySorted_merge_sort by_type _)) as [H1 H2].
  apply mapM_scan in E. assert (∀ r b, scan r = Some b → b_SnapshotType b = snapshot_type r ∧ b_CollectedAt b = collected_at r) as Hsc.
  { intros r b. unfold scan. destruct (is_baseline r); [|done]. by intros [= <-]. }
  split_and!; [done| | |].
  - assert (b_SnapshotType <$> bs = snapshot_type <$> distinct_on l) as ->; [|done].
    clear - E Hsc. induction E as [|r b rs bs Hb E IH]; [done|]. cbn. f_equal; [apply (Hsc r b Hb)|exact IH].
  - intros b Hb. apply list_elem_of_lookup_1 in Hb as [i Hi]. destruct (Forall2_lookup_r _ _ _ _ _ E Hi) as (r & Hr & Hs).
    exists r. apply list_elem_of_lookup_2, elem_distinct, Hl in Hr as [? ?]. done.
  - intros r Hr Hsat. destruct (H1 r (proj2 (Hl r) (conj Hr Hsat))) as (r' & Hr' & Et & Hle).
    apply list_elem_of_lookup_1 in Hr' as [i Hi]. destruct (Forall2_lookup_l _ _ _ _ _ E Hi) as (b & Hb & Hs).
    exists b. apply Hsc in Hs as [-> ->]. split; [by apply list_elem_of_lookup_2 in Hb|done].
Qed.

(** the list answers what was asked: at most 500 entries whatever the limit says,
    each of the satellite, of the type and of the tier that were given; a tier that is no
    smallint is an error of the server, and one that is no number is ignored. *)
Theorem list_is_filtered db f query satelliteID :
  (limit_of (query "limit"%string) ∈ seqZ 1 500) ∧
  match handleListBaselines db f query satelliteID with
  | RBaselines bs n => n = Z.of_nat (length bs) ∧ n <= limit_of (query "limit"%string) ∧
      ∀ b, b ∈ bs → ∃ r, r ∈ baselines db ∧ scan r = Some b ∧ satellite_id r = satelliteID ∧
        (query "type"%string ≠ ""%string → snapshot_type r = query "type"%string) ∧
        (∀ z, tier_of (query "tier"%string) = Some z → tier r = z ∧ smallint z = true)
  | RError status _ => status = 500
  | _ => False
  end.
Proof using arrange_perm.
  assert (1 <= limit_of (query "limit"%string) <= 500) as Hlim.
  { unfold limit_of. destruct (String.eqb _ _); [lia|]. destruct (Str.Atoi _); [|lia]. destruct (Z.ltb_spec 0 z), (Z.leb_spec z 500); cbn; lia. }
  split; [apply elem_of_seqZ; lia|]. unfold handleListBaselines.
  set (rows := merge_sort newer _). set (f' := match tier_of _ with Some _ => _ | None => _ end). unfold scan_rows.
  assert (∃ k, got f' (take (Z.to_nat (limit_of (query "limit"%string))) rows) = take k rows ∧ Z.of_nat k <= limit_of (query "limit"%string)) as (k & Ek & Hk).
  { destruct f' as [|n|]; cbn [got]; [|exists (n `min` Z.to_nat (limit_of (query "limit"%string)))%nat; rewrite take_take; split; [done|lia]|];
      (exists (Z.to_nat (limit_of (query "limit"%string))); split; [done|lia]). }
  rewrite Ek. destruct f' as [|n|] eqn:Ef; [done|..]; (destruct (mapM scan (take k rows)) as [bs|] eqn:E; [|done]); apply mapM_scan in E;
    (split; [done|]; split; [apply Forall2_length in E; rewrite length_take in E; lia|]);
    intros b Hb; apply list_elem_of_lookup_1 in Hb as [i Hi]; destruct (Forall2_lookup_r _ _ _ _ _ E Hi) as (r & Hr & Hs); exists r;
    (assert (r ∈ rows) as Hin by (apply list_elem_of_lookup_2 in Hr; rewrite <-(take_drop k rows); apply elem_of_app; by left));
    subst rows; rewrite merge_sort_Permutation, list_elem_of_filter, arrange_perm in Hin; destruct Hin as [(H1 & H2 & H3) H4];
    (split_and!; [done..|by destruct H2|]); intros z Hz; rewrite Hz in H3; destruct H3 as [?|[= ->]]; (try done);
    split; try done; subst f'; rewrite Hz in Ef; by destruct (smallint (tier r)).
Qed.
End Handlers.

(** A total order of texts. *)
Definition demo_le (a b : string) : bool := (encode a <=? encode b)%positive.
Lemma demo_le_total x y : demo_le x y = true ∨ demo_le y x = true.
Proof. unfold demo_le. rewrite !Pos.leb_le. lia. Qed.
Definition demo_row (i sat : N) (ty : string) (at_ : Z) : Row := mkRow i sat 4 ty "{}" None (Some false) None None at_ at_.
Definition demo_db : DB := mkDB [demo_row 1 7 "os_profile" 10; demo_row 2 7 "services" 5; demo_row 3 7 "os_profile" 20; demo_row 4 8 "os_profile" 30] [].
Definition demo_answer : list Baseline :=
  match handleGetLatestBaselines (λ l, l) demo_le demo_db NoFault 7 with RBaselines bs _ => bs | _ => [] end.

Lemma latest_per_type_witness :
  b_CollectedAt <$> demo_answer = [5; 20] ∧
  (∀ r, r ∈ baselines demo_db → satellite_id r = 7%N →
     ∃ b, b ∈ demo_answer ∧ b_SnapshotType b = snapshot_type r ∧ collected_at r <= b_CollectedAt b).
Proof.
  split; [vm_compute; reflexivity|].
  apply (latest_per_type (λ l, l) demo_le (λ l, reflexivity l) (λ x, Pos.leb_refl _)
    (λ x y z H1 H2, proj2 (Pos.leb_le _ _) (Pos.le_trans _ _ _ (proj1 (Pos.leb_le _ _) H1) (proj1 (Pos.leb_le _ _) H2)))
    (λ x y H1 H2, encode_inj _ _ (Pos.le_antisym _ _ (proj1 (Pos.leb_le _ _) H1) (proj1 (Pos.leb_le _ _) H2)))
    demo_le_total
    demo_db 7 demo_answer 2). vm_compute. reflexivity.
Defined.
Lemma list_is_filtered_witness :
  let q k := if String.eqb k "type" then "os_profile"%string else if String.eqb k "limit" then "501"%string else ""%string in
  match handleListBaselines (λ l, l) demo_db NoFault q 7 with RBaselines bs n => b_ID <$> bs = [3; 1]%N | _ => False end ∧
  limit_of (q "limit"%string) ∈ seqZ 1 500.
Proof. intros q. split; [vm_compute; reflexivity|]. exact (proj1 (list_is_filtered (λ l, l) (λ l, reflexivity l) demo_db NoFault q 7)). Defined.
End Baselines.
