(* ===== verification/Router.v ===== *)
(** * src/internal/router/router.go and internal/transport/webtransport.go

    The router of browser streams: a table of client connections, goroutines
    that accept streams and read them, counted by a wait group. The server makes
    it with a nil resolver ([wired]). The QUIC library gives the sessions and the
    streams; both are numbers here, and what comes in is a step. *)
From S2P Require Import Prelude.
#[local] Open Scope Z_scope.
#[local] Set Default Proof Using "Type".

Module Router.

Inductive StreamType := StreamTypeTerminalRX | StreamTypeTerminalTX | StreamTypeControl | StreamTypeOOBUI.
#[export] Instance StreamType_eq_dec : EqDecision StreamType.
Proof. solve_decision. Defined.
Inductive ControlMessageType :=
  | ControlMessagePing | ControlMessagePong | ControlMessageStateUpdate | ControlMessageSessionInfo | ControlMessageError.
Definition control_byte (m : ControlMessageType) : Z :=
  match m with
  | ControlMessagePing => 0 | ControlMessagePong => 1 | ControlMessageStateUpdate => 2
  | ControlMessageSessionInfo => 3 | ControlMessageError => 4
  end.

(** ** The resolver *)

(** Its session id; a nil pointer is [None]. *)
Definition SatelliteHandler : Type := option string.
Definition Resolver : Type := gmap string SatelliteHandler.
Definition NewSessionResolver : Resolver := ∅.
Definition ResolveSession (r : Resolver) (sessionID : string) : option SatelliteHandler := r !! sessionID.
Definition RegisterSession (r : Resolver) (sessionID : string) (h : SatelliteHandler) : Resolver := <[sessionID := h]> r.
Definition UnregisterSession (r : Resolver) (sessionID : string) : Resolver := delete sessionID r.

(** ** The types of the streams *)

Definition uint64 (x : Z) : Z := x mod 2 ^ 64.
(** Streams are told apart by the order of their arrival. *)
Definition streamTypeFromCounter (counter : Z) : StreamType :=
  match counter mod 4 with
  | 0 => StreamTypeTerminalTX | 1 => StreamTypeControl | 2 => StreamTypeTerminalRX | 3 => StreamTypeOOBUI
  | _ => StreamTypeControl
  end.
Definition nextStreamType (streamCounter : Z) : Z * StreamType :=
  let c := uint64 (streamCounter + 1) in
  (c, match c mod 4 with
      | 0 => StreamTypeTerminalTX | 1 => StreamTypeControl | 2 => StreamTypeTerminalRX | 3 => StreamTypeOOBUI
      | _ => StreamTypeControl
      end).

(** ** The router *)

Record StreamHandler := mkHandler { h_StreamType : StreamType; h_SessionID : string; h_stream : nat }.
Record ClientConnection := mkConn {
  SessionID : string; WebTransportSession : option nat;
  TerminalRX : option StreamHandler; TerminalTX : option StreamHandler; Control : option StreamHandler; OOBUI : option StreamHandler;
  closed : bool;
}.
Definition newConn (sid : string) (wt : option nat) : ClientConnection := mkConn sid wt None None None None false.
Definition close_conn (c : ClientConnection) : ClientConnection :=
  mkConn (SessionID c) (WebTransportSession c) (TerminalRX c) (TerminalTX c) (Control c) (OOBUI c) true.
Definition slot (c : ClientConnection) (t : StreamType) : option StreamHandler :=
  match t with
  | StreamTypeTerminalRX => TerminalRX c | StreamTypeTerminalTX => TerminalTX c
  | StreamTypeControl => Control c | StreamTypeOOBUI => OOBUI c
  end.
Definition set_slot (c : ClientConnection) (t : StreamType) (stream : nat) : ClientConnection :=
  let h := Some (mkHandler t (SessionID c) stream) in
  match t with
  | StreamTypeTerminalRX => mkConn (SessionID c) (WebTransportSession c) h (TerminalTX c) (Control c) (OOBUI c) (closed c)
  | StreamTypeTerminalTX => mkConn (SessionID c) (WebTransportSession c) (TerminalRX c) h (Control c) (OOBUI c) (closed c)
  | StreamTypeControl => mkConn (SessionID c) (WebTransportSession c) (TerminalRX c) (TerminalTX c) h (OOBUI c) (closed c)
  | StreamTypeOOBUI => mkConn (SessionID c) (WebTransportSession c) (TerminalRX c) (TerminalTX c) (Control c) h (closed c)
  end.

(** The goroutines that the wait group counts, at their program points; a
    connection is a reference into [heap]. *)
Inductive worker :=
  | Accepting (conn : nat) (streamCounter : Z)
  | Leaving (conn : nat)
  | Starting (conn stream : nat) (t : StreamType)
  | Reading (conn stream : nat) (t : StreamType)
  | Bridging (sid : string).
Record Router := mkRouter {
  resolver : option Resolver;               (* None: a nil interface *)
  connections : gmap string nat;
  heap : gmap nat ClientConnection; fresh_conn : nat;
  workers : gmap nat worker; fresh_worker : nat;
  wg : Z; cancelled : bool;
  closed_sessions : gset nat;               (* WebTransport sessions that were closed *)
  written : list (nat * list Z);            (* what was sent, by stream *)
}.
Definition NewRouter (r : option Resolver) : Router := mkRouter r ∅ ∅ 0 ∅ 0 0 false ∅ [].

Definition set_connections (r : Router) x := mkRouter (resolver r) x (heap r) (fresh_conn r) (workers r) (fresh_worker r) (wg r) (cancelled r) (closed_sessions r) (written r).
Definition set_heap (r : Router) x := mkRouter (resolver r) (connections r) x (fresh_conn r) (workers r) (fresh_worker r) (wg r) (cancelled r) (closed_sessions r) (written r).
Definition set_workers (r : Router) x := mkRouter (resolver r) (connections r) (heap r) (fresh_conn r) x (fresh_worker r) (wg r) (cancelled r) (closed_sessions r) (written r).
Definition set_closed (r : Router) x := mkRouter (resolver r) (connections r) (heap r) (fresh_conn r) (workers r) (fresh_worker r) (wg r) (cancelled r) x (written r).
Definition set_written (r : Router) x := mkRouter (resolver r) (connections r) (heap r) (fresh_conn r) (workers r) (fresh_worker r) (wg r) (cancelled r) (closed_sessions r) x.

(** wg.Add(1) and [go]; a worker that goes on; wg.Done(). *)
Definition spawn (r : Router) (w : worker) : Router :=
  mkRouter (resolver r) (connections r) (heap r) (fresh_conn r) (<[fresh_worker r := w]> (workers r)) (S (fresh_worker r)) (wg r + 1)
    (cancelled r) (closed_sessions r) (written r).
Definition move (r : Router) (i : nat) (w : worker) : Router := set_workers r (<[i := w]> (workers r)).
Definition finish (r : Router) (i : nat) : Router :=
  mkRouter (resolver r) (connections r) (heap r) (fresh_conn r) (delete i (workers r)) (fresh_worker r) (wg r - 1)
    (cancelled r) (closed_sessions r) (written r).
(** A new connection in the table. *)
Definition enter (r : Router) (c : ClientConnection) : Router :=
  mkRouter (resolver r) (<[SessionID c := fresh_conn r]> (connections r)) (<[fresh_conn r := c]> (heap r)) (S (fresh_conn r))
    (workers r) (fresh_worker r) (wg r) (cancelled r) (closed_sessions r) (written r).

(** *** Route: the lock is released between the lookup and the insertion *)

(** [Ok (Some c)]: the connection is there. *)
Definition route_lookup (r : Router) (sid : string) : go (result string (option nat)) :=
  match resolver r with
  | None => Panic
  | Some m =>
      match ResolveSession m sid with
      | None => Ret (Err ("failed to resolve session: session not found: " +:+ sid))
      | Some _ => Ret (Ok (connections r !! sid))
      end
  end.
(** The placeholder; the dials to the satellite end with Route or with the
    goroutine, and nothing is forwarded. *)
Definition route_create (r : Router) (sid : string) : Router := spawn (enter r (newConn sid None)) (Bridging sid).
(** A call of Route with nothing in between. *)
Definition Route (r : Router) (sid : string) : go (Router * result string nat) :=
  x ← route_lookup r sid;
  Ret (match x with
       | Err e => (r, Err e)
       | Ok (Some c) => (r, Ok c)
       | Ok None => (route_create r sid, Ok (fresh_conn r))
       end).

Definition RouteConnection (r : Router) (sid : string) (session : nat) : go (Router * result string unit) :=
  match resolver r with
  | None => Panic
  | Some m =>
      match ResolveSession m sid with
      | None => Ret (r, Err ("failed to resolve session: session not found: " +:+ sid))
      | Some _ =>
          let r1 := enter r (newConn sid (Some session)) in
          Ret (spawn r1 (Accepting (fresh_conn r) 0), Ok ())
      end
  end.

(** *** The goroutines *)

(** handleConnection, a stream that is accepted. *)
Definition accept (r : Router) (i : nat) (stream : nat) : option Router :=
  match workers r !! i with
  | Some (Accepting c n) => Some (spawn (move r i (Accepting c (uint64 (n + 1)))) (Starting c stream (streamTypeFromCounter n)))
  | _ => None
  end.
(** handleConnection, AcceptStream fails, as it does when the context is cancelled. *)
Definition accept_error (r : Router) (i : nat) : option Router :=
  match workers r !! i with Some (Accepting c _) => Some (move r i (Leaving c)) | _ => None end.
(** Its end: the entry of the session goes. *)
Definition leave (r : Router) (i : nat) : option Router :=
  match workers r !! i with
  | Some (Leaving c) =>
      conn ← heap r !! c;
      Some (finish (set_connections r (delete (SessionID conn) (connections r))) i)
  | _ => None
  end.
(** handleStream, up to the loop. *)
Definition start_stream (r : Router) (i : nat) : option Router :=
  match workers r !! i with
  | Some (Starting c s t) =>
      conn ← heap r !! c;
      Some (move (set_heap r (<[c := set_slot conn t s]> (heap r))) i (Reading c s t))
  | _ => None
  end.
(** A control message; other streams are read and dropped. *)
Definition processControlMessage (data : list Z) : list Z :=
  match data with b :: _ => if b =? control_byte ControlMessagePing then [control_byte ControlMessagePong] else [] | [] => [] end.
Definition read (r : Router) (i : nat) (data : list Z) : option Router :=
  match workers r !! i with
  | Some (Reading c s StreamTypeControl) =>
      Some (match processControlMessage data with [] => r | reply => set_written r (written r ++ [(s, reply)]) end)
  | Some (Reading c s _) => Some r
  | _ => None
  end.
(** The read fails: the stream is closed. *)
Definition end_stream (r : Router) (i : nat) : option Router :=
  match workers r !! i with Some (Reading c s t) => Some (finish r i) | _ => None end.
Definition end_bridge (r : Router) (i : nat) : option Router :=
  match workers r !! i with Some (Bridging sid) => Some (finish r i) | _ => None end.

(** *** Sending and closing *)

Definition GetConnection (r : Router) (sid : string) : option nat := connections r !! sid.
Definition send_to (r : Router) (t : StreamType) (sid missing : string) : option string :=
  match connections r !! sid ≫= (heap r !!.) with
  | None => Some ("connection not found for session: " +:+ sid)
  | Some c => match slot c t with None => Some missing | Some _ => None end
  end.
(** [None]: no error; the message is built and dropped. *)
Definition SendStateUpdate (r : Router) (sid : string) : option string := send_to r StreamTypeControl sid "control stream not available".
Definition SendOOBUI (r : Router) (sid : string) : option string := send_to r StreamTypeOOBUI sid "OOB UI stream not available".
Definition close_session (r : Router) (c : ClientConnection) : Router :=
  match WebTransportSession c with Some w => set_closed r ({[w]} ∪ closed_sessions r) | None => r end.
Definition CloseConnection (r : Router) (sid : string) : Router * bool :=
  match connections r !! sid with
  | None => (r, false)
  | Some i =>
      match heap r !! i with
      | None => (r, false)
      | Some c => (close_session (set_heap r (<[i := close_conn c]> (heap r))) c, true)
      end
  end.
(** Close: cancel, wait for the group, then close what is in the table. *)
Definition close_begin (r : Router) : Router :=
  mkRouter (resolver r) (connections r) (heap r) (fresh_conn r) (workers r) (fresh_worker r) (wg r) true (closed_sessions r) (written r).
Definition close_all (r : Router) : Router :=
  foldl (λ r i, match heap r !! i with Some c => close_session r c | None => r end) r (map_to_list (connections r)).*2.
Definition close_end (r : Router) : option Router := if cancelled r && (wg r =? 0) then Some (close_all r) else None.

Inductive step : Router → Router → Prop :=
  | StepRegister r m sid h : resolver r = Some m →
      step r (mkRouter (Some (RegisterSession m sid h)) (connections r) (heap r) (fresh_conn r) (workers r) (fresh_worker r) (wg r)
                (cancelled r) (closed_sessions r) (written r))
  | StepUnregister r m sid : resolver r = Some m →
      step r (mkRouter (Some (UnregisterSession m sid)) (connections r) (heap r) (fresh_conn r) (workers r) (fresh_worker r) (wg r)
                (cancelled r) (closed_sessions r) (written r))
  | StepRouteCreate r sid : resolver r ≠ None → step r (route_create r sid)
  | StepRouteConnection r sid w r' x : RouteConnection r sid w = Ret (r', x) → step r r'
  | StepAccept r i s r' : accept r i s = Some r' → step r r'
  | StepAcceptError r i r' : accept_error r i = Some r' → step r r'
  | StepLeave r i r' : leave r i = Some r' → step r r'
  | StepStart r i r' : start_stream r i = Some r' → step r r'
  | StepRead r i data r' : read r i data = Some r' → step r r'
  | StepEnd r i r' : end_stream r i = Some r' → step r r'
  | StepEndBridge r i r' : end_bridge r i = Some r' → step r r'
  | StepCloseConnection r sid : step r (CloseConnection r sid).1
  | StepCloseBegin r : step r (close_begin r)
  | StepCloseEnd r r' : close_end r = Some r' → step r r'.

(** ** The invariant *)

Definition conn_of (w : worker) : option nat :=
  match w with Accepting c _ | Leaving c | Starting c _ _ | Reading c _ _ => Some c | Bridging _ => None end.
(** A goroutine of handleConnection, which removes the entry of [c] when it ends. *)
Definition tends (w : worker) (c : nat) : Prop := match w with Accepting c' _ | Leaving c' => c' = c | _ => False end.
Definition slots_ok (k : ClientConnection) : Prop :=
  ∀ t h, slot k t = Some h → h_StreamType h = t ∧ h_SessionID h = SessionID k.

Record router_inv (r : Router) : Prop := {
  inv_wg : wg r = Z.of_nat (size (workers r));
  inv_workers : ∀ i w, workers r !! i = Some w → (i < fresh_worker r)%nat;
  inv_fresh : ∀ c k, heap r !! c = Some k → (c < fresh_conn r)%nat;
  inv_heap : ∀ i w c, workers r !! i = Some w → conn_of w = Some c → is_Some (heap r !! c);
  inv_slots : ∀ c k, heap r !! c = Some k → slots_ok k;
  inv_entry : ∀ sid c, connections r !! sid = Some c → ∃ k, heap r !! c = Some k ∧ SessionID k = sid ∧
    (WebTransportSession k ≠ None → ∃ i w, workers r !! i = Some w ∧ tends w c);
}.

Lemma inv_new res : router_inv (NewRouter res).
Proof. by split. Qed.

Lemma lookup_spawned r i w w0 : router_inv r → workers r !! i = Some w → <[fresh_worker r := w0]> (workers r) !! i = Some w.
Proof. intros [? H ? ? ? ?] Hi. rewrite lookup_insert_ne; [done|]. intros <-. pose proof (H _ _ Hi). lia. Qed.

Lemma inv_spawn r w : router_inv r → (∀ c, conn_of w = Some c → is_Some (heap r !! c)) → router_inv (spawn r w).
Proof.
  intros Hr Hw. pose proof Hr as [H1 H2 H3 H4 H5 H6]. assert (workers r !! fresh_worker r = None) as Hn.
  { destruct (workers r !! fresh_worker r) as [x|] eqn:E; [|done]. pose proof (H2 _ _ E). lia. }
  split; cbn; try done.
  - rewrite map_size_insert, Hn, H1. cbn. lia.
  - intros i x [[<- _]|[_ Hx]]%lookup_insert_Some; [lia|]. pose proof (H2 _ _ Hx). lia.
  - intros i x c [[<- <-]|[_ Hx]]%lookup_insert_Some Hc; [by apply Hw|by eapply H4].
  - intros sid c (k & Hk & Hs & Ht)%H6. exists k. do 2 (split; [done|]). intros Hne. destruct (Ht Hne) as (i & x & Hi & Hx).
    exists i, x. split; [by apply lookup_spawned|done].
Qed.

(** A new connection and the goroutine that tends it. *)
Lemma inv_route r sid wt w : router_inv r → (∀ c, conn_of w = Some c → c = fresh_conn r) → (wt ≠ None → tends w (fresh_conn r)) →
  router_inv (spawn (enter r (newConn sid wt)) w).
Proof.
  intros Hr Hw Ht. pose proof Hr as [H1 H2 H3 H4 H5 H6]. assert (workers r !! fresh_worker r = None) as Hn.
  { destruct (workers r !! fresh_worker r) as [x|] eqn:E; [|done]. pose proof (H2 _ _ E). lia. }
  split; cbn.
  - rewrite map_size_insert, Hn, H1. cbn. lia.
  - intros i x [[<- _]|[_ Hx]]%lookup_insert_Some; [lia|]. pose proof (H2 _ _ Hx). lia.
  - intros c k [[<- _]|[_ Hx]]%lookup_insert_Some; [lia|]. pose proof (H3 _ _ Hx). lia.
  - intros i x c [[<- <-]|[_ Hx]]%lookup_insert_Some Hc.
    + rewrite (Hw _ Hc), lookup_insert_eq. by eexists.
    + destruct (H4 _ _ _ Hx Hc) as [k Hk]. destruct (decide (fresh_conn r = c)) as [<-|]; [rewrite lookup_insert_eq; by eexists|].
      rewrite lookup_insert_ne by done. by eexists.
  - intros c k [[<- <-]|[_ Hx]]%lookup_insert_Some; [by intros [] h|by eapply H5].
  - intros s c [[<- <-]|[_ Hx]]%lookup_insert_Some.
    + exists (newConn sid wt). rewrite lookup_insert_eq. do 2 (split; [done|]). intros Hne. exists (fresh_worker r), w.
      rewrite lookup_insert_eq. split; [done|by apply Ht].
    + destruct (H6 _ _ Hx) as (k & Hk & Hs & Hi). exists k. rewrite lookup_insert_ne by (pose proof (H3 _ _ Hk); lia).
      do 2 (split; [done|]). intros Hne. destruct (Hi Hne) as (i & x & Hix & Hxt). exists i, x. split; [by apply lookup_spawned|done].
Qed.

Lemma inv_move r i w w' : router_inv r → workers r !! i = Some w → conn_of w' = conn_of w → (∀ c, tends w c → tends w' c) →
  router_inv (move r i w').
Proof.
  intros [H1 H2 H3 H4 H5 H6] Hi Hc Ht. split; cbn; try done.
  - rewrite map_size_insert, Hi, H1. done.
  - intros j x [[<- _]|[_ Hx]]%lookup_insert_Some; by eapply H2.
  - intros j x c [[<- <-]|[_ Hx]]%lookup_insert_Some Hxc; [rewrite Hc in Hxc; by eapply H4|by eapply H4].
  - intros sid c (k & Hk & Hs & Hne)%H6. exists k. do 2 (split; [done|]). intros (j & x & Hj & Hx)%Hne.
    destruct (decide (i = j)) as [<-|]; [exists i, w'|exists j, x].
    + rewrite lookup_insert_eq. split; [done|]. apply Ht. congruence.
    + by rewrite lookup_insert_ne by done.
Qed.

Lemma inv_finish r i w : router_inv r → workers r !! i = Some w → (∀ sid c, tends w c → connections r !! sid ≠ Some c) →
  router_inv (finish r i).
Proof.
  intros [H1 H2 H3 H4 H5 H6] Hi Ht. split; cbn; try done.
  - rewrite map_size_delete, Hi, H1. cbn. assert (size (workers r) ≠ 0%nat); [|lia]. apply map_size_non_empty_iff. by intros E; rewrite E in Hi.
  - intros j x [_ Hx]%lookup_delete_Some; by eapply H2.
  - intros j x c [_ Hx]%lookup_delete_Some Hxc; by eapply H4.
  - intros sid c Hsid. destruct (H6 _ _ Hsid) as (k & Hk & Hs & Hne). exists k. do 2 (split; [done|]). intros (j & x & Hj & Hx)%Hne.
    exists j, x. split; [|done]. rewrite lookup_delete_ne; [done|]. intros <-. apply (Ht sid c); [|done]. congruence.
Qed.

Lemma inv_heap_update r c k k' : router_inv r → heap r !! c = Some k → SessionID k' = SessionID k →
  WebTransportSession k' = WebTransportSession k → slots_ok k' → router_inv (set_heap r (<[c := k']> (heap r))).
Proof.
  intros [H1 H2 H3 H4 H5 H6] Hc Hs Hw Hk'. split; cbn; try done.
  - intros d x [[<- _]|[_ Hx]]%lookup_insert_Some; by eapply H3.
  - intros i w d Hi [x Hx]%(H4 _ _ _ Hi). rewrite lookup_insert_is_Some'. right. by eexists.
  - intros d x [[<- <-]|[_ Hx]]%lookup_insert_Some; [done|by eapply H5].
  - intros sid d (x & Hx & Hsid & Ht)%H6. destruct (decide (c = d)) as [<-|].
    + exists k'. rewrite lookup_insert_eq. replace x with k in * by congruence. split_and!; [done|congruence|by rewrite Hw].
    + exists x. by rewrite lookup_insert_ne by done.
Qed.

Lemma inv_entry_gone r sid : router_inv r → router_inv (set_connections r (delete sid (connections r))).
Proof. intros [H1 H2 H3 H4 H5 H6]. split; try done. cbn. intros s c [_ H]%lookup_delete_Some. by apply H6. Qed.

Lemma inv_same r r' : router_inv r → wg r' = wg r → workers r' = workers r → fresh_worker r' = fresh_worker r → heap r' = heap r →
  fresh_conn r' = fresh_conn r → connections r' = connections r → router_inv r'.
Proof. intros [H1 H2 H3 H4 H5 H6] E1 E2 E3 E4 E5 E6. by split; rewrite ?E1, ?E2, ?E3, ?E4, ?E5, ?E6. Qed.

Lemma inv_close_session r c : router_inv r → router_inv (close_session r c).
Proof. intros H. unfold close_session. destruct (WebTransportSession c); [|done]. by eapply inv_same. Qed.

Lemma slot_set_slot k t t' s : slot (set_slot k t s) t' = if decide (t = t') then Some (mkHandler t (SessionID k) s) else slot k t'.
Proof. by destruct t, t'. Qed.
Lemma slots_ok_set k t s : slots_ok k → slots_ok (set_slot k t s).
Proof.
  intros H t' h. rewrite slot_set_slot. replace (SessionID (set_slot k t s)) with (SessionID k) by (by destruct t).
  destruct (decide (t = t')) as [<-|]; [by intros [= <-]|apply H].
Qed.

Lemma inv_leave r i r' : router_inv r → leave r i = Some r' → router_inv r'.
Proof.
  intros H. unfold leave. destruct (workers r !! i) as [[|c| | |]|] eqn:Hi; try done. destruct (heap r !! c) as [k|] eqn:Hk; [|done].
  cbn. intros [= <-]. apply (inv_finish _ _ (Leaving c)); [by apply inv_entry_gone|done|].
  cbn. intros sid d <- [Hne Hsid]%lookup_delete_Some. destruct (inv_entry r H _ _ Hsid) as (k' & Hk' & Hs & _). congruence.
Qed.

Lemma inv_foldl_close l : ∀ r, router_inv r →
  router_inv (foldl (λ r i, match heap r !! i with Some c => close_session r c | None => r end) r l).
Proof. induction l as [|i l IH]; intros r H; [done|]. cbn. apply IH. destruct (heap r !! i); [by apply inv_close_session|done]. Qed.

Lemma step_inv r r' : router_inv r → step r r' → router_inv r'.
Proof.
  intros H Hstep. destruct Hstep as [r m sid h Hm|r m sid Hm|r sid Hm|r sid w r' x Hx|r i s r' Hx|r i r' Hx|r i r' Hx|r i r' Hx|
    r i data r' Hx|r i r' Hx|r i r' Hx|r sid|r|r r' Hx].
  - by eapply inv_same.
  - by eapply inv_same.
  - by apply inv_route.
  - unfold RouteConnection in Hx. destruct (resolver r) as [m|]; [|done]. destruct (ResolveSession m sid); injection Hx as <- _; [|done].
    apply inv_route; [done|by intros c [= <-]|done].
  - unfold accept in Hx. destruct (workers r !! i) as [[c n| | | |]|] eqn:Hi; try done. injection Hx as <-.
    apply inv_spawn; [by eapply inv_move|]. intros d [= <-]. by apply (inv_heap r H _ _ _ Hi).
  - unfold accept_error in Hx. destruct (workers r !! i) as [[c n| | | |]|] eqn:Hi; try done. injection Hx as <-. by eapply inv_move.
  - by eapply inv_leave.
  - unfold start_stream in Hx. destruct (workers r !! i) as [[| |c s t| |]|] eqn:Hi; try done. destruct (heap r !! c) as [k|] eqn:Hk; [|done].
    injection Hx as <-. apply (inv_move _ _ (Starting c s t)); [|done..].
    apply (inv_heap_update _ _ k); [done|done|by destruct t|by destruct t|apply slots_ok_set; by apply (inv_slots r H _ _ Hk)].
  - unfold read in Hx. destruct (workers r !! i) as [[| | |c s []|]|]; try done; injection Hx as <-; try done.
    destruct (processControlMessage data); [done|by eapply inv_same].
  - unfold end_stream in Hx. destruct (workers r !! i) as [[| | |c s t|]|] eqn:Hi; try done. injection Hx as <-. by eapply inv_finish.
  - unfold end_bridge in Hx. destruct (workers r !! i) as [[| | | |sid]|] eqn:Hi; try done. injection Hx as <-. by eapply inv_finish.
  - unfold CloseConnection. destruct (connections r !! sid) as [i|]; [|done]. destruct (heap r !! i) as [k|] eqn:Hk; [|done].
    apply inv_close_session. apply (inv_heap_update _ _ k); [done..|]. intros t h Hh. apply (inv_slots r H _ _ Hk). by destruct t.
  - by eapply inv_same.
  - unfold close_end in Hx. destruct (_ && _); [|done]. injection Hx as <-. by apply inv_foldl_close.
Qed.

Lemma reachable_inv res r : rtc step (NewRouter res) r → router_inv r.
Proof.
  intros H. assert (∀ a, rtc step a r → router_inv a → router_inv r) as Hgen; [|by apply (Hgen _ H), inv_new].
  clear H. intros a. induction 1 as [|a b r Hab _ IH]; [done|]. intros Ha. by apply IH, (step_inv a).
Qed.

(** ** What the invariant gives *)

Lemma no_workers r : router_inv r → wg r = 0 → workers r = ∅.
Proof. intros H Hw. apply map_size_empty_iff. rewrite (inv_wg r H) in Hw. lia. Qed.

Lemma close_all_nothing r : router_inv r → workers r = ∅ → close_all r = r.
Proof.
  intros H Hw. unfold close_all.
  assert (∀ l, (∀ c, c ∈ l → ∃ sid, connections r !! sid = Some c) →
    foldl (λ r i, match heap r !! i with Some c => close_session r c | None => r end) r l = r) as Hl.
  { induction l as [|c l IH]; intros Hc; [done|]. cbn. destruct (Hc c) as [sid Hsid]; [left|].
    destruct (inv_entry r H _ _ Hsid) as (k & Hk & _ & Ht). rewrite Hk. unfold close_session.
    destruct (WebTransportSession k) as [x|]; [|by apply IH; intros d Hd; apply Hc; right].
    destruct Ht as (i & w & Hi & _); [done|]. by rewrite Hw in Hi. }
  apply Hl. intros c (x & -> & Hx)%list_elem_of_fmap. destruct x as [sid c]. exists sid. by apply elem_of_map_to_list.
Qed.

(** closing the router closes nobody: whatever happened before, when Close
    comes to the loop that closes the sessions, the wait group it counted on is
    exact, every goroutine has ended, and each has already taken its entry out of
    the table, so no session is closed; and a client that keeps its stream open
    holds Close up, because the sessions would be closed after the wait only. *)
Theorem close_closes_nobody res r r' :
  rtc step (NewRouter res) r → wg r = Z.of_nat (size (workers r)) ∧ (close_end r = Some r' → workers r = ∅ ∧ r' = r).
Proof.
  intros Hr%reachable_inv. split; [by apply inv_wg|]. unfold close_end. destruct (cancelled r); [|done]. cbn.
  destruct (Z.eqb_spec (wg r) 0) as [Hw|]; [|done]. intros [= <-]. pose proof (no_workers r Hr Hw) as He.
  split; [done|by apply close_all_nothing].
Qed.

(** a goroutine that ends takes away the entry of its session, whoever is in it:
    after a client has connected again, the end of its old connection leaves the
    new one, which is still served, out of reach: it is not found, not sent to and
    not closed. *)
Theorem late_leave_orphans res r i c : rtc step (NewRouter res) r → workers r !! i = Some (Leaving c) →
  ∃ k r', heap r !! c = Some k ∧ leave r i = Some r' ∧ GetConnection r' (SessionID k) = None ∧
    SendStateUpdate r' (SessionID k) = Some ("connection not found for session: " +:+ SessionID k) ∧
    CloseConnection r' (SessionID k) = (r', false) ∧
    ∀ j, j ≠ i → workers r' !! j = workers r !! j.
Proof.
  intros Hr%reachable_inv Hi. destruct (inv_heap r Hr _ _ c Hi eq_refl) as [k Hk].
  unfold leave. rewrite Hi, Hk. cbn. eexists k, _. do 2 (split; [done|]).
  unfold GetConnection, SendStateUpdate, send_to, CloseConnection. cbn. rewrite lookup_delete_eq. cbn.
  do 3 (split; [done|]). intros j Hj. by rewrite lookup_delete_ne.
Qed.

(** *** The order of the streams *)

Fixpoint accept_all (r : Router) (i : nat) (ss : list nat) : option Router :=
  match ss with [] => Some r | s :: ss' => accept r i s ≫= λ r', accept_all r' i ss' end.

Lemma uint64_next j : 0 ≤ j → uint64 (uint64 j + 1) = uint64 (j + 1).
Proof. intros H. unfold uint64. apply Zplus_mod_idemp_l. Qed.
(** The counter wraps round at a multiple of four. *)
Lemma uint64_type j : streamTypeFromCounter (uint64 j) = streamTypeFromCounter j.
Proof.
  unfold streamTypeFromCounter, uint64. rewrite <-Znumtheory.Zmod_div_mod; [done|lia|lia|]. exists (2 ^ 62). reflexivity.
Qed.

Lemma accept_all_types ss : ∀ r i c n, (∀ j w, workers r !! j = Some w → (j < fresh_worker r)%nat) → 0 ≤ n →
  workers r !! i = Some (Accepting c (uint64 n)) →
  ∃ r', accept_all r i ss = Some r' ∧ (∀ j, (j < fresh_worker r)%nat → j ≠ i → workers r' !! j = workers r !! j) ∧
    ∀ j s, ss !! j = Some s → workers r' !! (fresh_worker r + j)%nat = Some (Starting c s (streamTypeFromCounter (n + Z.of_nat j))).
Proof.
  induction ss as [|s ss IH]; intros r i c n Hf Hn Hi; [by exists r|]. cbn [accept_all]. unfold accept at 1. rewrite Hi.
  cbn [mbind option_bind]. set (r1 := spawn _ _). pose proof (Hf _ _ Hi) as Hlt.
  destruct (IH r1 i c (n + 1)) as (r' & Hr' & Hold & Hnew); [|lia| |].
  - intros j w. cbn. intros [[<- _]|[_ [[<- _]|[_ Hj]]%lookup_insert_Some]]%lookup_insert_Some; [lia|lia|].
    pose proof (Hf _ _ Hj). lia.
  - cbn. rewrite lookup_insert_ne by lia. rewrite lookup_insert_eq. by rewrite uint64_next.
  - exists r'. split; [done|]. cbn in Hold, Hnew. split.
    + intros j Hj Hji. rewrite Hold by (done || lia). cbn. by rewrite !lookup_insert_ne by (done || lia).
    + intros [|j] x Hx; cbn in Hx.
      * injection Hx as <-. rewrite Nat.add_0_r, Hold by lia. cbn. rewrite lookup_insert_eq, uint64_type. by rewrite Z.add_0_r.
      * apply Hnew in Hx. replace (fresh_worker r + S j)%nat with (S (fresh_worker r) + j)%nat by lia.
        etransitivity; [exact Hx|]. do 2 f_equal. f_equal. lia.
Qed.

(** streams are typed by arrival: the streams a client opens on a new connection
    become, in order, its input, its control, its output and its panel stream, and
    the fifth is input again; each gets a goroutine of its own. *)
Theorem streams_by_arrival res r sid w r1 ss :
  rtc step (NewRouter res) r → RouteConnection r sid w = Ret (r1, Ok ()) →
  ∃ r', accept_all r1 (fresh_worker r) ss = Some r' ∧ connections r1 !! sid = Some (fresh_conn r) ∧
    ∀ j s, ss !! j = Some s →
      workers r' !! (S (fresh_worker r) + j)%nat = Some (Starting (fresh_conn r) s (streamTypeFromCounter (Z.of_nat j))).
Proof.
  intros Hr%reachable_inv H. assert (router_inv r1) as H1 by (by eapply step_inv, StepRouteConnection).
  unfold RouteConnection in H. destruct (resolver r) as [m|]; [|done]. destruct (ResolveSession m sid) as [h|]; [|done]. injection H as <-.
  destruct (accept_all_types ss _ (fresh_worker r) (fresh_conn r) 0 (inv_workers _ H1)) as (r' & E & _ & Hn); [done|cbn; apply lookup_insert_eq|].
  exists r'. split; [done|]. split; [cbn; apply lookup_insert_eq|]. intros j s Hj. by apply Hn.
Qed.

(** The counter of the server gives every stream the type of the one after it. *)
Fixpoint next_types (counter : Z) (n : nat) : list StreamType :=
  match n with O => [] | S n' => let '(c, t) := nextStreamType counter in t :: next_types c n' end.
Lemma next_types_ahead n : ∀ k, 0 ≤ k → next_types (uint64 k) n = streamTypeFromCounter <$> seqZ (k + 1) (Z.of_nat n).
Proof.
  induction n as [|n IH]; intros k Hk; [done|]. cbn [next_types nextStreamType]. rewrite uint64_next, IH by lia.
  rewrite (seqZ_cons (k + 1)) by lia. cbn [fmap list_fmap]. f_equal.
  - apply uint64_type.
  - f_equal. f_equal; lia.
Qed.

(** *** Control streams *)

Fixpoint read_all (r : Router) (i : nat) (chunks : list (list Z)) : option Router :=
  match chunks with [] => Some r | d :: ds => read r i d ≫= λ r', read_all r' i ds end.
Definition is_ping (d : list Z) : bool := match d with b :: _ => b =? 0 | [] => false end.

(** a ping is answered: what a control stream sends is one pong for each chunk
    that begins with the byte of a ping, and nothing else happens. *)
Theorem control_pongs chunks : ∀ r i c s, workers r !! i = Some (Reading c s StreamTypeControl) →
  read_all r i chunks = Some (set_written r (written r ++ ((λ _, (s, [1])) <$> List.filter is_ping chunks))).
Proof.
  induction chunks as [|d ds IH]; intros r i c s Hi; cbn [read_all].
  - cbn. rewrite app_nil_r. by destruct r.
  - unfold read at 1. rewrite Hi. cbn [mbind option_bind]. destruct d as [|b d]; [by eapply IH|]. cbn [processControlMessage control_byte is_ping List.filter].
    destruct (b =? 0); [|by eapply IH]. rewrite (IH _ _ c s) by done. cbn. by rewrite <-app_assoc.
Qed.

(** ** When the clients hang up *)

Inductive drain : Router → Router → Prop :=
  | DrainAccept r i r' : accept_error r i = Some r' → drain r r'
  | DrainLeave r i r' : leave r i = Some r' → drain r r'
  | DrainStart r i r' : start_stream r i = Some r' → drain r r'
  | DrainEnd r i r' : end_stream r i = Some r' → drain r r'
  | DrainBridge r i r' : end_bridge r i = Some r' → drain r r'.
Definition weight (w : worker) : nat := match w with Accepting _ _ | Starting _ _ _ => 2 | Leaving _ | Reading _ _ _ | Bridging _ => 1 end.
Definition total (m : gmap nat worker) : nat := sum_list (weight <$> (map_to_list m).*2).

Lemma total_perm l l' : Permutation l l' → sum_list l = sum_list l'.
Proof. induction 1; cbn; lia. Qed.
Lemma total_delete m i w : m !! i = Some w → total m = (weight w + total (delete i m))%nat.
Proof.
  intros H. unfold total. rewrite <-(insert_delete_id m i w H) at 1.
  rewrite (total_perm _ (weight <$> ((i, w) :: map_to_list (delete i m)).*2)); [done|].
  do 2 apply fmap_Permutation. apply map_to_list_insert, lookup_delete_eq.
Qed.
Lemma total_insert m i w w' : m !! i = Some w → (total (<[i := w']> m) + weight w = total m + weight w')%nat.
Proof.
  intros H. rewrite (total_delete (<[i := w']> m) i w') by apply lookup_insert_eq. rewrite (total_delete m i w H), delete_insert_eq. lia.
Qed.

Lemma drain_step r r' : drain r r' → step r r'.
Proof.
  destruct 1; [by eapply StepAcceptError|by eapply StepLeave|by eapply StepStart|by eapply StepEnd|by eapply StepEndBridge].
Qed.
Lemma drain_total r r' : drain r r' → (total (workers r') < total (workers r))%nat.
Proof.
  destruct 1 as [r i r' H|r i r' H|r i r' H|r i r' H|r i r' H].
  - unfold accept_error in H. destruct (workers r !! i) as [[c n| | | |]|] eqn:E; try done. injection H as <-.
    pose proof (total_insert _ _ _ (Leaving c) E). cbn in *. lia.
  - unfold leave in H. destruct (workers r !! i) as [[|c| | |]|] eqn:E; try done. destruct (heap r !! c); [|done]. injection H as <-.
    pose proof (total_delete _ _ _ E). cbn in *. lia.
  - unfold start_stream in H. destruct (workers r !! i) as [[| |c s t| |]|] eqn:E; try done. destruct (heap r !! c); [|done]. injection H as <-.
    pose proof (total_insert _ _ _ (Reading c s t) E). cbn in *. lia.
  - unfold end_stream in H. destruct (workers r !! i) as [[| | |c s t|]|] eqn:E; try done. injection H as <-.
    pose proof (total_delete _ _ _ E). cbn in *. lia.
  - unfold end_bridge in H. destruct (workers r !! i) as [[| | | |sid]|] eqn:E; try done. injection H as <-.
    pose proof (total_delete _ _ _ E). cbn in *. lia.
Qed.
Lemma drain_progress r : router_inv r → workers r ≠ ∅ → ∃ r', drain r r'.
Proof.
  intros H (i & w & Hi)%map_choose. destruct w as [c n|c|c s t|c s t|sid].
  - eexists. apply (DrainAccept _ i). unfold accept_error. by rewrite Hi.
  - destruct (inv_heap r H _ _ c Hi eq_refl) as [k Hk]. eexists. apply (DrainLeave _ i). unfold leave. by rewrite Hi, Hk.
  - destruct (inv_heap r H _ _ c Hi eq_refl) as [k Hk]. eexists. apply (DrainStart _ i). unfold start_stream. by rewrite Hi, Hk.
  - eexists. apply (DrainEnd _ i). unfold end_stream. by rewrite Hi.
  - eexists. apply (DrainBridge _ i). unfold end_bridge. by rewrite Hi.
Qed.

(** once the clients hang up, the router ends: from any state, without new
    streams and chunks, the goroutines take at most two steps each, they can go on
    until none is left, and then the wait of Close is over. *)
Theorem router_drains res r : rtc step (NewRouter res) r →
  (∃ r', rtc drain r r' ∧ wg r' = 0) ∧ ∀ n r', nsteps drain n r r' → (n <= total (workers r))%nat.
Proof.
  intros Hr%reachable_inv. split.
  - remember (total (workers r)) as n eqn:En. revert r En Hr. induction n as [n IH] using lt_wf_ind. intros r -> Hr.
    destruct (decide (workers r = ∅)) as [E|E]; [exists r; split; [done|rewrite (inv_wg r Hr), E; done]|].
    destruct (drain_progress r Hr E) as [r1 H1]. destruct (IH _ (drain_total _ _ H1) r1 eq_refl) as (r' & Hr' & Hw);
      [by apply (step_inv r), drain_step|]. exists r'. split; [by eapply rtc_l|done].
  - clear Hr. intros n. revert r. induction n as [|n IH]; intros r r' H; [lia|]. inversion H as [|? ? y ? H1 H2]; subst.
    apply IH in H2. apply drain_total in H1. lia.
Qed.

(** ** The server of the streams, and how main wires it *)

Definition ConnectionHandler : Type := string → nat → Router → go (Router * result string unit).
Record WebTransportServer := mkServer { s_resolver : option Resolver; connHandler : option ConnectionHandler; streamCounter : Z }.
Definition NewWebTransportServer (r : option Resolver) : WebTransportServer := mkServer r None 0.
Definition SetConnectionHandler (s : WebTransportServer) (h : ConnectionHandler) : WebTransportServer :=
  mkServer (s_resolver s) (Some h) (streamCounter s).
(** Without a handler the session is looked up and left alone. *)
Definition handleWebTransport (s : WebTransportServer) (sid : string) : go unit :=
  match s_resolver s with None => Panic | Some _ => Ret () end.
Inductive upgrade_reply := SessionIdRequired | UpgradeFailed | Upgraded | HandlerFailed (msg : string).
(** The handler of /webtransport that Start installs; [upgraded] is what Upgrade gives. *)
Definition webtransport (s : WebTransportServer) (r : Router) (session_id : string) (upgraded : option nat) : go (Router * upgrade_reply) :=
  if String.eqb session_id "" then Ret (r, SessionIdRequired) else
  match upgraded with
  | None => Ret (r, UpgradeFailed)
  | Some w =>
      match connHandler s with
      | Some h =>
          '(r', x) ← h session_id w r;
          Ret (match x with Ok _ => (r', Upgraded) | Err e => (set_closed r' ({[w]} ∪ closed_sessions r'), HandlerFailed e) end)
      | None => _ ← handleWebTransport s session_id; Ret (r, Upgraded)
      end
  end.
(** transport.StartWebTransportServer: no resolver in the configuration. *)
Definition StartWebTransportServer : WebTransportServer :=
  SetConnectionHandler (NewWebTransportServer None) (λ sid w r, RouteConnection r sid w).
(** cmd/nexus/main.go: router.NewRouter(nil, ss). *)
Definition wired : Router := NewRouter None.

Lemma step_no_resolver r r' : step r r' → resolver r = None → connections r = ∅ → workers r = ∅ →
  resolver r' = None ∧ connections r' = ∅ ∧ workers r' = ∅.
Proof.
  intros Hs Hn Hc Hw. destruct Hs as [r m sid h Hm|r m sid Hm|r sid Hm|r sid w r' x Hx|r i s r' Hx|r i r' Hx|r i r' Hx|r i r' Hx|
    r i data r' Hx|r i r' Hx|r i r' Hx|r sid|r|r r' Hx]; try done; try congruence.
  - unfold RouteConnection in Hx. by rewrite Hn in Hx.
  - unfold accept in Hx. by rewrite Hw, lookup_empty in Hx.
  - unfold accept_error in Hx. by rewrite Hw, lookup_empty in Hx.
  - unfold leave in Hx. by rewrite Hw, lookup_empty in Hx.
  - unfold start_stream in Hx. by rewrite Hw, lookup_empty in Hx.
  - unfold read in Hx. by rewrite Hw, lookup_empty in Hx.
  - unfold end_stream in Hx. by rewrite Hw, lookup_empty in Hx.
  - unfold end_bridge in Hx. by rewrite Hw, lookup_empty in Hx.
  - unfold CloseConnection. by rewrite Hc, lookup_empty.
  - unfold close_end, close_all in Hx. rewrite Hc, map_to_list_empty in Hx. destruct (_ && _); [|done]. by injection Hx as <-.
Qed.

(** the browser streams never work: with the router that main makes, whatever
    happens, the table of connections stays empty, and every request that names a
    session and is upgraded ends in a panic. *)
Theorem no_session_is_routed r sid w : rtc step wired r → sid ≠ ""%string →
  connections r = ∅ ∧ workers r = ∅ ∧ webtransport StartWebTransportServer r sid (Some w) = Panic.
Proof.
  intros Hr Hsid. assert (resolver r = None ∧ connections r = ∅ ∧ workers r = ∅) as (H1 & H2 & H3).
  { remember wired as a eqn:Ea. assert (resolver a = None ∧ connections a = ∅ ∧ workers a = ∅) as Ha by (by rewrite Ea). clear Ea.
    induction Hr as [|a b r Hab _ IH]; [done|]. destruct Ha as (? & ? & ?). apply IH. by apply (step_no_resolver a). }
  do 2 (split; [done|]). unfold webtransport. destruct (String.eqb_spec sid ""); [done|]. cbn. unfold RouteConnection. by rewrite H1.
Qed.

(** ** The registry of sessions *)

Record RegistryEntry := mkEntry { e_SessionID : string; e_SatelliteID : string; e_handler : SatelliteHandler; CreatedAt : Z; LastActivityAt : Z }.
Record SessionRegistry := mkRegistry { sessions : gmap string RegistryEntry; maxSessions : Z }.
Definition NewSessionRegistry (max : Z) : SessionRegistry := mkRegistry ∅ max.
Definition Register (g : SessionRegistry) (sid sat : string) (h : SatelliteHandler) (now : Z) : SessionRegistry * bool :=
  if maxSessions g <=? Z.of_nat (size (sessions g)) then (g, false)
  else (mkRegistry (<[sid := mkEntry sid sat h now now]> (sessions g)) (maxSessions g), true).
Definition Unregister (g : SessionRegistry) (sid : string) : SessionRegistry := mkRegistry (delete sid (sessions g)) (maxSessions g).
Definition touch (e : RegistryEntry) (now : Z) : RegistryEntry := mkEntry (e_SessionID e) (e_SatelliteID e) (e_handler e) (CreatedAt e) now.
Definition Get (g : SessionRegistry) (sid : string) (now : Z) : SessionRegistry * option RegistryEntry :=
  match sessions g !! sid with
  | Some e => (mkRegistry (<[sid := touch e now]> (sessions g)) (maxSessions g), Some (touch e now))
  | None => (g, None)
  end.
Definition List_ (order : list (string * RegistryEntry) → list (string * RegistryEntry)) (g : SessionRegistry) : list string :=
  (order (map_to_list (sessions g))).*1.
Definition Count (g : SessionRegistry) : Z := Z.of_nat (size (sessions g)).

Inductive registry_op := ORegister (sid sat : string) (h : SatelliteHandler) (now : Z) | OUnregister (sid : string) | OGet (sid : string) (now : Z).
Definition registry_do (g : SessionRegistry) (o : registry_op) : SessionRegistry :=
  match o with
  | ORegister sid sat h now => (Register g sid sat h now).1
  | OUnregister sid => Unregister g sid
  | OGet sid now => (Get g sid now).1
  end.

Lemma registry_do_max g o : maxSessions (registry_do g o) = maxSessions g.
Proof. destruct o; cbn; unfold Register, Get; [by destruct (_ <=? _)|done|by destruct (sessions g !! sid)]. Qed.
Lemma registry_do_bound g o : Count g <= Z.max 0 (maxSessions g) → Count (registry_do g o) <= Z.max 0 (maxSessions g).
Proof.
  unfold Count. intros H. destruct o as [sid sat h now|sid|sid now]; cbn; unfold Register, Get.
  - destruct (Z.leb_spec (maxSessions g) (Z.of_nat (size (sessions g)))); [done|]. cbn. rewrite map_size_insert.
    destruct (sessions g !! sid); cbn; lia.
  - rewrite map_size_delete. destruct (sessions g !! sid); cbn; lia.
  - destruct (sessions g !! sid) as [e|] eqn:E; [|done]. cbn. by rewrite map_size_insert, E.
Qed.

(** the registry is bounded, for any sequence of calls and any maximum; List
    names each of its sessions once, and Count counts them. At its bound it refuses
    even a session it already has. *)
Theorem registry_bounded max ops order : (∀ l, Permutation (order l) l) →
  let g := foldl registry_do (NewSessionRegistry max) ops in
  Count g <= Z.max 0 max ∧ NoDup (List_ order g) ∧ Count g = Z.of_nat (length (List_ order g)) ∧
  (max <= Count g → ∀ sid sat h now, Register g sid sat h now = (g, false)).
Proof.
  intros Horder g. assert (Count g <= Z.max 0 max ∧ maxSessions g = max) as [H1 H2].
  { subst g. assert (∀ g, Count g <= Z.max 0 (maxSessions g) → let g' := foldl registry_do g ops in
      Count g' <= Z.max 0 (maxSessions g) ∧ maxSessions g' = maxSessions g) as Hgen; [|apply (Hgen (NewSessionRegistry max)); unfold Count; cbn; rewrite map_size_empty; lia].
    induction ops as [|o ops IH]; intros g Hg; [done|]. cbn [foldl].
    pose proof (registry_do_max g o) as Hm. rewrite <-Hm. apply IH. rewrite Hm. by apply registry_do_bound. }
  split; [done|]. split; [|split].
  - unfold List_. rewrite Horder. apply NoDup_fst_map_to_list.
  - unfold List_, Count. by rewrite length_fmap, Horder, length_map_to_list.
  - intros Hc sid sat h now. unfold Register. rewrite H2. destruct (Z.leb_spec max (Z.of_nat (size (sessions g)))); [done|].
    unfold Count in Hc. lia.
Qed.

(** ** Concrete inputs *)

Definition demo_resolver : Resolver := {["s" := Some "s"]}%string.
Definition demo_start : Router := NewRouter (Some demo_resolver).
Definition unwrap {A} (d : Router) (x : go (Router * A)) : Router := match x with Ret (r, _) => r | Panic => d end.
Definition demo1 : Router := unwrap demo_start (RouteConnection demo_start "s" 7).
Definition demo2 : Router := unwrap demo1 (RouteConnection demo1 "s" 8).
Definition demo3 : Router := default demo2 (accept_error demo2 0).
Lemma demo1_reached : rtc step demo_start demo1.
Proof. apply rtc_once. by eapply (StepRouteConnection _ "s" 7). Qed.
Lemma demo3_reached : rtc step demo_start demo3.
Proof.
  etrans; [apply demo1_reached|]. eapply rtc_l; [by eapply (StepRouteConnection _ "s" 8)|].
  apply rtc_once. by eapply (StepAcceptError _ 0).
Qed.

Lemma close_closes_nobody_witness :
  let r := close_begin (default demo1 (leave (default demo1 (accept_error demo1 0)) 0)) in
  rtc step demo_start r ∧ close_end r = Some r ∧
  (wg r = Z.of_nat (size (workers r)) ∧ (close_end r = Some r → workers r = ∅ ∧ r = r)).
Proof.
  intros r. assert (rtc step demo_start r) as Hr.
  { etrans; [apply demo1_reached|]. eapply rtc_l; [by eapply (StepAcceptError _ 0)|]. eapply rtc_l; [by eapply (StepLeave _ 0)|].
    apply rtc_once, StepCloseBegin. }
  split; [done|]. split; [reflexivity|]. apply (close_closes_nobody _ _ r Hr).
Defined.
(** A stream that is being read holds Close up. *)
Example reader_holds_close :
  let r := close_begin (default demo1 (start_stream (default demo1 (accept demo1 0 3)) 1)) in wg r = 2 ∧ close_end r = None.
Proof. split; reflexivity. Qed.

(** The second connection is still served when the first one ends. *)
Lemma late_leave_orphans_witness :
  workers demo3 !! 0%nat = Some (Leaving 0) ∧ GetConnection demo3 "s" = Some 1%nat ∧
  ∃ k r', heap demo3 !! 0%nat = Some k ∧ leave demo3 0 = Some r' ∧ GetConnection r' (SessionID k) = None ∧
    SendStateUpdate r' (SessionID k) = Some ("connection not found for session: " +:+ SessionID k) ∧
    CloseConnection r' (SessionID k) = (r', false) ∧ ∀ j, j ≠ 0%nat → workers r' !! j = workers demo3 !! j.
Proof.
  split; [reflexivity|]. split; [reflexivity|]. apply (late_leave_orphans _ _ _ _ demo3_reached). reflexivity.
Defined.

Lemma streams_by_arrival_witness :
  ∃ r', accept_all demo1 0 [10; 11; 12; 13; 14]%nat = Some r' ∧ connections demo1 !! "s"%string = Some 0%nat ∧
    ∀ j s, [10; 11; 12; 13; 14]%nat !! j = Some s → workers r' !! (S 0 + j)%nat = Some (Starting 0 s (streamTypeFromCounter (Z.of_nat j))).
Proof. apply (streams_by_arrival (Some demo_resolver) demo_start "s" 7 demo1); [done|reflexivity]. Defined.

Lemma control_pongs_witness :
  let r := default demo1 (start_stream (default demo1 (accept (default demo1 (accept demo1 0 10)) 0 11)) 2) in
  read_all r 2 [[0; 9]; []; [4]; [0]] = Some (set_written r [(11%nat, [1]); (11%nat, [1])]).
Proof. intros r. by rewrite (control_pongs _ r 2 0 11). Defined.

Lemma router_drains_witness :
  (∃ r', rtc drain demo3 r' ∧ wg r' = 0) ∧ ∀ n r', nsteps drain n demo3 r' → (n <= total (workers demo3))%nat.
Proof. apply (router_drains (Some demo_resolver)), demo3_reached. Defined.

Lemma no_session_is_routed_witness :
  connections wired = ∅ ∧ workers wired = ∅ ∧ webtransport StartWebTransportServer wired "s" (Some 7%nat) = Panic.
Proof. by apply no_session_is_routed. Defined.

Lemma registry_bounded_witness :
  let g := foldl registry_do (NewSessionRegistry 1) [ORegister "a" "x" None 1; ORegister "b" "y" None 2; OGet "a" 3]%string in
  Count g <= Z.max 0 1 ∧ NoDup (List_ id g) ∧ Count g = Z.of_nat (length (List_ id g)) ∧
  (1 <= Count g → ∀ sid sat h now, Register g sid sat h now = (g, false)).
Proof. apply registry_bounded. done. Defined.

Example server_counter_is_ahead :
  next_types 0 5 = [StreamTypeControl; StreamTypeTerminalRX; StreamTypeOOBUI; StreamTypeTerminalTX; StreamTypeControl] ∧
  streamTypeFromCounter <$> [0; 1; 2; 3; 4] = [StreamTypeTerminalTX; StreamTypeControl; StreamTypeTerminalRX; StreamTypeOOBUI; StreamTypeTerminalTX].
Proof. by vm_compute. Qed.
End Router.
