(* ===== verification/Panels.v ===== *)
(** * src/internal/api/handlers.go: preview, telemetry, health, licence, proposals

    The handlers behind the panels of the browser client. The preview cuts the
    last lines out of the ring buffer of a session and drops the escape sequences
    that the regular expression of the code describes, here as a matcher. *)
From S2P Require Import Prelude RingBuffer.
From S2P Require Import Channels.
From S2P Require Import Streams.
From S2P Require Import License.
#[local] Open Scope Z_scope.
#[local] Set Default Proof Using "Type".

(** ** The preview of a terminal *)

Module Preview.

Definition ESC : Z := 27.
Definition nl : Z := 10.
Definition is_letter (b : Z) : bool := ((65 <=? b) && (b <=? 90)) || ((97 <=? b) && (b <=? 122)).
(** [0-9;] *)
Definition is_param (b : Z) : bool := ((48 <=? b) && (b <=? 57)) || (b =? 59).
Definition cont (b : Z) : bool := (128 <=? b) && (b <=? 191).

(** The width of the rune that a text begins with; 1 where it is no UTF-8. *)
Definition rune_width (l : list Z) : nat :=
  match l with
  | b :: c :: r =>
      if (194 <=? b) && (b <=? 223) && cont c then 2%nat else
      match r with
      | d :: r' =>
          if cont d && ((b =? 224) && (160 <=? c) && (c <=? 191) || ((225 <=? b) && (b <=? 236) || (b =? 238) || (b =? 239)) && cont c
                        || (b =? 237) && (128 <=? c) && (c <=? 159)) then 3%nat else
          match r' with
          | e :: _ =>
              if cont d && cont e && ((b =? 240) && (144 <=? c) && (c <=? 191) || (241 <=? b) && (b <=? 243) && cont c
                                      || (b =? 244) && (128 <=? c) && (c <=? 143)) then 4%nat else 1%nat
          | [] => 1%nat
          end
      | [] => 1%nat
      end
  | _ => 1%nat
  end.

(** The alternatives of the expression, after an ESC: the bytes they take. *)
Fixpoint csi (l : list Z) : option nat :=
  match l with [] => None | b :: r => if is_letter b then Some 1%nat else if is_param b then S <$> csi r else None end.
Fixpoint until (stop : Z) (l : list Z) : option nat :=
  match l with [] => None | b :: r => if b =? stop then Some 1%nat else S <$> until stop r end.
Definition alt_csi (l : list Z) : option nat := match l with 91 :: r => S <$> csi r | _ => None end.
Definition alt_osc (l : list Z) : option nat := match l with 93 :: r => S <$> until 7 r | _ => None end.
Definition alt_charset (l : list Z) : option nat :=
  match l with
  | a :: b :: _ => if ((a =? 40) || (a =? 41)) && (((65 <=? b) && (b <=? 66)) || ((48 <=? b) && (b <=? 50))) then Some 2%nat else None
  | _ => None
  end.
(** Up to the next ESC, which a backslash must follow. *)
Definition alt_string (l : list Z) : option nat :=
  match l with
  | a :: r =>
      if (a =? 80) || (a =? 88) || (a =? 94) || (a =? 95) then
        n ← until ESC r; match r !! n with Some 92 => Some (S (S n)) | _ => None end
      else None
  | [] => None
  end.
Definition alt_any (l : list Z) : option nat := match l with b :: _ => if b =? nl then None else Some (rune_width l) | [] => None end.
Definition escape (l : list Z) : option nat :=
  match alt_csi l with Some n => Some n | None =>
  match alt_osc l with Some n => Some n | None =>
  match alt_charset l with Some n => Some n | None =>
  match alt_string l with Some n => Some n | None => alt_any l end end end end.

(** ansiRegex.ReplaceAll(_, nil); [fuel]: the length of the text. *)
Fixpoint strip (fuel : nat) (l : list Z) : list Z :=
  match fuel, l with
  | S fuel', b :: r =>
      if b =? ESC then match escape r with Some n => strip fuel' (drop n r) | None => b :: strip fuel' r end else b :: strip fuel' r
  | _, _ => []
  end.
Definition clean (l : list Z) : list Z := strip (length l) l.

(** strings.Split and strings.Join at newlines. *)
Fixpoint split (l : list Z) : list (list Z) :=
  match l with
  | [] => [[]]
  | b :: r => if b =? nl then [] :: split r else match split r with x :: xs => (b :: x) :: xs | [] => [[b]] end
  end.
Fixpoint join (ls : list (list Z)) : list Z :=
  match ls with [] => [] | [x] => x | x :: xs => x ++ nl :: join xs end.

(** The runes of unicode.IsSpace. *)
Definition space_runes : list (list Z) :=
  [[9]; [10]; [11]; [12]; [13]; [32]; [194; 133]; [194; 160]; [225; 154; 128]] ++
  ((λ n, [226; 128; n]) <$> seqZ 128 11) ++ [[226; 128; 168]; [226; 128; 169]; [226; 128; 175]; [226; 129; 159]; [227; 128; 128]].
Fixpoint prefix_width (rs : list (list Z)) (l : list Z) : option nat :=
  match rs with [] => None | r :: rs' => if bool_decide (take (length r) l = r) then Some (length r) else prefix_width rs' l end.
(** strings.TrimSpace(_) is empty. *)
Fixpoint blank (fuel : nat) (l : list Z) : bool :=
  match fuel, l with
  | _, [] => true
  | S fuel', _ => match prefix_width space_runes l with Some n => blank fuel' (drop n l) | None => false end
  | O, _ => false
  end.
Definition is_blank (l : list Z) : bool := blank (length l) l.

Definition last_n {A} (n : nat) (l : list A) : list A := drop (length l - n) l.
(** The loop that drops empty lines at the end. *)
Fixpoint drop_blank (rev_lines : list (list Z)) : list (list Z) :=
  match rev_lines with [] => [] | x :: xs => if is_blank x then drop_blank xs else rev_lines end.
Definition trim_lines (ls : list (list Z)) : list (list Z) := reverse (drop_blank (reverse ls)).
Definition preview_text (snapshot : list Z) : list Z := join (trim_lines (last_n 12 (split (clean (last_n 2048 snapshot))))).

(** The answer: the text and has_content. *)
Definition HandleSessionPreview (pool : option Pool.RingBufferPool) (sessionID : string) : go (list Z * bool) :=
  match pool with
  | None => Ret ([], false)
  | Some p =>
      match Pool.GetBuffer p sessionID with
      | None => Ret ([], false)
      | Some ref =>
          match Pool.store p !! ref with
          | None => Panic
          | Some rb =>
              if Ring.Len rb =? 0 then Ret ([], false) else
              s ← Ring.Snapshot rb;
              let t := preview_text s in Ret (t, bool_decide (t ≠ []))
          end
      end
  end.

(** *** What is left of the escapes *)

(** An ESC is followed by a newline, or is the last byte. *)
Definition esc_ok (l : list Z) : Prop := ∀ i, l !! i = Some ESC → l !! S i = None ∨ l !! S i = Some nl.
Lemma esc_ok_nil : esc_ok [].
Proof. by intros i; rewrite lookup_nil. Qed.
Lemma esc_ok_cons b l : b ≠ ESC → esc_ok l → esc_ok (b :: l).
Proof. intros Hb Hl [|i]; cbn; [congruence|apply Hl]. Qed.
Lemma esc_ok_middle a t b : esc_ok (a ++ t ++ b) → esc_ok t.
Proof.
  intros H i Hi. specialize (H (length a + i)%nat). rewrite lookup_app_r in H by lia. replace (length a + i - length a)%nat with i in H by lia.
  pose proof (lookup_lt_Some _ _ _ Hi) as Hlt. rewrite lookup_app_l in H by lia. specialize (H Hi).
  destruct (t !! S i) as [x|] eqn:Hx; [|by left]. rewrite lookup_app_r in H by lia.
  replace (S (length a + i) - length a)%nat with (S i) in H by lia.
  rewrite lookup_app_l in H by (apply lookup_lt_Some in Hx; lia). by rewrite Hx in H.
Qed.

Lemma escape_None l : escape l = None → l = [] ∨ ∃ r, l = nl :: r.
Proof.
  unfold escape. destruct (alt_csi l); [done|]. destruct (alt_osc l); [done|]. destruct (alt_charset l); [done|].
  destruct (alt_string l); [done|]. destruct l as [|b r]; [by left|]. cbn. destruct (Z.eqb_spec b nl) as [->|]; [|done]. right. by exists r.
Qed.

Lemma strip_esc_ok fuel : ∀ l, esc_ok (strip fuel l).
Proof.
  induction fuel as [|fuel IH]; intros [|b r]; cbn; try apply esc_ok_nil. destruct (Z.eqb_spec b ESC) as [->|Hb]; [|by apply esc_ok_cons].
  destruct (escape r) as [n|] eqn:E; [apply IH|]. intros [|i]; cbn; [intros _|apply IH].
  destruct (escape_None r E) as [->|[r' ->]]; [left; by destruct fuel|]. destruct fuel as [|fuel]; [by left|]. by right.
Qed.

Lemma strip_length fuel : ∀ l, (length (strip fuel l) <= length l)%nat.
Proof.
  induction fuel as [|fuel IH]; intros [|b r]; cbn; try lia. destruct (b =? ESC); [|cbn; specialize (IH r); lia].
  destruct (escape r) as [n|]; [|cbn; specialize (IH r); lia]. etrans; [apply IH|]. rewrite length_drop. lia.
Qed.

(** Without escapes nothing goes. *)
Lemma strip_id fuel : ∀ l, (length l <= fuel)%nat → ESC ∉ l → strip fuel l = l.
Proof.
  induction fuel as [|fuel IH]; intros [|b r] Hl Hn; cbn in *; try done; [lia|]. apply not_elem_of_cons in Hn as [Hb Hr].
  destruct (Z.eqb_spec b ESC); [congruence|]. f_equal. apply IH; [lia|done].
Qed.

(** *** Lines *)

Lemma split_nonempty l : split l ≠ [].
Proof. destruct l as [|b r]; cbn; [done|]. destruct (b =? nl); [done|]. by destruct (split r). Qed.
Lemma join_split l : join (split l) = l.
Proof.
  induction l as [|b r IH]; [done|]. cbn. pose proof (split_nonempty r). destruct (Z.eqb_spec b nl) as [->|].
  - destruct (split r); [done|]. cbn in *. by rewrite IH.
  - destruct (split r) as [|x [|y xs]]; [done|cbn in *; by rewrite IH|]. cbn in *. by rewrite IH.
Qed.
Lemma split_lines l : Forall (λ x, nl ∉ x) (split l).
Proof.
  induction l as [|b r IH]; [by repeat constructor; apply not_elem_of_nil|]. cbn. destruct (Z.eqb_spec b nl); [constructor; [apply not_elem_of_nil|done]|].
  destruct (split r); [repeat constructor; set_solver|]. inversion IH; subst. constructor; [|done]. by rewrite not_elem_of_cons.
Qed.
Lemma join_app xs ys : xs ≠ [] → ys ≠ [] → join (xs ++ ys) = join xs ++ nl :: join ys.
Proof.
  intros Hx Hy. induction xs as [|x xs IH]; [done|]. destruct xs as [|x' xs]; [cbn; by destruct ys|].
  change (join ((x :: x' :: xs) ++ ys)) with (x ++ nl :: join ((x' :: xs) ++ ys)). rewrite IH by done. cbn [join]. by rewrite <-app_assoc.
Qed.
(** A stretch of the lines is a stretch of the text. *)
Lemma join_middle a t b : ∃ p q, join (a ++ t ++ b) = p ++ join t ++ q.
Proof.
  destruct t as [|t0 t]; [exists (join (a ++ b)), []; cbn; by rewrite app_nil_r|].
  assert (∃ q, join ((t0 :: t) ++ b) = join (t0 :: t) ++ q) as [q Hq].
  { destruct b as [|b0 b]; [exists []; by rewrite !app_nil_r|]. exists (nl :: join (b0 :: b)). by apply join_app. }
  destruct a as [|a0 a]; [by exists [], q|]. exists (join (a0 :: a) ++ [nl]), q. rewrite join_app, Hq by done. by rewrite <-app_assoc.
Qed.

Fixpoint count_nl (l : list Z) : nat := match l with [] => 0%nat | b :: r => ((if Z.eqb b nl then 1 else 0) + count_nl r)%nat end.
Lemma count_nl_app a b : count_nl (a ++ b) = (count_nl a + count_nl b)%nat.
Proof. induction a as [|x a IH]; cbn; [done|]. rewrite IH. lia. Qed.
Lemma count_nl_none l : nl ∉ l → count_nl l = 0%nat.
Proof. induction l as [|x l IH]; cbn; [done|]. intros [Hx Hl]%not_elem_of_cons. destruct (Z.eqb_spec x nl); [congruence|by apply IH]. Qed.
Lemma count_nl_join ls : Forall (λ x, nl ∉ x) ls → (count_nl (join ls) <= length ls - 1)%nat.
Proof.
  induction 1 as [|x ls Hx Hls IH]; [done|]. destruct ls as [|y ls]; [cbn; rewrite count_nl_none by done; lia|].
  change (join (x :: y :: ls)) with (x ++ nl :: join (y :: ls)). rewrite count_nl_app, count_nl_none by done. cbn [count_nl length] in *.
  replace (nl =? nl) with true by done. lia.
Qed.

Lemma drop_blank_suffix ls : ∃ p, ls = p ++ drop_blank ls ∧ match drop_blank ls with [] => True | x :: _ => is_blank x = false end.
Proof.
  induction ls as [|x ls IH]; [by exists []|]. cbn. destruct (is_blank x) eqn:E; [|exists []; by cbn].
  destruct IH as (p & H1 & H2). exists (x :: p). cbn. by rewrite <-H1.
Qed.
Lemma trim_prefix ls : ∃ b, ls = trim_lines ls ++ b ∧ match last (trim_lines ls) with None => True | Some x => is_blank x = false end.
Proof.
  unfold trim_lines. destruct (drop_blank_suffix (reverse ls)) as (p & H1 & H2). exists (reverse p). split.
  - rewrite <-reverse_app, <-H1. by rewrite reverse_involutive.
  - rewrite last_reverse. by destruct (drop_blank (reverse ls)).
Qed.

(** a preview is a stretch of the screen: whatever a session has written, the
    handler answers; the text is a stretch of the last 2048 bytes without their
    escape sequences, of at most twelve lines, and its last line is not blank; an
    ESC that is left ends a line; and a text without ESC loses nothing. *)
Theorem preview_is_stretch p sid : Pool.pool_ok p →
  ∃ text content, HandleSessionPreview (Some p) sid = Ret (text, content) ∧ content = bool_decide (text ≠ []) ∧
  (length text <= 2048)%nat ∧ (count_nl text <= 11)%nat ∧ esc_ok text ∧
  ∀ ref rb, Pool.GetBuffer p sid = Some ref → Pool.store p !! ref = Some rb →
    ∃ before after, clean (last_n 2048 (Ring.contents rb)) = before ++ text ++ after ∧
      (ESC ∉ last_n 2048 (Ring.contents rb) → clean (last_n 2048 (Ring.contents rb)) = last_n 2048 (Ring.contents rb)).
Proof.
  intros Hok. unfold HandleSessionPreview. destruct (Pool.GetBuffer p sid) as [ref|] eqn:Href.
  2:{ exists [], false. split_and!; try done; cbn; lia. }
  destruct (Pool.pool_alloc p Hok sid ref Href) as [rb Hrb]. rewrite Hrb. pose proof (Pool.pool_wf p Hok ref rb Hrb) as Hwf.
  assert (∀ s : list Z, ∃ before after, clean (last_n 2048 s) = before ++ preview_text s ++ after) as Hstretch.
  { intros s. set (c := clean (last_n 2048 s)). destruct (trim_prefix (last_n 12 (split c))) as (b & Hb & _).
    assert (split c = take (length (split c) - 12) (split c) ++ trim_lines (last_n 12 (split c)) ++ b) as Hc.
    { rewrite <-Hb. unfold last_n. by rewrite take_drop. }
    destruct (join_middle (take (length (split c) - 12) (split c)) (trim_lines (last_n 12 (split c))) b) as (x & y & Hxy).
    exists x, y. rewrite <-Hc, join_split in Hxy. exact Hxy. }
  assert (∀ s, (length (clean (last_n 2048 s)) <= 2048)%nat) as Hlen.
  { intros s. etrans; [apply strip_length|]. unfold last_n. rewrite length_drop. lia. }
  assert (Ring.Len rb = 0 → Ring.contents rb = []) as Hzero.
  { intros H. pose proof (Ring.Snapshot_contents rb Hwf) as E. unfold Ring.Snapshot in E. unfold Ring.Len in H. rewrite H in E. cbn in E. by injection E. }
  destruct (Z.eqb_spec (Ring.Len rb) 0) as [Hz|_].
  { exists [], false. split_and!; try done; [cbn; lia|cbn; lia|]. intros ref' rb' [= <-] Hrb'. replace rb' with rb by congruence.
    rewrite (Hzero Hz). by exists [], []. }
  rewrite (Ring.Snapshot_contents rb Hwf). cbn [mbind go_bind]. set (s := Ring.contents rb). eexists _, _. split; [done|]. split; [done|].
  destruct (Hstretch s) as (a & b & Hab). split_and!.
  - pose proof (Hlen s) as H. rewrite Hab, !length_app in H. lia.
  - unfold preview_text. set (ls := last_n 12 _). destruct (trim_prefix ls) as (q & Hq & _).
    assert (Forall (λ x, nl ∉ x) (trim_lines ls)) as Hf.
    { assert (Forall (λ x, nl ∉ x) ls) as H by (subst ls; apply Forall_drop, split_lines). rewrite Hq in H. by apply Forall_app in H as [? _]. }
    etrans; [by apply count_nl_join|]. assert (length (trim_lines ls) <= 12)%nat; [|lia].
    etrans; [|assert (length ls <= 12)%nat as H; [subst ls; unfold last_n; rewrite length_drop; lia|exact H]].
    rewrite Hq at 2. rewrite length_app. lia.
  - apply (esc_ok_middle a _ b). rewrite <-Hab. apply strip_esc_ok.
  - intros ref' rb' [= <-] Hrb'. replace rb' with rb by congruence. exists a, b. split; [done|]. intros Hn. by apply strip_id.
Qed.

(** Colours, a title, a charset and a lone escape. *)
Example strip_examples :
  clean [27; 91; 49; 59; 51; 49; 109; 65; 27; 91; 109] = [65] ∧ clean [27; 93; 48; 59; 65; 7; 66] = [66] ∧
  clean [27; 40; 66; 67] = [67] ∧ clean [68; 27] = [68; 27] ∧ clean [27; 10; 69] = [27; 10; 69] ∧
  clean [27; 195; 169; 70] = [70] ∧ clean [27; 93; 71; 72] = [71; 72].
Proof. by vm_compute. Qed.

Definition demo_pool0 : Pool.RingBufferPool := Pool.mkPool {["s"%string := 0%N]} {[0%N := Ring.NewRingBuffer 64]}.
Definition demo_bytes : list Z := [97; 10; 27; 91; 51; 49; 109; 98; 27; 91; 109; 10; 32; 10].
Definition demo_pool : Pool.RingBufferPool :=
  match Pool.buffer_write demo_pool0 0 demo_bytes with Ret p => p | Panic => demo_pool0 end.
Lemma demo_pool0_ok : Pool.pool_ok demo_pool0.
Proof.
  split; cbn.
  - intros s rb [<- <-]%lookup_singleton_Some. rewrite lookup_singleton_eq. by eexists.
  - intros rb b [<- <-]%lookup_singleton_Some. apply Ring.NewRingBuffer_wf.
  - by intros s1 s2 rb [<- _]%lookup_singleton_Some [<- _]%lookup_singleton_Some.
Qed.
Lemma demo_pool_ok : Pool.pool_ok demo_pool.
Proof.
  destruct (Pool.buffer_write_ok demo_pool0 0 demo_bytes (Ring.NewRingBuffer 64) demo_pool0_ok) as (b & _ & E & H); [done|].
  unfold demo_pool. by rewrite E.
Qed.
Lemma preview_is_stretch_witness :
  HandleSessionPreview (Some demo_pool) "s" = Ret ([97; 10; 98], true) ∧
  ∃ text content, HandleSessionPreview (Some demo_pool) "s" = Ret (text, content) ∧ content = bool_decide (text ≠ []) ∧
    (length text <= 2048)%nat ∧ (count_nl text <= 11)%nat ∧ esc_ok text ∧
    ∀ ref rb, Pool.GetBuffer demo_pool "s" = Some ref → Pool.store demo_pool !! ref = Some rb →
      ∃ before after, clean (last_n 2048 (Ring.contents rb)) = before ++ text ++ after ∧
        (ESC ∉ last_n 2048 (Ring.contents rb) → clean (last_n 2048 (Ring.contents rb)) = last_n 2048 (Ring.contents rb)).
Proof. split; [vm_compute; reflexivity|]. apply preview_is_stretch, demo_pool_ok. Defined.
End Preview.

(** ** Telemetry *)

Module Telemetry.
Section Telemetry.
Context {Float : Type}.
Variable zero : Float.
Variable uuid_String : N → string.

(** Rows of satellite_telemetry and of satellite_telemetry_hourly; a NULL is [None]. *)
Record Row := mkRow {
  t_satellite : N; cpu : option Float; mem : option Float; disk : option Float;
  mem_used : option Z; mem_total : option Z; disk_used : option Z; disk_total : option Z;
  gpu_data : option string; active : option Z; created_at : Z;
}.
Record Hour := mkHour { h_satellite : N; hour : Z; avg_cpu : option Float; avg_mem : option Float; avg_disk : option Float; peak_mem_bytes : option Z }.
Record TelemetryResponse := mkResponse {
  r_SatelliteID : string; r_CPU : Float; r_Mem : Float; r_MemUsed : Z; r_MemTotal : Z; r_Disk : Float; r_DiskUsed : Z; r_DiskTotal : Z;
  r_GPUs : string; r_ActiveSessions : Z; r_CollectedAt : Z;
}.
Record TelemetryPoint := mkPoint { p_CPU : Float; p_Mem : Float; p_Disk : Float; p_GPUs : string; p_Active : Z; p_Timestamp : Z }.
Inductive reply := RError (status : Z) (msg : string) | RLatest (t : TelemetryResponse) | RPoints (ps : list TelemetryPoint).

(** The order the server scans the rows in. *)
Variable arrange : list Row → list Row.
Variable arrange_hours : list Hour → list Hour.
Definition newer (a b : Row) : Prop := created_at b <= created_at a.
#[local] Instance newer_dec : RelDecision newer.
Proof. intros a b. unfold newer. apply _. Defined.
Definition newer_hour (a b : Hour) : Prop := hour b <= hour a.
#[local] Instance newer_hour_dec : RelDecision newer_hour.
Proof. intros a b. unfold newer_hour. apply _. Defined.
(** WHERE satellite_id::text = $1 ORDER BY created_at DESC *)
Definition rows_of (t : list Row) (id : string) : list Row :=
  merge_sort newer (filter (λ r, uuid_String (t_satellite r) = id) (arrange t)).
Definition hours_of (t : list Hour) (id : string) : list Hour :=
  merge_sort newer_hour (filter (λ r, uuid_String (h_satellite r) = id) (arrange_hours t)).

(** Scan: a NULL does not fit a number. *)
Definition scan (r : Row) : option TelemetryResponse :=
  c ← cpu r; m ← mem r; mu ← mem_used r; mt ← mem_total r; d ← disk r; du ← disk_used r; dt ← disk_total r; a ← active r;
  Some (mkResponse (uuid_String (t_satellite r)) c m mu mt d du dt (default "[]"%string (gpu_data r)) a (created_at r)).
Definition scan_point (r : Row) : option TelemetryPoint :=
  c ← cpu r; m ← mem r; d ← disk r; a ← active r; Some (mkPoint c m d (default "[]"%string (gpu_data r)) a (created_at r)).
Definition hour_point (h : Hour) : TelemetryPoint :=
  mkPoint (default zero (avg_cpu h)) (default zero (avg_mem h)) (default zero (avg_disk h)) "[]" 0 (hour h).

Definition HandleGetTelemetry (db : option (list Row)) (id : string) (fails : bool) : reply :=
  match db with
  | None => RError 503 "database not configured"
  | Some t =>
      match (if fails then None else head (rows_of t id) ≫= scan) with
      | None => RError 404 "no telemetry data available for this satellite"
      | Some r => RLatest r
      end
  end.
(** [read]: how many rows come before the connection is lost, which ends the loop
    without an error. *)
Definition HandleGetTelemetryHistory (db : option (list Row * list Hour)) (timescale : bool) (id : string) (fails : bool) (read : option nat) : reply :=
  match db with
  | None => RError 503 "database not configured"
  | Some (t, hs) =>
      if fails then RError 500 "failed to query telemetry history" else
      let cut {A} (l : list A) := match read with Some n => take n (take 60 l) | None => take 60 l end in
      RPoints (if timescale then hour_point <$> cut (hours_of hs id) else omap scan_point (cut (rows_of t id)))
  end.

Context (arrange_perm : ∀ l, Permutation (arrange l) l).
#[local] Instance newer_total : Total newer.
Proof. intros a b. unfold newer. lia. Qed.
#[local] Instance newer_trans : Transitive newer.
Proof. intros a b c. unfold newer. lia. Qed.

Lemma elem_rows_of t id r : r ∈ rows_of t id ↔ r ∈ t ∧ uuid_String (t_satellite r) = id.
Proof using arrange_perm. unfold rows_of. rewrite merge_sort_Permutation, list_elem_of_filter, arrange_perm. tauto. Qed.
Lemma rows_sorted t id : StronglySorted newer (rows_of t id).
Proof. apply (StronglySorted_merge_sort newer). Qed.

Lemma sorted_head {A} (R : relation A) x l y : StronglySorted R (x :: l) → y ∈ l → R x y.
Proof. intros H Hy. inversion H as [|? ? _ Hf]; subst. by eapply Forall_forall in Hf. Qed.

(** the panel shows the newest telemetry: the answer is a row of the satellite
    that no other row of it is newer than; without rows, or where the newest has a
    NULL, it is 404. *)
Theorem latest_is_newest t id r : HandleGetTelemetry (Some t) id false = RLatest r →
  ∃ row, row ∈ t ∧ uuid_String (t_satellite row) = id ∧ scan row = Some r ∧
    ∀ row', row' ∈ t → uuid_String (t_satellite row') = id → created_at row' <= created_at row.
Proof using arrange_perm.
  unfold HandleGetTelemetry. pose proof (rows_sorted t id) as Hs. destruct (rows_of t id) as [|row l] eqn:E; [done|]. cbn.
  destruct (scan row) as [x|] eqn:Ex; [|done]. intros [= <-].
  assert (∀ y, y ∈ row :: l ↔ y ∈ t ∧ uuid_String (t_satellite y) = id) as Hin by (intros y; rewrite <-E; apply elem_rows_of).
  destruct (proj1 (Hin row) (list_elem_of_here _ _)) as [H1 H2]. exists row. split_and!; [done..|]. intros y Hy Hid.
  assert (y ∈ row :: l) as [->|Hl]%elem_of_cons by (by apply Hin); [lia|]. by apply (sorted_head newer row l y Hs).
Qed.

Lemma sorted_take {A} (R : relation A) n l : StronglySorted R l → StronglySorted R (take n l).
Proof.
  intros H. revert n. induction H as [|x l H IH Hf]; intros [|n]; cbn; try constructor; [apply IH|by apply Forall_take].
Qed.
Lemma sorted_split {A} (R : relation A) n l x y : StronglySorted R l → x ∈ take n l → y ∈ drop n l → R x y.
Proof.
  intros H. revert n. induction H as [|z l H IH Hf]; intros [|n]; cbn; try (by intros ?%elem_of_nil).
  intros [->|Hx]%elem_of_cons Hy; [|by apply (IH n)]. eapply Forall_forall in Hf; [exact Hf|].
  rewrite <-(take_drop n l). apply elem_of_app. by right.
Qed.
Lemma length_omap_le {A B} (f : A → option B) l : (length (omap f l) <= length l)%nat.
Proof. induction l as [|x l IH]; cbn; [done|]. destruct (f x); cbn; lia. Qed.
Lemma scan_point_time r p : scan_point r = Some p → p_Timestamp p = created_at r.
Proof. unfold scan_point. destruct (cpu r); [|done]. destruct (mem r); [|done]. destruct (disk r); [|done]. destruct (active r); [|done]. by intros [= <-]. Qed.
Lemma sorted_points l : StronglySorted newer l → StronglySorted (λ p q, p_Timestamp q <= p_Timestamp p) (omap scan_point l).
Proof.
  induction 1 as [|r l H IH Hf]; [constructor|]. cbn. destruct (scan_point r) as [p|] eqn:E; [|done]. constructor; [done|].
  apply Forall_forall. intros q (r' & Hr' & Hq)%list_elem_of_omap. eapply Forall_forall in Hf; [|exact Hr'].
  rewrite (scan_point_time _ _ E), (scan_point_time _ _ Hq). exact Hf.
Qed.

(** the sparkline shows the newest hour: without TimescaleDB, the answer has at
    most sixty points, newest first, each from a row of the satellite; and a row
    that fits is among them unless sixty rows of the satellite are as new, or the
    connection was lost while they were read. *)
Theorem history_window t hs id read ps : HandleGetTelemetryHistory (Some (t, hs)) false id false read = RPoints ps →
  (length ps <= 60)%nat ∧ StronglySorted (λ p q, p_Timestamp q <= p_Timestamp p) ps ∧
  (∀ p, p ∈ ps → ∃ row, row ∈ t ∧ uuid_String (t_satellite row) = id ∧ scan_point row = Some p) ∧
  (read = None → ∀ row p, row ∈ t → uuid_String (t_satellite row) = id → scan_point row = Some p →
    p ∈ ps ∨ ∃ others, length others = 60%nat ∧
      Forall (λ r, r ∈ t ∧ uuid_String (t_satellite r) = id ∧ created_at row <= created_at r) others).
Proof using arrange_perm.
  cbn [HandleGetTelemetryHistory]. set (l := rows_of t id). intros [= <-]. pose proof (rows_sorted t id) as Hs. fold l in Hs.
  set (cut := match read with Some n => take n (take 60 l) | None => take 60 l end).
  assert (∃ k, cut = take k l ∧ (k <= 60)%nat) as (k & Hk & H60).
  { subst cut. destruct read as [n|]; [|by exists 60%nat]. exists (n `min` 60)%nat. rewrite take_take. split; [done|lia]. }
  rewrite Hk. split_and!.
  - etrans; [|exact H60]. etrans; [apply length_omap_le|]. rewrite length_take. lia.
  - apply sorted_points. by apply sorted_take.
  - intros p (r & Hr & Hp)%list_elem_of_omap. exists r. assert (r ∈ l) as H by (rewrite <-(take_drop k l); apply elem_of_app; by left).
    apply elem_rows_of in H as [? ?]. done.
  - intros Hread row p Hrow Hid Hp. assert (row ∈ l) as Hl by (by apply elem_rows_of).
    assert (take k l = take 60 l) as -> by (rewrite <-Hk; subst cut; by rewrite Hread).
    rewrite <-(take_drop 60 l) in Hl. apply elem_of_app in Hl as [Hl|Hl]; [left; apply list_elem_of_omap; by exists row|].
    right. exists (take 60 l). split.
    + rewrite length_take. assert (0 < length (drop 60 l))%nat as H by (by destruct (drop 60 l); [apply elem_of_nil in Hl|cbn; lia]).
      rewrite length_drop in H. lia.
    + apply Forall_forall. intros r Hr. assert (r ∈ l) as [? ?]%elem_rows_of by (rewrite <-(take_drop 60 l); apply elem_of_app; by left).
      split_and!; [done..|]. by apply (sorted_split newer 60 l).
Qed.
End Telemetry.

Definition demo_row (at_ : Z) (cpu : option Z) : Row (Float := Z) := mkRow 5 cpu (Some 1) (Some 1) (Some 2) (Some 2) (Some 2) (Some 2) None (Some 0) at_.
Definition demo_rows : list (Row (Float := Z)) := [demo_row 10 (Some 7); demo_row 30 (Some 9); demo_row 20 None].
Lemma latest_is_newest_witness : ∃ row, row ∈ demo_rows ∧ "u"%string = "u"%string ∧
  scan (λ _, "u"%string) row = Some (mkResponse "u" 9 1 2 2 1 2 2 "[]" 0 30) ∧
  ∀ row', row' ∈ demo_rows → "u"%string = "u"%string → created_at row' <= created_at row.
Proof.
  apply (latest_is_newest (λ _, "u"%string) id (λ l, reflexivity _) demo_rows "u" (mkResponse "u" 9 1 2 2 1 2 2 "[]" 0 30)). vm_compute. reflexivity.
Defined.
Definition demo_points : list (TelemetryPoint (Float := Z)) := [mkPoint 9 1 1 "[]" 0 30; mkPoint 7 1 1 "[]" 0 10].
Lemma history_window_witness : (length demo_points <= 60)%nat ∧ StronglySorted (λ p q, p_Timestamp q <= p_Timestamp p) demo_points ∧
  (∀ p, p ∈ demo_points → ∃ row, row ∈ demo_rows ∧ "u"%string = "u"%string ∧ scan_point row = Some p) ∧
  (@None nat = None → ∀ row p, row ∈ demo_rows → "u"%string = "u"%string → scan_point row = Some p →
    p ∈ demo_points ∨ ∃ others, length others = 60%nat ∧
      Forall (λ r : Row (Float := Z), r ∈ demo_rows ∧ "u"%string = "u"%string ∧ created_at row <= created_at r) others).
Proof.
  apply (history_window 0 (λ _, "u"%string) id id (λ l, reflexivity _) demo_rows [] "u" None demo_points). vm_compute. reflexivity.
Defined.
End Telemetry.

(** ** Health, licence, proposals *)

Module Info.

(** The pool of the health check: [Some ok], whether SELECT 1 works. *)
Record HealthDeps := mkDeps {
  d_Pool : option bool; d_grpc : option string; d_StartTime : option Z; d_Version : string;
  GetSatelliteCount : option Z; GetSessionCount : option Z;
}.
Record HealthCheck := mkCheck { c_Status : string; c_LatencyMs : Z; c_Listener : string }.
Record HealthResponse := mkHealth {
  h_Status : string; h_Version : string; UptimeSeconds : Z; h_database : HealthCheck; h_grpc : HealthCheck;
  satellites_connected : Z; sessions_active : Z;
}.
Definition HandleHealth (deps : option HealthDeps) (latency now : Z) : Z * HealthResponse :=
  let '(db, healthy) :=
    match deps ≫= d_Pool with
    | Some true => (mkCheck "healthy" latency "", true)
    | Some false => (mkCheck "unhealthy" latency "", false)
    | None => (mkCheck "healthy" 0 "", true)
    end in
  let grpc := mkCheck "healthy" 0 (default ""%string (deps ≫= d_grpc)) in
  let '(uptime, version) := match deps, deps ≫= d_StartTime with
                            | Some d, Some t => ((now - t) `quot` 1000000000, d_Version d) | _, _ => (0, "unknown"%string) end in
  (if healthy then 200 else 503,
   mkHealth (if healthy then "healthy" else "unhealthy") version uptime db grpc
     (default 0 (deps ≫= GetSatelliteCount)) (default 0 (deps ≫= GetSessionCount))).

(** The answer about the licence, without the fixed list of features. *)
Record LicenseResponse := mkLicense {
  l_Tier : string; l_MaxUsers : Z; l_MaxSatellites : Z; l_MaxRecordings : Z; l_Retention : Z; l_Customer : string; l_ExpiresAt : Z;
}.
Definition HandleLicenseInfo (m : option License.Manager) : LicenseResponse :=
  match m with
  | Some m =>
      mkLicense (License.Tier m) (License.MaxUsers m) (License.MaxSatellites m) (License.MaxRecordings m) (License.TelemetryRetentionHours m)
        (from_option License.Customer ""%string (License.claims m)) (from_option License.ExpiresAt 0 (License.claims m))
  | None =>
      mkLicense License.TierCommunity License.CommunityMaxUsers License.CommunityMaxSatellites License.CommunityMaxRecordings
        License.CommunityTelemetryRetention "" 0
  end.

(** *** Proposals: what the handlers need of a manager *)

Section Proposals.
Context {Proposal : Type}.
Variable uuid_Parse : string → option N.
Inductive decision := Approved | Denied.
(** [None]: an error. *)
Class HitlManager (M : Type) := {
  store_List : M → option string → nat → option (list Proposal);
  CountPending : M → option Z;
  store_Get : M → N → option Proposal;
  decide_proposal : M → decision → N → string → option M;
}.
Inductive reply := RError (status : Z) (msg : string) | RProposals (l : list Proposal) | RCount (n : Z) | RProposal (p : Proposal) | RDecided (d : decision).
Context {M : Type} `{!HitlManager M}.
Definition HandleListProposals (m : option M) (status : string) : reply :=
  match m with
  | None => RProposals []
  | Some m =>
      match store_List m (if String.eqb status "" then None else Some status) 100 with
      | None => RError 500 "failed to list proposals"
      | Some l => RProposals l
      end
  end.
Definition HandleProposalCount (m : option M) : reply :=
  match m with
  | None => RCount 0
  | Some m => match CountPending m with None => RError 500 "failed to count proposals" | Some n => RCount n end
  end.
Definition with_proposal (m : option M) (proposalID : string) (f : M → N → option M * reply) : option M * reply :=
  match m with
  | None => (m, RError 404 "HITL not enabled")
  | Some x => match uuid_Parse proposalID with None => (m, RError 400 "invalid proposal ID") | Some id => f x id end
  end.
Definition HandleGetProposal (m : option M) (proposalID : string) : option M * reply :=
  with_proposal m proposalID (λ x id, (Some x, match store_Get x id with None => RError 404 "proposal not found" | Some p => RProposal p end)).
Definition HandleApproveProposal (m : option M) (proposalID : string) : option M * reply :=
  with_proposal m proposalID (λ x id, match decide_proposal x Approved id "operator" with
    | None => (Some x, RError 500 "failed to approve proposal") | Some x' => (Some x', RDecided Approved) end).
Definition HandleDenyProposal (m : option M) (proposalID : string) : option M * reply :=
  with_proposal m proposalID (λ x id, match decide_proposal x Denied id "operator" with
    | None => (Some x, RError 500 "failed to deny proposal") | Some x' => (Some x', RDecided Denied) end).
End Proposals.

(** internal/enterprise/hitl/stub.go: every operation is refused. *)
Inductive stub := mkStub.
#[export] Instance stub_manager Proposal : HitlManager (Proposal := Proposal) stub := {|
  store_List _ _ _ := None; CountPending _ := None; store_Get _ _ := None; decide_proposal _ _ _ _ := None |}.

Definition shows {P} (r : reply (Proposal := P)) : bool :=
  match r with RProposals (_ :: _) | RProposal _ | RDecided _ => true | RCount n => negb (n =? 0) | _ => false end.

(** in the open edition no proposal is ever seen or decided: with the stub or
    without a manager, no handler shows, counts or decides one, although the gateway
    writes proposals to the table. *)
Theorem stub_shows_nothing {P} (uuid_Parse : string → option N) (m : option stub) status pid :
  shows (P := P) (HandleListProposals m status) = false ∧ shows (P := P) (HandleProposalCount m) = false ∧
  shows (P := P) (HandleGetProposal uuid_Parse m pid).2 = false ∧
  (HandleApproveProposal (Proposal := P) uuid_Parse m pid).1 = m ∧ shows (P := P) (HandleApproveProposal uuid_Parse m pid).2 = false ∧
  (HandleDenyProposal (Proposal := P) uuid_Parse m pid).1 = m ∧ shows (P := P) (HandleDenyProposal uuid_Parse m pid).2 = false.
Proof.
  destruct m as [[]|]; [|by split_and!]. unfold HandleGetProposal, HandleApproveProposal, HandleDenyProposal, with_proposal.
  destruct (uuid_Parse pid); by split_and!.
Qed.

(** the health check answers 503 exactly where a pool is configured that does not
    answer, and then says so. *)
Theorem health_status deps latency now :
  let '(status, r) := HandleHealth deps latency now in
  (status = 503 ↔ deps ≫= d_Pool = Some false) ∧ (status = 200 ∨ status = 503) ∧
  (h_Status r = "healthy"%string ↔ status = 200) ∧ c_Status (h_database r) = h_Status r.
Proof.
  unfold HandleHealth. destruct (deps ≫= d_Pool) as [[]|]; destruct deps as [d|]; cbn; try destruct (d_StartTime d); cbn;
    split_and!; try done; try (by left); by right.
Qed.
End Info.
