(* ===== verification/Routes.v ===== *)
(** * cmd/nexus/main.go: which handler serves a request

    [handleAPI], [handleSessionsSubpath] and [handleSatellitesSubpath] choose a
    handler from the method and the path of a request by a sequence of cases.
    [endpoint] has a constructor for each handler they call; the id is the text
    the handler is given. *)
From Stdlib Require Import Ascii.
From S2P Require Import Prelude GoStrings.
Import Str.

Module Routes.

Inductive endpoint :=
  | ListSessions | CreateSession | GetSession (id : string) | AttachSession (id : string)
  | DetachSession (id : string) | SuspendSession (id : string) | ResumeSession (id : string)
  | KillSession (id : string) | SessionPreview (id : string) | RenameSession (id : string)
  | DeleteSession (id : string)
  | ListSatellites | CreateSatellite | RenameSatellite (id : string)
  | UpdateSatelliteTags (id : string) | DeleteSatellite (id : string) | GetConfig
  | SatelliteHeartbeat | GetTelemetryHistory (id : string) | GetTelemetry (id : string)
  | ListRecordings (id : string) | StartRecording (id : string) | StopRecording (id : string)
  | ToggleSessionRecording (id : string) | StreamRecording (id : string) | ListAllRecordings
  | GetRecording (id : string) | GetRecordingConfig | SetRecordingConfig
  | ListNotifications | UnreadCount | MarkAllRead | GetPreferences | UpdatePreferences
  | MarkRead (id : string) | LicenseInfo | ListProposals | ProposalCount
  | ApproveProposal (id : string) | DenyProposal (id : string) | GetProposal (id : string)
  | Banner                                    (* the default case, status 200 *)
  | TerminalStream (id : string) | TerminalNotConfigured | ContextAPI.

(** HasPrefix(p, pre) && HasSuffix(p, suf), and the text in between. *)
Definition under (p pre suf : string) : bool := HasPrefix p pre && HasSuffix p suf.
Definition mid (p pre suf : string) : string := TrimSuffix (TrimPrefix p pre) suf.
(** HasPrefix(p, pre) and no slash after it. *)
Definition child (p pre : string) : bool := HasPrefix p pre && negb (Contains (TrimPrefix p pre) "/").

#[local] Notation S := "/api/v1/sessions/".
#[local] Notation T := "/api/v1/satellites/".
#[local] Notation R := "/api/v1/recordings/".
#[local] Notation N := "/api/v1/notifications/".
#[local] Notation P := "/api/v1/proposals/".

Definition handleAPI (method path : string) : endpoint :=
  let p := TrimRight path "/" in
  let p := if String.eqb p "" then "/" else p in
  let meth m := String.eqb method m in
  let at_ x m := String.eqb p x && meth m in
  let sub pre suf m := under p pre suf && meth m in
  if at_ "/api/v1/sessions" "GET" then ListSessions
  else if at_ "/api/v1/sessions" "POST" then CreateSession
  else if child p S && meth "GET" then GetSession (TrimPrefix p S)
  else if sub S "/attach" "POST" then AttachSession (mid p S "/attach")
  else if sub S "/detach" "POST" then DetachSession (mid p S "/detach")
  else if sub S "/suspend" "POST" then SuspendSession (mid p S "/suspend")
  else if sub S "/resume" "POST" then ResumeSession (mid p S "/resume")
  else if sub S "/kill" "POST" then KillSession (mid p S "/kill")
  else if sub S "/preview" "GET" then SessionPreview (mid p S "/preview")
  else if sub S "/name" "PATCH" then RenameSession (mid p S "/name")
  else if child p S && meth "DELETE" then DeleteSession (TrimPrefix p S)
  else if at_ "/api/v1/satellites" "GET" then ListSatellites
  else if at_ "/api/v1/satellites" "POST" then CreateSatellite
  else if sub T "/name" "PATCH" then RenameSatellite (mid p T "/name")
  else if sub T "/tags" "PATCH" then UpdateSatelliteTags (mid p T "/tags")
  else if HasPrefix p T && meth "DELETE" then DeleteSatellite (TrimPrefix p T)
  else if at_ "/api/v1/config" "GET" then GetConfig
  else if at_ "/api/v1/satellites/heartbeat" "POST" then SatelliteHeartbeat
  else if sub T "/telemetry/history" "GET" then GetTelemetryHistory (mid p T "/telemetry/history")
  else if sub T "/telemetry" "GET" then GetTelemetry (mid p T "/telemetry")
  else if sub S "/recordings" "GET" then ListRecordings (mid p S "/recordings")
  else if sub S "/recording/start" "POST" then StartRecording (mid p S "/recording/start")
  else if sub S "/recording/stop" "POST" then StopRecording (mid p S "/recording/stop")
  else if sub S "/recording" "PATCH" then ToggleSessionRecording (mid p S "/recording")
  else if sub R "/stream" "GET" then StreamRecording (mid p R "/stream")
  else if at_ "/api/v1/recordings" "GET" then ListAllRecordings
  else if child p R && meth "GET" then GetRecording (TrimPrefix p R)
  else if at_ "/api/v1/config/recording" "GET" then GetRecordingConfig
  else if at_ "/api/v1/config/recording" "PUT" then SetRecordingConfig
  else if at_ "/api/v1/notifications" "GET" then ListNotifications
  else if at_ "/api/v1/notifications/unread-count" "GET" then UnreadCount
  else if at_ "/api/v1/notifications/read-all" "POST" then MarkAllRead
  else if at_ "/api/v1/notifications/preferences" "GET" then GetPreferences
  else if at_ "/api/v1/notifications/preferences" "PUT" then UpdatePreferences
  else if sub N "/read" "PATCH" then MarkRead (mid p N "/read")
  else if at_ "/api/v1/license" "GET" then LicenseInfo
  else if at_ "/api/v1/proposals" "GET" then ListProposals
  else if at_ "/api/v1/proposals/count" "GET" then ProposalCount
  else if sub P "/approve" "POST" then ApproveProposal (mid p P "/approve")
  else if sub P "/deny" "POST" then DenyProposal (mid p P "/deny")
  else if child p P && meth "GET" then GetProposal (TrimPrefix p P)
  else Banner.

(** [configured]: a terminal stream handler was set. *)
Definition handleSessionsSubpath (configured : bool) (method path : string) : endpoint :=
  if under path S "/stream" && String.eqb method "GET"
  then if configured then TerminalStream (mid path S "/stream") else TerminalNotConfigured
  else if under path S "/name" && String.eqb method "PATCH"
  then RenameSession (mid path S "/name")
  else handleAPI method path.

Definition handleSatellitesSubpath (configured : bool) (method path : string) : endpoint :=
  if configured && Contains path "/context" then ContextAPI else handleAPI method path.

(** ** The intended requests *)

(** The method and the path that a client uses for an endpoint. *)
Definition request_of (e : endpoint) : option (string * string) :=
  match e with
  | ListSessions => Some ("GET", "/api/v1/sessions")
  | CreateSession => Some ("POST", "/api/v1/sessions")
  | GetSession id => Some ("GET", S +:+ id)
  | AttachSession id => Some ("POST", S +:+ id +:+ "/attach")
  | DetachSession id => Some ("POST", S +:+ id +:+ "/detach")
  | SuspendSession id => Some ("POST", S +:+ id +:+ "/suspend")
  | ResumeSession id => Some ("POST", S +:+ id +:+ "/resume")
  | KillSession id => Some ("POST", S +:+ id +:+ "/kill")
  | SessionPreview id => Some ("GET", S +:+ id +:+ "/preview")
  | RenameSession id => Some ("PATCH", S +:+ id +:+ "/name")
  | DeleteSession id => Some ("DELETE", S +:+ id)
  | ListSatellites => Some ("GET", "/api/v1/satellites")
  | CreateSatellite => Some ("POST", "/api/v1/satellites")
  | RenameSatellite id => Some ("PATCH", T +:+ id +:+ "/name")
  | UpdateSatelliteTags id => Some ("PATCH", T +:+ id +:+ "/tags")
  | DeleteSatellite id => Some ("DELETE", T +:+ id)
  | GetConfig => Some ("GET", "/api/v1/config")
  | SatelliteHeartbeat => Some ("POST", "/api/v1/satellites/heartbeat")
  | GetTelemetryHistory id => Some ("GET", T +:+ id +:+ "/telemetry/history")
  | GetTelemetry id => Some ("GET", T +:+ id +:+ "/telemetry")
  | ListRecordings id => Some ("GET", S +:+ id +:+ "/recordings")
  | StartRecording id => Some ("POST", S +:+ id +:+ "/recording/start")
  | StopRecording id => Some ("POST", S +:+ id +:+ "/recording/stop")
  | ToggleSessionRecording id => Some ("PATCH", S +:+ id +:+ "/recording")
  | StreamRecording id => Some ("GET", R +:+ id +:+ "/stream")
  | ListAllRecordings => Some ("GET", "/api/v1/recordings")
  | GetRecording id => Some ("GET", R +:+ id)
  | GetRecordingConfig => Some ("GET", "/api/v1/config/recording")
  | SetRecordingConfig => Some ("PUT", "/api/v1/config/recording")
  | ListNotifications => Some ("GET", "/api/v1/notifications")
  | UnreadCount => Some ("GET", "/api/v1/notifications/unread-count")
  | MarkAllRead => Some ("POST", "/api/v1/notifications/read-all")
  | GetPreferences => Some ("GET", "/api/v1/notifications/preferences")
  | UpdatePreferences => Some ("PUT", "/api/v1/notifications/preferences")
  | MarkRead id => Some ("PATCH", N +:+ id +:+ "/read")
  | LicenseInfo => Some ("GET", "/api/v1/license")
  | ListProposals => Some ("GET", "/api/v1/proposals")
  | ProposalCount => Some ("GET", "/api/v1/proposals/count")
  | ApproveProposal id => Some ("POST", P +:+ id +:+ "/approve")
  | DenyProposal id => Some ("POST", P +:+ id +:+ "/deny")
  | GetProposal id => Some ("GET", P +:+ id)
  | Banner | TerminalStream _ | TerminalNotConfigured | ContextAPI => None
  end.

(** An id of one path segment that is not the name of another route. *)
Definition plain (id : string) : Prop :=
  id ≠ ""%string ∧ ContainsByte id "/" = false ∧ id ≠ "count"%string ∧ id ≠ "stream"%string.

Definition ids_of (e : endpoint) : list string :=
  match e with
  | GetSession id | AttachSession id | DetachSession id | SuspendSession id | ResumeSession id
  | KillSession id | SessionPreview id | RenameSession id | DeleteSession id | RenameSatellite id
  | UpdateSatelliteTags id | DeleteSatellite id | GetTelemetryHistory id | GetTelemetry id
  | ListRecordings id | StartRecording id | StopRecording id | ToggleSessionRecording id
  | StreamRecording id | GetRecording id | MarkRead id | ApproveProposal id | DenyProposal id
  | GetProposal id | TerminalStream id => [id]
  | _ => []
  end.

(** ** Lemmas on the tests *)

Lemma under_app pre id suf suf' :
  HasSuffix suf suf' = false → HasSuffix suf' suf = false →
  under (pre +:+ id +:+ suf) pre suf' = false.
Proof.
  intros H1 H2. unfold under. rewrite <- Str.app_assoc_str, HasSuffix_app_false by done.
  apply andb_false_r.
Qed.

Lemma under_app_true pre id suf : under (pre +:+ id +:+ suf) pre suf = true.
Proof.
  unfold under. rewrite HasPrefix_app. rewrite <- Str.app_assoc_str. by rewrite HasSuffix_app.
Qed.

Lemma mid_app pre id suf : mid (pre +:+ id +:+ suf) pre suf = id.
Proof. unfold mid. by rewrite TrimPrefix_app, TrimSuffix_app. Qed.

Lemma child_app pre id : ContainsByte id "/" = false → child (pre +:+ id) pre = true.
Proof. intros H. unfold child. by rewrite HasPrefix_app, TrimPrefix_app, Contains_one, H. Qed.

Lemma child_deeper pre id s : child (pre +:+ id +:+ String "/" s) pre = false.
Proof.
  unfold child. rewrite HasPrefix_app, TrimPrefix_app, Contains_one, ContainsByte_app. cbn.
  by rewrite orb_true_r.
Qed.

(** [pre] with its final slash taken off. *)
Lemma under_child pre pre0 id x :
  pre = pre0 +:+ "/" → ContainsByte id "/" = false → ContainsByte x "/" = false → id ≠ x →
  under (pre +:+ id) pre (String "/" x) = false.
Proof.
  intros -> Hid Hx Hne. unfold under. apply andb_false_intro2, not_true_is_false.
  intros (t & H)%HasSuffix_true. rewrite Str.app_assoc_str in H.
  apply Hne. by eapply (last_segment "/" pre0 id t x).
Qed.

Lemma eqb_child pre id x : id ≠ x → String.eqb (pre +:+ id) (pre +:+ x) = false.
Proof. intros Hne. apply String.eqb_neq. intros H. by apply Hne, (app_inj_l pre). Qed.

(** A path that ends in something else than a slash is not trimmed. *)
Lemma trim_child pre id : plain id → TrimRight (pre +:+ id) "/" = pre +:+ id.
Proof. intros (? & ? & _). apply TrimRight_app; [done|]. by apply TrimRight_free. Qed.
Lemma trim_sub pre id x :
  x ≠ ""%string → TrimRight x "/" = x → TrimRight (pre +:+ id +:+ x) "/" = pre +:+ id +:+ x.
Proof. intros. rewrite <- Str.app_assoc_str. by apply TrimRight_app. Qed.

(** One case of the switch: the test is false, or it is true. *)
Ltac test_false :=
  first
    [ reflexivity
    | apply andb_false_intro2; reflexivity
    | apply andb_false_intro1;
      first [ apply under_app; reflexivity
            | apply child_deeper
            | (apply (under_child _ "/api/v1/recordings"); [reflexivity|assumption|reflexivity|assumption])
            | (apply (eqb_child "/api/v1/proposals/" _ "count"); assumption) ] ].
Ltac test_true :=
  first
    [ reflexivity
    | rewrite under_app_true; reflexivity
    | rewrite child_app by assumption; reflexivity
    | rewrite HasPrefix_app; reflexivity ].
Ltac route_cases :=
  repeat match goal with
  | |- (if ?b then _ else _) = _ =>
      first [ replace b with false by (symmetry; test_false)
            | replace b with true by (symmetry; test_true) ]; cbv iota
  end.

(** ** Property *)

Lemma handleAPI_request e m p :
  request_of e = Some (m, p) → Forall plain (ids_of e) → handleAPI m p = e.
Proof.
  intros Hr Hid. unfold handleAPI. cbv zeta beta.
  destruct e; cbn [request_of] in Hr; simplify_eq; cbn [ids_of] in Hid;
    rewrite ?Forall_singleton in Hid; try pose proof Hid as (? & ? & ? & ?);
    try (rewrite trim_child by done); try (rewrite trim_sub by done);
    try (vm_compute; reflexivity);
    (replace (String.eqb _ ""%string) with false by reflexivity); cbv iota;
    route_cases; rewrite ?mid_app, ?TrimPrefix_app; reflexivity.
Qed.

Lemma handleSessionsSubpath_request e m p configured :
  request_of e = Some (m, p) → Forall plain (ids_of e) → HasPrefix p "/api/v1/sessions/" = true →
  handleSessionsSubpath configured m p = e.
Proof.
  intros Hr Hid Hp. unfold handleSessionsSubpath. rewrite (handleAPI_request e m p Hr Hid).
  destruct e; cbn [request_of] in Hr; simplify_eq; try discriminate Hp; cbn [ids_of] in Hid;
    rewrite Forall_singleton in Hid; pose proof Hid as (? & ? & ? & ?);
    try (rewrite (under_child _ "/api/v1/sessions") by (reflexivity || assumption));
    rewrite ?(under_app _ _ _ "/stream"), ?(under_app _ _ _ "/name") by reflexivity;
    rewrite ?under_app_true, ?mid_app, ?andb_false_r; reflexivity.
Qed.

(** Every endpoint answers the request it is meant for, with the id of its
    path: the cases before it in the switch do not catch it. The router of the
    session paths, which looks for the terminal stream and for PATCH itself,
    agrees with [handleAPI]. *)
Theorem routes_roundtrip e m p configured :
  request_of e = Some (m, p) → Forall plain (ids_of e) →
  handleAPI m p = e ∧
  (HasPrefix p "/api/v1/sessions/" = true → handleSessionsSubpath configured m p = e).
Proof.
  intros Hr Hid. split; [by apply handleAPI_request|]. by apply handleSessionsSubpath_request.
Qed.

Example routes_roundtrip_witness :
  handleAPI "POST" "/api/v1/sessions/4f/kill" = KillSession "4f" ∧
  handleSessionsSubpath true "POST" "/api/v1/sessions/4f/kill" = KillSession "4f".
Proof.
  destruct (routes_roundtrip (KillSession "4f") "POST" "/api/v1/sessions/4f/kill" true) as [H1 H2].
  - reflexivity.
  - repeat constructor; done.
  - split; [exact H1|apply H2; reflexivity].
Defined.

End Routes.
