(* ===== verification/SessionApi.v ===== *)
(** * internal/api/handlers.go, pagination.go: the session handlers

    A handler is a function of the server's state and of what it meets (the
    clock, a new uuid, faults of the statements); it may panic. [World] is the
    part of the state the handlers use: the tables, the stream registry with its
    channels, the buffer pool, and what was passed to the audit logger and to
    the notification service. A dependency that is nil is a false field of
    [Handlers]. The JSON decoder is outside: a request body is [None] when it
    does not decode. uuid.Parse and uuid.String are parameters. *)
From Stdlib Require Import Ascii.
From S2P Require Import Prelude GoStrings SessionState SessionStore Channels Streams Auth Protocol Satellites.
Import Session Store Proto Chan.
#[local] Open Scope Z_scope.

Module SessionApi.

(** ** pagination.go *)

Definition DefaultLimit : Z := 50.
Definition MaxLimit : Z := 200.

Record PaginationParams := mkParams { Cursor : string; Limit : Z }.

(** The query parameters cursor and limit; a missing one is empty. *)
Definition ParsePaginationParams (cursor limitStr : string) : PaginationParams :=
  mkParams cursor
    (if String.eqb limitStr "" then DefaultLimit else
     match Str.Atoi limitStr with
     | Some limit =>
         if MaxLimit <? limit then MaxLimit else if 0 <? limit then limit else DefaultLimit
     | None => DefaultLimit
     end).

(** ** The state *)

Record Handlers := mkHandlers {
  sessionStore : bool; dbPool : bool; streamRegistry : bool; ringBufferPool : bool;
  notificationService : bool; auditLogger : bool;
}.

Record World := mkWorld {
  db : DB;
  sats : gmap N Sats.Sat;
  registry : Registry.StreamRegistry;
  outbox : heap NexusMessage;
  pool : Pool.RingBufferPool;
  audited : list (string * string);            (* action, resource id *)
  notified : list (string * N);                (* event type, session *)
}.

Definition set_db (w : World) (d : DB) : World :=
  mkWorld d (sats w) (registry w) (outbox w) (pool w) (audited w) (notified w).
Definition set_outbox (w : World) o : World :=
  mkWorld (db w) (sats w) (registry w) o (pool w) (audited w) (notified w).
Definition set_pool (w : World) p : World :=
  mkWorld (db w) (sats w) (registry w) (outbox w) p (audited w) (notified w).
Definition add_audit (w : World) x : World :=
  mkWorld (db w) (sats w) (registry w) (outbox w) (pool w) (audited w ++ [x]) (notified w).
Definition add_notice (w : World) x : World :=
  mkWorld (db w) (sats w) (registry w) (outbox w) (pool w) (audited w) (notified w ++ [x]).

(** What a request meets. *)
Record env := mkEnv {
  now : Z; new_id : N;
  f_get : bool; f_sat : bool; f_count : bool;  (* the SELECT fails *)
  f_tx : tx_fault; f_row : fault; f_log : fault; f_query : query_fault;
}.

(** PaginatedResponse of sessions. *)
Record Page := mkPage { Items : list Session; Count : Z; Total : Z; NextCursor : option string }.

Inductive Body :=
  | BSession (s : Session)
  | BPage (p : Page)
  | BError (msg : string)
  | BRenamed (id name : string)
  | BDeleted.
Record Response := mkResponse { status : Z; body : Body }.

Definition fails (w : World) (st : Z) (msg : string) : go (World * Response) :=
  Ret (w, mkResponse st (BError msg)).

(** CreateSessionRequest; cols and rows are int16. *)
Record CreateSessionRequest := mkCreate {
  rq_Name : string; rq_SatelliteID : string; rq_AgentBinary : string; rq_AgentArgs : list string;
  rq_WorkingDir : string; rq_Cols : Z; rq_Rows : Z;
}.

Definition EventClientAttach : string := "CLIENT_ATTACH".
Definition EventClientDetach : string := "CLIENT_DETACH".
Definition EventDMSTriggered : string := "DMS_TRIGGERED".
Definition EventDMSResumed : string := "DMS_RESUMED".
Definition EventProcessExit : string := "PROCESS_EXIT".

Section Handlers.
Variable uuid_Parse : string → option N.
Variable uuid_String : N → string.
Variable arrange : list Session → list Session.

(** *** Shared pieces *)

(** GetSession of the path's id, with the checks before it. *)
Definition with_session (h : Handlers) (w : World) (sessionID : string) (e : env)
    (unavailable : Z) (msg_store msg_id : string) (k : N → Session → go (World * Response))
    : go (World * Response) :=
  if negb (sessionStore h) then fails w unavailable msg_store else
  match uuid_Parse sessionID with
  | None => fails w 400 msg_id
  | Some id =>
      match GetSession (db w) id (f_get e) with
      | Err _ => fails w 404 "session not found"
      | Ok sess => k id sess
      end
  end.

(** The ownership check: [true] refuses. A viewer whose id is not a uuid passes. *)
Definition not_owner (user : option RBAC.AuthUser) (sess : Session) : bool :=
  match user with
  | None => false
  | Some u =>
      String.eqb (RBAC.Role u) "viewer" &&
      match uuid_Parse (RBAC.ID u) with
      | Some userID => negb (N.eqb (UserID sess) userID)
      | None => false
      end
  end.

(** SendToSatellite, whose result is only logged. *)
Definition send (h : Handlers) (w : World) (satelliteID : string) (msg : NexusMessage) : go World :=
  if streamRegistry h then
    '(o, _) ← Registry.SendToSatellite (registry w) (outbox w) satelliteID msg;
    Ret (set_outbox w o)
  else Ret w.

(** WriteEventLog of an event with a session, a type and nothing else; its error
    is ignored. *)
Definition log_event (w : World) (sessionID : N) (type : string) (e : env) : World :=
  set_db w (WriteEventLog (Payload := unit) (λ _, None) (db w)
              (mkEventLog 0 sessionID None None type None (now e)) (now e) (f_log e)).1.

Definition audit (h : Handlers) (w : World) (action id : string) : World :=
  if auditLogger h then add_audit w (action, id) else w.
Definition emit (h : Handlers) (w : World) (type : string) (id : N) : World :=
  if notificationService h then add_notice w (type, id) else w.

(** *** The handlers *)

Definition HandleGetSession (h : Handlers) (w : World) (sessionID : string) (e : env) :=
  with_session h w sessionID e 500 "session store not configured" "invalid session_id"
    (λ _ sess, Ret (w, mkResponse 200 (BSession sess))).

Definition HandleAttachSession (h : Handlers) (w : World) (sessionID : string) (e : env) :=
  with_session h w sessionID e 500 "session store not configured" "invalid session_id"
    (λ id sess,
      let done w u :=
        Ret (log_event w (ID sess) EventClientAttach e, mkResponse 200 (BSession u)) in
      if String.eqb (State sess) StateRunning then done w sess else
      match TransitionSession (db w) id StateRunning (now e) (f_tx e) with
      | (d, Err _) => fails (set_db w d) 500 "failed to attach session"
      | (d, Ok u) => done (set_db w d) u
      end).

Definition HandleDetachSession (h : Handlers) (w : World) (sessionID : string) (e : env) :=
  with_session h w sessionID e 500 "session store not configured" "invalid session_id"
    (λ id sess,
      match TransitionSession (db w) id StateDetached (now e) (f_tx e) with
      | (d, Err _) => fails (set_db w d) 500 "failed to detach session"
      | (d, Ok u) =>
          Ret (log_event (set_db w d) (ID sess) EventClientDetach e, mkResponse 200 (BSession u))
      end).

Definition HandleSuspendSession (h : Handlers) (w : World) (user : option RBAC.AuthUser)
    (sessionID : string) (e : env) :=
  with_session h w sessionID e 500 "session store not configured" "invalid session_id"
    (λ id sess,
      if not_owner user sess then fails w 403 "you can only suspend your own sessions" else
      match TransitionSession (db w) id StateSuspended (now e) (f_tx e) with
      | (d, Err _) => fails (set_db w d) 500 "failed to suspend session"
      | (d, Ok u) =>
          w1 ← send h (set_db w d) (uuid_String (SatelliteID sess)) (SuspendCommand sessionID);
          let w2 := log_event w1 (ID sess) EventDMSTriggered e in
          let w3 := emit h w2 "SESSION_SUSPENDED" id in
          Ret (audit h w3 "session.suspend" sessionID, mkResponse 200 (BSession u))
      end).

Definition HandleResumeSession (h : Handlers) (w : World) (sessionID : string) (e : env) :=
  with_session h w sessionID e 500 "session store not configured" "invalid session_id"
    (λ id sess,
      match TransitionSession (db w) id StateRunning (now e) (f_tx e) with
      | (d, Err _) => fails (set_db w d) 500 "failed to resume session"
      | (d, Ok u) =>
          w1 ← send h (set_db w d) (uuid_String (SatelliteID sess)) (ResumeCommand sessionID);
          let w2 := log_event w1 (ID sess) EventDMSResumed e in
          Ret (audit h w2 "session.resume" sessionID, mkResponse 200 (BSession u))
      end).

Definition HandleKillSession (h : Handlers) (w : World) (user : option RBAC.AuthUser)
    (sessionID : string) (e : env) :=
  with_session h w sessionID e 500 "session store not configured" "invalid session_id"
    (λ id sess,
      if not_owner user sess then fails w 403 "you can only kill your own sessions" else
      match TransitionSession (db w) id StateTerminated (now e) (f_tx e) with
      | (d, Err _) => fails (set_db w d) 500 "failed to kill session"
      | (d, Ok u) =>
          w1 ← send h (set_db w d) (uuid_String (SatelliteID sess)) (KillCommand sessionID (-1));
          let w2 := log_event w1 (ID sess) EventProcessExit e in
          let w3 := if ringBufferPool h then set_pool w2 (Pool.RemoveBuffer (pool w2) sessionID)
                    else w2 in
          let w4 := emit h w3 "SESSION_TERMINATED" id in
          Ret (audit h w4 "session.kill" sessionID, mkResponse 200 (BSession u))
      end).

Definition HandleDeleteSession (h : Handlers) (w : World) (user : option RBAC.AuthUser)
    (sessionID : string) (e : env) :=
  with_session h w sessionID e 503 "database not configured" "invalid session ID format"
    (λ id sess,
      if not_owner user sess then fails w 403 "you can only delete your own sessions" else
      if negb (String.eqb (State sess) StateTerminated) && negb (String.eqb (State sess) "PROVISIONING")
      then fails w 409 "only terminated or provisioning sessions can be deleted" else
      match DeleteSession (db w) id (f_row e) with
      | (d, Some _) => fails (set_db w d) 500 "failed to delete session"
      | (d, None) =>
          let w1 := set_db w d in
          let w2 := if ringBufferPool h then set_pool w1 (Pool.RemoveBuffer (pool w1) sessionID)
                    else w1 in
          Ret (audit h w2 "session.delete" sessionID, mkResponse 200 BDeleted)
      end).

(** SET name = $1 WHERE id = $2 AND terminated_at IS NULL *)
Definition set_name (s : Session) (name : string) : Session :=
  mkSession (ID s) (SatelliteID s) (UserID s) name (AgentBinary s) (AgentArgs s)
    (State s) (OSPID s) (PTSName s) (Cols s) (Rows s) (RecordingEnabled s)
    (LastActivityAt s) (StartedAt s) (DetachedAt s) (SuspendedAt s) (TerminatedAt s) (CreatedAt s).

Definition HandleRenameSession (h : Handlers) (w : World) (sessionID : string)
    (req : option string) (e : env) : go (World * Response) :=
  match uuid_Parse sessionID with
  | None => fails w 400 "invalid session_id"
  | Some id =>
      match req with
      | None => fails w 400 "invalid JSON request body"
      | Some name =>
          if String.eqb name "" then fails w 400 "name is required"
          else if 255 <? Z.of_nat (String.length name)
          then fails w 400 "name must not exceed 255 characters"
          else if negb (dbPool h) then fails w 503 "database not configured"
          else match sessions (db w) !! id with
          | Some s =>
              if bool_decide (TerminatedAt s = None) then
                match exec (db w) (Store.set_sessions (db w) (<[id := set_name s name]> (sessions (db w)))) (f_row e) with
                | (d, None) => Ret (set_db w d, mkResponse 200 (BRenamed (uuid_String id) name))
                | (d, Some _) => fails (set_db w d) 500 "failed to rename session"
                end
              else match f_row e with
                   | NoFault => fails w 404 "session not found or already terminated"
                   | _ => fails w 500 "failed to rename session"
                   end
          | None => match f_row e with
                    | NoFault => fails w 404 "session not found or already terminated"
                    | _ => fails w 500 "failed to rename session"
                    end
          end
      end
  end.

(** *** Creation *)

(** The id of the user in the request context, uuid.Nil if it is not a uuid. *)
Definition creator (user : option RBAC.AuthUser) : N :=
  default 0%N (user ≫= λ u, uuid_Parse (RBAC.ID u)).

Definition new_session (satelliteUUID userID : N) (rq : CreateSessionRequest) (e : env) : Session :=
  mkSession (new_id e) satelliteUUID userID (rq_Name rq) (rq_AgentBinary rq) (rq_AgentArgs rq)
    StateProvisioning None None
    (if rq_Cols rq =? 0 then 80 else rq_Cols rq) (if rq_Rows rq =? 0 then 24 else rq_Rows rq)
    true (now e) None None None None (now e).

Definition HandleCreateSession (h : Handlers) (w : World) (user : option RBAC.AuthUser)
    (req : option CreateSessionRequest) (e : env) : go (World * Response) :=
  if negb (sessionStore h) then fails w 503 "database not configured" else
  match req with
  | None => fails w 400 "invalid JSON request body"
  | Some rq =>
      if String.eqb (rq_Name rq) "" then fails w 400 "name is required"
      else if 255 <? Z.of_nat (String.length (rq_Name rq))
      then fails w 400 "name must not exceed 255 characters"
      else if Str.Contains (rq_AgentBinary rq) ".." || Str.ContainsByte (rq_AgentBinary rq) Ascii.zero
      then fails w 400 "agent_binary contains invalid path characters"
      else if String.eqb (rq_SatelliteID rq) "" then fails w 400 "satellite_id is required"
      else match uuid_Parse (rq_SatelliteID rq) with
      | None => fails w 400 "invalid satellite_id: must be a valid UUID"
      | Some sat =>
          let create :=
            let s := new_session sat (creator user) rq e in
            match CreateSession (db w) s (f_row e) with
            | (d, Some _) => fails (set_db w d) 500 "failed to create session"
            | (d, None) =>
                let w1 := audit h (set_db w d) "session.create" (uuid_String (ID s)) in
                w2 ← send h w1 (rq_SatelliteID rq)
                       (StartSessionCommand (uuid_String (ID s)) (AgentBinary s) (AgentArgs s)
                          (Cols s) (Rows s) (rq_WorkingDir rq));
                Ret (w2, mkResponse 201 (BSession s))
            end in
          if negb (dbPool h) then create else
          match (if f_sat e then None else sats w !! sat) with
          | None => fails w 404 "satellite not found"
          | Some row =>
              if negb (String.eqb (Sats.s_status row) "active")
              then fails w 409 ("satellite is not active (status: " +:+ Sats.s_status row +:+
                                ") — ensure the daemon is running and connected")
              else create
          end
      end
  end.

(** *** Listing *)

(** The viewer of the request, if the user is one and its id is a uuid. *)
Definition viewer_id (user : option RBAC.AuthUser) : option N :=
  u ← user; if String.eqb (RBAC.Role u) "viewer" then uuid_Parse (RBAC.ID u) else None.

(** The scan loop of the viewer's queries ignores every error: the driver closes
    the rows when one does not scan, and a query that fails gives nothing. *)
Definition lenient_rows {A} (rows : option (list A)) (f : query_fault) : list A :=
  match rows, f with
  | None, _ | _, QueryFails => []
  | Some l, QueryOk => l
  | Some l, CutAfter n | Some l, ScanFails n => take n l
  end.

(** [(created_at, id) < (SELECT created_at, id FROM sessions WHERE id = $2)] *)
Definition after_row (d : DB) (after : option N) (s : Session) : Prop :=
  match after with
  | None => True
  | Some c => match sessions d !! c with
              | Some p => before_key (CreatedAt p) (ID p) s
              | None => False
              end
  end.
#[export] Instance after_row_dec d after s : Decision (after_row d after s).
Proof. unfold after_row. repeat case_match; apply _. Defined.

(** WHERE user_id = $1 [AND ...] ORDER BY created_at DESC, id DESC *)
Definition viewer_rows (d : DB) (userID : N) (after : option N) : list Session :=
  merge_sort after_eq (filter (λ s, UserID s = userID ∧ after_row d after s) (rows_of arrange d)).

(** [replica] is the database that rpool() reads. *)
Definition list_sessions (w : World) (replica : DB) (user : option RBAC.AuthUser)
    (p : PaginationParams) (e : env) : result store_error (list Session) :=
  match viewer_id user with
  | Some userID =>
      Ok (if String.eqb (Cursor p) "" then
            lenient_rows (sql_limit (Limit p) (viewer_rows replica userID None)) (f_query e)
          else match uuid_Parse (Cursor p) with
               | Some c => lenient_rows (sql_limit (Limit p) (viewer_rows replica userID (Some c))) (f_query e)
               | None => []
               end)
  | None =>
      if String.eqb (Cursor p) "" then ListActiveSessionsWithLimit arrange (db w) (Limit p) (f_query e)
      else ListActiveSessionsAfter arrange uuid_Parse (db w) (Cursor p) (Limit p) (f_query e)
  end.

Definition count_sessions (w : World) (replica : DB) (user : option RBAC.AuthUser) (e : env)
    : result store_error Z :=
  match viewer_id user with
  | Some userID =>
      if f_count e then Err ErrDB
      else Ok (Z.of_nat (length (filter (λ s, UserID s = userID) (rows_of arrange replica))))
  | None => CountActiveSessions arrange (db w) (f_count e)
  end.

Definition HandleListSessions (h : Handlers) (w : World) (replica : DB)
    (user : option RBAC.AuthUser) (cursor limitStr : string) (e : env) : Response :=
  if negb (sessionStore h) then mkResponse 500 (BError "session store not configured") else
  let p := ParsePaginationParams cursor limitStr in
  match list_sessions w replica user p e with
  | Err _ => mkResponse 500 (BError "failed to list sessions")
  | Ok l =>
      let hasMore := Limit p <=? Z.of_nat (length l) in
      let total := match count_sessions w replica user e with
                   | Ok n => n | Err _ => Z.of_nat (length l) end in
      let nextCursor := if hasMore then (uuid_String ∘ ID) <$> last l else None in
      mkResponse 200 (BPage (mkPage l (Z.of_nat (length l)) total nextCursor))
  end.
End Handlers.

(** ** Paging *)

Lemma StronglySorted_filter {A} (R : relation A) (P : A → Prop) `{∀ x, Decision (P x)} l :
  StronglySorted R l → StronglySorted R (filter P l).
Proof.
  induction 1 as [|a l Hs IH Ha]; [constructor|]. rewrite filter_cons.
  case_decide; [|done]. constructor; [done|]. rewrite Forall_forall in Ha |- *.
  intros x [_ Hx]%list_elem_of_filter. eauto.
Qed.

Section Paging.
Variable uuid_Parse : string → option N.
Variable uuid_String : N → string.
Variable arrange : list Session → list Session.
Hypothesis Parse_String : ∀ id, uuid_Parse (uuid_String id) = Some id ∧ uuid_String id ≠ ""%string.
Hypothesis arrange_perm : ∀ l, arrange l ≡ₚ l.

(** What a user may see, in the order of the pages. *)
Definition visible (w : World) (replica : DB) (user : option RBAC.AuthUser) : list Session :=
  match viewer_id uuid_Parse user with
  | Some userID => filter (λ s, UserID s = userID) (by_key arrange replica)
  | None => by_key arrange (db w)
  end.

(** A client that follows the cursors, for at most [n] requests. *)
Fixpoint fetch (h : Handlers) (w : World) (replica : DB) (user : option RBAC.AuthUser)
    (limitStr : string) (e : env) (n : nat) (cursor : string) : list Session :=
  match n with
  | O => []
  | S n' =>
      match body (HandleListSessions uuid_Parse uuid_String arrange h w replica user cursor limitStr e) with
      | BPage p =>
          Items p ++ match NextCursor p with
                     | Some c => fetch h w replica user limitStr e n' c
                     | None => []
                     end
      | _ => []
      end
  end.

Lemma Limit_range cursor limitStr : 1 <= Limit (ParsePaginationParams cursor limitStr) <= MaxLimit.
Proof.
  unfold ParsePaginationParams, DefaultLimit, MaxLimit. simpl.
  destruct (String.eqb _ _); [lia|]. destruct (Str.Atoi _); [|lia].
  destruct (Z.ltb_spec 200 z); [lia|]. destruct (Z.ltb_spec 0 z); lia.
Qed.

(** The sort of the rows that satisfy [P]. *)
Lemma sort_filter d (P : Session → Prop) `{∀ s, Decision (P s)} :
  db_wf d → merge_sort after_eq (filter P (rows_of arrange d)) = filter P (by_key arrange d).
Proof.
  intros Hwf. apply (after_sorted_unique d).
  - rewrite merge_sort_Permutation. by rewrite (by_key_perm arrange d).
  - intros s. rewrite merge_sort_Permutation, list_elem_of_filter. intros [_ Hs].
    by apply (elem_of_rows arrange arrange_perm d Hwf).
  - apply (StronglySorted_merge_sort _).
  - apply StronglySorted_filter, by_key_sorted.
Qed.

Lemma viewer_first d u : db_wf d →
  viewer_rows arrange d u None = filter (λ s, UserID s = u) (by_key arrange d).
Proof.
  intros Hwf. unfold viewer_rows. rewrite sort_filter by done.
  apply list_filter_iff. intros s. simpl. tauto.
Qed.

Lemma viewer_next d u k p : db_wf d →
  filter (λ s, UserID s = u) (by_key arrange d) !! k = Some p →
  viewer_rows arrange d u (Some (ID p)) = drop (S k) (filter (λ s, UserID s = u) (by_key arrange d)).
Proof.
  intros Hwf Hk. unfold viewer_rows. rewrite sort_filter by done.
  assert (NoDup (ID <$> filter (λ s, UserID s = u) (by_key arrange d))) as Hnd.
  { eapply sublist_NoDup; [apply (by_key_NoDup arrange arrange_perm d Hwf)|].
    apply fmap_sublist, sublist_filter. }
  rewrite <- (filter_before_drop _ k p (StronglySorted_filter _ _ _ (by_key_sorted arrange d)) Hnd Hk).
  rewrite list_filter_filter. apply list_filter_iff. intros s. simpl.
  assert (sessions d !! ID p = Some p) as ->; [|tauto].
  apply (elem_of_rows arrange arrange_perm d Hwf). rewrite <- (by_key_perm arrange d).
  apply list_elem_of_lookup_2, list_elem_of_filter in Hk. tauto.
Qed.

(** The page at offset [k]. *)
Lemma list_sessions_page w replica user limitStr e k cursor :
  db_wf (db w) → db_wf replica → f_query e = QueryOk →
  (k = O ∧ cursor = ""%string ∨
   ∃ p, k = S (pred k) ∧ visible w replica user !! pred k = Some p ∧ cursor = uuid_String (ID p)) →
  list_sessions uuid_Parse arrange w replica user (ParsePaginationParams cursor limitStr) e =
    Ok (take (Z.to_nat (Limit (ParsePaginationParams cursor limitStr))) (drop k (visible w replica user))).
Proof.
  intros Hw Hr He Hk. pose proof (Limit_range cursor limitStr) as Hl.
  set (P := ParsePaginationParams cursor limitStr) in *. set (lim := Limit P) in *.
  unfold list_sessions, visible in *. change (Cursor P) with cursor. fold lim. rewrite He.
  unfold ListActiveSessionsWithLimit, ListActiveSessionsAfter, run_limited, sql_limit.
  destruct (Z.ltb_spec lim 0); [lia|].
  destruct Hk as [[-> ->]|(p & Hk & Hp & ->)].
  - rewrite drop_0. change (String.eqb "" "") with true. cbv iota.
    destruct (viewer_id uuid_Parse user); [by rewrite viewer_first|by rewrite run_query_ok].
  - destruct (Parse_String (ID p)) as [-> Hne]. apply String.eqb_neq in Hne as ->. rewrite Hk.
    destruct (viewer_id uuid_Parse user); [by rewrite (viewer_next _ _ _ _ Hr Hp)|].
    assert (sessions (db w) !! ID p = Some p) as ->.
    { apply (elem_of_rows arrange arrange_perm _ Hw). rewrite <- (by_key_perm arrange (db w)).
      by apply list_elem_of_lookup_2 in Hp. }
    by rewrite run_query_ok, (after_cursor_rows arrange arrange_perm _ Hw _ _ Hp).
Qed.

Lemma fetch_from h w replica user limitStr e :
  sessionStore h = true → db_wf (db w) → db_wf replica → f_query e = QueryOk →
  ∀ n k cursor, (length (visible w replica user) < k + n)%nat →
  (k = O ∧ cursor = ""%string ∨
   ∃ p, k = S (pred k) ∧ visible w replica user !! pred k = Some p ∧ cursor = uuid_String (ID p)) →
  fetch h w replica user limitStr e n cursor = drop k (visible w replica user).
Proof.
  intros Hst Hw Hr He. set (L := visible w replica user).
  induction n as [|n IH]; intros k cursor Hn Hk; cbn [fetch].
  { by rewrite drop_ge by lia. }
  unfold HandleListSessions. rewrite Hst. cbn [negb].
  rewrite (list_sessions_page w replica user limitStr e k cursor Hw Hr He Hk). fold L.
  pose proof (Limit_range cursor limitStr) as Hl.
  set (lim := Limit (ParsePaginationParams cursor limitStr)) in *. cbn [body Items NextCursor].
  rewrite length_take, length_drop.
  destruct (Z.leb_spec lim (Z.of_nat (Z.to_nat lim `min` (length L - k)))) as [Hm|Hm].
  - assert (∃ p, L !! (k + Z.to_nat lim - 1)%nat = Some p) as [p Hp] by (apply lookup_lt_is_Some; lia).
    rewrite last_lookup, length_take, length_drop, lookup_take_lt, lookup_drop by lia.
    replace (k + Nat.pred (Z.to_nat lim `min` (length L - k)))%nat with (k + Z.to_nat lim - 1)%nat by lia.
    rewrite Hp. cbn [fmap option_fmap option_map compose].
    rewrite (IH (k + Z.to_nat lim)%nat).
    + by rewrite <- drop_drop, take_drop.
    + lia.
    + right. exists p. split_and!; [lia| |done].
      by replace (pred (k + Z.to_nat lim)) with (k + Z.to_nat lim - 1)%nat by lia.
  - rewrite app_nil_r. apply take_ge. rewrite length_drop. lia.
Qed.

(** C23: Following next_cursor from the first page, whatever the text of the limit,
    a client ends after at most one request more than there are sessions and
    has seen exactly the sessions the user may see, each once, newest first: a
    viewer with a uuid its own, everyone else all of them. *)
Theorem HandleListSessions_complete h w replica user limitStr e :
  sessionStore h = true → db_wf (db w) → db_wf replica → f_query e = QueryOk →
  let l := fetch h w replica user limitStr e (S (length (visible w replica user))) "" in
  l = visible w replica user ∧ NoDup (ID <$> l) ∧ StronglySorted after_eq l ∧
  ∀ s, s ∈ l ↔ match viewer_id uuid_Parse user with
                | Some userID => sessions replica !! ID s = Some s ∧ UserID s = userID
                | None => sessions (db w) !! ID s = Some s
                end.
Proof.
  intros Hst Hw Hr He l. assert (l = visible w replica user) as El.
  { unfold l. by rewrite (fetch_from h w replica user limitStr e Hst Hw Hr He _ O) by (lia || by left). }
  rewrite El. split; [done|]. unfold visible.
  pose proof (elem_of_rows arrange arrange_perm) as Hin. destruct (viewer_id uuid_Parse user); split_and!.
  - eapply sublist_NoDup; [apply (by_key_NoDup arrange arrange_perm replica Hr)|].
    apply fmap_sublist, sublist_filter.
  - apply StronglySorted_filter, by_key_sorted.
  - intros s. rewrite list_elem_of_filter, (by_key_perm arrange replica), (Hin _ Hr). tauto.
  - apply (by_key_NoDup arrange arrange_perm (db w) Hw).
  - apply by_key_sorted.
  - intros s. by rewrite (by_key_perm arrange (db w)), (Hin _ Hw).
Qed.
End Paging.

(** ** What the handlers do *)

Inductive action := Attach | Detach | Suspend | Resume | Kill.

Definition target (a : action) : SessionState :=
  match a with
  | Attach | Resume => StateRunning
  | Detach => StateDetached
  | Suspend => StateSuspended
  | Kill => StateTerminated
  end.

(** The command that goes to the satellite, with the id as it is in the path. *)
Definition command (a : action) (sessionID : string) : option NexusMessage :=
  match a with
  | Attach | Detach => None
  | Suspend => Some (SuspendCommand sessionID)
  | Resume => Some (ResumeCommand sessionID)
  | Kill => Some (KillCommand sessionID (-1))
  end.

Section Actions.
Variable uuid_Parse : string → option N.
Variable uuid_String : N → string.

Definition perform (h : Handlers) (w : World) (user : option RBAC.AuthUser) (sessionID : string)
    (e : env) (a : action) : go (World * Response) :=
  match a with
  | Attach => HandleAttachSession uuid_Parse h w sessionID e
  | Detach => HandleDetachSession uuid_Parse h w sessionID e
  | Suspend => HandleSuspendSession uuid_Parse uuid_String h w user sessionID e
  | Resume => HandleResumeSession uuid_Parse uuid_String h w sessionID e
  | Kill => HandleKillSession uuid_Parse uuid_String h w user sessionID e
  end.

(** The only actions that ask whose session it is. *)
Definition refused (user : option RBAC.AuthUser) (s : Session) (a : action) : bool :=
  match a with Suspend | Kill => not_owner uuid_Parse user s | _ => false end.

Definition channels_open (w : World) : Prop :=
  ∀ id ch, Registry.satelliteStreams (registry w) !! id = Some (Some ch) → open (outbox w) ch.

Lemma set_outbox_id w : set_outbox w (outbox w) = w.
Proof. by destruct w. Qed.
Lemma set_db_id w : set_db w (db w) = w.
Proof. by destruct w. Qed.

(** The events carry no satellite, which the table refuses. *)
Lemma log_event_nothing w sid type e : log_event w sid type e = w.
Proof. apply set_db_id. Qed.

Lemma send_ok h w sat msg :
  channels_open w →
  ∃ o, send h w sat msg = Ret (set_outbox w o) ∧
    (if streamRegistry h
     then ∃ b, Registry.SendToSatellite (registry w) (outbox w) sat msg = Ret (o, b)
     else o = outbox w).
Proof.
  intros Hopen. unfold send. destruct (streamRegistry h); [|exists (outbox w); by rewrite set_outbox_id].
  unfold Registry.SendToSatellite, Registry.GetSatelliteStream.
  destruct (Registry.satelliteStreams (registry w) !! sat) as [[ch|]|] eqn:E;
    [|exists (outbox w); split; [done|by exists false]..].
  destruct (try_send_open (outbox w) ch msg (Hopen _ _ E)) as (o & b & Hs & _).
  exists o. cbn [Registry.send_found]. rewrite Hs. split; [done|by exists b].
Qed.

(** The transaction, as the handlers use it. *)
Lemma transition_result d id s st t f :
  sessions d !! id = Some s →
  (∃ u, TransitionSession d id st t f = (set_sessions d (<[id := u]> (sessions d)), Ok u) ∧
        Session.TransitionSession s st t = Ok u ∧ f = TxOk) ∨
  (∃ d' err, TransitionSession d id st t f = (d', Err err) ∧ event_logs d' = event_logs d ∧
        (f ≠ CommitAckLost → d' = d) ∧ (f = TxOk → ¬ may (State s) st)).
Proof.
  intros Hs. unfold TransitionSession. rewrite Hs.
  destruct (Session.TransitionSession s st t) as [u|er] eqn:Hu.
  - rewrite (transition_row _ _ _ _ Hu).
    destruct f; [left; by exists u|right; do 2 eexists; (split; [done|by split])..].
  - right. assert (¬ may (State s) st) by (intros (? & ?)%(TransitionSession_may _ _ t); congruence).
    destruct f; do 2 eexists; by (split; [done|split]).
Qed.

(** What a successful action leaves besides the row. *)
Definition finish (h : Handlers) (w : World) (id : N) (sessionID : string) (a : action) : World :=
  match a with
  | Attach | Detach => w
  | Suspend => audit h (emit h w "SESSION_SUSPENDED" id) "session.suspend" sessionID
  | Resume => audit h w "session.resume" sessionID
  | Kill =>
      let w1 := if ringBufferPool h then set_pool w (Pool.RemoveBuffer (pool w) sessionID) else w in
      audit h (emit h w1 "SESSION_TERMINATED" id) "session.kill" sessionID
  end.

Definition dispatch (h : Handlers) (w : World) (s : Session) (sessionID : string) (a : action) : go World :=
  match command a sessionID with
  | None => Ret w
  | Some msg => send h w (uuid_String (SatelliteID s)) msg
  end.

(** All five handlers are one function of the action. *)
Lemma perform_shape h w user sessionID e a id s :
  sessionStore h = true → uuid_Parse sessionID = Some id → f_get e = false →
  sessions (db w) !! id = Some s → refused user s a = false →
  ∃ msg, perform h w user sessionID e a =
    if (match a with Attach => String.eqb (State s) StateRunning | _ => false end)
    then Ret (w, mkResponse 200 (BSession s)) else
    match TransitionSession (db w) id (target a) (now e) (f_tx e) with
    | (d, Err _) => fails (set_db w d) 500 msg
    | (d, Ok u) =>
        w1 ← dispatch h (set_db w d) s sessionID a;
        Ret (finish h w1 id sessionID a, mkResponse 200 (BSession u))
    end.
Proof.
  intros Hst Hp Hg Hs Hr.
  assert (∀ x m, with_session uuid_Parse h w sessionID e x "session store not configured" m
            = λ k, k id s) as Hw by (intros; unfold with_session, GetSession; by rewrite Hst, Hp, Hg, Hs).
  destruct a; cbn [perform refused target] in *; eexists;
    [unfold HandleAttachSession|unfold HandleDetachSession|unfold HandleSuspendSession
    |unfold HandleResumeSession|unfold HandleKillSession];
    rewrite Hw; rewrite ?Hr; unfold dispatch; cbn [command];
    try (destruct (String.eqb (State s) StateRunning); [by rewrite log_event_nothing|]);
    (destruct (TransitionSession _ _ _ _ _) as [d [u|err]]; [|reflexivity]);
    rewrite ?log_event_nothing; try reflexivity;
    (destruct (send _ _ _ _) as [w1|]; [|reflexivity]); simpl; by rewrite log_event_nothing.
Qed.

(** Without a row, or refused, nothing happens. *)
Lemma perform_stops h w user sessionID e a :
  (∃ id s, sessionStore h = true ∧ uuid_Parse sessionID = Some id ∧ f_get e = false ∧
     sessions (db w) !! id = Some s ∧ refused user s a = false) ∨
  ∃ r, perform h w user sessionID e a = Ret (w, r) ∧ status r ≠ 200.
Proof.
  assert (∀ x m1 m2 k, x ≠ 200 →
    (∃ id s, sessionStore h = true ∧ uuid_Parse sessionID = Some id ∧ f_get e = false ∧
             sessions (db w) !! id = Some s ∧ with_session uuid_Parse h w sessionID e x m1 m2 k = k id s) ∨
    ∃ r, with_session uuid_Parse h w sessionID e x m1 m2 k = Ret (w, r) ∧ status r ≠ 200) as Hw.
  { intros x m1 m2 k Hx. unfold with_session, GetSession.
    destruct (sessionStore h); [|right; by eexists]. simpl.
    destruct (uuid_Parse sessionID) as [id|]; [|right; by eexists].
    destruct (f_get e); [right; by eexists|].
    destruct (sessions (db w) !! id) as [s|] eqn:Es; [|right; by eexists].
    left. by exists id, s. }
  destruct a; cbn [perform refused]; [unfold HandleAttachSession|unfold HandleDetachSession
    |unfold HandleSuspendSession|unfold HandleResumeSession|unfold HandleKillSession];
    (match goal with |- _ ∨ ∃ r, with_session _ _ _ _ _ ?x ?m1 ?m2 ?k = _ ∧ _ =>
       destruct (Hw x m1 m2 k ltac:(done)) as [(id & s & H1 & H2 & H3 & H4 & H5)|H] end);
    try (right; exact H); try (left; exists id, s; by split_and!);
    (destruct (not_owner uuid_Parse user s) eqn:Hn;
      [right; rewrite H5; by eexists|left; exists id, s; by split_and!]).
Qed.

(** A session action answers 200 exactly when it has moved the row along the
    state diagram, from the state it was in to the target of the action
    (attaching to a running session leaves it alone), and only then: its
    command is offered to the channel of the session's satellite, the buffer of
    a killed session is dropped, and the audit log and the notifications are
    written. Any other answer leaves everything but the table, and the table
    too unless an acknowledgement was lost. It does not panic while the
    registered channels are open. *)
Theorem session_actions h w user sessionID e a (Hopen : channels_open w) :
  ∃ w' r, perform h w user sessionID e a = Ret (w', r) ∧
  (status r = 200 →
   ∃ id s u, uuid_Parse sessionID = Some id ∧ sessions (db w) !! id = Some s ∧
     refused user s a = false ∧ body r = BSession u ∧
     (a = Attach ∧ State s = StateRunning ∧ w' = w ∨
      may (State s) (target a) ∧ State u = target a ∧
      ∃ w1, dispatch h (set_db w (set_sessions (db w) (<[id := u]> (sessions (db w))))) s sessionID a = Ret w1 ∧
            w' = finish h w1 id sessionID a)) ∧
  (status r ≠ 200 → w' = set_db w (db w') ∧ (f_tx e ≠ CommitAckLost → w' = w)) ∧
  (∀ id s, sessionStore h = true → uuid_Parse sessionID = Some id → f_get e = false →
     sessions (db w) !! id = Some s → refused user s a = false → f_tx e = TxOk →
     may (State s) (target a) → status r = 200).
Proof.
  destruct (perform_stops h w user sessionID e a) as [(id & s & Hst & Hp & Hg & Hs & Hr)|(r & Hperf & Hr)].
  2:{ exists w, r. split_and!; [done|done|by rewrite set_db_id|].
      intros id s Hst Hp Hg Hs Hrf Hf Hm. exfalso.
      destruct (perform_shape h w user sessionID e a id s Hst Hp Hg Hs Hrf) as [msg E].
      rewrite Hperf in E. destruct (match a with Attach => _ | _ => _ end); [by simplify_eq|].
      destruct (transition_result (db w) id s (target a) (now e) (f_tx e) Hs)
        as [(u & Ht & _)|(d' & err & Ht & _ & _ & Hn)]; [|by apply Hn].
      rewrite Ht in E. destruct (dispatch _ _ _ _ _); simpl in E; by simplify_eq. }
  destruct (perform_shape h w user sessionID e a id s Hst Hp Hg Hs Hr) as [msg ->].
  destruct (match a with Attach => _ | _ => _ end) eqn:Ha.
  { destruct a; try done. apply String.eqb_eq in Ha. do 2 eexists. split; [done|]. split_and!; [|done|done].
    intros _. exists id, s, s. split_and!; try done. by left. }
  destruct (transition_result (db w) id s (target a) (now e) (f_tx e) Hs)
    as [(u & -> & Hu & _)|(d' & err & -> & _ & Hd & Hn)].
  - assert (∃ w1, dispatch h (set_db w (set_sessions (db w) (<[id:=u]> (sessions (db w))))) s sessionID a
                  = Ret w1) as [w1 Hw1].
    { unfold dispatch. destruct (command a sessionID); [|by eexists].
      edestruct send_ok as (o & -> & _); [|by eexists]. exact Hopen. }
    rewrite Hw1. simpl. do 2 eexists. split; [done|]. split_and!; [|done|done].
    intros _. pose proof (TransitionSession_Ok _ _ _ _ Hu) as (Hm & Hst' & _).
    exists id, s, u. split_and!; try done. right. split_and!; try done. by exists w1.
  - do 2 eexists. split; [done|]. split_and!; [done| |].
    + intros _. split; [done|]. intros Hf. rewrite (Hd Hf). apply set_db_id.
    + intros id' s' _ Hp' _ Hs' _ Hf Hm. simplify_eq. by destruct (Hn Hf).
Qed.

Lemma dispatch_db h w s sid a w1 : dispatch h w s sid a = Ret w1 → db w1 = db w.
Proof.
  unfold dispatch, send. destruct (command a sid); [|by intros [= <-]].
  destruct (streamRegistry h); [|by intros [= <-]].
  destruct (Registry.SendToSatellite _ _ _ _) as [[o b]|]; [|done]. by intros [= <-].
Qed.

Lemma finish_db h w id sid a : db (finish h w id sid a) = db w.
Proof.
  unfold finish, audit, emit.
  destruct a, (ringBufferPool h), (notificationService h), (auditLogger h); reflexivity.
Qed.

(** No session action ever records an event: the handlers log one without the
    satellite, which the table requires, and ignore the error. *)
Theorem api_logs_no_events h w user sessionID e a :
  match perform h w user sessionID e a with
  | Ret (w', _) => event_logs (db w') = event_logs (db w)
  | Panic => True
  end.
Proof.
  destruct (perform_stops h w user sessionID e a) as [(id & s & Hst & Hp & Hg & Hs & Hr)|(r & -> & _)];
    [|done].
  destruct (perform_shape h w user sessionID e a id s Hst Hp Hg Hs Hr) as [msg ->].
  destruct (match a with Attach => _ | _ => _ end); [done|].
  destruct (transition_result (db w) id s (target a) (now e) (f_tx e) Hs)
    as [(u & -> & _)|(d' & err & -> & Hd & _)]; [|exact Hd].
  destruct (dispatch _ _ _ _ _) as [w1|] eqn:Hw1; [|done]. simpl.
  by rewrite finish_db, (dispatch_db _ _ _ _ _ _ Hw1).
Qed.

(** What being a viewer means. Suspending, killing and deleting another user's
    session answer 403 without effect. Everything else ignores whose session it
    is: a viewer resumes another user's suspended session, and renames it. And
    a viewer whose id is not a uuid owns everything: nothing is refused, and
    the listing shows the sessions of all. *)
Theorem viewer_limits h w u sessionID e id s name (Hopen : channels_open w) :
  RBAC.Role u = "viewer" → sessionStore h = true → dbPool h = true →
  uuid_Parse sessionID = Some id → f_get e = false → f_tx e = TxOk → f_row e = NoFault →
  sessions (db w) !! id = Some s →
  (∀ uid, uuid_Parse (RBAC.ID u) = Some uid → uid ≠ UserID s →
     (∃ r, perform h w (Some u) sessionID e Suspend = Ret (w, r) ∧ status r = 403) ∧
     (∃ r, perform h w (Some u) sessionID e Kill = Ret (w, r) ∧ status r = 403) ∧
     (∃ r, HandleDeleteSession uuid_Parse h w (Some u) sessionID e = Ret (w, r) ∧ status r = 403) ∧
     (State s = StateSuspended →
      ∃ w' r, perform h w (Some u) sessionID e Resume = Ret (w', r) ∧ status r = 200 ∧
        State <$> sessions (db w') !! id = Some StateRunning) ∧
     (TerminatedAt s = None → name ≠ ""%string → (String.length name <= 255)%nat →
      ∃ w' r, HandleRenameSession uuid_Parse uuid_String h w sessionID (Some name) e = Ret (w', r) ∧
        status r = 200 ∧ Name <$> sessions (db w') !! id = Some name)) ∧
  (uuid_Parse (RBAC.ID u) = None →
     (∀ a, refused (Some u) s a = false) ∧ viewer_id uuid_Parse (Some u) = None).
Proof.
  intros Hv Hst Hdb Hp Hg Htx Hrow Hs. split.
  - intros uid Hu Hne.
    assert (not_owner uuid_Parse (Some u) s = true) as Hno.
    { unfold not_owner. rewrite Hv, Hu. simpl. destruct (N.eqb_spec (UserID s) uid); [congruence|done]. }
    split_and!.
    1-3: eexists; cbn [perform]; unfold HandleSuspendSession, HandleKillSession, HandleDeleteSession,
           with_session, GetSession; rewrite Hst, Hp, Hg, Hs, Hno; by split.
    + intros Hsus.
      destruct (perform_shape h w (Some u) sessionID e Resume id s Hst Hp Hg Hs eq_refl) as [msg ->].
      destruct (transition_result (db w) id s StateRunning (now e) (f_tx e) Hs)
        as [(v & Ht & Hu' & _)|(d' & err & _ & _ & _ & Hn)].
      2:{ exfalso. apply (Hn Htx). rewrite Hsus. constructor. }
      cbn [target]. rewrite Ht. unfold dispatch. cbn [command].
      edestruct (send_ok h (set_db w (set_sessions (db w) (<[id:=v]> (sessions (db w)))))) as (o & -> & _);
        [exact Hopen|]. cbn [mbind go_bind]. do 2 eexists. split; [done|]. split; [done|].
      rewrite finish_db. cbn. rewrite lookup_insert_eq. cbn. f_equal.
      by apply TransitionSession_Ok in Hu' as (_ & ? & _).
    + intros Ht Hn Hl. unfold HandleRenameSession. rewrite Hp.
      apply String.eqb_neq in Hn as ->. destruct (Z.ltb_spec 255 (Z.of_nat (String.length name))); [lia|].
      rewrite Hdb, Hs, bool_decide_true, Hrow by done. simpl. do 2 eexists. split; [done|].
      split; [done|]. simpl. by rewrite lookup_insert_eq.
  - intros Hu. split.
    + intros a. destruct a; try done; cbn [refused not_owner]; by rewrite Hu, andb_false_r.
    + unfold viewer_id. simpl. rewrite Hu. by destruct (String.eqb _ _).
Qed.
End Actions.

(** ** Examples *)

(** A stand-in for the uuid library: the id in unary. *)
Definition demo_Parse (s : string) : option N := Some (N.of_nat (pred (String.length s))).
Fixpoint unary (n : nat) : string :=
  match n with O => EmptyString | S n' => String "x"%char (unary n') end.
Definition demo_String (id : N) : string := String "u"%char (unary (N.to_nat id)).

Lemma demo_uuid id : demo_Parse (demo_String id) = Some id ∧ demo_String id ≠ ""%string.
Proof.
  split; [|done]. unfold demo_Parse, demo_String. simpl. f_equal.
  assert (∀ n, String.length (unary n) = n) as -> by (induction n; simpl; congruence). lia.
Qed.

Definition demo_handlers : Handlers := mkHandlers true true true true true true.
Definition demo_env : env := mkEnv 9 50 false false false TxOk NoFault NoFault QueryOk.
Definition suspended_row : Session :=
  mkSession 4 1 7 "s" "claude" [] StateSuspended None None 80 24 true 3 (Some 1) None (Some 3) None 1.
Definition demo_db : DB :=
  Store.set_sessions db3 (<[4%N := suspended_row]> (sessions db3)).
Definition demo_world : World :=
  mkWorld demo_db ∅ (Registry.RegisterSatelliteStream Registry.NewStreamRegistry (demo_String 1) (Some 1%N))
    {[1%N := mkChan 8 [] false]} (Pool.NewRingBufferPool ∅) [] [].
Definition a_viewer (id : string) : RBAC.AuthUser := RBAC.mkAuthUser id "" "" "viewer" "".

Lemma demo_db_wf : db_wf demo_db.
Proof.
  intros id s. unfold demo_db, db3. simpl.
  rewrite !lookup_insert_Some, lookup_singleton_Some. naive_solver.
Qed.

Lemma demo_open : channels_open demo_world.
Proof.
  intros id ch. cbn. rewrite lookup_insert_Some, lookup_empty. intros [[_ [= <-]]|[_ ?]]; [|done].
  by eexists.
Qed.

Example ParsePaginationParams_1 :
  map (λ l, Limit (ParsePaginationParams "" l)) [""; "7"; "0"; "-3"; "1000"; "x"] = [50; 7; 50; 50; 200; 50].
Proof. reflexivity. Qed.

Example HandleListSessions_complete_witness :
  ID <$> fetch demo_Parse demo_String reverse demo_handlers demo_world demo_db None "2" demo_env 5 ""
    = [2; 1; 3; 4]%N ∧
  NoDup (ID <$> fetch demo_Parse demo_String reverse demo_handlers demo_world demo_db None "2" demo_env 5 "").
Proof.
  split; [vm_compute; reflexivity|].
  refine (proj1 (proj2 (HandleListSessions_complete demo_Parse demo_String reverse demo_uuid _ demo_handlers
    demo_world demo_db None "2" demo_env _ _ _ _))); try reflexivity.
  - apply reverse_Permutation.
  - apply demo_db_wf.
  - apply demo_db_wf.
Defined.

Example session_actions_witness :
  ∃ w' r, perform demo_Parse demo_String demo_handlers demo_world None (demo_String 1) demo_env Kill = Ret (w', r) ∧
    status r = 200.
Proof.
  destruct (session_actions demo_Parse demo_String demo_handlers demo_world None (demo_String 1) demo_env Kill
    demo_open) as (w' & r & H1 & _ & _ & H2).
  exists w', r. split; [exact H1|].
  apply (H2 1%N (row_at 1 5)); try reflexivity. apply IsTransitionValid_may. reflexivity.
Defined.

Example viewer_limits_witness :
  (∃ r, perform demo_Parse demo_String demo_handlers demo_world (Some (a_viewer "uxx")) "uxxxx" demo_env Kill
        = Ret (demo_world, r) ∧ status r = 403) ∧
  (∃ w' r, perform demo_Parse demo_String demo_handlers demo_world (Some (a_viewer "uxx")) "uxxxx" demo_env Resume
        = Ret (w', r) ∧ status r = 200 ∧ State <$> sessions (db w') !! 4%N = Some StateRunning).
Proof.
  destruct (viewer_limits demo_Parse demo_String demo_handlers demo_world (a_viewer "uxx") "uxxxx" demo_env 4
    suspended_row "new" demo_open eq_refl eq_refl eq_refl eq_refl eq_refl eq_refl eq_refl eq_refl) as [H _].
  destruct (H 2%N eq_refl ltac:(done)) as (_ & H1 & _ & H2 & _).
  split; [exact H1|]. apply H2. reflexivity.
Defined.

End SessionApi.
