(* ===== verification/Agents.v ===== *)
(** * Agent definitions: internal/database/agents.go, agent_versions.go and the
    agent handlers of internal/api (agents.go, agent_versions.go), with RunAgent of
    cmd/nexus/main.go

    Rows of [agent_definitions] keep the columns of type JSONB as the text that
    the server prints. [jsonb] is the server's conversion of a text to that form
    ([None]: not JSON), [parse] the syntactic half of json.Unmarshal; what is
    decoded from a value is in [Json]. A handler gives the state and the
    response, or the state in which it panicked. *)
From Stdlib Require Import Ascii.
From stdpp Require Import pretty.
From S2P Require Import Prelude GoStrings Json SessionState SessionStore Channels Streams Protocol Satellites AgentRuns Dispatch SessionApi.
Import Session Store Proto Chan Json.
#[local] Open Scope Z_scope.

Module Agents.

(** ** internal/database/agents.go *)

Record AgentDefinition := mkAgent {
  ID : N; Name : string; DisplayName : string; Description : option string; Version : string;
  Type_ : string; Category : string; Icon : option string; Provider : string; Model : string;
  SystemPrompt : string; ToolsConfig : string; Guardrails : option string;
  Schedule : option string; Trigger : option string; OutputConfig : option string;
  Routing : option string; IsBuiltin : bool; IsEnterprise : bool; CreatedAt : Z; UpdatedAt : Z;
}.
Notation table := (gmap N AgentDefinition).

Record AgentFilter := mkFilter {
  fl_Type : option string; fl_Category : option string;
  fl_IsBuiltin : option bool; fl_IsEnterprise : option bool;
}.

(** What the handlers look at in an error: the text of a unique violation says
    "duplicate key value violates unique constraint". *)
Inductive db_error := UniqueViolation | OtherError.

Section Database.
Variable jsonb : string → option string.

(** A column that may be NULL. *)
Definition jsonb_ptr (s : option string) : option (option string) :=
  match s with None => Some None | Some t => Some <$> jsonb t end.

(** The row of the values, if the columns accept them: [guardrails] is NOT NULL,
    [type] has a CHECK. *)
Definition to_row (a : AgentDefinition) (id : N) (created updated : Z) : option AgentDefinition :=
  tools ← jsonb (ToolsConfig a);
  guardrails ← Guardrails a ≫= jsonb;
  schedule ← jsonb_ptr (Schedule a);
  trigger ← jsonb_ptr (Trigger a);
  output ← jsonb_ptr (OutputConfig a);
  routing ← jsonb_ptr (Routing a);
  if String.eqb (Type_ a) "specialist" || String.eqb (Type_ a) "autonomous" then
    Some (mkAgent id (Name a) (DisplayName a) (Description a) (Version a) (Type_ a) (Category a)
      (Icon a) (Provider a) (Model a) (SystemPrompt a) tools (Some guardrails) schedule trigger
      output routing (IsBuiltin a) (IsEnterprise a) created updated)
  else None.

(** UNIQUE (name) *)
Definition name_taken (t : table) (id : N) (name : string) : bool :=
  existsb (λ p, negb (N.eqb p.1 id) && String.eqb (Name p.2) name) (map_to_list t).

Definition write_row (t : table) (id : N) (row : option AgentDefinition) (f : fault)
    : table * result db_error AgentDefinition :=
  match row with
  | None => (t, Err OtherError)
  | Some r =>
      if name_taken t id (Name r) then (t, Err UniqueViolation) else
      match f with
      | NoFault => (<[id := r]> t, Ok r)
      | StmtFails => (t, Err OtherError)
      | AckLost => (<[id := r]> t, Err OtherError)
      end
  end.

(** [new_id] is what gen_random_uuid() gives. *)
Definition CreateAgentDefinition (t : table) (agent : AgentDefinition) (new_id : N) (now : Z)
    (f : fault) : table * result db_error AgentDefinition :=
  match t !! new_id with
  | Some _ => (t, Err UniqueViolation)
  | None => write_row t new_id (to_row agent new_id now now) f
  end.

(** A missing row is [nil, nil]. *)
Definition GetAgentDefinition (t : table) (id : N) (f : bool) : result unit (option AgentDefinition) :=
  if f then Err () else Ok (t !! id).

Definition UpdateAgentDefinition (t : table) (id : N) (updates : AgentDefinition) (now : Z)
    (f_get : bool) (f : fault) : table * result db_error (option AgentDefinition) :=
  match GetAgentDefinition t id f_get with
  | Err _ => (t, Err OtherError)
  | Ok None => (t, Ok None)
  | Ok (Some old) =>
      match write_row t id (to_row updates id (CreatedAt old) now) f with
      | (t', Ok a) => (t', Ok (Some a))
      | (t', Err e) => (t', Err e)
      end
  end.

Definition passes (fl : AgentFilter) (a : AgentDefinition) : bool :=
  from_option (λ x, String.eqb (Type_ a) x) true (fl_Type fl) &&
  from_option (λ x, String.eqb (Category a) x) true (fl_Category fl) &&
  from_option (λ x, Bool.eqb (IsBuiltin a) x) true (fl_IsBuiltin fl) &&
  from_option (λ x, Bool.eqb (IsEnterprise a) x) true (fl_IsEnterprise fl).

(** The collation of the database, and the order of a scan. *)
Variable collation : string → string → bool.
Variable arrange : list AgentDefinition → list AgentDefinition.
Definition by_display_name (a b : AgentDefinition) : Prop :=
  collation (DisplayName a) (DisplayName b) = true.
#[export] Instance by_display_name_dec : RelDecision by_display_name.
Proof. intros a b. unfold by_display_name. apply _. Defined.

(** ORDER BY display_name; a row that does not scan is an error. *)
Definition ListAgentDefinitions (t : table) (fl : AgentFilter) (f : query_fault)
    : result unit (list AgentDefinition) :=
  match f with
  | QueryOk => Ok (merge_sort by_display_name (filter (λ a, passes fl a = true) (arrange (map_to_list t).*2)))
  | _ => Err ()
  end.

Definition ListAgentsByName (t : table) (name : string) (f : query_fault)
    : result unit (list AgentDefinition) :=
  match f with
  | QueryOk => Ok (filter (λ a, Name a = name) (arrange (map_to_list t).*2))
  | _ => Err ()
  end.
End Database.

(** ** internal/database/agent_versions.go *)

(** The key is (agent_id, version), which is UNIQUE. *)
Record AgentVersion := mkVersion { v_ID : N; v_Snapshot : json; v_CreatedAt : Z }.
Notation versions_table := (gmap (N * string) AgentVersion).

Definition CreateAgentVersion (vs : versions_table) (agentID : N) (version : string) (snapshot : json)
    (new_id : N) (now : Z) (f : fault) : versions_table :=
  match vs !! (agentID, version), f with
  | Some _, _ | _, StmtFails => vs
  | None, _ => <[(agentID, version) := mkVersion new_id snapshot now]> vs
  end.

Definition GetAgentVersion (vs : versions_table) (agentID : N) (version : string) (f : bool)
    : result unit (option AgentVersion) :=
  if f then Err () else Ok (vs !! (agentID, version)).

(** ORDER BY created_at DESC *)
Definition newer_version (p q : (N * string) * AgentVersion) : Prop := v_CreatedAt q.2 <= v_CreatedAt p.2.
#[export] Instance newer_version_dec : RelDecision newer_version.
Proof. intros p q. unfold newer_version. apply _. Defined.
Definition ListAgentVersions (arrange : list ((N * string) * AgentVersion) → list ((N * string) * AgentVersion))
    (vs : versions_table) (agentID : N) (f : query_fault)
    : result unit (list ((N * string) * AgentVersion)) :=
  match f with
  | QueryOk => Ok (merge_sort newer_version (filter (λ p, p.1.1 = agentID) (arrange (map_to_list vs))))
  | _ => Err ()
  end.

(** ** The state of the handlers *)

Record AgentHandler := mkHandler {
  dbPool : bool; streamRegistry : bool; auditLogger : bool; dispatcher : bool;
  licenseMgr : option (list string);           (* the features of the licence *)
}.

Record World := mkWorld {
  api : SessionApi.World;
  agents : table;
  versions : versions_table;
  runs : Runs.table;
}.
Definition set_api (w : World) (a : SessionApi.World) : World := mkWorld a (agents w) (versions w) (runs w).
Definition set_agents (w : World) (t : table) : World := mkWorld (api w) t (versions w) (runs w).
Definition set_versions (w : World) (v : versions_table) : World := mkWorld (api w) (agents w) v (runs w).
Definition set_runs (w : World) (r : Runs.table) : World := mkWorld (api w) (agents w) (versions w) r.

(** What a request meets. [referenced]: a pipeline step refers to the agent. *)
Record env := mkEnv {
  now : Z; new_id : N; new_session : N; new_version : N;
  f_get : nat → bool; f_sat : bool; f_row : fault; f_version : fault; f_session : fault;
  f_run : fault; f_query : query_fault; f_dispatch : query_fault;
  now_ns : Z; telemetry : list Dispatch.TelemetryRow;
  referenced : bool;
}.

Record RunResponse := mkRunResponse {
  rr_ID : N; rr_AgentID : N; rr_Status : string; rr_StartedAt : Z; rr_EndedAt : option Z;
  rr_TotalTokens : Z; rr_EstimatedCost : Z; rr_ToolCallCount : Z;
}.
Inductive Body :=
  | BAgents (l : list AgentDefinition) (count total : Z) (next : option string)
  | BAgent (a : AgentDefinition)
  | BError (msg : string)
  | BDeleted
  | BDeployed (run agent sat : N) (session st : string) (dispatched : bool) (score : Dispatch.float64)
  | BRuns (l : list RunResponse)
  | BVersions (l : list ((N * string) * AgentVersion))
  | BVersion (agent : N) (version : string) (v : AgentVersion)
  | BCandidates (l : list Dispatch.DispatchResult) (count : Z).
Record Response := mkResponse { status : Z; body : Body }.

Definition fails (w : World) (st : Z) (msg : string) : World * Response :=
  (w, mkResponse st (BError msg)).
Definition audit (h : AgentHandler) (w : World) (action id : string) : World :=
  if auditLogger h then set_api w (SessionApi.add_audit (api w) (action, id)) else w.

(** ** Requests *)

(** CreateAgentRequest: [None] for a field that is missing or null; the fields
    tools_config and guardrails are kept as text, empty when missing. *)
Record CreateAgentRequest := mkCreate {
  cr_Name : string; cr_DisplayName : string; cr_Description : option string; cr_Version : string;
  cr_Type : string; cr_Category : string; cr_Icon : option string; cr_Provider : string;
  cr_Model : string; cr_SystemPrompt : string; cr_ToolsConfig : string; cr_Guardrails : string;
  cr_Schedule : option string; cr_Trigger : option string; cr_OutputConfig : option string;
  cr_Routing : option string;
}.
Record UpdateAgentRequest := mkUpdate {
  ur_Name : option string; ur_DisplayName : option string; ur_Description : option string;
  ur_Version : option string; ur_Type : option string; ur_Category : option string;
  ur_Icon : option string; ur_Provider : option string; ur_Model : option string;
  ur_SystemPrompt : option string; ur_ToolsConfig : option string; ur_Guardrails : option string;
  ur_Schedule : option string; ur_Trigger : option string; ur_OutputConfig : option string;
  ur_Routing : option string;
}.
(** A JSON null in the body is an empty map. *)
Record DeployAgentRequest := mkDeploy {
  dr_SatelliteID : string; dr_SessionID : option string;
  dr_Config : gmap string string; dr_Secrets : gmap string string;
}.

(** The first required field that is missing. *)
Definition create_objection (rq : CreateAgentRequest) : option string :=
  if String.eqb (cr_Name rq) "" then Some "name is required"
  else if String.eqb (cr_DisplayName rq) "" then Some "display_name is required"
  else if String.eqb (cr_Type rq) "" then Some "type is required"
  else if String.eqb (cr_Category rq) "" then Some "category is required"
  else if String.eqb (cr_Provider rq) "" then Some "provider is required"
  else if String.eqb (cr_Model rq) "" then Some "model is required"
  else if negb (String.eqb (cr_Type rq) "specialist") && negb (String.eqb (cr_Type rq) "autonomous")
  then Some "type must be 'specialist' or 'autonomous'" else None.

Definition new_agent (rq : CreateAgentRequest) : AgentDefinition :=
  mkAgent 0 (cr_Name rq) (cr_DisplayName rq) (cr_Description rq)
    (if String.eqb (cr_Version rq) "" then "1.0.0" else cr_Version rq)
    (cr_Type rq) (cr_Category rq) (cr_Icon rq) (cr_Provider rq) (cr_Model rq) (cr_SystemPrompt rq)
    (if String.eqb (cr_ToolsConfig rq) "" then "{}" else cr_ToolsConfig rq)
    (if String.eqb (cr_Guardrails rq) "" || String.eqb (cr_Guardrails rq) "null" then None
     else Some (cr_Guardrails rq))
    (cr_Schedule rq) (cr_Trigger rq) (cr_OutputConfig rq) (cr_Routing rq) false false 0 0.

(** A pointer that is nil keeps the old pointer. *)
Definition or_old {A} (x old : option A) : option A := match x with Some _ => x | None => old end.

Definition updated_agent (rq : UpdateAgentRequest) (old : AgentDefinition) : AgentDefinition :=
  mkAgent 0 (default (Name old) (ur_Name rq)) (default (DisplayName old) (ur_DisplayName rq))
    (or_old (ur_Description rq) (Description old)) (default (Version old) (ur_Version rq))
    (default (Type_ old) (ur_Type rq)) (default (Category old) (ur_Category rq))
    (or_old (ur_Icon rq) (Icon old)) (default (Provider old) (ur_Provider rq))
    (default (Model old) (ur_Model rq)) (default (SystemPrompt old) (ur_SystemPrompt rq))
    (default (ToolsConfig old) (ur_ToolsConfig rq)) (or_old (ur_Guardrails rq) (Guardrails old))
    (or_old (ur_Schedule rq) (Schedule old)) (or_old (ur_Trigger rq) (Trigger old))
    (or_old (ur_OutputConfig rq) (OutputConfig old)) (or_old (ur_Routing rq) (Routing old))
    (IsBuiltin old) (IsEnterprise old) 0 0.

(** ** Snapshots *)

Section Handlers.
Variable uuid_Parse : string → option N.
Variable uuid_String : N → string.
(** Time.MarshalJSON *)
Variable time_text : Z → string.
Variable jsonb : string → option string.
Variable parse : string → option json.
Variable collation : string → string → bool.
Variable arrange : list AgentDefinition → list AgentDefinition.
Variable arrange_versions : list ((N * string) * AgentVersion) → list ((N * string) * AgentVersion).
Variable arrange_runs : list Runs.AgentRun → list Runs.AgentRun.
Variable arrange_sats : list (N * Sats.Sat) → list (N * Sats.Sat).
Variable arrange_telemetry : list Dispatch.TelemetryRow → list Dispatch.TelemetryRow.
Variable shuffle : list Dispatch.SatelliteCandidate → list Dispatch.SatelliteCandidate.

Definition json_ptr (s : option string) : json := from_option JString JNull s.

(** json.Marshal of an AgentDefinition: the struct has no tags, so the members
    have the names of the Go fields. *)
Definition marshal_agent (a : AgentDefinition) : json :=
  JObject [("ID", JString (uuid_String (ID a))); ("Name", JString (Name a));
    ("DisplayName", JString (DisplayName a)); ("Description", json_ptr (Description a));
    ("Version", JString (Version a)); ("Type", JString (Type_ a)); ("Category", JString (Category a));
    ("Icon", json_ptr (Icon a)); ("Provider", JString (Provider a)); ("Model", JString (Model a));
    ("SystemPrompt", JString (SystemPrompt a)); ("ToolsConfig", JString (ToolsConfig a));
    ("Guardrails", json_ptr (Guardrails a)); ("Schedule", json_ptr (Schedule a));
    ("Trigger", json_ptr (Trigger a)); ("OutputConfig", json_ptr (OutputConfig a));
    ("Routing", json_ptr (Routing a)); ("IsBuiltin", JBool (IsBuiltin a));
    ("IsEnterprise", JBool (IsEnterprise a)); ("CreatedAt", JString (time_text (CreatedAt a)));
    ("UpdatedAt", JString (time_text (UpdatedAt a)))]%string.

(** What HandleRollbackAgent reads from a snapshot, as updates of [existing]:
    its struct has tags in snake case, and no routing. *)
Definition snapshotData (existing : AgentDefinition) (v : json) : option AgentDefinition :=
  unmarshal
    (field "output_config" decode_string_ptr None $ field "trigger" decode_string_ptr None $
     field "schedule" decode_string_ptr None $ field "guardrails" decode_string_ptr None $
     field "tools_config" decode_string "" $ field "system_prompt" decode_string "" $
     field "model" decode_string "" $ field "provider" decode_string "" $
     field "icon" decode_string_ptr None $ field "category" decode_string "" $
     field "type" decode_string "" $ field "version" decode_string "" $
     field "description" decode_string_ptr None $ field "display_name" decode_string "" $
     field "name" decode_string "" $
     struct (λ name display_name description version type category icon provider model system_prompt
               tools_config guardrails schedule trigger output_config,
       mkAgent 0 name display_name description version type category icon provider model system_prompt
         tools_config guardrails schedule trigger output_config None
         (IsBuiltin existing) (IsEnterprise existing) 0 0))
    (Some v).

(** ** Definitions: list, get, create, update, delete *)

(** The id of the path and its definition. *)
Definition with_agent (h : AgentHandler) (w : World) (agentID : string) (f : bool) (failed : string)
    (k : N → AgentDefinition → World * Response) : World * Response :=
  if negb (dbPool h) then fails w 503 "database not configured" else
  match uuid_Parse agentID with
  | None => fails w 400 "invalid agent_id"
  | Some id =>
      match GetAgentDefinition (agents w) id f with
      | Err _ => fails w 500 failed
      | Ok None => fails w 404 "agent not found"
      | Ok (Some a) => k id a
      end
  end.

Definition agent_filter (type category builtin enterprise : string) : AgentFilter :=
  let given s := if String.eqb s "" then None else Some s in
  mkFilter (given type) (given category)
    (b ← given builtin; Some (String.eqb b "true")) (e ← given enterprise; Some (String.eqb e "true")).

(** The page after the cursor: agents[cursorIdx+1 : min(cursorIdx+Limit, len)];
    without a cursor the first Limit agents. *)
Definition agents_page (params : SessionApi.PaginationParams) (all : list AgentDefinition)
    : go (list AgentDefinition) :=
  let len := Z.of_nat (length all) in
  if negb (String.eqb (SessionApi.Cursor params) "") then
    match list_find (λ a, uuid_String (ID a) = SessionApi.Cursor params) all with
    | Some (i, _) => slice all (Z.of_nat i + 1) (Z.min (Z.of_nat i + SessionApi.Limit params) len)
    | None => Ret []
    end
  else slice all 0 (Z.min (SessionApi.Limit params) len).

Definition next_cursor (params : SessionApi.PaginationParams) (page : list AgentDefinition) : option string :=
  if SessionApi.Limit params <=? Z.of_nat (length page)
  then (λ a, uuid_String (ID a)) <$> last page else None.

Definition HandleListAgents (h : AgentHandler) (w : World) (params : SessionApi.PaginationParams)
    (fl : AgentFilter) (e : env) : go (World * Response) :=
  if negb (dbPool h) then Ret (fails w 503 "database not configured") else
  match ListAgentDefinitions collation arrange (agents w) fl (f_query e) with
  | Err _ => Ret (fails w 500 "failed to list agents")
  | Ok all =>
      page ← agents_page params all;
      Ret (w, mkResponse 200 (BAgents page (Z.of_nat (length page)) (Z.of_nat (length all))
                                (next_cursor params page)))
  end.

Definition HandleGetAgent (h : AgentHandler) (w : World) (agentID : string) (e : env) : World * Response :=
  with_agent h w agentID (f_get e 0) "failed to get agent" (λ _ a, (w, mkResponse 200 (BAgent a))).

Definition HandleCreateAgent (h : AgentHandler) (w : World) (req : option CreateAgentRequest) (e : env)
    : World * Response :=
  if negb (dbPool h) then fails w 503 "database not configured" else
  match req with
  | None => fails w 400 "invalid JSON request body"
  | Some rq =>
      match create_objection rq with
      | Some msg => fails w 400 msg
      | None =>
          match CreateAgentDefinition jsonb (agents w) (new_agent rq) (new_id e) (now e) (f_row e) with
          | (t, Err UniqueViolation) => fails (set_agents w t) 409 "agent with this name already exists"
          | (t, Err OtherError) => fails (set_agents w t) 500 "failed to create agent"
          | (t, Ok created) =>
              (audit h (set_agents w t) "agent.create" (uuid_String (ID created)),
               mkResponse 201 (BAgent created))
          end
      end
  end.

(** The snapshot is taken before anything is checked; its error is ignored. *)
Definition snapshot_before (w : World) (id : N) (e : env) : World :=
  match GetAgentDefinition (agents w) id (f_get e 0) with
  | Ok (Some a) =>
      set_versions w (CreateAgentVersion (versions w) id (Version a) (marshal_agent a)
                        (new_version e) (now e) (f_version e))
  | _ => w
  end.

Definition update_objection (rq : UpdateAgentRequest) : option string :=
  if bool_decide (ur_Name rq = Some ""%string) then Some "name cannot be empty"
  else match ur_Type rq with
       | Some t => if negb (String.eqb t "specialist") && negb (String.eqb t "autonomous")
                   then Some "type must be 'specialist' or 'autonomous'" else None
       | None => None
       end.

(** A row that vanished between the two reads gives a nil agent, which the
    conversion dereferences. *)
Definition HandleUpdateAgent (h : AgentHandler) (w : World) (agentID : string)
    (req : option UpdateAgentRequest) (e : env) : World * go Response :=
  let refuse w st msg := (w, Ret (mkResponse st (BError msg))) in
  if negb (dbPool h) then refuse w 503 "database not configured" else
  match uuid_Parse agentID with
  | None => refuse w 400 "invalid agent_id"
  | Some id =>
      let w := snapshot_before w id e in
      match GetAgentDefinition (agents w) id (f_get e 1) with
      | Err _ => refuse w 500 "failed to update agent"
      | Ok None => refuse w 404 "agent not found"
      | Ok (Some existing) =>
          if IsBuiltin existing then refuse w 403 "cannot update builtin agents" else
          match req with
          | None => refuse w 400 "invalid JSON request body"
          | Some rq =>
              match update_objection rq with
              | Some msg => refuse w 400 msg
              | None =>
                  match UpdateAgentDefinition jsonb (agents w) id (updated_agent rq existing) (now e)
                          (f_get e 2) (f_row e) with
                  | (t, Err _) => refuse (set_agents w t) 500 "failed to update agent"
                  | (t, Ok updated) =>
                      (audit h (set_agents w t) "agent.update" agentID,
                       match updated with
                       | Some a => Ret (mkResponse 200 (BAgent a))
                       | None => Panic
                       end)
                  end
              end
          end
      end
  end.

(** Runs and pipeline steps refer to the agent, versions go with it. *)
Definition delete_row (w : World) (id : N) (e : env) : World * bool :=
  if referenced e || bool_decide (map_Exists (λ _ r, Runs.AgentID r = id) (runs w)) then
    match agents w !! id with Some _ => (w, false) | None => (w, match f_row e with NoFault => true | _ => false end) end
  else
    let w' := set_versions (set_agents w (delete id (agents w)))
                (filter (λ p, p.1.1 ≠ id) (versions w)) in
    match f_row e with NoFault => (w', true) | StmtFails => (w, false) | AckLost => (w', false) end.

Definition HandleDeleteAgent (h : AgentHandler) (w : World) (agentID : string) (e : env) : World * Response :=
  with_agent h w agentID (f_get e 0) "failed to delete agent" (λ id existing,
    if IsBuiltin existing then fails w 403 "cannot delete builtin agents" else
    match delete_row w id e with
    | (w', false) => fails w' 500 "failed to delete agent"
    | (w', true) => (audit h w' "agent.delete" agentID, mkResponse 200 BDeleted)
    end).

(** ** Versions (agent_versions.go) *)

Definition HandleListAgentVersions (h : AgentHandler) (w : World) (agentID : string) (e : env) :=
  with_agent h w agentID (f_get e 0) "failed to list versions" (λ id _,
    match ListAgentVersions arrange_versions (versions w) id (f_query e) with
    | Err _ => fails w 500 "failed to list versions"
    | Ok l => (w, mkResponse 200 (BVersions l))
    end).

Definition HandleGetAgentVersion (h : AgentHandler) (w : World) (agentID version : string) (e : env) :=
  if negb (dbPool h) then fails w 503 "database not configured" else
  match uuid_Parse agentID with
  | None => fails w 400 "invalid agent_id"
  | Some id =>
      match GetAgentVersion (versions w) id version (f_get e 0) with
      | Err _ => fails w 500 "failed to get version"
      | Ok None => fails w 404 "version not found"
      | Ok (Some v) => (w, mkResponse 200 (BVersion id version v))
      end
  end.

(** [req]: the field version of the body. *)
Definition HandleRollbackAgent (h : AgentHandler) (w : World) (agentID : string) (req : option string)
    (e : env) : World * Response :=
  with_agent h w agentID (f_get e 0) "failed to rollback agent" (λ id existing,
    if IsBuiltin existing then fails w 403 "cannot rollback builtin agents" else
    match req with
    | None => fails w 400 "invalid JSON request body"
    | Some version =>
        if String.eqb version "" then fails w 400 "version is required" else
        match GetAgentVersion (versions w) id version (f_get e 1) with
        | Err _ => fails w 500 "failed to rollback agent"
        | Ok None => fails w 404 "version not found"
        | Ok (Some v) =>
            match snapshotData existing (v_Snapshot v) with
            | None => fails w 500 "failed to parse version snapshot"
            | Some updates =>
                match UpdateAgentDefinition jsonb (agents w) id updates (now e) (f_get e 2) (f_row e) with
                | (t, Ok (Some updated)) =>
                    (audit h (set_agents w t) "agent.rollback" agentID, mkResponse 200 (BAgent updated))
                | (t, _) => fails (set_agents w t) 500 "failed to rollback agent"
                end
            end
        end
    end).

(** ** The configuration of a deployment *)

Notation config := (gmap string string).

(** Assignments to a map, in order: a nil map panics. *)
Definition assign (m : option config) (kvs : list (string * string)) : go (option config) :=
  match m, kvs with
  | _, [] => Ret m
  | None, _ => Panic
  | Some m, _ => Ret (Some (foldl (λ m kv, <[kv.1 := kv.2]> m) m kvs))
  end.

(** make(map[string]string), then json.Unmarshal of the column, whose error is
    ignored. *)
Definition tools_map (agent : AgentDefinition) : option config :=
  if String.eqb (ToolsConfig agent) "" then Some ∅ else
  match parse (ToolsConfig agent) with
  | Some v => (decode_map (Some ∅) v).1
  | None => Some ∅
  end.

Definition when (b : bool) (kv : string * string) : list (string * string) := if b then [kv] else [].

Definition agent_fields (agent : AgentDefinition) : list (string * string) :=
  when (negb (String.eqb (Provider agent) "")) ("provider"%string, Provider agent) ++
  when (negb (String.eqb (Model agent) "")) ("model"%string, Model agent) ++
  when (negb (String.eqb (SystemPrompt agent) "")) ("system_prompt"%string, SystemPrompt agent).

Record guardrailsJSON := mkGuardrails {
  Hitl : bool; ReadOnly : bool; TimeoutMinutes : Z; Timeout : Z; MaxToolCalls : Z; MaxTurns : Z;
}.
Definition decode_guardrails : object → decoded guardrailsJSON :=
  field "max_turns" decode_int 0 $ field "max_tool_calls" decode_int 0 $
  field "timeout" decode_int 0 $ field "timeout_minutes" decode_int 0 $
  field "read_only" decode_bool false $ field "hitl" decode_bool false $ struct mkGuardrails.

Definition timeout_minutes (gr : guardrailsJSON) : option Z :=
  if 0 <? TimeoutMinutes gr then Some (TimeoutMinutes gr)
  else if 0 <? Timeout gr then Some (Z.max 1 (Z.quot (Timeout gr) 60)) else None.

Definition guardrail_entries (gr : guardrailsJSON) : list (string * string) :=
  when (ReadOnly gr) ("guardrails.read_only", "true")%string ++
  match timeout_minutes gr with Some m => [("guardrails.timeout_minutes"%string, Str.Itoa m)] | None => [] end ++
  when (0 <? MaxToolCalls gr) ("guardrails.max_tool_calls"%string, Str.Itoa (MaxToolCalls gr)) ++
  when (0 <? MaxTurns gr) ("guardrails.max_turns"%string, Str.Itoa (MaxTurns gr)) ++
  when (Hitl gr) ("guardrails.hitl", "true")%string.

Definition guardrails_of (agent : AgentDefinition) : option guardrailsJSON :=
  match Guardrails agent with
  | Some s => if String.eqb s "" || String.eqb s "{}" then None else unmarshal decode_guardrails (parse s)
  | None => None
  end.

Record toolsConfigJSON := mkTools { Allow : list string; Deny : list string }.
Definition decode_tools : object → decoded toolsConfigJSON :=
  field "deny" decode_strings [] $ field "allow" decode_strings [] $ struct mkTools.

Definition Join (l : list string) (sep : string) : string := String.concat sep l.
Definition tool_entries (agent : AgentDefinition) : list (string * string) :=
  if String.eqb (ToolsConfig agent) "" then [] else
  match unmarshal decode_tools (parse (ToolsConfig agent)) with
  | Some tc =>
      match Allow tc with [] => [] | _ => [("tools.allow"%string, Join (Allow tc) ",")] end ++
      match Deny tc with [] => [] | _ => [("tools.deny"%string, Join (Deny tc) ",")] end
  | None => []
  end.

(** What the deploy handler puts into the message, in the order it does. *)
Definition deploy_config (agent : AgentDefinition) (overrides : config) : go (option config) :=
  assign (tools_map agent)
    (map_to_list overrides ++ agent_fields agent ++
     from_option guardrail_entries [] (guardrails_of agent) ++ tool_entries agent).

Definition agent_proto (agent : AgentDefinition) (c : option config) : AgentDefinitionProto :=
  mkAgentDef (Name agent) (Version agent) (Name agent) (default ∅ c)
    [Type_ agent; Category agent] (Name agent).

(** ** Deploying *)

(** DispatchOptions has no tags either: the members are Mode, RequireTags, ... *)
Definition decode_options : object → decoded Dispatch.DispatchOptions :=
  field "RequireGPU" decode_bool false $ field "PreferTags" decode_strings [] $
  field "RequireTags" decode_strings [] $ field "Mode" decode_string "" $ struct Dispatch.mkOptions.
Definition parseRouting (routingJSON : string) : option Dispatch.DispatchOptions :=
  if String.eqb routingJSON "" then None else unmarshal decode_options (parse routingJSON).

Definition FeatureAgentRouting : string := "agent_routing".

Definition dispatch_db (w : World) (e : env) : Dispatch.db :=
  Dispatch.mkDb (SessionApi.sats (api w)) (telemetry e).
Definition streams (h : AgentHandler) (w : World) : option Registry.StreamRegistry :=
  if streamRegistry h then Some (SessionApi.registry (api w)) else None.

(** The satellite, whether it was dispatched, and the score; or the refusal. *)
Definition choose_satellite (h : AgentHandler) (w : World) (agent : AgentDefinition)
    (satelliteID : string) (e : env) : result (Z * string) (N * bool * Dispatch.float64) :=
  let zero := SpecFloat.S754_zero false in
  if String.eqb satelliteID "" then
    match parseRouting (default "" (Routing agent)) with
    | Some routing =>
        if negb (String.eqb (Dispatch.Mode routing) "auto-dispatch")
        then Err (400, "satellite_id is required"%string)
        else if negb (existsb (String.eqb FeatureAgentRouting) (default [] (licenseMgr h)))
        then Err (403, "agent routing requires enterprise license"%string)
        else if negb (dispatcher h) then Err (503, "dispatcher not configured"%string)
        else match Dispatch.Dispatch uuid_String arrange_sats arrange_telemetry shuffle (streams h w)
                     (dispatch_db w e)
                     (Dispatch.mkOptions "" (Dispatch.RequireTags routing) (Dispatch.PreferTags routing) false)
                     (now_ns e) (f_dispatch e) with
        | Err Dispatch.ErrNoSatelliteAvailable => Err (409, "no satellite matches dispatch requirements"%string)
        | Err Dispatch.ErrQuery => Err (409, "failed to get candidates"%string)
        | Ok r => Ok (Dispatch.r_SatelliteID r, true, Dispatch.r_Score r)
        end
    | None => Err (400, "satellite_id is required"%string)
    end
  else match uuid_Parse satelliteID with
  | None => Err (400, "invalid satellite_id"%string)
  | Some id => Ok (id, false, zero)
  end.

(** SELECT status FROM satellites *)
Definition satellite_objection (w : World) (sat : N) (e : env) : option (Z * string) :=
  match (if f_sat e then None else SessionApi.sats (api w) !! sat) with
  | None => Some (404, "satellite not found"%string)
  | Some row => if String.eqb (Sats.s_status row) "active" then None
                else Some (409, "satellite is not active"%string)
  end.

Definition new_session_row (agent : AgentDefinition) (sat : N) (e : env) : Session :=
  let sid := new_session e in
  mkSession sid sat 0 ("agent-" +:+ Name agent +:+ "-" +:+ String.substring 0 8 (uuid_String sid))
    (Name agent) [] StateProvisioning None None 80 24 true (now e) None None None None (now e).

(** The session of the request, whose existence is left to the foreign key; or
    a new row, owned by the zero user. *)
Definition session_for (w : World) (agent : AgentDefinition) (sat : N) (sessionID : option string)
    (e : env) : World * result (Z * string) N :=
  let given := s ← sessionID; if String.eqb s "" then None else Some s in
  match given with
  | Some s => (w, match uuid_Parse s with
                  | None => Err (400, "invalid session_id"%string)
                  | Some sid => Ok sid
                  end)
  | None =>
      match CreateSession (SessionApi.db (api w)) (new_session_row agent sat e) (f_session e) with
      | (d, Some _) => (set_api w (SessionApi.set_db (api w) d),
                        Err (500, "failed to create session for agent deployment"%string))
      | (d, None) => (set_api w (SessionApi.set_db (api w) d), Ok (new_session e))
      end
  end.

(** The keys that agent_runs refers to. *)
Definition refs_of (w : World) : Runs.refs :=
  Runs.mkRefs (dom (agents w)) (dom (SessionApi.sats (api w))) (dom (sessions (SessionApi.db (api w)))).

Definition create_run (w : World) (agent sat session : N) (source : string) (e : env)
    : World * option Runs.AgentRun :=
  let '(t, r) := Runs.CreateAgentRun (runs w) (refs_of w) agent sat (Some session) source (new_id e) (now e) (f_run e) in
  (set_runs w t, r).

(** SendToSatellite; the second result: it was queued. *)
Definition send (w : World) (sat : string) (msg : NexusMessage) : go (World * bool) :=
  '(o, ok) ← Registry.SendToSatellite (SessionApi.registry (api w)) (SessionApi.outbox (api w)) sat msg;
  Ret (set_api w (SessionApi.set_outbox (api w) o), ok).

(** The part after the rows are written: building the message and sending it. *)
Definition dispatch_deploy (h : AgentHandler) (w : World) (agent : AgentDefinition) (sat session : N)
    (rq : DeployAgentRequest) : go World :=
  c ← deploy_config agent (dr_Config rq);
  if streamRegistry h then
    '(w', _) ← send w (uuid_String sat)
      (DeployAgentCommand (uuid_String session) (agent_proto agent c) (dr_Secrets rq));
    Ret w'
  else Ret w.

Definition HandleDeployAgent (h : AgentHandler) (w : World) (agentID : string)
    (req : option DeployAgentRequest) (e : env) : World * go Response :=
  let refuse w r := (w, Ret (mkResponse r.1 (BError r.2))) in
  if negb (dbPool h) then refuse w (503, "database not configured"%string) else
  match uuid_Parse agentID with
  | None => refuse w (400, "invalid agent_id"%string)
  | Some id =>
      match GetAgentDefinition (agents w) id (f_get e 0) with
      | Err _ => refuse w (500, "failed to deploy agent"%string)
      | Ok None => refuse w (404, "agent not found"%string)
      | Ok (Some agent) =>
          match req with
          | None => refuse w (400, "invalid JSON request body"%string)
          | Some rq =>
              match choose_satellite h w agent (dr_SatelliteID rq) e with
              | Err r => refuse w r
              | Ok (sat, dispatched, score) =>
                  match satellite_objection w sat e with
                  | Some r => refuse w r
                  | None =>
                      match session_for w agent sat (dr_SessionID rq) e with
                      | (w1, Err r) => refuse w1 r
                      | (w1, Ok session) =>
                          match create_run w1 id sat session "manual" e with
                          | (w2, None) => refuse w2 (500, "failed to deploy agent"%string)
                          | (w2, Some run) =>
                              match dispatch_deploy h w2 agent sat session rq with
                              | Panic => (w2, Panic)
                              | Ret w3 =>
                                  (audit h w3 "agent.deploy" agentID,
                                   Ret (mkResponse 201 (BDeployed (Runs.ID run) id sat (uuid_String session)
                                          "running" dispatched score)))
                              end
                          end
                      end
                  end
              end
          end
      end
  end.

Definition run_response (r : Runs.AgentRun) : RunResponse :=
  mkRunResponse (Runs.ID r) (Runs.AgentID r) (Runs.Status r) (Runs.StartedAt r) (Runs.EndedAt r)
    (Runs.TotalTokens r) (Runs.EstimatedCost r) (Runs.ToolCallCount r).

Definition HandleListAgentRuns (h : AgentHandler) (w : World) (agentID : string) (e : env) : World * Response :=
  if negb (dbPool h) then fails w 503 "database not configured" else
  match uuid_Parse agentID with
  | None => fails w 400 "invalid agent_id"
  | Some id =>
      match Runs.ListAgentRuns arrange_runs (runs w) (Runs.mkFilters (Some id) None None) (f_get e 0) with
      | Err _ => fails w 500 "failed to list runs"
      | Ok l => (w, mkResponse 200 (BRuns (run_response <$> l)))
      end
  end.

Definition HandleDispatchPreview (h : AgentHandler) (w : World) (agentID : string) (e : env)
    : World * Response :=
  if negb (dispatcher h) then fails w 503 "dispatcher not configured"
  else if String.eqb agentID "" then fails w 400 "agent_id is required"
  else match uuid_Parse agentID with
  | None => fails w 400 "invalid agent_id"
  | Some id =>
      match GetAgentDefinition (agents w) id (f_get e 0) with
      | Err _ => fails w 500 "failed to get agent"
      | Ok None => fails w 404 "agent not found"
      | Ok (Some agent) =>
          let opts := match Routing agent with
                      | Some r => if String.eqb r "" then Some (Dispatch.mkOptions "" [] [] false)
                                  else unmarshal decode_options (parse r)
                      | None => Some (Dispatch.mkOptions "" [] [] false)
                      end in
          match opts with
          | None => fails w 400 "invalid routing configuration"
          | Some opts =>
              match Dispatch.Preview uuid_String arrange_sats arrange_telemetry shuffle (streams h w)
                      (dispatch_db w e) opts (now_ns e) (f_dispatch e) with
              | Err _ => fails w 409 "failed to get candidates"
              | Ok l => (w, mkResponse 200 (BCandidates l (Z.of_nat (length l))))
              end
          end
      end
  end.

(** ** RunAgent (cmd/nexus/main.go): what the scheduler calls *)

Inductive run_error := NoDatabase | GetFailed | AgentNotFound | CreateRunFailed | NotSent.

Definition RunAgent (h : AgentHandler) (w : World) (agentID satelliteID : N) (triggerSource : string)
    (e : env) : World * go (option run_error) :=
  if negb (dbPool h) then (w, Ret (Some NoDatabase)) else
  match GetAgentDefinition (agents w) agentID (f_get e 0) with
  | Err _ => (w, Ret (Some GetFailed))
  | Ok None => (w, Ret (Some AgentNotFound))
  | Ok (Some agent) =>
      let sessionID := new_session e in
      match create_run w agentID satelliteID sessionID triggerSource e with
      | (w1, None) => (w1, Ret (Some CreateRunFailed))
      | (w1, Some _) =>
          if streamRegistry h then
            match send w1 (uuid_String satelliteID)
                    (DeployAgentCommand (uuid_String sessionID) (agent_proto agent (tools_map agent)) ∅) with
            | Panic => (w1, Panic)
            | Ret (w2, true) => (w2, Ret None)
            | Ret (w2, false) => (w2, Ret (Some NotSent))
            end
          else (w1, Ret None)
      end
  end.

(** ** The routes (handleAgentsAPI) *)

Inductive call :=
  | CallList | CallCreate | CallGet (id : string) | CallUpdate (id : string) | CallDelete (id : string)
  | CallDeploy (id : string) | CallRuns (id : string) | CallVersions (id : string)
  | CallVersion (id version : string) | CallRollback (id : string) | CallExport (id : string)
  | CallImport | CallNotFound.

(** {id}/versions/{version} *)
Definition version_path (get : bool) (rest : string) : option (string * string) :=
  match Str.Split rest "/" with
  | [id; x; version] => if get && String.eqb x "versions" then Some (id, version) else None
  | _ => None
  end.

Definition agents_route (p method : string) : call :=
  let meth m := String.eqb method m in
  let sub := Str.HasPrefix p "/api/v1/agents/" in
  let rest := Str.TrimPrefix p "/api/v1/agents/" in
  let ends x := sub && Str.HasSuffix p x in
  let before x := Str.TrimSuffix rest x in
  let plain := sub && negb (Str.ContainsByte rest "/") in
  if String.eqb p "/api/v1/agents" && meth "GET" then CallList
  else if String.eqb p "/api/v1/agents" && meth "POST" then CallCreate
  else if plain && meth "GET" then CallGet rest
  else if plain && meth "PUT" then CallUpdate rest
  else if plain && meth "DELETE" then CallDelete rest
  else if ends "/deploy" && meth "POST" then CallDeploy (before "/deploy")
  else if ends "/runs" && meth "GET" then CallRuns (before "/runs")
  else if ends "/versions" && meth "GET" then CallVersions (before "/versions")
  else match version_path (sub && meth "GET") rest with
  | Some (id, version) => CallVersion id version
  | None =>
      if ends "/rollback" && meth "POST" then CallRollback (before "/rollback")
      else if ends "/export" && meth "GET" && negb (String.eqb (before "/export") "")
              && negb (Str.ContainsByte (before "/export") "/") then CallExport (before "/export")
      else if String.eqb p "/api/v1/agents/import" && meth "POST" then CallImport
      else CallNotFound
  end.

(** ** Lemmas *)

(** What the writes to the table of definitions do: the agent of a run is not deleted. *)
Inductive table_step (rs : Runs.table) (t : table) : table → Prop :=
  | ts_same : table_step rs t t
  | ts_insert id a row created updated :
      to_row jsonb a id created updated = Some row → name_taken t id (Name row) = false →
      IsBuiltin row = false →
      (∀ old, t !! id = Some old → IsBuiltin old = false) → table_step rs t (<[id := row]> t)
  | ts_delete id : (∀ old, t !! id = Some old → IsBuiltin old = false) →
      (∀ r a, rs !! r = Some a → Runs.AgentID a ≠ id) → table_step rs t (delete id t).

Definition snapshots_ok (vs : versions_table) : Prop :=
  ∀ k v, vs !! k = Some v → ∃ a, v_Snapshot v = marshal_agent a.

(** A request may change the definitions by one step, adds snapshots of
    definitions, and keeps every run. *)
Definition moves (w w' : World) : Prop :=
  table_step (runs w) (agents w) (agents w') ∧ (snapshots_ok (versions w) → snapshots_ok (versions w')) ∧
  runs w ⊆ runs w'.

Lemma moves_same w w' : agents w' = agents w → versions w' = versions w → runs w ⊆ runs w' → moves w w'.
Proof. intros Ha Hv Hr. unfold moves. rewrite Ha, Hv. split_and!; [constructor|done|done]. Qed.
Lemma moves_refl w : moves w w.
Proof. by apply moves_same. Qed.

Lemma to_row_fields a id c u row : to_row jsonb a id c u = Some row →
  ID row = id ∧ Name row = Name a ∧ IsBuiltin row = IsBuiltin a ∧ is_Some (Guardrails row) ∧
  (Type_ row = "specialist" ∨ Type_ row = "autonomous").
Proof.
  unfold to_row. intros H. repeat (apply bind_Some in H as (? & ? & H)).
  destruct (_ || _) eqn:Ht; [|done]. injection H as <-. simpl. split_and!; try done.
  apply orb_true_iff in Ht as [Ht|Ht]; apply String.eqb_eq in Ht; auto.
Qed.

Lemma write_row_step rs t id a c u f : IsBuiltin a = false →
  (∀ old, t !! id = Some old → IsBuiltin old = false) →
  table_step rs t (write_row t id (to_row jsonb a id c u) f).1.
Proof.
  intros Hb Hold. unfold write_row. destruct (to_row _ _ _ _ _) as [r|] eqn:Er; [|constructor].
  destruct (name_taken _ _ _) eqn:En; [constructor|].
  pose proof (to_row_fields _ _ _ _ _ Er) as (_ & _ & Hrb & _).
  assert (table_step rs t (<[id:=r]> t)) by (eapply ts_insert; eauto; congruence).
  destruct f; simpl; [done|constructor|done].
Qed.

Lemma UpdateAgentDefinition_step rs t id upd now f1 f : IsBuiltin upd = false →
  (∀ old, t !! id = Some old → IsBuiltin old = false) →
  table_step rs t (UpdateAgentDefinition jsonb t id upd now f1 f).1.
Proof.
  intros Hb Hold. unfold UpdateAgentDefinition, GetAgentDefinition. destruct f1; [constructor|].
  destruct (t !! id) as [old|] eqn:E; [|constructor]. rewrite <- E in Hold.
  pose proof (write_row_step rs t id upd (CreatedAt old) now f Hb ltac:(naive_solver)) as H.
  destruct (write_row _ _ _ _) as [t' []]; exact H.
Qed.

Lemma CreateAgentDefinition_step rs t a id now f : IsBuiltin a = false →
  table_step rs t (CreateAgentDefinition jsonb t a id now f).1.
Proof.
  intros Hb. unfold CreateAgentDefinition. destruct (t !! id) eqn:E; [constructor|]. apply write_row_step; [done|]. by rewrite E.
Qed.

Lemma CreateAgentRun_grows t k a s sid src id now f :
  t ⊆ (Runs.CreateAgentRun t k a s sid src id now f).1.
Proof.
  unfold Runs.CreateAgentRun. case_match eqn:Hc; [|done].
  apply andb_true_iff in Hc as [[[Hn%bool_decide_eq_true _]%andb_true_iff _]%andb_true_iff _].
  destruct f; simpl; [|done|]; by apply insert_subseteq.
Qed.

Lemma create_run_spec w a sat session src e w' r :
  create_run w a sat session src e = (w', r) →
  agents w' = agents w ∧ versions w' = versions w ∧ api w' = api w ∧ runs w ⊆ runs w'.
Proof.
  unfold create_run. destruct (Runs.CreateAgentRun _ _ _ _ _ _ _ _ _) as [t x] eqn:E. intros [= <- <-].
  split_and!; try done. pose proof (CreateAgentRun_grows (runs w) (refs_of w) a sat (Some session) src (new_id e) (now e) (f_run e)) as H.
  by rewrite E in H.
Qed.

Lemma session_for_spec w agent sat s e w' r :
  session_for w agent sat s e = (w', r) →
  agents w' = agents w ∧ versions w' = versions w ∧ runs w' = runs w.
Proof.
  unfold session_for. destruct (_ ≫= _) as [x|]; [by intros [= <- _]|].
  destruct (CreateSession _ _ _) as [d [err|]]; by intros [= <- _].
Qed.

Lemma dispatch_deploy_spec h w agent sat session rq w' :
  dispatch_deploy h w agent sat session rq = Ret w' →
  agents w' = agents w ∧ versions w' = versions w ∧ runs w' = runs w.
Proof.
  unfold dispatch_deploy, send. destruct (deploy_config _ _); [|done]. cbn [mbind go_bind].
  destruct (streamRegistry h); [|by intros [= <-]].
  destruct (Registry.SendToSatellite _ _ _ _) as [[o ok]|]; [|done]. by intros [= <-].
Qed.

Lemma audit_moves h w w' a id : moves w w' → moves w (audit h w' a id).
Proof. unfold audit. by destruct (auditLogger h). Qed.

Lemma set_agents_moves w t : table_step (runs w) (agents w) t → moves w (set_agents w t).
Proof. intros Ht. unfold moves. by split_and!. Qed.

Lemma create_moves h w req e : moves w (HandleCreateAgent h w req e).1.
Proof.
  unfold HandleCreateAgent. destruct (dbPool h); [|apply moves_refl].
  destruct req as [rq|]; [|apply moves_refl]. destruct (create_objection rq); [apply moves_refl|].
  cbn [negb]. pose proof (CreateAgentDefinition_step (runs w) (agents w) (new_agent rq) (new_id e) (now e) (f_row e) eq_refl) as Hs.
  destruct (CreateAgentDefinition _ _ _ _ _ _) as [t [a|[]]];
    [apply audit_moves|..]; by apply set_agents_moves.
Qed.

Lemma snapshot_before_spec w id e :
  agents (snapshot_before w id e) = agents w ∧ runs (snapshot_before w id e) = runs w ∧
  (snapshots_ok (versions w) → snapshots_ok (versions (snapshot_before w id e))).
Proof.
  unfold snapshot_before, GetAgentDefinition. destruct (f_get e 0); [done|].
  destruct (agents w !! id) as [a|]; [|done]. split_and!; try done. cbn [set_versions versions].
  intros Hok. unfold CreateAgentVersion. destruct (versions w !! _); [done|].
  destruct (f_version e); try done; intros k v [[<- <-]|[_ Hv]]%lookup_insert_Some; eauto.
Qed.

Lemma update_moves h w id req e : moves w (HandleUpdateAgent h w id req e).1.
Proof.
  unfold HandleUpdateAgent. destruct (dbPool h); [|apply moves_refl].
  destruct (uuid_Parse id) as [n|]; [|apply moves_refl]. cbn [negb].
  destruct (snapshot_before_spec w n e) as (Ha & Hr & Hv).
  assert (moves w (snapshot_before w n e)) as Hm.
  { unfold moves. split_and!; [rewrite Ha; constructor|done|by rewrite Hr]. }
  set (w0 := snapshot_before w n e) in *. clearbody w0.
  destruct (GetAgentDefinition (agents w0) n (f_get e 1)) as [[old|]|] eqn:Eg; [|done|done].
  destruct (IsBuiltin old) eqn:Hb; [done|]. destruct req as [rq|]; [|done].
  destruct (update_objection rq); [done|].
  assert (agents w0 !! n = Some old) as Hold.
  { revert Eg. unfold GetAgentDefinition. destruct (f_get e 1); [done|]. by intros [= ->]. }
  pose proof (UpdateAgentDefinition_step (runs w) (agents w0) n (updated_agent rq old) (now e) (f_get e 2) (f_row e)
    Hb ltac:(intros; congruence)) as Hs.
  rewrite Ha in Hs at 1. destruct Hm as (_ & Hv' & Hr').
  destruct (UpdateAgentDefinition _ _ _ _ _ _ _) as [t [u|err]]; [apply audit_moves|]; unfold moves; by split_and!.
Qed.

Lemma delete_moves h w id e : moves w (HandleDeleteAgent h w id e).1.
Proof.
  unfold HandleDeleteAgent, with_agent. destruct (dbPool h); [|apply moves_refl].
  destruct (uuid_Parse id) as [n|]; [|apply moves_refl]. unfold GetAgentDefinition.
  destruct (f_get e 0); [apply moves_refl|]. destruct (agents w !! n) as [old|] eqn:Hold; [|apply moves_refl].
  cbn [negb]. destruct (IsBuiltin old) eqn:Hb; [apply moves_refl|].
  assert (moves w (delete_row w n e).1) as Hm.
  { unfold delete_row. destruct (_ || _) eqn:Eref; [destruct (agents w !! n); apply moves_refl|].
    apply orb_false_iff in Eref as [_ Hno%bool_decide_eq_false].
    assert (moves w (set_versions (set_agents w (delete n (agents w)))
      (filter (λ p, p.1.1 ≠ n) (versions w)))) as Hd.
    { unfold moves. split_and!; [constructor; [intros; congruence|intros r a Hr Heq; apply Hno; by exists r, a]| |done].
      intros Hok k v [Hv _]%map_lookup_filter_Some. by apply (Hok k). }
    destruct (f_row e); [done|apply moves_refl|done]. }
  destruct (delete_row w n e) as [w' []]; [by apply audit_moves|done].
Qed.

Lemma rollback_moves h w id req e : moves w (HandleRollbackAgent h w id req e).1.
Proof.
  unfold HandleRollbackAgent, with_agent. destruct (dbPool h); [|apply moves_refl].
  destruct (uuid_Parse id) as [n|]; [|apply moves_refl]. unfold GetAgentDefinition.
  destruct (f_get e 0); [apply moves_refl|]. destruct (agents w !! n) as [old|] eqn:Hold; [|apply moves_refl].
  cbn [negb]. destruct (IsBuiltin old) eqn:Hb; [apply moves_refl|].
  destruct req as [v|]; [|apply moves_refl]. destruct (String.eqb v ""); [apply moves_refl|].
  destruct (GetAgentVersion _ _ _ _) as [[av|]|]; [|apply moves_refl..].
  destruct (snapshotData old (v_Snapshot av)) as [upd|] eqn:Es; [|apply moves_refl].
  assert (IsBuiltin upd = false) as Hub.
  { revert Es. unfold snapshotData, unmarshal. destruct (v_Snapshot av); try done; [by intros [= <-]|].
    unfold field, struct. repeat (match goal with |- context [decode_field ?n ?d ?z ?o] =>
      destruct (decode_field n d z o) as [? ?] end; cbn beta iota).
    case_match; [done|]. by intros [= <-]. }
  pose proof (UpdateAgentDefinition_step (runs w) (agents w) n upd (now e) (f_get e 2) (f_row e)
    Hub ltac:(intros; congruence)) as Hs.
  destruct (UpdateAgentDefinition _ _ _ _ _ _ _) as [t [[u|]|err]]; [apply audit_moves|..];
    by apply set_agents_moves.
Qed.

Lemma deploy_moves h w id req e : moves w (HandleDeployAgent h w id req e).1.
Proof.
  unfold HandleDeployAgent. destruct (dbPool h); [|apply moves_refl].
  destruct (uuid_Parse id) as [n|]; [|apply moves_refl]. cbn [negb].
  destruct (GetAgentDefinition _ _ _) as [[agent|]|]; [|apply moves_refl..].
  destruct req as [rq|]; [|apply moves_refl].
  destruct (choose_satellite _ _ _ _ _) as [[[sat d] score]|]; [|apply moves_refl].
  destruct (satellite_objection _ _ _); [apply moves_refl|].
  destruct (session_for _ _ _ _ _) as [w1 r1] eqn:E1. apply session_for_spec in E1 as (Ha1 & Hv1 & Hr1).
  destruct r1 as [session|err]; [|by apply moves_same; cbn; rewrite ?Hr1].
  destruct (create_run _ _ _ _ _ _) as [w2 r2] eqn:E2. apply create_run_spec in E2 as (Ha2 & Hv2 & _ & Hr2).
  rewrite Ha1 in Ha2. rewrite Hv1 in Hv2. rewrite Hr1 in Hr2.
  destruct r2 as [r|]; [|by apply moves_same].
  destruct (dispatch_deploy _ _ _ _ _ _) as [w3|] eqn:E3; [|by apply moves_same].
  apply dispatch_deploy_spec in E3 as (Ha3 & Hv3 & Hr3).
  apply audit_moves, moves_same; [congruence..|cbn; by rewrite Hr3].
Qed.

Lemma run_agent_moves h w a sat src e : moves w (RunAgent h w a sat src e).1.
Proof.
  unfold RunAgent. destruct (dbPool h); [|apply moves_refl]. cbn [negb].
  destruct (GetAgentDefinition _ _ _) as [[agent|]|]; [|apply moves_refl..].
  destruct (create_run _ _ _ _ _ _) as [w1 r1] eqn:E1. apply create_run_spec in E1 as (Ha1 & Hv1 & _ & Hr1).
  destruct r1 as [r|]; [|by apply moves_same]. destruct (streamRegistry h); [|by apply moves_same].
  unfold send. destruct (Registry.SendToSatellite _ _ _ _) as [[o []]|]; by apply moves_same.
Qed.

(** ** Properties *)

(** The rows of the table: the key, the constraints, unique names. *)
Definition table_ok (t : table) : Prop :=
  (∀ id a, t !! id = Some a → ID a = id ∧ is_Some (Guardrails a) ∧
     (Type_ a = "specialist" ∨ Type_ a = "autonomous")) ∧
  (∀ i j a b, t !! i = Some a → t !! j = Some b → Name a = Name b → i = j).

Lemma name_taken_spec t id name : name_taken t id name = false →
  ∀ j a, t !! j = Some a → Name a = name → j = id.
Proof.
  unfold name_taken. intros Hf j a Hj Hn. destruct (decide (j = id)) as [|Hne]; [done|].
  apply not_true_iff_false in Hf. destruct Hf. apply existsb_exists. exists (j, a). split.
  - by apply list_elem_of_In, elem_of_map_to_list.
  - apply N.eqb_neq in Hne. simpl. rewrite Hne, Hn. by rewrite String.eqb_refl.
Qed.

Lemma table_step_ok rs t t' : table_step rs t t' → table_ok t → table_ok t'.
Proof.
  intros [|id a row c u Hr Hn Hb Hold|id Hold _] [Hrow Huniq]; [done|..].
  - apply to_row_fields in Hr as (Hid & Hname & _ & Hg & Ht). split.
    + intros i b [[<- <-]|[_ Hi]]%lookup_insert_Some; eauto.
    + intros i j b1 b2 Hi Hj Heq. pose proof (name_taken_spec _ _ _ Hn) as Htaken.
      apply lookup_insert_Some in Hi as [[<- <-]|[Hne Hi]], Hj as [[<- <-]|[Hne' Hj]]; try done.
      * by rewrite (Htaken j b2 Hj).
      * by rewrite (Htaken i b1 Hi).
      * by eapply Huniq.
  - split.
    + intros i b [_ Hi]%lookup_delete_Some. eauto.
    + intros i j b1 b2 [_ Hi]%lookup_delete_Some [_ Hj]%lookup_delete_Some. by apply Huniq.
Qed.

(** What a step does to one built-in row, and to the agent of a run. *)
Lemma table_step_builtin rs t t' id a : table_step rs t t' → IsBuiltin a = true → t' !! id = Some a ↔ t !! id = Some a.
Proof.
  intros Ht Hb. destruct Ht as [|i x row c u Hr Hn Hbr Hold|i Hold _]; [done|..].
  - rewrite lookup_insert_Some. split; [intros [[_ <-]|[_ ?]]; [congruence|done]|].
    intros Hi. right. split; [|done]. intros ->. apply Hold in Hi. congruence.
  - rewrite lookup_delete_Some. split; [by intros [_ ?]|]. intros Hi. split; [|done].
    intros ->. apply Hold in Hi. congruence.
Qed.
Lemma table_step_run rs t t' r a : table_step rs t t' → rs !! r = Some a →
  is_Some (t !! Runs.AgentID a) → is_Some (t' !! Runs.AgentID a).
Proof.
  intros Ht Hr Ha. destruct Ht as [|i x row c u _ _ _ _|i _ Hno]; [done|..].
  - rewrite lookup_insert_is_Some'. by right.
  - rewrite lookup_delete_ne; [done|]. intros ->. by eapply Hno.
Qed.
Lemma delete_with_run h w r a id e : runs w !! r = Some a → uuid_Parse id = Some (Runs.AgentID a) →
  status (HandleDeleteAgent h w id e).2 ≠ 200.
Proof.
  intros Hr Hid. unfold HandleDeleteAgent, with_agent. destruct (dbPool h); [|done]. rewrite Hid. cbn [negb].
  unfold GetAgentDefinition. destruct (f_get e 0); [done|].
  destruct (agents w !! Runs.AgentID a) as [old|] eqn:Hold; [|done]. destruct (IsBuiltin old); [done|].
  unfold delete_row. rewrite (bool_decide_eq_true_2 (map_Exists _ _)), orb_true_r, Hold; [done|]. by exists r, a.
Qed.

(** A snapshot never has what a rollback needs. *)
Lemma snapshotData_marshal old a : ∃ u, snapshotData old (marshal_agent a) = Some u ∧ ToolsConfig u = ""%string.
Proof.
  destruct a as [i n d [de|] ve ty ca [ic|] pr mo sp tc [gu|] [sc|] [tr|] [ou|] ro bu en cr up];
    eexists; (split; [vm_compute; reflexivity|reflexivity]).
Qed.

Lemma rollback_refused h w id req e : jsonb "" = None → snapshots_ok (versions w) →
  status (HandleRollbackAgent h w id req e).2 ≠ 200 ∧ agents (HandleRollbackAgent h w id req e).1 = agents w.
Proof.
  intros Hj Hok. unfold HandleRollbackAgent, with_agent.
  destruct (dbPool h); [|done]. destruct (uuid_Parse id) as [n|]; [|done]. unfold GetAgentDefinition.
  destruct (f_get e 0); [done|]. destruct (agents w !! n) as [old|] eqn:Hold; [|done]. cbn [negb].
  destruct (IsBuiltin old); [done|]. destruct req as [v|]; [|done]. destruct (String.eqb v ""); [done|].
  unfold GetAgentVersion. destruct (f_get e 1); [done|]. destruct (versions w !! (n, v)) as [av|] eqn:Hav; [|done].
  destruct (Hok _ _ Hav) as [a ->]. destruct (snapshotData_marshal old a) as (u & -> & Hu).
  unfold UpdateAgentDefinition, GetAgentDefinition. destruct (f_get e 2); [done|]. rewrite Hold.
  unfold to_row. rewrite Hu, Hj. done.
Qed.

(** A scheduled run never starts: RunAgent records a run in a session that it
    never creates, which the foreign key refuses. Nothing is sent, nothing is
    recorded. *)
Theorem scheduled_runs_fail h w agentID satelliteID source e :
  new_session e ∉ dom (sessions (SessionApi.db (api w))) →
  ∃ err, RunAgent h w agentID satelliteID source e = (w, Ret (Some err)).
Proof.
  intros Hs. unfold RunAgent. destruct (dbPool h); [|by eexists]. cbn [negb].
  destruct (GetAgentDefinition _ _ _) as [[agent|]|]; [|by eexists..].
  unfold create_run, Runs.CreateAgentRun, refs_of. cbn [Runs.sess].
  rewrite (bool_decide_eq_false_2 (_ ∈ dom (sessions _)) Hs), andb_false_r. exists CreateRunFailed.
  by destruct w.
Qed.

(** ** The configuration of a deployment *)

Lemma foldl_assign l (m : config) :
  foldl (λ m kv, <[kv.1 := kv.2]> m) m l = list_to_map (reverse l) ∪ m.
Proof.
  revert m. induction l as [|[k v] l IH]; intros m; cbn [foldl].
  { change (m = ∅ ∪ m). by rewrite (left_id_L ∅ (∪)). }
  rewrite IH, reverse_cons. cbn [fst snd].
  rewrite list_to_map_app. cbn [list_to_map foldr uncurry].
  rewrite <- (assoc_L (∪)). f_equal. change (list_to_map [(k, v)]) with (<[k := v]> (∅ : config)).
  by rewrite <- insert_union_l, (left_id_L ∅ (∪)).
Qed.

Definition own_entries (agent : AgentDefinition) : list (string * string) :=
  agent_fields agent ++ from_option guardrail_entries [] (guardrails_of agent) ++ tool_entries agent.

Lemma when_sublist b k v : (when b (k, v)).*1 `sublist_of` [k].
Proof. destruct b; simpl; [done|apply sublist_nil_l]. Qed.

Lemma own_entries_NoDup agent : NoDup (own_entries agent).*1.
Proof.
  apply sublist_NoDup with (["provider"; "model"; "system_prompt"]%string ++
    ["guardrails.read_only"; "guardrails.timeout_minutes"; "guardrails.max_tool_calls";
     "guardrails.max_turns"; "guardrails.hitl"]%string ++ ["tools.allow"; "tools.deny"]%string).
  { by apply (bool_decide_unpack _). }
  unfold own_entries. rewrite !fmap_app. repeat apply sublist_app.
  - unfold agent_fields. rewrite !fmap_app.
    change ["provider"; "model"; "system_prompt"]%string with (["provider"]%string ++ ["model"]%string ++ ["system_prompt"]%string).
    repeat apply sublist_app; apply when_sublist.
  - destruct (guardrails_of agent) as [gr|]; [|apply sublist_nil_l]. cbn [from_option].
    unfold guardrail_entries. rewrite !fmap_app.
    change ["guardrails.read_only"; "guardrails.timeout_minutes"; "guardrails.max_tool_calls";
     "guardrails.max_turns"; "guardrails.hitl"]%string with (["guardrails.read_only"]%string ++
      ["guardrails.timeout_minutes"]%string ++ ["guardrails.max_tool_calls"]%string ++ ["guardrails.max_turns"]%string ++
      ["guardrails.hitl"]%string).
    repeat apply sublist_app; try apply when_sublist. destruct (timeout_minutes gr); [done|apply sublist_nil_l].
  - unfold tool_entries. destruct (String.eqb _ _); [apply sublist_nil_l|].
    destruct (unmarshal _ _) as [tc|]; [|apply sublist_nil_l]. rewrite fmap_app.
    change ["tools.allow"; "tools.deny"]%string with (["tools.allow"]%string ++ ["tools.deny"]%string).
    apply sublist_app; [destruct (Allow tc)|destruct (Deny tc)]; done || apply sublist_nil_l.
Qed.

Definition own_config (agent : AgentDefinition) : config := list_to_map (own_entries agent).

Lemma deploy_config_spec agent overrides m : tools_map agent = Some m →
  deploy_config agent overrides = Ret (Some (own_config agent ∪ overrides ∪ m)).
Proof.
  intros Hm. unfold deploy_config. rewrite Hm. set (l := map_to_list overrides ++ _).
  assert (assign (Some m) l = Ret (Some (foldl (λ m kv, <[kv.1:=kv.2]> m) m l))) as -> by by destruct l.
  rewrite foldl_assign. unfold l, own_config. fold (own_entries agent).
  rewrite reverse_app, list_to_map_app. do 4 f_equal.
  - apply list_to_map_proper; [|by rewrite reverse_Permutation].
    rewrite reverse_Permutation. apply own_entries_NoDup.
  - rewrite <- (list_to_map_to_list overrides) at 2. apply list_to_map_proper; [|by rewrite reverse_Permutation].
    rewrite reverse_Permutation. apply NoDup_fst_map_to_list.
Qed.

(** ** Walking through the listing *)

(** A client that follows the cursors, for at most [n] pages. *)
Fixpoint fetch_all (h : AgentHandler) (w : World) (limit : Z) (fl : AgentFilter) (e : env) (n : nat)
    (cursor : string) : go (list AgentDefinition) :=
  match n with
  | O => Ret []
  | S n' =>
      r ← HandleListAgents h w (SessionApi.mkParams cursor limit) fl e;
      match body r.2 with
      | BAgents page _ _ None => Ret page
      | BAgents page _ _ (Some c) => rest ← fetch_all h w limit fl e n' c; Ret (page ++ rest)
      | _ => Ret []
      end
  end.

Lemma first_page limit all : 1 <= limit →
  agents_page (SessionApi.mkParams "" limit) all = Ret (take (Z.to_nat limit) all).
Proof.
  intros Hl. unfold agents_page, slice. cbn [SessionApi.Cursor SessionApi.Limit String.eqb negb].
  rewrite !(proj2 (Z.leb_le _ _)) by lia. cbn [andb]. f_equal. rewrite drop_0.
  destruct (Z.le_gt_cases limit (Z.of_nat (length all))).
  - f_equal. lia.
  - rewrite !take_ge by lia. done.
Qed.

Lemma list_find_nth (P : AgentDefinition → Prop) `{∀ a, Decision (P a)} l i a :
  l !! i = Some a → P a → (∀ j b, l !! j = Some b → P b → j = i) → list_find P l = Some (i, a).
Proof.
  intros Hi Hp Hu. apply list_find_Some. split_and!; [done|done|].
  intros j b Hj Hlt Hb. specialize (Hu j b Hj Hb). lia.
Qed.

Lemma cursor_page limit all i a : 1 <= limit → Inj (=) (=) uuid_String → (∀ n, uuid_String n ≠ ""%string) →
  NoDup (ID <$> all) → all !! i = Some a →
  agents_page (SessionApi.mkParams (uuid_String (ID a)) limit) all =
    Ret (take (Z.to_nat limit - 1) (drop (S i) all)).
Proof.
  intros Hl Hinj Hne Hnd Hi. unfold agents_page. cbn [SessionApi.Cursor SessionApi.Limit].
  pose proof (Hne (ID a)) as Ha. apply String.eqb_neq in Ha as ->. cbn [negb].
  rewrite (list_find_nth (λ b, uuid_String (ID b) = uuid_String (ID a)) all i a Hi eq_refl).
  2:{ intros j b Hj Hb%Hinj. eapply NoDup_lookup; [exact Hnd|rewrite list_lookup_fmap, Hj; simpl; by rewrite Hb|].
      by rewrite list_lookup_fmap, Hi. }
  pose proof (lookup_lt_Some _ _ _ Hi) as Hlt. unfold slice.
  rewrite !(proj2 (Z.leb_le _ _)) by lia. cbn [andb]. f_equal.
  replace (Z.to_nat (Z.of_nat i + 1)) with (S i) by lia.
  destruct (Z.le_gt_cases (Z.of_nat i + limit) (Z.of_nat (length all))).
  - f_equal. lia.
  - rewrite !take_ge by (rewrite length_drop; lia). done.
Qed.

Context (arrange_perm : ∀ l, arrange l ≡ₚ l).

Lemma listing_NoDup t fl all : table_ok t →
  ListAgentDefinitions collation arrange t fl QueryOk = Ok all → NoDup (ID <$> all).
Proof.
  intros [Hrow _] [= <-]. rewrite merge_sort_Permutation, arrange_perm.
  apply sublist_NoDup with (ID <$> (map_to_list t).*2); [|apply fmap_sublist, sublist_filter].
  assert (ID <$> (map_to_list t).*2 = (map_to_list t).*1) as ->; [|apply NoDup_fst_map_to_list].
  rewrite <- list_fmap_compose. apply list_fmap_ext. intros k [id a] Hk. simpl.
  apply list_elem_of_lookup_2, elem_of_map_to_list in Hk. by apply Hrow.
Qed.

Lemma fetch_step h w limit fl e n cursor all : dbPool h = true → f_query e = QueryOk →
  ListAgentDefinitions collation arrange (agents w) fl QueryOk = Ok all →
  fetch_all h w limit fl e (S n) cursor =
    (page ← agents_page (SessionApi.mkParams cursor limit) all;
     match next_cursor (SessionApi.mkParams cursor limit) page with
     | None => Ret page
     | Some c => rest ← fetch_all h w limit fl e n c; Ret (page ++ rest)
     end).
Proof.
  intros Hdb Hq Hall. cbn [fetch_all]. unfold HandleListAgents. rewrite Hdb, Hq, Hall. cbn [negb].
  by destruct (agents_page _ _).
Qed.

(** Paging stops too early: every page after a cursor is one agent short, which
    the handler takes for the end. A client that follows the cursors, however
    long, sees the first 2·limit - 1 agents and no others. *)
Theorem agents_listing_cut h w limit fl e n all :
  Inj (=) (=) uuid_String → (∀ n, uuid_String n ≠ ""%string) →
  dbPool h = true → f_query e = QueryOk → 1 <= limit → (2 <= n)%nat → table_ok (agents w) →
  ListAgentDefinitions collation arrange (agents w) fl QueryOk = Ok all →
  fetch_all h w limit fl e n "" = Ret (take (Z.to_nat (2 * limit - 1)) all).
Proof.
  intros Hinj Hne Hdb Hq Hl Hn Hok Hall. pose proof (listing_NoDup _ _ _ Hok Hall) as Hnd.
  destruct n as [|[|n]]; [lia|lia|]. rewrite (fetch_step _ _ _ _ _ _ _ all), first_page by done.
  cbn [mbind go_bind]. unfold next_cursor at 1. cbn [SessionApi.Limit]. rewrite length_take.
  destruct (Z.leb_spec limit (Z.of_nat (Z.to_nat limit `min` length all))) as [Hle|Hgt]; cycle 1.
  { rewrite !take_ge by lia. done. }
  assert (∃ a, all !! (Z.to_nat limit - 1)%nat = Some a) as [a Ha] by (apply lookup_lt_is_Some; lia).
  assert (last (take (Z.to_nat limit) all) = Some a) as ->.
  { rewrite last_lookup, length_take, lookup_take_lt by lia. rewrite <- Ha. f_equal. lia. }
  cbn [fmap option_fmap option_map]. rewrite (fetch_step _ _ _ _ _ _ _ all) by done.
  rewrite (cursor_page limit all _ a) by done. cbn [mbind go_bind].
  unfold next_cursor. cbn [SessionApi.Limit]. rewrite length_take.
  destruct (Z.leb_spec limit (Z.of_nat ((Z.to_nat limit - 1) `min` length (drop (S (Z.to_nat limit - 1)) all)))); [lia|].
  cbn [mbind go_bind]. f_equal. replace (S (Z.to_nat limit - 1)) with (Z.to_nat limit) by lia.
  replace (Z.to_nat (2 * limit - 1)) with (Z.to_nat limit + (Z.to_nat limit - 1))%nat by lia.
  rewrite <- (take_drop (Z.to_nat limit) all) at 3.
  by rewrite take_app_add' by (rewrite length_take; lia).
Qed.

(** ** What a deployment leaves *)

(** The run of this request: recorded as running, in a session that exists. *)
Definition run_recorded (w w' : World) (agent sat session : N) (e : env) : Prop :=
  ∃ r, runs w !! new_id e = None ∧ runs w' !! new_id e = Some r ∧ Runs.Status r = "running" ∧
    Runs.AgentID r = agent ∧ Runs.SatelliteID r = sat ∧ Runs.SessionID r = Some session ∧
    session ∈ dom (sessions (SessionApi.db (api w'))).

(** The message of a deployment. *)
Definition deploy_message (agent : AgentDefinition) (session : N) (rq : DeployAgentRequest)
    (c : option config) : NexusMessage :=
  DeployAgentCommand (uuid_String session) (agent_proto agent c) (dr_Secrets rq).

Lemma create_run_Some w a sat session src e w' r : create_run w a sat session src e = (w', Some r) →
  Runs.ID r = new_id e ∧ run_recorded w w' a sat session e ∧ api w' = api w.
Proof.
  unfold create_run, Runs.CreateAgentRun. destruct (_ && _ && _ && _) eqn:Hc; [|done].
  apply andb_true_iff in Hc as [[[Hn%bool_decide_eq_true _]%andb_true_iff _]%andb_true_iff Hs%bool_decide_eq_true].
  destruct (f_run e); try done. intros [= <- <-]. split; [done|]. split; [|done].
  eexists. split_and!; [done|by apply lookup_insert_eq|done..].
Qed.

(** A deployment that gets as far as recording a run answers 201 or panics. The
    run is recorded as running in either case; 201 does not mean that the
    command was queued: the registry's answer is ignored. What is queued carries
    the agent's own settings before those of the request, and those before the
    tools configuration of the definition. *)
Theorem deploy_outcome h w id rq e n agent :
  dbPool h = true → uuid_Parse id = Some n → agents w !! n = Some agent → f_get e 0 = false →
  match HandleDeployAgent h w id (Some rq) e with
  | (w', Ret r) =>
      status r = 201 →
      ∃ sat session c, run_recorded w w' n sat session e ∧
        deploy_config agent (dr_Config rq) = Ret c ∧
        (∀ m, tools_map agent = Some m → c = Some (own_config agent ∪ dr_Config rq ∪ m)) ∧
        (if streamRegistry h then
           ∃ queued, Registry.SendToSatellite (SessionApi.registry (api w)) (SessionApi.outbox (api w))
             (uuid_String sat) (deploy_message agent session rq c) =
             Ret (SessionApi.outbox (api w'), queued)
         else SessionApi.outbox (api w') = SessionApi.outbox (api w))
  | (w', Panic) => ∃ sat session, run_recorded w w' n sat session e
  end.
Proof.
  clear arrange_perm arrange arrange_versions arrange_runs collation jsonb time_text.
  intros Hdb Hid Ha Hf. unfold HandleDeployAgent. rewrite Hdb, Hid. cbn [negb]. unfold GetAgentDefinition.
  rewrite Hf, Ha. destruct (choose_satellite _ _ _ _ _) as [[[sat d] score]|[st msg]] eqn:Ec.
  2:{ cbn. intros ->. revert Ec. unfold choose_satellite. by repeat case_match. }
  destruct (satellite_objection _ _ _) as [[st msg]|] eqn:Eo.
  { cbn. intros ->. revert Eo. unfold satellite_objection. by repeat case_match. }
  destruct (session_for _ _ _ _ _) as [w1 [session|[st msg]]] eqn:E1.
  2:{ cbn. intros ->. revert E1. unfold session_for. by repeat case_match. }
  pose proof (session_for_spec _ _ _ _ _ _ _ E1) as (Ha1 & _ & Hr1).
  assert (SessionApi.registry (api w1) = SessionApi.registry (api w) ∧
          SessionApi.outbox (api w1) = SessionApi.outbox (api w)) as [Hreg Hout].
  { revert E1. unfold session_for. repeat case_match; by intros [= <-]. }
  destruct (create_run _ _ _ _ _ _) as [w2 [r|]] eqn:E2; [|done].
  apply create_run_Some in E2 as (_ & (x & Hn & Hx) & Hapi). rewrite Hr1 in Hn.
  destruct (dispatch_deploy _ _ _ _ _ _) as [w3|] eqn:E3; [|by exists sat, session, x].
  intros _. exists sat, session. revert E3. unfold dispatch_deploy.
  destruct (deploy_config agent (dr_Config rq)) as [c|] eqn:Edc; [|done]. cbn [mbind go_bind].
  intros E3. exists c.
  assert (∀ w4 a b, api (audit h w4 a b) = SessionApi.add_audit (api w4) (a, b) ∨ api (audit h w4 a b) = api w4)
    as Haud by (intros; unfold audit; destruct (auditLogger h); auto).
  assert (∀ w4 a b, runs (audit h w4 a b) = runs w4) as Haudr by (intros; unfold audit; by destruct (auditLogger h)).
  assert (SessionApi.db (api w3) = SessionApi.db (api w2) ∧ runs w3 = runs w2 ∧
    (if streamRegistry h then ∃ queued, Registry.SendToSatellite (SessionApi.registry (api w)) (SessionApi.outbox (api w))
             (uuid_String sat) (deploy_message agent session rq c) = Ret (SessionApi.outbox (api w3), queued)
     else SessionApi.outbox (api w3) = SessionApi.outbox (api w))) as (Hdb3 & Hr3 & Hs3).
  { revert E3. unfold send, deploy_message. rewrite Hapi, Hreg, Hout. destruct (streamRegistry h).
    - destruct (Registry.SendToSatellite _ _ _ _) as [[o ok]|]; [|done]. cbn. intros [= <-]. split_and!; [by rewrite ?Hapi|done|eauto].
    - intros [= <-]. by rewrite ?Hapi. }
  split_and!.
  - exists x. rewrite Haudr, Hr3. destruct (Haud w3 "agent.deploy" id)%string as [->| ->]; cbn; rewrite Hdb3; tauto.
  - done.
  - intros m Hm. rewrite (deploy_config_spec _ _ _ Hm) in Edc. congruence.
  - destruct (streamRegistry h), (Haud w3 "agent.deploy" id)%string as [->| ->]; exact Hs3.
Qed.
End Handlers.

(** ** Examples *)

(** A server with one satellite and one agent; the columns accept any text but
    the empty one. *)
Definition demo_jsonb (s : string) : option string := if String.eqb s "" then None else Some s.
Definition demo_parse (s : string) : option json :=
  if String.eqb s "{}" then Some (JObject [])
  else if String.eqb s "null" then Some JNull
  else if String.eqb s "tools" then Some (JObject [("deny", JArray [JString "rm"]); ("x", JString "1")])%string
  else if String.eqb s "guards" then Some (JObject [("read_only", JBool true); ("timeout", JInt 30)])%string
  else None.
Definition demo_agent (tools : string) : AgentDefinition :=
  mkAgent 7 "scan" "Scan" None "1.0.0" "specialist" "security" None "openai" "gpt" "look" tools
    (Some "guards"%string) None None None None false false 0 0.
Definition demo_api : SessionApi.World :=
  SessionApi.mkWorld SessionApi.demo_db {[1%N := Dispatch.demo_sat "box" ∅]}
    (SessionApi.registry SessionApi.demo_world) (SessionApi.outbox SessionApi.demo_world)
    (SessionApi.pool SessionApi.demo_world) [] [].
Definition demo_world (tools : string) : World := mkWorld demo_api {[7%N := demo_agent tools]} ∅ ∅.
Definition demo_handler : AgentHandler := mkHandler true true true true None.
Definition demo_env : env :=
  mkEnv 9 20 30 40 (λ _, false) false NoFault NoFault NoFault NoFault QueryOk QueryOk 0 [] false.
Definition demo_deploy : DeployAgentRequest :=
  mkDeploy (SessionApi.demo_String 1) None {["guardrails.read_only" := "false"; "k" := "v"]}%string ∅.
Definition agent7 : string := SessionApi.demo_String 7.

Example scheduled_runs_fail_witness : ∃ err,
  RunAgent SessionApi.demo_String demo_parse demo_handler (demo_world "{}") 7 1 "schedule" demo_env =
    (demo_world "{}", Ret (Some err)).
Proof. apply scheduled_runs_fail. by apply (bool_decide_unpack _). Defined.

(** Nine of ten agents are out of reach of a client that asks for one at a time. *)
Definition ten_agents : table :=
  list_to_map ((λ k, (N.of_nat k, mkAgent (N.of_nat k) (Str.Itoa (Z.of_nat k)) "" None "" "specialist" "" None "" "" "" ""
    (Some "{}"%string) None None None None false false 0 0)) <$> seq 0 10).

Lemma ten_agents_ok : table_ok ten_agents.
Proof.
  assert (∀ i a, ten_agents !! i = Some a → i ∈ N.of_nat <$> seq 0 10 ∧
    a = mkAgent i (Str.Itoa (Z.of_N i)) "" None "" "specialist" "" None "" "" "" ""
    (Some "{}"%string) None None None None false false 0 0) as H.
  { intros i a Hi. apply elem_of_list_to_map_2, list_elem_of_fmap in Hi as (k & [= -> ->] & Hk).
    split; [by apply list_elem_of_fmap_2|]. by rewrite nat_N_Z. }
  split.
  - intros i a [_ ->]%H. split_and!; [done|by eexists|by left].
  - intros i j a b [_ ->]%H [_ ->]%H Heq. simpl in Heq. unfold Str.Itoa in Heq.
    apply (inj pretty) in Heq. lia.
Qed.

Example agents_listing_cut_witness :
  match fetch_all SessionApi.demo_String (λ _ _, true) id demo_handler
          (mkWorld demo_api ten_agents ∅ ∅) 1 (mkFilter None None None None) demo_env 100 "" with
  | Ret l => length l = 1%nat
  | Panic => False
  end.
Proof.
  pose proof (eq_refl : ListAgentDefinitions (λ _ _, true) id ten_agents (mkFilter None None None None) QueryOk = Ok _) as E.
  set (all := merge_sort _ _) in E.
  rewrite (agents_listing_cut SessionApi.demo_String (λ _ _, true) id (λ _, reflexivity _) demo_handler
    (mkWorld demo_api ten_agents ∅ ∅) 1 (mkFilter None None None None) demo_env 100 all);
    [|..|exact E]; [|intros a b Hab; apply (f_equal SessionApi.demo_Parse) in Hab;
      rewrite !(proj1 (SessionApi.demo_uuid _)) in Hab; congruence|intros n; apply SessionApi.demo_uuid|
      reflexivity|reflexivity|lia|lia|apply ten_agents_ok].
  assert (length all = 10%nat) as Hl by (vm_compute; reflexivity). clearbody all.
  rewrite length_take, Hl. reflexivity.
Defined.

(** The request cannot lift the agent's guardrail; the command is queued. *)
Example deploy_outcome_witness :
  ∃ w' r c, HandleDeployAgent SessionApi.demo_Parse SessionApi.demo_String demo_parse id id id demo_handler
    (demo_world "tools") agent7 (Some demo_deploy) demo_env = (w', Ret r) ∧ status r = 201 ∧
  deploy_config demo_parse (demo_agent "tools") (dr_Config demo_deploy) = Ret (Some c) ∧
  c !! "guardrails.read_only"%string = Some "true"%string.
Proof.
  pose proof (deploy_outcome SessionApi.demo_Parse SessionApi.demo_String demo_parse id id id demo_handler
    (demo_world "tools") agent7 demo_deploy demo_env 7 (demo_agent "tools") eq_refl eq_refl eq_refl eq_refl) as H.
  destruct (HandleDeployAgent _ _ _ _ _ _ _ _ _ _ _) as [w' [r|]] eqn:E.
  - assert (status r = 201) as Hr by (vm_compute in E; injection E as _ <-; reflexivity).
    destruct (H Hr) as (sat & session & c & _ & Hc & Hown & _).
    rewrite (Hown {["deny" := ""; "x" := "1"]}%string eq_refl) in Hc.
    eexists w', r, _. split_and!; [done|done|exact Hc|reflexivity].
  - vm_compute in E. discriminate E.
Defined.

(** A tools configuration of null makes every deployment panic. *)
Example deploy_null_panics :
  (HandleDeployAgent SessionApi.demo_Parse SessionApi.demo_String demo_parse id id id demo_handler
    (demo_world "null") agent7 (Some demo_deploy) demo_env).2 = Panic.
Proof. reflexivity. Qed.

(** The tags of the documented routing schema are not read. *)
Example routing_tags_ignored :
  unmarshal decode_options (Some (JObject [("mode", JString "auto-dispatch");
    ("require_tags", JArray [JString "gpu"])]))%string = Some (Dispatch.mkOptions "auto-dispatch" [] [] false).
Proof. reflexivity. Qed.

Example agents_route_1 :
  agents_route "/api/v1/agents/a1/deploy" "POST" = CallDeploy "a1" ∧
  agents_route "/api/v1/agents/a1/versions/2" "GET" = CallVersion "a1" "2" ∧
  agents_route "/api/v1/agents/a1/versions/runs" "GET" = CallRuns "a1/versions" ∧
  agents_route "/api/v1/agents/import" "POST" = CallImport ∧
  agents_route "/api/v1/agents/import" "GET" = CallGet "import".
Proof. split_and!; reflexivity. Qed.
End Agents.
