(* ===== verification/AgentExport.v ===== *)
(** * internal/api/agent_import_export.go: agents as portable YAML files, and
    SeedBuiltinAgents of internal/database/agents.go

    The YAML library, the JSON printer and parser and the server's jsonb are
    parameters, and so is the conversion of a number that is no small integer. A
    JSON object is the list of its members; the printer sorts them. *)
From Stdlib Require Import Ascii.
From S2P Require Import Prelude GoStrings Json SessionStore Agents.
Import Store Json Agents.
#[local] Open Scope Z_scope.
#[local] Set Default Proof Using "Type".

Module AgentExport.

Notation object := (list (string * json)).
Record AgentYAMLTools := mkTools { Allow : list string; Deny : list string }.
Record AgentYAMLGuardrails := mkGuardrails { HITL : bool; ReadOnly : bool; TimeoutMinutes : Z; MaxToolCalls : Z }.
(** A value of type interface{} of the schedule or trigger. *)
Inductive iface := INil | IString (s : string) | IMap (o : object) | IOther.
Record AgentYAML := mkYAML {
  y_Name : string; y_DisplayName : string; y_Description : string; y_Version : string; y_Type : string; y_Category : string;
  y_Icon : string; y_Provider : string; y_Model : string; y_SystemPrompt : string;
  y_Tools : option AgentYAMLTools; y_Guardrails : option AgentYAMLGuardrails; y_Output : option object;
  y_Schedule : iface; y_Trigger : iface;
}.

Section Convert.
Variable parse : string → option json.
Variable print : json → string.
(** int(v) of a float64 that is no integer, or a large one. *)
Variable trunc : json → Z.

(** json.Unmarshal into a nil map[string]interface{}. *)
Definition to_map (s : string) : option (option object) :=
  match parse s with Some (JObject o) => Some (Some o) | Some JNull => Some None | _ => None end.
(** m[k]: the last member counts. *)
Definition member (o : object) (k : string) : option json :=
  foldl (λ acc kv, if String.eqb kv.1 k then Some kv.2 else acc) None o.
Definition entry (m : option object) (k : string) : option json := m ≫= λ o, member o k.

Definition sliceIfaceToStrings (l : list json) : list string := (λ v, match v with JString s => s | _ => ""%string end) <$> l.
Definition strings_of (v : option json) : list string :=
  match v with Some (JArray l) => sliceIfaceToStrings l | _ => [] end.
Definition bool_of (v : option json) : bool := match v with Some (JBool b) => b | _ => false end.
Definition exact_float : Z := 2 ^ 53.
Definition int_of (v : option json) : Z :=
  match v with
  | Some (JInt z) => if Z.abs z <=? exact_float then z else trunc (JInt z)
  | Some (JNumber l) => trunc (JNumber l)
  | _ => 0
  end.

(** The text is there, and is not the empty object. *)
Definition worth (s : option string) : option string :=
  match s with Some t => if String.eqb t "" || String.eqb t "{}" then None else Some t | None => None end.
Definition text_or_nil (s : option string) : iface :=
  match s with Some t => if String.eqb t "" || String.eqb t "null" then INil else IString t | None => INil end.

Definition tools_view (s : string) : list string * list string :=
  match worth (Some s) with
  | Some t => match to_map t with Some m => (strings_of (entry m "allow"), strings_of (entry m "deny")) | None => ([], []) end
  | None => ([], [])
  end.
Definition guard_view (s : option string) : option AgentYAMLGuardrails :=
  t ← worth s; m ← to_map t;
  Some (mkGuardrails (bool_of (entry m "hitl")) (bool_of (entry m "read_only")) (int_of (entry m "timeout_minutes"))
          (int_of (entry m "max_tool_calls"))).

Definition convertAgentToYAML (a : AgentDefinition) : AgentYAML :=
  mkYAML (Name a) (DisplayName a) (default "" (Description a)) (Version a) (Type_ a) (Category a) (default "" (Icon a))
    (Provider a) (Model a) (SystemPrompt a)
    (match tools_view (ToolsConfig a) with ([], []) => None | (allow, deny) => Some (mkTools allow deny) end)
    (guard_view (Guardrails a))
    (match worth (OutputConfig a) with Some t => default None (to_map t) | None => None end)
    (text_or_nil (Schedule a)) (text_or_nil (Trigger a)).

Definition nonempty (s : string) : option string := if String.eqb s "" then None else Some s.
Definition iface_text (v : iface) : option string :=
  match v with IString s => nonempty s | IMap o => Some (print (JObject o)) | _ => None end.
Definition tools_json (t : AgentYAMLTools) : object :=
  (match Allow t with [] => [] | l => [("allow"%string, JArray (JString <$> l))] end) ++
  (match Deny t with [] => [] | l => [("deny"%string, JArray (JString <$> l))] end).
Definition tools_text (t : option AgentYAMLTools) : string :=
  match t with
  | Some t => match tools_json t with [] => "{}" | o => print (JObject o) end
  | None => "{}"
  end.
Definition guardrails_json (g : AgentYAMLGuardrails) : object :=
  [("hitl", JBool (HITL g)); ("max_tool_calls", JInt (MaxToolCalls g)); ("read_only", JBool (ReadOnly g));
   ("timeout_minutes", JInt (TimeoutMinutes g))]%string.
Definition convertYAMLToAgent (y : AgentYAML) : AgentDefinition :=
  mkAgent 0 (y_Name y) (y_DisplayName y) (nonempty (y_Description y)) (y_Version y) (y_Type y) (y_Category y) (nonempty (y_Icon y))
    (y_Provider y) (y_Model y) (y_SystemPrompt y) (tools_text (y_Tools y))
    ((λ g, print (JObject (guardrails_json g))) <$> y_Guardrails y)
    (iface_text (y_Schedule y)) (iface_text (y_Trigger y)) ((λ o, print (JObject o)) <$> y_Output y)
    None false false 0 0.

(** ** The handlers *)

Variable yaml_Marshal : AgentYAML → string.
Variable yaml_Unmarshal : string → option AgentYAML.
Variable jsonb : string → option string.
Variable arrange : list AgentDefinition → list AgentDefinition.
Variable uuid_Parse : string → option N.
Variable uuid_String : N → string.

Inductive Body := EError (msg : string) | ENotFound | EFile (name content : string) | EAgent (a : AgentDefinition).
Record Response := mkResponse { status : Z; body : Body }.
Definition refuse (st : Z) (msg : string) : Response := mkResponse st (EError msg).
(** The entry of the audit log: action, id, name. *)
Definition audit_entry : Type := string * string * string.

Definition HandleExportAgent (db audit : bool) (t : table) (agentID : string) (fails : bool) : Response * option audit_entry :=
  if negb db then (refuse 503 "database not configured", None) else
  match uuid_Parse agentID with
  | None => (refuse 400 "invalid agent_id", None)
  | Some id =>
      match GetAgentDefinition t id fails with
      | Err _ => (refuse 500 "failed to get agent", None)
      | Ok None => (refuse 404 "agent not found", None)
      | Ok (Some a) =>
          (mkResponse 200 (EFile (Name a +:+ ".agent.yaml") (yaml_Marshal (convertAgentToYAML a))),
           if audit then Some ("agent.export"%string, agentID, Name a) else None)
      end
  end.

(** What the multipart form holds. *)
Inductive upload := NotAForm | NoFile | Unreadable | File (content : string).
Definition import_objection (y : AgentYAML) : option string :=
  if String.eqb (y_Name y) "" then Some "name is required"%string else
  if String.eqb (y_DisplayName y) "" then Some "display_name is required"%string else
  if String.eqb (y_Provider y) "" then Some "provider is required"%string else
  if String.eqb (y_Model y) "" then Some "model is required"%string else
  if String.eqb (y_SystemPrompt y) "" then Some "system_prompt is required"%string else None.

Record import_env := mkImport { i_id : N; i_now : Z; i_list : query_fault; i_row : fault }.
Definition HandleImportAgent (db audit : bool) (t : table) (u : upload) (e : import_env)
    : table * Response * option audit_entry :=
  if negb db then (t, refuse 503 "database not configured", None) else
  match u with
  | NotAForm => (t, refuse 400 "failed to parse multipart form", None)
  | NoFile => (t, refuse 400 "no file provided in form field 'file'", None)
  | Unreadable => (t, refuse 400 "failed to read file", None)
  | File content =>
      match yaml_Unmarshal content with
      | None => (t, refuse 400 "invalid YAML", None)
      | Some y =>
          match import_objection y with
          | Some msg => (t, refuse 400 msg, None)
          | None =>
              match ListAgentsByName arrange t (y_Name y) (i_list e) with
              | Err _ => (t, refuse 500 "failed to import agent", None)
              | Ok (_ :: _) => (t, refuse 409 "agent with this name already exists", None)
              | Ok [] =>
                  match CreateAgentDefinition jsonb t (convertYAMLToAgent y) (i_id e) (i_now e) (i_row e) with
                  | (t', Err _) => (t', refuse 500 "failed to import agent", None)
                  | (t', Ok created) =>
                      (t', mkResponse 201 (EAgent created),
                       if audit then Some ("agent.import"%string, uuid_String (ID created), Name created) else None)
                  end
              end
          end
      end
  end.

(** ** internal/database/agents.go: the built-in agents *)

Definition builtin (name display desc type category prompt : string) : AgentDefinition :=
  mkAgent 0 name display (Some desc) "1.0.0" type category None "openai" "gpt-4o" prompt "{}" None None None None None true false 0 0.
Definition builtinAgents : list AgentDefinition :=
  [builtin "log-analyzer" "Log Analyzer" "Analyzes system and application logs to identify errors, anomalies, and security incidents. Provides insights into system behavior and helps troubleshoot issues."
     "specialist" "operations" "You are a Log Analyzer agent specialized in parsing and analyzing system logs. You identify error patterns, security incidents, and performance issues.";
   builtin "security-scanner" "Security Scanner" "Scans systems and configurations for security vulnerabilities and compliance issues. Provides recommendations for hardening and remediation."
     "specialist" "security" "You are a Security Scanner agent specialized in identifying security vulnerabilities and compliance issues. You provide actionable recommendations for remediation.";
   builtin "virtual-sysadmin" "Virtual Sysadmin" "A comprehensive system administration assistant that helps with server management, configuration, monitoring, and automation tasks."
     "autonomous" "operations" "You are a Virtual Sysadmin agent that helps manage servers and infrastructure. You can execute system administration tasks, monitor health, and automate operations."].
(** [true]: an error. *)
Fixpoint seed (t : table) (l : list (AgentDefinition * import_env)) : table * bool :=
  match l with
  | [] => (t, false)
  | (a, e) :: l' =>
      match ListAgentsByName arrange t (Name a) (i_list e) with
      | Err _ => (t, true)
      | Ok (_ :: _) => seed t l'
      | Ok [] =>
          match CreateAgentDefinition jsonb t a (i_id e) (i_now e) (i_row e) with
          | (t', Err _) => (t', true)
          | (t', Ok _) => seed t' l'
          end
      end
  end.
Definition SeedBuiltinAgents (t : table) (env : list import_env) : table * bool := seed t (zip builtinAgents env).

(** ** What a trip through a file keeps *)

(** omitempty: an empty map is not written. *)
Definition omit (y : AgentYAML) : AgentYAML :=
  mkYAML (y_Name y) (y_DisplayName y) (y_Description y) (y_Version y) (y_Type y) (y_Category y) (y_Icon y) (y_Provider y) (y_Model y)
    (y_SystemPrompt y) (y_Tools y) (y_Guardrails y) (match y_Output y with Some [] => None | o => o end) (y_Schedule y) (y_Trigger y).

(** Values that come back from the database as they are. *)
Definition flat (v : json) : Prop :=
  match v with
  | JBool _ | JString _ => True
  | JInt z => Z.abs z <= exact_float
  | JArray l => Forall (λ x, match x with JString _ => True | _ => False end) l
  | _ => False
  end.
(** The database takes the printed object and keeps its flat members. *)
Definition keeps (o : object) : Prop :=
  ∃ t o', jsonb (print (JObject o)) = Some t ∧ parse t = Some (JObject o') ∧
    ∀ k v, member o k = v → from_option flat True v → member o' k = v.

Hypothesis parse_empty : parse "{}" = Some (JObject []) ∧ parse "" = None.
Hypothesis jsonb_empty : jsonb "{}" = Some "{}"%string.

Lemma worth_kept t o k v : parse t = Some (JObject o) → member o k = Some v → worth (Some t) = Some t.
Proof using Type parse_empty.
  intros Hp Hm. unfold worth. destruct parse_empty as [H1 H2].
  destruct (String.eqb_spec t "") as [->|_]; [congruence|]. destruct (String.eqb_spec t "{}") as [->|_]; [|done].
  rewrite H1 in Hp. by injection Hp as <-.
Qed.

Lemma strings_back l : strings_of (Some (JArray (JString <$> l))) = l.
Proof. cbn [strings_of]. induction l as [|x l IH]; [done|]. exact (f_equal (cons x) IH). Qed.
Lemma flat_strings l : flat (JArray (JString <$> l)).
Proof. cbn. by apply Forall_fmap, Forall_true. Qed.

Lemma tools_kept allow deny t o : jsonb (print (JObject (tools_json (mkTools allow deny)))) = Some t →
  parse t = Some (JObject o) →
  (∀ k v, member (tools_json (mkTools allow deny)) k = v → from_option flat True v → member o k = v) →
  tools_json (mkTools allow deny) ≠ [] → tools_view t = (allow, deny).
Proof using Type parse_empty.
  intros Hj Hp Hk Hne.
  assert (∀ l, flat (JArray (JString <$> l))) as Hflat by apply flat_strings.
  assert (member o "allow" = match allow with [] => None | l => Some (JArray (JString <$> l)) end ∧
          member o "deny" = match deny with [] => None | l => Some (JArray (JString <$> l)) end) as [Ha Hd].
  { split; apply Hk; destruct allow, deny; try done; apply Hflat. }
  assert (worth (Some t) = Some t) as Hw.
  { destruct allow as [|a allow]; [destruct deny as [|d deny]; [done|]|]; by eapply worth_kept. }
  unfold tools_view. rewrite Hw. unfold to_map. rewrite Hp. cbn [entry mbind option_bind]. rewrite Ha, Hd.
  destruct allow as [|a allow], deny as [|d deny]; try done; by rewrite ?strings_back.
Qed.

Lemma guards_kept g t o : Z.abs (TimeoutMinutes g) <= exact_float → Z.abs (MaxToolCalls g) <= exact_float →
  parse t = Some (JObject o) →
  (∀ k v, member (guardrails_json g) k = v → from_option flat True v → member o k = v) → guard_view (Some t) = Some g.
Proof using Type parse_empty.
  intros Ht Hm Hp Hk. assert (member o "hitl" = Some (JBool (HITL g)) ∧ member o "read_only" = Some (JBool (ReadOnly g)) ∧
    member o "timeout_minutes" = Some (JInt (TimeoutMinutes g)) ∧ member o "max_tool_calls" = Some (JInt (MaxToolCalls g))) as (H1 & H2 & H3 & H4)
    by (split_and!; apply Hk; done).
  unfold guard_view. rewrite (worth_kept t o _ _ Hp H1). cbn [mbind option_bind]. unfold to_map. rewrite Hp. cbn [mbind option_bind entry].
  rewrite H1, H2, H3, H4. cbn [bool_of int_of]. rewrite !(proj2 (Z.leb_le _ _)) by done. by destruct g.
Qed.

(** The row that an import makes, and what is left of the agent that was exported. *)
Record same_agent (a b : AgentDefinition) : Prop := {
  s_names : Name b = Name a ∧ DisplayName b = DisplayName a ∧ Version b = Version a ∧ Type_ b = Type_ a ∧
            Category b = Category a ∧ Provider b = Provider a ∧ Model b = Model a ∧ SystemPrompt b = SystemPrompt a;
  s_options : Description b = Description a ≫= nonempty ∧ Icon b = Icon a ≫= nonempty;
  s_tools : tools_view (ToolsConfig b) = tools_view (ToolsConfig a);
  s_guards : guard_view (Guardrails b) = guard_view (Guardrails a);
  s_schedule : text_or_nil (Schedule b) = text_or_nil (Schedule a) ∧ text_or_nil (Trigger b) = text_or_nil (Trigger a);
  s_lost : Routing b = None ∧ IsBuiltin b = false ∧ IsEnterprise b = false;
}.

Lemma default_nonempty (s : option string) : nonempty (default "" s) = s ≫= nonempty.
Proof. by destruct s. Qed.

Lemma iface_stored (s r : option string) : (∀ x, text_or_nil s = IString x → jsonb x = Some x) →
  jsonb_ptr jsonb (iface_text (text_or_nil s)) = Some r → text_or_nil r = text_or_nil s.
Proof.
  unfold text_or_nil at 1 2. destruct s as [t|]; [|by intros _ [= <-]].
  destruct (String.eqb t "" || String.eqb t "null") eqn:E; [intros _ [= <-]; cbn; by rewrite E|].
  intros Hs. cbn [iface_text]. unfold nonempty. apply orb_false_iff in E as [E1 E2]. rewrite E1. cbn [jsonb_ptr].
  rewrite (Hs t eq_refl). intros [= <-]. done.
Qed.
Lemma iface_accepted (s : option string) : (∀ x, text_or_nil s = IString x → jsonb x = Some x) →
  is_Some (jsonb_ptr jsonb (iface_text (text_or_nil s))).
Proof.
  unfold text_or_nil. destruct s as [t|]; [|by eexists]. destruct (String.eqb t "" || String.eqb t "null") eqn:E; [by eexists|].
  intros Hs. cbn [iface_text]. unfold nonempty. apply orb_false_iff in E as [-> _]. cbn [jsonb_ptr]. rewrite (Hs t eq_refl). by eexists.
Qed.

Lemma tools_stored a : (∀ tl, y_Tools (convertAgentToYAML a) = Some tl → keeps (tools_json tl)) →
  ∃ t, jsonb (tools_text (y_Tools (convertAgentToYAML a))) = Some t ∧ tools_view t = tools_view (ToolsConfig a).
Proof using Type parse_empty jsonb_empty.
  cbn [y_Tools convertAgentToYAML]. destruct (tools_view (ToolsConfig a)) as [allow deny] eqn:E. intros Hk.
  destruct allow as [|x allow], deny as [|y deny].
  { exists "{}"%string. split; [done|]. reflexivity. }
  all: destruct (Hk _ eq_refl) as (t & o' & Hj & Hp & Hm); exists t; (split; [exact Hj|]); by eapply tools_kept.
Qed.

(** An agent with guardrails comes back. *)
Lemma guarded_survives t id a aid audit t2 e g :
  uuid_Parse aid = Some id → t !! id = Some a →
  yaml_Unmarshal (yaml_Marshal (convertAgentToYAML a)) = Some (omit (convertAgentToYAML a)) →
  import_objection (convertAgentToYAML a) = None → Type_ a = "specialist"%string ∨ Type_ a = "autonomous"%string →
  guard_view (Guardrails a) = Some g → Z.abs (TimeoutMinutes g) <= exact_float → Z.abs (MaxToolCalls g) <= exact_float →
  keeps (guardrails_json g) → (∀ tl, y_Tools (convertAgentToYAML a) = Some tl → keeps (tools_json tl)) →
  (∀ o, y_Output (convertAgentToYAML a) = Some o → keeps o) →
  (∀ s, text_or_nil (Schedule a) = IString s → jsonb s = Some s) → (∀ s, text_or_nil (Trigger a) = IString s → jsonb s = Some s) →
  (∀ l, arrange l ≡ₚ l) → (∀ i b, t2 !! i = Some b → Name b ≠ Name a) → t2 !! i_id e = None →
  i_list e = QueryOk → i_row e = NoFault →
  ∃ content b, (HandleExportAgent true audit t aid false).1 = mkResponse 200 (EFile (Name a +:+ ".agent.yaml") content) ∧
    (HandleImportAgent true audit t2 (File content) e).1 = (<[i_id e := b]> t2, mkResponse 201 (EAgent b)) ∧ same_agent a b.
Proof using Type parse_empty jsonb_empty.
  intros Hid Ha Hy Hobj Hty Hg Hg1 Hg2 Hkg Hkt Hko Hs Htr Harr Hname Hfresh Hl Hr.
  exists (yaml_Marshal (convertAgentToYAML a)). unfold HandleExportAgent, HandleImportAgent. cbn [negb]. rewrite Hid. cbn [GetAgentDefinition].
  rewrite Ha, Hy. assert (import_objection (omit (convertAgentToYAML a)) = None) as -> by exact Hobj.
  unfold ListAgentsByName. rewrite Hl. assert (filter (λ b, Name b = y_Name (omit (convertAgentToYAML a))) (arrange (map_to_list t2).*2) = []) as ->.
  { apply list_filter_nil, Forall_forall. intros b Hb. rewrite Harr in Hb. apply list_elem_of_fmap in Hb as ([i b'] & -> & Hb).
    apply elem_of_map_to_list in Hb. by apply (Hname i). }
  unfold CreateAgentDefinition. rewrite Hfresh. destruct (tools_stored a Hkt) as (tt & Htt & Hview).
  destruct Hkg as (gt & go' & Hgj & Hgp & Hgm). destruct (iface_accepted _ Hs) as [rs Hrs]. destruct (iface_accepted _ Htr) as [rt Hrt].
  assert (∃ ro, jsonb_ptr jsonb (OutputConfig (convertYAMLToAgent (omit (convertAgentToYAML a)))) = Some ro) as [ro Hro].
  { cbn [convertYAMLToAgent OutputConfig y_Output omit]. destruct (y_Output (convertAgentToYAML a)) as [[|m o]|] eqn:Eo;
      [by eexists| |by eexists]. destruct (Hko _ eq_refl) as (u & o' & Hj & _). cbn. rewrite Hj. by eexists. }
  assert (to_row jsonb (convertYAMLToAgent (omit (convertAgentToYAML a))) (i_id e) (i_now e) (i_now e) =
    Some (mkAgent (i_id e) (Name a) (DisplayName a) (nonempty (default "" (Description a))) (Version a) (Type_ a) (Category a)
      (nonempty (default "" (Icon a))) (Provider a) (Model a) (SystemPrompt a) tt (Some gt) rs rt ro None false false (i_now e) (i_now e))) as ->.
  { unfold to_row. rewrite Hro. cbn [convertYAMLToAgent omit convertAgentToYAML ToolsConfig Guardrails Schedule Trigger Routing Type_ y_Tools y_Guardrails
      y_Schedule y_Trigger y_Type y_Name y_DisplayName y_Description y_Version y_Category y_Icon y_Provider y_Model y_SystemPrompt] in *.
    rewrite Htt, Hg. cbn [mbind option_bind fmap option_fmap option_map]. rewrite Hgj. cbn [mbind option_bind]. rewrite Hrs, Hrt. cbn.
    destruct Hty as [-> | ->]; reflexivity. }
  unfold write_row. assert (name_taken t2 (i_id e) (Name a) = false) as Htaken.
  { unfold name_taken. apply not_true_is_false. intros (p & Hp & Hb)%existsb_exists. apply list_elem_of_In in Hp. destruct p as [i b].
    apply elem_of_map_to_list in Hp. apply andb_prop in Hb as [_ Hb%String.eqb_eq]. by apply (Hname i b). }
  cbn [Name]. rewrite Htaken, Hr. eexists. split; [reflexivity|]. split; [reflexivity|].
  split; cbn [Name DisplayName Version Type_ Category Provider Model SystemPrompt Description Icon ToolsConfig Guardrails Schedule
    Trigger Routing IsBuiltin IsEnterprise]; try done.
  - by rewrite !default_nonempty.
  - by rewrite Hg, (guards_kept g gt go').
  - split; by apply iface_stored.
Qed.

(** an agent without guardrails cannot be imported: a new agent, and a seeded
    one, has "{}" there, the export leaves it out, the import inserts NULL, which
    the column does not take; the answer is 500 and nothing is stored. *)
Theorem bare_agent_not_imported y audit t2 content e :
  yaml_Unmarshal content = Some y → y_Guardrails y = None → import_objection y = None →
  ∃ st msg, HandleImportAgent true audit t2 (File content) e = (t2, refuse st msg, None) ∧ (st = 500 ∨ st = 409).
Proof.
  intros Hy Hg Ho. unfold HandleImportAgent. cbn [negb]. rewrite Hy, Ho. unfold ListAgentsByName.
  destruct (i_list e); try by (eexists _, _; split; [reflexivity|by left]).
  destruct (filter _ _) as [|b l]; [|by (eexists _, _; split; [reflexivity|by right])].
  assert (CreateAgentDefinition jsonb t2 (convertYAMLToAgent y) (i_id e) (i_now e) (i_row e) = (t2, Err UniqueViolation) ∨
          CreateAgentDefinition jsonb t2 (convertYAMLToAgent y) (i_id e) (i_now e) (i_row e) = (t2, Err OtherError)) as Hc.
  { unfold CreateAgentDefinition. destruct (t2 !! i_id e); [by left|right]. unfold to_row. cbn [convertYAMLToAgent ToolsConfig Guardrails].
    rewrite Hg. destruct (jsonb (tools_text (y_Tools y))); reflexivity. }
  destruct Hc as [-> | ->]; by (eexists _, _; split; [reflexivity|by left]).
Qed.

Lemma listed_nowhere (t : table) name : (∀ l, arrange l ≡ₚ l) → (∀ i b, t !! i = Some b → Name b ≠ name) →
  filter (λ b, Name b = name) (arrange (map_to_list t).*2) = [].
Proof.
  intros Harr Hname. apply list_filter_nil, Forall_forall. intros b Hb. rewrite Harr in Hb.
  apply list_elem_of_fmap in Hb as ([i b'] & -> & Hb). apply elem_of_map_to_list in Hb. by apply (Hname i).
Qed.

Lemma create_bare t a id now f : Guardrails a = None → ∃ err, CreateAgentDefinition jsonb t a id now f = (t, Err err).
Proof.
  intros Hg. unfold CreateAgentDefinition. destruct (t !! id); [by eexists|]. unfold to_row. rewrite Hg.
  destruct (jsonb (ToolsConfig a)); by eexists.
Qed.

(** C16: whether an agent survives a file. It is exported from one server and imported
    into another one that has no agent of this name; both files are written and read as
    they are, and nothing fails. If the exported guardrails are seen, that is if the column is an
    object that is not empty, the import makes the same agent, as far as both pages look:
    names, prompt, model, description and icon, the allowed and denied tools, the four
    guardrails, schedule and trigger; routing is lost, other members of the tools and
    guardrails are lost, and it is no built-in any more. If they are not, as for an agent
    that was created without guardrails, the import answers 500 and stores nothing. *)
Theorem export_import_roundtrip t id a aid audit t2 e :
  let y := convertAgentToYAML a in
  let file := yaml_Marshal y in
  uuid_Parse aid = Some id → t !! id = Some a → yaml_Unmarshal file = Some (omit y) →
  import_objection y = None → Type_ a = "specialist"%string ∨ Type_ a = "autonomous"%string →
  (∀ tl, y_Tools y = Some tl → keeps (tools_json tl)) → (∀ o, y_Output y = Some o → keeps o) →
  (∀ s, text_or_nil (Schedule a) = IString s → jsonb s = Some s) → (∀ s, text_or_nil (Trigger a) = IString s → jsonb s = Some s) →
  (∀ l, arrange l ≡ₚ l) → (∀ i b, t2 !! i = Some b → Name b ≠ Name a) → t2 !! i_id e = None →
  i_list e = QueryOk → i_row e = NoFault →
  (HandleExportAgent true audit t aid false).1 = mkResponse 200 (EFile (Name a +:+ ".agent.yaml") file) ∧
  match guard_view (Guardrails a) with
  | Some g =>
      Z.abs (TimeoutMinutes g) <= exact_float → Z.abs (MaxToolCalls g) <= exact_float → keeps (guardrails_json g) →
      ∃ b, (HandleImportAgent true audit t2 (File file) e).1 = (<[i_id e := b]> t2, mkResponse 201 (EAgent b)) ∧ same_agent a b
  | None => (HandleImportAgent true audit t2 (File file) e) = (t2, refuse 500 "failed to import agent", None)
  end.
Proof using Type parse_empty jsonb_empty.
  intros y file Hid Ha Hy Hobj Hty Hkt Hko Hs Htr Harr Hname Hfresh Hl Hr. split.
  { unfold HandleExportAgent. cbn [negb]. rewrite Hid. cbn [GetAgentDefinition]. by rewrite Ha. }
  destruct (guard_view (Guardrails a)) as [g|] eqn:Hg.
  - intros H1 H2 Hkg. destruct (guarded_survives t id a aid audit t2 e g) as (c & b & Hc & Hi & Hsame); try done.
    exists b. split; [|done]. replace file with c; [exact Hi|]. revert Hc. unfold HandleExportAgent. cbn [negb]. rewrite Hid.
    cbn [GetAgentDefinition]. rewrite Ha. cbn. by intros [= <-].
  - unfold HandleImportAgent. cbn [negb]. rewrite Hy. assert (import_objection (omit y) = None) as -> by exact Hobj.
    unfold ListAgentsByName. rewrite Hl, listed_nowhere by done.
    destruct (create_bare t2 (convertYAMLToAgent (omit y)) (i_id e) (i_now e) (i_row e)) as [err ->]; [|done].
    cbn. by rewrite Hg.
Qed.

(** the built-in agents are never seeded: none of them has guardrails, so the
    first one whose name is not there ends the seeding with an error; no row is
    ever made, and no error means that all three names were there before. *)
Theorem seeding_makes_nothing t env :
  (∀ l, arrange l ≡ₚ l) → length env = 3%nat →
  (SeedBuiltinAgents t env).1 = t ∧
  ((SeedBuiltinAgents t env).2 = false → Forall (λ b, ∃ i a, t !! i = Some a ∧ Name a = Name b) builtinAgents).
Proof.
  intros Harr Hlen. assert (∀ l, Forall (λ p, Guardrails p.1 = None) l →
    (seed t l).1 = t ∧ ((seed t l).2 = false → Forall (λ p, ∃ i a, t !! i = Some a ∧ Name a = Name p.1) l)) as H.
  { induction 1 as [|[b e] l Hb Hl IH]; [done|]. cbn [seed]. unfold ListAgentsByName.
    destruct (i_list e); [|done..]. destruct (filter _ _) as [|a l'] eqn:E.
    - destruct (create_bare t b (i_id e) (i_now e) (i_row e) Hb) as [err ->]. done.
    - split; [apply IH|]. intros H. constructor; [|by apply IH].
      assert (a ∈ filter (λ a, Name a = Name b) (arrange (map_to_list t).*2)) as Ha by (rewrite E; apply list_elem_of_here).
      apply list_elem_of_filter in Ha as [Hn Ha]. rewrite Harr in Ha. apply list_elem_of_fmap in Ha as ([i a'] & -> & Hi).
      apply elem_of_map_to_list in Hi. by exists i, a'. }
  unfold SeedBuiltinAgents. destruct env as [|e1 [|e2 [|e3 [|]]]]; try discriminate Hlen.
  destruct (H (zip builtinAgents [e1; e2; e3])) as [H1 H2]; [by repeat constructor|]. split; [exact H1|].
  intros Hf. specialize (H2 Hf). cbn [builtinAgents zip zip_with] in H2. repeat (apply Forall_cons in H2 as [? H2]). by repeat constructor.
Qed.
End Convert.

(** ** Concrete inputs *)

Definition demo_guards : AgentYAMLGuardrails := mkGuardrails true false 30 0.
Definition demo_tools : AgentYAMLTools := mkTools ["ls"%string] [].
Definition demo_print (v : json) : string :=
  match v with JObject ((k, _) :: _) => if String.eqb k "hitl" then "G" else "T" | _ => "X" end.
(** The texts of the agent: with other members, and in another order. *)
Definition demo_parse (s : string) : option json :=
  if String.eqb s "{}" then Some (JObject []) else
  if String.eqb s "G" then Some (JObject (guardrails_json demo_guards)) else
  if String.eqb s "T" then Some (JObject (tools_json demo_tools)) else
  if String.eqb s "G0" then Some (JObject [("x", JNull); ("timeout_minutes", JInt 30); ("hitl", JBool true)]%string) else
  if String.eqb s "T0" then Some (JObject [("y", JInt 1); ("allow", JArray [JString "ls"])]%string) else None.
Definition demo_jsonb (s : string) : option string := if String.eqb s "" then None else Some s.
Definition demo_agent : AgentDefinition :=
  mkAgent 7 "scan" "Scan" (Some ""%string) "1.0.0" "specialist" "security" None "openai" "gpt" "look" "T0" (Some "G0"%string)
    (Some "0 * * * *"%string) None None (Some "r"%string) true false 0 0.
Definition demo_yaml : AgentYAML := convertAgentToYAML demo_parse (λ _, 0) demo_agent.
Definition demo_import : import_env := mkImport 9 5 QueryOk NoFault.

Lemma demo_keeps_guards : keeps demo_parse demo_print demo_jsonb (guardrails_json demo_guards).
Proof. exists "G"%string, (guardrails_json demo_guards). split_and!; try reflexivity. by intros k v <-. Qed.
Lemma demo_keeps_tools : keeps demo_parse demo_print demo_jsonb (tools_json demo_tools).
Proof. exists "T"%string, (tools_json demo_tools). split_and!; try reflexivity. by intros k v <-. Qed.

Lemma export_import_roundtrip_witness :
  ∃ b, (HandleImportAgent demo_print (λ _, Some demo_yaml) demo_jsonb id (λ _, "u"%string) true true ∅ (File "Y") demo_import).1 =
      (<[9%N := b]> ∅, mkResponse 201 (EAgent b)) ∧
    guard_view demo_parse (λ _, 0) (Guardrails b) = Some demo_guards ∧ Routing b = None.
Proof.
  destruct (export_import_roundtrip demo_parse demo_print (λ _, 0) (λ _, "Y"%string) (λ _, Some demo_yaml) demo_jsonb id
    (λ _, Some 7%N) (λ _, "u"%string) (conj eq_refl eq_refl) eq_refl {[7%N := demo_agent]} 7 demo_agent "u" true ∅ demo_import)
    as [_ H]; try reflexivity.
  - by left.
  - intros tl Htl. assert (tl = demo_tools) as -> by (vm_compute in Htl; by injection Htl as <-). exact demo_keeps_tools.
  - intros o Ho. vm_compute in Ho. discriminate.
  - intros s Hs. vm_compute in Hs. by injection Hs as <-.
  - intros s Hs. vm_compute in Hs. discriminate.
  - intros i b Hb. by rewrite lookup_empty in Hb.
  - assert (guard_view demo_parse (λ _, 0) (Guardrails demo_agent) = Some demo_guards) as Hview by reflexivity.
    rewrite Hview in H. destruct H as (b & Hi & Hs); [unfold exact_float; cbn; lia..|exact demo_keeps_guards|].
    exists b. split; [exact Hi|]. destruct Hs as [_ _ _ Hg _ (Hr & _)]. split; [exact Hg|exact Hr].
Defined.

(** An agent as it is created without guardrails. *)
Definition bare_agent : AgentDefinition :=
  mkAgent 7 "scan" "Scan" None "1.0.0" "specialist" "security" None "openai" "gpt" "look" "{}" (Some "{}"%string) None None None None
    false false 0 0.
Lemma bare_agent_not_imported_witness :
  ∃ st msg, HandleImportAgent demo_print (λ _, Some (convertAgentToYAML demo_parse (λ _, 0) bare_agent)) demo_jsonb id (λ _, "u"%string)
    true true ∅ (File "Y") demo_import = (∅, refuse st msg, None) ∧ (st = 500 ∨ st = 409).
Proof.
  apply (bare_agent_not_imported demo_print (λ _, Some (convertAgentToYAML demo_parse (λ _, 0) bare_agent)) demo_jsonb id
    (λ _, "u"%string) (convertAgentToYAML demo_parse (λ _, 0) bare_agent)); reflexivity.
Defined.

Lemma seeding_makes_nothing_witness : (SeedBuiltinAgents demo_jsonb id ∅ [demo_import; demo_import; demo_import]).1 = ∅.
Proof. apply (seeding_makes_nothing demo_jsonb id ∅ [demo_import; demo_import; demo_import]); done. Defined.
End AgentExport.
