(* ===== verification/AgentRequests.v ===== *)
(** * handleAgentsAPI of internal/api/agents.go: sequences of requests of the agent API

    The dispatch of a request on its method and path ([agents_route] of [Agents])
    to the handlers of [Agents] and [AgentExport], the runs that the scheduler
    starts, and what holds after any number of them, one after the other. *)
From Stdlib Require Import Ascii.
From S2P Require Import Prelude GoStrings Json SessionStore AgentRuns Agents AgentExport.
From S2P Require SessionApi.
Import Store Json Agents.
#[local] Open Scope Z_scope.
#[local] Set Default Proof Using "Type".

Module AgentRequests.

Section Requests.
Variable uuid_Parse : string → option N.
Variable uuid_String : N → string.
Variable time_text : Z → string.
Variable jsonb : string → option string.
Variable parse : string → option json.
Variable print : json → string.
Variable trunc : json → Z.
Variable yaml_Marshal : AgentExport.AgentYAML → string.
Variable yaml_Unmarshal : string → option AgentExport.AgentYAML.
Variable arrange : list AgentDefinition → list AgentDefinition.
Variable arrange_sats : list (N * Satellites.Sats.Sat) → list (N * Satellites.Sats.Sat).
Variable arrange_telemetry : list Dispatch.Dispatch.TelemetryRow → list Dispatch.Dispatch.TelemetryRow.
Variable shuffle : list Dispatch.Dispatch.SatelliteCandidate → list Dispatch.Dispatch.SatelliteCandidate.

(** A request: its body as each of the handlers decodes it, and what it meets. *)
Record request := mkRequest {
  method : string; path : string;
  to_create : option CreateAgentRequest; to_update : option UpdateAgentRequest;
  to_deploy : option DeployAgentRequest; to_rollback : option string; to_import : AgentExport.upload;
  meets : env;
}.

Definition import_env (e : env) : AgentExport.import_env := AgentExport.mkImport (new_id e) (now e) (f_query e) (f_row e).
(** The entry that the handlers of [AgentExport] give goes to the log. *)
Definition logged (w : World) (entry : option AgentExport.audit_entry) : World :=
  match entry with
  | Some (action, id, _) => set_api w (SessionApi.SessionApi.add_audit (api w) (action, id))
  | None => w
  end.

(** What a request leaves behind, whether its handler answers or panics. The
    calls that are not named only read. *)
Definition handleAgentsAPI (h : AgentHandler) (w : World) (q : request) : World :=
  let e := meets q in
  if negb (dbPool h) then w else
  match agents_route (path q) (method q) with
  | CallCreate => (HandleCreateAgent uuid_String jsonb h w (to_create q) e).1
  | CallUpdate id => (HandleUpdateAgent uuid_Parse uuid_String time_text jsonb h w id (to_update q) e).1
  | CallDelete id => (HandleDeleteAgent uuid_Parse h w id e).1
  | CallRollback id => (HandleRollbackAgent uuid_Parse jsonb h w id (to_rollback q) e).1
  | CallDeploy id => (HandleDeployAgent uuid_Parse uuid_String parse arrange_sats arrange_telemetry shuffle h w id (to_deploy q) e).1
  | CallExport id =>
      logged w (AgentExport.HandleExportAgent parse trunc yaml_Marshal uuid_Parse (dbPool h) (auditLogger h) (agents w) id (f_get e 0)).2
  | CallImport =>
      let '(t, _, entry) := AgentExport.HandleImportAgent print yaml_Unmarshal jsonb arrange uuid_String (dbPool h) (auditLogger h)
                              (agents w) (to_import q) (import_env e) in
      logged (set_agents w t) entry
  | _ => w
  end.

(** A request, or a run that the scheduler starts. *)
Inductive op := Request (q : request) | Scheduled (agent sat : N) (source : string) (e : env).
Definition step (h : AgentHandler) (w : World) (o : op) : World :=
  match o with
  | Request q => handleAgentsAPI h w q
  | Scheduled agent sat source e => (RunAgent uuid_String parse h w agent sat source e).1
  end.
Definition run (h : AgentHandler) (w : World) (ops : list op) : World := foldl (step h) w ops.

(** ** Every step is a move *)

Notation moves := (moves uuid_String time_text jsonb).

Lemma logged_moves w w' entry : moves w w' → moves w (logged w' entry).
Proof. by destruct entry as [[[? ?] ?]|]. Qed.

Lemma import_step rs db au t u e :
  table_step jsonb rs t (AgentExport.HandleImportAgent print yaml_Unmarshal jsonb arrange uuid_String db au t u e).1.1.
Proof.
  unfold AgentExport.HandleImportAgent. destruct db; [|constructor]. destruct u as [| | |content]; [constructor..|].
  destruct (yaml_Unmarshal content) as [y|]; [|constructor]. destruct (AgentExport.import_objection y); [constructor|].
  destruct (ListAgentsByName _ _ _ _) as [[|]|]; [|constructor..].
  pose proof (CreateAgentDefinition_step jsonb rs t (AgentExport.convertYAMLToAgent print y) (AgentExport.i_id e)
    (AgentExport.i_now e) (AgentExport.i_row e) eq_refl) as H.
  destruct (CreateAgentDefinition _ _ _ _ _ _) as [t' [a|err]]; exact H.
Qed.

Lemma import_moves db au w u e :
  moves w (let '(t, _, entry) := AgentExport.HandleImportAgent print yaml_Unmarshal jsonb arrange uuid_String db au (agents w) u e in
           logged (set_agents w t) entry).
Proof.
  pose proof (import_step (runs w) db au (agents w) u e) as H. destruct (AgentExport.HandleImportAgent _ _ _ _ _ _ _ _ _ _) as [[t r] entry].
  by apply logged_moves, set_agents_moves.
Qed.

Lemma step_moves h w o : moves w (step h w o).
Proof.
  destruct o as [q|]; cbn [step]; [|apply run_agent_moves]. unfold handleAgentsAPI. destruct (negb (dbPool h)); [apply moves_refl|].
  destruct (agents_route _ _); try apply moves_refl;
    [apply create_moves|apply update_moves|apply delete_moves|apply deploy_moves|apply rollback_moves
    |apply logged_moves, moves_refl|apply import_moves].
Qed.

Lemma run_keeps h (P : World → Prop) w ops :
  P w → (∀ w w', moves w w' → P w → P w') → P (run h w ops).
Proof.
  intros H0 Hs. revert w H0. induction ops as [|o ops IH]; intros w H0; [done|].
  apply IH, (Hs w); [apply step_moves|done].
Qed.

(** ** Properties *)

(** C29: whatever is requested of the agent API, imports included, and whatever the
    scheduler starts, one after the other: the rows keep their constraints and their
    names stay unique, the built-in definitions stay exactly as they are and no
    others become built-in, no run is lost, the row of an agent that has a run
    stays in the table, and deleting it is never answered with success. *)
Theorem agents_invariant h w ops :
  let w' := run h w ops in
  (table_ok (agents w) → table_ok (agents w')) ∧
  (∀ id a, IsBuiltin a = true → agents w' !! id = Some a ↔ agents w !! id = Some a) ∧
  runs w ⊆ runs w' ∧
  (∀ r a, runs w !! r = Some a → is_Some (agents w !! Runs.AgentID a) →
     is_Some (agents w' !! Runs.AgentID a) ∧
     ∀ id e, uuid_Parse id = Some (Runs.AgentID a) → status (HandleDeleteAgent uuid_Parse h w' id e).2 ≠ 200).
Proof.
  intros w'. assert (runs w ⊆ runs w') as Hruns.
  { apply (run_keeps h (λ w1, runs w ⊆ runs w1)); [done|]. intros w1 w2 (_ & _ & Hr) H. by transitivity (runs w1). }
  split_and!; [| |done|].
  - intros Hok. apply (run_keeps h (λ w, table_ok (agents w))); [done|].
    intros w1 w2 (Ht & _) H. by eapply table_step_ok.
  - intros id a Hb. apply (run_keeps h (λ w1, agents w1 !! id = Some a ↔ agents w !! id = Some a)); [done|].
    intros w1 w2 (Ht & _) <-. by eapply table_step_builtin.
  - intros r a Hr Ha. split.
    + apply (run_keeps h (λ w1, runs w1 !! r = Some a ∧ is_Some (agents w1 !! Runs.AgentID a))); [done|].
      intros w1 w2 (Ht & _ & H12) [Hr1 Ha1]. split; [by eapply lookup_weaken|]. by eapply table_step_run.
    + intros id e Hid. eapply delete_with_run; [|done]. by eapply lookup_weaken.
Qed.

(** Rolling back never works: the snapshots that updates take carry the names of
    the Go fields, the rollback looks for names in snake case, so the tools
    configuration it writes is empty, which is no JSON. Whatever was requested
    before, a rollback is refused and changes no definition. *)
Theorem rollback_never_succeeds h w ops id req e :
  jsonb "" = None → versions w = ∅ →
  let w' := run h w ops in
  status (HandleRollbackAgent uuid_Parse jsonb h w' id req e).2 ≠ 200 ∧
  agents (HandleRollbackAgent uuid_Parse jsonb h w' id req e).1 = agents w'.
Proof.
  intros Hj Hv. apply (rollback_refused uuid_Parse uuid_String time_text jsonb); [done|].
  apply (run_keeps h (λ w, snapshots_ok uuid_String time_text (versions w))); [rewrite Hv; by intros k v|].
  by intros w1 w2 (_ & Hs & _).
Qed.
End Requests.

(** ** Concrete inputs *)

Definition demo_env1 : env := mkEnv 9 21 31 41 (λ _, false) false NoFault NoFault NoFault NoFault QueryOk QueryOk 0 [] false.
Definition demo_request (m p : string) (e : env) : request :=
  mkRequest m p None
    (Some (mkUpdate None None None (Some "2"%string) None None None None None None None None None None None None))
    (Some (mkDeploy (SessionApi.SessionApi.demo_String 1) None ∅ ∅)) (Some "1.0.0"%string) (AgentExport.File "Y") e.
Definition demo_file : AgentExport.AgentYAML :=
  AgentExport.mkYAML "new" "New" "" "" "specialist" "" "" "openai" "gpt" "look" None (Some AgentExport.demo_guards) None
    AgentExport.INil AgentExport.INil.
Notation demo_run := (run SessionApi.SessionApi.demo_Parse SessionApi.SessionApi.demo_String (λ _, ""%string) demo_jsonb demo_parse
  (λ _, "G"%string) (λ _, 0) (λ _, "Y"%string) (λ _, Some demo_file) id id id id demo_handler).
Definition builtin8 : AgentDefinition :=
  mkAgent 8 "own" "Own" None "1.0.0" "specialist" "security" None "openai" "gpt" "look" "{}" (Some "guards"%string) None None None None
    true false 0 0.
Definition two_agents : World := mkWorld demo_api {[7%N := demo_agent "{}"; 8%N := builtin8]} ∅ ∅.
Definition on_agent (m : string) (n : N) (rest : string) (e : env) : op :=
  Request (demo_request m ("/api/v1/agents/" +:+ SessionApi.SessionApi.demo_String n +:+ rest) e).
(** Agent 7 is deployed. *)
Definition deployed : World := demo_run two_agents [on_agent "POST" 7 "/deploy" demo_env].

(** After the deployment another agent is imported, agent 7 and the built-in one are
    deleted and updated. *)
Lemma agents_invariant_witness :
  let ops := [Request (demo_request "POST" "/api/v1/agents/import" demo_env1); on_agent "DELETE" 7 "" demo_env1; on_agent "DELETE" 8 "" demo_env1;
              on_agent "PUT" 7 "" demo_env1; on_agent "PUT" 8 "" demo_env1] in
  let w' := demo_run deployed ops in
  Name <$> agents w' !! 21%N = Some "new"%string ∧ Version <$> agents w' !! 7%N = Some "2"%string ∧
  agents w' !! 8%N = Some builtin8 ∧ is_Some (agents w' !! 7%N).
Proof.
  intros ops. split; [by vm_compute|]. split; [by vm_compute|].
  destruct (agents_invariant SessionApi.SessionApi.demo_Parse SessionApi.SessionApi.demo_String (λ _, ""%string) demo_jsonb demo_parse
    (λ _, "G"%string) (λ _, 0) (λ _, "Y"%string) (λ _, Some demo_file) id id id id demo_handler deployed ops) as (_ & H2 & _ & H4).
  split; [by apply H2; [reflexivity|vm_compute]|]. destruct (runs deployed !! 20%N) as [r|] eqn:Er; [|by vm_compute in Er].
  assert (Runs.AgentID r = 7%N) as Ha by (vm_compute in Er; by injection Er as <-).
  destruct (H4 20%N r Er) as [H _]; [rewrite Ha; by vm_compute; eexists|]. by rewrite Ha in H.
Defined.

Example rollback_never_succeeds_witness :
  let w' := demo_run two_agents [on_agent "PUT" 7 "" demo_env] in
  is_Some (versions w' !! (7%N, "1.0.0"%string)) ∧
  status (HandleRollbackAgent SessionApi.SessionApi.demo_Parse demo_jsonb demo_handler w' agent7 (Some "1.0.0"%string) demo_env).2 ≠ 200.
Proof.
  split; [by vm_compute; eexists|].
  apply (rollback_never_succeeds SessionApi.SessionApi.demo_Parse SessionApi.SessionApi.demo_String (λ _, ""%string) demo_jsonb demo_parse
    (λ _, "G"%string) (λ _, 0) (λ _, "Y"%string) (λ _, Some demo_file) id id id id
    demo_handler two_agents [on_agent "PUT" 7 "" demo_env]); reflexivity.
Defined.
End AgentRequests.
