(* ===== verification/Enroll.v ===== *)
(** * src/cmd/daao/login.go and internal/satellite/registration.go: enrolment

    A satellite keeps five files: its two keys, the pinned certificate of Nexus,
    its registration and a client certificate. Here are the commands that write
    them, and the file that holds a set of satellites. PEM, the X.509 forms of a
    key, the digest, JSON printing and parsing, and the network are parameters. *)
From Stdlib Require Import Ascii String.
From S2P Require Import Prelude GoStrings Base64.
From S2P Require Import Json.
From S2P Require Import Recording.
Import Json.
Import Recording(demo_print, demo_read, demo_read_print, demo_print_free).
#[local] Open Scope Z_scope.
#[local] Set Default Proof Using "Type".

Module Enroll.

(** The files under ~/.config/daao; the client certificate shares satellite.key. *)
Record Disk := mkDisk {
  pub : option string; priv : option string; nexus_ca : option string; registration : option string; crt : option string;
}.
Definition set_pub (d : Disk) (x : option string) := mkDisk x (priv d) (nexus_ca d) (registration d) (crt d).
Definition set_priv (d : Disk) (x : option string) := mkDisk (pub d) x (nexus_ca d) (registration d) (crt d).
Definition set_ca (d : Disk) (x : option string) := mkDisk (pub d) (priv d) x (registration d) (crt d).
Definition set_registration (d : Disk) (x : option string) := mkDisk (pub d) (priv d) (nexus_ca d) x (crt d).

(** os.WriteFile: it fails before the file is opened, or leaves what was written. *)
Inductive write_result := Wrote | NotOpened | Left_ (content : string).
Definition write (old : option string) (content : string) (r : write_result) : option string :=
  match r with Wrote => Some content | NotOpened => old | Left_ c => Some c end.
Definition wrote (r : write_result) : bool := match r with Wrote => true | _ => false end.

Record KeyPair := mkKeyPair { PublicKey : string; PrivateKey : string; Fingerprint : string }.
Record SatelliteRegistration := mkRegistration {
  r_ID : string; r_Fingerprint : string; r_PublicKey : string; r_CreatedAt : string; r_UpdatedAt : string; r_Status : string;
}.
Record apiSatellite := mkApiSatellite { a_ID : string; a_Name : string; a_Status : string; a_CreatedAt : string }.

Section Enroll.
Variable Sum256 : string → string.
Variable pem_Encode : string → string → string.                 (* the type, the bytes *)
Variable pem_Decode : string → option (string * string).
Variable MarshalPKIXPublicKey MarshalPKCS8PrivateKey : string → string.
(** [Some None]: a key of another kind. *)
Variable ParsePKIXPublicKey ParsePKCS8PrivateKey : string → option (option string).
(** AppendCertsFromPEM finds a certificate. *)
Variable has_certs : string → bool.
Variable parse : string → option json.
Variable print_satellite : apiSatellite → string.
Variable print_registration : SatelliteRegistration → string.

(** ** registration.go: the keys *)

Definition ComputeFingerprintRaw (der : string) : string := Base64.EncodeToString Base64.StdEncoding (Sum256 der).
Definition ComputeFingerprint (key : string) : string := ComputeFingerprintRaw (MarshalPKIXPublicKey key).
(** [keys]: what ed25519.GenerateKey gives. *)
Definition GenerateEd25519KeyPair (keys : option (string * string)) : option KeyPair :=
  (λ '(p, s), mkKeyPair p s (ComputeFingerprint p)) <$> keys.

Definition public_pem (key : string) : string := pem_Encode "PUBLIC KEY" (MarshalPKIXPublicKey key).
Definition private_pem (key : string) : string := pem_Encode "PRIVATE KEY" (MarshalPKCS8PrivateKey key).
(** [true]: saved. *)
Definition SaveKeyPair (d : Disk) (kp : KeyPair) (w1 w2 : write_result) : Disk * bool :=
  let d1 := set_pub d (write (pub d) (public_pem (PublicKey kp)) w1) in
  if negb (wrote w1) then (d1, false) else
  (set_priv d1 (write (priv d1) (private_pem (PrivateKey kp)) w2), wrote w2).

Definition load_pem (type : string) (f : option string) : option string :=
  data ← f; '(t, b) ← pem_Decode data; if String.eqb t type then Some b else None.
Definition LoadKeyPair (d : Disk) : option KeyPair :=
  b ← load_pem "PUBLIC KEY" (pub d);
  p ← ParsePKIXPublicKey b;
  p ← p;
  c ← load_pem "PRIVATE KEY" (priv d);
  s ← ParsePKCS8PrivateKey c;
  s ← s;
  Some (mkKeyPair p s (ComputeFingerprint p)).

(** *** RegisterWithNexusAPI and its fallback *)

Definition decode_registration : list (string * json) → SatelliteRegistration * bool :=
  field "id" decode_string ""%string (field "fingerprint" decode_string ""%string (field "public_key" decode_string ""%string
    (field "created_at" decode_string ""%string (field "updated_at" decode_string ""%string (field "status" decode_string ""%string
      (struct (λ st u c k f i, mkRegistration i f k c u st))))))).
(** [kp.Fingerprint[:16]] panics on a short text. *)
Definition prefix16 (s : string) : go string := if (String.length s <? 16)%nat then Panic else Ret (substring 0 16 s).
Definition fallbackRegistration (d : Disk) (kp : KeyPair) (now : string) (mkdir : bool) (w : write_result) : go (Disk * SatelliteRegistration) :=
  id ← prefix16 (Fingerprint kp);
  let reg := mkRegistration id (Fingerprint kp) (Base64.EncodeToString Base64.StdEncoding (PublicKey kp)) now "" "pending" in
  Ret (if mkdir then set_registration d (write (registration d) (print_registration reg) w) else d, reg).
(** The answer of Nexus: [None] where there is none. *)
Definition RegisterWithNexusAPI (d : Disk) (kp : KeyPair) (reply : option (Z * option json)) (now : string) (mkdir : bool) (w : write_result)
    : go (Disk * SatelliteRegistration) :=
  match reply with
  | Some (st, body) =>
      if (st =? 200) || (st =? 201) then
        match unmarshal decode_registration body with Some reg => Ret (d, reg) | None => fallbackRegistration d kp now mkdir w end
      else fallbackRegistration d kp now mkdir w
  | None => fallbackRegistration d kp now mkdir w
  end.

(** ** login.go: the certificate of Nexus *)

(** The pool of the pinned certificates, as the text of the file. *)
Definition loadNexusCA (d : Disk) : option string := data ← nexus_ca d; if has_certs data then Some data else None.
Definition nexusTLSConfig (d : Disk) : option string := loadNexusCA d.
(** [chain]: what the server presents; [None] where it cannot be reached. *)
Definition loadOrTOFUNexusCA (d : Disk) (chain : option (list string)) (w : write_result) : Disk * option string :=
  match loadNexusCA d with
  | Some pool => (d, Some pool)
  | None =>
      match chain ≫= last with
      | None => (d, None)
      | Some pin =>
          let d' := set_ca d (write (nexus_ca d) (pem_Encode "CERTIFICATE" pin) w) in
          (d', if wrote w then loadNexusCA d' else None)
      end
  end.

Definition extractHost (rawURL : string) : string :=
  let host := Str.TrimPrefix (Str.TrimPrefix rawURL "https://") "http://" in
  match Str.Cut host "/" with Some (h, _) => if String.eqb h "" then host else h | None => host end.
Definition tofu_addr (addr : string) : string := if Str.ContainsByte addr ":" then addr else addr +:+ ":443".

(** ** login.go: the registration *)

Definition dash_at (s : string) (i : nat) : bool := match String.get i s with Some c => Ascii.eqb c "-" | None => false end.
Definition isValidUUID (s : string) : bool :=
  (String.length s =? 36)%nat && dash_at s 8 && dash_at s 13 && dash_at s 18 && dash_at s 23.
Definition decode_satellite : list (string * json) → apiSatellite * bool :=
  field "id" decode_string ""%string (field "name" decode_string ""%string (field "status" decode_string ""%string
    (field "created_at" decode_string ""%string (struct (λ c s n i, mkApiSatellite i n s c))))).
Definition loadLocalRegistration (d : Disk) : option apiSatellite := data ← registration d; unmarshal decode_satellite (parse data).

(** A request: the certificate that is trusted, the URL, the name. *)
Definition request : Type := string * string * string.
Definition createSatelliteViaAPI (d : Disk) (nexusURL name : string) (reply : request → option (Z * option json)) (w : write_result)
    : Disk * list request * option apiSatellite :=
  match nexusTLSConfig d with
  | None => (d, [], None)
  | Some ca =>
      let rq := (ca, Str.TrimRight nexusURL "/" +:+ "/api/v1/satellites", name) in
      match reply rq with
      | None => (d, [rq], None)
      | Some (st, body) =>
          if negb (st =? 201) && negb (st =? 200) then (d, [rq], None) else
          match unmarshal decode_satellite body with
          | None => (d, [rq], None)
          | Some sat => (set_registration d (write (registration d) (print_satellite sat) w), [rq], Some sat)
          end
      end
  end.

(** What a login meets; [l_ca_cert]: the file of --ca-cert, [Some None] where it
    cannot be read. *)
Record login_env := mkLogin {
  l_paths : bool; l_url : string; l_ca_cert : option (option string); l_chain : string → option (list string);
  l_keys : option (string * string); l_hostname : string; l_reply : request → option (Z * option json);
  w_ca : write_result; w_pin : write_result; w_pub : write_result; w_priv : write_result; w_reg : write_result;
}.
Inductive login_outcome := LoginFails (msg : string) | AlreadyRegistered (reg : apiSatellite) | Registered (reg : apiSatellite) | Offline.

Definition nexus_url (e : login_env) : string := if String.eqb (l_url e) "" then "http://localhost:8081" else l_url e.
Definition loginCommand (d : Disk) (e : login_env) : Disk * list request * login_outcome :=
  if negb (l_paths e) then (d, [], LoginFails "failed to get default key paths") else
  let placed :=
    match l_ca_cert e with
    | None => Ok d
    | Some None => Err (d, "failed to read CA cert"%string)
    | Some (Some data) =>
        let d' := set_ca d (write (nexus_ca d) data (w_ca e)) in
        if wrote (w_ca e) then Ok d' else Err (d', "failed to save CA cert"%string)
    end in
  match placed with
  | Err (d', msg) => (d', [], LoginFails msg)
  | Ok d1 =>
      let '(d2, _) := loadOrTOFUNexusCA d1 (l_chain e (tofu_addr (extractHost (nexus_url e)))) (w_pin e) in
      let keys :=
        match priv d2 with
        | Some _ => match LoadKeyPair d2 with Some _ => Ok d2 | None => Err (d2, "failed to load existing key pair"%string) end
        | None =>
            match GenerateEd25519KeyPair (l_keys e) with
            | None => Err (d2, "failed to generate key pair"%string)
            | Some kp =>
                match SaveKeyPair d2 kp (w_pub e) (w_priv e) with
                | (d3, true) => Ok d3 | (d3, false) => Err (d3, "failed to save key pair"%string) end
            end
        end in
      match keys with
      | Err (d', msg) => (d', [], LoginFails msg)
      | Ok d3 =>
          match (match loadLocalRegistration d3 with Some reg => if isValidUUID (a_ID reg) then Some reg else None | None => None end) with
          | Some reg => (d3, [], AlreadyRegistered reg)
          | None =>
              let name := if String.eqb (l_hostname e) "" then "satellite"%string else l_hostname e in
              match createSatelliteViaAPI d3 (nexus_url e) name (l_reply e) (w_reg e) with
              | (d4, rqs, Some reg) => (d4, rqs, Registered reg)
              | (d4, rqs, None) => (d4, rqs, Offline)
              end
          end
      end
  end.
Definition logins (d : Disk) (es : list login_env) : Disk := foldl (λ d e, (loginCommand d e).1.1) d es.

(** ** login.go: the client of the tunnel *)

Record SatelliteClient := mkClient { keyPair : KeyPair; nexusURL : string; clientCert : bool; caCertPool : option string }.
(** [certificate]: whether the client certificate loads with satellite.key. *)
Definition NewSatelliteClient (d : Disk) (url : string) (paths certificate : bool) : option SatelliteClient :=
  if negb paths then None else
  match LoadKeyPair d with
  | None => None
  | Some kp => Some (mkClient kp url (bool_decide (is_Some (crt d)) && certificate) (loadNexusCA d))
  end.
(** The host of an URL, as the client takes it: eight characters for "https://". *)
Definition drop8 (s : string) : string := if (8 <? String.length s)%nat then substring 8 (String.length s - 8) s else s.
Definition cut_at (s sep : string) : string :=
  match Str.Cut s sep with Some (h, _) => if String.eqb h "" then s else h | None => s end.
Definition trim_slash (s : string) : string :=
  if (1 <? String.length s)%nat then (if Str.HasSuffix s "/" then substring 0 (String.length s - 1) s else s) else s.
Definition connect_addr (url : string) : string := cut_at (cut_at (trim_slash (drop8 url)) "/") ":" +:+ ":443".
Definition dial_addr (url addr : string) : string := if String.eqb addr "" then cut_at (drop8 url) "/" +:+ ":443" else addr.

(** ** registration.go: the file of satellites *)

Record Satellite := mkSatellite {
  sat_ID : string; sat_Fingerprint : string; sat_PublicKey : string; sat_Status : string; sat_CreatedAt : Z; sat_UpdatedAt : Z;
}.
Variable print_map : gmap string Satellite → string.
(** [Some None]: the JSON null. *)
Variable parse_map : string → option (option (gmap string Satellite)).
Variable map_order : list (string * Satellite) → list (string * Satellite).

(** [None]: an error; a nil map comes from the JSON null. *)
Definition loadSatellites (f : option string) (readable : bool) : option (option (gmap string Satellite)) :=
  if negb readable then None else match f with None => Some (Some ∅) | Some data => parse_map data end.
Definition saveSatellites (f : option string) (m : option (gmap string Satellite)) (mkdir : bool) (w : write_result) : option string * bool :=
  if negb mkdir then (f, false) else
  (write f (match m with Some m => print_map m | None => "null" end) w, wrote w).

(** The file, and whether the call succeeded. *)
Definition CreateSatellite (f : option string) (sat : Satellite) (now : Z) (readable mkdir : bool) (w : write_result)
    : go (option string * bool) :=
  match loadSatellites f readable with
  | None => Ret (f, false)
  | Some m =>
      id ← prefix16 (sat_Fingerprint sat);
      match m with
      | None => Panic
      | Some m => Ret (saveSatellites f (Some (<[id := mkSatellite id (sat_Fingerprint sat) (sat_PublicKey sat) "registered" now now]> m)) mkdir w)
      end
  end.
Definition GetSatellite (f : option string) (id : string) (readable : bool) : option Satellite :=
  m ← loadSatellites f readable; m ← m; m !! id.
Definition ListSatellites (f : option string) (readable : bool) : option (list Satellite) :=
  m ← loadSatellites f readable; Some (match m with Some m => (map_order (map_to_list m)).*2 | None => [] end).
Definition UpdateSatelliteStatus (f : option string) (id status : string) (now : Z) (readable mkdir : bool) (w : write_result)
    : option string * bool :=
  match loadSatellites f readable with
  | None => (f, false)
  | Some m =>
      match m ≫= (.!! id) with
      | None => (f, false)
      | Some s =>
          saveSatellites f ((λ m, <[id := mkSatellite (sat_ID s) (sat_Fingerprint s) (sat_PublicKey s) status (sat_CreatedAt s) now]> m) <$> m) mkdir w
      end
  end.

(** ** What a sequence of logins keeps *)

Fixpoint requests (d : Disk) (es : list login_env) : list request :=
  match es with [] => [] | e :: es' => let '(d', rqs, _) := loginCommand d e in rqs ++ requests d' es' end.
Definition no_ca_cert (e : login_env) : Prop := l_ca_cert e = None.

(** The steps of a login, one at a time. *)
Lemma tofu_pinned d chain w c : loadNexusCA d = Some c → loadOrTOFUNexusCA d chain w = (d, Some c).
Proof. intros H. unfold loadOrTOFUNexusCA. by rewrite H. Qed.
Lemma tofu_others d chain w : let d' := (loadOrTOFUNexusCA d chain w).1 in
  pub d' = pub d ∧ priv d' = priv d ∧ registration d' = registration d.
Proof. unfold loadOrTOFUNexusCA. destruct (loadNexusCA d); [done|]. by destruct (chain ≫= last). Qed.
Lemma save_others d kp w1 w2 : let d' := (SaveKeyPair d kp w1 w2).1 in nexus_ca d' = nexus_ca d ∧ registration d' = registration d.
Proof. unfold SaveKeyPair. by destruct (wrote w1). Qed.
Lemma create_others d url name reply w : let d' := (createSatelliteViaAPI d url name reply w).1.1 in
  pub d' = pub d ∧ priv d' = priv d ∧ nexus_ca d' = nexus_ca d.
Proof.
  unfold createSatelliteViaAPI. destruct (nexusTLSConfig d); [|done]. destruct (reply _) as [[st body]|]; [|done].
  destruct (_ && _); [done|]. by destruct (unmarshal _ body).
Qed.
Lemma create_trusts d url name reply w rq : rq ∈ (createSatelliteViaAPI d url name reply w).1.2 → loadNexusCA d = Some rq.1.1.
Proof.
  unfold createSatelliteViaAPI, nexusTLSConfig. destruct (loadNexusCA d) as [c|]; [|by intros ?%elem_of_nil].
  destruct (reply _) as [[st body]|]; [destruct (_ && _); [|destruct (unmarshal _ body)]|];
    by intros ->%list_elem_of_singleton.
Qed.

(** The keys after a login: untouched if there were any. *)
Lemma login_keys d e x : priv d = Some x → pub (loginCommand d e).1.1 = pub d ∧ priv (loginCommand d e).1.1 = priv d.
Proof.
  intros Hp. unfold loginCommand. destruct (l_paths e); [|done]. cbn [negb].
  destruct (l_ca_cert e) as [[data|]|]; [destruct (wrote (w_ca e)); [|done]|done|];
    (match goal with |- context [loadOrTOFUNexusCA ?a ?b ?c] =>
       pose proof (tofu_others a b c) as (H1 & H2 & _); destruct (loadOrTOFUNexusCA a b c) as [d2 o] end;
     cbn in H1, H2; rewrite H2, Hp; destruct (LoadKeyPair d2); [|by cbn; rewrite H1, H2];
     destruct (loadLocalRegistration d2) as [reg|]; [destruct (isValidUUID (a_ID reg)); [by cbn; rewrite H1, H2|]|];
     match goal with |- context [createSatelliteViaAPI ?a ?b ?c ?d ?e] =>
       pose proof (create_others a b c d e) as (H3 & H4 & _); destruct (createSatelliteViaAPI a b c d e) as [[d4 rqs] [reg'|]] end;
     cbn in *; by rewrite H3, H4, H1, H2).
Qed.

Lemma login_pin d e c : no_ca_cert e → loadNexusCA d = Some c →
  nexus_ca (loginCommand d e).1.1 = nexus_ca d ∧ ∀ rq, rq ∈ (loginCommand d e).1.2 → rq.1.1 = c.
Proof.
  intros Hn Hc. unfold loginCommand. destruct (l_paths e); cbn [negb]; [|split; [done|by intros ? ?%elem_of_nil]].
  rewrite Hn, (tofu_pinned _ _ _ c Hc).
  assert (∀ d3, nexus_ca d3 = nexus_ca d → ∀ url name reply w,
    nexus_ca (createSatelliteViaAPI d3 url name reply w).1.1 = nexus_ca d ∧
    ∀ rq, rq ∈ (createSatelliteViaAPI d3 url name reply w).1.2 → rq.1.1 = c) as Hcreate.
  { intros d3 H3 url name reply w. split; [by rewrite (proj2 (proj2 (create_others d3 url name reply w)))|].
    intros rq Hrq%create_trusts. unfold loadNexusCA in Hc, Hrq. rewrite H3 in Hrq. congruence. }
  assert (∀ d3, nexus_ca d3 = nexus_ca d →
    let r := match (match loadLocalRegistration d3 with Some reg => if isValidUUID (a_ID reg) then Some reg else None | None => None end) with
             | Some reg => (d3, [], AlreadyRegistered reg)
             | None => match createSatelliteViaAPI d3 (nexus_url e) (if String.eqb (l_hostname e) "" then "satellite"%string else l_hostname e) (l_reply e) (w_reg e) with
                       | (d4, rqs, Some reg) => (d4, rqs, Registered reg) | (d4, rqs, None) => (d4, rqs, Offline) end
             end in nexus_ca r.1.1 = nexus_ca d ∧ ∀ rq, rq ∈ r.1.2 → rq.1.1 = c) as Hrest.
  { intros d3 H3. cbn zeta. destruct (match loadLocalRegistration d3 with Some reg => _ | None => None end);
      [split; [done|by intros ? ?%elem_of_nil]|].
    match goal with |- context [createSatelliteViaAPI ?a ?b ?c ?d ?e] =>
      destruct (Hcreate a H3 b c d e) as [H4 H5]; destruct (createSatelliteViaAPI a b c d e) as [[d4 rqs] [reg'|]] end; by split. }
  destruct (priv d) as [x|].
  - destruct (LoadKeyPair d); [by apply Hrest|split; [done|by intros ? ?%elem_of_nil]].
  - destruct (GenerateEd25519KeyPair (l_keys e)) as [kp|]; [|split; [done|by intros ? ?%elem_of_nil]].
    pose proof (save_others d kp (w_pub e) (w_priv e)) as [H6 _]. destruct (SaveKeyPair d kp (w_pub e) (w_priv e)) as [d3 []].
    + by apply Hrest.
    + split; [done|by intros ? ?%elem_of_nil].
Qed.

Lemma pin_stays d c es : loadNexusCA d = Some c → Forall no_ca_cert es → ∀ rq, rq ∈ requests d es → rq.1.1 = c.
Proof.
  intros Hc Hes. revert d Hc. induction Hes as [|e es He Hes IH]; intros d Hc rq; [by intros ?%elem_of_nil|]. cbn [requests].
  destruct (login_pin d e c He Hc) as [H1 H2]. destruct (loginCommand d e) as [[d' rqs] o]. cbn in H1, H2.
  intros [H|H]%elem_of_app; [by apply H2|]. apply (IH d'); [|done]. unfold loadNexusCA. by rewrite H1.
Qed.

(** A login that sends something leaves the certificate it trusted pinned. *)
Lemma login_sends d e rq : rq ∈ (loginCommand d e).1.2 → loadNexusCA (loginCommand d e).1.1 = Some rq.1.1 ∧
  (∀ rq', rq' ∈ (loginCommand d e).1.2 → rq'.1.1 = rq.1.1).
Proof.
  unfold loginCommand. destruct (l_paths e); cbn [negb]; [|by intros ?%elem_of_nil].
  destruct (l_ca_cert e) as [[data|]|]; [destruct (wrote (w_ca e)); [|by intros ?%elem_of_nil]|by intros ?%elem_of_nil|];
    (match goal with |- context [loadOrTOFUNexusCA ?a ?b ?c] => destruct (loadOrTOFUNexusCA a b c) as [d2 o] end;
     match goal with |- context [match ?k with Ok _ => _ | Err _ => _ end] => destruct k as [d3|[d3 msg]] end; [|by intros ?%elem_of_nil];
     destruct (match loadLocalRegistration d3 with Some reg => _ | None => None end); [by intros ?%elem_of_nil|];
     match goal with |- context [createSatelliteViaAPI ?a ?b ?c ?d ?e] =>
       pose proof (create_others a b c d e) as (_ & _ & H3); pose proof (create_trusts a b c d e) as H4;
       destruct (createSatelliteViaAPI a b c d e) as [[d4 rqs] [reg'|]] end;
     cbn in *; intros Hrq; (split; [unfold loadNexusCA; rewrite H3; by apply H4|]);
     intros rq' Hrq'; apply H4 in Hrq, Hrq'; congruence).
Qed.

(** a satellite trusts one certificate: whatever servers it reaches and
    whatever fails in between, all the requests it ever sends to register itself
    trust the same certificate, the one that was pinned when the first of them was
    sent, as long as nobody places another one with --ca-cert. *)
Theorem trusts_one_certificate es : ∀ d, Forall no_ca_cert es →
  ∃ c, ∀ rq, rq ∈ requests d es → rq.1.1 = c.
Proof.
  induction es as [|e es IH]; intros d Hes; [exists ""%string; by intros ? ?%elem_of_nil|].
  apply Forall_cons in Hes as [He Hes]. cbn [requests]. pose proof (login_sends d e) as Hsend.
  destruct (loginCommand d e) as [[d' rqs] o]. cbn [fst snd] in Hsend. destruct rqs as [|r rqs].
  - destruct (IH d' Hes) as [c Hc]. by exists c.
  - destruct (Hsend r (list_elem_of_here _ _)) as [H1 H2]. exists r.1.1. intros rq [H|H]%elem_of_app; [by apply H2|].
    by apply (pin_stays d' r.1.1 es).
Qed.

Lemma logins_keys es : ∀ d x, priv d = Some x → pub (logins d es) = pub d ∧ priv (logins d es) = priv d.
Proof.
  induction es as [|e es IH]; intros d x Hx; [done|]. destruct (login_keys d e x Hx) as [H1 H2].
  destruct (IH (loginCommand d e).1.1 x) as [H3 H4]; [by rewrite H2|]. change (logins d (e :: es)) with (logins (loginCommand d e).1.1 es).
  by rewrite H3, H4, H1, H2.
Qed.

Hypothesis pem_law : ∀ t b, pem_Decode (pem_Encode t b) = Some (t, b).
Hypothesis public_law : ∀ k, ParsePKIXPublicKey (MarshalPKIXPublicKey k) = Some (Some k).
Hypothesis private_law : ∀ k, ParsePKCS8PrivateKey (MarshalPKCS8PrivateKey k) = Some (Some k).

Lemma load_saved d kp : pub d = Some (public_pem (PublicKey kp)) → priv d = Some (private_pem (PrivateKey kp)) →
  LoadKeyPair d = Some (mkKeyPair (PublicKey kp) (PrivateKey kp) (ComputeFingerprint (PublicKey kp))).
Proof using Type pem_law public_law private_law.
  intros H1 H2. unfold LoadKeyPair, load_pem. rewrite H1, H2. unfold public_pem, private_pem. cbn [mbind option_bind].
  rewrite !pem_law. cbn. by rewrite public_law, private_law.
Qed.

(** a satellite has one identity: the first login that can write makes a key
    pair, and that pair, with its fingerprint, is what is loaded after any further
    logins, whatever keys they could make and whatever fails in them. *)
Theorem identity_is_stable d e p k es :
  l_paths e = true → no_ca_cert e → priv d = None → l_keys e = Some (p, k) → w_pub e = Wrote → w_priv e = Wrote →
  LoadKeyPair (logins d (e :: es)) = Some (mkKeyPair p k (ComputeFingerprint p)).
Proof using Type pem_law public_law private_law.
  intros Hpaths Hca Hpriv Hk Hw1 Hw2. change (logins d (e :: es)) with (logins (loginCommand d e).1.1 es).
  assert (pub (loginCommand d e).1.1 = Some (public_pem p) ∧ priv (loginCommand d e).1.1 = Some (private_pem k)) as [H1 H2].
  { unfold loginCommand. rewrite Hpaths, Hca. cbn [negb].
    match goal with |- context [loadOrTOFUNexusCA ?a ?b ?c] =>
      pose proof (tofu_others a b c) as (_ & H2 & _); destruct (loadOrTOFUNexusCA a b c) as [d2 o] end.
    cbn in H2. rewrite H2, Hpriv, Hk. cbn [GenerateEd25519KeyPair fmap option_fmap option_map]. unfold SaveKeyPair. rewrite Hw1, Hw2.
    cbn [wrote negb write]. match goal with |- context [loadLocalRegistration ?x] => set (d3 := x) end.
    destruct (match loadLocalRegistration d3 with Some reg => _ | None => None end); [done|].
    match goal with |- context [createSatelliteViaAPI ?a ?b ?c ?d ?e] =>
      pose proof (create_others a b c d e) as (H3 & H4 & _); destruct (createSatelliteViaAPI a b c d e) as [[d4 rqs] [reg'|]] end;
    cbn in *; by rewrite H3, H4. }
  destruct (logins_keys es _ _ H2) as [H3 H4]. apply (load_saved _ (mkKeyPair p k "")); cbn; congruence.
Qed.

(** a torn key file is never repaired: if a private key is there and the pair
    does not load, as after a write that was cut short, every login from then on
    fails, and the file stays as it is. *)
Theorem torn_key_bricks d x es e :
  priv d = Some x → LoadKeyPair d = None → l_paths e = true → no_ca_cert e →
  (loginCommand (logins d es) e).2 = LoginFails "failed to load existing key pair" ∧ priv (logins d es) = Some x.
Proof.
  intros Hx Hl Hp He. destruct (logins_keys es d x Hx) as [H1 H2]. set (d1 := logins d es) in *. rewrite Hx in H2. split; [|done].
  unfold loginCommand. rewrite Hp, He. cbn [negb].
  match goal with |- context [loadOrTOFUNexusCA ?a ?b ?c] =>
    pose proof (tofu_others a b c) as (H3 & H4 & _); destruct (loadOrTOFUNexusCA a b c) as [d2 o] end.
  cbn in H3, H4. rewrite H4, H2. assert (LoadKeyPair d2 = None) as ->; [|done].
  revert Hl. unfold LoadKeyPair. by rewrite H3, H4, H1, H2, Hx.
Qed.

(** ** The file of satellites is a map *)

Inductive store_call :=
  | FCreate (fp pk : string) (now : Z) (mkdir : bool) (w : write_result)
  | FUpdate (id status : string) (now : Z) (mkdir : bool) (w : write_result)
  | FGet (id : string).
Inductive store_answer := ADone (ok : bool) | AFound (s : option Satellite) | APanics.
Definition store_perform (f : option string) (c : store_call) : option string * store_answer :=
  match c with
  | FCreate fp pk now mkdir w =>
      match CreateSatellite f (mkSatellite "" fp pk "" 0 0) now true mkdir w with Ret (f', ok) => (f', ADone ok) | Panic => (f, APanics) end
  | FUpdate id st now mkdir w => let '(f', ok) := UpdateSatelliteStatus f id st now true mkdir w in (f', ADone ok)
  | FGet id => (f, AFound (GetSatellite f id true))
  end.
(** The write happens, or does not, and then the call fails. *)
Definition lands (mkdir : bool) (w : write_result) : bool := mkdir && wrote w.
Definition store_spec (m : gmap string Satellite) (c : store_call) : gmap string Satellite * store_answer :=
  match c with
  | FCreate fp pk now mkdir w =>
      let id := substring 0 16 fp in
      (if lands mkdir w then <[id := mkSatellite id fp pk "registered" now now]> m else m, ADone (lands mkdir w))
  | FUpdate id st now mkdir w =>
      match m !! id with
      | None => (m, ADone false)
      | Some s => (if lands mkdir w
                   then <[id := mkSatellite (sat_ID s) (sat_Fingerprint s) (sat_PublicKey s) st (sat_CreatedAt s) now]> m else m,
                   ADone (lands mkdir w))
      end
  | FGet id => (m, AFound (m !! id))
  end.
Definition call_ok (c : store_call) : Prop :=
  match c with
  | FCreate fp _ _ _ w => (16 <= String.length fp)%nat ∧ ∀ t, w ≠ Left_ t
  | FUpdate _ _ _ _ w => ∀ t, w ≠ Left_ t
  | FGet _ => True
  end.
Fixpoint store_performs (f : option string) (cs : list store_call) : list store_answer :=
  match cs with [] => [] | c :: cs' => let '(f', a) := store_perform f c in a :: store_performs f' cs' end.
Fixpoint store_specs (m : gmap string Satellite) (cs : list store_call) : list store_answer :=
  match cs with [] => [] | c :: cs' => let '(m', a) := store_spec m c in a :: store_specs m' cs' end.

Hypothesis map_law : ∀ m, parse_map (print_map m) = Some (Some m).

Lemma save_lands f m m' mkdir w : loadSatellites f true = Some (Some m) → (∀ t, w ≠ Left_ t) →
  (saveSatellites f (Some m') mkdir w).2 = lands mkdir w ∧
  loadSatellites (saveSatellites f (Some m') mkdir w).1 true = Some (Some (if lands mkdir w then m' else m)).
Proof using Type map_law.
  intros Hf Hw. unfold saveSatellites, lands. destruct mkdir; [|by split]. cbn [negb andb]. destruct w as [| |t]; cbn; [|done|by destruct (Hw t)].
  by rewrite map_law.
Qed.

(** the file store refines a map: from an absent file or a readable one, any
    sequence of registrations, status updates and lookups answers as a map from
    the first sixteen characters of the fingerprint does; a write that cannot open
    the file changes nothing. *)
Theorem file_refines_map f m cs :
  loadSatellites f true = Some (Some m) → Forall call_ok cs → store_performs f cs = store_specs m cs.
Proof using Type map_law.
  intros Hf Hcs. revert f m Hf. induction Hcs as [|c cs Hc Hcs IH]; intros f m Hf; [done|]. cbn [store_performs store_specs].
  destruct c as [fp pk now mkdir w|id st now mkdir w|id]; cbn [store_perform store_spec call_ok] in *.
  - destruct Hc as [Hlen Hw]. unfold CreateSatellite. rewrite Hf. unfold prefix16. cbn [sat_Fingerprint sat_PublicKey].
    destruct (Nat.ltb_spec (String.length fp) 16); [lia|]. cbn [mbind go_bind].
    match goal with |- context [saveSatellites f (Some ?x) mkdir w] => destruct (save_lands f m x mkdir w Hf Hw) as [H1 H2];
      destruct (saveSatellites f (Some x) mkdir w) as [f' ok] end. cbn in H1, H2. rewrite H1. f_equal. by apply IH.
  - unfold UpdateSatelliteStatus. rewrite Hf. cbn [mbind option_bind]. destruct (m !! id) as [s|]; [|f_equal; by apply IH].
    cbn [fmap option_fmap option_map]. match goal with |- context [saveSatellites f (Some ?x) mkdir w] => destruct (save_lands f m x mkdir w Hf Hc) as [H1 H2];
      destruct (saveSatellites f (Some x) mkdir w) as [f' ok] end. cbn in H1, H2. rewrite H1. f_equal. by apply IH.
  - unfold GetSatellite. rewrite Hf. cbn [mbind option_bind]. f_equal. by apply IH.
Qed.
End Enroll.

(** ** Concrete inputs *)

#[export] Instance Satellite_eq_dec : EqDecision Satellite.
Proof. solve_decision. Defined.
#[export] Instance Satellite_countable : Countable Satellite.
Proof.
  refine (inj_countable' (λ s, (sat_ID s, sat_Fingerprint s, sat_PublicKey s, sat_Status s, sat_CreatedAt s, sat_UpdatedAt s))
    (λ '(i, f, k, st, c, u), mkSatellite i f k st c u) _).
  abstract (by intros []).
Defined.

(** PEM and the map of satellites as the text of a number. *)
Definition demo_pem (t b : string) : string := demo_print (t, b).
Definition demo_unpem (s : string) : option (string * string) := demo_read s.
Definition demo_map (m : gmap string Satellite) : string := demo_print (map_to_list m).
Definition demo_unmap (s : string) : option (option (gmap string Satellite)) :=
  if String.eqb s "null" then Some None else (λ l : list (string * Satellite), Some (list_to_map l)) <$> demo_read s.
Lemma demo_pem_law t b : demo_unpem (demo_pem t b) = Some (t, b).
Proof. apply demo_read_print. Qed.
Lemma demo_map_law m : demo_unmap (demo_map m) = Some (Some m).
Proof.
  unfold demo_unmap, demo_map. destruct (String.eqb_spec (demo_print (map_to_list m)) "null") as [E|_];
    [|rewrite demo_read_print; cbn; by rewrite list_to_map_to_list].
  pose proof (demo_print_free (map_to_list m) "n" eq_refl) as H. by rewrite E in H.
Qed.

Definition demo_chain (c : string) (_ : string) : option (list string) := Some ["leaf"; c]%string.
Definition demo_login (chain : string → option (list string)) (keys : option (string * string)) (reply : request → option (Z * option json)) : login_env :=
  mkLogin true "https://n:8443/x" None chain keys "box" reply Wrote Wrote Wrote Wrote Wrote.
Definition empty_disk : Disk := mkDisk None None None None None.
Notation demo_logins := (logins (λ x, x) demo_pem demo_unpem id id (λ k, Some (Some k)) (λ k, Some (Some k)) (λ _, true) (λ _, None) (λ _, ""%string)).
Notation demo_command := (loginCommand (λ x, x) demo_pem demo_unpem id id (λ k, Some (Some k)) (λ k, Some (Some k)) (λ _, true) (λ _, None) (λ _, ""%string)).
Notation demo_requests := (requests (λ x, x) demo_pem demo_unpem id id (λ k, Some (Some k)) (λ k, Some (Some k)) (λ _, true) (λ _, None) (λ _, ""%string)).
Notation demo_load := (LoadKeyPair (λ x, x) demo_unpem id (λ k, Some (Some k)) (λ k, Some (Some k))).
Definition demo_env1 : login_env := demo_login (demo_chain "root") (Some ("p", "k")%string) (λ _, None).
Definition demo_env2 : login_env := demo_login (demo_chain "evil") (Some ("q", "l")%string) (λ _, Some (500, None)).

Lemma trusts_one_certificate_witness :
  (∃ c, ∀ rq, rq ∈ demo_requests empty_disk [demo_env1; demo_env2] → rq.1.1 = c) ∧
  demo_requests empty_disk [demo_env1; demo_env2] =
    let rq := (demo_pem "CERTIFICATE" "root", "https://n:8443/x/api/v1/satellites", "box")%string in [rq; rq].
Proof.
  split; [|vm_compute; reflexivity]. apply trusts_one_certificate. by repeat constructor.
Defined.

Lemma identity_is_stable_witness :
  demo_load (demo_logins empty_disk [demo_env1; demo_env2]) = Some (mkKeyPair "p" "k" (Base64.EncodeToString Base64.StdEncoding "p")).
Proof.
  apply (identity_is_stable (λ x, x) demo_pem demo_unpem id id (λ k, Some (Some k)) (λ k, Some (Some k)) (λ _, true) (λ _, None) (λ _, ""%string));
    try done. apply demo_pem_law.
Defined.

Lemma torn_key_bricks_witness :
  let d := mkDisk (Some "x") (Some "torn") None None None in
  (demo_command (demo_logins d [demo_env1; demo_env2]) demo_env1).2 = LoginFails "failed to load existing key pair" ∧
  priv (demo_logins d [demo_env1; demo_env2]) = Some "torn"%string.
Proof. intros d. apply torn_key_bricks; done. Defined.

Definition demo_fp : string := "0123456789abcdefXYZ".
Definition demo_calls : list store_call :=
  [FCreate demo_fp "pk" 5 true Wrote; FCreate "0123456789abcdefOTHER" "pk2" 6 true NotOpened;
   FUpdate "0123456789abcdef" "active" 7 true Wrote; FGet "0123456789abcdef"; FUpdate "none" "active" 8 true Wrote]%string.
Lemma file_refines_map_witness :
  store_performs demo_map demo_unmap None demo_calls =
  [ADone true; ADone false; ADone true; AFound (Some (mkSatellite "0123456789abcdef" demo_fp "pk" "active" 5 7)); ADone false].
Proof.
  rewrite (file_refines_map demo_map demo_unmap demo_map_law None ∅ demo_calls); [vm_compute; reflexivity|done|].
  repeat constructor; by intros [].
Defined.

(** A fingerprint of fewer than sixteen characters, or a file with the JSON null,
    panics the registration. *)
Example short_fingerprint_panics :
  CreateSatellite demo_map demo_unmap None (mkSatellite "" "short" "" "" 0 0) 1 true true Wrote = Panic.
Proof. reflexivity. Qed.
Example null_file_panics :
  CreateSatellite demo_map demo_unmap (Some "null"%string) (mkSatellite "" demo_fp "" "" 0 0) 1 true true Wrote = Panic.
Proof. reflexivity. Qed.
(** The addresses are cut at the eighth character, which fits "https://" only. *)
Example https_address : connect_addr "https://nexus:8443/x" = "nexus:443"%string ∧ dial_addr "https://nexus:8443/x" "" = "nexus:8443:443"%string.
Proof. by vm_compute. Qed.
Example http_address : connect_addr "http://nexus/" = "exus:443"%string.
Proof. reflexivity. Qed.
End Enroll.
