(* ===== verification/Schedules.v ===== *)
(** * internal/api/schedules.go: schedules and triggers of agents

    Schedules and triggers are kept in the column [schedule] of
    agent_definitions, as JSON. The cron library is a parameter: [ParseStandard]
    and [Next] of its schedules ([None]: the zero time); so are the printing of
    JSON and the float64 of a threshold. The scheduler is that of
    internal/enterprise/forge/stub.go, all of whose methods refuse. Times are
    nanoseconds; the clock readings of a request are arguments. *)
From S2P Require Import Prelude GoStrings SessionStore Json License Dispatch Agents.
Import Store Json.
#[local] Open Scope Z_scope.

Module Schedules.

Record ScheduleHandler := mkHandler { dbPool : bool; scheduler : bool; licenseMgr : License.Manager }.

(** [c_Threshold] is a number as JSON writes it. *)
Record TriggerCondition := mkCondition { Metric : string; c_Threshold : string; Operator : string }.
Record SetScheduleRequest := mkSchedule { sr_CronExpr : string; sr_SatelliteID : N; sr_MaxRetries : Z }.
Record SetTriggerRequest := mkTrigger {
  tr_Condition : TriggerCondition; tr_SatelliteID : N; tr_Cooldown : Z; tr_MaxRetries : Z;
}.
Record ScheduleConfig := mkScheduleConfig {
  sc_AgentID : N; sc_CronExpr : string; sc_SatelliteID : N; sc_MaxRetries : Z;
}.
Record TriggerConfig := mkTriggerConfig {
  tc_AgentID : N; tc_Condition : TriggerCondition; tc_SatelliteID : N; tc_Cooldown : Z; tc_MaxRetries : Z;
}.

(** What a request meets: the clock when it is checked (twice) and in the
    statement, and the fault of the statement. *)
Record env := mkEnv { now1 : Z; now2 : Z; now : Z; f_exec : fault }.

Inductive Body :=
  | BError (msg : string)
  | BOk (agent : N)
  | BSchedules (l : list (ScheduleConfig * option Z)) (count : Z)
  | BTriggers (l : list (TriggerConfig * option Z)) (count : Z).
Record Response := mkResponse { status : Z; body : Body }.

(** *** forge/stub.go: [true] is ErrEnterpriseRequired *)
Definition RegisterSchedule (agent : N) (cronExpr : string) (sat : N) : bool := true.
Definition RegisterTrigger (agent : N) (c : TriggerCondition) (sat : N) (cooldown : Z) : bool := true.
Definition ListSchedules : list (N * ScheduleConfig) := [].
Definition ListTriggers : list (N * TriggerConfig) := [].
Definition GetCronEntry (agent : N) : option Z := None.          (* its field Next; the zero time *)
Definition GetLastTriggered (agent : N) : option Z := None.

Definition Second : Z := 1000000000.
Definition Minute : Z := 60 * Second.
Definition validOperators : list string := ["gt"; "lt"; "eq"; "gte"; "lte"].

Section Handlers.
Context {Schedule : Type}.
Variable ParseStandard : string → option Schedule.
Variable Next : Schedule → Z → option Z.
Variable uuid_Parse : string → option N.
Variable uuid_String : N → string.
Variable jsonb : string → option string.
Variable print : json → string.

(** [true]: the expression is valid. *)
Definition validateCronExpression (cronExpr : string) (t1 t2 : Z) : bool :=
  match ParseStandard cronExpr with
  | None => false
  | Some schedule =>
      match Next schedule t1 with
      | None => false
      | Some next => negb (next - t2 <? Minute)
      end
  end.

Definition checkEnterpriseLicense (h : ScheduleHandler) : bool := License.IsEnterprise (licenseMgr h).
Definition refuse {T} (t : T) (st : Z) (msg : string) : T * Response := (t, mkResponse st (BError msg)).

(** The guards every handler of one agent starts with. *)
Definition with_agent_id (h : ScheduleHandler) (t : Agents.table) (agentIDStr : string)
    (k : N → Agents.table * Response) : Agents.table * Response :=
  if negb (checkEnterpriseLicense h) then refuse t 403 "scheduled sessions requires an enterprise license" else
  if String.eqb agentIDStr "" then refuse t 400 "agent_id is required" else
  match uuid_Parse agentIDStr with
  | None => refuse t 400 "invalid agent_id"
  | Some agentID => k agentID
  end.

Definition set_schedule (s : option string) (now : Z) (a : Agents.AgentDefinition) : Agents.AgentDefinition :=
  Agents.mkAgent (Agents.ID a) (Agents.Name a) (Agents.DisplayName a) (Agents.Description a) (Agents.Version a)
    (Agents.Type_ a) (Agents.Category a) (Agents.Icon a) (Agents.Provider a) (Agents.Model a)
    (Agents.SystemPrompt a) (Agents.ToolsConfig a) (Agents.Guardrails a) s (Agents.Trigger a)
    (Agents.OutputConfig a) (Agents.Routing a) (Agents.IsBuiltin a) (Agents.IsEnterprise a)
    (Agents.CreatedAt a) now.

(** UPDATE agent_definitions SET schedule = $1 WHERE id = $2; [true] is an error.
    No row is no error. *)
Definition exec_schedule (t : Agents.table) (id : N) (value : option string) (e : env) : Agents.table * bool :=
  match Agents.jsonb_ptr jsonb value with
  | None => (t, true)
  | Some s =>
      let t' := alter (set_schedule s (now e)) id t in
      match f_exec e with NoFault => (t', false) | StmtFails => (t, true) | AckLost => (t', true) end
  end.

Definition marshal_schedule (c : ScheduleConfig) : json :=
  JObject [("agent_id", JString (uuid_String (sc_AgentID c))); ("cron_expr", JString (sc_CronExpr c));
    ("satellite_id", JString (uuid_String (sc_SatelliteID c))); ("max_retries", JInt (sc_MaxRetries c))]%string.
Definition marshal_trigger (c : TriggerConfig) : json :=
  JObject [("agent_id", JString (uuid_String (tc_AgentID c)));
    ("condition", JObject [("metric", JString (Metric (tc_Condition c)));
       ("threshold", JNumber (c_Threshold (tc_Condition c))); ("operator", JString (Operator (tc_Condition c)))]);
    ("satellite_id", JString (uuid_String (tc_SatelliteID c))); ("cooldown", JInt (tc_Cooldown c));
    ("max_retries", JInt (tc_MaxRetries c))]%string.

(** The column, then the scheduler if there is one. *)
Definition persist (h : ScheduleHandler) (t : Agents.table) (id : N) (value : json) (register : bool)
    (e : env) (failed : string) : Agents.table * Response :=
  let '(t', bad) := if dbPool h then exec_schedule t id (Some (print value)) e else (t, false) in
  if (bad : bool) then refuse t' 500 ("failed to persist " +:+ failed)
  else if scheduler h && register then refuse t' 500 ("failed to register " +:+ failed)
  else (t', mkResponse 200 (BOk id)).

Definition HandleSetSchedule (h : ScheduleHandler) (t : Agents.table) (agentIDStr : string)
    (req : option SetScheduleRequest) (e : env) : Agents.table * Response :=
  with_agent_id h t agentIDStr (λ agentID,
    match req with
    | None => refuse t 400 "invalid request body"
    | Some rq =>
        if negb (validateCronExpression (sr_CronExpr rq) (now1 e) (now2 e))
        then refuse t 400 "invalid cron expression" else
        let retries := if sr_MaxRetries rq =? 0 then 3 else sr_MaxRetries rq in
        persist h t agentID
          (marshal_schedule (mkScheduleConfig agentID (sr_CronExpr rq) (sr_SatelliteID rq) retries))
          (RegisterSchedule agentID (sr_CronExpr rq) (sr_SatelliteID rq)) e "schedule"
    end).

(** The errors of the scheduler are only logged. *)
Definition erase (h : ScheduleHandler) (t : Agents.table) (id : N) (e : env) (failed : string)
    : Agents.table * Response :=
  let '(t', bad) := if dbPool h then exec_schedule t id None e else (t, false) in
  if (bad : bool) then refuse t' 500 ("failed to remove " +:+ failed) else (t', mkResponse 200 (BOk id)).

Definition HandleDeleteSchedule (h : ScheduleHandler) (t : Agents.table) (agentIDStr : string) (e : env) :=
  with_agent_id h t agentIDStr (λ agentID, erase h t agentID e "schedule").

Definition trigger_objection (c : TriggerCondition) : option string :=
  if String.eqb (Metric c) "" then Some "condition.metric is required"
  else if negb (existsb (String.eqb (if String.eqb (Operator c) "" then "gt" else Operator c)) validOperators)
  then Some "condition.operator must be one of: gt, lt, eq, gte, lte" else None.

Definition with_defaults (agentID : N) (rq : SetTriggerRequest) : TriggerConfig :=
  let c := tr_Condition rq in
  mkTriggerConfig agentID
    (mkCondition (Metric c) (c_Threshold c) (if String.eqb (Operator c) "" then "gt" else Operator c))
    (tr_SatelliteID rq) (if tr_Cooldown rq =? 0 then Minute * 5 else tr_Cooldown rq)
    (if tr_MaxRetries rq =? 0 then 3 else tr_MaxRetries rq).

Definition HandleSetTrigger (h : ScheduleHandler) (t : Agents.table) (agentIDStr : string)
    (req : option SetTriggerRequest) (e : env) : Agents.table * Response :=
  with_agent_id h t agentIDStr (λ agentID,
    match req with
    | None => refuse t 400 "invalid request body"
    | Some rq =>
        match trigger_objection (tr_Condition rq) with
        | Some msg => refuse t 400 msg
        | None =>
            let c := with_defaults agentID rq in
            persist h t agentID (marshal_trigger c)
              (RegisterTrigger agentID (tc_Condition c) (tc_SatelliteID c) (tc_Cooldown c)) e "trigger"
        end
    end).

Definition HandleDeleteTrigger (h : ScheduleHandler) (t : Agents.table) (agentIDStr : string) (e : env) :=
  with_agent_id h t agentIDStr (λ agentID, erase h t agentID e "trigger").

(** [now]: the clock, read for every entry. *)
Definition next_run (h : ScheduleHandler) (now : Z) (c : ScheduleConfig) : option Z :=
  if scheduler h then
    match GetCronEntry (sc_AgentID c) with
    | Some next => if now <? next then Some next else None
    | None => None
    end
  else None.
Definition HandleListSchedules (h : ScheduleHandler) (now : Z) : Response :=
  if negb (checkEnterpriseLicense h)
  then mkResponse 403 (BError "scheduled sessions requires an enterprise license")
  else let l := (λ p, (p.2, next_run h now p.2)) <$> ListSchedules in
       mkResponse 200 (BSchedules l (Z.of_nat (length l))).
Definition HandleListTriggers (h : ScheduleHandler) : Response :=
  if negb (checkEnterpriseLicense h)
  then mkResponse 403 (BError "scheduled sessions requires an enterprise license")
  else let l := (λ p, (p.2, GetLastTriggered (tc_AgentID p.2))) <$> ListTriggers in
       mkResponse 200 (BTriggers l (Z.of_nat (length l))).

(** GetAgentID, and ParseLimit of a query parameter. *)
Definition GetAgentID (agentIDStr : string) : result Response N :=
  if String.eqb agentIDStr "" then Err (mkResponse 400 (BError "agent_id is required")) else
  match uuid_Parse agentIDStr with
  | None => Err (mkResponse 400 (BError "invalid agent_id"))
  | Some id => Ok id
  end.
Definition ParseLimit (limitStr : string) (defaultLimit maxLimit : Z) : Z :=
  if String.eqb limitStr "" then defaultLimit else
  match Str.Atoi limitStr with
  | None => defaultLimit
  | Some limit => if limit <=? 0 then defaultLimit else if maxLimit <? limit then maxLimit else limit
  end.
(** ValidateTriggerCondition: unlike the handler it has no default operator. *)
Definition ValidateTriggerCondition (c : TriggerCondition) : bool :=
  negb (String.eqb (Metric c) "") && existsb (String.eqb (Operator c)) validOperators.

(** ** The check of a cron expression *)

Lemma validate_spec expr s t1 t2 f : ParseStandard expr = Some s → Next s t1 = Some f →
  validateCronExpression expr t1 t2 = true ↔ t2 + Minute <= f.
Proof.
  intros Hp Hn. unfold validateCronExpression. rewrite Hp, Hn, negb_true_iff, Z.ltb_ge. lia.
Qed.

(** Whether an expression passes the check depends on the moment of the request,
    not on how often it fires: one that next fires at [f] is refused in the
    minute before [f] and accepted before that, and one that fires every minute
    is refused except at the very start of a minute. *)
Theorem cron_check_by_clock expr s :
  ParseStandard expr = Some s →
  (∀ t t' f, Next s t = Some f → t <= t' < f → Next s t' = Some f) →
  (∀ t t1 t2 f, Next s t = Some f → t <= t1 < f →
     validateCronExpression expr t1 t2 = true ↔ t2 + Minute <= f) ∧
  ((∀ t, Next s t = Some ((t / Minute + 1) * Minute)) → ∀ t1 t2, t1 <= t2 →
     validateCronExpression expr t1 t2 = true ↔ t1 mod Minute = 0 ∧ t2 = t1).
Proof.
  intros Hp Hlaw. split.
  - intros t t1 t2 f Hn Ht. apply (validate_spec _ s); [done|]. by apply (Hlaw t).
  - intros Hmin t1 t2 Ht. rewrite (validate_spec _ s t1 t2 _ Hp (Hmin t1)).
    assert (0 < Minute) as Hpos by done. pose proof (Z.div_mod t1 Minute ltac:(lia)).
    pose proof (Z.mod_pos_bound t1 Minute Hpos). nia.
Qed.

(** ** The column that schedules and triggers share *)

Lemma with_agent_id_200 h t s k : (with_agent_id h t s k).2.(status) = 200 →
  ∃ id, uuid_Parse s = Some id ∧ with_agent_id h t s k = k id.
Proof.
  unfold with_agent_id. destruct (checkEnterpriseLicense h); [|done].
  destruct (String.eqb s ""); [done|]. destruct (uuid_Parse s) as [id|]; [|done]. by exists id.
Qed.

Lemma persist_200 h t id v reg e failed : dbPool h = true →
  (persist h t id v reg e failed).2.(status) = 200 →
  ∃ text, jsonb (print v) = Some text ∧
    (persist h t id v reg e failed).1 = alter (set_schedule (Some text) (now e)) id t.
Proof.
  intros Hd. unfold persist, exec_schedule. rewrite Hd. cbn [Agents.jsonb_ptr fmap option_fmap option_map].
  destruct (jsonb (print v)) as [text|]; [|done]. cbn [option_map].
  destruct (f_exec e); [|done..]. cbn. destruct (scheduler h && reg); [done|]. by exists text.
Qed.

Lemma erase_200 h t id e failed : dbPool h = true → (erase h t id e failed).2.(status) = 200 →
  (erase h t id e failed).1 = alter (set_schedule None (now e)) id t.
Proof. intros Hd. unfold erase, exec_schedule. rewrite Hd. cbn. by destruct (f_exec e). Qed.

(** An agent has a schedule or a trigger, never both: setting a trigger replaces
    the schedule that was set before, and removing the trigger leaves the agent
    without either. All requests are answered with 200, also for agents that do
    not exist. *)
Theorem trigger_erases_schedule h t s rq1 e1 rq2 e2 e3 t1 t2 t3 r1 r2 r3 :
  dbPool h = true →
  HandleSetSchedule h t s rq1 e1 = (t1, r1) → HandleSetTrigger h t1 s rq2 e2 = (t2, r2) →
  HandleDeleteTrigger h t2 s e3 = (t3, r3) →
  status r1 = 200 → status r2 = 200 → status r3 = 200 →
  ∃ id c text, uuid_Parse s = Some id ∧ jsonb (print (marshal_trigger c)) = Some text ∧ tc_AgentID c = id ∧
    (∀ a, t2 !! id = Some a → Agents.Schedule a = Some text) ∧
    (∀ a, t3 !! id = Some a → Agents.Schedule a = None) ∧
    dom t3 = dom t ∧ (∀ id', id' ≠ id → t3 !! id' = t !! id').
Proof.
  intros Hd E1 E2 E3 S1 S2 S3.
  assert (∀ id v now (u : Agents.table) a, alter (set_schedule v now) id u !! id = Some a → Agents.Schedule a = v) as Hset.
  { intros id v n u a. rewrite lookup_alter_eq. by intros (a0 & _ & ->)%fmap_Some. }
  unfold HandleSetSchedule in E1. unfold HandleSetTrigger in E2. unfold HandleDeleteTrigger in E3.
  destruct (with_agent_id_200 h t s _ ltac:(rewrite E1; exact S1)) as (id & Hid & H1). rewrite E1 in H1.
  destruct (with_agent_id_200 h t1 s _ ltac:(rewrite E2; exact S2)) as (id2 & Hid2 & H2). rewrite E2 in H2.
  destruct (with_agent_id_200 h t2 s _ ltac:(rewrite E3; exact S3)) as (id3 & Hid3 & H3). rewrite E3 in H3.
  rewrite Hid in Hid2, Hid3. injection Hid2 as <-. injection Hid3 as <-.
  destruct rq1 as [q1|]; [|by injection H1 as _ ->].
  destruct (negb (validateCronExpression _ _ _)); [by injection H1 as _ ->|].
  apply (f_equal fst) in H1 as H1t. apply (f_equal snd) in H1. cbn in H1, H1t.
  destruct (persist_200 _ _ _ _ _ _ _ Hd ltac:(rewrite <- H1; exact S1)) as (text1 & _ & Et1). rewrite Et1 in H1t. subst t1.
  destruct rq2 as [q2|]; [|by injection H2 as _ ->].
  destruct (trigger_objection (tr_Condition q2)); [by injection H2 as _ ->|].
  apply (f_equal fst) in H2 as H2t. apply (f_equal snd) in H2. cbn in H2, H2t.
  destruct (persist_200 _ _ _ _ _ _ _ Hd ltac:(rewrite <- H2; exact S2)) as (text2 & Htext2 & Et2). rewrite Et2 in H2t. subst t2.
  apply (f_equal fst) in H3 as H3t. apply (f_equal snd) in H3. cbn in H3, H3t.
  rewrite erase_200 in H3t by (rewrite <- ?H3; done). subst t3.
  exists id, (with_defaults id q2), text2. split; [done|]. split; [done|]. split; [done|].
  split; [by apply Hset|]. split; [by apply Hset|]. split; [by rewrite !dom_alter_L|].
  intros id' Hne. by rewrite !lookup_alter_ne by done.
Qed.
End Handlers.

(** ** Examples *)

Definition demo_license : License.Manager :=
  License.mkManager (Some (License.mkClaims "c" "Acme" "enterprise" 0 0 [] 0 0)) None true.
Definition demo_handler : ScheduleHandler := mkHandler true false demo_license.
Definition demo_id (s : string) : option N := if String.eqb s "a" then Some 7%N else None.
(** Every minute; daily at 24 h. *)
Definition demo_cron (s : string) : option Z :=
  if String.eqb s "* * * * *" then Some Minute else if String.eqb s "0 0 * * *" then Some (1440 * Minute) else None.
Definition demo_next (period t : Z) : option Z := Some ((t / period + 1) * period).
Definition demo_print (j : json) : string :=
  match j with JObject (_ :: ("cron_expr", _)%string :: _) => "S" | _ => "T" end.
Definition demo_env (t : Z) : env := mkEnv t t t NoFault.
Definition demo_table : Agents.table := {[7%N := Agents.demo_agent "{}"]}.
Definition daily : SetScheduleRequest := mkSchedule "0 0 * * *" 1 0.
Definition hot : SetTriggerRequest := mkTrigger (mkCondition "cpu" "90" "") 1 0 0.

Example cron_check_by_clock_witness :
  validateCronExpression demo_cron demo_next "0 0 * * *" 0 5 = true ∧
  validateCronExpression demo_cron demo_next "0 0 * * *" (1440 * Minute - 5) (1440 * Minute - 4) = false ∧
  validateCronExpression demo_cron demo_next "* * * * *" 1 2 = false.
Proof.
  assert (∀ p, 0 < p → ∀ t t' f, demo_next p t = Some f → t <= t' < f → demo_next p t' = Some f) as Hlaw.
  { intros p Hp t t' f [= <-] Ht. unfold demo_next. do 3 f_equal. symmetry. apply (Z.div_unique _ _ _ (t' - t / p * p)); [|lia].
    pose proof (Z.div_mod t p ltac:(lia)). pose proof (Z.mod_pos_bound t p Hp). lia. }
  split_and!.
  - assert (0 < 1440 * Minute) as Hp by reflexivity.
    apply (proj1 (cron_check_by_clock demo_cron demo_next "0 0 * * *" (1440 * Minute) eq_refl (Hlaw _ Hp)) 0 0 5 (1440 * Minute));
      [reflexivity|vm_compute; split; [discriminate|reflexivity]|vm_compute; discriminate].
  - vm_compute. reflexivity.
  - vm_compute. reflexivity.
Defined.

Example trigger_erases_schedule_witness :
  let set1 := HandleSetSchedule demo_cron demo_next demo_id (λ _, "u") Some demo_print demo_handler demo_table "a" (Some daily) (demo_env 0) in
  let set2 := HandleSetTrigger demo_id (λ _, "u") Some demo_print demo_handler set1.1 "a" (Some hot) (demo_env 5) in
  let del := HandleDeleteTrigger demo_id Some demo_handler set2.1 "a" (demo_env 6) in
  (Agents.Schedule <$> set1.1 !! 7%N) = Some (Some "S"%string) ∧
  ∀ a, del.1 !! 7%N = Some a → Agents.Schedule a = None.
Proof.
  cbv zeta. split; [vm_compute; reflexivity|]. intros a Ha.
  destruct (trigger_erases_schedule demo_cron demo_next demo_id (λ _, "u")%string Some demo_print demo_handler demo_table "a"
    (Some daily) (demo_env 0) (Some hot) (demo_env 5) (demo_env 6) _ _ _ _ _ _ eq_refl
    (surjective_pairing _) (surjective_pairing _) (surjective_pairing _) eq_refl eq_refl eq_refl)
    as (id & c & text & [= <-] & _ & _ & _ & Hdel & _).
  by apply Hdel.
Defined.

(** An agent that does not exist gets the same answer. *)
Example schedule_of_nobody :
  (HandleSetSchedule demo_cron demo_next demo_id (λ _, "u")%string Some demo_print demo_handler ∅ "a" (Some daily) (demo_env 0)) =
  (∅, mkResponse 200 (BOk 7)).
Proof. vm_compute. reflexivity. Qed.
End Schedules.
