(* ===== verification/Pipelines.v ===== *)
(** * Pipelines: internal/database/pipelines.go and internal/api/pipelines.go

    The four tables of migration 027 with their constraints, the statements on
    them, and the handlers. A handler runs many statements outside any
    transaction; the [k]-th of them meets [faults e k]. The columns of type JSONB
    hold the printed form that [jsonb] gives ([None]: not JSON). The executor is
    that of internal/enterprise/forge/stub.go. *)
From S2P Require Import Prelude GoStrings SessionStore Auth Satellites Json License Agents Schedules.
Import Store.
#[local] Open Scope Z_scope.
#[local] Set Default Proof Using "Type".

Module Pipelines.

(** ** Data *)

(** A row of [pipelines]; the struct of the code also has the steps. *)
Record Pipeline := mkPipeline {
  ID : N; Name : string; Description : option string; SatelliteID : option N; CreatedBy : N;
  OnFailure : string; MaxRetries : Z; Schedule : option string; IsEnabled : bool;
  CreatedAt : Z; UpdatedAt : Z;
}.
Record PipelineStep := mkStep {
  s_ID : N; s_PipelineID : N; StepOrder : Z; AgentID : N; InputMode : string; OutputMode : string;
  Config : string; s_CreatedAt : Z;
}.
Record PipelineRun := mkRun {
  r_ID : N; r_PipelineID : N; r_SatelliteID : option N; Status : string; CurrentStep : option Z;
  TriggerSource : string; StartedAt : Z; EndedAt : option Z; Error : option string; r_CreatedAt : Z;
}.
Record PipelineStepRun := mkStepRun {
  sr_ID : N; sr_PipelineRunID : N; sr_StepOrder : Z; sr_AgentRunID : option N; sr_Status : string;
  sr_InputText : option string; sr_OutputText : option string; sr_StartedAt : option Z;
  sr_EndedAt : option Z; sr_Error : option string; sr_CreatedAt : Z;
}.

(** Steps and step runs are keyed by their UNIQUE columns; their own ids are
    taken to be new. *)
Record World := mkWorld {
  sats : gmap N Sats.Sat; agents : Agents.table; users : gset N; agent_runs : gset N;
  pipelines : gmap N Pipeline; steps : gmap (N * Z) PipelineStep;
  runs : gmap N PipelineRun; step_runs : gmap (N * Z) PipelineStepRun;
  audited : list (string * string);
  launched : list (N * N * string);            (* goroutines that run the executor *)
}.
Definition set_pipelines (w : World) p : World :=
  mkWorld (sats w) (agents w) (users w) (agent_runs w) p (steps w) (runs w) (step_runs w) (audited w) (launched w).
Definition set_steps (w : World) s : World :=
  mkWorld (sats w) (agents w) (users w) (agent_runs w) (pipelines w) s (runs w) (step_runs w) (audited w) (launched w).
Definition set_runs (w : World) r : World :=
  mkWorld (sats w) (agents w) (users w) (agent_runs w) (pipelines w) (steps w) r (step_runs w) (audited w) (launched w).
Definition set_step_runs (w : World) s : World :=
  mkWorld (sats w) (agents w) (users w) (agent_runs w) (pipelines w) (steps w) (runs w) s (audited w) (launched w).
Definition set_audited (w : World) a : World :=
  mkWorld (sats w) (agents w) (users w) (agent_runs w) (pipelines w) (steps w) (runs w) (step_runs w) a (launched w).
Definition set_launched (w : World) l : World :=
  mkWorld (sats w) (agents w) (users w) (agent_runs w) (pipelines w) (steps w) (runs w) (step_runs w) (audited w) l.

(** What a request meets. *)
Record env := mkEnv {
  now : Z; new_id : N; new_step : nat → N; new_run : N; faults : nat → fault;
  now1 : Z; now2 : Z;                          (* the clock of the cron check *)
}.
Definition query_fails (e : env) (k : nat) : bool := match faults e k with NoFault => false | _ => true end.

(** The outcome of a statement that writes: what it writes, unless it is
    refused. [true] is an error. *)
Definition attempt (w : World) (next : option World) (f : fault) : World * bool :=
  match next with
  | None => (w, true)
  | Some w' => match f with NoFault => (w', false) | StmtFails => (w, true) | AckLost => (w', true) end
  end.

Definition int4 (z : Z) : bool := (-2147483648 <=? z) && (z <=? 2147483647).
Definition on_failures : list string := ["stop"; "skip"; "retry"; "escalate"].
Definition input_modes : list string := ["none"; "previous_output"].
Definition output_modes : list string := ["next"; "report"; "next_and_report"].
Definition run_statuses : list string := ["pending"; "running"; "completed"; "failed"; "cancelled"].
Definition step_statuses : list string := ["pending"; "running"; "completed"; "failed"; "skipped"].
Definition sources : list string := ["manual"; "schedule"].
Definition one_of (l : list string) (s : string) : bool := existsb (String.eqb s) l.

Section Database.
Variable jsonb : string → option string.
Variable arrange : list Pipeline → list Pipeline.
Variable arrange_runs : list PipelineRun → list PipelineRun.

(** ** internal/database/pipelines.go *)

(** The row, if the constraints of the table accept the values. *)
Definition pipeline_row (w : World) (p : Pipeline) (id created_by : N) (created updated : Z) : option Pipeline :=
  sat ← SatelliteID p;
  schedule ← Agents.jsonb_ptr jsonb (Schedule p);
  if bool_decide (is_Some (sats w !! sat)) && one_of on_failures (OnFailure p) && int4 (MaxRetries p)
  then Some (mkPipeline id (Name p) (Description p) (Some sat) created_by (OnFailure p) (MaxRetries p)
               schedule (IsEnabled p) created updated)
  else None.

(** The first result: the pipeline with its id and times. *)
Definition CreatePipeline (w : World) (p : Pipeline) (e : env) (f : fault) : World * option Pipeline :=
  let row := if bool_decide (CreatedBy p ∈ users w) && bool_decide (pipelines w !! new_id e = None)
             then pipeline_row w p (new_id e) (CreatedBy p) (now e) (now e) else None in
  let '(w', bad) := attempt w ((λ r, set_pipelines w (<[new_id e := r]> (pipelines w))) <$> row) f in
  (w', if (bad : bool) then None else row).

Definition by_order (a b : PipelineStep) : Prop := StepOrder a <= StepOrder b.
#[export] Instance by_order_dec : RelDecision by_order.
Proof. intros a b. unfold by_order. apply _. Defined.

(** ORDER BY step_order ASC *)
Definition steps_of (w : World) (id : N) : list PipelineStep :=
  merge_sort by_order (filter (λ s, s_PipelineID s = id) (map_to_list (steps w)).*2).

(** Two queries, [k] and [k + 1]; a missing row is [nil, nil]. *)
Definition GetPipeline (w : World) (id : N) (e : env) (k : nat)
    : result unit (option (Pipeline * list PipelineStep)) :=
  if query_fails e k then Err () else
  match pipelines w !! id with
  | None => Ok None
  | Some p => if query_fails e (S k) then Err () else Ok (Some (p, steps_of w id))
  end.

Definition newest_first (a b : Pipeline) : Prop := CreatedAt b <= CreatedAt a.
#[export] Instance newest_first_dec : RelDecision newest_first.
Proof. intros a b. unfold newest_first. apply _. Defined.

Definition on_satellite (sat : option N) (p : Pipeline) : Prop :=
  match sat with Some s => SatelliteID p = Some s | None => True end.
#[export] Instance on_satellite_dec sat p : Decision (on_satellite sat p).
Proof. unfold on_satellite. destruct sat; apply _. Defined.

Definition matching (w : World) (sat : option N) : list Pipeline :=
  filter (on_satellite sat) (arrange (map_to_list (pipelines w)).*2).

(** LIMIT and OFFSET of a listing. *)
Definition window {A} (limit offset : Z) (l : list A) : list A :=
  take (Z.to_nat limit) (drop (Z.to_nat offset) l).

Definition ListPipelines (w : World) (limit offset : Z) (sat : option N) (e : env) (k : nat)
    : result unit (list Pipeline * Z) :=
  if query_fails e k || query_fails e (S k) then Err () else
  Ok (window limit offset (merge_sort newest_first (matching w sat)), Z.of_nat (length (matching w sat))).

(** UPDATE … RETURNING: no row is an error. *)
Definition UpdatePipeline (w : World) (p : Pipeline) (e : env) (f : fault) : World * bool :=
  let next := old ← pipelines w !! ID p;
              row ← pipeline_row w p (ID p) (CreatedBy old) (CreatedAt old) (now e);
              Some (set_pipelines w (<[ID p := row]> (pipelines w))) in
  attempt w next f.

(** ON DELETE CASCADE *)
Definition cascade (w : World) (id : N) : World :=
  let gone := filter (λ kv : N * PipelineRun, r_PipelineID kv.2 = id) (runs w) in
  set_step_runs
    (set_runs
       (set_steps (set_pipelines w (delete id (pipelines w)))
          (filter (λ kv : (N * Z) * PipelineStep, kv.1.1 ≠ id) (steps w)))
       (filter (λ kv : N * PipelineRun, r_PipelineID kv.2 ≠ id) (runs w)))
    (filter (λ kv : (N * Z) * PipelineStepRun, gone !! kv.1.1 = None) (step_runs w)).
Definition DeletePipeline (w : World) (id : N) (f : fault) : World * bool := attempt w (Some (cascade w id)) f.

Definition step_row (w : World) (id : N) (s : PipelineStep) (new : N) (now : Z) : option PipelineStep :=
  config ← jsonb (Config s);
  if bool_decide (is_Some (pipelines w !! id)) && bool_decide (is_Some (agents w !! AgentID s)) &&
     one_of input_modes (InputMode s) && one_of output_modes (OutputMode s) && int4 (StepOrder s) &&
     bool_decide (steps w !! (id, StepOrder s) = None)
  then Some (mkStep new id (StepOrder s) (AgentID s) (InputMode s) (OutputMode s) config now) else None.

Definition insert_step (w : World) (id : N) (s : PipelineStep) (new : N) (now : Z) (f : fault) : World * bool :=
  attempt w ((λ r, set_steps w (<[(id, StepOrder s) := r]> (steps w))) <$> step_row w id s new now) f.

(** One INSERT after the other; what was inserted before an error stays. *)
Fixpoint CreatePipelineSteps (w : World) (id : N) (l : list PipelineStep) (e : env) (k : nat) : World * bool :=
  match l with
  | [] => (w, false)
  | s :: l' =>
      let '(w', bad) := insert_step w id s (new_step e k) (now e) (faults e k) in
      if (bad : bool) then (w', true) else CreatePipelineSteps w' id l' e (S k)
  end.

Definition DeletePipelineSteps (w : World) (id : N) (f : fault) : World * bool :=
  attempt w (Some (set_steps w (filter (λ kv : (N * Z) * PipelineStep, kv.1.1 ≠ id) (steps w)))) f.

Definition CreatePipelineRun (w : World) (r : PipelineRun) (e : env) (f : fault) : World * option PipelineRun :=
  let row := sat ← r_SatelliteID r;
    if bool_decide (is_Some (pipelines w !! r_PipelineID r)) && bool_decide (is_Some (sats w !! sat)) &&
       one_of run_statuses (Status r) && one_of sources (TriggerSource r) &&
       bool_decide (runs w !! new_run e = None)
    then Some (mkRun (new_run e) (r_PipelineID r) (Some sat) (Status r) (CurrentStep r) (TriggerSource r)
                 (now e) None None (now e)) else None in
  let '(w', bad) := attempt w ((λ r, set_runs w (<[new_run e := r]> (runs w))) <$> row) f in
  (w', if (bad : bool) then None else row).

Definition by_run_order (a b : PipelineStepRun) : Prop := sr_StepOrder a <= sr_StepOrder b.
#[export] Instance by_run_order_dec : RelDecision by_run_order.
Proof. intros a b. unfold by_run_order. apply _. Defined.
Definition GetPipelineRun (w : World) (id : N) (e : env) (k : nat)
    : result unit (option (PipelineRun * list PipelineStepRun)) :=
  if query_fails e k then Err () else
  match runs w !! id with
  | None => Ok None
  | Some r =>
      if query_fails e (S k) then Err () else
      Ok (Some (r, merge_sort by_run_order
                     (filter (λ s, sr_PipelineRunID s = id) (map_to_list (step_runs w)).*2)))
  end.

Definition UpdatePipelineRun (w : World) (r : PipelineRun) (f : fault) : World * bool :=
  let next := old ← runs w !! r_ID r;
    if one_of run_statuses (Status r) && from_option int4 true (CurrentStep r)
    then Some (set_runs w (<[r_ID r := mkRun (r_ID r) (r_PipelineID old) (r_SatelliteID old) (Status r)
           (CurrentStep r) (TriggerSource old) (StartedAt old) (EndedAt r) (Error r) (r_CreatedAt old)]> (runs w)))
    else None in
  attempt w next f.

Definition newest_run (a b : PipelineRun) : Prop := r_CreatedAt b <= r_CreatedAt a.
#[export] Instance newest_run_dec : RelDecision newest_run.
Proof. intros a b. unfold newest_run. apply _. Defined.
Definition runs_of (w : World) (id : N) : list PipelineRun :=
  filter (λ r, r_PipelineID r = id) (arrange_runs (map_to_list (runs w)).*2).
Definition ListPipelineRuns (w : World) (id : N) (limit offset : Z) (e : env) (k : nat)
    : result unit (list PipelineRun * Z) :=
  if query_fails e k || query_fails e (S k) then Err () else
  Ok (window limit offset (merge_sort newest_run (runs_of w id)), Z.of_nat (length (runs_of w id))).

Definition CreatePipelineStepRun (w : World) (s : PipelineStepRun) (new : N) (now : Z) (f : fault) : World * bool :=
  let key := (sr_PipelineRunID s, sr_StepOrder s) in
  let next :=
    if bool_decide (is_Some (runs w !! sr_PipelineRunID s)) && one_of step_statuses (sr_Status s) &&
       int4 (sr_StepOrder s) && bool_decide (step_runs w !! key = None)
    then Some (set_step_runs w (<[key := mkStepRun new (sr_PipelineRunID s) (sr_StepOrder s) None (sr_Status s)
                 None None None None None now]> (step_runs w))) else None in
  attempt w next f.

Definition UpdatePipelineStepRun (w : World) (s : PipelineStepRun) (f : fault) : World * bool :=
  let next :=
    '(key, old) ← head (filter (λ kv : (N * Z) * PipelineStepRun, sr_ID kv.2 = sr_ID s) (map_to_list (step_runs w)));
    if one_of step_statuses (sr_Status s) && from_option (λ a, bool_decide (a ∈ agent_runs w)) true (sr_AgentRunID s)
    then Some (set_step_runs w (<[key := mkStepRun (sr_ID s) (sr_PipelineRunID old) (sr_StepOrder old)
           (sr_AgentRunID s) (sr_Status s) (sr_InputText s) (sr_OutputText s) (sr_StartedAt s) (sr_EndedAt s)
           (sr_Error s) (sr_CreatedAt old)]> (step_runs w)))
    else None in
  attempt w next f.
End Database.

(** ** internal/api/pipelines.go *)

Record PipelineHandler := mkHandler {
  pipelineExecutor : bool;                     (* the interface is not nil *)
  licenseMgr : License.Manager; auditLogger : bool;
}.

Record CreateStepInput := mkInput { i_AgentID : N; i_InputMode : string; i_OutputMode : string; i_Config : string }.
Record CreatePipelineRequest := mkCreate {
  rq_Name : string; rq_Description : option string; rq_SatelliteID : option N; rq_OnFailure : string;
  rq_MaxRetries : Z; rq_Steps : list CreateStepInput;
}.

Inductive Body :=
  | BError (msg : string)
  | BPipeline (p : Pipeline) (steps : list PipelineStep)
  | BPipelines (l : list (Pipeline * list PipelineStep)) (total : Z)
  | BDeleted
  | BStarted (run pipeline : N) (status : string)
  | BRuns (l : list PipelineRun) (total : Z)
  | BRun (r : PipelineRun) (steps : list PipelineStepRun)
  | BSchedule (pipeline : N) (cron : option string).
Record Response := mkResponse { status : Z; body : Body }.

(** forge/stub.go: it refuses, and touches nothing. *)
Definition RunPipeline (w : World) (pipelineID satelliteID : N) (source : string) : World * bool := (w, true).

Section Handlers.
Context {Schedule_ : Type}.
Variable ParseStandard : string → option Schedule_.
Variable Next : Schedule_ → Z → option Z.
Variable uuid_Parse : string → option N.
Variable uuid_String : N → string.
Variable jsonb : string → option string.
Variable arrange : list Pipeline → list Pipeline.
Variable arrange_runs : list PipelineRun → list PipelineRun.

Notation answer := (World * go Response)%type.
Definition refuse (w : World) (st : Z) (msg : string) : answer := (w, Ret (mkResponse st (BError msg))).
Definition reply (w : World) (st : Z) (b : Body) : answer := (w, Ret (mkResponse st b)).
Definition audit (h : PipelineHandler) (w : World) (action id : string) : World :=
  if auditLogger h then set_audited w (audited w ++ [(action, id)]) else w.

Definition checkEnterpriseLicense (h : PipelineHandler) : bool :=
  License.HasFeature (licenseMgr h) License.FeatureSessionChaining.
Definition licensed (h : PipelineHandler) (w : World) (k : answer) : answer :=
  if negb (checkEnterpriseLicense h)
  then refuse w 403 "pipelines require an enterprise license with session_chaining feature" else k.

(** The id of the path. *)
Definition with_id (h : PipelineHandler) (w : World) (idStr name : string) (k : N → answer) : answer :=
  licensed h w
    (if String.eqb idStr "" then refuse w 400 (name +:+ " is required") else
     match uuid_Parse idStr with
     | None => refuse w 400 ("invalid " +:+ name)
     | Some id => k id
     end).

(** The id of the path and its pipeline; queries 0 and 1. *)
Definition with_pipeline (h : PipelineHandler) (w : World) (idStr : string) (e : env)
    (k : N → Pipeline → list PipelineStep → answer) : answer :=
  with_id h w idStr "pipeline_id" (λ id,
    match GetPipeline w id e 0 with
    | Err _ => refuse w 500 "failed to get pipeline"
    | Ok None => refuse w 404 "pipeline not found"
    | Ok (Some (p, l)) => k id p l
    end).

Definition parseLimitOffset (limitStr offsetStr : string) (defaultLimit maxLimit : Z) : Z * Z :=
  (match Str.Atoi limitStr with
   | Some l => if 0 <? l then if maxLimit <? l then maxLimit else l else defaultLimit
   | None => defaultLimit
   end,
   match Str.Atoi offsetStr with
   | Some o => if 0 <? o then o else 0
   | None => 0
   end).
Definition parseSatelliteID (satIDStr : string) : option N :=
  if String.eqb satIDStr "" then None else uuid_Parse satIDStr.

(** [None]: an error; no row is one. *)
Definition agentExists (w : World) (id : N) (e : env) (k : nat) : option bool :=
  if query_fails e k then None else Some (bool_decide (is_Some (agents w !! id))).
Definition satelliteActive (w : World) (id : N) (e : env) (k : nat) : option bool :=
  if query_fails e k then None else s ← sats w !! id; Some (String.eqb (Sats.s_status s) "active").

(** The first objection to the agents of the steps, and to the satellite. *)
Fixpoint agents_objection (w : World) (l : list CreateStepInput) (e : env) (k : nat) : option (Z * string) :=
  match l with
  | [] => None
  | s :: l' =>
      match agentExists w (i_AgentID s) e k with
      | None => Some (500, "failed to validate agents"%string)
      | Some false => Some (400, ("agent " +:+ uuid_String (i_AgentID s) +:+ " not found")%string)
      | Some true => agents_objection w l' e (S k)
      end
  end.
Definition satellite_objection (w : World) (sat : option N) (e : env) (k : nat) : option (Z * string) :=
  match sat with
  | None => None
  | Some id =>
      match satelliteActive w id e k with
      | None => Some (500, "failed to validate satellite"%string)
      | Some false => Some (400, "satellite is not active"%string)
      | Some true => None
      end
  end.

Fixpoint number_steps (id : N) (i : Z) (l : list CreateStepInput) : list PipelineStep :=
  match l with
  | [] => []
  | s :: l' => mkStep 0 id i (i_AgentID s) (i_InputMode s) (i_OutputMode s) (i_Config s) 0 ::
               number_steps id (i + 1) l'
  end.

(** A nil pipeline is dereferenced. *)
Definition show_pipeline (h : PipelineHandler) (w : World) (got : result unit (option (Pipeline * list PipelineStep)))
    (action id : string) (st : Z) : answer :=
  match got with
  | Err _ => refuse w 500 "failed to retrieve pipeline"
  | Ok None => (w, Panic)
  | Ok (Some (p, l)) => reply (audit h w action id) st (BPipeline p l)
  end.

Definition new_pipeline (rq : CreatePipelineRequest) (createdBy : N) : Pipeline :=
  mkPipeline 0 (rq_Name rq) (rq_Description rq) (rq_SatelliteID rq) createdBy
    (if String.eqb (rq_OnFailure rq) "" then "stop" else rq_OnFailure rq)
    (if rq_MaxRetries rq =? 0 then 3 else rq_MaxRetries rq) None true 0 0.

(** Statements: the agents from 0, the satellite after them, the pipeline at
    1000, its steps from 1001, the rollback at 2000, the read at 2001. *)
Definition HandleCreatePipeline (h : PipelineHandler) (w : World) (req : option CreatePipelineRequest)
    (user : option RBAC.AuthUser) (e : env) : answer :=
  licensed h w
  match req with
  | None => refuse w 400 "invalid request body"
  | Some rq =>
      if String.eqb (rq_Name rq) "" then refuse w 400 "name is required" else
      if (length (rq_Steps rq) <? 2)%nat then refuse w 400 "pipeline must have at least 2 steps" else
      match agents_objection w (rq_Steps rq) e 0 with
      | Some (st, msg) => refuse w st msg
      | None =>
          match satellite_objection w (rq_SatelliteID rq) e (length (rq_Steps rq)) with
          | Some (st, msg) => refuse w st msg
          | None =>
              match match user with None => Some 0%N | Some u => uuid_Parse (RBAC.ID u) end with
              | None => (w, Panic)                (* uuid.MustParse *)
              | Some createdBy =>
                  match CreatePipeline jsonb w (new_pipeline rq createdBy) e (faults e 1000) with
                  | (w, None) => refuse w 500 "failed to create pipeline"
                  | (w, Some p) =>
                      match CreatePipelineSteps jsonb w (ID p) (number_steps (ID p) 1 (rq_Steps rq)) e 1001 with
                      | (w, true) =>
                          refuse (DeletePipeline w (ID p) (faults e 2000)).1 500 "failed to create pipeline steps"
                      | (w, false) =>
                          show_pipeline h w (GetPipeline w (ID p) e 2001) "create" (uuid_String (ID p)) 201
                      end
                  end
              end
          end
      end
  end.

(** The pipelines of a page, each with its steps, by queries from [k] on. *)
Fixpoint load_all (w : World) (l : list Pipeline) (e : env) (k : nat)
    : go (option (list (Pipeline * list PipelineStep))) :=
  match l with
  | [] => Ret (Some [])
  | p :: l' =>
      match GetPipeline w (ID p) e k with
      | Err _ => Ret None
      | Ok None => Panic
      | Ok (Some x) => rest ← load_all w l' e (S (S k)); Ret (option_map (cons x) rest)
      end
  end.

Definition HandleListPipelines (h : PipelineHandler) (w : World) (limitStr offsetStr satIDStr : string)
    (e : env) : answer :=
  licensed h w
    (let '(limit, offset) := parseLimitOffset limitStr offsetStr 20 100 in
     match ListPipelines arrange w limit offset (parseSatelliteID satIDStr) e 0 with
     | Err _ => refuse w 500 "failed to list pipelines"
     | Ok (l, total) =>
         match load_all w l e 2 with
         | Panic => (w, Panic)
         | Ret None => refuse w 500 "failed to load pipeline details"
         | Ret (Some full) => reply w 200 (BPipelines full total)
         end
     end).

Definition HandleGetPipeline (h : PipelineHandler) (w : World) (idStr : string) (e : env) : answer :=
  with_pipeline h w idStr e (λ _ p l, reply w 200 (BPipeline p l)).

Definition updated_pipeline (rq : CreatePipelineRequest) (p : Pipeline) : Pipeline :=
  mkPipeline (ID p) (if String.eqb (rq_Name rq) "" then Name p else rq_Name rq)
    (Agents.or_old (rq_Description rq) (Description p)) (Agents.or_old (rq_SatelliteID rq) (SatelliteID p))
    (CreatedBy p) (if String.eqb (rq_OnFailure rq) "" then OnFailure p else rq_OnFailure rq)
    (if 0 <? rq_MaxRetries rq then rq_MaxRetries rq else MaxRetries p)
    (Schedule p) (IsEnabled p) (CreatedAt p) (UpdatedAt p).

(** Delete the old steps, insert the new ones; [Some] is the answer to a failure. *)
Definition replace_steps (w : World) (id : N) (l : list CreateStepInput) (e : env) : World * bool :=
  match l with
  | [] => (w, false)
  | _ =>
      match DeletePipelineSteps w id (faults e 1001) with
      | (w, true) => (w, true)
      | (w, false) => CreatePipelineSteps jsonb w id (number_steps id 1 l) e 1002
      end
  end.

Definition HandleUpdatePipeline (h : PipelineHandler) (w : World) (idStr : string)
    (req : option CreatePipelineRequest) (e : env) : answer :=
  with_pipeline h w idStr e (λ id existing _,
    match req with
    | None => refuse w 400 "invalid request body"
    | Some rq =>
        if (0 <? length (rq_Steps rq))%nat && (length (rq_Steps rq) <? 2)%nat
        then refuse w 400 "pipeline must have at least 2 steps" else
        match agents_objection w (rq_Steps rq) e 2 with
        | Some (st, msg) => refuse w st msg
        | None =>
            match satellite_objection w (rq_SatelliteID rq) e (2 + length (rq_Steps rq)) with
            | Some (st, msg) => refuse w st msg
            | None =>
                match UpdatePipeline jsonb w (updated_pipeline rq existing) e (faults e 1000) with
                | (w, true) => refuse w 500 "failed to update pipeline"
                | (w, false) =>
                    match replace_steps w id (rq_Steps rq) e with
                    | (w, true) => refuse w 500 "failed to update pipeline steps"
                    | (w, false) => show_pipeline h w (GetPipeline w id e 2001) "update" (uuid_String id) 200
                    end
                end
            end
        end
    end).

(** The audit entry is written before the pipeline is deleted. *)
Definition HandleDeletePipeline (h : PipelineHandler) (w : World) (idStr : string) (e : env) : answer :=
  with_pipeline h w idStr e (λ id _ _,
    match DeletePipeline (audit h w "delete" (uuid_String id)) id (faults e 2) with
    | (w, true) => refuse w 500 "failed to delete pipeline"
    | (w, false) => reply w 204 BDeleted
    end).

(** [req]: the satellite of the body, if there is one; uuid.Nil is 0. *)
Definition run_satellite (req : option N) (p : Pipeline) : N :=
  match req with Some s => s | None => default 0%N (SatelliteID p) end.

Definition HandleRunPipeline (h : PipelineHandler) (w : World) (idStr : string) (req : option N) (e : env)
    : answer :=
  with_pipeline h w idStr e (λ id existing _,
    let sat := run_satellite req existing in
    match if N.eqb sat 0 then None else satellite_objection w (Some sat) e 2 with
    | Some (st, msg) => refuse w st msg
    | None =>
        match CreatePipelineRun w (mkRun 0 id (Some sat) "pending" None "manual" 0 None None 0) e (faults e 3) with
        | (w, None) => refuse w 500 "failed to create pipeline run"
        | (w, Some r) =>
            let w := if pipelineExecutor h then set_launched w (launched w ++ [(id, sat, "manual"%string)]) else w in
            reply (audit h w "run" (uuid_String id)) 202 (BStarted (r_ID r) id "started")
        end
    end).

Definition HandleListPipelineRuns (h : PipelineHandler) (w : World) (idStr limitStr offsetStr : string)
    (e : env) : answer :=
  with_pipeline h w idStr e (λ id _ _,
    let '(limit, offset) := parseLimitOffset limitStr offsetStr 20 100 in
    match ListPipelineRuns arrange_runs w id limit offset e 2 with
    | Err _ => refuse w 500 "failed to list pipeline runs"
    | Ok (l, total) => reply w 200 (BRuns l total)
    end).

Definition HandleGetPipelineRun (h : PipelineHandler) (w : World) (runIDStr : string) (e : env) : answer :=
  with_id h w runIDStr "run_id" (λ id,
    match GetPipelineRun w id e 0 with
    | Err _ => refuse w 500 "failed to get pipeline run"
    | Ok None => refuse w 404 "pipeline run not found"
    | Ok (Some (r, l)) => reply w 200 (BRun r l)
    end).

Definition with_schedule (s : option string) (p : Pipeline) : Pipeline :=
  mkPipeline (ID p) (Name p) (Description p) (SatelliteID p) (CreatedBy p) (OnFailure p) (MaxRetries p)
    s (IsEnabled p) (CreatedAt p) (UpdatedAt p).

Definition HandleSetPipelineSchedule (h : PipelineHandler) (w : World) (idStr : string)
    (req : option string) (e : env) : answer :=
  with_pipeline h w idStr e (λ id existing _,
    match req with
    | None => refuse w 400 "invalid request body"
    | Some cron =>
        if negb (Schedules.validateCronExpression ParseStandard Next cron (now1 e) (now2 e))
        then refuse w 400 "invalid cron expression" else
        match UpdatePipeline jsonb w (with_schedule (Some cron) existing) e (faults e 2) with
        | (w, true) => refuse w 500 "failed to set schedule"
        | (w, false) => reply w 200 (BSchedule id (Some cron))
        end
    end).

Definition HandleDeletePipelineSchedule (h : PipelineHandler) (w : World) (idStr : string) (e : env) : answer :=
  with_pipeline h w idStr e (λ id existing _,
    match UpdatePipeline jsonb w (with_schedule None existing) e (faults e 2) with
    | (w, true) => refuse w 500 "failed to remove schedule"
    | (w, false) => reply w 200 (BSchedule id None)
    end).

(** *** Sequences of requests and of the executor's goroutines *)

Inductive op :=
  | Create (req : option CreatePipelineRequest) (user : option RBAC.AuthUser) (e : env)
  | ListAll (limit offset sat : string) (e : env)
  | Get (id : string) (e : env)
  | Update (id : string) (req : option CreatePipelineRequest) (e : env)
  | Delete (id : string) (e : env)
  | Run (id : string) (req : option N) (e : env)
  | ListRuns (id limit offset : string) (e : env)
  | GetRun (id : string) (e : env)
  | SetSchedule (id : string) (req : option string) (e : env)
  | DeleteSchedule (id : string) (e : env)
  | Execute (i : nat).                          (* the i-th goroutine runs *)

Definition execute (w : World) (i : nat) : World :=
  match launched w !! i with
  | Some (p, s, src) => (RunPipeline (set_launched w (delete i (launched w))) p s src).1
  | None => w
  end.

Definition step (h : PipelineHandler) (w : World) (o : op) : World :=
  match o with
  | Create rq u e => (HandleCreatePipeline h w rq u e).1
  | ListAll l o s e => (HandleListPipelines h w l o s e).1
  | Get id e => (HandleGetPipeline h w id e).1
  | Update id rq e => (HandleUpdatePipeline h w id rq e).1
  | Delete id e => (HandleDeletePipeline h w id e).1
  | Run id rq e => (HandleRunPipeline h w id rq e).1
  | ListRuns id l o e => (HandleListPipelineRuns h w id l o e).1
  | GetRun id e => (HandleGetPipelineRun h w id e).1
  | SetSchedule id rq e => (HandleSetPipelineSchedule h w id rq e).1
  | DeleteSchedule id e => (HandleDeletePipelineSchedule h w id e).1
  | Execute i => execute w i
  end.
Definition run (h : PipelineHandler) (w : World) (ops : list op) : World := foldl (step h) w ops.

(** *** Their statements

    A handler runs its statements one at a time, and those of another handler may
    come in between, with the arguments that it has read before. *)
Inductive statement :=
  | SCreate (p : Pipeline) (e : env) (f : fault)
  | SUpdate (p : Pipeline) (e : env) (f : fault)
  | SDelete (id : N) (f : fault)
  | SInsertStep (id : N) (s : PipelineStep) (new : N) (at_ : Z) (f : fault)
  | SDeleteSteps (id : N) (f : fault)
  | SCreateRun (id sat : N) (e : env) (f : fault)
  | SAudit (action id : string)
  | SLaunch (id sat : N) (source : string)
  | SExecute (i : nat).

(** A run that the handler asks for. *)
Definition asked (id sat : N) : PipelineRun := mkRun 0 id (Some sat) "pending" None "manual" 0 None None 0.
Definition exec (w : World) (s : statement) : World :=
  match s with
  | SCreate p e f => (CreatePipeline jsonb w p e f).1
  | SUpdate p e f => (UpdatePipeline jsonb w p e f).1
  | SDelete id f => (DeletePipeline w id f).1
  | SInsertStep id s new at_ f => (insert_step jsonb w id s new at_ f).1
  | SDeleteSteps id f => (DeletePipelineSteps w id f).1
  | SCreateRun id sat e f => (CreatePipelineRun w (asked id sat) e f).1
  | SAudit action id => set_audited w (audited w ++ [(action, id)])
  | SLaunch id sat source => set_launched w (launched w ++ [(id, sat, source)])
  | SExecute i => execute w i
  end.
Definition exec_all (w : World) (l : list statement) : World := foldl exec w l.

(** ** The invariant of the tables *)

Definition pipeline_ok (w : World) (id : N) (p : Pipeline) : Prop :=
  ID p = id ∧ (∃ sat, SatelliteID p = Some sat ∧ is_Some (sats w !! sat)) ∧
  one_of on_failures (OnFailure p) = true ∧ int4 (MaxRetries p) = true.
Definition step_ok (w : World) (key : N * Z) (s : PipelineStep) : Prop :=
  key = (s_PipelineID s, StepOrder s) ∧ is_Some (pipelines w !! key.1) ∧ is_Some (agents w !! AgentID s) ∧
  one_of input_modes (InputMode s) = true ∧ one_of output_modes (OutputMode s) = true.
(** The steps of a pipeline are numbered from 1 without a gap. *)
Definition numbered (w : World) (id : N) : Prop :=
  ∃ n : nat, ∀ i, is_Some (steps w !! (id, i)) ↔ 1 <= i <= Z.of_nat n.
Definition run_pending (w : World) (id : N) (r : PipelineRun) : Prop :=
  r_ID r = id ∧ is_Some (pipelines w !! r_PipelineID r) ∧ Status r = "pending"%string ∧ EndedAt r = None ∧
  CurrentStep r = None.

Record world_ok (w : World) : Prop := mk_world_ok {
  pipelines_ok : map_Forall (pipeline_ok w) (pipelines w);
  steps_ok : map_Forall (step_ok w) (steps w);
  steps_numbered : ∀ id, numbered w id;
  runs_pending : map_Forall (run_pending w) (runs w);
  no_step_runs : step_runs w = ∅;
}.

Lemma attempt_cases w next f w' b : attempt w next f = (w', b) →
  (w' = w ∧ b = true) ∨ (next = Some w' ∧ (f = NoFault → b = false)).
Proof. unfold attempt. destruct next as [x|], f; intros [= <- <-]; naive_solver. Qed.

Lemma pipeline_row_Some w p id cb c u r : pipeline_row jsonb w p id cb c u = Some r →
  pipeline_ok w id r ∧ SatelliteID r = SatelliteID p ∧ OnFailure r = OnFailure p ∧ MaxRetries r = MaxRetries p.
Proof.
  unfold pipeline_row. intros H. apply bind_Some in H as (sat & Hs & H). apply bind_Some in H as (sch & _ & H).
  destruct (bool_decide _ && _ && _) eqn:E; [|done]. injection H as <-.
  rewrite !andb_true_iff, bool_decide_eq_true in E. destruct E as [[Hsat Hf] Hi].
  split; [|done]. split; [done|]. split; [by exists sat|]. by split.
Qed.

(** A new row, or a row that replaces another. *)
Lemma put_pipeline_ok w id r : world_ok w → pipeline_ok w id r →
  world_ok (set_pipelines w (<[id := r]> (pipelines w))).
Proof.
  intros [H1 H2 H3 H4 H5] Hr. split; cbn; [..|exact H5].
  - intros i p [[<- <-]|[_ Hp]]%lookup_insert_Some; [done|by apply (H1 i p)].
  - intros k s Hs. destruct (H2 k s Hs) as (E & Hp & Hrest). split; [done|]. split; [|done]. cbn.
    apply lookup_insert_is_Some. destruct (decide (id = k.1)); auto.
  - exact H3.
  - intros i x Hx. destruct (H4 i x Hx) as (E & Hp & Hrest). split; [done|]. split; [|done]. cbn.
    apply lookup_insert_is_Some. destruct (decide (id = r_PipelineID x)); auto.
Qed.

Lemma set_audited_ok w a : world_ok w → world_ok (set_audited w a).
Proof. intros [H1 H2 H3 H4 H5]. by split. Qed.
Lemma set_launched_ok w l : world_ok w → world_ok (set_launched w l).
Proof. intros [H1 H2 H3 H4 H5]. by split. Qed.
Lemma audit_ok h w a id : world_ok w → world_ok (audit h w a id).
Proof. unfold audit. destruct (auditLogger h); [apply set_audited_ok|done]. Qed.

Lemma CreatePipeline_ok w p e f w' o : CreatePipeline jsonb w p e f = (w', o) → world_ok w →
  world_ok w' ∧ (∀ r, o = Some r → f = NoFault ∧ pipeline_ok w (new_id e) r ∧ pipelines w !! new_id e = None ∧
    w' = set_pipelines w (<[new_id e := r]> (pipelines w))).
Proof.
  unfold CreatePipeline. destruct (bool_decide _ && bool_decide _) eqn:E; [|cbn; by intros [= <- <-]].
  apply andb_true_iff in E as [_ E]. apply bool_decide_eq_true in E.
  destruct (pipeline_row _ _ _ _ _ _ _) as [r|] eqn:Er; [|cbn; by intros [= <- <-]].
  apply pipeline_row_Some in Er as (Hr & _). cbn [fmap option_fmap option_map].
  intros H Hok. pose proof (put_pipeline_ok w (new_id e) r Hok Hr).
  destruct f; cbn in H; injection H as <- <-; (split; [done|]); by intros ? [= <-].
Qed.

Lemma UpdatePipeline_ok w p e f w' b : UpdatePipeline jsonb w p e f = (w', b) → world_ok w → world_ok w'.
Proof.
  unfold UpdatePipeline. intros [[-> _]|[Hn _]]%attempt_cases; [done|]. intros Hok.
  apply bind_Some in Hn as (old & _ & Hn). apply bind_Some in Hn as (r & Hr & [= <-]).
  apply pipeline_row_Some in Hr as (Hr & _). by apply put_pipeline_ok.
Qed.

Lemma GetPipeline_Some w id e k p l : GetPipeline w id e k = Ok (Some (p, l)) →
  pipelines w !! id = Some p ∧ l = steps_of w id.
Proof.
  unfold GetPipeline. destruct (query_fails e k); [done|]. destruct (pipelines w !! id); [|done].
  destruct (query_fails e (S k)); [done|]. by intros [= <- <-].
Qed.

(** *** Inserting steps *)

(** [n] steps of the request [l] were added, numbered from [i]. *)
Record added (w w' : World) (id : N) (i : Z) (l : list CreateStepInput) (n : nat) : Prop := mk_added {
  added_rest : w' = set_steps w (steps w');
  added_other : ∀ key, key.1 ≠ id ∨ ¬ (i <= key.2 < i + Z.of_nat n) → steps w' !! key = steps w !! key;
  added_here : ∀ j, (j < n)%nat → ∃ s inp, l !! j = Some inp ∧ steps w' !! (id, i + Z.of_nat j) = Some s ∧
    step_ok w (id, i + Z.of_nat j) s ∧ AgentID s = i_AgentID inp ∧ InputMode s = i_InputMode inp ∧
    OutputMode s = i_OutputMode inp ∧ jsonb (i_Config inp) = Some (Config s);
}.

Lemma set_steps_id w : w = set_steps w (steps w).
Proof. by destruct w. Qed.

Lemma added_nothing w id i l : added w w id i l 0.
Proof. split; [apply set_steps_id|done|lia]. Qed.

(** What the table asks of the input that becomes step [i]. *)
Definition input_ok (w : World) (id : N) (i : Z) (inp : CreateStepInput) : bool :=
  bool_decide (is_Some (jsonb (i_Config inp))) && bool_decide (is_Some (pipelines w !! id)) &&
  bool_decide (is_Some (agents w !! i_AgentID inp)) && one_of input_modes (i_InputMode inp) &&
  one_of output_modes (i_OutputMode inp) && int4 i.

Lemma step_row_spec w id i inp new now :
  let s := mkStep 0 id i (i_AgentID inp) (i_InputMode inp) (i_OutputMode inp) (i_Config inp) 0 in
  (∃ r, step_row jsonb w id s new now = Some r ∧ input_ok w id i inp = true ∧ steps w !! (id, i) = None ∧
     step_ok w (id, i) r ∧ AgentID r = i_AgentID inp ∧ InputMode r = i_InputMode inp ∧
     OutputMode r = i_OutputMode inp ∧ jsonb (i_Config inp) = Some (Config r)) ∨
  (step_row jsonb w id s new now = None ∧ (input_ok w id i inp = false ∨ is_Some (steps w !! (id, i)))).
Proof.
  cbv zeta. unfold step_row, input_ok. cbn -[one_of int4].
  destruct (jsonb (i_Config inp)) as [c|] eqn:Ec; cbn -[one_of int4]; [|by auto].
  destruct (_ && _ && _ && _ && int4 i) eqn:E; cbn [andb]; [|by auto].
  destruct (steps w !! (id, i)) eqn:Es; [rewrite bool_decide_eq_false_2 by done; by eauto|].
  rewrite bool_decide_eq_true_2 by done. left. eexists. split; [done|]. split; [done|]. split; [done|].
  rewrite !andb_true_iff, !bool_decide_eq_true in E. destruct E as [[[[Hp Ha] Hi] Ho] _].
  split; [|done]. split; [done|]. by split_and!.
Qed.

(** How many inputs are accepted before the first that is not. *)
Fixpoint good_prefix (w : World) (id : N) (i : Z) (l : list CreateStepInput) : nat :=
  match l with
  | [] => 0
  | inp :: l' => if input_ok w id i inp then S (good_prefix w id (i + 1) l') else 0
  end.

Lemma good_prefix_steps w m id l : ∀ i, good_prefix (set_steps w m) id i l = good_prefix w id i l.
Proof. induction l as [|x l IH]; intros i; [done|]. cbn [good_prefix]. by rewrite IH. Qed.

Definition no_faults (e : env) : Prop := ∀ k, faults e k = NoFault.

Lemma CreatePipelineSteps_added l : ∀ w id i e k w' b,
  CreatePipelineSteps jsonb w id (number_steps id i l) e k = (w', b) →
  ∃ n, (n <= length l)%nat ∧ added w w' id i l n ∧ (b = false → n = length l) ∧
    (no_faults e → (∀ j, i <= j → steps w !! (id, j) = None) →
     n = good_prefix w id i l ∧ (b = true → (n < length l)%nat)).
Proof.
  induction l as [|inp l IH]; intros w id i e k w' b; cbn [number_steps CreatePipelineSteps].
  - intros [= <- <-]. exists 0%nat. split; [done|]. split; [apply added_nothing|done].
  - unfold insert_step. cbn [StepOrder].
    destruct (step_row_spec w id i inp (new_step e k) (now e)) as [(r & Er & Hin & Hnone & Hok & H1 & H2 & H3 & H4)|[Er Hbad]];
      cbv zeta in Er; rewrite Er; cbn [fmap option_fmap option_map].
    2:{ cbn [attempt]. intros [= <- <-]. exists 0%nat. split; [lia|]. split; [apply added_nothing|]. split; [done|].
        intros _ Hnone. cbn [good_prefix]. split; [|simpl; lia]. destruct Hbad as [->|[? Hs]]; [done|].
        rewrite Hnone in Hs by lia. done. }
    set (w1 := set_steps w (<[(id, i) := r]> (steps w))).
    assert (added w w1 id i (inp :: l) 1) as H0.
    { split; [done| |].
      - intros [a z] Hne. unfold w1. cbn. apply lookup_insert_ne. intros [= <- <-]. cbn in Hne. lia.
      - intros j Hj. assert (j = 0%nat) as -> by lia. exists r, inp. rewrite Z.add_0_r. unfold w1. cbn.
        rewrite lookup_insert_eq. by split_and!. }
    destruct (attempt w (Some w1) (faults e k)) as [w2 bad] eqn:Ea.
    destruct (attempt_cases _ _ _ _ _ Ea) as [[-> ->]|[[= <-] Hnf]].
    { intros [= <- <-]. exists 0%nat. split; [lia|]. split; [apply added_nothing|]. split; [done|].
      intros Hf. rewrite Hf in Ea. done. }
    destruct bad.
    { intros [= <- <-]. exists 1%nat. split; [simpl; lia|]. split; [done|]. split; [done|].
      intros Hf. by specialize (Hnf (Hf k)). }
    intros Hc. apply IH in Hc as (n & Hn & [Hrest Hother Hhere] & Hb & Hgood).
    exists (S n). split; [simpl; lia|]. split; [|split; [intros ?; simpl; f_equal; auto|]].
    2:{ intros Hf Hnn. destruct (Hgood Hf) as [Hg Ht].
        - intros j Hj. unfold w1. cbn. rewrite lookup_insert_ne by (intros [=]; lia). apply Hnn. lia.
        - cbn [good_prefix]. rewrite Hin. unfold w1 in Hg. rewrite good_prefix_steps in Hg. split; [congruence|].
          intros ?. simpl. specialize (Ht ltac:(done)). lia. }
    destruct H0 as [_ Hother0 Hhere0]. split.
    + rewrite Hrest. unfold w1. by destruct w.
    + intros key Hk. rewrite Hother, Hother0; [done|destruct Hk; [by left|right; lia]..].
    + intros [|j] Hj.
      * destruct (Hhere0 0%nat ltac:(lia)) as (s & inp' & Hl & Hs & Hrest'). exists s, inp'. split; [done|].
        split; [|done]. rewrite Hother; [done|]. right. cbn. lia.
      * destruct (Hhere j ltac:(lia)) as (s & inp' & Hl & Hs & Hs' & Hrest'). exists s, inp'. split; [done|].
        replace (i + Z.of_nat (S j)) with (i + 1 + Z.of_nat j) by lia.
        split; [done|]. split; [exact Hs'|done].
Qed.

(** Adding to a pipeline without steps keeps the invariant. *)
Lemma added_ok w w' id l n : world_ok w → (∀ i, steps w !! (id, i) = None) → added w w' id 1 l n → world_ok w'.
Proof.
  intros [H1 H2 H3 H4 H5] Hnone [Hrest Hother Hhere]. rewrite Hrest. split; cbn; [done| | |done|done].
  - intros [a z] s Hs. destruct (decide (a = id ∧ 1 <= z < 1 + Z.of_nat n)) as [[-> Hz]|Hne].
    + destruct (Hhere (Z.to_nat (z - 1)) ltac:(lia)) as (s' & inp & _ & Hs' & Hok & _).
      assert (1 + Z.of_nat (Z.to_nat (z - 1)) = z) as Ez by lia. rewrite Ez in Hs', Hok.
      assert (s = s') as -> by congruence. exact Hok.
    + rewrite Hother in Hs by (cbn; destruct (decide (a = id)); [right; intros ?; by apply Hne|by left]). by apply (H2 (a, z) s).
  - intros a. destruct (decide (a = id)) as [->|Hne].
    + exists n. intros z. split; intros Hz.
      * destruct (decide (1 <= z < 1 + Z.of_nat n)); [lia|]. exfalso.
        cbn in Hz. rewrite Hother, Hnone in Hz by (by right). by destruct Hz.
      * destruct (Hhere (Z.to_nat (z - 1)) ltac:(lia)) as (s & _ & _ & Hs & _).
        replace (1 + Z.of_nat (Z.to_nat (z - 1))) with z in Hs by lia. cbn. eauto.
    + destruct (H3 a) as (m & Hm). exists m. intros z. cbn. rewrite Hother by (by left). apply Hm.
Qed.

Lemma delete_steps_ok w id : world_ok w →
  world_ok (set_steps w (filter (λ kv : (N * Z) * PipelineStep, kv.1.1 ≠ id) (steps w))).
Proof.
  intros [H1 H2 H3 H4 H5]. split; cbn; [done| | |done|done].
  - intros k s [Hs _]%map_lookup_filter_Some. by apply (H2 k s).
  - intros a. destruct (decide (a = id)) as [->|Hne].
    + exists 0%nat. intros i. cbn. split; [|lia]. intros [s Hs]. by apply map_lookup_filter_Some in Hs as [_ ?].
    + destruct (H3 a) as (n & Hn). exists n. intros i. cbn. rewrite <- Hn. split; intros [s Hs].
      * apply map_lookup_filter_Some in Hs as [? _]. eauto.
      * exists s. by apply map_lookup_filter_Some.
Qed.

Lemma cascade_ok w id : world_ok w → world_ok (cascade w id).
Proof.
  intros Hok. pose proof (delete_steps_ok w id Hok) as [_ H2 H3 _ _]. destruct Hok as [H1 _ _ H4 H5].
  cbn in H2, H3. split; cbn; [| |exact H3| |].
  - intros i p [_ Hp]%lookup_delete_Some. by apply (H1 i p).
  - intros k s Hs. destruct (H2 k s Hs) as (E & Hp & Hrest). split; [done|]. split; [|done]. cbn.
    apply map_lookup_filter_Some in Hs as [_ Hne]. cbn in Hne. by rewrite lookup_delete_ne by congruence.
  - intros i r [Hr Hne]%map_lookup_filter_Some. destruct (H4 i r Hr) as (E & Hp & Hrest).
    split; [done|]. split; [|done]. cbn in *. by rewrite lookup_delete_ne by congruence.
  - rewrite H5. apply map_filter_empty.
Qed.

Lemma DeletePipeline_ok w id f : world_ok w → world_ok (DeletePipeline w id f).1.
Proof. intros Hok. unfold DeletePipeline, attempt. destruct f; cbn; auto using cascade_ok. Qed.

Lemma CreatePipelineRun_ok w id sat e f w' o : CreatePipelineRun w (asked id sat) e f = (w', o) → world_ok w →
  world_ok w' ∧ (∀ r, o = Some r → r_ID r = new_run e ∧ runs w' !! new_run e = Some r).
Proof.
  unfold CreatePipelineRun. cbn [asked r_SatelliteID mbind option_bind r_PipelineID].
  destruct (bool_decide _ && _ && _ && _ && _) eqn:E; [|cbn; by intros [= <- <-]].
  rewrite !andb_true_iff, !bool_decide_eq_true in E. destruct E as [[[[Hp _] _] _] Hnone].
  intros H [H1 H2 H3 H4 H5].
  assert (world_ok (set_runs w (<[new_run e := mkRun (new_run e) id (Some sat) "pending" None "manual" (now e)
    None None (now e)]> (runs w)))) as Hok.
  { split; cbn; [done..| |done]. intros i r [[<- <-]|[_ Hr]]%lookup_insert_Some; [by split_and!|by apply (H4 i r)]. }
  destruct f; cbn in H; injection H as <- <-; (split; [first [exact Hok|by split]|]); intros r [= <-]; cbn.
  by rewrite lookup_insert_eq.
Qed.

(** *** Handlers *)

Lemma licensed_ok h w k : world_ok w → world_ok k.1 → world_ok (licensed h w k).1.
Proof. unfold licensed. by destruct (negb _). Qed.

Lemma with_id_ok h w s name k : world_ok w → (∀ id, world_ok (k id).1) → world_ok (with_id h w s name k).1.
Proof.
  intros Hw Hk. apply licensed_ok; [done|]. destruct (String.eqb s ""); [done|]. by destruct (uuid_Parse s).
Qed.

Lemma with_pipeline_ok h w s e k : world_ok w →
  (∀ id p, pipelines w !! id = Some p → world_ok (k id p (steps_of w id)).1) →
  world_ok (with_pipeline h w s e k).1.
Proof.
  intros Hw Hk. apply with_id_ok; [done|]. intros id.
  destruct (GetPipeline w id e 0) as [[[p l]|]|] eqn:E; [|done..]. apply GetPipeline_Some in E as [Hp ->]. by apply Hk.
Qed.

Lemma show_pipeline_ok h w got a id st : world_ok w → world_ok (show_pipeline h w got a id st).1.
Proof. intros Hw. destruct got as [[[p l]|]|]; [by apply audit_ok|done..]. Qed.

Lemma HandleCreatePipeline_ok h w rq u e : world_ok w → world_ok (HandleCreatePipeline h w rq u e).1.
Proof.
  intros Hw. apply licensed_ok; [done|]. destruct rq as [rq|]; [|done].
  destruct (String.eqb _ _); [done|]. destruct (_ <? _)%nat; [done|].
  destruct (agents_objection _ _ _ _) as [[? ?]|]; [done|].
  destruct (satellite_objection _ _ _ _) as [[? ?]|]; [done|].
  destruct (match u with None => _ | Some _ => _ end) as [cb|]; [|done].
  destruct (CreatePipeline jsonb w _ e _) as [w1 o] eqn:Ec.
  destruct (CreatePipeline_ok _ _ _ _ _ _ Ec Hw) as [Hw1 Ho]. destruct o as [p|]; [|done].
  destruct (Ho p eq_refl) as (_ & Hp & Hnew & ->).
  set (w1 := set_pipelines w _) in *.
  destruct (CreatePipelineSteps jsonb w1 (ID p) _ e 1001) as [w2 b] eqn:Es.
  apply CreatePipelineSteps_added in Es as (n & _ & Hadd & _ & _).
  assert (∀ i, steps w1 !! (ID p, i) = None) as Hnone.
  { intros i. unfold w1. cbn. destruct (steps w !! (ID p, i)) as [s|] eqn:E; [|done].
    destruct (steps_ok _ Hw _ _ E) as (_ & [x Hx] & _). cbn in Hx.
    destruct Hp as (HID & _). rewrite HID, Hnew in Hx. done. }
  pose proof (added_ok _ _ _ _ _ Hw1 Hnone Hadd) as Hw2.
  destruct b; [|by apply show_pipeline_ok]. by apply DeletePipeline_ok.
Qed.

Lemma replace_steps_ok w id l e : world_ok w → world_ok (replace_steps w id l e).1.
Proof.
  intros Hw. unfold replace_steps. destruct l as [|x l]; [done|].
  destruct (DeletePipelineSteps w id (faults e 1001)) as [w1 b] eqn:Ed.
  pose proof (delete_steps_ok w id Hw) as Hdel.
  destruct (attempt_cases _ _ _ _ _ Ed) as [[-> ->]|[[= <-] _]]; [done|]. destruct b; [done|].
  destruct (CreatePipelineSteps _ _ _ _ _ _) as [w2 b2] eqn:Es. apply CreatePipelineSteps_added in Es as (n & _ & Hadd & _ & _).
  apply (added_ok _ w2 _ _ _ Hdel) in Hadd; [done|]. intros i. cbn.
  apply map_lookup_filter_None. right. intros s _ Hne. by apply Hne.
Qed.

Lemma HandleUpdatePipeline_ok h w s rq e : world_ok w → world_ok (HandleUpdatePipeline h w s rq e).1.
Proof.
  intros Hw. apply with_pipeline_ok; [done|]. intros id p _. destruct rq as [rq|]; [|done].
  destruct (_ && _)%nat; [done|]. destruct (agents_objection _ _ _ _) as [[? ?]|]; [done|].
  destruct (satellite_objection _ _ _ _) as [[? ?]|]; [done|].
  destruct (UpdatePipeline _ _ _ _ _) as [w1 b] eqn:Eu. apply UpdatePipeline_ok in Eu; [|done]. destruct b; [done|].
  pose proof (replace_steps_ok w1 id (rq_Steps rq) e Eu) as Hw2.
  destruct (replace_steps _ _ _ _) as [w2 b]. destruct b; [done|]. by apply show_pipeline_ok.
Qed.

Lemma HandleDeletePipelineSchedule_ok h w s e : world_ok w → world_ok (HandleDeletePipelineSchedule h w s e).1.
Proof.
  intros Hw. apply with_pipeline_ok; [done|]. intros id p _.
  destruct (UpdatePipeline _ _ _ _ _) as [w1 b] eqn:Eu. apply UpdatePipeline_ok in Eu; [|done]. by destruct b.
Qed.

Lemma HandleSetPipelineSchedule_ok h w s rq e : world_ok w →
  world_ok (HandleSetPipelineSchedule h w s rq e).1.
Proof.
  intros Hw. apply with_pipeline_ok; [done|]. intros id p _. destruct rq as [c|]; [|done].
  destruct (negb _); [done|]. destruct (UpdatePipeline _ _ _ _ _) as [w1 b] eqn:Eu.
  apply UpdatePipeline_ok in Eu; [|done]. by destruct b.
Qed.

Lemma HandleRunPipeline_ok h w s rq e : world_ok w → world_ok (HandleRunPipeline h w s rq e).1.
Proof.
  intros Hw. apply with_pipeline_ok; [done|]. intros id p _.
  destruct (if N.eqb (run_satellite rq p) 0 then None else satellite_objection w (Some (run_satellite rq p)) e 2)
    as [[? ?]|] eqn:Eo; cbv zeta; rewrite Eo; [done|].
  fold (asked id (run_satellite rq p)).
  destruct (CreatePipelineRun _ _ _ _) as [w1 o] eqn:Ec. apply CreatePipelineRun_ok in Ec as [Hw1 _]; [|done].
  destruct o; [|done]. apply audit_ok. destruct (pipelineExecutor h); [by apply set_launched_ok|done].
Qed.

Lemma HandleDeletePipeline_ok h w s e : world_ok w → world_ok (HandleDeletePipeline h w s e).1.
Proof.
  intros Hw. apply with_pipeline_ok; [done|]. intros id p _.
  pose proof (DeletePipeline_ok (audit h w "delete" (uuid_String id)) id (faults e 2) ltac:(by apply audit_ok)) as H.
  by destruct (DeletePipeline _ _ _) as [w1 []].
Qed.


Lemma step_world_ok h w o : world_ok w → world_ok (step h w o).
Proof.
  intros Hw. destruct o; cbn [step].
  - by apply HandleCreatePipeline_ok.
  - apply licensed_ok; [done|]. destruct (parseLimitOffset _ _ _ _) as [li off].
    destruct (ListPipelines _ _ _ _ _ _ _) as [[l total]|]; [|done]. by destruct (load_all _ _ _ _) as [[]|].
  - by apply with_pipeline_ok.
  - by apply HandleUpdatePipeline_ok.
  - by apply HandleDeletePipeline_ok.
  - by apply HandleRunPipeline_ok.
  - apply with_pipeline_ok; [done|]. intros i p _. destruct (parseLimitOffset _ _ _ _) as [li off].
    by destruct (ListPipelineRuns _ _ _ _ _ _ _) as [[l total]|].
  - apply with_id_ok; [done|]. intros i. by destruct (GetPipelineRun _ _ _ _) as [[[r l]|]|].
  - by apply HandleSetPipelineSchedule_ok.
  - by apply HandleDeletePipelineSchedule_ok.
  - unfold execute. destruct (launched w !! i) as [[[p s] src]|]; [by apply set_launched_ok|done].
Qed.

Lemma run_world_ok h ops : ∀ w, world_ok w → world_ok (run h w ops).
Proof. induction ops as [|o ops IH]; intros w Hw; [done|]. cbn. by apply IH, step_world_ok. Qed.

(** What GET shows as steps. *)
Lemma steps_of_numbered w id : world_ok w → ∃ n : nat, StepOrder <$> steps_of w id = seqZ 1 (Z.of_nat n).
Proof.
  intros Hw. destruct (steps_numbered w Hw id) as (n & Hn). exists n.
  set (l := filter (λ s, s_PipelineID s = id) (map_to_list (steps w)).*2).
  assert (∀ s, s ∈ l ↔ steps w !! (id, StepOrder s) = Some s) as Hl.
  { intros s. unfold l. rewrite list_elem_of_filter, list_elem_of_fmap. split.
    - intros [<- ([k s'] & -> & Hin)]. apply elem_of_map_to_list in Hin. cbn.
      destruct (steps_ok w Hw k s' Hin) as [-> _]. done.
    - intros Hs. destruct (steps_ok w Hw _ _ Hs) as [Hk _]. injection Hk as Hk. split; [done|].
      exists ((id, StepOrder s), s). split; [done|]. by apply elem_of_map_to_list. }
  assert (NoDup (StepOrder <$> l)) as Hnd.
  { unfold l. pose proof (NoDup_fst_map_to_list (steps w)) as Hfst.
    assert (∀ m : list ((N * Z) * PipelineStep), (∀ kv, kv ∈ m → kv.1 = (s_PipelineID kv.2, StepOrder kv.2)) →
      NoDup m.*1 → NoDup (StepOrder <$> filter (λ s, s_PipelineID s = id) m.*2)) as Hgen.
    { induction m as [|[k s] m IH]; intros Hk Hm; [constructor|]. cbn in Hm. apply NoDup_cons in Hm as [Hnot Hm].
      cbn [fmap list_fmap]. assert (k = (s_PipelineID s, StepOrder s)) as Ek by (apply (Hk (k, s)), list_elem_of_here).
      specialize (IH ltac:(intros kv Hkv; apply Hk; by apply list_elem_of_further) Hm).
      rewrite filter_cons. case_decide as Hid; [|done]. cbn [fmap list_fmap]. apply NoDup_cons. split; [|done].
      intros (s' & Eo & [Hid' Hin]%list_elem_of_filter)%list_elem_of_fmap.
      apply list_elem_of_fmap in Hin as ([k' s2] & -> & Hin). cbn in *. apply Hnot, list_elem_of_fmap.
      exists (k', s2). split; [|done]. pose proof (Hk (k', s2) ltac:(by apply list_elem_of_further)) as E2.
      cbn in *. congruence. }
    apply Hgen; [|done]. intros [k s] Hin. apply elem_of_map_to_list in Hin. by apply (steps_ok w Hw k s). }
  assert (StepOrder <$> steps_of w id ≡ₚ seqZ 1 (Z.of_nat n)) as Hp.
  { unfold steps_of. fold l. rewrite merge_sort_Permutation. apply NoDup_Permutation; [done|apply NoDup_seqZ|].
    intros i. rewrite elem_of_seqZ, list_elem_of_fmap. split.
    - intros (s & -> & Hs%Hl). assert (is_Some (steps w !! (id, StepOrder s))) as Hi by eauto. apply Hn in Hi. lia.
    - intros Hi. destruct (proj2 (Hn i) ltac:(lia)) as [s Hs]. destruct (steps_ok w Hw _ _ Hs) as [Hk _].
      injection Hk as Hid Ho. subst. exists s. split; [done|]. by apply Hl. }
  apply (StronglySorted_unique Z.le); [| |done].
  - apply Sorted_StronglySorted; [apply _|].
    assert (Sorted by_order (steps_of w id)) as Hs.
    { apply Sorted_merge_sort. intros a b. unfold by_order. lia. }
    clear Hp. induction Hs as [|a m Hm IH Ha]; [constructor|]. cbn. constructor; [exact IH|].
    by destruct Ha; constructor.
  - clear. apply Sorted_StronglySorted; [apply _|]. generalize 1. induction n as [|n IH]; intros m; [constructor|].
    rewrite Nat2Z.inj_succ, seqZ_cons by lia. rewrite Z.pred_succ. constructor; [apply IH|].
    destruct n as [|n]; [constructor|]. rewrite Nat2Z.inj_succ, seqZ_cons by lia. constructor. lia.
Qed.

(** *** Statements in any order *)

(** The constraints of the rows: all of the invariant but the numbering. *)
Record rows_ok (w : World) : Prop := {
  rows_pipelines : map_Forall (pipeline_ok w) (pipelines w);
  rows_steps : map_Forall (step_ok w) (steps w);
  rows_runs : map_Forall (run_pending w) (runs w);
  rows_step_runs : step_runs w = ∅;
}.
Lemma world_rows_ok w : world_ok w → rows_ok w.
Proof. intros []. by split. Qed.

Lemma rows_attempt w next f : rows_ok w → (∀ w', next = Some w' → rows_ok w') → rows_ok (attempt w next f).1.
Proof. intros Hw Hn. unfold attempt. destruct next, f; cbn; auto. Qed.

Lemma rows_put_pipeline w id r : rows_ok w → pipeline_ok w id r → rows_ok (set_pipelines w (<[id := r]> (pipelines w))).
Proof.
  intros [H1 H2 H3 H4] Hr.
  assert (∀ k, is_Some (pipelines w !! k) → is_Some (<[id:=r]> (pipelines w) !! k)) as Hup.
  { intros k Hk. apply lookup_insert_is_Some. destruct (decide (id = k)); auto. }
  split; cbn; [..|exact H4].
  - intros i p [[<- <-]|[_ Hp]]%lookup_insert_Some; [done|by apply (H1 i p)].
  - intros k s Hs. destruct (H2 k s Hs) as (E & Hp & Hrest). split; [done|]. split; [by apply Hup|done].
  - intros i x Hx. destruct (H3 i x Hx) as (E & Hp & Hrest). split; [done|]. split; [by apply Hup|done].
Qed.

Lemma rows_drop_steps w (P : (N * Z) * PipelineStep → Prop) `{!∀ x, Decision (P x)} :
  rows_ok w → rows_ok (set_steps w (filter P (steps w))).
Proof. intros [H1 H2 H3 H4]. split; cbn; [done| |done|done]. intros k s [Hs _]%map_lookup_filter_Some. by apply (H2 k s). Qed.

Lemma rows_cascade w id : rows_ok w → rows_ok (cascade w id).
Proof.
  intros [H1 H2 H3 H4]. split; cbn.
  - intros i p [_ Hp]%lookup_delete_Some. by apply (H1 i p).
  - intros k s [Hs Hne]%map_lookup_filter_Some. cbn in Hne. destruct (H2 k s Hs) as (E & Hp & Hrest).
    split; [done|]. split; [|done]. cbn. by rewrite lookup_delete_ne by congruence.
  - intros i r [Hr Hne]%map_lookup_filter_Some. destruct (H3 i r Hr) as (E & Hp & Hrest).
    split; [done|]. split; [|done]. cbn in *. by rewrite lookup_delete_ne by congruence.
  - rewrite H4. apply map_filter_empty.
Qed.

Lemma rows_insert_step w id s new at_ f : rows_ok w → rows_ok (insert_step jsonb w id s new at_ f).1.
Proof.
  intros Hw. apply rows_attempt; [done|]. intros w' Hn. apply fmap_Some in Hn as (r & Hr & ->).
  destruct Hw as [H1 H2 H3 H4]. split; cbn; [done| |done|done].
  intros k x [[<- <-]|[_ Hx]]%lookup_insert_Some; [|by apply (H2 k x)].
  unfold step_row in Hr. apply bind_Some in Hr as (c & _ & Hr). destruct (_ && _ && _ && _ && _ && _) eqn:E; [|done].
  injection Hr as <-. rewrite !andb_true_iff, !bool_decide_eq_true in E. destruct E as [[[[[Hp Ha] Hi] Ho] _] _].
  split; [done|]. by split_and!.
Qed.

Lemma rows_create_run w id sat e f : rows_ok w → rows_ok (CreatePipelineRun w (asked id sat) e f).1.
Proof.
  intros Hw. unfold CreatePipelineRun. cbn [asked r_SatelliteID mbind option_bind r_PipelineID].
  match goal with |- context [if ?b then ?x else None] => set (row := if b then x else None) end. assert (∀ r, row = Some r → run_pending w (new_run e) r) as Hrow.
  { subst row. intros r. destruct (bool_decide _ && _ && _ && _ && _) eqn:E; [|done]. intros [= <-].
    rewrite !andb_true_iff, !bool_decide_eq_true in E. destruct E as [[[[Hp _] _] _] _]. by split_and!. }
  pose proof (rows_attempt w ((λ r, set_runs w (<[new_run e := r]> (runs w))) <$> row) f Hw) as H.
  destruct (attempt w _ f) as [w' bad]. apply H. intros w1 (r & Hr & ->)%fmap_Some. destruct Hw as [H1 H2 H3 H4].
  split; cbn; [done..| |done]. intros i x [[<- <-]|[_ Hx]]%lookup_insert_Some; [by apply Hrow|by apply (H3 i x)].
Qed.

Lemma rows_same w w' : rows_ok w → w' = set_launched (set_audited w (audited w')) (launched w') → rows_ok w'.
Proof. intros [H1 H2 H3 H4] ->. by split. Qed.

Lemma exec_rows_ok w s : rows_ok w → rows_ok (exec w s).
Proof.
  intros Hw. destruct s as [p e f|p e f|id f|id x new at_ f|id f|id sat e f|action id|id sat source|i]; cbn [exec].
  - unfold CreatePipeline. match goal with |- context [if ?b then ?x else None] => set (row := if b then x else None) end.
    pose proof (rows_attempt w ((λ r, set_pipelines w (<[new_id e := r]> (pipelines w))) <$> row) f Hw) as H.
    destruct (attempt w _ f) as [w' bad]. apply H. intros w1 (r & Hr & ->)%fmap_Some. subst row.
    destruct (bool_decide _ && _); [|done]. apply pipeline_row_Some in Hr as [Hr _]. by apply rows_put_pipeline.
  - apply rows_attempt; [done|]. intros w1 Hn. apply bind_Some in Hn as (old & _ & Hn). apply bind_Some in Hn as (r & Hr & [= <-]).
    apply pipeline_row_Some in Hr as [Hr _]. by apply rows_put_pipeline.
  - apply rows_attempt; [done|]. intros w1 [= <-]. by apply rows_cascade.
  - by apply rows_insert_step.
  - apply rows_attempt; [done|]. intros w1 [= <-]. by apply rows_drop_steps.
  - by apply rows_create_run.
  - by apply (rows_same w).
  - by apply (rows_same w).
  - unfold execute. destruct (launched w !! i) as [[[p s] src]|]; [|done]. by apply (rows_same w).
Qed.
Lemma exec_all_rows_ok l : ∀ w, rows_ok w → rows_ok (exec_all w l).
Proof. induction l as [|s l IH]; intros w Hw; [done|]. by apply IH, exec_rows_ok. Qed.

(** Every request is a sequence of these statements. *)
Definition does (w w' : World) : Prop := ∃ l, w' = exec_all w l.
Lemma does_nothing w : does w w.
Proof. by exists []. Qed.
Lemma does_one w s : does w (exec w s).
Proof. by exists [s]. Qed.
Lemma does_then w1 w2 w3 : does w1 w2 → does w2 w3 → does w1 w3.
Proof. intros [l ->] [k ->]. exists (l ++ k). unfold exec_all. by rewrite foldl_app. Qed.
Lemma does_audit h w a id : does w (audit h w a id).
Proof. unfold audit. destruct (auditLogger h); [exact (does_one w (SAudit a id))|apply does_nothing]. Qed.
Lemma licensed_does h w k : does w k.1 → does w (licensed h w k).1.
Proof. unfold licensed. destruct (negb _); [intros _; apply does_nothing|done]. Qed.
Lemma with_id_does h w s name k : (∀ id, does w (k id).1) → does w (with_id h w s name k).1.
Proof.
  intros Hk. apply licensed_does. destruct (String.eqb s ""); [apply does_nothing|].
  destruct (uuid_Parse s); [apply Hk|apply does_nothing].
Qed.
Lemma with_pipeline_does h w s e k : (∀ id p l, does w (k id p l).1) → does w (with_pipeline h w s e k).1.
Proof.
  intros Hk. apply with_id_does. intros id. destruct (GetPipeline w id e 0) as [[[p l]|]|]; [apply Hk|apply does_nothing..].
Qed.
Lemma show_pipeline_does h w got a id st : does w (show_pipeline h w got a id st).1.
Proof. destruct got as [[[p l]|]|]; [apply does_audit|apply does_nothing..]. Qed.
Lemma CreatePipelineSteps_does l : ∀ w id e k, does w (CreatePipelineSteps jsonb w id l e k).1.
Proof.
  induction l as [|s l IH]; intros w id e k; [apply does_nothing|]. cbn [CreatePipelineSteps].
  pose proof (does_one w (SInsertStep id s (new_step e k) (now e) (faults e k))) as H. cbn [exec] in H.
  destruct (insert_step _ _ _ _ _ _ _) as [w1 [|]]; [exact H|]. by eapply does_then; [exact H|apply IH].
Qed.
Lemma replace_steps_does w id l e : does w (replace_steps w id l e).1.
Proof.
  unfold replace_steps. destruct l as [|x l]; [apply does_nothing|].
  pose proof (does_one w (SDeleteSteps id (faults e 1001))) as H. cbn [exec] in H.
  destruct (DeletePipelineSteps _ _ _) as [w1 [|]]; [exact H|]. eapply does_then; [exact H|]. apply CreatePipelineSteps_does.
Qed.

Lemma create_does h w rq u e : does w (HandleCreatePipeline h w rq u e).1.
Proof.
  apply licensed_does. destruct rq as [rq|]; [|apply does_nothing].
  destruct (String.eqb _ _); [apply does_nothing|]. destruct (_ <? _)%nat; [apply does_nothing|].
  destruct (agents_objection _ _ _ _) as [[? ?]|]; [apply does_nothing|].
  destruct (satellite_objection _ _ _ _) as [[? ?]|]; [apply does_nothing|].
  destruct (match u with None => _ | Some _ => _ end) as [cb|]; [|apply does_nothing].
  pose proof (does_one w (SCreate (new_pipeline rq cb) e (faults e 1000))) as H. cbn [exec] in H.
  destruct (CreatePipeline jsonb w _ e _) as [w1 [p|]]; [|exact H]. eapply does_then; [exact H|]. cbn [fst].
  pose proof (CreatePipelineSteps_does (number_steps (ID p) 1 (rq_Steps rq)) w1 (ID p) e 1001) as H1.
  destruct (CreatePipelineSteps _ _ _ _ _ _) as [w2 [|]]; (eapply does_then; [exact H1|]); [|apply show_pipeline_does].
  exact (does_one w2 (SDelete (ID p) (faults e 2000))).
Qed.

Lemma update_does h w s rq e : does w (HandleUpdatePipeline h w s rq e).1.
Proof.
  apply with_pipeline_does. intros id p _. destruct rq as [rq|]; [|apply does_nothing].
  destruct (_ && _)%nat; [apply does_nothing|]. destruct (agents_objection _ _ _ _) as [[? ?]|]; [apply does_nothing|].
  destruct (satellite_objection _ _ _ _) as [[? ?]|]; [apply does_nothing|].
  pose proof (does_one w (SUpdate (updated_pipeline rq p) e (faults e 1000))) as H. cbn [exec] in H.
  destruct (UpdatePipeline _ _ _ _ _) as [w1 [|]]; [exact H|]. eapply does_then; [exact H|]. cbn [fst].
  pose proof (replace_steps_does w1 id (rq_Steps rq) e) as H1.
  destruct (replace_steps _ _ _ _) as [w2 [|]]; [exact H1|]. eapply does_then; [exact H1|]. apply show_pipeline_does.
Qed.

Lemma run_does h w s rq e : does w (HandleRunPipeline h w s rq e).1.
Proof.
  apply with_pipeline_does. intros id p _. cbv zeta.
  destruct (if N.eqb (run_satellite rq p) 0 then None else satellite_objection w (Some (run_satellite rq p)) e 2)
    as [[? ?]|]; [apply does_nothing|].
  pose proof (does_one w (SCreateRun id (run_satellite rq p) e (faults e 3))) as H. cbn [exec] in H. fold (asked id (run_satellite rq p)).
  destruct (CreatePipelineRun _ _ _ _) as [w1 [r|]]; [|exact H]. eapply does_then; [exact H|]. cbn [fst reply].
  eapply does_then; [|apply does_audit]. destruct (pipelineExecutor h); [|apply does_nothing].
  exact (does_one w1 (SLaunch id (run_satellite rq p) "manual")).
Qed.

Lemma schedule_does w p e f (k k' : World → go Response) :
  does w (match UpdatePipeline jsonb w p e f with (w, true) => (w, k w) | (w, false) => (w, k' w) end).1.
Proof.
  pose proof (does_one w (SUpdate p e f)) as H. cbn [exec] in H. by destruct (UpdatePipeline _ _ _ _ _) as [w1 [|]].
Qed.

Lemma step_does h w o : does w (step h w o).
Proof.
  destruct o as [rq u e|l o s e|id e|id rq e|id e|id rq e|id l o e|id e|id rq e|id e|i]; cbn [step].
  - apply create_does.
  - apply licensed_does. destruct (parseLimitOffset _ _ _ _) as [li off].
    destruct (ListPipelines _ _ _ _ _ _ _) as [[x total]|]; [|apply does_nothing].
    destruct (load_all _ _ _ _) as [[]|]; apply does_nothing.
  - apply with_pipeline_does. intros. apply does_nothing.
  - apply update_does.
  - apply with_pipeline_does. intros i p _. eapply does_then; [apply (does_audit h w "delete" (uuid_String i))|].
    pose proof (does_one (audit h w "delete" (uuid_String i)) (SDelete i (faults e 2))) as H. cbn [exec] in H.
    by destruct (DeletePipeline _ _ _) as [w1 [|]].
  - apply run_does.
  - apply with_pipeline_does. intros i p _. destruct (parseLimitOffset _ _ _ _) as [li off].
    destruct (ListPipelineRuns _ _ _ _ _ _ _) as [[x total]|]; apply does_nothing.
  - apply with_id_does. intros i. destruct (GetPipelineRun _ _ _ _) as [[[r x]|]|]; apply does_nothing.
  - apply with_pipeline_does. intros i p _. destruct rq as [c|]; [|apply does_nothing].
    destruct (negb _); [apply does_nothing|]. unfold refuse, reply. apply schedule_does.
  - apply with_pipeline_does. intros i p _. unfold refuse, reply. apply schedule_does.
  - exact (does_one w (SExecute i)).
Qed.

(** C30: Under any sequence of requests, served one after the other, of any faults of
    their statements and of the executor's goroutines, the rows keep their
    constraints, the steps of a pipeline refer to definitions that exist and are
    numbered 1, 2, … without a gap, and GET shows them in that order. Every request
    is a sequence of the statements above, and where requests are served at the
    same time, so that their statements come in any order, the rows keep their
    constraints as well, though not the numbering. *)
Theorem pipelines_invariant h w : world_ok w →
  (∀ ops, world_ok (run h w ops) ∧ ∀ id, ∃ n : nat, StepOrder <$> steps_of (run h w ops) id = seqZ 1 (Z.of_nat n)) ∧
  (∀ w o, ∃ l, step h w o = exec_all w l) ∧
  (∀ l, rows_ok (exec_all w l)).
Proof.
  intros Hw. split; [intros ops; split; [by apply run_world_ok|]; intros id; by apply steps_of_numbered, run_world_ok|].
  split; [apply step_does|]. intros l. by apply exec_all_rows_ok, world_rows_ok.
Qed.

Lemma with_pipeline_answer h w s e k w' rsp : with_pipeline h w s e k = (w', Ret rsp) → status rsp < 400 →
  ∃ id p, pipelines w !! id = Some p ∧ k id p (steps_of w id) = (w', Ret rsp).
Proof.
  unfold with_pipeline, with_id, licensed. destruct (negb _); [by intros [= <- <-]|].
  destruct (String.eqb s ""); [by intros [= <- <-]|]. destruct (uuid_Parse s) as [id|]; [|by intros [= <- <-]].
  destruct (GetPipeline w id e 0) as [[[p l]|]|] eqn:E; [|by intros [= <- <-]..].
  apply GetPipeline_Some in E as [Hp ->]. eauto.
Qed.

Lemma satellite_objection_status w sat e k st msg : satellite_objection w sat e k = Some (st, msg) → 400 <= st.
Proof.
  unfold satellite_objection. destruct sat; [|done]. destruct (satelliteActive _ _ _ _) as [[]|]; intros [= <- <-]; lia.
Qed.

(** C31: A run that was answered with "started" never starts: whatever requests
    follow, and whenever the goroutine runs, its row stays pending, without a
    current step, an end or a step run. *)
Theorem runs_stay_pending h w s rq e w1 rsp ops : world_ok w →
  HandleRunPipeline h w s rq e = (w1, Ret rsp) → status rsp = 202 →
  ∃ id r p, body rsp = BStarted id p "started" ∧ runs w1 !! id = Some r ∧
    (∀ r', runs (run h w1 ops) !! id = Some r' → Status r' = "pending"%string ∧ EndedAt r' = None ∧
       CurrentStep r' = None) ∧
    step_runs (run h w1 ops) = ∅.
Proof.
  intros Hw E Hst. destruct (with_pipeline_answer _ _ _ _ _ _ _ E ltac:(lia)) as (id & p & Hp & Hk).
  pose proof (HandleRunPipeline_ok h w s rq e Hw) as Hw1. rewrite E in Hw1. cbn in Hw1. cbv beta zeta in Hk.
  destruct (if N.eqb (run_satellite rq p) 0 then None else _) as [[st msg]|] eqn:Eo.
  { exfalso. injection Hk as <- <-. destruct (N.eqb _ 0); [done|].
    apply satellite_objection_status in Eo. cbn in Hst. lia. }
  fold (asked id (run_satellite rq p)) in Hk.
  destruct (CreatePipelineRun _ _ _ _) as [w2 o] eqn:Ec. apply CreatePipelineRun_ok in Ec as [_ Ho]; [|done].
  destruct o as [r|]; [|by injection Hk as <- <-]. destruct (Ho r eq_refl) as [Hid Hr]. injection Hk as <- <-.
  exists (r_ID r), r, id. split; [done|]. split.
  { rewrite Hid. unfold audit. destruct (auditLogger h), (pipelineExecutor h); exact Hr. }
  pose proof (run_world_ok h ops _ Hw1) as Hw'. split; [|by apply no_step_runs].
  intros r' Hr'. by destruct (runs_pending _ Hw' _ _ Hr') as (_ & _ & H1 & H2 & H3).
Qed.

(** ** Schedules *)

(** No schedule can be set: an expression that the cron library accepts is not
    the text of a JSON value, and the column is of type JSONB. Every request is
    answered with an error and changes nothing. *)
Theorem schedule_never_set h w s rq e :
  (∀ expr sch, ParseStandard expr = Some sch → jsonb expr = None) →
  ∃ rsp, HandleSetPipelineSchedule h w s rq e = (w, Ret rsp) ∧ 400 <= status rsp.
Proof.
  intros Hlaw. unfold HandleSetPipelineSchedule, with_pipeline, with_id, licensed, refuse.
  destruct (negb _); [by eexists|]. destruct (String.eqb s ""); [by eexists|].
  destruct (uuid_Parse s) as [id|]; [|by eexists].
  destruct (GetPipeline w id e 0) as [[[p l]|]|] eqn:E; [|by eexists..].
  destruct rq as [cron|]; [|by eexists].
  destruct (Schedules.validateCronExpression _ _ _ _ _) eqn:Ev; cbn [negb]; [|by eexists].
  assert (jsonb cron = None) as Hj.
  { unfold Schedules.validateCronExpression in Ev. destruct (ParseStandard cron) as [sch|] eqn:Ep; [|done]. by apply (Hlaw _ sch). }
  assert (UpdatePipeline jsonb w (with_schedule (Some cron) p) e (faults e 2) = (w, true)) as ->; [|by eexists].
  unfold UpdatePipeline, pipeline_row. cbn [with_schedule ID SatelliteID Schedule Agents.jsonb_ptr].
  rewrite Hj. destruct (pipelines w !! ID p) as [old|]; [|done]. by destruct (SatelliteID p).
Qed.

(** ** Creating and updating *)

Definition input_accepted (inp : CreateStepInput) : Prop :=
  is_Some (jsonb (i_Config inp)) ∧ one_of input_modes (i_InputMode inp) = true ∧
  one_of output_modes (i_OutputMode inp) = true.

Lemma good_prefix_all w id l : is_Some (pipelines w !! id) → Forall (λ inp, is_Some (agents w !! i_AgentID inp)) l →
  ∀ i, 0 < i → good_prefix w id i l = length l ↔
    Forall input_accepted l ∧ (l = [] ∨ i + Z.of_nat (length l) <= 2147483648).
Proof.
  intros Hp. induction 1 as [|inp l Ha Hl IH]; intros i Hi; cbn [good_prefix length];
    [by split; [intros _; split; [constructor|left]|]|].
  destruct (input_ok w id i inp) eqn:Ein; unfold input_ok in Ein.
  - rewrite !andb_true_iff, !bool_decide_eq_true in Ein. destruct Ein as [[[[[Hj _] _] Hm] Ho] Hint].
    assert (input_accepted inp) as Hacc by by split_and!. unfold int4 in Hint.
    specialize (IH (i + 1) ltac:(lia)). rewrite Forall_cons. split.
    + intros [= E]. apply IH in E as [Hf [->|Hlt]]; (split; [by split|]); right; simpl; lia.
    + intros [[_ Hf] [?|Hlt]]; [done|]. f_equal. apply IH. split; [done|]. destruct l; [by left|right; simpl in *; lia].
  - split; [done|]. intros [[Hacc Hf]%Forall_cons [?|Hlt]]; [done|]. exfalso. destruct Hacc as (Hj & Hm & Ho).
    rewrite !bool_decide_eq_true_2, Hm, Ho in Ein by done. cbn [andb] in Ein. unfold int4 in Ein. lia.
Qed.

Lemma agents_objection_None w l e k : no_faults e →
  match agents_objection w l e k with
  | None => Forall (λ inp, is_Some (agents w !! i_AgentID inp)) l
  | Some (st, _) => 400 <= st ∧ ¬ Forall (λ inp, is_Some (agents w !! i_AgentID inp)) l
  end.
Proof.
  intros Hf. revert k. induction l as [|inp l IH]; intros k; cbn [agents_objection]; [constructor|].
  unfold agentExists, query_fails. rewrite Hf. case_bool_decide as Hs.
  - specialize (IH (S k)). destruct (agents_objection w l e (S k)) as [[st msg]|]; [|by constructor].
    destruct IH as [Hst Hn]. split; [done|]. by intros [_ ?]%Forall_cons.
  - split; [lia|]. by intros [? _]%Forall_cons.
Qed.

Definition active_satellite (w : World) (sat : N) : Prop :=
  ∃ s, sats w !! sat = Some s ∧ Sats.s_status s = "active"%string.

Lemma satellite_objection_None w sat e k : no_faults e →
  match satellite_objection w (Some sat) e k with
  | None => active_satellite w sat
  | Some (st, _) => 400 <= st ∧ ¬ active_satellite w sat
  end.
Proof.
  intros Hf. unfold satellite_objection, satelliteActive, query_fails, active_satellite. rewrite Hf.
  destruct (sats w !! sat) as [s|]; cbn; [|split; [lia|by intros (? & ? & _)]].
  destruct (String.eqb_spec (Sats.s_status s) "active"); [by eauto|]. split; [lia|by intros (? & [= <-] & ?)].
Qed.

(** What a request to create a pipeline has to satisfy; [cb] is the user. *)
Definition acceptable (w : World) (rq : CreatePipelineRequest) (cb : N) : Prop :=
  rq_Name rq ≠ ""%string ∧ (2 <= length (rq_Steps rq))%nat ∧
  Forall (λ inp, is_Some (agents w !! i_AgentID inp)) (rq_Steps rq) ∧
  (∃ sat, rq_SatelliteID rq = Some sat ∧ active_satellite w sat) ∧
  one_of on_failures (OnFailure (new_pipeline rq cb)) = true ∧ int4 (MaxRetries (new_pipeline rq cb)) = true ∧
  cb ∈ users w ∧ Forall input_accepted (rq_Steps rq) ∧ Z.of_nat (length (rq_Steps rq)) <= 2147483647.

Lemma CreatePipeline_iff w rq cb e : no_faults e → pipelines w !! new_id e = None →
  let p := new_pipeline rq cb in
  let fits := ∃ sat, rq_SatelliteID rq = Some sat ∧ is_Some (sats w !! sat) ∧
    one_of on_failures (OnFailure p) = true ∧ int4 (MaxRetries p) = true ∧ cb ∈ users w in
  match CreatePipeline jsonb w p e (faults e 1000) with
  | (w', Some r) => fits ∧ SatelliteID r = rq_SatelliteID rq ∧ Name r = rq_Name rq
  | (w', None) => w' = w ∧ ¬ fits
  end.
Proof.
  intros Hf Hnew. cbv zeta. unfold CreatePipeline. rewrite Hf. cbn [new_pipeline CreatedBy].
  rewrite (bool_decide_eq_true_2 _ Hnew), andb_true_r. case_bool_decide as Hu; cbn [fmap option_fmap option_map attempt];
    [|split; [done|]; by intros (? & _ & _ & _ & _ & ?)].
  unfold pipeline_row. cbn [new_pipeline SatelliteID Schedule Agents.jsonb_ptr].
  destruct (rq_SatelliteID rq) as [sat|]; cbn [mbind option_bind]; [|split; [done|]; by intros (? & ? & _)].
  destruct (bool_decide _ && _ && _) eqn:E; cbn [option_map attempt].
  - rewrite !andb_true_iff, bool_decide_eq_true in E. destruct E as [[Hs Ho] Hi]. split; [|done]. exists sat. by split_and!.
  - split; [done|]. intros (sat' & [= <-] & Hs & Ho & Hi & _).
    rewrite bool_decide_eq_true_2, Ho, Hi in E by done. done.
Qed.

(** Taking a pipeline back that was just inserted leaves nothing of it. *)
Lemma cascade_undoes w id r m : world_ok w → pipelines w !! id = None →
  (∀ key, key.1 ≠ id → m !! key = steps w !! key) →
  cascade (set_steps (set_pipelines w (<[id := r]> (pipelines w))) m) id = w.
Proof.
  intros Hw Hnone Hm. unfold cascade. cbn.
  assert (∀ k s, steps w !! k = Some s → k.1 ≠ id) as Hs.
  { intros k s Hks <-. destruct (steps_ok w Hw k s Hks) as (_ & [p Hp] & _). congruence. }
  assert (delete id (<[id := r]> (pipelines w)) = pipelines w) as E1 by by apply delete_insert_id.
  assert (filter (λ kv : (N * Z) * PipelineStep, kv.1.1 ≠ id) m = steps w) as E2.
  { apply map_eq. intros k. destruct (steps w !! k) as [s|] eqn:Ek.
    - apply map_lookup_filter_Some. rewrite Hm by (by apply (Hs k s)). split; [done|]. by apply (Hs k s).
    - apply map_lookup_filter_None. destruct (decide (k.1 = id)) as [Hk|Hk].
      + right. intros s _ Hne. by apply Hne.
      + left. by rewrite Hm. }
  assert (filter (λ kv : N * PipelineRun, r_PipelineID kv.2 ≠ id) (runs w) = runs w) as E3.
  { apply map_filter_id. intros i x Hx E. destruct (runs_pending w Hw i x Hx) as (_ & [p Hp] & _). cbn in E. congruence. }
  rewrite E1, E2, E3, (no_step_runs w Hw), map_filter_empty. destruct w as [? ? ? ? ? ? ? sr]. cbn.
  by rewrite <- (no_step_runs _ Hw).
Qed.

(** The steps of [rq] are stored under [id]. *)
Definition stored (w : World) (id : N) (l : list CreateStepInput) : Prop :=
  ∀ j inp, l !! j = Some inp → ∃ s, steps w !! (id, 1 + Z.of_nat j) = Some s ∧ AgentID s = i_AgentID inp ∧
    InputMode s = i_InputMode inp ∧ OutputMode s = i_OutputMode inp ∧ jsonb (i_Config inp) = Some (Config s).

Lemma added_stored w w' id l : added w w' id 1 l (length l) → stored w' id l.
Proof.
  intros [_ _ Hhere] j inp Hj. destruct (Hhere j (lookup_lt_Some _ _ _ Hj)) as (s & inp' & Hj' & Hs & _ & Hrest).
  assert (inp' = inp) as -> by congruence. eauto.
Qed.

(** A pipeline is created (201) exactly when its name is not empty, it has at
    least two steps with definitions that exist, modes that the tables know and
    a config that is JSON, a satellite is given and is active, the failure
    mode and the number of retries fit their columns, and the user is
    registered. Then its steps are those of the request, in order. Otherwise
    the answer is an error and nothing is left of the attempt. *)
Theorem HandleCreatePipeline_spec h w rq user cb e :
  world_ok w → no_faults e → checkEnterpriseLicense h = true → pipelines w !! new_id e = None →
  match user with None => Some 0%N | Some u => uuid_Parse (RBAC.ID u) end = Some cb →
  (acceptable w rq cb ∧ ∃ w' p,
     HandleCreatePipeline h w (Some rq) user e =
       (w', Ret (mkResponse 201 (BPipeline p (steps_of w' (new_id e))))) ∧
     pipelines w' = <[new_id e := p]> (pipelines w) ∧ Name p = rq_Name rq ∧ stored w' (new_id e) (rq_Steps rq)) ∨
  (¬ acceptable w rq cb ∧ ∃ st msg,
     HandleCreatePipeline h w (Some rq) user e = (w, Ret (mkResponse st (BError msg))) ∧ 400 <= st).
Proof.
  intros Hw Hf Hlic Hnew Hu. unfold HandleCreatePipeline, licensed. rewrite Hlic, Hu. cbn [negb].
  unfold acceptable at 1 2.
  destruct (String.eqb_spec (rq_Name rq) "") as [|Hname]; [right; split; [by intros [? _]|by do 2 eexists]|].
  destruct (Nat.ltb_spec (length (rq_Steps rq)) 2) as [Hlen|Hlen]; [right; split; [lia|by do 2 eexists]|].
  pose proof (agents_objection_None w (rq_Steps rq) e 0 Hf) as Hag.
  destruct (agents_objection _ _ _ _) as [[st msg]|]; [right; destruct Hag as [? Hn];
    split; [by intros (_ & _ & ? & _)|by do 2 eexists]|].
  destruct (satellite_objection w (rq_SatelliteID rq) e (length (rq_Steps rq))) as [[st msg]|] eqn:Eo.
  { right. destruct (rq_SatelliteID rq) as [sat|]; [|done].
    pose proof (satellite_objection_None w sat e (length (rq_Steps rq)) Hf) as Hsat. rewrite Eo in Hsat.
    destruct Hsat as [Hst Hn]. split; [by intros (_ & _ & _ & (? & [= <-] & ?) & _)|by do 2 eexists]. }
  pose proof (CreatePipeline_iff w rq cb e Hf Hnew) as Hiff. cbv zeta in Hiff.
  destruct (CreatePipeline jsonb w (new_pipeline rq cb) e (faults e 1000)) as [w1 [p|]] eqn:Ec.
  2:{ destruct Hiff as [-> Hn]. right. split; [|by do 2 eexists].
      intros (_ & _ & _ & (sat & Hsat & s & Hs & _) & Ho & Hi & Hcb & _). apply Hn. exists sat. by split_and!. }
  destruct Hiff as [(sat & Hsat & _ & Ho & Hi & Hcb) [_ Hpn]].
  destruct (CreatePipeline_ok _ _ _ _ _ _ Ec Hw) as [Hw1 Hr]. destruct (Hr p eq_refl) as (_ & (HID & _) & _ & ->).
  rewrite HID. set (id := new_id e) in *. set (w1 := set_pipelines w _) in *.
  assert (∀ i, steps w1 !! (id, i) = None) as Hnone.
  { intros i. unfold w1. cbn. destruct (steps w !! (id, i)) as [s|] eqn:E; [|done].
    destruct (steps_ok _ Hw _ _ E) as (_ & [x Hx] & _). cbn in Hx. congruence. }
  assert (is_Some (pipelines w1 !! id)) as Hp1 by (unfold w1; cbn; rewrite lookup_insert_eq; eauto).
  destruct (CreatePipelineSteps jsonb w1 id _ e 1001) as [w2 b] eqn:Es.
  apply CreatePipelineSteps_added in Es as (n & Hn & Hadd & Hb & Hg). destruct (Hg Hf ltac:(auto)) as [Hgn Hlt].
  pose proof (good_prefix_all w1 id (rq_Steps rq) Hp1 Hag 1 ltac:(lia)) as Hall. rewrite <- Hgn in Hall.
  rewrite Hsat in Eo. pose proof (satellite_objection_None w sat e (length (rq_Steps rq)) Hf) as Hact. rewrite Eo in Hact.
  destruct b.
  - right. specialize (Hlt eq_refl). split.
    { intros (_ & _ & _ & _ & _ & _ & _ & Hacc & Hbound).
      assert (n = length (rq_Steps rq)) by (apply Hall; split; [done|right; lia]). lia. }
    unfold refuse, DeletePipeline, attempt. rewrite Hf. cbn [fst].
    assert (cascade w2 id = w) as ->; [|by do 2 eexists].
    rewrite (added_rest _ _ _ _ _ _ Hadd). unfold w1. apply cascade_undoes; [done..|].
    intros key Hk. rewrite (added_other _ _ _ _ _ _ Hadd) by (by left). done.
  - left. rewrite (Hb eq_refl) in *. destruct (proj1 Hall eq_refl) as [Hacc Hbound]. split.
    { split_and!; try done; [by exists sat|]. destruct Hbound as [Hnil|]; [by rewrite Hnil in Hlen; simpl in Hlen; lia|lia]. }
    assert (pipelines w2 = pipelines w1) as Ep by (by rewrite (added_rest _ _ _ _ _ _ Hadd)).
    unfold show_pipeline, GetPipeline, query_fails. rewrite !Hf, Ep. unfold w1 at 1. cbn [set_pipelines pipelines].
    rewrite lookup_insert_eq. exists (audit h w2 "create" (uuid_String id)), p.
    assert (∀ a s, steps (audit h w2 a s) = steps w2 ∧ pipelines (audit h w2 a s) = pipelines w2) as Haud
      by (intros; unfold audit; by destruct (auditLogger h)).
    destruct (Haud "create"%string (uuid_String id)) as [Ha1 Ha2]. unfold reply. split.
    { unfold steps_of. by rewrite Ha1. }
    split; [by rewrite Ha2, Ep|]. split; [done|]. unfold stored. rewrite Ha1. by apply added_stored in Hadd.
Qed.

(** An update replaces the steps one by one, not atomically: when it answers that
    the steps could not be updated, the old steps are gone and the pipeline has
    the new ones before the first that was refused, fewer than were asked for
    and perhaps none. *)
Theorem update_not_atomic h w s rq e w' : world_ok w → no_faults e →
  HandleUpdatePipeline h w s (Some rq) e =
    (w', Ret (mkResponse 500 (BError "failed to update pipeline steps"))) →
  ∃ id n, is_Some (pipelines w' !! id) ∧ n = good_prefix w' id 1 (rq_Steps rq) ∧
    (n < length (rq_Steps rq))%nat ∧
    (∀ j, is_Some (steps w' !! (id, j)) ↔ 1 <= j <= Z.of_nat n) ∧
    stored w' id (take n (rq_Steps rq)).
Proof.
  intros Hw Hf. unfold HandleUpdatePipeline, with_pipeline, with_id, licensed, refuse.
  destruct (negb _); [by intros [= <- <-]|]. destruct (String.eqb s ""); [by intros [= <- <-]|].
  destruct (uuid_Parse s) as [id|]; [|by intros [= <- <-]].
  destruct (GetPipeline w id e 0) as [[[p l]|]|] eqn:E; [|by intros [= <- <-]..].
  apply GetPipeline_Some in E as [Hp _].
  destruct (_ && _)%nat; [by intros [= <- <-]|].
  destruct (agents_objection w _ e 2) as [[st msg]|] eqn:Ea.
  { intros [= <- -> ->]. exfalso. clear -Ea. revert Ea. generalize 2%nat. induction (rq_Steps rq) as [|x l IH]; intros k; [done|].
    cbn [agents_objection]. destruct (agentExists _ _ _ _) as [[]|]; [apply IH|by intros [=]..]. }
  destruct (satellite_objection w _ e _) as [[st msg]|] eqn:Es.
  { intros [= <- -> ->]. exfalso. revert Es. unfold satellite_objection.
    destruct (rq_SatelliteID rq); [|done]. by destruct (satelliteActive _ _ _ _) as [[]|]; intros [=]. }
  destruct (UpdatePipeline _ _ _ _ _) as [w1 b] eqn:Eu. pose proof (UpdatePipeline_ok _ _ _ _ _ _ Eu Hw) as Hw1.
  destruct b; [by intros [= <- <-]|].
  assert (is_Some (pipelines w1 !! id)) as Hp1.
  { destruct (attempt_cases _ _ _ _ _ Eu) as [[_ ?]|[Hn _]]; [done|].
    apply bind_Some in Hn as (old & Hold & Hn). apply bind_Some in Hn as (r & _ & [= <-]). cbn.
    apply lookup_insert_is_Some. destruct (decide (ID (updated_pipeline rq p) = id)); [by left|right; split; [done|eauto]]. }
  destruct (replace_steps w1 id (rq_Steps rq) e) as [w2 b] eqn:Er.
  destruct b; [|intros Hx; exfalso; revert Hx; unfold show_pipeline;
    destruct (GetPipeline _ _ _ _) as [[[]|]|]; by intros [=]].
  intros [= <-]. revert Er. unfold replace_steps. destruct (rq_Steps rq) as [|x l']; [done|].
  unfold DeletePipelineSteps, attempt. rewrite Hf. set (w3 := set_steps w1 _).
  destruct (CreatePipelineSteps _ _ _ _ _ _) as [w4 b] eqn:Ec. intros [= <- ->].
  apply CreatePipelineSteps_added in Ec as (n & Hn & Hadd & _ & Hg).
  assert (∀ j, steps w3 !! (id, j) = None) as Hnone.
  { intros j. apply map_lookup_filter_None. right. intros ? _ Hne. by apply Hne. }
  destruct (Hg Hf ltac:(auto)) as [Hgood Hlt]. pose proof (added_rest _ _ _ _ _ _ Hadd) as Hrest.
  exists id, n. split; [by rewrite Hrest|]. split; [by rewrite Hrest, good_prefix_steps|]. split; [by apply Hlt|].
  destruct Hadd as [_ Hother Hhere]. split.
  - intros j. split; intros Hj.
    + destruct (decide (1 <= j < 1 + Z.of_nat n)); [lia|]. rewrite Hother, Hnone in Hj by (by right). by destruct Hj.
    + destruct (Hhere (Z.to_nat (j - 1)) ltac:(lia)) as (y & _ & _ & Hy & _).
      replace (1 + Z.of_nat (Z.to_nat (j - 1))) with j in Hy by lia. eauto.
  - intros j inp [Hj Hjn]%lookup_take_Some. destruct (Hhere j Hjn) as (y & inp' & Hj' & Hy & _ & Hall).
    assert (inp' = inp) as -> by congruence. eauto.
Qed.
End Handlers.

(** ** Examples *)

Definition demo_sat : Sats.Sat := Sats.set_status "active" 0 Sats.demo_sat.
Definition demo_world : World :=
  mkWorld {[1%N := demo_sat]} {[7%N := Agents.demo_agent "{}"]} {[5%N]} ∅ ∅ ∅ ∅ ∅ [] [].
Definition demo_license : License.Manager :=
  License.mkManager (Some (License.mkClaims "c" "Acme" "team" 0 0 [License.FeatureSessionChaining] 0 0)) None true.
Definition demo_handler : PipelineHandler := mkHandler true demo_license true.
Definition demo_env (id : N) : env := mkEnv 10 id (λ k, N.of_nat k) (100 + id)%N (λ _, NoFault) 0 0.
Definition demo_jsonb (s : string) : option string := if String.eqb s "{}" then Some s else None.
Definition demo_Parse (s : string) : option N :=
  if String.eqb s "u5" then Some 5%N else if String.eqb s "p9" then Some 9%N else None.
Definition demo_user : RBAC.AuthUser := RBAC.mkAuthUser "u5" "" "" "owner" "".
Definition input (mode config : string) : CreateStepInput := mkInput 7 mode "next" config.
Definition request (l : list CreateStepInput) : CreatePipelineRequest := mkCreate "nightly" None (Some 1%N) "" 0 l.
Notation demo_create := (HandleCreatePipeline demo_Parse (λ _, "") demo_jsonb demo_handler).

Lemma demo_world_ok : world_ok demo_world.
Proof. split; try apply map_Forall_empty; [|done]. intros id. exists 0%nat. intros i. split; [by intros [? ?]|lia]. Qed.

Definition two_steps : CreatePipelineRequest := request [input "none" "{}"; input "previous_output" "{}"].
Definition after_create : World := (demo_create demo_world (Some two_steps) (Some demo_user) (demo_env 9)).1.

Example HandleCreatePipeline_spec_witness :
  acceptable demo_jsonb demo_world two_steps 5 ∧ (StepOrder <$> steps_of after_create 9) = [1; 2].
Proof.
  destruct (HandleCreatePipeline_spec demo_Parse (λ _, ""%string) demo_jsonb demo_handler demo_world two_steps (Some demo_user) 5
    (demo_env 9) demo_world_ok (λ _, eq_refl) eq_refl eq_refl eq_refl) as [[H _]|[_ (st & msg & E & _)]].
  - split; [exact H|]. vm_compute. reflexivity.
  - exfalso. vm_compute in E. discriminate E.
Defined.

(** Without a satellite, which the API calls optional, or without a config, an
    error and nothing else. *)
Example satellite_is_required :
  (demo_create demo_world (Some (mkCreate "n" None None "" 0 (rq_Steps two_steps))) (Some demo_user) (demo_env 9)) =
  (demo_world, Ret (mkResponse 500 (BError "failed to create pipeline"))) ∧
  (demo_create demo_world (Some (request [input "none" "{}"; input "none" ""])) (Some demo_user) (demo_env 9)) =
  (demo_world, Ret (mkResponse 500 (BError "failed to create pipeline steps"))).
Proof. split; vm_compute; reflexivity. Qed.

Lemma after_create_ok : world_ok after_create.
Proof. apply HandleCreatePipeline_ok. apply demo_world_ok. Qed.

Definition bad_update : World * go Response :=
  HandleUpdatePipeline demo_Parse (λ _, ""%string) demo_jsonb demo_handler after_create "p9"
    (Some (request [input "none" "{}"; input "none" ""; input "none" "{}"])) (demo_env 9).

Example update_not_atomic_witness :
  bad_update.2 = Ret (mkResponse 500 (BError "failed to update pipeline steps")) ∧
  ∃ id n, (n < 3)%nat ∧ ∀ j, is_Some (steps bad_update.1 !! (id, j)) ↔ 1 <= j <= Z.of_nat n.
Proof.
  assert (bad_update.2 = Ret (mkResponse 500 (BError "failed to update pipeline steps"))) as E by (vm_compute; reflexivity).
  split; [exact E|].
  destruct (update_not_atomic demo_Parse (λ _, ""%string) demo_jsonb demo_handler after_create "p9"
    (request [input "none" "{}"; input "none" ""; input "none" "{}"]) (demo_env 9) bad_update.1 after_create_ok (λ _, eq_refl))
    as (id & n & _ & _ & Hn & Hj & _).
  - rewrite <- E. unfold bad_update. apply surjective_pairing.
  - exists id, n. split; [exact Hn|exact Hj].
Defined.

Definition demo_cron (s : string) : option unit := if String.eqb s "0 0 * * *" then Some () else None.

Example schedule_never_set_witness : ∃ rsp,
  HandleSetPipelineSchedule demo_cron (λ _ _, Some (100 * Schedules.Minute)) demo_Parse demo_jsonb demo_handler
    after_create "p9" (Some "0 0 * * *"%string) (demo_env 9) = (after_create, Ret rsp) ∧ 400 <= status rsp.
Proof.
  apply (schedule_never_set demo_cron (λ _ _, Some (100 * Schedules.Minute)) demo_Parse demo_jsonb).
  intros expr sch. unfold demo_cron, demo_jsonb. destruct (String.eqb_spec expr "0 0 * * *") as [->|]; [reflexivity|discriminate].
Defined.

Definition demo_step := step demo_cron (λ _ _, Some 0) demo_Parse (λ _, ""%string) demo_jsonb id id demo_handler.
Definition started : World * go Response := HandleRunPipeline demo_Parse (λ _, ""%string) demo_handler after_create "p9" None (demo_env 9).

Example runs_stay_pending_witness : ∃ rsp id r,
  started.2 = Ret rsp ∧ status rsp = 202 ∧ runs started.1 !! id = Some r ∧
  ∀ r', runs (demo_step started.1 (Execute 0)) !! id = Some r' → Status r' = "pending"%string.
Proof.
  assert (∃ rsp, started.2 = Ret rsp ∧ status rsp = 202) as (rsp & E & Hst) by (eexists; split; vm_compute; reflexivity).
  destruct (runs_stay_pending demo_cron (λ _ _, Some 0) demo_Parse (λ _, ""%string) demo_jsonb id id demo_handler after_create "p9" None
    (demo_env 9) started.1 rsp [Execute 0] after_create_ok) as (i & r & p & _ & Hr & Hall & _).
  - rewrite <- E. apply surjective_pairing.
  - exact Hst.
  - exists rsp, i, r. split; [exact E|]. split; [exact Hst|]. split; [exact Hr|]. intros r' Hr'. by apply (Hall r').
Defined.

Example pipelines_invariant_witness :
  (∃ n : nat, StepOrder <$> steps_of (demo_step after_create (Delete "p9" (demo_env 9))) 9 = seqZ 1 (Z.of_nat n)) ∧
  rows_ok (exec_all demo_jsonb after_create [SDeleteSteps 9 NoFault]).
Proof.
  destruct (pipelines_invariant demo_cron (λ _ _, Some 0) demo_Parse (λ _, ""%string) demo_jsonb id id demo_handler after_create
    after_create_ok) as (H1 & _ & H3). split; [apply (H1 [Delete "p9" (demo_env 9)])|apply H3].
Defined.

(** Two PUTs at the same time: the second one deletes the steps after the first one
    has inserted its step 1, and fails on its own; the first one goes on, and
    leaves step 2 without a step 1. *)
Definition put_step (i : Z) : PipelineStep := mkStep 0 9 i 7 "none" "next" "{}" 0.
Example interleaved_updates_gap :
  let w := exec_all demo_jsonb after_create
    [SDeleteSteps 9 NoFault; SInsertStep 9 (put_step 1) 50 10 NoFault;            (* the first request *)
     SDeleteSteps 9 NoFault; SInsertStep 9 (put_step 1) 60 10 StmtFails;          (* the second one, answered with 500 *)
     SInsertStep 9 (put_step 2) 51 10 NoFault] in                                 (* the first one, answered with 200 *)
  StepOrder <$> steps_of w 9 = [2].
Proof. vm_compute. reflexivity. Qed.
End Pipelines.
