(* ===== verification/PiBridge.v ===== *)
(** * internal/satellite/pi_bridge.go: the bridge to a Pi process

    How the command line of the process is built from a deployed definition, the
    check of write paths, and the life of a process: its reader, the goroutine
    that waits for it, SendPrompt and Stop. The goroutines begin when they are
    scheduled, and a write to stdin blocks, under the mutex, where the pipe of
    [stdin_size] bytes is full. Paths are those of Unix. The definitions of a
    deployment come from [Agents], so that a theorem can follow a setting of an
    agent from the table to the command line. *)
From Stdlib Require Import Ascii.
From S2P Require Import Prelude GoStrings Json Protocol Agents.
Import Json Proto.
#[local] Open Scope Z_scope.

Module PiBridge.

(** ** path/filepath on Unix *)

(** One component of a path; the stack holds those before it, the last first. *)
Definition push_part (rooted : bool) (out : list string) (p : string) : list string :=
  if String.eqb p "" || String.eqb p "." then out
  else if String.eqb p ".." then
    match out with
    | [] => if rooted then [] else [".."%string]
    | q :: out' => if String.eqb q ".." then ".."%string :: out else out'
    end
  else p :: out.
Definition clean_parts (rooted : bool) (s : string) : list string :=
  reverse (foldl (push_part rooted) [] (Str.Split s "/")).

(** /a/b for the components a, b *)
Fixpoint slashed (l : list string) : string :=
  match l with [] => ""%string | x :: l' => "/" +:+ x +:+ slashed l' end.
Definition absolute (l : list string) : string := match l with [] => "/"%string | _ => slashed l end.

Definition IsAbs (s : string) : bool := Str.HasPrefix s "/".
Definition Clean (s : string) : string :=
  if IsAbs s then absolute (clean_parts true s)
  else match clean_parts false s with [] => "."%string | l => String.concat "/" l end.

Section Paths.
(** The working directory of the process; the allowed directories. *)
Variable wd : string.
Variable AllowedWriteDirs : list string.

Definition Abs (path : string) : string :=
  if IsAbs path then Clean path
  else Clean (if String.eqb path "" then wd else wd +:+ "/" +:+ path).

(** [None]: allowed. *)
Definition ValidateWritePath (targetPath : string) : option string :=
  let cleaned := Abs (Clean targetPath) in
  let allows dir :=
    let allowedAbs := Abs (Clean dir) in
    Str.HasPrefix cleaned (allowedAbs +:+ "/") || String.eqb cleaned allowedAbs in
  if existsb allows AllowedWriteDirs then None
  else Some ("SECURITY DENIED: write to " +:+ targetPath +:+ " blocked")%string.
End Paths.

(** ** The command line *)

Section Args.
(** runtime values for text/template: [None] if the template fails. *)
Variable template : string → option string.
(** The guardrails extension, if it is installed. *)
Variable guardrailsPath : option string.

Definition ExpandSystemPrompt (raw : string) : string :=
  if Str.Contains raw "{{" then default raw (template raw) else raw.

(** A flag whose value is not empty. *)
Definition flag (name value : string) : list string :=
  if String.eqb value "" then [] else [name; value].
Definition config_value (c : gmap string string) (k : string) : string := default "" (c !! k).
Definition switch (c : gmap string string) (k name : string) : list string :=
  if String.eqb (config_value c k) "true" then [name] else [].

Definition hasGuardrailsConfig (c : gmap string string) : bool :=
  existsb (λ kv, Str.HasPrefix kv.1 "guardrails.") (map_to_list c).

Definition max_tool_calls (c : gmap string string) : list string :=
  match Str.Atoi (config_value c "guardrails.max_tool_calls") with
  | Some calls => if 0 <? calls then ["--max-tool-calls"%string; config_value c "guardrails.max_tool_calls"] else []
  | None => []
  end.

Definition BuildPiArgs (c : gmap string string) : list string :=
  ["--mode"; "rpc"; "--no-session"; "--no-skills"; "--no-prompt-templates"]%string ++
  flag "--provider" (config_value c "provider") ++
  flag "--model" (config_value c "model") ++
  flag "--tools" (config_value c "tools.allow") ++
  (if hasGuardrailsConfig c
   then match guardrailsPath with Some p => ["--extension"%string; p] | None => [] end else []) ++
  switch c "guardrails.read_only" "--read-only" ++
  max_tool_calls c ++
  switch c "guardrails.hitl" "--guardrails" ++
  (if String.eqb (config_value c "system_prompt") "" then []
   else ["--system-prompt"%string; ExpandSystemPrompt (config_value c "system_prompt")]).

(** The minutes after which Start's timer stops the process. *)
Definition timeout_of (c : gmap string string) : option Z :=
  s ← c !! "guardrails.timeout_minutes"%string;
  minutes ← Str.Atoi s;
  if 0 <? minutes then Some minutes else None.
End Args.

(** ** The life of a process

    The state after a successful Start: the fields of the bridge, the process
    with its end of the stdout pipe, the three goroutines of Start, and the
    callers of Stop (the timer of Start is one of them). *)

Record AgentEvent := mkEvent {
  EventType : string; Payload : string; Timestamp : Z; ev_Provider : string; ev_Model : string;
}.

Definition validEventTypes : list string :=
  ["agent_start"; "agent_end"; "message_start"; "message_end"; "message_update"; "tool_execution_update";
   "turn_start"; "turn_end"; "tool_execution_start"; "tool_execution_end"]%string.

(** The goroutine of Start that calls cmd.Wait. *)
Inductive lifecycle := WaitProcess | RecordExit | WaitReaders | CloseDone | CloseEvents | Finished.
(** A call of Stop: before its first timeout, and after it has killed. *)
Inductive stop_stage := StopWaits | StopKilled.
(** Who holds the mutex while it writes to stdin, and the bytes that are left:
    SendPrompt, or the Stop of a caller. *)
Inductive holder := HPrompt (rest : nat) | HAbort (i : N) (rest : nat).
Definition rest_of (h : holder) : nat := match h with HPrompt n | HAbort _ n => n end.
Definition with_rest (h : holder) (n : nat) : holder := match h with HPrompt _ => HPrompt n | HAbort i _ => HAbort i n end.
(** The length of the abort message with its newline. *)
Definition abort_size : nat := 30.

Record Bridge := mkBridge {
  cmd : bool; stdin : bool; stdout : bool;      (* the fields that are not nil *)
  events : list AgentEvent; events_closed : bool;
  done_closed : bool; closed : bool; exitCode : Z; timeout : bool;
  alive : bool; exit_status : Z;
  pipe : list string;                           (* lines that nobody has read *)
  pipe_closed : bool;                           (* our end *)
  scanned : list string;                        (* lines in the scanner's buffer *)
  reader_done : bool; stderr_done : bool; life : lifecycle;
  stops : gmap N stop_stage;
  sent : list string;                           (* types of the messages on stdin *)
  written : list string;                        (* all the process ever wrote *)
  consumed : list AgentEvent;
  reader_started : bool;                        (* the scanner has been made *)
  mu : option holder;                           (* a write under the mutex *)
  inbuf : nat;                                  (* bytes in the stdin pipe *)
}.

Definition MaxEvents : nat := 100.

Definition NewPiBridge : Bridge :=
  mkBridge false false false [] false false false (-1) false false 0 [] false [] true true Finished ∅ [] [] [] true None 0.

(** Start of a process that can be started: refused while the last one is not
    cleaned up. The channels are not made anew. *)
Definition Start (b : Bridge) (timer : bool) : option Bridge :=
  if cmd b then None else
  Some (mkBridge true true true (events b) (events_closed b) (done_closed b) (closed b) (exitCode b) timer
    true 0 [] false [] false false WaitProcess (stops b) [] [] (consumed b) false None 0).

Section Life.
Variable parse : string → option json.

(** piEventPayload: the members that are kept raw accept any value. *)
Definition decode_event : object → decoded (string * Z * string * string) :=
  field "model" decode_string "" $ field "provider" decode_string "" $
  field "timestamp" decode_int 0 $ field "type" decode_string "" $
  struct (λ t ts p m, (t, ts, p, m)).

(** What the reader makes of a line. *)
Definition event_of_line (line : string) : option AgentEvent :=
  if String.eqb line "" then None else
  match unmarshal decode_event (parse line) with
  | None => None
  | Some (type, timestamp, provider, model) =>
      if bool_decide (type ∈ validEventTypes) then Some (mkEvent type line timestamp provider model) else None
  end.

(** One action of the process, of a goroutine, or of a caller. *)
Inductive label :=
  | PWrite (line : string)      (* the process writes a line *)
  | PExit (code : Z)
  | PRead (n : nat)             (* it reads n bytes of its stdin *)
  | RStart                      (* the reader makes its scanner of p.stdout *)
  | RFill (n : nat)             (* the scanner reads n lines from the pipe *)
  | RScan                       (* one round of readStdoutLoop *)
  | REnd                        (* Scan returns false *)
  | EEnd                        (* the drain of stderr ends *)
  | LStep                       (* the lifecycle goroutine *)
  | SBegin (i : N) | SDone (i : N) | SKill (i : N) | SForce (i : N)   (* Stop *)
  | Prompt (n : nat)            (* SendPrompt of a message of n bytes *)
  | IWrite                      (* the write to stdin goes on *)
  | Consume.

(** Updates. *)
Definition set_process (b : Bridge) (a : bool) (code : Z) (p w : list string) : Bridge :=
  mkBridge (cmd b) (stdin b) (stdout b) (events b) (events_closed b) (done_closed b) (closed b) (exitCode b)
    (timeout b) a code p (pipe_closed b) (scanned b) (reader_done b) (stderr_done b) (life b) (stops b)
    (sent b) w (consumed b) (reader_started b) (mu b) (inbuf b).
Definition set_stderr (b : Bridge) : Bridge :=
  mkBridge (cmd b) (stdin b) (stdout b) (events b) (events_closed b) (done_closed b) (closed b) (exitCode b)
    (timeout b) (alive b) (exit_status b) (pipe b) (pipe_closed b) (scanned b) (reader_done b) true (life b)
    (stops b) (sent b) (written b) (consumed b) (reader_started b) (mu b) (inbuf b).
Definition set_consumed (b : Bridge) (ev c : list AgentEvent) : Bridge :=
  mkBridge (cmd b) (stdin b) (stdout b) ev (events_closed b) (done_closed b) (closed b) (exitCode b)
    (timeout b) (alive b) (exit_status b) (pipe b) (pipe_closed b) (scanned b) (reader_done b) (stderr_done b)
    (life b) (stops b) (sent b) (written b) c (reader_started b) (mu b) (inbuf b).
Definition set_reader (b : Bridge) (ev : list AgentEvent) (p sc : list string) (rd : bool) : Bridge :=
  mkBridge (cmd b) (stdin b) (stdout b) ev (events_closed b) (done_closed b) (closed b) (exitCode b)
    (timeout b) (alive b) (exit_status b) p (pipe_closed b) sc rd (stderr_done b) (life b) (stops b)
    (sent b) (written b) (consumed b) (reader_started b) (mu b) (inbuf b).
Definition set_life (b : Bridge) (l : lifecycle) : Bridge :=
  mkBridge (cmd b) (stdin b) (stdout b) (events b) (events_closed b) (done_closed b) (closed b) (exitCode b)
    (timeout b) (alive b) (exit_status b) (pipe b) (pipe_closed b) (scanned b) (reader_done b) (stderr_done b)
    l (stops b) (sent b) (written b) (consumed b) (reader_started b) (mu b) (inbuf b).
Definition set_done (b : Bridge) : Bridge :=
  mkBridge (cmd b) (stdin b) (stdout b) (events b) (events_closed b) true true (exitCode b)
    (timeout b) (alive b) (exit_status b) (pipe b) (pipe_closed b) (scanned b) (reader_done b) (stderr_done b)
    (life b) (stops b) (sent b) (written b) (consumed b) (reader_started b) (mu b) (inbuf b).
Definition set_stop (b : Bridge) (st : gmap N stop_stage) (inp : bool) (s : list string) : Bridge :=
  mkBridge (cmd b) inp (stdout b) (events b) (events_closed b) (done_closed b) (closed b) (exitCode b)
    (timeout b) (alive b) (exit_status b) (pipe b) (pipe_closed b) (scanned b) (reader_done b) (stderr_done b)
    (life b) st s (written b) (consumed b) (reader_started b) (mu b) (inbuf b).

Definition set_started (b : Bridge) : Bridge :=
  mkBridge (cmd b) (stdin b) (stdout b) (events b) (events_closed b) (done_closed b) (closed b) (exitCode b)
    (timeout b) (alive b) (exit_status b) (pipe b) (pipe_closed b) (scanned b) (reader_done b) (stderr_done b)
    (life b) (stops b) (sent b) (written b) (consumed b) true (mu b) (inbuf b).
Definition set_mu (b : Bridge) (m : option holder) (n : nat) : Bridge :=
  mkBridge (cmd b) (stdin b) (stdout b) (events b) (events_closed b) (done_closed b) (closed b) (exitCode b)
    (timeout b) (alive b) (exit_status b) (pipe b) (pipe_closed b) (scanned b) (reader_done b) (stderr_done b)
    (life b) (stops b) (sent b) (written b) (consumed b) (reader_started b) m n.
Definition free (b : Bridge) : bool := match mu b with None => true | Some _ => false end.

(** close(p.done): a second close panics. *)
Definition close_done (b : Bridge) : go Bridge := if done_closed b then Panic else Ret (set_done b).

(** cleanup: Close of the pipe, and the fields become nil. *)
Definition cleanup (b : Bridge) : go Bridge :=
  b' ← (if closed b then Ret b else close_done b);
  Ret (mkBridge false false false (events b') (events_closed b') (done_closed b') (closed b') (exitCode b')
    false (alive b') (exit_status b') (pipe b') (pipe_closed b' || stdout b') (scanned b') (reader_done b')
    (stderr_done b') (life b') (stops b') (sent b') (written b') (consumed b') (reader_started b') (mu b') (inbuf b')).

(** [p.events <- agentEvent] with a default: a send on a closed channel panics. *)
Definition push_event (b : Bridge) (line : string) (rest : list string) : go Bridge :=
  match event_of_line line with
  | None => Ret (set_reader b (events b) (pipe b) rest (reader_done b))
  | Some ev =>
      if events_closed b then Panic
      else if (length (events b) <? MaxEvents)%nat
      then Ret (set_reader b (events b ++ [ev]) (pipe b) rest (reader_done b))
      else Ret (set_reader b (events b) (pipe b) rest (reader_done b))
  end.

(** cmd.Wait returns when the process has exited, and closes our end of the
    pipes before it does; the exit code is recorded under the mutex. *)
Definition wait_returns (b : Bridge) : Bridge :=
  mkBridge (cmd b) (stdin b) (stdout b) (events b) (events_closed b) (done_closed b) (closed b) (exitCode b)
    (timeout b) (alive b) (exit_status b) [] true (scanned b) (reader_done b) (stderr_done b) RecordExit
    (stops b) (sent b) (written b) (consumed b) (reader_started b) (mu b) (inbuf b).

Definition record_exit (b : Bridge) : Bridge :=
  mkBridge (cmd b) (stdin b) (stdout b) (events b) (events_closed b) (done_closed b) (closed b) (exit_status b)
    (timeout b) (alive b) (exit_status b) (pipe b) (pipe_closed b) (scanned b) (reader_done b) (stderr_done b) WaitReaders
    (stops b) (sent b) (written b) (consumed b) (reader_started b) (mu b) (inbuf b).

Definition close_events (b : Bridge) : go Bridge :=
  if events_closed b then Panic else
  Ret (mkBridge (cmd b) (stdin b) (stdout b) (events b) true (done_closed b) (closed b) (exitCode b)
    (timeout b) (alive b) (exit_status b) (pipe b) (pipe_closed b) (scanned b) (reader_done b) (stderr_done b)
    Finished (stops b) (sent b) (written b) (consumed b) (reader_started b) (mu b) (inbuf b)).

(** A token of the scanner is shorter than this. *)
Definition maxLine : Z := 10 * 1024 * 1024.

Definition lifecycle_step (b : Bridge) : go Bridge :=
  match life b with
  | WaitProcess => Ret (if alive b then b else wait_returns b)
  | RecordExit => Ret (if free b then record_exit b else b)
  | WaitReaders => Ret (if reader_done b && stderr_done b then set_life b CloseDone else b)
  | CloseDone =>
      if free b then b' ← (if closed b then Ret b else close_done b); Ret (set_life b' CloseEvents) else Ret b
  | CloseEvents => close_events b
  | Finished => Ret b
  end.

(** What the pipe to the process holds: a parameter of the system. *)
Variable stdin_size : nat.
(** The write is over: the mutex is released. A Stop closes stdin and begins to wait. *)
Definition finish_write (b : Bridge) (h : holder) : Bridge :=
  let b := set_mu b None (if alive b then (inbuf b + rest_of h)%nat else inbuf b) in
  match h with
  | HPrompt _ => set_stop b (stops b) (stdin b) (if alive b then sent b ++ ["prompt"%string] else sent b)
  | HAbort i _ => set_stop b (<[i := StopWaits]> (stops b)) false (if alive b then sent b ++ ["abort"%string] else sent b)
  end.
(** A write to the pipe of a process that is gone fails; otherwise it takes what there
    is room for, and blocks. *)
Definition write_stdin (b : Bridge) : Bridge :=
  match mu b with
  | None => b
  | Some h =>
      let room := (stdin_size - inbuf b)%nat in
      if negb (alive b) || (rest_of h <=? room)%nat then finish_write b h
      else set_mu b (Some (with_rest h (rest_of h - room))) (inbuf b + room)
  end.

(** An action that is not possible leaves the state as it is. *)
Definition step (b : Bridge) (l : label) : go Bridge :=
  match l with
  | PWrite line =>
      Ret (if alive b then set_process b true (exit_status b)
                             (if pipe_closed b then pipe b else pipe b ++ [line]) (written b ++ [line]) else b)
  | PExit code => Ret (if alive b then set_process b false code (pipe b) (written b) else b)
  | PRead n => Ret (if alive b then set_mu b (mu b) (inbuf b - n) else b)
  | RStart =>
      (* the first Scan of a scanner of nil panics *)
      if reader_started b then Ret b else if stdout b then Ret (set_started b) else Panic
  | RFill n =>
      Ret (if negb (reader_started b) || reader_done b || pipe_closed b then b
           else set_reader b (events b) (drop n (pipe b)) (scanned b ++ take n (pipe b)) false)
  | RScan =>
      match reader_done b, scanned b with
      | false, line :: rest =>
          if maxLine <=? Z.of_nat (String.length line)
          then Ret (set_reader b (events b) (pipe b) rest true)
          else push_event b line rest
      | _, _ => Ret b
      end
  | REnd =>
      match reader_started b, reader_done b, scanned b with
      | true, false, [] =>
          Ret (if pipe_closed b || (negb (alive b) && match pipe b with [] => true | _ => false end)
               then set_reader b (events b) (pipe b) [] true else b)
      | _, _, _ => Ret b
      end
  | EEnd => Ret (if alive b then b else set_stderr b)
  | LStep => lifecycle_step b
  | SBegin i =>
      Ret (if negb (free b) || negb (cmd b) || closed b then b
           else match stops b !! i with
                | Some _ => b
                | None => if stdin b then set_mu b (Some (HAbort i abort_size)) (inbuf b)
                          else set_stop b (<[i := StopWaits]> (stops b)) false (sent b)
                end)
  | SDone i =>
      match stops b !! i with
      | Some _ => if free b && done_closed b then cleanup (set_stop b (delete i (stops b)) (stdin b) (sent b)) else Ret b
      | None => Ret b
      end
  | SKill i =>
      match stops b !! i with
      | Some StopWaits => Ret (if free b then set_stop b (<[i := StopKilled]> (stops b)) (stdin b)
                                 (if cmd b then sent b ++ ["SIGKILL"%string] else sent b) else b)
      | _ => Ret b
      end
  | SForce i =>
      match stops b !! i with
      | Some StopKilled => if free b then cleanup (set_stop b (delete i (stops b)) (stdin b) (sent b)) else Ret b
      | _ => Ret b
      end
  | Prompt n => Ret (if free b && stdin b then set_mu b (Some (HPrompt n)) (inbuf b) else b)
  | IWrite => Ret (write_stdin b)
  | Consume =>
      Ret (match events b with ev :: rest => set_consumed b rest (consumed b ++ [ev]) | [] => b end)
  end.

Fixpoint run (b : Bridge) (ls : list label) : go Bridge :=
  match ls with
  | [] => Ret b
  | l :: ls' => b' ← step b l; run b' ls'
  end.

Definition IsRunning (b : Bridge) : bool := cmd b && negb (closed b).

(** ** Lemmas *)

Notation event_lines := (omap event_of_line).

(** The invariant of a bridge that was started once. *)
Record bridge_ok (b : Bridge) : Prop := {
  ok_done : done_closed b = closed b;
  ok_events : events_closed b = true ↔ life b = Finished;
  ok_reader : reader_done b = true ∨ life b = WaitProcess ∨ life b = RecordExit ∨ life b = WaitReaders;
  ok_started : reader_started b = true ∨ reader_done b = false ∧ scanned b = [];
  ok_exit : life b = WaitProcess ∨ alive b = false ∧ pipe_closed b = true;
  ok_room : (length (events b) <= MaxEvents)%nat;
  ok_closed : life b = CloseEvents ∨ life b = Finished → closed b = true;
  ok_order : consumed b ++ events b ++ event_lines (scanned b ++ pipe b) `sublist_of` event_lines (written b);
}.

Lemma started_ok timer b : Start NewPiBridge timer = Some b → bridge_ok b.
Proof. intros [= <-]. split; simpl; auto; [done|lia|by intros [|]]. Qed.

Lemma event_lines_sublist l k : l `sublist_of` k → event_lines l `sublist_of` event_lines k.
Proof.
  induction 1 as [|x l k H IH|x l k H IH]; [done|..]; cbn [omap list_omap];
    destruct (event_of_line x); try done; by constructor.
Qed.

(** Lines may get lost before they are read. *)
Lemma order_drop c e l l' w : l' `sublist_of` l →
  c ++ e ++ event_lines l `sublist_of` w → c ++ e ++ event_lines l' `sublist_of` w.
Proof.
  intros H1 H2. etrans; [|exact H2]. apply sublist_app; [done|]. apply sublist_app; [done|].
  by apply event_lines_sublist.
Qed.

Lemma cleanup_ok b : bridge_ok b → ∃ b', cleanup b = Ret b' ∧ bridge_ok b' ∧ cmd b' = false ∧ closed b' = true ∧
  stops b' = stops b ∧ alive b' = alive b.
Proof.
  intros [Hd He Hr Hs Hx Hm Hc Ho]. unfold cleanup, close_done. rewrite Hd.
  destruct (closed b) eqn:Ec; cbn; eexists; (split; [reflexivity|split; [|done]]); split; simpl;
    try done; try (by rewrite Ec); destruct Hx as [Hx|[Hx1 Hx2]]; auto; right; rewrite Hx2; auto.
Qed.

Lemma lifecycle_step_ok b : bridge_ok b → ∃ b', lifecycle_step b = Ret b' ∧ bridge_ok b'.
Proof.
  intros Hok. pose proof Hok as [Hd He Hr Hs Hx Hm Hc Ho]. unfold lifecycle_step.
  assert (life b ≠ Finished → events_closed b = false) as Hev by (intros Hl; apply not_true_is_false; by rewrite He).
  destruct (life b) eqn:El; rewrite ?El in *.
  - eexists. split; [reflexivity|]. destruct (alive b) eqn:Ea; [done|].
    unfold wait_returns. split; simpl; auto; [rewrite Hev by done; naive_solver|by intros [|]|].
    eapply order_drop; [|exact Ho]. apply sublist_app; [done|apply sublist_nil_l].
  - eexists. split; [reflexivity|]. destruct (free b); [|done]. destruct Hx as [|Hx]; [done|].
    unfold record_exit. split; simpl; auto; [rewrite Hev by done; naive_solver|by intros [|]].
  - eexists. split; [reflexivity|]. destruct (reader_done b && stderr_done b) eqn:Er; [|done].
    apply andb_true_iff in Er as [Er _]. destruct Hx as [|Hx]; [done|].
    split; simpl; auto; [rewrite Hev by done; naive_solver|by intros [|]].
  - destruct Hr as [Hr|[|[|]]]; [|done..]. destruct Hx as [|Hx]; [done|]. destruct (free b); [|by eexists].
    unfold close_done. rewrite Hd. destruct (closed b) eqn:Ec; cbn; eexists; (split; [reflexivity|]);
      split; simpl; rewrite ?Ec; auto; rewrite Hev by done; naive_solver.
  - destruct Hr as [Hr|[|[|]]]; [|done..]. destruct Hx as [|Hx]; [done|].
    unfold close_events. rewrite Hev by done. eexists. split; [reflexivity|]. split; simpl; auto; naive_solver.
  - by eexists.
Qed.

Lemma set_stop_ok b st i snt : bridge_ok b → bridge_ok (set_stop b st i snt).
Proof. by intros []; split. Qed.
Lemma set_mu_ok b m n : bridge_ok b → bridge_ok (set_mu b m n).
Proof. by intros []; split. Qed.
Lemma write_stdin_ok b : bridge_ok b → bridge_ok (write_stdin b).
Proof.
  intros Hok. unfold write_stdin. destruct (mu b) as [h|]; [|done]. destruct (_ || _); [|by apply set_mu_ok].
  unfold finish_write. destruct h; by apply set_stop_ok, set_mu_ok.
Qed.

(** The one step that panics: the reader begins after a cleanup. *)
Definition late_reader (b : Bridge) (l : label) : Prop := l = RStart ∧ reader_started b = false ∧ stdout b = false.
Lemma bridge_step_ok b l : bridge_ok b → (late_reader b l ∧ step b l = Panic) ∨ ∃ b', step b l = Ret b' ∧ bridge_ok b'.
Proof.
  intros Hok. pose proof Hok as [Hd He Hr Hst Hx Hm Hc Ho].
  destruct l as [line|code|k| |n| | | | |i|i|i|i|k| |]; cbn [step].
  - right. eexists. split; [reflexivity|]. destruct (alive b) eqn:Ea; [|done]. split; simpl; auto.
    rewrite (omap_app _ (written b)). destruct (pipe_closed b); [by apply sublist_inserts_r|].
    rewrite (assoc_L (++) (scanned b)), (omap_app _ (scanned b ++ pipe b)), !(assoc_L (++)).
    apply sublist_app; [|done]. by rewrite <- (assoc_L (++)).
  - right. eexists. split; [reflexivity|]. destruct (alive b) eqn:Ea; [|done]. split; simpl; auto.
    destruct Hx as [|[]]; auto; congruence.
  - right. eexists. split; [reflexivity|]. destruct (alive b); [by apply set_mu_ok|done].
  - destruct (reader_started b) eqn:Es; [right; by exists b|]. destruct (stdout b) eqn:Eo; [|left; by split].
    right. eexists. split; [reflexivity|]. split; simpl; auto.
  - right. eexists. split; [reflexivity|].
    destruct (reader_started b) eqn:Es, (reader_done b) eqn:Er, (pipe_closed b) eqn:Ep; simpl; try done.
    split; simpl; auto; [naive_solver..|]. by rewrite <- (assoc_L (++)), take_drop.
  - right. destruct (reader_done b) eqn:Er; [by eexists|]. destruct (scanned b) as [|line rest] eqn:Es; [by eexists|].
    assert (reader_started b = true) as Hgo by (by destruct Hst as [|[_ ?]]).
    assert (∀ rd, bridge_ok (set_reader b (events b) (pipe b) rest rd)) as Hdrop.
    { intros rd. split; simpl; auto; [naive_solver|]. eapply order_drop; [|exact Ho]. by constructor. }
    destruct (maxLine <=? _); [by eexists|]. unfold push_event.
    destruct (event_of_line line) as [ev|] eqn:Eev; [|rewrite Er; by eexists].
    assert (events_closed b = false) as ->.
    { apply not_true_is_false. intros Hev%He. destruct Hr as [|[|[]]]; congruence. }
    destruct (Nat.ltb_spec (length (events b)) MaxEvents); [|rewrite Er; by eexists].
    eexists. split; [reflexivity|]. split; simpl; auto; [naive_solver|rewrite length_app; simpl; lia|].
    revert Ho. cbn [app omap list_omap]. rewrite Eev. by rewrite <- !(assoc_L (++)).
  - right. destruct (reader_started b) eqn:Eg; [|by eexists]. destruct (reader_done b) eqn:Er; [by eexists|].
    destruct (scanned b) as [|line rest] eqn:Es; [|by eexists].
    eexists. split; [reflexivity|]. destruct (_ || _); [|done]. split; simpl; auto.
  - right. eexists. split; [reflexivity|]. destruct (alive b); [done|]. by destruct Hok; split.
  - right. by apply lifecycle_step_ok.
  - right. eexists. split; [reflexivity|]. destruct (_ || _); [done|]. destruct (stops b !! i); [done|].
    destruct (stdin b); [by apply set_mu_ok|by apply set_stop_ok].
  - right. destruct (stops b !! i); [|by eexists]. destruct (free b && done_closed b); [|by eexists].
    destruct (cleanup_ok _ (set_stop_ok b (delete i (stops b)) (stdin b) (sent b) Hok)) as (b' & Hb' & Hok' & _).
    by exists b'.
  - right. destruct (stops b !! i) as [[]|]; [|by eexists..]. eexists. split; [reflexivity|]. destruct (free b); [by apply set_stop_ok|done].
  - right. destruct (stops b !! i) as [[]|]; [by eexists| |by eexists]. destruct (free b); [|by eexists].
    destruct (cleanup_ok _ (set_stop_ok b (delete i (stops b)) (stdin b) (sent b) Hok)) as (b' & Hb' & Hok' & _).
    by exists b'.
  - right. eexists. split; [reflexivity|]. destruct (_ && _); [by apply set_mu_ok|done].
  - right. eexists. split; [reflexivity|]. by apply write_stdin_ok.
  - right. eexists. split; [reflexivity|]. destruct (events b) as [|ev rest] eqn:Eev; [done|].
    split; simpl; auto; [simpl in Hm; lia|]. by rewrite <- (assoc_L (++)).
Qed.

Lemma run_bridge_ok b ls b' : bridge_ok b → run b ls = Ret b' → bridge_ok b'.
Proof.
  revert b. induction ls as [|l ls IH]; intros b Hok; cbn [run]; [by intros [= <-]|].
  destruct (bridge_step_ok b l Hok) as [[_ ->]|(b1 & -> & Hok1)]; [done|]. cbn [mbind go_bind]. by apply IH.
Qed.

Lemma run_bridge_app b ls1 ls2 : run b (ls1 ++ ls2) = (b' ← run b ls1; run b' ls2).
Proof.
  revert b. induction ls1 as [|l ls IH]; intros b; [done|]. cbn [app run].
  destruct (step b l) as [b1|]; [|done]. cbn [mbind go_bind]. apply IH.
Qed.

(** A panic is that of a late reader. *)
Lemma run_panics b ls : bridge_ok b → run b ls = Panic →
  ∃ ls1 ls2 b1, ls = ls1 ++ RStart :: ls2 ∧ run b ls1 = Ret b1 ∧ late_reader b1 RStart.
Proof.
  revert b. induction ls as [|l ls IH]; intros b Hok; cbn [run]; [done|].
  destruct (bridge_step_ok b l Hok) as [[Hl _]|(b1 & E & Hok1)].
  - intros _. pose proof Hl as (-> & _). by exists [], ls, b.
  - rewrite E. cbn [mbind go_bind]. intros Hp. destruct (IH b1 Hok1 Hp) as (ls1 & ls2 & b2 & -> & Hr & Hl).
    exists (l :: ls1), ls2, b2. split; [done|]. split; [|done]. cbn [run]. by rewrite E.
Qed.

(** The steps that may make p.stdout nil, or the reader late, are forced ends of a Stop. *)
Definition fresh (b : Bridge) : Prop := reader_started b = true ∨ stdout b = true ∧ closed b = false.
Lemma cleanup_started b b' : cleanup b = Ret b' → reader_started b' = reader_started b.
Proof. unfold cleanup, close_done. destruct (closed b), (done_closed b); cbn; try done; by intros [= <-]. Qed.
Definition is_force (l : label) : bool := match l with SForce _ => true | _ => false end.
Lemma started_stays b l b' : reader_started b = true → step b l = Ret b' → reader_started b' = true.
Proof.
  intros Hg. destruct l as [line|code|k| |n| | | | |i|i|i|i|k| |]; cbn [step]; rewrite ?Hg; cbn [negb orb].
  - intros [= <-]. by destruct (alive b).
  - intros [= <-]. by destruct (alive b).
  - intros [= <-]. by destruct (alive b).
  - by intros [= <-].
  - intros [= <-]. by destruct (reader_done b || pipe_closed b).
  - destruct (reader_done b), (scanned b); try (by intros [= <-]). destruct (maxLine <=? _); [by intros [= <-]|].
    unfold push_event. destruct (event_of_line _); [|by intros [= <-]]. destruct (events_closed b); [done|]. by case_match; intros [= <-].
  - destruct (reader_done b), (scanned b); try (by intros [= <-]). intros [= <-]. by destruct (_ || _).
  - intros [= <-]. by destruct (alive b).
  - unfold lifecycle_step, close_events, close_done. destruct (life b), (closed b), (done_closed b), (events_closed b),
      (alive b), (free b), (reader_done b && stderr_done b); cbn; try done; by intros [= <-].
  - intros [= <-]. destruct (_ || _); [done|]. destruct (stops b !! i); [done|]. by destruct (stdin b).
  - destruct (stops b !! i), (free b && done_closed b); try (by intros [= <-]). by intros ->%cleanup_started.
  - destruct (stops b !! i) as [[]|]; try (by intros [= <-]). intros [= <-]. by destruct (free b).
  - destruct (stops b !! i) as [[]|], (free b); try (by intros [= <-]). by intros ->%cleanup_started.
  - intros [= <-]. by destruct (_ && _).
  - intros [= <-]. unfold write_stdin. destruct (mu b) as [h|]; [|done]. destruct (_ || _); [|done]. unfold finish_write. by destruct h.
  - intros [= <-]. by destruct (events b).
Qed.
Lemma fresh_step b l b' : bridge_ok b → fresh b → is_force l = false → step b l = Ret b' → fresh b'.
Proof.
  intros Hok Hf Hl. destruct (reader_started b) eqn:Hg; [intros Hs; left; by apply (started_stays b l)|].
  destruct Hf as [Hf|[Ho Hc]]; [congruence|]. pose proof (ok_done b Hok) as Hd.
  assert (reader_done b = false ∧ scanned b = []) as [Hr Hs] by (by destruct (ok_started b Hok) as [?|?]; [congruence|]).
  unfold fresh. destruct l as [line|code|k| |n| | | | |i|i|i|i|k| |]; cbn [step]; rewrite ?Hg, ?Hr, ?Hs; cbn [negb orb].
  - intros [= <-]. right. by destruct (alive b).
  - intros [= <-]. right. by destruct (alive b).
  - intros [= <-]. right. by destruct (alive b).
  - rewrite Ho. intros [= <-]. by left.
  - intros [= <-]. by right.
  - intros [= <-]. by right.
  - intros [= <-]. by right.
  - intros [= <-]. right. by destruct (alive b).
  - unfold lifecycle_step. rewrite Hr. cbn [andb]. destruct (ok_reader b Hok) as [?|[E|[E|E]]]; [congruence|..]; rewrite E; intros [= <-]; right.
    + by destruct (alive b).
    + by destruct (free b).
    + done.
  - intros [= <-]. right. destruct (_ || _); [done|]. destruct (stops b !! i); [done|]. by destruct (stdin b).
  - rewrite Hd, Hc, andb_false_r. destruct (stops b !! i); intros [= <-]; by right.
  - intros Hst. right. destruct (stops b !! i) as [[]|]; injection Hst as <-; try done. by destruct (free b).
  - done.
  - intros [= <-]. right. by destruct (_ && _).
  - intros [= <-]. right. unfold write_stdin. destruct (mu b) as [h|]; [|done]. destruct (_ || _); [|done]. unfold finish_write. by destruct h.
  - intros [= <-]. right. by destruct (events b).
Qed.

(** What is in the pipe's past: our end is closed. *)
Lemma closed_step b l b' : pipe_closed b = true → step b l = Ret b' →
  pipe_closed b' = true ∧
  consumed b' ++ events b' ++ event_lines (scanned b') `sublist_of`
    consumed b ++ events b ++ event_lines (scanned b).
Proof.
  intros Hp. assert (∀ b b', cleanup b = Ret b' → pipe_closed b = true →
    pipe_closed b' = true ∧ consumed b' = consumed b ∧ events b' = events b ∧ scanned b' = scanned b) as Hcl.
  { clear. intros b b'. unfold cleanup, close_done. destruct (closed b), (done_closed b); cbn; try done;
      intros [= <-] Hp; simpl; by rewrite Hp. }
  assert (∀ ev sc, ev ++ event_lines sc `sublist_of` events b ++ event_lines (scanned b) →
    consumed b ++ ev ++ event_lines sc `sublist_of` consumed b ++ events b ++ event_lines (scanned b)) as Hap.
  { intros. by apply sublist_app. }
  destruct l as [line|code|k| |n| | | | |i|i|i|i|k| |]; cbn [step].
  - intros [= <-]. by destruct (alive b).
  - intros [= <-]. by destruct (alive b).
  - intros [= <-]. by destruct (alive b).
  - destruct (reader_started b); [by intros [= <-]|]. destruct (stdout b); [by intros [= <-]|done].
  - rewrite Hp, orb_true_r. by intros [= <-].
  - destruct (reader_done b); [by intros [= <-]|]. destruct (scanned b) as [|line rest] eqn:Es;
      [intros [= <-]; by rewrite Es|].
    cbn [omap list_omap] in *. destruct (maxLine <=? _).
    { intros [= <-]. split; [done|]. apply Hap. apply sublist_app; [done|]. destruct (event_of_line line); [by constructor|done]. }
    unfold push_event. destruct (event_of_line line) as [ev|]; [|by intros [= <-]].
    destruct (events_closed b); [done|]. destruct (_ <? _)%nat; intros [= <-]; (split; [done|]); apply Hap; simpl.
    + by rewrite <- (assoc_L (++)).
    + apply sublist_app; [done|]. by constructor.
  - destruct (reader_started b); [|by intros [= <-]]. destruct (reader_done b); [by intros [= <-]|].
    destruct (scanned b) eqn:Es; [|by intros [= <-]; rewrite Es].
    rewrite Hp. cbn. intros [= <-]. split; [done|]. cbn. by rewrite ?Es.
  - intros [= <-]. by destruct (alive b).
  - unfold lifecycle_step, close_events, close_done. destruct (life b), (closed b), (done_closed b), (events_closed b),
      (alive b), (free b), (reader_done b && stderr_done b); cbn; try done; by intros [= <-].
  - intros [= <-]. destruct (_ || _); [done|]. destruct (stops b !! i); [done|]. by destruct (stdin b).
  - destruct (stops b !! i); [|by intros [= <-]]. destruct (free b && done_closed b); [|by intros [= <-]].
    intros (? & -> & -> & ->)%Hcl; done.
  - destruct (stops b !! i) as [[]|]; try (by intros [= <-]). intros [= <-]. by destruct (free b).
  - destruct (stops b !! i) as [[]|]; try (by intros [= <-]). destruct (free b); [|by intros [= <-]]. intros (? & -> & -> & ->)%Hcl; done.
  - intros [= <-]. by destruct (_ && _).
  - intros [= <-]. unfold write_stdin. destruct (mu b) as [h|]; [|done]. destruct (_ || _); [|done]. unfold finish_write. by destruct h.
  - intros [= <-]. destruct (events b) eqn:Ee; [by rewrite Ee|]. split; [done|]. simpl. by rewrite <- (assoc_L (++)).
Qed.

Lemma closed_run b ls b' : pipe_closed b = true → run b ls = Ret b' →
  consumed b' ++ events b' `sublist_of` (consumed b ++ events b) ++ event_lines (scanned b).
Proof.
  intros Hp Hr. assert (consumed b' ++ events b' ++ event_lines (scanned b') `sublist_of`
    consumed b ++ events b ++ event_lines (scanned b)) as H.
  { revert b Hp Hr. induction ls as [|l ls IH]; intros b Hp; [by intros [= ->]|]. cbn [run].
    destruct (step b l) as [b1|] eqn:E; [|done]. cbn [mbind go_bind]. intros Hr.
    destruct (closed_step b l b1 Hp E) as [Hp1 H1]. etrans; [by apply IH|done]. }
  rewrite <- (assoc_L (++)). etrans; [|exact H]. rewrite (assoc_L (++)). by apply sublist_inserts_r.
Qed.

(** ** Properties of a process *)

(** C38: a bridge that was started once, under any steps of the process, of the reader, of
    the waiting goroutine, of the consumer, of SendPrompts and of any number of Stops, in
    any order. As long as it does not panic, its channel holds at most a hundred
    events, and the events that come out are events the process wrote, each at most once
    and in order. It panics in one way: the goroutine of the reader comes to its first
    read after a Stop has given up on the process and has made p.stdout nil; so no
    channel is closed twice, and none is sent to after it was closed. Once the reader
    has begun nothing panics any more. *)
Theorem bridge_safe timer : ∃ b, Start NewPiBridge timer = Some b ∧ ∀ ls,
  match run b ls with
  | Ret b' =>
      (length (events b') <= MaxEvents)%nat ∧
      consumed b' ++ events b' `sublist_of` event_lines (written b') ∧
      (reader_started b' = true → ∀ ls', run b' ls' ≠ Panic)
  | Panic => ∃ ls1 ls2 b1 i, ls = ls1 ++ RStart :: ls2 ∧ run b ls1 = Ret b1 ∧
      reader_started b1 = false ∧ stdout b1 = false ∧ SForce i ∈ ls1
  end.
Proof.
  eexists. split; [reflexivity|]. set (b := mkBridge _ _ _ _ _ _ _ _ _ _ _ _ _ _ _ _ _ _ _ _ _ _ _ _). intros ls.
  assert (bridge_ok b) as Hb by (by apply started_ok with timer). destruct (run b ls) as [b'|] eqn:E.
  - pose proof (run_bridge_ok b ls b' Hb E) as Hok. split; [by apply ok_room|]. split.
    + etrans; [|by apply ok_order]. rewrite (assoc_L (++)). by apply sublist_inserts_r.
    + intros Hg ls' Hp. destruct (run_panics b' ls' Hok Hp) as (ls1 & ls2 & b1 & _ & Hr & _ & Hn & _). clear Hp E.
      assert (∀ ls x y, reader_started x = true → run x ls = Ret y → reader_started y = true) as Hmono.
      { clear. induction ls as [|l ls IH]; intros x y Hx; cbn [run]; [by intros [= <-]|]. destruct (step x l) as [z|] eqn:E; [|done].
        cbn [mbind go_bind]. by apply IH, (started_stays x l). }
      pose proof (Hmono ls1 b' b1 Hg Hr). congruence.
  - destruct (run_panics b ls Hb E) as (ls1 & ls2 & b1 & -> & Hr & _ & Hg & Ho). clear E.
    destruct (decide (Exists (λ l, is_force l = true) ls1)) as [Hf|Hf].
    { apply Exists_exists in Hf as (l & Hin & Hl). destruct l as [| | | | | | | | | | | |i| | |]; try discriminate Hl. by exists ls1, ls2, b1, i. }
    exfalso. assert (∀ ls x y, bridge_ok x → fresh x → ¬ Exists (λ l, is_force l = true) ls → run x ls = Ret y → fresh y) as Hmono.
    { clear. induction ls as [|l ls IH]; intros x y Hx Hf Hl; cbn [run]; [by intros [= <-]|]. destruct (step x l) as [z|] eqn:E; [|done].
      cbn [mbind go_bind]. rewrite Exists_cons in Hl. apply IH; [|eapply fresh_step; [done|done| |done]; by destruct (is_force l); tauto|tauto].
      apply (run_bridge_ok x [l] z Hx). cbn [run]. by rewrite E. }
    destruct (Hmono ls1 b b1 Hb) as [?|[? _]]; [by right|done|done|congruence|congruence].
Qed.

(** What the process wrote last may be lost: cmd.Wait closes the pipe as soon as
    the process has exited, and only then the goroutine waits for the reader.
    Lines that are still in the pipe are never delivered, whatever happens
    afterwards. *)
Theorem exit_loses_lines b ls b' :
  bridge_ok b → life b = WaitProcess → alive b = false →
  run b (LStep :: ls) = Ret b' →
  consumed b' ++ events b' `sublist_of` (consumed b ++ events b) ++ event_lines (scanned b).
Proof.
  intros Hok Hl Ha. cbn [run step]. unfold lifecycle_step. rewrite Hl, Ha. cbn [mbind go_bind].
  intros Hr. by apply (closed_run (wait_returns b) ls b').
Qed.

(** ** Termination *)

Definition rank (l : lifecycle) : nat :=
  match l with WaitProcess => 5 | RecordExit => 4 | WaitReaders => 3 | CloseDone => 2 | CloseEvents => 1 | Finished => 0 end.
Definition stop_left (st : stop_stage) : nat := match st with StopWaits => 2 | StopKilled => 1 end.
Definition stops_left (m : gmap N stop_stage) : nat := map_fold (λ _ st n, (stop_left st + n)%nat) 0%nat m.
Definition holder_left (h : holder) : nat := match h with HPrompt n => S n | HAbort _ n => (3 + n)%nat end.
(** What the bridge still has to do by itself: of the reader, of stderr, of the waiting
    goroutine, of the Stops, and of a write. *)
Definition steps_left (b : Bridge) : nat :=
  ((if reader_started b then 0 else 1) + (if reader_done b then 0 else S (2 * length (pipe b) + length (scanned b))) +
  (if stderr_done b then 0 else 1) + rank (life b) + stops_left (stops b) + from_option holder_left 0 (mu b))%nat.

(** The steps of the bridge: not those of the process, the consumer and the callers. The
    timeouts of a Stop pass by themselves. *)
Definition internal (l : label) : bool :=
  match l with
  | RStart | RFill _ | RScan | REnd | EEnd | LStep | SDone _ | SKill _ | SForce _ | IWrite => true
  | _ => false
  end.
(** A run in which every step does something. *)
Fixpoint walk (b : Bridge) (ls : list label) (b' : Bridge) : Prop :=
  match ls with [] => b' = b | l :: ls' => ∃ b1, step b l = Ret b1 ∧ b1 ≠ b ∧ walk b1 ls' b' end.
(** No step of the bridge does anything, nor panics. *)
Definition stuck (b : Bridge) : Prop := ∀ l, internal l = true → step b l = Ret b.

Lemma stops_left_insert m i st : m !! i = None → stops_left (<[i := st]> m) = (stop_left st + stops_left m)%nat.
Proof. intros Hi. unfold stops_left. rewrite map_fold_insert_L; [done|intros; lia|done]. Qed.
Lemma stops_left_delete m i st : m !! i = Some st → stops_left m = (stop_left st + stops_left (delete i m))%nat.
Proof. intros Hi. rewrite <-(stops_left_insert (delete i m) i st) by apply lookup_delete_eq. by rewrite insert_delete_id. Qed.
Lemma stops_left_replace m i st st' : m !! i = Some st → (stops_left (<[i := st']> m) + stop_left st = stops_left m + stop_left st')%nat.
Proof.
  intros Hi. rewrite <-insert_delete_eq, (stops_left_insert (delete i m)), (stops_left_delete m i st) by (done || apply lookup_delete_eq). lia.
Qed.

Lemma cleanup_left b b' : cleanup b = Ret b' → steps_left b' = steps_left b ∧ alive b' = alive b.
Proof. unfold cleanup, close_done. destruct (closed b), (done_closed b); cbn; try done; by intros [= <-]. Qed.
Lemma set_stop_left b st i snt : (steps_left (set_stop b st i snt) + stops_left (stops b) = steps_left b + stops_left st)%nat.
Proof. unfold steps_left. cbn. lia. Qed.

Lemma lifecycle_left b b' : lifecycle_step b = Ret b' → b' = b ∨ (steps_left b' < steps_left b)%nat ∧ alive b' = alive b.
Proof.
  unfold lifecycle_step, close_events, close_done. destruct (life b) eqn:El.
  - intros [= <-]. destruct (alive b) eqn:Ea; [by left|right]. unfold steps_left. cbn. rewrite El. split; [cbn; destruct (reader_done b); lia|by rewrite Ea].
  - intros [= <-]. destruct (free b); [right|by left]. unfold steps_left. cbn. rewrite El. split; [cbn; lia|done].
  - intros [= <-]. destruct (reader_done b && stderr_done b); [right|by left]. unfold steps_left. cbn. rewrite El. split; [cbn; lia|done].
  - destruct (free b); [|by intros [= <-]; left]. destruct (closed b), (done_closed b); cbn; try done; intros [= <-]; right; unfold steps_left; cbn;
      rewrite El; (split; [cbn; lia|done]).
  - destruct (events_closed b); [done|]. intros [= <-]. right. unfold steps_left. cbn. rewrite El. split; [cbn; lia|done].
  - intros [= <-]. by left.
Qed.

Lemma write_left b : write_stdin b = b ∨ (steps_left (write_stdin b) < steps_left b)%nat ∧ alive (write_stdin b) = alive b.
Proof.
  unfold write_stdin. destruct (mu b) as [h|] eqn:Em; [|by left]. destruct (_ || _) eqn:Ew.
  - right. unfold finish_write. destruct h as [n|i n]; [split; [unfold steps_left; cbn; rewrite Em; cbn; lia|done]|]. split; [|done].
    unfold steps_left. cbn [set_stop set_mu reader_started reader_done pipe scanned stderr_done life stops mu from_option]. rewrite Em. cbn [from_option holder_left].
    destruct (stops b !! i) as [st|] eqn:Ei; [pose proof (stops_left_replace _ i st StopWaits Ei)|pose proof (stops_left_insert _ i StopWaits Ei)];
      cbn in *; [destruct st; cbn in *|]; lia.
  - apply orb_false_iff in Ew as [_ Ew%Nat.leb_gt]. destruct (decide (stdin_size - inbuf b = 0)%nat) as [Hz|Hz].
    + left. rewrite Hz, Nat.sub_0_r, Nat.add_0_r. destruct b, h; cbn in *; subst; done.
    + right. split; [|done]. unfold steps_left. cbn. rewrite Em. destruct h; cbn in *; lia.
Qed.

Lemma reader_left b ev p sc rd : reader_done b = false → (rd = true ∨ (2 * length p + length sc < 2 * length (pipe b) + length (scanned b))%nat) →
  (steps_left (set_reader b ev p sc rd) < steps_left b)%nat ∧ alive (set_reader b ev p sc rd) = alive b.
Proof. intros Hr Hd. split; [|done]. unfold steps_left. cbn. rewrite Hr. destruct rd; destruct Hd; (done || lia). Qed.

Lemma internal_step b l b' : internal l = true → step b l = Ret b' → b' = b ∨ (steps_left b' < steps_left b)%nat ∧ alive b' = alive b.
Proof.
  intros Hi. destruct l as [line|code|k| |n| | | | |i|i|i|i|k| |]; try discriminate Hi; cbn [step].
  - destruct (reader_started b) eqn:Hg; [intros [= <-]; by left|]. destruct (stdout b); [|done]. intros [= <-]. right. unfold steps_left. cbn. rewrite Hg. split; [lia|done].
  - intros [= <-]. destruct (negb _ || _ || _) eqn:E; [by left|]. apply orb_false_iff in E as [[_ Hr]%orb_false_iff _].
    destruct (take n (pipe b)) as [|x t] eqn:Et.
    + left. assert (drop n (pipe b) = pipe b) as -> by (by rewrite <-(take_drop n (pipe b)) at 2; rewrite Et).
      rewrite app_nil_r. destruct b; cbn in *; by subst.
    + right. apply reader_left; [done|right]. pose proof (f_equal length (take_drop n (pipe b))) as Hlen. rewrite Et, length_app in Hlen.
      rewrite length_app. cbn in *. lia.
  - destruct (reader_done b) eqn:Hr; [intros [= <-]; by left|]. destruct (scanned b) as [|line rest] eqn:Es; [intros [= <-]; by left|].
    destruct (maxLine <=? _); [intros [= <-]; right; apply reader_left; [done|by left]|].
    unfold push_event. destruct (event_of_line line); [destruct (events_closed b); [done|]; case_match|]; intros [= <-];
      right; (apply reader_left; [done|right; rewrite Es; cbn; lia]).
  - destruct (reader_started b); [|intros [= <-]; by left]. destruct (reader_done b) eqn:Hr; [intros [= <-]; by left|].
    destruct (scanned b) as [|line rest] eqn:Es; [|intros [= <-]; by left]. intros [= <-]. destruct (_ || _); [right|by left].
    apply reader_left; [done|by left].
  - intros [= <-]. destruct (alive b) eqn:Ea; [by left|]. destruct (stderr_done b) eqn:Ee; [left; destruct b; cbn in *; by subst|right].
    unfold steps_left. cbn. rewrite Ee, Ea. split; [lia|done].
  - apply lifecycle_left.
  - destruct (stops b !! i) as [st|] eqn:Ei; [|intros [= <-]; by left]. destruct (free b && done_closed b); [|intros [= <-]; by left].
    intros [Hl Ha]%cleanup_left. right. rewrite Hl, Ha. split; [|done].
    pose proof (set_stop_left b (delete i (stops b)) (stdin b) (sent b)). pose proof (stops_left_delete _ i st Ei). destruct st; cbn in *; lia.
  - destruct (stops b !! i) as [[]|] eqn:Ei; try (intros [= <-]; by left). destruct (free b); intros [= <-]; [right|by left]. split; [|done].
    set (snt := if cmd b then _ else _). pose proof (set_stop_left b (<[i := StopKilled]> (stops b)) (stdin b) snt).
    pose proof (stops_left_replace _ i StopWaits StopKilled Ei). cbn in *; lia.
  - destruct (stops b !! i) as [[]|] eqn:Ei; try (intros [= <-]; by left). destruct (free b); [|intros [= <-]; by left].
    intros [Hl Ha]%cleanup_left. right. rewrite Hl, Ha. split; [|done].
    pose proof (set_stop_left b (delete i (stops b)) (stdin b) (sent b)). pose proof (stops_left_delete _ i StopKilled Ei). cbn in *; lia.
  - intros [= <-]. apply write_left.
Qed.

Lemma walk_bound b ls b' : Forall (λ l, internal l = true) ls → walk b ls b' →
  (length ls + steps_left b' <= steps_left b)%nat ∧ alive b' = alive b ∧ run b ls = Ret b'.
Proof.
  intros Hi. revert b. induction Hi as [|l ls Hl _ IH]; intros b; cbn [walk run length]; [intros ->; by split_and!|].
  intros (b1 & E & Hne & Hw). destruct (internal_step b l b1 Hl E) as [|[Hlt Ha]]; [done|]. destruct (IH b1 Hw) as (H1 & H2 & H3).
  rewrite E. cbn [mbind go_bind]. split; [lia|]. split; [congruence|done].
Qed.

(** Where a write does not go on, the process is there and does not read. *)
Lemma stuck_write b h : stuck b → mu b = Some h → alive b = true ∧ (stdin_size <= inbuf b)%nat.
Proof.
  intros Hs Hm. pose proof (Hs IWrite eq_refl) as H. cbn [step] in H. injection H as H. unfold write_stdin in H. rewrite Hm in H.
  destruct (negb (alive b) || _) eqn:Ew.
  - apply (f_equal mu) in H. rewrite Hm in H. unfold finish_write in H. by destruct h.
  - apply orb_false_iff in Ew as [Ea%negb_false_iff _]. split; [done|]. apply (f_equal inbuf) in H. cbn in H. lia.
Qed.
Lemma stuck_stops b : bridge_ok b → stuck b → mu b = None → stops b = ∅.
Proof.
  intros Hok Hs Hm. assert (free b = true) as Hf by (unfold free; by rewrite Hm). apply map_eq. intros i. rewrite lookup_empty.
  destruct (stops b !! i) as [[]|] eqn:Ei; [| |done]; exfalso.
  - pose proof (Hs (SKill i) eq_refl) as H. cbn [step] in H. rewrite Ei, Hf in H. injection H as H. apply (f_equal (λ b, stops b !! i)) in H.
    cbn in H. by rewrite lookup_insert_eq, Ei in H.
  - pose proof (Hs (SForce i) eq_refl) as H. cbn [step] in H. rewrite Ei, Hf in H.
    destruct (cleanup_ok _ (set_stop_ok b (delete i (stops b)) (stdin b) (sent b) Hok)) as (b' & E & _ & _ & _ & Hst & _). rewrite E in H. injection H as ->.
    cbn in Hst. rewrite Hst, lookup_delete_eq in Ei. done.
Qed.
Lemma stuck_reader b : bridge_ok b → stuck b → alive b = false → reader_done b = true ∧ stderr_done b = true.
Proof.
  intros Hok Hs Ha. split.
  - destruct (reader_done b) eqn:Hr; [done|exfalso].
    assert (reader_started b = true) as Hg.
    { destruct (reader_started b) eqn:Hg; [done|]. pose proof (Hs RStart eq_refl) as H. cbn [step] in H. rewrite Hg in H.
      destruct (stdout b); [|done]. injection H as H. apply (f_equal reader_started) in H. cbn in H. congruence. }
    destruct (scanned b) as [|line rest] eqn:Es.
    + pose proof (Hs REnd eq_refl) as He. cbn [step] in He. rewrite Hg, Hr, Es, Ha in He. cbn [negb andb] in He.
      destruct (pipe_closed b || _) eqn:Ep; [injection He as He; apply (f_equal reader_done) in He; cbn in He; congruence|].
      apply orb_false_iff in Ep as [Ep Hpipe]. destruct (pipe b) as [|x p] eqn:Eq; [done|].
      pose proof (Hs (RFill 1) eq_refl) as H. cbn [step] in H. rewrite Hg, Hr, Ep, Eq in H. cbn [negb orb] in H. injection H as H.
      apply (f_equal scanned) in H. cbn in H. by rewrite Es in H.
    + pose proof (Hs RScan eq_refl) as H. cbn [step] in H. rewrite Hr, Es in H.
      destruct (maxLine <=? _); [injection H as H; apply (f_equal reader_done) in H; cbn in H; congruence|]. unfold push_event in H.
      destruct (event_of_line line); [destruct (events_closed b); [done|]; destruct (_ <? _)%nat|]; injection H as H;
        apply (f_equal (λ b, length (scanned b))) in H; rewrite Es in H; cbn in H; lia.
  - destruct (stderr_done b) eqn:Ee; [done|]. pose proof (Hs EEnd eq_refl) as H. cbn [step] in H. rewrite Ha in H. injection H as H.
    apply (f_equal stderr_done) in H. cbn in H. congruence.
Qed.
Lemma stuck_life b : bridge_ok b → stuck b → alive b = false → life b = Finished.
Proof.
  intros Hok Hs Ha. destruct (stuck_reader b Hok Hs Ha) as [Hr He].
  assert (free b = true) as Hf.
  { unfold free. destruct (mu b) as [h|] eqn:Em; [|done]. destruct (stuck_write b h Hs Em). congruence. }
  pose proof (Hs LStep eq_refl) as H. cbn [step] in H. unfold lifecycle_step in H. destruct (life b) eqn:El; [..|done]; exfalso.
  - rewrite Ha in H. injection H as H. apply (f_equal life) in H. cbn in H. congruence.
  - rewrite Hf in H. injection H as H. apply (f_equal life) in H. cbn in H. congruence.
  - rewrite Hr, He in H. injection H as H. apply (f_equal life) in H. cbn in H. congruence.
  - rewrite Hf in H. unfold close_done in H. destruct (closed b), (done_closed b); try done; injection H as H; apply (f_equal life) in H; cbn in H; congruence.
  - unfold close_events in H. destruct (events_closed b); [done|]. injection H as H. apply (f_equal life) in H. cbn in H. congruence.
Qed.

(** C39: whatever has happened to a bridge, the steps that it makes by itself are bounded by
    what lies in the pipe and in the scanner, by the Stops under way and by the message that
    is written. Where no step is left: a message is written to a process that is there
    and does not read, and its pipe is full; or no Stop is under way, whether the process has
    died or not. If the process has exited, no write hangs, every Stop has returned, the
    waiting goroutine has ended, and both channels are closed, so the consumer's loop
    ends. While such a write hangs no Stop begins, since it waits for the mutex. *)
Theorem bridge_finishes timer b0 t b : Start NewPiBridge timer = Some b0 → run b0 t = Ret b →
  (∀ t' b', Forall (λ l, internal l = true) t' → walk b t' b' →
    (length t' <= steps_left b)%nat ∧
    (stuck b' →
      (mu b' ≠ None → alive b' = true ∧ (stdin_size <= inbuf b')%nat) ∧ (mu b' = None → stops b' = ∅) ∧
      (alive b = false → mu b' = None ∧ stops b' = ∅ ∧ life b' = Finished ∧ events_closed b' = true ∧ done_closed b' = true))) ∧
  (∀ h i, mu b = Some h → step b (SBegin i) = Ret b).
Proof.
  intros Hst Hr. pose proof (run_bridge_ok b0 t b (started_ok timer b0 Hst) Hr) as Hok. split.
  2:{ intros h i Hm. cbn [step]. unfold free. by rewrite Hm. }
  intros t' b' Hi Hw. destruct (walk_bound b t' b' Hi Hw) as (Hb & Ha & Hr'). split; [lia|]. intros Hs.
  pose proof (run_bridge_ok b t' b' Hok Hr') as Hok'.
  assert (mu b' ≠ None → alive b' = true ∧ (stdin_size <= inbuf b')%nat) as H1.
  { destruct (mu b') as [h|] eqn:Em; [intros _; by apply (stuck_write b' h)|done]. }
  split; [done|]. split; [by apply stuck_stops|]. intros Hd. rewrite Hd in Ha.
  assert (mu b' = None) as Hm by (destruct (mu b'); [destruct H1 as [? _]; [done|congruence]|done]).
  pose proof (stuck_life b' Hok' Hs Ha) as Hl. split; [done|]. split; [by apply stuck_stops|]. split; [done|].
  split; [by apply (ok_events b' Hok')|]. rewrite (ok_done b' Hok'). apply (ok_closed b' Hok'). by right.
Qed.
End Life.

(** ** From an agent's settings to the command line *)

(** The words [ws] stand in [args], one after the other. *)
Definition has_words (args ws : list string) : Prop := ∃ a b, args = a ++ ws ++ b.

Lemma has_words_skip x args ws : has_words args ws → has_words (x ++ args) ws.
Proof. intros (a & b & ->). exists (x ++ a), b. by rewrite <- (assoc_L (++)). Qed.
Lemma has_words_here args ws : has_words (ws ++ args) ws.
Proof. by exists [], args. Qed.

Lemma decode_int_bound old v : old <= Str.max_int → (decode_int old v).1 <= Str.max_int.
Proof. intros H. unfold decode_int. destruct v; try done. case_match eqn:E; simpl; lia. Qed.

Lemma decode_field_int name o a : a <= Str.max_int → (decode_field name decode_int a o).1 <= Str.max_int.
Proof.
  revert a. induction o as [|[k v] o IH]; intros a Ha; [done|]. cbn [decode_field].
  destruct (same_fold k name); [|by apply IH]. pose proof (decode_int_bound a v Ha) as Hb.
  destruct (decode_int a v) as [a1 bad]. specialize (IH a1 Hb).
  by destruct (decode_field name decode_int a1 o).
Qed.

Lemma guardrails_bounds parse agent gr : Agents.guardrails_of parse agent = Some gr →
  Agents.MaxToolCalls gr <= Str.max_int ∧ Agents.TimeoutMinutes gr <= Str.max_int ∧ Agents.Timeout gr <= Str.max_int.
Proof.
  unfold Agents.guardrails_of. destruct (Agents.Guardrails agent) as [t|]; [|done].
  destruct (_ || _); [done|]. unfold unmarshal. destruct (parse t) as [[| | | | | |o]|]; try done.
  { intros [= <-]. by vm_compute. }
  unfold Agents.decode_guardrails, field, struct.
  pose proof (decode_field_int "max_tool_calls" o 0 ltac:(done)) as H1.
  pose proof (decode_field_int "timeout_minutes" o 0 ltac:(done)) as H2.
  pose proof (decode_field_int "timeout" o 0 ltac:(done)) as H3.
  repeat (match goal with |- context [decode_field ?n ?d ?z ?o] =>
    destruct (decode_field n d z o) as [? ?] end; cbn beta iota in * ).
  case_match; [done|]. intros [= <-]. simpl in *. auto.
Qed.

Lemma own_entry parse agent overrides c m k v :
  Agents.tools_map parse agent = Some m → Agents.deploy_config parse agent overrides = Ret c →
  (k, v) ∈ Agents.own_entries parse agent →
  config_value (ad_config (Agents.agent_proto agent c)) k = v ∧
  ad_config (Agents.agent_proto agent c) !! k = Some v.
Proof.
  intros Hm Hc Hin. rewrite (Agents.deploy_config_spec _ _ _ _ Hm) in Hc. injection Hc as <-.
  unfold config_value. set (x := Agents.own_config parse agent ∪ overrides ∪ m).
  change (ad_config (Agents.agent_proto agent (Some x))) with x. unfold x.
  assert (Agents.own_config parse agent !! k = Some v) as Hl.
  { apply elem_of_list_to_map_1; [apply Agents.own_entries_NoDup|done]. }
  rewrite (lookup_union_Some_l (Agents.own_config parse agent ∪ overrides) m k v);
    [done|]. by apply lookup_union_Some_l.
Qed.

Lemma elem_of_when b kv : b = true → kv ∈ Agents.when b kv.
Proof. intros ->. apply list_elem_of_here. Qed.

(** The settings of a definition reach the process, whatever the request says:
    the read-only and approval flags, the limit on tool calls, the provider, and
    the time limit of the bridge. The list of denied tools and the limit on
    turns reach the satellite but not the process. *)
Theorem settings_reach_process template ext parse agent overrides c m gr :
  Agents.tools_map parse agent = Some m → Agents.guardrails_of parse agent = Some gr →
  Agents.deploy_config parse agent overrides = Ret c →
  let cfg := ad_config (Agents.agent_proto agent c) in
  let args := BuildPiArgs template ext cfg in
  (Agents.ReadOnly gr = true → "--read-only"%string ∈ args) ∧
  (Agents.Hitl gr = true → "--guardrails"%string ∈ args) ∧
  (0 < Agents.MaxToolCalls gr → has_words args ["--max-tool-calls"%string; Str.Itoa (Agents.MaxToolCalls gr)]) ∧
  (Agents.Provider agent ≠ ""%string → has_words args ["--provider"%string; Agents.Provider agent]) ∧
  (∀ n, Agents.timeout_minutes gr = Some n → timeout_of cfg = Some n) ∧
  (∀ v, BuildPiArgs template ext (<["tools.deny"%string := v]> cfg) = BuildPiArgs template ext cfg).
Proof.
  intros Hm Hg Hc cfg args. destruct (guardrails_bounds _ _ _ Hg) as (Hb1 & Hb2 & Hb3).
  assert (∀ kv, kv ∈ Agents.guardrail_entries gr → kv ∈ Agents.own_entries parse agent) as Hgr.
  { intros kv Hkv. unfold Agents.own_entries. rewrite Hg. cbn [from_option]. set_solver. }
  assert (∀ k v, (k, v) ∈ Agents.own_entries parse agent → config_value cfg k = v ∧ cfg !! k = Some v) as Hown.
  { intros k v. by apply (own_entry _ _ _ _ _ _ _ Hm Hc). }
  assert (∀ k flag, config_value cfg k = "true"%string → flag ∈ switch cfg k flag) as Hsw.
  { intros k flag Hk. unfold switch. rewrite Hk. apply list_elem_of_here. }
  unfold Agents.guardrail_entries in Hgr. split_and!.
  - intros Hro. destruct (Hown "guardrails.read_only" "true")%string as [Hv _].
    { apply Hgr. apply elem_of_app. left. by apply elem_of_when. }
    unfold args, BuildPiArgs. rewrite !elem_of_app. do 5 right. left. by apply Hsw.
  - intros Hh. destruct (Hown "guardrails.hitl" "true")%string as [Hv _].
    { apply Hgr. rewrite !elem_of_app. do 4 right. by apply elem_of_when. }
    unfold args, BuildPiArgs. rewrite !elem_of_app. do 7 right. left. by apply Hsw.
  - intros Hmax. destruct (Hown "guardrails.max_tool_calls"%string (Str.Itoa (Agents.MaxToolCalls gr))) as [Hv _].
    { apply Hgr. rewrite !elem_of_app. do 2 right. left. apply elem_of_when. lia. }
    unfold args, BuildPiArgs. do 6 apply has_words_skip.
    unfold max_tool_calls. rewrite Hv, Str.Atoi_Itoa by lia. destruct (Z.ltb_spec 0 (Agents.MaxToolCalls gr)); [|lia].
    apply has_words_here.
  - intros Hp. destruct (Hown "provider"%string (Agents.Provider agent)) as [Hv _].
    { unfold Agents.own_entries, Agents.agent_fields. rewrite !elem_of_app. do 2 left. apply elem_of_when.
      by apply negb_true_iff, String.eqb_neq. }
    unfold args, BuildPiArgs. apply has_words_skip. unfold flag at 1. rewrite Hv.
    apply String.eqb_neq in Hp as ->. apply has_words_here.
  - intros n Hn. destruct (Hown "guardrails.timeout_minutes"%string (Str.Itoa n)) as [_ Hv].
    { apply Hgr. rewrite !elem_of_app, Hn. right. left. apply list_elem_of_here. }
    unfold timeout_of. rewrite Hv. cbn [mbind option_bind].
    assert (0 < n <= Str.max_int) as Hr.
    { revert Hn. unfold Agents.timeout_minutes. destruct (Z.ltb_spec 0 (Agents.TimeoutMinutes gr)); [intros [= <-]; lia|].
      destruct (Z.ltb_spec 0 (Agents.Timeout gr)); [|done]. intros [= <-].
      pose proof (Z.quot_le_upper_bound (Agents.Timeout gr) 60 (Agents.Timeout gr) ltac:(done) ltac:(lia)). unfold Str.max_int in *. lia. }
    rewrite Str.Atoi_Itoa by lia. cbn [mbind option_bind]. destruct (Z.ltb_spec 0 n); [done|lia].
  - intros v. assert (hasGuardrailsConfig (<["tools.deny"%string:=v]> cfg) = hasGuardrailsConfig cfg) as Hh.
    { unfold hasGuardrailsConfig. apply eq_iff_eq_true. rewrite !existsb_exists.
      setoid_rewrite <- list_elem_of_In. split; intros ([k x] & Hin & Hp); exists (k, x); (split; [|done]);
        apply elem_of_map_to_list; apply elem_of_map_to_list in Hin.
      - apply lookup_insert_Some in Hin as [[<- _]|[_ ?]]; done.
      - apply lookup_insert_Some. right. split; [|done]. by intros <-. }
    unfold BuildPiArgs, switch, max_tool_calls, config_value. rewrite Hh, !lookup_insert_ne by done. done.
Qed.

(** ** Examples *)

(** Every line of this process is an event; here the last one is lost. *)
Definition demo_parse (s : string) : option json :=
  Some (JObject [("type", JString "agent_end"); ("timestamp", JInt 5)])%string.
Definition demo : Bridge := default NewPiBridge (Start NewPiBridge true).
Definition demo_run : list label := [RStart; PWrite "a"; RFill 1; RScan; Consume; PWrite "b"; PExit 0].
Definition after (b : Bridge) (ls : list label) : Bridge :=
  match run demo_parse 100 b ls with Ret b' => b' | Panic => b end.
Definition at_exit : Bridge := after demo demo_run.

Lemma at_exit_ok : bridge_ok demo_parse at_exit.
Proof. apply (run_bridge_ok demo_parse 100 demo demo_run); [by apply started_ok with true|vm_compute; reflexivity]. Qed.

Definition exit_run : list label := [REnd; EEnd; LStep; LStep; LStep; LStep].
Definition after_exit : Bridge := after at_exit (LStep :: exit_run).

Example exit_loses_lines_witness :
  life after_exit = Finished ∧ consumed after_exit ++ events after_exit `sublist_of`
    (consumed at_exit ++ events at_exit) ++ omap (event_of_line demo_parse) (scanned at_exit).
Proof.
  split; [vm_compute; reflexivity|].
  assert (run demo_parse 100 at_exit (LStep :: exit_run) = Ret after_exit) as E by (vm_compute; reflexivity).
  exact (exit_loses_lines demo_parse 100 at_exit exit_run after_exit at_exit_ok eq_refl eq_refl E).
Defined.

(** A run of the bridge by itself, after the exit of the process. *)
Lemma exit_walk : walk demo_parse 100 at_exit (LStep :: exit_run) after_exit.
Proof.
  assert (∀ b1 b2 : Bridge, (life b1, reader_done b1, stderr_done b1) ≠ (life b2, reader_done b2, stderr_done b2) → b1 ≠ b2) as Hne.
  { intros b1 b2 Hn ->. by apply Hn. }
  unfold exit_run. cbn [walk]. repeat (eexists; split; [vm_compute; reflexivity|split; [by apply Hne|]]). reflexivity.
Qed.
Lemma exit_stuck : stuck demo_parse 100 after_exit.
Proof. intros [line|code|k| |n| | | | |i|i|i|i|k| |]; try discriminate; intros _; try (vm_compute; reflexivity). Qed.

Example bridge_finishes_witness :
  (length (LStep :: exit_run) <= steps_left at_exit)%nat ∧ life after_exit = Finished ∧ events_closed after_exit = true.
Proof.
  destruct (proj1 (bridge_finishes demo_parse 100 true demo demo_run at_exit eq_refl eq_refl) (LStep :: exit_run) after_exit
    ltac:(by repeat constructor) exit_walk) as [Hlen Hend].
  split; [exact Hlen|]. destruct (proj2 (proj2 (Hend exit_stuck)) eq_refl) as (_ & _ & Hl & He & _). split; [exact Hl|exact He].
Defined.

(** The goroutine of the reader is not scheduled until a Stop, at the end of its second
    timeout, has made p.stdout nil. *)
Example late_reader_panics : run demo_parse 100 demo [SBegin 1; IWrite; SKill 1; SForce 1; RStart] = Panic.
Proof. vm_compute. reflexivity. Qed.

(** A prompt that is longer than the pipe, for a process that does not read: the Stop of the
    timer waits for the mutex, so the process is not killed. *)
Example stop_hangs :
  let b := after demo [RStart; Prompt 1000; IWrite] in
  mu b = Some (HPrompt 900) ∧ after b [SBegin 1; IWrite; SKill 1; SForce 1] = b ∧ alive b = true.
Proof. vm_compute. done. Qed.

(** A Stop itself writes under the mutex, before its first timeout: with a full pipe it
    never comes to the kill. *)
Example stop_hangs_itself :
  let b := after demo [RStart; Prompt 90; IWrite; SBegin 1; IWrite] in
  mu b = Some (HAbort 1 20) ∧ after b [IWrite; SKill 1; SForce 1] = b ∧ alive b = true.
Proof. vm_compute. done. Qed.

(** A bridge that is started again after a Stop sends to a closed channel. *)
Example restart_panics :
  match run demo_parse 100 demo [RStart; SBegin 1; IWrite; PExit 0; LStep; LStep; REnd; EEnd; LStep; LStep; LStep; SDone 1] with
  | Ret b =>
      match Start b false with
      | Some b' => run demo_parse 100 b' [RStart; PWrite "a"; RFill 1; RScan] = Panic
      | None => False
      end
  | Panic => False
  end.
Proof. vm_compute. reflexivity. Qed.

Definition demo_config : gmap string string :=
  match Agents.deploy_config Agents.demo_parse (Agents.demo_agent "tools") (Agents.dr_Config Agents.demo_deploy) with
  | Ret (Some c) => c
  | _ => ∅
  end.

(** The request of [Agents.demo_deploy] asks for the guardrail to be lifted. *)
Example settings_reach_process_witness :
  "--read-only"%string ∈ BuildPiArgs (λ _, None) None demo_config ∧
  timeout_of demo_config = Some 1.
Proof.
  destruct (settings_reach_process (λ _, None) None Agents.demo_parse (Agents.demo_agent "tools")
    (Agents.dr_Config Agents.demo_deploy) (Some demo_config) {["deny" := ""; "x" := "1"]}%string
    (Agents.mkGuardrails false true 0 30 0 0)) as (H1 & _ & _ & _ & H5 & _);
    [reflexivity|reflexivity|vm_compute; reflexivity|].
  split; [by apply H1|by apply H5].
Defined.

Example BuildPiArgs_1 :
  BuildPiArgs (λ _, None) None (list_to_map [("provider", "openai"); ("guardrails.max_tool_calls", "7"); ("tools.deny", "rm")]%string) =
  ["--mode"; "rpc"; "--no-session"; "--no-skills"; "--no-prompt-templates"; "--provider"; "openai"; "--max-tool-calls"; "7"]%string.
Proof. reflexivity. Qed.
Example Clean_1 : map Clean ["/a/../b//c/."; "../x"; "a/.."; "/.."; ""] = ["/b/c"; "../x"; "."; "/"; "."]%string.
Proof. reflexivity. Qed.
Example ValidateWritePath_1 : map (ValidateWritePath "/w" ["/etc/daao/context"; "/tmp"])
    ["/etc/daao/context-evil/x"; "/tmp/../etc/passwd"; "/tmp/a"]%string =
  [Some "SECURITY DENIED: write to /etc/daao/context-evil/x blocked";
   Some "SECURITY DENIED: write to /tmp/../etc/passwd blocked"; None]%string.
Proof. reflexivity. Qed.
End PiBridge.
