(* ===== verification/Update.v ===== *)
(** * src/cmd/daao/update.go: the satellite replaces its own binary

    The commands update and rollback on a file system that maps paths to files: the
    download to a temporary file, the two renames, the backup and its way back.
    The answers of Nexus and the failures of system calls are arguments; the flag of
    a file says whether it can be executed. *)
From Stdlib Require Import Ascii String.
From S2P Require Import Prelude GoStrings.
#[local] Open Scope Z_scope.
#[local] Set Default Proof Using "Type".

Module Update.

Record file := mkFile { content : string; executable : bool }.
Notation fs := (gmap string file).
(** What an HTTP request gives: an error, or a status with a body that may break off. *)
Inductive response := NoResponse (err : string) | Answer (code : Z) (body : string) (breaks : option string).

Definition fetchLatestVersion (tls : option string) (r : response) : result string string :=
  match tls with
  | Some err => Err ("TLS setup failed: " +:+ err)%string
  | None =>
      match r with
      | NoResponse err => Err err
      | Answer code body breaks =>
          if negb (code =? 200) then Err ("version endpoint returned HTTP " +:+ Str.Itoa code)%string else
          match breaks with Some err => Err err | None => Ok (Str.TrimSpace body) end
      end
  end.
(** [tmp]: the name that CreateTemp makes, if it does. *)
Definition downloadBinary (f : fs) (tls : option string) (r : response) (tmp : result string string) : fs * result string (string * Z) :=
  match tls with
  | Some err => (f, Err ("TLS setup failed: " +:+ err)%string)
  | None =>
      match r with
      | NoResponse err => (f, Err err)
      | Answer code body breaks =>
          if negb (code =? 200) then (f, Err ("download returned HTTP " +:+ Str.Itoa code)%string) else
          match tmp with
          | Err err => (f, Err ("failed to create temp file: " +:+ err)%string)
          | Ok p =>
              match breaks with
              | Some err => (delete p f, Err ("failed to save download: " +:+ err)%string)
              | None => (<[p := mkFile body false]> f, Ok (p, Z.of_nat (String.length body)))
              end
          end
      end
  end.

(** os.Rename: it fails, or the source is not there, or the file moves over the target. *)
Definition rename (f : fs) (fails : bool) (src dst : string) : option fs :=
  if fails then None else match f !! src with Some x => Some (<[dst := x]> (delete src f)) | None => None end.
Definition or_same (f : fs) (r : option fs) : fs := default f r.
Definition chmod (f : fs) (fails : bool) (p : string) : fs :=
  if fails then f else match f !! p with Some x => <[p := mkFile (content x) true]> f | None => f end.

(** The path of the running program, and which calls fail: removing the backup, the
    backup, the installation, the way back, the mode. *)
Record faults := mkFaults { f_remove : bool; f_backup : bool; f_install : bool; f_back : bool; f_chmod : bool }.
Definition bak (exe : string) : string := (exe +:+ ".bak")%string.
Definition fresh (exe : string) : string := (exe +:+ ".new")%string.
Inductive outcome := UpToDate | Updated (from to : string) | RolledBack | Failed (msg : string).

(** Step 5. *)
Definition swap (f : fs) (e : faults) (exe tmp : string) : fs * bool :=
  let f1 := if f_remove e then f else delete (bak exe) f in
  match rename f1 (f_backup e) exe (bak exe) with
  | None => (f1, false)
  | Some f2 =>
      match rename f2 (f_install e) tmp exe with
      | None => (or_same f2 (rename f2 (f_back e) (bak exe) exe), false)
      | Some f3 => (chmod f3 (f_chmod e) exe, true)
      end
  end.
Definition has_force (args : list string) : bool := existsb (λ a, String.eqb a "--force" || String.eqb a "-f") args.
Definition updateCommand (Version : string) (args : list string) (tls : option string) (latest binary : response)
    (tmp exe : result string string) (e : faults) (f : fs) : fs * outcome :=
  match fetchLatestVersion tls latest with
  | Err err => (f, Failed ("failed to check for updates: " +:+ err))
  | Ok latestVersion =>
      if String.eqb latestVersion Version && negb (has_force args) then (f, UpToDate) else
      match downloadBinary f tls binary tmp with
      | (f1, Err err) => (f1, Failed ("download failed: " +:+ err))
      | (f1, Ok (tmpPath, size)) =>
          if size <? 1024 * 1024 then (delete tmpPath f1, Failed ("downloaded file too small (" +:+ Str.Itoa size +:+ " bytes) — may be an HTML error page")) else
          match exe with
          | Err err => (delete tmpPath f1, Failed ("cannot determine executable path: " +:+ err))
          | Ok currentExe =>
              let '(f2, ok) := swap f1 e currentExe tmpPath in
              (delete tmpPath f2, if ok then Updated Version latestVersion else Failed "failed to install new binary")
          end
      end
  end.
(** [f_back]: the move to .new; [f_install]: the backup into place; [f_backup]: the way
    back; [f_chmod]: the new backup. *)
Definition rollbackCommand (exe : string) (e : faults) (f : fs) : fs * outcome :=
  match f !! bak exe with
  | None => (f, Failed ("no backup found at " +:+ bak exe))
  | Some _ =>
      let f1 := if f_remove e then f else delete (fresh exe) f in
      match rename f1 (f_back e) exe (fresh exe) with
      | None => (f1, Failed "failed to move current binary")
      | Some f2 =>
          match rename f2 (f_install e) (bak exe) exe with
          | None => (or_same f2 (rename f2 (f_backup e) (fresh exe) exe), Failed "failed to restore backup")
          | Some f3 => (or_same f3 (rename f3 (f_chmod e) (fresh exe) (bak exe)), RolledBack)
          end
      end
  end.

(** A notification of Nexus, which handleUpdateAvailable saves in a file of its own. *)
Record updateInfo := mkInfo { LatestVersion : string; DownloadURL : string; Force : bool }.
Definition saveUpdateNotification (print : updateInfo → string) (home : string) (fails : bool) (info : updateInfo) (f : fs) : fs :=
  if fails then f else <[(home +:+ "/.config/daao/update-available.json")%string := mkFile (print info) false]> f.

(** ** Properties *)

Lemma app_ne s x : x ≠ ""%string → (s +:+ x)%string ≠ s.
Proof. intros H E. apply (f_equal String.length) in E. rewrite Str.length_app in E. destruct x; [done|cbn in E; lia]. Qed.
Lemma bak_ne exe : bak exe ≠ exe.
Proof. by apply app_ne. Qed.
Lemma fresh_ne exe : fresh exe ≠ exe.
Proof. by apply app_ne. Qed.
Lemma fresh_bak exe : fresh exe ≠ bak exe.
Proof. unfold fresh, bak. intros H%Str.app_inj_l. done. Qed.

Lemma rename_Some f b src dst f' : rename f b src dst = Some f' ↔ b = false ∧ ∃ x, f !! src = Some x ∧ f' = <[dst := x]> (delete src f).
Proof.
  unfold rename. destruct b; [by split; [|intros [? _]]|]. destruct (f !! src) as [x|]; [|by split; [|intros (_ & ? & ? & _)]].
  split; [intros [= <-]; split; [done|by exists x]|]. by intros (_ & y & [= ->] & ->).
Qed.

(** What the swap leaves, case by case of what fails. *)
Lemma swap_spec f e exe tmp old new : tmp ≠ exe → tmp ≠ bak exe → f !! exe = Some old → f !! tmp = Some new →
  let '(f', ok) := swap f e exe tmp in
  (ok = true ↔ f_backup e = false ∧ f_install e = false) ∧
  (ok = true → f' !! exe = Some (mkFile (content new) (executable new || negb (f_chmod e))) ∧ f' !! bak exe = Some old) ∧
  (ok = false → (f' !! exe = Some old ∨ f' !! exe = None ∧ f' !! bak exe = Some old ∧ f_install e = true ∧ f_back e = true) ∧
     (f_remove e = false → f' !! bak exe = None ∨ f' !! bak exe = Some old)) ∧
  (∀ p, p ≠ exe → p ≠ bak exe → p ≠ tmp → f' !! p = f !! p).
Proof.
  intros H1 H2 Ho Hn. unfold swap. set (f1 := if f_remove e then f else delete (bak exe) f). pose proof (bak_ne exe) as Hb.
  assert (f1 !! exe = Some old ∧ f1 !! tmp = Some new ∧ (∀ p, p ≠ bak exe → f1 !! p = f !! p)) as (E1 & E2 & E3).
  { subst f1. destruct (f_remove e); [done|]. rewrite !lookup_delete_ne by done. split_and!; [done..|]. intros p Hp. by rewrite lookup_delete_ne. }
  destruct (f_backup e) eqn:Eb; cbn [rename].
  { split_and!; [naive_solver|done| |intros; by apply E3]. intros _. split; [by left|]. intros Hr. left. subst f1. rewrite Hr. apply lookup_delete_eq. }
  unfold rename at 1. rewrite E1. set (f2 := <[bak exe := old]> (delete exe f1)).
  assert (f2 !! bak exe = Some old ∧ f2 !! exe = None ∧ f2 !! tmp = Some new ∧ (∀ p, p ≠ exe → p ≠ bak exe → f2 !! p = f !! p)) as (G1 & G2 & G3 & G4).
  { subst f2. split_and!; [apply lookup_insert_eq|rewrite lookup_insert_ne by done; apply lookup_delete_eq|
      rewrite lookup_insert_ne, lookup_delete_ne by done; done|].
    intros p Hp Hq. rewrite lookup_insert_ne, lookup_delete_ne by done. by apply E3. }
  unfold rename at 1. destruct (f_install e) eqn:Ei.
  - unfold rename. destruct (f_back e) eqn:Ek; cbn [or_same default].
    + split_and!; [naive_solver|done| |intros; by apply G4]. intros _. split; [by right|]. by right.
    + rewrite G1. cbn. split_and!; [naive_solver|done| |].
      * intros _. split; [left; apply lookup_insert_eq|]. intros _. left. rewrite lookup_insert_ne by done. apply lookup_delete_eq.
      * intros p Hp Hq _. rewrite lookup_insert_ne, lookup_delete_ne by done. by apply G4.
  - rewrite G3. unfold chmod. set (f3 := <[exe := new]> (delete tmp f2)).
    assert (f3 !! exe = Some new) as K1 by apply lookup_insert_eq.
    assert (∀ p, p ≠ exe → p ≠ tmp → f3 !! p = f2 !! p) as K2 by (intros p Hp Hq; subst f3; by rewrite lookup_insert_ne, lookup_delete_ne).
    split_and!; [naive_solver| |done|].
    + intros _. destruct (f_chmod e); [rewrite orb_false_r; split; [rewrite K1; by destruct new|by rewrite K2]|].
      rewrite K1, lookup_insert_eq, orb_true_r. split; [done|]. rewrite lookup_insert_ne by done. by rewrite K2.
    + intros p Hp Hq Ht. destruct (f_chmod e); [by rewrite K2, G4|]. rewrite K1, lookup_insert_ne by done. by rewrite K2, G4.
Qed.

(** no update loses the program: whatever the answers and whatever fails, the old binary is
    where it was or in the backup; it is not where it was only if the new one took its
    place, with the old one as the backup, or if both the installation and the way back
    failed. Nothing else changes and no temporary file stays; but the backup of an
    earlier update may be gone though the update failed. *)
Theorem update_keeps_program Version args tls latest binary tmp exe e f old :
  tmp ≠ exe → tmp ≠ bak exe → f !! tmp = None → f !! exe = Some old →
  let '(f', out) := updateCommand Version args tls latest binary (Ok tmp) (Ok exe) e f in
  (∀ p, p ≠ exe → p ≠ bak exe → f' !! p = f !! p) ∧
  match out with
  | Updated _ _ => (∃ new, f' !! exe = Some new ∧ 1024 * 1024 <= Z.of_nat (String.length (content new))) ∧ f' !! bak exe = Some old
  | _ => f' !! exe = Some old ∨ f' !! exe = None ∧ f' !! bak exe = Some old ∧ f_install e = true ∧ f_back e = true
  end.
Proof.
  intros H1 H2 Ht Ho. unfold updateCommand. destruct (fetchLatestVersion tls latest) as [v|err]; [|by split; [|left]].
  destruct (String.eqb v Version && negb (has_force args)); [by split; [|left]|].
  unfold downloadBinary. destruct tls; [by split; [|left]|]. destruct binary as [err|code body breaks]; [by split; [|left]|].
  destruct (code =? 200); cbn [negb]; [|by split; [|left]].
  destruct breaks as [err|]; [rewrite delete_id by done; by split; [|left]|].
  destruct (Z.ltb_spec (Z.of_nat (String.length body)) (1024 * 1024)) as [Hlt|Hge].
  { rewrite delete_insert_id by done. by split; [|left]. }
  set (f1 := <[tmp := mkFile body false]> f). pose proof (swap_spec f1 e exe tmp old (mkFile body false) H1 H2) as Hs.
  specialize (Hs (eq_trans (lookup_insert_ne f tmp exe _ H1) Ho) (lookup_insert_eq _ _ _)). destruct (swap f1 e exe tmp) as [f2 ok].
  destruct Hs as (_ & Hok & Hko & Hrest). split.
  - intros p Hp Hq. destruct (decide (p = tmp)) as [->|Hpt]; [by rewrite lookup_delete_eq|]. rewrite lookup_delete_ne, Hrest by done.
    subst f1. by rewrite lookup_insert_ne.
  - destruct ok; rewrite !lookup_delete_ne by done.
    + destruct (Hok eq_refl) as [-> ->]. split; [|done]. eexists. split; [done|]. cbn. lia.
    + by apply Hko.
Qed.

(** a rollback can be rolled back: without a failure it swaps the program and its backup, so
    that twice is nothing at all. *)
Theorem rollback_involutive exe old back f : f !! exe = Some old → f !! bak exe = Some back → f !! fresh exe = None →
  let none := mkFaults false false false false false in
  let '(f1, out) := rollbackCommand exe none f in
  out = RolledBack ∧ f1 !! exe = Some back ∧ f1 !! bak exe = Some old ∧ rollbackCommand exe none f1 = (f, RolledBack).
Proof.
  intros Ho Hb Hf none. subst none. pose proof (bak_ne exe) as N1. pose proof (fresh_ne exe) as N2. pose proof (fresh_bak exe) as N3.
  assert (∀ g a b, g !! exe = Some a → g !! bak exe = Some b → g !! fresh exe = None →
    rollbackCommand exe (mkFaults false false false false false) g = (<[bak exe := a]> (<[exe := b]> g), RolledBack)) as Hroll.
  { intros g a b Ga Gb Gf. unfold rollbackCommand. rewrite Gb. cbn [f_remove f_back f_install f_backup f_chmod].
    rewrite delete_id by done. unfold rename. rewrite Ga. cbn [or_same].
    rewrite lookup_insert_ne, lookup_delete_ne by done. rewrite Gb.
    rewrite lookup_insert_ne, lookup_delete_ne, lookup_insert_eq by done. cbn. f_equal. apply map_eq. intros p.
    destruct (decide (p = bak exe)) as [->|P1]; [by rewrite !lookup_insert_eq|]. rewrite !(lookup_insert_ne _ (bak exe)) by done.
    destruct (decide (p = fresh exe)) as [->|P2]; [rewrite lookup_delete_eq; by rewrite lookup_insert_ne|]. rewrite lookup_delete_ne by done.
    destruct (decide (p = exe)) as [->|P3]; [by rewrite !lookup_insert_eq|].
    by rewrite !lookup_insert_ne, !lookup_delete_ne, lookup_insert_ne, lookup_delete_ne by done. }
  rewrite (Hroll f old back Ho Hb Hf).
  assert ((<[bak exe := old]> (<[exe := back]> f)) !! exe = Some back) as E1 by (rewrite lookup_insert_ne, lookup_insert_eq; done).
  assert ((<[bak exe := old]> (<[exe := back]> f)) !! bak exe = Some old) as E2 by apply lookup_insert_eq.
  split_and!; [done..|]. rewrite (Hroll _ back old E1 E2) by (rewrite !lookup_insert_ne by done; done). f_equal. apply map_eq. intros p.
  destruct (decide (p = bak exe)) as [->|P1]; [by rewrite !lookup_insert_eq|]. rewrite lookup_insert_ne by done.
  destruct (decide (p = exe)) as [->|P3]; [by rewrite !lookup_insert_eq|]. by rewrite !lookup_insert_ne.
Qed.

Definition demo_exe : string := "/usr/local/bin/daao".
Definition demo_fs : fs := {["/usr/local/bin/daao" := mkFile "v1" true; "/usr/local/bin/daao.bak" := mkFile "v0" true]}%string.
Definition no_faults : faults := mkFaults false false false false false.
Definition demo_update : fs * outcome :=
  updateCommand "1.0" ["--force"] None (Answer 200 "1.0" None) (Answer 200 "<html>" None) (Ok "/tmp/daao-update-1"%string) (Ok demo_exe) no_faults demo_fs.
Lemma update_keeps_program_witness :
  demo_update.2 = Failed "downloaded file too small (6 bytes) — may be an HTML error page" ∧ demo_update.1 !! demo_exe = Some (mkFile "v1" true).
Proof.
  split; [vm_compute; reflexivity|].
  pose proof (update_keeps_program "1.0" ["--force"%string] None (Answer 200 "1.0" None) (Answer 200 "<html>" None) "/tmp/daao-update-1" demo_exe
    no_faults demo_fs (mkFile "v1" true) ltac:(by vm_compute) ltac:(by vm_compute) eq_refl eq_refl) as H.
  change (updateCommand _ _ _ _ _ _ _ _ _) with demo_update in H. destruct demo_update as [f' out] eqn:E.
  assert (out = (updateCommand "1.0" ["--force"%string] None (Answer 200 "1.0" None) (Answer 200 "<html>" None) (Ok "/tmp/daao-update-1"%string) (Ok demo_exe)
    no_faults demo_fs).2) as Eo by (change (updateCommand _ _ _ _ _ _ _ _ _) with demo_update; by rewrite E).
  vm_compute in Eo. rewrite Eo in H. destruct H as [_ [H|(_ & _ & H & _)]]; [exact H|by vm_compute in H].
Defined.
Lemma rollback_involutive_witness :
  let '(f1, out) := rollbackCommand demo_exe no_faults demo_fs in
  out = RolledBack ∧ f1 !! demo_exe = Some (mkFile "v0" true) ∧ f1 !! bak demo_exe = Some (mkFile "v1" true) ∧
  rollbackCommand demo_exe no_faults f1 = (demo_fs, RolledBack).
Proof. exact (rollback_involutive demo_exe (mkFile "v1" true) (mkFile "v0" true) demo_fs eq_refl eq_refl eq_refl). Defined.
End Update.
