(* ===== verification/Provision.v ===== *)
(** * src/internal/satellite/bootstrap.go, runtime.go, and the daemon's use of them

    How Node.js and the Pi command line get onto a satellite: the configuration of
    a platform, the archive, the sequence of BootstrapRuntime, the provisioning
    command of Nexus and the search for binaries. A machine is the set of paths that
    are there and what exec.LookPath finds; processes, downloads and the failures of
    system calls are parameters. UNC paths of Windows are left out. *)
From Stdlib Require Import Ascii String.
From S2P Require Import Prelude GoStrings PiBridge.
#[local] Open Scope string_scope.
#[local] Set Default Proof Using "Type".

(** ** Paths of the platforms *)

Module Paths.

Inductive os := Linux | Darwin | Windows.
#[export] Instance os_dec : EqDecision os.
Proof. solve_decision. Defined.
Definition backslash : Ascii.ascii := "\"%char.
Definition colon : Ascii.ascii := ":"%char.
Definition slash : Ascii.ascii := "/"%char.
Definition separator (o : os) : string := match o with Windows => String backslash EmptyString | _ => "/" end.
(** Windows takes both separators. *)
Fixpoint backslashes (s : string) : string :=
  match s with EmptyString => EmptyString | String c s' => String (if Ascii.eqb c slash then backslash else c) (backslashes s') end.
Definition volume (s : string) : string * string :=
  match s with String d (String c rest) => if Ascii.eqb c colon then (String d (String c EmptyString), rest) else ("", s) | _ => ("", s) end.
Fixpoint below (l : list string) : string := match l with [] => "" | x :: l' => String backslash x +:+ below l' end.
Definition win_parts (rooted : bool) (s : string) : list string :=
  reverse (foldl (PiBridge.push_part rooted) [] (Str.Split (backslashes s) backslash)).
Definition WinClean (s : string) : string :=
  let '(vol, rest) := volume s in
  if Str.HasPrefix (backslashes rest) (String backslash EmptyString)
  then vol +:+ (match win_parts true rest with [] => String backslash EmptyString | l => below l end)
  else vol +:+ (match win_parts false rest with [] => "." | l => String.concat (String backslash EmptyString) l end).
Definition Clean (o : os) (s : string) : string := match o with Windows => WinClean s | _ => PiBridge.Clean s end.
Definition Join (o : os) (l : list string) : string :=
  match filter (λ x, x ≠ "") l with [] => "" | l' => Clean o (String.concat (separator o) l') end.

(** *** What cleaning leaves *)

Definition free (c : Ascii.ascii) (s : string) : Prop := Str.ContainsByte s c = false.
Definition part_ok (p : string) : Prop := p ≠ "" ∧ p ≠ "." ∧ p ≠ ".." ∧ free backslash p ∧ free slash p.
Lemma push_part_ok out p : Forall part_ok out → free backslash p → free slash p → Forall part_ok (PiBridge.push_part true out p).
Proof.
  intros Ho Hp Hq. unfold PiBridge.push_part. destruct (String.eqb_spec p ""); [done|]. destruct (String.eqb_spec p "."); [done|]. cbn.
  destruct (String.eqb_spec p "..").
  - destruct out as [|q out']; [constructor|]. inversion Ho as [|? ? Hx Ho']; subst. destruct (String.eqb_spec q ".."); [|done].
    by destruct Hx as (_ & _ & ? & _).
  - by constructor.
Qed.
Lemma Split_keeps_free s c d : free c s → Forall (free c) (Str.Split s d).
Proof.
  unfold free. induction s as [|a s IH]; cbn; intros H; [by repeat constructor|]. apply orb_false_iff in H as [H1 H2]. specialize (IH H2).
  destruct (Ascii.eqb a d); [by constructor|]. destruct (Str.Split s d) as [|x xs]; [constructor; [cbn; by rewrite H1|constructor]|].
  inversion IH; subst. constructor; [cbn; by rewrite H1|done].
Qed.
Lemma backslashes_free s : free slash (backslashes s).
Proof. unfold free. induction s as [|a s IH]; cbn; [done|]. rewrite IH. destruct (Ascii.eqb_spec a slash) as [->|Hn]; [done|]. by apply Ascii.eqb_neq in Hn as ->. Qed.
Lemma backslashes_id s : free slash s → backslashes s = s.
Proof. unfold free. induction s as [|a s IH]; cbn; [done|]. intros [-> H]%orb_false_iff. by rewrite IH. Qed.
Lemma win_parts_ok s : Forall part_ok (win_parts true s).
Proof.
  unfold win_parts. apply Forall_reverse. pose proof (Str.Split_free (backslashes s) backslash) as Hf.
  pose proof (Split_keeps_free (backslashes s) slash backslash (backslashes_free s)) as Hg.
  assert (∀ l out, Forall part_ok out → Forall (free backslash) l → Forall (free slash) l →
    Forall part_ok (foldl (PiBridge.push_part true) out l)) as H.
  { induction l as [|x l IH]; intros out Ho Hl Hl'; [done|]. inversion Hl; subst. inversion Hl'; subst. apply IH; [by apply push_part_ok|done..]. }
  by apply H.
Qed.
Lemma push_parts l out : Forall part_ok l → foldl (PiBridge.push_part true) out l = (reverse l ++ out)%list.
Proof.
  intros H. revert out. induction H as [|x l (H1 & H2 & H3 & _) Hl IH]; intros out; [done|]. cbn [foldl]. rewrite IH. unfold PiBridge.push_part.
  destruct (String.eqb_spec x ""); [done|]. destruct (String.eqb_spec x "."); [done|]. destruct (String.eqb_spec x ".."); [done|]. cbn [orb].
  by rewrite reverse_cons, <-app_assoc.
Qed.
Lemma Split_below x l : free backslash x → Forall part_ok l → Str.Split (x +:+ below l) backslash = x :: l.
Proof.
  intros Hx Hl. revert x Hx. induction Hl as [|y l (_ & _ & _ & Hy & _) Hl IH]; intros x Hx; cbn [below].
  - rewrite Str.app_nil_str. by apply Str.Split_none.
  - change (String backslash y +:+ below l) with (String backslash (y +:+ below l)). rewrite Str.Split_sep by done. by rewrite IH.
Qed.
Lemma below_free l : Forall part_ok l → free slash (below l).
Proof.
  unfold free. induction 1 as [|x l (_ & _ & _ & _ & Hx) Hl IH]; [done|]. cbn [below]. rewrite Str.ContainsByte_app, IH, orb_false_r. cbn. exact Hx.
Qed.
Lemma win_parts_below l : Forall part_ok l → win_parts true (below l) = l.
Proof.
  intros Hl. unfold win_parts. rewrite backslashes_id by (by apply below_free). pose proof (Split_below "" l eq_refl Hl) as E. cbn [String.append] in E. change ("" +:+ below l) with (below l) in E. rewrite E.
  cbn [foldl]. change (PiBridge.push_part true [] "") with (@nil string). rewrite push_parts by done. by rewrite app_nil_r, reverse_involutive.
Qed.
(** A text that begins with the text of some components and a separator has these
    components first. *)
Lemma below_prefix l l' : Forall part_ok l → Forall part_ok l' →
  Str.HasPrefix (below l') (below l +:+ String backslash EmptyString) = true → ∃ rest, rest ≠ [] ∧ l' = (l ++ rest)%list.
Proof.
  intros Hl Hl'. revert l' Hl'. induction Hl as [|x l Hx Hl IH]; intros l' Hl' H.
  { exists l'. split; [|done]. intros ->. by vm_compute in H. }
  destruct Hl' as [|y l' Hy Hl']; [cbn in H; by rewrite Str.HasPrefix_true in H; destruct H as [? ?]|].
  apply Str.HasPrefix_true in H as [t Ht]. cbn [below] in Ht. rewrite !Str.app_assoc_str in Ht. injection Ht as Ht.
  (* the first components end at the same separator *)
  assert (∀ u a v b, Str.ContainsByte u backslash = false → Str.ContainsByte v backslash = false →
    (a = "" ∨ ∃ a', a = String backslash a') → u +:+ a = v +:+ String backslash b → u = v ∧ a = String backslash b) as Hsplit.
  { clear. intros u. induction u as [|c u IH]; intros a [|d v] b Hu Hv Ha E; cbn in *.
    - done.
    - destruct Ha as [->|[a' ->]]; [done|]. injection E as <- _. by rewrite Ascii.eqb_refl in Hv.
    - injection E as -> _. by rewrite Ascii.eqb_refl in Hu.
    - injection E as -> E. apply orb_false_iff in Hu as [_ Hu]. apply orb_false_iff in Hv as [_ Hv].
      destruct (IH a v b Hu Hv Ha E) as [-> ->]. done. }
  assert (∃ b, below l +:+ String backslash EmptyString +:+ t = String backslash b) as [b Hb] by (destruct l; cbn; by eexists).
  cbn in Hb. rewrite Hb in Ht.
  destruct (Hsplit y (below l') x b (proj1 (proj2 (proj2 (proj2 Hy)))) (proj1 (proj2 (proj2 (proj2 Hx))))) as [-> E]; [destruct l'; [by left|right; by eexists]|exact Ht|].
  destruct (IH l' Hl') as (rest & Hr & ->); [|by exists rest]. apply Str.HasPrefix_true. exists t. rewrite Str.app_assoc_str. cbn. by rewrite E, Hb.
Qed.
End Paths.

(** ** The zip archive *)

Module Zip.
Import Paths.

Record entry := mkEntry { Name : string; IsDir : bool; Content : string }.
(** What an entry meets: the context is done, its directory or file cannot be made,
    its data cannot be opened, or breaks off. *)
Inductive fault := Done (err : string) | NoDirectory (err : string) | NoFile (err : string) | NoData (err : string) | Breaks (part err : string) | Fine.
Definition prefix_of (dest : string) : string := Clean Windows dest +:+ separator Windows.
Definition zip_path (dest : string) (e : entry) : string := Join Windows [dest; Name e].

(** [files]: the contents behind the paths. The second result is the error. *)
Fixpoint extractZip (dest : string) (es : list (entry * fault)) (files : gmap string string) : gmap string string * option string :=
  match es with
  | [] => (files, None)
  | (e, f) :: es' =>
      match f with
      | Done err => (files, Some err)
      | _ =>
          let fpath := zip_path dest e in
          if negb (Str.HasPrefix (Clean Windows fpath) (prefix_of dest)) then (files, Some ("zip slip detected: " +:+ Name e)) else
          if IsDir e then extractZip dest es' files else
          match f with
          | NoDirectory err | NoFile err => (files, Some err)
          | NoData err => (<[fpath := ""]> files, Some err)
          | Breaks part err => (<[fpath := part]> files, Some err)
          | _ => extractZip dest es' (<[fpath := Content e]> files)
          end
      end
  end.

Lemma volume_drive d s : volume (String d (String colon s)) = (String d (String colon EmptyString), s).
Proof. done. Qed.
Lemma HasPrefix_cons c s t : Str.HasPrefix (String c s) (String c t) = Str.HasPrefix s t.
Proof. apply Str.HasPrefix_one. Qed.
Lemma prefix_backslash s : Str.HasPrefix (String backslash s) (String backslash EmptyString) = true.
Proof. apply Str.HasPrefix_true. by exists s. Qed.
Lemma clean_drive d l : l ≠ [] → Forall part_ok l →
  Clean Windows (String d (String colon (below l))) = String d (String colon (below l)).
Proof.
  intros Hn Hl. cbn [Clean]. unfold WinClean. rewrite volume_drive, backslashes_id by (by apply below_free). rewrite win_parts_below by done.
  destruct l as [|x l]; [done|]. cbn [below]. change (String backslash x +:+ below l) with (String backslash (x +:+ below l)).
  by rewrite prefix_backslash.
Qed.
(** The path of an entry that passes the check. *)
Lemma zip_path_inside d base e : base ≠ [] → Forall part_ok base →
  let dest := String d (String colon (below base)) in
  Str.HasPrefix (Clean Windows (zip_path dest e)) (prefix_of dest) = true →
  ∃ rest, rest ≠ [] ∧ Forall part_ok rest ∧ zip_path dest e = String d (String colon (below (base ++ rest)%list)).
Proof.
  intros Hn Hb dest. assert (Clean Windows dest = dest) as Hd by (by apply clean_drive). unfold zip_path, prefix_of, Join. rewrite Hd.
  rewrite filter_cons_True by done. destruct (String.eqb_spec (Name e) "") as [->|Hne].
  - rewrite filter_cons_False by (intros H; by apply H). cbn [filter list_filter String.concat].
    change (String.concat (separator Windows) [dest]) with dest. rewrite !Hd. cbn [separator]. intros [t Ht]%Str.HasPrefix_true. exfalso. apply (f_equal String.length) in Ht. rewrite !Str.length_app in Ht. cbn in Ht. lia.
  - rewrite filter_cons_True by done. change (filter (λ x : string, x ≠ "") []) with (@nil string). unfold separator.
    change (String.concat (String backslash EmptyString) [dest; Name e]) with (dest +:+ String backslash EmptyString +:+ Name e).
    set (s := below base +:+ String backslash EmptyString +:+ Name e).
    change (dest +:+ String backslash EmptyString +:+ Name e) with (String d (String colon s)).
    assert (Clean Windows (String d (String colon s)) =
      String d (String colon (match win_parts true s with [] => String backslash EmptyString | l => below l end))) as ->.
    { cbn [Clean]. unfold WinClean. rewrite volume_drive. assert (Str.HasPrefix (backslashes s) (String backslash EmptyString) = true) as ->; [|done].
      unfold s. destruct base as [|x base]; [done|]. cbn [below]. change (String backslash x +:+ below base) with (String backslash (x +:+ below base)).
      apply (prefix_backslash (backslashes ((x +:+ below base) +:+ String backslash EmptyString +:+ Name e))). }
    pose proof (win_parts_ok s) as Hok. destruct (win_parts true s) as [|y l].
    { change (Clean Windows (String d (String colon (String backslash EmptyString)))) with (String d (String colon (String backslash EmptyString))).
      intros [t Ht]%Str.HasPrefix_true. exfalso. apply (f_equal String.length) in Ht. rewrite !Str.length_app in Ht. unfold dest in Ht. cbn in Ht.
      destruct Hb as [|x base (Hx & _) _]; [done|]. cbn in Ht. rewrite Str.length_app in Ht. destruct x; [done|]. cbn in Ht. lia. }
    rewrite clean_drive by done. intros H.
    change (Str.HasPrefix (String d (String colon (below (y :: l)))) (String d (String colon (below base +:+ String backslash EmptyString))) = true) in H.
    destruct (below_prefix base (y :: l) Hb Hok) as (rest & Hr & E); [by rewrite !HasPrefix_cons in H|].
    exists rest. rewrite E. split_and!; [done| |done]. rewrite E in Hok. apply Forall_app in Hok. apply Hok.
Qed.

(** C33: no entry leaves the directory: whatever the archive holds and wherever the extraction
    stops, every file that is new or changed stands below the destination, a directory
    of a drive other than its root, through components none of which is a dot or two. *)
Theorem zip_stays_inside d base es files p :
  base ≠ [] → Forall part_ok base →
  (extractZip (String d (String colon (below base))) es files).1 !! p ≠ files !! p →
  ∃ rest, rest ≠ [] ∧ Forall part_ok rest ∧ p = String d (String colon (below (base ++ rest)%list)).
Proof.
  intros Hn Hb. revert files. induction es as [|[e f] es IH]; intros files; cbn [extractZip]; [done|].
  set (dest := String d (String colon (below base))) in *.
  destruct (Str.HasPrefix (Clean Windows (zip_path dest e)) (prefix_of dest)) eqn:Hp; cbn [negb]; [|by destruct f].
  pose proof (zip_path_inside d base e Hn Hb Hp) as Hin. fold dest in Hin.
  assert (∀ c, (<[zip_path dest e := c]> files) !! p ≠ files !! p → p = zip_path dest e) as Hins.
  { intros c H. destruct (decide (zip_path dest e = p)) as [|Hne]; [done|]. by rewrite lookup_insert_ne in H. }
  assert (∀ c, (extractZip dest es (<[zip_path dest e := c]> files)).1 !! p ≠ files !! p →
    ∃ rest, rest ≠ [] ∧ Forall part_ok rest ∧ p = String d (String colon (below (base ++ rest)%list))) as Hnext.
  { intros c H. destruct (decide ((<[zip_path dest e := c]> files) !! p = files !! p)) as [E|N].
    - apply (IH (<[zip_path dest e := c]> files)). by rewrite E.
    - rewrite (Hins c N). exact Hin. }
  destruct f, (IsDir e); cbn [fst]; try done; intros H; try (by apply (IH files)); try (rewrite (Hins _ H); exact Hin); by apply (Hnext (Content e)).
Qed.

Definition demo_dest : string := String "C" (String colon (below ["Program Files"; "daao"; "runtime"])).
Definition demo_zip : list (entry * fault) :=
  [(mkEntry "node-v22.14.0-win-x64/" true "", Fine); (mkEntry "node-v22.14.0-win-x64/node.exe" false "MZ", Fine);
   (mkEntry "node-v22.14.0-win-x64/../../../../evil.dll" false "x", Fine)].
Lemma zip_stays_inside_witness :
  (extractZip demo_dest demo_zip ∅).2 = Some "zip slip detected: node-v22.14.0-win-x64/../../../../evil.dll" ∧
  ∃ rest, rest ≠ [] ∧ Forall part_ok rest ∧
    Join Windows [demo_dest; "node-v22.14.0-win-x64/node.exe"] =
    String "C" (String colon (below (["Program Files"; "daao"; "runtime"] ++ rest)%list)).
Proof.
  split; [vm_compute; reflexivity|].
  apply (zip_stays_inside "C" ["Program Files"; "daao"; "runtime"] demo_zip ∅); [done|by repeat constructor|].
  vm_compute. discriminate.
Defined.
End Zip.

(** ** The configuration of a platform *)

Module Platform.
Import Paths.

Definition nodeVersion : string := "22.14.0".
Record platformConfig := mkConfig {
  GOOS : string; RuntimeDir : string; NodeDir : string; NodeBinary : string; PiBinary : string; NpmBinary : string;
  NodeArch : string; ArchiveExt : string;
}.
Definition nodeArch (goarch : string) : string :=
  if String.eqb goarch "amd64" then "x64" else if String.eqb goarch "arm64" then "arm64" else if String.eqb goarch "386" then "x86" else goarch.
(** [home], [programFiles]: what the system says, possibly nothing. *)
Definition GetPlatformConfig (o : os) (goarch home programFiles : string) : platformConfig :=
  let arch := nodeArch goarch in
  match o with
  | Darwin =>
      let base := Join o [if String.eqb home "" then "/tmp" else home; "Library"; "Application Support"; "daao"; "runtime"] in
      let nodeDir := Join o [base; "node"] in
      mkConfig "darwin" base nodeDir (Join o [nodeDir; "bin"; "node"]) (Join o [nodeDir; "bin"; "pi"]) (Join o [nodeDir; "bin"; "npm"]) arch ".tar.gz"
  | Windows =>
      let pf := if String.eqb programFiles "" then "C:\Program Files" else programFiles in
      let base := Join o [pf; "daao"; "runtime"] in
      let nodeDir := Join o [base; "node"] in
      mkConfig "windows" base nodeDir (Join o [nodeDir; "node.exe"]) (Join o [nodeDir; "pi.cmd"]) (Join o [nodeDir; "npm.cmd"]) arch ".zip"
  | Linux =>
      mkConfig "linux" "/opt/daao/runtime/" "/opt/daao/runtime/node/" "/opt/daao/runtime/node/bin/node" "/opt/daao/runtime/node/bin/pi"
        "/opt/daao/runtime/node/bin/npm" arch ".tar.xz"
  end.
Definition NodeTarballURL (mirror version goos goarch : string) : string :=
  let base := if String.eqb mirror "" then "https://nodejs.org/dist" else mirror in
  let arch := nodeArch goarch in
  let file os ext := base +:+ "/v" +:+ version +:+ "/node-v" +:+ version +:+ "-" +:+ os +:+ "-" +:+ arch +:+ ext in
  if String.eqb goos "windows" then file "win" ".zip" else
  if String.eqb goos "darwin" then file "darwin" ".tar.gz" else file "linux" ".tar.xz".
(** The directory that the archive is expected to hold. *)
Definition extractedName (cfg : platformConfig) : string :=
  "node-v" +:+ nodeVersion +:+ "-" +:+ (if String.eqb (GOOS cfg) "windows" then "win" else GOOS cfg) +:+ "-" +:+ NodeArch cfg.

(** NodeBinaryPath of runtime.go. *)
Definition NodeBinaryPath (o : os) (programFiles : string) : string :=
  match o with
  | Windows => Join o [if String.eqb programFiles "" then "C:\Program Files" else programFiles; "daao"; "runtime"; "node"; "node.exe"]
  | _ => "/opt/daao/runtime/node/bin/node"
  end.

(** the archive fits: on every platform, what is downloaded is named after the directory
    that is expected in it, with the extension that the extraction of the platform
    takes. *)
Theorem archive_fits o goarch home programFiles mirror :
  let cfg := GetPlatformConfig o goarch home programFiles in
  NodeTarballURL mirror nodeVersion (GOOS cfg) goarch =
    (if String.eqb mirror "" then "https://nodejs.org/dist" else mirror) +:+ "/v" +:+ nodeVersion +:+ "/" +:+ extractedName cfg +:+ ArchiveExt cfg.
Proof.
  intros cfg. unfold NodeTarballURL, extractedName. generalize (if String.eqb mirror "" then "https://nodejs.org/dist" else mirror). intros b.
  destruct o; cbn [cfg GetPlatformConfig GOOS NodeArch ArchiveExt]; cbn [String.eqb Ascii.eqb Bool.eqb]; f_equal; by rewrite ?Str.app_assoc_str.
Qed.
End Platform.

(** ** BootstrapRuntime *)

Module Bootstrap.
Import Paths Platform.

(** What is on the machine: the paths that are there, and what LookPath finds. *)
Record Machine := mkMachine { paths : gset string; lookPath : string → option string }.
Definition with_paths (m : Machine) (ps : gset string) : Machine := mkMachine ps (lookPath m).

Section Bootstrap.
Variable o : os.
Variable cfg : platformConfig.
Variable mirror goarch : string.

Definition has (m : Machine) (p : string) : bool := bool_decide (Clean o p ∈ paths m).
Definition under (p q : string) : bool := String.eqb q (Clean o p) || Str.HasPrefix q (Clean o p +:+ separator o).
Definition remove_all (m : Machine) (p : string) : Machine := with_paths m (filter (λ q, under p q = false) (paths m)).
Definition remove (m : Machine) (p : string) : Machine := with_paths m (paths m ∖ {[Clean o p]}).
Definition moved (src dst q : string) : string := Clean o dst +:+ Str.TrimPrefix q (Clean o src).
Definition copies (m : Machine) (src dst : string) : gset string := set_map (moved src dst) (filter (λ q, under src q = true) (paths m)).
Definition rename (m : Machine) (src dst : string) : Machine :=
  with_paths m (filter (λ q, under src q = false) (paths m) ∪ copies m src dst).

(** What the outside does. A response is an error of the request, or a status with a body
    that may break off. npm and the extraction change the machine as they like. *)
Inductive response := NoResponse (err : string) | Answer (code : Z) (breaks : option string).
Record Env := mkEnv {
  mkdir : string → option string;
  create : option string;
  response_of : string → response;
  npm : string → string → Machine → Machine * option string;
  extract : string → string → Machine → Machine * option string;
  rename_fails : option string;
  copy_fails : option (gset string * string);        (* the part of the copy that was made *)
}.
Variable e : Env.
(** ExtensionsDir(), and the text of the error where a path is not there. *)
Variable extDir missing : string.

Definition IsRuntimeInstalled (m : Machine) : bool :=
  (has m (NodeBinary cfg) && has m (PiBinary cfg)) || (bool_decide (is_Some (lookPath m "node")) && bool_decide (is_Some (lookPath m "pi"))).

Definition log := list (string * string).
(** A step says what it logs, what it leaves, and its error. *)
Definition outcome : Type := log * Machine * option string.
Definition andThen (x : outcome) (f : Machine → outcome) : outcome :=
  match x with
  | (l, m, None) => let '(l', m', r) := f m in ((l ++ l')%list, m', r)
  | (l, m, Some err) => (l, m, Some err)
  end.
Definition say (step msg : string) (m : Machine) : outcome := ([(step, msg)], m, None).
Definition try_ (wrap : string) (m : Machine) (r : option string) : outcome :=
  ([], m, match r with Some err => Some (wrap +:+ err) | None => None end).

(** The file is created before the body is read, and stays if the body breaks off. *)
Definition downloadFile (m : Machine) (url dest : string) : Machine * option string :=
  match response_of e url with
  | NoResponse err => (m, Some err)
  | Answer code breaks =>
      if negb (code =? 200)%Z then (m, Some ("HTTP " +:+ Str.Itoa code +:+ " from " +:+ url)) else
      match create e with
      | Some err => (m, Some err)
      | None => (with_paths m (paths m ∪ {[Clean o dest]}), breaks)
      end
  end.
Definition installPiCLI (m : Machine) : Machine * option string :=
  let npmBin := if has m (NpmBinary cfg) then NpmBinary cfg else match lookPath m "npm" with Some s => s | None => NpmBinary cfg end in
  let '(m', r) := npm e npmBin (NodeDir cfg) m in
  (m', match r with Some err => Some ("npm install failed: " +:+ err) | None => None end).
Definition move_into_place (m : Machine) : outcome :=
  let extractedDir := Join o [RuntimeDir cfg; extractedName cfg] in
  let m1 := if has m (NodeDir cfg) then remove_all m (NodeDir cfg) else m in
  let failed err err' := Some ("failed to move Node.js to " +:+ NodeDir cfg +:+ ": rename=" +:+ err +:+ ", copy=" +:+ err') in
  if negb (has m1 extractedDir) then ([], m1, failed (default missing (rename_fails e)) missing) else
  match rename_fails e with
  | None => ([], rename m1 extractedDir (NodeDir cfg), None)
  | Some err =>
      match copy_fails e with
      | Some (part, err') => ([], with_paths m1 (paths m1 ∪ part), failed err err')
      | None => ([], remove_all (with_paths m1 (paths m1 ∪ copies m1 extractedDir (NodeDir cfg))) extractedDir, None)
      end
  end.
Definition MkdirAll (wrap dir : string) (m : Machine) : outcome :=
  match mkdir e dir with Some err => ([], m, Some (wrap +:+ dir +:+ ": " +:+ err)) | None => ([], with_paths m (paths m ∪ {[Clean o dir]}), None) end.

(** Steps 4 to 6, with the archive on disk. *)
Definition from_archive (archive : string) (m : Machine) : outcome :=
  andThen (say "extract_node" "Extracting Node.js..." m) (λ m,
  andThen (let '(m1, r) := extract e archive (RuntimeDir cfg) m in try_ "failed to extract Node.js: " m1 r) (λ m,
  andThen (move_into_place m) (λ m,
  andThen (say "verify_node" "Verifying Node.js installation..." m) (λ m,
  andThen (try_ "" m (if has m (NodeBinary cfg) then None else Some ("Node.js binary not found at " +:+ NodeBinary cfg +:+ " after extraction"))) (λ m,
  andThen (say "install_pi" "Installing Pi CLI via npm..." m) (λ m,
  let '(m1, r) := installPiCLI m in try_ "failed to install Pi CLI: " m1 r)))))).
(** Steps 7 and 8. *)
Definition verify (m : Machine) : outcome :=
  andThen (say "verify_pi" "Verifying Pi installation..." m) (λ m,
  andThen (try_ "" m (if has m (PiBinary cfg) || bool_decide (is_Some (lookPath m "pi")) then None
                      else Some ("Pi binary not found after install (checked " +:+ PiBinary cfg +:+ " and system PATH)"))) (λ m,
  andThen (say "extensions" "Checking extensions directory..." m) (λ m,
  say "complete" "Runtime ready — Node.js + Pi CLI installed" (match mkdir e extDir with Some _ => m | None => with_paths m (paths m ∪ {[Clean o extDir]}) end)))).
Definition via_system (systemNpm : string) (m : Machine) : outcome :=
  andThen (say "install_pi" "Installing Pi CLI via system npm..." m) (λ m,
  andThen (MkdirAll "failed to create runtime dir " (NodeDir cfg) m) (λ m,
  andThen (let '(m1, r) := npm e systemNpm (NodeDir cfg) m in try_ "npm install failed: " m1 r) (λ m,
  verify m))).
Definition via_download (m : Machine) : outcome :=
  let url := NodeTarballURL mirror nodeVersion (GOOS cfg) goarch in
  let archive := Join o [RuntimeDir cfg; "node" +:+ ArchiveExt cfg] in
  andThen (say "prepare" ("Creating runtime directory " +:+ RuntimeDir cfg) m) (λ m,
  andThen (MkdirAll "failed to create runtime directory " (RuntimeDir cfg) m) (λ m,
  andThen (say "download_node" ("Downloading Node.js " +:+ nodeVersion +:+ " from " +:+ url) m) (λ m,
  andThen (let '(m1, r) := downloadFile m url archive in try_ "failed to download Node.js: " m1 r) (λ m,
  (* defer os.Remove(archivePath) *)
  let '(l, m', r) := andThen (from_archive archive m) verify in (l, remove m' archive, r))))).
Definition BootstrapRuntime (m : Machine) : outcome :=
  andThen (say "check" "Checking existing runtime..." m) (λ m,
  if IsRuntimeInstalled m then say "complete" "Runtime already installed" m else
  match lookPath m "node", lookPath m "npm" with
  | Some _, Some systemNpm => via_system systemNpm m
  | _, _ => via_download m
  end).

(** *** The provisioning command *)

Record ProvisionProgress := mkProgress { Step : string; Message : string; Complete : bool; Error : string }.
Definition progress (x : string * string) : ProvisionProgress := mkProgress x.1 x.2 (String.eqb x.1 "complete") "".
(** What the goroutine of the command enqueues, in order. *)
Definition handleProvisionRuntimeCommand (force : bool) (m : Machine) : list ProvisionProgress * Machine :=
  if negb force && IsRuntimeInstalled m then ([mkProgress "complete" "Runtime already installed" true ""], m) else
  let '(l, m', r) := BootstrapRuntime m in
  ((progress <$> l) ++ match r with Some err => [mkProgress "error" ("Bootstrap failed: " +:+ err) true err] | None => [] end, m')%list.

(** *** Reports *)

Definition quiet (l : log) : Prop := Forall (λ x, x.1 ≠ "complete") l.
(** It says that it is complete at its end, exactly if it has no error. *)
Definition finishes (x : outcome) : Prop :=
  match x with
  | (l, _, None) => ∃ init msg, l = (init ++ [("complete", msg)])%list ∧ quiet init
  | (l, _, Some _) => quiet l
  end.
Lemma andThen_finishes x f : quiet x.1.1 → (∀ m, finishes (f m)) → finishes (andThen x f).
Proof.
  destruct x as [[l m] [err|]]; cbn; intros Hq Hf; [done|]. specialize (Hf m). destruct (f m) as [[l' m'] [err|]]; cbn in *.
  - by apply Forall_app.
  - destruct Hf as (init & msg & -> & Hi). exists (l ++ init)%list, msg. split; [by rewrite app_assoc|by apply Forall_app].
Qed.
Lemma andThen_quiet x f : quiet x.1.1 → (∀ m, quiet (f m).1.1) → quiet (andThen x f).1.1.
Proof.
  destruct x as [[l m] [err|]]; cbn; intros Hq Hf; [done|]. specialize (Hf m). destruct (f m) as [[l' m'] r]. by apply Forall_app.
Qed.
Lemma quiet_say step msg m : step ≠ "complete" → quiet (say step msg m).1.1.
Proof. intros H. by repeat constructor. Qed.
Lemma verify_finishes m : finishes (verify m).
Proof.
  unfold verify. repeat (apply andThen_finishes; [by repeat constructor|intros]). exists [], "Runtime ready — Node.js + Pi CLI installed". split; [done|constructor].
Qed.
Lemma MkdirAll_quiet w dir m : quiet (MkdirAll w dir m).1.1.
Proof. unfold MkdirAll. destruct (mkdir e dir); constructor. Qed.
Lemma move_quiet m : quiet (move_into_place m).1.1.
Proof. unfold move_into_place. repeat case_match; constructor. Qed.
Lemma pair_quiet (x : Machine * option string) w : quiet (let '(m1, r) := x in try_ w m1 r).1.1.
Proof. destruct x. constructor. Qed.
Lemma from_archive_quiet a m : quiet (from_archive a m).1.1.
Proof.
  unfold from_archive. repeat (apply andThen_quiet; [first [apply pair_quiet|apply move_quiet|by repeat constructor]|intros]). apply pair_quiet.
Qed.
Lemma BootstrapRuntime_finishes m : finishes (BootstrapRuntime m).
Proof.
  apply andThen_finishes; [by repeat constructor|intros m1]. destruct (IsRuntimeInstalled m1); [exists [], "Runtime already installed"; split; [done|constructor]|].
  assert (finishes (via_download m1)) as Hd.
  { unfold via_download. repeat (apply andThen_finishes; [first [apply pair_quiet|apply MkdirAll_quiet|by repeat constructor]|intros]).
    set (x := andThen _ verify). assert (finishes x) as H by (apply andThen_finishes; [apply from_archive_quiet|apply verify_finishes]).
    by destruct x as [[l ?] r]. }
  destruct (lookPath m1 "node"), (lookPath m1 "npm"); try done. unfold via_system.
  do 3 (apply andThen_finishes; [first [apply pair_quiet|apply MkdirAll_quiet|by repeat constructor]|intros]). apply verify_finishes.
Qed.

(** a provisioning command is answered: its reports end with the one that says that
    it is complete, or with the error, and no report before that one does. *)
Theorem provision_reports_end force m :
  ∃ init last, (handleProvisionRuntimeCommand force m).1 = (init ++ [last])%list ∧ Complete last = true ∧
    (Step last = "complete" ∨ Step last = "error") ∧ Forall (λ p, Complete p = false) init.
Proof.
  unfold handleProvisionRuntimeCommand. destruct (negb force && IsRuntimeInstalled m); [eexists [], _; split; [done|]; split_and!; [done|by left|constructor]|].
  pose proof (BootstrapRuntime_finishes m) as H. destruct (BootstrapRuntime m) as [[l m'] r].
  assert (∀ l, quiet l → Forall (λ p, Complete p = false) (progress <$> l)) as Hq.
  { intros k Hk. induction Hk as [|[a b] k Ha Hk IH]; [constructor|]. constructor; [by apply String.eqb_neq|done]. }
  destruct r as [err|]; cbn in *; [eexists _, _; split; [done|]; split_and!; [done|by right|by apply Hq]|].
  destruct H as (init & msg & -> & Hi). rewrite app_nil_r, fmap_app. eexists _, _. split; [done|]. split_and!; [done|by left|by apply Hq].
Qed.
(** force is ignored: where the runtime is installed, a command with force only reports
    that, and changes nothing. *)
Theorem force_is_ignored m : IsRuntimeInstalled m = true →
  handleProvisionRuntimeCommand true m =
    ([mkProgress "check" "Checking existing runtime..." false ""; mkProgress "complete" "Runtime already installed" true ""], m).
Proof.
  intros H. unfold handleProvisionRuntimeCommand, BootstrapRuntime. cbn [negb andb andThen say]. rewrite H. done.
Qed.

(** *** What is installed *)

Definition usable (m : Machine) : Prop := has m (PiBinary cfg) = true ∨ is_Some (lookPath m "pi").
Lemma andThen_ok x f l m : andThen x f = (l, m, None) → ∃ l0 m0 l1, x = (l0, m0, None) ∧ f m0 = (l1, m, None) ∧ l = (l0 ++ l1)%list.
Proof.
  destruct x as [[l0 m0] [err|]]; cbn; [done|]. destruct (f m0) as [[l1 m1] r] eqn:E. intros [= <- <- ->]. by exists l0, m0, l1.
Qed.
Lemma has_add m p q : has m p = true → has (with_paths m (paths m ∪ {[q]})) p = true.
Proof. unfold has. rewrite !bool_decide_eq_true. cbn. set_solver. Qed.
Lemma verify_usable m l m' : verify m = (l, m', None) → usable m'.
Proof.
  unfold verify. intros (l0 & m0 & l1 & [= <- <-] & H & _)%andThen_ok. apply andThen_ok in H as (l2 & m2 & l3 & H1 & H2 & _).
  injection H1 as <- <- Hp. apply andThen_ok in H2 as (l4 & m4 & l5 & [= <- <-] & [= <- <-] & _).
  assert (usable m) as Hu. { unfold usable. destruct (has m (PiBinary cfg)); [by left|right]. cbn in Hp. by case_bool_decide. }
  destruct (mkdir e extDir); [done|]. destruct Hu as [Hu|Hu]; [left; by apply has_add|by right].
Qed.
(** with the Node.js of the system the runtime never counts as installed: where npm puts
    neither a Node.js into the directory of the runtime nor Pi on the PATH, a bootstrap that
    succeeds leaves a machine for which the next one does everything again. *)
Theorem system_node_never_installed m l m' n nb :
  IsRuntimeInstalled m = false → lookPath m "node" = Some n → lookPath m "npm" = Some nb → lookPath m "pi" = None →
  (∀ x, has (npm e nb (NodeDir cfg) x).1 (NodeBinary cfg) = has x (NodeBinary cfg) ∧ lookPath (npm e nb (NodeDir cfg) x).1 = lookPath x) →
  Clean o (NodeDir cfg) ≠ Clean o (NodeBinary cfg) → Clean o extDir ≠ Clean o (NodeBinary cfg) → has m (NodeBinary cfg) = false →
  BootstrapRuntime m = (l, m', None) → IsRuntimeInstalled m' = false ∧ has m' (PiBinary cfg) = true.
Proof.
  intros Hi Hn Hb Hp Hnpm Hd1 Hd2 Hh. unfold BootstrapRuntime. intros (l0 & m0 & l1 & [= <- <-] & H & _)%andThen_ok. rewrite Hi, Hn, Hb in H.
  unfold via_system in H. apply andThen_ok in H as (? & ? & ? & [= <- <-] & H & _). apply andThen_ok in H as (? & m1 & ? & Hm & H & _).
  apply andThen_ok in H as (? & m2 & ? & Hx & H & _). unfold MkdirAll in Hm. destruct (mkdir e (NodeDir cfg)); [done|]. injection Hm as <- <-.
  assert (∀ x q, Clean o q ≠ Clean o (NodeBinary cfg) → has x (NodeBinary cfg) = false → has (with_paths x (paths x ∪ {[Clean o q]})) (NodeBinary cfg) = false) as Hadd.
  { intros x q Hq Hf. unfold has in *. rewrite bool_decide_eq_false in *. cbn. set_solver. }
  set (x := with_paths m _) in Hx. assert (has x (NodeBinary cfg) = false) as Hxf by (by apply Hadd).
  destruct (Hnpm x) as [Hn1 Hn2]. destruct (npm e nb (NodeDir cfg) x) as [m3 r]. cbn in Hn1, Hn2, Hx. injection Hx as <- <- Hr.
  rewrite Hxf in Hn1. assert (lookPath m3 = lookPath m) as Hlp by done. pose proof (verify_usable _ _ _ H) as Hu.
  assert (lookPath m' = lookPath m3 ∧ has m' (NodeBinary cfg) = false) as [Hl Hf].
  { unfold verify in H. do 3 (apply andThen_ok in H as (? & ? & ? & E & H & _); injection E as <- <-). injection H as <- <-.
    destruct (mkdir e extDir); [done|]. split; [done|by apply Hadd]. }
  unfold IsRuntimeInstalled. rewrite Hf, Hl, Hlp, Hp. split; [by rewrite andb_false_r|]. destruct Hu as [Hu|[y Hy]]; [done|]. rewrite Hl, Hlp in Hy. congruence.
Qed.
(** the archive is removed, but not where its download breaks off: there it stays. *)
Theorem archive_left_behind m code breaks :
  let archive := Join o [RuntimeDir cfg; "node" +:+ ArchiveExt cfg] in
  mkdir e (RuntimeDir cfg) = None → response_of e (NodeTarballURL mirror nodeVersion (GOOS cfg) goarch) = Answer code breaks →
  code = 200%Z → create e = None →
  has (via_download m).1.2 archive = bool_decide (is_Some breaks).
Proof.
  intros archive Hm Hr -> Hc. unfold via_download, MkdirAll, downloadFile. fold archive. rewrite Hm, Hr, Hc. cbn [negb Z.eqb Pos.eqb].
  cbn [andThen say try_]. destruct breaks as [err|]; cbn [andThen].
  - cbn. unfold has. apply bool_decide_eq_true. cbn. set_solver.
  - set (x := andThen _ verify). destruct x as [[l m'] r]. cbn. unfold has, remove. apply bool_decide_eq_false. cbn. set_solver.
Qed.
Context (archive_apart : Clean o (PiBinary cfg) ≠ Clean o (Join o [RuntimeDir cfg; "node" +:+ ArchiveExt cfg])).
(** a bootstrap that succeeds has made Pi available: it is in the directory of the runtime, or
    on the PATH. *)
Theorem bootstrap_provides_pi m l m' : BootstrapRuntime m = (l, m', None) → usable m'.
Proof using archive_apart.
  unfold BootstrapRuntime. intros (l0 & m0 & l1 & [= <- <-] & H & _)%andThen_ok. destruct (IsRuntimeInstalled m) eqn:Ei.
  { injection H as <- <-. unfold IsRuntimeInstalled in Ei. apply orb_true_iff in Ei as [[_ Hp]%andb_true_iff|[_ Hp]%andb_true_iff]; [by left|right; by case_bool_decide]. }
  assert (via_download m = (l1, m', None) → usable m') as Hdown.
  { clear H. unfold via_download. intros H. do 4 (apply andThen_ok in H as (? & ? & ? & _ & H & _)).
    destruct (andThen _ verify) as [[l' mx] r] eqn:E. injection H as <- <- ->. apply andThen_ok in E as (? & ? & ? & _ & H & _).
    apply verify_usable in H. destruct H as [H|H]; [left|by right]. unfold has, remove in *. rewrite bool_decide_eq_true in *. cbn. set_solver. }
  destruct (lookPath m "node"), (lookPath m "npm"); try by apply Hdown. unfold via_system in H.
  do 3 (apply andThen_ok in H as (? & ? & ? & _ & H & _)). by apply verify_usable in H.
Qed.
End Bootstrap.

(** *** A Linux machine *)

Definition linux : platformConfig := GetPlatformConfig Linux "amd64" "" "".
Definition demo_env (fetched : response) : Env :=
  mkEnv (λ _, None) None (λ _, fetched)
    (λ _ prefix m, (with_paths m (paths m ∪ {["/opt/daao/runtime/node/bin/pi"]}), None))
    (λ _ _ m, (with_paths m (paths m ∪ {["/opt/daao/runtime/node-v22.14.0-linux-x64"; "/opt/daao/runtime/node-v22.14.0-linux-x64/bin/node"]}), None)) None None.
Definition bare : Machine := mkMachine ∅ (λ _, None).
Definition bootstrap (fetched : response) (m : Machine) : outcome :=
  BootstrapRuntime Linux linux "" "amd64" (demo_env fetched) "/opt/daao/extensions/" "no such file or directory" m.
Definition bootstrapped : Machine := (bootstrap (Answer 200 None) bare).1.2.
Lemma bootstrap_provides_pi_witness :
  IsRuntimeInstalled Linux linux bootstrapped = true ∧ (bootstrap (Answer 200 None) bare).2 = None ∧ usable Linux linux bootstrapped.
Proof.
  split; [vm_compute; reflexivity|]. split; [vm_compute; reflexivity|].
  apply (bootstrap_provides_pi Linux linux "" "amd64" (demo_env (Answer 200 None)) "/opt/daao/extensions/" "no such file or directory")
    with (m := bare) (l := (bootstrap (Answer 200 None) bare).1.1); [vm_compute; discriminate|vm_compute; reflexivity].
Defined.
Lemma force_is_ignored_witness :
  (handleProvisionRuntimeCommand Linux linux "" "amd64" (demo_env (Answer 200 None)) "/opt/daao/extensions/" "" true bootstrapped).2 = bootstrapped.
Proof.
  rewrite (force_is_ignored Linux linux "" "amd64" (demo_env (Answer 200 None)) "/opt/daao/extensions/" "" bootstrapped); [reflexivity|vm_compute; reflexivity].
Defined.
Definition alpine : Machine :=
  mkMachine ∅ (λ b, if String.eqb b "node" then Some "/usr/bin/node" else if String.eqb b "npm" then Some "/usr/bin/npm" else None).
Lemma system_node_never_installed_witness :
  (bootstrap (NoResponse "") alpine).2 = None ∧
  IsRuntimeInstalled Linux linux (bootstrap (NoResponse "") alpine).1.2 = false ∧
  has Linux (bootstrap (NoResponse "") alpine).1.2 (PiBinary linux) = true.
Proof.
  split; [vm_compute; reflexivity|].
  apply (system_node_never_installed Linux linux "" "amd64" (demo_env (NoResponse "")) "/opt/daao/extensions/" "no such file or directory"
    alpine (bootstrap (NoResponse "") alpine).1.1 _ "/usr/bin/node" "/usr/bin/npm");
    [vm_compute; reflexivity|reflexivity|reflexivity|reflexivity| |vm_compute; discriminate|vm_compute; discriminate|vm_compute; reflexivity|vm_compute; reflexivity].
  intros x. split; [|done]. unfold has. apply bool_decide_ext. cbn. split; [|set_solver]. intros [H|H]%elem_of_union; [done|].
  apply elem_of_singleton in H. vm_compute in H. discriminate H.
Defined.
Lemma archive_left_behind_witness :
  has Linux (via_download Linux linux "" "amd64" (demo_env (Answer 200 (Some "unexpected EOF"))) "/x" "" bare).1.2 "/opt/daao/runtime/node.tar.xz" = true.
Proof.
  exact (archive_left_behind Linux linux "" "amd64" (demo_env (Answer 200 (Some "unexpected EOF"))) "/x" "" bare 200 (Some "unexpected EOF")
    eq_refl eq_refl eq_refl eq_refl).
Defined.
End Bootstrap.

(** ** Finding binaries on Unix *)

Module Resolve.
Import Paths.

Definition wellKnownAgents : list string :=
  ["claude"; "gemini"; "gpt"; "codex"; "aider"; "pi"; "node"; "powershell"; "pwsh"; "bash"; "zsh"; "fish"; "cmd"].
Section Resolve.
(** The environment, and what is a file (and no directory). *)
Variable PATH HOME : string.
Variable is_file : string → bool.

Definition home_dirs : list string :=
  if String.eqb HOME "" then []
  else (λ l, Join Linux (HOME :: l)) <$> [[".local"; "bin"]; ["go"; "bin"]; [".cargo"; "bin"]; [".npm-global"; "bin"]].
Definition runtime_dirs : list string :=
  ["/opt/daao/runtime/node/bin"; "/opt/daao/runtime/node/lib/node_modules/.bin"; "/usr/local/bin"; "/usr/bin"; "/bin"; "/usr/sbin"; "/sbin"].
Definition searchDirs : list string := (filter (λ p, p ≠ "") (Str.Split PATH colon) ++ home_dirs ++ runtime_dirs)%list.
Definition separated (name : string) : bool := Str.ContainsByte name slash || Str.ContainsByte name backslash.
Definition candidate (name dir : string) : string := Join Linux [dir; name].
Fixpoint first_file (cs : list string) : option string :=
  match cs with [] => None | c :: cs' => if is_file c then Some c else first_file cs' end.
Definition resolveBinary (name : string) : string :=
  if separated name then name else default name (first_file (candidate name <$> searchDirs)).
Definition probeAvailableAgents : list string := filter (λ name, resolveBinary name ≠ name) wellKnownAgents.

Lemma first_file_spec cs c : first_file cs = Some c ↔ ∃ before after, cs = (before ++ c :: after)%list ∧ is_file c = true ∧ Forall (λ x, is_file x = false) before.
Proof.
  induction cs as [|x cs IH]; cbn [first_file].
  - split; [done|]. by intros ([|] & after & ? & _).
  - destruct (is_file x) eqn:E.
    + split; [intros [= ->]; exists [], cs; split_and!; [done..|constructor]|].
      intros ([|y before] & after & [= -> ->] & Hc & Hb); [done|]. inversion Hb; subst. congruence.
    + rewrite IH. split.
      * intros (before & after & -> & Hc & Hb). exists (x :: before), after. split_and!; [done..|by constructor].
      * intros ([|y before] & after & [= -> ->] & Hc & Hb); [congruence|]. inversion Hb; subst. by exists before, after.
Qed.
(** a binary is resolved to the first file of its name in the order of the directories: PATH, the
    home, the runtime, the system; without one, or with a separator, the name is kept.
    So an agent is reported as available exactly where that file is found under
    another text than its bare name, which it keeps in the directory ".". *)
Theorem probe_exact name : separated name = false →
  (∀ c, resolveBinary name = c → c ≠ name →
     ∃ before dir after, searchDirs = (before ++ dir :: after)%list ∧ c = candidate name dir ∧ is_file c = true ∧
       Forall (λ d, is_file (candidate name d) = false) before) ∧
  (resolveBinary name = name ↔ Forall (λ d, is_file (candidate name d) = false) searchDirs ∨
     ∃ before dir after, searchDirs = (before ++ dir :: after)%list ∧ candidate name dir = name ∧ is_file name = true ∧
       Forall (λ d, is_file (candidate name d) = false) before).
Proof.
  intros Hs. unfold resolveBinary. rewrite Hs.
  assert (∀ c, first_file (candidate name <$> searchDirs) = Some c → ∃ before dir after, searchDirs = (before ++ dir :: after)%list ∧ c = candidate name dir ∧
    is_file c = true ∧ Forall (λ d, is_file (candidate name d) = false) before) as Hf.
  { intros c (bs & afs & E & Hc & Hb)%first_file_spec. symmetry in E. symmetry in E. apply fmap_app_inv in E as (b & ds & -> & E & ->).
    symmetry in E. apply fmap_cons_inv in E as (dir & after & -> & -> & ->). exists b, dir, after. split_and!; [done..|]. by apply Forall_fmap in Hb. }
  split.
  - intros c <-. destruct (first_file _) as [c|] eqn:E; [|done]. intros _. by apply Hf.
  - split.
    + destruct (first_file _) as [c|] eqn:E; cbn.
      * intros ->. right. destruct (Hf _ eq_refl) as (b & dir & after & H1 & H2 & H3 & H4). by exists b, dir, after.
      * intros _. left. clear Hf. revert E. generalize searchDirs. intros ds0 E. induction ds0 as [|d ds IH]; [constructor|]. cbn in E. destruct (is_file (candidate name d)) eqn:Ed; [done|].
        constructor; [done|by apply IH].
    + intros [H|(b & dir & after & H1 & H2 & H3 & H4)].
      * destruct (first_file _) as [c|] eqn:E; [|done]. destruct (Hf _ eq_refl) as (b & dir & after & H1 & -> & H3 & _).
        rewrite H1 in H. apply Forall_app in H as [_ H]. inversion H; subst. congruence.
      * assert (first_file (candidate name <$> searchDirs) = Some name) as ->; [|done]. apply first_file_spec.
        exists (candidate name <$> b), (candidate name <$> after). rewrite H1, fmap_app. cbn. rewrite H2. split_and!; [done..|]. by apply Forall_fmap.
Qed.

(** handleDeployAgentCommand installs the runtime first, if need be. *)
Definition needs_bootstrap (cfg : Platform.platformConfig) (m : Bootstrap.Machine) : bool :=
  negb (Bootstrap.IsRuntimeInstalled Linux cfg m) && String.eqb (resolveBinary "pi") "pi".
End Resolve.

Lemma probe_exact_witness :
  let is_file p := String.eqb p "/opt/daao/runtime/node/bin/pi" || String.eqb p "/bin/bash" in
  probeAvailableAgents "/usr/bin:" "/root" is_file = ["pi"; "bash"] ∧
  (resolveBinary "/usr/bin:" "/root" is_file "zsh" = "zsh" ↔ Forall (λ d, is_file (candidate "zsh" d) = false) (searchDirs "/usr/bin:" "/root") ∨
     ∃ before dir after, searchDirs "/usr/bin:" "/root" = (before ++ dir :: after)%list ∧ candidate "zsh" dir = "zsh" ∧ is_file "zsh" = true ∧
       Forall (λ d, is_file (candidate "zsh" d) = false) before).
Proof. intros is_file. split; [vm_compute; reflexivity|]. apply (probe_exact "/usr/bin:" "/root" is_file "zsh"). reflexivity. Defined.
End Resolve.

(** ** The switch in the configuration *)

Module Runtime.

Record RuntimeConfig := mkRuntime { Enabled : bool }.
(** What is behind the path: nothing, something unreadable, or a text. *)
Inductive file := NotThere | Unreadable (err : string) | Text (data : string).
Section Runtime.
(** YAML: the value of agent_runtime in a configuration, if it is there. *)
Variable yaml : string → result string (option RuntimeConfig).
Definition parseRuntimeConfig (data : string) : result string RuntimeConfig :=
  match yaml data with
  | Err err => Err ("failed to parse satellite config: " +:+ err)
  | Ok None => Ok (mkRuntime true)
  | Ok (Some c) => Ok c
  end.
Definition LoadRuntimeConfig (f : file) : result string RuntimeConfig :=
  match f with
  | NotThere => Ok (mkRuntime true)
  | Unreadable err => Err ("failed to read satellite config: " +:+ err)
  | Text data => parseRuntimeConfig data
  end.
(** The variable of the package. *)
Definition InitRuntime (runtimeConfig : option RuntimeConfig) (f : file) : option RuntimeConfig * option string :=
  match LoadRuntimeConfig f with Ok c => (Some c, None) | Err err => (runtimeConfig, Some err) end.
Definition GetRuntimeConfig (runtimeConfig : option RuntimeConfig) : RuntimeConfig := default (mkRuntime true) runtimeConfig.
Definition ValidateDeployment (runtimeConfig : option RuntimeConfig) : option string :=
  if Enabled (GetRuntimeConfig runtimeConfig) then None else Some "Agent runtime is disabled on this satellite".

(** the switch is obeyed once it is read: deployments are refused exactly where the
    last configuration that could be read has agent_runtime without enabled. *)
Theorem switch_obeyed (fs : list file) :
  is_Some (ValidateDeployment (foldl (λ c f, (InitRuntime c f).1) None fs)) ↔
  ∃ before data after, fs = (before ++ Text data :: after)%list ∧ yaml data = Ok (Some (mkRuntime false)) ∧
    Forall (λ f, is_ok (LoadRuntimeConfig f) = false) after.
Proof.
  induction fs as [|f fs IH] using rev_ind; cbn.
  - split; [by intros [? [=]]|]. by intros ([|] & ? & ? & [=] & _).
  - rewrite foldl_app. cbn. set (c := foldl _ None fs) in *. unfold InitRuntime. destruct (LoadRuntimeConfig f) as [[b]|err] eqn:E; cbn.
    + split.
      * destruct b; [by intros [? [=]]|]. intros _. destruct f as [|err|data]; [done..|]. exists fs, data, []. cbn in E. unfold parseRuntimeConfig in E.
        destruct (yaml data) as [[?|]|]; [injection E as ->|done|done]. split_and!; [done..|constructor].
      * intros (before & data & after & H & Hy & Ha). destruct after as [|x after _] using rev_ind.
        -- apply app_inj_tail in H as [-> ->]. cbn in E. unfold parseRuntimeConfig in E. rewrite Hy in E. injection E as <-. by eexists.
        -- rewrite app_comm_cons, app_assoc in H. apply app_inj_tail in H as [_ ->]. apply Forall_app in Ha as [_ Ha]. inversion Ha as [|? ? Hx]; subst. by rewrite E in Hx.
    + rewrite IH. split.
      * intros (before & data & after & -> & Hy & Ha). exists before, data, (after ++ [f])%list. split_and!; [by rewrite <-app_assoc|done|].
        apply Forall_app. split; [done|]. repeat constructor. by rewrite E.
      * intros (before & data & after & H & Hy & Ha). destruct after as [|x after _] using rev_ind.
        -- apply app_inj_tail in H as [-> ->]. cbn in E. unfold parseRuntimeConfig in E. by rewrite Hy in E.
        -- rewrite app_comm_cons, app_assoc in H. apply app_inj_tail in H as [-> ->]. exists before, data, after. split_and!; [done..|]. apply Forall_app in Ha; apply Ha.
Qed.
End Runtime.
End Runtime.
