(* ===== verification/Ipc.v ===== *)
(** * pkg/ipc: the local socket of a session

    The server of a session accepts connections of AI processes up to a limit and
    reads JSON-RPC messages from each (server.go, conn.go); a dispatcher answers
    the methods of the protocol (dispatch.go); tokens authenticate (token.go).
    A json.Decoder is modelled as the standard library documents and implements
    it: an error of syntax or of the underlying reader stays, a value of the
    wrong type is consumed. Sockets and their deadlines are the environment. *)
From Stdlib Require Import Ascii String.
From S2P Require Import Prelude GoStrings.
#[local] Open Scope Z_scope.

Module Ipc.

(** ** Messages (conn.go) *)

(** The field id: absent or any JSON value, by its text. *)
Notation json_id := (option string).

Record JSONRPCMessage := mkMessage {
  JSONRPC : string; Method : string; Params : option string; ID : json_id;
}.
Record JSONRPCError := mkError { Code : Z; Message : string }.
(** [Result] is the object of strings that was marshalled. *)
Record JSONRPCResponse := mkResponse {
  r_JSONRPC : string; Result : option (list (string * string)); r_Error : option JSONRPCError;
  r_ID : json_id;
}.

Definition NewResponse (id : json_id) (result : list (string * string)) : JSONRPCResponse :=
  mkResponse "2.0" (Some result) None id.
Definition NewErrorResponse (id : json_id) (code : Z) (message : string) : JSONRPCResponse :=
  mkResponse "2.0" None (Some (mkError code message)) id.

Definition ParseError : Z := -32700.
Definition InvalidRequest : Z := -32600.
Definition MethodNotFound : Z := -32601.
Definition AuthError : Z := -32001.
Definition InvalidState : Z := -32002.
Definition PayloadTooLarge : Z := -32003.

(** ** The dispatcher (dispatch.go) *)

Definition MaxOOBPayloadSize : Z := 1024 * 1024.
Definition validStates : list string := ["THINKING"; "INPUT_REQUIRED"; "RUNNING"; "TOOL_CALLING"].
Definition validOOBComponents : list string :=
  ["FileDiff"; "MarkdownPreview"; "FileTree"; "CommandResult"; "Progress"; "Confirmation"].

Section Dispatch.
(** json.Unmarshal of the parameters into the two structs: the fields token and
    state, token and component, or the text of the error. *)
Variable as_StateChangeParams : string → result string (string * string).
Variable as_OOBUIParams : string → result string (string * string).

Definition validateToken (authToken token : string) : option string :=
  if String.eqb token "" then Some "token is missing"
  else if negb (String.eqb authToken "") && negb (String.eqb token authToken)
  then Some "token is invalid" else None.

Definition handleStateChange (authToken : string) (msg : JSONRPCMessage) : JSONRPCResponse :=
  match Params msg with
  | None => NewErrorResponse (ID msg) InvalidRequest "Invalid Request: params are required"
  | Some p =>
      match as_StateChangeParams p with
      | Err err => NewErrorResponse (ID msg) ParseError ("Parse error: " +:+ err)
      | Ok (token, st) =>
          match validateToken authToken token with
          | Some err => NewErrorResponse (ID msg) AuthError ("Auth error: " +:+ err)
          | None =>
              if String.eqb st ""
              then NewErrorResponse (ID msg) InvalidState "Invalid state: state is required"
              else if negb (bool_decide (st ∈ validStates))
              then NewErrorResponse (ID msg) InvalidState ("Invalid state: " +:+ st +:+
                     " (must be THINKING, INPUT_REQUIRED, RUNNING, or TOOL_CALLING)")
              else NewResponse (ID msg) [("state", st); ("status", "ok")]%string
          end
      end
  end.

Definition handleOOBUI (authToken : string) (msg : JSONRPCMessage) : JSONRPCResponse :=
  match Params msg with
  | None => NewErrorResponse (ID msg) InvalidRequest "Invalid Request: params are required"
  | Some p =>
      match as_OOBUIParams p with
      | Err err => NewErrorResponse (ID msg) ParseError ("Parse error: " +:+ err)
      | Ok (token, component) =>
          match validateToken authToken token with
          | Some err => NewErrorResponse (ID msg) AuthError ("Auth error: " +:+ err)
          | None =>
              if String.eqb component ""
              then NewErrorResponse (ID msg) InvalidRequest "Invalid Request: component type is required"
              else if negb (bool_decide (component ∈ validOOBComponents))
              then NewErrorResponse (ID msg) InvalidRequest ("Invalid component type: " +:+ component +:+
                     " (must be FileDiff, MarkdownPreview, FileTree, CommandResult, Progress, or Confirmation)")
              else if MaxOOBPayloadSize <? Z.of_nat (String.length p)
              then NewErrorResponse (ID msg) PayloadTooLarge
                     "Payload too large: maximum size is 1048576 bytes"
              else NewResponse (ID msg) [("component", component); ("status", "ok")]%string
          end
      end
  end.

Definition Dispatch (authToken : string) (msg : JSONRPCMessage) : JSONRPCResponse :=
  if negb (String.eqb (JSONRPC msg) "2.0")
  then NewErrorResponse (ID msg) InvalidRequest "Invalid Request: jsonrpc version must be 2.0"
  else if String.eqb (Method msg) ""
  then NewErrorResponse (ID msg) InvalidRequest "Invalid Request: method is required"
  else if String.eqb (Method msg) "daao.stateChange" then handleStateChange authToken msg
  else if String.eqb (Method msg) "daao.oobUI" then handleOOBUI authToken msg
  else NewErrorResponse (ID msg) MethodNotFound ("Method not found: " +:+ Method msg).
End Dispatch.

(** ** Tokens (token.go) *)

Definition tokenLength : Z := 64.
Definition tokenEnvVar : string := "DAAO_IPC_TOKEN".

Inductive token_error := ErrTokenInvalid | ErrTokenExpired | ErrTokenMissing.

Definition hex_digit (c : ascii) : bool :=
  let n := nat_of_ascii c in
  ((48 <=? n)%nat && (n <=? 57)%nat) || ((97 <=? n)%nat && (n <=? 102)%nat) ||
  ((65 <=? n)%nat && (n <=? 70)%nat).
Definition isValidHex (s : string) : bool := forallb hex_digit (list_ascii_of_string s).

Definition ValidateToken (token expected : string) : option token_error :=
  if String.eqb token "" then Some ErrTokenMissing
  else if negb (Z.of_nat (String.length token) =? tokenLength) then Some ErrTokenInvalid
  else if negb (isValidHex token) then Some ErrTokenInvalid
  else if negb (String.eqb token expected) then Some ErrTokenInvalid else None.

Record Token := mkToken { Value : string; Expires : Z }.

Definition ValidateTokenWithExpiry (token : option Token) (expected : string) (now : Z) : option token_error :=
  match token with
  | None => Some ErrTokenMissing
  | Some t =>
      if String.eqb (Value t) "" then Some ErrTokenMissing
      else if Expires t <? now then Some ErrTokenExpired
      else ValidateToken (Value t) expected
  end.

(** hex.EncodeToString *)
Definition hex_char (n : Z) : ascii :=
  ascii_of_nat (Z.to_nat (if n <? 10 then 48 + n else 87 + n)).
Fixpoint EncodeToString (b : list Z) : string :=
  match b with
  | [] => EmptyString
  | x :: b' => String (hex_char (x / 16)) (String (hex_char (x mod 16)) (EncodeToString b'))
  end.

(** [random]: the bytes of rand.Read. *)
Definition GenerateToken (random : list Z) : string := EncodeToString random.
Definition GenerateTokenWithExpiry (random : list Z) (maxAge now1 now2 : Z) : Token :=
  mkToken (GenerateToken random) (if maxAge =? 0 then now2 else now1 + maxAge).

(** The first variable whose text starts with the name of the token variable is
    replaced: the loop compares no further than the name. *)
Fixpoint InjectTokenIntoProcessEnv (token : string) (env : list string) : list string :=
  match env with
  | [] => [tokenEnvVar +:+ "=" +:+ token]
  | e :: env' =>
      if Str.HasPrefix e tokenEnvVar then (tokenEnvVar +:+ "=" +:+ token) :: env'
      else e :: InjectTokenIntoProcessEnv token env'
  end.

(** os.Getenv in a process with this environment: the first entry counts. *)
Fixpoint getenv (name : string) (env : list string) : string :=
  match env with
  | [] => ""
  | e :: env' => match Str.strip_prefix e (name +:+ "=") with Some v => v | None => getenv name env' end
  end.
Definition GetTokenFromEnv (env : list string) : result token_error string :=
  let token := getenv tokenEnvVar env in
  if String.eqb token "" then Err ErrTokenMissing else Ok token.

(** ** A connection (server.go) *)

(** What the next read from the socket brings, up to the end of a value. *)
Inductive input :=
  | Value_ (m : JSONRPCMessage)                  (* a value that fits the struct *)
  | Mismatch (err : string)                      (* one that does not *)
  | Broken (err : string)                        (* no JSON *)
  | ReadFails (err : string)                     (* the deadline of 30 s, a reset *)
  | Eof | UnexpectedEof.

(** json.Decoder: [failed] is its field err. *)
Inductive decode_error := IsEof | Other (err : string).
Record Decoder := mkDecoder { failed : option decode_error; incoming : list input }.

(** [None]: the read blocks. *)
Definition Decode (d : Decoder) : option (Decoder * result decode_error JSONRPCMessage) :=
  match failed d with
  | Some e => Some (d, Err e)
  | None =>
      match incoming d with
      | [] => None
      | i :: rest =>
          let stuck e := Some (mkDecoder (Some e) rest, Err e) in
          match i with
          | Value_ m => Some (mkDecoder None rest, Ok m)
          | Mismatch err => Some (mkDecoder None rest, Err (Other err))
          | Broken err | ReadFails err => stuck (Other err)
          | Eof | UnexpectedEof => stuck IsEof
          end
      end
  end.

(** The default handling: the daemon sets no OnMessage. *)
Definition handleMessage (msg : JSONRPCMessage) : JSONRPCResponse :=
  if String.eqb (Method msg) "" then NewErrorResponse (ID msg) (-32600) "Method not found"
  else NewResponse (ID msg) [("method", Method msg); ("status", "ok")]%string.

(** One round of serveConn: the decoder, what was sent, and whether the loop
    goes on. The result of SendResponse is ignored. [None]: it waits. *)
Definition serve_round (closed : bool) (d : Decoder) (sent : list JSONRPCResponse)
    : option (Decoder * list JSONRPCResponse * bool) :=
  if closed then Some (d, sent, false) else
  match Decode d with
  | None => None
  | Some (d', Err IsEof) => Some (d', sent, false)
  | Some (d', Err (Other err)) => Some (d', sent ++ [NewErrorResponse None (-32700) err], true)
  | Some (d', Ok m) => Some (d', sent ++ [handleMessage m], true)
  end.

(** At most [n] rounds, until the loop ends or waits; the last result tells
    whether it would still run. *)
Fixpoint serveConn (n : nat) (closed : bool) (d : Decoder) (sent : list JSONRPCResponse)
    : Decoder * list JSONRPCResponse * bool :=
  match n with
  | O => (d, sent, true)
  | S n' =>
      match serve_round closed d sent with
      | None => (d, sent, true)
      | Some (d', sent', true) => serveConn n' closed d' sent'
      | Some r => r
      end
  end.

(** ** The server *)

Definition MaxConnections : Z := 1000.

(** The connections that are tracked, the counter, and the sockets that were
    closed at once because of the limit. *)
Record Server := mkServer { conns : gset N; activeConns : Z; closed : bool; turned_away : N }.

Definition NewServer : Server := mkServer ∅ 0 false 0.
Definition canAccept (s : Server) : bool := activeConns s <? MaxConnections.

(** What acceptLoop does with a new socket; it ends when the server is closed. *)
Definition accept (s : Server) : Server :=
  if closed s then s
  else if canAccept s
  then mkServer ({[fresh (conns s)]} ∪ conns s) (activeConns s + 1) (closed s) (turned_away s)
  else mkServer (conns s) (activeConns s) (closed s) (turned_away s + 1).

(** The goroutine of a connection ends, once. *)
Definition removeConn (s : Server) (c : N) : Server :=
  if decide (c ∈ conns s)
  then mkServer (conns s ∖ {[c]}) (activeConns s - 1) (closed s) (turned_away s) else s.

Definition Close (s : Server) : Server := mkServer (conns s) (activeConns s) true (turned_away s).

Inductive label := LAccept | LEnd (c : N) | LClose.
Definition step (s : Server) (l : label) : Server :=
  match l with LAccept => accept s | LEnd c => removeConn s c | LClose => Close s end.
Definition run (s : Server) (ls : list label) : Server := foldl step s ls.

(** ** Lemmas *)

Lemma hex_char_digit n : 0 <= n < 16 → hex_digit (hex_char n) = true.
Proof.
  intros Hn. assert (n ∈ seqZ 0 16) as Hin by (apply elem_of_seqZ; lia).
  assert (forallb (λ n, hex_digit (hex_char n)) (seqZ 0 16) = true) as Hall by reflexivity.
  rewrite forallb_forall in Hall. apply Hall. by apply list_elem_of_In.
Qed.

Lemma EncodeToString_hex b : Forall (λ x, 0 <= x < 256) b →
  isValidHex (EncodeToString b) = true ∧ String.length (EncodeToString b) = (2 * length b)%nat.
Proof.
  induction 1 as [|x b Hx Hb [IH1 IH2]]; [done|]. unfold isValidHex in *.
  cbn [EncodeToString list_ascii_of_string forallb String.length length].
  rewrite !hex_char_digit, IH1, IH2; [split; [done|lia]| |].
  - apply Z.mod_pos_bound. lia.
  - split; [apply Z.div_pos; lia|]. apply Z.div_lt_upper_bound; lia.
Qed.

Lemma ValidateToken_spec token expected :
  ValidateToken token expected = None ↔
  token = expected ∧ Z.of_nat (String.length token) = tokenLength ∧ isValidHex token = true.
Proof.
  unfold ValidateToken, tokenLength. destruct (String.eqb_spec token "") as [->|].
  { split; [done|]. by intros (_ & H & _). }
  destruct (Z.eqb_spec (Z.of_nat (String.length token)) 64); simpl; [|split; [done|naive_solver]].
  destruct (isValidHex token); simpl; [|split; [done|naive_solver]].
  destruct (String.eqb_spec token expected); simpl; naive_solver.
Qed.

Lemma strip_prefix_trans s p q t : Str.strip_prefix s (p +:+ q) = Some t → Str.HasPrefix s p = true.
Proof.
  intros ->%Str.strip_prefix_Some. rewrite Str.app_assoc_str. apply Str.HasPrefix_app.
Qed.

(** ** Properties *)

(** A fresh token of 32 random bytes is valid for itself and for no other, while
    it has not expired; only a token equal to the expected one, of 64 hexadecimal
    digits, is ever valid. And a process that gets a token in its environment
    reads back this token, whatever variables were there; the variables whose
    text does not start with the token's name all stay. *)
Theorem token_roundtrip random other token env now :
  length random = 32%nat → Forall (λ x, 0 <= x < 256) random → token ≠ ""%string →
  ValidateToken (GenerateToken random) other = (if String.eqb (GenerateToken random) other then None else Some ErrTokenInvalid) ∧
  (∀ t e, ValidateTokenWithExpiry (Some (mkToken t e)) (GenerateToken random) now = None ↔
     t = GenerateToken random ∧ now <= e) ∧
  GetTokenFromEnv (InjectTokenIntoProcessEnv token env) = Ok token ∧
  (∀ e, e ∈ env → Str.HasPrefix e tokenEnvVar = false → e ∈ InjectTokenIntoProcessEnv token env).
Proof.
  intros Hlen Hb Ht. destruct (EncodeToString_hex random Hb) as [Hhex Hl]. rewrite Hlen in Hl.
  assert (∀ t, ValidateToken t (GenerateToken random) = None ↔ t = GenerateToken random) as Hself.
  { intros t. rewrite ValidateToken_spec. split; [tauto|]. intros ->. unfold GenerateToken, tokenLength.
    by rewrite Hl, Hhex. }
  split_and!.
  - destruct (String.eqb_spec (GenerateToken random) other) as [<-|Hne]; [by apply Hself|].
    unfold ValidateToken, GenerateToken in *. rewrite Hhex, Hl. apply String.eqb_neq in Hne as ->. simpl.
    destruct (String.eqb_spec (EncodeToString random) "") as [H0|]; [by rewrite H0 in Hl|done].
  - intros t e. unfold ValidateTokenWithExpiry. simpl. destruct (String.eqb_spec t "") as [->|].
    { split; [done|]. intros [H0 _]. unfold GenerateToken in H0. by rewrite <- H0 in Hl. }
    destruct (Z.ltb_spec e now); [split; [done|]; intros []; lia|]. rewrite Hself. split; [done|tauto].
  - unfold GetTokenFromEnv.
    assert (getenv tokenEnvVar (InjectTokenIntoProcessEnv token env) = token) as ->.
    { induction env as [|e env IH]; cbn [InjectTokenIntoProcessEnv].
      - cbn [getenv]. change (tokenEnvVar +:+ "=" +:+ token) with ((tokenEnvVar +:+ "=") +:+ token).
        by rewrite Str.strip_prefix_app.
      - destruct (Str.HasPrefix e tokenEnvVar) eqn:He; cbn [getenv].
        + change (tokenEnvVar +:+ "=" +:+ token) with ((tokenEnvVar +:+ "=") +:+ token).
          by rewrite Str.strip_prefix_app.
        + destruct (Str.strip_prefix e (tokenEnvVar +:+ "=")) as [v|] eqn:Hv; [|exact IH].
          apply strip_prefix_trans in Hv. congruence. }
    apply String.eqb_neq in Ht as ->. done.
  - induction env as [|e0 env IH]; intros e; [by intros ?%elem_of_nil|]. cbn [InjectTokenIntoProcessEnv].
    intros [<-|He]%elem_of_cons Hp.
    + rewrite Hp. apply list_elem_of_here.
    + destruct (Str.HasPrefix e0 tokenEnvVar); apply list_elem_of_further; [done|by apply IH].
Qed.

(** What serveConn answers. A connection that sends values and then ends gets
    one answer per value, in order, and is done. But a read that fails once, be
    it after garbage or after thirty seconds of silence, is repeated by the
    decoder for ever: the loop sends one error after the other, without reading
    again, until the server is closed. *)
Theorem serveConn_storms ms err rest n :
  (∀ k, serveConn (S (length ms) + k) false (mkDecoder None ((Value_ <$> ms) ++ Eof :: rest)) [] =
          (mkDecoder (Some IsEof) rest, handleMessage <$> ms, false)) ∧
  (∀ i, i = Broken err ∨ i = ReadFails err →
     serveConn (length ms + n) false (mkDecoder None ((Value_ <$> ms) ++ i :: rest)) [] =
       (if (n =? 0)%nat then mkDecoder None (i :: rest) else mkDecoder (Some (Other err)) rest,
        (handleMessage <$> ms) ++ replicate n (NewErrorResponse None (-32700) err), true)) ∧
  (∀ d sent, serveConn (S n) true d sent = (d, sent, false)).
Proof.
  assert (∀ ms k i rest sent,
    serveConn (length ms + k) false (mkDecoder None ((Value_ <$> ms) ++ i :: rest)) sent =
    serveConn k false (mkDecoder None (i :: rest)) (sent ++ (handleMessage <$> ms))) as Hvals.
  { clear. induction ms as [|m ms IH]; intros k i rest sent; [by rewrite app_nil_r|].
    cbn [length Nat.add fmap list_fmap app serveConn serve_round Decode failed incoming].
    rewrite IH. by rewrite <- (assoc_L (++)). }
  assert (∀ n rest sent, serveConn n false (mkDecoder (Some (Other err)) rest) sent =
    (mkDecoder (Some (Other err)) rest, sent ++ replicate n (NewErrorResponse None (-32700) err), true)) as Hstorm.
  { clear. induction n as [|n IH]; intros rest sent; [by rewrite app_nil_r|].
    cbn [serveConn serve_round Decode failed replicate]. rewrite IH. by rewrite <- (assoc_L (++)). }
  split_and!; [| |done].
  - intros k. replace (S (length ms) + k)%nat with (length ms + S k)%nat by lia. by rewrite Hvals.
  - intros i Hi. rewrite Hvals. destruct n as [|n]; [by rewrite app_nil_r|].
    destruct Hi as [->| ->]; cbn [serveConn serve_round Decode failed incoming Nat.eqb replicate app];
      rewrite Hstorm; by rewrite <- (assoc_L (++)).
Qed.

(** The invariant of the server. *)
Definition server_ok (s : Server) : Prop :=
  activeConns s = Z.of_nat (size (conns s)) ∧ activeConns s <= MaxConnections.

Lemma ipc_step_ok s l : server_ok s → server_ok (step s l).
Proof.
  intros [Ha Hm]. destruct l as [|c|]; simpl; [| |done].
  - unfold accept. destruct (closed s); [done|]. unfold canAccept, MaxConnections in *.
    destruct (Z.ltb_spec (activeConns s) 1000); [|done]. split; simpl; [|unfold MaxConnections; lia].
    rewrite size_union, size_singleton; [lia|]. apply disjoint_singleton_l, is_fresh.
  - unfold removeConn. case_decide as Hc; [|done]. split; simpl; [|lia].
    rewrite size_difference, size_singleton by set_solver.
    assert (size (conns s) ≠ 0%nat) by (apply size_non_empty_iff; set_solver). lia.
Qed.

(** Whatever connects and disconnects in any order: the counter is the number of
    tracked connections, at most a thousand; a socket beyond the limit is turned
    away without disturbing the others; a closed server accepts nothing more. *)
Theorem connection_limit ls :
  let s := run NewServer ls in
  server_ok s ∧
  (activeConns s = MaxConnections → closed s = false →
     accept s = mkServer (conns s) (activeConns s) false (turned_away s + 1)) ∧
  (∀ ls', closed s = true → conns (run s ls') ⊆ conns s ∧ closed (run s ls') = true).
Proof.
  assert (∀ ls s, server_ok s → server_ok (run s ls)) as Hrun.
  { clear. induction ls as [|l ls IH]; intros s Hs; [done|]. by apply IH, ipc_step_ok. }
  intros s. split_and!.
  - by apply Hrun.
  - intros Hm Hc. unfold accept, canAccept. by rewrite Hc, Hm.
  - generalize s. clear. intros s ls'. revert s. induction ls' as [|l ls IH]; intros s Hc; [done|].
    cbn [run foldl]. assert (closed (step s l) = true ∧ conns (step s l) ⊆ conns s) as [Hc' Hs].
    { destruct l as [|c|]; simpl; [unfold accept; by rewrite Hc| |done].
      unfold removeConn. case_decide; simpl; [split; [done|set_solver]|done]. }
    destruct (IH _ Hc') as [H1 H2]. split; [|exact H2]. etrans; [exact H1|exact Hs].
Qed.

(** [r] answers a message with id [id]: with a result when [P], else with an
    error. *)
Definition answers (id : option string) (P : Prop) (r : JSONRPCResponse) : Prop :=
  r_ID r = id ∧ (is_Some (Result r) ↔ P) ∧ (r_Error r = None ↔ P).

Lemma answers_error id (P : Prop) code msg : ¬ P → answers id P (NewErrorResponse id code msg).
Proof. intros HP. split_and!; [done| |]; simpl; (split; [by intros [? ?] || done|done]). Qed.
Lemma answers_ok id (P : Prop) r : P → answers id P (NewResponse id r).
Proof. intros HP. split_and!; [done| |]; simpl; by (split; eauto). Qed.

#[local] Instance answers_proper id : Proper (iff ==> eq ==> iff) (answers id).
Proof. intros P Q HPQ r ? <-. unfold answers. tauto. Qed.

Lemma validateToken_spec authToken token :
  validateToken authToken token = None ↔ token ≠ ""%string ∧ (authToken = ""%string ∨ token = authToken).
Proof.
  unfold validateToken. destruct (String.eqb_spec token "") as [->|]; [naive_solver|].
  destruct (String.eqb_spec authToken ""), (String.eqb_spec token authToken); simpl; naive_solver.
Qed.

(** No accepting case is possible. *)
#[local] Ltac refute := let H := fresh in intros H; decompose [ex and or] H; simplify_eq; congruence.

Lemma handleStateChange_spec dec authToken msg :
  answers (ID msg) (∃ p token x, Params msg = Some p ∧ dec p = Ok (token, x) ∧
    validateToken authToken token = None ∧ x ∈ validStates) (handleStateChange dec authToken msg).
Proof.
  unfold handleStateChange. destruct (Params msg) as [p|]; [|apply answers_error; refute].
  destruct (dec p) as [[token x]|err] eqn:Ep; [|apply answers_error; refute].
  destruct (validateToken authToken token) eqn:Ht; [apply answers_error; refute|].
  destruct (String.eqb_spec x "") as [->|].
  { apply answers_error. intros (p' & ? & ? & [= <-] & He & _ & Hx). rewrite Ep in He. injection He as <- <-.
    by apply (bool_decide_eq_true_2 _) in Hx. }
  case_bool_decide; [apply answers_ok; eauto 10|apply answers_error; refute].
Qed.

Lemma handleOOBUI_spec dec authToken msg :
  answers (ID msg) (∃ p token x, Params msg = Some p ∧ dec p = Ok (token, x) ∧
    validateToken authToken token = None ∧ x ∈ validOOBComponents ∧
    Z.of_nat (String.length p) <= MaxOOBPayloadSize) (handleOOBUI dec authToken msg).
Proof.
  unfold handleOOBUI. destruct (Params msg) as [p|]; [|apply answers_error; refute].
  destruct (dec p) as [[token x]|err] eqn:Ep; [|apply answers_error; refute].
  destruct (validateToken authToken token) eqn:Ht; [apply answers_error; refute|].
  destruct (String.eqb_spec x "") as [->|].
  { apply answers_error. intros (p' & ? & ? & [= <-] & He & _ & Hx & _). rewrite Ep in He. injection He as <- <-.
    by apply (bool_decide_eq_true_2 _) in Hx. }
  case_bool_decide; [|apply answers_error; refute]. cbn [negb].
  destruct (Z.ltb_spec MaxOOBPayloadSize (Z.of_nat (String.length p)));
    [apply answers_error; intros (? & ? & ? & [= <-] & ?); lia|apply answers_ok; eauto 12].
Qed.

(** A call of the protocol succeeds exactly when it is a version 2.0 message of a
    known method whose parameters decode to an accepted token and a known state
    (or a known component, in at most one megabyte of parameters). Every answer
    carries the id of its message and either a result or an error. If the
    dispatcher has no token, every token but the empty one is accepted. *)
Theorem Dispatch_spec (as_state as_ui : string → result string (string * string)) authToken msg :
  answers (ID msg)
    (JSONRPC msg = "2.0"%string ∧ ∃ p token x, Params msg = Some p ∧
       (token ≠ ""%string ∧ (authToken = ""%string ∨ token = authToken)) ∧
       (Method msg = "daao.stateChange"%string ∧ as_state p = Ok (token, x) ∧ x ∈ validStates ∨
        Method msg = "daao.oobUI"%string ∧ as_ui p = Ok (token, x) ∧ x ∈ validOOBComponents ∧
        Z.of_nat (String.length p) <= MaxOOBPayloadSize))
    (Dispatch as_state as_ui authToken msg).
Proof.
  setoid_rewrite <- validateToken_spec. unfold Dispatch.
  destruct (String.eqb_spec (JSONRPC msg) "2.0") as [Hj|]; [|apply answers_error; refute].
  destruct (String.eqb_spec (Method msg) "") as [Hm|]; [apply answers_error; refute|].
  cbn [negb]. destruct (String.eqb_spec (Method msg) "daao.stateChange") as [Hm|].
  { eapply answers_proper; [|reflexivity|apply handleStateChange_spec]. rewrite Hm. split; intros H;
      decompose [ex and or] H; eauto 12; congruence. }
  destruct (String.eqb_spec (Method msg) "daao.oobUI") as [Hm|]; [|apply answers_error; refute].
  eapply answers_proper; [|reflexivity|apply handleOOBUI_spec]. rewrite Hm. split; intros H;
    decompose [ex and or] H; eauto 15; congruence.
Qed.

(** ** Examples *)

Example token_roundtrip_witness :
  GetTokenFromEnv (InjectTokenIntoProcessEnv "t" ["HOME=/"; "DAAO_IPC_TOKEN_FILE=x"; "A=b"]) = Ok "t"%string ∧
  ValidateToken (GenerateToken (replicate 32 7)) "x" = Some ErrTokenInvalid.
Proof.
  destruct (token_roundtrip (replicate 32 7) "x" "t" ["HOME=/"; "DAAO_IPC_TOKEN_FILE=x"; "A=b"] 0)
    as (H1 & _ & H2 & _); [done|by apply Forall_replicate|done|].
  split; [exact H2|]. rewrite H1. reflexivity.
Defined.

(** The variable that is lost. *)
Example InjectTokenIntoProcessEnv_1 :
  InjectTokenIntoProcessEnv "t" ["HOME=/"; "DAAO_IPC_TOKEN_FILE=x"; "A=b"] = ["HOME=/"; "DAAO_IPC_TOKEN=t"; "A=b"].
Proof. reflexivity. Qed.
End Ipc.
