(* ===== verification/Terminal.v ===== *)
(** * internal/transport/websocket.go: terminals in the browser

    A browser opens a WebSocket for a session, authenticates with its first
    message, gets the scrollback and then, every twenty milliseconds, what the
    ring buffer has gained; what it sends goes to the satellite. Also the list
    of sessions that is pushed to a browser, and internal/transport/cors. *)
From Stdlib Require Import Ascii.
From S2P Require Import Prelude GoStrings RingBuffer SessionState SessionStore Channels Streams Auth Protocol SessionApi.
Import Session Store Proto Chan.
#[local] Open Scope Z_scope.

Module Terminal.
Import SessionApi.

(** ** cors.CheckOrigin *)

(** [allowed] and [backward] are DAAO_ALLOWED_ORIGINS and DAAO_CORS_ORIGINS. *)
Definition CheckOrigin (allowed backward origin host : string) : bool :=
  if String.eqb origin "" then true else
  let allowedOrigins := if String.eqb allowed "" then backward else allowed in
  if negb (String.eqb allowedOrigins "")
  then existsb (λ a, String.eqb (Str.TrimSpace a) origin) (Str.Split allowedOrigins ",")
  else match Str.Cut origin "://" with
       | Some (_, rest) =>
           String.eqb (default "" (head (Str.Split rest ":"))) (default "" (head (Str.Split host ":")))
       | None => false
       end.

(** ** Messages *)

(** What the server writes to the socket. *)
Inductive frame :=
  | AuthOk | AuthError (message : string) | Close (code : Z) (text : string)
  | Binary (data : list Z) | Terminated | Pong | SessionUpdate (l : list Session).

(** Which dependencies are set, and the configuration. *)
Record Config := mkConfig {
  deps : Handlers;                               (* store, registry, buffer pool *)
  jwtValidator : option JWT.JWTTokenValidator;
  oidcEnabled : bool;
}.

Section Terminal.
Variable uuid_Parse : string → option N.
Variable arrange : list Session → list Session.
Variable ParseWithClaims : string → (JWT.SigningMethod → option string) → string → Z →
  result JWT.lib_error JWT.UserClaims.
(** json.Unmarshal into the structs of the code: the fields type and token, the
    field type, and the fields type, cols and rows as int32. *)
Variable as_auth : list Z → option (string * string).
Variable as_type : list Z → option string.
Variable as_resize : list Z → option (string * Z * Z).

Definition error_text (e : JWT.auth_error) : string :=
  match e with
  | JWT.ErrTokenExpired => "token has expired"
  | JWT.ErrTokenInvalid => "invalid token"
  end.

(** [first]: the first message, [None] if none comes within five seconds or the
    read fails. The result: what is written, whether the client may go on, the
    message to process, and whether the connection can still be read (a failed
    read is permanent). *)
Definition authenticateWebSocket (c : Config) (first : option (list Z)) (now : Z)
    : list frame * bool * list Z * bool :=
  match first with
  | None =>
      if oidcEnabled c then ([AuthError "auth timeout"; Close 4401 "authentication required"], false, [], false)
      else ([], true, [], false)
  | Some msg =>
      match as_auth msg with
      | Some (ty, token) =>
          if String.eqb ty "auth" then
            match jwtValidator c with
            | None => ([AuthOk], true, [], true)
            | Some v =>
                match JWT.Validate ParseWithClaims v token now with
                | Err e => ([AuthError (error_text e); Close 4401 "invalid token"], false, [], true)
                | Ok _ => ([AuthOk], true, [], true)
                end
            end
          else if negb (oidcEnabled c) then ([], true, msg, true)
          else ([AuthError "authentication required"; Close 4401 "authentication required"], false, [], true)
      | None =>
          if negb (oidcEnabled c) then ([], true, msg, true)
          else ([AuthError "authentication required"; Close 4401 "authentication required"], false, [], true)
      end
  end.

(** The result of SendToSession is ignored. *)
Definition send_to_session (w : World) (sessionID : string) (msg : NexusMessage) : go World :=
  '(o, _) ← Registry.SendToSession (registry w) (outbox w) sessionID msg;
  Ret (set_outbox w o).

Definition processTerminalMessage (c : Config) (w : World) (sessionID : string) (msg : list Z)
    : go (World * list frame) :=
  if negb (streamRegistry (deps c)) || (length msg =? 0)%nat then Ret (w, []) else
  if bool_decide (as_type msg = Some "ping"%string) then Ret (w, [Pong]) else
  match as_resize msg with
  | Some (ty, cols, rows) =>
      if String.eqb ty "resize" && (0 <? cols) && (0 <? rows)
      then w' ← send_to_session w sessionID (ResizeCommand sessionID cols rows 0 0); Ret (w', [])
      else w' ← send_to_session w sessionID (TerminalInput sessionID msg 0); Ret (w', [])
  | None => w' ← send_to_session w sessionID (TerminalInput sessionID msg 0); Ret (w', [])
  end.

(** ** A client *)

(** The local variables of HandleTerminalStream: the buffer by reference, how
    much of it the client has, what was written; whether the connection is open
    and can be read. *)
Record Client := mkClient {
  c_session : string; c_id : N;
  rb : option N; lastLen : Z;
  written : list frame; alive : bool; readable : bool;
}.
Definition write_frames (x : Client) (l : list frame) : Client :=
  mkClient (c_session x) (c_id x) (rb x) (lastLen x) (written x ++ l) (alive x) (readable x).
Definition end_client (x : Client) : Client :=
  mkClient (c_session x) (c_id x) (rb x) (lastLen x) (written x) false (readable x).
Definition set_rb (x : Client) (r : option N) : Client :=
  mkClient (c_session x) (c_id x) r (lastLen x) (written x) (alive x) (readable x).
Definition set_last (x : Client) (n : Z) : Client :=
  mkClient (c_session x) (c_id x) (rb x) n (written x) (alive x) (readable x).

(** A binary message; the connection ends if the write fails. *)
Definition send_bytes (x : Client) (data : list Z) (n : Z) (ok : bool) : Client :=
  if ok then set_last (write_frames x [Binary data]) n else end_client x.

(** Up to the loop. [ok]: the write of the scrollback succeeds; [f]: the SELECT
    fails. *)
Definition HandleTerminalStream (c : Config) (w : World) (sessionID : string) (first : option (list Z))
    (now : Z) (f ok : bool) : go (World * Client) :=
  let x0 := mkClient sessionID 0 None 0 [] true true in
  if oidcEnabled c && negb (bool_decide (is_Some (jwtValidator c)))
  then Ret (w, end_client (write_frames x0
              [AuthError "server configuration error"; Close 4401 "authentication required"]))
  else
  let '(out, authOK, firstMsg, canRead) := authenticateWebSocket c first now in
  let x1 := mkClient sessionID 0 None 0 out true canRead in
  if negb authOK then Ret (w, end_client x1) else
  '(w1, out1) ← (if (0 <? length firstMsg)%nat && streamRegistry (deps c)
                 then processTerminalMessage c w sessionID firstMsg else Ret (w, []));
  let x2 := write_frames x1 out1 in
  match uuid_Parse sessionID with
  | None => Ret (w1, end_client (write_frames x2 [Close 1000 "invalid session ID"]))
  | Some id =>
      let x3 := mkClient sessionID id None 0 (written x2) true canRead in
      let refused :=
        if sessionStore (deps c) then
          match GetSession (db w1) id f with
          | Err _ => Some (Close 1000 "session not found")
          | Ok sess => if String.eqb (State sess) StateTerminated then Some Terminated else None
          end
        else None in
      match refused with
      | Some m => Ret (w1, end_client (write_frames x3 [m]))
      | None =>
          let x4 := set_rb x3 (if ringBufferPool (deps c) then Pool.GetBuffer (pool w1) sessionID else None) in
          match rb x4 ≫= λ r, Pool.store (pool w1) !! r with
          | None => Ret (w1, x4)
          | Some b =>
              '(snapshot, sLen) ← Ring.SnapshotWithLen b;
              Ret (w1, if 0 <? sLen then send_bytes x4 snapshot sLen ok else x4)
          end
      end
  end.

(** The tick every 20 ms. *)
Definition tick (c : Config) (w : World) (x : Client) (ok : bool) : go Client :=
  match rb x with
  | None =>
      Ret (if ringBufferPool (deps c) && Pool.HasBuffer (pool w) (c_session x)
           then set_rb x (Pool.GetBuffer (pool w) (c_session x)) else x)
  | Some r =>
      match Pool.store (pool w) !! r with
      | None => Ret x
      | Some b =>
          '(snapshot, sLen) ← Ring.SnapshotWithLen b;
          if sLen =? lastLen x then Ret x else
          toSend ← (if lastLen x <? sLen then slice snapshot (lastLen x) (Z.of_nat (length snapshot))
                    else Ret snapshot);
          Ret (if (0 <? length toSend)%nat then send_bytes x toSend sLen ok else x)
      end
  end.

(** The tick every two seconds. *)
Definition state_tick (c : Config) (w : World) (x : Client) (f : bool) : Client :=
  if negb (sessionStore (deps c)) then x else
  match GetSession (db w) (c_id x) f with
  | Err _ => end_client (write_frames x [Terminated])
  | Ok sess =>
      if String.eqb (State sess) StateTerminated then end_client (write_frames x [Terminated]) else x
  end.

(** A message of the browser. *)
Definition on_message (c : Config) (w : World) (x : Client) (msg : list Z) : go (World * Client) :=
  if negb (readable x) then Ret (w, x) else
  '(w', out) ← processTerminalMessage c w (c_session x) msg;
  Ret (w', write_frames x out).

(** ** The list of sessions *)

(** What one update sends; [f] is what the query meets. The query is that of
    [ListActiveSessions]: nobody's sessions are left out. *)
Definition sendSessionUpdate (c : Config) (w : World) (f : query_fault) : frame :=
  SessionUpdate (if sessionStore (deps c)
                 then match ListActiveSessions arrange (db w) f with Ok l => l | Err _ => [] end
                 else []).

Definition HandleSessionStream (c : Config) (w : World) (first : option (list Z)) (now : Z)
    (f : query_fault) : list frame * bool :=
  if oidcEnabled c && negb (bool_decide (is_Some (jwtValidator c)))
  then ([AuthError "server configuration error"; Close 4401 "authentication required"], false)
  else
  let '(out, authOK, _, _) := authenticateWebSocket c first now in
  if negb authOK then (out, false) else (out ++ [sendSessionUpdate c w f], true).

(** ** Streaming *)

(** The process prints (the gateway writes to the buffer of the session, which
    it makes if there is none), or the client's ticker fires. *)
Inductive event := Output (data : list Z) | Poll.

Definition stream_step (c : Config) (st : World * Client) (ev : event) : go (World * Client) :=
  let '(w, x) := st in
  match ev with
  | Output data =>
      let '(p, r) := Pool.GetOrCreateBuffer (pool w) (c_session x) in
      p' ← Pool.buffer_write p r data; Ret (set_pool w p', x)
  | Poll => x' ← tick c w x true; Ret (w, x')
  end.

Fixpoint stream (c : Config) (st : World * Client) (evs : list event) : go (World * Client) :=
  match evs with
  | [] => Ret st
  | ev :: evs' => st' ← stream_step c st ev; stream c st' evs'
  end.

(** The bytes a client got, and those that were printed. *)
Definition payload (m : frame) : list Z := match m with Binary d => d | _ => [] end.
Definition received (x : Client) : list Z := concat (payload <$> written x).
Definition printed (ev : event) : list Z := match ev with Output d => d | Poll => [] end.

(** The buffer of the session. *)
Definition buffer_of (w : World) (sid : string) : option Ring.RingBuffer :=
  Pool.buffers (pool w) !! sid ≫= λ r, Pool.store (pool w) !! r.
Definition scrollback (w : World) (sid : string) : list Z :=
  match buffer_of w sid with Some b => Ring.contents b | None => [] end.
Definition capacity_of (w : World) (sid : string) : Z :=
  match buffer_of w sid with Some b => Ring.cap b | None => Ring.DefaultCapacity end.

(** The client has a prefix of the scrollback, from the buffer of its session. *)
Record in_sync (w : World) (x : Client) : Prop := mk_in_sync {
  y_pool : Pool.pool_ok (pool w);
  y_alive : alive x = true;
  y_len : lastLen x = Z.of_nat (length (received x));
  y_prefix : received x `prefix_of` scrollback w (c_session x);
  y_rb : ∀ r, rb x = Some r → Pool.buffers (pool w) !! c_session x = Some r;
}.

Lemma contents_length b : Ring.ring_wf b → Z.of_nat (length (Ring.contents b)) = Ring.len b.
Proof. intros [_ _ Hl]. unfold Ring.contents. len_lia. Qed.

Lemma SnapshotWithLen_contents b :
  Ring.ring_wf b → Ring.SnapshotWithLen b = Ret (Ring.contents b, Ring.len b).
Proof.
  intros Hwf. unfold Ring.SnapshotWithLen. destruct (Z.eqb_spec (Ring.len b) 0) as [H0|].
  - pose proof (contents_length b Hwf). destruct (Ring.contents b); [by rewrite H0|simpl in *; lia].
  - by rewrite Ring.Snapshot_contents.
Qed.

Lemma buffer_of_wf w sid b : Pool.pool_ok (pool w) → buffer_of w sid = Some b → Ring.ring_wf b.
Proof. intros Hp (r & _ & Hr)%bind_Some. by eapply Pool.pool_wf. Qed.

Lemma received_write x d n : received (set_last (write_frames x [Binary d]) n) = received x ++ d.
Proof. unfold received. simpl. rewrite fmap_app, concat_app. simpl. by rewrite app_nil_r. Qed.

(** A tick brings a client that has the buffer up to date. *)
Lemma tick_sync c w x :
  ringBufferPool (deps c) = true → in_sync w x →
  ∃ x', tick c w x true = Ret x' ∧ in_sync w x' ∧ c_session x' = c_session x ∧
    (is_Some (rb x) → received x' = scrollback w (c_session x)) ∧
    (is_Some (buffer_of w (c_session x)) → is_Some (rb x')) ∧
    (is_Some (rb x) → is_Some (rb x')).
Proof.
  intros Hpool Hs. pose proof Hs as [Hp Ha Hl Hpre Hrb]. unfold tick. destruct (rb x) as [r|] eqn:Er.
  - specialize (Hrb r eq_refl). destruct (Pool.pool_alloc _ Hp _ _ Hrb) as [b Hb]. rewrite Hb.
    assert (buffer_of w (c_session x) = Some b) as Hbuf by (unfold buffer_of; by rewrite Hrb).
    pose proof (Pool.pool_wf _ Hp r b Hb) as Hwf.
    assert (scrollback w (c_session x) = Ring.contents b) as Hsc by (unfold scrollback; by rewrite Hbuf).
    rewrite Hsc in Hpre. destruct Hpre as [k Hk].
    pose proof (contents_length b Hwf) as Hlen. rewrite Hk, length_app in Hlen.
    rewrite SnapshotWithLen_contents by done. cbn [mbind go_bind].
    destruct (Z.eqb_spec (Ring.len b) (lastLen x)) as [He|Hne].
    { exists x. split; [done|]. split; [done|]. split; [done|]. split; [|by rewrite Er; eauto].
      intros _. rewrite Hsc, Hk. destruct k; [by rewrite app_nil_r|]. simpl in Hlen. lia. }
    destruct (Z.ltb_spec (lastLen x) (Ring.len b)) as [Hlt|]; [|lia].
    assert (slice (Ring.contents b) (lastLen x) (Z.of_nat (length (Ring.contents b))) = Ret k) as ->.
    { rewrite Hl, Hk. unfold slice. rewrite !length_app.
      replace ((0 <=? Z.of_nat (length (received x))) && _ && _) with true by (symmetry; rewrite !andb_true_iff, !Z.leb_le; lia).
      f_equal. rewrite Nat2Z.id, drop_app_length. apply take_ge. lia. }
    cbn [mbind go_bind]. destruct k as [|y k]; [simpl in Hlen; lia|]. cbn [length Nat.ltb Nat.leb].
    unfold send_bytes. eexists. split; [done|]. rewrite received_write. simpl.
    split; [|split; [done|split; [by intros _; rewrite Hsc, Hk|by rewrite Er; eauto]]].
    split; try done; rewrite ?received_write; simpl.
    + rewrite length_app in *. simpl in *. lia.
    + rewrite Hsc, Hk. done.
    + by rewrite Er; intros ? [= <-].
  - rewrite Hpool. simpl. unfold Pool.HasBuffer, Pool.GetBuffer.
    destruct (Pool.buffers (pool w) !! c_session x) as [r|] eqn:Hr.
    + rewrite bool_decide_true by eauto. eexists. split; [done|]. split; [|split; [done|split; [by intros []|by eauto]]].
      split; try done. simpl. by intros ? [= <-].
    + rewrite bool_decide_false by (by intros []). exists x. split; [done|]. split; [done|]. split; [done|].
      split; [by intros []; congruence|]. unfold buffer_of. rewrite Hr. split; [by intros []|by rewrite Er].
Qed.

(** Output that fits is appended to the scrollback; the client keeps up. *)
Lemma output_sync c w x d :
  in_sync w x →
  Z.of_nat (length (scrollback w (c_session x))) + Z.of_nat (length d) <= capacity_of w (c_session x) →
  ∃ w', stream_step c (w, x) (Output d) = Ret (w', x) ∧ in_sync w' x ∧
    scrollback w' (c_session x) = scrollback w (c_session x) ++ d ∧
    capacity_of w' (c_session x) = capacity_of w (c_session x) ∧
    is_Some (buffer_of w' (c_session x)).
Proof.
  intros Hs Hroom. pose proof Hs as [Hp Ha Hl Hpre Hrb]. cbn [stream_step].
  pose proof (Pool.GetOrCreateBuffer_ok (pool w) (c_session x) Hp) as Hg.
  destruct (Pool.GetOrCreateBuffer _ _) as [p r] eqn:Eg. destruct Hg as (Hp1 & Hr & Hkeep & _).
  destruct (Pool.pool_alloc _ Hp1 _ _ Hr) as [b Hb]. pose proof (Pool.pool_wf _ Hp1 r b Hb) as Hwf.
  assert (scrollback w (c_session x) = Ring.contents b ∧ capacity_of w (c_session x) = Ring.cap b) as [Hsc Hcap].
  { unfold scrollback, capacity_of, buffer_of. revert Eg. unfold Pool.GetOrCreateBuffer.
    destruct (Pool.buffers (pool w) !! c_session x) as [r0|] eqn:Hr0; intros [= <- <-]; simpl.
    - by rewrite Hb.
    - simpl in Hb. rewrite lookup_insert_eq in Hb. injection Hb as <-. by split. }
  rewrite Hsc, Hcap, contents_length in Hroom by done.
  destruct (Ring.write_bytes_room d b Hwf Hroom) as (b1 & Hw & Hwf1 & Hc1).
  destruct (Ring.write_bytes_total d b Hwf) as (b2 & Hw2 & _ & Hcap1 & _). rewrite Hw in Hw2. injection Hw2 as <-.
  destruct (Pool.buffer_write_ok p r d b Hp1 Hb) as (b' & Hw' & -> & Hp2). rewrite Hw in Hw'. injection Hw' as <-.
  cbn [mbind go_bind]. set (w1 := set_pool w _).
  assert (buffer_of w1 (c_session x) = Some b1) as Hbuf
    by (unfold buffer_of; simpl; rewrite Hr; simpl; apply lookup_insert_eq).
  assert (scrollback w1 (c_session x) = Ring.contents b ++ d ∧ capacity_of w1 (c_session x) = Ring.cap b) as [H1 H2]
    by (unfold scrollback, capacity_of; by rewrite Hbuf).
  exists w1. rewrite H1, H2, Hsc, Hcap. split; [done|]. split; [|by eauto]. split; try done.
  - rewrite H1. rewrite Hsc in Hpre. by apply prefix_app_r.
  - intros r0 Hr0. simpl. specialize (Hrb r0 Hr0). by destruct (Hkeep _ _ Hrb).
Qed.

Lemma stream_sync c evs : ∀ w x,
  ringBufferPool (deps c) = true → in_sync w x →
  Z.of_nat (length (scrollback w (c_session x))) + Z.of_nat (length (concat (printed <$> evs)))
    <= capacity_of w (c_session x) →
  ∃ w' x', stream c (w, x) evs = Ret (w', x') ∧ in_sync w' x' ∧ c_session x' = c_session x ∧
    scrollback w' (c_session x) = scrollback w (c_session x) ++ concat (printed <$> evs).
Proof.
  induction evs as [|ev evs IH]; intros w x Hpool Hs Hroom.
  { exists w, x. by rewrite app_nil_r. }
  cbn [fmap list_fmap concat] in *. rewrite length_app in Hroom. destruct ev as [d|]; cbn [stream].
  - destruct (output_sync c w x d Hs) as (w1 & -> & Hs1 & Hsc & Hcap & _); [simpl in *; lia|].
    cbn [mbind go_bind]. destruct (IH w1 x Hpool Hs1) as (w' & x' & Hr & Hs' & Hid & Hsc').
    { rewrite Hsc, Hcap, length_app. simpl in *. lia. }
    exists w', x'. split_and!; try done. by rewrite Hsc', Hsc, <- (assoc_L (++)).
  - cbn [stream_step]. destruct (tick_sync c w x Hpool Hs) as (x1 & -> & Hs1 & Hid & _).
    cbn [mbind go_bind]. destruct (IH w x1 Hpool Hs1) as (w' & x' & Hr & Hs' & Hid' & Hsc').
    { rewrite Hid. simpl in *. lia. }
    exists w', x'. split_and!; try done; [congruence|]. by rewrite <- Hid, Hsc'.
Qed.

Lemma stream_app c evs1 evs2 : ∀ st,
  stream c st (evs1 ++ evs2) = st' ← stream c st evs1; stream c st' evs2.
Proof.
  induction evs1 as [|ev evs1 IH]; intros st; [done|]. cbn [stream app].
  destruct (stream_step c st ev) as [st1|]; cbn [mbind go_bind]; [apply IH|done].
Qed.

Lemma fresh_sync w x :
  Pool.pool_ok (pool w) → alive x = true → lastLen x = 0 → received x = [] →
  (∀ r, rb x = Some r → Pool.buffers (pool w) !! c_session x = Some r) → in_sync w x.
Proof. intros ? ? ? Hr ?. split; try done; rewrite Hr; [done|apply prefix_nil]. Qed.

(** A client that is let in has the scrollback of that moment, or none. *)
Lemma open_sync c w sid first now f w1 x :
  Pool.pool_ok (pool w) →
  HandleTerminalStream c w sid first now f true = Ret (w1, x) → alive x = true →
  in_sync w1 x ∧ c_session x = sid.
Proof.
  intros Hp. unfold HandleTerminalStream.
  destruct (_ && _); [by intros [= <- <-]|].
  destruct (authenticateWebSocket c first now) as [[[out ok] msg] rd] eqn:Hau.
  assert (∀ m, m ∈ out → payload m = []) as Hout.
  { revert Hau. unfold authenticateWebSocket. intros Hau m. repeat case_match; simplify_eq; set_solver. }
  destruct (negb ok); [by intros [= <- <-]|].
  set (m := if _ && _ then _ else _).
  assert (∀ w2 o, m = Ret (w2, o) → pool w2 = pool w ∧ ∀ y, y ∈ o → payload y = []) as Hm.
  { unfold m, processTerminalMessage, send_to_session. intros w2 o.
    destruct (_ && _); [|intros [= <- <-]; set_solver].
    repeat case_match; try (intros [= <- <-]; set_solver);
      (destruct (Registry.SendToSession _ _ _ _) as [[o' b]|]; cbn [mbind go_bind]; [|done]; intros [= <- <-]; set_solver). }
  destruct m as [[w2 o]|]; cbn [mbind go_bind]; [|done]. destruct (Hm w2 o eq_refl) as [Hpool Ho]. clear Hm.
  destruct (uuid_Parse sid) as [id|]; [|by intros [= <- <-]].
  set (refused := if sessionStore (deps c) then _ else _). destruct refused; [by intros [= <- <-]|].
  assert (concat (payload <$> out ++ o) = []) as Hnil.
  { apply concat_nil_Forall, Forall_fmap, Forall_forall. intros y [Hy|Hy]%elem_of_app; simpl; auto. }
  cbn [rb set_rb written write_frames].
  destruct (ringBufferPool (deps c)) eqn:Hd; cbn [mbind option_bind].
  2:{ intros [= <- <-] _. split; [|done]. apply fresh_sync; by rewrite ?Hpool. }
  unfold Pool.GetBuffer. destruct (Pool.buffers (pool w2) !! sid) as [r|] eqn:Hr; cbn [mbind option_bind].
  2:{ intros [= <- <-] _. split; [|done]. apply fresh_sync; by rewrite ?Hpool. }
  rewrite Hpool in Hr. destruct (Pool.pool_alloc _ Hp _ _ Hr) as [b Hb]. rewrite Hpool, Hb.
  pose proof (Pool.pool_wf _ Hp r b Hb) as Hwf. pose proof (contents_length b Hwf) as Hlen.
  rewrite SnapshotWithLen_contents by done. cbn [mbind go_bind].
  assert (scrollback w2 sid = Ring.contents b) as Hsc
    by (unfold scrollback, buffer_of; rewrite Hpool, Hr; simpl; by rewrite Hb).
  destruct (Z.ltb_spec 0 (Ring.len b)) as [H0|H0]; intros [= <- <-] _; (split; [|done]).
  - assert (∀ y n, received (set_last (write_frames y [Binary (Ring.contents b)]) n) =
      received y ++ Ring.contents b) as Hw by (intros; apply received_write).
    unfold send_bytes. split; rewrite ?Hw; simpl; rewrite ?Hpool; try done.
    + unfold received. simpl. rewrite Hnil. simpl. lia.
    + unfold received. simpl. by rewrite Hnil, Hsc.
    + by intros ? [= <-].
  - apply fresh_sync; rewrite ?Hpool; try done. simpl. by intros ? [= <-].
Qed.

(** C8: What a client sees is what the process prints, until the scrollback is full:
    from the moment it is let in, the binary messages put together are, after
    two more ticks, the scrollback of that moment and everything printed since,
    each byte once and in order; nothing panics and the stream stays open. *)
Theorem terminal_stream c w sid first now f w1 x evs :
  ringBufferPool (deps c) = true → Pool.pool_ok (pool w) →
  HandleTerminalStream c w sid first now f true = Ret (w1, x) → alive x = true →
  Z.of_nat (length (scrollback w1 sid)) + Z.of_nat (length (concat (printed <$> evs))) <= capacity_of w1 sid →
  ∃ w' x', stream c (w1, x) (evs ++ [Poll; Poll]) = Ret (w', x') ∧ alive x' = true ∧
    received x' = scrollback w1 sid ++ concat (printed <$> evs).
Proof.
  intros Hpool Hp Ho Ha Hroom. destruct (open_sync c w sid first now f w1 x Hp Ho Ha) as [Hs <-].
  destruct (stream_sync c evs w1 x Hpool Hs Hroom) as (w' & x' & Hr & Hs' & Hid & Hsc).
  rewrite stream_app, Hr. cbn [mbind go_bind stream stream_step].
  destruct (tick_sync c w' x' Hpool Hs') as (x1 & -> & Hs1 & Hid1 & _ & Hbuf & _).
  cbn [mbind go_bind stream stream_step].
  destruct (tick_sync c w' x1 Hpool Hs1) as (x2 & -> & Hs2 & Hid2 & Hrec & _ & _).
  cbn [mbind go_bind stream stream_step].
  exists w', x2. split; [done|]. split; [apply Hs2|]. rewrite <- Hsc, <- Hid, <- Hid1.
  destruct (buffer_of w' (c_session x')) eqn:Hb.
  - apply Hrec, Hbuf. eauto.
  - pose proof (y_prefix _ _ Hs2) as Hpre. unfold scrollback in *. rewrite Hid2, Hid1 in Hpre.
    rewrite Hid1. rewrite Hb in *. by apply prefix_nil_inv in Hpre.
Qed.

(** A write to a full buffer leaves it full. *)
Lemma full_output c w x r b d :
  Pool.pool_ok (pool w) → Pool.buffers (pool w) !! c_session x = Some r → Pool.store (pool w) !! r = Some b →
  Ring.len b = Ring.cap b →
  ∃ w' b', stream_step c (w, x) (Output d) = Ret (w', x) ∧ Pool.pool_ok (pool w') ∧
    Pool.buffers (pool w') !! c_session x = Some r ∧ Pool.store (pool w') !! r = Some b' ∧
    Ring.len b' = Ring.len b ∧ Ring.cap b' = Ring.cap b.
Proof.
  intros Hp Hr Hb Hfull. cbn [stream_step]. unfold Pool.GetOrCreateBuffer. rewrite Hr.
  pose proof (Pool.pool_wf _ Hp r b Hb) as Hwf.
  destruct (Pool.buffer_write_ok (pool w) r d b Hp Hb) as (b' & Hw & -> & Hp').
  destruct (Ring.write_bytes_total d b Hwf) as (b2 & Hw2 & _ & Hc & Hl). rewrite Hw in Hw2. injection Hw2 as <-.
  cbn [mbind go_bind]. do 2 eexists. split; [done|]. simpl. split; [done|]. split; [done|].
  split; [apply lookup_insert_eq|]. split; [lia|done].
Qed.

(** A full scrollback freezes every terminal: a client that has seen the buffer
    full, which five megabytes of output achieve, never gets another byte,
    whatever the process prints from then on. The ticker compares lengths, and
    the length of a full buffer does not change. *)
Theorem terminal_freezes c evs : ∀ w x r b,
  Pool.pool_ok (pool w) → rb x = Some r → Pool.buffers (pool w) !! c_session x = Some r →
  Pool.store (pool w) !! r = Some b → Ring.len b = Ring.cap b → lastLen x = Ring.len b →
  ∃ w', stream c (w, x) evs = Ret (w', x).
Proof.
  induction evs as [|ev evs IH]; intros w x r b Hp Hrb Hr Hb Hfull Hl; cbn [stream]; [by exists w|].
  destruct ev as [d|].
  - destruct (full_output c w x r b d Hp Hr Hb Hfull) as (w1 & b1 & -> & Hp1 & Hr1 & Hb1 & Hl1 & Hc1).
    cbn [mbind go_bind]. apply (IH w1 x r b1); (done || congruence).
  - cbn [stream_step]. unfold tick. rewrite Hrb, Hb, SnapshotWithLen_contents by (by eapply Pool.pool_wf).
    cbn [mbind go_bind]. destruct (Z.eqb_spec (Ring.len b) (lastLen x)); [|lia].
    cbn [mbind go_bind]. by eapply IH.
Qed.

(** Who gets in. With OIDC, a client stays, and anything reaches the satellite,
    only if the first message is of type auth with a token that validates; but
    whose session it is does not matter. Without OIDC nobody has to
    authenticate, even if a validator is set: a first message that is not of
    type auth, of anyone, goes to the satellite as input at once, before the
    session is looked up. A client that stays silent for five seconds is let in
    too, but can say nothing any more. *)
Theorem terminal_auth c w sid first now f ok w1 x :
  HandleTerminalStream c w sid first now f ok = Ret (w1, x) →
  (oidcEnabled c = true → alive x = true ∨ outbox w1 ≠ outbox w →
     w1 = w ∧ ∃ v msg token claims, jwtValidator c = Some v ∧ first = Some msg ∧
       as_auth msg = Some ("auth"%string, token) ∧ JWT.Validate ParseWithClaims v token now = Ok claims) ∧
  (oidcEnabled c = false → ∀ msg ch, first = Some msg → msg ≠ [] → streamRegistry (deps c) = true →
     (∀ token, as_auth msg ≠ Some ("auth"%string, token)) → as_type msg = None → as_resize msg = None →
     Registry.sessionStreams (registry w) !! sid = Some (Some ch) → open (outbox w) ch →
     has_room (outbox w) ch = true →
     pending (outbox w1) ch = pending (outbox w) ch ++ [TerminalInput sid msg 0]) ∧
  (first = None → alive x = true → oidcEnabled c = false ∧ ∀ msg, on_message c w1 x msg = Ret (w1, x)).
Proof.
  intros H. split_and!.
  - intros Ho Hout. revert H. unfold HandleTerminalStream. rewrite Ho.
    destruct (jwtValidator c) as [v|] eqn:Hv.
    2:{ simpl. intros [= <- <-]. by destruct Hout as [?|[]]. }
    rewrite bool_decide_true by eauto. cbn [andb negb]. unfold authenticateWebSocket. rewrite Ho, Hv. cbn [negb].
    destruct first as [msg|]; [|intros [= <- <-]; by destruct Hout as [?|[]]].
    destruct (as_auth msg) as [[ty token]|] eqn:Hau; [|intros [= <- <-]; by destruct Hout as [?|[]]].
    destruct (String.eqb_spec ty "auth") as [->|]; [|intros [= <- <-]; by destruct Hout as [?|[]]].
    destruct (JWT.Validate _ _ _ _) as [claims|] eqn:Hval; [|intros [= <- <-]; by destruct Hout as [?|[]]].
    cbn [negb length Nat.ltb Nat.leb andb mbind go_bind].
    intros Heq. split; [|by exists v, msg, token, claims].
    revert Heq. repeat case_match; try (by intros [= <- _]);
      (destruct (Ring.SnapshotWithLen _) as [[]|]; cbn [mbind go_bind]; by intros [= <- _]).
  - intros Ho msg ch -> Hne Hreg Hau Hty Hre Hch Hop Hroom. revert H. unfold HandleTerminalStream. rewrite Ho.
    cbn [andb]. unfold authenticateWebSocket. rewrite Ho. cbn [negb].
    assert ((match as_auth msg with
       | Some (ty, token) =>
           if String.eqb ty "auth" then
             match jwtValidator c with
             | None => ([AuthOk], true, [], true)
             | Some v => match JWT.Validate ParseWithClaims v token now with
                         | Err e => ([AuthError (error_text e); Close 4401 "invalid token"], false, [], true)
                         | Ok _ => ([AuthOk], true, [], true)
                         end
             end
           else ([], true, msg, true)
       | None => ([], true, msg, true)
       end) = ([], true, msg, true)) as ->.
    { destruct (as_auth msg) as [[ty token]|]; [|done].
      destruct (String.eqb_spec ty "auth") as [->|]; [by destruct (Hau token)|done]. }
    cbn [negb]. destruct (Nat.ltb_spec 0 (length msg)) as [_|Hz]; [|destruct msg; [done|simpl in Hz; lia]].
    rewrite Hreg. cbn [andb]. unfold processTerminalMessage. rewrite Hreg. cbn [negb orb].
    destruct (Nat.eqb_spec (length msg) 0); [by destruct msg|].
    rewrite Hty, Hre. rewrite bool_decide_false by done.
    unfold send_to_session, Registry.SendToSession, Registry.GetStream. rewrite Hch. simpl Registry.send_found.
    destruct (try_send_open (outbox w) ch (TerminalInput sid msg 0) Hop) as (o & b & -> & _ & Hp & _).
    rewrite Hroom in Hp. cbn [mbind go_bind].
    repeat case_match; try (by intros [= <- _]);
      (destruct (Ring.SnapshotWithLen _) as [[]|]; cbn [mbind go_bind]; by intros [= <- _]).
  - intros -> Ha. revert H. unfold HandleTerminalStream, authenticateWebSocket.
    destruct (oidcEnabled c) eqn:Ho; cbn [andb].
    { destruct (negb _); intros [= <- <-]; done. }
    cbn [negb length Nat.ltb Nat.leb andb mbind go_bind]. intros Heq. split; [done|]. intros msg.
    unfold on_message. assert (readable x = false) as ->; [|done]. revert Heq.
    repeat case_match; try (by intros [= <- <-]);
      (destruct (Ring.SnapshotWithLen _) as [[]|]; cbn [mbind go_bind]; [|done];
       intros [= <- <-]; unfold send_bytes; repeat case_match; done).
Qed.
End Terminal.

(** The check of the origin compares the text before the first colon: for hosts
    written as IPv6 addresses this is the bracket alone, so every page from an
    IPv6 address may open a socket to a server reached by one. *)
Lemma CheckOrigin_ipv6 a b :
  CheckOrigin "" "" ("https://[" +:+ String ":"%char a) ("[" +:+ String ":"%char b) = true.
Proof. reflexivity. Qed.

Example CheckOrigin_1 :
  map (λ o, CheckOrigin "" "" o "localhost") [""; "https://localhost:8081"; "https://evil"; "localhost"]
    = [true; true; false; false] ∧
  map (λ o, CheckOrigin "https://a, https://b" "" o "localhost") ["https://b"; "https://localhost"] = [true; false].
Proof. split; reflexivity. Qed.

(** ** Examples *)

Definition no_auth (m : list Z) : option (string * string) := None.
Definition no_type (m : list Z) : option string := None.
Definition no_resize (m : list Z) : option (string * Z * Z) := None.
Definition no_jwt (s : string) (k : JWT.SigningMethod → option string) (i : string) (t : Z)
  : result JWT.lib_error JWT.UserClaims := Err JWT.LibOther.
Definition dev_config : Config := mkConfig demo_handlers None false.

(** A browser that types at once: its letter is on the way to the satellite. *)
Definition routed_world : World :=
  mkWorld (db demo_world) (sats demo_world)
    (Registry.RegisterStream (registry demo_world) "ux" (Some 1%N)) (outbox demo_world)
    (pool demo_world) [] [].

Lemma empty_pool_ok : Pool.pool_ok (pool routed_world).
Proof. split; [by intros s r|by intros r b|by intros s1 s2 r]. Qed.

Example terminal_auth_witness :
  match HandleTerminalStream demo_Parse no_jwt no_auth no_type no_resize dev_config routed_world "ux"
          (Some [108]) 0 false true with
  | Ret (w1, x) => pending (outbox w1) 1 = [TerminalInput "ux" [108] 0] ∧ alive x = true
  | Panic => False
  end.
Proof.
  destruct (HandleTerminalStream _ _ _ _ _ _ _ _ _ _ _ _) as [[w1 x]|] eqn:E; [|vm_compute in E; discriminate].
  pose proof (terminal_auth demo_Parse no_jwt no_auth no_type no_resize dev_config routed_world "ux"
    (Some [108]) 0 false true w1 x E) as (_ & H & _).
  split.
  - rewrite (H eq_refl [108] 1%N); try reflexivity; try done. by eexists.
  - vm_compute in E. by injection E as <- <-.
Defined.

Example terminal_stream_witness :
  ∃ w1 x w' x', HandleTerminalStream demo_Parse no_jwt no_auth no_type no_resize dev_config routed_world "ux"
          (Some []) 0 false true = Ret (w1, x) ∧
    stream dev_config (w1, x) ([Output [104]; Poll; Output [105; 10]] ++ [Poll; Poll]) = Ret (w', x') ∧
    received x' = [104; 105; 10].
Proof.
  destruct (HandleTerminalStream demo_Parse no_jwt no_auth no_type no_resize dev_config routed_world "ux"
    (Some []) 0 false true) as [[w1 x]|] eqn:E; [|vm_compute in E; discriminate].
  assert (alive x = true ∧ w1 = routed_world) as [Ha Hw] by (vm_compute in E; by injection E as <- <-).
  destruct (terminal_stream demo_Parse no_jwt no_auth no_type no_resize dev_config routed_world "ux"
    (Some []) 0 false w1 x [Output [104]; Poll; Output [105; 10]] eq_refl empty_pool_ok E Ha)
    as (w' & x' & H1 & _ & H2); [by rewrite Hw|].
  exists w1, x, w', x'. split; [done|]. split; [exact H1|]. rewrite H2, Hw. reflexivity.
Defined.

Definition full_world : World :=
  mkWorld (db demo_world) (sats demo_world) (registry demo_world) (outbox demo_world)
    (Pool.mkPool {["ux" := 0%N]} {[0%N := Ring.mkRingBuffer [1; 2; 3] 0 3 3]}) [] [].
Definition full_client : Client := mkClient "ux" 1 (Some 0%N) 3 [Binary [1; 2; 3]] true true.

Example terminal_freezes_witness :
  ∃ w', stream dev_config (full_world, full_client) [Output [4; 5; 6; 7]; Poll; Output [8]; Poll]
        = Ret (w', full_client).
Proof.
  apply (terminal_freezes dev_config [Output [4; 5; 6; 7]; Poll; Output [8]; Poll] full_world full_client 0
    (Ring.mkRingBuffer [1; 2; 3] 0 3 3)); try reflexivity.
  split; simpl.
  - intros s r [<- <-]%lookup_singleton_Some. by eexists.
  - intros r b [<- <-]%lookup_singleton_Some. split; simpl; lia.
  - intros s1 s2 r [<- <-]%lookup_singleton_Some [<- _]%lookup_singleton_Some. done.
Defined.
End Terminal.
