(* ===== verification/Gateway.v ===== *)
(** * internal/grpc/gateway.go: the server side of the satellite stream

    [Nexus] is what the gateway shares with the rest of the server: the tables,
    the stream registry, the buffer pool, the run event hub, the batch writer,
    and the channels. [Conn] is what one call of [Connect] keeps for its stream.
    [handle] is the [switch] of the receive loop, one definition per kind of
    message; [disconnect] is the deferred clean-up. A handler meets the outside
    world through [env]: the clock, the uuids it generates and the outcome of
    each of its statements, in program order. A goroutine the handler starts is
    an entry of [tasks] that runs at any later time.

    uuid parsing and printing, encoding/json, the order in which Go walks a map
    and in which PostgreSQL scans rows, and the growth of slices are parameters. *)
From S2P Require Import Prelude RingBuffer SessionState SessionStore Channels Streams.
From S2P Require Import BatchWriter Protocol Satellites AgentRuns.
Import Session Store Chan Proto.
#[local] Open Scope Z_scope.

Module Gateway.

(** ** The interface to the session store *)

Notation log_payload := (gmap string string).

(** [SessionStoreInterface], with the clock and the outcome of each statement. *)
Class SessionStoreInterface (S : Type) := {
  store_GetSession : S → N → bool → result store_error Session;
  store_UpdateState : S → N → SessionState → Z → fault → S * option store_error;
  store_WriteEventLog : S → EventLog log_payload → Z → fault → S * option store_error;
}.

(** What the gateway relies on: an UpdateState that succeeds has found the row
    and rewritten its state and activity time only; one that fails has done
    that or nothing; the other rows and the event log stay apart. *)
Definition state_written (s s' : Session) (st : SessionState) (now : Z) : Prop :=
  s' = set_lifecycle s st now (StartedAt s) (DetachedAt s) (SuspendedAt s) (TerminatedAt s).

Class SessionStoreLaws (S : Type) `{SessionStoreInterface S} := {
  update_same : ∀ (db db' : S) id st now f o, store_UpdateState db id st now f = (db', o) →
    (∃ s s', store_GetSession db id false = Ok s ∧ store_GetSession db' id false = Ok s' ∧
       state_written s s' st now) ∨
    (is_Some o ∧ store_GetSession db' id false = store_GetSession db id false);
  update_other : ∀ (db : S) id id' st now f, id' ≠ id →
    store_GetSession (store_UpdateState db id st now f).1 id' false = store_GetSession db id' false;
  write_frame : ∀ (db : S) ev id now f,
    store_GetSession (store_WriteEventLog db ev now f).1 id false = store_GetSession db id false;
  get_fault : ∀ (db : S) id s, store_GetSession db id true ≠ Ok s;
}.

Section StateUpdate.
Context {S : Type} `{SessionStoreInterface S}.
Variable uuid_Parse : string → option N.
Variable Itoa : Z → string.

(** The first half: GetSession and the in-memory transition. The result is the
    state to write, computed from a copy of the row. *)
Definition plan_state_update (db : S) (id : N) (state : ProtoState) (now : Z) (f : bool)
    : option SessionState :=
  match store_GetSession db id f with
  | Err _ => None
  | Ok existing =>
      match Session.TransitionSession existing (convertProtoToSessionState Itoa state) now with
      | Err _ => None
      | Ok updated => Some (State updated)
      end
  end.

(** The satellite of the event log entry: uuid.Nil when it does not parse. *)
Definition event_satellite (satelliteID : string) : N := default 0%N (uuid_Parse satelliteID).

(** The second half: UpdateState, and WriteEventLog if it succeeded. *)
Definition write_state_update (db : S) (id : N) (target : SessionState) (state : ProtoState)
    (satelliteID : string) (now : Z) (f1 f2 : fault) : S :=
  match store_UpdateState db id target now f1 with
  | (db', Some _) => db'
  | (db', None) =>
      (store_WriteEventLog db'
         (mkEventLog 0 id (Some (event_satellite satelliteID)) None "STATE_CHANGE"
            (Some {["state" := ProtoState_String Itoa state]}) 0) now f2).1
  end.

(** Both halves without interruption. *)
Definition session_state_update (db : S) (id : N) (state : ProtoState) (satelliteID : string)
    (now : Z) (f0 : bool) (f1 f2 : fault) : S :=
  match plan_state_update db id state now f0 with
  | None => db
  | Some target => write_state_update db id target state satelliteID now f1 f2
  end.

Context `{!SessionStoreLaws S}.

Lemma write_state_update_get db id target state sat now f1 f2 :
  (∃ s s', store_GetSession db id false = Ok s ∧
     store_GetSession (write_state_update db id target state sat now f1 f2) id false = Ok s' ∧
     state_written s s' target now) ∨
  store_GetSession (write_state_update db id target state sat now f1 f2) id false =
    store_GetSession db id false.
Proof.
  unfold write_state_update. destruct (store_UpdateState _ _ _ _ _) as [db' o] eqn:E.
  destruct (update_same _ _ _ _ _ _ _ E) as [(s & s' & Hs & Hs' & Hw)|[Ho Heq]].
  - left. exists s, s'. split; [done|]. split; [|done]. destruct o; [done|]. by rewrite write_frame.
  - right. by destruct Ho as [e ->].
Qed.

Lemma write_state_update_other db id id' target state sat now f1 f2 :
  id' ≠ id →
  store_GetSession (write_state_update db id target state sat now f1 f2) id' false =
    store_GetSession db id' false.
Proof.
  intros Hne. unfold write_state_update.
  pose proof (update_other db id id' target now f1 Hne) as Ho.
  destruct (store_UpdateState _ _ _ _ _) as [db' [e|]]; simpl in Ho; [done|].
  by rewrite write_frame.
Qed.
End StateUpdate.

(** [SessionStore] implements the interface. *)
#[export] Instance DB_store (marshal : log_payload → option string) : SessionStoreInterface DB := {
  store_GetSession := GetSession;
  store_UpdateState := UpdateState;
  store_WriteEventLog := WriteEventLog marshal;
}.

#[export] Instance DB_laws marshal :
  @SessionStoreLaws DB (DB_store marshal).
Proof.
  split; simpl.
  - intros db db' id st now f o. unfold UpdateState, GetSession.
    destruct (sessions db !! id) as [s|] eqn:Hs; simpl.
    + destruct (negb (IsValid st)); simpl.
      { intros [= <- <-]. right. rewrite Hs. eauto. }
      unfold exec_row. rewrite Hs. destruct f; simpl; intros [= <- <-].
      * left. exists s. eexists. split; [done|]. simpl. by rewrite lookup_insert_eq.
      * right. rewrite Hs. eauto.
      * left. exists s. eexists. split; [done|]. simpl. by rewrite lookup_insert_eq.
    + unfold exec_row. rewrite Hs. intros Heq. right.
      destruct f; injection Heq as <- <-; rewrite Hs; eauto.
  - intros db id id' st now f Hne. unfold UpdateState, GetSession.
    destruct (_ && _); [done|]. unfold exec_row.
    destruct (sessions db !! id) as [s|] eqn:Hs; [|by destruct f].
    destruct f; simpl; by rewrite ?lookup_insert_ne by done.
  - intros db ev id now f. unfold WriteEventLog, GetSession.
    destruct (ev_Payload ev) as [p|]; [destruct (marshal p); [|done]|];
      (destruct (ev_SatelliteID ev); [|done]); by destruct f.
  - done.
Qed.

(** ** The state *)

(** agentstream.AgentStreamEvent *)
Record AgentStreamEvent := mkStreamEvent {
  e_ID : string; e_RunID : string; e_EventType : string; e_Payload : bytes;
  e_Sequence : Z; e_CreatedAt : Z;
}.

(** The struct proposeAction is unmarshalled into. *)
Record proposal := mkProposal {
  ProposalID : string; Command : string; Justification : string; RiskLevel : string;
}.

(** A row of satellite_context_files. *)
Record CtxFile := mkCtxFile {
  c_content : bytes; c_version : Z; c_modified_by : string; c_updated : Z;
}.

(** A goroutine that has been started and not yet run. *)
Inductive task :=
  | InsertEvent (runID : N) (eventType : string) (payload : bytes) (sequence : Z)
  | FinishRun (runID : N) (payload : bytes).

(** SatelliteGatewayServerImpl: which of its dependencies are set (production
    sets all but the batch writer and the recording pool, which depend on the
    licence), and the environment variables that are read. A dbPool that is
    set is a *pgxpool.Pool. *)
Record Server := mkServer {
  has_store : bool; has_registry : bool; has_db : bool; has_pool : bool;
  has_recording : bool; has_hub : bool; has_telemetry : bool; has_batch : bool;
  DAAO_LATEST_VERSION : string; NEXUS_URL : string;
}.

Record Nexus := mkNexus {
  db : DB;
  sats : gmap N Sats.Sat;
  runs : gmap N Runs.AgentRun;
  batch : Batch.BatchEventWriter (Payload := bytes);    (* and agent_run_events *)
  ctx_files : gmap (N * string) CtxFile;
  telemetry : list (N * Telemetry);
  registry : Registry.StreamRegistry;
  pool : Pool.RingBufferPool;
  outbox : heap NexusMessage;                           (* the outbound channels *)
  hub : Hub.RunEventHub (Event := AgentStreamEvent);
  recorded : list (string * bytes);                     (* calls of WriteIfRecording *)
  hitl : list proposal;                                 (* rows of hitl_proposals *)
  forwarded : list (string * (float64 * float64 * float64));  (* calls of telemetryHandler *)
  tasks : list task;
}.

(** The keys that sessions refer to are those of the satellites table. *)
Definition set_sats (n : Nexus) (t : gmap N Sats.Sat) : Nexus :=
  mkNexus (mkDB (sessions (db n)) (dom t) (event_logs (db n)) (event_seq (db n))) t (runs n) (batch n)
    (ctx_files n) (telemetry n) (registry n) (pool n) (outbox n) (hub n) (recorded n) (hitl n)
    (forwarded n) (tasks n).
Definition set_db (n : Nexus) (d : DB) : Nexus :=
  mkNexus d (sats n) (runs n) (batch n) (ctx_files n) (telemetry n) (registry n) (pool n)
    (outbox n) (hub n) (recorded n) (hitl n) (forwarded n) (tasks n).
Definition set_runs (n : Nexus) (t : gmap N Runs.AgentRun) : Nexus :=
  mkNexus (db n) (sats n) t (batch n) (ctx_files n) (telemetry n) (registry n) (pool n)
    (outbox n) (hub n) (recorded n) (hitl n) (forwarded n) (tasks n).
Definition set_batch (n : Nexus) (w : Batch.BatchEventWriter) : Nexus :=
  mkNexus (db n) (sats n) (runs n) w (ctx_files n) (telemetry n) (registry n) (pool n)
    (outbox n) (hub n) (recorded n) (hitl n) (forwarded n) (tasks n).
Definition set_ctx_files (n : Nexus) (m : gmap (N * string) CtxFile) : Nexus :=
  mkNexus (db n) (sats n) (runs n) (batch n) m (telemetry n) (registry n) (pool n)
    (outbox n) (hub n) (recorded n) (hitl n) (forwarded n) (tasks n).
Definition set_telemetry (n : Nexus) (l : list (N * Telemetry)) : Nexus :=
  mkNexus (db n) (sats n) (runs n) (batch n) (ctx_files n) l (registry n) (pool n)
    (outbox n) (hub n) (recorded n) (hitl n) (forwarded n) (tasks n).
Definition set_registry (n : Nexus) (r : Registry.StreamRegistry) : Nexus :=
  mkNexus (db n) (sats n) (runs n) (batch n) (ctx_files n) (telemetry n) r (pool n)
    (outbox n) (hub n) (recorded n) (hitl n) (forwarded n) (tasks n).
Definition set_pool (n : Nexus) (p : Pool.RingBufferPool) : Nexus :=
  mkNexus (db n) (sats n) (runs n) (batch n) (ctx_files n) (telemetry n) (registry n) p
    (outbox n) (hub n) (recorded n) (hitl n) (forwarded n) (tasks n).
Definition set_outbox (n : Nexus) (h : heap NexusMessage) : Nexus :=
  mkNexus (db n) (sats n) (runs n) (batch n) (ctx_files n) (telemetry n) (registry n) (pool n)
    h (hub n) (recorded n) (hitl n) (forwarded n) (tasks n).
Definition set_hub (n : Nexus) (h : Hub.RunEventHub) : Nexus :=
  mkNexus (db n) (sats n) (runs n) (batch n) (ctx_files n) (telemetry n) (registry n) (pool n)
    (outbox n) h (recorded n) (hitl n) (forwarded n) (tasks n).
Definition record_data (n : Nexus) (sid : string) (data : bytes) : Nexus :=
  mkNexus (db n) (sats n) (runs n) (batch n) (ctx_files n) (telemetry n) (registry n) (pool n)
    (outbox n) (hub n) (recorded n ++ [(sid, data)]) (hitl n) (forwarded n) (tasks n).
Definition forward (n : Nexus) (sid : string) (m : float64 * float64 * float64) : Nexus :=
  mkNexus (db n) (sats n) (runs n) (batch n) (ctx_files n) (telemetry n) (registry n) (pool n)
    (outbox n) (hub n) (recorded n) (hitl n) (forwarded n ++ [(sid, m)]) (tasks n).
Definition set_tasks (n : Nexus) (l : list task) : Nexus :=
  mkNexus (db n) (sats n) (runs n) (batch n) (ctx_files n) (telemetry n) (registry n) (pool n)
    (outbox n) (hub n) (recorded n) (hitl n) (forwarded n) l.

Definition add_hitl (n : Nexus) (l : list proposal) : Nexus :=
  mkNexus (db n) (sats n) (runs n) (batch n) (ctx_files n) (telemetry n) (registry n) (pool n)
    (outbox n) (hub n) (recorded n) (hitl n ++ l) (forwarded n) (tasks n).

(** The local variables of [Connect]. *)
Record Conn := mkConn {
  outboundCh : N;
  sessionRunMap : gmap string string;
  agentSeq : gmap string Z;
  sessionIDs : gset string;
  satelliteID : string;
}.
Definition set_run_map (c : Conn) (m : gmap string string) : Conn :=
  mkConn (outboundCh c) m (agentSeq c) (sessionIDs c) (satelliteID c).
Definition set_seq (c : Conn) (m : gmap string Z) : Conn :=
  mkConn (outboundCh c) (sessionRunMap c) m (sessionIDs c) (satelliteID c).
Definition set_session_ids (c : Conn) (s : gset string) : Conn :=
  mkConn (outboundCh c) (sessionRunMap c) (agentSeq c) s (satelliteID c).
Definition set_satellite (c : Conn) (s : string) : Conn :=
  mkConn (outboundCh c) (sessionRunMap c) (agentSeq c) (sessionIDs c) s.

(** What a handler meets: the clock, gen_random_uuid() or uuid.New(), the
    outcome of its k-th statement, and what cuts its multi-row query. *)
Record env := mkEnv { now : Z; new_id : N; flt : nat → fault; qf : query_fault }.
Definition fails (f : fault) : bool := match f with NoFault => false | _ => true end.

(** What encoding/json makes of a field of an object, as far as the code looks:
    a float64 as [int(t)] and [t > 0]. *)
Inductive json := JString (s : string) | JNumber (whole : Z) (positive : bool) | JOther.

Section Handlers.
Variable uuid_String : N → string.
Variable uuid_Parse : string → option N.
(** The uuid the driver sends for a text parameter of type uuid. *)
Variable pg_uuid : string → option N.
Variable Itoa : Z → string.
Variable marshal : log_payload → option string.
Variable json_object : bytes → option (gmap string json).
Variable json_proposal : bytes → option proposal.
Variable range_set : gset N → list N.
Variable grow : nat → nat.
Variable arrange_sats : list (N * Sats.Sat) → list (N * Sats.Sat).
Variable arrange_runs : list Runs.AgentRun → list Runs.AgentRun.
Variable arrange_sess : list Session → list Session.
Variable srv : Server.

#[local] Existing Instance DB_store.

(** ** Helpers of [Connect] *)

(** [registerSession]: only the first mention of a session on this stream
    registers it. *)
Definition registerSession (n : Nexus) (c : Conn) (sid : string) : Nexus * Conn :=
  if String.eqb sid "" then (n, c)
  else if decide (sid ∈ sessionIDs c) then (n, c)
  else (if has_registry srv
        then set_registry n (Registry.RegisterStream (registry n) sid (Some (outboundCh c))) else n,
        set_session_ids c ({[sid]} ∪ sessionIDs c)).

(** select { case outboundCh <- msg: default: } *)
Definition queue (n : Nexus) (c : Conn) (msg : NexusMessage) : go Nexus :=
  '(h, _) ← try_send (outbox n) (Some (outboundCh c)) msg;
  Ret (set_outbox n h).

(** ** RegisterRequest *)

Definition resolve_id (n : Nexus) (r : Registration) (e : env) : Nexus * string :=
  if has_db srv then
    match Sats.resolve uuid_String arrange_sats (sats n) r (new_id e) (now e)
            (flt e 0) (flt e 1) (flt e 2) with
    | (t, Some id) =>
        (if String.eqb (rq_os r) "" && String.eqb (rq_arch r) "" then set_sats n t
         else set_sats n (Sats.tag_satellite t id (Sats.auto_tags r) (flt e 3)),
         uuid_String id)
    | (t, None) => (set_sats n t, rq_satellite_id r)
    end
  else (n, rq_satellite_id r).

Definition update_message (r : Registration) : option NexusMessage :=
  if negb (String.eqb (rq_version r) "") && negb (String.eqb (DAAO_LATEST_VERSION srv) "")
     && negb (String.eqb (rq_version r) (DAAO_LATEST_VERSION srv))
  then
    let nexusURL := if String.eqb (NEXUS_URL srv) "" then "http://localhost:8081" else NEXUS_URL srv in
    let binaryName := "daao-" +:+ rq_os r +:+ "-" +:+ rq_arch r +:+
                      (if String.eqb (rq_os r) "windows" then ".exe" else "") in
    Some (UpdateAvailable (DAAO_LATEST_VERSION srv) (nexusURL +:+ "/releases/" +:+ binaryName) false)
  else None.

(** WHERE satellite_id::text = $1 AND state NOT IN ('TERMINATED') *)
Definition live_sessions (d : DB) (sat : string) : list string :=
  (λ s, uuid_String (ID s)) <$>
    filter (λ s, bool_decide (uuid_String (SatelliteID s) = sat) && negb (String.eqb (State s) StateTerminated))
      (rows_of arrange_sess d).

(** A row that does not scan is skipped; [rows.Err()] is not consulted, so a
    connection lost after some rows ends the list. [None]: Query failed. *)
Definition reconcile_ids (d : DB) (sat : string) (f : query_fault) : option (list string) :=
  match f with
  | QueryOk => Some (live_sessions d sat)
  | QueryFails => None
  | CutAfter k => Some (take k (live_sessions d sat))
  | ScanFails k => Some (delete k (live_sessions d sat))
  end.

Definition handle_register (n : Nexus) (c : Conn) (r : Registration) (e : env) : go (Nexus * Conn) :=
  let '(n1, sat) := resolve_id n r e in
  let c1 := set_satellite c sat in
  let n2 := if has_registry srv
            then set_registry n1 (Registry.RegisterSatelliteStream (registry n1) sat (Some (outboundCh c)))
            else n1 in
  n3 ← match update_message r with Some msg => queue n2 c1 msg | None => Ret n2 end;
  n4 ← (if has_db srv && negb (String.eqb sat "") then
          match reconcile_ids (db n3) sat (qf e) with
          | Some ids => queue n3 c1 (SessionReconciliation ids)
          | None => Ret n3
          end
        else Ret n3);
  Ret (n4, c1).

(** ** TerminalData and BufferReplay *)

(** GetOrCreateBuffer and Write. *)
Definition pool_write (n : Nexus) (sid : string) (data : bytes) : go Nexus :=
  let '(p, rb) := Pool.GetOrCreateBuffer (pool n) sid in
  p' ← Pool.buffer_write p rb data;
  Ret (set_pool n p').

Definition handle_terminal_data (n : Nexus) (c : Conn) (sid : string) (data : bytes)
    : go (Nexus * Conn) :=
  let '(n1, c1) := registerSession n c sid in
  if String.eqb sid "" || bool_decide (data = []) then Ret (n1, c1) else
  n2 ← (if has_pool srv then pool_write n1 sid data else Ret n1);
  Ret (if has_recording srv then record_data n2 sid data else n2, c1).

Definition handle_buffer_replay (n : Nexus) (c : Conn) (sid : string) (data : bytes)
    : go (Nexus * Conn) :=
  let '(n1, c1) := registerSession n c sid in
  if String.eqb sid "" || bool_decide (data = []) || negb (has_pool srv) then Ret (n1, c1) else
  n2 ← pool_write n1 sid data;
  Ret (n2, c1).

(** ** SessionStateUpdate *)

(** WHERE session_id::text = $1 AND status = 'running' LIMIT 1, in no order. *)
Definition any_running (t : gmap N Runs.AgentRun) (sid : string) (f : fault) : option N :=
  if fails f then None else
  Runs.ID <$> head (filter (λ r, bool_decide (uuid_String <$> Runs.SessionID r = Some sid)
                                 && String.eqb (Runs.Status r) "running")
                      (arrange_runs (map_to_list t).*2)).

(** The run of the session: the mapped one, else one the table says is running. *)
Definition run_of_session (n : Nexus) (c : Conn) (sid : string) (f : fault) : option string :=
  match sessionRunMap c !! sid with
  | Some rid => Some rid
  | None => uuid_String <$> any_running (runs n) sid f
  end.

(** A still running agent_run of a terminated session is marked failed. *)
Definition fail_run (n : Nexus) (c : Conn) (sid errorMsg : string) (e : env) : go Nexus :=
  match run_of_session n c sid (flt e 3) ≫= uuid_Parse with
  | None => Ret n
  | Some rid =>
      let errText := if String.eqb errorMsg "" then "agent process terminated without output"
                     else errorMsg in
      match Runs.UpdateAgentRun (runs n) rid
              (Runs.mkUpdates (Some "failed") (Some (now e)) None None None None (Some errText) None)
              (flt e 4) with
      | (t, Err _) => Ret (set_runs n t)
      | (t, Ok _) =>
          if has_hub srv then h ← Hub.Close range_set (hub n) rid; Ret (set_hub (set_runs n t) h)
          else Ret (set_runs n t)
      end
  end.

(** The clean-up of a session that reports TERMINATED. *)
Definition terminate_session (n : Nexus) (c : Conn) (sid errorMsg : string) (e : env)
    : go (Nexus * Conn) :=
  let n1 := if has_pool srv then set_pool n (Pool.RemoveBuffer (pool n) sid) else n in
  let n2 := if has_registry srv
            then set_registry n1 (Registry.UnregisterStream (registry n1) sid) else n1 in
  let c1 := set_session_ids c (sessionIDs c ∖ {[sid]}) in
  n3 ← (if has_db srv then fail_run n2 c1 sid errorMsg e else Ret n2);
  Ret (n3, c1).

Definition handle_state_update (n : Nexus) (c : Conn) (sid : string) (state : ProtoState)
    (errorMsg : string) (e : env) : go (Nexus * Conn) :=
  let '(n1, c1) := registerSession n c sid in
  if String.eqb sid "" || negb (has_store srv) then Ret (n1, c1) else
  let n2 := match uuid_Parse sid with
            | Some id =>
                set_db n1 (session_state_update (H := DB_store marshal) uuid_Parse Itoa (db n1) id state
                  (satelliteID c1) (now e) (fails (flt e 0)) (flt e 1) (flt e 2))
            | None => n1
            end in
  if decide (state = SESSION_STATE_TERMINATED) then terminate_session n2 c1 sid errorMsg e
  else Ret (n2, c1).

(** ** IpcEvent *)

(** The columns of hitl_proposals (db/migrations/033) and those of the INSERT. *)
Definition hitl_columns : list string :=
  ["id"; "session_id"; "agent_name"; "action"; "description"; "risk_level"; "payload"; "status";
   "reviewed_by"; "reviewed_at"; "expires_at"; "created_at"; "updated_at"].
Definition insert_columns : list string :=
  ["id"; "session_id"; "satellite_id"; "proposal_id"; "command"; "justification"; "risk_level";
   "status"; "created_at"; "expires_at"].

(** Does PostgreSQL accept the column list of an INSERT? *)
Definition columns_exist (cols table : list string) : bool :=
  forallb (λ c, bool_decide (c ∈ table)) cols.

(** The INSERT of a proposal: the row it would write, or [None] when no
    statement is run or the statement is refused. *)
Definition propose (c : Conn) (sid : string) (payload : bytes) (e : env) : option proposal :=
  match json_proposal payload with
  | None => None
  | Some p =>
      if String.eqb (Command p) "" then None else
      let p' := mkProposal
        (if String.eqb (ProposalID p) "" then uuid_String (new_id e) else ProposalID p)
        (Command p) (Justification p)
        (if String.eqb (RiskLevel p) "" then "medium" else RiskLevel p) in
      if columns_exist insert_columns hitl_columns && negb (fails (flt e 0)) then Some p' else None
  end.

Definition handle_ipc_event (n : Nexus) (c : Conn) (sid eventType : string) (payload : bytes)
    (e : env) : Nexus :=
  if String.eqb eventType "daao.proposeAction" && has_db srv && negb (String.eqb (satelliteID c) "")
  then add_hitl n (option_list (propose c sid payload e)) else n.

(** ** HeartbeatPing and TelemetryReport *)

Definition handle_heartbeat (n : Nexus) (c : Conn) (e : env) : Nexus :=
  if negb (String.eqb (satelliteID c) "") && has_db srv
  then set_sats n (Sats.heartbeat uuid_String (sats n) (satelliteID c) (now e) (flt e 0)) else n.

(** The row refers to a satellite; a report with agents also rewrites them. *)
Definition store_telemetry (n : Nexus) (sat : string) (r : Telemetry) (e : env) : Nexus :=
  let n1 := match pg_uuid sat with
            | Some id =>
                if bool_decide (is_Some (sats n !! id)) then
                  match flt e 0 with StmtFails => n | _ => set_telemetry n (telemetry n ++ [(id, r)]) end
                else n
            | None => n
            end in
  match tm_available_agents r with
  | [] => n1
  | agents => set_sats n1 (Sats.report_agents uuid_String (sats n1) sat agents (flt e 1))
  end.

Definition handle_telemetry (n : Nexus) (c : Conn) (r : Telemetry) (e : env) : Nexus :=
  if String.eqb (satelliteID c) "" then n else
  let n1 := if has_db srv then store_telemetry n (satelliteID c) r e else n in
  if has_telemetry srv
  then forward n1 (satelliteID c) (tm_cpu_percent r, tm_memory_percent r, tm_disk_percent r)
  else n1.

(** ** ContextFileUpdate *)

(** INSERT ... ON CONFLICT (satellite_id, file_path) DO UPDATE: the satellite
    is the one the message names, not the one of the stream. *)
Definition handle_context_file (n : Nexus) (file : option ContextFileSync) (e : env) : Nexus :=
  match file with
  | None => n
  | Some f =>
      if negb (has_db srv) then n else
      match pg_uuid (cf_satellite_id f), flt e 0 with
      | None, _ | _, StmtFails => n
      | Some id, _ =>
          if bool_decide (is_Some (sats n !! id)) then
            let key := (id, cf_file_path f) in
            let v := from_option (λ old, c_version old + 1) 1 (ctx_files n !! key) in
            set_ctx_files n (<[key := mkCtxFile (cf_content f) v (cf_modified_by f) (now e)]> (ctx_files n))
          else n
      end
  end.

(** ** AgentEvent *)

Definition isBatchable (eventType : string) : bool :=
  String.eqb eventType "message_update" || String.eqb eventType "tool_execution_start"
  || String.eqb eventType "tool_execution_end".

(** The run an event belongs to: the one this stream has mapped the session to,
    else the newest running one in the table, which is then mapped. *)
Definition lookup_run (n : Nexus) (c : Conn) (sid : string) (e : env) : Conn * option string :=
  match sessionRunMap c !! sid with
  | Some rid => (c, Some rid)
  | None =>
      if has_db srv && negb (String.eqb sid "") then
        match Runs.running_run arrange_runs uuid_String (runs n) sid (fails (flt e 0)) with
        | Some rid => (set_run_map c (<[sid := uuid_String rid]> (sessionRunMap c)), Some (uuid_String rid))
        | None => (c, None)
        end
      else (c, None)
  end.

(** Batched, or inserted by a goroutine of its own. *)
Definition persist_event (n : Nexus) (runID : N) (eventType : string) (payload : bytes) (seq : Z)
    : Nexus :=
  if negb (has_db srv) then n
  else if isBatchable eventType && has_batch srv
  then set_batch n (Batch.Append grow (batch n) (Batch.mkEvent runID eventType payload seq))
  else set_tasks n (tasks n ++ [InsertEvent runID eventType payload seq]).

Definition end_run (n : Nexus) (runID : N) (eventType : string) (payload : bytes) (batch_lands : bool) : Nexus :=
  if String.eqb eventType "agent_end" && has_db srv then
    let n1 := if has_batch srv then set_batch n (Batch.Close (batch n) runID batch_lands) else n in
    set_tasks n1 (tasks n1 ++ [FinishRun runID payload])
  else n.

Definition handle_agent_event (n : Nexus) (c : Conn) (sid eventType : string) (payload : bytes)
    (e : env) : go (Nexus * Conn) :=
  let seq := default 0 (agentSeq c !! sid) + 1 in
  let c1 := set_seq c (<[sid := seq]> (agentSeq c)) in
  let '(c2, found) := lookup_run n c1 sid e in
  match found ≫= uuid_Parse with
  | None => Ret (n, c2)
  | Some runID =>
      let event := mkStreamEvent (uuid_String (new_id e)) (uuid_String runID) eventType payload
                     seq (now e) in
      n1 ← (if has_hub srv
            then h ← Hub.Publish range_set (hub n) runID event; Ret (set_hub n h)
            else Ret n);
      Ret (end_run (persist_event n1 runID eventType payload seq) runID eventType payload
             (lands (flt e 1)), c2)
  end.

(** *** The goroutines *)

(** What an agent_end says of the run. *)
Definition end_updates (payload : bytes) (now : Z) : Runs.AgentRunUpdates :=
  let p := default ∅ (json_object payload) in
  let status := match p !! "error" with
                | Some (JString s) => if String.eqb s "" then "completed" else "failed"
                | _ => "completed"
                end in
  let result := match p !! "result" with
                | Some (JString s) => if String.eqb s "" then None else Some s
                | _ => None
                end in
  let tokens := match p !! "total_tokens" with
                | Some (JNumber t true) => Some t
                | _ => None
                end in
  Runs.mkUpdates (Some status) (Some now) tokens None None result None None.

(** The subscribers are closed whether or not the update succeeded. *)
Definition run_task (n : Nexus) (t : task) (e : env) : go Nexus :=
  match t with
  | InsertEvent rid ty payload seq =>
      Ret (set_batch n (Batch.mkWriter (Batch.buffers (batch n)) (Batch.arrays (batch n))
             (Batch.inflight (batch n))
             (Runs.InsertAgentRunEvent (runs n) (Batch.table (batch n)) rid ty payload seq (flt e 0))))
  | FinishRun rid payload =>
      let '(t', _) := Runs.UpdateAgentRun (runs n) rid (end_updates payload (now e)) (flt e 0) in
      let n1 := set_runs n t' in
      if has_hub srv then h ← Hub.Close range_set (hub n1) rid; Ret (set_hub n1 h) else Ret n1
  end.

(** ** The receive loop *)

Definition handle (n : Nexus) (c : Conn) (msg : SatelliteMessage) (e : env) : go (Nexus * Conn) :=
  match msg with
  | RegisterRequest r => handle_register n c r e
  | TerminalData sid data => handle_terminal_data n c sid data
  | SessionStateUpdate sid state _ err => handle_state_update n c sid state err e
  | IpcEvent sid ty payload => Ret (handle_ipc_event n c sid ty payload e, c)
  | HeartbeatPing => Ret (handle_heartbeat n c e, c)
  | TelemetryReport r => Ret (handle_telemetry n c r e, c)
  | BufferReplay sid data => handle_buffer_replay n c sid data
  | ContextFileUpdate file => Ret (handle_context_file n file e, c)
  | AgentEvent sid ty payload => handle_agent_event n c sid ty payload e
  | ProposalRequest | ProvisionProgress | NoPayload => Ret (n, c)
  end.

(** A new stream: its outbound channel and empty maps. *)
Definition connect (n : Nexus) : Nexus * Conn :=
  let '(h, ch) := make_chan (outbox n) 100 in
  (set_outbox n h, mkConn ch ∅ ∅ ∅ "").

(** The deferred clean-up. *)
Definition unregisterAll (n : Nexus) (c : Conn) : Nexus :=
  if has_registry srv
  then set_registry n (foldl Registry.UnregisterStream (registry n) (elements (sessionIDs c)))
  else n.

Definition disconnect (n : Nexus) (c : Conn) (e : env) : Nexus :=
  let n1 := unregisterAll n c in
  if String.eqb (satelliteID c) "" then n1 else
  let n2 := if has_registry srv
            then set_registry n1 (Registry.UnregisterSatelliteStream (registry n1) (satelliteID c))
            else n1 in
  if has_db srv
  then set_sats n2 (Sats.set_offline uuid_String (sats n2) (satelliteID c) (now e) (flt e 0))
  else n2.

(** ** The server with all its streams *)

(** Streams by their outbound channel. *)
Record Sys := mkSys { nexus : Nexus; conns : gmap N Conn }.

(** What can happen: a satellite connects, sends, or goes away; the sender
    goroutine of a stream takes a message; a started goroutine runs; and what
    the rest of the server does with the shared parts meanwhile. *)
Inductive label :=
  | LConnect
  | LRecv (k : N) (msg : SatelliteMessage) (e : env)
  | LDisconnect (k : N) (e : env)
  | LSend (k : N)
  | LTask (i : nat) (e : env)
  | LFlush (runID : N) (f : fault)                  (* the timer of the batch writer *)
  | LSubscribe (runID : N)                          (* the SSE handler of a run *)
  | LUnsubscribe (runID ch : N)
  | LSendToSession (sid : string) (msg : NexusMessage)
  | LSendToSatellite (sat : string) (msg : NexusMessage)
  | LTransition (id : N) (st : SessionState) (t : Z) (f : tx_fault)
  | LCreateSession (s : Session) (f : fault).

Definition on_nexus (s : Sys) (m : go Nexus) : go Sys := n ← m; Ret (mkSys n (conns s)).

Definition step (s : Sys) (l : label) : go Sys :=
  let n := nexus s in
  match l with
  | LConnect => let '(n', c) := connect n in Ret (mkSys n' (<[outboundCh c := c]> (conns s)))
  | LRecv k msg e =>
      match conns s !! k with
      | None => Ret s
      | Some c => '(n', c') ← handle n c msg e; Ret (mkSys n' (<[k := c']> (conns s)))
      end
  | LDisconnect k e =>
      match conns s !! k with
      | None => Ret s
      | Some c => Ret (mkSys (disconnect n c e) (delete k (conns s)))
      end
  | LSend k => on_nexus s (Ret (set_outbox n (recv (outbox n) k).1))
  | LTask i e =>
      match tasks n !! i with
      | None => Ret s
      | Some t => on_nexus s (run_task (set_tasks n (delete i (tasks n))) t e)
      end
  | LFlush rid f => on_nexus s (Ret (set_batch n (Batch.Flush (batch n) rid (lands f))))
  | LSubscribe rid => on_nexus s (Ret (set_hub n (Hub.Subscribe (hub n) rid).1))
  | LUnsubscribe rid ch =>
      on_nexus s (h ← Hub.Unsubscribe range_set (hub n) rid ch; Ret (set_hub n h))
  | LSendToSession sid msg =>
      on_nexus s ('(h, _) ← Registry.SendToSession (registry n) (outbox n) sid msg;
                  Ret (set_outbox n h))
  | LSendToSatellite sat msg =>
      on_nexus s ('(h, _) ← Registry.SendToSatellite (registry n) (outbox n) sat msg;
                  Ret (set_outbox n h))
  | LTransition id st t f => on_nexus s (Ret (set_db n (TransitionSession (db n) id st t f).1))
  | LCreateSession x f => on_nexus s (Ret (set_db n (CreateSession (db n) x f).1))
  end.

Fixpoint run (s : Sys) (ls : list label) : go Sys :=
  match ls with
  | [] => Ret s
  | l :: ls' => s' ← step s l; run s' ls'
  end.

(** ** Invariant *)

Hypothesis range_perm : ∀ X, range_set X ≡ₚ elements X.
Hypothesis grow_more : ∀ c, (c < grow c)%nat.
Hypothesis arrange_sats_perm : ∀ l, arrange_sats l ≡ₚ l.

(** Rows of sessions: their keys, their state, their satellite. *)
Definition row_ok (d : DB) (id : N) (s : Session) : Prop :=
  ID s = id ∧ IsValid (State s) = true ∧ SatelliteID s ∈ satellites d.
Definition db_ok (d : DB) : Prop := ∀ id s, sessions d !! id = Some s → row_ok d id s.

(** The channels a registry refers to. *)
Definition routes_ok (h : heap NexusMessage) (r : Registry.StreamRegistry) : Prop :=
  ∀ k ch, Registry.sessionStreams r !! k = Some (Some ch) ∨
          Registry.satelliteStreams r !! k = Some (Some ch) → open h ch.

Record nexus_ok (n : Nexus) : Prop := mk_nexus_ok {
  n_db : db_ok (db n);
  n_sats : Sats.table_ok (sats n);
  n_keys : satellites (db n) = dom (sats n);
  n_runs : ∀ id r, runs n !! id = Some r → Runs.ID r = id;
  n_batch : Batch.writer_ok (batch n);
  n_routes : routes_ok (outbox n) (registry n);
  n_pool : Pool.pool_ok (pool n);
  n_hub : Hub.hub_ok (hub n);
  n_hitl : hitl n = [];
}.

Record sys_ok (s : Sys) : Prop := mk_sys_ok {
  s_nexus : nexus_ok (nexus s);
  s_conns : ∀ k c, conns s !! k = Some c → outboundCh c = k ∧ open (outbox (nexus s)) k;
}.

(** *** One component at a time *)

Section Components.
Context (n : Nexus) (Hok : nexus_ok n).

Lemma set_sats_ok t : Sats.table_ok t → dom (sats n) ⊆ dom t → nexus_ok (set_sats n t).
Proof.
  intros Ht Hd. destruct Hok. split; try done. intros id s Hs.
  destruct (n_db0 id s Hs) as (? & ? & Hsat). split_and!; try done. simpl.
  apply Hd. by rewrite <-n_keys0.
Qed.

Lemma set_db_ok d : db_ok d → satellites d = satellites (db n) → nexus_ok (set_db n d).
Proof. destruct Hok. intros. split; try done. simpl. congruence. Qed.

Lemma set_runs_ok t : (∀ id r, t !! id = Some r → Runs.ID r = id) → nexus_ok (set_runs n t).
Proof. by destruct Hok. Qed.

Lemma set_batch_ok w : Batch.writer_ok w → nexus_ok (set_batch n w).
Proof. by destruct Hok. Qed.

Lemma set_registry_ok r : routes_ok (outbox n) r → nexus_ok (set_registry n r).
Proof. by destruct Hok. Qed.

Lemma set_pool_ok p : Pool.pool_ok p → nexus_ok (set_pool n p).
Proof. by destruct Hok. Qed.

Lemma set_hub_ok h : Hub.hub_ok h → nexus_ok (set_hub n h).
Proof. by destruct Hok. Qed.

Lemma set_outbox_ok h : (∀ ch, open (outbox n) ch → open h ch) → nexus_ok (set_outbox n h).
Proof. destruct Hok. intros Ho. split; try done. intros k ch Hk. by eapply Ho, n_routes0. Qed.

Lemma set_ctx_files_ok m : nexus_ok (set_ctx_files n m).
Proof. by destruct Hok. Qed.
Lemma set_telemetry_ok l : nexus_ok (set_telemetry n l).
Proof. by destruct Hok. Qed.
Lemma record_data_ok sid data : nexus_ok (record_data n sid data).
Proof. by destruct Hok. Qed.
Lemma forward_ok sid m : nexus_ok (forward n sid m).
Proof. by destruct Hok. Qed.
Lemma set_tasks_ok l : nexus_ok (set_tasks n l).
Proof. by destruct Hok. Qed.

(** A channel registered, and a key removed. *)
Lemma RegisterStream_ok sid ch :
  open (outbox n) ch → routes_ok (outbox n) (Registry.RegisterStream (registry n) sid (Some ch)).
Proof.
  intros Ho k ch'. simpl. intros [[[_ [= <-]]|[_ H]]%lookup_insert_Some|H]; [done|..];
    eapply n_routes; eauto.
Qed.

Lemma RegisterSatelliteStream_ok sat ch :
  open (outbox n) ch → routes_ok (outbox n) (Registry.RegisterSatelliteStream (registry n) sat (Some ch)).
Proof.
  intros Ho k ch'. simpl. intros [H|[[_ [= <-]]|[_ H]]%lookup_insert_Some]; [|done|];
    eapply n_routes; eauto.
Qed.
End Components.

Lemma UnregisterStream_ok h r sid : routes_ok h r → routes_ok h (Registry.UnregisterStream r sid).
Proof. intros Hr k ch. simpl. intros [[_ H]%lookup_delete_Some|H]; eapply Hr; eauto. Qed.

Lemma UnregisterSatelliteStream_ok h r sat :
  routes_ok h r → routes_ok h (Registry.UnregisterSatelliteStream r sat).
Proof. intros Hr k ch. simpl. intros [H|[_ H]%lookup_delete_Some]; eapply Hr; eauto. Qed.

Lemma update_where_sats_ok n P g f :
  nexus_ok n → (∀ s, Sats.s_name (g s) = Sats.s_name s ∧ Sats.s_fingerprint (g s) = Sats.s_fingerprint s ∧
     Sats.s_owner (g s) = Sats.s_owner s) →
  nexus_ok (set_sats n (Sats.update_where (sats n) P g f)).
Proof.
  intros Hok Hg. apply set_sats_ok; [done|apply Sats.update_where_ok; [apply Hok|done]|].
  by rewrite Sats.update_where_dom.
Qed.

(** *** The handlers *)

(** What every step promises: the invariant, and that no channel is closed. *)
Definition keeps (n n' : Nexus) : Prop :=
  nexus_ok n' ∧ ∀ ch, open (outbox n) ch → open (outbox n') ch.

Lemma keeps_same n n' : nexus_ok n' → outbox n' = outbox n → keeps n n'.
Proof. intros ? Heq. split; [done|]. by rewrite Heq. Qed.

Lemma keeps_trans n1 n2 n3 : keeps n1 n2 → keeps n2 n3 → keeps n1 n3.
Proof. intros [? ?] [? ?]. split; auto. Qed.

Lemma queue_ok n c msg :
  nexus_ok n → open (outbox n) (outboundCh c) → ∃ n', queue n c msg = Ret n' ∧ keeps n n'.
Proof.
  intros Hok Hc. unfold queue.
  destruct (try_send_open (outbox n) (outboundCh c) msg Hc) as (h & ok & -> & _ & _ & _ & Hiff & _).
  cbn. eexists. split; [done|]. split; [|simpl; intros; by apply Hiff].
  apply set_outbox_ok; [done|]. intros. by apply Hiff.
Qed.

Lemma registerSession_ok n c sid :
  nexus_ok n → open (outbox n) (outboundCh c) →
  let '(n', c') := registerSession n c sid in keeps n n' ∧ outboundCh c' = outboundCh c.
Proof.
  intros Hok Hc. unfold registerSession. repeat case_match; simplify_eq; (split; [|done]);
    apply keeps_same; try done.
  apply set_registry_ok; [done|]. by apply RegisterStream_ok.
Qed.

Lemma pool_write_ok n sid data :
  nexus_ok n → ∃ n', pool_write n sid data = Ret n' ∧ keeps n n'.
Proof.
  intros Hok. unfold pool_write. pose proof (Pool.GetOrCreateBuffer_ok _ sid (n_pool n Hok)) as Hp.
  destruct (Pool.GetOrCreateBuffer _ _) as [p rb]. destruct Hp as (Hp & Hb & _).
  destruct (Pool.pool_alloc p Hp _ _ Hb) as [b Hst].
  destruct (Pool.buffer_write_ok p rb data b Hp Hst) as (b' & _ & -> & Hp').
  eexists. split; [done|]. apply keeps_same; [|done]. by apply set_pool_ok.
Qed.

Lemma resolve_id_ok n r e : nexus_ok n → keeps n (resolve_id n r e).1.
Proof.
  intros Hok. unfold resolve_id. destruct (has_db srv); [|by apply keeps_same].
  pose proof (Sats.resolve_ok uuid_String _ arrange_sats_perm (sats n) r (new_id e) (now e)
    (flt e 0) (flt e 1) (flt e 2) (n_sats n Hok)) as Hr.
  destruct (Sats.resolve _ _ _ _ _ _ _ _ _) as [t [id|]]; destruct Hr as (Ht & Hd & _); simpl.
  - apply keeps_same; [|by case_match]. case_match; [by apply set_sats_ok|].
    apply set_sats_ok; [done|by apply Sats.update_where_ok|]. unfold Sats.tag_satellite.
    by rewrite Sats.update_where_dom.
  - apply keeps_same; [|done]. by apply set_sats_ok.
Qed.

Lemma handle_register_ok n c r e :
  nexus_ok n → open (outbox n) (outboundCh c) →
  ∃ n' c', handle_register n c r e = Ret (n', c') ∧ keeps n n' ∧ outboundCh c' = outboundCh c.
Proof.
  intros Hok Hc. unfold handle_register. pose proof (resolve_id_ok n r e Hok) as [Hok1 Ho1].
  destruct (resolve_id n r e) as [n1 sat]. simpl in Hok1, Ho1.
  set (c1 := set_satellite c sat). set (n2 := if has_registry srv then _ else n1).
  assert (keeps n n2) as [Hok2 Ho2].
  { split; [|by unfold n2; destruct (has_registry srv)].
    unfold n2. destruct (has_registry srv); [|done].
    apply set_registry_ok; [done|]. apply RegisterSatelliteStream_ok; auto. }
  assert (∃ n3, match update_message r with Some msg => queue n2 c1 msg | None => Ret n2 end = Ret n3
    ∧ keeps n2 n3) as (n3 & -> & Hok3 & Ho3).
  { destruct (update_message r) as [m|]; [apply queue_ok; [done|simpl; auto]|].
    exists n2. split; [done|]. by apply keeps_same. }
  cbn [mbind go_bind].
  match goal with |- context [mbind _ ?m] => assert (∃ n4, m = Ret n4 ∧ keeps n3 n4) as (n4 & -> & Hok4 & Ho4) end.
  { repeat case_match; try (exists n3; split; [done|by apply keeps_same]).
    apply queue_ok; [done|simpl; auto]. }
  exists n4, c1. split; [done|]. split; [|done]. split; [done|]. auto.
Qed.

Lemma handle_terminal_data_ok n c sid data :
  nexus_ok n → open (outbox n) (outboundCh c) →
  ∃ n' c', handle_terminal_data n c sid data = Ret (n', c') ∧ keeps n n' ∧ outboundCh c' = outboundCh c.
Proof.
  intros Hok Hc. unfold handle_terminal_data. pose proof (registerSession_ok n c sid Hok Hc) as Hr.
  destruct (registerSession n c sid) as [n1 c1]. destruct Hr as [Hk1 Hch].
  destruct (_ || _); [by exists n1, c1|].
  assert (∃ n2, (if has_pool srv then pool_write n1 sid data else Ret n1) = Ret n2 ∧ keeps n1 n2)
    as (n2 & -> & Hk2).
  { destruct (has_pool srv); [apply pool_write_ok, Hk1|]. exists n1. split; [done|].
    apply keeps_same; [apply Hk1|done]. }
  cbn [mbind go_bind]. eexists _, c1. split; [done|]. split; [|done].
  eapply keeps_trans; [exact Hk1|]. eapply keeps_trans; [exact Hk2|]. destruct Hk2 as [Hok2 _].
  apply keeps_same; [|by destruct (has_recording srv)]. destruct (has_recording srv); [|done].
  by apply record_data_ok.
Qed.

Lemma handle_buffer_replay_ok n c sid data :
  nexus_ok n → open (outbox n) (outboundCh c) →
  ∃ n' c', handle_buffer_replay n c sid data = Ret (n', c') ∧ keeps n n' ∧ outboundCh c' = outboundCh c.
Proof.
  intros Hok Hc. unfold handle_buffer_replay. pose proof (registerSession_ok n c sid Hok Hc) as Hr.
  destruct (registerSession n c sid) as [n1 c1]. destruct Hr as [Hk1 Hch].
  destruct (_ || _); [by exists n1, c1|].
  destruct (pool_write_ok n1 sid data) as (n2 & -> & Hk2); [apply Hk1|].
  exists n2, c1. split; [done|]. split; [|done]. by eapply keeps_trans.
Qed.

Lemma GetSession_lookup d id s : GetSession d id false = Ok s ↔ sessions d !! id = Some s.
Proof. unfold GetSession. destruct (sessions d !! id); split; congruence. Qed.

Lemma plan_Some d id state t f target :
  plan_state_update (H := DB_store marshal) Itoa d id state t f = Some target →
  f = false ∧ ∃ s, sessions d !! id = Some s ∧ may (State s) target ∧
    target = convertProtoToSessionState Itoa state.
Proof.
  unfold plan_state_update. simpl. destruct f; [done|]. unfold GetSession.
  destruct (sessions d !! id) as [s|]; [|done].
  destruct (Session.TransitionSession _ _ _) as [u|] eqn:E; [|done]. intros [= <-].
  apply TransitionSession_Ok in E as (Hm & Hst & _). rewrite Hst. eauto.
Qed.

Lemma write_state_update_satellites d id target state sat t f1 f2 :
  satellites (write_state_update (H := DB_store marshal) uuid_Parse Itoa d id target state sat t f1 f2)
  = satellites d.
Proof.
  unfold write_state_update. simpl.
  assert (∀ d' o, UpdateState d id target t f1 = (d', o) → satellites d' = satellites d) as Hu.
  { unfold UpdateState, exec_row, exec. intros d' o Hd. repeat case_match; by simplify_eq. }
  destruct (UpdateState _ _ _ _ _) as [d' [er|]] eqn:E; [by eapply Hu|]. rewrite <-(Hu d' None eq_refl).
  unfold WriteEventLog. simpl. destruct (marshal _); [|done]. by destruct f2.
Qed.

Lemma set_lifecycle_row d id s st t a b c u :
  row_ok d id s → IsValid st = true → row_ok d id (set_lifecycle s st t a b c u).
Proof. intros (? & _ & ?) Hv. by split_and!. Qed.

Lemma write_state_update_ok d id target state sat t f1 f2 :
  db_ok d → IsValid target = true →
  db_ok (write_state_update (H := DB_store marshal) uuid_Parse Itoa d id target state sat t f1 f2).
Proof.
  intros Hok Hv id' s' Hs'. apply GetSession_lookup in Hs'. unfold row_ok.
  rewrite write_state_update_satellites.
  destruct (decide (id' = id)) as [->|Hne].
  - destruct (write_state_update_get (H := DB_store marshal) (SessionStoreLaws0 := DB_laws marshal)
      uuid_Parse Itoa d id target state sat t f1 f2)
      as [(s & u & Hs & Hu & Hw)|Heq].
    + rewrite <-(Ok_inj (E := store_error) _ _ (eq_trans (eq_sym Hu) Hs')), Hw.
      apply set_lifecycle_row; [|done]. by apply Hok, GetSession_lookup.
    + apply Hok, GetSession_lookup. rewrite <-Hs'. symmetry. exact Heq.
  - apply Hok, GetSession_lookup. rewrite <-Hs'. symmetry.
    exact (write_state_update_other (H := DB_store marshal) (SessionStoreLaws0 := DB_laws marshal)
      uuid_Parse Itoa d id id' target state sat t f1 f2 Hne).
Qed.

Lemma session_state_update_ok d id state sat t f0 f1 f2 :
  db_ok d →
  let d' := session_state_update (H := DB_store marshal) uuid_Parse Itoa d id state sat t f0 f1 f2 in
  db_ok d' ∧ satellites d' = satellites d.
Proof.
  intros Hok. unfold session_state_update. destruct (plan_state_update _ _ _ _ _ _) as [target|] eqn:E;
    [|done]. apply plan_Some in E as (_ & s & Hs & Hm & _).
  split; [|apply write_state_update_satellites]. apply write_state_update_ok; [done|].
  by apply may_valid in Hm as [_ ?].
Qed.

Lemma update_run_ok n id u f :
  nexus_ok n → nexus_ok (set_runs n (Runs.UpdateAgentRun (runs n) id u f).1).
Proof.
  intros Hok. apply set_runs_ok; [done|].
  by apply (Runs.UpdateAgentRun_keys (runs n) id u f (n_runs n Hok)).
Qed.

Lemma close_hub_ok n rid :
  nexus_ok n → ∃ h, Hub.Close range_set (hub n) rid = Ret h ∧ keeps n (set_hub n h).
Proof.
  intros Hok. destruct (Hub.Close_ok range_set range_perm (hub n) rid (n_hub n Hok)) as (h & -> & Hh & _).
  exists h. split; [done|]. apply keeps_same; [|done]. by apply set_hub_ok.
Qed.

Lemma fail_run_ok n c sid err e :
  nexus_ok n → ∃ n', fail_run n c sid err e = Ret n' ∧ keeps n n'.
Proof.
  intros Hok. unfold fail_run.
  destruct (_ ≫= _) as [rid|]; [|exists n; split; [done|by apply keeps_same]].
  match goal with |- context [Runs.UpdateAgentRun ?t ?i ?u ?f] =>
    pose proof (update_run_ok n i u f Hok) as Hr; destruct (Runs.UpdateAgentRun t i u f) as [t' [o|]] end;
    simpl in Hr; [|eexists; split; [done|by apply keeps_same]].
  destruct (has_hub srv); [|eexists; split; [done|by apply keeps_same]].
  destruct (close_hub_ok (set_runs n t') rid Hr) as (h & Hh & Hk). simpl in Hh. rewrite Hh. cbn.
  eexists. split; [done|]. eapply keeps_trans; [|exact Hk]. by apply keeps_same.
Qed.

Lemma terminate_session_ok n c sid err e :
  nexus_ok n → ∃ n' c', terminate_session n c sid err e = Ret (n', c') ∧ keeps n n' ∧
    outboundCh c' = outboundCh c.
Proof.
  intros Hok. unfold terminate_session.
  set (n1 := if has_pool srv then _ else n). set (n2 := if has_registry srv then _ else n1).
  assert (keeps n n1) as Hk1.
  { unfold n1. destruct (has_pool srv); apply keeps_same; try done.
    apply set_pool_ok; [done|]. apply Pool.RemoveBuffer_ok, Hok. }
  assert (keeps n1 n2) as Hk2.
  { destruct Hk1 as [Hok1 _]. unfold n2. destruct (has_registry srv); apply keeps_same; try done.
    apply set_registry_ok; [done|]. apply UnregisterStream_ok, Hok1. }
  assert (nexus_ok n2) as Hok2 by apply Hk2.
  assert (∃ n3, (if has_db srv then fail_run n2 (set_session_ids c (sessionIDs c ∖ {[sid]})) sid err e
                 else Ret n2) = Ret n3 ∧ keeps n2 n3) as (n3 & -> & Hk3).
  { destruct (has_db srv); [by apply fail_run_ok|]. exists n2. split; [done|]. by apply keeps_same. }
  cbn. eexists _, _. split; [done|]. split; [|done].
  eapply keeps_trans; [exact Hk1|]. by eapply keeps_trans.
Qed.

Lemma handle_state_update_ok n c sid state err e :
  nexus_ok n → open (outbox n) (outboundCh c) →
  ∃ n' c', handle_state_update n c sid state err e = Ret (n', c') ∧ keeps n n' ∧
    outboundCh c' = outboundCh c.
Proof.
  intros Hok Hc. unfold handle_state_update. pose proof (registerSession_ok n c sid Hok Hc) as Hr.
  destruct (registerSession n c sid) as [n1 c1]. destruct Hr as [Hk1 Hch].
  destruct (_ || _); [by exists n1, c1|]. set (n2 := match uuid_Parse sid with Some _ => _ | None => _ end).
  assert (keeps n1 n2) as Hk2.
  { destruct Hk1 as [Hok1 _]. unfold n2. destruct (uuid_Parse sid) as [id|]; [|by apply keeps_same].
    apply keeps_same; [|done]. edestruct (session_state_update_ok (db n1)) as [Hd Hs]; [apply Hok1|].
    apply set_db_ok; [done|exact Hd|exact Hs]. }
  assert (keeps n n2) as Hk by by eapply keeps_trans. case_decide.
  - destruct (terminate_session_ok n2 c1 sid err e) as (n3 & c3 & -> & Hk3 & Hc3); [apply Hk2|].
    exists n3, c3. split; [done|]. split; [by eapply keeps_trans|congruence].
  - by exists n2, c1.
Qed.

Lemma writer_ok_table (w : Batch.BatchEventWriter (Payload := bytes)) t :
  Batch.writer_ok w →
  Batch.writer_ok (Batch.mkWriter (Batch.buffers w) (Batch.arrays w) (Batch.inflight w) t).
Proof. intros [? ? ? ? ?]. by split. Qed.

Lemma persist_event_ok n rid ty payload seq :
  nexus_ok n → keeps n (persist_event n rid ty payload seq).
Proof.
  intros Hok. unfold persist_event. repeat case_match; apply keeps_same; try done.
  - apply set_batch_ok; [done|]. by apply (Batch.Append_promise grow grow_more), Hok.
  - by apply set_tasks_ok.
Qed.

Lemma end_run_ok n rid ty payload b : nexus_ok n → keeps n (end_run n rid ty payload b).
Proof.
  intros Hok. unfold end_run. destruct (_ && _); [|by apply keeps_same].
  apply keeps_same; [|by destruct (has_batch srv)].
  apply set_tasks_ok.
  destruct (has_batch srv); [|done]. apply set_batch_ok; [done|].
  by apply Batch.Close_promise, Hok.
Qed.

Lemma lookup_run_ch n c sid e : outboundCh (lookup_run n c sid e).1 = outboundCh c.
Proof. unfold lookup_run. by repeat case_match. Qed.

Lemma handle_agent_event_ok n c sid ty payload e :
  nexus_ok n →
  ∃ n' c', handle_agent_event n c sid ty payload e = Ret (n', c') ∧ keeps n n' ∧
    outboundCh c' = outboundCh c.
Proof.
  intros Hok. unfold handle_agent_event.
  set (c1 := set_seq c _). pose proof (lookup_run_ch n c1 sid e) as Hc.
  destruct (lookup_run n c1 sid e) as [c2 found]. destruct (found ≫= uuid_Parse) as [rid|];
    [|exists n, c2; split_and!; [done|by apply keeps_same|done]].
  match goal with |- context [Hub.Publish _ _ _ ?ev] => set (event := ev) end.
  assert (∃ n1, (if has_hub srv
     then h ← Hub.Publish range_set (hub n) rid event; Ret (set_hub n h) else Ret n) = Ret n1 ∧
     keeps n n1) as (n1 & -> & Hk1).
  { destruct (has_hub srv); [|exists n; split; [done|by apply keeps_same]].
    destruct (Hub.Publish_ok range_set range_perm (hub n) rid event (n_hub n Hok)) as (h & -> & Hh & _).
    eexists. split; [done|]. apply keeps_same; [|done]. by apply set_hub_ok. }
  cbn [mbind go_bind]. eexists _, c2. split; [done|]. split; [|done].
  eapply keeps_trans; [exact Hk1|]. eapply keeps_trans; [by apply persist_event_ok, Hk1|].
  apply end_run_ok, persist_event_ok, Hk1.
Qed.

Lemma handle_heartbeat_ok n c e : nexus_ok n → keeps n (handle_heartbeat n c e).
Proof.
  intros Hok. unfold handle_heartbeat. destruct (_ && _); [|by apply keeps_same].
  apply keeps_same; [|done]. by apply update_where_sats_ok.
Qed.

Lemma store_telemetry_ok n sat r e : nexus_ok n → keeps n (store_telemetry n sat r e).
Proof.
  intros Hok. unfold store_telemetry. set (n1 := match pg_uuid sat with Some _ => _ | None => _ end).
  assert (keeps n n1) as Hk1.
  { unfold n1. repeat case_match; apply keeps_same; try done;
      by apply set_telemetry_ok. }
  destruct (tm_available_agents r); [done|]. eapply keeps_trans; [exact Hk1|].
  apply keeps_same; [|done]. apply update_where_sats_ok; [apply Hk1|done].
Qed.

Lemma handle_telemetry_ok n c r e : nexus_ok n → keeps n (handle_telemetry n c r e).
Proof.
  intros Hok. unfold handle_telemetry. destruct (String.eqb _ _); [by apply keeps_same|].
  set (n1 := if has_db srv then _ else n).
  assert (keeps n n1) as Hk1
    by (unfold n1; destruct (has_db srv); [by apply store_telemetry_ok|by apply keeps_same]).
  eapply keeps_trans; [exact Hk1|]. destruct Hk1 as [Hok1 _].
  destruct (has_telemetry srv); apply keeps_same; try done.
  by apply forward_ok.
Qed.

Lemma handle_context_file_ok n file e : nexus_ok n → keeps n (handle_context_file n file e).
Proof.
  intros Hok. unfold handle_context_file. repeat case_match; apply keeps_same; try done;
    by apply set_ctx_files_ok.
Qed.

(** Whatever the payload, the column list does not fit the table. *)
Lemma propose_None c sid payload e : propose c sid payload e = None.
Proof. unfold propose. by repeat case_match. Qed.

Lemma handle_ipc_event_ok n c sid ty payload e :
  nexus_ok n → keeps n (handle_ipc_event n c sid ty payload e).
Proof.
  intros Hok. unfold handle_ipc_event. destruct (_ && _); [|by apply keeps_same].
  rewrite propose_None. apply keeps_same; [|done]. destruct Hok. split; try done.
  simpl. by rewrite n_hitl0.
Qed.

Lemma handle_ok n c msg e :
  nexus_ok n → open (outbox n) (outboundCh c) →
  ∃ n' c', handle n c msg e = Ret (n', c') ∧ keeps n n' ∧ outboundCh c' = outboundCh c.
Proof.
  intros Hok Hc. destruct msg; simpl;
    try (by apply handle_register_ok) || (by apply handle_terminal_data_ok)
      || (by apply handle_state_update_ok) || (by apply handle_buffer_replay_ok)
      || (by apply handle_agent_event_ok);
    (eexists _, _; split; [done|]; split; [|done]).
  all: by (apply handle_ipc_event_ok || apply handle_heartbeat_ok || apply handle_telemetry_ok
           || apply handle_context_file_ok || apply keeps_same).
Qed.

(** *** The other steps *)

Lemma recv_open {A} (h : heap A) k ch : open h ch → open (recv h k).1 ch.
Proof.
  unfold recv, open. intros (x & Hx & Hcl). destruct (h !! k) as [[cp [|a buf] cl]|] eqn:Hk; eauto.
  simpl. destruct (decide (ch = k)) as [->|]; [|rewrite lookup_insert_ne by done; eauto].
  rewrite lookup_insert_eq. eexists. split; [done|]. rewrite Hk in Hx. by injection Hx as <-.
Qed.

Lemma connect_ok n :
  nexus_ok n →
  let '(n', c) := connect n in
  keeps n n' ∧ outbox n !! outboundCh c = None ∧ open (outbox n') (outboundCh c) ∧
  capacity (outbox n') (outboundCh c) = 100%nat ∧ pending (outbox n') (outboundCh c) = [].
Proof.
  intros Hok. unfold connect. pose proof (make_chan_spec (outbox n) 100) as Hm.
  destruct (make_chan _ _) as [h ch]. destruct Hm as [Hf ->]. simpl.
  assert (∀ ch', open (outbox n) ch' → open (<[ch := mkChan 100 [] false]> (outbox n)) ch') as Ho.
  { intros ch' (x & Hx & Hcl). exists x. split; [|done]. rewrite lookup_insert_ne; [done|congruence]. }
  split; [split; [by apply set_outbox_ok|done]|]. split; [done|].
  unfold open, capacity, pending. rewrite lookup_insert_eq. eauto.
Qed.

Lemma unregister_all_routes h l : ∀ r,
  routes_ok h r → routes_ok h (foldl Registry.UnregisterStream r l).
Proof. induction l; simpl; [done|]. intros r Hr. by apply IHl, UnregisterStream_ok. Qed.

Lemma disconnect_ok n c e : nexus_ok n → keeps n (disconnect n c e).
Proof.
  intros Hok. unfold disconnect. set (n1 := unregisterAll n c).
  assert (keeps n n1) as Hk1.
  { unfold n1, unregisterAll. destruct (has_registry srv); apply keeps_same; try done.
    apply set_registry_ok; [done|]. apply unregister_all_routes, Hok. }
  destruct (String.eqb _ _); [done|]. set (n2 := if has_registry srv then _ else n1).
  assert (keeps n1 n2) as Hk2.
  { destruct Hk1 as [Hok1 _]. unfold n2. destruct (has_registry srv); apply keeps_same; try done.
    apply set_registry_ok; [done|]. apply UnregisterSatelliteStream_ok, Hok1. }
  eapply keeps_trans; [exact Hk1|]. eapply keeps_trans; [exact Hk2|]. destruct Hk2 as [Hok2 _].
  destruct (has_db srv); apply keeps_same; try done. by apply update_where_sats_ok.
Qed.

Lemma run_task_ok n t e : nexus_ok n → ∃ n', run_task n t e = Ret n' ∧ keeps n n'.
Proof.
  intros Hok. destruct t as [rid ty payload seq|rid payload]; simpl.
  - eexists. split; [done|]. apply keeps_same; [|done]. apply set_batch_ok; [done|].
    apply writer_ok_table, Hok.
  - pose proof (update_run_ok n rid (end_updates payload (now e)) (flt e 0) Hok) as Hr.
    destruct (Runs.UpdateAgentRun _ _ _ _) as [t' o]. simpl in Hr.
    destruct (has_hub srv); [|eexists; split; [done|by apply keeps_same]].
    destruct (close_hub_ok (set_runs n t') rid Hr) as (h & Hh & Hk). simpl in Hh. rewrite Hh. cbn.
    eexists. split; [done|]. eapply keeps_trans; [|exact Hk]. by apply keeps_same.
Qed.

Lemma row_ok_set_sessions d m id s : row_ok d id s → row_ok (set_sessions d m) id s.
Proof. done. Qed.

Lemma db_ok_insert d id s : db_ok d → row_ok d id s → db_ok (set_sessions d (<[id := s]> (sessions d))).
Proof.
  intros Hok Hr id' s'. simpl. intros [[<- <-]|[_ H]]%lookup_insert_Some; [done|by apply Hok].
Qed.

Lemma TransitionSession_db_ok d id st t f :
  db_ok d → let d' := (TransitionSession d id st t f).1 in db_ok d' ∧ satellites d' = satellites d.
Proof.
  intros Hok. simpl. destruct (TransitionSession_cases d id st t f) as [->|(s & s' & Hs & Ht & ->)];
    [done|]. split; [|done]. apply db_ok_insert; [done|].
  pose proof (TransitionSession_Ok _ _ _ _ Ht) as (Hm & Hst & _).
  rewrite <-(transition_row _ _ _ _ Ht). apply set_lifecycle_row; [by apply Hok|].
  rewrite Hst. by apply may_valid in Hm as [_ ?].
Qed.

Lemma CreateSession_db_ok d s f :
  db_ok d → let d' := (CreateSession d s f).1 in db_ok d' ∧ satellites d' = satellites d.
Proof.
  intros Hok. simpl. destruct (CreateSession_cases d s f) as [->|[Hi ->]]; [done|].
  split; [|done]. apply db_ok_insert; [done|]. unfold insertable in Hi.
  apply andb_true_iff in Hi as [[_ Hk]%andb_true_iff Hv]. apply bool_decide_eq_true in Hk. done.
Qed.

Lemma send_found_ok n (found : option N * bool) msg :
  nexus_ok n → (∀ ch, found = (Some ch, true) → open (outbox n) ch) →
  ∃ h ok, Registry.send_found (outbox n) found msg = Ret (h, ok) ∧ keeps n (set_outbox n h).
Proof.
  intros Hok Hf.
  assert (keeps n (set_outbox n (outbox n))) as Hn by (apply keeps_same; [by apply set_outbox_ok|done]).
  destruct found as [[ch|] [|]]; simpl; eauto.
  destruct (try_send_open (outbox n) ch msg) as (h & ok & -> & _ & _ & _ & Hiff & _); [by apply Hf|].
  exists h, ok. split; [done|]. split; [|simpl; intros; by apply Hiff].
  apply set_outbox_ok; [done|]. intros. by apply Hiff.
Qed.

Lemma GetStream_open n sid ch :
  nexus_ok n → Registry.GetStream (registry n) sid = (Some ch, true) → open (outbox n) ch.
Proof.
  unfold Registry.GetStream. intros Hok. destruct (_ !! sid) as [o|] eqn:H; [|done].
  intros [= ->]. eapply n_routes; eauto.
Qed.

Lemma GetSatelliteStream_open n sat ch :
  nexus_ok n → Registry.GetSatelliteStream (registry n) sat = (Some ch, true) → open (outbox n) ch.
Proof.
  unfold Registry.GetSatelliteStream. intros Hok. destruct (_ !! sat) as [o|] eqn:H; [|done].
  intros [= ->]. eapply n_routes; eauto.
Qed.

(** A step that keeps the streams. *)
Lemma on_nexus_ok s m :
  sys_ok s → (∃ n', m = Ret n' ∧ keeps (nexus s) n') → ∃ s', on_nexus s m = Ret s' ∧ sys_ok s'.
Proof.
  intros [Hn Hc] (n' & -> & Hok & Ho). eexists. split; [done|]. split; [done|].
  intros k c H. simpl. destruct (Hc k c H). auto.
Qed.

Lemma step_ok s l : sys_ok s → ∃ s', step s l = Ret s' ∧ sys_ok s'.
Proof.
  intros Hs. pose proof Hs as [Hok Hc]. destruct l as [|k msg e|k e|k|i e|rid|rid|rid ch|sid msg|sat msg|id st t f|x f];
    cbn [step]; try apply on_nexus_ok; try done.
  - pose proof (connect_ok (nexus s) Hok) as Hk. destruct (connect _) as [n' c].
    destruct Hk as ([Hok' Ho] & Hf & Hop & _). eexists. split; [done|]. split; [done|]. simpl.
    intros k c' [[<- <-]|[_ H]]%lookup_insert_Some; [done|]. destruct (Hc k c' H). auto.
  - destruct (conns s !! k) as [c|] eqn:Hk; [|by exists s]. destruct (Hc k c Hk) as [Hch Hop].
    destruct (handle_ok (nexus s) c msg e Hok) as (n' & c' & -> & [Hok' Ho] & Hc'); [by rewrite Hch|].
    cbn. eexists. split; [done|]. split; [done|]. simpl.
    intros k' c0 [[<- <-]|[_ H]]%lookup_insert_Some; [split; [congruence|auto]|].
    destruct (Hc k' c0 H). auto.
  - destruct (conns s !! k) as [c|] eqn:Hk; [|by exists s]. eexists. split; [done|].
    destruct (disconnect_ok (nexus s) c e Hok) as [Hok' Ho]. split; [done|]. simpl.
    intros k' c0 [_ H]%lookup_delete_Some. destruct (Hc k' c0 H). auto.
  - eexists. split; [done|]. split; [|intros; by apply recv_open].
    apply set_outbox_ok; [done|]. intros. by apply recv_open.
  - destruct (tasks (nexus s) !! i); [|by exists s]. apply on_nexus_ok; [done|].
    by apply (run_task_ok (set_tasks (nexus s) _)), set_tasks_ok.
  - eexists. split; [done|]. apply keeps_same; [|done]. apply set_batch_ok; [done|].
    by apply Batch.Flush_promise, Hok.
  - eexists. split; [done|]. apply keeps_same; [|done]. apply set_hub_ok; [done|].
    pose proof (Hub.Subscribe_ok range_set range_perm (hub (nexus s)) rid (n_hub _ Hok)) as Hsub.
    destruct (Hub.Subscribe _ _). apply Hsub.
  - destruct (Hub.Unsubscribe_ok range_set range_perm (hub (nexus s)) rid ch (n_hub _ Hok))
      as (h & -> & Hh & _).
    eexists. split; [done|]. apply keeps_same; [|done]. by apply set_hub_ok.
  - edestruct (send_found_ok (nexus s)) as (h & ok & Hsend & Hkeep); [done| |].
    { intros ch. by apply GetStream_open. }
    unfold Registry.SendToSession. rewrite Hsend. by eexists.
  - edestruct (send_found_ok (nexus s)) as (h & ok & Hsend & Hkeep); [done| |].
    { intros ch. by apply GetSatelliteStream_open. }
    unfold Registry.SendToSatellite. rewrite Hsend. by eexists.
  - eexists. split; [done|]. apply keeps_same; [|done].
    destruct (TransitionSession_db_ok (db (nexus s)) id st t f (n_db _ Hok)). by apply set_db_ok.
  - eexists. split; [done|]. apply keeps_same; [|done].
    destruct (CreateSession_db_ok (db (nexus s)) x f (n_db _ Hok)). by apply set_db_ok.
Qed.

Lemma run_ok ls : ∀ s, sys_ok s → ∃ s', run s ls = Ret s' ∧ sys_ok s'.
Proof.
  induction ls as [|l ls IH]; intros s Hs; simpl; [by exists s|].
  destruct (step_ok s l Hs) as (s1 & -> & Hs1). cbn. by apply IH.
Qed.

(** ** Properties *)

(** The server at start-up: whatever the tables hold, nothing else yet. *)
Definition boot (d : DB) (t : gmap N Sats.Sat) (r : gmap N Runs.AgentRun) : Sys :=
  mkSys (mkNexus d t r Batch.NewBatchEventWriter ∅ [] Registry.NewStreamRegistry
           (Pool.NewRingBufferPool ∅) ∅ (Hub.NewRunEventHub ∅) [] [] [] []) ∅.

Definition tables_ok (d : DB) (t : gmap N Sats.Sat) (r : gmap N Runs.AgentRun) : Prop :=
  db_ok d ∧ Sats.table_ok t ∧ satellites d = dom t ∧ (∀ id x, r !! id = Some x → Runs.ID x = id).

Lemma boot_ok d t r : tables_ok d t r → sys_ok (boot d t r).
Proof.
  intros (? & ? & ? & ?). split; [split; try done|].
  - apply Batch.NewBatchEventWriter_ok.
  - intros k ch. cbn. intros [Hk|Hk]; by rewrite lookup_empty in Hk.
  - intros k c Hk. cbn in Hk. by rewrite lookup_empty in Hk.
Qed.

(** the gateway never panics and keeps the server's data well formed.
    Whatever any satellites send on any number of streams, however they connect
    and vanish, whichever statements fail, and whatever sends, subscriptions,
    timers, transitions and started goroutines come in between: no step sends
    on or closes a closed channel or indexes out of range; channels in the
    registry stay open; sessions keep valid states and existing satellites;
    satellite names and fingerprints stay unique; the ring buffers, the hub and
    the batch writer keep their invariants. And no proposal is ever stored. *)
Theorem gateway_safe d t r ls :
  tables_ok d t r →
  ∃ s', run (boot d t r) ls = Ret s' ∧ sys_ok s' ∧ hitl (nexus s') = [].
Proof.
  intros H. destruct (run_ok ls _ (boot_ok d t r H)) as (s' & Hr & Hok).
  exists s'. split; [done|]. split; [done|]. apply Hok.
Qed.

(** What [write_state_update] leaves in the table when nothing fails. *)
Lemma write_state_update_lookup d id target state sat t s :
  sessions d !! id = Some s → IsValid target = true →
  sessions (write_state_update (H := DB_store marshal) uuid_Parse Itoa d id target state sat t
    NoFault NoFault) =
  <[id := set_lifecycle s target t (StartedAt s) (DetachedAt s) (SuspendedAt s) (TerminatedAt s)]>
    (sessions d).
Proof.
  intros Hs Hv. unfold write_state_update. simpl. unfold UpdateState, exec_row. rewrite Hs, Hv.
  simpl. rewrite ?andb_false_r. simpl. unfold WriteEventLog. simpl. by destruct (marshal _).
Qed.

Lemma plan_iff d id state t s :
  sessions d !! id = Some s →
  plan_state_update (H := DB_store marshal) Itoa d id state t false =
    if decide (IsTransitionValid (State s) (convertProtoToSessionState Itoa state) = true)
    then Some (convertProtoToSessionState Itoa state) else None.
Proof.
  intros Hs. unfold plan_state_update. simpl. unfold GetSession. rewrite Hs.
  destruct (Session.TransitionSession _ _ _) as [u|] eqn:E; case_decide as Hd; try done.
  - by apply TransitionSession_Ok in E as (_ & -> & _).
  - destruct Hd. apply IsTransitionValid_may. by apply TransitionSession_Ok in E as (? & _).
  - apply IsTransitionValid_may in Hd. eapply TransitionSession_may in Hd as [? Hu].
    rewrite Hu in E. done.
Qed.

(** A report along the diagram, when nothing fails. *)
Lemma session_state_update_moves d id state sat t s :
  sessions d !! id = Some s → may (State s) (convertProtoToSessionState Itoa state) →
  sessions (session_state_update (H := DB_store marshal) uuid_Parse Itoa d id state sat t false NoFault NoFault) =
    <[id := set_lifecycle s (convertProtoToSessionState Itoa state) t (StartedAt s) (DetachedAt s)
              (SuspendedAt s) (TerminatedAt s)]> (sessions d).
Proof.
  intros Hs Hm. unfold session_state_update. rewrite (plan_iff _ _ _ _ _ Hs).
  rewrite decide_True by (by apply IsTransitionValid_may).
  apply write_state_update_lookup; [done|]. by apply may_valid in Hm as [_ ?].
Qed.

Hypothesis arrange_sess_perm : ∀ l, arrange_sess l ≡ₚ l.

(** C3: what a state report does to the session. Handled without interruption
    and failure, it moves the row along the state diagram or, when the diagram
    has no such edge, leaves the database alone; other rows never change. But
    only the state and the activity time are written: no lifecycle timestamp is
    ever set, so a session that its satellite reports as TERMINATED stays in
    the listing of active sessions. *)
Theorem state_update_effect d id state sat t s :
  db_ok d → sessions d !! id = Some s →
  let d' := session_state_update (H := DB_store marshal) uuid_Parse Itoa d id state sat t false
              NoFault NoFault in
  let target := convertProtoToSessionState Itoa state in
  (may (State s) target →
     sessions d' = <[id := set_lifecycle s target t (StartedAt s) (DetachedAt s) (SuspendedAt s)
                             (TerminatedAt s)]> (sessions d)) ∧
  (¬ may (State s) target → d' = d) ∧
  (state = SESSION_STATE_TERMINATED → State s ≠ StateTerminated → TerminatedAt s = None →
     ∃ l s', ListActiveSessions arrange_sess d' QueryOk = Ok l ∧ s' ∈ l ∧
       ID s' = id ∧ State s' = StateTerminated).
Proof.
  intros Hok Hs d' target.
  assert (may (State s) target → sessions d' = <[id := set_lifecycle s target t (StartedAt s)
    (DetachedAt s) (SuspendedAt s) (TerminatedAt s)]> (sessions d)) as Hmay
    by (intros; by apply session_state_update_moves).
  split; [done|]. split.
  { intros Hno. unfold d', session_state_update. rewrite (plan_iff _ _ _ _ _ Hs).
    rewrite decide_False; [done|]. by rewrite IsTransitionValid_may. }
  intros -> Hst Hnone. destruct (Hok _ _ Hs) as (Hid & Hv & _).
  assert (may (State s) target) as Hm by by constructor. specialize (Hmay Hm).
  eexists _, (set_lifecycle s target t (StartedAt s) (DetachedAt s) (SuspendedAt s) (TerminatedAt s)).
  split; [apply run_query_ok|]. split; [|by split].
  apply by_created_perm; [done| |].
  - intros i x Hx. pose proof (session_state_update_ok d id SESSION_STATE_TERMINATED sat t false
      NoFault NoFault Hok) as [Hok' _]. by apply (Hok' i x).
  - split; [|exact Hnone]. rewrite Hmay. simpl. rewrite Hid. by rewrite lookup_insert_eq.
Qed.

(** a report that was checked too early undoes a termination. The gateway
    reads the row, checks the transition in memory and then writes the state
    without looking again. If the API terminates the session in between, the
    write still succeeds: the session is back in the reported state, with a
    termination time, and so missing from the listing of active sessions. *)
Theorem stale_report_resurrects d id state sat t0 t1 t2 s target :
  db_ok d → sessions d !! id = Some s →
  plan_state_update (H := DB_store marshal) Itoa d id state t0 false = Some target →
  target ≠ StateTerminated → TerminatedAt s = None →
  let d1 := (TransitionSession d id StateTerminated t1 TxOk).1 in
  let d2 := write_state_update (H := DB_store marshal) uuid_Parse Itoa d1 id target state sat t2
              NoFault NoFault in
  (State <$> sessions d1 !! id) = Some StateTerminated ∧
  (State <$> sessions d2 !! id) = Some target ∧
  ∃ l, ListActiveSessions arrange_sess d2 QueryOk = Ok l ∧ ∀ x, x ∈ l → ID x ≠ id.
Proof.
  intros Hok Hs Hp Ht Hnone d1 d2. apply plan_Some in Hp as (_ & s' & Hs' & Hm & Heq).
  assert (s' = s) as -> by congruence. destruct (Hok _ _ Hs) as (Hid & Hv & Hfk).
  pose proof (may_valid _ _ Hm) as [_ Hvt].
  assert (∃ u, Session.TransitionSession s StateTerminated t1 = Ok u ∧ State u = StateTerminated ∧
    TerminatedAt u = Some t1) as (u & Hu & Hus & Hut).
  { assert (may (State s) StateTerminated) as Hm' by (constructor; [done|by apply may_not_terminated in Hm]).
    destruct (TransitionSession_may s StateTerminated t1 Hm') as [u Hu]. exists u. split; [done|].
    split; [by apply TransitionSession_Ok in Hu as (_ & ? & _)|].
    revert Hu. unfold Session.TransitionSession. apply IsTransitionValid_may in Hm'. rewrite Hm'.
    by intros [= <-]. }
  assert (d1 = set_sessions d (<[id := u]> (sessions d))) as Hd1.
  { unfold d1, TransitionSession. rewrite Hs, Hu. simpl. by rewrite (transition_row _ _ _ _ Hu). }
  assert (sessions d1 !! id = Some u) as Hl1 by (rewrite Hd1; simpl; by rewrite lookup_insert_eq).
  assert (sessions d2 = _) as Hd2
    by exact (write_state_update_lookup d1 id target state sat t2 u Hl1 Hvt).
  split; [by rewrite Hl1; simpl; rewrite Hus|]. split; [by rewrite Hd2, lookup_insert_eq|].
  eexists. split; [apply run_query_ok|]. intros x Hx Hxid.
  apply by_created_perm in Hx as [Hx Hxt]; [|done|].
  - rewrite Hd2, Hxid, lookup_insert_eq in Hx. injection Hx as <-. simpl in Hxt. congruence.
  - intros i y Hy. assert (db_ok d2) as Hok2.
    { apply write_state_update_ok; [|done]. by apply (TransitionSession_db_ok d id StateTerminated t1 TxOk). }
    by apply (Hok2 i y).
Qed.

(** *** What a stream's messages do to the registry *)

Definition is_register (msg : SatelliteMessage) : bool :=
  match msg with RegisterRequest _ => true | _ => false end.
Definition terminates (sid : string) (msg : SatelliteMessage) : bool :=
  match msg with
  | SessionStateUpdate s st _ _ => String.eqb s sid && bool_decide (st = SESSION_STATE_TERMINATED)
  | _ => false
  end.

Fixpoint handle_all (n : Nexus) (c : Conn) (ms : list (SatelliteMessage * env)) : go (Nexus * Conn) :=
  match ms with
  | [] => Ret (n, c)
  | (msg, e) :: ms' => '(n', c') ← handle n c msg e; handle_all n' c' ms'
  end.

Notation sat_routes n := (Registry.satelliteStreams (registry n)).
Notation sess_routes n := (Registry.sessionStreams (registry n)).

(** The routes of satellites stay, and a session this stream has already
    mentioned is not registered again. *)
Definition routes_kept (sid : string) (n : Nexus) (c : Conn) (n' : Nexus) (c' : Conn) : Prop :=
  sat_routes n' = sat_routes n ∧
  (sid ∈ sessionIDs c → sess_routes n !! sid = None →
   sid ∈ sessionIDs c' ∧ sess_routes n' !! sid = None).

Lemma routes_kept_trans sid n1 c1 n2 c2 n3 c3 :
  routes_kept sid n1 c1 n2 c2 → routes_kept sid n2 c2 n3 c3 → routes_kept sid n1 c1 n3 c3.
Proof. intros [Ha Hb] [Hc Hd]. split; [congruence|]. intros H1 H2. destruct (Hb H1 H2). auto. Qed.

Lemma routes_kept_same sid n c n' c' :
  registry n' = registry n → sessionIDs c' = sessionIDs c → routes_kept sid n c n' c'.
Proof. intros Hr Hs. unfold routes_kept. rewrite Hr, Hs. auto. Qed.

Lemma registerSession_routes sid n c s :
  let '(n', c') := registerSession n c s in routes_kept sid n c n' c'.
Proof.
  unfold registerSession. destruct (String.eqb s ""); [by apply routes_kept_same|].
  case_decide as Hin; [by apply routes_kept_same|]. split; [by destruct (has_registry srv)|].
  intros Hc Hn. simpl. split; [set_solver|]. destruct (has_registry srv); [|done]. simpl.
  rewrite lookup_insert_ne; [done|]. by intros ->.
Qed.

Lemma pool_write_registry n sid data n' :
  pool_write n sid data = Ret n' → registry n' = registry n.
Proof.
  unfold pool_write. destruct (Pool.GetOrCreateBuffer _ _) as [p rb].
  rewrite go_bind_Ret. by intros (p' & _ & [= <-]).
Qed.

Lemma fail_run_registry n c sid err e n' :
  fail_run n c sid err e = Ret n' → registry n' = registry n.
Proof.
  unfold fail_run. destruct (_ ≫= _) as [rid|]; [|by intros [= <-]].
  destruct (Runs.UpdateAgentRun _ _ _ _) as [t [o|]]; [|by intros [= <-]].
  destruct (has_hub srv); [|by intros [= <-]]. rewrite go_bind_Ret. by intros (h & _ & [= <-]).
Qed.

Lemma handle_routes sid n c msg e n' c' :
  handle n c msg e = Ret (n', c') → is_register msg = false → terminates sid msg = false →
  routes_kept sid n c n' c'.
Proof.
  intros H Hr Ht. destruct msg as [r|s data|s st ts err|s ty p|  |tm|s data| |s ty p|file| |]; try done; simpl in H.
  - revert H. unfold handle_terminal_data. pose proof (registerSession_routes sid n c s) as Hk.
    destruct (registerSession n c s) as [n1 c1]. destruct (_ || _); [by intros [= <- <-]|].
    rewrite go_bind_Ret. intros (n2 & Hw & [= <- <-]). eapply routes_kept_trans; [exact Hk|].
    apply routes_kept_same; [|done]. destruct (has_pool srv).
    + apply pool_write_registry in Hw. by destruct (has_recording srv).
    + injection Hw as <-. by destruct (has_recording srv).
  - revert H. unfold handle_state_update. pose proof (registerSession_routes sid n c s) as Hk.
    destruct (registerSession n c s) as [n1 c1]. destruct (_ || _); [by intros [= <- <-]|].
    set (n2 := match uuid_Parse s with Some _ => _ | None => _ end).
    assert (registry n2 = registry n1) as Hn2 by (unfold n2; by destruct (uuid_Parse s)).
    case_decide as Hst; [|intros [= <- <-]; eapply routes_kept_trans; [exact Hk|by apply routes_kept_same]].
    unfold terminate_session. rewrite go_bind_Ret. intros (n3 & Hf & [= <- <-]).
    eapply routes_kept_trans; [exact Hk|].
    assert (registry n3 = registry (if has_registry srv
      then set_registry n2 (Registry.UnregisterStream (registry n2) s) else n2)) as Hr3.
    { destruct (has_db srv); [apply fail_run_registry in Hf|injection Hf as <-];
        revert Hf || clear; destruct (has_pool srv), (has_registry srv); simpl; congruence. }
    unfold routes_kept. rewrite Hr3, <-Hn2. split; [by destruct (has_registry srv)|]. simpl in Ht.
    rewrite bool_decide_true, andb_true_r in Ht by done. apply String.eqb_neq in Ht.
    intros Hin Hnone. split; [simpl; set_solver|]. destruct (has_registry srv); [|done]. simpl.
    by rewrite lookup_delete_ne.
  - injection H as <- <-. apply routes_kept_same; [|done]. unfold handle_ipc_event. by case_match.
  - injection H as <- <-. apply routes_kept_same; [|done]. unfold handle_heartbeat. by case_match.
  - injection H as <- <-. apply routes_kept_same; [|done].
    unfold handle_telemetry, store_telemetry. by repeat case_match.
  - revert H. unfold handle_buffer_replay. pose proof (registerSession_routes sid n c s) as Hk.
    destruct (registerSession n c s) as [n1 c1]. destruct (_ || _); [by intros [= <- <-]|].
    rewrite go_bind_Ret. intros (n2 & Hw & [= <- <-]). eapply routes_kept_trans; [exact Hk|].
    apply routes_kept_same; [|done]. by apply pool_write_registry in Hw.
  - injection H as <- <-. by apply routes_kept_same.
  - revert H. unfold handle_agent_event. set (c1 := set_seq c _).
    assert (sessionIDs (lookup_run n c1 s e).1 = sessionIDs c) as Hc
      by (unfold lookup_run; by repeat case_match).
    destruct (lookup_run n c1 s e) as [c2 found]. destruct (found ≫= uuid_Parse);
      [|intros [= <- <-]; by apply routes_kept_same].
    rewrite go_bind_Ret. intros (n1 & Hp & [= <- <-]). apply routes_kept_same; [|done].
    assert (registry n1 = registry n) as Hr1.
    { destruct (has_hub srv); [|by injection Hp as <-].
      apply go_bind_Ret in Hp as (h & _ & [= <-]). done. }
    unfold end_run, persist_event. by repeat case_match.
  - injection H as <- <-. apply routes_kept_same; [|done].
    unfold handle_context_file. by repeat case_match.
  - injection H as <- <-. by apply routes_kept_same.
  - injection H as <- <-. by apply routes_kept_same.
Qed.

Lemma handle_all_routes sid ms : ∀ n c n' c',
  handle_all n c ms = Ret (n', c') →
  Forall (λ me, is_register me.1 = false ∧ terminates sid me.1 = false) ms →
  routes_kept sid n c n' c'.
Proof.
  induction ms as [|[msg e] ms IH]; intros n c n' c' H Hf; simpl in H.
  { injection H as <- <-. by apply routes_kept_same. }
  apply go_bind_Ret in H as ([n1 c1] & H1 & H2). apply Forall_cons in Hf as [[Hr Ht] Hf].
  eapply routes_kept_trans; [by eapply handle_routes|]. by eapply IH.
Qed.

Lemma handle_sat_routes n c msg e n' c' :
  handle n c msg e = Ret (n', c') → is_register msg = false → sat_routes n' = sat_routes n.
Proof.
  intros H Hr.
  assert (∃ sid, terminates sid msg = false) as [sid Hs].
  { destruct msg as [| |s| | | | | | | | |]; try by exists "".
    exists ("x" +:+ s). cbn [terminates]. rewrite (proj2 (String.eqb_neq s ("x" +:+ s))); [done|].
    intros Hs. apply (f_equal String.length) in Hs. change ("x" +:+ s) with (String (Ascii.ascii_of_nat 120) s) in Hs. simpl in Hs. lia. }
  by apply (handle_routes sid) in H as [? _].
Qed.

Lemma handle_all_sat_routes ms : ∀ n c n' c',
  handle_all n c ms = Ret (n', c') → Forall (λ me, is_register me.1 = false) ms →
  sat_routes n' = sat_routes n.
Proof.
  induction ms as [|[msg e] ms IH]; intros n c n' c' H Hf; simpl in H; [by injection H as <- <-|].
  apply go_bind_Ret in H as ([n1 c1] & H1 & H2). apply Forall_cons in Hf as [Hr Hf].
  rewrite (IH _ _ _ _ H2 Hf). by eapply handle_sat_routes.
Qed.

Lemma unregister_all_lookup l : ∀ r sid,
  Registry.satelliteStreams (foldl Registry.UnregisterStream r l) = Registry.satelliteStreams r ∧
  (sid ∈ l ∨ Registry.sessionStreams r !! sid = None →
   Registry.sessionStreams (foldl Registry.UnregisterStream r l) !! sid = None).
Proof.
  induction l as [|x l IH]; intros r sid; simpl.
  { split; [done|]. by intros [?%elem_of_nil|?]. }
  destruct (IH (Registry.UnregisterStream r x) sid) as [Hs Hn]. split; [done|].
  intros H. apply Hn. simpl. rewrite lookup_delete_None.
  destruct H as [[->|?]%elem_of_cons|?]; auto.
Qed.

Lemma disconnect_routes n c e sid :
  has_registry srv = true → satelliteID c ≠ "" →
  sat_routes (disconnect n c e) !! satelliteID c = None ∧
  (sid ∈ sessionIDs c → sess_routes (disconnect n c e) !! sid = None).
Proof.
  intros Hreg Hsat. unfold disconnect, unregisterAll. apply String.eqb_neq in Hsat. rewrite Hsat, Hreg.
  destruct (unregister_all_lookup (elements (sessionIDs c)) (registry n) sid) as [Hs Hn].
  assert (∀ f, registry (set_sats f (sats f)) = registry f) as Hf by done.
  destruct (has_db srv); simpl; rewrite lookup_delete_eq; (split; [done|]); intros Hin; apply Hn;
    left; by apply elem_of_elements.
Qed.

(** a stream that dies late cuts off its successor. When a satellite has
    reconnected and its old stream then ends, the clean-up removes the routes
    by name, whoever registered them: the satellite, and every session the old
    stream has carried, are unreachable, and the row is offline. Nothing the
    new stream sends, short of registering again, restores the route of the
    satellite; and a session it has already mentioned stays unreachable until
    the satellite reports it as terminated. *)
Theorem late_disconnect_cuts_off n old new e ms n' new' :
  has_registry srv = true → has_db srv = true → satelliteID old ≠ "" →
  Forall (λ me, is_register me.1 = false) ms →
  handle_all (disconnect n old e) new ms = Ret (n', new') →
  (∀ msg, Registry.SendToSatellite (registry n') (outbox n') (satelliteID old) msg =
          Ret (outbox n', false)) ∧
  (∀ sid msg, sid ∈ sessionIDs old → sid ∈ sessionIDs new →
     Forall (λ me, terminates sid me.1 = false) ms →
     Registry.SendToSession (registry n') (outbox n') sid msg = Ret (outbox n', false)) ∧
  (flt e 0 = NoFault → ∀ id s, sats n !! id = Some s → uuid_String id = satelliteID old →
     Sats.s_status <$> sats (disconnect n old e) !! id = Some "offline").
Proof.
  intros Hreg Hdb Hsat Hms Hall. split; [|split].
  - intros msg. unfold Registry.SendToSatellite, Registry.GetSatelliteStream.
    rewrite (handle_all_sat_routes _ _ _ _ _ Hall Hms).
    by rewrite (proj1 (disconnect_routes n old e "" Hreg Hsat)).
  - intros sid msg Hold Hnew Hq. unfold Registry.SendToSession, Registry.GetStream.
    assert (Forall (λ me, is_register me.1 = false ∧ terminates sid me.1 = false) ms) as Hboth
      by (by apply Forall_and).
    destruct (handle_all_routes sid _ _ _ _ _ Hall Hboth) as [_ Hk].
    destruct Hk as [_ ->]; [done| |done]. by apply disconnect_routes.
  - intros Hf id s Hs Hid. unfold disconnect. apply String.eqb_neq in Hsat. rewrite Hsat, Hdb, Hreg.
    unfold unregisterAll. rewrite Hreg. simpl. unfold Sats.set_offline, Sats.update_where. rewrite Hf.
    rewrite map_lookup_imap, Hs. simpl. rewrite bool_decide_true; [done|]. by left.
Qed.

(** to whom an agent event is attributed. The first event of a session goes
    to the newest run the table says is running. From then on the stream keeps
    that run for the session: every later event, with the next sequence number,
    is published to its subscribers and stored for it, also after it has ended
    with [agent_end] and another run of the session is under way; nothing looks
    at the table again. *)
Theorem agent_event_sticks n c sid ty payload e rid :
  (∀ id, uuid_Parse (uuid_String id) = Some id) →
  has_db srv = true → has_hub srv = true → nexus_ok n → sid ≠ "" →
  sessionRunMap c !! sid = Some (uuid_String rid) ∨
  (sessionRunMap c !! sid = None ∧ flt e 0 = NoFault ∧
   Runs.running_run arrange_runs uuid_String (runs n) sid false = Some rid) →
  let seq := default 0 (agentSeq c !! sid) + 1 in
  ∃ n' c' h,
    handle n c (AgentEvent sid ty payload) e = Ret (n', c') ∧
    sessionRunMap c' !! sid = Some (uuid_String rid) ∧ agentSeq c' !! sid = Some seq ∧
    Hub.Publish range_set (hub n) rid
      (mkStreamEvent (uuid_String (new_id e)) (uuid_String rid) ty payload seq (now e)) = Ret h ∧
    hub n' = h ∧ runs n' = runs n ∧
    tasks n' = tasks n ++
      (if isBatchable ty && has_batch srv then [] else [InsertEvent rid ty payload seq]) ++
      (if String.eqb ty "agent_end" then [FinishRun rid payload] else []) ∧
    (isBatchable ty && has_batch srv = true →
     batch n' = Batch.Append grow (batch n) (Batch.mkEvent rid ty payload seq)).
Proof.
  intros Hpp Hdb Hhub Hok Hsid Hmap seq.
  set (c1 := set_seq c (<[sid := seq]> (agentSeq c))).
  assert (∃ c2, lookup_run n c1 sid e = (c2, Some (uuid_String rid)) ∧
    sessionRunMap c2 !! sid = Some (uuid_String rid) ∧ agentSeq c2 = agentSeq c1) as (c2 & Hl & Hm & Hs).
  { unfold lookup_run. simpl. destruct Hmap as [Hmap|(Hmap & Hf & Hrun)]; rewrite Hmap.
    - by exists c1.
    - apply String.eqb_neq in Hsid. rewrite Hdb, Hsid, Hf. cbn [fails andb negb]. rewrite Hrun. eexists.
      split; [done|]. simpl. by rewrite lookup_insert_eq. }
  set (ev := mkStreamEvent (uuid_String (new_id e)) (uuid_String rid) ty payload seq (now e)).
  destruct (Hub.Publish_ok range_set range_perm (hub n) rid ev (n_hub n Hok)) as (h' & Hpub & _).
  exists (end_run (persist_event (set_hub n (Hub.mkHub (Hub.clients (hub n)) (Hub.subs (hub n)) h'))
                     rid ty payload seq) rid ty payload (lands (flt e 1))), c2.
  eexists. split.
  { simpl. unfold handle_agent_event. fold seq. fold c1. rewrite Hl. simpl. rewrite Hpp, Hhub.
    fold ev. by rewrite Hpub. }
  split; [done|]. split; [rewrite Hs; simpl; by rewrite lookup_insert_eq|]. split; [exact Hpub|].
  unfold end_run, persist_event. rewrite Hdb. simpl.
  destruct (String.eqb_spec ty "agent_end") as [->|Hne]; simpl.
  - destruct (has_batch srv); simpl; by rewrite <-(assoc_L (++)).
  - destruct (isBatchable ty && has_batch srv); simpl; by rewrite ?app_nil_r.
Qed.

(** What the pool keeps for a session, and how much it can keep. *)
Definition buffer_of (n : Nexus) (sid : string) : option Ring.RingBuffer :=
  Pool.buffers (pool n) !! sid ≫= λ rb, Pool.store (pool n) !! rb.
Definition scrollback (n : Nexus) (sid : string) : bytes :=
  from_option Ring.contents [] (buffer_of n sid).
Definition scrollback_cap (n : Nexus) (sid : string) : Z :=
  from_option Ring.Capacity Ring.DefaultCapacity (buffer_of n sid).

Lemma new_buffer_contents : Ring.contents (Ring.NewRingBuffer 0) = [].
Proof. done. Qed.

(** The write of a session's bytes, in room that is there. *)
Lemma pool_write_any n sid data :
  Pool.pool_ok (pool n) →
  Z.of_nat (length (scrollback n sid)) + Z.of_nat (length data) <= scrollback_cap n sid →
  ∃ n', pool_write n sid data = Ret n' ∧ scrollback n' sid = scrollback n sid ++ data ∧
    (∀ sid', sid' ≠ sid → scrollback n' sid' = scrollback n sid') ∧
    registry n' = registry n ∧ recorded n' = recorded n.
Proof.
  intros Hok Hroom. unfold pool_write.
  pose proof (Pool.GetOrCreateBuffer_ok _ sid Hok) as Hp.
  assert (∀ p rb b, Pool.GetOrCreateBuffer (pool n) sid = (p, rb) → Pool.store p !! rb = Some b →
    Ring.contents b = scrollback n sid ∧ Ring.Capacity b = scrollback_cap n sid) as Hb.
  { intros p rb b. unfold Pool.GetOrCreateBuffer, scrollback, scrollback_cap, buffer_of.
    destruct (Pool.buffers (pool n) !! sid) as [rb0|]; simpl.
    - intros [= <- <-] Hb. by rewrite Hb.
    - intros [= <- <-]. simpl. rewrite lookup_insert_eq. by intros [= <-]. }
  destruct (Pool.GetOrCreateBuffer _ _) as [p rb]. destruct Hp as (Hp & Hrb & Hother & Hkeys).
  destruct (Pool.pool_alloc p Hp _ _ Hrb) as [b Hst]. destruct (Hb _ _ _ eq_refl Hst) as [Hc Hcap].
  destruct (Pool.buffer_write_ok p rb data b Hp Hst) as (b' & Hw & -> & _).
  pose proof (Pool.pool_wf p Hp _ _ Hst) as Hwf. pose proof Hwf as [_ _ Hl].
  assert (Z.of_nat (length (Ring.contents b)) = Ring.len b) as Hlen by (unfold Ring.contents; len_lia).
  destruct (Ring.write_bytes_room data b Hwf) as (b2 & Hw2 & _ & Hc2).
  { rewrite <-Hcap in Hroom. unfold Ring.Capacity in Hroom. rewrite <-Hc in Hroom. lia. }
  assert (b2 = b') as -> by (apply Ret_inj; congruence).
  eexists. split; [done|]. split_and!; try done.
  - unfold scrollback at 1, buffer_of. simpl. rewrite Hrb. simpl. rewrite lookup_insert_eq. simpl.
    by rewrite Hc2, Hc.
  - intros sid' Hne. unfold scrollback, buffer_of. simpl.
    destruct (Pool.buffers (pool n) !! sid') as [rb'|] eqn:Hs'.
    + destruct (Hother _ _ Hs') as [Hin Heq]. rewrite Hin. simpl.
      rewrite lookup_insert_ne; [by rewrite Heq|].
      intros ->. by apply Hne, (Pool.pool_inj p Hp _ _ rb').
    + by rewrite (Hkeys _ Hne), Hs'.
Qed.

(** C19: terminal output reaches the scrollback of its session and no other. If the buffer
    has room for it, a TerminalData or BufferReplay message appends its bytes to the
    session's buffer (a first one makes it), leaves every other session's alone, and hands
    TerminalData to the recorder. A session that this stream has not seen is routed to it;
    for one that it has, the routes stay as they are, also where another stream has taken
    the route since. Nothing tells bytes that are replayed after a reconnect from new
    ones: what the server still had is there twice. *)
Theorem output_reaches_scrollback n c sid data e (replay : bool) :
  nexus_ok n → sid ≠ "" → data ≠ [] → has_pool srv = true → has_registry srv = true →
  Z.of_nat (length (scrollback n sid)) + Z.of_nat (length data) <= scrollback_cap n sid →
  ∃ n' c',
    handle n c (if replay then BufferReplay sid data else TerminalData sid data) e = Ret (n', c') ∧
    scrollback n' sid = scrollback n sid ++ data ∧
    (∀ sid', sid' ≠ sid → scrollback n' sid' = scrollback n sid') ∧
    recorded n' = recorded n ++ (if has_recording srv && negb replay then [(sid, data)] else []) ∧
    sid ∈ sessionIDs c' ∧
    (sid ∉ sessionIDs c → Registry.GetStream (registry n') sid = (Some (outboundCh c), true)) ∧
    (sid ∈ sessionIDs c → registry n' = registry n).
Proof.
  intros Hok Hsid Hdata Hpool Hreg Hroom.
  destruct (registerSession n c sid) as [n1 c1] eqn:Hrs.
  assert (n1 = (if decide (sid ∈ sessionIDs c) then n
    else set_registry n (Registry.RegisterStream (registry n) sid (Some (outboundCh c)))) ∧
    sid ∈ sessionIDs c1) as [Hn1 Hin].
  { revert Hrs. unfold registerSession. apply String.eqb_neq in Hsid. rewrite Hsid, Hreg.
    case_decide; intros [= <- <-]; [done|]. simpl. split; [done|set_solver]. }
  assert (pool n1 = pool n ∧ recorded n1 = recorded n) as [Hp1 Hr1]
    by (rewrite Hn1; by case_decide).
  assert (∀ s, scrollback n1 s = scrollback n s) as Hsb
    by (intros s; unfold scrollback, buffer_of; by rewrite Hp1).
  destruct (pool_write_any n1 sid data) as (n2 & Hw & Hs2 & Ho2 & Hreg2 & Hrec2).
  { rewrite Hp1. apply Hok. }
  { rewrite Hsb. unfold scrollback_cap, buffer_of. by rewrite Hp1. }
  assert (sid ∉ sessionIDs c → Registry.GetStream (registry n2) sid = (Some (outboundCh c), true)) as Hroute.
  { intros Hni. rewrite Hreg2, Hn1, decide_False by done. unfold Registry.GetStream. simpl.
    by rewrite lookup_insert_eq. }
  assert (sid ∈ sessionIDs c → registry n2 = registry n) as Hstay.
  { intros Hi. by rewrite Hreg2, Hn1, decide_True. }
  rewrite Hsb in Hs2. setoid_rewrite Hsb in Ho2. apply String.eqb_neq in Hsid.
  destruct replay; simpl.
  - exists n2, c1. unfold handle_buffer_replay. rewrite Hrs, Hsid, Hpool, bool_decide_false by done.
    simpl. rewrite Hw. rewrite andb_false_r, app_nil_r. split_and!; try done. congruence.
  - exists (if has_recording srv then record_data n2 sid data else n2), c1.
    unfold handle_terminal_data. rewrite Hrs, Hsid, Hpool, bool_decide_false by done. simpl.
    rewrite Hw. rewrite andb_true_r. split; [done|].
    destruct (has_recording srv); rewrite ?app_nil_r; split_and!; try done; simpl; congruence.
Qed.

(** A message queued with room for it. *)
Lemma queue_pending n c msg :
  open (outbox n) (outboundCh c) →
  (length (pending (outbox n) (outboundCh c)) < capacity (outbox n) (outboundCh c))%nat →
  ∃ h, queue n c msg = Ret (set_outbox n h) ∧ open h (outboundCh c) ∧
    pending h (outboundCh c) = pending (outbox n) (outboundCh c) ++ [msg] ∧
    capacity h (outboundCh c) = capacity (outbox n) (outboundCh c).
Proof.
  intros Ho Hroom. unfold queue.
  destruct (try_send_open (outbox n) (outboundCh c) msg Ho)
    as (h & ok & -> & _ & Hp & _ & Hiff & _ & Hcap).
  rewrite has_room_pending, bool_decide_true in Hp by done. exists h. cbn.
  split_and!; [done|by apply Hiff|done|done].
Qed.

Lemma live_sessions_spec d sat x :
  db_ok d →
  x ∈ live_sessions d sat ↔
  ∃ s, sessions d !! ID s = Some s ∧ x = uuid_String (ID s) ∧
    uuid_String (SatelliteID s) = sat ∧ State s ≠ StateTerminated.
Proof.
  intros Hok. unfold live_sessions. rewrite list_elem_of_fmap.
  assert (db_wf d) as Hwf by (intros i s Hs; by apply (Hok i s)).
  split.
  - intros (s & -> & [[Hsat Hst]%Is_true_true%andb_true_iff Hin]%list_elem_of_filter).
    apply (elem_of_rows _ arrange_sess_perm _ Hwf) in Hin. exists s.
    apply bool_decide_eq_true in Hsat. apply negb_true_iff, String.eqb_neq in Hst. done.
  - intros (s & Hs & -> & Hsat & Hst). exists s. split; [done|]. apply list_elem_of_filter.
    rewrite (elem_of_rows _ arrange_sess_perm _ Hwf). split; [|done].
    apply Is_true_true, andb_true_iff. split; [by apply bool_decide_eq_true|].
    by apply negb_true_iff, String.eqb_neq.
Qed.

(** C17: what a satellite gets when it registers. A satellite whose fingerprint
    is known gets its row's id as its identity, an active row, and the route of
    that id, whatever it called itself; its stream then carries the notice of a
    newer version, if there is one, and the reconciliation: the ids of exactly
    its sessions that are not TERMINATED. But a connection to the database that
    is lost while the ids are read is not noticed: then the list is cut off and
    sent all the same, and the satellite prunes what it does not name. *)
Theorem register_reconciles n c r e id s :
  nexus_ok n → open (outbox n) (outboundCh c) → has_db srv = true → has_registry srv = true →
  (S (length (pending (outbox n) (outboundCh c))) < capacity (outbox n) (outboundCh c))%nat →
  (∀ k, flt e k = NoFault) → sats n !! id = Some s →
  Sats.s_fingerprint s = Some (rq_fingerprint r) → uuid_String id ≠ "" →
  (qf e = QueryOk ∨ ∃ k, qf e = CutAfter k) →
  ∃ n' c' ids,
    handle n c (RegisterRequest r) e = Ret (n', c') ∧ satelliteID c' = uuid_String id ∧
    Registry.GetSatelliteStream (registry n') (uuid_String id) = (Some (outboundCh c), true) ∧
    Sats.s_status <$> sats n' !! id = Some "active" ∧
    pending (outbox n') (outboundCh c) = pending (outbox n) (outboundCh c) ++
      option_list (update_message r) ++ [SessionReconciliation ids] ∧
    ids = match qf e with CutAfter k => take k (live_sessions (db n) (uuid_String id))
                        | _ => live_sessions (db n) (uuid_String id) end ∧
    (∀ x, x ∈ live_sessions (db n) (uuid_String id) ↔
       ∃ a, sessions (db n) !! ID a = Some a ∧ x = uuid_String (ID a) ∧
         uuid_String (SatelliteID a) = uuid_String id ∧ State a ≠ StateTerminated).
Proof.
  intros Hok Hop Hdb Hreg Hroom Hf Hs Hfp Hid Hq.
  assert (∃ t, resolve_id n r e = (set_sats n t, uuid_String id) ∧
    Sats.s_status <$> t !! id = Some "active") as (t & Hres & Hact).
  { unfold resolve_id. rewrite Hdb, !Hf.
    rewrite (Sats.resolve_known uuid_String _ arrange_sats_perm _ r _ _ id s (n_sats n Hok) Hs Hfp).
    case_match; eexists; (split; [done|]); [by rewrite lookup_insert_eq|].
    unfold Sats.tag_satellite, Sats.update_where. rewrite map_lookup_imap, lookup_insert_eq. simpl.
    by rewrite bool_decide_true. }
  set (ids := match qf e with CutAfter k => take k (live_sessions (db n) (uuid_String id))
                            | _ => live_sessions (db n) (uuid_String id) end).
  set (c1 := set_satellite c (uuid_String id)).
  set (n2 := set_registry (set_sats n t)
    (Registry.RegisterSatelliteStream (registry (set_sats n t)) (uuid_String id) (Some (outboundCh c)))).
  assert (∃ h, match update_message r with Some msg => queue n2 c1 msg | None => Ret n2 end
      = Ret (set_outbox n2 h) ∧ open h (outboundCh c) ∧
      pending h (outboundCh c) = pending (outbox n) (outboundCh c) ++ option_list (update_message r) ∧
      capacity h (outboundCh c) = capacity (outbox n) (outboundCh c)) as (h & Hq1 & Hoh & Hph & Hch).
  { destruct (update_message r) as [m|].
    - destruct (queue_pending n2 c1 m) as (h & ? & ? & ? & ?); [done|simpl; lia|]. by exists h.
    - exists (outbox n2). simpl. by rewrite app_nil_r. }
  destruct (queue_pending (set_outbox n2 h) c1 (SessionReconciliation ids)) as (h2 & Hq2 & _ & Hp2 & _).
  { done. } { simpl. rewrite Hph, Hch, length_app. destruct (update_message r); simpl; lia. }
  exists (set_outbox (set_outbox n2 h) h2), c1, ids. split.
  { simpl. unfold handle_register. rewrite Hres, Hreg. fold c1. fold n2. rewrite Hq1. cbn [mbind go_bind].
    apply String.eqb_neq in Hid. rewrite Hdb, Hid. cbn [andb negb].
    assert (reconcile_ids (db (set_outbox n2 h)) (uuid_String id) (qf e) = Some ids) as ->.
    { unfold reconcile_ids, ids. by destruct Hq as [-> |[k ->]]. }
    by rewrite Hq2. }
  split; [done|]. split; [unfold Registry.GetSatelliteStream; simpl; by rewrite lookup_insert_eq|].
  split; [done|]. split; [simpl in *; rewrite Hp2, Hph; by rewrite <-(assoc_L (++))|].
  split; [done|]. intros x. apply live_sessions_spec, Hok.
Qed.

End Handlers.

(** ** Concrete parameters *)

(** Uuids in unary: [id] is written with [id + 1] letters. *)
Fixpoint letters (n : nat) : string := match n with O => "" | S n' => "u" +:+ letters n' end.
Definition demo_String (id : N) : string := letters (S (N.to_nat id)).
Definition demo_Parse (s : string) : option N :=
  match String.length s with O => None | S n => Some (N.of_nat n) end.

Lemma letters_length n : String.length (letters n) = n.
Proof. induction n as [|n IH]; [done|]. simpl. by f_equal. Qed.

Lemma demo_roundtrip id : demo_Parse (demo_String id) = Some id.
Proof. unfold demo_Parse, demo_String. by rewrite letters_length, N2Nat.id. Qed.

Definition demo_srv : Server := mkServer true true true true true true true true "v3" "".
Definition demo_env : env := mkEnv 50 40 (λ _, NoFault) QueryOk.
Definition demo_Itoa (z : Z) : string := "0".
Definition demo_range : gset N → list N := elements.
Lemma demo_range_perm X : demo_range X ≡ₚ elements X. Proof. done. Qed.
Lemma demo_grow c : (c < S c)%nat. Proof. lia. Qed.
Lemma demo_perm {A} (l : list A) : id l ≡ₚ l. Proof. done. Qed.
Definition no_json {A} (b : bytes) : option A := None.

Notation demo f := (f demo_String demo_Parse demo_Parse demo_Itoa (λ _, None) no_json no_json
  demo_range S id id id demo_srv) (only parsing).
Notation demo' f := (f demo_String demo_Parse demo_Parse demo_Itoa (λ _, None) no_json
  demo_range S id id id demo_srv) (only parsing).

(** Session 7 on satellite 1, DETACHED; a run 3 of it. *)
Definition demo_db : DB := mkDB {[7%N := sample_session]} {[1%N; 2%N]} [] 0.
Definition demo_run : Runs.AgentRun :=
  Runs.mkRun 3 1 1 (Some 7%N) "running" "manual" 2 None 0 0 0 None None "{}".
Definition demo_runs : gmap N Runs.AgentRun := {[3%N := demo_run]}.
Definition demo_nexus : Nexus := nexus (boot demo_db Sats.demo_table demo_runs).
Definition demo_conn (sat : string) (sids : gset string) : Conn := mkConn 0 ∅ ∅ sids sat.

Lemma demo_db_ok : db_ok demo_db.
Proof.
  intros i s. unfold demo_db. cbn [sessions]. intros [<- <-]%lookup_singleton_Some. unfold row_ok.
  split_and!; [done|done|simpl; set_solver].
Qed.

Lemma demo_tables_ok : tables_ok demo_db Sats.demo_table demo_runs.
Proof.
  split; [exact demo_db_ok|]. split; [exact Sats.demo_table_ok|]. split; [by apply (bool_decide_eq_true_1 _)|].
  intros i x. unfold demo_runs. by intros [<- <-]%lookup_singleton_Some.
Qed.

Lemma demo_nexus_ok : nexus_ok demo_nexus.
Proof. apply boot_ok, demo_tables_ok. Qed.

Example gateway_safe_witness :
  ∃ s', demo run (boot demo_db Sats.demo_table demo_runs)
    [LConnect; LRecv 0 (RegisterRequest (Sats.demo_registration "edge" "fp1")) demo_env;
     LRecv 0 (TerminalData (demo_String 7) [104; 105]) demo_env;
     LRecv 0 (SessionStateUpdate (demo_String 7) SESSION_STATE_TERMINATED 9 "") demo_env;
     LDisconnect 0 demo_env] = Ret s' ∧ sys_ok s' ∧ hitl (nexus s') = [].
Proof.
  apply (demo gateway_safe demo_range_perm demo_grow demo_perm). exact demo_tables_ok.
Defined.

Example state_update_effect_witness :
  ∃ l s', ListActiveSessions id
      (session_state_update (H := DB_store (λ _, None)) demo_Parse demo_Itoa demo_db 7
         SESSION_STATE_TERMINATED "u" 60 false NoFault NoFault) QueryOk = Ok l ∧
    s' ∈ l ∧ ID s' = 7%N ∧ State s' = StateTerminated.
Proof.
  by apply (state_update_effect demo_Parse demo_Itoa (λ _, None) id demo_perm demo_db 7
    SESSION_STATE_TERMINATED "u" 60 sample_session demo_db_ok).
Defined.

(** A report RUNNING that was checked before the API terminated the session. *)
Example stale_report_resurrects_witness :
  let d1 := (TransitionSession demo_db 7 StateTerminated 11 TxOk).1 in
  let d2 := write_state_update (H := DB_store (λ _, None)) demo_Parse demo_Itoa d1 7 StateRunning
              SESSION_STATE_RUNNING "u" 12 NoFault NoFault in
  (State <$> sessions d1 !! 7%N) = Some StateTerminated ∧
  (State <$> sessions d2 !! 7%N) = Some StateRunning ∧
  ∃ l, ListActiveSessions id d2 QueryOk = Ok l ∧ ∀ x, x ∈ l → ID x ≠ 7%N.
Proof.
  by apply (stale_report_resurrects demo_Parse demo_Itoa (λ _, None) id demo_perm demo_db 7
    SESSION_STATE_RUNNING "u" 10 11 12 sample_session StateRunning demo_db_ok).
Defined.

(** The row of the satellite is online again by its heartbeat, and unreachable. *)
Example late_disconnect_cuts_off_witness :
  let n1 := disconnect demo_String demo_srv demo_nexus (demo_conn "uu" {[demo_String 7]}) demo_env in
  ∃ n' c', demo' handle_all n1 (demo_conn "uu" {[demo_String 7]}) [(HeartbeatPing, demo_env)] = Ret (n', c') ∧
    (∀ msg, Registry.SendToSatellite (registry n') (outbox n') "uu" msg = Ret (outbox n', false)) ∧
    Sats.s_status <$> sats n1 !! 1%N = Some "offline" ∧
    Sats.s_status <$> sats n' !! 1%N = Some "active".
Proof.
  intros n1. eexists _, _. split; [reflexivity|].
  pose proof (demo' late_disconnect_cuts_off demo_range_perm demo_grow demo_perm demo_perm demo_nexus
    (demo_conn "uu" {[demo_String 7]}) (demo_conn "uu" {[demo_String 7]}) demo_env
    [(HeartbeatPing, demo_env)] _ _ eq_refl eq_refl ltac:(done) ltac:(by repeat constructor) eq_refl)
    as (H1 & _ & H2).
  split; [exact H1|]. split; [by apply (H2 eq_refl 1%N Sats.demo_sat)|]. by vm_compute.
Defined.

(** The run has ended in this stream's eyes; its session's next event still
    goes to it. *)
Example agent_event_sticks_witness :
  ∃ n' c' h,
    demo' handle demo_nexus (set_run_map (demo_conn "uu" ∅) {["u" := demo_String 5]})
      (AgentEvent "u" "agent_end" []) demo_env = Ret (n', c') ∧
    sessionRunMap c' !! "u" = Some (demo_String 5) ∧ agentSeq c' !! "u" = Some 1 ∧
    Hub.Publish demo_range (hub demo_nexus) 5
      (mkStreamEvent (demo_String 40) (demo_String 5) "agent_end" [] 1 50) = Ret h ∧
    hub n' = h ∧ runs n' = runs demo_nexus ∧
    tasks n' = [InsertEvent 5 "agent_end" [] 1; FinishRun 5 []] ∧
    (false = true →
     batch n' = Batch.Append S (batch demo_nexus) (Batch.mkEvent 5 "agent_end" [] 1)).
Proof.
  apply (demo' agent_event_sticks demo_range_perm demo_nexus
    (set_run_map (demo_conn "uu" ∅) {["u" := demo_String 5]}) "u" "agent_end" [] demo_env 5
    demo_roundtrip eq_refl eq_refl demo_nexus_ok ltac:(done)).
  left. reflexivity.
Defined.

Example output_reaches_scrollback_witness :
  ∃ n' c',
    demo' handle demo_nexus (demo_conn "uu" ∅) (BufferReplay "u" [104; 105]) demo_env = Ret (n', c') ∧
    scrollback n' "u" = [104; 105] ∧
    (∀ sid', sid' ≠ "u" → scrollback n' sid' = scrollback demo_nexus sid') ∧
    recorded n' = [] ∧ "u" ∈ sessionIDs c' ∧
    ("u" ∉ (∅ : gset string) → Registry.GetStream (registry n') "u" = (Some 0%N, true)) ∧
    ("u" ∈ (∅ : gset string) → registry n' = registry demo_nexus).
Proof.
  apply (demo output_reaches_scrollback demo_range_perm demo_grow demo_perm demo_perm demo_nexus
    (demo_conn "uu" ∅) "u" [104; 105] demo_env true demo_nexus_ok); [done|done|done|done|].
  change (Z.of_nat (length ([] : bytes)) + 2 <= Ring.DefaultCapacity). by vm_compute.
Defined.

Example register_reconciles_witness :
  let n := set_outbox demo_nexus {[0%N := mkChan 100 [] false]} in
  ∃ n' c' ids,
    demo' handle n (demo_conn "" ∅) (RegisterRequest (Sats.demo_registration "who" "fp1")) demo_env
      = Ret (n', c') ∧
    satelliteID c' = "uu" ∧ ids = [demo_String 7] ∧
    pending (outbox n') 0 =
      [UpdateAvailable "v3" "http://localhost:8081/releases/daao-linux-arm64" false;
       SessionReconciliation ids].
Proof.
  intros n. destruct (demo' register_reconciles demo_perm demo_perm n
    (demo_conn "" ∅) (Sats.demo_registration "who" "fp1") demo_env 1 Sats.demo_sat)
    as (n' & c' & ids & H & Hs & _ & _ & Hp & Hi & _); try done.
  - apply set_outbox_ok; [exact demo_nexus_ok|]. intros ch (x & Hx & _). cbn in Hx.
    by rewrite lookup_empty in Hx.
  - by exists (mkChan 100 [] false).
  - vm_compute. lia.
  - by left.
  - exists n', c', ids. split; [exact H|]. split; [exact Hs|].
    assert (ids = [demo_String 7]) as -> by (rewrite Hi; vm_compute; reflexivity).
    split; [reflexivity|]. refine (eq_trans Hp _). vm_compute. reflexivity.
Defined.

End Gateway.
