(* ===== verification/ContextFiles.v ===== *)
(** * internal/database/context.go, internal/api/context.go: context files

    The notes about a satellite that people edit in the cockpit and agents read
    on the machine: the two tables, the statements on them, the handlers, and the
    line diff of the history. The statements of one request are separate: what
    other requests do before the k-th is an argument. The upsert of the gateway
    is stated on these tables as well and shown to be that of [Gateway]. Text
    PostgreSQL takes, uuid.Parse and the printed form of a time are parameters. *)
From Stdlib Require Import Ascii String.
From S2P Require Import Prelude GoStrings SessionStore Channels Streams Protocol Satellites Gateway.
Import Store Chan Proto.
#[local] Open Scope Z_scope.
#[local] Set Default Proof Using "Type".

Module ContextFiles.

(** ** computeDiff *)

Definition newline : ascii := Ascii.ascii_of_nat 10.
Fixpoint Join (l : list string) : string :=
  match l with
  | [] => EmptyString
  | [x] => x
  | x :: l' => x +:+ String newline (Join l')
  end.

(** The loop: both slices are walked at the same pace. *)
Fixpoint diff_lines (oldLines newLines : list string) : list string :=
  match oldLines with
  | [] => (λ n, "+ " +:+ n) <$> newLines
  | o :: olds =>
      match newLines with
      | [] => ("- " +:+ o) :: diff_lines olds []
      | n :: news =>
          if String.eqb o n then ("  " +:+ o) :: diff_lines olds news
          else ("- " +:+ o) :: ("+ " +:+ n) :: diff_lines olds news
      end
  end.
Definition computeDiff (oldStr newStr : string) : string :=
  if String.eqb oldStr newStr then EmptyString
  else Join (diff_lines (Str.Split oldStr newline) (Str.Split newStr newline)).

(** *** What a diff says *)

Definition side (mark : ascii) (line : string) : option string :=
  match line with
  | String c (String _ rest) => if Ascii.eqb c " "%char || Ascii.eqb c mark then Some rest else None
  | _ => None
  end.
Definition side_of (mark : ascii) (d : string) : string := Join (omap (side mark) (Str.Split d newline)).

Lemma Split_nonempty s c : Str.Split s c ≠ [].
Proof. destruct s as [|a s]; cbn [Str.Split]; [done|]. destruct (Ascii.eqb a c); [done|]. by destruct (Str.Split s c). Qed.

Lemma Join_Split s : Join (Str.Split s newline) = s.
Proof.
  induction s as [|a s IH]; [done|]. cbn [Str.Split]. pose proof (Split_nonempty s newline) as Hne.
  destruct (Ascii.eqb_spec a newline) as [->|].
  - destruct (Str.Split s newline) as [|x xs]; [done|]. change (String newline (Join (x :: xs)) = String newline s).
    by rewrite IH.
  - destruct (Str.Split s newline) as [|x [|y ys]]; [done| |]; change (String a (Join (x :: _)) = String a s) || cbn in *;
      by rewrite <-IH.
Qed.

Lemma Split_Join l : l ≠ [] → Forall (λ x, Str.ContainsByte x newline = false) l → Str.Split (Join l) newline = l.
Proof.
  intros Hne. induction 1 as [|x l Hx Hl IH]; [done|]. destruct l as [|y l].
  - by apply Str.Split_none.
  - change (Join (x :: y :: l)) with (x +:+ String newline (Join (y :: l))).
    rewrite Str.Split_sep by done. by rewrite IH.
Qed.

Lemma diff_lines_nil_old olds : diff_lines olds [] = (λ o, "- " +:+ o) <$> olds.
Proof. induction olds as [|o olds IH]; [done|]. cbn. by rewrite IH. Qed.

Lemma diff_lines_sides olds news :
  omap (side "-"%char) (diff_lines olds news) = olds ∧ omap (side "+"%char) (diff_lines olds news) = news.
Proof.
  revert news. induction olds as [|o olds IH]; intros news.
  - cbn [diff_lines]. induction news as [|n news [IH1 IH2]]; [done|]. cbn. split; [exact IH1|by f_equal].
  - destruct news as [|n news].
    + rewrite diff_lines_nil_old. clear IH. induction (o :: olds) as [|x l [IH1 IH2]]; [done|].
      cbn. split; [by f_equal|exact IH2].
    + cbn [diff_lines]. destruct (IH news) as [IH1 IH2]. destruct (String.eqb_spec o n) as [->|]; cbn; split; by f_equal.
Qed.

Lemma diff_lines_free olds news :
  Forall (λ x, Str.ContainsByte x newline = false) olds → Forall (λ x, Str.ContainsByte x newline = false) news →
  Forall (λ x, Str.ContainsByte x newline = false) (diff_lines olds news).
Proof.
  intros Ho. revert news. induction Ho as [|o olds Ho Hos IH]; intros news Hn.
  - cbn [diff_lines]. apply Forall_fmap. eapply Forall_impl; [exact Hn|]. intros x Hx. exact Hx.
  - destruct Hn as [|n news Hn Hns].
    + rewrite diff_lines_nil_old. apply Forall_fmap. constructor; [exact Ho|].
      eapply Forall_impl; [exact Hos|]. intros x Hx. exact Hx.
    + cbn [diff_lines]. specialize (IH _ Hns). destruct (String.eqb o n); repeat constructor; done.
Qed.

(** a diff is empty for equal texts only; otherwise its lines that are
    unmarked or marked minus are the old text, those unmarked or marked plus
    the new one. *)
Theorem diff_reconstructs old new :
  computeDiff old old = ""%string ∧
  (old ≠ new → side_of "-"%char (computeDiff old new) = old ∧ side_of "+"%char (computeDiff old new) = new ∧
     computeDiff old new ≠ ""%string).
Proof.
  split; [unfold computeDiff; by rewrite String.eqb_refl|]. intros Hne. unfold computeDiff.
  destruct (String.eqb_spec old new) as [|_]; [done|].
  set (d := diff_lines _ _). assert (d ≠ []) as Hd.
  { unfold d. destruct (Str.Split old newline) as [|o olds] eqn:E; [by apply Split_nonempty in E|]. cbn [diff_lines].
    destruct (Str.Split new newline); [done|]. by destruct (String.eqb _ _). }
  assert (Forall (λ x, Str.ContainsByte x newline = false) d) as Hf by (apply diff_lines_free; apply Str.Split_free).
  destruct (diff_lines_sides (Str.Split old newline) (Str.Split new newline)) as [H1 H2]. fold d in H1, H2.
  unfold side_of. rewrite Split_Join, H1, H2, !Join_Split by done. split_and!; [done|done|].
  intros E. apply Hne. rewrite <-(Join_Split old), <-(Join_Split new), <-H1, <-H2.
  rewrite <-(Split_Join d Hd Hf), E. done.
Qed.

(** ** The tables *)

Record ContextFile := mkFile {
  ID : N; SatelliteID : N; FilePath : string; Content : string; Version : Z; LastModifiedBy : string;
  CreatedAt : Z; UpdatedAt : Z;
}.
Record ContextFileHistory := mkHistory {
  h_ID : N; ContextFileID : N; h_Version : Z; h_Content : string; ModifiedBy : string; ModifiedAt : Z;
}.
#[export] Instance ContextFile_eq_dec : EqDecision ContextFile.
Proof. solve_decision. Defined.
#[export] Instance ContextFileHistory_eq_dec : EqDecision ContextFileHistory.
Proof. solve_decision. Defined.

Record Tables := mkTables { sats : gset N; files : gmap N ContextFile; history : gmap N ContextFileHistory }.
Definition set_files (t : Tables) (m : gmap N ContextFile) : Tables := mkTables (sats t) m (history t).
Definition set_history (t : Tables) (m : gmap N ContextFileHistory) : Tables := mkTables (sats t) (files t) m.

Definition max_int4 : Z := 2147483647.

Definition ran (f : fault) : bool := match f with StmtFails => false | _ => true end.
Definition acked (f : fault) : bool := match f with NoFault => true | _ => false end.

Section Statements.
(** TEXT takes the string: it is UTF-8 without a zero byte. *)
Variable text : string → bool.
(** The order in which the server finds rows. *)
Variable arrange_files : list ContextFile → list ContextFile.
Variable arrange_history : list ContextFileHistory → list ContextFileHistory.

Definition named (sat : N) (path : string) (f : ContextFile) : Prop := SatelliteID f = sat ∧ FilePath f = path.
#[export] Instance named_dec sat path f : Decision (named sat path f).
Proof. unfold named. apply _. Defined.
(** UNIQUE (satellite_id, file_path) *)
Definition taken (t : Tables) (sat : N) (path : string) : bool :=
  bool_decide (¬ map_Forall (λ _ f, ¬ named sat path f) (files t)).

(** DEFAULT 1 *)
Definition CreateContextFile (t : Tables) (sat : N) (path content by_ : string) (new_id : N) (now : Z) (f : fault)
    : Tables * option ContextFile :=
  let cf := mkFile new_id sat path content 1 by_ now now in
  if bool_decide (files t !! new_id = None) && bool_decide (sat ∈ sats t) && negb (taken t sat path)
     && text path && text content && text by_ && ran f
  then (set_files t (<[new_id := cf]> (files t)), if acked f then Some cf else None)
  else (t, None).

(** No row is no error. *)
Definition GetContextFile (t : Tables) (id : N) (f : bool) : result unit (option ContextFile) :=
  if f then Err tt else Ok (files t !! id).

(** ORDER BY file_path: the collation is a parameter. *)
Variable path_le : ContextFile → ContextFile → Prop.
Context `{!RelDecision path_le}.
Definition ListContextFiles (t : Tables) (sat : N) (f : bool) : result unit (list ContextFile) :=
  if f then Err tt
  else Ok (merge_sort path_le (filter (λ x, SatelliteID x = sat) (arrange_files (map_to_list (files t)).*2))).

(** What a request meets: the clock, the new id, the outcome of the k-th
    statement, and what the others do before it. *)
Record env := mkEnv { now : nat → Z; new_id : N; flt : nat → fault; others : nat → Tables → Tables }.
Definition no_one (k : nat) (t : Tables) : Tables := t.

(** The three statements of UpdateContextFile. *)
Definition select_version (t : Tables) (id : N) (f : fault) : result unit (option Z) :=
  if acked f then Ok (Version <$> files t !! id) else Err tt.
Definition insert_history (t : Tables) (id : N) (hid : N) (now : Z) (f : fault) : Tables * bool :=
  match files t !! id with
  | None => (t, negb (acked f))
  | Some cf =>
      if bool_decide (history t !! hid = None) && ran f
      then (set_history t (<[hid := mkHistory hid id (Version cf) (Content cf) (LastModifiedBy cf) now]> (history t)),
            negb (acked f))
      else (t, true)
  end.
Definition update_file (t : Tables) (id : N) (content by_ : string) (now : Z) (f : fault)
    : Tables * option ContextFile :=
  match files t !! id with
  | None => (t, None)                        (* pgx.ErrNoRows *)
  | Some cf =>
      if (Version cf <? max_int4) && text content && text by_ && ran f then
        let cf' := mkFile (ID cf) (SatelliteID cf) (FilePath cf) content (Version cf + 1) by_ (CreatedAt cf) now in
        (set_files t (<[id := cf']> (files t)), if acked f then Some cf' else None)
      else (t, None)
  end.

(** Statements 2, 3 and 4 of its request; [Ok None] is [nil, nil]. *)
Definition UpdateContextFile (t : Tables) (id : N) (content by_ : string) (e : env)
    : Tables * result unit (option ContextFile) :=
  let t2 := others e 2%nat t in
  match select_version t2 id (flt e 2%nat) with
  | Err _ => (t2, Err tt)
  | Ok None => (t2, Ok None)
  | Ok (Some _) =>
      let '(t3, bad) := insert_history (others e 3%nat t2) id (new_id e) (now e 3%nat) (flt e 3%nat) in
      if bad : bool then (t3, Err tt) else
      match update_file (others e 4%nat t3) id content by_ (now e 4%nat) (flt e 4%nat) with
      | (t4, None) => (t4, Err tt)
      | (t4, Some cf) => (t4, Ok (Some cf))
      end
  end.

(** ON DELETE CASCADE *)
Definition delete_file (t : Tables) (id : N) : Tables :=
  mkTables (sats t) (delete id (files t)) (filter (λ kh, ContextFileID kh.2 ≠ id) (history t)).
Definition DeleteContextFile (t : Tables) (id : N) (f : fault) : Tables * bool :=
  (if ran f then delete_file t id else t, negb (acked f)).

Definition CreateContextFileHistory (t : Tables) (id : N) (version : Z) (content by_ : string) (hid : N) (now : Z)
    (f : fault) : Tables * option ContextFileHistory :=
  let h := mkHistory hid id version content by_ now in
  if bool_decide (history t !! hid = None) && bool_decide (is_Some (files t !! id))
     && (version <=? max_int4) && (- max_int4 - 1 <=? version) && text content && text by_ && ran f
  then (set_history t (<[hid := h]> (history t)), if acked f then Some h else None)
  else (t, None).

(** ORDER BY modified_at DESC *)
Definition later (a b : ContextFileHistory) : Prop := ModifiedAt b <= ModifiedAt a.
#[export] Instance later_dec : RelDecision later.
Proof. intros a b. unfold later. apply _. Defined.
Definition ListContextFileHistory (t : Tables) (id : N) (f : bool) : result unit (list ContextFileHistory) :=
  if f then Err tt
  else Ok (merge_sort later (filter (λ h, ContextFileID h = id) (arrange_history (map_to_list (history t)).*2))).

(** ** internal/api/context.go *)

Record World := mkWorld {
  db : Tables; registry : Registry.StreamRegistry; outbox : heap NexusMessage;
}.
Definition set_db (w : World) (t : Tables) : World := mkWorld t (registry w) (outbox w).
Record ContextHandler := mkHandler { dbPool : bool; streamRegistry : bool }.

Inductive Body :=
  | BError (msg : string)
  | BFile (f : ContextFile) (created updated : string)
  | BFiles (l : list (ContextFile * string * string)) (count : Z)
  | BHistory (l : list (ContextFileHistory * string * string)) (count : Z)   (* with its time and its diff *)
  | BEmpty
  | BNotFound.                                              (* http.NotFound *)
Record Response := mkResponse { status : Z; body : Body }.

Variable uuid_Parse : string → option N.
Variable uuid_String : N → string.
Variable time_text : Z → string.
Variable bytes_of : string → bytes.

Definition cockpitAttribution : string := "user@cockpit".

Notation answer := (World * go Response)%type.
Definition refuse (w : World) (st : Z) (msg : string) : answer := (w, Ret (mkResponse st (BError msg))).
Definition reply (w : World) (st : Z) (b : Body) : answer := (w, Ret (mkResponse st b)).
Definition file_body (f : ContextFile) : Body := BFile f (time_text (CreatedAt f)) (time_text (UpdatedAt f)).

(** Err true: pgx.ErrNoRows. *)
Definition verifySatelliteExists (t : Tables) (sat : N) (f : fault) : result bool unit :=
  if acked f then (if decide (sat ∈ sats t) then Ok tt else Err true) else Err false.

(** The check of handlers that read one file, as statement 1. *)
Definition with_file (w : World) (sat fileUUID : N) (e : env) (k : World → ContextFile → answer) : answer :=
  let w1 := set_db w (others e 1%nat (db w)) in
  match GetContextFile (db w1) fileUUID (negb (acked (flt e 1%nat))) with
  | Err _ => refuse w1 500 "failed to get context file"
  | Ok None => refuse w1 404 "context file not found"
  | Ok (Some file) => if decide (SatelliteID file = sat) then k w1 file else refuse w1 404 "context file not found"
  end.
Definition with_uuid (w : World) (fileID : string) (k : N → answer) : answer :=
  match uuid_Parse fileID with None => refuse w 400 "invalid file ID" | Some id => k id end.

Definition handleListContextFiles (w : World) (sat : N) (e : env) : answer :=
  let w1 := set_db w (others e 1%nat (db w)) in
  match ListContextFiles (db w1) sat (negb (acked (flt e 1%nat))) with
  | Err _ => refuse w1 500 "failed to list context files"
  | Ok l =>
      reply w1 200 (BFiles ((λ f, (f, time_text (CreatedAt f), time_text (UpdatedAt f))) <$> l) (Z.of_nat (length l)))
  end.

Definition handleGetContextFile (w : World) (sat : N) (fileID : string) (e : env) : answer :=
  with_uuid w fileID (λ id, with_file w sat id e (λ w1 file, reply w1 200 (file_body file))).

(** The body: file_path and content. *)
Definition handleCreateContextFile (w : World) (sat : N) (req : option (string * string)) (e : env) : answer :=
  match req with
  | None => refuse w 400 "invalid request body"
  | Some (path, content) =>
      if String.eqb path "" then refuse w 400 "file_path is required" else
      match CreateContextFile (others e 1%nat (db w)) sat path content cockpitAttribution (new_id e) (now e 1%nat)
              (flt e 1%nat) with
      | (t, None) => refuse (set_db w t) 500 "failed to create context file"
      | (t, Some file) => reply (set_db w t) 201 (file_body file)
      end
  end.

Definition push_message (sat : N) (file : ContextFile) : NexusMessage :=
  ContextFilePush (mkCtxSync (uuid_String sat) (FilePath file) (bytes_of (Content file)) (Version file)
    cockpitAttribution).
Definition push (h : ContextHandler) (w : World) (sat : N) (file : ContextFile) : go World :=
  if streamRegistry h then
    '(o, _) ← Registry.SendToSatellite (registry w) (outbox w) (uuid_String sat) (push_message sat file);
    Ret (mkWorld (db w) (registry w) o)
  else Ret w.

(** The file that is nil without an error is dereferenced. *)
Definition handleUpdateContextFile (h : ContextHandler) (w : World) (sat : N) (fileID : string) (req : option string)
    (e : env) : answer :=
  with_uuid w fileID (λ id,
    match req with
    | None => refuse w 400 "invalid request body"
    | Some content =>
        with_file w sat id e (λ w1 existing,
          match UpdateContextFile (db w1) id content cockpitAttribution e with
          | (t, Err _) => refuse (set_db w1 t) 500 "failed to update context file"
          | (t, Ok None) => (set_db w1 t, Panic)
          | (t, Ok (Some file)) =>
              match push h (set_db w1 t) sat file with
              | Panic => (set_db w1 t, Panic)
              | Ret w2 => reply w2 200 (file_body file)
              end
          end)
    end).

Definition handleDeleteContextFile (w : World) (sat : N) (fileID : string) (e : env) : answer :=
  with_uuid w fileID (λ id, with_file w sat id e (λ w1 existing,
    match DeleteContextFile (others e 2%nat (db w1)) id (flt e 2%nat) with
    | (t, true) => refuse (set_db w1 t) 500 "failed to delete context file"
    | (t, false) => reply (set_db w1 t) 204 BEmpty
    end)).

(** The entry [i] is compared with the entry [i + 1], the last one with the file. *)
Fixpoint with_diffs (current : string) (l : list ContextFileHistory) : list (ContextFileHistory * string * string) :=
  match l with
  | [] => []
  | h :: l' =>
      (h, time_text (ModifiedAt h), computeDiff (h_Content h) (from_option h_Content current (head l')))
        :: with_diffs current l'
  end.
Definition handleGetContextFileHistory (w : World) (sat : N) (fileID : string) (e : env) : answer :=
  with_uuid w fileID (λ id, with_file w sat id e (λ w1 existing,
    let w2 := set_db w1 (others e 2%nat (db w1)) in
    match ListContextFileHistory (db w2) id (negb (acked (flt e 2%nat))) with
    | Err _ => refuse w2 500 "failed to get context file history"
    | Ok l => reply w2 200 (BHistory (with_diffs (Content existing) l) (Z.of_nat (length l)))
    end)).

(** [create] and [update] are the bodies as their handlers decode them. *)
Definition HandleContextAPI (h : ContextHandler) (w : World) (method path : string)
    (create : option (string * string)) (update : option string) (e : env) : answer :=
  if negb (dbPool h) then refuse w 503 "database not configured" else
  let p := Str.TrimRight path "/"%char in
  if negb (Str.HasPrefix p "/api/v1/satellites/") then reply w 404 BNotFound else
  let remainder := Str.TrimPrefix p "/api/v1/satellites/" in
  let '(satelliteID, rest) := default (remainder, ""%string) (Str.Cut remainder "/") in
  if String.eqb satelliteID "" then reply w 404 BNotFound else
  match uuid_Parse satelliteID with
  | None => refuse w 400 "invalid satellite ID"
  | Some sat =>
      let w0 := set_db w (others e 0%nat (db w)) in
      match verifySatelliteExists (db w0) sat (flt e 0%nat) with
      | Err true => refuse w0 404 "satellite not found"
      | Err false => refuse w0 500 "failed to verify satellite"
      | Ok _ =>
          if String.eqb rest "" then reply w0 404 BNotFound else
          if String.eqb rest "context" && String.eqb method "POST" then handleCreateContextFile w0 sat create e else
          if String.eqb rest "context" && String.eqb method "GET" then handleListContextFiles w0 sat e else
          let fileID := Str.TrimPrefix rest "context/" in
          if Str.HasPrefix rest "context/" && String.eqb method "DELETE" then handleDeleteContextFile w0 sat fileID e else
          if Str.HasPrefix rest "context/" && String.eqb method "GET" then
            if Str.HasSuffix rest "/history"
            then handleGetContextFileHistory w0 sat (Str.TrimSuffix fileID "/history") e
            else handleGetContextFile w0 sat fileID e
          else
          if Str.HasPrefix rest "context/" && String.eqb method "PUT" then handleUpdateContextFile h w0 sat fileID update e
          else reply w0 404 BNotFound
      end
  end.

(** ** The upsert of the gateway on the same rows *)

Definition find_file (t : Tables) (sat : N) (path : string) : option ContextFile :=
  head (filter (named sat path) (arrange_files (map_to_list (files t)).*2)).
Definition upsert (t : Tables) (sat : N) (path content by_ : string) (new_id : N) (now : Z) (f : fault) : Tables :=
  if negb (ran f && bool_decide (sat ∈ sats t)) then t else
  match find_file t sat path with
  | Some old =>
      set_files t (<[ID old := mkFile (ID old) sat path content (Version old + 1) by_ (CreatedAt old) now]> (files t))
  | None => set_files t (<[new_id := mkFile new_id sat path content 1 by_ now now]> (files t))
  end.

(** ** What the history keeps *)

(** [id] had the content [c] as version [v]. *)
Definition recorded (t : Tables) (id : N) (v : Z) (c : string) : Prop :=
  (∃ f, files t !! id = Some f ∧ Version f = v ∧ Content f = c) ∨
  (∃ hid h, history t !! hid = Some h ∧ ContextFileID h = id ∧ h_Version h = v ∧ h_Content h = c).
Definition archived (t : Tables) (id : N) (v : Z) : Prop :=
  ∃ hid h, history t !! hid = Some h ∧ ContextFileID h = id ∧ h_Version h = v.

(** Every version but the current one has exactly one entry. *)
Record complete (t : Tables) : Prop := {
  file_id : ∀ id f, files t !! id = Some f → ID f = id ∧ 1 <= Version f;
  file_name : ∀ id1 id2 f1 f2, files t !! id1 = Some f1 → files t !! id2 = Some f2 →
    SatelliteID f1 = SatelliteID f2 → FilePath f1 = FilePath f2 → id1 = id2;
  entry_file : ∀ hid h, history t !! hid = Some h → is_Some (files t !! ContextFileID h);
  entry_once : ∀ hid1 hid2 h1 h2, history t !! hid1 = Some h1 → history t !! hid2 = Some h2 →
    ContextFileID h1 = ContextFileID h2 → h_Version h1 = h_Version h2 → hid1 = hid2;
  gapless : ∀ id f v, files t !! id = Some f → archived t id v ↔ 1 <= v < Version f;
}.

Lemma taken_false t sat path : taken t sat path = false → ∀ id f, files t !! id = Some f → ¬ named sat path f.
Proof.
  unfold taken. rewrite bool_decide_eq_false. intros H. apply dec_stable in H. intros id f Hf. exact (H id f Hf).
Qed.

Lemma complete_create t sat path content by_ nid now f :
  complete t → complete (CreateContextFile t sat path content by_ nid now f).1 ∧
  (∀ id v c, recorded t id v c → recorded (CreateContextFile t sat path content by_ nid now f).1 id v c).
Proof.
  intros Hc. unfold CreateContextFile. destruct (_ && _) eqn:E; [|by split]. cbn [fst].
  repeat apply andb_prop in E as [E ?]. apply bool_decide_eq_true in E.
  assert (∀ id f, files t !! id = Some f → ¬ named sat path f) as Hfree by (by apply taken_false, negb_true_iff).
  assert (∀ v, ¬ archived t nid v) as Hno.
  { intros v (hid & h & Hh & Hid & _). apply (entry_file _ Hc) in Hh as [x Hx]. rewrite Hid in Hx. congruence. }
  set (nf := mkFile nid sat path content 1 by_ now now). split.
  - split; cbn [files history set_files].
    + intros id x [[<- <-]|[? Hx]]%lookup_insert_Some; [cbn; lia|by apply (file_id _ Hc)].
    + intros id1 id2 f1 f2 [[<- <-]|[? K1]]%lookup_insert_Some [[<- <-]|[? K2]]%lookup_insert_Some; cbn; intros Hs Hp.
      * done.
      * destruct (Hfree _ _ K2). split; congruence.
      * destruct (Hfree _ _ K1). split; congruence.
      * by apply (file_name _ Hc id1 id2 f1 f2).
    + intros hid h Hh. apply lookup_insert_is_Some'. right. by apply (entry_file _ Hc hid).
    + apply (entry_once _ Hc).
    + intros id x v [[<- <-]|[? Hx]]%lookup_insert_Some; [|by apply (gapless _ Hc)].
      split; [intros Ha; by destruct (Hno v)|cbn; lia].
  - intros id v c [(x & Hx & Hr)|Hr]; [left|by right]. exists x. split; [|done].
    cbn [files set_files]. by rewrite lookup_insert_ne by congruence.
Qed.

(** The file [f] moves on to [content]; the entry [hid] keeps what it was. *)
Definition advance (t : Tables) (f : ContextFile) (content by_ : string) (now1 : Z) (hid : N) (now2 : Z) : Tables :=
  mkTables (sats t)
    (<[ID f := mkFile (ID f) (SatelliteID f) (FilePath f) content (Version f + 1) by_ (CreatedAt f) now2]> (files t))
    (<[hid := mkHistory hid (ID f) (Version f) (Content f) (LastModifiedBy f) now1]> (history t)).

Lemma complete_advance t f content by_ now1 hid now2 :
  complete t → files t !! ID f = Some f → history t !! hid = None →
  complete (advance t f content by_ now1 hid now2) ∧
  (∀ i v c, recorded t i v c → recorded (advance t f content by_ now1 hid now2) i v c).
Proof.
  intros Hc Hf E. destruct (file_id _ Hc _ f Hf) as [_ Hf1].
  split; [split; cbn [advance files history]|].
  - intros i x [[<- <-]|[? Hx]]%lookup_insert_Some; [cbn; lia|by apply (file_id _ Hc)].
  - intros i1 i2 x1 x2 [[<- <-]|[? K1]]%lookup_insert_Some [[<- <-]|[? K2]]%lookup_insert_Some Hs Hp; cbn in Hs, Hp.
    + done.
    + by apply (file_name _ Hc (ID f) i2 f x2).
    + by apply (file_name _ Hc i1 (ID f) x1 f).
    + by apply (file_name _ Hc i1 i2 x1 x2).
  - intros i x [[<- <-]|[? Hx]]%lookup_insert_Some; apply lookup_insert_is_Some'; [by left|].
    right. by apply (entry_file _ Hc i).
  - assert (∀ i x, history t !! i = Some x → ContextFileID x = ID f → h_Version x ≠ Version f) as Hno.
    { intros i x Hx Hid Hver. assert (archived t (ID f) (Version f)) as Har by (by exists i, x).
      apply (gapless _ Hc _ _ _ Hf) in Har. lia. }
    intros i1 i2 x1 x2 [[<- <-]|[? K1]]%lookup_insert_Some [[<- <-]|[? K2]]%lookup_insert_Some Hid Hver; cbn in Hid, Hver.
    + done.
    + by destruct (Hno _ _ K2).
    + by destruct (Hno _ _ K1).
    + by apply (entry_once _ Hc i1 i2 x1 x2).
  - intros i x v Hx. assert (archived (advance t f content by_ now1 hid now2) i v ↔
        archived t i v ∨ i = ID f ∧ v = Version f) as ->.
    { unfold archived. cbn [advance history]. split.
      - intros (k & y & [[<- <-]|[? Hy]]%lookup_insert_Some & Hid & Hver); [by right|left; by exists k, y].
      - intros [(k & y & Hy & ?)|[-> ->]]; [exists k, y|eexists hid, _; by rewrite lookup_insert_eq].
        by rewrite lookup_insert_ne by congruence. }
    apply lookup_insert_Some in Hx as [[<- <-]|[Hne Hx]].
    + rewrite (gapless _ Hc _ f v Hf). cbn. lia.
    + rewrite (gapless _ Hc _ x v Hx). split; [intros [?|[-> _]]|]; try done. by left.
  - intros i v c [(x & Hx & Hver & Hcon)|(k & x & Hx & Hr)].
    + destruct (decide (i = ID f)) as [->|].
      * right. eexists hid, _. cbn [advance history]. rewrite lookup_insert_eq. by simplify_eq.
      * left. exists x. cbn [advance files]. by rewrite lookup_insert_ne by congruence.
    + right. exists k, x. cbn [advance history]. by rewrite lookup_insert_ne by congruence.
Qed.

(** UpdateContextFile with nobody in between. *)
Definition alone (e : env) : Prop := others e = no_one.

Lemma UpdateContextFile_alone t id content by_ e :
  complete t → alone e → flt e 3%nat ≠ AckLost → flt e 4%nat ≠ StmtFails → text content = true → text by_ = true →
  (∀ f, files t !! id = Some f → Version f < max_int4) →
  let t' := (UpdateContextFile t id content by_ e).1 in
  t' = t ∨ ∃ f, files t !! ID f = Some f ∧ history t !! new_id e = None ∧
    t' = advance t f content by_ (now e 3%nat) (new_id e) (now e 4%nat).
Proof.
  intros Hc Ha H3 H4 Ht Hb Hv. cbn zeta. unfold UpdateContextFile. rewrite Ha. unfold no_one.
  destruct (select_version _ _ _) as [[v0|]|]; [|by left..].
  unfold insert_history. destruct (files t !! id) as [f|] eqn:Hf.
  2:{ left. destruct (negb _); [done|]. unfold update_file. by rewrite Hf. }
  destruct (_ && _) eqn:E; [|by left]. apply andb_prop in E as [E Hran]. apply bool_decide_eq_true in E.
  right. destruct (file_id _ Hc id f Hf) as [Hid _]. exists f. split; [by rewrite Hid|]. split; [done|].
  assert (acked (flt e 3) = true) as -> by (by destruct (flt e 3)). cbn [negb].
  unfold update_file. cbn [files set_history]. rewrite Hf, Ht, Hb, (proj2 (Z.ltb_lt _ _) (Hv f eq_refl)).
  assert (ran (flt e 4) = true) as -> by (by destruct (flt e 4)). cbn [andb].
  unfold advance, set_files, set_history. rewrite Hid. by destruct (acked (flt e 4)).
Qed.

Lemma complete_delete t id : complete t →
  complete (delete_file t id) ∧ (∀ i v c, i ≠ id → recorded t i v c → recorded (delete_file t id) i v c).
Proof.
  intros Hc. unfold delete_file. split; [split; cbn [files history]|].
  - intros i f [_ Hf]%lookup_delete_Some. by apply (file_id _ Hc).
  - intros i1 i2 f1 f2 [_ K1]%lookup_delete_Some [_ K2]%lookup_delete_Some. by apply (file_name _ Hc).
  - intros i h [Hh Hne]%map_lookup_filter_Some. apply lookup_delete_is_Some.
    split; [by apply not_eq_sym|by apply (entry_file _ Hc i)].
  - intros i1 i2 h1 h2 [K1 _]%map_lookup_filter_Some [K2 _]%map_lookup_filter_Some. by apply (entry_once _ Hc).
  - intros i f v [Hne Hf]%lookup_delete_Some. rewrite <-(gapless _ Hc i f v Hf). unfold archived. cbn [history]. split.
    + intros (k & h & [Hh _]%map_lookup_filter_Some & Hr). by exists k, h.
    + intros (k & h & Hh & Hid & Hv). exists k, h. rewrite map_lookup_filter_Some. split_and!; [done| |done|done].
      cbn. congruence.
  - intros i v c Hne [(f & Hf & Hr)|(k & h & Hh & Hid & Hr)]; [left; exists f|right; exists k, h]; cbn [files history].
    + by rewrite lookup_delete_ne by congruence.
    + rewrite map_lookup_filter_Some. split_and!; [done| |done|apply Hr..]. cbn. congruence.
Qed.

(** A request whose statements nobody comes between, and which is not cut off
    between the history entry and the update. *)
Record undisturbed (w : World) (update : option string) (e : env) : Prop := {
  u_alone : alone e;
  u_entry : flt e 3%nat ≠ AckLost;
  u_update : flt e 4%nat ≠ StmtFails;
  u_text : text cockpitAttribution = true ∧ from_option text true update = true;
  u_room : ∀ id f, files (db w) !! id = Some f → Version f < max_int4;
}.

Definition keeps (t t' : Tables) : Prop :=
  complete t' ∧ ∀ i v c, recorded t i v c → is_Some (files t' !! i) → recorded t' i v c.

Lemma keeps_refl t : complete t → keeps t t.
Proof. by split. Qed.

Lemma with_file_keeps t w sat id e k :
  alone e → db w = t → complete t → (∀ f, files t !! id = Some f → keeps t (db (k w f).1)) →
  keeps t (db (with_file w sat id e k).1).
Proof.
  intros Ha <- Hc Hk. unfold with_file. rewrite Ha. unfold no_one.
  replace (set_db w (db w)) with w by (by destruct w).
  destruct (GetContextFile _ _ _) as [[f|]|] eqn:E; try (by apply keeps_refl).
  destruct (decide _); [|by apply keeps_refl]. apply Hk. unfold GetContextFile in E. destruct (negb _); [done|].
  by injection E.
Qed.

Lemma handlers_keep h w sat fileID create update e :
  complete (db w) → undisturbed w update e →
  keeps (db w) (db (handleCreateContextFile w sat create e).1) ∧
  keeps (db w) (db (handleListContextFiles w sat e).1) ∧
  keeps (db w) (db (handleGetContextFile w sat fileID e).1) ∧
  keeps (db w) (db (handleUpdateContextFile h w sat fileID update e).1) ∧
  keeps (db w) (db (handleDeleteContextFile w sat fileID e).1) ∧
  keeps (db w) (db (handleGetContextFileHistory w sat fileID e).1).
Proof.
  intros Hc [Ha H3 H4 [Hatt Htext] Hroom]. pose proof Ha as Ha'. unfold alone in Ha'.
  split_and!.
  - unfold handleCreateContextFile. destruct create as [[path content]|]; [|by apply keeps_refl].
    destruct (String.eqb path ""); [by apply keeps_refl|]. rewrite Ha'. unfold no_one.
    pose proof (complete_create (db w) sat path content cockpitAttribution (new_id e) (now e 1%nat) (flt e 1%nat) Hc) as [? Hr].
    destruct (CreateContextFile _ _ _ _ _ _ _ _) as [t [f|]]; (split; [done|]); intros; by apply Hr.
  - unfold handleListContextFiles. rewrite Ha'. unfold no_one.
    destruct (ListContextFiles _ _ _); by apply keeps_refl.
  - unfold handleGetContextFile, with_uuid. destruct (uuid_Parse fileID); [|by apply keeps_refl].
    apply with_file_keeps; [done..|]. intros f Hf. by apply keeps_refl.
  - unfold handleUpdateContextFile, with_uuid. destruct (uuid_Parse fileID) as [id|]; [|by apply keeps_refl].
    destruct update as [content|]; [|by apply keeps_refl]. apply with_file_keeps; [done..|]. intros f Hf.
    assert (keeps (db w) (UpdateContextFile (db w) id content cockpitAttribution e).1) as Hk.
    { destruct (UpdateContextFile_alone (db w) id content cockpitAttribution e Hc Ha H3 H4 Htext Hatt (Hroom id))
        as [->|(g & Hg & Hnew & ->)]; [by apply keeps_refl|].
      destruct (complete_advance (db w) g content cockpitAttribution (now e 3%nat) (new_id e) (now e 4%nat)) as [? Hr]; [done..|].
      split; [done|]. intros. by apply Hr. }
    destruct (UpdateContextFile _ _ _ _ _) as [t [[g|]|]]; [|exact Hk..].
    unfold push. destruct (streamRegistry h); [|exact Hk].
    by destruct (Registry.SendToSatellite _ _ _ _) as [[o b]|].
  - unfold handleDeleteContextFile, with_uuid. destruct (uuid_Parse fileID) as [id|]; [|by apply keeps_refl].
    apply with_file_keeps; [done..|]. intros f Hf. rewrite Ha'. unfold no_one, DeleteContextFile.
    assert (keeps (db w) (if ran (flt e 2) then delete_file (db w) id else db w)) as Hk.
    { destruct (ran _); [|by apply keeps_refl]. destruct (complete_delete (db w) id Hc) as [? Hr]. split; [done|].
      intros i v c Hr0 [x Hx]. apply Hr; [|done]. intros ->. cbn [delete_file files] in Hx. by rewrite lookup_delete_eq in Hx. }
    by destruct (negb (acked (flt e 2))).
  - unfold handleGetContextFileHistory, with_uuid. destruct (uuid_Parse fileID) as [id|]; [|by apply keeps_refl].
    apply with_file_keeps; [done..|]. intros f Hf. rewrite Ha'. unfold no_one.
    destruct (ListContextFileHistory _ _ _); by apply keeps_refl.
Qed.

(** an undisturbed request keeps the history complete: every version of a
    file but the current one has exactly one entry, a file has one row per
    satellite and path, and no content a surviving file ever had is lost. *)
Theorem history_complete h w method path create update e :
  complete (db w) → undisturbed w update e →
  let t' := db (HandleContextAPI h w method path create update e).1 in
  complete t' ∧ ∀ i v c, recorded (db w) i v c → is_Some (files t' !! i) → recorded t' i v c.
Proof.
  intros Hc Hu. cbn zeta. fold (keeps (db w) (db (HandleContextAPI h w method path create update e).1)).
  unfold HandleContextAPI. destruct (negb _); [by apply keeps_refl|]. destruct (negb _); [by apply keeps_refl|].
  destruct (default _ _) as [satelliteID rest]. destruct (String.eqb satelliteID ""); [by apply keeps_refl|].
  destruct (uuid_Parse satelliteID) as [sat|]; [|by apply keeps_refl].
  rewrite (u_alone _ _ _ Hu). unfold no_one. replace (set_db w (db w)) with w by (by destruct w).
  destruct (verifySatelliteExists _ _ _) as [|[]]; [|by apply keeps_refl..].
  destruct (String.eqb rest ""); [by apply keeps_refl|].
  destruct (_ && _); [by apply (handlers_keep h w sat "" create update e)|].
  destruct (_ && _); [by apply (handlers_keep h w sat "" create update e)|].
  destruct (_ && _); [by apply (handlers_keep h w sat _ create update e)|].
  destruct (_ && _).
  - destruct (Str.HasSuffix _ _); by apply (handlers_keep h w sat _ create update e).
  - destruct (_ && _); [by apply (handlers_keep h w sat _ create update e)|by apply keeps_refl].
Qed.

(** ** What it loses *)

Hypothesis arrange_files_perm : ∀ l, arrange_files l ≡ₚ l.
Hypothesis arrange_history_perm : ∀ l, arrange_history l ≡ₚ l.

(** The constraints of the table of files. *)
Definition rows_ok (t : Tables) : Prop :=
  (∀ id f, files t !! id = Some f → ID f = id) ∧
  (∀ id1 id2 f1 f2, files t !! id1 = Some f1 → files t !! id2 = Some f2 →
    SatelliteID f1 = SatelliteID f2 → FilePath f1 = FilePath f2 → id1 = id2).
Lemma complete_rows t : complete t → rows_ok t.
Proof. intros Hc. split; [intros id f Hf; apply (file_id _ Hc _ _ Hf)|apply (file_name _ Hc)]. Qed.

Lemma find_file_Some t sat path f :
  rows_ok t → find_file t sat path = Some f ↔ files t !! ID f = Some f ∧ named sat path f.
Proof using Type arrange_files_perm.
  intros [Hids Hnames].
  assert (∀ x, x ∈ filter (named sat path) (arrange_files (map_to_list (files t)).*2) ↔
    files t !! ID x = Some x ∧ named sat path x) as Hin.
  { intros x. rewrite list_elem_of_filter, arrange_files_perm, list_elem_of_fmap. split.
    - intros [Hn ([i y] & -> & Hy%elem_of_map_to_list)]. cbn in *. by rewrite (Hids _ _ Hy).
    - intros [Hx Hn]. split; [done|]. exists (ID x, x). by rewrite elem_of_map_to_list. }
  unfold find_file. set (l := filter _ _) in *. split.
  - intros Hh. by apply Hin, head_Some_elem_of.
  - intros Hf. apply Hin in Hf as Hl. destruct l as [|x l]; [by apply elem_of_nil in Hl|]. cbn. f_equal.
    destruct (proj1 (Hin x)) as [Hx [Hs Hp]]; [apply list_elem_of_here|]. destruct Hf as [Hf [Hs' Hp']].
    assert (ID x = ID f) as E by (apply (Hnames _ _ _ _ Hx Hf); congruence).
    rewrite E in Hx. congruence.
Qed.

(** what a satellite reports replaces the file without an entry in its
    history: the version it replaces, an edit made in the cockpit, say, is
    then recorded nowhere. *)
Theorem report_forgets_version t f content by_ nid now :
  complete t → files t !! ID f = Some f → SatelliteID f ∈ sats t →
  let t' := upsert t (SatelliteID f) (FilePath f) content by_ nid now NoFault in
  files t' !! ID f = Some (mkFile (ID f) (SatelliteID f) (FilePath f) content (Version f + 1) by_ (CreatedAt f) now) ∧
  ¬ complete t' ∧ ∀ c, ¬ recorded t' (ID f) (Version f) c.
Proof using Type arrange_files_perm.
  intros Hc Hf Hs. cbn zeta. unfold upsert. rewrite bool_decide_true by done. cbn [ran andb negb].
  rewrite (proj2 (find_file_Some t (SatelliteID f) (FilePath f) f (complete_rows _ Hc))) by (split; [done|by split]).
  set (f' := mkFile _ _ _ _ _ _ _ _). cbn [set_files files].
  assert (¬ archived t (ID f) (Version f)) as Hno.
  { intros Ha. apply (gapless _ Hc _ _ _ Hf) in Ha. lia. }
  split_and!; [by rewrite lookup_insert_eq| |].
  - intros Hc'. apply Hno. apply (gapless _ Hc' (ID f) f'); [cbn; by rewrite lookup_insert_eq|].
    destruct (file_id _ Hc _ _ Hf). cbn. lia.
  - intros c [(x & Hx & Hv & _)|(k & h & Hh & Hid & Hv & _)].
    + cbn in Hx. rewrite lookup_insert_eq in Hx. injection Hx as <-. cbn in Hv. lia.
    + apply Hno. by exists k, h.
Qed.

(** The three statements of an update that nothing stops. *)
Lemma UpdateContextFile_runs t f content by_ e :
  files t !! ID f = Some f → history (others e 3%nat (others e 2%nat t)) !! new_id e = None →
  (∀ k, flt e k = NoFault) → text content = true → text by_ = true →
  others e 2%nat t = t → others e 3%nat t = t → Version f + 1 < max_int4 →
  UpdateContextFile t (ID f) content by_ e =
    let t4 := others e 4%nat (set_history t (<[new_id e := mkHistory (new_id e) (ID f) (Version f) (Content f)
                (LastModifiedBy f) (now e 3%nat)]> (history t))) in
    match update_file t4 (ID f) content by_ (now e 4%nat) NoFault with
    | (t', None) => (t', Err tt)
    | (t', Some cf) => (t', Ok (Some cf))
    end.
Proof.
  intros Hf Hnew Hflt Ht Hb H2 H3 Hv. unfold UpdateContextFile. rewrite H2 in *. rewrite H3 in *.
  unfold select_version. rewrite !Hflt. cbn [acked]. rewrite Hf. cbn [fmap option_fmap option_map].
  unfold insert_history. rewrite Hf, Hnew. rewrite bool_decide_true by done. cbn [ran andb acked negb]. done.
Qed.

(** of two edits of a file whose statements interleave, history entries
    first, both are accepted and one is recorded nowhere: the version is archived twice and
    the next one not at all. *)
Theorem race_loses_edit t f cA cB eA eB :
  complete t → files t !! ID f = Some f →
  alone eB → others eA = (λ k t, if k =? 4 then (UpdateContextFile t (ID f) cB cockpitAttribution eB).1 else t)%nat →
  (∀ k, flt eA k = NoFault) → (∀ k, flt eB k = NoFault) →
  text cA = true → text cB = true → text cockpitAttribution = true → Version f + 1 < max_int4 →
  new_id eA ≠ new_id eB → history t !! new_id eA = None → history t !! new_id eB = None →
  ∃ t', UpdateContextFile t (ID f) cA cockpitAttribution eA =
    (t', Ok (Some (mkFile (ID f) (SatelliteID f) (FilePath f) cA (Version f + 2) cockpitAttribution (CreatedAt f)
                     (now eA 4%nat)))) ∧
    (∃ h h', history t' !! new_id eA = Some h ∧ history t' !! new_id eB = Some h' ∧
       h_Version h = Version f ∧ h_Version h' = Version f) ∧
    ∀ v c, recorded t' (ID f) v c → recorded t (ID f) v c ∨ v = Version f + 2 ∧ c = cA.
Proof.
  intros Hc Hf HB HA HfA HfB HtA HtB Hatt Hv Hne HnA HnB.
  rewrite UpdateContextFile_runs; rewrite ?HA; cbn [Nat.eqb]; try done.
  set (tA := set_history t _).
  rewrite UpdateContextFile_runs; rewrite ?HB; try done.
  2:{ cbn. by rewrite lookup_insert_ne. }
  unfold no_one. set (tB := set_history tA _).
  unfold update_file at 2. replace (files tB !! ID f) with (Some f) by done. rewrite HtB, Hatt.
  rewrite (proj2 (Z.ltb_lt (Version f) max_int4)) by lia. cbn [andb ran acked fst].
  set (fB := mkFile _ _ _ _ _ _ _ _).
  unfold update_file. cbn [files set_files]. rewrite lookup_insert_eq. cbn [Version fB]. rewrite HtA, Hatt.
  rewrite (proj2 (Z.ltb_lt (Version f + 1) max_int4)) by lia. cbn [andb ran acked].
  replace (Version f + 2) with (Version f + 1 + 1) by lia. eexists. split; [reflexivity|]. split.
  - cbn. eexists _, _. rewrite lookup_insert_ne, !lookup_insert_eq by done. done.
  - intros v c [(x & Hx & Hr)|(k & h & Hh & Hid & Hver & Hcon)].
    + cbn in Hx. rewrite lookup_insert_eq in Hx. injection Hx as <-. cbn in Hr. right. split; [lia|]. by destruct Hr.
    + left. cbn in Hh. apply lookup_insert_Some in Hh as [[<- <-]|[_ Hh]]; [left; by exists f|].
      apply lookup_insert_Some in Hh as [[<- <-]|[_ Hh]]; [left; by exists f|]. right. by exists k, h.
Qed.

(** PUT after PUT, with the answers. *)
Fixpoint edits (h : ContextHandler) (w : World) (sat : N) (fileID : string) (l : list (string * env)) : World * list (go Response) :=
  match l with
  | [] => (w, [])
  | (content, e) :: l' =>
      let '(w1, r) := handleUpdateContextFile h w sat fileID (Some content) e in
      let '(w', rs) := edits h w1 sat fileID l' in (w', r :: rs)
  end.
(** The statements before the update work, undisturbed; the update is refused or fails. *)
Definition reaches_update (e : env) : Prop := alone e ∧ ∀ k, (k < 4)%nat → flt e k = NoFault.
Definition blocked (f : ContextFile) (content : string) (e : env) : Prop :=
  text content = false ∨ text cockpitAttribution = false ∨ max_int4 <= Version f ∨ flt e 4%nat = StmtFails.
(** The entry that an edit makes of the file as it is. *)
Definition entry_of (f : ContextFile) (e : env) : ContextFileHistory :=
  mkHistory (new_id e) (ID f) (Version f) (Content f) (LastModifiedBy f) (now e 3%nat).

Lemma update_blocked t f content e : files t !! ID f = Some f → blocked f content e →
  update_file t (ID f) content cockpitAttribution (now e 4%nat) (flt e 4%nat) = (t, None).
Proof.
  intros Hf Hb. unfold update_file. rewrite Hf.
  assert ((Version f <? max_int4) && text content && text cockpitAttribution && ran (flt e 4%nat) = false) as ->; [|done].
  destruct Hb as [->|[->|[Hv| ->]]]; rewrite ?andb_false_r; [done..| |done].
  rewrite (proj2 (Z.ltb_ge _ _)) by lia. done.
Qed.

Lemma blocked_edit h w sat f fileID content e :
  uuid_Parse fileID = Some (ID f) → files (db w) !! ID f = Some f → SatelliteID f = sat →
  reaches_update e → blocked f content e → history (db w) !! new_id e = None →
  handleUpdateContextFile h w sat fileID (Some content) e =
    (set_db w (set_history (db w) (<[new_id e := entry_of f e]> (history (db w)))),
     Ret (mkResponse 500 (BError "failed to update context file"))).
Proof.
  intros Hp Hf Hs [Ha Hflt] Hb Hnew. unfold handleUpdateContextFile, with_uuid. rewrite Hp. unfold with_file.
  rewrite Ha. unfold no_one at 1. rewrite (Hflt 1%nat) by lia. cbn [acked negb]. unfold GetContextFile. cbn [db set_db]. rewrite Hf.
  rewrite decide_True by done. unfold UpdateContextFile, select_version. rewrite Ha. unfold no_one.
  rewrite (Hflt 2%nat), (Hflt 3%nat) by lia. cbn [acked]. rewrite Hf. cbn [fmap option_fmap option_map]. unfold insert_history. rewrite Hf, Hnew.
  rewrite bool_decide_true by done. cbn [ran andb acked negb]. rewrite update_blocked; [done|done|done].
Qed.

(** C32: edits of a file that fail after their history entry was written, each for a
    reason of its own: the text or the name of the editor is none that the column
    takes, the version cannot be raised, or the update statement fails. All of them
    are answered 500 and the file stays as it was, but each adds an entry of the
    current version, with the current text, so the history is not complete any
    more: it says that this version was replaced, as often as it was tried. *)
Theorem failed_edit_archives h w sat f fileID l :
  uuid_Parse fileID = Some (ID f) → files (db w) !! ID f = Some f → SatelliteID f = sat →
  Forall (λ ce, reaches_update ce.2 ∧ blocked f ce.1 ce.2 ∧ history (db w) !! new_id ce.2 = None) l →
  NoDup (new_id <$> l.*2) →
  let '(w', answers) := edits h w sat fileID l in
  answers = replicate (length l) (Ret (mkResponse 500 (BError "failed to update context file"))) ∧
  files (db w') = files (db w) ∧
  (∀ hid x, history (db w') !! hid = Some x ↔
     history (db w) !! hid = Some x ∨ ∃ e, e ∈ l.*2 ∧ hid = new_id e ∧ x = entry_of f e) ∧
  (l ≠ [] → ¬ complete (db w')).
Proof.
  intros Hp Hf Hs Hl Hnd.
  assert (let '(w', answers) := edits h w sat fileID l in
    answers = replicate (length l) (Ret (mkResponse 500 (BError "failed to update context file"))) ∧
    files (db w') = files (db w) ∧
    (∀ hid x, history (db w') !! hid = Some x ↔
       history (db w) !! hid = Some x ∨ ∃ e, e ∈ l.*2 ∧ hid = new_id e ∧ x = entry_of f e)) as H.
  { revert w Hf Hl. induction l as [|[c e] l IH]; intros w Hf Hl.
    { cbn. split_and!; [done|done|]. intros hid x. split; [by left|]. by intros [?|(e & ?%elem_of_nil & _)]. }
    apply Forall_cons in Hl as [(Hr & Hb & Hn) Hl]. cbn [fmap list_fmap snd] in Hnd. apply NoDup_cons in Hnd as [Hnot Hnd].
    cbn [edits]. rewrite (blocked_edit h w sat f fileID c e) by done.
    specialize (IH Hnd (set_db w (set_history (db w) (<[new_id e:=entry_of f e]> (history (db w))))) Hf).
    destruct (edits _ _ _ _ _) as [w' rs]. destruct IH as (Ha & Hfs & Hh).
    { apply Forall_forall. intros [c' e'] Hin. rewrite Forall_forall in Hl. destruct (Hl _ Hin) as (H1 & H2 & H3).
      split_and!; [done|done|]. cbn. rewrite lookup_insert_ne; [done|]. intros Heq. apply Hnot. rewrite Heq.
      apply (list_elem_of_fmap_2 new_id), (list_elem_of_fmap_2 snd l (c', e')), Hin. }
    split_and!; [by rewrite Ha|done|]. intros hid x. rewrite Hh. cbn. rewrite lookup_insert_Some. split.
    - intros [[[<- <-]|[_ Hx]]|(e' & He' & -> & ->)]; [right; exists e; by split; [apply list_elem_of_here|]|by left|].
      right. exists e'. split_and!; [by apply list_elem_of_further|done|done].
    - intros [Hx|(e' & He' & -> & ->)].
      + left. right. split; [|done]. intros <-. cbn in Hn. congruence.
      + apply elem_of_cons in He' as [->|He']; [by left; left|]. right. by exists e'. }
  destruct (edits _ _ _ _ _) as [w' rs]. destruct H as (Ha & Hfs & Hh). split_and!; [done..|].
  intros Hne Hc. destruct l as [|[c e] l]; [done|].
  assert (history (db w') !! new_id e = Some (entry_of f e)) as Hx.
  { apply Hh. right. exists e. by split; [apply list_elem_of_here|]. }
  assert (archived (db w') (ID f) (Version f)) as Har by (by exists (new_id e), (entry_of f e)).
  assert (files (db w') !! ID f = Some f) as Hf' by (by rewrite Hfs). apply (gapless _ Hc _ f _ Hf') in Har. lia.
Qed.

(** ** The history as it is shown *)

Lemma with_diffs_lookup current l i x :
  with_diffs current l !! i = Some x →
  ∃ h, l !! i = Some h ∧ x = (h, time_text (ModifiedAt h),
    computeDiff (h_Content h) (from_option h_Content current (l !! S i))).
Proof.
  revert i. induction l as [|h l IH]; intros i; [done|]. destruct i as [|i]; cbn [with_diffs].
  - cbn. intros [= <-]. exists h. split; [done|]. by destruct l.
  - intros Hx. apply IH in Hx as (y & Hy & ->). by exists y.
Qed.

#[export] Instance later_trans : Transitive later.
Proof. intros a b c. unfold later. lia. Qed.
#[export] Instance later_total : Total later.
Proof. intros a b. unfold later. lia. Qed.

(** the history of a file is every entry of it, latest first, and the diff
    of an entry leads to the entry before it in time, not to the version that
    replaced it; the oldest one alone is compared with the current text. *)
Theorem diffs_run_backwards w sat fileID f e :
  uuid_Parse fileID = Some (ID f) → files (db w) !! ID f = Some f → SatelliteID f = sat →
  alone e → (∀ k, flt e k = NoFault) →
  ∃ l, handleGetContextFileHistory w sat fileID e = (w, Ret (mkResponse 200 (BHistory l (Z.of_nat (length l))))) ∧
    (∀ h, h ∈ l.*1.*1 ↔ ∃ hid, history (db w) !! hid = Some h ∧ ContextFileID h = ID f) ∧
    ∀ i h time diff, l !! i = Some (h, time, diff) →
      match l !! S i with
      | Some (h', _, _) => ModifiedAt h' <= ModifiedAt h ∧ diff = computeDiff (h_Content h) (h_Content h')
      | None => diff = computeDiff (h_Content h) (Content f)
      end.
Proof using Type arrange_history_perm.
  intros Hp Hf Hs Ha Hflt. unfold handleGetContextFileHistory, with_uuid. rewrite Hp. unfold with_file.
  rewrite Ha. unfold no_one. rewrite !Hflt. cbn [acked negb].
  replace (set_db w (db w)) with w by (by destruct w). unfold GetContextFile. rewrite Hf, decide_True by done.
  unfold ListContextFileHistory. replace (set_db w (db w)) with w by (by destruct w).
  set (l := merge_sort later _).
  assert (length (with_diffs (Content f) l) = length l) as Hlen by (induction l; cbn; congruence).
  exists (with_diffs (Content f) l). rewrite Hlen. split; [done|]. split.
  - intros h. assert ((with_diffs (Content f) l).*1.*1 = l) as -> by (clear Hlen; induction l; cbn; congruence).
    unfold l. rewrite merge_sort_Permutation, list_elem_of_filter, arrange_history_perm, list_elem_of_fmap. split.
    + intros [Hid ([hid y] & -> & Hy%elem_of_map_to_list)]. by exists hid.
    + intros (hid & Hh & Hid). split; [done|]. exists (hid, h). by rewrite elem_of_map_to_list.
  - intros i h time diff Hi. apply with_diffs_lookup in Hi as (h0 & Hh0 & E). injection E as -> -> ->.
    destruct (with_diffs (Content f) l !! S i) as [[[h' t'] d']|] eqn:Hn.
    + apply with_diffs_lookup in Hn as (h1 & Hh1 & E). injection E as -> -> ->. rewrite Hh1. split; [|done].
      assert (StronglySorted later l) as Hsort by (apply (StronglySorted_merge_sort _)).
      assert (∀ (k : list ContextFileHistory) j a b, StronglySorted later k → k !! j = Some a → k !! S j = Some b → later a b) as Hadj.
      { intros k j a b Hk. revert j. induction Hk as [|x k Hk IH Hx]; intros j; [done|]. destruct j as [|j]; cbn.
        - intros [= ->] Hb. rewrite Forall_forall in Hx. apply Hx. by apply list_elem_of_lookup_2 in Hb.
        - apply IH. }
      by apply (Hadj l i).
    + apply lookup_ge_None in Hn. rewrite Hlen in Hn. by rewrite (proj2 (lookup_ge_None l (S i)) Hn).
Qed.

(** ** The gateway's table *)

Definition stored (f : ContextFile) : Gateway.CtxFile :=
  Gateway.mkCtxFile (bytes_of (Content f)) (Version f) (LastModifiedBy f) (UpdatedAt f).
(** The gateway's view of the same rows. *)
Definition represents (t : Tables) (n : Gateway.Nexus) : Prop :=
  sats t = dom (Gateway.sats n) ∧
  ∀ sat path, Gateway.ctx_files n !! (sat, path) = stored <$> find_file t sat path.

Lemma upsert_rows t sat path content by_ nid now f :
  rows_ok t → files t !! nid = None → rows_ok (upsert t sat path content by_ nid now f).
Proof using Type arrange_files_perm.
  intros Hok Hnew. unfold upsert. destruct (negb _); [done|].
  destruct (find_file t sat path) as [old|] eqn:E; destruct Hok as [Hids Hnames].
  - apply find_file_Some in E as [Ho [Hs Hp]]; [|done]. split; cbn [set_files files].
    + intros id f0 [[<- <-]|[_ H]]%lookup_insert_Some; [done|by apply Hids].
    + intros id1 id2 f1 f2 [[<- <-]|[? K1]]%lookup_insert_Some [[<- <-]|[? K2]]%lookup_insert_Some; cbn; intros Hs' Hp'.
      * done.
      * apply (Hnames _ _ _ _ Ho K2); congruence.
      * apply (Hnames _ _ _ _ K1 Ho); congruence.
      * by apply (Hnames _ _ _ _ K1 K2).
  - assert (∀ id x, files t !! id = Some x → SatelliteID x = sat → FilePath x = path → False) as Hno.
    { intros id x Hx Hs Hp. assert (find_file t sat path = Some x) as H; [|congruence].
      apply find_file_Some; [done|]. by rewrite (Hids _ _ Hx). }
    split; cbn [set_files files].
    + intros id f0 [[<- <-]|[_ H]]%lookup_insert_Some; [done|by apply Hids].
    + intros id1 id2 f1 f2 [[<- <-]|[? K1]]%lookup_insert_Some [[<- <-]|[? K2]]%lookup_insert_Some; cbn; intros Hs' Hp'.
      * done.
      * by destruct (Hno _ _ K2).
      * by destruct (Hno _ _ K1).
      * by apply (Hnames _ _ _ _ K1 K2).
Qed.

Lemma upsert_find t sat path content by_ nid now f s p :
  rows_ok t → files t !! nid = None → ran f = true → sat ∈ sats t →
  stored <$> find_file (upsert t sat path content by_ nid now f) s p =
    if decide (s = sat ∧ p = path)
    then Some (Gateway.mkCtxFile (bytes_of content) (from_option (λ old, Version old + 1) 1 (find_file t sat path)) by_ now)
    else stored <$> find_file t s p.
Proof using Type arrange_files_perm.
  intros Hok Hnew Hr Hs. pose proof (upsert_rows t sat path content by_ nid now f Hok Hnew) as Hok'.
  set (x := match find_file t sat path with
            | Some old => mkFile (ID old) sat path content (Version old + 1) by_ (CreatedAt old) now
            | None => mkFile nid sat path content 1 by_ now now end).
  assert (upsert t sat path content by_ nid now f = set_files t (<[ID x := x]> (files t))) as Hu.
  { unfold upsert, x. rewrite Hr, bool_decide_true by done. cbn [andb negb]. by destruct (find_file t sat path). }
  rewrite Hu in Hok' |- *. destruct (decide _) as [[-> ->]|Hne].
  - assert (named sat path x) as Hx by (unfold x; destruct (find_file t sat path); done).
    rewrite (proj2 (find_file_Some _ sat path x Hok')).
    + unfold x, stored. cbn. by destruct (find_file t sat path).
    + cbn [set_files files]. by rewrite lookup_insert_eq.
  - f_equal. apply option_eq. intros y. rewrite !find_file_Some by done. cbn [set_files files]. split.
    + intros [Hy Hn]. apply lookup_insert_Some in Hy as [[_ <-]|[_ Hy]]; [|done]. exfalso. apply Hne.
      destruct Hn as [<- <-]. unfold x. by destruct (find_file t sat path).
    + intros [Hy Hn]. split; [|done]. rewrite lookup_insert_ne; [done|]. intros E. destruct Hok as [Hids Hnames].
      unfold x in E. destruct (find_file t sat path) as [old|] eqn:Eo; cbn in E.
      * apply find_file_Some in Eo as [Ho [Hos Hop]]; [|done]. rewrite E in Ho. rewrite Hy in Ho. injection Ho as <-.
        apply Hne. destruct Hn. by split; congruence.
      * congruence.
Qed.

(** the gateway's handling of a reported file is the upsert on the rows of
    the cockpit: it keeps the gateway's table the view of these rows. *)
Theorem upsert_is_gateway pg_uuid srv t n m content nid e :
  rows_ok t → files t !! nid = None → represents t n → Gateway.has_db srv = true →
  cf_content m = bytes_of content →
  let t' := match pg_uuid (cf_satellite_id m) with
            | Some sat => upsert t sat (cf_file_path m) content (cf_modified_by m) nid (Gateway.now e) (Gateway.flt e 0)
            | None => t
            end in
  rows_ok t' ∧ represents t' (Gateway.handle_context_file pg_uuid srv n (Some m) e).
Proof using Type arrange_files_perm.
  intros Hok Hnew [Hs Hv] Hdb Hcon. cbn zeta. unfold Gateway.handle_context_file. rewrite Hdb. cbn [negb].
  destruct (pg_uuid (cf_satellite_id m)) as [sat|]; [|by split].
  split; [by apply upsert_rows|].
  destruct (ran (Gateway.flt e 0)) eqn:Hr.
  2:{ unfold upsert. rewrite Hr. cbn [andb negb]. by destruct (Gateway.flt e 0). }
  replace (match Gateway.flt e 0 with StmtFails => n | _ => _ end) with
    (if bool_decide (is_Some (Gateway.sats n !! sat)) then
       let key := (sat, cf_file_path m) in
       let v := from_option (λ old, Gateway.c_version old + 1) 1 (Gateway.ctx_files n !! key) in
       Gateway.set_ctx_files n (<[key := Gateway.mkCtxFile (cf_content m) v (cf_modified_by m) (Gateway.now e)]>
         (Gateway.ctx_files n)) else n) by (by destruct (Gateway.flt e 0)).
  destruct (decide (sat ∈ sats t)) as [Hin|Hout].
  - rewrite bool_decide_true by (rewrite Hs in Hin; by apply elem_of_dom).
    split; [unfold upsert; by rewrite Hr, bool_decide_true by done; destruct (find_file t sat _)|].
    intros s p. rewrite upsert_find by done. cbn. rewrite Hv, Hcon.
    destruct (decide (s = sat ∧ p = cf_file_path m)) as [[-> ->]|Hne].
    + rewrite lookup_insert_eq. by destruct (find_file t sat _).
    + rewrite lookup_insert_ne; [done|]. intros [= <- <-]. by apply Hne.
  - rewrite bool_decide_false by (rewrite Hs in Hout; by rewrite <-elem_of_dom).
    unfold upsert. rewrite bool_decide_false by done. rewrite andb_false_r. by split.
Qed.
End Statements.

(** ** Concrete inputs *)

Definition demo_text (s : string) : bool := negb (String.eqb s "bad").
Definition demo_uuid (s : string) : option N := Z.to_N <$> Str.digits s.
Definition demo_time (t : Z) : string := EmptyString.
Definition demo_bytes (s : string) : bytes := (λ c, Z.of_nat (nat_of_ascii c)) <$> list_ascii_of_string s.
Definition any_order (a b : ContextFile) : Prop := True.
#[export] Instance any_order_dec : RelDecision any_order.
Proof. intros a b. left. exact I. Defined.

Definition demo_file : ContextFile := mkFile 2 1 "notes.md" "b" 2 "user@cockpit" 10 20.
Definition demo_entry : ContextFileHistory := mkHistory 3 2 1 "a" "user@cockpit" 20.
Definition demo_tables : Tables := mkTables {[1%N]} {[2%N := demo_file]} {[3%N := demo_entry]}.
Definition demo_world : World := mkWorld demo_tables Registry.NewStreamRegistry ∅.
Definition calm (id : N) : env := mkEnv (λ k, 30 + Z.of_nat k) id (λ _, NoFault) no_one.

Lemma demo_files i f : files demo_tables !! i = Some f → i = 2%N ∧ f = demo_file.
Proof. unfold demo_tables. cbn [files]. by intros [<- <-]%lookup_singleton_Some. Qed.
Lemma demo_history i h : history demo_tables !! i = Some h → i = 3%N ∧ h = demo_entry.
Proof. unfold demo_tables. cbn [history]. by intros [<- <-]%lookup_singleton_Some. Qed.

Lemma demo_complete : complete demo_tables.
Proof.
  split; unfold demo_tables; cbn [files history].
  - intros id f [<- <-]%lookup_singleton_Some. by cbn.
  - by intros id1 id2 f1 f2 [<- <-]%lookup_singleton_Some [<- <-]%lookup_singleton_Some.
  - intros hid h [<- <-]%lookup_singleton_Some. by exists demo_file.
  - by intros i1 i2 h1 h2 [<- <-]%lookup_singleton_Some [<- <-]%lookup_singleton_Some.
  - intros id f v [<- <-]%lookup_singleton_Some. unfold archived. cbn. split.
    + intros (hid & h & [<- <-]%lookup_singleton_Some & _ & <-). cbn. lia.
    + intros Hv. exists 3%N, demo_entry. split; [done|]. cbn. lia.
Qed.

Example diff_reconstructs_witness :
  let d := computeDiff ("a" +:+ String newline "b") ("a" +:+ String newline ("c" +:+ String newline "d")) in
  side_of "-"%char d = "a" +:+ String newline "b" ∧ d ≠ ""%string.
Proof.
  destruct (diff_reconstructs ("a" +:+ String newline "b") ("a" +:+ String newline ("c" +:+ String newline "d")))
    as [_ H]. destruct H as (Ho & _ & Hne); [done|]. by split.
Defined.

Example history_complete_witness :
  let t' := db (HandleContextAPI demo_text (λ l, l) (λ l, l) any_order demo_uuid (λ _, ""%string) demo_time demo_bytes
    (mkHandler true false) demo_world "PUT" "/api/v1/satellites/1/context/2" None (Some "c"%string) (calm 4)).1 in
  complete t' ∧ recorded t' 2 2 "b".
Proof.
  destruct (history_complete demo_text (λ l, l) (λ l, l) any_order demo_uuid (λ _, ""%string) demo_time demo_bytes
    (mkHandler true false) demo_world "PUT" "/api/v1/satellites/1/context/2" None (Some "c"%string) (calm 4)) as [Hc Hr].
  - exact demo_complete.
  - split; [done|done|done|done|]. by intros id f [_ ->]%demo_files.
  - split; [exact Hc|]. apply Hr; [left; by exists demo_file|]. vm_compute. by eexists.
Defined.

Example report_forgets_version_witness :
  let t' := upsert (λ l, l) demo_tables 1 "notes.md" "old" "local:1" 9 40 NoFault in
  Content <$> files t' !! 2%N = Some "old"%string ∧ ∀ c, ¬ recorded t' 2 2 c.
Proof.
  destruct (report_forgets_version (λ l, l) (λ l, reflexivity l) demo_tables demo_file "old" "local:1" 9 40) as (Hf & _ & Hno).
  - exact demo_complete.
  - done.
  - vm_compute. reflexivity.
  - split; [exact (f_equal (fmap Content) Hf)|exact Hno].
Defined.

Definition demo_racer (cB : string) : env :=
  mkEnv (λ k, 30 + Z.of_nat k) 4 (λ _, NoFault)
    (λ k t, if k =? 4 then (UpdateContextFile demo_text t 2 cB cockpitAttribution (calm 5)).1 else t)%nat.

Example race_loses_edit_witness :
  let t' := (UpdateContextFile demo_text demo_tables 2 "mine" cockpitAttribution (demo_racer "theirs")).1 in
  ¬ recorded t' 2 3 "theirs" ∧ ¬ recorded t' 2 4 "theirs".
Proof.
  destruct (race_loses_edit demo_text demo_tables demo_file "mine" "theirs" (demo_racer "theirs") (calm 5))
    as (t' & E & _ & Hr); try done.
  - exact demo_complete.
  - cbn zeta. change (ID demo_file) with 2%N in *. rewrite E. cbn [fst].
    assert (∀ v, recorded demo_tables 2 v "theirs" → False) as Hno.
    { by intros v [(f & [_ ->]%demo_files & _ & Hc)|(k & h & [_ ->]%demo_history & _ & _ & Hc)]. }
    split; intros [H|[_ H]]%Hr; [by apply Hno in H|done|by apply Hno in H|done].
Defined.

(** A text that is refused, and then a statement that fails: two entries of version 1. *)
Definition demo_edits : list (string * env) :=
  [("bad", calm 4); ("good", mkEnv (λ _, 30) 5 (λ k, if (k =? 4)%nat then StmtFails else NoFault) no_one)]%string.
Example failed_edit_archives_witness :
  let '(w', answers) := edits demo_text demo_uuid (λ _, ""%string) demo_time demo_bytes (mkHandler true false) demo_world 1 "2" demo_edits in
  length answers = 2%nat ∧ files (db w') = files (db demo_world) ∧ ¬ complete (db w').
Proof.
  pose proof (failed_edit_archives demo_text demo_uuid (λ _, ""%string) demo_time demo_bytes (mkHandler true false)
    demo_world 1 demo_file "2" demo_edits eq_refl eq_refl eq_refl) as H.
  destruct (edits _ _ _ _ _ _ _ _ _ _) as [w' answers]. destruct H as (Ha & Hf & _ & Hc).
  - apply Forall_cons; split; [|apply Forall_cons; split; [|constructor]].
    + split; [by split|]. split; [by left|reflexivity].
    + split; [|split; [by right; right; right|reflexivity]]. split; [reflexivity|].
      intros [|[|[|[|k]]]] Hk; [reflexivity..|lia].
  - by apply (bool_decide_unpack _).
  - split_and!; [by rewrite Ha|done|by apply Hc].
Defined.

Example diffs_run_backwards_witness :
  ∃ l, handleGetContextFileHistory (λ l, l) demo_uuid demo_time demo_world 1 "2" (calm 4) =
    (demo_world, Ret (mkResponse 200 (BHistory l (Z.of_nat (length l))))).
Proof.
  destruct (diffs_run_backwards (λ l, l) demo_uuid demo_time (λ l, reflexivity l) demo_world 1 "2" demo_file (calm 4)
    eq_refl eq_refl eq_refl eq_refl (λ _, eq_refl)) as (l & H & _). by exists l.
Defined.

(** Three versions: the entry of version 2 is shown with the way back to 1, the
    entry of version 1 with the way to 3. *)
Example diffs_of_three :
  let t := mkTables {[1%N]} {[2%N := mkFile 2 1 "notes.md" "three" 3 "user@cockpit" 10 30]}
    {[3%N := mkHistory 3 2 1 "one" "user@cockpit" 20; 4%N := mkHistory 4 2 2 "two" "user@cockpit" 30]} in
  (handleGetContextFileHistory (λ l, l) demo_uuid demo_time (mkWorld t Registry.NewStreamRegistry ∅) 1 "2" (calm 4)).2 =
  Ret (mkResponse 200 (BHistory
    [(mkHistory 4 2 2 "two" "user@cockpit" 30, ""%string, "- two" +:+ String newline "+ one");
     (mkHistory 3 2 1 "one" "user@cockpit" 20, ""%string, "- one" +:+ String newline "+ three")] 2)).
Proof. vm_compute. reflexivity. Qed.

(** A PUT whose file is deleted after it was looked up dereferences nil. *)
Example put_races_delete :
  (handleUpdateContextFile demo_text demo_uuid (λ _, ""%string) demo_time demo_bytes (mkHandler true false) demo_world 1 "2"
    (Some "c"%string) (mkEnv (λ _, 30) 4 (λ _, NoFault) (λ k t, if (k =? 2)%nat then delete_file t 2 else t))).2 = Panic.
Proof. vm_compute. reflexivity. Qed.

Definition no_files : Tables := mkTables {[1%N; 2%N]} ∅ ∅.
Definition report : ContextFileSync := mkCtxSync "1" "notes.md" (demo_bytes "a") 0 "local:1".

Example upsert_is_gateway_witness :
  represents (λ l, l) demo_bytes (upsert (λ l, l) no_files 1 "notes.md" "a" "local:1" 9 50 NoFault)
    (Gateway.handle_context_file demo_uuid Gateway.demo_srv Gateway.demo_nexus (Some report) Gateway.demo_env).
Proof.
  refine (proj2 (upsert_is_gateway (λ l, l) demo_bytes (λ l, reflexivity l) demo_uuid Gateway.demo_srv no_files
    Gateway.demo_nexus report "a" 9 Gateway.demo_env _ eq_refl _ eq_refl eq_refl)).
  - split; unfold no_files; cbn [files]; [by intros ? ? ?%lookup_empty_Some|by intros ? ? ? ? ?%lookup_empty_Some].
  - split; [vm_compute; reflexivity|]. intros sat path. vm_compute. reflexivity.
Defined.

End ContextFiles.
