(* ===== verification/ContextSync.v ===== *)
(** * internal/satellite/context_watcher.go, and the context files of cmd/daao/daemon.go

    The satellite's directory of notes: the files it is seeded with, the watcher
    that reports edits, the files Nexus pushes, and the loop from an edit in the
    cockpit to the disk and back. A directory maps names to files; paths are
    those of Linux; reading and writing may fail. The starter texts of the
    standard files and the order in which Go walks a map are parameters. *)
From Stdlib Require Import Ascii String.
From S2P Require Import Prelude GoStrings SessionStore Channels Streams Protocol Satellites Gateway ContextFiles.
Import Store Chan Proto.
#[local] Open Scope Z_scope.
#[local] Set Default Proof Using "Type".

Module ContextSync.

(** [string(b)] and [[]byte(s)] *)
Definition string_of (b : bytes) : string := string_of_list_ascii ((λ z, ascii_of_nat (Z.to_nat z)) <$> b).
Definition bytes_of (s : string) : bytes := (λ c, Z.of_nat (nat_of_ascii c)) <$> list_ascii_of_string s.

Lemma string_of_bytes s : string_of (bytes_of s) = s.
Proof.
  unfold string_of, bytes_of. rewrite <-list_fmap_compose.
  induction s as [|c s IH]; [done|]. cbn. rewrite IH, Nat2Z.id, ascii_nat_embedding. done.
Qed.

(** ** The directory *)

Inductive entry := File (content : string) | Directory.
Notation dir := (gmap string entry).

Definition slash : ascii := "/"%char.
Definition Base (path : string) : string :=
  if String.eqb path "" then "." else
  match last (Str.Split (Str.TrimRight path slash) slash) with
  | Some x => if String.eqb x "" then "/" else x
  | None => "/"
  end.

Definition lower (c : ascii) : ascii :=
  let n := nat_of_ascii c in if (65 <=? n)%nat && (n <=? 90)%nat then ascii_of_nat (n + 32) else c.
Fixpoint ToLower (s : string) : string :=
  match s with EmptyString => EmptyString | String c s' => String (lower c) (ToLower s') end.
Definition isMDFile (name : string) : bool := Str.HasSuffix (ToLower name) ".md".

(** os.WriteFile: [ok] is what the system answers; a directory is not written. *)
Definition WriteFile (d : dir) (name content : string) (ok : bool) : dir :=
  match d !! name with
  | Some Directory => d
  | _ => if ok then <[name := File content]> d else d
  end.
Definition ReadFile (d : dir) (name : string) (ok : bool) : option string :=
  match d !! name with Some (File c) => if ok then Some c else None | _ => None end.

(** ** cmd/daao/daemon.go: a file pushed by Nexus *)

Definition handleContextFilePush (d : dir) (file : option ContextFileSync) (mkdir ok : bool) : dir :=
  match file with
  | None => d
  | Some f =>
      if negb mkdir then d else
      let base := Base (cf_file_path f) in
      if negb (String.eqb base (cf_file_path f)) || String.eqb base "." || String.eqb base ".." then d
      else if String.eqb base "/" then d                      (* the directory itself *)
      else WriteFile d base (string_of (cf_content f)) ok
  end.

(** ** context_watcher.go *)

Definition StandardFiles : list string :=
  ["systeminfo.md"; "runbooks.md"; "alerts.md"; "topology.md"; "secrets-policy.md"; "history.md"; "monitoring.md";
   "dependencies.md"]%string.
(** The loop of SeedStandardFiles; [ok name] is the outcome of the write. *)
Definition SeedStandardFiles (starter : string → string) (d : dir) (ok : string → bool) : dir :=
  foldl (λ d name, match d !! name with None => WriteFile d name (starter name) (ok name) | Some _ => d end) d StandardFiles.

Definition ReadAllContextFiles (d : dir) (ok : string → bool) : gmap string string :=
  omap (λ x, x) (map_imap (λ name x,
    match x with File c => if isMDFile name && ok name then Some (Some c) else Some None | Directory => Some None end) d).

Record ContextFileEvent := mkEvent { FilePath : string; Content : string; Deleted : bool }.
Record ContextWatcher := mkWatcher { pending : gmap string bool; events : list ContextFileEvent }.
Definition NewContextWatcher : ContextWatcher := mkWatcher ∅ [].
Definition capacity : nat := 32.

(** An event of the file system: a name and whether it was removed or renamed. *)
Definition fs_event (w : ContextWatcher) (name : string) (deleted : bool) : ContextWatcher :=
  if isMDFile name then mkWatcher (<[Base name := deleted]> (pending w)) (events w) else w.

Definition send (evs : list ContextFileEvent) (e : ContextFileEvent) : list ContextFileEvent :=
  if (length evs <? capacity)%nat then evs ++ [e] else evs.
Definition flush_one (d : dir) (ok : string → bool) (evs : list ContextFileEvent) (p : string * bool)
    : list ContextFileEvent :=
  let '(relPath, deleted) := p in
  if deleted : bool then send evs (mkEvent relPath "" true)
  else match ReadFile d relPath (ok relPath) with
       | None => evs
       | Some content => send evs (mkEvent relPath content false)
       end.

Section Sync.
Variable arrange : list (string * bool) → list (string * bool).
Variable arrange_all : list (string * string) → list (string * string).

(** What the timer runs when no event came for a while. *)
Definition flush (w : ContextWatcher) (d : dir) (ok : string → bool) : ContextWatcher :=
  mkWatcher ∅ (foldl (flush_one d ok) (events w) (arrange (map_to_list (pending w)))).

(** ** cmd/daao/daemon.go: reporting to Nexus *)

Definition sendContextUpdate (satelliteID filePath content : string) (deleted : bool) : ContextFileSync :=
  mkCtxSync satelliteID filePath (bytes_of (if deleted then ""%string else content)) 0 ("local:" +:+ satelliteID).
(** What runContextWatcher sends when the daemon starts. *)
Definition start_reports (satelliteID : string) (d : dir) (ok : string → bool) : list ContextFileSync :=
  (λ p, sendContextUpdate satelliteID p.1 p.2 false) <$> arrange_all (map_to_list (ReadAllContextFiles d ok)).
(** What its loop sends for the events that wait. *)
Definition event_reports (satelliteID : string) (w : ContextWatcher) : list ContextFileSync :=
  (λ e, sendContextUpdate satelliteID (FilePath e) (Content e) (Deleted e)) <$> events w.
End Sync.

(** ** The pushed file stays in its directory *)

Lemma Base_same p : Base p = p → p = "/"%string ∨ p = "."%string ∨ (p ≠ ""%string ∧ Str.ContainsByte p slash = false).
Proof.
  unfold Base. destruct (String.eqb_spec p "") as [->|Hp]; [done|].
  pose proof (Str.Split_free (Str.TrimRight p slash) slash) as Hf.
  destruct (last _) as [x|] eqn:E; [|auto]. destruct (String.eqb_spec x "") as [|Hx]; [auto|]. intros ->. right. right.
  split; [done|]. rewrite Forall_forall in Hf. apply Hf. by apply last_Some_elem_of.
Qed.

(** a file that Nexus pushes is written in the context directory under its
    own name or not at all: its path holds no separator and is neither the
    directory nor its parent, and no other file changes. A path with a separator
    is refused, so that a note the cockpit keeps below a directory never arrives. *)
Theorem push_contained d f mkdir ok :
  let d' := handleContextFilePush d (Some f) mkdir ok in
  (∀ name, name ≠ cf_file_path f → d' !! name = d !! name) ∧
  (d' ≠ d → Str.ContainsByte (cf_file_path f) slash = false ∧ cf_file_path f ∉ [""; "."; ".."; "/"]%string ∧
     d' !! cf_file_path f = Some (File (string_of (cf_content f)))) ∧
  (Str.ContainsByte (cf_file_path f) slash = true → d' = d).
Proof.
  cbn zeta. unfold handleContextFilePush. destruct mkdir; cbn [negb]; [|done].
  destruct (_ || _) eqn:E; [done|]. apply orb_false_iff in E as [[E Hdot]%orb_false_iff Hdots].
  apply negb_false_iff, String.eqb_eq in E. apply String.eqb_neq in Hdot, Hdots.
  destruct (String.eqb_spec (Base (cf_file_path f)) "/") as [|Hs]; [done|].
  apply Base_same in E as Hb. rewrite E in *. destruct Hb as [?|[?|[Hne Hfree]]]; [done..|].
  unfold WriteFile. split_and!.
  - intros name Hn. destruct (d !! cf_file_path f) as [[c|]|]; destruct ok; try done; by rewrite lookup_insert_ne.
  - intros Hch. split; [done|]. split.
    + rewrite !elem_of_cons, elem_of_nil. by intros [?|[?|[?|[?|?]]]].
    + revert Hch; destruct (d !! cf_file_path f) as [[c|]|] eqn:E1; destruct ok; intros Hch; first [by destruct Hch|by rewrite lookup_insert_eq].
  - by rewrite Hfree.
Qed.

(** ** The watcher *)

Definition report (d : dir) (ok : string → bool) (p : string * bool) : option ContextFileEvent :=
  let '(relPath, deleted) := p in
  if deleted : bool then Some (mkEvent relPath "" true)
  else (λ c, mkEvent relPath c false) <$> ReadFile d relPath (ok relPath).

Lemma flush_room d ok l : ∀ evs, (length evs + length l ≤ capacity)%nat →
  foldl (flush_one d ok) evs l = evs ++ omap (report d ok) l.
Proof.
  induction l as [|[p del] l IH]; intros evs Hl; cbn [foldl omap list_omap]; [by rewrite app_nil_r|].
  cbn [length] in Hl.
  assert (∀ e, send evs e = evs ++ [e]) as Hs.
  { intros e. unfold send. by rewrite (proj2 (Nat.ltb_lt (length evs) capacity)) by lia. }
  cbn [flush_one report]. destruct del; [|destruct (ReadFile d p (ok p)) as [c|]]; cbn [fmap option_fmap option_map].
  - rewrite Hs, IH by (rewrite length_app; cbn; lia). by rewrite <-app_assoc.
  - rewrite Hs, IH by (rewrite length_app; cbn; lia). by rewrite <-app_assoc.
  - by rewrite IH by lia.
Qed.

Lemma flush_full d ok l : ∀ evs, (capacity ≤ length evs)%nat → foldl (flush_one d ok) evs l = evs.
Proof.
  induction l as [|[p del] l IH]; intros evs Hl; [done|]. cbn [foldl].
  assert (∀ e, send evs e = evs) as Hs.
  { intros e. unfold send. destruct (Nat.ltb_spec (length evs) capacity); [lia|done]. }
  cbn [flush_one]. destruct del; [by rewrite Hs, IH|]. destruct (ReadFile d p (ok p)); [by rewrite Hs, IH|by apply IH].
Qed.

(** when the file system has been quiet, every note touched since is
    reported as it is on the disk, removed ones as such, while the channel has
    room; with a full channel the changes are forgotten, and nothing is left to
    report them later. *)
Theorem watcher_reports arrange w d ok :
  (∀ l, arrange l ≡ₚ l) →
  let w' := flush arrange w d ok in
  pending w' = ∅ ∧
  ((length (events w) + size (pending w) ≤ capacity)%nat →
     events w `prefix_of` events w' ∧
     ∀ p del, pending w !! p = Some del → ∀ e, report d ok (p, del) = Some e → e ∈ events w') ∧
  (length (events w) = capacity → events w' = events w).
Proof.
  intros Harr. cbn zeta. split; [done|]. split.
  - intros Hroom. unfold flush. cbn [events]. rewrite flush_room.
    2:{ rewrite (Permutation_length (Harr _)), length_map_to_list. exact Hroom. }
    split; [by eexists|]. intros p del Hp e He. apply elem_of_app. right. apply list_elem_of_omap.
    exists (p, del). split; [|exact He]. rewrite (Harr _). by apply elem_of_map_to_list.
  - intros Hfull. unfold flush. cbn [events]. apply flush_full. lia.
Qed.

(** ** From the cockpit to the disk and back *)

Lemma last_Split_app a p c : Str.ContainsByte p c = false → last (Str.Split (a +:+ String c p) c) = Some p.
Proof.
  intros Hp. induction a as [|x a IH].
  - change (last (Str.Split (String c p) c) = Some p). cbn [Str.Split]. rewrite Ascii.eqb_refl.
    by rewrite Str.Split_none.
  - change (last (Str.Split (String x (a +:+ String c p)) c) = Some p). cbn [Str.Split].
    destruct (Str.Split (a +:+ String c p) c) as [|y ys] eqn:E; [done|].
    destruct (Ascii.eqb x c); [by rewrite last_cons, IH|].
    destruct ys as [|z zs]; [|exact IH].
    exfalso. apply Str.Split_first in E as [[_ E]|(t & _ & Et)]; [|by apply ContextFiles.Split_nonempty in Et].
    pose proof (Str.Split_free (a +:+ String c p) c) as Hf. cbn in IH. injection IH as ->.
    assert (Str.ContainsByte (a +:+ String c p) c = true) as Hc
      by (rewrite Str.ContainsByte_app; cbn [Str.ContainsByte]; rewrite Ascii.eqb_refl; by rewrite orb_true_r).
    rewrite E in Hc. congruence.
Qed.


Lemma Base_join dirname p : p ≠ ""%string → Str.ContainsByte p slash = false → Base (dirname +:+ "/" +:+ p) = p.
Proof.
  intros Hp Hf. unfold Base.
  assert (Str.TrimRight (dirname +:+ "/" +:+ p) slash = dirname +:+ String slash p) as ->.
  { apply (Str.TrimRight_app dirname (String slash p) slash); [done|]. cbn [Str.TrimRight].
    rewrite Str.TrimRight_free by done. by destruct p. }
  rewrite last_Split_app by done. destruct (String.eqb_spec p ""); [done|].
  by destruct dirname.
Qed.

Lemma Base_own p : p ∉ [""; "."; ".."]%string → Str.ContainsByte p slash = false → Base p = p ∧ p ≠ "/"%string.
Proof.
  rewrite !elem_of_cons. intros Hp Hf. split; [|by intros ->].
  unfold Base. destruct (String.eqb_spec p "") as [->|Hne]; [by destruct Hp; left|].
  rewrite Str.TrimRight_free, Str.Split_none by done. cbn. by destruct (String.eqb_spec p "").
Qed.

Lemma ToLower_app a b : ToLower (a +:+ b) = ToLower a +:+ ToLower b.
Proof.
  induction a as [|c a IH]; [done|].
  change (String (lower c) (ToLower (a +:+ b)) = String (lower c) (ToLower a +:+ ToLower b)). by rewrite IH.
Qed.

Lemma isMDFile_app a b : isMDFile b = true → isMDFile (a +:+ b) = true.
Proof.
  unfold isMDFile. rewrite ToLower_app, !Str.HasSuffix_true. intros [t ->].
  exists (ToLower a +:+ t). by rewrite Str.app_assoc_str.
Qed.

Section Echo.
Variable text : string → bool.
Variable arrange_files : list ContextFiles.ContextFile → list ContextFiles.ContextFile.
Hypothesis arrange_files_perm : ∀ l, arrange_files l ≡ₚ l.
Variable uuid_Parse : string → option N.
Variable uuid_String : N → string.
Variable time_text : Z → string.
Variable arrange : list (string * bool) → list (string * bool).
Hypothesis arrange_perm : ∀ l, arrange l ≡ₚ l.

Notation PUT := (ContextFiles.handleUpdateContextFile text uuid_Parse uuid_String time_text bytes_of
  (ContextFiles.mkHandler true true)).

(** What the satellite makes of a pushed file: it is written, the watcher sees
    the write, and reports it. *)
Definition pushed (dirname : string) (d : dir) (msg : ContextFileSync) (satelliteID : string) : dir * list ContextFileSync :=
  let d1 := handleContextFilePush d (Some msg) true true in
  (d1, event_reports satelliteID
         (flush arrange (fs_event NewContextWatcher (dirname +:+ "/" +:+ cf_file_path msg) false) d1 (λ _, true))).

Lemma pushed_reports dirname d msg satelliteID p :
  cf_file_path msg = p → p ∉ [""; "."; ".."]%string → Str.ContainsByte p slash = false → isMDFile p = true →
  d !! p ≠ Some Directory →
  pushed dirname d msg satelliteID =
    (<[p := File (string_of (cf_content msg))]> d, [sendContextUpdate satelliteID p (string_of (cf_content msg)) false]).
Proof using arrange_perm.
  intros <- Hp Hf Hmd Hd. destruct (Base_own _ Hp Hf) as [Hb Hs].
  assert (handleContextFilePush d (Some msg) true true = <[cf_file_path msg := File (string_of (cf_content msg))]> d) as Hpush.
  { unfold handleContextFilePush. cbn [negb]. rewrite Hb, String.eqb_refl.
    rewrite !elem_of_cons in Hp. destruct (String.eqb_spec (cf_file_path msg) ".") as [E|_]; [by destruct Hp; right; left|].
    destruct (String.eqb_spec (cf_file_path msg) "..") as [E|_]; [by destruct Hp; right; right; left|].
    destruct (String.eqb_spec (cf_file_path msg) "/"); [done|]. cbn [negb orb]. unfold WriteFile.
    by destruct (d !! cf_file_path msg) as [[]|]. }
  unfold pushed. rewrite Hpush. f_equal. unfold fs_event.
  rewrite isMDFile_app by (by apply (isMDFile_app "/")).
  rewrite Base_join; [|intros E; apply Hp; rewrite E; apply list_elem_of_here|done].
  unfold flush, NewContextWatcher. cbn [pending events].
  rewrite insert_empty, map_to_list_singleton.
  rewrite (proj1 (Permutation_singleton_r (arrange [(cf_file_path msg, false)]) _) (arrange_perm _)).
  cbn [foldl flush_one]. unfold ReadFile. rewrite lookup_insert_eq. reflexivity.
Qed.

(** an edit in the cockpit reaches the disk of a connected satellite, and
    comes back: the watcher reports the pushed file as a local edit, which
    raises the version again, names the satellite as its author, and leaves
    the version of the cockpit in no history entry. *)
Theorem cockpit_edit_echoes w f fileID c e ch dirname d satelliteID nid now :
  ContextFiles.complete (ContextFiles.db w) → uuid_Parse fileID = Some (ContextFiles.ID f) →
  ContextFiles.files (ContextFiles.db w) !! ContextFiles.ID f = Some f →
  ContextFiles.alone e → (∀ k, ContextFiles.flt e k = NoFault) →
  ContextFiles.history (ContextFiles.db w) !! ContextFiles.new_id e = None →
  text c = true → text ContextFiles.cockpitAttribution = true → ContextFiles.Version f + 1 < ContextFiles.max_int4 →
  Registry.GetSatelliteStream (ContextFiles.registry w) (uuid_String (ContextFiles.SatelliteID f)) = (Some ch, true) →
  open (ContextFiles.outbox w) ch → has_room (ContextFiles.outbox w) ch = true →
  ContextFiles.SatelliteID f ∈ ContextFiles.sats (ContextFiles.db w) →
  let p := ContextFiles.FilePath f in
  p ∉ [""; "."; ".."]%string → Str.ContainsByte p slash = false → isMDFile p = true → d !! p ≠ Some Directory →
  ∃ w1 body msg,
    PUT w (ContextFiles.SatelliteID f) fileID (Some c) e = (w1, Ret (ContextFiles.mkResponse 200 body)) ∧
    Chan.pending (ContextFiles.outbox w1) ch = Chan.pending (ContextFiles.outbox w) ch ++ [ContextFilePush msg] ∧
    let '(d1, reports) := pushed dirname d msg satelliteID in
    d1 !! p = Some (File c) ∧
    ∃ r, reports = [r] ∧
      let t2 := ContextFiles.upsert arrange_files (ContextFiles.db w1) (ContextFiles.SatelliteID f) (cf_file_path r)
                  (string_of (cf_content r)) (cf_modified_by r) nid now NoFault in
      (∃ f2, ContextFiles.files t2 !! ContextFiles.ID f = Some f2 ∧ ContextFiles.Content f2 = c ∧
         ContextFiles.Version f2 = ContextFiles.Version f + 2 ∧ ContextFiles.LastModifiedBy f2 = "local:" +:+ satelliteID) ∧
      ∀ c', ¬ ContextFiles.recorded t2 (ContextFiles.ID f) (ContextFiles.Version f + 1) c'.
Proof using arrange_files_perm arrange_perm.
  intros Hc Hp Hf Ha Hflt Hnew Hc1 Hc2 Hv Hreg Hop Hroom Hsat p Hp1 Hp2 Hp3 Hd.
  set (f1 := ContextFiles.mkFile (ContextFiles.ID f) (ContextFiles.SatelliteID f) p c (ContextFiles.Version f + 1)
    ContextFiles.cockpitAttribution (ContextFiles.CreatedAt f) (ContextFiles.now e 4%nat)).
  set (t1 := ContextFiles.advance (ContextFiles.db w) f c ContextFiles.cockpitAttribution (ContextFiles.now e 3%nat)
    (ContextFiles.new_id e) (ContextFiles.now e 4%nat)).
  assert (ContextFiles.UpdateContextFile text (ContextFiles.db w) (ContextFiles.ID f) c ContextFiles.cockpitAttribution e
    = (t1, Ok (Some f1))) as Hup.
  { rewrite ContextFiles.UpdateContextFile_runs; rewrite ?Ha; try done. unfold ContextFiles.no_one.
    unfold ContextFiles.update_file. cbn [ContextFiles.files ContextFiles.set_history]. rewrite Hf, Hc1, Hc2.
    rewrite (proj2 (Z.ltb_lt (ContextFiles.Version f) ContextFiles.max_int4)) by lia. done. }
  destruct (try_send_open (ContextFiles.outbox w) ch (ContextFiles.push_message uuid_String bytes_of (ContextFiles.SatelliteID f) f1) Hop)
    as (o & ok & Hs & -> & Hpend & _).
  set (msg := mkCtxSync (uuid_String (ContextFiles.SatelliteID f)) p (bytes_of c) (ContextFiles.Version f + 1)
    ContextFiles.cockpitAttribution).
  exists (ContextFiles.mkWorld t1 (ContextFiles.registry w) o), (ContextFiles.file_body time_text f1), msg.
  split_and!.
  - unfold ContextFiles.handleUpdateContextFile, ContextFiles.with_uuid. rewrite Hp. unfold ContextFiles.with_file.
    rewrite Ha. unfold ContextFiles.no_one. rewrite Hflt. cbn [ContextFiles.acked negb].
    unfold ContextFiles.GetContextFile. cbn [ContextFiles.db ContextFiles.set_db]. rewrite Hf, decide_True by done.
    rewrite Hup. unfold ContextFiles.push. cbn [ContextFiles.streamRegistry ContextFiles.set_db ContextFiles.registry ContextFiles.outbox].
    unfold Registry.SendToSatellite. rewrite Hreg. unfold Registry.send_found. rewrite Hs. reflexivity.
  - cbn [ContextFiles.outbox]. rewrite Hpend, Hroom. reflexivity.
  - rewrite (pushed_reports dirname d msg satelliteID p) by done. cbn [cf_content msg]. rewrite string_of_bytes.
    split; [by rewrite lookup_insert_eq|]. eexists. split; [done|].
    cbn [sendContextUpdate cf_file_path cf_content cf_modified_by]. rewrite string_of_bytes.
    destruct (ContextFiles.complete_advance (ContextFiles.db w) f c ContextFiles.cockpitAttribution (ContextFiles.now e 3%nat)
      (ContextFiles.new_id e) (ContextFiles.now e 4%nat) Hc Hf Hnew) as [Hc3 _].
    destruct (ContextFiles.report_forgets_version arrange_files arrange_files_perm t1 f1 c ("local:" +:+ satelliteID) nid now)
      as (Hf2 & _ & Hno); [exact Hc3|unfold t1; cbn; by rewrite lookup_insert_eq|exact Hsat|].
    split; [|exact Hno]. eexists. split; [exact Hf2|]. cbn. split_and!; [done|lia|done].
Qed.
End Echo.

(** ** Concrete inputs *)

Definition demo_dir : dir := {["notes.md"%string := File "b"]}.

Example push_contained_witness :
  handleContextFilePush demo_dir (Some (mkCtxSync "1" "../evil.md" [65] 1 "user@cockpit")) true true = demo_dir.
Proof.
  destruct (push_contained demo_dir (mkCtxSync "1" "../evil.md" [65] 1 "user@cockpit") true true) as (_ & _ & H).
  by apply H.
Defined.

Definition demo_watcher : ContextWatcher :=
  fs_event (fs_event NewContextWatcher "/etc/daao/context/notes.md" false) "/etc/daao/context/old.md" true.

Example watcher_reports_witness :
  let w' := flush (λ l, l) demo_watcher demo_dir (λ _, true) in
  mkEvent "notes.md" "b" false ∈ events w' ∧ mkEvent "old.md" "" true ∈ events w'.
Proof.
  destruct (watcher_reports (λ l, l) demo_watcher demo_dir (λ _, true) (λ l, reflexivity l)) as (_ & H & _).
  destruct H as [_ H]; [vm_compute; lia|].
  split; [apply (H "notes.md"%string false)|apply (H "old.md"%string true)]; vm_compute; reflexivity.
Defined.

Definition demo_outbox : heap NexusMessage := {[7%N := mkChan 8 [] false]}.
Definition demo_connected : ContextFiles.World :=
  ContextFiles.mkWorld ContextFiles.demo_tables
    (Registry.RegisterSatelliteStream Registry.NewStreamRegistry "1" (Some 7%N)) demo_outbox.

Example cockpit_edit_echoes_witness :
  ∃ w1 body msg,
    ContextFiles.handleUpdateContextFile ContextFiles.demo_text ContextFiles.demo_uuid (λ _, "1"%string) ContextFiles.demo_time
      bytes_of (ContextFiles.mkHandler true true) demo_connected 1 "2" (Some "c"%string) (ContextFiles.calm 4) =
      (w1, Ret (ContextFiles.mkResponse 200 body)) ∧
    (pushed (λ l, l) "/etc/daao/context" demo_dir msg "1").1 !! "notes.md"%string = Some (File "c").
Proof.
  destruct (cockpit_edit_echoes ContextFiles.demo_text (λ l, l) (λ l, reflexivity l) ContextFiles.demo_uuid (λ _, "1"%string)
    ContextFiles.demo_time (λ l, l) (λ l, reflexivity l) demo_connected ContextFiles.demo_file "2" "c" (ContextFiles.calm 4) 7
    "/etc/daao/context" demo_dir "1" 9 60) as (w1 & body & msg & Hput & _ & Hd).
  - exact ContextFiles.demo_complete.
  - reflexivity.
  - reflexivity.
  - reflexivity.
  - intros k. reflexivity.
  - reflexivity.
  - reflexivity.
  - reflexivity.
  - reflexivity.
  - reflexivity.
  - exists (mkChan 8 [] false). split; reflexivity.
  - reflexivity.
  - vm_compute. reflexivity.
  - rewrite !elem_of_cons, elem_of_nil. by intros [?|[?|[?|?]]].
  - reflexivity.
  - reflexivity.
  - by vm_compute.
  - exists w1, body, msg. split; [exact Hput|].
    destruct (pushed _ _ _ msg "1") as [d1 reports]. apply Hd.
Defined.

End ContextSync.
