(* ===== verification/PiStart.v ===== *)
(** * src/internal/satellite/pi_bridge.go, Start: the command and the environment of the Pi process

    Which program is started, with the unwrapping of the .cmd files of npm, and what the process
    finds in its environment. exec.LookPath, os.Stat and os.ReadFile are arguments; entries are
    strings name=value, taken apart the way os/exec does it ([dedupEnv]: of two entries of
    one name the last is kept, by lower case on Windows), and a Go map is walked in any order. *)
From Stdlib Require Import Ascii String.
From S2P Require Import Prelude GoStrings ContextSync.
#[local] Open Scope string_scope.
#[local] Set Default Proof Using "Type".

Module PiStart.

(** ** Strings *)

Definition dq : ascii := ascii_of_nat 34.
Definition quote : string := String dq "".
(** strings.ReplaceAll for a pattern that is not empty; [skip] bytes belong to a match. *)
Fixpoint replace_from (pat by_ : string) (skip : nat) (s : string) : string :=
  match s with
  | EmptyString => EmptyString
  | String c s' =>
      match skip with
      | S k => replace_from pat by_ k s'
      | O => if Str.HasPrefix s pat then by_ +:+ replace_from pat by_ (String.length pat - 1) s' else String c (replace_from pat by_ 0 s')
      end
  end.
Definition ReplaceAll (s pat by_ : string) : string := replace_from pat by_ 0 s.
Notation ToLower := ContextSync.ToLower.

Section Command.
(** filepath: the extension with its dot, the directory of a path. *)
Variable Ext : string → string.
Variable Dir : string → string.
(** The machine: files that exist, their contents, programs in PATH, the well-known places of node. *)
Variable Stat : string → bool.
Variable ReadFile : string → option string.
Variable LookPath : string → option string.
Variable candidates : list string.

(** *** extractNodeFromCmdWrapper *)

(** The parts of a line between pairs of quotes; [cur]: inside of a pair. *)
Fixpoint quoted (cur : option string) (s : string) : list string :=
  match s with
  | EmptyString => []
  | String c s' =>
      if Ascii.eqb c dq then match cur with None => quoted (Some "") s' | Some p => p :: quoted None s' end
      else quoted ((λ p, p +:+ String c "") <$> cur) s'
  end.
Definition expand (dir p : string) : string := ReplaceAll (ReplaceAll p "%dp0%\" (dir +:+ "\")) "%dp0%/" (dir +:+ "/").
Definition has_prog (node : string) : bool := Str.Contains (ToLower node) "_prog".
Definition resolve_node (node : string) : string :=
  if has_prog node || String.eqb node "" then
    match LookPath "node" with
    | Some resolved => resolved
    | None =>
        let node := default node (head (filter (λ c, c ≠ "" ∧ Stat c = true) candidates)) in
        if String.eqb node "" || has_prog node then "node" else node
    end
  else node.
Fixpoint extract_lines (dir : string) (lines : list string) : option (string * string) :=
  match lines with
  | [] => None
  | line :: lines' =>
      let line := Str.TrimSpace line in
      if negb (Str.Contains line ".js") then extract_lines dir lines' else
      match expand dir <$> quoted None line with
      | node :: script :: _ => if Str.HasSuffix (ToLower script) ".js" then Some (resolve_node node, script) else extract_lines dir lines'
      | _ => extract_lines dir lines'
      end
  end.
Definition extractNodeFromCmdWrapper (cmdPath : string) : option (string * string) :=
  content ← ReadFile cmdPath; extract_lines (Dir cmdPath) (Str.Split content (ascii_of_nat 10)).

(** *** resolvePiCommand *)

Record Cmd := mkCmd { Path : string; Args : list string }.
Definition resolvePiCommand (piPath : string) (args : list string) : Cmd :=
  let ext := ToLower (Ext piPath) in
  let '(piPath, ext) :=
    if String.eqb ext ".ps1" then
      let cmdPath := Str.TrimSuffix piPath (Ext piPath) +:+ ".cmd" in
      if Stat cmdPath then (cmdPath, ".cmd") else
      let noExt := Str.TrimSuffix piPath (Ext piPath) in
      if Stat noExt then (noExt, "") else (piPath, ext)
    else (piPath, ext) in
  match (if String.eqb ext ".cmd" || String.eqb ext ".bat" then extractNodeFromCmdWrapper piPath else None) with
  | Some (node, script) => mkCmd node (script :: args)
  | None => mkCmd piPath args
  end.

(** *** Start: the binary *)

Definition find_pi (DAAO_PI_PATH PiBinaryPath : string) : option string :=
  if String.eqb DAAO_PI_PATH "" then
    match LookPath "pi" with
    | Some p => Some p
    | None => if Stat PiBinaryPath then Some PiBinaryPath else None
    end
  else Some DAAO_PI_PATH.
End Command.

(** ** The environment *)

(** Entries are strings. PATH of the daemon: the directory of node comes first, in the
    first entry that begins with this name, written so. *)
Fixpoint prepend_path (nodeBinDir listSep : string) (e : list string) : list string :=
  match e with
  | [] => []
  | kv :: e' =>
      match Str.strip_prefix kv "PATH=" with
      | Some old => ("PATH=" +:+ nodeBinDir +:+ listSep +:+ old) :: e'
      | None => kv :: prepend_path nodeBinDir listSep e'
      end
  end.
Definition starts (l : list string) (k : string) : bool := existsb (Str.HasPrefix k) l.
Definition entry (name value : string) : string := name +:+ String "=" value.
(** The keys under another name. *)
Definition renamed (s : string * string) : list string :=
  let upperKey := Str.ToUpper s.1 in
  if starts ["ANTHROPIC"; "OPENAI"; "GOOGLE"; "AZURE"] upperKey then [] else
  if String.eqb upperKey "API_KEY" || String.eqb upperKey "ANTHROPIC_API_KEY" then [entry "ANTHROPIC_API_KEY" s.2]
  else if String.eqb upperKey "OPENAI_API_KEY" then [entry "OPENAI_API_KEY" s.2] else [].
(** [order1], [order2]: the two walks over the secrets. *)
Definition build_env (environ : list string) (nodeBinDir listSep contextDir : string) (allowed : list string)
    (order1 order2 : list (string * string)) : list string :=
  (prepend_path nodeBinDir listSep environ ++
   [entry "DAAO_CONTEXT_DIR" contextDir; entry "DAAO_ALLOWED_DIRS" (String.concat listSep allowed)] ++
   (uncurry entry <$> order1) ++ mjoin (renamed <$> order2))%list.

(** *** os/exec: what becomes of the entries *)

(** The text before the first equals sign, and what follows it. *)
Fixpoint split_eq (kv : string) : option (string * string) :=
  match kv with
  | EmptyString => None
  | String c kv' => if Ascii.eqb c "=" then Some ("", kv') else (λ p, (String c p.1, p.2)) <$> split_eq kv'
  end.
(** The name by which dedupEnv compares: an entry may begin with an equals sign. *)
Definition entry_key (kv : string) : option string :=
  match split_eq kv with
  | Some (EmptyString, rest) => Some (from_option (λ p, String "=" p.1) "" (split_eq rest))
  | Some (k, _) => Some k
  | None => None
  end.
(** On Windows names are compared in lower case. *)
Definition fold_name (windows : bool) (k : string) : string := if windows then ToLower k else k.
(** From the last entry to the first; of each name the first that is met stays. *)
Fixpoint dedup_rev (windows : bool) (saw : list string) (l : list string) : list string :=
  match l with
  | [] => []
  | kv :: l' =>
      match entry_key kv with
      | None => if String.eqb kv "" then dedup_rev windows saw l' else kv :: dedup_rev windows saw l'
      | Some k =>
          let k := fold_name windows k in
          if bool_decide (k ∈ saw) then dedup_rev windows saw l' else kv :: dedup_rev windows (k :: saw) l'
      end
  end.
Definition nul : ascii := ascii_of_nat 0.
(** [None]: an entry holds a zero byte, and Start fails. *)
Definition dedupEnv (windows : bool) (env : list string) : option (list string) :=
  if existsb (λ kv, Str.ContainsByte kv nul) env then None else Some (reverse (dedup_rev windows [] (reverse env))).
Definition value_of (windows : bool) (k kv : string) : option string :=
  p ← split_eq kv; if String.eqb (fold_name windows p.1) (fold_name windows k) then Some p.2 else None.
(** What a process finds under a name in its environment. *)
Definition Getenv (windows : bool) (env : list string) (k : string) : option string := head (omap (value_of windows k) env).
(** On Windows SYSTEMROOT is added where it is missing. *)
Definition addCriticalEnv (windows : bool) (systemroot : string) (env : list string) : list string :=
  (env ++ if windows && bool_decide (Getenv windows env "SYSTEMROOT" = None) then [entry "SYSTEMROOT" systemroot] else [])%list.
Definition cmd_environ (windows : bool) (systemroot : string) (env : list string) : option (list string) :=
  addCriticalEnv windows systemroot <$> dedupEnv windows env.

(** *** Which value wins *)

Section Environment.
Variable windows : bool.
Notation fold := (fold_name windows).
Notation valueof := (value_of windows).
Definition last_value (env : list string) (k : string) : option string := last (omap (valueof k) env).
(** A name that can be asked for. *)
Definition plain (k : string) : Prop := k ≠ "" ∧ Str.ContainsByte k "=" = false.

Lemma fold_head a s : fold (String a s) = String (if windows then ContextSync.lower a else a) (fold s).
Proof. unfold fold_name. by destruct windows. Qed.
Lemma fold_empty k : fold k = fold "" → k = "".
Proof. destruct k as [|a k]; [done|]. rewrite fold_head. by destruct windows. Qed.
Lemma lower_eq a : ContextSync.lower a = "="%char ↔ a = "="%char.
Proof. split; [|by intros ->]. destruct a as [[] [] [] [] [] [] [] []]; vm_compute; congruence. Qed.

Lemma fold_split k k' : plain k → fold k' = fold k → ∃ a r, k' = String a r ∧ a ≠ "="%char.
Proof.
  intros [Hne Hk] E. destruct k' as [|a r]; [by destruct Hne; apply fold_empty|]. exists a, r. split; [done|]. intros ->.
  destruct k as [|b k]; [done|]. rewrite !fold_head in E. injection E as E _.
  assert (b = "="%char) as -> by (destruct windows; [by apply lower_eq; rewrite <-E|done]). done.
Qed.

(** The name that dedupEnv sees decides. *)
Lemma key_value k kv : plain k → entry_key kv = None ∨ (∃ n, entry_key kv = Some n ∧ (fold n = fold k ↔ is_Some (valueof k kv))).
Proof.
  intros Hk. unfold entry_key, value_of. destruct (split_eq kv) as [[n v]|]; [right|by left]. destruct n as [|a n].
  - eexists. split; [done|]. cbn [mbind option_bind fst snd]. rewrite (proj2 (String.eqb_neq _ _)); [|by intros E; symmetry in E; apply fold_empty in E; destruct Hk].
    split; [|by intros [? ?]]. intros E. destruct (fold_split k _ Hk E) as (a & r & Heq & Ha). destruct (split_eq v) as [[x y]|]; cbn in Heq; congruence.
  - eexists. split; [done|]. cbn [mbind option_bind fst snd]. destruct (String.eqb_spec (fold (String a n)) (fold k)) as [E|E]; [by split|].
    split; [done|by intros [? ?]].
Qed.
Lemma no_key k kv : entry_key kv = None → valueof k kv = None.
Proof. unfold entry_key, value_of. by destruct (split_eq kv) as [[[|] ?]|]. Qed.

Lemma dedup_values k l : plain k → ∀ saw, omap (valueof k) (dedup_rev windows saw l) =
  if bool_decide (fold k ∈ saw) then [] else take 1 (omap (valueof k) l).
Proof.
  intros Hk. induction l as [|kv l IH]; intros saw; cbn [dedup_rev omap list_omap]; [by case_bool_decide|].
  destruct (entry_key kv) as [n|] eqn:E.
  2:{ rewrite (no_key k kv E). destruct (String.eqb kv ""); [apply IH|]. cbn [omap list_omap]. rewrite (no_key k kv E). apply IH. }
  destruct (key_value k kv Hk) as [|(n' & E' & Hn)]; [congruence|]. rewrite E in E'. injection E' as <-.
  destruct (valueof k kv) as [v|] eqn:Ev.
  - assert (fold n = fold k) as Hf by (apply Hn; by eexists). rewrite Hf. destruct (bool_decide (fold k ∈ saw)) eqn:Es; [rewrite IH, Es; done|].
    cbn [omap list_omap]. rewrite Ev, IH. rewrite bool_decide_eq_true_2 by left. done.
  - assert (fold n ≠ fold k) as Hf by (intros Hf; apply Hn in Hf as [? ?]; done).
    destruct (bool_decide (fold n ∈ saw)); [apply IH|]. cbn [omap list_omap]. rewrite Ev, IH.
    rewrite (bool_decide_ext (fold k ∈ fold n :: saw) (fold k ∈ saw)); [done|]. rewrite elem_of_cons. naive_solver.
Qed.

Lemma omap_reverse {A B} (f : A → option B) l : omap f (reverse l) = reverse (omap f l).
Proof.
  induction l as [|x l IH]; [done|]. rewrite reverse_cons, omap_app, IH. cbn [omap list_omap]. destruct (f x); [by rewrite reverse_cons|by rewrite app_nil_r].
Qed.
Lemma dedup_last k env : plain k → Getenv windows (reverse (dedup_rev windows [] (reverse env))) k = last_value env k.
Proof.
  intros Hk. unfold Getenv, last_value. rewrite omap_reverse, dedup_values, bool_decide_eq_false_2 by (done || apply not_elem_of_nil).
  rewrite omap_reverse. rewrite <-(reverse_involutive (omap (valueof k) env)) at 2. destruct (reverse (omap (valueof k) env)) as [|v l]; [done|].
  by rewrite reverse_cons, last_snoc.
Qed.

Lemma Getenv_app e1 e2 k : Getenv windows (e1 ++ e2)%list k = match Getenv windows e1 k with Some v => Some v | None => Getenv windows e2 k end.
Proof. unfold Getenv. rewrite omap_app. by destruct (omap _ e1). Qed.
Lemma last_value_app e1 e2 k : last_value (e1 ++ e2) k = match last_value e2 k with Some v => Some v | None => last_value e1 k end.
Proof. unfold last_value. rewrite omap_app, last_app. by destruct (last (omap _ e2)). Qed.
Lemma last_value_None env k : last_value env k = None ↔ ∀ kv, kv ∈ env → valueof k kv = None.
Proof.
  unfold last_value. rewrite last_None. split.
  - intros E kv Hin. destruct (valueof k kv) as [v|] eqn:Ev; [|done]. assert (v ∈ omap (valueof k) env) as H by (apply list_elem_of_omap; eauto).
    rewrite E in H. by apply elem_of_nil in H.
  - intros H. destruct (omap (valueof k) env) as [|v l] eqn:E; [done|]. assert (v ∈ omap (valueof k) env) as Hv by (rewrite E; left).
    apply list_elem_of_omap in Hv as (kv & Hin & Ev). by rewrite H in Ev.
Qed.
Lemma last_value_Some env k v : last_value env k = Some v → ∃ kv, kv ∈ env ∧ valueof k kv = Some v.
Proof. unfold last_value. intros Hv%last_Some_elem_of. by apply list_elem_of_omap in Hv. Qed.

Lemma split_entry name value : Str.ContainsByte name "=" = false → split_eq (entry name value) = Some (name, value).
Proof.
  unfold entry. induction name as [|c name IH]; [done|]. cbn [Str.ContainsByte]. intros [Hc Hn]%orb_false_iff.
  change (String c name +:+ String "=" value) with (String c (name +:+ String "=" value)). cbn [split_eq]. by rewrite Hc, IH.
Qed.
Lemma value_entry name value k : Str.ContainsByte name "=" = false →
  valueof k (entry name value) = if String.eqb (fold name) (fold k) then Some value else None.
Proof. intros Hn. unfold value_of. by rewrite split_entry. Qed.

Lemma renamed_elem kv l : kv ∈ mjoin (renamed <$> l) ↔ ∃ x v, (x, v) ∈ l ∧ Str.ToUpper x = "API_KEY" ∧ kv = entry "ANTHROPIC_API_KEY" v.
Proof.
  rewrite list_elem_of_join. setoid_rewrite list_elem_of_fmap. split.
  - intros (e & Hin & [x w] & -> & Hx). unfold renamed in Hin. cbn [fst snd] in Hin. destruct (starts _ _) eqn:Es; [by apply elem_of_nil in Hin|].
    destruct (String.eqb_spec (Str.ToUpper x) "API_KEY") as [E|E]; cbn [orb] in Hin.
    + apply list_elem_of_singleton in Hin as ->. eauto 6.
    + destruct (String.eqb_spec (Str.ToUpper x) "ANTHROPIC_API_KEY") as [E'|E']; [by rewrite E' in Es|].
      destruct (String.eqb_spec (Str.ToUpper x) "OPENAI_API_KEY") as [E''|E'']; [by rewrite E'' in Es|]. by apply elem_of_nil in Hin.
  - intros (x & v & Hin & E & ->). exists [entry "ANTHROPIC_API_KEY" v]. split; [by apply list_elem_of_singleton|]. exists (x, v). split; [|done].
    unfold renamed. cbn [fst snd]. by rewrite E.
Qed.

Lemma last_value_one name value k : Str.ContainsByte name "=" = false →
  last_value [entry name value] k = if String.eqb (fold k) (fold name) then Some value else None.
Proof.
  intros Hn. unfold last_value. cbn [omap list_omap]. rewrite value_entry, String.eqb_sym by done. by destruct (String.eqb _ _).
Qed.
Lemma last_value_fold env k k' : fold k = fold k' → last_value env k = last_value env k'.
Proof.
  intros E. unfold last_value. f_equal. induction env as [|kv env IH]; [done|]. cbn [omap list_omap]. unfold value_of at 1 3. by rewrite E, IH.
Qed.

Lemma Getenv_one name value k : Str.ContainsByte name "=" = false →
  Getenv windows [entry name value] k = if String.eqb (fold k) (fold name) then Some value else None.
Proof.
  intros Hn. unfold Getenv. cbn [omap list_omap]. rewrite value_entry, String.eqb_sym by done. by destruct (String.eqb _ _).
Qed.
Lemma Getenv_if (b : bool) l k : Getenv windows (if b then l else []) k = if b then Getenv windows l k else None.
Proof. by destruct b. Qed.
(** A secret whose entry, name=value, is one of the name [k] with the value [v]: its own
    name may hold equals signs. And a secret called API_KEY, for the key of Anthropic. *)
Definition given (secrets : gmap string string) (k v : string) : Prop :=
  ∃ name value k', secrets !! name = Some value ∧ split_eq (name +:+ String "=" value) = Some (k', v) ∧ fold k' = fold k.
Definition generic (secrets : gmap string string) (k v : string) : Prop :=
  fold k = fold "ANTHROPIC_API_KEY" ∧ ∃ name, secrets !! name = Some v ∧ Str.ToUpper name = "API_KEY".

Lemma last_secrets (secrets : gmap string string) order k : order ≡ₚ map_to_list secrets →
  match last_value (uncurry entry <$> order) k with Some v => given secrets k v | None => ∀ v, ¬ given secrets k v end.
Proof.
  intros Hp. assert (∀ n v, (n, v) ∈ order ↔ secrets !! n = Some v) as Ho by (intros n v; rewrite Hp; apply elem_of_map_to_list).
  destruct (last_value _ k) as [v|] eqn:E.
  - apply last_value_Some in E as (kv & ([n x] & -> & Hin)%list_elem_of_fmap & Ev). apply Ho in Hin. unfold value_of in Ev. cbn [uncurry] in Ev.
    apply bind_Some in Ev as ([k' v'] & Hs & Ev). cbn [fst snd] in Ev. destruct (String.eqb_spec (fold k') (fold k)); [|done]. injection Ev as ->.
    exists n, x, k'. by split_and!.
  - intros v (n & x & k' & Hn & Hs & Hf). rewrite last_value_None in E.
    specialize (E (entry n x)). unfold value_of, entry in E. rewrite Hs in E. cbn [mbind option_bind fst snd] in E. rewrite Hf, String.eqb_refl in E.
    discriminate E. apply list_elem_of_fmap. exists (n, x). split; [done|]. by apply Ho.
Qed.
Lemma last_renamed (secrets : gmap string string) order k : order ≡ₚ map_to_list secrets →
  match last_value (mjoin (renamed <$> order)) k with Some v => generic secrets k v | None => ∀ v, ¬ generic secrets k v end.
Proof.
  intros Hp. assert (∀ n v, (n, v) ∈ order ↔ secrets !! n = Some v) as Ho by (intros n v; rewrite Hp; apply elem_of_map_to_list).
  destruct (last_value _ k) as [v|] eqn:E.
  - apply last_value_Some in E as (kv & (x & w & Hin & Hx & ->)%renamed_elem & Ev). rewrite value_entry in Ev by done.
    destruct (String.eqb_spec (fold "ANTHROPIC_API_KEY") (fold k)) as [Hf|]; [|done]. injection Ev as ->. split; [done|]. exists x. by rewrite <-Ho.
  - intros v (Hf & x & Hx & Hu). rewrite last_value_None in E. specialize (E (entry "ANTHROPIC_API_KEY" v)).
    rewrite value_entry, <-Hf, String.eqb_refl in E by done. discriminate E. apply renamed_elem. exists x, v. by rewrite Ho.
Qed.

(** C37: what the Pi process finds under a name. The entries are strings that os/exec takes
    apart: one with a zero byte anywhere and the process is not started. Otherwise a secret
    called API_KEY, in whatever case, is what ANTHROPIC_API_KEY gives; else a secret whose
    entry has the name, also one whose own name goes on after an equals sign, and on Windows in
    whatever case; else what the satellite sets; else what the daemon has. So a secret can
    take the place of the directories that the agent may write to, and of PATH. *)
Theorem environment_exact environ nodeBinDir sep contextDir allowed (secrets : gmap string string) order1 order2 systemroot k :
  order1 ≡ₚ map_to_list secrets → order2 ≡ₚ map_to_list secrets → plain k →
  let env := build_env environ nodeBinDir sep contextDir allowed order1 order2 in
  match cmd_environ windows systemroot env with
  | None => ∃ kv, kv ∈ env ∧ Str.ContainsByte kv nul = true
  | Some e =>
      (∀ kv, kv ∈ env → Str.ContainsByte kv nul = false) ∧
      let found := Getenv windows e k in
      (∃ v, generic secrets k v ∧ found = Some v) ∨
      (∀ v, ¬ generic secrets k v) ∧
      ((∃ v, given secrets k v ∧ found = Some v) ∨
       (∀ v, ¬ given secrets k v) ∧
       found = if String.eqb (fold k) (fold "DAAO_ALLOWED_DIRS") then Some (String.concat sep allowed)
               else if String.eqb (fold k) (fold "DAAO_CONTEXT_DIR") then Some contextDir
               else match last_value (prepend_path nodeBinDir sep environ) k with
                    | Some v => Some v
                    | None => if windows && String.eqb (fold k) (fold "SYSTEMROOT") then Some systemroot else None
                    end)
  end.
Proof.
  intros H1 H2 Hk env. unfold cmd_environ, dedupEnv. destruct (existsb _ env) eqn:Hz; cbn [fmap option_fmap option_map].
  { apply existsb_exists in Hz as (kv & Hin & Hz). exists kv. by rewrite list_elem_of_In. }
  split.
  { intros kv Hin. destruct (Str.ContainsByte kv nul) eqn:E; [|done]. rewrite (proj2 (existsb_exists _ _)) in Hz; [done|]. exists kv. by rewrite <-list_elem_of_In. }
  cbv zeta. unfold addCriticalEnv. rewrite Getenv_app, !dedup_last by done.
  pose proof (last_renamed secrets order2 k H2) as Hr. pose proof (last_secrets secrets order1 k H1) as Hg.
  assert (last_value env k = match last_value (mjoin (renamed <$> order2)) k with Some v => Some v | None =>
    match last_value (uncurry entry <$> order1) k with Some v => Some v | None =>
      if String.eqb (fold k) (fold "DAAO_ALLOWED_DIRS") then Some (String.concat sep allowed)
      else if String.eqb (fold k) (fold "DAAO_CONTEXT_DIR") then Some contextDir
      else last_value (prepend_path nodeBinDir sep environ) k end end) as El.
  { unfold env, build_env. rewrite !last_value_app.
    change [entry "DAAO_CONTEXT_DIR" contextDir; entry "DAAO_ALLOWED_DIRS" (String.concat sep allowed)]
      with ([entry "DAAO_CONTEXT_DIR" contextDir] ++ [entry "DAAO_ALLOWED_DIRS" (String.concat sep allowed)])%list.
    rewrite last_value_app, !last_value_one by done.
    destruct (last_value _ k); [done|]. destruct (last_value (uncurry entry <$> order1) k); [done|]. by repeat destruct (String.eqb _ _). }
  rewrite El. destruct (last_value (mjoin (renamed <$> order2)) k) as [v|]; [left; by exists v|]. right. split; [done|].
  destruct (last_value (uncurry entry <$> order1) k) as [v|]; [left; by exists v|]. right. split; [done|].
  destruct (String.eqb_spec (fold k) (fold "DAAO_ALLOWED_DIRS")) as [E|Ea]; [done|].
  destruct (String.eqb_spec (fold k) (fold "DAAO_CONTEXT_DIR")) as [E|Ec]; [done|].
  destruct (last_value (prepend_path nodeBinDir sep environ) k) as [v|]; [done|].
  destruct (String.eqb_spec (fold k) (fold "SYSTEMROOT")) as [Es|Es].
  - rewrite <-(last_value_fold env k "SYSTEMROOT" Es), El. rewrite bool_decide_eq_true_2 by done. rewrite andb_true_r.
    rewrite Getenv_if, Getenv_one, Es, String.eqb_refl by done. by destruct windows.
  - rewrite andb_false_r, Getenv_if, Getenv_one, (proj2 (String.eqb_neq _ _) Es) by done. by destruct (windows && _).
Qed.
End Environment.

(** *** The wrapper of npm *)

Fixpoint no_quote (s : string) : Prop := match s with EmptyString => True | String c s' => c ≠ dq ∧ no_quote s' end.
Lemma quoted_outside s t : no_quote s → quoted None (s +:+ t) = quoted None t.
Proof.
  induction s as [|c s IH]; [done|]. intros [Hc Hs]. change (String c s +:+ t) with (String c (s +:+ t)). cbn [quoted]. destruct (Ascii.eqb_spec c dq); [done|]. by apply IH.
Qed.
Lemma quoted_inside p s t : no_quote s → quoted (Some p) (s +:+ quote +:+ t) = (p +:+ s) :: quoted None t.
Proof.
  revert p. induction s as [|c s IH]; intros p; [intros _; cbn; by rewrite Str.app_nil_str|]. intros [Hc Hs].
  change (String c s +:+ quote +:+ t) with (String c (s +:+ quote +:+ t)). cbn [quoted fmap option_fmap option_map]. destruct (Ascii.eqb_spec c dq); [done|].
  rewrite IH by done. by rewrite Str.app_assoc_str.
Qed.
Lemma quoted_pairs pre a mid b post : no_quote pre → no_quote a → no_quote mid → no_quote b →
  quoted None (pre +:+ quote +:+ a +:+ quote +:+ mid +:+ quote +:+ b +:+ quote +:+ post) = a :: b :: quoted None post.
Proof.
  intros. assert (∀ t, quoted None (quote +:+ t) = quoted (Some "") t) as Hq by done.
  rewrite quoted_outside, Hq, quoted_inside, quoted_outside, Hq, quoted_inside by done. done.
Qed.
(** the wrapper of npm is seen through: the first line that names a script, and has two parts in quotes of which
    the second is the script, gives the program and the script, with %dp0% as the directory of the wrapper; and a
    program that is the variable of the wrapper does not stay one. *)
Theorem wrapper_unwrapped Dir Stat ReadFile LookPath candidates cmdPath content before line after pre a mid b post :
  ReadFile cmdPath = Some content → Str.Split content (ascii_of_nat 10) = (before ++ line :: after)%list →
  Forall (λ l, Str.Contains (Str.TrimSpace l) ".js" = false) before →
  Str.TrimSpace line = pre +:+ quote +:+ a +:+ quote +:+ mid +:+ quote +:+ b +:+ quote +:+ post → Str.Contains (Str.TrimSpace line) ".js" = true →
  no_quote pre → no_quote a → no_quote mid → no_quote b → Str.HasSuffix (ToLower (expand (Dir cmdPath) b)) ".js" = true →
  extractNodeFromCmdWrapper Dir Stat ReadFile LookPath candidates cmdPath =
    Some (resolve_node Stat LookPath candidates (expand (Dir cmdPath) a), expand (Dir cmdPath) b) ∧
  (LookPath "node" = None → has_prog (resolve_node Stat LookPath candidates (expand (Dir cmdPath) a)) = false).
Proof.
  intros Hr Hl Hb Ht Hj Hpre Ha Hmid Hbq Hs. split.
  - unfold extractNodeFromCmdWrapper. rewrite Hr. cbn [mbind option_bind]. rewrite Hl. clear Hl. induction Hb as [|l ls Hn _ IH]; cbn [app extract_lines].
    + rewrite Hj. cbn [negb]. rewrite Ht, quoted_pairs by done. cbn [fmap list_fmap]. by rewrite Hs.
    + rewrite Hn. cbn [negb]. apply IH.
  - intros Hlook. unfold resolve_node. rewrite Hlook. destruct (has_prog (expand _ a)) eqn:Hp; cbn [orb].
    + destruct (String.eqb _ "" || has_prog _) eqn:E; [by vm_compute|]. by apply orb_false_iff in E as [_ E].
    + destruct (String.eqb (expand (Dir cmdPath) a) ""); [|done]. destruct (String.eqb _ "" || has_prog _) eqn:E; [by vm_compute|]. by apply orb_false_iff in E as [_ E].
Qed.

(** ** Examples *)

Definition nl : string := String (ascii_of_nat 10) "".
Definition demo_line : string := "endLocal & " +:+ quote +:+ "%_prog%" +:+ quote +:+ "  " +:+ quote +:+ "%dp0%\node_modules\pi\cli.js" +:+ quote +:+ " %*".
Definition demo_wrapper : string := "@ECHO off" +:+ nl +:+ "SETLOCAL" +:+ nl +:+ demo_line.
Definition demo_Dir (p : string) : string := "C:\npm".
Lemma wrapper_unwrapped_witness : extractNodeFromCmdWrapper demo_Dir (λ _, true) (λ _, Some demo_wrapper) (λ _, None) ["C:\nodejs\node.exe"] "C:\npm\pi.cmd" =
  Some ("C:\nodejs\node.exe", "C:\npm\node_modules\pi\cli.js").
Proof.
  etrans; [eapply (wrapper_unwrapped demo_Dir (λ _, true) (λ _, Some demo_wrapper) (λ _, None) ["C:\nodejs\node.exe"] "C:\npm\pi.cmd" demo_wrapper
    ["@ECHO off"; "SETLOCAL"] demo_line [] "endLocal & " "%_prog%" "  " "%dp0%\node_modules\pi\cli.js" " %*")|]; try (vm_compute; reflexivity).
  - repeat constructor.
  - cbn. split_and!; discriminate || done.
  - cbn. split_and!; discriminate || done.
  - cbn. split_and!; discriminate || done.
  - cbn. split_and!; discriminate || done.
Defined.
Definition demo_secrets : gmap string string := {["API_KEY" := "generic"; "ANTHROPIC_API_KEY" := "own"; "DAAO_ALLOWED_DIRS=/" := "tmp"]}.
Definition demo_env : list string :=
  build_env ["PATH=/bin"; "HOME=/root"] "/node" ":" "/ctx" ["/ctx"; "/tmp"] (map_to_list demo_secrets) (map_to_list demo_secrets).
(** The secret called API_KEY takes the place of the key of Anthropic, and a secret whose
    name holds an equals sign that of the allowed directories. *)
Lemma environment_exact_witness : ∃ e, cmd_environ false "" demo_env = Some e ∧
  Getenv false e "DAAO_ALLOWED_DIRS" = Some "/=tmp" ∧ Getenv false e "PATH" = Some "/node:/bin" ∧ Getenv false e "ANTHROPIC_API_KEY" = Some "generic".
Proof.
  pose proof (λ k, environment_exact false ["PATH=/bin"; "HOME=/root"] "/node" ":" "/ctx" ["/ctx"; "/tmp"] demo_secrets (map_to_list demo_secrets)
    (map_to_list demo_secrets) "" k (Permutation_refl _) (Permutation_refl _)) as H. cbv zeta in H. fold demo_env in H.
  destruct (cmd_environ false "" demo_env) as [e|] eqn:E; [|by vm_compute in E]. exists e. split; [done|]. split_and!.
  - vm_compute in E. injection E as <-. reflexivity.
  - destruct (H "PATH") as [_ [(v & [Hg _] & _)|(_ & [(v & Hg & ->)|(_ & ->)])]]; [by split|discriminate Hg| |reflexivity].
    exfalso. destruct Hg as (n & x & k' & Hn & Hs & Hf). unfold demo_secrets in Hn.
    repeat (apply lookup_insert_Some in Hn as [[<- <-]|[_ Hn]]; [vm_compute in Hs; injection Hs as <- <-; discriminate Hf|]).
    apply lookup_singleton_Some in Hn as [<- <-]. vm_compute in Hs. injection Hs as <- <-. discriminate Hf.
  - vm_compute in E. injection E as <-. reflexivity.
Defined.
(** On Windows a secret in other letters does it as well. *)
Example lower_case_secret :
  let secrets := {["daao_allowed_dirs" := "C:\"]} in
  let env := build_env ["Path=C:\bin"] "C:\node" ";" "C:\ctx" ["C:\ctx"] (map_to_list secrets) (map_to_list secrets) in
  (λ e, (Getenv true e "DAAO_ALLOWED_DIRS", Getenv true e "PATH")) <$> cmd_environ true "C:\Windows" env = Some (Some "C:\", Some "C:\bin").
Proof. vm_compute. reflexivity. Qed.
End PiStart.
