(* ===== verification/Daemon.v ===== *)
(** * cmd/daao/daemon.go, control.go: the satellite daemon

    The daemon keeps its terminal sessions by pointer in a map by id, answers
    the commands of Nexus, forwards what the processes print, and keeps three
    queues that one writer drains into the stream. A handler is one step: they
    all run on the goroutine that receives from Nexus, except those of the
    control socket, of the processes and of the agents, which are steps of their
    own. [Close] waits for the goroutines of its session, so it includes the
    exit of the process. The terminal, the processes, the files and the local
    sockets are outside; what they answer is an argument ([spawn]).

    The dead man switch of a session is that of [Dms]; its monitors take steps
    between the daemon's. The order in which Go walks a map is a parameter. *)
From stdpp Require Import pretty.
From S2P Require Import Prelude GoStrings RingBuffer SessionState Dms Protocol.
Import Session Proto.
#[local] Open Scope Z_scope.

Module Daemon.

(** ** Environment variables *)

Definition DefaultDMSTTL : Z := 60.

(** [ttlStr] is the value of DAAO_DMS_TTL, empty if unset. *)
Definition getDMSTTL (ttlStr : string) : Z :=
  if String.eqb ttlStr "" then DefaultDMSTTL
  else match Str.Sscanf_d ttlStr with
       | Some ttl => if 0 <? ttl then ttl else DefaultDMSTTL
       | None => DefaultDMSTTL
       end.

Definition getMaxSessions (maxStr : string) : Z :=
  if String.eqb maxStr "" then 0
  else match Str.Sscanf_d maxStr with Some m => if 0 <? m then m else 0 | None => 0 end.

(** ** The state *)

(** A session object. [sExited]: its process is gone; [sClosed]: CloseOnce. *)
Record Sess := mkSess {
  sID : string; sAgentBinary : string; sState : SessionState;
  sRing : Ring.RingBuffer; sDMS : DMS.dms;
  sInput : list bytes;                     (* the calls of Pty.Write *)
  sSize : Z * Z;                           (* the last call of Pty.Resize, in uint16 *)
  sClients : list N;                       (* localClients *)
  sExited : bool; sClosed : bool;
}.

(** A Pi bridge: the session it was started for, and whether it was stopped. *)
Record Bridge := mkBridge { bSession : string; bStopped : bool }.

Record Daemon := mkDaemon {
  sessions : gmap string N;
  objs : gmap N Sess;
  bridges : gmap string N;
  bridge_objs : gmap N Bridge;
  sendCh : list SatelliteMessage;
  sendPriorityCh : list SatelliteMessage;
  agentEventCh : list SatelliteMessage;
  sent : list SatelliteMessage;            (* accepted by stream.Send *)
}.

Definition NewDaemon : Daemon := mkDaemon ∅ ∅ ∅ ∅ [] [] [] [].

Definition set_sessions (d : Daemon) (m : gmap string N) : Daemon :=
  mkDaemon m (objs d) (bridges d) (bridge_objs d) (sendCh d) (sendPriorityCh d) (agentEventCh d) (sent d).
Definition set_objs (d : Daemon) (o : gmap N Sess) : Daemon :=
  mkDaemon (sessions d) o (bridges d) (bridge_objs d) (sendCh d) (sendPriorityCh d) (agentEventCh d) (sent d).
Definition set_bridges (d : Daemon) (m : gmap string N) (o : gmap N Bridge) : Daemon :=
  mkDaemon (sessions d) (objs d) m o (sendCh d) (sendPriorityCh d) (agentEventCh d) (sent d).
Definition set_queues (d : Daemon) (q p a s : list SatelliteMessage) : Daemon :=
  mkDaemon (sessions d) (objs d) (bridges d) (bridge_objs d) q p a s.

Definition with_state (s : Sess) (st : SessionState) : Sess :=
  mkSess (sID s) (sAgentBinary s) st (sRing s) (sDMS s) (sInput s) (sSize s) (sClients s)
    (sExited s) (sClosed s).
Definition with_dms (s : Sess) (x : DMS.dms) : Sess :=
  mkSess (sID s) (sAgentBinary s) (sState s) (sRing s) x (sInput s) (sSize s) (sClients s)
    (sExited s) (sClosed s).
Definition with_ring (s : Sess) (r : Ring.RingBuffer) : Sess :=
  mkSess (sID s) (sAgentBinary s) (sState s) r (sDMS s) (sInput s) (sSize s) (sClients s)
    (sExited s) (sClosed s).
Definition with_input (s : Sess) (b : bytes) : Sess :=
  mkSess (sID s) (sAgentBinary s) (sState s) (sRing s) (sDMS s) (sInput s ++ [b]) (sSize s)
    (sClients s) (sExited s) (sClosed s).
Definition with_size (s : Sess) (z : Z * Z) : Sess :=
  mkSess (sID s) (sAgentBinary s) (sState s) (sRing s) (sDMS s) (sInput s) z (sClients s)
    (sExited s) (sClosed s).
Definition with_clients (s : Sess) (l : list N) : Sess :=
  mkSess (sID s) (sAgentBinary s) (sState s) (sRing s) (sDMS s) (sInput s) (sSize s) l
    (sExited s) (sClosed s).
Definition with_end (s : Sess) (exited closed : bool) : Sess :=
  mkSess (sID s) (sAgentBinary s) (sState s) (sRing s) (sDMS s) (sInput s) (sSize s) (sClients s)
    exited closed.

Definition addLocalClient (s : Sess) (w : N) : Sess := with_clients s (sClients s ++ [w]).

(** Removes the first occurrence. *)
Fixpoint remove_first (l : list N) (w : N) : list N :=
  match l with
  | [] => []
  | c :: l' => if decide (c = w) then l' else c :: remove_first l' w
  end.
Definition removeLocalClient (s : Sess) (w : N) : Sess :=
  with_clients s (remove_first (sClients s) w).

(** Writes through the pointer; a pointer that is not allocated does not occur. *)
Definition modify (d : Daemon) (p : N) (f : Sess → Sess) : Daemon :=
  match objs d !! p with Some s => set_objs d (<[p := f s]> (objs d)) | None => d end.

(** ** The queues *)

(** select { case ch <- msg: true; default: false } *)
Definition enqueue (cap : nat) (q : list SatelliteMessage) (m : SatelliteMessage)
    : list SatelliteMessage * bool :=
  if decide (length q < cap)%nat then (q ++ [m], true) else (q, false).

Definition sendToNexus (d : Daemon) (m : SatelliteMessage) : Daemon :=
  set_queues d (enqueue 256 (sendCh d) m).1 (sendPriorityCh d) (agentEventCh d) (sent d).
Definition sendToNexusPriority (d : Daemon) (m : SatelliteMessage) : Daemon :=
  set_queues d (sendCh d) (enqueue 64 (sendPriorityCh d) m).1 (agentEventCh d) (sent d).
Definition sendToNexusAgent (d : Daemon) (m : SatelliteMessage) : Daemon :=
  set_queues d (sendCh d) (sendPriorityCh d) (enqueue 512 (agentEventCh d) m).1 (sent d).

(** One round of [streamWriter]: a priority message if one waits, else either of
    the other queues as the select picks. A message whose Send fails is lost,
    and the writer ends. [None]: it blocks. *)
Inductive pick := PickAgent | PickData.

Definition write_one (d : Daemon) (pk : pick) (ok : bool) : option (Daemon * bool) :=
  let put m := if ok then sent d ++ [m] else sent d in
  match sendPriorityCh d with
  | m :: p => Some (set_queues d (sendCh d) p (agentEventCh d) (put m), ok)
  | [] =>
      match pk, agentEventCh d, sendCh d with
      | PickAgent, m :: a, q => Some (set_queues d q [] a (put m), ok)
      | PickData, a, m :: q => Some (set_queues d q [] a (put m), ok)
      | _, _, _ => None
      end
  end.

(** A state report with the time and an error text. *)
Definition report (d : Daemon) (sid : string) (st : ProtoState) (t : Z) (err : string) : Daemon :=
  sendToNexusPriority d (SessionStateUpdate sid st t err).

(** ** Sessions *)

(** What [CreateSession] meets: the clock, the environment, whether the process
    and the IPC server start (each failure with its text), a new uuid. *)
Record spawn := mkSpawn {
  now : Z; max_env : string; ttl_env : string; new_uuid : string;
  start_error : option string;
}.

Definition uint16 (z : Z) : Z := z mod 65536.

(** The switch asks the daemon for the state of its session. *)
Definition dms_config (e : spawn) : DMS.DMSConfig :=
  DMS.mkConfig (getDMSTTL (ttl_env e)) 0 true false true.

(** Every early return cleans up what it has started. *)
Definition CreateSession (d : Daemon) (sessionID agentBinary : string) (cols rows : Z) (e : spawn)
    : Daemon * result string N :=
  let sessionID := if String.eqb sessionID "" then new_uuid e else sessionID in
  let maxSessions := getMaxSessions (max_env e) in
  if (0 <? maxSessions) && (maxSessions <=? Z.of_nat (size (sessions d)))
  then (d, Err ("satellite session limit reached (max: " +:+ pretty maxSessions +:+ ", active: " +:+
                pretty (Z.of_nat (size (sessions d))) +:+ ")"))
  else match start_error e with
  | Some err => (d, Err err)
  | None =>
      let p := fresh (dom (objs d)) in
      let s := mkSess sessionID agentBinary StateRunning (Ring.NewRingBuffer 0)
                 (DMS.NewDeadManSwitch (dms_config e) (Ok StateRunning) (now e))
                 [] (uint16 cols, uint16 rows) [] false false in
      let d1 := set_sessions (set_objs d (<[p := s]> (objs d))) (<[sessionID := p]> (sessions d)) in
      (report d1 sessionID SESSION_STATE_RUNNING (now e) "", Ok p)
  end.

Definition AttachSession (d : Daemon) (sessionID : string) : option N := sessions d !! sessionID.

(** No transition is checked against the state diagram. *)
Definition TransitionSessionState (d : Daemon) (sessionID : string) (newState : SessionState) : Daemon :=
  match sessions d !! sessionID with
  | None => d
  | Some p =>
      modify d p (λ s,
        let s1 := with_state s newState in
        if String.eqb newState StateDetached then with_dms s1 (DMS.Start (sDMS s))
        else if String.eqb newState StateReAttaching then with_dms s1 (DMS.Stop_cancel (sDMS s))
        else if String.eqb newState StateRunning && DMS.IsSuspended (sDMS s)
        then with_dms s1 (DMS.RecordActivity (sDMS s))
        else s1)
  end.

(** The goroutine that waits for the process: it terminates whatever session
    has the id now. *)
Definition process_exit (d : Daemon) (p : N) (t : Z) : Daemon :=
  match objs d !! p with
  | None => d
  | Some s =>
      if sExited s then d else
      let d1 := set_objs d (<[p := with_end s true (sClosed s)]> (objs d)) in
      report (TransitionSessionState d1 (sID s) StateTerminated) (sID s) SESSION_STATE_TERMINATED t ""
  end.

(** [Session.Close]: once; kills the process and waits for its goroutines. *)
Definition Close (d : Daemon) (p : N) (t : Z) : Daemon :=
  match objs d !! p with
  | None => d
  | Some s =>
      if sClosed s then d else
      process_exit (set_objs d (<[p := with_dms (with_end s (sExited s) true)
                                         (DMS.Stop_cancel (sDMS s))]> (objs d))) p t
  end.

(** What a process prints, in pieces of at most 4096 bytes. The local clients
    get it as well. *)
Definition forwardPtyOutput (d : Daemon) (p : N) (data : bytes) : go Daemon :=
  match objs d !! p with
  | None => Ret d
  | Some s =>
      '(r, _) ← Ring.Write (sRing s) data;
      Ret (sendToNexus (modify d p (λ s, with_ring s r)) (TerminalData (sID s) data))
  end.

(** ** The commands of Nexus *)

Definition handleStartSessionCommand (d : Daemon) (sid binary : string) (cols rows : Z) (e : spawn)
    : Daemon :=
  match CreateSession d sid binary cols rows e with
  | (d', Ok _) => d'
  | (d', Err err) => report d' sid SESSION_STATE_TERMINATED (now e) err
  end.

Definition handleTerminalInput (d : Daemon) (sid : string) (data : bytes) : Daemon :=
  match sessions d !! sid with
  | None => d
  | Some p => modify d p (λ s, with_dms (with_input s data) (DMS.RecordActivity (sDMS s)))
  end.

Definition handleResizeCommand (d : Daemon) (sid : string) (width height : Z) : Daemon :=
  match sessions d !! sid with
  | None => d
  | Some p => modify d p (λ s, with_size s (uint16 width, uint16 height))
  end.

(** The state of the session is changed and reported; nothing else is done. *)
Definition handleSuspendCommand (d : Daemon) (sid : string) (t : Z) : Daemon :=
  match sessions d !! sid with
  | None => d
  | Some p => report (modify d p (λ s, with_state s StateSuspended)) sid SESSION_STATE_SUSPENDED t ""
  end.

Definition handleResumeCommand (d : Daemon) (sid : string) (t : Z) : Daemon :=
  match sessions d !! sid with
  | None => d
  | Some p =>
      report (modify d p (λ s, with_dms (with_state s StateRunning) (DMS.RecordActivity (sDMS s))))
        sid SESSION_STATE_RUNNING t ""
  end.

Definition handleKillCommand (d : Daemon) (sid : string) (t : Z) : Daemon :=
  match sessions d !! sid with
  | None => d
  | Some p =>
      let d1 := Close d p t in
      report (set_sessions d1 (delete sid (sessions d1))) sid SESSION_STATE_TERMINATED t ""
  end.
Section Walks.
(** The order in which Go walks the session map. *)
Variable range_map : gmap string N → list (string * N).

(** The sessions a reconciliation prunes: not TERMINATED, not named. *)
Definition is_orphan (d : Daemon) (ids : list string) (kp : string * N) : bool :=
  match objs d !! kp.2 with
  | Some s => negb (String.eqb (sState s) StateTerminated) && bool_decide (kp.1 ∉ ids)
  | None => false
  end.
Definition orphans (d : Daemon) (ids : list string) : list string :=
  (filter (λ kp, is_orphan d ids kp) (range_map (sessions d))).*1.

Definition prune (t : Z) (d : Daemon) (sid : string) : Daemon :=
  let d1 := match sessions d !! sid with Some p => Close d p t | None => d end in
  set_sessions d1 (delete sid (sessions d1)).

Definition handleSessionReconciliation (d : Daemon) (ids : list string) (t : Z) : Daemon :=
  foldl (prune t) d (orphans d ids).

(** One session of [replayActiveSessions]. *)
Definition replay_one (d : Daemon) (p : N) (t : Z) : go Daemon :=
  match objs d !! p with
  | None => Ret d
  | Some s =>
      if String.eqb (sState s) StateTerminated then Ret d else
      let d1 := report d (sID s) (sessionStateToProto (sState s)) t "" in
      if 0 <? Ring.Len (sRing s) then
        snap ← Ring.Snapshot (sRing s);
        Ret (sendToNexus d1 (BufferReplay (sID s) snap))
      else Ret d1
  end.

Fixpoint replay_loop (d : Daemon) (ps : list N) (t : Z) : go Daemon :=
  match ps with
  | [] => Ret d
  | p :: ps' => d' ← replay_one d p t; replay_loop d' ps' t
  end.

Definition replayActiveSessions (d : Daemon) (t : Z) : go Daemon :=
  replay_loop d (range_map (sessions d)).*2 t.

(** ** The control socket *)

(** [id[:len(params.SessionID)] == params.SessionID], for each id in turn: a
    longer parameter is out of range. *)
Fixpoint partial_match (l : list (string * N)) (param : string) : go (option N) :=
  match l with
  | [] => Ret None
  | (sid, p) :: l' =>
      if (4 <=? String.length param)%nat then
        if (String.length param <=? String.length sid)%nat then
          if String.eqb (String.substring 0 (String.length param) sid) param
          then Ret (Some p) else partial_match l' param
        else Panic
      else partial_match l' param
  end.

Definition find_session (d : Daemon) (param : string) : go (option N) :=
  match sessions d !! param with
  | Some p => Ret (Some p)
  | None => partial_match (range_map (sessions d)) param
  end.

(** [handleAttachSession] up to the bridge loop: the scrollback for the local
    terminal, which becomes a client. *)
Definition handleAttachSession (d : Daemon) (param : string) (w : N)
    : go (Daemon * option bytes) :=
  found ← find_session d param;
  match found with
  | None => Ret (d, None)
  | Some p =>
      match objs d !! p with
      | None => Ret (d, None)
      | Some s =>
          hydration ← Ring.Snapshot (sRing s);
          Ret (modify d p (λ s, addLocalClient (with_dms s (DMS.RecordActivity (sDMS s))) w),
               Some hydration)
      end
  end.

(** What a local terminal types, and its end. *)
Definition local_input (d : Daemon) (p : N) (data : bytes) : Daemon :=
  modify d p (λ s, with_dms (with_input s data) (DMS.RecordActivity (sDMS s))).
Definition local_detach (d : Daemon) (p : N) (w : N) : Daemon :=
  modify d p (λ s, removeLocalClient s w).
End Walks.

(** ** Agents *)

(** Whether the runtime is there or can be installed, and the bridge starts. *)
Inductive deploy := BootstrapFails (err : string) | StartFails (err : string) | Starts.

(** [PiBridge.Stop] of the bridge [b]. *)
Definition stop_bridge (o : gmap N Bridge) (b : N) : gmap N Bridge :=
  match o !! b with Some x => <[b := mkBridge (bSession x) true]> o | None => o end.

Definition handleDeployAgentCommand (d : Daemon) (sid : string) (e : deploy) (t : Z) : Daemon :=
  match e with
  | BootstrapFails err => report d sid SESSION_STATE_TERMINATED t ("runtime bootstrap failed: " +:+ err)
  | StartFails err => report d sid SESSION_STATE_TERMINATED t ("failed to start agent: " +:+ err)
  | Starts =>
      let b := fresh (dom (bridge_objs d)) in
      let d1 := report d sid SESSION_STATE_RUNNING t "" in
      let o := match bridges d1 !! sid with
               | Some old => stop_bridge (bridge_objs d1) old | None => bridge_objs d1 end in
      set_bridges d1 (<[sid := b]> (bridges d1)) (<[b := mkBridge sid false]> o)
  end.

(** An event of the agent, and the end of the goroutine that forwards them. *)
Definition bridge_event (d : Daemon) (b : N) (ty : string) (payload : bytes) : Daemon :=
  match bridge_objs d !! b with
  | Some x => sendToNexusAgent d (AgentEvent (bSession x) ty payload)
  | None => d
  end.

Definition bridge_finished (d : Daemon) (b : N) (t : Z) : Daemon :=
  match bridge_objs d !! b with
  | None => d
  | Some x =>
      let d1 := set_bridges d (delete (bSession x) (bridges d)) (delete b (bridge_objs d)) in
      report d1 (bSession x) SESSION_STATE_TERMINATED t ""
  end.

(** ** The dead man switches *)

(** What GetSessionStateFunc answers for the session. *)
Definition state_of (d : Daemon) (sid : string) : result unit SessionState :=
  match sessions d !! sid ≫= λ p, objs d !! p with
  | Some s => Ok (sState s)
  | None => Err ()
  end.

(** The callbacks OnSuspend and OnResume. *)
Definition callback (d : Daemon) (sid : string) (n : DMS.notice) : Daemon :=
  match n, sessions d !! sid with
  | DMS.CallOnSuspend, Some p => modify d p (λ s, with_state s StateSuspended)
  | DMS.CallOnResume, Some p => modify d p (λ s, with_state s StateRunning)
  | _, _ => d
  end.

(** A step of a monitor, of its ticker or of the clock, with the callbacks it
    makes. *)
Definition dms_step (d : Daemon) (p : N) (l : DMS.label) : option Daemon :=
  match objs d !! p with
  | None => None
  | Some s =>
      match DMS.run (sDMS s) [DMS.LSession (state_of d (sID s)); l] with
      | None => None
      | Some x =>
          let d1 := modify d p (λ s, with_dms s x) in
          Some (foldl (λ d n, callback d (sID s) n) d1
                  (drop (length (DMS.notices (sDMS s))) (DMS.notices x)))
      end
  end.

(** ** The connection to Nexus *)

Definition ReconnectBaseDelay : Z := 1 * 1000000000.
Definition ReconnectMaxDelay : Z := 30 * 1000000000.

(** The sleeps of [runGrpcLoop], given for each attempt whether it connected;
    a connection that was made has dropped before its sleep. *)
Fixpoint grpc_loop (delay : Z) (connects : list bool) : list Z :=
  match connects with
  | [] => []
  | true :: cs => ReconnectBaseDelay :: grpc_loop ReconnectBaseDelay cs
  | false :: cs =>
      let delay2 := delay * 2 in
      delay :: grpc_loop (if ReconnectMaxDelay <? delay2 then ReconnectMaxDelay else delay2) cs
  end.
Definition runGrpcLoop (connects : list bool) : list Z := grpc_loop ReconnectBaseDelay connects.

(** ** The daemon as a transition system *)

Section System.
Variable range_map : gmap string N → list (string * N).
Hypothesis range_perm : ∀ m, range_map m ≡ₚ map_to_list m.

(** A message of Nexus, with what its handler meets. The update notice and the
    pushed context files go to disk; provisioning reports its progress by
    [LProgress]. *)
Definition handleNexusMessage (d : Daemon) (m : NexusMessage) (e : spawn) (dp : deploy) : Daemon :=
  match m with
  | TerminalInput sid data _ => handleTerminalInput d sid data
  | ResizeCommand sid w h _ _ => handleResizeCommand d sid w h
  | SuspendCommand sid => handleSuspendCommand d sid (now e)
  | ResumeCommand sid => handleResumeCommand d sid (now e)
  | KillCommand sid _ => handleKillCommand d sid (now e)
  | StartSessionCommand sid binary _ cols rows _ => handleStartSessionCommand d sid binary cols rows e
  | SessionReconciliation ids => handleSessionReconciliation range_map d ids (now e)
  | DeployAgentCommand sid _ _ => handleDeployAgentCommand d sid dp (now e)
  | UpdateAvailable _ _ _ | ContextFilePush _ | ProvisionRuntimeCommand _ | ProposalDecision _ _ _ _ _ _ => d
  end.

Inductive label :=
  | LCommand (m : NexusMessage) (e : spawn) (dp : deploy)
  | LOutput (p : N) (data : bytes)
  | LExit (p : N) (t : Z)
  | LReconnect (t : Z)
  | LWrite (pk : pick) (ok : bool)
  | LHeartbeat
  | LProgress
  | LAttach (param : string) (w : N)
  | LTyped (p : N) (data : bytes)
  | LDetach (p : N) (w : N)
  | LBridge (b : N) (ty : string) (payload : bytes)
  | LBridgeEnd (b : N) (t : Z)
  | LTime (p : N) (delta : Z)                      (* the clock of a switch *)
  | LTick (p : N) (i : nat)
  | LMonitor (p : N) (i : nat) (c : DMS.choice).

(** A step that is not possible does nothing. *)
Definition step (d : Daemon) (l : label) : go Daemon :=
  match l with
  | LCommand m e dp => Ret (handleNexusMessage d m e dp)
  | LOutput p data => forwardPtyOutput d p data
  | LExit p t => Ret (process_exit d p t)
  | LReconnect t => replayActiveSessions range_map d t
  | LWrite pk ok => Ret (from_option fst d (write_one d pk ok))
  | LHeartbeat => Ret (sendToNexusPriority d HeartbeatPing)
  | LProgress => Ret (sendToNexusPriority d ProvisionProgress)
  | LAttach param w => '(d', _) ← handleAttachSession range_map d param w; Ret d'
  | LTyped p data => Ret (local_input d p data)
  | LDetach p w => Ret (local_detach d p w)
  | LBridge b ty payload => Ret (bridge_event d b ty payload)
  | LBridgeEnd b t => Ret (bridge_finished d b t)
  | LTime p delta => Ret (default d (dms_step d p (DMS.LTime delta)))
  | LTick p i => Ret (default d (dms_step d p (DMS.LTick i)))
  | LMonitor p i c => Ret (default d (dms_step d p (DMS.LMonitor i c)))
  end.

Fixpoint run (d : Daemon) (ls : list label) : go Daemon :=
  match ls with
  | [] => Ret d
  | l :: ls' => d' ← step d l; run d' ls'
  end.

(** *** Invariant *)

(** A switch nobody has started: no monitor, and so nothing is ever stopped. *)
Definition switch_idle (x : DMS.dms) : Prop :=
  DMS.monitors x = [] ∧ DMS.stopped x = false ∧ DMS.suspended x = false.

Record sess_ok (s : Sess) : Prop := mk_sess_ok {
  s_ring : Ring.ring_wf (sRing s);
  s_switch : switch_idle (sDMS s);
}.

Record daemon_ok (d : Daemon) : Prop := mk_daemon_ok {
  d_objs : ∀ p s, objs d !! p = Some s → sess_ok s;
  d_ptrs : ∀ sid p, sessions d !! sid = Some p → ∃ s, objs d !! p = Some s ∧ sID s = sid;
  d_data : (length (sendCh d) ≤ 256)%nat;
  d_prio : (length (sendPriorityCh d) ≤ 64)%nat;
  d_agent : (length (agentEventCh d) ≤ 512)%nat;
}.

Lemma NewDaemon_ok : daemon_ok NewDaemon.
Proof.
  split; simpl; try lia; [by intros p s; rewrite lookup_empty|by intros sid p; rewrite lookup_empty].
Qed.

Lemma enqueue_length cap q m : (length q ≤ cap → length (enqueue cap q m).1 ≤ cap)%nat.
Proof. unfold enqueue. case_decide; simpl; [rewrite length_app; simpl|]; lia. Qed.

Lemma sendToNexus_ok d m : daemon_ok d → daemon_ok (sendToNexus d m).
Proof. intros [? ? ? ? ?]. split; try done. by apply enqueue_length. Qed.
Lemma sendToNexusPriority_ok d m : daemon_ok d → daemon_ok (sendToNexusPriority d m).
Proof. intros [? ? ? ? ?]. split; try done. by apply enqueue_length. Qed.
Lemma sendToNexusAgent_ok d m : daemon_ok d → daemon_ok (sendToNexusAgent d m).
Proof. intros [? ? ? ? ?]. split; try done. by apply enqueue_length. Qed.
Lemma report_ok d sid st t err : daemon_ok d → daemon_ok (report d sid st t err).
Proof. apply sendToNexusPriority_ok. Qed.

Lemma set_bridges_ok d m o : daemon_ok d → daemon_ok (set_bridges d m o).
Proof. by intros [? ? ? ? ?]. Qed.

Lemma delete_session_ok d sid : daemon_ok d → daemon_ok (set_sessions d (delete sid (sessions d))).
Proof.
  intros [? Hp ? ? ?]. split; try done. intros sid' p. simpl.
  intros [_ H]%lookup_delete_Some. by apply Hp.
Qed.

(** An object changed in place, keeping its id. *)
Lemma insert_obj_ok d p s s' :
  daemon_ok d → objs d !! p = Some s → sess_ok s' → sID s' = sID s →
  daemon_ok (set_objs d (<[p := s']> (objs d))).
Proof.
  intros [Ho Hp ? ? ?] Hs Hs' Hid. split; try done; simpl.
  - intros q x [[<- <-]|[_ ?]]%lookup_insert_Some; [done|eauto].
  - intros sid q Hq. destruct (Hp _ _ Hq) as (x & Hx & Hxid).
    destruct (decide (q = p)) as [->|]; [rewrite lookup_insert_eq|rewrite lookup_insert_ne by done; eauto].
    exists s'. split; [done|congruence].
Qed.

Lemma modify_ok d p f :
  daemon_ok d → (∀ s, objs d !! p = Some s → sess_ok s → sess_ok (f s) ∧ sID (f s) = sID s) →
  daemon_ok (modify d p f).
Proof.
  intros Hok Hf. unfold modify. destruct (objs d !! p) as [s|] eqn:Hs; [|done].
  destruct (Hf s eq_refl (d_objs d Hok p s Hs)). by eapply insert_obj_ok.
Qed.

Lemma RecordActivity_idle x : switch_idle x → switch_idle (DMS.RecordActivity x).
Proof.
  intros (Hm & Hst & Hsu). unfold DMS.RecordActivity. simpl. rewrite Hsu. by repeat split.
Qed.

(** The calls of [RecordActivity] that the handlers make, with [s'] the session
    as they have changed it. *)
Lemma active_ok s s' :
  sess_ok s → sRing s' = sRing s → sID s' = sID s →
  sess_ok (with_dms s' (DMS.RecordActivity (sDMS s))) ∧
  sID (with_dms s' (DMS.RecordActivity (sDMS s))) = sID s.
Proof.
  intros [Hr Hs] E Hid. split; [|done]. split; simpl; [by rewrite E|].
  by apply RecordActivity_idle.
Qed.

(** The only caller asks for TERMINATED. *)
Lemma TransitionSessionState_ok d sid : daemon_ok d → daemon_ok (TransitionSessionState d sid StateTerminated).
Proof.
  intros Hok. unfold TransitionSessionState. destruct (sessions d !! sid); [|done].
  apply modify_ok; [done|]. intros s _ [? ?]. split; [by split|done].
Qed.

Lemma process_exit_ok d p t : daemon_ok d → daemon_ok (process_exit d p t).
Proof.
  intros Hok. unfold process_exit. destruct (objs d !! p) as [s|] eqn:Hs; [|done].
  destruct (sExited s); [done|]. apply report_ok, TransitionSessionState_ok.
  pose proof (d_objs d Hok p s Hs) as [? ?]. eapply insert_obj_ok; [done|done|by split|done].
Qed.

Lemma daemon_Close_ok d p t : daemon_ok d → daemon_ok (Close d p t).
Proof.
  intros Hok. unfold Close. destruct (objs d !! p) as [s|] eqn:Hs; [|done].
  destruct (sClosed s); [done|]. apply process_exit_ok.
  pose proof (d_objs d Hok p s Hs) as [? Hsw].
  eapply insert_obj_ok; [done|done| |done]. by split.
Qed.

Lemma prune_ok t d sid : daemon_ok d → daemon_ok (prune t d sid).
Proof.
  intros Hok. unfold prune. apply delete_session_ok. destruct (sessions d !! sid); [by apply daemon_Close_ok|done].
Qed.

Lemma CreateSession_ok d sid binary cols rows e :
  daemon_ok d → daemon_ok (CreateSession d sid binary cols rows e).1.
Proof.
  intros Hok. unfold CreateSession. destruct (_ && _); [done|]. destruct (start_error e); [done|].
  cbn [fst]. apply report_ok. set (p := fresh (dom (objs d))).
  assert (objs d !! p = None) as Hp by apply not_elem_of_dom, is_fresh.
  destruct Hok as [Ho Hptr ? ? ?]. split; try done; simpl.
  - intros q x [[<- <-]|[_ ?]]%lookup_insert_Some; [|eauto]. split; [apply Ring.NewRingBuffer_wf|].
    by repeat split.
  - intros s q [[<- <-]|[_ H]]%lookup_insert_Some; [rewrite lookup_insert_eq; eauto|].
    destruct (Hptr _ _ H) as (x & Hx & ?). exists x. rewrite lookup_insert_ne; [done|congruence].
Qed.

Lemma handleNexusMessage_ok d m e dp : daemon_ok d → daemon_ok (handleNexusMessage d m e dp).
Proof.
  intros Hok. destruct m as [sid data q|sid w h pw ph|sid|sid|sid code|sid b a c r wd| | |sid df sec| |ids|];
    simpl; try done.
  - unfold handleTerminalInput. destruct (sessions d !! sid); [|done].
    apply modify_ok; [done|]. intros s _ Hs. by apply active_ok.
  - unfold handleResizeCommand. destruct (sessions d !! sid); [|done].
    apply modify_ok; [done|]. intros s _ [? ?]. split; [by split|done].
  - unfold handleSuspendCommand. destruct (sessions d !! sid); [|done]. apply report_ok.
    apply modify_ok; [done|]. intros s _ [? ?]. split; [by split|done].
  - unfold handleResumeCommand. destruct (sessions d !! sid); [|done]. apply report_ok.
    apply modify_ok; [done|]. intros s _ Hs. by apply active_ok.
  - unfold handleKillCommand. destruct (sessions d !! sid); [|done].
    by apply report_ok, delete_session_ok, daemon_Close_ok.
  - unfold handleStartSessionCommand. pose proof (CreateSession_ok d sid b c r e Hok) as H.
    destruct (CreateSession _ _ _ _ _ _) as [d' [p|err]]; [done|]. by apply report_ok.
  - destruct dp; simpl; try by apply report_ok. by apply set_bridges_ok, report_ok.
  - unfold handleSessionReconciliation. revert Hok. generalize (orphans range_map d ids) as l.
    intros l. revert d. induction l as [|x l IH]; intros d Hok; simpl; [done|]. by apply IH, prune_ok.
Qed.

Lemma forwardPtyOutput_ok d p data :
  daemon_ok d → ∃ d', forwardPtyOutput d p data = Ret d' ∧ daemon_ok d'.
Proof.
  intros Hok. unfold forwardPtyOutput. destruct (objs d !! p) as [s|] eqn:Hs; [|eauto].
  pose proof (d_objs d Hok p s Hs) as [Hr _].
  destruct (Ring.write_bytes_total data _ Hr) as (r & Hw & Hwf & _).
  rewrite (Ring.Write_bytes _ _ _ Hw). simpl. eexists. split; [done|].
  apply sendToNexus_ok, modify_ok; [done|]. intros s' _ [? ?]. split; [by split|done].
Qed.

Lemma replay_loop_ok t ps : ∀ d, daemon_ok d → ∃ d', replay_loop d ps t = Ret d' ∧ daemon_ok d'.
Proof.
  induction ps as [|p ps IH]; intros d Hok; simpl; [eauto|].
  assert (∃ d1, replay_one d p t = Ret d1 ∧ daemon_ok d1) as (d1 & -> & Hok1); [|by apply IH].
  unfold replay_one. destruct (objs d !! p) as [s|] eqn:Hs; [|eauto].
  pose proof (d_objs d Hok p s Hs) as [Hr _].
  destruct (String.eqb _ _); [eauto|]. destruct (0 <? _); [|eauto using report_ok].
  rewrite Ring.Snapshot_contents by done. simpl. eauto using report_ok, sendToNexus_ok.
Qed.

Lemma handleAttachSession_ok d param w d' o :
  daemon_ok d → handleAttachSession range_map d param w = Ret (d', o) → daemon_ok d'.
Proof.
  intros Hok. unfold handleAttachSession. destruct (find_session _ _ _) as [[p|]|]; simpl; [| |done].
  - destruct (objs d !! p) as [s|] eqn:Hs; [|by intros [= <- _]].
    rewrite Ring.Snapshot_contents by apply (d_objs d Hok p s Hs). intros [= <- _].
    apply modify_ok; [done|]. intros s' _ Hs'. by apply (active_ok s' (addLocalClient s' w)).
  - by intros [= <- _].
Qed.

Lemma write_one_ok d pk ok r : daemon_ok d → write_one d pk ok = Some r → daemon_ok r.1.
Proof.
  intros [? ? Hd Hp Ha]. unfold write_one.
  destruct (sendPriorityCh d) as [|m q]; [destruct pk, (agentEventCh d), (sendCh d)|];
    intros; simplify_eq; split; simpl in *; try done; lia.
Qed.

(** A switch nobody has started has no step but the clock's. *)
Lemma dms_step_ok d p l d' :
  daemon_ok d → dms_step d p l = Some d' →
  match l with DMS.LTime _ | DMS.LTick _ | DMS.LMonitor _ _ => daemon_ok d' | _ => True end.
Proof.
  intros Hok. unfold dms_step. destruct (objs d !! p) as [s|] eqn:Hs; [|done].
  pose proof (d_objs d Hok p s Hs) as [Hr (Hm & Hst & Hsu)].
  destruct l as [delta| | | | |i|i c]; try done; simpl; [|by rewrite Hm..].
  destruct (delta <? 0); [done|]. simpl. rewrite drop_all. simpl. intros [= <-].
  apply modify_ok; [done|]. intros s' Hs' _. simplify_eq. split; [|done]. by split.
Qed.

Definition is_attach (l : label) : Prop := ∃ param w, l = LAttach param w.

Lemma daemon_step_ok d l :
  daemon_ok d → (is_attach l ∨ ∃ d', step d l = Ret d') ∧ ∀ d', step d l = Ret d' → daemon_ok d'.
Proof.
  intros Hok.
  assert (∀ p l', default d (dms_step d p l') = d ∨ dms_step d p l' = Some (default d (dms_step d p l')))
    as Hdef by (intros p' l'; destruct (dms_step d p' l'); auto).
  destruct l as [m e dp|p data|p t|t|pk ok| | |param w|p data|p w|b ty payload|b t|p delta|p i|p i c];
    simpl; try (split; [by eauto|intros d' [= <-]]).
  - by apply handleNexusMessage_ok.
  - destruct (forwardPtyOutput_ok d p data Hok) as (d1 & -> & ?). split; [by eauto|by intros d' [= <-]].
  - by apply process_exit_ok.
  - destruct (replay_loop_ok t (range_map (sessions d)).*2 d Hok) as (d1 & H & ?).
    unfold replayActiveSessions. rewrite H. split; [by eauto|by intros d' [= <-]].
  - destruct (write_one d pk ok) as [r|] eqn:Hw; simpl; [by eapply write_one_ok|done].
  - by apply sendToNexusPriority_ok.
  - by apply sendToNexusPriority_ok.
  - split; [left; unfold is_attach; eauto|]. intros d' H.
    destruct (handleAttachSession range_map d param w) as [[d1 o]|] eqn:Ha; [|done].
    simpl in H. simplify_eq. by eapply handleAttachSession_ok.
  - apply modify_ok; [done|]. intros s _ Hs. by apply active_ok.
  - apply modify_ok; [done|]. intros s _ [? ?]. split; [by split|done].
  - unfold bridge_event. destruct (bridge_objs d !! b); [by apply sendToNexusAgent_ok|done].
  - unfold bridge_finished. destruct (bridge_objs d !! b); [by apply report_ok, set_bridges_ok|done].
  - destruct (Hdef p (DMS.LTime delta)) as [->|E]; [done|exact (dms_step_ok _ _ _ _ Hok E)].
  - destruct (Hdef p (DMS.LTick i)) as [->|E]; [done|exact (dms_step_ok _ _ _ _ Hok E)].
  - destruct (Hdef p (DMS.LMonitor i c)) as [->|E]; [done|exact (dms_step_ok _ _ _ _ Hok E)].
Qed.

Lemma daemon_run_ok ls : ∀ d, daemon_ok d →
  ((∃ l, l ∈ ls ∧ is_attach l) ∨ ∃ d', run d ls = Ret d') ∧ ∀ d', run d ls = Ret d' → daemon_ok d'.
Proof.
  induction ls as [|l ls IH]; intros d Hok; simpl.
  { split; [by eauto|by intros d' [= <-]]. }
  destruct (daemon_step_ok d l Hok) as [Ht Hs]. split.
  - destruct Ht as [?|(d1 & E)]; [left; exists l; split; [left|done]|].
    rewrite E. simpl. destruct (IH d1 (Hs _ E)) as [[(l' & ? & ?)|?] _]; [|by auto].
    left. exists l'. split; [by right|done].
  - intros d'. destruct (step d l) as [d1|]; [|done]. simpl. intros. by eapply (IH d1 (Hs _ eq_refl)).
Qed.

(** *** What a step does to the session map *)

Lemma modify_sessions d p f : sessions (modify d p f) = sessions d.
Proof. unfold modify. by destruct (objs d !! p). Qed.
Lemma TransitionSessionState_sessions d sid st : sessions (TransitionSessionState d sid st) = sessions d.
Proof. unfold TransitionSessionState. destruct (sessions d !! sid); [apply modify_sessions|done]. Qed.
Lemma process_exit_sessions d p t : sessions (process_exit d p t) = sessions d.
Proof.
  unfold process_exit. destruct (objs d !! p) as [s|]; [|done]. destruct (sExited s); [done|].
  simpl. by rewrite TransitionSessionState_sessions.
Qed.
Lemma Close_sessions d p t : sessions (Close d p t) = sessions d.
Proof.
  unfold Close. destruct (objs d !! p) as [s|]; [|done]. destruct (sClosed s); [done|].
  by rewrite process_exit_sessions.
Qed.
Lemma prune_sessions t d sid : sessions (prune t d sid) = delete sid (sessions d).
Proof. unfold prune. simpl. destruct (sessions d !! sid); by rewrite ?Close_sessions. Qed.
Lemma callback_sessions d sid n : sessions (callback d sid n) = sessions d.
Proof. unfold callback. destruct n, (sessions d !! sid); try done; apply modify_sessions. Qed.
Lemma dms_step_sessions d p l : sessions (default d (dms_step d p l)) = sessions d.
Proof.
  unfold dms_step. destruct (objs d !! p) as [s|]; [|done]. destruct (DMS.run _ _) as [x|]; [|done].
  simpl. rewrite <- (modify_sessions d p (λ s, with_dms s x)).
  generalize (modify d p (λ s, with_dms s x)) as d1. induction (drop _ _) as [|n ns IH]; intros d1; [done|].
  simpl. by rewrite IH, callback_sessions.
Qed.
Lemma replay_loop_sessions t ps : ∀ d d', replay_loop d ps t = Ret d' → sessions d' = sessions d.
Proof.
  induction ps as [|p ps IH]; intros d d'; simpl; [by intros [= <-]|].
  destruct (replay_one d p t) as [d1|] eqn:E; [|done]. simpl. intros ->%IH.
  unfold replay_one in E. destruct (objs d !! p) as [s|]; [|by simplify_eq].
  destruct (String.eqb _ _); [by simplify_eq|]. destruct (0 <? _); [|by simplify_eq].
  destruct (Ring.Snapshot _); [|done]. simpl in E. by simplify_eq.
Qed.

(** Only three commands change it. *)
Lemma step_sessions d l d' : step d l = Ret d' →
  match l with
  | LCommand (StartSessionCommand sid binary _ cols rows _) e _ =>
      d' = handleStartSessionCommand d sid binary cols rows e
  | LCommand (KillCommand sid _) _ _ => sessions d' = delete sid (sessions d)
  | LCommand (SessionReconciliation ids) e _ => d' = handleSessionReconciliation range_map d ids (now e)
  | _ => sessions d' = sessions d
  end.
Proof.
  destruct l as [m e dp|p data|p t|t|pk ok| | |param w|p data|p w|b ty payload|b t|p delta|p i|p i c];
    simpl; try by intros [= <-].
  - intros [= <-]. destruct m; try done; simpl.
    + unfold handleTerminalInput. destruct (sessions d !! _); by rewrite ?modify_sessions.
    + unfold handleResizeCommand. destruct (sessions d !! _); by rewrite ?modify_sessions.
    + unfold handleSuspendCommand. destruct (sessions d !! _); simpl; by rewrite ?modify_sessions.
    + unfold handleResumeCommand. destruct (sessions d !! _); simpl; by rewrite ?modify_sessions.
    + unfold handleKillCommand. destruct (sessions d !! _) eqn:E; simpl; rewrite ?Close_sessions; [done|].
      by rewrite delete_id.
    + by destruct dp.
  - unfold forwardPtyOutput. destruct (objs d !! p) as [s|]; [|by intros [= <-]].
    destruct (Ring.Write _ _) as [[r n]|]; [|done]. simpl. intros [= <-]. simpl. apply modify_sessions.
  - intros [= <-]. apply process_exit_sessions.
  - apply replay_loop_sessions.
  - intros [= <-]. unfold write_one.
    by destruct (sendPriorityCh d), pk, (agentEventCh d), (sendCh d).
  - unfold handleAttachSession. destruct (find_session _ _ _) as [[p|]|]; simpl; [|by intros [= <-]|done].
    destruct (objs d !! p) as [s|]; [|by intros [= <-]].
    destruct (Ring.Snapshot _); [|done]. intros [= <-]. apply modify_sessions.
  - intros [= <-]. apply modify_sessions.
  - intros [= <-]. apply modify_sessions.
  - intros [= <-]. unfold bridge_event. by destruct (bridge_objs d !! b).
  - intros [= <-]. unfold bridge_finished. by destruct (bridge_objs d !! b).
  - intros [= <-]. apply dms_step_sessions.
  - intros [= <-]. apply dms_step_sessions.
  - intros [= <-]. apply dms_step_sessions.
Qed.

(** *** Closing a session *)

Lemma modify_objs d p f q :
  objs (modify d p f) !! q = if decide (q = p) then f <$> objs d !! p else objs d !! q.
Proof.
  unfold modify. destruct (objs d !! p) as [s|] eqn:Hs; simpl; case_decide as Hq; subst; try done.
  - by rewrite lookup_insert_eq.
  - by rewrite lookup_insert_ne by done.
Qed.

(** A session of the map, and no other object, is closed. *)
Lemma Close_objs d sid p t :
  daemon_ok d → sessions d !! sid = Some p →
  (∃ s', objs (Close d p t) !! p = Some s' ∧ sClosed s' = true) ∧
  ∀ q, q ≠ p → objs (Close d p t) !! q = objs d !! q.
Proof.
  intros Hok Hsid. destruct (d_ptrs d Hok sid p Hsid) as (s & Hs & <-).
  unfold Close. rewrite Hs. destruct (sClosed s) eqn:Hc; [by eauto|].
  unfold process_exit. simpl. rewrite lookup_insert_eq. simpl. destruct (sExited s) eqn:He.
  { simpl. rewrite lookup_insert_eq. split; [by eauto|]. intros q Hq. by rewrite lookup_insert_ne. }
  unfold report, sendToNexusPriority, TransitionSessionState. simpl. rewrite Hsid.
  split; [|intros q Hq]; simpl; rewrite modify_objs; simpl.
  - rewrite decide_True, lookup_insert_eq by done. simpl. by eauto.
  - by rewrite decide_False, !lookup_insert_ne.
Qed.

(** Two ids of the map are two objects. *)
Lemma ptr_inj d a b p : daemon_ok d → sessions d !! a = Some p → sessions d !! b = Some p → a = b.
Proof. intros Hok Ha Hb. destruct (d_ptrs d Hok _ _ Ha) as (? & ? & <-), (d_ptrs d Hok _ _ Hb) as (? & ? & <-). congruence. Qed.

Lemma prunes_sessions t l sid : ∀ d,
  sessions (foldl (prune t) d l) !! sid = if decide (sid ∈ l) then None else sessions d !! sid.
Proof.
  induction l as [|x l IH]; intros d; simpl; [done|].
  rewrite IH, prune_sessions. destruct (decide (sid = x)) as [->|].
  - rewrite lookup_delete_eq, (decide_True (P := x ∈ x :: l)) by left. by case_decide.
  - rewrite lookup_delete_ne by done. repeat case_decide; set_solver.
Qed.

Lemma prunes_others t l q : ∀ d, daemon_ok d → (∀ sid, sid ∈ l → sessions d !! sid ≠ Some q) →
  objs (foldl (prune t) d l) !! q = objs d !! q.
Proof.
  induction l as [|x l IH]; intros d Hok Hq; simpl; [done|].
  rewrite IH; [|by apply prune_ok|].
  - unfold prune. simpl. destruct (sessions d !! x) as [p|] eqn:Hp; [|done].
    apply (Close_objs d x p t Hok Hp). intros ->. apply (Hq x); [by left|done].
  - intros sid Hsid. rewrite prune_sessions. intros [_ H]%lookup_delete_Some.
    apply (Hq sid); [by right|done].
Qed.

Lemma prunes_closed t l sid p : ∀ d, daemon_ok d → sid ∈ l → sessions d !! sid = Some p →
  ∃ s', objs (foldl (prune t) d l) !! p = Some s' ∧ sClosed s' = true.
Proof.
  induction l as [|x l IH]; intros d Hok Hin Hp; simpl; [by apply elem_of_nil in Hin|].
  destruct (decide (sid = x)) as [<-|Hne].
  - pose proof (Close_objs d sid p t Hok Hp) as [(s' & Hs' & ?) _]. exists s'. split; [|done].
    rewrite prunes_others; [unfold prune; by rewrite Hp|by apply prune_ok|].
    intros y _. rewrite prune_sessions. intros [Hy Hys]%lookup_delete_Some.
    apply Hy. by eapply ptr_inj.
  - apply IH; [by apply prune_ok|set_solver|]. by rewrite prune_sessions, lookup_delete_ne.
Qed.

Lemma elem_of_orphans d ids sid :
  sid ∈ orphans range_map d ids ↔ ∃ p, sessions d !! sid = Some p ∧ is_orphan d ids (sid, p) = true.
Proof.
  unfold orphans. rewrite list_elem_of_fmap. setoid_rewrite list_elem_of_filter.
  setoid_rewrite range_perm. split.
  - intros ([s p] & -> & Ho & Hm%elem_of_map_to_list). exists p. split; [done|]. by apply Is_true_true.
  - intros (p & H & Ho). exists (sid, p). split; [done|]. split; [by apply Is_true_true|].
    by apply elem_of_map_to_list.
Qed.

(** *** The lookup of the control socket *)

Lemma partial_match_spec l param : (4 <= String.length param)%nat →
  match partial_match l param with
  | Ret (Some p) => ∃ sid, (sid, p) ∈ l ∧ String.prefix param sid = true
  | Ret None => ∀ sid p, (sid, p) ∈ l →
      String.prefix param sid = false ∧ (String.length param <= String.length sid)%nat
  | Panic => ∃ sid p, (sid, p) ∈ l ∧ (String.length sid < String.length param)%nat
  end.
Proof.
  intros H4%Nat.leb_le. induction l as [|[x q] l IH]; cbn [partial_match]; [by intros ? ? ?%elem_of_nil|].
  rewrite H4.
  destruct (Nat.leb_spec (String.length param) (String.length x)) as [Hl|Hl];
    [|by exists x, q; split; [left|]].
  destruct (String.eqb_spec (String.substring 0 (String.length param) x) param) as [E|E].
  { exists x. split; [by left|]. by apply String.prefix_correct. }
  destruct (partial_match l param) as [[p|]|].
  - destruct IH as (sid & ? & ?). exists sid. split; [by right|done].
  - intros sid p [[= -> ->]|Hin]%elem_of_cons; [|by eapply IH].
    split; [|done]. apply not_true_is_false. by rewrite String.prefix_correct.
  - destruct IH as (sid & p & ? & ?). exists sid, p. split; [by right|done].
Qed.

(** *** The size of the session map *)

Lemma reconciliation_subseteq d ids t :
  sessions (handleSessionReconciliation range_map d ids t) ⊆ sessions d.
Proof.
  apply map_subseteq_spec. intros sid p. unfold handleSessionReconciliation.
  rewrite prunes_sessions. by case_decide.
Qed.

Lemma CreateSession_size d sid binary cols rows e :
  let d' := (CreateSession d sid binary cols rows e).1 in
  sessions d' = sessions d ∨
  (getMaxSessions (max_env e) = 0 ∨ Z.of_nat (size (sessions d)) < getMaxSessions (max_env e)) ∧
  (size (sessions d') <= S (size (sessions d)))%nat ∧ dom (sessions d) ⊆ dom (sessions d').
Proof.
  simpl. unfold CreateSession. set (m := getMaxSessions (max_env e)).
  assert (0 <= m) as Hm.
  { subst m. unfold getMaxSessions. destruct (String.eqb _ _); [lia|].
    destruct (Str.Sscanf_d _); [|lia]. destruct (Z.ltb_spec 0 z); lia. }
  destruct (Z.ltb_spec 0 m), (Z.leb_spec m (Z.of_nat (size (sessions d)))); simpl; [by left| | |];
    (destruct (start_error e); [by left|right]; split; [lia|]; simpl; split;
      [rewrite map_size_insert; destruct (_ !! _); simpl; lia|rewrite dom_insert; set_solver]).
Qed.

Lemma step_size m d l d' : 0 < m →
  (∀ msg e dp, l = LCommand msg e dp → getMaxSessions (max_env e) = m) →
  Z.of_nat (size (sessions d)) <= m → step d l = Ret d' → Z.of_nat (size (sessions d')) <= m.
Proof.
  intros Hm He Hd Hs%step_sessions. destruct l as [msg e dp| | | | | | | | | | | | | |]; try by rewrite Hs.
  specialize (He msg e dp eq_refl). destruct msg; try by rewrite Hs.
  - rewrite Hs, map_size_delete. destruct (sessions d !! _); simpl; lia.
  - subst d'. unfold handleStartSessionCommand.
    match goal with |- context [CreateSession ?d ?a ?b ?c ?r ?e] =>
      pose proof (CreateSession_size d a b c r e) as H; destruct (CreateSession d a b c r e) as [d' [p|err]] end;
      simpl in *; destruct H as [->|[? [? _]]]; lia.
  - subst d'. etransitivity; [|exact Hd]. apply inj_le, map_subseteq_size, reconciliation_subseteq.
Qed.

Lemma report_room d sid st t err : (length (sendPriorityCh d) < 64)%nat →
  sendPriorityCh (report d sid st t err) = sendPriorityCh d ++ [SessionStateUpdate sid st t err].
Proof.
  intros H. unfold report, sendToNexusPriority, set_queues, enqueue. simpl. by rewrite decide_True.
Qed.

(** The exit of a process, when the id of its session now means another one. *)
Lemma process_exit_stale d p s t q x :
  objs d !! p = Some s → sExited s = false → sessions d !! sID s = Some q → q ≠ p →
  objs d !! q = Some x →
  objs (process_exit d p t) !! q = Some (with_state x StateTerminated) ∧
  ((length (sendPriorityCh d) < 64)%nat →
   sendPriorityCh (process_exit d p t) =
     sendPriorityCh d ++ [SessionStateUpdate (sID s) SESSION_STATE_TERMINATED t ""]).
Proof.
  intros Hs Hx Hq Hne Hqx. unfold process_exit. rewrite Hs, Hx.
  unfold TransitionSessionState. cbn [sessions set_objs]. rewrite Hq. split.
  - unfold report. cbn [objs sendToNexusPriority set_queues]. rewrite modify_objs, decide_True by done. simpl.
    by rewrite lookup_insert_ne, Hqx.
  - intros Hroom. unfold modify. cbn [objs set_objs]. rewrite lookup_insert_ne, Hqx by done.
    by rewrite report_room.
Qed.

Lemma bridge_finished_spec d b x t :
  bridge_objs d !! b = Some x →
  bridges (bridge_finished d b t) = delete (bSession x) (bridges d) ∧
  bridge_objs (bridge_finished d b t) = delete b (bridge_objs d) ∧
  ((length (sendPriorityCh d) < 64)%nat →
   sendPriorityCh (bridge_finished d b t) =
     sendPriorityCh d ++ [SessionStateUpdate (bSession x) SESSION_STATE_TERMINATED t ""]).
Proof.
  intros Hb. unfold bridge_finished. rewrite Hb. split_and!; [done..|]. intros. by rewrite report_room.
Qed.

(** ** Properties *)

(** C21: Whatever Nexus, the processes, the agents, the
    local terminals, the writer and the clock do, in any order, the daemon
    stops no process: every switch is without a monitor and its process runs or
    has exited. Only a local attach can panic; the queues stay within their
    capacities. Yet SuspendCommand makes the daemon hold and report the session
    as SUSPENDED. *)
Theorem daemon_never_suspends ls :
  (run NewDaemon ls = Panic → ∃ param w, LAttach param w ∈ ls) ∧
  ∀ d, run NewDaemon ls = Ret d →
    (length (sendCh d) ≤ 256)%nat ∧ (length (sendPriorityCh d) ≤ 64)%nat ∧
    (length (agentEventCh d) ≤ 512)%nat ∧
    (∀ p s, objs d !! p = Some s →
       Ring.ring_wf (sRing s) ∧ DMS.monitors (sDMS s) = [] ∧ DMS.stopped (sDMS s) = false) ∧
    (∀ sid p t, sessions d !! sid = Some p →
       let d' := handleSuspendCommand d sid t in
       ∃ s, objs d' !! p = Some s ∧ sID s = sid ∧ sState s = StateSuspended ∧
         DMS.stopped (sDMS s) = false ∧
         ((length (sendPriorityCh d) < 64)%nat →
          last (sendPriorityCh d') = Some (SessionStateUpdate sid SESSION_STATE_SUSPENDED t ""))).
Proof.
  destruct (daemon_run_ok ls NewDaemon NewDaemon_ok) as [Ht Hok]. split.
  { intros E. destruct Ht as [(l & Hl & param & w & ->)|(d' & ?)]; [by eauto|congruence]. }
  intros d Hrun. pose proof (Hok d Hrun) as Hd. pose proof Hd as [Ho Hp ? ? ?].
  split_and!; try done.
  - intros p s Hs. destruct (Ho p s Hs) as [? (? & ? & ?)]. done.
  - intros sid p t Hsid d'. destruct (Hp sid p Hsid) as (s & Hs & Hid).
    exists (with_state s StateSuspended). subst d'. unfold handleSuspendCommand. rewrite Hsid.
    split_and!; try done.
    + simpl. by rewrite modify_objs, decide_True, Hs.
    + apply (Ho p s Hs).
    + intros Hroom. rewrite report_room by (unfold modify; by rewrite Hs). apply last_snoc.
Qed.

(** C18: Reconciliation closes and forgets the
    sessions that are not TERMINATED and that Nexus does not name; every other
    session keeps its place and its state. It does so for any order in which
    the map is walked. *)
Theorem reconciliation_prunes d ids t sid p s (Hok : daemon_ok d)
    (Hsid : sessions d !! sid = Some p) (Hs : objs d !! p = Some s) :
  let d' := handleSessionReconciliation range_map d ids t in
  daemon_ok d' ∧
  if negb (String.eqb (sState s) StateTerminated) && bool_decide (sid ∉ ids)
  then sessions d' !! sid = None ∧ ∃ s', objs d' !! p = Some s' ∧ sClosed s' = true
  else sessions d' !! sid = Some p ∧ objs d' !! p = Some s.
Proof.
  intros d'. subst d'. unfold handleSessionReconciliation.
  split; [exact (handleNexusMessage_ok d (SessionReconciliation ids) (mkSpawn t "" "" "" None) Starts Hok)|].
  assert (is_orphan d ids (sid, p) = negb (String.eqb (sState s) StateTerminated) && bool_decide (sid ∉ ids))
    as E by (unfold is_orphan; simpl; by rewrite Hs).
  rewrite <- E. rewrite prunes_sessions. destruct (is_orphan d ids (sid, p)) eqn:Ho.
  - assert (sid ∈ orphans range_map d ids) as Hin by (apply elem_of_orphans; eauto).
    rewrite decide_True by done. split; [done|]. by apply (prunes_closed t _ sid).
  - assert (sid ∉ orphans range_map d ids) as Hin.
    { rewrite elem_of_orphans. intros (q & Hq & Hoq). congruence. }
    rewrite decide_False by done. split; [done|]. rewrite prunes_others; [done|done|].
    intros x Hx Hxp. apply Hin. by rewrite (ptr_inj d sid x p Hok Hsid Hxp).
Qed.

(** A session of the control socket is found by its id, or by a prefix of at
    least four characters of some id. If one id is shorter than the parameter,
    and no id begins with it, the daemon panics: an unknown full-length id sent
    while a shorter id exists is such a parameter. Nothing else panics. *)
Theorem find_session_prefix d param :
  (∀ p, sessions d !! param = Some p → find_session range_map d param = Ret (Some p)) ∧
  (sessions d !! param = None → (String.length param < 4)%nat → find_session range_map d param = Ret None) ∧
  (sessions d !! param = None → (4 <= String.length param)%nat →
   match find_session range_map d param with
   | Ret (Some p) => ∃ sid, sessions d !! sid = Some p ∧ String.prefix param sid = true
   | Ret None => ∀ sid, is_Some (sessions d !! sid) → String.prefix param sid = false
   | Panic => ∃ sid, is_Some (sessions d !! sid) ∧ (String.length sid < String.length param)%nat
   end) ∧
  (sessions d !! param = None → (4 <= String.length param)%nat →
   (∀ sid, is_Some (sessions d !! sid) → String.prefix param sid = false) →
   (∃ sid, is_Some (sessions d !! sid) ∧ (String.length sid < String.length param)%nat) →
   find_session range_map d param = Panic).
Proof.
  assert (∀ sid p, (sid, p) ∈ range_map (sessions d) ↔ sessions d !! sid = Some p) as Hin.
  { intros sid p. rewrite range_perm. apply elem_of_map_to_list. }
  unfold find_session.
  split_and!.
  - by intros p ->.
  - intros -> H. generalize (range_map (sessions d)). induction l as [|[x q] l IH]; cbn [partial_match]; [done|].
    apply Nat.leb_gt in H. by rewrite H.
  - intros -> H4. pose proof (partial_match_spec (range_map (sessions d)) param H4) as Hs.
    destruct (partial_match _ _) as [[p|]|].
    + destruct Hs as (sid & ?%Hin & ?). eauto.
    + intros sid [p ?%Hin]. by eapply Hs.
    + destruct Hs as (sid & p & ?%Hin & ?). eauto.
  - intros -> H4 Hno (y & [p Hy%Hin] & Hlt).
    pose proof (partial_match_spec (range_map (sessions d)) param H4) as Hs.
    destruct (partial_match _ _) as [[q|]|]; [| |done].
    + destruct Hs as (sid & Hq%Hin & Hp). by rewrite Hno in Hp by eauto.
    + destruct (Hs y p Hy) as [_ Hle]. lia.
Qed.

(** C40: With DAAO_MAX_SESSIONS = [m] there are never more than [m] entries; at [m],
    StartSession is refused with a TERMINATED report. A session that is
    TERMINATED keeps its place, and counts: no step but a KillCommand for it
    removes it. *)
Theorem session_limit m ls d (Hm : 0 < m)
    (Henv : ∀ msg e dp, LCommand msg e dp ∈ ls → getMaxSessions (max_env e) = m)
    (Hrun : run NewDaemon ls = Ret d) :
  Z.of_nat (size (sessions d)) <= m ∧
  (Z.of_nat (size (sessions d)) = m →
   ∀ sid binary cols rows e, getMaxSessions (max_env e) = m →
     handleStartSessionCommand d sid binary cols rows e =
       report d sid SESSION_STATE_TERMINATED (now e)
         ("satellite session limit reached (max: " +:+ pretty m +:+ ", active: " +:+ pretty m +:+ ")")) ∧
  ∀ l d' sid p s, step d l = Ret d' → sessions d !! sid = Some p → objs d !! p = Some s →
    sState s = StateTerminated →
    (∀ code e dp, l ≠ LCommand (KillCommand sid code) e dp) → is_Some (sessions d' !! sid).
Proof.
  assert (daemon_ok d) as Hok by (by eapply (daemon_run_ok ls NewDaemon NewDaemon_ok)).
  split_and!.
  - assert (Z.of_nat (size (sessions NewDaemon)) <= m) as H0 by (cbn [sessions NewDaemon]; rewrite map_size_empty; lia).
    revert Hrun H0. clear Hok. generalize NewDaemon as d0.
    induction ls as [|l ls IH]; intros d0; simpl; [by intros [= ->]|].
    destruct (step d0 l) as [d1|] eqn:Hs; [|done]. simpl. intros Hrun H0.
    apply (IH (λ msg e dp Hin, Henv msg e dp (list_elem_of_further _ _ _ Hin)) d1 Hrun).
    apply (step_size m d0 l d1 Hm); [|done|done]. intros msg e dp ->. eapply Henv. by left.
  - intros Hsz sid binary cols rows e He. unfold handleStartSessionCommand, CreateSession.
    rewrite He, Hsz, Z.leb_refl. by destruct (Z.ltb_spec 0 m); [|lia].
  - intros l d' sid p s Hs%step_sessions Hsid Hp Hst Hk.
    destruct l as [msg e dp| | | | | | | | | | | | | |]; try (rewrite Hs; by eauto).
    destruct msg; try (rewrite Hs; by eauto).
    + rewrite Hs, lookup_delete_ne by (intros ->; by eapply Hk). eauto.
    + subst d'. unfold handleStartSessionCommand.
      match goal with |- context [CreateSession ?d ?a ?b ?c ?r ?e] =>
        pose proof (CreateSession_size d a b c r e) as H; destruct (CreateSession d a b c r e) as [d' [q|err]] end;
        simpl in *; destruct H as [->|(_ & _ & H)]; eauto; apply elem_of_dom, H, elem_of_dom; eauto.
    + subst d'. unfold handleSessionReconciliation. rewrite prunes_sessions, decide_False; [by eauto|].
      rewrite elem_of_orphans. intros (q & Hq & Ho). unfold is_orphan in Ho. simplify_eq. simpl in Ho.
      rewrite Hp, Hst in Ho. done.
Qed.

(** The goroutine of a session or agent that was replaced acts by id. When a
    session is started under an id in use, the old process is neither killed
    nor reachable, and its exit makes the new, running session TERMINATED.
    When an agent is deployed again, the old bridge is stopped, and the end of
    its goroutine removes the entry of the new bridge, which runs on. Both are
    reported to Nexus as TERMINATED. *)
Theorem stale_goroutines d (Hok : daemon_ok d) :
  (∀ sid binary cols rows e p0 s0 p1 d1 t,
     sessions d !! sid = Some p0 → objs d !! p0 = Some s0 → sid ≠ ""%string → sExited s0 = false →
     CreateSession d sid binary cols rows e = (d1, Ok p1) →
     (length (sendPriorityCh d1) < 64)%nat →
     sessions d1 !! sid = Some p1 ∧ objs d1 !! p0 = Some s0 ∧
     let d2 := process_exit d1 p0 t in
     (∃ s, objs d2 !! p1 = Some s ∧ sExited s = false ∧ sState s = StateTerminated) ∧
     last (sendPriorityCh d2) = Some (SessionStateUpdate sid SESSION_STATE_TERMINATED t "")) ∧
  (∀ sid b0 stop t0 t,
     bridges d !! sid = Some b0 → bridge_objs d !! b0 = Some (mkBridge sid stop) →
     let d1 := handleDeployAgentCommand d sid Starts t0 in
     (length (sendPriorityCh d1) < 64)%nat →
     ∃ b1, bridges d1 !! sid = Some b1 ∧ bridge_objs d1 !! b0 = Some (mkBridge sid true) ∧
     let d2 := bridge_finished d1 b0 t in
     bridges d2 !! sid = None ∧ bridge_objs d2 !! b1 = Some (mkBridge sid false) ∧
     last (sendPriorityCh d2) = Some (SessionStateUpdate sid SESSION_STATE_TERMINATED t "")).
Proof.
  split.
  - intros sid binary cols rows e p0 s0 p1 d1 t Hsid Hs0 Hne Hx Hc Hroom.
    destruct (d_ptrs d Hok sid p0 Hsid) as (s & E & Hid). assert (s = s0) as -> by congruence. clear E. subst sid.
    unfold CreateSession in Hc. destruct (String.eqb_spec (sID s0) ""); [done|].
    destruct (_ && _); [done|]. destruct (start_error e); [done|]. simplify_eq.
    set (p1 := fresh (dom (objs d))) in *.
    assert (p0 ≠ p1) as Hp by (intros E0; apply (is_fresh (dom (objs d))); fold p1;
                               rewrite <- E0; apply elem_of_dom; eauto).
    match type of Hroom with (length (sendPriorityCh ?d') < _)%nat => set (d1 := d') in * end.
    assert (sessions d1 !! sID s0 = Some p1) as H1 by (simpl; by rewrite lookup_insert_eq).
    assert (objs d1 !! p0 = Some s0) as H2 by (simpl; by rewrite lookup_insert_ne).
    assert (∃ x, objs d1 !! p1 = Some x ∧ sExited x = false) as (x & H3 & H4)
      by (simpl; rewrite lookup_insert_eq; by eauto).
    destruct (process_exit_stale d1 p0 s0 t p1 x H2 Hx H1) as [H5 H6]; [done|done|].
    split; [done|]. split; [done|]. cbn zeta. split; [by exists (with_state x StateTerminated)|].
    rewrite H6 by done. apply last_snoc.
  - intros sid b0 stop t0 t Hb Ho d1 Hroom. set (b1 := fresh (dom (bridge_objs d))).
    assert (b0 ≠ b1) as Hne by (intros E0; apply (is_fresh (dom (bridge_objs d))); fold b1;
                                rewrite <- E0; apply elem_of_dom; eauto).
    assert (bridges d1 = <[sid := b1]> (bridges d)) as H1 by done.
    assert (bridge_objs d1 = <[b1 := mkBridge sid false]> (<[b0 := mkBridge sid true]> (bridge_objs d)))
      as H2 by (subst d1; simpl; unfold stop_bridge; by rewrite Hb, Ho).
    assert (bridge_objs d1 !! b0 = Some (mkBridge sid true)) as H3
      by (by rewrite H2, lookup_insert_ne, lookup_insert_eq).
    destruct (bridge_finished_spec d1 b0 _ t H3) as (E1 & E2 & E3).
    exists b1. split; [by rewrite H1, lookup_insert_eq|]. split; [done|]. cbn zeta.
    rewrite E1, E2, E3, H1, H2 by done. simpl.
    rewrite lookup_delete_eq, lookup_delete_ne, lookup_insert_eq, last_snoc by done. done.
Qed.

(** Between two attempts the daemon sleeps between one and thirty seconds; the
    [i]-th failure in a row, counted from 0, costs 2^i seconds, at most thirty;
    a connection, however short, starts the count again. *)
Theorem backoff_sequence connects n :
  Forall (λ s, ReconnectBaseDelay <= s <= ReconnectMaxDelay) (runGrpcLoop connects) ∧
  length (runGrpcLoop connects) = length connects ∧
  let failures := map (λ i, Z.min (ReconnectBaseDelay * 2 ^ Z.of_nat i) ReconnectMaxDelay) (seq 0 n) in
  runGrpcLoop (replicate n false) = failures ∧
  runGrpcLoop (connects ++ true :: replicate n false) =
    runGrpcLoop connects ++ ReconnectBaseDelay :: failures.
Proof.
  unfold runGrpcLoop.
  assert (∀ cs delay, ReconnectBaseDelay <= delay <= ReconnectMaxDelay →
    Forall (λ s, ReconnectBaseDelay <= s <= ReconnectMaxDelay) (grpc_loop delay cs) ∧
    length (grpc_loop delay cs) = length cs) as Hb.
  { induction cs as [|[] cs IH]; intros delay Hd; simpl; [done| |].
    - destruct (IH ReconnectBaseDelay) as [? ->]; [done|]. split; [by constructor|done].
    - destruct (IH (if ReconnectMaxDelay <? delay * 2 then ReconnectMaxDelay else delay * 2)) as [? ->];
        [|split; [by constructor|done]].
      revert Hd. unfold ReconnectBaseDelay, ReconnectMaxDelay. case_match; lia. }
  assert (∀ n k, grpc_loop (Z.min (ReconnectBaseDelay * 2 ^ Z.of_nat k) ReconnectMaxDelay) (replicate n false) =
    map (λ i, Z.min (ReconnectBaseDelay * 2 ^ Z.of_nat i) ReconnectMaxDelay) (seq k n)) as Hf.
  { clear n. induction n as [|n IH]; intros k; simpl; [done|]. rewrite <- IH. do 2 f_equal.
    rewrite Nat2Z.inj_succ, Z.pow_succ_r by lia. unfold ReconnectBaseDelay, ReconnectMaxDelay.
    case_match; lia. }
  destruct (Hb connects ReconnectBaseDelay) as [? ?]; [done|].
  split_and!; try done.
  - apply (Hf n O).
  - assert (∀ cs delay, grpc_loop delay (cs ++ true :: replicate n false) =
      grpc_loop delay cs ++ ReconnectBaseDelay :: grpc_loop ReconnectBaseDelay (replicate n false)) as Ha.
    { induction cs as [|[] cs IH]; intros delay; simpl; by rewrite ?IH. }
    rewrite Ha. do 2 f_equal. apply (Hf n O).
Qed.
End System.

(** ** Examples *)

Definition walk (m : gmap string N) : list (string * N) := map_to_list m.
Lemma walk_perm m : walk m ≡ₚ map_to_list m.
Proof. done. Qed.

Definition demo_spawn : spawn := mkSpawn 100 "1" "" "new" None.
Definition demo_sess (id : string) (st : SessionState) : Sess :=
  mkSess id "bash" st (Ring.mkRingBuffer [65; 0; 0; 0] 1 1 4)
    (DMS.NewDeadManSwitch (dms_config demo_spawn) (Ok st) 100) [] (80, 24) [] false false.
Definition demo : Daemon :=
  mkDaemon {[ "session-a" := 0%N; "b" := 1%N ]}
    {[ 0%N := demo_sess "session-a" StateRunning; 1%N := demo_sess "b" StateTerminated ]}
    {[ "agent" := 0%N ]} {[ 0%N := mkBridge "agent" false ]} [] [] [] [].

Lemma demo_ok : daemon_ok demo.
Proof.
  assert (∀ id st, sess_ok (demo_sess id st)) as H.
  { intros id st. split; [|by repeat split]. by split. }
  split; simpl; try lia.
  - by intros p s [[<- <-]|[_ [<- <-]%lookup_singleton_Some]]%lookup_insert_Some.
  - intros sid p [[<- <-]|[_ [<- <-]%lookup_singleton_Some]]%lookup_insert_Some; eauto.
Qed.

Example getMaxSessions_1 : map getMaxSessions [""; "8"; "0"; "x"; "3 sessions"] = [0; 8; 0; 0; 3].
Proof. reflexivity. Qed.
Example getDMSTTL_1 : map getDMSTTL [""; "-5"; "99999999999999999999"; "15"] = [60; 60; 60; 15].
Proof. reflexivity. Qed.
Example runGrpcLoop_1 :
  map (λ s, s / 1000000000) (runGrpcLoop [false; false; true; false; false; false; false; false; false; false]) =
    [1; 2; 1; 1; 2; 4; 8; 16; 30; 30].
Proof. reflexivity. Qed.

Definition demo_start : label :=
  LCommand (StartSessionCommand "s" "bash" [] 80 24 "") demo_spawn Starts.

Example daemon_never_suspends_witness :
  ∃ d, run walk NewDaemon [demo_start] = Ret d ∧ (length (sendPriorityCh d) < 64)%nat ∧
    last (sendPriorityCh (handleSuspendCommand d "s" 101)) =
      Some (SessionStateUpdate "s" SESSION_STATE_SUSPENDED 101 "").
Proof.
  eexists. split; [reflexivity|]. split; [apply Nat.ltb_lt; reflexivity|].
  destruct (daemon_never_suspends walk [demo_start]) as [_ H].
  destruct (H _ eq_refl) as (_ & _ & _ & _ & H5).
  destruct (H5 "s" 0%N 101 eq_refl) as (s & _ & _ & _ & _ & H6). apply H6. apply Nat.ltb_lt. reflexivity.
Defined.

Example reconciliation_prunes_witness :
  let d' := handleSessionReconciliation walk demo [] 101 in
  sessions d' !! "session-a" = None ∧ sessions d' !! "b" = Some 1%N.
Proof.
  split.
  - apply (reconciliation_prunes walk walk_perm demo [] 101 "session-a" 0%N
             (demo_sess "session-a" StateRunning) demo_ok eq_refl eq_refl).
  - apply (reconciliation_prunes walk walk_perm demo [] 101 "b" 1%N
             (demo_sess "b" StateTerminated) demo_ok eq_refl eq_refl).
Defined.

Example find_session_prefix_witness :
  find_session walk demo "session-a" = Ret (Some 0%N) ∧ find_session walk demo "ses" = Ret None ∧
  find_session walk demo "other-session" = Panic.
Proof.
  split_and!.
  - destruct (find_session_prefix walk walk_perm demo "session-a") as [H _]. by apply H.
  - destruct (find_session_prefix walk walk_perm demo "ses") as (_ & H & _).
    apply H; [reflexivity|apply Nat.ltb_lt; reflexivity].
  - destruct (find_session_prefix walk walk_perm demo "other-session") as (_ & _ & _ & H).
    apply H; [reflexivity|apply Nat.leb_le; reflexivity| |].
    + intros sid [p Hp]. unfold demo in Hp. simpl in Hp.
      apply lookup_insert_Some in Hp as [[<- _]|[_ Hp]]; [reflexivity|].
      by apply lookup_singleton_Some in Hp as [<- _].
    + exists "b". split; [by eexists|apply Nat.ltb_lt; reflexivity].
Defined.

Example session_limit_witness :
  ∃ d, run walk NewDaemon [demo_start] = Ret d ∧ Z.of_nat (size (sessions d)) <= 1.
Proof.
  assert (∀ d, run walk NewDaemon [demo_start] = Ret d → Z.of_nat (size (sessions d)) <= 1) as H.
  { intros d Hd. refine (proj1 (session_limit walk walk_perm 1 [demo_start] d _ _ Hd)); [lia|].
    intros msg e dp H. apply list_elem_of_singleton in H. injection H as -> -> ->. reflexivity. }
  destruct (run walk NewDaemon [demo_start]) as [d|] eqn:E; [|discriminate E].
  exists d. split; [reflexivity|]. by apply H.
Defined.

Example stale_goroutines_witness :
  let d1 := handleDeployAgentCommand demo "agent" Starts 100 in
  bridges (bridge_finished d1 0%N 101) !! "agent" = None ∧
  let c := CreateSession demo "session-a" "bash" 80 24 (mkSpawn 100 "" "" "" None) in
  ∃ s, objs (process_exit c.1 0%N 101) !! 2%N = Some s ∧ sExited s = false ∧ sState s = StateTerminated.
Proof.
  destruct (stale_goroutines demo demo_ok) as [H1 H2]. split.
  - destruct (H2 "agent" 0%N false 100 101 eq_refl eq_refl) as (b1 & _ & _ & H & _); [apply Nat.ltb_lt; reflexivity|].
    exact H.
  - edestruct (H1 "session-a" "bash" 80 24 (mkSpawn 100 "" "" "" None) 0%N
               (demo_sess "session-a" StateRunning)) as (_ & _ & H & _);
      [reflexivity|reflexivity|done|reflexivity|reflexivity|apply Nat.ltb_lt; reflexivity|exact H].
Defined.

End Daemon.
