(* ===== verification/Attach.v ===== *)
(** * src/cmd/daao/control.go and sessions.go: a local terminal on a session

    Both ends of the control socket for daao attach: the server takes a snapshot of the
    scrollback, sends it after a line of JSON and then becomes a client of the session's
    output; the terminal shows the snapshot and what follows. The two ends, the goroutine that
    forwards the output of the PTY and the socket between them are a transition system; the
    socket holds at most [room] bytes, and a write to it blocks. Then the table of
    daao sessions. *)
From Stdlib Require Import Ascii String.
From S2P Require Import Prelude GoStrings RingBuffer.
#[local] Open Scope Z_scope.
#[local] Set Default Proof Using "Type".

Module Attach.

Definition newline : Z := 10.
(** Ctrl+\ *)
Definition detach_key : Z := 28.

(** ** What the terminal makes of the bytes of the socket *)

(** The line of JSON, then as many bytes as it says, shown when they are all there, then everything. *)
Inductive client := CLine (acc : list Z) | CHydrate (need : nat) (got : list Z) | CStream | CFailed.

Section Attach.
(** json.Marshal of the response and its counterpart: the session and the length of the scrollback. *)
Variable marshal : string → nat → list Z.
Variable unmarshal : list Z → option (string * nat).
(** The bytes that the socket holds. *)
Variable room : nat.

Definition after_line (line : list Z) : client :=
  match unmarshal line with
  | None => CFailed
  | Some (_, n) => if (0 <? n)%nat then CHydrate n [] else CStream
  end.
Definition feed (c : client * list Z) (b : Z) : client * list Z :=
  match c with
  | (CLine acc, out) => if b =? newline then (after_line acc, out) else (CLine (acc ++ [b]), out)
  | (CHydrate need got, out) => if (length got + 1 <? need)%nat then (CHydrate need (got ++ [b]), out) else (CStream, out ++ got ++ [b])
  | (CStream, out) => (CStream, out ++ [b])
  | (CFailed, out) => (CFailed, out)
  end.
Definition shows (l : list Z) : client * list Z := foldl feed (CLine [], []) l.

(** ** Both ends *)

(** forwardPtyOutput: it reads, writes to the ring, and hands the chunk to the terminal if there
    is one; only then the chunk goes to Nexus. *)
Inductive fwd := FIdle | FWritten (data : list Z) | FFanning (rest data : list Z).
(** handleAttachSession: before the request, writing its answer, waiting for what is typed, gone. *)
Inductive srv := SIdle | SWriting (rest : list Z) | SBridge | SGone.

Record State := mkState {
  ring : Ring.RingBuffer; forwarder : fwd; server : srv; nexus : list Z;
  wire : list Z;                                (* from the server to the terminal *)
  read : list Z;                                (* what the terminal has read *)
  typed : list Z; up : list Z; pty : list Z;    (* what was typed, is on its way, has come to the PTY *)
  closed : bool;                                (* the connection, by either end *)
  written : list (list Z); fanned : nat; at_snapshot : nat; at_register : nat; snapshot : list Z;   (* history *)
}.
Definition set_forwarder s f := mkState (ring s) f (server s) (nexus s) (wire s) (read s) (typed s) (up s) (pty s) (closed s) (written s) (fanned s) (at_snapshot s) (at_register s) (snapshot s).
Definition set_server s v := mkState (ring s) (forwarder s) v (nexus s) (wire s) (read s) (typed s) (up s) (pty s) (closed s) (written s) (fanned s) (at_snapshot s) (at_register s) (snapshot s).
Definition set_nexus s n := mkState (ring s) (forwarder s) (server s) n (wire s) (read s) (typed s) (up s) (pty s) (closed s) (written s) (fanned s) (at_snapshot s) (at_register s) (snapshot s).
Definition set_wire s w := mkState (ring s) (forwarder s) (server s) (nexus s) w (read s) (typed s) (up s) (pty s) (closed s) (written s) (fanned s) (at_snapshot s) (at_register s) (snapshot s).
Definition set_read s r := mkState (ring s) (forwarder s) (server s) (nexus s) (wire s) r (typed s) (up s) (pty s) (closed s) (written s) (fanned s) (at_snapshot s) (at_register s) (snapshot s).
Definition set_input s t u p := mkState (ring s) (forwarder s) (server s) (nexus s) (wire s) (read s) t u p (closed s) (written s) (fanned s) (at_snapshot s) (at_register s) (snapshot s).
Definition close s := mkState (ring s) (forwarder s) (server s) (nexus s) (wire s) (read s) (typed s) (up s) (pty s) true (written s) (fanned s) (at_snapshot s) (at_register s) (snapshot s).
Definition set_written s r w := mkState r (forwarder s) (server s) (nexus s) (wire s) (read s) (typed s) (up s) (pty s) (closed s) w (fanned s) (at_snapshot s) (at_register s) (snapshot s).
Definition set_fanned s n := mkState (ring s) (forwarder s) (server s) (nexus s) (wire s) (read s) (typed s) (up s) (pty s) (closed s) (written s) n (at_snapshot s) (at_register s) (snapshot s).
Definition set_snapshot s h := mkState (ring s) (forwarder s) (server s) (nexus s) (wire s) (read s) (typed s) (up s) (pty s) (closed s) (written s) (fanned s) (length (written s)) (at_register s) h.
Definition set_register s := mkState (ring s) (forwarder s) (server s) (nexus s) (wire s) (read s) (typed s) (up s) (pty s) (closed s) (written s) (fanned s) (at_snapshot s) (fanned s) (snapshot s).

Definition registered (s : State) : bool := match server s with SBridge => true | _ => false end.

Inductive label :=
  | LOutput (data : list Z)        (* the forwarder reads from the PTY and writes to the ring *)
  | LFan                           (* it takes the list of local clients *)
  | LFanWrite (n : nat)            (* w.Write: n more bytes fit into the socket *)
  | LForward                       (* the write is over, or fails: the chunk goes to Nexus *)
  | LAttach (sid : string)         (* the request arrives: snapshot and answer *)
  | LServerWrite (n : nat)
  | LRegister                      (* addLocalClient *)
  | LRead (n : nat)                (* the terminal reads *)
  | LType (data : list Z)          (* stdin of the terminal *)
  | LInput (n : nat) (ok : bool)   (* the server reads what was typed and writes it to the PTY *)
  | LEnd.                          (* the server sees that the terminal has closed *)

Definition put (s : State) (l : list Z) (n : nat) : option (State * list Z) :=
  if decide (0 < n ≤ length l ∧ length (wire s) + n ≤ room)%nat then Some (set_wire s (wire s ++ take n l), drop n l) else None.

(** [None]: the step is not possible in the state. *)
Definition step (s : State) (a : label) : option State :=
  match a with
  | LOutput data =>
      match forwarder s, data with
      | FIdle, _ :: _ =>
          match Ring.Write (ring s) data with
          | Ret (r, _) => Some (set_forwarder (set_written s r (written s ++ [data])) (FWritten data))
          | Panic => None
          end
      | _, _ => None
      end
  | LFan =>
      match forwarder s with
      | FWritten data => Some (set_fanned (set_forwarder s (FFanning (if registered s then data else []) data)) (S (fanned s)))
      | _ => None
      end
  | LFanWrite n =>
      match forwarder s with
      | FFanning rest data => if closed s then None else '(s1, rest1) ← put s rest n; Some (set_forwarder s1 (FFanning rest1 data))
      | _ => None
      end
  | LForward =>
      match forwarder s with
      | FFanning rest data => if closed s || bool_decide (rest = []) then Some (set_nexus (set_forwarder s FIdle) (nexus s ++ data)) else None
      | _ => None
      end
  | LAttach sid =>
      match server s with
      | SIdle => match Ring.Snapshot (ring s) with
                 | Ret h => Some (set_server (set_snapshot s h) (SWriting (marshal sid (length h) ++ [newline] ++ h)))
                 | Panic => None
                 end
      | _ => None
      end
  | LServerWrite n =>
      match server s with
      | SWriting rest => if closed s then Some (set_server s SGone) else '(s1, rest1) ← put s rest n; Some (set_server s1 (SWriting rest1))
      | _ => None
      end
  | LRegister => match server s with SWriting [] => Some (set_server (set_register s) SBridge) | _ => None end
  | LRead n =>
      if closed s then None else
      if decide (0 < n ≤ length (wire s))%nat then Some (set_read (set_wire s (drop n (wire s))) (read s ++ take n (wire s))) else None
  | LType data =>
      if closed s then None else
      if bool_decide (detach_key ∈ data) then Some (close s) else Some (set_input s (typed s ++ data) (up s ++ data) (pty s))
  | LInput n ok =>
      match server s with
      | SBridge => if decide (0 < n ≤ length (up s))%nat then
          if ok then Some (set_input s (typed s) (drop n (up s)) (pty s ++ take n (up s)))
          else Some (close (set_server s SGone))
          else None
      | _ => None
      end
  | LEnd => match server s with SBridge => if closed s then Some (set_server s SGone) else None | _ => None end
  end.
Definition run (s : State) (l : list label) : option State := foldl (λ o a, o ≫= λ s, step s a) (Some s) l.
Definition init (r : Ring.RingBuffer) : State := mkState r FIdle SIdle [] [] [] [] [] [] false [] 0 0 0 [].

(** ** What the terminal shows *)

Lemma feed_stream out l : foldl feed (CStream, out) l = (CStream, out ++ l).
Proof. revert out. induction l as [|b l IH]; intros out; cbn [foldl feed]; [by rewrite app_nil_r|]. rewrite IH. by rewrite <-(assoc_L (++)). Qed.
Lemma feed_line acc out l : newline ∉ l → foldl feed (CLine acc, out) l = (CLine (acc ++ l), out).
Proof.
  revert acc. induction l as [|b l IH]; intros acc Hl; cbn [foldl feed]; [by rewrite app_nil_r|]. destruct (Z.eqb_spec b newline) as [->|]; [set_solver|].
  rewrite IH by set_solver. by rewrite <-(assoc_L (++)).
Qed.
Lemma feed_hydrate n got out l : l ≠ [] → (length got + length l = n)%nat → foldl feed (CHydrate n got, out) l = (CStream, out ++ got ++ l).
Proof.
  revert got. induction l as [|b l IH]; intros got Hne Hl; [done|]. cbn [foldl feed length] in *. destruct (Nat.ltb_spec (length got + 1) n).
  - destruct l; [cbn in Hl; lia|]. rewrite IH; [by rewrite <-(assoc_L (++))|done|]. rewrite length_app. cbn in *. lia.
  - destruct l; [done|cbn in Hl; lia].
Qed.
Lemma feed_mono c l : ∃ x, (foldl feed c l).2 = c.2 ++ x.
Proof.
  revert c. induction l as [|b l IH]; intros c; cbn [foldl]; [exists []; by rewrite app_nil_r|]. destruct (IH (feed c b)) as [x ->].
  assert (∃ y, (feed c b).2 = c.2 ++ y) as [y ->]; [|by exists (y ++ x); rewrite <-(assoc_L (++))].
  destruct c as [[acc|n got| |] out]; cbn; repeat case_match; cbn; first [exists []; by rewrite app_nil_r | eexists; reflexivity].
Qed.
Lemma shows_prefix l l' : (shows l).2 `prefix_of` (shows (l ++ l')).2.
Proof. unfold shows. rewrite foldl_app. destruct (feed_mono (foldl feed (CLine [], []) l) l') as [x ->]. by exists x. Qed.

Hypothesis marshal_line : ∀ sid n, newline ∉ marshal sid n.
Hypothesis unmarshal_marshal : ∀ sid n, unmarshal (marshal sid n) = Some (sid, n).

Definition answer (sid : string) (h : list Z) : list Z := marshal sid (length h) ++ [newline] ++ h.
(** What is still to go into the socket. *)
Definition pending (s : State) : list Z :=
  match server s, forwarder s with SWriting rest, _ => rest | SBridge, FFanning rest _ => rest | _, _ => [] end.
Definition live (s : State) : list Z :=
  match server s with SBridge => mjoin (drop (at_register s) (take (fanned s) (written s))) | _ => [] end.
Record inv (r0 : Ring.RingBuffer) (s : State) : Prop := mkInv {
  i_ring : Ring.write_bytes r0 (mjoin (written s)) = Ret (ring s);
  i_fanned : match forwarder s with FWritten d => ∃ w, written s = w ++ [d] ∧ fanned s = length w | FIdle => fanned s = length (written s)
             | FFanning rest d => fanned s = length (written s) ∧ last (written s) = Some d ∧ (registered s = false → closed s = false → rest = []) end;
  i_server : match server s with
    | SIdle => read s = [] ∧ wire s = []
    | SWriting _ => at_snapshot s ≤ S (fanned s)
    | SBridge => at_snapshot s ≤ S (at_register s) ∧ at_register s ≤ fanned s
    | SGone => True end%nat;
  i_snapshot : match server s with SIdle => True | _ => at_snapshot s ≤ length (written s) ∧
    ∃ r, Ring.write_bytes r0 (mjoin (take (at_snapshot s) (written s))) = Ret r ∧ Ring.Snapshot r = Ret (snapshot s) end%nat;
  i_stream : closed s = false → match server s with SIdle | SGone => True | _ => ∃ sid, read s ++ wire s ++ pending s = answer sid (snapshot s) ++ live s end;
  i_open : server s = SGone → closed s = true;
}.

Lemma write_bytes_app r p q : Ring.write_bytes r (p ++ q) = match Ring.write_bytes r p with Ret r' => Ring.write_bytes r' q | Panic => Panic end.
Proof. revert r. induction p as [|b p IH]; intros r; cbn; [done|]. destruct (Ring.write_byte r b); cbn; [|done]. apply IH. Qed.
Lemma Write_Ret r p r' n : Ring.Write r p = Ret (r', n) → Ring.write_bytes r p = Ret r'.
Proof.
  unfold Ring.Write. destruct (Z.eqb_spec (Z.of_nat (length p)) 0) as [Hp|_].
  - intros [= <- <-]. by destruct p.
  - destruct (Ring.write_bytes r p); cbn; [|done]. by intros [= <- <-].
Qed.
Lemma put_Some s l n s1 rest : put s l n = Some (s1, rest) → s1 = set_wire s (wire s ++ take n l) ∧ rest = drop n l ∧ (length (wire s) + n ≤ room)%nat ∧ (0 < n ≤ length l)%nat.
Proof. unfold put. destruct (decide _); [|done]. intros [= <- <-]. naive_solver. Qed.
Lemma init_inv r0 : inv r0 (init r0).
Proof. by split. Qed.

Ltac keep_fan := unfold registered in *; cbn in *; repeat match goal with E : server _ = _ |- _ => rewrite E in *; clear E end;
  match goal with |- context [match forwarder ?s with _ => _ end] => destruct (forwarder s); [done|done|] end; naive_solver.
Lemma attach_step_inv r0 s a s' : inv r0 s → step s a = Some s' → inv r0 s'.
Proof.
  intros [Hr Hf Hs Hsn Hst Ho]. destruct a as [data| |n| |sid|n| |n|data|n ok|]; cbn [step].
  - destruct (forwarder s) eqn:Ef; [|done..]. destruct data as [|b data]; [done|]. destruct (Ring.Write _ _) as [[r z]|] eqn:Ew; [|done]. intros [= <-].
    apply Write_Ret in Ew. split; cbn; try (first [done|by intros ?%Ho; congruence|keep_fan]).
    + rewrite join_app. cbn. rewrite app_nil_r, write_bytes_app, Hr. done.
    + by exists (written s).
    + destruct (server s); [done|..]; destruct Hsn as [Hle (r1 & H1 & H2)]; rewrite length_app; (split; [lia|]); exists r1;
        rewrite take_app_le by done; done.
    + intros Hc. specialize (Hst Hc). unfold pending, live in *. cbn. rewrite Ef in Hst. destruct (server s); try done. destruct Hst as [sid E].
      exists sid. rewrite E. do 3 f_equal. rewrite take_app_le by lia. done.
  - destruct (forwarder s) as [|d|] eqn:Ef; [done| |done]. intros [= <-]. destruct Hf as (w & Hw & Hn). split; cbn; try (first [done|by intros ?%Ho; congruence|keep_fan]).
    + rewrite Hn, Hw. split_and!; [by rewrite length_app; cbn; lia|by rewrite last_snoc|]. unfold registered. cbn. by intros ->.
    + destruct (server s); try done; lia.
    + intros Hc. specialize (Hst Hc). unfold pending, live, registered in *. cbn. rewrite Ef in Hst. destruct (server s); try done.
      destruct Hst as [sid E]. exists sid. rewrite app_nil_r in E. rewrite !(assoc_L (++)), E. rewrite <-!(assoc_L (++)). do 3 f_equal.
      destruct Hs as [_ Hle]. rewrite Hn, Hw in *. rewrite take_app_length. replace (S (length w)) with (length (w ++ [d])) by (rewrite length_app; cbn; lia).
      rewrite firstn_all, drop_app_le by lia. rewrite join_app. cbn. by rewrite app_nil_r.
  - destruct (forwarder s) as [| |rest d] eqn:Ef; [done..|]. destruct (closed s) eqn:Ec; [done|]. destruct (put s rest n) as [[s1 rest1]|] eqn:Ep; [|done]. cbn.
    intros [= <-]. apply put_Some in Ep as (-> & -> & Hroom & Hn). destruct Hf as (Hf1 & Hf2 & Hf3). split; cbn; try (first [done|by intros ?%Ho; congruence|keep_fan]).
    + split_and!; [done..|]. intros Hg _. rewrite (Hf3 Hg) by done. by rewrite drop_nil.
    + destruct (server s) eqn:Es; try done. unfold registered in Hf3. rewrite Es in Hf3. rewrite (Hf3 eq_refl eq_refl) in Hn. cbn in Hn. lia.
    + intros _. specialize (Hst eq_refl). unfold pending, live, registered in *. cbn. rewrite Ef in Hst. destruct (server s); try done.
      * rewrite (Hf3 eq_refl eq_refl) in Hn. cbn in Hn. lia.
      * destruct Hst as [sid E]. exists sid. rewrite <-E. f_equal. rewrite <-(assoc_L (++)). by rewrite take_drop.
  - destruct (forwarder s) as [| |rest d] eqn:Ef; [done..|]. destruct (closed s || bool_decide (rest = [])) eqn:Ec; [|done]. intros [= <-].
    destruct Hf as (Hf1 & Hf2 & Hf3). split; cbn; try (first [done|by intros ?%Ho; congruence|keep_fan]). intros Hc. specialize (Hst Hc). rewrite Hc in Ec. cbn in Ec. apply bool_decide_eq_true in Ec as ->.
    unfold pending, live in *. cbn. rewrite Ef in Hst. by destruct (server s).
  - destruct (server s) eqn:Es; [|done..]. destruct (Ring.Snapshot (ring s)) as [h|] eqn:Eh; [|done]. intros [= <-]. destruct Hs as [Hrd Hw]. split; cbn; try (first [done|by intros ?%Ho; congruence|keep_fan]).
    + destruct (forwarder s); [lia| |lia]. destruct Hf as (w & -> & ->). rewrite length_app. cbn. lia.
    + split; [done|]. exists (ring s). by rewrite firstn_all.
    + intros _. exists sid. unfold pending, live. cbn. rewrite Hrd, Hw. by rewrite app_nil_r.
  - destruct (server s) as [|rest| |] eqn:Es; [done| |done..]. destruct (closed s) eqn:Ec.
    + intros [= <-]. split; cbn; try (first [done|by intros ?%Ho; congruence|keep_fan]).
    + destruct (put s rest n) as [[s1 rest1]|] eqn:Ep; [|done]. cbn. intros [= <-]. apply put_Some in Ep as (-> & -> & Hroom & Hn). split; cbn; try (first [done|by intros ?%Ho; congruence|keep_fan]).
      * intros _. specialize (Hst eq_refl). unfold pending, live in *. cbn. rewrite Es in Hst. destruct Hst as [sid E]. exists sid. rewrite <-E. f_equal.
        rewrite <-(assoc_L (++)). by rewrite take_drop.
  - destruct (server s) as [|rest| |] eqn:Es; [done| |done..]. destruct rest; [|done]. intros [= <-]. split; cbn; try (first [done|by intros ?%Ho; congruence|keep_fan]).
    + intros Hc. specialize (Hst Hc). unfold pending, live in *. cbn. rewrite Es in Hst. destruct Hst as [sid E]. exists sid.
      rewrite drop_ge by (rewrite length_take; lia). cbn. rewrite <-E. do 2 f_equal. destruct (forwarder s) as [| |rest d] eqn:Ef; try done.
      destruct Hf as (_ & _ & Hf). unfold registered in Hf. rewrite Es in Hf. by apply Hf.
  - destruct (closed s) eqn:Ec; [done|]. destruct (decide _) as [Hn|]; [|done]. intros [= <-]. split; cbn; try (first [done|by intros ?%Ho; congruence|keep_fan]).
    + destruct (server s) eqn:Es; try done. destruct Hs as [_ Hs]. rewrite Hs in Hn. cbn in Hn. lia.
    + intros _. specialize (Hst eq_refl). unfold pending, live in *. cbn. destruct (server s); try done; destruct Hst as [sid E]; exists sid; rewrite <-E, <-(assoc_L (++)); f_equal;
        rewrite (assoc_L (++)); by rewrite take_drop.
  - destruct (closed s) eqn:Ec; [done|]. destruct (bool_decide _).
    + intros [= <-]. split; cbn; try (first [done|by intros ?%Ho; congruence|keep_fan]).
    + intros [= <-]. split; cbn; try (first [done|by intros ?%Ho; congruence|keep_fan]). by rewrite Ec in *.
  - destruct (server s) eqn:Es; [done..| |done]. destruct (decide _); [|done]. destruct ok; intros [= <-].
    + split; cbn; try done; unfold registered, pending, live in *; cbn; by rewrite Es in *.
    + split; cbn; try (first [done|by intros ?%Ho; congruence|keep_fan]).
  - destruct (server s) eqn:Es; [done..| |done]. destruct (closed s) eqn:Ec; [|done]. intros [= <-]. split; cbn; try (first [done|by intros ?%Ho; congruence|keep_fan]).
Qed.

Lemma run_step s a ls s' : run s (a :: ls) = Some s' ↔ ∃ s1, step s a = Some s1 ∧ run s1 ls = Some s'.
Proof.
  unfold run. cbn. destruct (step s a) as [s1|]; [naive_solver|]. split; [|naive_solver]. intros H. exfalso. revert H. clear. induction ls; done.
Qed.
Lemma attach_run_inv r0 s ls s' : inv r0 s → run s ls = Some s' → inv r0 s'.
Proof.
  revert s. induction ls as [|a ls IH]; intros s Hi; [by intros [= <-]|]. intros (s1 & H1 & H2)%run_step. apply (IH s1); [by eapply attach_step_inv|done].
Qed.

Lemma shows_answer sid h l : shows (answer sid h ++ l) = (CStream, h ++ l).
Proof using marshal_line unmarshal_marshal.
  unfold shows, answer. rewrite <-!(assoc_L (++)), !foldl_app, feed_line by done. cbn [foldl feed app]. rewrite Z.eqb_refl. unfold after_line. rewrite unmarshal_marshal.
  destruct (Nat.ltb_spec 0 (length h)) as [Hl|Hl]; [|destruct h; [|cbn in Hl; lia]; cbn; by rewrite feed_stream].
  rewrite feed_hydrate; [by rewrite feed_stream|intros ->; cbn in Hl; lia|done].
Qed.
(** C27: a terminal that attaches shows the scrollback and what comes after it, nothing else: at any time what
    it shows is the beginning of the snapshot (the ring as it was after the first [at_snapshot] chunks)
    followed by the chunks from [at_register] on, and all of that once everything is delivered. Where the
    two agree nothing is missing. But the two moments are not one: the output that comes while the
    snapshot is sent is lost to the terminal, and a chunk that the forwarder has written to the ring, but not
    yet handed on, is shown twice. *)
Theorem attach_window r0 ls s : run (init r0) ls = Some s → server s = SBridge → closed s = false →
  (shows (read s)).2 `prefix_of` snapshot s ++ mjoin (drop (at_register s) (written s)) ∧
  (wire s = [] → forwarder s = FIdle → (shows (read s)).2 = snapshot s ++ mjoin (drop (at_register s) (written s))) ∧
  (at_snapshot s ≤ S (at_register s))%nat ∧
  (∃ r, Ring.write_bytes r0 (mjoin (take (at_snapshot s) (written s))) = Ret r ∧ Ring.Snapshot r = Ret (snapshot s)).
Proof using marshal_line unmarshal_marshal.
  intros Hrun Hsrv Hopen. pose proof (attach_run_inv r0 _ _ _ (init_inv r0) Hrun) as [Hr Hf Hs Hsn Hst Ho]. specialize (Hst Hopen). rewrite Hsrv in *.
  destruct Hst as [sid E]. destruct Hs as [Hw Hle]. destruct Hsn as [_ Hsn]. unfold live, pending in E. rewrite Hsrv in E.
  assert ((shows (answer sid (snapshot s) ++ mjoin (drop (at_register s) (take (fanned s) (written s))))).2 =
    snapshot s ++ mjoin (drop (at_register s) (take (fanned s) (written s)))) as Ha by by rewrite shows_answer.
  split_and!; [| |done|done].
  - etrans; [|assert (snapshot s ++ mjoin (drop (at_register s) (take (fanned s) (written s))) `prefix_of` snapshot s ++ mjoin (drop (at_register s) (written s))) as Hp]; [| |exact Hp].
    + rewrite <-Ha, <-E. apply shows_prefix.
    + apply prefix_app. destruct (decide (fanned s ≤ length (written s))%nat) as [Hl|Hl]; [|by rewrite take_ge by lia].
      rewrite <-(take_drop (fanned s) (written s)) at 2. rewrite drop_app_le by (rewrite length_take; lia). rewrite join_app. by eexists.
  - intros Hwire Hfwd. rewrite Hfwd in *. rewrite Hwire, !app_nil_r in E. rewrite E, Ha, Hf. by rewrite firstn_all.
Qed.

(** where nothing came between the snapshot and the registration, and the ring had room, the terminal
    shows all the output there ever was. *)
Theorem attach_complete c ls s : 0 < c → run (init (Ring.NewRingBuffer c)) ls = Some s → server s = SBridge → closed s = false →
  at_register s = at_snapshot s → Z.of_nat (length (mjoin (written s))) <= c → wire s = [] → forwarder s = FIdle →
  (shows (read s)).2 = mjoin (written s).
Proof using marshal_line unmarshal_marshal.
  intros Hc Hrun Hsrv Hopen Heq Hroom Hwire Hfwd. pose proof (attach_run_inv _ _ _ _ (init_inv (Ring.NewRingBuffer c)) Hrun) as [Hr Hf Hs Hsn Hst Ho].
  specialize (Hst Hopen). rewrite Hsrv in *. destruct Hst as [sid E]. destruct Hsn as [Hle (r & Hw & Hsnap)]. unfold live, pending in E. rewrite Hsrv, Hfwd in E.
  rewrite Hfwd in Hf. rewrite Hwire, !app_nil_r, Hf, firstn_all in E. rewrite E, shows_answer. cbn [snd]. rewrite Heq.
  assert (Ring.ring_wf (Ring.NewRingBuffer c)) as Hwf by apply Ring.NewRingBuffer_wf.
  assert (mjoin (take (at_snapshot s) (written s)) ++ mjoin (drop (at_snapshot s) (written s)) = mjoin (written s)) as Hj by (rewrite <-join_app; by rewrite take_drop).
  assert (Ring.len (Ring.NewRingBuffer c) = 0 ∧ Ring.cap (Ring.NewRingBuffer c) = c) as [Hl0 Hc0] by (unfold Ring.NewRingBuffer; destruct (Z.leb_spec c 0); [lia|done]).
  destruct (Ring.write_bytes_room (mjoin (take (at_snapshot s) (written s))) _ Hwf) as (r' & Hw' & Hwf' & Hcont).
  { rewrite Hl0, Hc0. rewrite <-Hj, length_app in Hroom. lia. }
  rewrite Hw in Hw'. injection Hw' as <-. rewrite (Ring.Snapshot_contents _ Hwf') in Hsnap. injection Hsnap as <-. rewrite Hcont.
  assert (Ring.contents (Ring.NewRingBuffer c) = []) as -> by (unfold Ring.contents; by rewrite Hl0). exact Hj.
Qed.

(** *** A terminal that does not read *)

Lemma open_before s a s' : step s a = Some s' → closed s' = false → closed s = false.
Proof using Type.
  intros H Hc. apply not_true_iff_false. intros Ec. destruct a; cbn [step] in H; rewrite ?Ec in H; repeat (case_match; try done); simplify_eq/=; try congruence;
    destruct (put _ _ _) as [[]|] eqn:Hp; try done; cbn in H; injection H as <-; apply put_Some in Hp as (-> & _); cbn in *; congruence.
Qed.
Lemma run_closed s ls s' : run s ls = Some s' → closed s' = false → closed s = false.
Proof using Type.
  revert s. induction ls as [|a ls IH]; intros s; [by intros [= <-]|]. intros (s1 & H1 & H2)%run_step Hc. eapply open_before; [done|]. by apply IH.
Qed.
Definition stuck (s0 s : State) : Prop := server s = SBridge ∧ ∃ x y, nexus s = nexus s0 ++ x ∧ wire s = wire s0 ++ x ++ y ∧
  (x ++ y = [] ∨ (length (wire s) ≤ room)%nat) ∧ match forwarder s with FFanning rest d => d = y ++ rest | _ => y = [] end.
Lemma stuck_step s0 s a s' : stuck s0 s → closed s = false → closed s' = false → (∀ n, a ≠ LRead n) → step s a = Some s' → stuck s0 s'.
Proof using Type.
  intros [Hsrv (x & y & Hn & Hw & Hlen & Hf)] Hc Hc' Ha. destruct a as [data| |n| |sid|n| |n|data|n ok|]; cbn [step]; rewrite ?Hsrv, ?Hc; try done.
  - destruct (forwarder s) eqn:Ef; [|done..]. destruct data; [done|]. destruct (Ring.Write _ _) as [[]|]; [|done]. intros [= <-]. split; [done|]. by exists x, y.
  - destruct (forwarder s) eqn:Ef; [done| |done]. intros [= <-]. split; [done|]. exists x, y. unfold registered. rewrite Hsrv. cbn. subst y. by split_and!.
  - destruct (forwarder s) as [| |rest d] eqn:Ef; [done..|]. destruct (put s rest n) as [[s1 rest1]|] eqn:Ep; [|done]. cbn. intros [= <-].
    apply put_Some in Ep as (-> & -> & Hroom & Hr). split; [done|]. exists x, (y ++ take n rest). cbn. split_and!; [done| | |].
    + rewrite Hw. by rewrite <-!(assoc_L (++)).
    + right. rewrite length_app, length_take. lia.
    + rewrite <-(assoc_L (++)). by rewrite take_drop.
  - destruct (forwarder s) as [| |rest d] eqn:Ef; [done..|]. cbn. destruct (bool_decide_reflect (rest = [])) as [->|]; [|done]. intros [= <-]. rewrite app_nil_r in Hf. subst d.
    split; [done|]. exists (x ++ y), []. cbn. rewrite !app_nil_r. split_and!; try done; [rewrite Hn; by rewrite <-(assoc_L (++))].
  - by destruct (Ha n).
  - destruct (bool_decide _); intros [= <-]; [done|]. split; [done|]. by exists x, y.
  - destruct (decide _); [|done]. destruct ok; intros [= <-]; [|done]. split; [done|]. by exists x, y.
Qed.
(** a terminal that is attached and does not read holds up the session for everyone: as long as it stays, no
    more output reaches Nexus than the socket takes. *)
Theorem stuck_terminal_blocks s ls s' : server s = SBridge → forwarder s = FIdle → run s ls = Some s' → closed s' = false → (∀ n, LRead n ∉ ls) →
  ∃ x, nexus s' = nexus s ++ x ∧ (length x ≤ room)%nat.
Proof using Type.
  clear unmarshal_marshal marshal_line. intros Hsrv Hfwd Hrun Hc' Hls. assert (stuck s s') as [_ (x & y & Hn & Hw & Hlen & _)].
  { assert (stuck s s) as H by (split; [done|]; exists [], []; rewrite Hfwd, !app_nil_r; naive_solver). revert Hls H Hrun. generalize s at 2 3 as s1.
    clear Hsrv Hfwd. induction ls as [|a ls IH]; intros s1 Hls H; [by intros [= <-]|]. intros (s2 & H1 & H2)%run_step.
    pose proof (run_closed _ _ _ H2 Hc') as Hc2. apply (IH s2); [set_solver| |done].
    eapply (stuck_step s s1 a); [done|by eapply open_before|done| |done]. intros n ->. apply (Hls n). left. }
  exists x. split; [done|]. destruct Hlen as [Hlen|Hlen]; [destruct x; [cbn; lia|done]|]. rewrite Hw, !length_app in Hlen. lia.
Qed.
End Attach.

(** ** Examples *)

Definition code (c : ascii) : Z := Z.of_nat (nat_of_ascii c) + 11.
Fixpoint codes (s : string) : list Z := match s with EmptyString => [] | String c s' => code c :: codes s' end.
Fixpoint decodes (l : list Z) : string := match l with [] => EmptyString | z :: l' => String (ascii_of_nat (Z.to_nat (z - 11))) (decodes l') end.
(** A notation without newlines: the length in unary, then the name. *)
Definition demo_marshal (sid : string) (n : nat) : list Z := replicate n 0 ++ 1 :: codes sid.
Fixpoint demo_unmarshal (l : list Z) : option (string * nat) :=
  match l with [] => None | z :: l' => if z =? 1 then Some (decodes l', 0%nat) else (λ x, (x.1, S x.2)) <$> demo_unmarshal l' end.
Lemma decodes_codes s : decodes (codes s) = s.
Proof. induction s as [|c s IH]; [done|]. cbn. rewrite IH. unfold code. replace (Z.to_nat _) with (nat_of_ascii c) by lia. by rewrite ascii_nat_embedding. Qed.
Lemma demo_marshal_law sid n : demo_unmarshal (demo_marshal sid n) = Some (sid, n).
Proof. induction n as [|n IH]; cbn; [by rewrite decodes_codes|]. unfold demo_marshal in IH. by rewrite IH. Qed.
Lemma demo_no_newline sid n : newline ∉ demo_marshal sid n.
Proof.
  unfold demo_marshal, newline. rewrite elem_of_app, elem_of_cons. intros [H%elem_of_replicate|[?|H]]; [destruct H; lia|done|].
  induction sid as [|c sid IH]; [by apply elem_of_nil in H|]. cbn in H. apply elem_of_cons in H as [H|H]; [|done]. unfold code in H. lia.
Qed.
Definition demo_ring : Ring.RingBuffer := Ring.NewRingBuffer 100.
Definition demo_run : list label → option State := run demo_marshal 64 (init demo_ring).
(** A terminal that attaches between the write to the ring and the fan-out; one that registers too late; one in time. *)
Definition twice : list label := [LOutput [65; 66]; LAttach "s"; LServerWrite 7; LRegister; LFan; LFanWrite 2; LForward; LRead 9].
Definition missed : list label := [LOutput [65]; LFan; LForward; LAttach "s"; LServerWrite 5; LOutput [66]; LFan; LForward; LRegister; LOutput [67]; LFan; LFanWrite 1; LForward; LRead 6].
Definition in_time : list label := [LOutput [65]; LFan; LForward; LAttach "s"; LServerWrite 5; LRegister; LOutput [66]; LFan; LFanWrite 1; LForward; LRead 6].
Definition seen (ls : list label) : option (list Z) := (λ s, (shows demo_unmarshal (read s)).2) <$> demo_run ls.
Lemma attach_window_witness :
  (∃ s, demo_run twice = Some s ∧ (shows demo_unmarshal (read s)).2 = snapshot s ++ mjoin (drop (at_register s) (written s)) ∧ seen twice = Some [65; 66; 65; 66]) ∧
  seen missed = Some [65; 67] ∧ seen in_time = Some [65; 66].
Proof.
  split; [|split; vm_compute; reflexivity]. destruct (demo_run twice) as [s|] eqn:E; [|vm_compute in E; discriminate E]. exists s. split; [done|].
  split; [|vm_compute; reflexivity]. vm_compute in E. injection E as <-.
  eapply (attach_window demo_marshal demo_unmarshal 64 demo_no_newline demo_marshal_law demo_ring twice); vm_compute; reflexivity.
Defined.
Lemma attach_complete_witness : ∃ s, demo_run in_time = Some s ∧ (shows demo_unmarshal (read s)).2 = mjoin (written s).
Proof.
  destruct (demo_run in_time) as [s|] eqn:E; [|vm_compute in E; discriminate E]. exists s. split; [done|]. vm_compute in E. injection E as <-.
  eapply (attach_complete demo_marshal demo_unmarshal 64 demo_no_newline demo_marshal_law 100 in_time); vm_compute; first [reflexivity|discriminate].
Defined.
(** The session prints, the terminal does not read, the socket holds three bytes: the second chunk never gets to Nexus. *)
Definition attached : State := mkState demo_ring FIdle SBridge [] [] [] [] [] [] false [] 0 0 0 [].
Definition silent : list label := [LOutput [65; 66]; LFan; LFanWrite 2; LForward; LOutput [67; 68]; LFan; LFanWrite 1].
Lemma stuck_terminal_blocks_witness : ∃ s, run demo_marshal 3 attached silent = Some s ∧ step demo_marshal 3 s (LFanWrite 1) = None ∧ step demo_marshal 3 s LForward = None ∧
  ∃ x, nexus s = nexus attached ++ x ∧ (length x ≤ 3)%nat.
Proof.
  eexists. split; [vm_compute; reflexivity|]. split; [reflexivity|]. split; [reflexivity|].
  eapply (stuck_terminal_blocks demo_marshal 3 attached silent); [reflexivity..|vm_compute; reflexivity|reflexivity|].
  intros n H. unfold silent in H. repeat (apply elem_of_cons in H as [H|H]; [discriminate H|]). by apply elem_of_nil in H.
Defined.
End Attach.

(** ** sessions.go: the table of daao sessions *)

Module Listing.

Record SessionInfo := mkInfo { ID : string; State : string; AgentBinary : string; PID : Z; BufferLen : Z }.
Definition stateOrder (state : string) : Z :=
  if String.eqb state "RUNNING" then 0 else if String.eqb state "RE_ATTACHING" then 1 else if String.eqb state "DETACHED" then 2
  else if String.eqb state "SUSPENDED" then 3 else if String.eqb state "PROVISIONING" then 4 else if String.eqb state "TERMINATED" then 5 else 9.
(** < of Go's strings *)
Definition string_lt (a b : string) : bool := match String.compare a b with Lt => true | _ => false end.
Definition less (a b : SessionInfo) : bool :=
  if negb (String.eqb (State a) (State b)) then stateOrder (State a) <? stateOrder (State b) else string_lt (ID a) (ID b).
(** sort.Slice leaves some permutation in which no row is less than one before it. *)
Definition sorted_by_less (l : list SessionInfo) : Prop := StronglySorted (λ a b, less b a = false) l.

Definition stateIcon (state : string) : string :=
  if String.eqb state "RUNNING" then "green" else if String.eqb state "DETACHED" then "yellow" else if String.eqb state "SUSPENDED" then "gray"
  else if String.eqb state "TERMINATED" then "red" else "gray".
(** %.1f of n/d for a power of two d: the nearest tenth, halves to the even one. *)
Definition tenths (n d : Z) : Z :=
  let q := 10 * n / d in let r := 10 * n mod d in
  if 2 * r <? d then q else if d <? 2 * r then q + 1 else if Z.even q then q else q + 1.
Inductive size := Bytes (n : Z) | KB (tenth : Z) | MB (tenth : Z).
Definition formatBytes (n : Z) : size :=
  if 1024 * 1024 <=? n then MB (tenths n (1024 * 1024)) else if 1024 <=? n then KB (tenths n 1024) else Bytes n.
Record row := mkRow { r_id : string; r_icon : string; r_state : string; r_agent : string; r_pid : string; r_buffer : size }.
Definition agent_column (agent : string) : string :=
  let a := if String.eqb agent "" then "(unknown)" else agent in
  if (15 <? String.length a)%nat then (substring 0 12 a +:+ "...")%string else a.
Definition print (s : SessionInfo) : row :=
  mkRow (ID s) (stateIcon (State s)) (State s) (agent_column (AgentBinary s)) (if PID s =? 0 then "-" else Str.Itoa (PID s)) (formatBytes (BufferLen s)).

(** What the daemon has: states that are states, and one session per id. *)
Definition known (s : SessionInfo) : Prop := State s ∈ ["RUNNING"; "RE_ATTACHING"; "DETACHED"; "SUSPENDED"; "PROVISIONING"; "TERMINATED"]%string.
Lemma order_inj a b : known a → known b → stateOrder (State a) = stateOrder (State b) → State a = State b.
Proof. unfold known. intros Ha Hb. rewrite !elem_of_cons in Ha, Hb. destruct_or?; try (by apply elem_of_nil in Ha); try (by apply elem_of_nil in Hb); rewrite Ha, Hb; vm_compute; congruence. Qed.
Lemma compare_antisym a b : String.compare a b ≠ Lt → String.compare b a ≠ Lt → a = b.
Proof. intros H1 H2. apply String.compare_eq_iff. rewrite String.compare_antisym in H2. destruct (String.compare a b); cbn in *; congruence. Qed.
Lemma less_total a b : known a → known b → less a b = false → less b a = false → ID a = ID b.
Proof.
  intros Ha Hb. unfold less, string_lt. rewrite (String.eqb_sym (State b)). destruct (String.eqb_spec (State a) (State b)) as [E|E]; cbn [negb].
  - intros H1 H2. apply compare_antisym; [by destruct (String.compare (ID a) (ID b))|by destruct (String.compare (ID b) (ID a))].
  - intros H1%Z.ltb_ge H2%Z.ltb_ge. exfalso. apply E, order_inj; [done..|lia].
Qed.
(** the table does not depend on the order in which the daemon walks its map, although the sort is
    not stable: two tables of the same sessions, sorted in whatever way, are the same. *)
Theorem listing_deterministic l l' : Forall known l → NoDup (ID <$> l) → l ≡ₚ l' → sorted_by_less l → sorted_by_less l' → print <$> l = print <$> l'.
Proof.
  intros Hk Hn Hp Hs Hs'. f_equal. revert l' Hp Hs'. induction Hs as [|a l Hs IH Ha]; intros l' Hp Hs'; [by apply Permutation_nil_l in Hp as ->|].
  destruct Hs' as [|b l' Hs' Hb]; [by apply Permutation_sym, Permutation_nil_cons in Hp|].
  inversion Hk as [|? ? Hka Hkl]; subst. cbn in Hn. apply NoDup_cons in Hn as [Hna Hnl].
  assert (a = b) as <-; [|f_equal; apply IH; [done..|by apply Permutation_cons_inv in Hp|done]].
  assert (b ∈ a :: l) as Hba by (rewrite Hp; left). assert (a ∈ b :: l') as Hab by (rewrite <-Hp; left).
  apply elem_of_cons in Hba as [->|Hba]; [done|]. apply elem_of_cons in Hab as [->|Hab]; [done|]. exfalso.
  rewrite Forall_forall in Ha, Hb, Hkl. apply Hna. rewrite (less_total a b); [|done|by apply Hkl|by apply Hb|by apply Ha]. by apply list_elem_of_fmap_2.
Qed.
Lemma tenths_close n d : 0 < d → 2 * Z.abs (tenths n d * d - 10 * n) <= d.
Proof.
  intros Hd. unfold tenths. pose proof (Z.div_mod (10 * n) d) as E. pose proof (Z.mod_pos_bound (10 * n) d Hd) as Hr.
  set (q := 10 * n / d) in *. set (r := (10 * n) mod d) in *.
  destruct (Z.ltb_spec (2 * r) d); [nia|]. destruct (Z.ltb_spec d (2 * r)); [nia|]. destruct (Z.even q); nia.
Qed.
(** the size that is shown is within a twentieth of its unit, and its unit is the largest that is not more
    than the size. *)
Theorem formatBytes_close n : 0 <= n → match formatBytes n with
  | Bytes m => m = n ∧ n < 1024
  | KB t => 1024 <= n < 1024 * 1024 ∧ 2 * Z.abs (t * 1024 - 10 * n) <= 1024
  | MB t => 1024 * 1024 <= n ∧ 2 * Z.abs (t * (1024 * 1024) - 10 * n) <= 1024 * 1024
  end.
Proof.
  intros Hn. unfold formatBytes. destruct (Z.leb_spec (1024 * 1024) n); [split; [done|]; by apply tenths_close|].
  destruct (Z.leb_spec 1024 n); [|lia]. split; [lia|]. by apply tenths_close.
Qed.
Definition demo_sessions : list SessionInfo := [mkInfo "b" "RUNNING" "claude" 7 0; mkInfo "a" "DETACHED" "" 0 1536].
Lemma listing_deterministic_witness : print <$> demo_sessions = [mkRow "b" "green" "RUNNING" "claude" "7" (Bytes 0); mkRow "a" "yellow" "DETACHED" "(unknown)" "-" (KB 15)].
Proof.
  etrans; [apply (listing_deterministic demo_sessions demo_sessions)|vm_compute; reflexivity].
  - repeat constructor; unfold known; cbn [State]; set_solver.
  - vm_compute. apply NoDup_cons. split; [|apply NoDup_singleton]. rewrite list_elem_of_singleton. discriminate.
  - done.
  - repeat constructor.
  - repeat constructor.
Defined.
Lemma formatBytes_close_witness : formatBytes 1048575 = KB 10240 ∧ 2 * Z.abs (10240 * 1024 - 10 * 1048575) <= 1024.
Proof. split; [reflexivity|]. apply (formatBytes_close 1048575). lia. Defined.
End Listing.
