(* ===== verification/Run.v ===== *)
(** * src/cmd/daao/run.go, control_windows.go: daao run

    The command that starts an agent in the terminal, on Windows: how it looks for the daemon, and the
    goroutines that wait for the end of the agent. Files and processes are arguments; the two copies between
    the terminal and the PTY, the signal and the end of the agent are steps. *)
From Stdlib Require Import Ascii String.
From S2P Require Import Prelude GoStrings SessionState.
Import Session.
#[local] Open Scope string_scope.

Module Run.

(** ** Where the daemon is *)

(** strings.Replace(s, old, new, 1) *)
Fixpoint Replace1 (s old new : string) : string :=
  match Str.strip_prefix s old with
  | Some rest => new +:+ rest
  | None => match s with EmptyString => EmptyString | String c s' => String c (Replace1 s' old new) end
  end.
Definition daemon_beside (exePath : string) : string := Replace1 (Replace1 exePath "daao.exe" "daao-daemon.exe") "daao" "daao-daemon".
Definition findDaemonPath (Stat : string → bool) (exePath : string) : string :=
  if Stat (daemon_beside exePath) then daemon_beside exePath else "daao-daemon".

Definition getDaemonSocketPath (home : string) : string := home +:+ "/.config/daao/daemon.sock".
Definition controlPortFile (path : string) : string := path +:+ ".port".
(** The files after the daemon has begun to listen, on Windows. *)
Definition controlListen (files : gset string) (path : string) : gset string := {[controlPortFile path]} ∪ files.
(** [process]: whether the process 0 can be found and signalled, which it cannot. *)
Definition isDaemonRunning (files : gset string) (home : string) (process : bool) : bool := bool_decide (getDaemonSocketPath home ∈ files) || process.

(** ** The command *)

Inductive run_error := AgentRequired | DaemonNotSpawned | NoSatellite | NoPty | NotSpawned.
Record machine := mkMachine { files : gset string; home : string; exe : string; process : bool; StartProcess : string → bool }.
Definition ensureDaemonRunning (m : machine) : option run_error :=
  if isDaemonRunning (files m) (home m) (process m) then None else
  if StartProcess m (findDaemonPath (λ p, bool_decide (p ∈ files m)) (exe m)) then None else Some DaemonNotSpawned.
(** spawnAgentWithPTY: the binary that is started; [windows] is runtime.GOOS. *)
Definition agent_binary (windows : bool) (command : string) : string :=
  if windows then if negb (Str.Contains command ".exe") && negb (Str.HasSuffix command ".exe") then command +:+ ".exe" else command else command.
(** Up to the start of the agent: listing the sessions ends the command. *)
Definition prepare (m : machine) (args : list string) (registered pty : bool) : result run_error bool :=
  match args with
  | [] => Err AgentRequired
  | a :: _ =>
      if String.eqb a "--list" || String.eqb a "-l" then Ok false else
      match ensureDaemonRunning m with
      | Some e => Err e
      | None => if negb registered then Err NoSatellite else if negb pty then Err NoPty else
                if StartProcess m (agent_binary true a) then Ok true else Err NotSpawned
      end
  end.

(** ** While the agent runs *)

Inductive main_pc := MSelect | MWaitCopies | MReturned.
(** The agent has the terminal of the command and not the PTY, to which no process belongs. *)
Record State := mkState { sess : SessionState; exited : bool; interrupted : bool; stdin_copied : bool; pty_copied : bool; pty_closed : bool; main : main_pc }.
Inductive label := AgentExits | Interrupt | StdinEnds | PtyEnds | MainWakes | MainReturns.
Definition step (s : State) (l : label) : option State :=
  match l with
  | AgentExits => Some (mkState (sess s) true (interrupted s) (stdin_copied s) (pty_copied s) (pty_closed s) (main s))
  | Interrupt => Some (mkState (sess s) (exited s) true (stdin_copied s) (pty_copied s) (pty_closed s) (main s))
  | StdinEnds => Some (mkState (sess s) (exited s) (interrupted s) true (pty_copied s) (pty_closed s) (main s))
  | PtyEnds => if pty_closed s then Some (mkState (sess s) (exited s) (interrupted s) (stdin_copied s) true (pty_closed s) (main s)) else None
  | MainWakes =>
      match main s with
      | MSelect => if exited s || interrupted s then Some (mkState StateDetached (exited s) (interrupted s) (stdin_copied s) (pty_copied s) (pty_closed s) MWaitCopies) else None
      | _ => None
      end
  | MainReturns =>
      match main s with
      | MWaitCopies => if stdin_copied s && pty_copied s then Some (mkState (sess s) (exited s) (interrupted s) (stdin_copied s) (pty_copied s) true MReturned) else None
      | _ => None
      end
  end.
Definition init : State := mkState StateRunning false false false false false MSelect.
Definition run (s : State) (ls : list label) : option State := foldl (λ o l, o ≫= λ s, step s l) (Some s) ls.

(** *** The daemon is not found *)

Lemma Replace1_length s old new : Str.Contains s old = true → (String.length (Replace1 s old new) + String.length old = String.length s + String.length new)%nat.
Proof.
  induction s as [|c s IH]; cbn [Str.Contains Replace1]; unfold Str.HasPrefix.
  - rewrite orb_false_r, bool_decide_eq_true. intros [rest E]. rewrite E. apply Str.strip_prefix_Some in E. apply (f_equal String.length) in E. rewrite !Str.length_app in *. lia.
  - destruct (Str.strip_prefix (String c s) old) as [rest|] eqn:E.
    + intros _. apply Str.strip_prefix_Some in E. apply (f_equal String.length) in E. rewrite !Str.length_app in *. lia.
    + rewrite bool_decide_false by (by intros []). intros H%IH. cbn. lia.
Qed.
Lemma Contains_prefix s t x : Str.HasPrefix s x = true → Str.Contains (s +:+ t) x = true.
Proof.
  intros (r & ->)%Str.HasPrefix_true. rewrite Str.app_assoc_str. destruct (x +:+ r +:+ t) eqn:E; cbn [Str.Contains]; rewrite <-E; by rewrite Str.HasPrefix_app.
Qed.
Lemma Contains_app_l p s x : Str.Contains s x = true → Str.Contains (p +:+ s) x = true.
Proof. intros H. induction p as [|c p IH]; [done|]. change (String c p +:+ s) with (String c (p +:+ s)). cbn [Str.Contains]. by rewrite IH, orb_true_r. Qed.
Lemma Replace1_contains s old new x : Str.Contains s old = true → Str.HasPrefix new x = true → Str.Contains (Replace1 s old new) x = true.
Proof.
  intros Hs Hn. induction s as [|c s IH]; cbn [Str.Contains Replace1] in *; unfold Str.HasPrefix in Hs.
  - rewrite orb_false_r, bool_decide_eq_true in Hs. destruct Hs as [rest E]. rewrite E. by apply Contains_prefix.
  - destruct (Str.strip_prefix (String c s) old) as [rest|] eqn:E; [by apply Contains_prefix|]. rewrite bool_decide_false in Hs by (by intros []).
    cbn [Str.Contains]. by rewrite IH, orb_true_r.
Qed.
Lemma beside_wrong dir : daemon_beside (dir +:+ "daao.exe") ≠ dir +:+ "daao-daemon.exe".
Proof.
  assert (Str.Contains (dir +:+ "daao.exe") "daao.exe" = true) as H by (by apply Contains_app_l).
  pose proof (Replace1_length _ _ "daao-daemon.exe" H) as H1. pose proof (Replace1_contains _ _ "daao-daemon.exe" "daao" H eq_refl) as H2.
  pose proof (Replace1_length _ _ "daao-daemon" H2) as H3. intros E. unfold daemon_beside in E. rewrite E in H3. rewrite Str.length_app in *. cbn in H1, H3. lia.
Qed.
(** the daemon that lies beside the command is not found: wherever daao.exe is, the path that is looked for has
    the suffix twice, so that the file beside it is never the one that is started. *)
Theorem sibling_never_found Stat dir : findDaemonPath Stat (dir +:+ "daao.exe") ≠ dir +:+ "daao-daemon.exe".
Proof.
  unfold findDaemonPath. destruct (Stat _); [apply beside_wrong|]. intros E. apply (f_equal String.length) in E. rewrite Str.length_app in E. cbn in E. lia.
Qed.
(** a daemon that runs is not seen: it announces itself under another name than the one that is looked for. So, on a
    machine where only daao-daemon.exe lies beside daao.exe, daao run always fails, whether the daemon
    runs or not. *)
Theorem run_cannot_start m dir path args registered pty a rest : exe m = dir +:+ "daao.exe" → process m = false →
  (∀ p, StartProcess m p = true → p = dir +:+ "daao-daemon.exe") → getDaemonSocketPath (home m) ∉ files m → path = getDaemonSocketPath (home m) →
  args = a :: rest → a ≠ "--list" → a ≠ "-l" →
  prepare m args registered pty = Err DaemonNotSpawned ∧
  prepare (mkMachine (controlListen (files m) path) (home m) (exe m) (process m) (StartProcess m)) args registered pty = Err DaemonNotSpawned.
Proof.
  intros He Hp Hs Hf -> -> H1 H2. assert (∀ fs, getDaemonSocketPath (home m) ∉ fs →
    ensureDaemonRunning (mkMachine fs (home m) (exe m) (process m) (StartProcess m)) = Some DaemonNotSpawned) as H.
  { intros fs Hfs. unfold ensureDaemonRunning, isDaemonRunning. cbn [files home process exe StartProcess]. rewrite bool_decide_false, Hp by done. cbn [orb].
    destruct (StartProcess m _) eqn:E; [|done]. apply Hs in E. rewrite He in E. exfalso. revert E. unfold findDaemonPath. case_bool_decide; [apply beside_wrong|].
    intros E. apply (f_equal String.length) in E. rewrite Str.length_app in E. cbn in E. lia. }
  unfold prepare. destruct (String.eqb_spec a "--list"), (String.eqb_spec a "-l"); try done. cbn [orb]. split.
  - specialize (H _ Hf). destruct m. cbn in H |- *. by rewrite H.
  - rewrite H; [done|]. unfold controlListen. rewrite elem_of_union, elem_of_singleton. intros [E|?]; [|done]. unfold controlPortFile in E.
    apply (f_equal String.length) in E. rewrite Str.length_app in E. cbn in E. lia.
Qed.

(** *** The command does not end *)

Definition inv (s : State) : Prop := pty_closed s = false ∧ pty_copied s = false ∧ main s ≠ MReturned ∧ (main s = MWaitCopies → sess s = StateDetached).
Lemma run_step_inv s l s' : inv s → step s l = Some s' → inv s'.
Proof.
  intros (Hc & Hp & Hm & Hd) H. unfold inv. destruct l; cbn [step] in H; try (injection H as <-; by cbn).
  - by rewrite Hc in H.
  - destruct (main s); [|done..]. destruct (exited s || interrupted s); [|done]. injection H as <-. by cbn.
  - destruct (main s); [done| |done]. by rewrite Hp, andb_false_r in H.
Qed.
(** daao run does not return: the copy from the PTY ends when the PTY is closed, which main does when both copies have
    ended; so whatever comes, also after the end of the agent and of the input. From the moment
    that it wakes, its session is DETACHED, as if the agent still ran. *)
Theorem run_never_returns ls s : run init ls = Some s → main s ≠ MReturned ∧ (main s = MWaitCopies → sess s = StateDetached).
Proof.
  assert (∀ s0, inv s0 → run s0 ls = Some s → inv s) as H; [|intros E; apply H in E as (_ & _ & ? & ?); by repeat split].
  induction ls as [|l ls IH]; intros s0 Hi; [by intros [= <-]|]. unfold run. cbn. destruct (step s0 l) as [s1|] eqn:E; cbn.
  - apply IH. by eapply run_step_inv.
  - intros H. exfalso. revert H. clear. induction ls; done.
Qed.

(** ** Examples *)

Example beside : daemon_beside "C:/tools/daao.exe" = "C:/tools/daao-daemon-daemon.exe". Proof. vm_compute. reflexivity. Qed.
Definition demo_machine : machine := mkMachine {["C:/tools/daao-daemon.exe"]} "C:/Users/ada" "C:/tools/daao.exe" false (λ p, String.eqb p "C:/tools/daao-daemon.exe").
Lemma run_cannot_start_witness : prepare demo_machine ["claude"] true true = Err DaemonNotSpawned.
Proof.
  apply (run_cannot_start demo_machine "C:/tools/" (getDaemonSocketPath "C:/Users/ada") ["claude"] true true "claude" []); try done.
  intros p. apply String.eqb_eq.
Defined.
Lemma run_never_returns_witness : ∃ s, run init [AgentExits; MainWakes; StdinEnds] = Some s ∧ exited s = true ∧ main s ≠ MReturned ∧ sess s = StateDetached.
Proof.
  eexists. split; [vm_compute; reflexivity|]. split; [reflexivity|].
  destruct (run_never_returns [AgentExits; MainWakes; StdinEnds] _ eq_refl) as [H1 H2]. split; [exact H1|by apply H2].
Defined.
End Run.
