(* ===== verification/Shutdown.v ===== *)
(** * src/cmd/daao/daemon.go, control.go, service_other.go, service_windows.go: how a satellite ends

    The goroutines of the daemon that its wait group counts (the context watcher, the
    connection loop and its receiver, the forwarders of the agents, the signal
    handler), those of the control server, and Stop under its sync.Once, as a
    transition system: a label is one step of one goroutine, or something that the
    operating system, a client or Nexus does. Closing a session and stopping a
    bridge return ([Daemon.Close], the theorems of [PiBridge]) and are one step. *)
From S2P Require Import Prelude.
#[local] Open Scope Z_scope.
#[local] Set Default Proof Using "Type".

Module Shutdown.

(** runStart on Unix, in the foreground on Windows, and the Windows service. *)
Inductive host := Unix | Foreground | Service.
Inductive who := Main | Handler.
(** main waits for its select, is in Stop, has returned. *)
Inductive main_pc := MWait | MStop | MExited.
#[local] Instance main_pc_dec : EqDecision main_pc.
Proof. solve_decision. Defined.
(** signalHandler waits, is in Stop, has returned. *)
Inductive handler_pc := HWait | HStop | HGone.
(** runGrpcLoop: at its condition, in connectToNexus, waiting for the connection to
    drop, in a sleep, returned. *)
Inductive grpc_pc := GLoop | GConnecting | GConnected | GSleep | GGone.
(** The receiver: in Recv, in handleNexusMessage. *)
Inductive recv_pc := RRecv | RHandling.
(** The body of Stop, and its end. *)
Inductive phase := PCancel | PControl | PControlWait | PSessions | PBridges | PConn | PWait | PDone.
#[local] Instance phase_dec : EqDecision phase.
Proof. solve_decision. Defined.

Record State := mkState {
  cancelled : bool;                   (* d.ctx *)
  once : option (who * phase);        (* stopOnce: who runs it, and where it is *)
  main : main_pc;
  m_pending : bool;                   (* something that main's select waits for *)
  handler : handler_pc;
  h_pending : bool;                   (* sigCh of signalHandler *)
  watcher : bool;
  grpc : grpc_pc;
  receiver : option recv_pc;
  inbox : nat;                        (* messages that Recv has yet to return *)
  forwarders : nat;
  sessions : nat;                     (* sessions whose process runs *)
  conns : nat;                        (* grpc connections that are open *)
  accepting : bool;                   (* acceptLoop *)
  clients : nat;                      (* handleConnection *)
  closed : bool;                      (* the listener *)
}.

(** After NewDaemon and Start; [control]: the control server listens. *)
Definition start (control : bool) : State :=
  mkState false None MWait false HWait false true GLoop None 0 0 0 0 control 0 (negb control).

(** What d.wg counts. *)
Definition wg (s : State) : nat :=
  ((if watcher s then 1 else 0) + (match grpc s with GGone => 0 | _ => 1 end) + (match receiver s with Some _ => 1 | None => 0 end) +
   forwarders s + (match handler s with HGone => 0 | _ => 1 end))%nat.

Definition set_once (s : State) (p : phase) : State :=
  mkState (cancelled s) (match once s with Some (w, _) => Some (w, p) | None => None end) (main s) (m_pending s) (handler s) (h_pending s)
    (watcher s) (grpc s) (receiver s) (inbox s) (forwarders s) (sessions s) (conns s) (accepting s) (clients s) (closed s).
Definition set_main (s : State) (m : main_pc) (pending : bool) (o : option (who * phase)) : State :=
  mkState (cancelled s) o m pending (handler s) (h_pending s) (watcher s) (grpc s) (receiver s) (inbox s) (forwarders s) (sessions s)
    (conns s) (accepting s) (clients s) (closed s).
Definition set_handler (s : State) (h : handler_pc) (pending : bool) (o : option (who * phase)) : State :=
  mkState (cancelled s) o (main s) (m_pending s) h pending (watcher s) (grpc s) (receiver s) (inbox s) (forwarders s) (sessions s)
    (conns s) (accepting s) (clients s) (closed s).
Definition set_watcher (s : State) : State :=
  mkState (cancelled s) (once s) (main s) (m_pending s) (handler s) (h_pending s) false (grpc s) (receiver s) (inbox s) (forwarders s)
    (sessions s) (conns s) (accepting s) (clients s) (closed s).
Definition set_grpc (s : State) (g : grpc_pc) (r : option recv_pc) (i c : nat) : State :=
  mkState (cancelled s) (once s) (main s) (m_pending s) (handler s) (h_pending s) (watcher s) g r i (forwarders s) (sessions s) c
    (accepting s) (clients s) (closed s).
Definition set_work (s : State) (f n : nat) : State :=
  mkState (cancelled s) (once s) (main s) (m_pending s) (handler s) (h_pending s) (watcher s) (grpc s) (receiver s) (inbox s) f n (conns s)
    (accepting s) (clients s) (closed s).
Definition set_control (s : State) (a : bool) (n : nat) (c : bool) : State :=
  mkState (cancelled s) (once s) (main s) (m_pending s) (handler s) (h_pending s) (watcher s) (grpc s) (receiver s) (inbox s) (forwarders s)
    (sessions s) (conns s) a n c.
Definition cancel (s : State) : State :=
  mkState true (once s) (main s) (m_pending s) (handler s) (h_pending s) (watcher s) (grpc s) (receiver s) (inbox s) (forwarders s)
    (sessions s) (conns s) (accepting s) (clients s) (closed s).

(** One step of the body of Stop; [None]: it waits. *)
Definition stop_step (s : State) : option State :=
  match once s with
  | None => None
  | Some (_, p) =>
      match p with
      | PCancel => Some (set_once (cancel s) PControl)
      | PControl => Some (set_once (set_control s (accepting s) (clients s) true) PControlWait)
      | PControlWait => if accepting s then None else match clients s with O => Some (set_once s PSessions) | S _ => None end
      | PSessions => Some (set_once (set_work s (forwarders s) 0) PBridges)
      | PBridges => Some (set_once s PConn)
      | PConn => Some (set_once (set_grpc s (grpc s) (receiver s) (inbox s) (pred (conns s))) PWait)
      | PWait => match wg s with O => Some (set_once s PDone) | S _ => None end
      | PDone => None
      end
  end.

(** What handleNexusMessage did: it started an agent or a session, killed a session. *)
Inductive handled := Deployed | Started | Killed | Other.
Inductive label :=
  | LInterrupt                        (* SIGINT *)
  | LTerminate                        (* SIGTERM in the foreground on Windows, or the stop of the service *)
  | LMessage | LProcessEnds | LClient | LClientLeaves | LBroken      (* Nexus, processes, the command line *)
  | LMainTakes | LMainReturns
  | LHandlerTakes | LHandlerCtx | LHandlerReturns
  | LWatcherEnds
  | LGrpcCheck | LGrpcDial (ok : bool) | LGrpcCtx | LGrpcLost | LGrpcWake
  | LRecv | LHandled (e : handled) | LRecvFails
  | LForwarderEnds
  | LAcceptEnds
  | LStop.

Definition step (h : host) (s : State) (l : label) : option State :=
  match l with
  | LInterrupt =>
      let s1 := set_handler s (handler s) true (once s) in
      Some (match h with Foreground => set_main s1 (main s) true (once s) | _ => s1 end)
  | LTerminate => match h with Unix => None | _ => Some (set_main s (main s) true (once s)) end
  | LMessage => if cancelled s then None else match receiver s with Some _ => Some (set_grpc s (grpc s) (receiver s) (S (inbox s)) (conns s)) | None => None end
  | LProcessEnds => match sessions s with O => None | S n => Some (set_work s (forwarders s) n) end
  | LClient => if closed s then None else Some (set_control s (accepting s) (S (clients s)) false)
  | LClientLeaves => match clients s with O => None | S n => Some (set_control s (accepting s) n (closed s)) end
  | LBroken | LRecvFails =>
      match l, cancelled s, receiver s with
      | LBroken, false, Some RRecv | LRecvFails, true, Some RRecv => Some (set_grpc s (grpc s) None 0 (conns s))
      | _, _, _ => None
      end
  | LMainTakes =>
      match main s with
      | MWait => if m_pending s then Some (set_main s MStop false (match once s with None => Some (Main, PCancel) | o => o end)) else None
      | _ => None
      end
  | LMainReturns =>
      match main s, once s with MStop, Some (_, PDone) => Some (set_main s MExited (m_pending s) (once s)) | _, _ => None end
  | LHandlerTakes =>
      match handler s with
      | HWait => if h_pending s then Some (set_handler s HStop false (match once s with None => Some (Handler, PCancel) | o => o end)) else None
      | _ => None
      end
  | LHandlerCtx => match handler s with HWait => if cancelled s then Some (set_handler s HGone (h_pending s) (once s)) else None | _ => None end
  | LHandlerReturns =>
      match handler s, once s with HStop, Some (_, PDone) => Some (set_handler s HGone (h_pending s) (once s)) | _, _ => None end
  | LWatcherEnds => if watcher s then Some (set_watcher s) else None
  | LGrpcCheck => match grpc s with GLoop => Some (set_grpc s (if cancelled s then GGone else GConnecting) (receiver s) (inbox s) (conns s)) | _ => None end
  | LGrpcDial ok =>
      match grpc s, receiver s with
      | GConnecting, None => Some (if ok then set_grpc s GConnected (Some RRecv) 0 (S (conns s)) else set_grpc s GSleep None (inbox s) (conns s))
      | _, _ => None
      end
  | LGrpcCtx => match grpc s with GConnected => if cancelled s then Some (set_grpc s GGone (receiver s) (inbox s) (conns s)) else None | _ => None end
  | LGrpcLost => match grpc s, receiver s with GConnected, None => Some (set_grpc s GSleep None (inbox s) (conns s)) | _, _ => None end
  | LGrpcWake => match grpc s with GSleep => Some (set_grpc s GLoop (receiver s) (inbox s) (conns s)) | _ => None end
  | LRecv => match receiver s, inbox s with Some RRecv, S n => Some (set_grpc s (grpc s) (Some RHandling) n (conns s)) | _, _ => None end
  | LHandled e =>
      match receiver s with
      | Some RHandling =>
          let s1 := set_grpc s (grpc s) (Some RRecv) (inbox s) (conns s) in
          Some (match e with
                | Deployed => set_work s1 (S (forwarders s)) (sessions s)
                | Started => set_work s1 (forwarders s) (S (sessions s))
                | Killed => set_work s1 (forwarders s) (pred (sessions s))
                | Other => s1
                end)
      | _ => None
      end
  | LForwarderEnds => match forwarders s with O => None | S n => Some (set_work s n (sessions s)) end
  | LAcceptEnds => if accepting s && closed s then Some (set_control s false (clients s) (closed s)) else None
  | LStop => stop_step s
  end.

Fixpoint run (h : host) (s : State) (ls : list label) : option State :=
  match ls with [] => Some s | l :: ls' => match step h s l with Some s' => run h s' ls' | None => None end end.

(** What needs nobody outside the daemon. *)
Definition internal (l : label) : bool :=
  match l with LInterrupt | LTerminate | LMessage | LProcessEnds | LClient | LClientLeaves | LBroken => false | _ => true end.

(** ** Invariants *)

Lemma shutdown_app h s t1 t2 : run h s (t1 ++ t2) = match run h s t1 with Some s1 => run h s1 t2 | None => None end.
Proof. revert s. induction t1 as [|l t1 IH]; intros s; cbn; [done|]. by destruct (step h s l). Qed.
(** A property that every step keeps holds after every run. *)
Lemma shutdown_inv (P : State → Prop) h : (∀ s l s', P s → step h s l = Some s' → P s') → ∀ t s s', P s → run h s t = Some s' → P s'.
Proof.
  intros Hstep t. induction t as [|l t IH]; intros s s' HP; cbn; [by intros [= <-]|].
  destruct (step h s l) as [s1|] eqn:E; [|done]. apply IH. by eapply Hstep.
Qed.

(** The cases of a step, one by one. *)
Ltac step_cases Hs :=
  repeat match type of Hs with
  | Some _ = Some _ => injection Hs as <-
  | None = Some _ => discriminate Hs
  | context [match ?x with _ => _ end] => destruct x eqn:?
  end.
Ltac step_split l Hs :=
  destruct l; try match goal with e : handled |- _ => destruct e | ok : bool |- _ => destruct ok end;
  cbn [step] in Hs; try unfold stop_step in Hs;
  try match type of Hs with context [match ?h with Unix => _ | Foreground => _ | Service => _ end] => is_var h; destruct h end.

(** Stop has ended only where the handler is gone; who is in Stop is in the Once. *)
Definition once_ok (s : State) : Prop :=
  (∀ w, once s = Some (w, PDone) → handler s = HGone) ∧
  (main s = MExited → ∃ w, once s = Some (w, PDone)) ∧
  (handler s = HStop → once s ≠ None) ∧ (main s = MStop → once s ≠ None).
Lemma wg_handler s : wg s = 0%nat → handler s = HGone.
Proof. unfold wg. destruct (handler s); [lia|lia|done]. Qed.
Lemma once_ok_step h s l s' : once_ok s → step h s l = Some s' → once_ok s'.
Proof.
  intros (H1 & H2 & H3 & H4) Hs. step_split l Hs.
  all: step_cases Hs; unfold once_ok; cbn; try done.
  all: try (destruct (once s) as [[w' p']|] eqn:Eo; cbn in *; naive_solver).
  all: match goal with H : wg _ = 0%nat |- _ => apply wg_handler in H end.
  all: destruct (once s) as [[w' p']|]; naive_solver.
Qed.
Lemma once_ok_start c : once_ok (start c).
Proof. unfold once_ok. cbn. naive_solver. Qed.

(** On Unix nothing wakes main. *)
Lemma unix_step s l s' : main s = MWait ∧ m_pending s = false → step Unix s l = Some s' → main s' = MWait ∧ m_pending s' = false.
Proof.
  intros [Hm Hp] Hs. step_split l Hs; rewrite ?Hm, ?Hp in Hs; step_cases Hs; cbn; try (by split); congruence.
Qed.
(** A handler that is in Stop stays there. *)
Lemma handler_stuck h s l s' : once_ok s → handler s = HStop → step h s l = Some s' → handler s' = HStop.
Proof.
  intros (H1 & _) Hh Hs. step_split l Hs; rewrite ?Hh in Hs; step_cases Hs; cbn; try done.
  all: specialize (H1 _ eq_refl); congruence.
Qed.

(** Ctrl+C never ends a satellite: on Unix main waits for channels on which
    nothing comes; and wherever the signal handler has entered Stop, it waits there
    for itself, as the wait group counts it: whatever happens then, it never leaves,
    Stop never ends, and main never returns. *)
Theorem interrupt_hangs h c t s : run h (start c) t = Some s →
  (h = Unix → main s = MWait) ∧
  (handler s = HStop → ∀ t' s', run h s t' = Some s' →
     handler s' = HStop ∧ main s' ≠ MExited ∧ ∀ w, once s' ≠ Some (w, PDone)).
Proof.
  intros Hr. split.
  - intros ->. apply (shutdown_inv (λ s, main s = MWait ∧ m_pending s = false) Unix unix_step t (start c) s); [by split|done].
  - intros Hh t' s' Hr'. assert (once_ok s) as Hs by (eapply (shutdown_inv once_ok h (once_ok_step h)); [apply once_ok_start|exact Hr]).
    destruct (shutdown_inv (λ s, once_ok s ∧ handler s = HStop) h (λ s l s' H E, conj (once_ok_step h s l s' (proj1 H) E)
      (handler_stuck h s l s' (proj1 H) (proj2 H) E)) t' s s' (conj Hs Hh) Hr') as [(H1 & H2 & _) Hh'].
    split_and!; [done| |]; [intros [w Hw]%H2|intros w Hw]; specialize (H1 w Hw); congruence.
Qed.

(** ** Stop ends *)

(** An open Once is run by main, and the context is cancelled once Stop is past its
    first statement; the connection loop has no receiver when it dials; past the
    control server the listener is closed. *)
Definition stop_by_main (o : option (who * phase)) (m : main_pc) (c : bool) : Prop :=
  match o with None => c = false ∧ m = MWait | Some (w, p) => w = Main ∧ m ≠ MWait ∧ (p = PCancel ↔ c = false) end.
Definition dials_alone (g : grpc_pc) (r : option recv_pc) : Prop := match g with GConnected | GGone => True | _ => r = None end.
Definition listener_closed (o : option (who * phase)) (c : bool) : Prop :=
  match o with Some (_, PCancel) | Some (_, PControl) | None => True | _ => c = true end.
Definition main_stops (s : State) : Prop :=
  h_pending s = false ∧ handler s ≠ HStop ∧ stop_by_main (once s) (main s) (cancelled s) ∧ dials_alone (grpc s) (receiver s) ∧
  listener_closed (once s) (closed s).
Lemma main_stops_step h s l s' : l ≠ LInterrupt → main_stops s → step h s l = Some s' → main_stops s'.
Proof.
  intros Hl (H1 & H2 & H3 & H4 & H5) Hs. step_split l Hs; try done.
  all: destruct s; cbn in *; step_cases Hs; unfold main_stops; cbn; subst; cbn in *.
  all: try (split_and!; assumption || done).
  all: unfold stop_by_main, dials_alone, listener_closed in *; split_and!; try done; repeat case_match; naive_solver.
Qed.
Lemma main_stops_start c : main_stops (start c).
Proof. by split_and!. Qed.
Lemma main_stops_run h t s s' : LInterrupt ∉ t → main_stops s → run h s t = Some s' → main_stops s'.
Proof.
  revert s. induction t as [|l t IH]; intros s Hn Hs; cbn; [by intros [= <-]|]. rewrite elem_of_cons in Hn.
  destruct (step h s l) as [s1|] eqn:E; [|done]. apply IH; [tauto|]. apply (main_stops_step h s l); [|done..]. intros ->. tauto.
Qed.
Lemma internal_calm t : Forall (λ l, internal l = true) t → LInterrupt ∉ t.
Proof. intros H Hin. by apply (proj1 (Forall_forall _ _) H) in Hin. Qed.

(** How many steps are left. *)
Definition phase_left (p : phase) : nat :=
  match p with PCancel => 7 | PControl => 6 | PControlWait => 5 | PSessions => 4 | PBridges => 3 | PConn => 2 | PWait => 1 | PDone => 0 end.
Definition steps_left (s : State) : nat :=
  ((match once s with Some (_, p) => phase_left p | None => 8 end) +
   (match main s with MWait => 2 | MStop => 1 | MExited => 0 end) + (match handler s with HGone => 0 | _ => 1 end) +
   (if watcher s then 1 else 0) + (if accepting s then 1 else 0) + forwarders s +
   (match grpc s with GConnecting => 6 | GConnected => 3 | GSleep => 2 | GLoop => 1 | GGone => 0 end) +
   (match receiver s with Some RHandling => 3 | Some RRecv => 1 | None => 0 end) + 4 * inbox s)%nat.
Lemma steps_left_step h s l s' : main_stops s → cancelled s = true → internal l = true → step h s l = Some s' →
  (steps_left s' < steps_left s)%nat ∧ cancelled s' = true.
Proof.
  intros (H1 & H2 & H3 & H4 & H5) Hc Hi Hs. step_split l Hs; try done.
  all: destruct s; cbn in *; step_cases Hs; unfold steps_left; cbn; subst; cbn in *; split; try done; try lia.
  all: destruct once0 as [[? ?]|]; cbn in *; try lia; try (destruct_and?; done).
  all: destruct accepting0; cbn in *; [lia|done].
Qed.
Lemma internal_bound h t : ∀ s s', main_stops s → cancelled s = true → Forall (λ l, internal l = true) t → run h s t = Some s' →
  (length t + steps_left s' <= steps_left s)%nat ∧ cancelled s' = true.
Proof.
  induction t as [|l t IH]; intros s s' Hm Hc Ht; cbn; [intros [= <-]; split; [lia|done]|]. inversion Ht as [|? ? Hl Ht']; subst.
  destruct (step h s l) as [s1|] eqn:E; [|done]. intros Hr. destruct (steps_left_step h s l s1 Hm Hc Hl E) as [Hlt Hc'].
  assert (main_stops s1) as Hm' by (apply (main_stops_step h s l); [by intros ->|done..]).
  destruct (IH s1 s' Hm' Hc' Ht' Hr). split; [lia|done].
Qed.
Lemma progress h s : once_ok s → main_stops s → cancelled s = true → clients s = 0%nat → main s ≠ MExited →
  ∃ l, internal l = true ∧ step h s l ≠ None.
Proof.
  intros (_ & _ & _ & H4) (H1 & H2 & H3 & Hd & H5) Hc Hz Hm. unfold stop_by_main in H3. destruct (once s) as [[w p]|] eqn:Eo; [|destruct H3; congruence].
  destruct H3 as (-> & Hmw & Hp). destruct (main s) eqn:Em; [done| |done].
  destruct (decide (p = PDone)) as [->|Hnd]; [exists LMainReturns; cbn; by rewrite Em, Eo|].
  destruct (decide (p = PControlWait)) as [->|Hncw].
  { destruct (accepting s) eqn:Ea; [exists LAcceptEnds; cbn; cbn in H5; by rewrite Ea, H5|].
    exists LStop. cbn. unfold stop_step. by rewrite Eo, Ea, Hz. }
  destruct (decide (p = PWait)) as [->|Hnw]; [|exists LStop; cbn; unfold stop_step; rewrite Eo; by destruct p].
  destruct (watcher s) eqn:Ew; [exists LWatcherEnds; cbn; by rewrite Ew|].
  destruct (receiver s) as [[|]|] eqn:Er; [exists LRecvFails; cbn; by rewrite Hc, Er|exists (LHandled Other); cbn; by rewrite Er|].
  destruct (forwarders s) eqn:Ef; [|exists LForwarderEnds; cbn; by rewrite Ef].
  destruct (handler s) eqn:Eh; [exists LHandlerCtx; cbn; by rewrite Eh, Hc|done|].
  destruct (grpc s) eqn:Eg; [exists LGrpcCheck|exists (LGrpcDial false)|exists LGrpcCtx|exists LGrpcWake|exists LStop]; cbn;
    rewrite ?Eg, ?Er, ?Hc; try done. unfold stop_step. rewrite Eo. unfold wg. by rewrite Ew, Eg, Er, Ef, Eh.
Qed.

(** C35: without an interrupt Stop ends: once the context is cancelled, the daemon makes at most
    [steps_left] more steps of its own, and where none is left and no client is on
    the control socket, main has returned. *)
Theorem stop_ends h c t s : run h (start c) t = Some s → LInterrupt ∉ t → cancelled s = true →
  ∀ t' s', Forall (λ l, internal l = true) t' → run h s t' = Some s' →
    (length t' <= steps_left s)%nat ∧
    ((∀ l, internal l = true → step h s' l = None) → clients s' = 0%nat → main s' = MExited).
Proof.
  intros Hr Hn Hc t' s' Hi Hr'. assert (main_stops s) as Hm by (by eapply main_stops_run; [|apply main_stops_start|]).
  destruct (internal_bound h t' s s' Hm Hc Hi Hr') as [Hb Hc']. split; [lia|]. intros Hstuck Hz.
  assert (once_ok s') as Hok.
  { apply (shutdown_inv once_ok h (once_ok_step h) (t ++ t') (start c)); [apply once_ok_start|]. by rewrite shutdown_app, Hr. }
  assert (main_stops s') as Hm' by (by eapply main_stops_run; [apply internal_calm|exact Hm|]).
  destruct (decide (main s' = MExited)) as [|Hne]; [done|]. destruct (progress h s' Hok Hm' Hc' Hz Hne) as (l & Hl & Hs). by destruct Hs; apply Hstuck.
Qed.

(** ** What Stop waits for, and what it leaves *)

Lemma client_step h s l s' w : once s = Some (w, PControlWait) → clients s ≠ 0%nat → closed s = true → l ≠ LClientLeaves →
  step h s l = Some s' → once s' = Some (w, PControlWait) ∧ clients s' ≠ 0%nat ∧ closed s' = true.
Proof.
  intros Ho Hz Hc Hl Hs. step_split l Hs; try done.
  all: destruct s; cbn in *; subst; step_cases Hs; cbn; try done.
Qed.
(** Stop waits for the terminals: while a client is on the control socket, attached to
    a session or only connected, Stop does not get past the control server, whatever
    else happens: no session is closed, no agent stopped, and main does not return. *)
Theorem stop_waits_for_clients h c t s w t' s' : run h (start c) t = Some s → once s = Some (w, PControlWait) → clients s ≠ 0%nat →
  LClientLeaves ∉ t' → run h s t' = Some s' → once s' = Some (w, PControlWait) ∧ main s' ≠ MExited.
Proof.
  intros Hr Ho Hz Hn Hr'.
  assert (once_ok s') as (_ & H2 & _).
  { apply (shutdown_inv once_ok h (once_ok_step h) (t ++ t') (start c)); [apply once_ok_start|]. by rewrite shutdown_app, Hr. }
  assert (listener_closed (once s) (closed s)) as Hcl.
  { apply (shutdown_inv (λ s, listener_closed (once s) (closed s)) h) with (t := t) (s := start c); [|done|done].
    intros x l x' Hx Hs. step_split l Hs; destruct x; cbn in *; step_cases Hs; cbn; subst; try done; cbn in *; repeat case_match; naive_solver. }
  rewrite Ho in Hcl. cbn in Hcl. assert (once s' = Some (w, PControlWait)) as E.
  { clear H2 Hr. revert s Ho Hz Hcl Hr'. induction t' as [|l t' IH]; intros s Ho Hz Hcl; cbn; [by intros [= <-]|].
    rewrite elem_of_cons in Hn. destruct (step h s l) as [s1|] eqn:E; [|done].
    destruct (client_step h s l s1 w Ho Hz Hcl) as (? & ? & ?); [intros ->; tauto|done|]. apply IH; tauto. }
  split; [done|]. intros Hm. destruct (H2 Hm) as [w' Hw]. congruence.
Qed.

(** The connections that were made. *)
Definition dial (l : label) : nat := match l with LGrpcDial true => 1 | _ => 0 end.
Definition dials (t : list label) : nat := sum_list (dial <$> t).
Definition conns_are (n : nat) (s : State) : Prop :=
  match once s with
  | Some (_, PWait) | Some (_, PDone) => (conns s <= n <= S (conns s))%nat
  | _ => conns s = n
  end.
Lemma conns_step h s l s' n : conns_are n s → step h s l = Some s' → conns_are (n + dial l) s'.
Proof.
  unfold conns_are. intros Hn Hs. step_split l Hs; try done.
  all: destruct s; cbn in *; subst; step_cases Hs; cbn; subst; cbn in *; repeat case_match; simplify_eq; try lia.
Qed.
(** a connection that is lost is never closed: until Stop is past its connection, as many are
    open as were made, however many of them have been lost; Stop closes one. *)
Theorem connections_leak h c t s : run h (start c) t = Some s →
  (conns s <= dials t <= S (conns s))%nat ∧
  ((∀ w, once s ≠ Some (w, PWait) ∧ once s ≠ Some (w, PDone)) → conns s = dials t).
Proof.
  assert (∀ t s n s', conns_are n s → run h s t = Some s' → conns_are (n + dials t) s') as H.
  { clear t s. intros t. induction t as [|l t IH]; intros s n s' Hn; cbn; [intros [= <-]; by rewrite Nat.add_0_r|].
    destruct (step h s l) as [s1|] eqn:E; [|done]. intros Hr. rewrite Nat.add_assoc. by eapply IH; [eapply conns_step|]. }
  intros Hr. assert (conns_are (dials t) s) as Hc by (apply (H t (start c) 0%nat s); done). unfold conns_are in Hc. split.
  - repeat case_match; lia.
  - intros Hw. destruct (once s) as [[w p]|]; [|done]. destruct (Hw w). by destruct p.
Qed.

(** ** Runs *)

(** Connected, with a start request in the handler, when the service is stopped. *)
Definition late_start : list label :=
  [LGrpcCheck; LGrpcDial true; LMessage; LRecv; LTerminate; LMainTakes; LStop; LStop; LAcceptEnds; LStop; LStop;
   LHandled Started; LRecvFails; LGrpcCtx; LStop; LStop; LHandlerCtx; LWatcherEnds; LStop; LMainReturns].
(** a session that is started while Stop runs is never closed: the daemon may have ended
    with its process running. *)
Theorem late_session_survives :
  ∃ s, run Service (start true) late_start = Some s ∧ main s = MExited ∧ wg s = 0%nat ∧ sessions s = 1%nat.
Proof. eexists. vm_compute. split_and!; reflexivity. Qed.

Definition interrupted : list label := [LGrpcCheck; LGrpcDial true; LInterrupt; LHandlerTakes; LStop].
Definition after_interrupt : list label := [LStop; LAcceptEnds; LStop; LStop; LStop; LStop; LGrpcCtx; LRecvFails; LWatcherEnds].
Definition at_interrupt : State := default (start true) (run Unix (start true) interrupted).
Definition hung : State := default (start true) (run Unix at_interrupt after_interrupt).
Lemma interrupt_hangs_witness : handler hung = HStop ∧ main hung ≠ MExited ∧ run Unix at_interrupt after_interrupt = Some hung.
Proof.
  assert (run Unix (start true) interrupted = Some at_interrupt) as H1 by (vm_compute; reflexivity).
  assert (run Unix at_interrupt after_interrupt = Some hung) as H2 by (vm_compute; reflexivity).
  assert (handler at_interrupt = HStop) as Hh by (vm_compute; reflexivity).
  destruct (proj2 (interrupt_hangs Unix true interrupted at_interrupt H1) Hh after_interrupt hung H2) as (Ha & Hb & _). done.
Defined.
Definition stopping : list label := [LTerminate; LMainTakes; LStop].
Definition stopped_run : list label := [LStop; LAcceptEnds; LStop; LStop; LStop; LStop; LGrpcCheck; LHandlerCtx; LWatcherEnds; LStop; LMainReturns].
Definition at_stop : State := default (start true) (run Service (start true) stopping).
Definition at_end : State := default (start true) (run Service at_stop stopped_run).
Lemma stop_ends_witness : (length stopped_run <= steps_left at_stop)%nat ∧ main at_end = MExited.
Proof.
  assert (LInterrupt ∉ stopping) as Hn by (intros H; repeat (apply elem_of_cons in H as [H|H]; [done|]); by apply elem_of_nil in H).
  assert (Forall (λ l, internal l = true) stopped_run) as Hi by (repeat constructor).
  assert (run Service (start true) stopping = Some at_stop) as H1 by (vm_compute; reflexivity).
  assert (run Service at_stop stopped_run = Some at_end) as H2 by (vm_compute; reflexivity).
  assert (cancelled at_stop = true) as Hc by (vm_compute; reflexivity).
  destruct (stop_ends Service true stopping at_stop H1 Hn Hc stopped_run at_end Hi H2) as [Hb He]. split; [exact Hb|].
  apply He; [|vm_compute; reflexivity]. intros l Hl. destruct l; try discriminate Hl; try destruct e; try destruct ok; vm_compute; reflexivity.
Defined.
Definition attached : list label := [LClient; LTerminate; LMainTakes; LStop; LStop].
Definition others : list label := [LWatcherEnds; LGrpcCheck; LAcceptEnds; LHandlerCtx].
Definition at_control : State := default (start true) (run Foreground (start true) attached).
Definition at_control_later : State := default (start true) (run Foreground at_control others).
Lemma stop_waits_for_clients_witness : once at_control_later = Some (Main, PControlWait) ∧ main at_control_later ≠ MExited.
Proof.
  assert (LClientLeaves ∉ others) as Hn by (intros H; repeat (apply elem_of_cons in H as [H|H]; [done|]); by apply elem_of_nil in H).
  assert (run Foreground (start true) attached = Some at_control) as H1 by (vm_compute; reflexivity).
  assert (run Foreground at_control others = Some at_control_later) as H2 by (vm_compute; reflexivity).
  assert (once at_control = Some (Main, PControlWait)) as Ho by (vm_compute; reflexivity).
  assert (clients at_control ≠ 0%nat) as Hz by (vm_compute; discriminate).
  exact (stop_waits_for_clients Foreground true attached at_control Main others at_control_later H1 Ho Hz Hn H2).
Defined.
Definition reconnecting : list label := [LGrpcCheck; LGrpcDial true; LBroken; LGrpcLost; LGrpcWake; LGrpcCheck; LGrpcDial true].
Definition reconnected : State := default (start true) (run Unix (start true) reconnecting).
Lemma connections_leak_witness : conns reconnected = dials reconnecting ∧ dials reconnecting = 2%nat.
Proof.
  assert (run Unix (start true) reconnecting = Some reconnected) as H1 by (vm_compute; reflexivity).
  split; [|reflexivity]. apply (proj2 (connections_leak Unix true reconnecting reconnected H1)).
  intros w. split; vm_compute; discriminate.
Defined.
End Shutdown.
