(* ===== verification/Telemetry.v ===== *)
(** * src/pkg/telemetry and src/pkg/sysmetrics: what a satellite reads from /proc

    [Scrape]: scrape_linux.go and scrape_common.go, the wait state of a process from the files of
    /proc/<pid>. [SysMetrics]: collector.go and collector_linux.go, the load of the machine. A file
    is what reading it gives; arithmetic on float64 is taken to be exact. *)
From Stdlib Require Import Ascii String QArith Qfield.
From S2P Require Import Prelude GoStrings.
#[local] Open Scope string_scope.

Module Scrape.

Inductive ProcessState := StateUnknown | StateRunning | StateWaiting | StateSleeping | StateInputRequired | StateStopped | StateZombie.
Inductive WaitReason := WaitReasonUnknown | WaitReasonUserInput | WaitReasonIO | WaitReasonTimer | WaitReasonPoll | WaitReasonNetwork | WaitReasonLock.
#[export] Instance state_dec : EqDecision ProcessState.
Proof. solve_decision. Defined.
#[export] Instance reason_dec : EqDecision WaitReason.
Proof. solve_decision. Defined.
Record ProcessInfo := mkInfo { PID : Z; State : ProcessState; Reason : WaitReason; WaitChannel : string }.

(** ** The parts *)

(** What follows the first closing parenthesis. *)
Fixpoint after_paren (s : string) : option string :=
  match s with EmptyString => None | String c s' => if Ascii.eqb c ")" then Some s' else after_paren s' end.
Definition parseStateFromStat (stat : string) : string :=
  match after_paren stat with
  | Some (String _ (String c _)) => String c EmptyString
  | _ => ""
  end.
Definition contains_any (wchan : string) (l : list string) : bool := existsb (Str.Contains wchan) l.
Definition stateFromWchan (wchan : string) : ProcessState :=
  if String.eqb wchan "0" || String.eqb wchan "" then StateRunning else
  if contains_any wchan ["tty_read"; "n_tty_read"; "con廉read"; "pty_read"; "read_chan"; "file_read"; "pipe_read"] then StateInputRequired else StateWaiting.
Definition reasonFromWchan (wchan : string) : WaitReason :=
  if String.eqb wchan "0" || String.eqb wchan "" then WaitReasonUnknown else
  if contains_any wchan ["tty_read"; "n_tty_read"; "pty_read"; "read_chan"] then WaitReasonUserInput else
  if contains_any wchan ["__generic_file_aio_read"; "do_sync_read"; "do_sync_write"; "ext4_file_read"; "ext4_file_write"; "nfs_read"; "nfs_write"] then WaitReasonIO else
  if contains_any wchan ["do_select"; "poll"; "poll_do_select"; "ep_poll"] then WaitReasonPoll else
  if contains_any wchan ["tcp"; "udp"; "inet"; "sock"; "sk_wait"] then WaitReasonNetwork else
  if contains_any wchan ["hrtimer"; "schedule_timeout"; "wait_for_timer"] then WaitReasonTimer else
  if contains_any wchan ["mutex"; "lock"; "down"; "bit_wait"] then WaitReasonLock else WaitReasonUnknown.
Definition stateMap : list (string * ProcessState) :=
  [("R", StateRunning); ("S", StateSleeping); ("D", StateWaiting); ("Z", StateZombie); ("T", StateStopped); ("t", StateStopped);
   ("I", StateSleeping); ("X", StateZombie); ("x", StateZombie); ("K", StateStopped); ("P", StateStopped)].
Fixpoint assoc (l : list (string * ProcessState)) (k : string) : option ProcessState :=
  match l with [] => None | (x, v) :: l' => if String.eqb x k then Some v else assoc l' k end.
Definition determineState (statState wchan : string) : ProcessState :=
  match assoc stateMap statState with
  | Some state =>
      if bool_decide (state = StateWaiting ∨ state = StateSleeping) && bool_decide (reasonFromWchan wchan = WaitReasonUserInput)
      then StateInputRequired else state
  | None => stateFromWchan wchan
  end.

(** ** ScrapeProcess *)

Inductive scrape_error := ErrProcessNotFound | ErrPermissionDenied | ErrRead.
Inductive file := Data (s : string) | NotExist | Permission | Broken.
(** The files wchan and stat of the process; status is read and not used. *)
Record proc := mkProc { wchan : file; stat : file }.
Definition ScrapeProcess (pid : Z) (p : proc) : result scrape_error ProcessInfo :=
  match wchan p with
  | NotExist => Err ErrProcessNotFound
  | Permission => Err ErrPermissionDenied
  | Broken => Err ErrRead
  | Data w =>
      let waitChannel := Str.TrimSpace w in
      match stat p with
      | Data st => Ok (mkInfo pid (determineState (parseStateFromStat st) waitChannel) (reasonFromWchan waitChannel) waitChannel)
      | _ => Ok (mkInfo pid (stateFromWchan waitChannel) (reasonFromWchan waitChannel) waitChannel)
      end
  end.

(** containsString, and its loop over the positions: a slice of the string at each. *)
Fixpoint containsSubstring_from (s substr : string) (i left : nat) : bool :=
  match left with
  | O => false
  | S n => String.eqb (substring i (String.length substr) s) substr || containsSubstring_from s substr (S i) n
  end.
Definition containsSubstring (s substr : string) : bool := containsSubstring_from s substr 0 (S (String.length s) - String.length substr).
Definition containsString (s substr : string) : bool :=
  (String.length substr <=? String.length s)%nat && (String.eqb s substr || ((0 <? String.length s)%nat && containsSubstring s substr)).
Definition terminalWaitChannels : list string := ["tty_read"; "n_tty_read"; "con_read"; "pty_read"; "read_chan"; "file_read"].
Definition DetectInputRequired (info : ProcessInfo) : bool :=
  bool_decide (State info = StateInputRequired) || bool_decide (Reason info = WaitReasonUserInput) ||
  existsb (containsString (WaitChannel info)) terminalWaitChannels.

(** WaitForInput: the n-th scrape; the result and how often it scraped. [fuel] is for the recursion; None: it is used up. *)
Fixpoint wait_loop (scrape : nat → result scrape_error ProcessInfo) (timeoutMs elapsed : Z) (n fuel : nat) : option (result scrape_error bool * nat) :=
  match fuel with
  | O => None
  | S fuel =>
      if negb (elapsed <? timeoutMs)%Z then Some (Ok false, n) else
      match scrape n with
      | Err ErrProcessNotFound => Some (Ok false, S n)
      | Err e => Some (Err e, S n)
      | Ok info =>
          if DetectInputRequired info then Some (Ok true, S n) else
          if bool_decide (State info = StateRunning) then Some (Ok false, S n) else wait_loop scrape timeoutMs (elapsed + 100) (S n) fuel
      end
  end.
Definition WaitForInput scrape (timeoutMs : Z) (fuel : nat) := wait_loop scrape timeoutMs 0 0 fuel.

(** ** Properties *)

Lemma substring_prefix s x : String.eqb (substring 0 (String.length x) s) x = Str.HasPrefix s x.
Proof.
  unfold Str.HasPrefix. revert s. induction x as [|c x IH]; intros s; [by destruct s|]. destruct s as [|d s]; [done|]. cbn [substring String.length Str.strip_prefix String.eqb].
  rewrite (Ascii.eqb_sym d c). destruct (Ascii.eqb c d); [apply IH|]. by rewrite bool_decide_false by (by intros []).
Qed.
Lemma substring_S c s i n : substring (S i) n (String c s) = substring i n s.
Proof. done. Qed.
Lemma from_shift c s x i n : containsSubstring_from (String c s) x (S i) n = containsSubstring_from s x i n.
Proof. revert i. induction n as [|n IH]; intros i; cbn; [done|]. by rewrite IH. Qed.
Lemma substring_short s x n i : (String.length s < String.length x)%nat → String.eqb (substring i n s) x = false.
Proof.
  intros H. apply not_true_iff_false. intros E%String.eqb_eq. assert (String.length (substring i n s) ≤ String.length s)%nat as Hl; [|rewrite E in Hl; lia].
  clear. revert i n. induction s as [|c s IH]; intros [|i] [|n]; cbn; try lia.
  - specialize (IH 0%nat n). lia.
  - specialize (IH i 0%nat). lia.
  - specialize (IH i (S n)). lia.
Qed.
Lemma Contains_short s x : (String.length s < String.length x)%nat → Str.Contains s x = false.
Proof.
  induction s as [|c s IH]; intros H; cbn [Str.Contains]; rewrite <-substring_prefix, substring_short by done; [done|]. apply IH. cbn in H. lia.
Qed.
Lemma containsSubstring_Contains s x : containsSubstring s x = Str.Contains s x.
Proof.
  unfold containsSubstring. induction s as [|c s IH].
  - destruct x; [done|]. cbn [String.length Nat.sub containsSubstring_from]. by rewrite Contains_short by (cbn; lia).
  - destruct (decide (String.length (String c s) < String.length x)%nat) as [Hl|Hl].
    + rewrite Contains_short by done. by replace (S (String.length (String c s)) - String.length x)%nat with 0%nat by lia.
    + replace (S (String.length (String c s)) - String.length x)%nat with (S (S (String.length s) - String.length x)) by (cbn in *; lia).
      cbn [containsSubstring_from Str.Contains]. rewrite substring_prefix. f_equal. rewrite from_shift. apply IH.
Qed.
Lemma prefix_Contains s x : Str.HasPrefix s x = true → Str.Contains s x = true.
Proof. intros H. destruct s; cbn [Str.Contains]; by rewrite H. Qed.
Lemma n_tty w : Str.Contains w "tty_read" = false → Str.Contains w "n_tty_read" = false.
Proof.
  intros H. apply not_true_iff_false. intros Hc. apply not_true_iff_false in H. apply H. clear H. revert Hc. induction w as [|c w IH]; [done|]. cbn [Str.Contains]. rewrite !orb_true_iff.
  intros [(t & E)%Str.HasPrefix_true|Hc]; [|by right; apply IH]. right. injection E as _ ->. change ("_tty_read" +:+ t) with (String "_" ("tty_read" +:+ t)). cbn [Str.Contains]. apply orb_true_iff. right. apply prefix_Contains. apply (Str.HasPrefix_app "tty_read").
Qed.
Lemma containsString_Contains' s x : containsString s x = Str.Contains s x.
Proof.
  unfold containsString. rewrite containsSubstring_Contains. destruct (Nat.leb_spec (String.length x) (String.length s)) as [Hl|Hl]; [|by rewrite Contains_short].
  cbn [andb]. destruct (String.eqb_spec s x) as [->|Hn]; cbn [orb].
  - symmetry. assert (Str.HasPrefix x x = true) as H by (apply Str.HasPrefix_true; exists ""; by rewrite Str.app_nil_str).
    destruct x; cbn [Str.Contains]; by rewrite H.
  - destruct s; [|done]. destruct x; [done|]. cbn in Hl. lia.
Qed.
(** the home-made containsString is strings.Contains. *)
Theorem containsString_Contains s x : containsString s x = Str.Contains s x.
Proof. apply containsString_Contains'. Qed.

Fixpoint no_paren (s : string) : Prop := match s with EmptyString => True | String c s' => c ≠ ")"%char ∧ no_paren s' end.
Lemma after_paren_app s t : no_paren s → after_paren (s +:+ String ")" t) = Some t.
Proof.
  induction s as [|c s IH]; [done|]. intros [Hc Hs]. change (String c s +:+ String ")" t) with (String c (s +:+ String ")" t)). cbn [after_paren].
  destruct (Ascii.eqb_spec c ")"); [done|]. by apply IH.
Qed.
(** the state is the character after the name of the process, if the name has no parenthesis. A
    process chooses its name: one with a parenthesis chooses its state. *)
Theorem stat_state pid comm c rest : no_paren pid → no_paren comm →
  parseStateFromStat (pid +:+ " (" +:+ comm +:+ ") " +:+ String c rest) = String c EmptyString ∧
  ∀ d, parseStateFromStat (pid +:+ " (" +:+ comm +:+ ") " +:+ String d (") " +:+ String c rest)) = String d EmptyString.
Proof.
  intros Hp Hc. assert (∀ t, after_paren (pid +:+ " (" +:+ comm +:+ String ")" t) = Some t) as H.
  { intros t. rewrite <-!Str.app_assoc_str. apply after_paren_app. revert Hp. clear -Hc. induction pid as [|x pid IH]; cbn; [|naive_solver]. intros _. split_and!; done. }
  unfold parseStateFromStat. split; [|intros d]; change (") " +:+ ?t) with (String ")" (String " " t)); rewrite H; done.
Qed.

(** whether input is required: for a process whose state is one that the kernel reports, it is whether the wait
    channel names one of five functions, whatever the state. A process that reads a file of an ext4 disk
    is one of them, and one that reads a pipe is not, although stateFromWchan says so. *)
Theorem input_required_iff pid w st info : is_Some (assoc stateMap (parseStateFromStat st)) →
  ScrapeProcess pid (mkProc (Data w) (Data st)) = Ok info →
  DetectInputRequired info = contains_any (Str.TrimSpace w) ["tty_read"; "con_read"; "pty_read"; "read_chan"; "file_read"].
Proof.
  intros [s Hs] [= <-]. unfold DetectInputRequired. cbn [State Reason WaitChannel]. unfold determineState. rewrite Hs. generalize (Str.TrimSpace w) as wc. clear w. intros wc.
  assert (existsb (containsString wc) terminalWaitChannels = contains_any wc ["tty_read"; "con_read"; "pty_read"; "read_chan"; "file_read"]) as ->.
  { unfold terminalWaitChannels, contains_any. cbn [existsb]. rewrite !containsString_Contains'. destruct (Str.Contains wc "tty_read") eqn:E; [done|]. by rewrite (n_tty wc E). }
  set (c := contains_any wc _). assert (reasonFromWchan wc = WaitReasonUserInput → c = true) as Hr.
  { unfold reasonFromWchan. destruct (String.eqb wc "0" || String.eqb wc ""); [done|]. destruct (contains_any wc ["tty_read"; "n_tty_read"; "pty_read"; "read_chan"]) eqn:E.
    - intros _. unfold c, contains_any in *. cbn [existsb] in *. destruct (Str.Contains wc "tty_read") eqn:E1; [done|]. rewrite (n_tty wc E1) in E. cbn in E |- *.
      destruct (Str.Contains wc "con_read"); [done|]. destruct (Str.Contains wc "pty_read"); [done|]. destruct (Str.Contains wc "read_chan"); [done|]. done.
    - repeat (destruct (contains_any wc _); [done|]). done. }
  assert (s ≠ StateInputRequired) as Hni by (intros ->; revert Hs; unfold stateMap; cbn [assoc]; repeat case_match; done).
  destruct (decide (reasonFromWchan wc = WaitReasonUserInput)) as [E|E].
  - rewrite (bool_decide_true (reasonFromWchan wc = _)) by done. rewrite (Hr E). by rewrite !orb_true_r.
  - rewrite (bool_decide_false (reasonFromWchan wc = _)) by done. rewrite andb_false_r, orb_false_r, bool_decide_false by done. done.
Qed.

(** WaitForInput ends after at most one scrape for each 100 ms of the timeout, and does not wait between them; it
    answers true exactly where it meets a process that needs input before one that has ended, fails
    or runs. *)
Theorem WaitForInput_ends scrape timeoutMs : (0 <= timeoutMs)%Z → ∃ r n,
  WaitForInput scrape timeoutMs (S (Z.to_nat ((timeoutMs + 99) / 100))) = Some (r, n) ∧ (Z.of_nat n <= (timeoutMs + 99) / 100)%Z ∧
  (r = Ok true ↔ ∃ k info, S k = n ∧ scrape k = Ok info ∧ DetectInputRequired info = true).
Proof.
  intros Ht. unfold WaitForInput. assert (∀ fuel k, (timeoutMs <= 100 * (Z.of_nat k + Z.of_nat fuel))%Z → ∃ r n,
    wait_loop scrape timeoutMs (100 * Z.of_nat k) k (S fuel) = Some (r, n) ∧ (k ≤ n)%nat ∧ (k = n ∨ (100 * (Z.of_nat n - 1) < timeoutMs)%Z) ∧
    (r = Ok true → ∃ j info, S j = n ∧ scrape j = Ok info ∧ DetectInputRequired info = true) ∧
    (r ≠ Ok true → k = n ∨ ∃ j, S j = n ∧ ∀ info, scrape j = Ok info → DetectInputRequired info = false)) as H.
  { induction fuel as [|fuel IH]; intros k Hk; cbn [wait_loop]; (destruct (Z.ltb_spec (100 * Z.of_nat k) timeoutMs) as [Hlt|Hge]; cbn [negb];
      [|exists (Ok false), k; split_and!; [done|lia|by left|done|by left]]); [lia|].
    destruct (scrape k) as [info|e] eqn:Es.
    - destruct (DetectInputRequired info) eqn:Ed; [exists (Ok true), (S k); split_and!; [done|lia|right; lia|by exists k, info|done]|].
      destruct (bool_decide (State info = StateRunning)).
      { exists (Ok false), (S k). split_and!; [done|lia|right; lia|done|]. intros _. right. exists k. split; [done|]. intros i. rewrite Es. by intros [= <-]. }
      destruct (IH (S k)) as (r & n & Hr & Hn & Hb & H1 & H2); [lia|]. exists r, n. split_and!; [|lia|right; lia|done|].
      + rewrite <-Hr. cbn [wait_loop]. by replace (100 * Z.of_nat k + 100)%Z with (100 * Z.of_nat (S k))%Z by lia.
      + intros Hne. right. destruct (H2 Hne) as [<-|]; [|done]. exists k. split; [done|]. intros i. rewrite Es. by intros [= <-].
    - exists (match e with ErrProcessNotFound => Ok false | _ => Err e end), (S k). split_and!; [by destruct e|lia|right; lia|by destruct e|].
      intros _. right. exists k. split; [done|]. intros i. by rewrite Es. }
  destruct (H (Z.to_nat ((timeoutMs + 99) / 100)) 0%nat) as (r & n & Hr & _ & Hb & H1 & H2).
  { rewrite Z2Nat.id by (apply Z.div_pos; lia). pose proof (Z.div_mod (timeoutMs + 99) 100). pose proof (Z.mod_pos_bound (timeoutMs + 99) 100). lia. }
  exists r, n. split_and!; [done| |].
  - destruct Hb as [<-|Hb]; [apply Z.div_pos; lia|]. apply Z.div_le_lower_bound; lia.
  - split; [apply H1|]. intros (k & info & <- & Hs & Hd). assert (r = Ok true ∨ r ≠ Ok true) as [|Hne] by (destruct r as [[]|]; naive_solver); [done|]. destruct (H2 Hne) as [|(j & [= <-] & Hj)]; [done|].
    by rewrite (Hj info Hs) in Hd.
Qed.

(** *** Examples *)

Definition reading_disk : proc := mkProc (Data "ext4_file_read_iter") (Data "42 (cat) D 1 42").
Definition spoofed : string := "42 (x) R) S 1 42".
Lemma stat_state_witness : parseStateFromStat "42 (bash) S 1 42" = "S" ∧ parseStateFromStat spoofed = "R".
Proof. split; [apply (stat_state "42" "bash" "S" " 1 42")|apply (stat_state "42" "x" "S" " 1 42")]; cbn; split_and!; done. Defined.
Lemma input_required_iff_witness : ∃ info, ScrapeProcess 42 reading_disk = Ok info ∧ DetectInputRequired info = true ∧ Reason info = WaitReasonIO.
Proof.
  eexists. split; [vm_compute; reflexivity|]. split; [|reflexivity].
  etrans; [eapply (input_required_iff 42 "ext4_file_read_iter" "42 (cat) D 1 42"); [vm_compute; eexists; reflexivity|vm_compute; reflexivity]|vm_compute; reflexivity].
Defined.
Definition sleeping : ProcessInfo := mkInfo 42 StateSleeping WaitReasonPoll "do_poll".
Lemma WaitForInput_ends_witness : ∃ r n, WaitForInput (λ _, Ok sleeping) 250 4 = Some (r, n) ∧ (Z.of_nat n <= 3)%Z.
Proof. destruct (WaitForInput_ends (λ _, Ok sleeping) 250) as (r & n & H & Hn & _); [done|]. exists r, n. split; [exact H|exact Hn]. Defined.
End Scrape.

(** ** The load of the machine *)

Module SysMetrics.
#[local] Open Scope Z_scope.

(** strings.Fields *)
Fixpoint fields_from (s cur : string) : list string :=
  let push l := if String.eqb cur "" then l else cur :: l in
  match s with
  | EmptyString => push []
  | String c s' => if Str.is_space c then push (fields_from s' "") else fields_from s' (cur +:+ String c "")
  end.
Definition Fields (s : string) : list string := fields_from s "".
(** strings.Split(s, ", ") *)
Fixpoint split_comma (s cur : string) : list string :=
  match s with
  | EmptyString => [cur]
  | String c s' =>
      match c, s' with
      | ","%char, String " " s'' => cur :: split_comma s'' ""
      | _, _ => split_comma s' (cur +:+ String c "")
      end
  end.
Definition max_uint64 : Z := 18446744073709551615.
Definition uint64 (z : Z) : Z := z mod 18446744073709551616.
(** ParseUint(s, 10, 64), its error ignored: 0 for what is no number, the largest for what is too large. *)
Definition ParseUint (s : string) : Z := match Str.digits s with Some v => Z.min v max_uint64 | None => 0 end.
(** ParseInt(s, 10, 64), its error ignored; no value of /proc/meminfo is out of range. *)
Definition ParseInt (s : string) : Z := default 0 (Str.Atoi s).

(** *** collectCPU *)

Record prev := mkPrev { prevIdle : Z; prevTotal : Z; hasPrev : bool }.
Inductive cpu_error := NoFile | UnexpectedFormat | NoLine.
Definition percent (idleDelta totalDelta : Z) : Q := ((1 - inject_Z idleDelta / inject_Z totalDelta) * 100)%Q.
Definition values (fields : list string) : list Z := ParseUint <$> take 10 (tail fields).
Definition idle_of (v : list Z) : Z := uint64 (nth 3 v 0 + nth 4 v 0).
Fixpoint sum (v : list Z) : Z := match v with [] => 0 | x :: v => x + sum v end.
Definition total_of (v : list Z) : Z := uint64 (sum v).
Definition cpu_sample (p : prev) (v : list Z) : prev * Q :=
  let idle := idle_of v in let total := total_of v in
  let p' := mkPrev idle total true in
  if negb (hasPrev p) then (p', 0%Q) else
  let totalDelta := uint64 (total - prevTotal p) in
  if totalDelta =? 0 then (p', 0%Q) else (p', percent (uint64 (idle - prevIdle p)) totalDelta).
Definition collectCPU (p : prev) (stat : option (list string)) : prev * result cpu_error Q :=
  match stat with
  | None => (p, Err NoFile)
  | Some lines =>
      match head (filter (λ l, Str.HasPrefix l "cpu " = true) lines) with
      | None => (p, Err NoLine)
      | Some line => if (length (Fields line) <? 5)%nat then (p, Err UnexpectedFormat) else
                     let '(p', q) := cpu_sample p (values (Fields line)) in (p', Ok q)
      end
  end.

(** *** collectMemory, collectDisk *)

Definition int64 (z : Z) : Z := (z + 9223372036854775808) mod 18446744073709551616 - 9223372036854775808.
Definition mem_line (acc : Z * Z) (line : string) : Z * Z :=
  let v := int64 (ParseInt (nth 1 (Fields line) "") * 1024) in
  let two := (2 <=? length (Fields line))%nat in
  if Str.HasPrefix line "MemTotal:" then (if two then v else acc.1, acc.2)
  else if Str.HasPrefix line "MemAvailable:" then (acc.1, if two then v else acc.2) else acc.
Definition collectMemory (meminfo : option (list string)) : option (Z * Z) :=
  match meminfo with
  | None => None
  | Some lines => let '(memTotal, memAvailable) := foldl mem_line (0, 0) lines in
      if memTotal =? 0 then None else Some (int64 (memTotal - memAvailable), memTotal)
  end.
(** What Statfs gives: blocks, blocks available, block size. *)
Definition collectDisk (st : option (Z * Z * Z)) : option (Z * Z) :=
  (λ x, let '(blocks, bavail, bsize) := x in let total := int64 (blocks * bsize) in (int64 (total - int64 (bavail * bsize)), total)) <$> st.

(** *** collectGPU *)

Record GPUMetric := mkGPU { Index : Z; Name : string; UtilizationPercent : Z; GMemoryUsedBytes : Z; GMemoryTotalBytes : Z; TemperatureCelsius : Z }.
(** Sscanf of a number, 0 where it is none ("[N/A]"); nvidia-smi prints whole numbers with these columns. *)
Definition scan (s : string) : Z := default 0 (Str.Sscanf_d (Str.TrimSpace s)).
Fixpoint gpu_lines (i : Z) (lines : list string) : list GPUMetric :=
  match lines with
  | [] => []
  | line :: lines' =>
      match split_comma line "" with
      | f0 :: f1 :: f2 :: f3 :: f4 :: _ =>
          mkGPU i (Str.TrimSpace f0) (scan f1) (scan f2 * 1024 * 1024) (scan f3 * 1024 * 1024) (scan f4) :: gpu_lines (i + 1) lines'
      | _ => gpu_lines (i + 1) lines'
      end
  end.
Definition collectGPU (output : option string) : list GPUMetric :=
  match output with None => [] | Some o => gpu_lines 0 (Str.Split (Str.TrimSpace o) "010"%char) end.

(** *** Collect *)

Record Metrics := mkMetrics {
  CPUPercent : Q; MemoryPercent : Q; MemoryUsedBytes : Z; MemoryTotalBytes : Z; DiskPercent : Q; DiskUsedBytes : Z; DiskTotalBytes : Z;
  GPUs : list GPUMetric; Timestamp : Z;
}.
Definition share (used total : Z) : Q := if 0 <? total then (inject_Z used / inject_Z total * 100)%Q else 0%Q.
Definition Collect (p : prev) (stat meminfo : option (list string)) (disk : option (Z * Z * Z)) (smi : option string) (now : Z) : prev * Metrics :=
  let '(p', cpu) := collectCPU p stat in
  let '(mu, mt) := default (0, 0) (collectMemory meminfo) in
  let '(du, dt) := default (0, 0) (collectDisk disk) in
  (p', mkMetrics (match cpu with Ok q => q | Err _ => 0%Q end) (share mu mt) mu mt (share du dt) du dt (collectGPU smi) now).

(** *** Properties *)

Definition counters (v : list Z) : Prop := Forall (λ x, 0 <= x) v ∧ sum v <= max_uint64.
Lemma sum_nonneg v : Forall (λ x, 0 <= x) v → 0 <= sum v.
Proof. induction 1; cbn; lia. Qed.
(** Two of the summands together are no more than the sum. *)
Lemma idle_le v : Forall (λ x, 0 <= x) v → 0 <= nth 3 v 0 + nth 4 v 0 <= sum v.
Proof.
  intros H. assert (∀ i, 0 <= nth i v 0) as Hn by (intros i; destruct (nth_in_or_default i v 0) as [Hi| ->]; [|lia]; rewrite Forall_forall in H; apply H; by apply list_elem_of_In).
  split; [pose proof (Hn 3%nat); pose proof (Hn 4%nat); lia|]. clear Hn. do 5 (destruct H as [|? ? ? H]; [cbn; lia|]). cbn. apply sum_nonneg in H. lia.
Qed.
Lemma sum_mono v w : Forall2 Z.le v w → sum v <= sum w ∧ nth 3 w 0 + nth 4 w 0 - (nth 3 v 0 + nth 4 v 0) <= sum w - sum v ∧ nth 3 v 0 + nth 4 v 0 <= nth 3 w 0 + nth 4 w 0.
Proof.
  assert (∀ v w, Forall2 Z.le v w → sum v <= sum w) as Hs by (induction 1; cbn; lia).
  intros H. split; [by apply Hs|]. do 5 (destruct H as [|? ? ? ? ? H]; [cbn; lia|]). apply Hs in H. cbn. lia.
Qed.
Lemma uint64_id z : 0 <= z <= max_uint64 → uint64 z = z.
Proof. unfold uint64, max_uint64. intros. apply Z.mod_small. lia. Qed.
Lemma inject_pos t : 0 < t → (0 < inject_Z t)%Q.
Proof. intros H. change 0%Q with (inject_Z 0). by rewrite <-Zlt_Qlt. Qed.
Lemma percent_eq i t : 0 < t → (percent i t == inject_Z (100 * (t - i)) / inject_Z t)%Q.
Proof.
  intros Ht. unfold percent. pose proof (inject_pos t Ht) as H. rewrite inject_Z_mult. unfold Z.sub. rewrite inject_Z_plus, inject_Z_opp. change (inject_Z 100) with 100%Q.
  field. intros E. rewrite E in H. by apply Qlt_irrefl in H.
Qed.
(** the load of the CPU is between 0 and 100 where the counters of the kernel only grow. *)
Theorem cpu_bounds p v w : counters v → counters w → Forall2 Z.le v w →
  (0 <= (cpu_sample (cpu_sample p v).1 w).2 <= 100)%Q.
Proof.
  intros [Hv1 Hv2] [Hw1 Hw2] Hle. pose proof (idle_le v Hv1). pose proof (idle_le w Hw1). pose proof (sum_mono v w Hle) as (Hs & Hd & Hi).
  assert ((cpu_sample p v).1 = mkPrev (idle_of v) (total_of v) true) as ->. { unfold cpu_sample. destruct (negb (hasPrev p)); [done|]. by destruct (_ =? 0). }
  unfold cpu_sample. cbn [hasPrev negb prevTotal prevIdle]. unfold idle_of, total_of. rewrite !(uint64_id (sum _)), !(uint64_id (nth 3 _ 0 + nth 4 _ 0)) by lia.
  rewrite !uint64_id by lia. destruct (Z.eqb_spec (sum w - sum v) 0) as [|Hne]; [split; by vm_compute|]. cbn [snd]. rewrite percent_eq by lia.
  pose proof (inject_pos (sum w - sum v) ltac:(lia)) as Hp. split.
  - apply Qle_shift_div_l; [done|]. rewrite Qmult_0_l. change 0%Q with (inject_Z 0). rewrite <-Zle_Qle. lia.
  - apply Qle_shift_div_r; [done|]. change 100%Q with (inject_Z 100). rewrite <-inject_Z_mult, <-Zle_Qle. lia.
Qed.
(** where the idle time goes back, as iowait does, the difference wraps around and the load is negative. *)
Theorem cpu_negative p v w : counters v → counters w → sum v < sum w → nth 3 w 0 + nth 4 w 0 < nth 3 v 0 + nth 4 v 0 → sum w < max_uint64 - sum v →
  ((cpu_sample (cpu_sample p v).1 w).2 < 0)%Q.
Proof.
  intros [Hv1 Hv2] [Hw1 Hw2] Hs Hi Hm. pose proof (idle_le v Hv1). pose proof (idle_le w Hw1).
  assert ((cpu_sample p v).1 = mkPrev (idle_of v) (total_of v) true) as ->. { unfold cpu_sample. destruct (negb (hasPrev p)); [done|]. by destruct (_ =? 0). }
  unfold cpu_sample. cbn [hasPrev negb prevTotal prevIdle]. unfold idle_of, total_of. rewrite !(uint64_id (sum _)), !(uint64_id (nth 3 _ 0 + nth 4 _ 0)) by lia.
  rewrite (uint64_id (sum w - sum v)) by lia. destruct (Z.eqb_spec (sum w - sum v) 0); [lia|]. cbn [snd]. rewrite percent_eq by lia.
  set (d := nth 3 w 0 + nth 4 w 0 - (nth 3 v 0 + nth 4 v 0)) in *. assert (uint64 d = d + 18446744073709551616) as ->.
  { unfold uint64. rewrite <-(Z.mod_add d 1) by lia. apply Z.mod_small. unfold max_uint64 in *. lia. }
  pose proof (inject_pos (sum w - sum v) ltac:(lia)) as Hp. apply Qlt_shift_div_r; [done|]. rewrite Qmult_0_l. change 0%Q with (inject_Z 0). rewrite <-Zlt_Qlt. unfold max_uint64 in *. lia.
Qed.

Lemma mem_line_available acc line : Str.HasPrefix line "MemAvailable:" = false → (mem_line acc line).2 = acc.2.
Proof. intros H. unfold mem_line. rewrite H. by destruct (Str.HasPrefix line "MemTotal:"). Qed.
(** a kernel that does not report the memory that is available has, for the satellite, none: all of it is used. *)
Theorem memory_without_available lines used total : Forall (λ l, Str.HasPrefix l "MemAvailable:" = false) lines →
  collectMemory (Some lines) = Some (used, total) → used = int64 total.
Proof.
  intros H. cbn. assert ((foldl mem_line (0, 0) lines).2 = 0) as Hz.
  { change 0 with ((0, 0) : Z * Z).2 at 3. generalize ((0, 0) : Z * Z). induction H as [|l ls Hl _ IH]; intros acc; [done|]. cbn [foldl]. by rewrite IH, mem_line_available. }
  destruct (foldl mem_line (0, 0) lines) as [t a]. cbn in Hz. subst a. destruct (t =? 0); [done|]. intros [= <- <-]. by rewrite Z.sub_0_r.
Qed.
Lemma share_bounds used total : 0 <= used <= total → (0 <= share used total <= 100)%Q.
Proof.
  intros H. unfold share. destruct (Z.ltb_spec 0 total) as [Ht|]; [|split; by vm_compute]. pose proof (inject_pos total Ht) as Hp.
  assert (inject_Z used / inject_Z total * 100 == inject_Z (used * 100) / inject_Z total)%Q as ->.
  { rewrite inject_Z_mult. change (inject_Z 100) with 100%Q. field. intros E. rewrite E in Hp. by apply Qlt_irrefl in Hp. }
  split.
  - apply Qle_shift_div_l; [done|]. rewrite Qmult_0_l. change 0%Q with (inject_Z 0). rewrite <-Zle_Qle. lia.
  - apply Qle_shift_div_r; [done|]. change 100%Q with (inject_Z 100). rewrite <-inject_Z_mult, <-Zle_Qle. lia.
Qed.
(** a report is a report also where nothing could be read: Collect never fails, a part that fails is zero,
    and the percentages of memory and disk are between 0 and 100 where the used part is a part. *)
Theorem collect_bounds p stat meminfo disk smi now p' m : (∀ u t, collectMemory meminfo = Some (u, t) ∨ collectDisk disk = Some (u, t) → 0 <= u <= t) →
  Collect p stat meminfo disk smi now = (p', m) →
  (0 <= MemoryPercent m <= 100)%Q ∧ (0 <= DiskPercent m <= 100)%Q ∧
  (collectMemory meminfo = None → MemoryTotalBytes m = 0 ∧ MemoryPercent m = 0%Q) ∧ ((collectCPU p stat).1 = p').
Proof.
  intros H. unfold Collect. destruct (collectCPU p stat) as [p1 cpu]. destruct (collectMemory meminfo) as [[mu mt]|]; destruct (collectDisk disk) as [[du dt]|];
    cbn [default from_option id]; intros [= <- <-]; cbn [MemoryPercent DiskPercent MemoryTotalBytes fst];
    (split; [first [apply share_bounds, H; by left|split; by vm_compute]|]); (split; [first [apply share_bounds, H; by right|split; by vm_compute]|done]).
Qed.
(** the index of a GPU is the number of its line, also after a line that is skipped, and the indices grow. *)
Theorem gpu_index_is_line o : StronglySorted Z.lt (Index <$> collectGPU o) ∧
  ∀ g out, o = Some out → g ∈ collectGPU o → ∃ line f, Str.Split (Str.TrimSpace out) "010"%char !! Z.to_nat (Index g) = Some line ∧
    head (split_comma line "") = Some f ∧ Name g = Str.TrimSpace f.
Proof.
  assert (∀ lines i, 0 <= i → StronglySorted Z.lt (Index <$> gpu_lines i lines) ∧ ∀ g, g ∈ gpu_lines i lines → i <= Index g ∧ ∃ line f,
    lines !! Z.to_nat (Index g - i) = Some line ∧ head (split_comma line "") = Some f ∧ Name g = Str.TrimSpace f) as H.
  { induction lines as [|l lines IH]; intros i Hi; [split; [constructor|]; intros g Hg; by apply elem_of_nil in Hg|]. destruct (IH (i + 1) ltac:(lia)) as [Hs Hg].
    assert (∀ g, g ∈ gpu_lines (i + 1) lines → i <= Index g ∧ ∃ line f, (l :: lines) !! Z.to_nat (Index g - i) = Some line ∧ head (split_comma line "") = Some f ∧ Name g = Str.TrimSpace f) as Hrest.
    { intros g Hin. destruct (Hg g Hin) as (Hle & line & f & Hl & Hf). split; [lia|]. exists line, f. split; [|done].
      replace (Z.to_nat (Index g - i)) with (S (Z.to_nat (Index g - (i + 1)))) by lia. done. }
    cbn [gpu_lines]. destruct (split_comma l "") as [|f0 [|f1 [|f2 [|f3 [|f4 rest]]]]] eqn:E; [by split..|]. split.
    - cbn. constructor; [done|]. apply Forall_fmap, Forall_forall. intros g Hin. cbn. destruct (Hg g Hin). lia.
    - intros g [->|Hin]%elem_of_cons; [|by apply Hrest]. cbn. split; [lia|]. exists l, f0. rewrite Z.sub_diag, E. by split_and!. }
  destruct o as [out|]; [|split; [constructor|done]]. cbn [collectGPU]. destruct (H (Str.Split (Str.TrimSpace out) "010"%char) 0 ltac:(lia)) as [Hs Hg]. split; [done|].
  intros g out' [= <-] Hin. destruct (Hg g Hin) as (_ & line & f & Hl & Hf). rewrite Z.sub_0_r in Hl. by exists line, f.
Qed.

(** *** Examples *)

Definition v0 : list Z := [100; 0; 50; 800; 50; 0; 0; 0; 0; 0].
Definition v1 : list Z := [150; 0; 60; 900; 50; 0; 0; 0; 0; 0].
(** iowait has gone down. *)
Definition v2 : list Z := [250; 0; 60; 800; 40; 0; 0; 0; 0; 0].
Lemma demo_counters : counters v0 ∧ counters v1 ∧ counters v2.
Proof. split_and!; (split; [repeat constructor; lia|vm_compute; discriminate]). Qed.
Lemma cpu_bounds_witness : (0 <= (cpu_sample (cpu_sample (mkPrev 0 0 false) v0).1 v1).2 <= 100)%Q ∧ ((cpu_sample (cpu_sample (mkPrev 0 0 false) v0).1 v1).2 == 37.5)%Q.
Proof.
  destruct demo_counters as (H0 & H1 & _). split; [|vm_compute; reflexivity]. apply (cpu_bounds (mkPrev 0 0 false) v0 v1 H0 H1). repeat constructor; lia.
Defined.
Lemma cpu_negative_witness : ((cpu_sample (cpu_sample (mkPrev 0 0 false) v0).1 v2).2 < 0)%Q.
Proof. destruct demo_counters as (H0 & _ & H2). apply (cpu_negative (mkPrev 0 0 false) v0 v2 H0 H2); vm_compute; reflexivity. Defined.
Lemma memory_without_available_witness : collectMemory (Some ["MemTotal: 1000 kB"; "MemFree: 900 kB"]) = Some (1024000, 1024000) ∧ 1024000 = int64 1024000.
Proof. split; [vm_compute; reflexivity|]. apply (memory_without_available ["MemTotal: 1000 kB"; "MemFree: 900 kB"]); [repeat constructor|vm_compute; reflexivity]. Defined.
Lemma collect_bounds_witness : (0 <= MemoryPercent (Collect (mkPrev 0 0 false) None (Some ["MemTotal: 1000 kB"; "MemAvailable: 900 kB"]) None None 7).2 <= 100)%Q.
Proof.
  eapply (collect_bounds (mkPrev 0 0 false) None (Some ["MemTotal: 1000 kB"; "MemAvailable: 900 kB"]) None None 7); [|vm_compute; reflexivity].
  intros u t [H|H]; [|discriminate H]. vm_compute in H. injection H as <- <-. lia.
Defined.
Example two_gpus : Index <$> collectGPU (Some ("A100, 5, 10, 100, 40" +:+ String "010" ("broken" +:+ String "010" "T4, [N/A], 1, 2, 3"))) = [0; 2].
Proof. vm_compute. reflexivity. Qed.
End SysMetrics.
