(* ===== verification/SatelliteApi.v ===== *)
(** * internal/api/handlers.go: the satellite handlers

    The handlers of satellites, on the state of [SessionApi]: listing, creation
    (an upsert by name), deletion (which takes the sessions along), names, tags,
    the heartbeat endpoint and the configuration; and the two statements of
    cmd/nexus/main.go that run beside them, the liveness check and the recovery
    of sessions at start-up. The tags of a row are kept as a set. *)
From Stdlib Require Import Ascii String.
From stdpp Require Import pretty.
From S2P Require Import Prelude GoStrings SessionState SessionStore Channels Streams Auth Protocol Satellites SessionApi Gateway Daemon.
Import Session Store Proto Chan.
#[local] Open Scope Z_scope.

Module SatelliteApi.
Import SessionApi.
#[local] Existing Instances Sats.matches_dec Sats.newer_first_dec Sats.named_dec Sats.is_pending_dec.

Notation table := (gmap N Sats.Sat).

(** What a request meets. [referenced]: a row of agent_runs, pipelines,
    pipeline_runs or secret_scopes refers to the satellite. *)
Record env := mkEnv {
  now : Z; new_id : N;
  f_owner : bool; f_row : fault; f_pending : fault; f_query : query_fault;
  referenced : bool;
}.

(** A row of the listing: the ids as text. *)
Record SatelliteRow := mkRow { r_ID : string; r_OwnerID : string; r_row : Sats.Sat }.

Inductive Body :=
  | BList (l : list SatelliteRow)
  | BSatellite (id name owner st : string) (created : Z)
  | BError (msg : string)
  | BDeleted
  | BRenamed (id name : string)
  | BTags (id : string) (tags : list string)
  | BConfig (dms_ttl_minutes heartbeat_interval_seconds : Z)
  | BOk.
Record Response := mkResponse { status : Z; body : Body }.

Definition fails (w : World) (st : Z) (msg : string) : World * Response :=
  (w, mkResponse st (BError msg)).

(** The keys that sessions refer to are those of the table. *)
Definition set_table (w : World) (t : table) : World :=
  mkWorld (mkDB (sessions (db w)) (dom t) (event_logs (db w)) (event_seq (db w))) t
    (registry w) (outbox w) (pool w) (audited w) (notified w).

(** ON DELETE CASCADE of sessions.satellite_id *)
Definition delete_row (w : World) (id : N) : World :=
  mkWorld (mkDB (filter (λ p, SatelliteID p.2 ≠ id) (sessions (db w))) (dom (delete id (sats w)))
             (event_logs (db w)) (event_seq (db w))) (delete id (sats w))
    (registry w) (outbox w) (pool w) (audited w) (notified w).

Definition set_name (name : string) (now : Z) (s : Sats.Sat) : Sats.Sat :=
  Sats.mkSat name (Sats.s_owner s) (Sats.s_fingerprint s) (Sats.s_status s) (Sats.s_version s)
    (Sats.s_os s) (Sats.s_arch s) (Sats.s_agents s) (Sats.s_tags s) (Sats.s_created s) now.
Definition set_tags (tags : gset string) (now : Z) (s : Sats.Sat) : Sats.Sat :=
  Sats.mkSat (Sats.s_name s) (Sats.s_owner s) (Sats.s_fingerprint s) (Sats.s_status s)
    (Sats.s_version s) (Sats.s_os s) (Sats.s_arch s) (Sats.s_agents s) tags (Sats.s_created s) now.
(** DO UPDATE SET status = 'pending', fingerprint = NULL *)
Definition reset (now : Z) (s : Sats.Sat) : Sats.Sat :=
  Sats.mkSat (Sats.s_name s) (Sats.s_owner s) None "pending" (Sats.s_version s)
    (Sats.s_os s) (Sats.s_arch s) (Sats.s_agents s) (Sats.s_tags s) (Sats.s_created s) now.
(** The columns that the INSERT does not name have their defaults. *)
Definition pending_row (name : string) (now : Z) : Sats.Sat :=
  Sats.mkSat name 0 None "pending" "" "" "" [] ∅ now now.

(** The number of rows that a statement reports, if it does not fail. *)
Definition affected (t : table) (P : N → Sats.Sat → bool) (f : fault) : option nat :=
  match f with
  | NoFault => Some (size (filter (λ p, P p.1 p.2 = true) t))
  | _ => None
  end.

(** ** Tags *)

Definition lower_digit (c : ascii) : bool :=
  let n := nat_of_ascii c in
  ((48 <=? n)%nat && (n <=? 57)%nat) || ((97 <=? n)%nat && (n <=? 122)%nat).

(** ^[a-z0-9][a-z0-9-]*$ *)
Fixpoint tag_rest (s : string) : bool :=
  match s with
  | EmptyString => true
  | String c s' => (lower_digit c || Ascii.eqb c "-") && tag_rest s'
  end.
Definition tag_match (s : string) : bool :=
  match s with
  | EmptyString => false
  | String c s' => lower_digit c && tag_rest s'
  end.

(** The first objection to the tags. *)
Fixpoint check_tags (tags : list string) : option string :=
  match tags with
  | [] => None
  | tag :: tags' =>
      if 50 <? Z.of_nat (String.length tag) then Some "tag must not exceed 50 characters"
      else if negb (tag_match tag) then Some "tag must be lowercase alphanumeric with hyphens"
      else check_tags tags'
  end.
Definition validate_tags (tags : list string) : option string :=
  if 20 <? Z.of_nat (length tags) then Some "maximum 20 tags allowed" else check_tags tags.

Section Handlers.
Variable uuid_Parse : string → option N.
Variable uuid_String : N → string.
Variable arrange : list (N * Sats.Sat) → list (N * Sats.Sat).

(** ** The handlers *)

(** ORDER BY created_at DESC. [replica] is the table that rpool() reads. Every
    error gives an empty or a shorter list. *)
Definition HandleListSatellites (h : Handlers) (replica : table) (user : option RBAC.AuthUser)
    (e : env) : Response :=
  if negb (dbPool h) then mkResponse 200 (BList []) else
  let all := merge_sort Sats.newer_first (Sats.rows arrange replica) in
  let rows := match viewer_id uuid_Parse user with
              | Some userID => filter (λ p, Sats.s_owner p.2 = userID) all
              | None => all
              end in
  mkResponse 200 (BList
    ((λ p, mkRow (uuid_String p.1) (uuid_String (Sats.s_owner p.2)) p.2) <$> lenient_rows (Some rows) (f_query e))).

(** INSERT ... ON CONFLICT (name) DO UPDATE ... RETURNING id *)
Definition upsert (t : table) (id : N) (name : string) (now : Z) (f : fault) : table * option N :=
  match filter (Sats.named name) (map_to_list t) with
  | (old, s) :: _ => Sats.returning t (<[old := reset now s]> t) old f
  | [] => match t !! id with
          | Some _ => (t, None)
          | None => Sats.returning t (<[id := pending_row name now]> t) id f
          end
  end.

(** [req] is the field name of the body. *)
Definition HandleCreateSatellite (h : Handlers) (w : World) (req : option string) (e : env)
    : World * Response :=
  match req with
  | None => fails w 400 "invalid JSON request body"
  | Some name =>
      if String.eqb name "" then fails w 400 "name is required"
      else if 255 <? Z.of_nat (String.length name)
      then fails w 400 "name must not exceed 255 characters"
      else if negb (dbPool h) then fails w 503 "database not configured"
      else match upsert (sats w) (new_id e) name (now e) (f_row e) with
      | (t, None) => fails (set_table w t) 500 "failed to create satellite"
      | (t, Some id) =>
          let newID := default 0%N (uuid_Parse (uuid_String id)) in
          (set_table w t,
           mkResponse 201 (BSatellite (uuid_String newID) name (uuid_String 0) "pending" (now e)))
      end
  end.

(** The check for viewers compares the text of the owner with the user's id. *)
Definition owner_refuses (w : World) (user : option RBAC.AuthUser) (id : N) (e : env)
    : option (Z * string) :=
  match user with
  | Some u =>
      if String.eqb (RBAC.Role u) "viewer" then
        match (if f_owner e then None else sats w !! id) with
        | None => Some (404, "satellite not found")
        | Some s => if String.eqb (uuid_String (Sats.s_owner s)) (RBAC.ID u) then None
                    else Some (403, "you can only delete your own satellites")
        end
      else None
  | None => None
  end.

(** DELETE FROM satellites WHERE id = $1: refused while something else than a
    session refers to the row. *)
Definition delete_satellite (w : World) (id : N) (e : env) : World * option nat :=
  match f_row e with
  | StmtFails => (w, None)
  | f =>
      match sats w !! id with
      | None => (w, match f with NoFault => Some O | _ => None end)
      | Some _ =>
          if referenced e then (w, None)
          else (delete_row w id, match f with NoFault => Some 1%nat | _ => None end)
      end
  end.

Definition HandleDeleteSatellite (h : Handlers) (w : World) (user : option RBAC.AuthUser)
    (satelliteID : string) (e : env) : World * Response :=
  match uuid_Parse satelliteID with
  | None => fails w 400 "invalid satellite ID format"
  | Some id =>
      if negb (dbPool h) then fails w 503 "database not configured" else
      match owner_refuses w user id e with
      | Some (st, msg) => fails w st msg
      | None =>
          match delete_satellite w id e with
          | (w', None) => fails w' 500 "failed to delete satellite"
          | (w', Some O) => fails w' 404 "satellite not found"
          | (w', Some _) => (audit h w' "satellite.delete" satelliteID, mkResponse 200 BDeleted)
          end
      end
  end.

(** UPDATE satellites SET ... WHERE id = $2, and what the handlers make of the
    number of rows. *)
Definition update_row (w : World) (id : N) (g : Sats.Sat → Sats.Sat) (f : fault)
    : World * option nat :=
  (set_table w (Sats.update_where (sats w) (λ i _, bool_decide (i = id)) g f),
   affected (sats w) (λ i _, bool_decide (i = id)) f).

(** The name of another satellite is refused by the unique index. *)
Definition rename_satellite (w : World) (id : N) (name : string) (e : env) : World * option nat :=
  match sats w !! id, filter (Sats.named name) (map_to_list (delete id (sats w))) with
  | Some _, _ :: _ => (w, None)
  | _, _ => update_row w id (set_name name (now e)) (f_row e)
  end.

Definition HandleRenameSatellite (h : Handlers) (w : World) (satelliteID : string)
    (req : option string) (e : env) : World * Response :=
  match uuid_Parse satelliteID with
  | None => fails w 400 "invalid satellite ID format"
  | Some id =>
      match req with
      | None => fails w 400 "invalid JSON request body"
      | Some name0 =>
          let name := Str.TrimSpace name0 in
          if String.eqb name "" then fails w 400 "name is required"
          else if 255 <? Z.of_nat (String.length name)
          then fails w 400 "name must not exceed 255 characters"
          else if negb (dbPool h) then fails w 503 "database not configured"
          else match rename_satellite w id name e with
          | (w', None) => fails w' 500 "failed to rename satellite"
          | (w', Some O) => fails w' 404 "satellite not found"
          | (w', Some _) =>
              (audit h w' "satellite.rename" satelliteID, mkResponse 200 (BRenamed (uuid_String id) name))
          end
      end
  end.

(** [req]: the body, and in it the field tags; a missing one is NULL, which the
    column refuses. *)
Definition HandleUpdateSatelliteTags (h : Handlers) (w : World) (satelliteID : string)
    (req : option (option (list string))) (e : env) : World * Response :=
  match uuid_Parse satelliteID with
  | None => fails w 400 "invalid satellite ID format"
  | Some id =>
      match req with
      | None => fails w 400 "invalid JSON request body"
      | Some tags =>
          match validate_tags (default [] tags) with
          | Some msg => fails w 400 msg
          | None =>
              if negb (dbPool h) then fails w 503 "database not configured"
              else match (match tags, sats w !! id with
                          | None, Some _ => (w, None)
                          | _, _ => update_row w id (set_tags (list_to_set (default [] tags)) (now e)) (f_row e)
                          end) with
              | (w', None) => fails w' 500 "failed to update satellite tags"
              | (w', Some O) => fails w' 404 "satellite not found"
              | (w', Some _) =>
                  (audit h w' "satellite.update_tags" satelliteID,
                   mkResponse 200 (BTags (uuid_String id) (default [] tags)))
              end
          end
      end
  end.

(** [ttlStr] is the value of DAAO_DMS_TTL. *)
Definition HandleGetConfig (ttlStr : string) : Response :=
  let dmsTTL := if String.eqb ttlStr "" then 60
                else match Str.Sscanf_d ttlStr with
                     | Some ttl => if 0 <? ttl then ttl else 60
                     | None => 60
                     end in
  mkResponse 200 (BConfig dmsTTL 30).

(** WHERE id::text = $1 OR name = $1 *)
Definition called (identifier : string) (id : N) (s : Sats.Sat) : bool :=
  String.eqb (uuid_String id) identifier || String.eqb (Sats.s_name s) identifier.

(** [req] is the pair of the fields satellite_id and fingerprint. *)
Definition HandleSatelliteHeartbeat (h : Handlers) (w : World) (req : option (string * string))
    (e : env) : World * Response :=
  match req with
  | None => fails w 400 "invalid request body"
  | Some (satelliteID, fingerprint) =>
      let identifier := if String.eqb satelliteID "" then fingerprint else satelliteID in
      if String.eqb identifier "" then fails w 400 "fingerprint or satellite_id required"
      else if negb (dbPool h) then fails w 503 "database not configured"
      else
        let w1 := set_table w (Sats.update_where (sats w) (called identifier)
                                 (Sats.set_status "active" (now e)) (f_row e)) in
        match affected (sats w) (called identifier) (f_row e) with
        | None => fails w1 500 "failed to update status"
        | Some O =>
            (match Sats.newest_pending arrange (sats w1) with
             | None => w1
             | Some (id, _) =>
                 set_table w1 (Sats.update_where (sats w1) (λ i _, bool_decide (i = id))
                                 (Sats.set_status "active" (now e)) (f_pending e))
             end, mkResponse 200 BOk)
        | Some _ => (w1, mkResponse 200 BOk)
        end
  end.

(** ** cmd/nexus/main.go *)

(** INTERVAL '45 seconds', in microseconds. *)
Definition liveness_timeout : Z := 45000000.

Definition is_stale (now : Z) (s : Sats.Sat) : bool :=
  String.eqb (Sats.s_status s) "active" && (Sats.s_updated s <? now - liveness_timeout).

(** One tick of startSatelliteLivenessChecker; the second result: a notification. *)
Definition check_liveness (w : World) (now : Z) (f : fault) : World * bool :=
  (set_table w (Sats.update_where (sats w) (λ _ s, is_stale now s) (Sats.set_status "offline" now) f),
   match affected (sats w) (λ _ s, is_stale now s) f with Some (S _) => true | _ => false end).

(** recoverActiveSessions: only the state column is written. *)
Definition recover_row (s : Session) : Session :=
  if String.eqb (State s) StateRunning || String.eqb (State s) StateReAttaching
  then set_lifecycle s StateDetached (LastActivityAt s) (StartedAt s) (DetachedAt s)
         (SuspendedAt s) (TerminatedAt s)
  else s.
Definition recoverActiveSessions (d : DB) (f : fault) : DB :=
  match f with
  | StmtFails => d
  | _ => set_sessions d (recover_row <$> sessions d)
  end.
End Handlers.

(** ** Invariant *)

(** Sessions have valid states and existing satellites; names and fingerprints
    are unique; the keys agree. *)
Record world_ok (w : World) : Prop := mk_world_ok {
  w_db : Gateway.db_ok (db w);
  w_sats : Sats.table_ok (sats w);
  w_keys : satellites (db w) = dom (sats w);
}.

(** A handler of satellites keeps the invariant and everything but the tables
    and the audit log; sessions only vanish, and the channels stay. *)
Record tables_only (w w' : World) : Prop := mk_tables_only {
  t_ok : world_ok w';
  t_registry : registry w' = registry w;
  t_outbox : outbox w' = outbox w;
  t_pool : pool w' = pool w;
}.

Lemma tables_only_refl w : world_ok w → tables_only w w.
Proof. by split. Qed.

Lemma tables_only_audit h w w' a x : tables_only w w' → tables_only w (audit h w' a x).
Proof.
  unfold audit. destruct (auditLogger h); [|done]. intros [[] ? ? ?]. by split.
Qed.

Lemma set_table_ok w t :
  world_ok w → Sats.table_ok t → dom (sats w) ⊆ dom t → tables_only w (set_table w t).
Proof.
  intros [Hdb Ht Hk] Ht' Hd. split; try done. split; try done.
  intros id s Hs. destruct (Hdb id s Hs) as (? & ? & Hin). split_and!; try done. simpl.
  apply Hd. by rewrite <- Hk.
Qed.

Lemma update_where_world_ok w P g f :
  world_ok w → (∀ s, Sats.s_name (g s) = Sats.s_name s ∧ Sats.s_fingerprint (g s) = Sats.s_fingerprint s ∧
     Sats.s_owner (g s) = Sats.s_owner s) →
  tables_only w (set_table w (Sats.update_where (sats w) P g f)).
Proof.
  intros Hw Hg. apply set_table_ok; [done|apply Sats.update_where_ok; [apply Hw|done]|].
  by rewrite Sats.update_where_dom.
Qed.

Lemma delete_row_ok w id : world_ok w → tables_only w (delete_row w id).
Proof.
  intros [Hdb Ht Hk]. split; try done. split; simpl; [| |done].
  - intros i s. simpl. rewrite map_lookup_filter_Some. simpl. intros [Hs Hne].
    destruct (Hdb i s Hs) as (? & ? & Hin). split_and!; try done. simpl.
    rewrite dom_delete_L. rewrite Hk in Hin. set_solver.
  - destruct Ht as [Hn Hf Ho]. split; [| |by intros i a [_ Ha]%lookup_delete_Some; eapply Ho].
    + intros i j a b [_ Ha]%lookup_delete_Some [_ Hb]%lookup_delete_Some. by eapply Hn.
    + intros i j a b x [_ Ha]%lookup_delete_Some [_ Hb]%lookup_delete_Some. by eapply Hf.
Qed.

Lemma named_nowhere (t : table) name :
  filter (Sats.named name) (map_to_list t) = [] → ∀ j b, t !! j = Some b → Sats.s_name b ≠ name.
Proof.
  intros Hf j b Hb Hn. apply elem_of_nil with (x := (j, b)). rewrite <- Hf.
  apply list_elem_of_filter. by rewrite elem_of_map_to_list.
Qed.

Lemma named_here (t : table) name id s l :
  filter (Sats.named name) (map_to_list t) = (id, s) :: l → t !! id = Some s ∧ Sats.s_name s = name.
Proof.
  intros Hf. assert ((id, s) ∈ filter (Sats.named name) (map_to_list t)) as H
    by (rewrite Hf; apply list_elem_of_here).
  apply list_elem_of_filter in H as [Hn H]. by apply elem_of_map_to_list in H.
Qed.

(** The name of a row decides which row it is. *)
Lemma named_one (t : table) id s :
  Sats.table_ok t → t !! id = Some s →
  ∃ l, filter (Sats.named (Sats.s_name s)) (map_to_list t) = (id, s) :: l.
Proof.
  intros Hok Hs. destruct (filter _ _) as [|[j b] l] eqn:Hf.
  - by destruct (named_nowhere _ _ Hf id s).
  - apply named_here in Hf as [Hb Hn]. assert (j = id) as -> by (by eapply (Sats.one_name t Hok)).
    assert (b = s) as -> by congruence. by eexists.
Qed.

Lemma upsert_ok t id name now f :
  Sats.table_ok t →
  Sats.table_ok (upsert t id name now f).1 ∧ dom t ⊆ dom (upsert t id name now f).1.
Proof.
  intros Hok. unfold upsert. destruct (filter _ _) as [|[old s] l] eqn:Hf.
  - destruct (t !! id) eqn:Hid; [done|].
    assert (Sats.table_ok (<[id := pending_row name now]> t)).
    { apply Sats.table_ok_insert; [done|done| |done]. intros j b _ Hb. by eapply named_nowhere. }
    destruct f; simpl; set_solver.
  - apply named_here in Hf as [Hs Hn].
    assert (Sats.table_ok (<[old := reset now s]> t)).
    { apply Sats.table_ok_insert; [done|exact (Sats.no_owner t Hok old s Hs)| |done].
      intros j b Hj Hb Heq. apply Hj. by eapply (Sats.one_name t Hok). }
    destruct f; simpl; set_solver.
Qed.

Lemma set_name_ok t id s name now :
  Sats.table_ok t → t !! id = Some s →
  filter (Sats.named name) (map_to_list (delete id t)) = [] →
  Sats.table_ok (<[id := set_name name now s]> t).
Proof.
  intros Hok Hs Hf. apply Sats.table_ok_insert; [done|exact (Sats.no_owner t Hok id s Hs)| |].
  - intros j b Hj Hb. apply (named_nowhere _ _ Hf j b). by rewrite lookup_delete_ne.
  - intros j b x Hj Hb Hx Hbx. apply Hj. by eapply (Sats.one_fingerprint t Hok j id b s).
Qed.

(** An update of the row with a given key, if there is one. *)
Lemma update_where_key (t : table) id g f :
  f ≠ StmtFails →
  Sats.update_where t (λ i _, bool_decide (i = id)) g f =
    match t !! id with Some s => <[id := g s]> t | None => t end.
Proof.
  intros Hf. assert (Sats.update_where t (λ i _, bool_decide (i = id)) g f =
    map_imap (λ i s, Some (if bool_decide (i = id) then g s else s)) t) as -> by (by destruct f).
  apply map_eq. intros i. rewrite map_lookup_imap.
  destruct (decide (i = id)) as [->|Hne].
  - destruct (t !! id) eqn:Hs; simpl; [|by rewrite Hs]. by rewrite bool_decide_true, lookup_insert_eq.
  - destruct (t !! i) eqn:Hi; simpl; rewrite ?bool_decide_false by done;
      (destruct (t !! id); [by rewrite lookup_insert_ne|done]).
Qed.

Lemma affected_key (t : table) id :
  affected t (λ i _, bool_decide (i = id)) NoFault =
    Some (match t !! id with Some _ => 1%nat | None => 0%nat end).
Proof.
  unfold affected. f_equal. destruct (t !! id) as [s|] eqn:Hs.
  - rewrite <- (map_size_singleton id s). f_equal. apply map_eq. intros i. apply option_eq. intros x.
    rewrite map_lookup_filter_Some, lookup_singleton_Some. simpl. rewrite bool_decide_eq_true. naive_solver.
  - apply map_size_empty_iff, map_empty. intros i. apply eq_None_not_Some. intros [x Hx].
    apply map_lookup_filter_Some in Hx as [Hx Hi]. simpl in Hi. apply bool_decide_eq_true in Hi. congruence.
Qed.

#[local] Instance fault_eq_dec : EqDecision fault.
Proof. solve_decision. Defined.

Lemma rename_satellite_ok w id name e :
  world_ok w → tables_only w (rename_satellite w id name e).1.
Proof.
  intros Hw. pose proof (w_sats w Hw) as Ht. unfold rename_satellite, update_row.
  destruct (sats w !! id) as [s|] eqn:Hs; [destruct (filter _ _) eqn:Hf|]; simpl.
  - destruct (decide (f_row e = StmtFails)) as [->|Hr]; simpl.
    { apply set_table_ok; done. }
    rewrite update_where_key, Hs by done. apply set_table_ok; [done|by apply set_name_ok|set_solver].
  - by apply tables_only_refl.
  - destruct (decide (f_row e = StmtFails)) as [->|Hr]; [by apply set_table_ok|].
    rewrite update_where_key, Hs by done. by apply set_table_ok.
Qed.

Lemma delete_satellite_ok w id e : world_ok w → tables_only w (delete_satellite w id e).1.
Proof.
  intros Hw. pose proof (tables_only_refl w Hw). pose proof (delete_row_ok w id Hw).
  unfold delete_satellite. by repeat case_match.
Qed.

Lemma HandleCreateSatellite_ok uuid_Parse uuid_String h w req e :
  world_ok w → tables_only w (HandleCreateSatellite uuid_Parse uuid_String h w req e).1.
Proof.
  intros Hw. pose proof (tables_only_refl w Hw). unfold HandleCreateSatellite.
  destruct req as [name|]; [|done]. repeat case_match; try done;
    destruct (upsert_ok (sats w) (new_id e) name (now e) (f_row e) (w_sats w Hw)) as [Hu1 Hu2];
    match goal with E : upsert _ _ _ _ _ = _ |- _ => rewrite E in Hu1, Hu2 end; by apply set_table_ok.
Qed.

Lemma HandleDeleteSatellite_ok uuid_Parse uuid_String h w user sid e :
  world_ok w → tables_only w (HandleDeleteSatellite uuid_Parse uuid_String h w user sid e).1.
Proof.
  intros Hw. pose proof (tables_only_refl w Hw). unfold HandleDeleteSatellite.
  destruct (uuid_Parse sid) as [id|]; [|done]. destruct (negb _); [done|].
  destruct (owner_refuses _ _ _ _ _) as [[]|]; [done|].
  pose proof (delete_satellite_ok w id e Hw) as Hd.
  destruct (delete_satellite w id e) as [w' [[|n]|]]; try done. by apply tables_only_audit.
Qed.

Lemma HandleRenameSatellite_ok uuid_Parse uuid_String h w sid req e :
  world_ok w → tables_only w (HandleRenameSatellite uuid_Parse uuid_String h w sid req e).1.
Proof.
  intros Hw. pose proof (tables_only_refl w Hw). unfold HandleRenameSatellite.
  destruct (uuid_Parse sid) as [id|]; [|done]. destruct req as [name|]; [|done].
  set (name' := Str.TrimSpace name). destruct (String.eqb _ _); [done|].
  destruct (_ <? _); [done|]. destruct (negb _); [done|].
  pose proof (rename_satellite_ok w id name' e Hw) as Hr.
  destruct (rename_satellite w id name' e) as [w' [[|n]|]]; try done. by apply tables_only_audit.
Qed.

Lemma HandleUpdateSatelliteTags_ok uuid_Parse uuid_String h w sid req e :
  world_ok w → tables_only w (HandleUpdateSatelliteTags uuid_Parse uuid_String h w sid req e).1.
Proof.
  intros Hw. pose proof (tables_only_refl w Hw) as Hrefl. unfold HandleUpdateSatelliteTags.
  destruct (uuid_Parse sid) as [id|]; [|done]. destruct req as [tags|]; [|done].
  destruct (validate_tags _); [done|]. destruct (negb _); [done|].
  assert (∀ g, (∀ s, Sats.s_name (g s) = Sats.s_name s ∧ Sats.s_fingerprint (g s) = Sats.s_fingerprint s ∧
     Sats.s_owner (g s) = Sats.s_owner s) →
    tables_only w (update_row w id g (f_row e)).1) as Hu by (intros; by apply update_where_world_ok).
  specialize (Hu (set_tags (list_to_set (default [] tags)) (now e)) (λ s, conj eq_refl (conj eq_refl eq_refl))).
  assert (∀ p, tables_only w p.1 → tables_only w (match p with
     | (w', None) => fails w' 500 "failed to update satellite tags"
     | (w', Some O) => fails w' 404 "satellite not found"
     | (w', Some _) => (audit h w' "satellite.update_tags" sid,
         mkResponse 200 (BTags (uuid_String id) (default [] tags)))
     end).1) as Hend.
  { intros [w' [[|n]|]] Hp; try done. by apply tables_only_audit. }
  apply Hend. destruct tags; [done|]. by destruct (sats w !! id).
Qed.

Lemma HandleSatelliteHeartbeat_ok uuid_String arrange h w req e :
  world_ok w → tables_only w (HandleSatelliteHeartbeat uuid_String arrange h w req e).1.
Proof.
  intros Hw. pose proof (tables_only_refl w Hw) as Hrefl. unfold HandleSatelliteHeartbeat.
  destruct req as [[sat fp]|]; [|done]. destruct (String.eqb _ ""); [done|]. destruct (negb _); [done|].
  set (ident := if String.eqb sat "" then fp else sat).
  pose proof (update_where_world_ok w (called uuid_String ident) (Sats.set_status "active" (now e)) (f_row e)
    Hw (λ s, conj eq_refl (conj eq_refl eq_refl))) as H1.
  destruct (affected _ _ _) as [[|n]|]; simpl; try done.
  destruct (Sats.newest_pending _ _) as [[id s]|]; [|done].
  set (w1 := set_table w _) in *.
  pose proof (update_where_world_ok w1 (λ i _, bool_decide (i = id)) (Sats.set_status "active" (now e))
    (f_pending e) (t_ok _ _ H1) (λ s, conj eq_refl (conj eq_refl eq_refl))) as [? _ _ _].
  by split.
Qed.

Lemma check_liveness_ok w now f : world_ok w → tables_only w (check_liveness w now f).1.
Proof. intros Hw. by apply update_where_world_ok. Qed.

Lemma recover_row_row s : SatelliteID (recover_row s) = SatelliteID s ∧ ID (recover_row s) = ID s ∧
  (IsValid (State s) = true → IsValid (State (recover_row s)) = true).
Proof. unfold recover_row. by destruct (_ || _). Qed.

Lemma recoverActiveSessions_ok d f : Gateway.db_ok d → Gateway.db_ok (recoverActiveSessions d f).
Proof.
  intros Hd. assert (Gateway.db_ok (set_sessions d (recover_row <$> sessions d))).
  { intros id s. simpl. rewrite lookup_fmap. intros (s0 & Hs & ->)%fmap_Some.
    destruct (Hd id s0 Hs) as (? & ? & ?), (recover_row_row s0) as (E1 & E2 & E3).
    unfold Gateway.row_ok. rewrite E1, E2. split_and!; [done|by apply E3|done]. }
  by destruct f.
Qed.

(** ** Properties *)

Section Properties.
Variable uuid_Parse : string → option N.
Variable uuid_String : N → string.
Variable arrange : list (N * Sats.Sat) → list (N * Sats.Sat).
Hypothesis Parse_String : ∀ id, uuid_Parse (uuid_String id) = Some id ∧ uuid_String id ≠ ""%string.
Hypothesis arrange_perm : ∀ l, arrange l ≡ₚ l.

(** What a tag must look like. *)
Definition tag_char (c : ascii) : Prop := lower_digit c = true ∨ c = "-"%char.
Definition good_tag (tag : string) : Prop :=
  (String.length tag <= 50)%nat ∧ Forall tag_char (list_ascii_of_string tag) ∧
  ∃ c s, tag = String c s ∧ c ≠ "-"%char.

Lemma tag_rest_spec s : tag_rest s = true ↔ Forall tag_char (list_ascii_of_string s).
Proof.
  induction s as [|c s IH]; cbn [tag_rest list_ascii_of_string]; [by split|].
  rewrite Forall_cons, andb_true_iff, orb_true_iff, IH, Ascii.eqb_eq. done.
Qed.

Lemma tag_match_spec s :
  tag_match s = true ↔ Forall tag_char (list_ascii_of_string s) ∧ ∃ c s', s = String c s' ∧ c ≠ "-"%char.
Proof.
  destruct s as [|c s]; cbn [tag_match list_ascii_of_string].
  - split; [done|]. intros [_ (? & ? & ? & _)]. done.
  - rewrite andb_true_iff, tag_rest_spec, Forall_cons. split.
    + intros [Hc Hs]. split; [by split; [left|]|]. exists c, s. split; [done|]. by intros ->.
    + intros [[Hc Hs] (c' & s' & [= <- <-] & Hne)]. split; [|done]. by destruct Hc.
Qed.

Lemma check_tags_spec tags : check_tags tags = None ↔ Forall good_tag tags.
Proof.
  induction tags as [|tag tags IH]; cbn [check_tags]; [by split|]. rewrite Forall_cons.
  unfold good_tag at 1. rewrite <- tag_match_spec.
  destruct (Z.ltb_spec 50 (Z.of_nat (String.length tag))) as [Hl|Hl].
  { split; [done|]. intros [[? _] _]. lia. }
  destruct (tag_match tag); simpl.
  - rewrite IH. split; [intros; split_and!; [lia|done..]|tauto].
  - split; [done|]. by intros [[_ ?] _].
Qed.

Lemma validate_tags_spec tags :
  validate_tags tags = None ↔ (length tags <= 20)%nat ∧ Forall good_tag tags.
Proof.
  unfold validate_tags. destruct (Z.ltb_spec 20 (Z.of_nat (length tags))).
  - split; [done|]. intros []. lia.
  - rewrite check_tags_spec. split; [|tauto]. intros. split; [lia|done].
Qed.

(** Tags are accepted for an existing satellite exactly when there are at most
    twenty, each of at most fifty characters, made of lower-case letters, digits
    and hyphens, not starting with a hyphen. Then the row has these tags instead
    of its own, the automatic ones included; otherwise the tables keep. *)
Theorem HandleUpdateSatelliteTags_spec h w satelliteID id s tags e :
  dbPool h = true → uuid_Parse satelliteID = Some id → sats w !! id = Some s → f_row e = NoFault →
  let '(w', r) := HandleUpdateSatelliteTags uuid_Parse uuid_String h w satelliteID (Some (Some tags)) e in
  (status r = 200 ↔ (length tags <= 20)%nat ∧ Forall good_tag tags) ∧
  (status r = 200 → sats w' = <[id := set_tags (list_to_set tags) (now e) s]> (sats w) ∧
                    sessions (db w') = sessions (db w)) ∧
  (status r ≠ 200 → w' = w ∧ status r = 400).
Proof.
  intros Hdb Hp Hs Hf. unfold HandleUpdateSatelliteTags. rewrite Hp. cbn [default].
  destruct (validate_tags _) eqn:Hv.
  - simpl. split_and!; [|done|by split]. rewrite <- validate_tags_spec. simpl in Hv. by rewrite Hv.
  - rewrite Hdb. unfold update_row. rewrite Hf, affected_key, Hs. cbn [negb].
    rewrite update_where_key, Hs by done. unfold audit. cbn [status].
    apply validate_tags_spec in Hv. by destruct (auditLogger h).
Qed.

(** Deleting answers 200 exactly for an existing row that only sessions refer
    to, if the user is not a viewer or the owner's id is the viewer's. Then the
    row and the sessions of the satellite are gone, all others are there; the
    scrollback of its sessions and its channel stay. Another answer changes
    nothing unless the acknowledgement was lost. *)
Theorem HandleDeleteSatellite_spec h w user satelliteID e :
  let '(w', r) := HandleDeleteSatellite uuid_Parse uuid_String h w user satelliteID e in
  (status r = 200 ↔
   ∃ id s, uuid_Parse satelliteID = Some id ∧ dbPool h = true ∧ sats w !! id = Some s ∧
     f_row e = NoFault ∧ referenced e = false ∧
     (∀ u, user = Some u → RBAC.Role u = "viewer" →
        f_owner e = false ∧ uuid_String (Sats.s_owner s) = RBAC.ID u)) ∧
  (status r = 200 → ∀ id, uuid_Parse satelliteID = Some id →
   sats w' = delete id (sats w) ∧ pool w' = pool w ∧ registry w' = registry w ∧
   ∀ i x, sessions (db w') !! i = Some x ↔ sessions (db w) !! i = Some x ∧ SatelliteID x ≠ id) ∧
  (status r ≠ 200 → f_row e ≠ AckLost → w' = w).
Proof.
  unfold HandleDeleteSatellite. destruct (uuid_Parse satelliteID) as [id|].
  2:{ simpl. naive_solver. }
  destruct (dbPool h); simpl; [|naive_solver].
  assert (owner_refuses uuid_String w user id e = None ∧
          (∀ s, sats w !! id = Some s → ∀ u, user = Some u → RBAC.Role u = "viewer" →
             f_owner e = false ∧ uuid_String (Sats.s_owner s) = RBAC.ID u) ∨
          (∃ x m, owner_refuses uuid_String w user id e = Some (x, m) ∧ x ≠ 200) ∧
          ¬ (∃ s, sats w !! id = Some s ∧ ∀ u, user = Some u → RBAC.Role u = "viewer" →
             f_owner e = false ∧ uuid_String (Sats.s_owner s) = RBAC.ID u)) as [[-> Ho]|[(x & m & -> & Hx) Ho]].
  { unfold owner_refuses. destruct user as [u|]; [|by left].
    destruct (String.eqb_spec (RBAC.Role u) "viewer") as [Hv|Hv]; [|by left; naive_solver].
    destruct (f_owner e).
    { right. split; [by do 2 eexists|]. intros (s & _ & H). by destruct (H u eq_refl Hv). }
    destruct (sats w !! id) as [s|].
    2:{ right. split; [by do 2 eexists|]. naive_solver. }
    destruct (String.eqb_spec (uuid_String (Sats.s_owner s)) (RBAC.ID u)) as [He|He].
    - left. split; [done|]. intros ? [= <-] ? [= <-] _. done.
    - right. split; [by do 2 eexists|]. intros (? & [= <-] & H). by destruct (H u eq_refl Hv). }
  2:{ simpl. split_and!; [split; [done|]|done|done].
      intros (id' & s & [= <-] & _ & Hs & _ & _ & H). destruct Ho. by exists s. }
  unfold delete_satellite. destruct (sats w !! id) as [s|] eqn:Hs.
  2:{ destruct (f_row e); simpl; naive_solver. }
  specialize (Ho s eq_refl).
  destruct (f_row e); simpl; [|naive_solver|].
  - destruct (referenced e); simpl; [naive_solver|].
    split; [split; [|done]|split; [|done]].
    + intros _. exists id, s. naive_solver.
    + intros _ ? [= <-]. unfold audit. destruct (auditLogger h); simpl; split_and!; try done;
        intros i x; by rewrite map_lookup_filter_Some.
  - destruct (referenced e); simpl; naive_solver.
Qed.

(** Creating a satellite under a name that exists resets the existing one,
    whoever asks and whoever it belongs to: it is pending again, without its
    fingerprint, and no session can be started on it until a satellite shows
    up. Its sessions and its channel stay. And the next satellite that nobody
    knows gets this row when it registers: from then on it is the satellite
    that the sessions refer to. *)
Theorem HandleCreateSatellite_resets h w id s e :
  world_ok w → dbPool h = true → f_row e = NoFault →
  sats w !! id = Some s → Sats.s_name s ≠ ""%string → (String.length (Sats.s_name s) <= 255)%nat →
  ∃ w1,
  HandleCreateSatellite uuid_Parse uuid_String h w (Some (Sats.s_name s)) e =
    (w1, mkResponse 201 (BSatellite (uuid_String id) (Sats.s_name s) (uuid_String 0) "pending" (now e))) ∧
  sats w1 = <[id := reset (now e) s]> (sats w) ∧
  sessions (db w1) = sessions (db w) ∧ registry w1 = registry w ∧
  (∀ user rq e', uuid_Parse (rq_SatelliteID rq) = Some id →
     ∃ r, HandleCreateSession uuid_Parse uuid_String h w1 user (Some rq) e' = Ret (w1, r) ∧
          SessionApi.status r ≠ 201) ∧
  (∀ r new t,
     (∀ j b, sats w !! j = Some b → uuid_String j ≠ rq_satellite_id r ∧
        Sats.s_name b ≠ rq_satellite_id r ∧ Sats.s_fingerprint b ≠ Some (rq_fingerprint r)) →
     (∀ j b, j ≠ id → sats w !! j = Some b → Sats.s_status b = "pending" → Sats.s_created b < Sats.s_created s) →
     Sats.resolve uuid_String arrange (sats w1) r new t NoFault NoFault NoFault =
       (<[id := Sats.activate r t (reset (now e) s)]> (sats w1), Some id)).
Proof.
  intros Hw Hdb Hf Hs Hn Hl. pose proof (w_sats w Hw) as Hok.
  unfold HandleCreateSatellite, upsert. apply String.eqb_neq in Hn as ->.
  destruct (Z.ltb_spec 255 (Z.of_nat (String.length (Sats.s_name s)))); [lia|].
  destruct (named_one (sats w) id s Hok Hs) as [l ->]. rewrite Hdb, Hf. simpl.
  destruct (Parse_String id) as [-> _]. eexists. split; [done|]. split_and!; try done.
  - intros user rq e' Hp. unfold HandleCreateSession. rewrite Hp, Hdb. simpl. rewrite lookup_insert_eq. simpl.
    repeat case_match; simplify_eq; (eexists; split; [reflexivity|done]).
  - intros r new t Hr Hp. simpl. set (T := <[id := reset (now e) s]> (sats w)).
    assert (∀ j b, T !! j = Some b → uuid_String j ≠ rq_satellite_id r ∧
        Sats.s_name b ≠ rq_satellite_id r ∧ Sats.s_fingerprint b ≠ Some (rq_fingerprint r)) as HT.
    { intros j b [[<- <-]|[_ Hb]]%lookup_insert_Some; [|by apply Hr].
      destruct (Hr id s Hs) as (? & ? & _). by split_and!. }
    unfold Sats.resolve. rewrite Sats.update_matching_unknown by (intros j b Hb; by apply (HT j b)).
    assert (filter (Sats.matches uuid_String (rq_satellite_id r) (rq_fingerprint r)) (Sats.rows arrange T) = [])
      as ->.
    { apply list_filter_nil, Forall_forall. intros [j b] Hb%(Sats.elem_of_rows_sat arrange arrange_perm).
      destruct (HT j b Hb) as (? & ? & ?). by intros [?|[?|?]]. }
    rewrite Sats.update_pending_unknown by (intros j b Hb; by apply (HT j b)).
    assert (T !! id = Some (reset (now e) s)) as Hid by apply lookup_insert_eq.
    assert (Sats.newest_pending arrange T = Some (id, reset (now e) s)) as ->; [|done].
    destruct (Sats.newest_pending arrange T) as [[j b]|] eqn:Hnew.
    + pose proof (Sats.newest_pending_newest arrange arrange_perm T j b id _ Hnew Hid eq_refl) as Hle.
      apply (Sats.newest_pending_lookup arrange arrange_perm) in Hnew as [Hb Hbp].
      destruct (decide (j = id)) as [->|Hne]; [by rewrite Hid in Hb; simplify_eq|].
      unfold T in Hb. rewrite lookup_insert_ne in Hb by done. specialize (Hp j b Hne Hb Hbp). simpl in Hle. lia.
    + exfalso. unfold Sats.newest_pending in Hnew. apply head_None in Hnew.
      apply (elem_of_nil (id, reset (now e) s)). rewrite <- Hnew, merge_sort_Permutation.
      apply list_elem_of_filter. by rewrite (Sats.elem_of_rows_sat arrange arrange_perm).
Qed.

Lemma update_where_NoFault (t : table) P g j :
  Sats.update_where t P g NoFault !! j = (λ s, if P j s then g s else s) <$> t !! j.
Proof. unfold Sats.update_where. rewrite map_lookup_imap. by destruct (t !! j). Qed.

(** A heartbeat is answered 200 whoever sends it. It activates the satellites
    whose id or name it gives. If there is none, it activates the pending
    satellite created last, which has nothing to do with the sender; then a
    session can be created there, though no such satellite has ever
    connected. *)
Theorem HandleSatelliteHeartbeat_spec h w satelliteID fingerprint e :
  dbPool h = true → f_row e = NoFault → f_pending e = NoFault →
  let ident := if String.eqb satelliteID "" then fingerprint else satelliteID in
  ident ≠ ""%string →
  let '(w', r) := HandleSatelliteHeartbeat uuid_String arrange h w (Some (satelliteID, fingerprint)) e in
  r = mkResponse 200 BOk ∧ sessions (db w') = sessions (db w) ∧
  ((∃ j s, sats w !! j = Some s ∧ called uuid_String ident j s = true) →
   ∀ j, sats w' !! j = (λ s, if called uuid_String ident j s then Sats.set_status "active" (now e) s else s)
                         <$> sats w !! j) ∧
  ((∀ j s, sats w !! j = Some s → called uuid_String ident j s = false) →
   match Sats.newest_pending arrange (sats w) with
   | None => sats w' = sats w
   | Some (id, s) =>
       sats w' = <[id := Sats.set_status "active" (now e) s]> (sats w) ∧
       sats w !! id = Some s ∧ Sats.s_status s = "pending" ∧
       (∀ j b, sats w !! j = Some b → Sats.s_status b = "pending" → Sats.s_created b <= Sats.s_created s)
   end).
Proof.
  intros Hdb Hf Hf' ident Hi. unfold HandleSatelliteHeartbeat. fold ident.
  apply String.eqb_neq in Hi as ->. rewrite Hdb, Hf, Hf'. unfold affected. cbn [negb].
  set (M := filter _ (sats w)). destruct (size M) as [|k] eqn:HM; cbv iota beta zeta.
  - apply map_size_empty_iff in HM.
    assert (∀ j s, sats w !! j = Some s → called uuid_String ident j s = false) as Hno.
    { intros j s Hs. apply not_true_is_false. intros Hc.
      assert (M !! j = Some s) as Hj by (by apply map_lookup_filter_Some). by rewrite HM in Hj. }
    assert (Sats.update_where (sats w) (called uuid_String ident) (Sats.set_status "active" (now e)) NoFault
            = sats w) as Hsame.
    { apply map_eq. intros j. rewrite update_where_NoFault. destruct (sats w !! j) eqn:Hj; [|done].
      simpl. by rewrite (Hno j _ Hj). }
    change (sats (set_table w ?t)) with t. rewrite Hsame. pose proof (Sats.newest_pending_lookup arrange arrange_perm (sats w)) as Hl.
    pose proof (Sats.newest_pending_newest arrange arrange_perm (sats w)) as Hn.
    destruct (Sats.newest_pending arrange (sats w)) as [[id s]|];
      change (sats (set_table ?x ?t)) with t; rewrite ?update_where_key by done.
    + destruct (Hl id s eq_refl) as [Hs Hst].
      split_and!; [done|done|intros (j & b & Hj & Hc); by rewrite (Hno j b Hj) in Hc|].
      intros _. rewrite Hs. split_and!; [done..|]. intros j b Hj Hb. by eapply Hn.
    + split_and!; [done|done|intros (j & b & Hj & Hc); by rewrite (Hno j b Hj) in Hc|done].
  - split_and!; [done|done|intros _ j; apply update_where_NoFault|].
    intros Hno. exfalso. assert (M = ∅) as HM0; [|by rewrite HM0, map_size_empty in HM].
    apply map_empty. intros j. apply eq_None_not_Some. intros [s [Hs Hc]%map_lookup_filter_Some].
    simpl in Hc. by rewrite (Hno j s Hs) in Hc.
Qed.

(** No viewer ever owns a satellite: whatever the table and the replica went
    through, the listing is empty and no satellite can be deleted. But a viewer
    renames and tags any of them, since these handlers do not look at the
    user. *)
Theorem viewer_owns_nothing h w replica u uid e :
  world_ok w → Sats.table_ok replica → dbPool h = true →
  RBAC.Role u = "viewer" → uuid_Parse (RBAC.ID u) = Some uid → uid ≠ 0%N →
  HandleListSatellites uuid_Parse uuid_String arrange h replica (Some u) e = mkResponse 200 (BList []) ∧
  (∀ satelliteID, let '(w', r) := HandleDeleteSatellite uuid_Parse uuid_String h w (Some u) satelliteID e in
     w' = w ∧ status r ≠ 200) ∧
  (∀ satelliteID id s name, uuid_Parse satelliteID = Some id → sats w !! id = Some s → f_row e = NoFault →
     Str.TrimSpace name ≠ ""%string → (String.length (Str.TrimSpace name) <= 255)%nat →
     (∀ j b, sats w !! j = Some b → Sats.s_name b ≠ Str.TrimSpace name) →
     let '(w', r) := HandleRenameSatellite uuid_Parse uuid_String h w satelliteID (Some name) e in
     status r = 200 ∧ sats w' !! id = Some (set_name (Str.TrimSpace name) (now e) s)).
Proof.
  intros Hw Hrep Hdb Hv Hu Hne. split_and!.
  - unfold HandleListSatellites. rewrite Hdb. cbn [negb]. unfold viewer_id. simpl. rewrite Hv, Hu. simpl.
    rewrite (list_filter_nil (λ p : N * Sats.Sat, Sats.s_owner p.2 = uid)).
    { by destruct (f_query e) as [| |n|n]; rewrite ?take_nil. }
    apply Forall_forall. intros [j b]. rewrite merge_sort_Permutation.
    intros Hb%(Sats.elem_of_rows_sat arrange arrange_perm). simpl. by rewrite (Sats.no_owner _ Hrep j b Hb).
  - intros sid. unfold HandleDeleteSatellite. destruct (uuid_Parse sid) as [id|]; [|by split].
    rewrite Hdb. simpl. rewrite Hv. simpl. destruct (f_owner e); [by split|].
    destruct (sats w !! id) as [s|] eqn:Hs; [|by split].
    rewrite (Sats.no_owner _ (w_sats w Hw) id s Hs).
    destruct (String.eqb_spec (uuid_String 0) (RBAC.ID u)) as [He|]; [|by split].
    exfalso. apply Hne. destruct (Parse_String 0%N) as [H0 _]. congruence.
  - intros sid id s name Hp Hs Hf Hn Hl Hfree. unfold HandleRenameSatellite. rewrite Hp.
    apply String.eqb_neq in Hn as ->.
    destruct (Z.ltb_spec 255 (Z.of_nat (String.length (Str.TrimSpace name)))); [lia|].
    rewrite Hdb. cbn [negb]. unfold rename_satellite. rewrite Hs.
    assert (filter (Sats.named (Str.TrimSpace name)) (map_to_list (delete id (sats w))) = []) as ->.
    { apply list_filter_nil, Forall_forall. intros [j b] [_ Hb]%elem_of_map_to_list%lookup_delete_Some.
      by apply (Hfree j). }
    unfold update_row. rewrite Hf, affected_key, Hs, update_where_key, Hs by done.
    unfold audit. destruct (auditLogger h); simpl; by rewrite lookup_insert_eq.
Qed.
End Properties.

(** ** Examples *)

Definition demo_world2 : World := set_table demo_world Sats.demo_table.
Definition demo_env2 : env := mkEnv 60 9 false NoFault NoFault QueryOk false.

Lemma demo_world2_ok : world_ok demo_world2.
Proof.
  split; [|exact Sats.demo_table_ok|done].
  intros id s. cbn. rewrite !lookup_insert_Some, lookup_singleton_Some.
  intros H. assert (s ∈ [suspended_row; row_at 1 5; row_at 2 5; row_at 3 4] ∧ ID s = id) as [Hin <-]
    by (destruct_or?; destruct_and?; subst; split; (set_solver || done)).
  split; [done|]. rewrite !elem_of_cons in Hin. destruct_or!; subst; try done; split; (reflexivity || set_solver).
Qed.

Example HandleGetConfig_1 : map HandleGetConfig [""; "5"; "-1"; "x"]
  = map (λ n, mkResponse 200 (BConfig n 30)) [60; 5; 60; 60].
Proof. reflexivity. Qed.

Example tags_1 : map tag_match ["gpu"; "os:linux"; "-a"; "a-"; ""; "A"] = [true; false; false; true; false; false].
Proof. reflexivity. Qed.

Example HandleUpdateSatelliteTags_spec_witness :
  status (HandleUpdateSatelliteTags demo_Parse demo_String demo_handlers demo_world2 "ux"
            (Some (Some ["gpu"; "os:linux"])) demo_env2).2 = 400.
Proof.
  pose proof (HandleUpdateSatelliteTags_spec demo_Parse demo_String demo_handlers demo_world2 "ux" 1 Sats.demo_sat
    ["gpu"; "os:linux"] demo_env2 eq_refl eq_refl eq_refl eq_refl) as H.
  destruct (HandleUpdateSatelliteTags _ _ _ _ _ _ _) as [w' r]. destruct H as (H1 & _ & H2).
  apply H2. intros [_ H]%H1. rewrite !Forall_cons in H. destruct H as (_ & (_ & H & _) & _).
  rewrite Forall_forall in H. destruct (H ":"%char) as [Hc|Hc]; [by right; right; left|discriminate|discriminate].
Defined.

Example HandleCreateSatellite_resets_witness :
  ∃ w1, HandleCreateSatellite demo_Parse demo_String demo_handlers demo_world2 (Some "edge") demo_env2
        = (w1, mkResponse 201 (BSatellite "ux" "edge" "u" "pending" 60)) ∧
        Sats.s_fingerprint <$> sats w1 !! 1%N = Some None.
Proof.
  destruct (HandleCreateSatellite_resets demo_Parse demo_String (λ l, l) demo_uuid (λ l, reflexivity _)
    demo_handlers demo_world2 1 Sats.demo_sat demo_env2 demo_world2_ok eq_refl eq_refl eq_refl
    ltac:(done) ltac:(cbn; lia)) as (w1 & H1 & H2 & _).
  exists w1. split; [exact H1|]. rewrite H2. reflexivity.
Defined.

Example HandleSatelliteHeartbeat_spec_witness :
  let '(w', r) := HandleSatelliteHeartbeat demo_String (λ l, l) demo_handlers demo_world2
                    (Some ("nobody"%string, ""%string)) demo_env2 in
  r = mkResponse 200 BOk ∧ Sats.s_status <$> sats w' !! 2%N = Some "active"%string.
Proof.
  pose proof (HandleSatelliteHeartbeat_spec demo_String (λ l, l) (λ l, reflexivity _) demo_handlers demo_world2
    "nobody" "" demo_env2 eq_refl eq_refl eq_refl ltac:(done)) as H.
  destruct (HandleSatelliteHeartbeat _ _ _ _ _ _) as [w' r]. destruct H as (H1 & _ & _ & H2).
  split; [exact H1|].
  assert (∀ j s, sats demo_world2 !! j = Some s → called demo_String "nobody" j s = false) as Hno.
  { intros j s Hs. change (Sats.demo_table !! j = Some s) in Hs. unfold Sats.demo_table in Hs.
    apply lookup_insert_Some in Hs as [[<- <-]|[_ [<- <-]%lookup_singleton_Some]]; reflexivity. }
  specialize (H2 Hno). vm_compute (Sats.newest_pending _ _) in H2. destruct H2 as [-> _]. reflexivity.
Defined.

Example viewer_owns_nothing_witness :
  HandleListSatellites demo_Parse demo_String (λ l, l) demo_handlers Sats.demo_table (Some (a_viewer "uxx")) demo_env2
    = mkResponse 200 (BList []) ∧
  status (HandleRenameSatellite demo_Parse demo_String demo_handlers demo_world2 "ux" (Some " mine ") demo_env2).2 = 200.
Proof.
  destruct (viewer_owns_nothing demo_Parse demo_String (λ l, l) demo_uuid (λ l, reflexivity _) demo_handlers
    demo_world2 Sats.demo_table (a_viewer "uxx") 2 demo_env2 demo_world2_ok Sats.demo_table_ok eq_refl eq_refl
    eq_refl ltac:(done)) as (H1 & _ & H3).
  split; [exact H1|].
  specialize (H3 "ux" 1%N Sats.demo_sat " mine " eq_refl eq_refl eq_refl ltac:(vm_compute; done)
    ltac:(vm_compute; lia)).
  destruct (HandleRenameSatellite _ _ _ _ _ _ _). apply H3. intros j b Hs.
  change (Sats.demo_table !! j = Some b) in Hs. unfold Sats.demo_table in Hs.
  apply lookup_insert_Some in Hs as [[<- <-]|[_ [<- <-]%lookup_singleton_Some]]; vm_compute; done.
Defined.
End SatelliteApi.
