(* ===== verification/Mux.v ===== *)
(** * src/cmd/nexus/main.go, startHTTPServer: the patterns of the server and net/http's ServeMux

    The patterns that the server registers, and how ServeMux (Go 1.22) takes them,
    refusing those that conflict, and finds the one for a request: by method first,
    then segment by segment, a literal before a wildcard before a trailing slash.
    Only what the patterns of the server use is here: no hosts, no {$}. *)
From Stdlib Require Import Ascii String.
From S2P Require Import Prelude GoStrings PiBridge.
#[local] Open Scope string_scope.
#[local] Set Default Proof Using "Type".

Module Mux.

(** ** Patterns *)

(** A segment: a literal, {name}, or the rest after a trailing slash. *)
Inductive seg := Lit (s : string) | Wild | Multi.
#[export] Instance seg_dec : EqDecision seg.
Proof. solve_decision. Defined.
Record pattern (H : Type) := mkPattern { p_method : string; p_path : list seg; p_handler : H }.
Arguments mkPattern {H}.
Arguments p_method {H}.
Arguments p_path {H}.
Arguments p_handler {H}.

(** A path as the router walks it: its segments, and "/" for a trailing slash. *)
Definition slash : string := "/".
Fixpoint segments (l : list string) : list string :=
  match l with [] => [] | [x] => if String.eqb x "" then [slash] else [x] | x :: l' => x :: segments l' end.
Definition walk (path : string) : list string := segments (Str.Split (Str.TrimPrefix path "/") "/"%char).

(** What a pattern matches. *)
Fixpoint matches (p : list seg) (r : list string) : bool :=
  match p, r with
  | [], [] => true
  | [Multi], _ :: _ => true
  | Lit s :: p', x :: r' => String.eqb s x && matches p' r'
  | Wild :: p', x :: r' => negb (String.eqb x slash) && matches p' r'
  | _, _ => false
  end.

(** ** Registration *)

(** How two patterns of paths are related: pattern.go of net/http. *)
Inductive relationship := Equivalent | MoreGeneral | MoreSpecific | Disjoint | Overlaps.
#[export] Instance relationship_dec : EqDecision relationship.
Proof. solve_decision. Defined.
Definition inverse (r : relationship) : relationship :=
  match r with MoreSpecific => MoreGeneral | MoreGeneral => MoreSpecific | r => r end.
Definition combine (a b : relationship) : relationship :=
  match a with
  | Equivalent => b
  | Disjoint => Disjoint
  | Overlaps => if decide (b = Disjoint) then Disjoint else Overlaps
  | MoreGeneral | MoreSpecific =>
      match b with
      | Equivalent => a
      | MoreGeneral | MoreSpecific => if decide (a = b) then a else Overlaps
      | Disjoint => Disjoint
      | Overlaps => Overlaps
      end
  end.
Definition compareSegments (a b : seg) : relationship :=
  match a, b with
  | Multi, Multi => Equivalent
  | Multi, _ => MoreGeneral
  | _, Multi => MoreSpecific
  | Wild, Wild => Equivalent
  | Wild, Lit x => if String.eqb x slash then Disjoint else MoreGeneral
  | Lit x, Wild => if String.eqb x slash then Disjoint else MoreSpecific
  | Lit x, Lit y => if String.eqb x y then Equivalent else Disjoint
  end.
(** Two paths, segment by segment; one that ends in a Multi takes what is left of the other. *)
Fixpoint comparePaths (a b : list seg) : relationship :=
  match a, b with
  | [], [] => Equivalent
  | [Multi], [] | [], [Multi] => Disjoint
  | [Multi], [Multi] => Equivalent
  | [Multi], _ => MoreGeneral
  | _, [Multi] => MoreSpecific
  | x :: a', y :: b' => combine (compareSegments x y) (comparePaths a' b')
  | _, _ => Disjoint
  end.
Definition compareMethods (a b : string) : relationship :=
  if String.eqb a b then Equivalent else
  if String.eqb a "" then MoreGeneral else
  if String.eqb b "" then MoreSpecific else
  if String.eqb a "GET" && String.eqb b "HEAD" then MoreGeneral else
  if String.eqb b "GET" && String.eqb a "HEAD" then MoreSpecific else Disjoint.

Section Router.
Context {H : Type}.
Implicit Types ps : list (pattern H).

Definition conflicts (p q : pattern H) : bool :=
  match combine (compareMethods (p_method p) (p_method q)) (comparePaths (p_path p) (p_path q)) with Equivalent | Overlaps => true | _ => false end.
(** mux.HandleFunc, one pattern after the other: it panics on a conflict. *)
Fixpoint register (mux : list (pattern H)) (ps : list (pattern H)) : go (list (pattern H)) :=
  match ps with
  | [] => Ret mux
  | p :: ps' => if existsb (conflicts p) mux then Panic else register (mux ++ [p])%list ps'
  end.

(** ** Matching *)

(** The patterns that are left after a segment, each with the rest of its path. *)
Definition routes : Type := list (list seg * pattern H).
Definition children (x : seg) (rs : routes) : routes :=
  omap (λ r, match r with (y :: p, h) => if decide (x = y) then Some (p, h) else None | _ => None end) rs.
Definition leaf (p : list seg) (rs : routes) : option (pattern H) := head (omap (λ r, if decide (r.1 = p) then Some r.2 else None) rs).
Definition or_else {A} (a b : option A) : option A := match a with Some x => Some x | None => b end.
Fixpoint matchPath (rs : routes) (r : list string) : option (pattern H) :=
  match r with
  | [] => leaf [] rs
  | x :: r' =>
      or_else (matchPath (children (Lit x) rs) r')
      (or_else (if String.eqb x slash then None else matchPath (children Wild rs) r') (leaf [Multi] rs))
  end.
Definition of_method (m : string) ps : routes := (λ p, (p_path p, p)) <$> filter (λ p, p_method p = m) ps.
Definition matchMethodAndPath ps (method : string) (r : list string) : option (pattern H) :=
  or_else (matchPath (of_method method ps) r)
  (or_else (if String.eqb method "HEAD" then matchPath (of_method "GET" ps) r else None) (matchPath (of_method "" ps) r)).

Definition cleanPath (p : string) : string :=
  if String.eqb p "" then "/" else
  let p := if Str.HasPrefix p "/" then p else "/" +:+ p in
  let np := PiBridge.Clean p in
  if Str.HasSuffix p "/" && negb (String.eqb np "/") then np +:+ "/" else np.
Definition exactMatch (p : option (pattern H)) (r : list string) : bool :=
  match p with
  | None => false
  | Some p => bool_decide (last (p_path p) ≠ Some Multi) || (bool_decide (last r = Some slash) && (length (p_path p) =? length r)%nat)
  end.
(** What becomes of a request whose path has no escapes. *)
Inductive found := Serves (h : H) | MovedPermanently (path : string) | MethodNotAllowed | NotFound.
Definition findHandler ps (method path : string) : found :=
  let p := if String.eqb method "CONNECT" then path else cleanPath path in
  let n := matchMethodAndPath ps method (walk p) in
  if negb (exactMatch n (walk p)) && negb (Str.HasSuffix p "/") && exactMatch (matchMethodAndPath ps method (walk (p +:+ "/"))) (walk (p +:+ "/"))
  then MovedPermanently (p +:+ "/") else
  if negb (String.eqb p path) then MovedPermanently p else
  match n with
  | Some x => Serves (p_handler x)
  | None => if existsb (λ q, matches (p_path q) (walk p)) ps then MethodNotAllowed else NotFound
  end.

(** *** The most specific pattern *)

Lemma elem_children x rs p h : (p, h) ∈ children x rs ↔ (x :: p, h) ∈ rs.
Proof.
  unfold children. rewrite list_elem_of_omap. split.
  - intros ([q k] & Hin & E). destruct q as [|y q]; [done|]. destruct (decide (x = y)) as [->|]; [|done]. by injection E as -> ->.
  - intros Hin. exists (x :: p, h). split; [done|]. cbn. by rewrite decide_True.
Qed.
Lemma leaf_Some p rs h : leaf p rs = Some h → (p, h) ∈ rs.
Proof.
  unfold leaf. intros E%head_Some_elem_of. apply list_elem_of_omap in E as ([q k] & Hin & E). cbn in E. destruct (decide (q = p)) as [->|]; [|done]. by injection E as ->.
Qed.
Lemma leaf_None p rs : leaf p rs = None → ∀ h, (p, h) ∉ rs.
Proof.
  unfold leaf. intros E%head_None h Hin. assert (h ∈ omap (λ r, if decide (r.1 = p) then Some r.2 else None) rs) as Hh.
  { apply list_elem_of_omap. exists (p, h). split; [done|]. cbn. by rewrite decide_True. }
  rewrite E in Hh. by apply elem_of_nil in Hh.
Qed.

Lemma matchPath_None rs r : matchPath rs r = None → ∀ p h, (p, h) ∈ rs → matches p r = false.
Proof.
  revert rs. induction r as [|x r IH]; intros rs; cbn [matchPath].
  - intros E p h Hin. destruct p as [|y p]; [by eapply leaf_None in E|]. destruct y, p; done.
  - destruct (matchPath (children (Lit x) rs) r) eqn:E1; [done|]. cbn [or_else].
    destruct (if String.eqb x slash then None else matchPath (children Wild rs) r) eqn:E2; [done|]. cbn [or_else]. intros E3 p h Hin.
    destruct p as [|[y| |] p]; cbn; [done| | |].
    + destruct (String.eqb_spec y x) as [->|]; [|done]. cbn. apply (IH _ E1 p h). by apply elem_children.
    + destruct (String.eqb x slash); [done|]. cbn. apply (IH _ E2 p h). by apply elem_children.
    + destruct p; [|done]. by eapply leaf_None in E3.
Qed.
Lemma combine_general b : combine MoreGeneral b ≠ MoreSpecific.
Proof. by destruct b. Qed.
Lemma matchPath_Some rs r h : matchPath rs r = Some h → ∃ p, (p, h) ∈ rs ∧ matches p r = true ∧
  ∀ q k, (q, k) ∈ rs → matches q r = true → comparePaths q p ≠ MoreSpecific.
Proof.
  revert rs. induction r as [|x r IH]; intros rs; cbn [matchPath].
  - intros E%leaf_Some. exists []. split_and!; [done..|]. intros q k _ Hq. by destruct q as [|[] []].
  - destruct (matchPath (children (Lit x) rs) r) as [h'|] eqn:E1; cbn [or_else].
    { intros [= ->]. destruct (IH _ E1) as (p & Hin & Hm & Hbest). exists (Lit x :: p). rewrite elem_children in Hin. split_and!; [done|by cbn; rewrite String.eqb_refl|].
      intros [|[y| |] q] k Hq Hqm; cbn in Hqm; try done.
      - destruct (String.eqb_spec y x) as [->|]; [|done]. cbn. rewrite String.eqb_refl. cbn. apply (Hbest q k); [by apply elem_children|done].
      - destruct (String.eqb x slash) eqn:Ex; [done|]. cbn. rewrite Ex. destruct p; apply combine_general.
      - by destruct q. }
    destruct (String.eqb x slash) eqn:Ex; cbn [or_else].
    { intros E%leaf_Some. exists [Multi]. split_and!; [done..|]. intros [|[y| |] q] k Hq Hqm; cbn in Hqm; rewrite ?Ex in Hqm; try done; [|by destruct q].
      destruct (String.eqb_spec y x) as [->|]; [|done]. rewrite (matchPath_None _ _ E1 q k) in Hqm; [done|by apply elem_children]. }
    destruct (matchPath (children Wild rs) r) as [h'|] eqn:E2; cbn [or_else].
    { intros [= ->]. destruct (IH _ E2) as (p & Hin & Hm & Hbest). exists (Wild :: p). rewrite elem_children in Hin. split_and!; [done|by cbn; rewrite Ex|].
      intros [|[y| |] q] k Hq Hqm; cbn in Hqm; try done.
      - destruct (String.eqb_spec y x) as [->|]; [|done]. rewrite (matchPath_None _ _ E1 q k) in Hqm; [done|by apply elem_children].
      - rewrite Ex in Hqm. cbn. apply (Hbest q k); [by apply elem_children|done].
      - by destruct q. }
    intros E%leaf_Some. exists [Multi]. split_and!; [done..|]. intros [|[y| |] q] k Hq Hqm; cbn in Hqm; try done; [| |by destruct q].
    + destruct (String.eqb_spec y x) as [->|]; [|done]. rewrite (matchPath_None _ _ E1 q k) in Hqm; [done|by apply elem_children].
    + rewrite Ex in Hqm. rewrite (matchPath_None _ _ E2 q k) in Hqm; [done|by apply elem_children].
Qed.

(** *** What registration excludes *)

Definition relation (p q : pattern H) : relationship := combine (compareMethods (p_method p) (p_method q)) (comparePaths (p_path p) (p_path q)).
Definition takes (q : pattern H) (method : string) (r : list string) : Prop :=
  (p_method q = "" ∨ p_method q = method ∨ p_method q = "GET" ∧ method = "HEAD") ∧ matches (p_path q) r = true.

Lemma combine_Disjoint a b : combine a b = Disjoint ↔ a = Disjoint ∨ b = Disjoint.
Proof. destruct a, b; cbn; naive_solver. Qed.
Lemma combine_inverse a b : inverse (combine a b) = combine (inverse a) (inverse b).
Proof. by destruct a, b. Qed.
Lemma compareSegments_inverse x y : compareSegments y x = inverse (compareSegments x y).
Proof. destruct x as [s| |], y as [t| |]; cbn; try done; try (by destruct (String.eqb _ slash)). rewrite (String.eqb_sym t s). by destruct (String.eqb s t). Qed.
Lemma comparePaths_cons x y p q : (x = Multi → p ≠ []) → (y = Multi → q ≠ []) →
  comparePaths (x :: p) (y :: q) = combine (compareSegments x y) (comparePaths p q).
Proof. intros Hx Hy. destruct p as [|a p], q as [|b q], x, y; try done; exfalso; by (apply Hx + apply Hy). Qed.
Lemma comparePaths_inverse p q : comparePaths q p = inverse (comparePaths p q).
Proof.
  revert q. induction p as [|x p IH]; intros [|y q]; [done|by destruct y, q|by destruct x, p|].
  destruct (decide (x = Multi ∧ p = [])) as [[-> ->]|Hx].
  { destruct y as [?| |]; cbn; [done|done|]. by destruct q. }
  destruct (decide (y = Multi ∧ q = [])) as [[-> ->]|Hy].
  { destruct x as [?| |]; cbn; [done|done|]. by destruct p. }
  rewrite !comparePaths_cons by naive_solver. by rewrite compareSegments_inverse, IH, combine_inverse.
Qed.
Lemma compareMethods_inverse a b : compareMethods b a = inverse (compareMethods a b).
Proof.
  unfold compareMethods. rewrite (String.eqb_sym b a). destruct (String.eqb_spec a b); [done|].
  destruct (String.eqb_spec a ""), (String.eqb_spec b ""); try done; [congruence|].
  destruct (String.eqb_spec a "GET"), (String.eqb_spec b "HEAD"), (String.eqb_spec b "GET"), (String.eqb_spec a "HEAD"); cbn; congruence.
Qed.
Lemma relation_inverse p q : relation q p = inverse (relation p q).
Proof. unfold relation. by rewrite compareMethods_inverse, comparePaths_inverse, combine_inverse. Qed.
Lemma conflicts_relation p q : conflicts p q = true ↔ relation p q = Equivalent ∨ relation p q = Overlaps.
Proof. unfold conflicts. change (combine _ _) with (relation p q). destruct (relation p q); naive_solver. Qed.
Lemma conflicts_sym p q : conflicts q p = conflicts p q.
Proof. apply eq_true_iff_eq. rewrite !conflicts_relation, (relation_inverse p q). destruct (relation p q); cbn; naive_solver. Qed.

Lemma matches_meet p q r : matches p r = true → matches q r = true → comparePaths p q ≠ Disjoint.
Proof.
  revert q r. induction p as [|x p IH]; intros q r Hp Hq.
  - destruct r; [|done]. destruct q as [|[] []]; done.
  - destruct q as [|y q]; [destruct r; [|done]; destruct x; [done..|]; by destruct p|]. destruct r as [|z r]; [by destruct x, p|].
    destruct (decide (x = Multi)) as [->|Hx]; [destruct p; [|done]; cbn; by destruct y, q|].
    destruct (decide (y = Multi)) as [->|Hy]; [destruct q; [|done]; by destruct x, p|].
    rewrite comparePaths_cons by done. rewrite combine_Disjoint.
    destruct x as [s| |], y as [t| |]; cbn in Hp, Hq; try done; apply andb_true_iff in Hp as [Hp1 Hp]; apply andb_true_iff in Hq as [Hq1 Hq];
      (intros [Hd|Hd]; [|by apply (IH q r)]); cbn in Hd.
    + apply String.eqb_eq in Hp1 as ->. by rewrite String.eqb_sym, Hq1 in Hd.
    + apply String.eqb_eq in Hp1 as ->. by destruct (String.eqb z slash).
    + apply String.eqb_eq in Hq1 as ->. by destruct (String.eqb z slash).
    + done.
Qed.
Lemma takes_meet p q m r : takes p m r → takes q m r → relation p q ≠ Disjoint.
Proof.
  intros [Hp Hpr] [Hq Hqr]. unfold relation. rewrite combine_Disjoint. intros [Hd|Hd]; [|by apply (matches_meet _ _ r) in Hd].
  unfold compareMethods in Hd. destruct (String.eqb_spec (p_method p) (p_method q)); [done|]. destruct (String.eqb_spec (p_method p) ""); [done|].
  destruct (String.eqb_spec (p_method q) ""); [done|]. destruct Hp as [?|[Hp|[Hp ->]]]; [done| |]; destruct Hq as [?|[Hq|[Hq E]]]; try done; try congruence;
    rewrite Hp, Hq in Hd; try rewrite E in Hd; done.
Qed.

Lemma register_Ret mux ps mux' : register mux ps = Ret mux' → mux' = (mux ++ ps)%list ∧
  ∀ i j p q, ps !! i = Some p → (mux ++ ps)%list !! j = Some q → (j < length mux + i)%nat → conflicts p q = false.
Proof.
  revert mux. induction ps as [|x ps IH]; intros mux; cbn [register].
  - intros [= ->]. by rewrite app_nil_r.
  - destruct (existsb (conflicts x) mux) eqn:Ex; [done|]. intros (-> & H1)%IH. rewrite <-app_assoc in *. split; [done|]. intros [|i] j p q.
    + intros [= ->] Hj Hlt. rewrite Nat.add_0_r in Hlt. rewrite lookup_app_l in Hj by done. apply not_true_iff_false. intros Hc.
      rewrite (proj2 (existsb_exists _ _)) in Ex; [done|]. exists q. split; [|done]. apply list_elem_of_In. by eapply list_elem_of_lookup_2.
    + intros Hi Hj Hlt. apply (H1 i j p q Hi Hj). rewrite length_app. cbn. lia.
Qed.
Lemma register_apart ps mux p q : register [] ps = Ret mux → p ∈ mux → q ∈ mux → q = p ∨ conflicts q p = false.
Proof.
  intros (-> & Hc)%register_Ret [i Hi]%list_elem_of_lookup_1 [j Hj]%list_elem_of_lookup_1. cbn in *.
  destruct (decide (i = j)) as [->|Hn]; [left; congruence|right]. destruct (decide (i < j)%nat).
  - by apply (Hc j i q p).
  - rewrite conflicts_sym. apply (Hc i j p q); [done..|lia].
Qed.

Lemma best_match ps mux method r : register [] ps = Ret mux →
  match matchMethodAndPath mux method r with
  | Some p => p ∈ ps ∧ takes p method r ∧ ∀ q, q ∈ ps → takes q method r → q = p ∨ relation q p = MoreGeneral
  | None => ∀ q, q ∈ ps → ¬ takes q method r
  end.
Proof.
  intros Hreg. assert (mux = ps) as -> by (by apply register_Ret in Hreg as [-> _]). unfold matchMethodAndPath.
  assert (∀ m q, q ∈ ps → p_method q = m → (p_path q, q) ∈ of_method m ps) as Hof.
  { intros m q Hq Hm. apply list_elem_of_fmap. exists q. split; [done|]. by apply list_elem_of_filter. }
  assert (∀ m p k, (p, k) ∈ of_method m ps → k ∈ ps ∧ p_method k = m ∧ p = p_path k) as Hof'.
  { intros m p k (x & [= -> ->] & [Hm Hx]%list_elem_of_filter)%list_elem_of_fmap. done. }
  assert (∀ m p, matchPath (of_method m ps) r = Some p → (p_method p = "" ∨ p_method p = method ∨ p_method p = "GET" ∧ method = "HEAD") →
    (∀ q, q ∈ ps → takes q method r → p_method q = m ∨ compareMethods (p_method q) m = MoreGeneral) →
    p ∈ ps ∧ takes p method r ∧ ∀ q, q ∈ ps → takes q method r → q = p ∨ relation q p = MoreGeneral) as Hfound.
  { intros m p E Hmp Hq. destruct (matchPath_Some _ _ _ E) as (pp & Hin & Hm & Hbest). apply Hof' in Hin as (Hp & <- & ->).
    assert (takes p method r) as Ht by done. split_and!; [done..|]. intros q Hqin Hqt.
    destruct (register_apart _ _ p q Hreg Hp Hqin) as [->|Hc]; [by left|right]. apply not_true_iff_false in Hc. rewrite conflicts_relation in Hc.
    assert (relation q p ≠ MoreSpecific) as Hns.
    { unfold relation. destruct (Hq q Hqin Hqt) as [Em|Em]; rewrite Em; [|apply combine_general]. unfold compareMethods. rewrite String.eqb_refl.
      apply (Hbest _ q); [by apply Hof|apply Hqt]. }
    pose proof (takes_meet q p method r Hqt Ht). destruct (relation q p); naive_solver. }
  assert (∀ m q, matchPath (of_method m ps) r = None → q ∈ ps → takes q method r → p_method q ≠ m) as Hnone.
  { intros m q E Hq [_ Hr] Hm. rewrite (matchPath_None _ _ E (p_path q) q) in Hr; [done|by apply Hof]. }
  destruct (matchPath (of_method method ps) r) as [p|] eqn:E1; cbn [or_else].
  { destruct (matchPath_Some _ _ _ E1) as (pp & Hin & _ & _). apply Hof' in Hin as (_ & Hm & _). apply (Hfound method); [done|by right; left|].
    intros q _ [[Hq|[Hq|[Hq ->]]] _]; [|by left|]; rewrite Hq; [|by right].
    destruct (decide (method = "")) as [->|Hn]; [by left|right]. unfold compareMethods. destruct (String.eqb_spec "" method); [congruence|done]. }
  destruct (if String.eqb method "HEAD" then matchPath (of_method "GET" ps) r else None) as [p|] eqn:E2; cbn [or_else].
  { destruct (String.eqb_spec method "HEAD") as [->|]; [|done]. destruct (matchPath_Some _ _ _ E2) as (pp & Hin & _ & _). apply Hof' in Hin as (_ & Hm & _).
    apply (Hfound "GET"); [done|by right; right|]. intros q Hqin Hqt. pose proof (Hnone "HEAD" q E1 Hqin Hqt). destruct Hqt as [[Hq|[Hq|[Hq _]]] _]; [|done|by left].
    right. by rewrite Hq. }
  destruct (matchPath (of_method "" ps) r) as [p|] eqn:E3.
  { destruct (matchPath_Some _ _ _ E3) as (pp & Hin & _ & _). apply Hof' in Hin as (_ & Hm & _). apply (Hfound ""); [done|by left|].
    intros q Hqin Hqt. pose proof (Hnone method q E1 Hqin Hqt) as Hn. destruct (Hqt) as [[Hq|[Hq|[Hq ->]]] _]; [by left|done|].
    cbn in E2. by destruct (Hnone "GET" q E2 Hqin Hqt). }
  intros q Hqin Hqt. pose proof (Hnone method q E1 Hqin Hqt). pose proof (Hnone "" q E3 Hqin Hqt). destruct (Hqt) as [[Hq|[Hq|[Hq ->]]] _]; [done..|].
  cbn in E2. by destruct (Hnone "GET" q E2 Hqin Hqt).
Qed.
(** a registered mux serves the most specific pattern: of the patterns that take a request it finds
    one exactly where there is one, and every other one is more general; so the order of the
    registrations does not matter. *)
Theorem most_specific ps mux method r : register [] ps = Ret mux →
  match matchMethodAndPath mux method r with
  | Some p => p ∈ ps ∧ takes p method r ∧ ∀ q, q ∈ ps → takes q method r → q = p ∨ relation q p = MoreGeneral
  | None => ∀ q, q ∈ ps → ¬ takes q method r
  end.
Proof. apply best_match. Qed.
End Router.
End Mux.

(** ** The patterns of the server *)

Module Patterns.
Import Mux.

Inductive handler :=
  | Health | Metrics | SessionStream | CertHash | NotificationStream | AgentRuns | AuthCookie | SessionsSubpath | SatellitesSubpath | API
  | Agents | DispatchPreview | Secrets | Providers | UsersH | InviteUser | UsersSubpath | Login | ChangePassword | AuditLog
  | SetSchedule | DeleteSchedule | SetTrigger | DeleteTrigger | ListSchedules | ListTriggers
  | CreatePipeline | ListPipelines | GetPipeline | UpdatePipeline | DeletePipeline | RunPipeline | ListPipelineRuns | GetPipelineRun
  | SetPipelineSchedule | DeletePipelineSchedule.
#[export] Instance handler_dec : EqDecision handler.
Proof. solve_decision. Defined.

Definition api (l : list string) : list seg := Lit "api" :: Lit "v1" :: (Lit <$> l).
Definition at_ (m : string) (path : list seg) (h : handler) : pattern handler := mkPattern m path h.
Definition base : list (pattern handler) :=
  [at_ "" [Lit "health"] Health; at_ "" [Lit "metrics"] Metrics; at_ "" (api ["sessions"; "stream"]) SessionStream;
   at_ "" (api ["transport"; "cert-hash"]) CertHash; at_ "" (api ["notifications"; "stream"]) NotificationStream;
   at_ "" (api ["runs"] ++ [Multi]) AgentRuns; at_ "" (api ["auth"; "cookie"]) AuthCookie; at_ "" (api ["sessions"] ++ [Multi]) SessionsSubpath;
   at_ "" (api ["sessions"]) API; at_ "" (api ["satellites"]) API; at_ "" (api ["satellites"] ++ [Multi]) SatellitesSubpath;
   at_ "" (api [] ++ [Multi]) API]%list.
Definition RegisterAgentRoutes : list (pattern handler) :=
  [at_ "" (api ["agents"]) Agents; at_ "" (api ["agents"] ++ [Multi]) Agents; at_ "" (api ["dispatch"; "preview"]) DispatchPreview]%list.
Definition RegisterSecretRoutes : list (pattern handler) := [at_ "" (api ["secrets"]) Secrets].
Definition RegisterProviderConfigRoutes : list (pattern handler) := [at_ "" (api ["config"; "providers"]) Providers].
Definition RegisterUserRoutes : list (pattern handler) :=
  [at_ "" (api ["users"]) UsersH; at_ "" (api ["users"; "invite"]) InviteUser; at_ "" (api ["users"] ++ [Multi]) UsersSubpath]%list.
Definition RegisterAuthRoutes : list (pattern handler) := [at_ "" (api ["auth"; "login"]) Login; at_ "" (api ["auth"; "change-password"]) ChangePassword].
Definition RegisterAuditRoutes : list (pattern handler) := [at_ "" (api ["audit-log"]) AuditLog; at_ "" (api ["audit-log"] ++ [Multi]) AuditLog]%list.
Definition agent_sub (x : string) : list seg := (api ["agents"] ++ [Wild; Lit x])%list.
Definition RegisterScheduleRoutes : list (pattern handler) :=
  [at_ "PUT" (agent_sub "schedule") SetSchedule; at_ "DELETE" (agent_sub "schedule") DeleteSchedule; at_ "PUT" (agent_sub "trigger") SetTrigger;
   at_ "DELETE" (agent_sub "trigger") DeleteTrigger; at_ "GET" (api ["schedules"]) ListSchedules; at_ "GET" (api ["triggers"]) ListTriggers].
Definition pipeline (l : list seg) : list seg := (api ["pipelines"] ++ Wild :: l)%list.
Definition RegisterPipelineRoutes : list (pattern handler) :=
  [at_ "POST" (api ["pipelines"]) CreatePipeline; at_ "GET" (api ["pipelines"]) ListPipelines; at_ "GET" (pipeline []) GetPipeline;
   at_ "PUT" (pipeline []) UpdatePipeline; at_ "DELETE" (pipeline []) DeletePipeline; at_ "POST" (pipeline [Lit "run"]) RunPipeline;
   at_ "GET" (pipeline [Lit "runs"]) ListPipelineRuns; at_ "GET" (api ["pipeline-runs"] ++ [Wild])%list GetPipelineRun;
   at_ "PUT" (pipeline [Lit "schedule"]) SetPipelineSchedule; at_ "DELETE" (pipeline [Lit "schedule"]) DeletePipelineSchedule].

(** The handlers of the server that are not nil. RegisterContextRoutes registers nothing. *)
Record wired := mkWired { agentHandler : bool; secretHandler : bool; providerConfigHandler : bool; userHandler : bool; authHandler : bool;
  auditHandler : bool; scheduleHandler : bool; pipelineHandler : bool }.
Definition if_set (b : bool) (l : list (pattern handler)) : list (pattern handler) := if b then l else [].
Definition patterns (w : wired) : list (pattern handler) :=
  (base ++ if_set (agentHandler w) RegisterAgentRoutes ++ if_set (secretHandler w) RegisterSecretRoutes ++
   if_set (providerConfigHandler w) RegisterProviderConfigRoutes ++ if_set (userHandler w) RegisterUserRoutes ++
   if_set (authHandler w) RegisterAuthRoutes ++ if_set (auditHandler w) RegisterAuditRoutes ++ if_set (scheduleHandler w) RegisterScheduleRoutes ++
   if_set (pipelineHandler w) RegisterPipelineRoutes)%list.
Definition everything : wired := mkWired true true true true true true true true.
Definition startHTTPServer (w : wired) : go (list (pattern handler)) := register [] (patterns w).

(** *** No conflict, whatever is wired *)

Fixpoint apart (ps : list (pattern handler)) : bool := match ps with [] => true | p :: ps' => forallb (λ q, negb (conflicts q p)) ps' && apart ps' end.
Lemma register_apart_all mux ps : Forall (λ p, Forall (λ q, conflicts q p = false) ps) mux → apart ps = true → register mux ps = Ret (mux ++ ps)%list.
Proof.
  revert mux. induction ps as [|x ps IH]; intros mux Hm Ha; cbn [register]; [by rewrite app_nil_r|]. cbn in Ha. apply andb_true_iff in Ha as [Hx Ha].
  assert (existsb (conflicts x) mux = false) as ->.
  { apply not_true_iff_false. intros (q & Hq & Hc)%existsb_exists. apply list_elem_of_In in Hq. rewrite Forall_forall in Hm. specialize (Hm q Hq).
    inversion Hm as [|? ? Hf _]; subst. congruence. }
  rewrite IH; [by rewrite <-app_assoc| |done]. apply Forall_app. split.
  - eapply Forall_impl; [exact Hm|]. cbn. intros p Hp. by inversion Hp.
  - constructor; [|constructor]. apply Forall_forall. intros q Hq. rewrite forallb_forall in Hx. apply negb_true_iff, Hx. by apply list_elem_of_In.
Qed.
Lemma apart_sublist ps qs : ps `sublist_of` qs → apart qs = true → apart ps = true.
Proof.
  induction 1 as [|x ps qs H IH|x ps qs H IH]; [done| |]; cbn; intros [H1 H2]%andb_true_iff; [|by apply IH].
  apply andb_true_iff. split; [|by apply IH]. rewrite forallb_forall in *. intros q Hq%list_elem_of_In. apply H1, list_elem_of_In.
  by eapply elem_of_sublist.
Qed.
Lemma everything_apart : apart (patterns everything) = true.
Proof. vm_compute. reflexivity. Qed.
Lemma patterns_sublist w : patterns w `sublist_of` patterns everything.
Proof. unfold patterns. repeat (apply sublist_app; [|]); try done; unfold if_set; repeat case_match; try done; apply sublist_nil_l. Qed.

Lemma registered w : register [] (patterns w) = Ret (patterns w).
Proof. apply register_apart_all; [constructor|]. eapply apart_sublist; [apply patterns_sublist|apply everything_apart]. Qed.
(** the server starts: whatever handlers it has, no pattern conflicts with another, so that
    the registration does not panic. *)
Theorem registration_never_panics w : startHTTPServer w = Ret (patterns w).
Proof. apply registered. Qed.

(** *** What is found *)

Lemma base_in w p : p ∈ base → p ∈ patterns w.
Proof. intros H. unfold patterns. apply elem_of_app. by left. Qed.
Definition catch_all : pattern handler := at_ "" (api [] ++ [Multi])%list API.
Definition found_for (w : wired) (method : string) (r : list string) : option handler :=
  p_handler <$> matchMethodAndPath (patterns w) method r.

(** no path below /api/v1 is missing: whatever the method and whatever is wired, a request for one
    is served. Where the only patterns of a path have other methods, the catch-all serves
    it, which answers 200 to what it does not know: a POST to the list of schedules, or a
    request for a feature whose handler is not set. *)
Theorem api_never_404 w method x r :
  is_Some (found_for w method ("api" :: "v1" :: x :: r)) ∧
  (∀ h, found_for w method ("api" :: "v1" :: x :: r) = Some h → h = API ∨
     ∃ p, p ∈ patterns w ∧ p_handler p = h ∧ p ≠ catch_all ∧ takes p method ("api" :: "v1" :: x :: r)).
Proof.
  pose proof (best_match (patterns w) (patterns w) method ("api" :: "v1" :: x :: r)) as H.
  specialize (H (registered w)). unfold found_for. destruct (matchMethodAndPath _ _ _) as [p|]; cbn.
  - split; [by eexists|]. intros h [= <-]. destruct H as (Hp & Ht & _). destruct (decide (p_handler p = API)) as [|Hn]; [by left|right].
    exists p. split_and!; [done|done| |done]. by intros ->.
  - exfalso. apply (H catch_all); [|by split; [left|]]. apply base_in. unfold base, catch_all. set_solver.
Qed.

Lemma sub_everything w p : p ∈ patterns w → p ∈ patterns everything.
Proof. intros H. eapply elem_of_sublist; [exact H|apply patterns_sublist]. Qed.
(** the sub-paths of a session are served by one handler whatever the method: also PATCH, of
    which the code says that the mux does not forward it. *)
Theorem session_subpath_any_method w method sid r : (sid ≠ "stream" ∨ r ≠ []) →
  found_for w method ("api" :: "v1" :: "sessions" :: sid :: r) = Some SessionsSubpath.
Proof.
  intros Hs. pose proof (best_match (patterns w) (patterns w) method ("api" :: "v1" :: "sessions" :: sid :: r) (registered w)) as H.
  assert (at_ "" (api ["sessions"] ++ [Multi])%list SessionsSubpath ∈ patterns w) as Hin by (apply base_in; unfold base; set_solver).
  assert (takes (at_ "" (api ["sessions"] ++ [Multi])%list SessionsSubpath) method ("api" :: "v1" :: "sessions" :: sid :: r)) as Hq by (split; [by left|done]).
  unfold found_for. destruct (matchMethodAndPath _ _ _) as [p|]; [|by destruct (H _ Hin)]. destruct H as (Hp & [_ Hm] & Hbest).
  destruct (Hbest _ Hin Hq) as [<-|Hrel]; [done|]. apply sub_everything in Hp. exfalso. revert Hm Hrel.
  repeat (apply elem_of_cons in Hp as [->|Hp]; [first [done|
    match goal with |- ?a = true → _ → _ => change a with (String.eqb "stream" sid && matches [] r) end;
    destruct (String.eqb_spec "stream" sid) as [<-|]; [|done]; destruct r; naive_solver]|]).
  by apply elem_of_nil in Hp.
Qed.
(** creating a session is not redirected: POST /api/v1/sessions is served where it is, and without
    its own pattern it would be moved to the path with a slash, as the code says. *)
Theorem create_not_redirected w :
  findHandler (patterns w) "POST" "/api/v1/sessions" = Serves API ∧
  findHandler (filter (λ p, p_path p ≠ api ["sessions"]) (patterns w)) "POST" "/api/v1/sessions" = MovedPermanently "/api/v1/sessions/".
Proof. destruct w as [[] [] [] [] [] [] [] []]; vm_compute; split; reflexivity. Qed.

Lemma most_specific_witness :
  match matchMethodAndPath (patterns everything) "PUT" ["api"; "v1"; "agents"; "7"; "schedule"] with
  | Some p => p ∈ patterns everything ∧ takes p "PUT" ["api"; "v1"; "agents"; "7"; "schedule"] ∧
      ∀ q, q ∈ patterns everything → takes q "PUT" ["api"; "v1"; "agents"; "7"; "schedule"] → q = p ∨ relation q p = MoreGeneral
  | None => ∀ q, q ∈ patterns everything → ¬ takes q "PUT" ["api"; "v1"; "agents"; "7"; "schedule"]
  end.
Proof. apply most_specific. vm_compute. reflexivity. Defined.
Lemma session_subpath_any_method_witness : found_for everything "PATCH" ["api"; "v1"; "sessions"; "7"; "name"] = Some SessionsSubpath.
Proof. apply session_subpath_any_method. by left. Defined.
End Patterns.
