(* ===== verification/Metrics.v ===== *)
(** * src/internal/metrics: the counters of requests

    The middleware counts every request under its method, its normalized path and its status;
    the normalization is meant to keep the number of counters small. The regular expressions of
    normalizePath are written as matchers at the start of a string: how many bytes they take. *)
From Stdlib Require Import Ascii String.
From S2P Require Import Prelude GoStrings.
#[local] Open Scope string_scope.

Module Metrics.

(** ** The regular expressions *)

Definition between (lo hi c : ascii) : bool := (nat_of_ascii lo <=? nat_of_ascii c)%nat && (nat_of_ascii c <=? nat_of_ascii hi)%nat.
Definition is_num (c : ascii) : bool := between "0" "9" c.
Definition is_hex (c : ascii) : bool := is_num c || between "a" "f" c || between "A" "F" c.
Definition is_alnum (c : ascii) : bool := Ascii.eqb c "-" || between "a" "z" c || between "A" "Z" c || is_num c.

(** Exactly [n] characters of a class, and what follows; the longest run of a class. *)
Fixpoint exactly (p : ascii → bool) (n : nat) (s : string) : option string :=
  match n, s with
  | O, _ => Some s
  | S n', String c s' => if p c then exactly p n' s' else None
  | S _, EmptyString => None
  end.
Fixpoint span (p : ascii → bool) (s : string) : nat :=
  match s with String c s' => if p c then S (span p s') else O | EmptyString => O end.
Definition dash (s : string) : option string := match s with String c s' => if Ascii.eqb c "-" then Some s' else None | EmptyString => None end.
Definition uuid_at (s : string) : option nat :=
  s ← exactly is_hex 8 s; s ← dash s; s ← exactly is_hex 4 s; s ← dash s; s ← exactly is_hex 4 s; s ← dash s;
  s ← exactly is_hex 4 s; s ← dash s; _ ← exactly is_hex 12 s; Some 36%nat.
Definition numeric_at (s : string) : option nat :=
  match s with
  | String "/" s' =>
      let '(k, s') := match dash s' with Some s'' => (1%nat, s'') | None => (0%nat, s') end in
      match span is_num s' with O => None | n => Some (1 + k + n)%nat end
  | _ => None
  end.
Definition alphanumeric_at (s : string) : option nat :=
  match s with
  | String "/" s' => let n := span is_alnum s' in if (20 <=? n)%nat then Some (1 + n)%nat else None
  | _ => None
  end.

(** ReplaceAllString for an expression that does not match the empty string; [skip] bytes belong to a match. *)
Fixpoint replace (m : string → option nat) (by_ : string) (skip : nat) (s : string) : string :=
  match s with
  | EmptyString => EmptyString
  | String c s' =>
      match skip with
      | S k => replace m by_ k s'
      | O => match m s with Some (S n) => by_ +:+ replace m by_ n s' | _ => String c (replace m by_ 0 s') end
      end
  end.
Definition ReplaceAllString (m : string → option nat) (s by_ : string) : string := replace m by_ 0 s.

(** ** normalizePath *)

Definition splitPath (path : string) : list string := filter (λ x, x ≠ "") (Str.Split (Str.TrimPrefix path "/") "/"%char).
Fixpoint joinPath (segments : list string) : string :=
  match segments with [] => "" | [x] => x | x :: l => x +:+ "/" +:+ joinPath l end.
Definition normalizePath (path : string) : string :=
  let normalized := ReplaceAllString uuid_at path ":id" in
  let normalized := ReplaceAllString numeric_at normalized "/:id" in
  let normalized := ReplaceAllString alphanumeric_at normalized "/:token" in
  if (50 <? String.length normalized)%nat then
    let segments := splitPath normalized in
    if (4 <? length segments)%nat then joinPath (take 4 segments) +:+ "/:rest" else normalized
  else normalized.

(** ** The middleware *)

(** httpRequestsTotal: by method, path and status. *)
Notation counters := (gmap (string * string * Z) Z).
(** What the handler behind it does: the status that it wrote, if it wrote one, or a panic. *)
Inductive served := Wrote (status : option Z) | Panicked.
#[export] Instance served_dec : EqDecision served.
Proof. solve_decision. Defined.
Definition MetricsMiddleware (c : counters) (method path : string) (next : served) : counters :=
  match next with
  | Wrote status =>
      let k := (method, normalizePath path, default 200%Z status) in
      <[k := (default 0 (c !! k) + 1)%Z]> c
  | Panicked => c
  end.
Definition serve (c : counters) (rs : list (string * string * served)) : counters := foldl (λ c r, MetricsMiddleware c r.1.1 r.1.2 r.2) c rs.
Definition total (c : counters) : Z := map_fold (λ _ n acc, (n + acc)%Z) 0%Z c.

(** *** What is counted *)

Lemma sum_insert c k n : total (<[k := n]> c) = (total c - default 0 (c !! k) + n)%Z.
Proof.
  assert (∀ c n, c !! k = None → total (<[k := n]> c) = (n + total c)%Z) as Hi.
  { intros c' n' Hn. unfold total. rewrite map_fold_insert_L; [done|intros; lia|done]. }
  destruct (c !! k) as [x|] eqn:Hk; cbn [default from_option]; [|rewrite Hi by done; lia].
  rewrite <-insert_delete_eq, Hi by apply lookup_delete_eq.
  assert (total c = x + total (delete k c))%Z as ->; [|unfold id; lia]. rewrite <-Hi by apply lookup_delete_eq. by rewrite insert_delete_id.
Qed.
(** the counters add up to the requests that were answered: one that panicked is not counted at all. *)
Theorem requests_counted c rs : total (serve c rs) = (total c + Z.of_nat (length (filter (λ r, r.2 ≠ Panicked) rs)))%Z.
Proof.
  unfold serve. revert c. induction rs as [|[[method path] next] rs IH]; intros c; cbn [foldl]; [cbn; lia|]. rewrite IH, filter_cons. cbn [fst snd MetricsMiddleware].
  destruct next as [status|]; cbn [MetricsMiddleware].
  - rewrite sum_insert, decide_True by done. cbn [length]. lia.
  - rewrite decide_False by naive_solver. done.
Qed.

(** *** How many counters there are *)

Definition all (p : ascii → bool) (s : string) : Prop := ∀ c, c ∈ list_ascii_of_string s → p c = true.
Lemma exactly_app p n s t : String.length s = n → all p s → exactly p n (s +:+ t) = Some t.
Proof.
  unfold all. revert n. induction s as [|c s IH]; intros [|n] Hn Hp; cbn in *; try done. change (String c s +:+ t) with (String c (s +:+ t)). cbn. rewrite Hp by left. apply IH; [lia|]. intros x Hx. apply Hp. by right.
Qed.
Lemma append_cons c s t : String c s +:+ t = String c (s +:+ t).
Proof. done. Qed.
Lemma dash_app t : dash ("-" +:+ t) = Some t.
Proof. done. Qed.
Definition uuid (u : string) : Prop := ∃ a b c d e, u = a +:+ "-" +:+ b +:+ "-" +:+ c +:+ "-" +:+ d +:+ "-" +:+ e ∧
  String.length a = 8%nat ∧ String.length b = 4%nat ∧ String.length c = 4%nat ∧ String.length d = 4%nat ∧ String.length e = 12%nat ∧
  all is_hex a ∧ all is_hex b ∧ all is_hex c ∧ all is_hex d ∧ all is_hex e.
Lemma uuid_at_uuid u t : uuid u → uuid_at (u +:+ t) = Some 36%nat ∧ String.length u = 36%nat.
Proof.
  intros (a & b & c & d & e & -> & Ha & Hb & Hc & Hd & He & Ha' & Hb' & Hc' & Hd' & He'). split.
  - unfold uuid_at. rewrite !Str.app_assoc_str. repeat (rewrite exactly_app by done; cbn [mbind option_bind]; rewrite ?dash_app; cbn [mbind option_bind]). done.
  - rewrite !Str.length_app. cbn. lia.
Qed.

Lemma replace_skip m by_ n s t : String.length s = n → replace m by_ n (s +:+ t) = replace m by_ 0 t.
Proof. revert s. induction n as [|n IH]; intros [|c s] Hn; try done. rewrite append_cons. cbn [replace]. apply IH. by injection Hn. Qed.
Lemma replace_uuid by_ u t : uuid u → replace uuid_at by_ 0 (u +:+ t) = by_ +:+ replace uuid_at by_ 0 t.
Proof.
  intros Hu. destruct (uuid_at_uuid u t Hu) as [Hm Hl]. destruct u as [|c u]; [done|]. rewrite append_cons in *. cbn [replace]. rewrite Hm. f_equal.
  apply replace_skip. cbn in Hl. lia.
Qed.
(** A prefix in which no match starts is kept. *)
Fixpoint no_match (m : string → option nat) (p t : string) : Prop :=
  match p with EmptyString => True | String c p' => m (p +:+ t) = None ∧ no_match m p' t end.
Lemma replace_prefix m by_ p t : no_match m p t → replace m by_ 0 (p +:+ t) = p +:+ replace m by_ 0 t.
Proof. induction p as [|c p IH]; [done|]. intros [Hm Hp]. rewrite append_cons in *. cbn [replace]. rewrite Hm, IH by done. done. Qed.

(** the sessions of the API have one counter: whatever the UUID, what follows the prefix of the
    collection is the same, also for the sub-paths that the cockpit uses. *)
Theorem session_paths_collapse u sub : uuid u → sub ∈ [""; "/stream"; "/attach"; "/detach"; "/suspend"; "/resume"; "/kill"; "/preview"; "/name"; "/recordings"; "/recording/start"] →
  normalizePath ("/api/v1/sessions/" +:+ u +:+ sub) = "/api/v1/sessions/:id" +:+ sub.
Proof.
  intros Hu Hsub. assert (ReplaceAllString uuid_at ("/api/v1/sessions/" +:+ u +:+ sub) ":id" = "/api/v1/sessions/" +:+ ":id" +:+ sub) as E.
  { unfold ReplaceAllString. rewrite replace_prefix, replace_uuid by (try done; repeat split). do 2 f_equal.
    repeat (apply elem_of_cons in Hsub as [->|Hsub]; [reflexivity|]). by apply elem_of_nil in Hsub. }
  unfold normalizePath. rewrite E. clear E Hu.
  repeat (apply elem_of_cons in Hsub as [->|Hsub]; [vm_compute; reflexivity|]). by apply elem_of_nil in Hsub.
Qed.

Fixpoint underscores (n : nat) : string := match n with O => "" | S n' => String "_" (underscores n') end.
Lemma replace_underscores m by_ n : (∀ s, m (String "_" s) = None) → replace m by_ 0 (underscores n) = underscores n.
Proof. intros Hm. induction n as [|n IH]; [done|]. cbn. by rewrite Hm, IH. Qed.
Lemma underscores_inj n k : underscores n = underscores k → n = k.
Proof. revert k. induction n as [|n IH]; intros [|k]; cbn; [done..|]. intros [= H%IH]. by subst. Qed.
Lemma split_underscores n : Str.Split (underscores n) "/"%char = [underscores n].
Proof. induction n as [|n IH]; [done|]. cbn [underscores Str.Split]. cbn [Ascii.eqb Bool.eqb]. by rewrite IH. Qed.
Lemma normalize_underscores n : normalizePath ("/" +:+ underscores n) = "/" +:+ underscores n.
Proof.
  unfold normalizePath, ReplaceAllString. cbn [append].
  assert (∀ m by_, m (String "/" (underscores n)) = None → (∀ s, m (String "_" s) = None) → replace m by_ 0 (String "/" (underscores n)) = String "/" (underscores n)) as H.
  { intros m by_ H1 H2. cbn [replace]. rewrite H1. by rewrite replace_underscores. }
  rewrite !H; try done; try (destruct n; done). destruct (50 <? _)%nat; [|done]. unfold splitPath.
  replace (Str.TrimPrefix (String "/" (underscores n)) "/") with (underscores n) by done. rewrite split_underscores. rewrite filter_cons. by case_decide.
Qed.
(** but nothing bounds the counters: a client that asks for ever longer paths of a character that the
    expressions do not know gets a new counter with each request, and the middleware is in front of the
    authentication: [n] requests that are all refused leave [n] counters more. *)
Theorem counters_unbounded c method status n : (∀ k, c !! (method, "/" +:+ underscores k, status) = None) →
  size (serve c ((λ k, (method, "/" +:+ underscores k, Wrote (Some status))) <$> seq 0 n)) = (size c + n)%nat.
Proof.
  intros Hc. unfold serve. assert (∀ j c', (∀ k, j ≤ k → c' !! (method, "/" +:+ underscores k, status) = None)%nat →
    size (foldl (λ c r, MetricsMiddleware c r.1.1 r.1.2 r.2) c' ((λ k, (method, "/" +:+ underscores k, Wrote (Some status))) <$> seq j n)) = (size c' + n)%nat) as H; [|by apply (H 0%nat)].
  clear. induction n as [|n IH]; intros j c Hc; cbn [seq fmap list_fmap foldl]; [lia|]. rewrite IH.
  - cbn [fst snd MetricsMiddleware default]. rewrite normalize_underscores, map_size_insert_None by (apply Hc; lia). lia.
  - intros k Hk. cbn [fst snd MetricsMiddleware default]. rewrite normalize_underscores, lookup_insert_ne; [apply Hc; lia|]. intros [= E%underscores_inj]. lia.
Qed.

(** ** Examples *)

Definition demo_uuid : string := "123e4567-e89b-12d3-a456-426614174000".
Lemma demo_is_uuid : uuid demo_uuid.
Proof.
  exists "123e4567", "e89b", "12d3", "a456", "426614174000". split_and!; try done; unfold all; cbn; intros x Hx;
    repeat (apply elem_of_cons in Hx as [->|Hx]; [reflexivity|]); by apply elem_of_nil in Hx.
Qed.
Lemma session_paths_collapse_witness : normalizePath ("/api/v1/sessions/" +:+ demo_uuid +:+ "/attach") = "/api/v1/sessions/:id/attach".
Proof. apply (session_paths_collapse demo_uuid "/attach" demo_is_uuid). right; right; left. Defined.
Lemma counters_unbounded_witness : size (serve ∅ ((λ k, ("GET", "/" +:+ underscores k, Wrote (Some 401%Z))) <$> seq 0 7)) = 7%nat.
Proof. etrans; [apply (counters_unbounded ∅ "GET" 401 7); intros k; apply lookup_empty|]. by rewrite map_size_empty. Defined.
(** A segment that only begins with a digit loses it; a long path is cut to four segments. *)
Example digits_inside : normalizePath "/api/v1/agents/7zip" = "/api/v1/agents/:idzip". Proof. vm_compute. reflexivity. Qed.
Example long_path : normalizePath "/api/v1/satellites/123e4567-e89b-12d3-a456-426614174000/context/some-file-name.md/xyz" = "api/v1/satellites/:id/:rest". Proof. vm_compute. reflexivity. Qed.
End Metrics.
