(* ===== verification/Startup.v ===== *)
(** * src/cmd/nexus/main.go: the environment, construction, start and shutdown of the server

    What the server makes of its environment: the JWT secret, the licence, the first
    owner, the database, the handlers that exist; then Start and Stop. os.Exit(1) is
    [None]; an environment variable that is not set is the empty string, a file that
    cannot be read is missing. Time is in milliseconds. *)
From Stdlib Require Import Ascii String.
From S2P Require Import Prelude GoStrings Base64 Json License Users Routes Mux.
Import License Users.
#[local] Open Scope string_scope.
#[local] Open Scope Z_scope.
#[local] Set Default Proof Using "Type".

Module Startup.

(** ** The environment *)

Notation environment := (gmap string string).
Notation files := (gmap string string).
Definition Getenv (e : environment) (k : string) : string := default "" (e !! k).
Definition envOr (e : environment) (k f : string) : string :=
  let v := Getenv e k in if negb (String.eqb v "") then v else f.

Definition isInsecure (secret : string) : bool :=
  String.eqb secret "" || String.eqb secret "default-secret" || String.eqb secret "change-me-in-production".
(** [rand_Read] is the 32 bytes that rand.Read fills in, if it does. *)
Definition getJWTSecret (e : environment) (rand_Read : option string) : option string :=
  let env := envOr e "DAAO_ENV" "development" in
  let secret := Getenv e "JWT_SECRET" in
  if isInsecure secret then
    if String.eqb env "production" then None else
    match rand_Read with
    | None => None
    | Some b => Some (Base64.EncodeToString Base64.StdEncoding b)
    end
  else Some secret.

(** ** The licence *)

Definition inline_or_file (e : environment) (fs : files) (inline file : string) : string :=
  let k := Getenv e inline in
  if String.eqb k "" then
    let f := Getenv e file in
    if negb (String.eqb f "") then match fs !! f with None => "" | Some data => Str.TrimSpace data end else ""
  else k.
Definition licPubKey (embeddedLicensePubKey : string) (e : environment) (fs : files) : string :=
  if negb (String.eqb embeddedLicensePubKey "") then embeddedLicensePubKey
  else inline_or_file e fs "DAAO_LICENSE_PUBLIC_KEY" "DAAO_LICENSE_PUBLIC_KEY_FILE".
Definition licKey (e : environment) (fs : files) : string := inline_or_file e fs "DAAO_LICENSE_KEY" "DAAO_LICENSE_KEY_FILE".

Section Server.
(** crypto/ed25519, the syntax of JSON, and bcrypt. *)
Variable ed25519_Verify : string → string → string → bool.
Variable parse : string → option Json.json.
Variable bcrypt_Generate : string → string → option string.
Variable bcrypt_Compare : string → string → bool.

Definition licMgr (embedded : string) (e : environment) (fs : files) (now1 now2 : Z) : Manager :=
  let m := match NewManager (licPubKey embedded e fs) with Ok m => m | Err _ => mkManager None None false end in
  let k := licKey e fs in
  if negb (String.eqb k "") then (LoadKey ed25519_Verify parse m k now1 now2).1 else m.

(** ** The database *)

(** Whether the n-th call of database.NewPool succeeds; the result is the attempt that did, and the time slept. *)
Fixpoint dial (try : nat → bool) (i left : nat) (slept : Z) : option nat * Z :=
  match left with
  | O => (None, slept)
  | S n => if try i then (Some i, slept) else dial try (S i) n (slept + 3000)
  end.
Definition connect (try : nat → bool) : option nat * Z := dial try 1 5 0.

(** ** The first owner *)

Fixpoint before_at (s : string) : option string :=
  match s with
  | EmptyString => None
  | String c s' => if Ascii.eqb c "@" then Some "" else String c <$> before_at s'
  end.
Definition ownerName (ownerEmail : string) : string :=
  if 0 <? Z.of_nat (String.length ownerEmail) - 1 then default ownerEmail (before_at ownerEmail) else ownerEmail.
(** s[:n] *)
Definition str_prefix (s : string) (n : nat) : go string := if (n <=? String.length s)%nat then Ret (substring 0 n s) else Panic.
(** [rand_Read]: the 12 bytes that rand.Read fills in. *)
Definition ownerPassword (e : environment) (rand_Read : string) : go string :=
  let p := Getenv e "DAAO_OWNER_PASSWORD" in
  if String.eqb p "" then str_prefix (Base64.EncodeToString Base64.URLEncoding rand_Read) 16 else Ret p.

Definition owners (t : table) : list UserRow := filter (λ r, r_role r = "owner") (map_to_list t).*2.
Inductive bootstrapped := NoEmail | CheckFailed | OwnerExists | PasswordRefused | CreateFailed | Created (password : string).
(** [f1], [f2]: whether the count and the insert fail; [salt], [id], [now]: what bcrypt, gen_random_uuid() and NOW() give. *)
Definition bootstrap (t : table) (e : environment) (rand_Read salt : string) (id : N) (now : Z) (f1 f2 : bool) : go (table * bootstrapped) :=
  let ownerEmail := Getenv e "DAAO_OWNER_EMAIL" in
  if String.eqb ownerEmail "" then Ret (t, NoEmail) else
  if f1 then Ret (t, CheckFailed) else
  if (length (owners t) =? 0)%nat then
    match ownerPassword e rand_Read with
    | Panic => Panic
    | Ret password =>
        match HashPassword bcrypt_Generate password salt with
        | Err _ => Ret (t, PasswordRefused)
        | Ok h =>
            match CreateWithPassword t ownerEmail (ownerName ownerEmail) "owner" h id now f2 with
            | (t', Ok _) => Ret (t', Created password)
            | (t', Err _) => Ret (t', CreateFailed)
            end
        end
    end
  else Ret (t, OwnerExists).
End Server.

(** ** Construction *)

(** The stubs of the public edition. *)
Inductive enterprise (A : Type) := ErrEnterpriseRequired.
Arguments ErrEnterpriseRequired {A}.
Definition NewScheduler : enterprise unit := ErrEnterpriseRequired.
Definition NewPipelineExecutor : enterprise unit := ErrEnterpriseRequired.
Definition NewLeaderSchedulerGuard : option unit := None.
Definition FeatureHITL : string := "hitl".

(** NexusServer: whether a field is not nil. *)
Record NexusServer := mkNexusServer {
  dbPool : bool; sessionStore : bool; ringBufferPool : bool; notifService : bool; hitlMgr : bool; auditLogger : bool;
  pipelineExecutor : bool; pipelineHandler : bool; leaderGuard : bool; scheduler : bool; scheduleHandler : bool;
  agentHandler : bool; contextHandler : bool; secretHandler : bool; userHandler : bool; auditHandler : bool; authHandler : bool;
  providerConfigHandler : bool; oidcEnabled : bool; jwtSecret : string; jwtIssuer : string; recordingsDir : string; licenseMgr : Manager;
}.
Definition newNexusServerWithDeps (e : environment) (dbp ss rb : bool) (lm : Manager) (rand_Read : option string) : option NexusServer :=
  match getJWTSecret e rand_Read with
  | None => None
  | Some secret =>
      let chaining := HasFeature lm FeatureSessionChaining && dbp in
      let scheduling := HasFeature lm FeatureScheduledSessions && dbp in
      let executor := chaining && match NewPipelineExecutor with ErrEnterpriseRequired => false end in
      let guard := scheduling && bool_decide (is_Some NewLeaderSchedulerGuard) in
      let sched := scheduling && match NewScheduler with ErrEnterpriseRequired => false end in
      Some (mkNexusServer dbp ss rb dbp (HasFeature lm FeatureHITL && dbp) dbp executor chaining guard sched scheduling
              dbp dbp dbp dbp dbp dbp dbp (negb (String.eqb (Getenv e "OIDC_ISSUER_URL") "")) secret (envOr e "JWT_ISSUER" "daao")
              (envOr e "DAAO_RECORDINGS_DIR" "/data/recordings") lm)
  end.
Definition NewNexusServer e lm rnd := newNexusServerWithDeps e false false false lm rnd.
Definition NewNexusServerWithDB e lm rnd := newNexusServerWithDeps e true true true lm rnd.
(** Which routes startHTTPServer registers. *)
Definition wired_of (s : NexusServer) : Patterns.wired :=
  Patterns.mkWired (agentHandler s) (secretHandler s) (providerConfigHandler s) (userHandler s) (authHandler s) (auditHandler s)
    (scheduleHandler s) (pipelineHandler s).

(** ** Start *)

(** What createMTLSConfig reads: the key pair, if it is one. *)
Record TLSConfig := mkTLS { Certificates : list (option string) }.
Definition createMTLSConfig (pair : option string) : TLSConfig * bool := (mkTLS [pair], false).
(** The ports that are free, and what the goroutines of the three servers come to. *)
Record ports := mkPorts { free_http : bool; free_grpc : bool; free_webtransport : bool }.
Record running := mkRunning { http : bool; grpc : bool; webtransport : bool; handshakes : bool }.
Inductive start_error := HTTPFailed | GRPCFailed | WebTransportFailed.
(** ListenAndServeTLS("", "") loads no file where the configuration has a certificate, be it an empty one;
    the WebTransport server loads its files itself. *)
Definition startHTTPServer (p : ports) (pair : option string) : option start_error * bool :=
  let '(tc, failed) := createMTLSConfig pair in
  if failed then (Some HTTPFailed, false) else (None, negb (length (Certificates tc) =? 0)%nat && free_http p).
Definition startGRPCServer (p : ports) (pair : option string) : option start_error * bool :=
  let '(tc, failed) := createMTLSConfig pair in if failed then (Some GRPCFailed, false) else (None, free_grpc p).
Definition startWebTransportServer (p : ports) (pair : option string) : option start_error * bool := (None, bool_decide (is_Some pair) && free_webtransport p).
Definition Start (p : ports) (pair : option string) : option start_error * running :=
  match startHTTPServer p pair with
  | (Some e, h) => (Some e, mkRunning h false false false)
  | (None, h) =>
      match startGRPCServer p pair with
      | (Some e, g) => (Some e, mkRunning h g false false)
      | (None, g) => let '(e, w) := startWebTransportServer p pair in (e, mkRunning h g w (bool_decide (is_Some pair)))
      end
  end.

(** ** Stop *)

(** How long the servers need to drain; [None] where a request of theirs does not end by itself. *)
Record drains := mkDrains { http_needs : option Z; grpc_needs : option Z }.
Inductive stop_event := NotReady | HTTPDrained | HTTPShutdownError | SchedulerStopped | GRPCStopped | GRPCForced | PoolClosed.
Definition limit : Z := 10000.
Definition wait (needs : option Z) : Z * bool :=
  match needs with Some n => if n <=? limit then (n, true) else (limit, false) | None => (limit, false) end.
Definition Stop (s : NexusServer) (d : drains) : list stop_event * Z :=
  let '(t1, ok1) := wait (http_needs d) in
  let '(t2, ok2) := wait (grpc_needs d) in
  ((NotReady :: (if ok1 then [] else [HTTPShutdownError]) ++ [HTTPDrained] ++
    (if leaderGuard s || scheduler s then [SchedulerStopped] else []) ++ [if ok2 then GRPCStopped else GRPCForced] ++
    (if dbPool s then [PoolClosed] else []))%list, t1 + t2).

(** *** The secret *)

Lemma encoded_length e s : String.length (Base64.EncodeToString e s) = (4 * ((String.length s + 2) / 3))%nat.
Proof.
  induction s as [|a|a b|a b c s IH] using Base64.string_ind3; [done..|]. cbn [Base64.EncodeToString String.length]. rewrite IH.
  replace (S (S (S (String.length s))) + 2)%nat with (String.length s + 2 + 1 * 3)%nat by lia. rewrite Nat.div_add by lia. lia.
Qed.
(** the server never signs with a default: the secret it takes is not empty and none of the known ones,
    it is the configured one where that is sound, and it exits in production, and there alone
    (while randomness is to be had), where the configured one is not. *)
Theorem jwt_secret_sound e rnd : (∀ b, rnd = Some b → String.length b = 32%nat) →
  (∀ s, getJWTSecret e rnd = Some s → isInsecure s = false ∧
     (s = Getenv e "JWT_SECRET" ∨ ∃ b, rnd = Some b ∧ Base64.DecodeString Base64.StdEncoding s = Some b)) ∧
  (is_Some rnd → (getJWTSecret e rnd = None ↔ Getenv e "DAAO_ENV" = "production" ∧ isInsecure (Getenv e "JWT_SECRET") = true)).
Proof.
  intros Hlen. unfold getJWTSecret. assert (String.eqb (envOr e "DAAO_ENV" "development") "production" = String.eqb (Getenv e "DAAO_ENV") "production") as ->.
  { unfold envOr. by destruct (String.eqb_spec (Getenv e "DAAO_ENV") "") as [->|]. }
  destruct (isInsecure (Getenv e "JWT_SECRET")) eqn:Hi.
  - destruct (String.eqb_spec (Getenv e "DAAO_ENV") "production") as [Hp|Hp].
    + split; [done|]. by intros _.
    + destruct rnd as [b|]; [|split; [done|]; by intros []]. split; [|intros _; naive_solver]. intros s [= <-]. split; [|right; eauto using Base64.decode_encoded].
      pose proof (encoded_length Base64.StdEncoding b) as Hl. rewrite (Hlen b eq_refl) in Hl. unfold isInsecure.
      repeat match goal with |- context [String.eqb ?x ?y] =>
        destruct (String.eqb_spec x y) as [E|_]; [rewrite E in Hl; vm_compute in Hl; discriminate Hl|] end.
      done.
  - split; [|intros _; naive_solver]. intros s [= <-]. split; [done|by left].
Qed.

(** *** The licence *)

(** an official build takes its features from the licensor: with the key that is built in, whatever the
    environment and the files say, a feature that the server has was granted by a licence that this key
    verifies, and which had not run out at the start. *)
Theorem official_features_signed verify parse embedded e fs n1 n2 m0 f :
  embedded ≠ "" → NewManager embedded = Ok m0 → HasFeature (licMgr verify parse embedded e fs n1 n2) f = true →
  ∃ key c, publicKey m0 = Some key ∧ signed verify parse key (licKey e fs) c ∧ f ∈ Features c ∧ (0 < ExpiresAt c → n1 <= ExpiresAt c).
Proof.
  intros He Hnew. unfold licMgr, licPubKey. destruct (String.eqb_spec embedded "") as [|_]; [done|]. cbn [negb]. rewrite Hnew.
  pose proof (NewManager_Ok _ _ Hnew) as Hc0. destruct (String.eqb_spec (licKey e fs) "") as [|_]; cbn [negb]; [unfold HasFeature; by rewrite Hc0|].
  unfold HasFeature. destruct (claims (LoadKey _ _ _ _ _ _).1) as [c|] eqn:Hc; cbn [from_option]; [|discriminate]. intros Hf%(has_feature_elem verify parse).
  destruct (LoadKey_claims _ _ _ _ _ _ _ Hc) as [[_ ?]|[Hp Hv]]; [congruence|].
  destruct (parseAndVerify_signed _ _ _ _ _ Hp) as (key & Hk & Hs). exists key, c. split_and!; try done. by apply Validate_None in Hv as (_ & _ & ? & _).
Qed.

(** *** The database *)

Lemma dial_spec try i left slept : match dial try i left slept with
  | (Some k, z) => (i <= k < i + left)%nat ∧ try k = true ∧ (∀ j, (i <= j < k)%nat → try j = false) ∧ z = slept + 3000 * (Z.of_nat k - Z.of_nat i)
  | (None, z) => (∀ j, (i <= j < i + left)%nat → try j = false) ∧ z = slept + 3000 * Z.of_nat left
  end.
Proof.
  revert i slept. induction left as [|n IH]; intros i slept; cbn [dial]; [split; [intros|]; lia|].
  destruct (try i) eqn:Ht; [split_and!; [lia|lia|done|intros; lia|lia]|]. specialize (IH (S i) (slept + 3000)). destruct (dial _ _ _ _) as [[k|] z].
  - destruct IH as (H1 & H2 & H3 & ->). split_and!; [lia|lia|done| |lia]. intros j Hj. destruct (decide (j = i)) as [->|]; [done|]. apply H3. lia.
  - destruct IH as (H1 & ->). split; [|lia]. intros j Hj. destruct (decide (j = i)) as [->|]; [done|]. apply H1. lia.
Qed.
(** the database is tried five times, three seconds apart: the server starts with the first attempt that
    succeeds, and gives up after fifteen seconds where none does. *)
Theorem connect_five_times try : match connect try with
  | (Some k, z) => (1 <= k <= 5)%nat ∧ try k = true ∧ (∀ j, (1 <= j < k)%nat → try j = false) ∧ z = 3000 * (Z.of_nat k - 1)
  | (None, z) => (∀ j, (1 <= j <= 5)%nat → try j = false) ∧ z = 15000
  end.
Proof.
  unfold connect. pose proof (dial_spec try 1 5 0) as H. destruct (dial _ _ _ _) as [[k|] z].
  - destruct H as (? & ? & ? & ->). split_and!; [lia|lia|done|done|lia].
  - destruct H as (H & ->). split; [|lia]. intros j Hj. apply H. lia.
Qed.

(** *** The first owner *)

Section Owner.
Variable gen : string → string → option string.
Variable cmp : string → string → bool.
(** bcrypt accepts what it has hashed, and a hash is not empty. *)
Hypothesis bcrypt_law : ∀ s p x, gen s p = Some x → cmp x p = true ∧ x ≠ "".

Definition of_email (t : table) (email : string) : list UserRow := filter (λ r, r_email r = email) (map_to_list t).*2.
(** The row that CreateWithPassword writes. *)
Lemma CreateWithPassword_Ok t email name role h id now f t' u : users_wf t → t !! id = None →
  CreateWithPassword t email name role h id now f = (t', Ok u) →
  ∃ r, t' = <[r_id r := r]> t ∧ users_wf t' ∧ r_email r = email ∧ r_password_hash r = Some h ∧ scanUser (userColumns r) = Ok u ∧
    match of_email t email with [] => r_id r = id ∧ r_role r = role | k :: _ => t !! r_id k = Some k ∧ r_id r = r_id k ∧ r_role r = r_role k end.
Proof using Type.
  intros Hwf Hid. unfold CreateWithPassword. fold (of_email t email). destruct (f || negb (isValidRole role)); [done|].
  assert (∀ k l, of_email t email = k :: l → t !! r_id k = Some k ∧ r_email k = email) as Hk.
  { intros k l E. assert (k ∈ of_email t email) as Hin by (rewrite E; left). unfold of_email in Hin. apply list_elem_of_filter in Hin as [He Hin].
    split; [by apply elem_of_users|done]. }
  set (r := match of_email t email with [] => _ | _ => _ end). destruct (put_row t r) as [x| |] eqn:Hp; [|done..]. intros [= -> Hs].
  exists r. pose proof (put_row_wf _ _ _ Hwf Hp). apply put_row_SOk in Hp as (-> & _). split_and!; try done; unfold r; destruct (of_email t email) as [|k l]; try done.
  - by apply (Hk k l).
  - split_and!; try done. by apply (Hk k l).
Qed.

Lemma owners_none t : users_wf t → length (owners t) = 0%nat → ∀ i r, t !! i = Some r → r_role r ≠ "owner".
Proof using Type.
  intros Hwf Ho%nil_length_inv i r Hi Hr. assert (r ∈ owners t) as Hin; [|rewrite Ho in Hin; by apply elem_of_nil in Hin].
  apply list_elem_of_filter. split; [done|]. apply elem_of_users; [done|]. by destruct (proj1 Hwf _ _ Hi) as [-> _].
Qed.
Lemma HashPassword_Ok password salt h : HashPassword gen password salt = Ok h → (8 <= String.length password)%nat ∧ gen salt password = Some h.
Proof using Type. unfold HashPassword. destruct (Z.ltb_spec (Z.of_nat (String.length password)) 8); [done|]. destruct (gen salt password) eqn:E; intros [= <-]. split; [lia|done]. Qed.

(** C22: the first owner can log in: where the start reports that it has created the owner, the password
    that it used (and printed, if it made it up) opens the account of the address, the other
    accounts are as they were, and the next start changes nothing, even with another password.
    But an address that has an account keeps its role: then there is still no owner. *)
Theorem owner_bootstrapped t e rnd salt id now f2 t' password e2 rnd2 salt2 id2 now2 f3 f4 : users_wf t → t !! id = None →
  bootstrap gen t e rnd salt id now false f2 = Ret (t', Created password) →
  let email := Getenv e "DAAO_OWNER_EMAIL" in
  users_wf t' ∧ (8 <= String.length password)%nat ∧
  (∃ u, (VerifyPassword cmp t' email password now2 false false).2 = Ok u ∧ Email u = email ∧
        Role u = match of_email t email with [] => "owner" | k :: _ => r_role k end) ∧
  (∀ i r, t !! i = Some r → r_email r ≠ email → t' !! i = Some r) ∧
  (of_email t email = [] → bootstrap gen t' e2 rnd2 salt2 id2 now2 f3 f4 = Ret (t', if String.eqb (Getenv e2 "DAAO_OWNER_EMAIL") "" then NoEmail
     else if f3 then CheckFailed else OwnerExists)) ∧
  (of_email t email ≠ [] → owners t' = []).
Proof using bcrypt_law.
  intros Hwf Hid. unfold bootstrap at 1. destruct (String.eqb_spec (Getenv e "DAAO_OWNER_EMAIL") "") as [|Hne]; [done|].
  destruct (Nat.eqb_spec (length (owners t)) 0) as [Ho|]; [|done]. destruct (ownerPassword e rnd) as [pw|]; [|done].
  destruct (HashPassword gen pw salt) as [h|] eqn:Hh; [|done]. destruct (CreateWithPassword _ _ _ _ _ _ _ _) as [t1 [u|]] eqn:Hc; [|done].
  intros [= <- <-]. set (email := Getenv e "DAAO_OWNER_EMAIL") in *. apply HashPassword_Ok in Hh as [Hlen Hg]. destruct (bcrypt_law _ _ _ Hg) as [Hcmp Hh].
  destruct (CreateWithPassword_Ok _ _ _ _ _ _ _ _ _ _ Hwf Hid Hc) as (r & -> & Hwf' & He & Hph & Hs & Hk).
  pose proof (lookup_insert_eq t (r_id r) r) as Hr.
  assert (Email u = email ∧ PasswordHash u = Some h ∧ Role u = r_role r) as (Hue & Hup & Hur).
  { destruct r as [? ? [] ? [] [] [] ? ? ? ?]; cbn in *; try done. injection Hs as <-. by split_and!. }
  split_and!; [done|done| | | |].
  - exists u. unfold VerifyPassword, GetByEmail, query_one. rewrite (filter_email_unique _ email r) by done.
    rewrite Hs, Hup. destruct (String.eqb_spec h ""); [done|]. rewrite Hcmp. cbn. split_and!; [done|done|]. rewrite Hur. by destruct (of_email t email); destruct_and?.
  - intros i x Hi Hx. rewrite lookup_insert_ne; [done|]. intros <-. destruct (of_email t email) as [|k l] eqn:Ek.
    + destruct Hk as [Hk _]. congruence.
    + destruct Hk as (Hk & Hrk & _). rewrite Hrk, Hk in Hi. injection Hi as <-. apply Hx. assert (k ∈ of_email t email) as Hin by (rewrite Ek; left).
      by apply list_elem_of_filter in Hin as [? _].
  - intros Hnil. rewrite Hnil in Hk. destruct Hk as [_ Hrole]. unfold bootstrap. destruct (String.eqb _ ""); [done|]. destruct f3; [done|].
    destruct (Nat.eqb_spec (length (owners (<[r_id r:=r]> t))) 0) as [H0|]; [|done]. by destruct (owners_none _ Hwf' H0 _ _ Hr).
  - intros Hn. destruct (of_email t email) as [|k l]; [done|]. destruct Hk as (Hk & Hrk & Hrole). destruct (owners (<[r_id r:=r]> t)) as [|x l'] eqn:Eo; [done|exfalso].
    assert (x ∈ owners (<[r_id r:=r]> t)) as Hin by (rewrite Eo; left). apply list_elem_of_filter in Hin as [Hx Hin]. apply (elem_of_users _ _ Hwf') in Hin.
    destruct (decide (r_id x = r_id r)) as [E|E].
    + rewrite E, Hr in Hin. injection Hin as <-. apply (owners_none t Hwf Ho _ _ Hk). congruence.
    + rewrite lookup_insert_ne in Hin by done. by apply (owners_none t Hwf Ho _ _ Hin).
Qed.
End Owner.

(** a generated password has sixteen characters: cutting it does not panic, and it is not refused as
    too short. *)
Theorem generated_password e rnd : Getenv e "DAAO_OWNER_PASSWORD" = "" → String.length rnd = 12%nat →
  ∃ p, ownerPassword e rnd = Ret p ∧ String.length p = 16%nat ∧ Base64.DecodeString Base64.URLEncoding p = Some rnd.
Proof.
  intros Hp Hl. unfold ownerPassword. rewrite Hp. cbn. unfold str_prefix. pose proof (encoded_length Base64.URLEncoding rnd) as H. rewrite Hl in H. change (_ / 3)%nat with 4%nat in H.
  exists (Base64.EncodeToString Base64.URLEncoding rnd). rewrite H. cbn [Nat.leb Nat.mul]. split_and!; [|done|apply Base64.decode_encoded]. f_equal.
  change 16%nat with (4 * 4)%nat. rewrite <-H. generalize (Base64.EncodeToString Base64.URLEncoding rnd). intros s. induction s as [|c s IH]; [done|]. cbn. by rewrite IH.
Qed.

(** *** What is wired *)

(** without a database nobody can log in, and the server answers as if one had: the request is served
    by the catch-all of the API, which answers 200 with its banner. With a database it goes to the
    login. Whatever the licence, the public edition has no scheduler and no pipeline executor; a licence
    only adds their routes. *)
Theorem login_needs_database e lm rnd s :
  (NewNexusServer e lm rnd = Some s → Mux.findHandler (Patterns.patterns (wired_of s)) "POST" "/api/v1/auth/login" = Mux.Serves Patterns.API ∧
     Routes.handleAPI "POST" "/api/v1/auth/login" = Routes.Banner) ∧
  (NewNexusServerWithDB e lm rnd = Some s → Mux.findHandler (Patterns.patterns (wired_of s)) "POST" "/api/v1/auth/login" = Mux.Serves Patterns.Login ∧
     scheduler s = false ∧ leaderGuard s = false ∧ pipelineExecutor s = false ∧
     scheduleHandler s = HasFeature lm FeatureScheduledSessions ∧ pipelineHandler s = HasFeature lm FeatureSessionChaining).
Proof.
  unfold NewNexusServer, NewNexusServerWithDB, newNexusServerWithDeps. destruct (getJWTSecret e rnd) as [secret|]; [|done].
  split; intros [= <-]; unfold wired_of; cbn [agentHandler secretHandler providerConfigHandler userHandler authHandler auditHandler scheduleHandler pipelineHandler
    scheduler leaderGuard pipelineExecutor].
  - rewrite !andb_false_r. split; vm_compute; reflexivity.
  - rewrite !andb_true_r, !andb_false_r. split; [|done].
    destruct (HasFeature lm FeatureScheduledSessions), (HasFeature lm FeatureSessionChaining); vm_compute; reflexivity.
Qed.

(** *** Start and stop *)

(** a start is never refused: with every port taken, or without a certificate, main goes on to wait
    for a signal; the server that cannot listen is only a line in the log, and one without a certificate
    listens and completes no handshake. *)
Theorem start_never_fails p pair : (Start p pair).1 = None ∧
  (Start p pair).2 = mkRunning (free_http p) (free_grpc p) (bool_decide (is_Some pair) && free_webtransport p) (bool_decide (is_Some pair)).
Proof. done. Qed.

Definition capped (needs : option Z) : Z := from_option (Z.min limit) limit needs.
Lemma wait_capped needs : (wait needs).1 = capped needs.
Proof. destruct needs as [n|]; [|done]. unfold wait. cbn. destruct (Z.leb_spec n limit); cbn; lia. Qed.
(** stopping takes as long as the two servers need, each for at most ten seconds: a browser with an open
    event stream and a connected satellite, neither of which ends by itself, take twenty, although the
    deadline is fifteen. The pool is closed after both, at the end. *)
Theorem stop_within_twenty s d : (∀ n, http_needs d = Some n ∨ grpc_needs d = Some n → 0 <= n) →
  (Stop s d).2 = capped (http_needs d) + capped (grpc_needs d) ∧ 0 <= (Stop s d).2 <= 20000 ∧
  (http_needs d = None → grpc_needs d = None → (Stop s d).2 = 20000 ∧ GRPCForced ∈ (Stop s d).1) ∧
  (dbPool s = true → last (Stop s d).1 = Some PoolClosed).
Proof.
  intros Hn. assert ((Stop s d).2 = capped (http_needs d) + capped (grpc_needs d)) as E.
  { rewrite <-!wait_capped. unfold Stop. by destruct (wait (http_needs d)), (wait (grpc_needs d)). }
  assert (∀ x, x = http_needs d ∨ x = grpc_needs d → 0 <= capped x <= 10000) as Hc.
  { intros [n|] Hx; [|cbn; unfold limit; lia]. assert (0 <= n) by (apply Hn; naive_solver). cbn. unfold limit. lia. }
  pose proof (Hc _ (or_introl eq_refl)). pose proof (Hc _ (or_intror eq_refl)). split_and!; [done|lia|lia| |].
  - intros H1 H2. unfold Stop. rewrite H1, H2. cbn. split; [done|]. destruct (leaderGuard s || scheduler s); set_solver.
  - intros Hd. unfold Stop. destruct (wait (http_needs d)), (wait (grpc_needs d)). cbn [fst]. rewrite Hd.
    rewrite app_comm_cons, !app_assoc. apply last_snoc.
Qed.

(** ** Examples *)

Definition demo_rand : string := "0123456789abcdef0123456789abcdef".
Lemma jwt_secret_sound_witness : getJWTSecret {["DAAO_ENV" := "production"]} (Some demo_rand) = None ∧
  ∃ s, getJWTSecret ∅ (Some demo_rand) = Some s ∧ isInsecure s = false.
Proof.
  destruct (jwt_secret_sound {["DAAO_ENV" := "production"]} (Some demo_rand)) as [_ H]; [by intros b [= <-]|].
  destruct (jwt_secret_sound ∅ (Some demo_rand)) as [H' _]; [by intros b [= <-]|]. split; [apply H; [by eexists|by split]|].
  eexists. split; [vm_compute; reflexivity|]. apply H'. vm_compute. reflexivity.
Defined.
Definition demo_env : environment := {["DAAO_LICENSE_KEY" := demo_token; "DAAO_LICENSE_PUBLIC_KEY" := "mine"]}.
Definition demo_embedded : string := Base64.EncodeToString Base64.StdEncoding License.demo_key.
Lemma official_features_signed_witness : ∃ c, signed demo_verify demo_parse License.demo_key (licKey demo_env ∅) c ∧ FeatureSessionChaining ∈ Features c.
Proof.
  destruct (official_features_signed demo_verify demo_parse demo_embedded demo_env ∅ 2000 2000 demo_manager FeatureSessionChaining) as (key & c & Hk & Hs & Hf & _);
    [done|vm_compute; reflexivity|vm_compute; reflexivity|]. exists c. injection Hk as <-. by split.
Defined.
Definition demo_gen (salt p : string) : option string := Some ("h" +:+ p).
Definition demo_cmp (h p : string) : bool := String.eqb h ("h" +:+ p).
Definition demo_owner : environment := {["DAAO_OWNER_EMAIL" := "ada@x"; "DAAO_OWNER_PASSWORD" := "correct horse"]}.
Definition demo_viewer : table := {[4%N := mkUserRow 4 "ada@x" (Some "Ada") "viewer" (Some "local") (Some "ada@x") (Some "") None None 1 1]}.
Lemma owner_bootstrapped_witness :
  (∃ u t', bootstrap demo_gen ∅ demo_owner "" "" 3 5 false false = Ret (t', Created "correct horse") ∧
     (VerifyPassword demo_cmp t' "ada@x" "correct horse" 8 false false).2 = Ok u ∧ Role u = "owner") ∧
  ∃ t', bootstrap demo_gen demo_viewer demo_owner "" "" 3 5 false false = Ret (t', Created "correct horse") ∧ owners t' = [].
Proof.
  assert (∀ s p x, demo_gen s p = Some x → demo_cmp x p = true ∧ x ≠ "") as Hlaw by (intros s p x [= <-]; split; [apply String.eqb_refl|done]).
  assert (users_wf demo_viewer) as Hwf.
  { unfold demo_viewer. split; [intros i r [<- <-]%lookup_singleton_Some; by vm_compute|]. intros i j a b [<- _]%lookup_singleton_Some [<- _]%lookup_singleton_Some. done. }
  split.
  - eexists _, _. split; [vm_compute; reflexivity|]. split; [vm_compute; reflexivity|]. reflexivity.
  - eexists. split; [vm_compute; reflexivity|].
    apply (owner_bootstrapped demo_gen demo_cmp Hlaw demo_viewer demo_owner "" "" 3 5 false _ "correct horse" ∅ "" "" 9 9 false false Hwf eq_refl);
      vm_compute; done.
Defined.
Lemma generated_password_witness : ∃ p, ownerPassword ∅ "0123456789ab" = Ret p ∧ String.length p = 16%nat.
Proof. destruct (generated_password ∅ "0123456789ab") as (p & H & Hl & _); [done|done|]. by exists p. Defined.
Definition demo_server : NexusServer :=
  mkNexusServer true true true true false true false false false false false true true true true true true true false "" "daao" "" demo_manager.
Lemma stop_within_twenty_witness : (Stop demo_server (mkDrains None None)).2 = 20000 ∧ last (Stop demo_server (mkDrains None None)).1 = Some PoolClosed.
Proof. destruct (stop_within_twenty demo_server (mkDrains None None)) as (_ & _ & H & Hl); [by intros n [|]|]. split; [by apply H|by apply Hl]. Defined.
End Startup.
