(* ===== verification/Server.v ===== *)
(** * The whole server

    The gateway with its streams ([Gateway]) and the HTTP API ([Routes],
    [SessionApi], [SatelliteApi]) on one state: a transition is a step of the
    gateway, a request, or a tick of the liveness check. And the way of a kill,
    from the request through the channel to the daemon ([Daemon]). *)
From Stdlib Require Import Ascii.
From S2P Require Import Prelude GoStrings SessionState SessionStore Channels Streams Auth Protocol Satellites AgentRuns Routes SessionApi Gateway Daemon SatelliteApi Mux.
Import Session Store Proto Chan.
#[local] Open Scope Z_scope.

Module Server.

(** ** Requests *)

(** What the decoder makes of the body, for each type it is decoded into. *)
Record payload := mkPayload {
  as_create : option SessionApi.CreateSessionRequest;
  as_name : option string;
  as_tags : option (option (list string));
  as_heartbeat : option (string * string);
}.
Record request := mkRequest {
  rq_user : option RBAC.AuthUser;
  rq_method : string; rq_path : string;
  rq_cursor : string; rq_limit : string;         (* of the query *)
  rq_body : payload;
}.

Inductive reply := RSession (r : SessionApi.Response) | RSatellite (r : SatelliteApi.Response).
Definition reply_status (r : reply) : Z :=
  match r with RSession r => SessionApi.status r | RSatellite r => SatelliteApi.status r end.

(** Which pattern of startHTTPServer serves a path that net/http leaves as it is, and what
    the handlers behind three of them make of it. [None]: the handler of another component
    serves the request ([Patterns.handler] names them), or there is none. *)
Definition mux (w : Patterns.wired) (stream_configured context_configured : bool) (method path : string)
    : option Routes.endpoint :=
  match Patterns.found_for w method (Mux.walk path) with
  | Some Patterns.SessionsSubpath => Some (Routes.handleSessionsSubpath stream_configured method path)
  | Some Patterns.SatellitesSubpath => Some (Routes.handleSatellitesSubpath context_configured method path)
  | Some Patterns.API => Some (Routes.handleAPI method path)
  | _ => None
  end.

(** The handlers that are set, the database behind the readPool, and the
    environment. *)
Record config := mkConfig {
  handlers : SessionApi.Handlers;
  wired : Patterns.wired;
  stream_configured : bool; context_configured : bool;
  replica_db : DB; replica_sats : gmap N Sats.Sat;
  DAAO_DMS_TTL : string;
}.

Section Serve.
Variable uuid_Parse : string → option N.
Variable uuid_String : N → string.
Variable arrange_sess : list Session → list Session.
Variable arrange_sats : list (N * Sats.Sat) → list (N * Sats.Sat).

(** [None]: an endpoint whose handler is not in [SessionApi] or [SatelliteApi]. *)
Definition serve (c : config) (w : SessionApi.World) (rq : request) (ep : Routes.endpoint)
    (e : SessionApi.env) (e' : SatelliteApi.env) : option (go (SessionApi.World * reply)) :=
  let h := handlers c in
  let user := rq_user rq in
  let ses (m : go (SessionApi.World * SessionApi.Response)) :=
    Some ('(w', r) ← m; Ret (w', RSession r)) in
  let sat (p : SessionApi.World * SatelliteApi.Response) := Some (Ret (p.1, RSatellite p.2)) in
  match ep with
  | Routes.ListSessions =>
      ses (Ret (w, SessionApi.HandleListSessions uuid_Parse uuid_String arrange_sess h w (replica_db c)
                     user (rq_cursor rq) (rq_limit rq) e))
  | Routes.CreateSession =>
      ses (SessionApi.HandleCreateSession uuid_Parse uuid_String h w user (as_create (rq_body rq)) e)
  | Routes.GetSession id => ses (SessionApi.HandleGetSession uuid_Parse h w id e)
  | Routes.AttachSession id => ses (SessionApi.HandleAttachSession uuid_Parse h w id e)
  | Routes.DetachSession id => ses (SessionApi.HandleDetachSession uuid_Parse h w id e)
  | Routes.SuspendSession id => ses (SessionApi.HandleSuspendSession uuid_Parse uuid_String h w user id e)
  | Routes.ResumeSession id => ses (SessionApi.HandleResumeSession uuid_Parse uuid_String h w id e)
  | Routes.KillSession id => ses (SessionApi.HandleKillSession uuid_Parse uuid_String h w user id e)
  | Routes.RenameSession id =>
      ses (SessionApi.HandleRenameSession uuid_Parse uuid_String h w id (as_name (rq_body rq)) e)
  | Routes.DeleteSession id => ses (SessionApi.HandleDeleteSession uuid_Parse h w user id e)
  | Routes.ListSatellites =>
      sat (w, SatelliteApi.HandleListSatellites uuid_Parse uuid_String arrange_sats h (replica_sats c) user e')
  | Routes.CreateSatellite =>
      sat (SatelliteApi.HandleCreateSatellite uuid_Parse uuid_String h w (as_name (rq_body rq)) e')
  | Routes.RenameSatellite id =>
      sat (SatelliteApi.HandleRenameSatellite uuid_Parse uuid_String h w id (as_name (rq_body rq)) e')
  | Routes.UpdateSatelliteTags id =>
      sat (SatelliteApi.HandleUpdateSatelliteTags uuid_Parse uuid_String h w id (as_tags (rq_body rq)) e')
  | Routes.DeleteSatellite id =>
      sat (SatelliteApi.HandleDeleteSatellite uuid_Parse uuid_String h w user id e')
  | Routes.SatelliteHeartbeat =>
      sat (SatelliteApi.HandleSatelliteHeartbeat uuid_String arrange_sats h w (as_heartbeat (rq_body rq)) e')
  | Routes.GetConfig => sat (w, SatelliteApi.HandleGetConfig (DAAO_DMS_TTL c))
  | _ => None
  end.
(** The endpoints of these two groups of handlers. *)
Definition handled (ep : Routes.endpoint) : bool :=
  match ep with
  | Routes.ListSessions | Routes.CreateSession | Routes.GetSession _ | Routes.AttachSession _
  | Routes.DetachSession _ | Routes.SuspendSession _ | Routes.ResumeSession _ | Routes.KillSession _
  | Routes.RenameSession _ | Routes.DeleteSession _ | Routes.ListSatellites | Routes.CreateSatellite
  | Routes.RenameSatellite _ | Routes.UpdateSatelliteTags _ | Routes.DeleteSatellite _
  | Routes.SatelliteHeartbeat | Routes.GetConfig => true
  | _ => false
  end.
Lemma serve_handled c w rq ep e e' : handled ep = true → is_Some (serve c w rq ep e e').
Proof. destruct ep; try done; intros _; by eexists. Qed.
End Serve.

(** ** The state *)

Record Srv := mkSrv {
  sys : Gateway.Sys;
  audited : list (string * string);
  notified : list (string * N);
}.

Definition world (s : Srv) : SessionApi.World :=
  let n := Gateway.nexus (sys s) in
  SessionApi.mkWorld (Gateway.db n) (Gateway.sats n) (Gateway.registry n) (Gateway.outbox n)
    (Gateway.pool n) (audited s) (notified s).

(** ON DELETE SET NULL of agent_runs.session_id *)
Definition forget_session (old new : gmap N Session) (r : Runs.AgentRun) : Runs.AgentRun :=
  match Runs.SessionID r with
  | Some s =>
      if bool_decide (s ∈ dom old ∧ s ∉ dom new)
      then Runs.mkRun (Runs.ID r) (Runs.AgentID r) (Runs.SatelliteID r) None (Runs.Status r)
             (Runs.TriggerSource r) (Runs.StartedAt r) (Runs.EndedAt r) (Runs.TotalTokens r)
             (Runs.EstimatedCost r) (Runs.ToolCallCount r) (Runs.Result r) (Runs.Error r) (Runs.Metadata r)
      else r
  | None => r
  end.

(** The state after a request: the world it leaves, and in the other tables what
    the foreign keys do when a session or a satellite is deleted (ON DELETE
    CASCADE of context files and telemetry). *)
Definition put (s : Srv) (w : SessionApi.World) : Srv :=
  let n := Gateway.nexus (sys s) in
  mkSrv (Gateway.mkSys
    (Gateway.mkNexus (SessionApi.db w) (SessionApi.sats w)
       (forget_session (sessions (Gateway.db n)) (sessions (SessionApi.db w)) <$> Gateway.runs n)
       (Gateway.batch n)
       (filter (λ p, p.1.1 ∈ dom (SessionApi.sats w)) (Gateway.ctx_files n))
       (filter (λ p, p.1 ∈ dom (SessionApi.sats w)) (Gateway.telemetry n))
       (SessionApi.registry w) (SessionApi.pool w) (SessionApi.outbox w) (Gateway.hub n)
       (Gateway.recorded n) (Gateway.hitl n) (Gateway.forwarded n) (Gateway.tasks n))
    (Gateway.conns (sys s))) (SessionApi.audited w) (SessionApi.notified w).

(** A run refers to its satellite: the row cannot be deleted. *)
Definition with_runs (s : Srv) (uuid_Parse : string → option N) (ep : Routes.endpoint) (e : SatelliteApi.env)
    : SatelliteApi.env :=
  let refers := match ep with
    | Routes.DeleteSatellite sid =>
        bool_decide (filter (λ p, Some (Runs.SatelliteID p.2) = uuid_Parse sid)
                       (map_to_list (Gateway.runs (Gateway.nexus (sys s)))) ≠ [])
    | _ => false
    end in
  SatelliteApi.mkEnv (SatelliteApi.now e) (SatelliteApi.new_id e) (SatelliteApi.f_owner e)
    (SatelliteApi.f_row e) (SatelliteApi.f_pending e) (SatelliteApi.f_query e)
    (SatelliteApi.referenced e || refers).

Inductive label :=
  | LGateway (l : Gateway.label)
  | LHttp (rq : request) (e : SessionApi.env) (e' : SatelliteApi.env)
  | LLiveness (t : Z) (f : fault).

Section System.
Variable uuid_String : N → string.
Variable uuid_Parse : string → option N.
Variable pg_uuid : string → option N.
Variable Itoa : Z → string.
Variable marshal : gmap string string → option string.
Variable json_object : list Z → option (gmap string Gateway.json).
Variable json_proposal : list Z → option Gateway.proposal.
Variable range_set : gset N → list N.
Variable grow : nat → nat.
Variable arrange_sats : list (N * Sats.Sat) → list (N * Sats.Sat).
Variable arrange_runs : list Runs.AgentRun → list Runs.AgentRun.
Variable arrange_sess : list Session → list Session.
Variable srv : Gateway.Server.
Variable c : config.

Definition gateway_step : Gateway.Sys → Gateway.label → go Gateway.Sys :=
  Gateway.step uuid_String uuid_Parse pg_uuid Itoa marshal json_object json_proposal range_set grow
    arrange_sats arrange_runs arrange_sess srv.

(** A request, with the status of the answer if its endpoint is modelled. *)
Definition http (s : Srv) (rq : request) (e : SessionApi.env) (e' : SatelliteApi.env)
    : go (Srv * option reply) :=
  match ep ← mux (wired c) (stream_configured c) (context_configured c) (rq_method rq) (rq_path rq);
        serve uuid_Parse uuid_String arrange_sess arrange_sats c (world s) rq ep e
          (with_runs s uuid_Parse ep e') with
  | None => Ret (s, None)
  | Some m => '(w, r) ← m; Ret (put s w, Some r)
  end.

(** The notification of a liveness tick that found stale satellites has no
    session; it is the id 0 here. *)
Definition liveness (s : Srv) (t : Z) (f : fault) : Srv :=
  let '(w, b) := SatelliteApi.check_liveness (world s) t f in
  put s (if b then SessionApi.emit (handlers c) w "SATELLITE_OFFLINE" 0 else w).

Definition step (s : Srv) (l : label) : go Srv :=
  match l with
  | LGateway l => y ← gateway_step (sys s) l; Ret (mkSrv y (audited s) (notified s))
  | LHttp rq e e' => '(s', _) ← http s rq e e'; Ret s'
  | LLiveness t f => Ret (liveness s t f)
  end.

Fixpoint run (s : Srv) (ls : list label) : go Srv :=
  match ls with
  | [] => Ret s
  | l :: ls' => s' ← step s l; run s' ls'
  end.

(** ** Invariant *)

(** What a handler of the API may do to the shared parts. *)
Record allowed (w w' : SessionApi.World) : Prop := mk_allowed {
  a_db : Gateway.db_ok (SessionApi.db w');
  a_sats : Sats.table_ok (SessionApi.sats w');
  a_keys : satellites (SessionApi.db w') = dom (SessionApi.sats w');
  a_registry : SessionApi.registry w' = SessionApi.registry w;
  a_outbox : ∀ ch, open (SessionApi.outbox w) ch → open (SessionApi.outbox w') ch;
  a_pool : Pool.pool_ok (SessionApi.pool w');
}.

(** The invariant of the server, on the world of the handlers. *)
Record good (w : SessionApi.World) : Prop := mk_good {
  g_db : Gateway.db_ok (SessionApi.db w);
  g_sats : Sats.table_ok (SessionApi.sats w);
  g_keys : satellites (SessionApi.db w) = dom (SessionApi.sats w);
  g_routes : Gateway.routes_ok (SessionApi.outbox w) (SessionApi.registry w);
  g_pool : Pool.pool_ok (SessionApi.pool w);
}.

Lemma allowed_refl w : good w → allowed w w.
Proof. by intros []. Qed.

Lemma allowed_good w w' : good w → allowed w w' → good w'.
Proof.
  intros [] [? ? ? Hr Ho ?]. split; try done. intros k ch. rewrite Hr. intros Hk. by eapply Ho, g_routes0.
Qed.

Lemma allowed_trans w1 w2 w3 : allowed w1 w2 → allowed w2 w3 → allowed w1 w3.
Proof. intros [? ? ? ? ? ?] [? ? ? ? ? ?]. split; try done; [congruence|eauto]. Qed.

Lemma good_open w : good w → SessionApi.channels_open w.
Proof. intros [? ? ? Hr ?] k ch Hk. eapply Hr. by right. Qed.

Lemma set_db_allowed w d :
  good w → Gateway.db_ok d → satellites d = satellites (SessionApi.db w) → allowed w (SessionApi.set_db w d).
Proof. intros [] ? Hs. split; try done. simpl. congruence. Qed.

Lemma audit_allowed h w w' a x : allowed w w' → allowed w (SessionApi.audit h w' a x).
Proof. unfold SessionApi.audit. destruct (SessionApi.auditLogger h); [|done]. intros []. by split. Qed.
Lemma emit_allowed h w w' a x : allowed w w' → allowed w (SessionApi.emit h w' a x).
Proof. unfold SessionApi.emit. destruct (SessionApi.notificationService h); [|done]. intros []. by split. Qed.
Lemma remove_buffer_allowed w w' sid :
  allowed w w' → allowed w (SessionApi.set_pool w' (Pool.RemoveBuffer (SessionApi.pool w') sid)).
Proof. intros []. split; try done. by apply Pool.RemoveBuffer_ok. Qed.

Lemma send_allowed h w w1 sat msg :
  good w1 → allowed w w1 → ∃ w', SessionApi.send h w1 sat msg = Ret w' ∧ allowed w w'.
Proof.
  intros Hg Ha. unfold SessionApi.send. destruct (SessionApi.streamRegistry h); [|eauto].
  unfold Registry.SendToSatellite, Registry.GetSatelliteStream.
  assert (∀ o, (∀ ch, open (SessionApi.outbox w1) ch → open o ch) → allowed w (SessionApi.set_outbox w1 o)) as Ho.
  { intros o Ho. destruct Ha. split; try done. simpl. eauto. }
  destruct (Registry.satelliteStreams _ !! sat) as [[ch|]|] eqn:E; simpl; [|eauto..].
  destruct (try_send_open (SessionApi.outbox w1) ch msg (good_open _ Hg _ _ E)) as (o & b & -> & _ & _ & _ & Hop & _).
  simpl. eexists. split; [done|]. apply Ho. intros. by apply Hop.
Qed.

Definition serves {R} (w : SessionApi.World) (m : go (SessionApi.World * R)) : Prop :=
  ∃ w' r, m = Ret (w', r) ∧ allowed w w'.

Lemma serves_ret {R} w w' (r : R) : allowed w w' → serves w (Ret (w', r)).
Proof. by do 2 eexists. Qed.
Lemma serves_fails w w' st msg : allowed w w' → serves w (SessionApi.fails w' st msg).
Proof. apply serves_ret. Qed.

Lemma serves_send h w w1 sat msg (k : SessionApi.World → go (SessionApi.World * SessionApi.Response)) :
  good w → allowed w w1 → (∀ w2, allowed w w2 → serves w (k w2)) →
  serves w (w2 ← SessionApi.send h w1 sat msg; k w2).
Proof.
  intros Hg Ha Hk. destruct (send_allowed h w w1 sat msg) as (w2 & -> & H2); [by eapply allowed_good|done|].
  by apply Hk.
Qed.

Lemma serves_with_session h w sid e st m1 m2 k :
  good w → (∀ id s, sessions (SessionApi.db w) !! id = Some s → serves w (k id s)) →
  serves w (SessionApi.with_session uuid_Parse h w sid e st m1 m2 k).
Proof.
  intros Hg Hk. pose proof (allowed_refl w Hg). unfold SessionApi.with_session, GetSession.
  repeat case_match; try (by apply serves_fails); simplify_eq; by apply Hk.
Qed.

Lemma serves_transition w id st t f
    (kOk : DB → Session → go (SessionApi.World * SessionApi.Response)) msg :
  good w →
  (∀ d u, allowed w (SessionApi.set_db w d) → serves w (kOk d u)) →
  serves w (match TransitionSession (SessionApi.db w) id st t f with
            | (d, Err _) => SessionApi.fails (SessionApi.set_db w d) 500 msg
            | (d, Ok u) => kOk d u
            end).
Proof.
  intros Hg Hk.
  destruct (Gateway.TransitionSession_db_ok (SessionApi.db w) id st t f (g_db w Hg)) as [Hd Hs].
  destruct (TransitionSession _ _ _ _ _) as [d [u|err]]; simpl in *;
    pose proof (set_db_allowed w d Hg Hd Hs); [by apply Hk|by apply serves_fails].
Qed.

Hint Resolve audit_allowed emit_allowed remove_buffer_allowed serves_ret : server.

Lemma if_allowed (b : bool) w w1 w2 : allowed w w1 → allowed w w2 → allowed w (if b then w1 else w2).
Proof. by destruct b. Qed.
Lemma log_event_allowed w w' sid ty e : allowed w w' → allowed w (SessionApi.log_event w' sid ty e).
Proof. by rewrite SessionApi.log_event_nothing. Qed.
Hint Resolve if_allowed log_event_allowed allowed_refl : server.

Lemma exec_row_allowed w id upd f :
  good w → (∀ s, sessions (SessionApi.db w) !! id = Some s → match upd s with
     | Some s' => ID s' = id ∧ IsValid (State s') = true ∧ SatelliteID s' = SatelliteID s | None => True end) →
  allowed w (SessionApi.set_db w (exec_row (SessionApi.db w) id upd f).1).
Proof.
  intros Hg Hu.
  assert (allowed w (SessionApi.set_db w (SessionApi.db w))) as Hrefl.
  { apply set_db_allowed; [done|apply Hg|done]. }
  unfold exec_row. destruct (sessions (SessionApi.db w) !! id) as [s|] eqn:Hs; [|by repeat case_match].
  specialize (Hu s eq_refl). destruct (g_db w Hg id s Hs) as (_ & _ & Hsat).
  assert (allowed w (SessionApi.set_db w (set_sessions (SessionApi.db w)
    (match upd s with Some s' => <[id:=s']> (sessions (SessionApi.db w)) | None => delete id (sessions (SessionApi.db w)) end))))
    as Hnew.
  { apply set_db_allowed; [done| |done]. destruct (upd s) as [s'|].
    - destruct Hu as (H1 & H2 & H3). apply Gateway.db_ok_insert; [apply Hg|].
      unfold Gateway.row_ok. by rewrite H3.
    - intros i x. simpl. intros [_ Hx]%lookup_delete_Some. by apply (g_db w Hg). }
  by destruct f; repeat case_match.
Qed.

(** The handlers of sessions, one case of their code at a time. *)
Ltac serve_step :=
  first
    [ progress (cbv zeta)
    | apply serves_ret; by eauto 8 with server
    | apply serves_fails; by eauto 8 with server
    | apply serves_with_session; [done|intros ? ? ?]
    | apply serves_transition; [done|intros ? ? ?]
    | apply serves_send; [done|by eauto with server|intros ? ?]
    | match goal with |- serves _ (if ?b then _ else _) => destruct b end ].

Lemma session_handlers h w user sid e :
  good w →
  serves w (SessionApi.HandleGetSession uuid_Parse h w sid e) ∧
  serves w (SessionApi.HandleAttachSession uuid_Parse h w sid e) ∧
  serves w (SessionApi.HandleDetachSession uuid_Parse h w sid e) ∧
  serves w (SessionApi.HandleSuspendSession uuid_Parse uuid_String h w user sid e) ∧
  serves w (SessionApi.HandleResumeSession uuid_Parse uuid_String h w sid e) ∧
  serves w (SessionApi.HandleKillSession uuid_Parse uuid_String h w user sid e).
Proof.
  intros Hg. split_and!.
  - unfold SessionApi.HandleGetSession. by repeat serve_step.
  - unfold SessionApi.HandleAttachSession. by repeat serve_step.
  - unfold SessionApi.HandleDetachSession. by repeat serve_step.
  - unfold SessionApi.HandleSuspendSession. by repeat serve_step.
  - unfold SessionApi.HandleResumeSession. by repeat serve_step.
  - unfold SessionApi.HandleKillSession. repeat serve_step. 
Qed.

Lemma HandleDeleteSession_serves h w user sid e :
  good w → serves w (SessionApi.HandleDeleteSession uuid_Parse h w user sid e).
Proof.
  intros Hg. unfold SessionApi.HandleDeleteSession. repeat serve_step.
  pose proof (exec_row_allowed w id (λ _, None) (SessionApi.f_row e) Hg (λ _ _, I)) as Ha.
  unfold DeleteSession. destruct (exec_row _ _ _ _) as [d [err|]]; simpl in Ha; repeat serve_step.
Qed.

Lemma HandleRenameSession_serves h w sid req e :
  good w → serves w (SessionApi.HandleRenameSession uuid_Parse uuid_String h w sid req e).
Proof.
  intros Hg. pose proof (allowed_refl w Hg). unfold SessionApi.HandleRenameSession.
  destruct (uuid_Parse sid) as [id|]; [|by apply serves_fails].
  destruct req as [name|]; [|by apply serves_fails]. repeat serve_step.
  destruct (sessions (SessionApi.db w) !! id) as [x|] eqn:Hx; [|destruct (SessionApi.f_row e); by apply serves_fails].
  repeat serve_step; [|destruct (SessionApi.f_row e); by apply serves_fails].
  pose proof (exec_row_allowed w id (λ s, Some (SessionApi.set_name s name)) (SessionApi.f_row e) Hg) as Ha.
  unfold exec_row in Ha. rewrite Hx in Ha.
  destruct (exec _ _ _) as [d [err|]]; simpl in Ha; repeat serve_step;
    (apply serves_ret || apply serves_fails); apply Ha; intros s [= <-]; by destruct (g_db w Hg id x Hx) as (? & ? & ?).
Qed.

Lemma HandleCreateSession_serves h w user req e :
  good w → serves w (SessionApi.HandleCreateSession uuid_Parse uuid_String h w user req e).
Proof.
  intros Hg. pose proof (allowed_refl w Hg). unfold SessionApi.HandleCreateSession.
  destruct req as [rq|]; repeat serve_step.
  destruct (uuid_Parse _) as [sat|]; [|by apply serves_fails].
  set (create := match CreateSession _ _ _ with (d, o) => _ end).
  assert (serves w create) as Hc.
  { unfold create. set (x := SessionApi.new_session _ _ _ _).
    destruct (Gateway.CreateSession_db_ok (SessionApi.db w) x (SessionApi.f_row e) (g_db w Hg)) as [Hd Hs].
    destruct (CreateSession _ _ _) as [d [err|]]; simpl in *;
      pose proof (set_db_allowed w d Hg Hd Hs); repeat serve_step. }
  repeat serve_step; [done|]. repeat case_match; repeat serve_step; done.
Qed.

Lemma good_world_ok w : good w → SatelliteApi.world_ok w.
Proof. by intros []. Qed.

Lemma tables_only_allowed w w' : good w → SatelliteApi.tables_only w w' → allowed w w'.
Proof. intros [] [[] Hr Ho Hp]. split; try done; [by rewrite Ho|by rewrite Hp]. Qed.

Lemma serve_serves w rq ep e e' m :
  good w → serve uuid_Parse uuid_String arrange_sess arrange_sats c w rq ep e e' = Some m → serves w m.
Proof.
  intros Hg.
  assert (∀ m', serves w m' → ∀ m, Some ('(w', r) ← m'; Ret (w', RSession r)) = Some m → serves w m) as Hses.
  { intros m' (w' & r & -> & Ha) ? [= <-]. by apply serves_ret. }
  assert (∀ p : SessionApi.World * SatelliteApi.Response, SatelliteApi.tables_only w p.1 →
    ∀ m, Some (Ret (p.1, RSatellite p.2)) = Some m → serves w m) as Hsat.
  { intros p Hp ? [= <-]. apply serves_ret. by apply tables_only_allowed. }
  pose proof (good_world_ok w Hg) as Hw.
  destruct ep as [| |id|id|id|id|id|id|id|id|id| | |id|id|id| | |id|id|id|id|id|id|id| |id| | | | | | | |id| | | |id|id|id| |id| |];
    cbn [serve]; try discriminate;
    try destruct (session_handlers (handlers c) w (rq_user rq) id e Hg) as (? & ? & ? & ? & ? & ?);
    first [ apply Hses; first [ assumption | apply HandleCreateSession_serves; exact Hg
                              | apply HandleRenameSession_serves; exact Hg
                              | apply HandleDeleteSession_serves; exact Hg
                              | apply serves_ret, allowed_refl, Hg ]
          | apply Hsat; first [ apply SatelliteApi.HandleCreateSatellite_ok; exact Hw
                              | apply SatelliteApi.HandleRenameSatellite_ok; exact Hw
                              | apply SatelliteApi.HandleUpdateSatelliteTags_ok; exact Hw
                              | apply SatelliteApi.HandleDeleteSatellite_ok; exact Hw
                              | apply SatelliteApi.HandleSatelliteHeartbeat_ok; exact Hw
                              | apply SatelliteApi.tables_only_refl; exact Hw ] ].
Qed.

Lemma forget_session_ID old new r : Runs.ID (forget_session old new r) = Runs.ID r.
Proof. unfold forget_session. destruct (Runs.SessionID r); [|done]. by destruct (bool_decide _). Qed.

Lemma good_of s : Gateway.sys_ok (sys s) → good (world s).
Proof. by intros [[] _]. Qed.

Lemma put_ok s w : Gateway.sys_ok (sys s) → allowed (world s) w → Gateway.sys_ok (sys (put s w)).
Proof.
  intros [Hn Hc] Ha. pose proof (allowed_good _ _ (good_of s ltac:(by split)) Ha) as [].
  destruct Ha as [_ _ _ _ Ho _]. split.
  - split; try done; try (by destruct Hn).
    intros id r. simpl. rewrite lookup_fmap. intros (r0 & Hr & ->)%fmap_Some.
    rewrite forget_session_ID. by apply (Gateway.n_runs _ Hn).
  - intros k x Hk. simpl in Hk. destruct (Hc k x Hk). split; [done|]. by apply Ho.
Qed.

Hypothesis range_perm : ∀ X, range_set X ≡ₚ elements X.
Hypothesis grow_more : ∀ n, (n < grow n)%nat.
Hypothesis arrange_sats_perm : ∀ l, arrange_sats l ≡ₚ l.

Lemma http_ok s rq e e' :
  Gateway.sys_ok (sys s) → ∃ s' o, http s rq e e' = Ret (s', o) ∧ Gateway.sys_ok (sys s').
Proof.
  intros Hs. unfold http. destruct (mux _ _ _ _ _) as [ep|]; cbn [mbind option_bind]; [|by do 2 eexists].
  destruct (serve _ _ _ _ _ _ _ ep _ _) as [m|] eqn:Hm; [|by do 2 eexists].
  destruct (serve_serves _ _ _ _ _ _ (good_of s Hs) Hm) as (w' & r & -> & Ha).
  do 2 eexists. split; [done|]. by apply put_ok.
Qed.

Lemma server_step_ok s l : Gateway.sys_ok (sys s) → ∃ s', step s l = Ret s' ∧ Gateway.sys_ok (sys s').
Proof.
  intros Hs. destruct l as [l|rq e e'|t f]; cbn [step].
  - destruct (Gateway.step_ok uuid_String uuid_Parse pg_uuid Itoa marshal json_object json_proposal range_set
      grow arrange_sats arrange_runs arrange_sess srv range_perm grow_more arrange_sats_perm (sys s) l Hs)
      as (y & Hy & Hok). unfold gateway_step. rewrite Hy. by eexists.
  - destruct (http_ok s rq e e' Hs) as (s' & o & -> & Hok). by eexists.
  - eexists. split; [done|]. unfold liveness.
    pose proof (SatelliteApi.check_liveness_ok (world s) t f (good_world_ok _ (good_of s Hs))) as Hl.
    destruct (SatelliteApi.check_liveness _ _ _) as [w b]. apply put_ok; [done|].
    apply (tables_only_allowed _ _ (good_of s Hs)) in Hl. destruct b; [by apply emit_allowed|done].
Qed.

Lemma server_run_ok ls : ∀ s, Gateway.sys_ok (sys s) → ∃ s', run s ls = Ret s' ∧ Gateway.sys_ok (sys s').
Proof.
  induction ls as [|l ls IH]; intros s Hs; cbn [run]; [by exists s|].
  destruct (server_step_ok s l Hs) as (s1 & -> & Hs1). cbn. by apply IH.
Qed.

(** ** Properties *)

(** The server at start-up. *)
Definition boot (d : DB) (t : gmap N Sats.Sat) (r : gmap N Runs.AgentRun) : Srv :=
  mkSrv (Gateway.boot d t r) [] [].

(** The requests on sessions and satellites; the others belong to components whose
    handlers keep no state here. *)
Definition in_scope (l : label) : Prop :=
  match l with
  | LHttp rq _ _ =>
      ∃ ep, mux (wired c) (stream_configured c) (context_configured c) (rq_method rq) (rq_path rq) = Some ep ∧
            handled ep = true
  | _ => True
  end.

Lemma in_scope_answered s rq e e' :
  Gateway.sys_ok (sys s) → in_scope (LHttp rq e e') →
  ∃ s' rp, http s rq e e' = Ret (s', Some rp) ∧ Gateway.sys_ok (sys s').
Proof.
  intros Hs (ep & Hep & Hh). destruct (http_ok s rq e e' Hs) as (s' & o & Ho & Hok).
  exists s'. unfold http in Ho |- *. rewrite Hep in Ho |- *. cbn [mbind option_bind] in Ho |- *.
  destruct (serve_handled uuid_Parse uuid_String arrange_sess arrange_sats c (world s) rq ep e (with_runs s uuid_Parse ep e') Hh) as [m Hm].
  rewrite Hm in Ho |- *. destruct m as [[w rp]|]; [|done]. cbn in Ho |- *. injection Ho as <- <-. by exists rp.
Qed.


(** The handler of a session request. *)
Lemma session_walk sid suf : sid ≠ ""%string → Str.ContainsByte sid "/" = false → suf ≠ ""%string → Str.ContainsByte suf "/" = false →
  Mux.walk ("/api/v1/sessions/" +:+ sid +:+ String "/" suf) = ["api"; "v1"; "sessions"; sid; suf]%string.
Proof using.
  intros Hne Hsid Hnf Hsuf. unfold Mux.walk.
  change (Str.TrimPrefix ("/api/v1/sessions/" +:+ sid +:+ String "/" suf) "/")
    with ("api" +:+ String "/" ("v1" +:+ String "/" ("sessions" +:+ String "/" (sid +:+ String "/" suf)))).
  rewrite !Str.Split_sep, Str.Split_none by done. cbn [Mux.segments]. by apply String.eqb_neq in Hnf as ->.
Qed.

Lemma mux_kill w b1 b2 sid : Routes.plain sid →
  mux w b1 b2 "POST" ("/api/v1/sessions/" +:+ sid +:+ "/kill") = Some (Routes.KillSession sid).
Proof using.
  intros Hp. destruct Hp as (Hne & Hs & Hc & Hst) eqn:E. unfold mux. rewrite (session_walk sid "kill") by done.
  rewrite Patterns.session_subpath_any_method by (by left). f_equal.
  apply Routes.handleSessionsSubpath_request; [done| |by apply Str.HasPrefix_app]. by apply Forall_singleton.
Qed.

Lemma mux_create w b1 b2 : mux w b1 b2 "POST" "/api/v1/sessions" = Some Routes.CreateSession.
Proof using. destruct w as [[] [] [] [] [] [] [] []]; vm_compute; reflexivity. Qed.

Lemma channel_found w sat ch h msg :
  Registry.satelliteStreams (SessionApi.registry w) !! sat = Some (Some ch) →
  open (SessionApi.outbox w) ch → SessionApi.streamRegistry h = true →
  ∃ o, SessionApi.send h w sat msg = Ret (SessionApi.set_outbox w o) ∧
    pending o ch = pending (SessionApi.outbox w) ch ++
      (if has_room (SessionApi.outbox w) ch then [msg] else []).
Proof.
  intros Hch Hop Hr. unfold SessionApi.send, Registry.SendToSatellite, Registry.GetSatelliteStream.
  rewrite Hr, Hch. destruct (try_send_open (SessionApi.outbox w) ch msg Hop) as (o & b & Hs & _ & Hp & _).
  exists o. simpl. rewrite Hs. by split.
Qed.

(** C5: A kill, from the request to the process. It answers 200 with the TERMINATED
    row, and the command waits in the channel of the satellite, unless that is
    full: then it is lost, although the answer is the same. The daemon that
    takes the command closes the session and forgets it, provided that the
    path spelled the id the way the daemon got it. Any other spelling that
    uuid.Parse accepts terminates the row all the same, but the daemon, which
    does not know it, goes on with the process. *)
Theorem kill_reaches_daemon s user sid id x ch e e' cur lim body :
  Gateway.sys_ok (sys s) →
  SessionApi.sessionStore (handlers c) = true → SessionApi.streamRegistry (handlers c) = true →
  Routes.plain sid → uuid_Parse sid = Some id → SessionApi.f_get e = false → SessionApi.f_tx e = TxOk →
  sessions (SessionApi.db (world s)) !! id = Some x → may (State x) StateTerminated →
  SessionApi.not_owner uuid_Parse user x = false →
  Registry.satelliteStreams (SessionApi.registry (world s)) !! uuid_String (SatelliteID x) = Some (Some ch) →
  ∃ s' u,
  http s (mkRequest user "POST" ("/api/v1/sessions/" +:+ sid +:+ "/kill") cur lim body) e e' =
    Ret (s', Some (RSession (SessionApi.mkResponse 200 (SessionApi.BSession u)))) ∧
  State u = StateTerminated ∧ sessions (SessionApi.db (world s')) !! id = Some u ∧
  pending (SessionApi.outbox (world s')) ch = pending (SessionApi.outbox (world s)) ch ++
    (if has_room (SessionApi.outbox (world s)) ch then [KillCommand sid (-1)] else []) ∧
  ∀ range d p sp dp, Daemon.daemon_ok d → Daemon.sessions d !! uuid_String id = Some p →
    let d' := Daemon.handleNexusMessage range d (KillCommand sid (-1)) sp dp in
    (sid = uuid_String id →
       Daemon.sessions d' !! uuid_String id = None ∧
       ∃ y, Daemon.objs d' !! p = Some y ∧ Daemon.sClosed y = true) ∧
    (Daemon.sessions d !! sid = None → d' = d).
Proof.
  intros Hs Hst Hreg Hpl Hp Hg Htx Hx Hm Hno Hch.
  assert (good (world s)) as Hgood by by apply good_of.
  unfold http. cbn [rq_method rq_path].
  rewrite mux_kill by done.
  cbn [mbind option_bind serve rq_user]. unfold SessionApi.HandleKillSession, SessionApi.with_session, GetSession.
  rewrite Hst, Hp, Hg, Hx. cbn [negb]. rewrite Hno.
  destruct (SessionApi.transition_result _ id x StateTerminated (SessionApi.now e) (SessionApi.f_tx e) Hx)
    as [(u & -> & Hu & _)|(? & ? & _ & _ & _ & H)]; [|by destruct (H Htx)].
  destruct (channel_found (SessionApi.set_db (world s) (set_sessions (SessionApi.db (world s))
    (<[id := u]> (sessions (SessionApi.db (world s)))))) (uuid_String (SatelliteID x)) ch (handlers c)
    (KillCommand sid (-1)) Hch) as (o & -> & Hpend); [by eapply (g_routes _ Hgood); right|done|].
  cbn [mbind go_bind]. rewrite SessionApi.log_event_nothing.
  do 2 eexists. split; [reflexivity|].
  split; [by apply TransitionSession_Ok in Hu as (_ & ? & _)|].
  unfold SessionApi.emit, SessionApi.audit.
  split; [|split].
  - destruct (SessionApi.auditLogger _), (SessionApi.notificationService _), (SessionApi.ringBufferPool _);
      cbn; by rewrite lookup_insert_eq.
  - destruct (SessionApi.auditLogger _), (SessionApi.notificationService _), (SessionApi.ringBufferPool _);
      exact Hpend.
  - intros range d p sp dp Hd Hsid. cbn. unfold Daemon.handleKillCommand. split.
    + intros ->. rewrite Hsid. simpl. split; [by rewrite lookup_delete_eq|].
      by apply (Daemon.Close_objs d (uuid_String id) p (Daemon.now sp) Hd Hsid).
    + by intros ->.
Qed.

(** What the checks of a creation ask of the request. *)
Definition valid_create (rq : SessionApi.CreateSessionRequest) : Prop :=
  SessionApi.rq_Name rq ≠ ""%string ∧ (String.length (SessionApi.rq_Name rq) <= 255)%nat ∧
  Str.Contains (SessionApi.rq_AgentBinary rq) ".." = false ∧
  Str.ContainsByte (SessionApi.rq_AgentBinary rq) Ascii.zero = false ∧
  SessionApi.rq_SatelliteID rq ≠ ""%string.

Lemma creates w h user rq e sat t :
  good w → SessionApi.sessionStore h = true → SessionApi.dbPool h = true → valid_create rq →
  uuid_Parse (SessionApi.rq_SatelliteID rq) = Some sat → SessionApi.f_sat e = false →
  SessionApi.sats w !! sat = Some t → Sats.s_status t = "active" →
  sessions (SessionApi.db w) !! SessionApi.new_id e = None → SessionApi.f_row e = NoFault →
  let x := SessionApi.new_session sat (SessionApi.creator uuid_Parse user) rq e in
  SessionApi.HandleCreateSession uuid_Parse uuid_String h w user (Some rq) e =
    w2 ← SessionApi.send h
           (SessionApi.audit h (SessionApi.set_db w (set_sessions (SessionApi.db w)
              (<[SessionApi.new_id e := inserted_row x]> (sessions (SessionApi.db w)))))
              "session.create" (uuid_String (SessionApi.new_id e)))
           (SessionApi.rq_SatelliteID rq)
           (StartSessionCommand (uuid_String (SessionApi.new_id e)) (SessionApi.rq_AgentBinary rq)
              (SessionApi.rq_AgentArgs rq) (Cols x) (Rows x) (SessionApi.rq_WorkingDir rq));
    Ret (w2, SessionApi.mkResponse 201 (SessionApi.BSession x)).
Proof.
  intros Hg Hst Hdb (Hn & Hl & H1 & H2 & Hs) Hp Hf Ht Hact Hnew Hrow x.
  unfold SessionApi.HandleCreateSession. rewrite Hst. cbn [negb].
  apply String.eqb_neq in Hn as ->, Hs as ->.
  destruct (Z.ltb_spec 255 (Z.of_nat (String.length (SessionApi.rq_Name rq)))); [lia|].
  rewrite H1, H2, Hp, Hdb, Hf, Ht, Hact. cbn [orb negb]. simpl (negb _). cbv iota.
  fold x. unfold CreateSession.
  assert (insertable (SessionApi.db w) x = true) as ->; [|by rewrite Hrow].
  unfold insertable. rewrite !bool_decide_true; [done| |done].
  rewrite (g_keys w Hg). by apply elem_of_dom_2 in Ht.
Qed.

(** C6: A start, from the request to the RUNNING row. The request answers 201 with
    a PROVISIONING row, and the command waits in the channel that is registered
    under the satellite's id as the request spelled it, if there is one with
    room. A daemon below its session limit whose process starts then has the
    session under the id of the row and queues the report RUNNING; and when the
    gateway gets this report on the satellite's stream, the row becomes RUNNING
    and the session is routed to this stream. *)
Theorem start_reaches_row s user rq sat t ch e e' cur lim body :
  Gateway.sys_ok (sys s) → (∀ id, uuid_Parse (uuid_String id) = Some id ∧ uuid_String id ≠ ""%string) →
  SessionApi.sessionStore (handlers c) = true → SessionApi.dbPool (handlers c) = true →
  SessionApi.streamRegistry (handlers c) = true →
  Gateway.has_store srv = true → Gateway.has_registry srv = true →
  as_create body = Some rq → valid_create rq →
  uuid_Parse (SessionApi.rq_SatelliteID rq) = Some sat → SessionApi.f_sat e = false →
  SessionApi.sats (world s) !! sat = Some t → Sats.s_status t = "active" →
  sessions (SessionApi.db (world s)) !! SessionApi.new_id e = None → SessionApi.f_row e = NoFault →
  Registry.satelliteStreams (SessionApi.registry (world s)) !! SessionApi.rq_SatelliteID rq = Some (Some ch) →
  let sid := uuid_String (SessionApi.new_id e) in
  ∃ s' x cmd,
  http s (mkRequest user "POST" "/api/v1/sessions" cur lim body) e e' =
    Ret (s', Some (RSession (SessionApi.mkResponse 201 (SessionApi.BSession x)))) ∧
  State x = StateProvisioning ∧
  sessions (SessionApi.db (world s')) !! SessionApi.new_id e = Some (inserted_row x) ∧
  pending (SessionApi.outbox (world s')) ch = pending (SessionApi.outbox (world s)) ch ++
    (if has_room (SessionApi.outbox (world s)) ch then [cmd] else []) ∧
  (∀ range d sp dp, Daemon.start_error sp = None → (length (Daemon.sendPriorityCh d) < 64)%nat →
     (Daemon.getMaxSessions (Daemon.max_env sp) <= 0 ∨
      Z.of_nat (size (Daemon.sessions d)) < Daemon.getMaxSessions (Daemon.max_env sp)) →
     let d' := Daemon.handleNexusMessage range d cmd sp dp in
     (∃ p y, Daemon.sessions d' !! sid = Some p ∧ Daemon.objs d' !! p = Some y ∧ Daemon.sState y = StateRunning) ∧
     Daemon.sendPriorityCh d' =
       Daemon.sendPriorityCh d ++ [SessionStateUpdate sid SESSION_STATE_RUNNING (Daemon.now sp) ""]) ∧
  (∀ k cn ts ge, Gateway.conns (sys s') !! k = Some cn → sid ∉ Gateway.sessionIDs cn →
     (∀ i, Gateway.flt ge i = NoFault) →
     ∃ s2 y, step s' (LGateway (Gateway.LRecv k (SessionStateUpdate sid SESSION_STATE_RUNNING ts "") ge)) = Ret s2 ∧
       sessions (SessionApi.db (world s2)) !! SessionApi.new_id e = Some y ∧ State y = StateRunning ∧
       Registry.GetStream (SessionApi.registry (world s2)) sid = (Some k, true)).
Proof.
  intros Hs Hlaw Hst Hdb Hreg Hgs Hgr Hb Hv Hp Hf Ht Hact Hnew Hrow Hch sid.
  assert (good (world s)) as Hgood by by apply good_of.
  unfold http. cbn [rq_method rq_path].
  rewrite mux_create. cbn [mbind option_bind serve rq_user rq_body]. rewrite Hb.
  rewrite (creates (world s) (handlers c) user rq e sat t) by done.
  set (x := SessionApi.new_session _ _ _ _). set (cmd := StartSessionCommand _ _ _ _ _ _).
  set (w1 := SessionApi.audit _ _ _ _).
  assert (SessionApi.registry w1 = SessionApi.registry (world s) ∧
          SessionApi.outbox w1 = SessionApi.outbox (world s) ∧
          SessionApi.db w1 = set_sessions (SessionApi.db (world s))
            (<[SessionApi.new_id e := inserted_row x]> (sessions (SessionApi.db (world s)))))
    as (Hr1 & Ho1 & Hd1) by (unfold w1, SessionApi.audit; by destruct (SessionApi.auditLogger _)).
  destruct (channel_found w1 (SessionApi.rq_SatelliteID rq) ch (handlers c) cmd) as (o & -> & Hpend);
    [by rewrite Hr1|rewrite Ho1; by eapply (g_routes _ Hgood); right|done|].
  rewrite Ho1 in Hpend. cbn [mbind go_bind].
  do 3 eexists. split; [reflexivity|]. split; [done|].
  split; [cbn; rewrite Hd1; apply lookup_insert_eq|]. split; [exact Hpend|]. split.
  - intros range d sp dp Hse Hroom Hmax. cbn. unfold Daemon.handleStartSessionCommand, Daemon.CreateSession.
    destruct (Hlaw (SessionApi.new_id e)) as [_ Hne]. fold sid in Hne |- *. apply String.eqb_neq in Hne as ->.
    assert ((0 <? Daemon.getMaxSessions (Daemon.max_env sp)) &&
            (Daemon.getMaxSessions (Daemon.max_env sp) <=? Z.of_nat (size (Daemon.sessions d))) = false) as ->.
    { destruct Hmax; [apply andb_false_intro1; lia|apply andb_false_intro2; lia]. }
    rewrite Hse. split; [|by rewrite Daemon.report_room].
    do 2 eexists. split; [apply lookup_insert_eq|]. split; [apply lookup_insert_eq|done].
  - intros k cn ts ge Hk Hin Hnf. cbn [step]. unfold gateway_step, Gateway.step. cbn [sys put].
    cbn [sys put Gateway.conns] in Hk. cbn [Gateway.conns]. rewrite Hk.
    set (n := Gateway.nexus _). cbn [Gateway.handle]. unfold Gateway.handle_state_update, Gateway.registerSession.
    destruct (Hlaw (SessionApi.new_id e)) as [Hpn Hne]. fold sid in Hne, Hpn. apply String.eqb_neq in Hne as Hne'.
    assert (Gateway.outboundCh cn = k) as Hout by (by apply Hs in Hk as [? _]).
    rewrite Hne', decide_False, Hgr, Hgs, Hpn, !Hnf by done. cbn [orb negb Gateway.fails]. rewrite decide_False by done.
    do 2 eexists. split; [reflexivity|]. cbn [world sys SessionApi.db SessionApi.registry Gateway.nexus Gateway.db
      Gateway.set_db Gateway.registry].
    rewrite (Gateway.session_state_update_moves uuid_Parse Itoa marshal _ _ _ _ _ (inserted_row x)).
    + rewrite lookup_insert_eq. split; [done|]. split; [done|].
      unfold Registry.GetStream. simpl. by rewrite lookup_insert_eq, Hout.
    + cbn. rewrite Hd1. apply lookup_insert_eq.
    + constructor.
Qed.
End System.

(** ** Examples *)

Definition demo_config : config :=
  mkConfig SessionApi.demo_handlers Patterns.everything true true Gateway.demo_db Sats.demo_table "".
Definition no_body : payload := mkPayload None None None None.

Notation demo f := (f Gateway.demo_String Gateway.demo_Parse Gateway.demo_Parse Gateway.demo_Itoa (λ _, None)
  Gateway.no_json Gateway.no_json Gateway.demo_range S id id id Gateway.demo_srv demo_config) (only parsing).

Lemma demo_law i : Gateway.demo_Parse (Gateway.demo_String i) = Some i ∧ Gateway.demo_String i ≠ ""%string.
Proof. split; [apply Gateway.demo_roundtrip|done]. Qed.

(** Satellite 1 has connected and registered. *)
Definition demo_labels : list label :=
  [LGateway Gateway.LConnect;
   LGateway (Gateway.LRecv 0 (RegisterRequest (Sats.demo_registration "edge" "fp1")) Gateway.demo_env)].
Definition demo_boot : Srv := boot Gateway.demo_db Sats.demo_table Gateway.demo_runs.
Definition demo_state : Srv :=
  match demo run demo_boot demo_labels with Ret s => s | Panic => demo_boot end.

Lemma demo_state_ok : Gateway.sys_ok (sys demo_state).
Proof.
  unfold demo_state.
  destruct (demo server_run_ok Gateway.demo_range_perm Gateway.demo_grow Gateway.demo_perm demo_labels demo_boot)
    as (s' & -> & Hs); [|exact Hs]. apply Gateway.boot_ok, Gateway.demo_tables_ok.
Qed.

Definition kill_request : request :=
  mkRequest None "POST" ("/api/v1/sessions/" +:+ Gateway.demo_String 7 +:+ "/kill") "" "" no_body.


Example kill_reaches_daemon_witness :
  ∃ s' u, http Gateway.demo_String Gateway.demo_Parse id id demo_config demo_state kill_request SessionApi.demo_env
            SatelliteApi.demo_env2 = Ret (s', Some (RSession (SessionApi.mkResponse 200 (SessionApi.BSession u)))) ∧
    State u = StateTerminated ∧
    pending (SessionApi.outbox (world s')) 0%N =
      pending (SessionApi.outbox (world demo_state)) 0%N ++ [KillCommand (Gateway.demo_String 7) (-1)].
Proof.
  destruct (kill_reaches_daemon Gateway.demo_String Gateway.demo_Parse id id demo_config demo_state None
    (Gateway.demo_String 7) 7 sample_session 0 SessionApi.demo_env SatelliteApi.demo_env2 "" "" no_body demo_state_ok)
    as (s' & u & H1 & H2 & _ & H3 & _); try (vm_compute; reflexivity).
  - repeat split; vm_compute; done.
  - apply IsTransitionValid_may. reflexivity.
  - exists s', u. split; [exact H1|]. split; [exact H2|]. rewrite H3. reflexivity.
Defined.

Definition demo_create : SessionApi.CreateSessionRequest :=
  SessionApi.mkCreate "s" (Gateway.demo_String 1) "pi" [] "" 0 0.

Example start_reaches_row_witness :
  ∃ s' x cmd, http Gateway.demo_String Gateway.demo_Parse id id demo_config demo_state
      (mkRequest None "POST" "/api/v1/sessions" "" "" (mkPayload (Some demo_create) None None None))
      SessionApi.demo_env SatelliteApi.demo_env2 =
      Ret (s', Some (RSession (SessionApi.mkResponse 201 (SessionApi.BSession x)))) ∧
    pending (SessionApi.outbox (world s')) 0%N =
      pending (SessionApi.outbox (world demo_state)) 0%N ++ [cmd].
Proof.
  destruct (start_reaches_row Gateway.demo_String Gateway.demo_Parse Gateway.demo_Parse Gateway.demo_Itoa
    (λ _, None) Gateway.no_json Gateway.no_json Gateway.demo_range S id id id Gateway.demo_srv demo_config
    demo_state None demo_create 1
    (Sats.add_tags (Sats.auto_tags (Sats.demo_registration "edge" "fp1"))
       (Sats.activate (Sats.demo_registration "edge" "fp1") 50 Sats.demo_sat)) 0 SessionApi.demo_env
    SatelliteApi.demo_env2 "" "" (mkPayload (Some demo_create) None None None) demo_state_ok demo_law)
    as (s' & x & cmd & H1 & _ & _ & H2 & _); try (vm_compute; reflexivity).
  - repeat split; vm_compute; (done || lia).
  - exists s', x, cmd. split; [exact H1|]. rewrite H2. reflexivity.
Defined.
End Server.
